(* ===== verification/_CoqProject ===== *)
-Q . S2P
Prelude.v
ListHead.v
Slab.v
PosixLock.v
Types.v
NodeTable.v
TableFacts.v
GraphFacts.v
LookupFacts.v
Path.v
MoveFacts.v
PathFacts.v
Buf.v
BufFacts.v
FsOps.v
Entry.v
Dir.v
Handlers.v
Opt.v
OptFacts.v
LLTypes.v
LowLevel.v
LLReply.v
LLData.v
LLOps.v
LLInit.v
LLSession.v
LLFacts.v
LLWire.v
LLRequests.v
LLOrder.v
LLStart.v
LLGate.v
Workers.v
WorkersFacts.v
WorkersInv.v
WorkersPool.v
WorkersSteps.v
WorkersLeave.v
WorkersMain.v
WorkersLoop.v
WorkersStop.v
WorkersEx.v
KTypes.v
KForget.v
KForgetFacts.v
KQueue.v
KInv.v
KSteps.v
KMoves.v
KRead.v
KWrite.v
KAbort.v
KThreads.v
KEnd.v
KSend.v
KWait.v
KDevice.v
KOrder.v
KLive.v
KTrace.v
KAnswer.v
KCopy.v
KStream.v
KCopyFacts.v
KPages.v
KSection.v
KReply.v
KSectionEx.v
KSink.v
KRequest.v
KDir.v
KDirFacts.v
KDirCache.v
KDirRun.v
KDirParse.v
KDirRead.v
KDirPack.v
KDirList.v
KDirEx.v
