(* ===== verification/Prelude.v ===== *)
(** * A verification of the FUSE library and device of fuse_splice

    The repository carries a fork of libfuse (fuse_module/libfuse) and of the kernel
    module (fuse_module/fuse_module) in which a reply may carry a section, a header and
    a footer that travel through memory while the payload is spliced.  This development
    models the library, from the message the kernel sends to the call of the file
    system and back, the kernel device: the queues of requests, the threads that
    wait on them, and the copying of requests and answers with their sections; and the
    reading of directories in the kernel.

    ** How the parts interact

    The kernel module queues requests (KQueue) and forgets (KForget) and hands them to
    the daemon by reads of the device, which copy the request to the daemon's buffer
    (KCopy).  The low-level library receives a message (LLSession), makes a
    request of it (LowLevel), reads its arguments and calls the operation of the file
    system (LLOps, LLInit), and sends the reply (LLReply, LLData).  A pool of threads
    does this for many messages at a time (Workers).  The device finds the
    request a reply belongs to (KQueue), copies the reply into it, and the header and
    footer of its payload to the section (KCopy).  The answer to a READDIR is parsed,
    passed on and cached (KDir); what it holds was packed by the library (Dir).  The high-level
    library is such a file system: its handlers (Handlers, Dir, Entry) translate node
    ids to paths (Path), over tables of nodes (NodeTable) that are made of slabs (Slab,
    ListHead), and call the operations of the user (FsOps).  Record locks (PosixLock),
    data buffers (Buf) and option parsing (Opt) serve all of them.

    ** Which file models which source

    - ListHead, Slab: [struct list_head] and the slab allocator of lib/fuse.c.
    - PosixLock: the lock lists of lib/fuse.c.
    - Types, NodeTable, Path: the structures, the node tables, path building and path
      locks of lib/fuse.c.  TableFacts, GraphFacts, LookupFacts, MoveFacts and PathFacts
      hold the proofs.
    - FsOps, Entry, Dir, Handlers: the [fuse_fs_*] wrappers and the [fuse_lib_*]
      handlers of lib/fuse.c, and the packing of directory entries.
    - Buf (proofs in BufFacts): lib/buffer.c.
    - Opt (proofs in OptFacts): lib/fuse_opt.c.
    - LLTypes, LowLevel, LLReply, LLData, LLOps, LLInit, LLSession: lib/fuse_lowlevel.c,
      with the channels of lib/fuse_loop_mt.c and the loop of lib/fuse_loop.c.  LLFacts,
      LLWire, LLRequests, LLOrder, LLStart and LLGate hold the proofs.
    - Workers: the worker threads of lib/fuse_loop_mt.c, over the session of the
      low-level library.  WorkersFacts, WorkersInv and WorkersPool hold the invariant,
      WorkersSteps, WorkersLeave, WorkersMain and WorkersLoop show that the steps of the
      workers, of the thread that waits and of the callers keep it; WorkersStop is the
      transition system with its theorems, WorkersEx runs it on examples.
    - KTypes, KForget: fuse_i.h and the queue of forgets of dev.c of the kernel module
      (proofs in KForgetFacts).
    - KQueue: the queues of requests, waiting, reading, answering, aborting and
      releasing of dev.c, the set-up of queues and devices of inode.c, and the limits
      of control.c.  The invariant is in KInv; KSteps, KMoves, KRead, KWrite, KAbort,
      KThreads, KEnd, KSend and KWait show that each operation keeps it.
    - KDevice: the events of the device as a step relation; KOrder (requests are not
      overtaken), KLive (they are served), KTrace (what holds of all reachable states)
      and KAnswer (which answer reaches which request).
    - KCopy: the copying functions of dev.c (lines 642 to 1094).  KStream, KCopyFacts,
      KPages, KSection and KReply are about answers and sections, with examples in
      KSectionEx; KSink and KRequest are about requests.
    - KDir: readdir.c of the kernel module, with the fields it uses of fuse_i.h and the
      checks of dir.c.  KDirFacts has records and pages, KDirCache the invariant of the
      cache and what other threads may do to it, KDirRun, KDirParse and KDirRead the
      sections of a call; KDirPack puts it together with the packing of Dir, KDirList has
      the theorems about calls, KDirEx runs them on examples.

    ** How code is modelled

    A function of the code is a definition of the same name.  A function that changes
    state or may fail is a computation of type [M S A]: from a state of type [S] it
    returns a value and a new state, or it stops with a [crash].  A crash is what C
    leaves undefined (a dangling or null pointer, an index out of range, signed
    overflow), a failed assertion, a call of abort, or a wait for a condition that
    nobody can signal any more.  [runs m s Q] says that [m] does not crash and that [Q]
    holds of its result, so a theorem about [runs] includes the absence of all of these
    and, by [OutOfFuel], termination of every loop.

    Memory objects are entries of finite maps from addresses; the address 0 is NULL;
    freeing removes the entry, so a use after free or a double free is a [BadAccess].
    An allocation takes its outcome from a list of booleans in the state, so theorems
    cover every pattern of failures.  Machine integers are [Z] with the wrap-around of
    their width written out ([u32], [u64]); signed [off_t] arithmetic that overflows
    crashes.

    Loops that are not structural take fuel.  The fuel is computed from the state at
    the call (the number of nodes, of links, of bytes left), and the theorems show that
    it does not run out; the measures are: the rest of the list for a chain walk, the
    distance to the root for a path walk, the free ids for [next_id], the bytes left for
    a copy.  In the kernel the queue of background requests is flushed with its length
    as fuel, forgets are dropped with the number of their links, a copy with the bytes
    it has left and the parts of the daemon's buffer that remain, and the section of a
    payload with the number of pages of the request.  The workers are cancelled with the
    number of links as fuel.

    ** What is a parameter

    Code that is not in the repository is a parameter: the system calls of Buf
    ([syscalls], with the contracts [Sink] and [Source] as the documented behaviour of
    read, write and splice), [sscanf] and the processing function of Opt, the calls of
    the host in LowLevel ([host]: writes to and reads from the device, pipes, splices,
    clocks), the operations of the user in FsOps, the file system [run_op] and the
    interrupt functions [run_intr] of the low-level library, the calls that clone a
    descriptor and create a thread ([system]), and the hash of the kernel's table of
    requests ([hash_long]).  In KDir the replies of the daemon, the dentry cache and what
    other threads do ([others]) are parameters.  Whether the kernel pins a page, takes one
    from a pipe or allocates one is an outcome in the state of KCopy, and the theorems
    cover every pattern of outcomes.  A theorem that constrains a parameter has a
    witness that applies it to a concrete function.

    ** What the theorems show

    - Node graph: the operations of the tables keep an invariant that ties both hash
      tables, reference and lookup counts, parents and the allocator together; lookups
      are exact; ids are fresh, also after the counter wraps; forgetting frees exactly
      what nobody refers to; renaming and unlinking change exactly the names they
      should ([find_node_correct], [forget_node_correct], [rename_node_correct],
      [remove_node_correct], [lookups_correct], [next_id_fresh]).
    - Paths: the buffer is never over- or underrun, the path leads back to its node,
      and path locks of concurrent requests exclude each other
      ([treelock_exclusion], [path_lock_roundtrip], [path_leads_back]).
    - Allocation: slabs implement a set of disjoint live nodes, lists implement
      sequences ([slab_refines_allocator], [list_head_refines_sequence]).
    - Record locks: inserting a lock means what POSIX says, byte by byte and owner by
      owner ([locks_insert_functional]).
    - Buffers: copies deliver the bytes in order, across piece boundaries, with memory,
      descriptors and splices ([fuse_buf_copy_memory], [copy_between_descriptors]).
    - Options: escaped lists are parsed back, parsing ends without a read or write out of
      bounds for every input ([fuse_opt_parse_safe], [option_group_roundtrip]).
    - Low-level library: every request is decoded to the call it means
      ([dispatch_roundtrip]); a request is freed exactly once, whatever the order of
      replies and interrupts ([requests_freed_once], [interrupt_order]); INIT agrees on
      consistent limits ([init_negotiation]); a message that is out of order is refused
      without a trace ([gate]).
    - Worker threads: whatever the order of messages, signals, failures and the end of the
      session, every step of the pool is safe, its counters, list and channels are
      exact, and nothing is left behind ([pool_safe]); once the session is over the loop
      returns ([pool_stops]).
    - Kernel device: the queue of forgets is a queue ([forget_queue_refines]).  In every
      state that can be reached, whatever the threads did and in whatever order, the
      requests are in exactly the queues their flags say, with exact reference counts
      ([device_well_formed]); an answer reaches the request it names and no other
      ([answer_reaches_its_request]); aborting ends every request
      ([abort_ends_everything]); a pending request is read after those before it
      ([pending_is_served]); active background requests stay within their limit
      ([background_within_limit]).
    - Copies of the device: the bytes of an answer reach the pages and arguments of the
      request ([answer_is_copied], for answers without a section; [copy_answer_runs] also
      for a payload whose header is in the first of several pages and whose footer is in
      the last, the one kind [fuse_split_payload] handles; the header and footer then go
      to the daemon's section and also stay in the pages, see KSectionEx); the daemon reads
      the bytes of the request in order ([request_is_copied]).
    - Directories: a call of readdir on a directory that does not change passes on exactly
      its entries, with and without the cache and whatever other readers do
      ([readdir_lists]); no reply of the daemon breaks it ([readdir_any_daemon]); it reads
      what the library packs ([packed_entries_read]).

    ** Bounds and simplifications

    The counts of a node ([treelock], [refctr], [open_count]) are unbounded integers:
    overflow of these C [int]s is not modelled.  [getpagesize] is 4096 in the low-level
    library ([LowLevel.pagesize]).  Texts of options are taken to be shorter than 2 GiB,
    as the [int] and [unsigned] lengths of lib/fuse_opt.c need.  The time at which a
    fresh node of the LRU list was forgotten is zero.  Structures of the protocol are
    read at their offsets on a 64-bit machine; bytes the code leaves uninitialised are
    a parameter ([h_junk]).  The low-level library is one thread at a time, with its
    mutexes as flags: taking a lock that is held is a [Block], giving back a lock that is
    not held an [AssertFail].  Log output is omitted where the code only reports.

    A step of the worker pool is a section under its mutex or a single access outside of
    it; the sections do not sleep, so they are atomic.  The pool and the session meet in
    the references to channels: the requests of [LLRequests] arrive, are interrupted and
    answered between the steps of the pool.  What a receive returns is an argument of
    its step, with the buffer reduced to its address and the opcode in it.

    An event of the kernel device is what a thread does between two points at which it
    sleeps, takes a page fault or returns.  Where such a part takes several spin locks one
    after the other ([read_request] between fiq->lock and fpq->lock, [fuse_abort_conn]
    from queue to queue), it is one event all the same: what another processor does between
    the two locks is not an interleaving of the model.  Waking threads up is left out: a thread that sleeps may run whenever what it
    waits for holds.  Pages and user memory are lists of bytes; flags of pages, dirty
    marks and cache flushes are left out.  Copying a section to the daemon
    ([KCopy.copy_to_user]) always succeeds; the code only prints when it fails, and may
    fault there while the request is locked.

    In KDir others run wherever a thread takes a spin lock, looks for or makes a page, asks
    the daemon or truncates the cache.  What they may do is [KDirCache.rely]: what the
    sections of a reader do ([wf_add], [wf_end], [wf_reset] and [wf_lose] show that each
    keeps the invariant and lets the cache go on), and taking pages away.  Three things are
    excluded: that the version of the cache passes 2^62 or its size does, that others
    take away the page a thread has locked, and that they both use and lose the page a
    thread is about to create; the last can happen, and leaves a page without contents
    in the cache (the example [race_leaves_garbage]).  The calls of a cached read are
    retried as often as others make it start again; the bound on the version makes that
    end, and the theorems give a fuel for it.

    ** Not modelled

    - mounting and unmounting (lib/mount.c, util/): system calls, fork and exec;
    - the attributes and signal masks of threads, loading of modules, help texts: glue;
    - lib/helper.c, lib/cuse_lowlevel.c and the installing of signal handlers of
      lib/fuse_signals.c: main-program glue;
    - lib/modules: stackable file systems over the same operations, and a third-party
      character conversion;
    - the calls of splice, poll and ioctl around the copies of the kernel device, and the
      notifications it hands to inode.c;
    - the kernel module apart from its device and readdir.c (inode.c, dir.c, file.c and
      others):
      callbacks of the virtual file system and the page cache, which are not in the
      repository;
    - the example file systems and benchmarks. *)
From stdpp Require Export base tactics numbers list gmap strings sorting.
From Stdlib Require Export ZArith Lia.
#[global] Open Scope Z_scope.
#[global] Set Default Goal Selector "!".

(** * Outcomes of C code

    [Ok] is a normal return.  The other outcomes are the ways the code can stop:
    [abort(3)], a failing [assert(3)], and an access the C language leaves
    undefined (a null or dangling pointer, an index outside an array, a signed
    overflow).
    [Block] is a thread that sleeps on a condition variable nobody has signalled.
    [OutOfFuel] is not an outcome of the code: it marks a loop whose bound in
    the model was too small, and the termination theorems exclude it. *)
Inductive crash : Type :=
| Abort
| AssertFail
| BadAccess
| Overflow
| Block
| OutOfFuel.

Inductive res (A : Type) : Type :=
| Ok (a : A)
| Crash (c : crash).
Arguments Ok {A} a.
Arguments Crash {A} c.

#[global] Instance crash_eq_dec : EqDecision crash.
Proof. solve_decision. Defined.

#[global] Instance res_ret : MRet res := fun A a => Ok a.
#[global] Instance res_bind : MBind res := fun A B f m =>
  match m with Ok a => f a | Crash c => Crash c end.

(** A computation on a state of type [S]: it stops, or returns a value and the
    new state. *)
Definition M (S A : Type) : Type := S -> res (A * S).

#[global] Instance M_ret S : MRet (M S) := fun A a s => Ok (a, s).
#[global] Instance M_bind S : MBind (M S) := fun A B f m s =>
  match m s with Ok (a, s') => f a s' | Crash c => Crash c end.

Definition crashM {S A : Type} (c : crash) : M S A := fun _ => Crash c.
Definition getM {S : Type} : M S S := fun s => Ok (s, s).
Definition getsM {S A : Type} (g : S -> A) : M S A := fun s => Ok (g s, s).
Definition putM {S : Type} (s : S) : M S unit := fun _ => Ok (tt, s).
Definition modifyM {S : Type} (g : S -> S) : M S unit := fun s => Ok (tt, g s).

(** [assert(b)]. *)
Definition assertM {S : Type} (b : bool) : M S unit :=
  if b then mret tt else crashM AssertFail.

(** A pointer or an index that must be valid. *)
Definition derefM {S A : Type} (o : option A) : M S A :=
  match o with Some a => mret a | None => crashM BadAccess end.

(** The run of [m] from [s] finishes normally and its result satisfies [Q]. *)
Definition runs {S A : Type} (m : M S A) (s : S) (Q : A -> S -> Prop) : Prop :=
  exists a s', m s = Ok (a, s') /\ Q a s'.

Section Runs.
Context {S A B : Type}.
Implicit Types (m : M S A) (k : A -> M S B) (s : S).

Lemma runs_ret (a : A) s (Q : A -> S -> Prop) : Q a s -> runs (mret a) s Q.
Proof. intros HQ. by exists a, s. Qed.

Lemma runs_bind m k s (P : A -> S -> Prop) (Q : B -> S -> Prop) :
  runs m s P -> (forall a s', P a s' -> runs (k a) s' Q) -> runs (m ≫= k) s Q.
Proof.
  intros (a & s1 & Hm & HP) Hk. destruct (Hk a s1 HP) as (b & s2 & Hb & HQ).
  exists b, s2. split; [|done]. unfold mbind, M_bind. by rewrite Hm.
Qed.

Lemma runs_mono m s (P Q : A -> S -> Prop) :
  runs m s P -> (forall a s', P a s' -> Q a s') -> runs m s Q.
Proof. intros (a & s' & Hm & HP) HPQ. exists a, s'. eauto. Qed.

Lemma runs_det m s (a : A) s' (Q : A -> S -> Prop) :
  runs m s Q -> m s = Ok (a, s') -> Q a s'.
Proof. intros (a' & s'' & Hm & HQ) Hm'. rewrite Hm in Hm'. by simplify_eq. Qed.

Lemma bind_Ok m k s (a : A) s1 : m s = Ok (a, s1) -> (m ≫= k) s = k a s1.
Proof. intros Hm. unfold mbind, M_bind. by rewrite Hm. Qed.

Lemma runs_Ok_bind m k s (a : A) s1 (Q : B -> S -> Prop) :
  m s = Ok (a, s1) -> runs (k a) s1 Q -> runs (m ≫= k) s Q.
Proof. intros Hm. unfold runs. by rewrite (bind_Ok _ _ _ _ _ Hm). Qed.

Lemma bind_assoc_eq {C} m k (j : B -> M S C) s :
  ((m ≫= k) ≫= j) s = (m ≫= (fun a => k a ≫= j)) s.
Proof. unfold mbind, M_bind. by destruct (m s) as [[a s1]|]. Qed.

Lemma run_from m s1 s2 (R : res (A * S)) : s1 = s2 -> m s2 = R -> m s1 = R.
Proof. by intros ->. Qed.

Lemma runs_from m s1 s2 Q : s1 = s2 -> runs m s2 Q -> runs m s1 Q.
Proof. by intros ->. Qed.

Lemma bind_inv m k s (b : B) s2 :
  (m ≫= k) s = Ok (b, s2) -> exists a s1, m s = Ok (a, s1) /\ k a s1 = Ok (b, s2).
Proof.
  unfold mbind, M_bind. destruct (m s) as [[a s1]|c] eqn:Hm; [|done].
  intros Hk. eauto.
Qed.

Lemma runs_get_bind (k : S -> M S B) s Q : runs (k s) s Q -> runs (getM ≫= k) s Q.
Proof. done. Qed.

Lemma runs_put_bind (k : unit -> M S B) s s' Q :
  runs (k tt) s' Q -> runs (putM s' ≫= k) s Q.
Proof. done. Qed.

Lemma runs_modify_bind (k : unit -> M S B) g s Q :
  runs (k tt) (g s) Q -> runs (modifyM g ≫= k) s Q.
Proof. done. Qed.

Lemma runs_ret_bind (a : A) k s Q : runs (k a) s Q -> runs (mret a ≫= k) s Q.
Proof. done. Qed.

Lemma runs_deref_bind (o : option A) (a : A) k s Q :
  o = Some a -> runs (k a) s Q -> runs (derefM o ≫= k) s Q.
Proof. by intros ->. Qed.

Lemma runs_assert_bind (b : bool) (k : unit -> M S B) s Q :
  b = true -> runs (k tt) s Q -> runs (assertM b ≫= k) s Q.
Proof. by intros ->. Qed.

Lemma runs_bind_assoc {C} m k (j : B -> M S C) s Q :
  runs (m ≫= (fun a => k a ≫= j)) s Q -> runs ((m ≫= k) ≫= j) s Q.
Proof.
  intros (c & s' & Hm & HQ). exists c, s'. split; [|done].
  unfold mbind, M_bind in *. by destruct (m s) as [[a s1]|].
Qed.

Lemma runs_bind_unassoc {C} m k (j : B -> M S C) s Q :
  runs ((m ≫= k) ≫= j) s Q -> runs (m ≫= (fun a => k a ≫= j)) s Q.
Proof.
  intros (c & s' & Hm & HQ). exists c, s'. split; [|done].
  unfold mbind, M_bind in *. by destruct (m s) as [[a s1]|].
Qed.
End Runs.

(** One step of a computation whose outcome is known. *)
Create HintDb cmd.
#[export] Hint Resolve runs_ret runs_get_bind runs_put_bind runs_modify_bind
  runs_ret_bind runs_assert_bind : cmd.

Ltac mstep :=
  match goal with
  | |- runs (getM ≫= _) _ _ => apply runs_get_bind
  | |- runs (putM _ ≫= _) _ _ => apply runs_put_bind
  | |- runs (modifyM _ ≫= _) _ _ => apply runs_modify_bind
  | |- runs (mret _ ≫= _) _ _ => apply runs_ret_bind
  | |- runs ((_ ≫= _) ≫= _) _ _ => apply runs_bind_assoc
  | |- runs (derefM _ ≫= _) _ _ => eapply runs_deref_bind; [first [eassumption | reflexivity]|]
  end; cbv beta; simpl.
Ltac msteps := repeat mstep.

(** ** Machine integers *)
Definition u32 (z : Z) : Z := z mod 2 ^ 32.
Definition u64 (z : Z) : Z := z mod 2 ^ 64.

(** Signed arithmetic on [off_t] (64 bits): out of range is undefined in C. *)
Definition OFFSET_MAX : Z := 2 ^ 63 - 1.
Definition OFFSET_MIN : Z := - 2 ^ 63.
Definition off_in (z : Z) : bool := (OFFSET_MIN <=? z) && (z <=? OFFSET_MAX).
Definition off (z : Z) : res Z := if off_in z then Ok z else Crash Overflow.

Lemma off_ok z : OFFSET_MIN <= z <= OFFSET_MAX -> off z = Ok z.
Proof.
  intros [H1 H2]. unfold off, off_in.
  by rewrite (proj2 (Z.leb_le _ _) H1), (proj2 (Z.leb_le _ _) H2).
Qed.

Lemma res_bind_Ok {A B} (a : A) (f : A -> res B) : (Ok a ≫= f) = f a.
Proof. done. Qed.

(** Split on every boolean comparison of integers that occurs, and leave the
    facts in the context for [lia]. *)
Ltac zcases :=
  repeat match goal with
  | H : context [?a <? ?b] |- _ => destruct (Z.ltb_spec a b)
  | H : context [?a <=? ?b] |- _ => destruct (Z.leb_spec a b)
  | H : context [?a =? ?b] |- _ => destruct (Z.eqb_spec a b)
  | |- context [?a <? ?b] => destruct (Z.ltb_spec a b)
  | |- context [?a <=? ?b] => destruct (Z.leb_spec a b)
  | |- context [?a =? ?b] => destruct (Z.eqb_spec a b)
  end.

(** The loop that doubles an [unsigned] size until it is at least [need], used by
    [add_name] and [extend_contents]. *)
Fixpoint grow (fuel : nat) (size need : Z) : res Z :=
  if size <? need then
    match fuel with
    | O => Crash OutOfFuel
    | S fuel =>
      grow fuel (if 0x80000000 <=? size then 0xffffffff else size * 2) need
    end
  else Ok size.

(** 32 doublings take any non-zero size past 2^32. *)
Definition grow_fuel : nat := 33.

Definition liftM {S A : Type} (r : res A) : M S A :=
  fun s => match r with Ok a => Ok (a, s) | Crash c => Crash c end.

(** ** Strings *)
Lemma string_app_cons c (a b : string) : String c a +:+ b = String c (a +:+ b).
Proof. done. Qed.

Lemma string_app_nil_r (s : string) : s +:+ "" = s.
Proof. induction s as [|c s IH]; [done|]. by rewrite string_app_cons, IH. Qed.

Lemma string_app_assoc (a b c : string) : (a +:+ b) +:+ c = a +:+ (b +:+ c).
Proof. induction a as [|x a IH]; [done|]. by rewrite !string_app_cons, IH. Qed.

Lemma string_app_snoc (a : string) c b : (a +:+ String c "") +:+ b = a +:+ String c b.
Proof. by rewrite string_app_assoc. Qed.

Lemma app_not_nil (a : string) c b : a +:+ String c b <> ""%string.
Proof. by destruct a. Qed.

Lemma string_app_length (a b : string) :
  String.length (a +:+ b) = (String.length a + String.length b)%nat.
Proof. induction a as [|x a IH]; [done|]. rewrite string_app_cons. simpl. by rewrite IH. Qed.

(** ** Maps *)
Lemma alter_insert_eq {A} (g : A -> A) (w : Z) (h : gmap Z A) n : h !! w = Some n ->
  alter g w h = <[w := g n]> h.
Proof.
  intros Hw. apply map_eq. intros q. destruct (decide (q = w)) as [->|].
  - by rewrite lookup_alter_eq, lookup_insert_eq, Hw.
  - by rewrite lookup_alter_ne, lookup_insert_ne.
Qed.

(** ** Numbers and their bytes *)

(** [n] bytes of [z], least significant first. *)
Fixpoint le_bytes (n : nat) (z : Z) : list Z :=
  match n with
  | O => []
  | S n => z mod 256 :: le_bytes n (z / 256)
  end.

(** The number whose bytes are [l], least significant first. *)
Fixpoint le_num (l : list Z) : Z :=
  match l with [] => 0 | b :: l => b + 256 * le_num l end.

Lemma le_bytes_length n : forall z, length (le_bytes n z) = n.
Proof. induction n as [|n IH]; intros z; simpl; [done|]. by rewrite IH. Qed.

Lemma le_num_bytes n : forall z, le_num (le_bytes n z) = z mod 256 ^ Z.of_nat n.
Proof.
  induction n as [|n IH]; intros z; [by rewrite Z.mod_1_r|].
  change (le_num (le_bytes (S n) z)) with (z mod 256 + 256 * le_num (le_bytes n (z / 256))).
  rewrite IH, Nat2Z.inj_succ, Z.pow_succ_r by lia.
  rewrite Z.rem_mul_r by lia. lia.
Qed.
