(* ===== verification/ListHead.v ===== *)
(** * Circular doubly linked lists (lib/fuse.c, 379-416)

    [struct list_head] in memory, a pair of links per address, and the proof that
    the pointer operations implement the operations on sequences that the slab
    allocator and the LRU list are modelled with. *)
From S2P Require Import Prelude.

Module ListHead.

Record list_head : Type := mk_head { next : Z; prev : Z }.

Notation mem := (gmap Z list_head) (only parsing).

Definition load (a : Z) : M mem list_head :=
  m ← getM; derefM ((m : mem) !! a).

Definition store_next (a v : Z) : M mem unit :=
  h ← load a; modifyM (fun m : mem => <[a := mk_head v (prev h)]> m).
Definition store_prev (a v : Z) : M mem unit :=
  h ← load a; modifyM (fun m : mem => <[a := mk_head (next h) v]> m).

Definition init_list_head (lst : Z) : M mem unit :=
  store_next lst lst;; store_prev lst lst.

Definition list_empty (head : Z) : M mem bool :=
  h ← load head; mret (next h =? head).

Definition list_add (new prev' next' : Z) : M mem unit :=
  store_prev next' new;;
  store_next new next';;
  store_prev new prev';;
  store_next prev' new.

Definition list_add_head (new head : Z) : M mem unit :=
  h ← load head; list_add new head (next h).

Definition list_add_tail (new head : Z) : M mem unit :=
  h ← load head; list_add new (prev h) head.

Definition list_del (entry : Z) : M mem unit :=
  e ← load entry;
  store_prev (next e) (prev e);;
  store_next (prev e) (next e).

(** ** The sequence a head stands for *)
Definition nxt (m : mem) (a : Z) : option Z := next <$> m !! a.
Definition prv (m : mem) (a : Z) : option Z := prev <$> m !! a.

(** [a] and [b] are neighbours. *)
Definition link (m : mem) (a b : Z) : Prop := nxt m a = Some b /\ prv m b = Some a.

(** The cycle from [head] through [l] and back. *)
Definition is_list (m : mem) (head : Z) (l : list Z) : Prop :=
  NoDup (head :: l) /\ Forall2 (link m) (head :: l) (l ++ [head]).

(** [m'] differs from [m] at most at the addresses [as_]. *)
Definition only_at (as_ : list Z) (m m' : mem) : Prop :=
  forall a, a ∉ as_ -> m' !! a = m !! a.

Section Links.
Implicit Types (m : mem) (l : list Z).

Lemma store_next_runs m a v : is_Some (m !! a) ->
  runs (store_next a v) m (fun _ m' => nxt m' a = Some v /\ prv m' a = prv m a /\ only_at [a] m m').
Proof.
  intros [h Hh]. unfold store_next, load. msteps.
  exists tt, (<[a := mk_head v (prev h)]> m). split; [done|]. unfold nxt, prv.
  rewrite lookup_insert_eq, Hh. split_and!; [done..|]. intros b Hb.
  rewrite lookup_insert_ne; [done|]. set_solver.
Qed.

Lemma store_prev_runs m a v : is_Some (m !! a) ->
  runs (store_prev a v) m (fun _ m' => prv m' a = Some v /\ nxt m' a = nxt m a /\ only_at [a] m m').
Proof.
  intros [h Hh]. unfold store_prev, load. msteps.
  exists tt, (<[a := mk_head (next h) v]> m). split; [done|]. unfold nxt, prv.
  rewrite lookup_insert_eq, Hh. split_and!; [done..|]. intros b Hb.
  rewrite lookup_insert_ne; [done|]. set_solver.
Qed.

(** What a store of either kind leaves of the other links. *)
Definition set_nxt (a v : Z) (m m' : mem) : Prop :=
  (forall b, nxt m' b = if decide (b = a) then Some v else nxt m b) /\
  (forall b, prv m' b = prv m b) /\ only_at [a] m m'.
Definition set_prv (a v : Z) (m m' : mem) : Prop :=
  (forall b, prv m' b = if decide (b = a) then Some v else prv m b) /\
  (forall b, nxt m' b = nxt m b) /\ only_at [a] m m'.

Lemma set_nxt_runs m a v : is_Some (m !! a) -> runs (store_next a v) m (fun _ => set_nxt a v m).
Proof.
  intros Ha. eapply runs_mono; [by apply store_next_runs|]. intros [] m' (Hn & Hp & Ho).
  split_and!; [..|done]; intros b; destruct (decide (b = a)) as [->|Hb]; try done;
    unfold nxt, prv; by rewrite (Ho b) by set_solver.
Qed.

Lemma set_prv_runs m a v : is_Some (m !! a) -> runs (store_prev a v) m (fun _ => set_prv a v m).
Proof.
  intros Ha. eapply runs_mono; [by apply store_prev_runs|]. intros [] m' (Hn & Hp & Ho).
  split_and!; [..|done]; intros b; destruct (decide (b = a)) as [->|Hb]; try done;
    unfold nxt, prv; by rewrite (Ho b) by set_solver.
Qed.

Lemma mapped_nxt m a : is_Some (m !! a) <-> is_Some (nxt m a).
Proof. unfold nxt. by rewrite fmap_is_Some. Qed.

Lemma mapped_prv m a : is_Some (m !! a) <-> is_Some (prv m a).
Proof. unfold prv. by rewrite fmap_is_Some. Qed.

Lemma set_nxt_mapped m m' a v b : set_nxt a v m m' -> is_Some (m !! b) -> is_Some (m' !! b).
Proof. intros (_ & Hp & _). rewrite !mapped_prv. by rewrite Hp. Qed.

Lemma set_prv_mapped m m' a v b : set_prv a v m m' -> is_Some (m !! b) -> is_Some (m' !! b).
Proof. intros (_ & Hp & _). rewrite !mapped_nxt. by rewrite Hp. Qed.

Lemma links_frame m m' S T : Forall2 (link m) S T ->
  (forall a, a ∈ S -> nxt m' a = nxt m a) -> (forall b, b ∈ T -> prv m' b = prv m b) ->
  Forall2 (link m') S T.
Proof.
  intros H Hs Ht. apply Forall2_same_length_lookup. split; [by eapply Forall2_length|].
  intros i a b Ha Hb. destruct (Forall2_lookup_lr _ _ _ _ _ _ H Ha Hb) as [Hn Hp].
  split; [rewrite Hs|rewrite Ht]; try done; by eapply list_elem_of_lookup_2.
Qed.

(** A list cut at a place: the neighbours [p] and [n] of the cut, and the links before
    and after it. *)
Lemma is_list_cut m head l1 l2 : is_list m head (l1 ++ l2) ->
  exists S1 p n T2, head :: l1 = S1 ++ [p] /\ l2 ++ [head] = n :: T2 /\
    Forall2 (link m) S1 l1 /\ link m p n /\ Forall2 (link m) l2 T2 /\
    p ∉ S1 /\ p ∉ l2 /\ n ∉ l1 /\ n ∉ T2 /\ NoDup (S1 ++ p :: l2).
Proof.
  intros [Hnd H].
  destruct (exists_last (l := head :: l1)) as (S1 & p & HS); [done|].
  assert (Hn : exists n T2, l2 ++ [head] = n :: T2) by (destruct l2; simpl; eauto).
  destruct Hn as (n & T2 & HT). exists S1, p, n, T2.
  rewrite app_comm_cons, HS, <- app_assoc in H. rewrite <- app_assoc, HT in H. simpl in H.
  rewrite app_comm_cons, HS, <- app_assoc in Hnd. simpl in Hnd.
  assert (Hlen : length S1 = length l1).
  { apply (f_equal length) in HS. rewrite length_app in HS. simpl in HS. lia. }
  apply Forall2_app_inv in H as [H1 H2]; [|done]. apply Forall2_cons in H2 as [H2 H3].
  apply NoDup_app in Hnd as Hnd'. destruct Hnd' as (Hnd1 & Hsep & Hnd2).
  apply NoDup_cons in Hnd2 as [Hp Hnd2].
  assert (Htn : NoDup (l1 ++ n :: T2)).
  { rewrite <- HT, app_assoc. rewrite Permutation_app_comm. simpl.
    rewrite app_comm_cons, HS, <- app_assoc. done. }
  apply NoDup_app in Htn as (_ & Hsep2 & Hnd3). apply NoDup_cons in Hnd3 as [Hn Hnd3].
  split_and!; try done.
  - intros Hin. apply (Hsep p Hin). by left.
  - intros Hin. apply (Hsep2 n Hin). by left.
Qed.

Lemma is_list_place m head S1 l1 p n l2 T2 : head :: l1 = S1 ++ [p] -> l2 ++ [head] = n :: T2 ->
  forall new, head :: l1 ++ new :: l2 = S1 ++ p :: new :: l2 /\
    (l1 ++ new :: l2) ++ [head] = l1 ++ new :: n :: T2.
Proof.
  intros HS HT new. split.
  - by rewrite app_comm_cons, HS, <- app_assoc.
  - by rewrite <- app_assoc, <- app_comm_cons, HT.
Qed.

(** Links of which those of [new] and of its neighbours [p] and [n] have been set. *)
Definition added (m m' : mem) (new p n : Z) : Prop :=
  (forall b, nxt m' b = if decide (b = p) then Some new
     else if decide (b = new) then Some n else nxt m b) /\
  (forall b, prv m' b = if decide (b = new) then Some p
     else if decide (b = n) then Some new else prv m b).

Lemma is_list_added m m' head l1 l2 new S1 p n T2 :
  is_list m head (l1 ++ l2) -> new ∉ head :: l1 ++ l2 ->
  head :: l1 = S1 ++ [p] -> l2 ++ [head] = n :: T2 -> added m m' new p n ->
  is_list m' head (l1 ++ new :: l2).
Proof.
  intros Hl Hnew HS HT [Hnxt Hprv].
  destruct (is_list_cut m head l1 l2 Hl) as (S1' & p' & n' & T2' & HS' & HT' & H1 & [Hpn Hnp] & H2
    & Hp1 & Hp2 & Hn1 & Hn2 & Hnd).
  rewrite HS in HS'. apply app_inj_tail in HS' as [<- <-].
  rewrite HT in HT'. injection HT' as <- <-.
  assert (Hin : p ∈ head :: l1 ++ l2 /\ n ∈ head :: l1 ++ l2).
  { rewrite app_comm_cons, HS. split; [set_solver|]. rewrite <- HS.
    assert (n ∈ l2 ++ [head]) by (rewrite HT; by left). set_solver. }
  destruct Hin as [Hpin Hnin].
  assert (Hne : new <> p /\ new <> n) by set_solver. destruct Hne as [Hne1 Hne2].
  destruct (is_list_place m head S1 l1 p n l2 T2 HS HT new) as [Hs Ht].
  destruct Hl as [Hnd0 _]. split.
  { rewrite app_comm_cons, <- Permutation_middle. apply NoDup_cons. done. }
  rewrite Hs, Ht. apply Forall2_app; [|constructor; [|constructor]].
  - eapply links_frame; [exact H1|..]; intros b Hb; rewrite ?Hnxt, ?Hprv.
    + rewrite !decide_False; [done|..]; [intros ->; apply Hnew|by intros ->].
      rewrite app_comm_cons, HS. set_solver.
    + rewrite !decide_False; [done|by intros ->|..]. intros ->. apply Hnew. set_solver.
  - split; rewrite ?Hnxt, ?Hprv, !decide_True; done.
  - split; rewrite ?Hnxt, ?Hprv; [rewrite decide_False, decide_True; done|].
    rewrite decide_False, decide_True; done.
  - eapply links_frame; [exact H2|..]; intros b Hb; rewrite ?Hnxt, ?Hprv.
    + rewrite !decide_False; [done|..]; [intros ->; apply Hnew; set_solver|by intros ->].
    + rewrite !decide_False; [done|by intros ->|..]. intros ->. apply Hnew.
      assert (new ∈ l2 ++ [head]) by (rewrite HT; by right). set_solver.
Qed.

(** The neighbours at a cut are on the list, and in memory. *)
Lemma is_list_near m head l1 l2 S1 p n T2 : is_list m head (l1 ++ l2) ->
  head :: l1 = S1 ++ [p] -> l2 ++ [head] = n :: T2 ->
  (p ∈ head :: l1 ++ l2 /\ n ∈ head :: l1 ++ l2) /\ is_Some (m !! p) /\ is_Some (m !! n).
Proof.
  intros Hl HS HT.
  destruct (is_list_cut m head l1 l2 Hl) as (S1' & p' & n' & T2' & HS' & HT' & _ & [Hpn Hnp] & _).
  rewrite HS in HS'. apply app_inj_tail in HS' as [<- <-].
  rewrite HT in HT'. injection HT' as <- <-. split.
  - rewrite app_comm_cons, HS. split; [set_solver|]. rewrite <- HS.
    assert (n ∈ l2 ++ [head]) by (rewrite HT; by left). set_solver.
  - split; [apply mapped_nxt|apply mapped_prv]; eauto.
Qed.

(** [list_add] between the neighbours at a cut. *)
Lemma list_add_runs m head l1 l2 new S1 p n T2 :
  is_list m head (l1 ++ l2) -> new ∉ head :: l1 ++ l2 -> is_Some (m !! new) ->
  head :: l1 = S1 ++ [p] -> l2 ++ [head] = n :: T2 ->
  runs (list_add new p n) m (fun _ m' => is_list m' head (l1 ++ new :: l2) /\
    only_at [p; n; new] m m').
Proof.
  intros Hl Hnew Hmap HS HT.
  destruct (is_list_near m head l1 l2 S1 p n T2 Hl HS HT) as ([Hpin Hnin] & Hmp & Hmn).
  unfold list_add.
  eapply runs_bind; [by apply set_prv_runs|]. intros [] m1 E1.
  eapply runs_bind; [apply set_nxt_runs; by eapply set_prv_mapped|]. intros [] m2 E2.
  eapply runs_bind; [apply set_prv_runs; eapply set_nxt_mapped; [done|]; by eapply set_prv_mapped|].
  intros [] m3 E3. eapply runs_mono.
  { apply set_nxt_runs. eapply set_prv_mapped; [done|]. eapply set_nxt_mapped; [done|].
    by eapply set_prv_mapped. }
  intros [] m4 E4. destruct E1 as (E1p & E1n & E1o), E2 as (E2n & E2p & E2o),
    E3 as (E3p & E3n & E3o), E4 as (E4n & E4p & E4o).
  split; [|intros a Ha; rewrite E4o, E3o, E2o, E1o by set_solver; done].
  eapply is_list_added; [done..|]. split; intros b.
  - by rewrite E4n, E3n, E2n, E1n.
  - by rewrite E4p, E3p, E2p, E1p.
Qed.

Lemma load_runs {B} m a h (k : list_head -> M mem B) Q : m !! a = Some h ->
  runs (k h) m Q -> runs (load a ≫= k) m Q.
Proof. intros Hh Hk. unfold load. mstep. mstep. eapply runs_deref_bind; [exact Hh|exact Hk]. Qed.

Lemma nxt_prv m a n p : nxt m a = Some n -> prv m a = Some p -> m !! a = Some (mk_head n p).
Proof. unfold nxt, prv. destruct (m !! a) as [[]|]; [|done]. by intros [= ->] [= ->]. Qed.

(** Links of which those of the neighbours [p] and [n] of an entry have been set. *)
Definition skipped (m m' : mem) (p n : Z) : Prop :=
  (forall b, nxt m' b = if decide (b = p) then Some n else nxt m b) /\
  (forall b, prv m' b = if decide (b = n) then Some p else prv m b).

(** The neighbours of an entry, and the list without it. *)
Lemma is_list_skipped m head l1 x l2 : is_list m head (l1 ++ x :: l2) ->
  exists p n, m !! x = Some (mk_head n p) /\ p ∈ head :: l1 /\ n ∈ l2 ++ [head] /\
    is_Some (m !! p) /\ is_Some (m !! n) /\
    forall m', skipped m m' p n -> is_list m' head (l1 ++ l2).
Proof.
  intros Hl. destruct (is_list_cut m head l1 (x :: l2) Hl) as
    (S1 & p & n' & T1 & HS & HT & H1 & [Hpx Hxp] & H2 & Hp1 & Hp2 & Hn1 & Hn2 & Hnd).
  simpl in HT. injection HT as <- <-.
  assert (HT : exists n T2, l2 ++ [head] = n :: T2) by (destruct l2; simpl; eauto).
  destruct HT as (n & T2 & HT). rewrite HT in H2, Hn2.
  apply Forall2_cons in H2 as [[Hxn Hnx] H2].
  assert (Hpin : p ∈ head :: l1) by (rewrite HS; set_solver).
  assert (Hnin : n ∈ l2 ++ [head]) by (rewrite HT; by left).
  destruct Hl as [Hnd0 _].
  assert (HndT : NoDup (l2 ++ [head])).
  { rewrite Permutation_app_comm. simpl. eapply sublist_NoDup; [exact Hnd0|].
    apply sublist_skip. apply sublist_inserts_l. by apply sublist_cons. }
  rewrite HT in HndT. apply NoDup_cons in HndT as [HnT _].
  exists p, n. split; [by apply nxt_prv|]. split_and!; [done..|apply mapped_nxt; eauto|apply mapped_prv; eauto|].
  intros m2 [Hnxt Hprv]. split.
  { rewrite app_comm_cons, <- Permutation_middle in Hnd0. by apply NoDup_cons in Hnd0 as [_ ?]. }
  rewrite app_comm_cons, HS, <- app_assoc. rewrite <- app_assoc, HT. simpl.
  apply Forall2_app; [|constructor].
  - eapply links_frame; [exact H1|..]; intros b Hb; rewrite ?Hnxt, ?Hprv;
      rewrite decide_False; try done; [by intros ->|]. intros ->.
    rewrite app_comm_cons in Hnd0. apply NoDup_app in Hnd0 as (Hnd1 & Hsep & _).
    apply NoDup_cons in Hnd1 as [Hh1 _].
    apply elem_of_app in Hnin as [Hin|Hin%list_elem_of_singleton]; [|by subst].
    apply (Hsep n); by right.
  - split; rewrite ?Hnxt, ?Hprv, decide_True; done.
  - eapply links_frame; [exact H2|..]; intros b Hb; rewrite ?Hnxt, ?Hprv;
      rewrite decide_False; try done; intros ->; [apply Hp2; by right|done].
Qed.

Lemma list_del_runs m head l1 x l2 : is_list m head (l1 ++ x :: l2) ->
  runs (list_del x) m (fun _ m' => is_list m' head (l1 ++ l2) /\
    only_at (head :: l1 ++ l2) m m').
Proof.
  intros Hl. destruct (is_list_skipped m head l1 x l2 Hl) as
    (p & n & Hx & Hpin & Hnin & Hmp & Hmn & Hd).
  unfold list_del. eapply load_runs; [exact Hx|]. simpl.
  eapply runs_bind; [by apply set_prv_runs|]. intros [] m1 E1.
  eapply runs_mono; [apply set_nxt_runs; by eapply set_prv_mapped|].
  intros [] m2 E2. destruct E1 as (E1p & E1n & E1o), E2 as (E2n & E2p & E2o).
  split; [|intros a Ha; rewrite E2o, E1o by set_solver; done].
  apply Hd. split; intros b; [by rewrite E2n, E1n|by rewrite E2p, E1p].
Qed.

Lemma list_end_next m head l : is_list m head l ->
  nxt m head = Some (hd head l) /\ prv m head = Some (List.last l head).
Proof.
  intros Hl. split.
  - destruct (is_list_cut m head [] l Hl) as (S1 & p & n & T2 & HS & HT & H1 & [Hn _] & _).
    destruct S1; [|by destruct S1]. injection HS as ->.
    destruct l; simpl in *; injection HT as -> _; done.
  - rewrite <- (app_nil_r l) in Hl.
    destruct (is_list_cut m head l [] Hl) as (S1 & p & n & T2 & HS & HT & H1 & [_ Hp] & _).
    injection HT as -> _. rewrite Hp. f_equal. clear -HS.
    destruct l as [|x l] using rev_ind; [destruct S1 as [|? [|]]; by simplify_eq/=|].
    rewrite last_last. rewrite app_comm_cons in HS. by apply app_inj_tail in HS as [_ <-].
Qed.

Lemma init_runs m head : is_Some (m !! head) ->
  runs (init_list_head head) m (fun _ m' => is_list m' head [] /\ only_at [head] m m').
Proof.
  intros Hm. unfold init_list_head.
  eapply runs_bind; [by apply set_nxt_runs|]. intros [] m1 E1.
  eapply runs_mono; [apply set_prv_runs; by eapply set_nxt_mapped|]. intros [] m2 E2.
  destruct E1 as (E1n & E1p & E1o), E2 as (E2p & E2n & E2o). split.
  - split; [apply NoDup_singleton|]. constructor; [|done]. split.
    + by rewrite E2n, E1n, decide_True.
    + by rewrite E2p, decide_True.
  - intros a Ha. by rewrite E2o, E1o.
Qed.

Lemma list_empty_runs m head l : is_list m head l ->
  runs (list_empty head) m (fun b m' => b = bool_decide (l = []) /\ m' = m).
Proof.
  intros Hl. destruct (list_end_next m head l Hl) as [Hn Hp]. unfold list_empty.
  eapply load_runs; [by apply nxt_prv|]. apply runs_ret. split; [|done]. simpl.
  destruct l as [|x l]; simpl; [by rewrite Z.eqb_refl|]. apply Z.eqb_neq. intros ->.
  destruct Hl as [Hnd _]. apply NoDup_cons in Hnd as [Hnd _]. apply Hnd. by left.
Qed.

Lemma list_add_head_runs m head l new : is_list m head l -> new ∉ head :: l ->
  is_Some (m !! new) ->
  runs (list_add_head new head) m (fun _ m' => is_list m' head (new :: l) /\
    only_at (new :: head :: l) m m').
Proof.
  intros Hl Hnew Hm. destruct (list_end_next m head l Hl) as [Hn Hp]. unfold list_add_head.
  eapply load_runs; [by apply nxt_prv|]. simpl.
  assert (HT : exists T2, l ++ [head] = hd head l :: T2) by (destruct l; simpl; eauto).
  destruct HT as [T2 HT]. eapply runs_mono.
  - by apply (list_add_runs m head [] l new [] head (hd head l) T2).
  - intros [] m' [H1 H2]. split; [done|]. intros a Ha. apply H2. destruct l; set_solver.
Qed.

Lemma list_add_tail_runs m head l new : is_list m head l -> new ∉ head :: l ->
  is_Some (m !! new) ->
  runs (list_add_tail new head) m (fun _ m' => is_list m' head (l ++ [new]) /\
    only_at (new :: head :: l) m m').
Proof.
  intros Hl Hnew Hm. destruct (list_end_next m head l Hl) as [Hn Hp]. unfold list_add_tail.
  eapply load_runs; [by apply nxt_prv|]. simpl.
  assert (HS : exists S1, head :: l = S1 ++ [List.last l head]).
  { destruct l as [|x l] using rev_ind; [by exists []|]. exists (head :: l).
    by rewrite last_last. }
  destruct HS as [S1 HS].
  assert (Hin : List.last l head ∈ head :: l) by (rewrite HS; set_solver).
  eapply runs_mono.
  - apply (list_add_runs m head l [] new S1 (List.last l head) head []);
      rewrite ?app_nil_r; done.
  - intros [] m' [H1 H2]. split; [done|]. intros a Ha. apply H2. set_solver.
Qed.
End Links.

(** ** Properties *)

(** The address [a] holds a [list_head]. *)
Definition mapped (m : mem) (a : Z) : Prop := is_Some (m !! a).

(** C20: The pointer operations implement the operations on the sequence of entries that
    the allocator and the LRU list are modelled with: a fresh head is the empty list,
    [list_empty] tests for it, [list_add_head] and [list_add_tail] put an unlinked entry
    in front or at the end, [list_del] takes an entry out wherever it is; none of them
    follows a dangling pointer or touches memory outside the list and the entry. *)
Theorem list_head_refines_sequence m head :
  (mapped m head -> runs (init_list_head head) m (fun _ m' => is_list m' head [] /\
     only_at [head] m m')) /\
  (forall l, is_list m head l ->
     runs (list_empty head) m (fun b m' => b = bool_decide (l = []) /\ m' = m)) /\
  (forall l new, is_list m head l -> new ∉ head :: l -> mapped m new ->
     runs (list_add_head new head) m (fun _ m' => is_list m' head (new :: l) /\
       only_at (new :: head :: l) m m') /\
     runs (list_add_tail new head) m (fun _ m' => is_list m' head (l ++ [new]) /\
       only_at (new :: head :: l) m m')) /\
  (forall l1 x l2, is_list m head (l1 ++ x :: l2) ->
     runs (list_del x) m (fun _ m' => is_list m' head (l1 ++ l2) /\
       only_at (head :: l1 ++ l2) m m')).
Proof.
  split_and!.
  - apply init_runs.
  - apply list_empty_runs.
  - intros l new Hl Hnew Hm. split; [by apply list_add_head_runs|by apply list_add_tail_runs].
  - apply list_del_runs.
Qed.

Definition ex_mem : mem := <[1 := mk_head 2 2]> (<[2 := mk_head 1 1]> (<[3 := mk_head 0 0]> ∅)).

Lemma ex_is_list : is_list ex_mem 1 [2].
Proof. split; [apply (bool_decide_unpack _); by vm_compute|]. repeat constructor. Qed.

Lemma list_head_refines_sequence_witness :
  runs (list_add_tail 3 1) ex_mem (fun _ m' => is_list m' 1 [2; 3] /\ only_at [3; 1; 2] ex_mem m') /\
  runs (list_del 2) ex_mem (fun _ m' => is_list m' 1 [] /\ only_at [1] ex_mem m').
Proof.
  destruct (list_head_refines_sequence ex_mem 1) as (_ & _ & Hadd & Hdel). split.
  - apply (Hadd [2] 3 ex_is_list); [apply (bool_decide_unpack _); by vm_compute|by eexists].
  - apply (Hdel [] 2 [] ex_is_list).
Defined.

End ListHead.
