(* ===== verification/Slab.v ===== *)
(** * The slab allocator of nodes (lib/fuse.c, 418-547) *)
From S2P Require Import Prelude.

Module Slab.

(** Sizes of the structures on an LP64 machine. *)
Definition sizeof_node : Z := 152.
Definition sizeof_node_lru : Z := 184.
Definition sizeof_node_slab : Z := 40.

Record node_slab : Type := mk_slab {
  freelist : list Z;
  used : Z;
}.

(** The slab lists of [struct fuse], its page size, and the mapped slabs by
    address.  [mmaps] is the environment: the results of the coming calls of
    [mmap], [MAP_FAILED] once the list is used up. *)
Record slabs : Type := mk_slabs {
  pagesize : Z;
  partial_slabs : list Z;
  full_slabs : list Z;
  pages : gmap Z node_slab;
  mmaps : list Z;
}.

Definition lru_enabled (remember : Z) : bool := 0 <? remember.

Definition get_node_size (remember : Z) : Z :=
  if lru_enabled remember then sizeof_node_lru else sizeof_node.

(** [node & ~(pagesize - 1)]. *)
Definition node_to_slab (s : slabs) (node : Z) : Z :=
  Z.land node (Z.lnot (pagesize s - 1)).

Definition remove_addr (a : Z) (l : list Z) : list Z :=
  filter (fun b => b <> a) l.

(** The addresses carved out of a page: [num] nodes up to its end. *)
Definition carve (remember mem : Z) (s : slabs) : list Z :=
  let node_size := get_node_size remember in
  let num := (pagesize s - sizeof_node_slab) / node_size in
  let start := mem + pagesize s - num * node_size in
  (fun i => start + Z.of_nat i * node_size) <$> seq 0 (Z.to_nat num).

Definition alloc_slab (remember : Z) : M slabs Z :=
  s ← getM;
  match mmaps s with
  | [] => mret (-1)
  | mem :: rest =>
    putM (mk_slabs (pagesize s) (partial_slabs s ++ [mem]) (full_slabs s)
      (<[mem := mk_slab (carve remember mem s) 0]> (pages s)) rest);;
    mret 0
  end.

(** Takes the first free node of the first partial slab: [alloc_node] once there is
    one. *)
Definition take_first : M slabs Z :=
  s ← getM;
  slab ← derefM (head (partial_slabs s));
  sl ← derefM (pages s !! slab);
  match freelist sl with
  | [] => crashM BadAccess
  | node :: rest =>
    let pages' := <[slab := mk_slab rest (used sl + 1)]> (pages s) in
    putM (if bool_decide (rest = [])
          then mk_slabs (pagesize s) (remove_addr slab (partial_slabs s))
                 (full_slabs s ++ [slab]) pages' (mmaps s)
          else mk_slabs (pagesize s) (partial_slabs s) (full_slabs s)
                 pages' (mmaps s));;
    mret node
  end.

(** Returns the address of the node, or 0. *)
Definition alloc_node (remember : Z) : M slabs Z :=
  s ← getM;
  res ← (if bool_decide (partial_slabs s = []) then alloc_slab remember
         else mret 0);
  if negb (res =? 0) then mret 0 else take_first.

(** Takes the slab off its list and unmaps it. *)
Definition free_slab (slab : Z) : M slabs unit :=
  modifyM (fun s => mk_slabs (pagesize s) (remove_addr slab (partial_slabs s))
    (remove_addr slab (full_slabs s)) (delete slab (pages s)) (mmaps s)).

Definition free_node_mem (node : Z) : M slabs unit :=
  s ← getM;
  let slab := node_to_slab s node in
  sl ← derefM (pages s !! slab);
  let used' := used sl - 1 in
  if negb (used' =? 0) then
    let partial' := if bool_decide (freelist sl = [])
      then partial_slabs s ++ [slab] else partial_slabs s in
    let full' := if bool_decide (freelist sl = [])
      then remove_addr slab (full_slabs s) else full_slabs s in
    putM (mk_slabs (pagesize s) partial' full'
      (<[slab := mk_slab (node :: freelist sl) used']> (pages s)) (mmaps s))
  else free_slab slab.

(** ** What the allocator promises

    [wf remember s live]: [live] is the set of the addresses handed out. *)
Section Facts.
Context (remember : Z).

Record page_wf (s : slabs) (a : Z) (sl : node_slab) : Prop := mk_page_wf {
  pw_aligned : exists q, 0 < q /\ a = q * pagesize s;
  pw_free : forall x, x ∈ freelist sl -> x ∈ carve remember a s;
  pw_nodup : NoDup (freelist sl);
  pw_used : used sl = Z.of_nat (length (carve remember a s)) -
                      Z.of_nat (length (freelist sl));
}.

Record lists_wf (s : slabs) (live : gset Z) : Prop := mk_lists_wf {
  sw_size : exists k, 0 <= k /\ pagesize s = 2 ^ k;
  sw_room : sizeof_node_slab + get_node_size remember <= pagesize s;
  sw_page : forall a sl, pages s !! a = Some sl -> page_wf s a sl;
  sw_partial : forall a, a ∈ partial_slabs s <->
    exists sl, pages s !! a = Some sl /\ freelist sl <> [];
  sw_full : forall a, a ∈ full_slabs s <->
    exists sl, pages s !! a = Some sl /\ freelist sl = [];
  sw_nodup : NoDup (partial_slabs s ++ full_slabs s);
  sw_live : forall x, x ∈ live <-> exists a sl, pages s !! a = Some sl /\
    x ∈ carve remember a s /\ x ∉ freelist sl;
}.

(** Between two operations no page is unused. *)
Definition wf (s : slabs) (live : gset Z) : Prop :=
  lists_wf s live /\ forall a sl, pages s !! a = Some sl -> 0 < used sl.

(** What [mmap] promises of its next result: a page that is not mapped. *)
Definition mmap_ok (s : slabs) : Prop :=
  forall a rest, mmaps s = a :: rest ->
    pages s !! a = None /\ exists q, 0 < q /\ a = q * pagesize s.

Lemma node_size_pos : 0 < get_node_size remember.
Proof. unfold get_node_size. by destruct (lru_enabled _). Qed.

Lemma carve_elem s a x : sizeof_node_slab <= pagesize s -> x ∈ carve remember a s ->
  a + sizeof_node_slab <= x /\ x + get_node_size remember <= a + pagesize s.
Proof.
  intros Hp. unfold carve. rewrite list_elem_of_fmap. intros (i & -> & Hi).
  apply elem_of_seq in Hi. pose proof node_size_pos as Hsz.
  set (z := get_node_size remember) in *.
  set (num := (pagesize s - sizeof_node_slab) / z) in *.
  assert (0 <= num) by (apply Z.div_pos; lia).
  assert (num * z <= pagesize s - sizeof_node_slab)
    by (unfold num; rewrite Z.mul_comm; apply Z.mul_div_le; lia).
  assert (Z.of_nat i + 1 <= num) by lia. nia.
Qed.

Lemma carve_disjoint s a x y : x ∈ carve remember a s -> y ∈ carve remember a s ->
  x < y -> x + get_node_size remember <= y.
Proof.
  unfold carve. rewrite !list_elem_of_fmap. intros (i & -> & _) (j & -> & _).
  pose proof node_size_pos. set (z := get_node_size remember) in *.
  intros Hlt. assert (Z.of_nat i < Z.of_nat j) by nia. nia.
Qed.

Lemma carve_NoDup s a : NoDup (carve remember a s).
Proof.
  unfold carve. apply NoDup_fmap_2; [|apply NoDup_seq].
  intros i j Hij. pose proof node_size_pos.
  assert (Z.of_nat i = Z.of_nat j) by nia. lia.
Qed.

Lemma carve_pagesize s s' a : pagesize s' = pagesize s ->
  carve remember a s' = carve remember a s.
Proof. intros H. unfold carve. by rewrite H. Qed.

(** The page of an address is found by masking. *)
Lemma node_to_slab_page s k q x : 0 <= k -> pagesize s = 2 ^ k ->
  q * pagesize s <= x < (q + 1) * pagesize s -> node_to_slab s x = q * pagesize s.
Proof.
  intros Hk Hp Hx. unfold node_to_slab. rewrite <- Z.ldiff_land.
  assert (pagesize s - 1 = Z.ones k) as -> by (rewrite Z.ones_equiv; lia).
  rewrite Z.ldiff_ones_r by done. rewrite Z.shiftl_mul_pow2, Z.shiftr_div_pow2 by done.
  rewrite <- Hp. f_equal. symmetry. apply (Z.div_unique _ _ _ (x - q * pagesize s)); nia.
Qed.

Lemma node_to_slab_carve s live a sl x : lists_wf s live -> pages s !! a = Some sl ->
  x ∈ carve remember a s -> node_to_slab s x = a.
Proof.
  intros Hwf Ha Hx. destruct (sw_size _ _ Hwf) as (k & Hk & Hps).
  pose proof (sw_room _ _ Hwf) as Hr. pose proof node_size_pos.
  destruct (pw_aligned _ _ _ (sw_page _ _ Hwf a sl Ha)) as (q & Hq & ->).
  apply carve_elem in Hx as [? ?]; [|lia]. unfold sizeof_node_slab in *.
  apply (node_to_slab_page s k); try done; lia.
Qed.

Lemma carve_page s live a b sl sl' x : lists_wf s live -> pages s !! a = Some sl ->
  pages s !! b = Some sl' -> x ∈ carve remember a s -> x ∈ carve remember b s -> a = b.
Proof.
  intros Hwf Ha Hb Hx Hy. transitivity (node_to_slab s x); [symmetry|];
    by eapply node_to_slab_carve.
Qed.

Lemma remove_addr_elem a b l : b ∈ remove_addr a l <-> b <> a /\ b ∈ l.
Proof. unfold remove_addr. by rewrite list_elem_of_filter. Qed.

Lemma remove_addr_other a l : a ∉ l -> remove_addr a l = l.
Proof.
  intros Ha. unfold remove_addr. induction l as [|b l IH]; [done|].
  apply not_elem_of_cons in Ha as [Hab Ha]. rewrite filter_cons_True by done. by rewrite IH.
Qed.

(** A page that moves from one list to the other. *)
Lemma move_nodup a l1 l2 : NoDup (l1 ++ l2) -> a ∉ l2 ->
  NoDup (remove_addr a l1 ++ (l2 ++ [a])).
Proof.
  intros (H1 & H2 & H3)%NoDup_app Ha. apply NoDup_app. split_and!.
  - by apply NoDup_filter.
  - intros b [Hb1 Hb2]%remove_addr_elem. rewrite elem_of_app, list_elem_of_singleton.
    intros [Hb|Hb]; [by eapply H2|done].
  - apply NoDup_app. split_and!; [done| |apply NoDup_singleton].
    intros b Hb ->%list_elem_of_singleton. done.
Qed.

(** A mapped page and its lists after the free list of [a] has become [fl]. *)
Lemma lists_wf_update s s' live live' a sl sl' : lists_wf s live ->
  pages s !! a = Some sl -> pagesize s' = pagesize s ->
  pages s' = <[a := sl']> (pages s) -> page_wf s a sl' ->
  NoDup (partial_slabs s' ++ full_slabs s') ->
  (forall b, b ∈ partial_slabs s' <->
     (b <> a /\ b ∈ partial_slabs s) \/ (b = a /\ freelist sl' <> [])) ->
  (forall b, b ∈ full_slabs s' <->
     (b <> a /\ b ∈ full_slabs s) \/ (b = a /\ freelist sl' = [])) ->
  (forall x, x ∈ live' <-> (x ∈ live /\ x ∉ carve remember a s) \/
     (x ∈ carve remember a s /\ x ∉ freelist sl')) ->
  lists_wf s' live'.
Proof.
  intros Hwf Ha Hps Hpg Hpw Hnd Hpart Hfull Hlive. constructor.
  - destruct (sw_size _ _ Hwf) as (k & ? & ?). exists k. by rewrite Hps.
  - rewrite Hps. apply (sw_room _ _ Hwf).
  - intros b sb Hb. assert (page_wf s b sb) as [H1 H2 H3 H4].
    { rewrite Hpg in Hb. apply lookup_insert_Some in Hb as [[<- <-]|[_ Hb]];
        [done|by apply (sw_page _ _ Hwf)]. }
    split; rewrite ?Hps, ?(carve_pagesize s s') by done; auto.
  - intros b. rewrite Hpart, (sw_partial _ _ Hwf), Hpg. destruct (decide (b = a)) as [->|Hne].
    + rewrite lookup_insert_eq. naive_solver.
    + rewrite lookup_insert_ne by done. naive_solver.
  - intros b. rewrite Hfull, (sw_full _ _ Hwf), Hpg. destruct (decide (b = a)) as [->|Hne].
    + rewrite lookup_insert_eq. naive_solver.
    + rewrite lookup_insert_ne by done. naive_solver.
  - done.
  - intros x. rewrite Hlive, (sw_live _ _ Hwf), Hpg. split.
    + intros [[(b & sb & Hb & Hx & Hf) Hna]|[Hx Hf]].
      * exists b, sb. rewrite (carve_pagesize s s') by done.
        rewrite lookup_insert_ne by congruence. done.
      * exists a, sl'. rewrite lookup_insert_eq, (carve_pagesize s s') by done. done.
    + intros (b & sb & Hb & Hx & Hf). rewrite (carve_pagesize s s') in Hx by done.
      apply lookup_insert_Some in Hb as [[<- <-]|[Hne Hb]]; [by right|left].
      split; [by eauto|]. intros Hxa. by pose proof (carve_page s live a b sl sb x Hwf Ha Hb Hxa Hx).
Qed.

Lemma page_wf_length s a sl : page_wf s a sl ->
  Z.of_nat (length (freelist sl)) <= Z.of_nat (length (carve remember a s)).
Proof.
  intros Hw. apply inj_le, submseteq_length, NoDup_submseteq;
    [by apply (pw_nodup _ _ _ Hw)|apply (pw_free _ _ _ Hw)].
Qed.

(** Taking the first free node of a page. *)
Lemma page_wf_take s a sl x rest : page_wf s a sl -> freelist sl = x :: rest ->
  page_wf s a (mk_slab rest (used sl + 1)) /\ 0 < used sl + 1 /\
  x ∈ carve remember a s /\ x ∉ rest.
Proof.
  intros Hw Hf. pose proof (page_wf_length s a sl Hw) as Hlen. destruct Hw as [H1 H2 H3 H4].
  rewrite Hf in *. apply NoDup_cons in H3 as [H3 H3']. simpl in *.
  split_and!; [|lia|apply H2; by left|done]. split; simpl; auto; [|lia].
  intros y Hy. apply H2. by right.
Qed.

Lemma carve_nonempty s a : sizeof_node_slab + get_node_size remember <= pagesize s ->
  carve remember a s <> [].
Proof.
  intros Hr. unfold carve. pose proof node_size_pos.
  assert (1 <= (pagesize s - sizeof_node_slab) / get_node_size remember)
    by (apply Z.div_le_lower_bound; lia).
  destruct (Z.to_nat _) eqn:He; [lia|done].
Qed.

(** The page [alloc_slab] maps is well formed and has nothing in use. *)
Lemma alloc_slab_runs s live : wf s live -> mmap_ok s -> partial_slabs s = [] ->
  runs (alloc_slab remember) s (fun res s' =>
    (res = -1 /\ s' = s /\ mmaps s = []) \/
    (res = 0 /\ lists_wf s' live /\ exists a, partial_slabs s' = [a] /\
       forall b sl, b <> a -> pages s' !! b = Some sl -> 0 < used sl)).
Proof.
  intros [Hwf Hu] Hm Hp. unfold alloc_slab, runs, mbind, M_bind, getM.
  destruct (mmaps s) as [|a rest] eqn:He; simpl; [do 2 eexists; split; [done|by left]|].
  do 2 eexists. split; [done|]. right. split; [done|].
  destruct (Hm a rest He) as [Ha (q & Hq & Hal)]. rewrite Hp.
  split; [|exists a; split; [done|]; simpl; intros b sl Hne;
    rewrite lookup_insert_ne by done; apply Hu].
  set (s' := mk_slabs _ _ _ _ _).
  assert (Hc : forall b, carve remember b s' = carve remember b s) by done.
  constructor; [by apply (sw_size _ _ Hwf)|by apply (sw_room _ _ Hwf)|..]; simpl.
  - intros b sl Hb. apply lookup_insert_Some in Hb as [[<- <-]|[_ Hb]].
    + split; simpl; [eauto|done|apply carve_NoDup|unfold s'; rewrite Hc; lia].
    + by apply (sw_page _ _ Hwf) in Hb as [].
  - intros b. rewrite list_elem_of_singleton. split.
    + intros ->. rewrite lookup_insert_eq. eexists; split; [done|].
      apply carve_nonempty, (sw_room _ _ Hwf).
    + intros (sl & Hb & Hf). apply lookup_insert_Some in Hb as [[<- _]|[_ Hb]]; [done|].
      assert (b ∈ partial_slabs s) as Hin by (apply (sw_partial _ _ Hwf); eauto).
      rewrite Hp in Hin. by apply not_elem_of_nil in Hin.
  - intros b. rewrite (sw_full _ _ Hwf). split; intros (sl & Hb & Hf).
    + exists sl. rewrite lookup_insert_ne by congruence. done.
    + apply lookup_insert_Some in Hb as [[<- <-]|[_ Hb]]; [|by eauto].
      by destruct (carve_nonempty s a (sw_room _ _ Hwf)).
  - pose proof (sw_nodup _ _ Hwf) as Hnd. rewrite Hp in Hnd. simpl in *.
    apply NoDup_cons. split; [|done]. rewrite (sw_full _ _ Hwf).
    by intros (sl & Hb & _); rewrite Ha in Hb.
  - intros x. rewrite (sw_live _ _ Hwf). split; intros (b & sl & Hb & Hx & Hf).
    + exists b, sl. rewrite lookup_insert_ne by congruence. done.
    + apply lookup_insert_Some in Hb as [[<- <-]|[_ Hb]]; [done|by eauto].
Qed.

(** Taking a node from the first partial page. *)
Lemma take_first_runs s live a ps : lists_wf s live -> partial_slabs s = a :: ps ->
  (forall b sl, b <> a -> pages s !! b = Some sl -> 0 < used sl) ->
  runs take_first s (fun x s' => 0 < x /\ x ∉ live /\ wf s' ({[x]} ∪ live)).
Proof.
  intros Hwf Hp Hu.
  assert (a ∈ partial_slabs s) as Hin by (rewrite Hp; by left).
  apply (sw_partial _ _ Hwf) in Hin as (sl & Ha & Hf).
  destruct (freelist sl) as [|x rest] eqn:Hfl; [done|].
  destruct (page_wf_take s a sl x rest (sw_page _ _ Hwf a sl Ha) Hfl) as (Hpw & Hpos & Hx & Hxr).
  unfold take_first. mstep. rewrite Hp at 1. simpl. msteps. rewrite Hfl. mstep.
  apply runs_ret. split_and!.
  - destruct (pw_aligned _ _ _ Hpw) as (q & Hq & ->).
    pose proof (sw_room _ _ Hwf) as Hroom. pose proof node_size_pos.
    apply carve_elem in Hx; unfold sizeof_node_slab in *; nia.
  - rewrite (sw_live _ _ Hwf). intros (b & sb & Hb & Hxb & Hnb).
    assert (a = b) as <- by (by eapply carve_page). simplify_eq. apply Hnb. rewrite Hfl. by left.
  - assert (Hafull : a ∉ full_slabs s).
    { rewrite (sw_full _ _ Hwf). intros (sl' & Ha' & Hfl'). simplify_eq. congruence. }
    assert (Hlive : forall y, y ∈ {[x]} ∪ live <-> (y ∈ live /\ y ∉ carve remember a s) \/
      (y ∈ carve remember a s /\ y ∉ rest)).
    { intros y. rewrite elem_of_union, elem_of_singleton, (sw_live _ _ Hwf).
      destruct (decide (y ∈ carve remember a s)) as [Hy|Hy]; [|naive_solver].
      split; [intros [->|(b & sb & Hb & Hyb & Hnb)]; right; [done|]|intros [?|[_ Hn]]; [naive_solver|]].
      - assert (a = b) as <- by (by eapply carve_page). simplify_eq.
        rewrite Hfl, not_elem_of_cons in Hnb. tauto.
      - destruct (decide (y = x)); [by left|right]. exists a, sl. rewrite Hfl, not_elem_of_cons. done. }
    pose proof (sw_nodup _ _ Hwf) as Hnd.
    case_bool_decide as Hr; (split; [eapply (lists_wf_update s); [done|exact Ha|done..| |simpl|simpl|done]|
      simpl; intros b sb [[<- <-]|[Hne Hb]]%lookup_insert_Some; [done|by eapply Hu]]).
    + simpl. by apply move_nodup.
    + intros b. rewrite remove_addr_elem. naive_solver.
    + intros b. rewrite elem_of_app, list_elem_of_singleton. naive_solver.
    + done.
    + intros b. destruct (decide (b = a)) as [->|]; [|naive_solver].
      rewrite Hp. split; [by right|intros _; by left].
    + intros b. naive_solver.
Qed.

Lemma alloc_node_runs s live : wf s live -> mmap_ok s ->
  runs (alloc_node remember) s (fun x s' =>
    (x = 0 /\ s' = s /\ mmaps s = [] /\ partial_slabs s = []) \/
    (0 < x /\ x ∉ live /\ wf s' ({[x]} ∪ live))).
Proof.
  intros Hwf Hm. unfold alloc_node. mstep. case_bool_decide as Hp.
  - eapply runs_bind; [by apply (alloc_slab_runs s live)|]. simpl.
    intros res s' [(-> & -> & Hmm)|(-> & Hl & a & Hpa & Hu)]; simpl; [apply runs_ret; auto|].
    eapply runs_mono; [by eapply take_first_runs|auto].
  - mstep. destruct (partial_slabs s) as [|a ps] eqn:He; [done|]. destruct Hwf as [Hl Hu].
    eapply runs_mono; [eapply take_first_runs; eauto|auto].
Qed.

(** Putting a node back on a page that stays in use. *)
Lemma page_wf_give s a sl x : page_wf s a sl -> x ∈ carve remember a s ->
  x ∉ freelist sl -> page_wf s a (mk_slab (x :: freelist sl) (used sl - 1)).
Proof.
  intros [H1 H2 H3 H4] Hx Hn. split; simpl; auto; [|by apply NoDup_cons|lia].
  intros y [->|Hy]%elem_of_cons; auto.
Qed.

(** The page whose last node is freed holds no other live node. *)
Lemma page_wf_last s a sl x y : page_wf s a sl -> used sl = 1 ->
  x ∈ carve remember a s -> x ∉ freelist sl ->
  y ∈ carve remember a s -> y ∉ freelist sl -> y = x.
Proof.
  intros [H1 H2 H3 H4] Hu Hx Hnx Hy Hny. destruct (decide (y = x)) as [|Hne]; [done|exfalso].
  assert (length (y :: x :: freelist sl) <= length (carve remember a s))%nat; [|simpl in *; lia].
  apply submseteq_length, NoDup_submseteq.
  - rewrite !NoDup_cons, not_elem_of_cons. done.
  - intros z [->|[->|Hz]%elem_of_cons]%elem_of_cons; auto.
Qed.

Lemma free_slab_wf s live a sl x : wf s live -> pages s !! a = Some sl -> used sl = 1 ->
  x ∈ carve remember a s -> x ∉ freelist sl ->
  wf (mk_slabs (pagesize s) (remove_addr a (partial_slabs s))
        (remove_addr a (full_slabs s)) (delete a (pages s)) (mmaps s)) (live ∖ {[x]}).
Proof.
  intros [Hwf Hu] Ha H1 Hx Hnx.
  split; [|simpl; intros b sb Hb; apply lookup_delete_Some in Hb as [_ Hb]; by eapply Hu].
  constructor; simpl.
  - apply (sw_size _ _ Hwf).
  - apply (sw_room _ _ Hwf).
  - intros b sb Hb. apply lookup_delete_Some in Hb as [_ Hb].
    by apply (sw_page _ _ Hwf) in Hb as [].
  - intros b. rewrite remove_addr_elem, (sw_partial _ _ Hwf).
    setoid_rewrite lookup_delete_Some. naive_solver.
  - intros b. rewrite remove_addr_elem, (sw_full _ _ Hwf).
    setoid_rewrite lookup_delete_Some. naive_solver.
  - pose proof (sw_nodup _ _ Hwf) as (N1 & N2 & N3)%NoDup_app. apply NoDup_app.
    split_and!; [by apply NoDup_filter| |by apply NoDup_filter].
    intros b [_ Hb]%remove_addr_elem [_ Hb']%remove_addr_elem. by eapply N2.
  - intros y. rewrite elem_of_difference, elem_of_singleton, (sw_live _ _ Hwf).
    setoid_rewrite lookup_delete_Some. split.
    + intros [(b & sb & Hb & Hy & Hny) Hne]. exists b, sb. split_and!; try done.
      intros <-. simplify_eq. apply Hne. by eapply page_wf_last; [apply (sw_page _ _ Hwf)|..].
    + intros (b & sb & [Hne Hb] & Hy & Hny). split; [by eauto|]. intros ->.
      by apply Hne; eapply carve_page.
Qed.

Lemma free_node_mem_runs s live x : wf s live -> x ∈ live ->
  runs (free_node_mem x) s (fun _ s' => wf s' (live ∖ {[x]})).
Proof.
  intros Hw Hxl. pose proof Hw as [Hwf Hu].
  pose proof Hxl as (a & sl & Ha & Hx & Hnx)%(sw_live _ _ Hwf).
  pose proof (Hu a sl Ha) as Hpos.
  unfold free_node_mem. mstep. rewrite (node_to_slab_carve s live a sl x) by done. mstep.
  case (Z.eqb_spec (used sl - 1) 0) as [H1|H1]; simpl.
  { eexists _, _. split; [done|]. eapply free_slab_wf; [done..|lia|done|done]. }
  eexists _, _. split; [done|]. split.
  2: { simpl. intros b sb [[<- <-]|[_ Hb]]%lookup_insert_Some; simpl; [lia|by eapply Hu]. }
  pose proof (sw_nodup _ _ Hwf) as Hnd.
  eapply (lists_wf_update s); [done|exact Ha|done|done|by apply page_wf_give; [apply (sw_page _ _ Hwf)|..]|..]; simpl.
  - case_bool_decide as Hf; [|done]. assert (a ∉ partial_slabs s) as Hap.
    { rewrite (sw_partial _ _ Hwf). intros (? & ? & ?). congruence. }
    rewrite (Permutation_app_comm _ (remove_addr _ _)). rewrite Permutation_app_comm in Hnd.
    by apply move_nodup.
  - intros b. case_bool_decide as Hf.
    + rewrite elem_of_app, list_elem_of_singleton. destruct (decide (b = a)); naive_solver.
    + destruct (decide (b = a)) as [->|]; [|naive_solver].
      rewrite (sw_partial _ _ Hwf). naive_solver.
  - intros b. case_bool_decide as Hf; [rewrite remove_addr_elem; naive_solver|].
    destruct (decide (b = a)) as [->|]; [|naive_solver].
    rewrite (sw_full _ _ Hwf). naive_solver.
  - intros y. rewrite elem_of_difference, elem_of_singleton, not_elem_of_cons.
    rewrite (sw_live _ _ Hwf). destruct (decide (y ∈ carve remember a s)) as [Hy|Hy].
    + split; [intros [(b & sb & Hb & Hyb & Hnb) Hne]; right|intros [[_ ?]|(_ & ? & ?)]; [done|by eauto 10]].
      assert (a = b) as <- by (by eapply carve_page). by simplify_eq.
    + split; [intros [? _]; by left|]. intros [[? _]|[? _]]; [|done]. split; [done|]. congruence.
Qed.

(** *** The abstract allocator: a set of addresses in use *)
Inductive call : Type := CallAlloc | CallFree (x : Z).

Definition run_call (c : call) : M slabs Z :=
  match c with
  | CallAlloc => alloc_node remember
  | CallFree x => free_node_mem x;; mret 0
  end.

Inductive abs_step (live : gset Z) : call -> Z -> gset Z -> Prop :=
| abs_alloc x : 0 < x -> x ∉ live -> abs_step live CallAlloc x ({[x]} ∪ live)
| abs_fail : abs_step live CallAlloc 0 live
| abs_free x : x ∈ live -> abs_step live (CallFree x) 0 (live ∖ {[x]}).

(** C12: The slab allocator implements a set of addresses.  From a well-formed state
    and with an [mmap] that returns unmapped pages, an allocation returns a fresh
    non-null address or fails, the latter only when [mmap] does and no page has room;
    freeing a live address takes exactly it out; neither crashes, and the state stays
    well formed. *)
Theorem slab_refines_allocator s live c :
  wf s live -> mmap_ok s -> (forall x, c = CallFree x -> x ∈ live) ->
  runs (run_call c) s (fun r s' => exists live', abs_step live c r live' /\ wf s' live' /\
    (c = CallAlloc -> r = 0 -> mmaps s = [] /\ partial_slabs s = [])).
Proof.
  intros Hwf Hm Hc. destruct c as [|x]; simpl.
  - eapply runs_mono; [by apply (alloc_node_runs s live)|]. simpl.
    intros x s' [(-> & -> & ? & ?)|(Hx & Hl & Hw)]; eexists;
      (split; [by constructor|split; [done|]]); [done|lia].
  - eapply runs_bind; [apply (free_node_mem_runs s live x); auto|]. simpl.
    intros _ s' Hw. apply runs_ret. exists (live ∖ {[x]}).
    split; [constructor; auto|done].
Qed.

Definition slabs_init (page : Z) (mm : list Z) : slabs := mk_slabs page [] [] ∅ mm.

Lemma slabs_init_wf k mm : 0 <= k ->
  sizeof_node_slab + get_node_size remember <= 2 ^ k -> wf (slabs_init (2 ^ k) mm) ∅.
Proof.
  intros Hk Hr. split; [constructor; simpl|]; simpl; [by eauto|done|done|..].
  - intros a. rewrite elem_of_nil. split; [done|by intros (? & ? & _)].
  - intros a. rewrite elem_of_nil. split; [done|by intros (? & ? & _)].
  - constructor.
  - intros x. split; [set_solver|by intros (? & ? & ? & _)].
  - done.
Qed.

(** Every live node lies inside a mapped page, past its [struct node_slab], and no two
    of them overlap. *)
Theorem live_nodes_disjoint s live : wf s live ->
  (forall x, x ∈ live -> exists a, a ∈ partial_slabs s ++ full_slabs s /\
     a + sizeof_node_slab <= x /\ x + get_node_size remember <= a + pagesize s) /\
  (forall x y, x ∈ live -> y ∈ live -> x < y -> x + get_node_size remember <= y).
Proof.
  intros [Hwf Hu]. pose proof (sw_room _ _ Hwf) as Hroom. pose proof node_size_pos. split.
  - intros x Hx. apply (sw_live _ _ Hwf) in Hx as (a & sa & Ha & Hxa & _).
    pose proof (carve_elem s a x ltac:(lia) Hxa) as Hxr.
    exists a. split; [|done]. rewrite elem_of_app, (sw_partial _ _ Hwf), (sw_full _ _ Hwf).
    destruct (decide (freelist sa = [])); [right|left]; eauto.
  - intros x y Hx Hy Hlt.
    apply (sw_live _ _ Hwf) in Hx as (a & sa & Ha & Hxa & _), Hy as (b & sb & Hb & Hyb & _).
    pose proof (carve_elem s a x ltac:(lia) Hxa) as Hxr.
    pose proof (carve_elem s b y ltac:(lia) Hyb) as Hyr.
    destruct (decide (a = b)) as [<-|Hne]; [by eapply carve_disjoint|].
    destruct (pw_aligned _ _ _ (sw_page _ _ Hwf a sa Ha)) as (q & _ & ->).
    destruct (pw_aligned _ _ _ (sw_page _ _ Hwf b sb Hb)) as (r & _ & ->).
    unfold sizeof_node_slab in *. assert (q < r) as Hqr.
    { destruct (Z.lt_trichotomy q r) as [|[->|]]; [done|done|nia]. }
    nia.
Qed.

End Facts.

(** *** The theorems at work on a page of 4096 bytes *)
Lemma slab_refines_allocator_witness :
  runs (run_call 0 CallAlloc) (slabs_init (2 ^ 12) [65536]) (fun r s' =>
    exists live', abs_step ∅ CallAlloc r live' /\ wf 0 s' live' /\
      (CallAlloc = CallAlloc -> r = 0 -> [65536] = [] /\ @nil Z = [])).
Proof.
  apply (slab_refines_allocator 0 (slabs_init (2 ^ 12) [65536]) ∅ CallAlloc).
  - apply slabs_init_wf; [lia|]. vm_compute. discriminate.
  - intros a rest [= <- <-]. split; [done|]. by exists 16.
  - intros x Hx. discriminate.
Defined.

(** Two allocations from a fresh state. *)
Definition after (m : M slabs Z) (s : slabs) : slabs :=
  match m s with Ok (_, s') => s' | Crash _ => s end.
Definition one_node : slabs := after (alloc_node 0) (slabs_init (2 ^ 12) [65536]).
Definition two_nodes : slabs := after (alloc_node 0) one_node.

Lemma one_node_wf : wf 0 one_node {[65680]}.
Proof.
  assert (Hi : wf 0 (slabs_init (2 ^ 12) [65536]) ∅)
    by (apply slabs_init_wf; [lia|]; vm_compute; discriminate).
  assert (Hm : mmap_ok (slabs_init (2 ^ 12) [65536])).
  { intros a rest [= <- <-]. split; [done|]. by exists 16. }
  assert (He : alloc_node 0 (slabs_init (2 ^ 12) [65536]) = Ok (65680, one_node))
    by (vm_compute; reflexivity).
  destruct (runs_det _ _ _ _ _ (alloc_node_runs 0 _ _ Hi Hm) He)
    as [(? & _)|(_ & _ & Hw)]; [done|].
  by rewrite union_empty_r_L in Hw.
Qed.

Lemma two_nodes_wf : wf 0 two_nodes ({[65832]} ∪ {[65680]}).
Proof.
  assert (He : alloc_node 0 one_node = Ok (65832, two_nodes)) by (vm_compute; reflexivity).
  assert (Hm : mmap_ok one_node) by (intros a rest Ha; vm_compute in Ha; discriminate).
  destruct (runs_det _ _ _ _ _ (alloc_node_runs 0 _ _ one_node_wf Hm) He)
    as [(? & _)|(_ & _ & Hw)]; [done|exact Hw].
Qed.

Lemma live_nodes_disjoint_witness :
  65680 + get_node_size 0 <= 65832 /\
  exists a, a ∈ partial_slabs two_nodes ++ full_slabs two_nodes /\
    a + sizeof_node_slab <= 65832 /\ 65832 + get_node_size 0 <= a + pagesize two_nodes.
Proof.
  destruct (live_nodes_disjoint 0 two_nodes ({[65832]} ∪ {[65680]}) two_nodes_wf) as [Hin Hdis].
  split; [apply Hdis; [set_solver|set_solver|reflexivity]|apply Hin; set_solver].
Defined.

End Slab.
