(* ===== verification/PosixLock.v ===== *)
(** * POSIX record locks kept in a node (lib/fuse.c, 4295-4420)

    The list of locks of a node, the conflict search, the insertion that splits
    and merges ranges, and the conversions from and to [struct flock]. *)
From S2P Require Import Prelude.

Module PosixLock.

Definition F_RDLCK : Z := 0.
Definition F_WRLCK : Z := 1.
Definition F_UNLCK : Z := 2.
Definition SEEK_SET : Z := 0.
Definition ENOLCK : Z := 37.

Record lock : Type := mk_lock {
  lk_type : Z;
  lk_start : Z;
  lk_end : Z;
  lk_pid : Z;
  lk_owner : Z;
}.

Record flock : Type := mk_flock {
  l_type : Z;
  l_whence : Z;
  l_start : Z;
  l_len : Z;
  l_pid : Z;
}.

#[global] Instance lock_eq_dec : EqDecision lock.
Proof. solve_decision. Defined.

Definition set_start (s : Z) (l : lock) : lock :=
  mk_lock (lk_type l) s (lk_end l) (lk_pid l) (lk_owner l).
Definition set_end (e : Z) (l : lock) : lock :=
  mk_lock (lk_type l) (lk_start l) e (lk_pid l) (lk_owner l).
Definition set_owner (o : Z) (l : lock) : lock :=
  mk_lock (lk_type l) (lk_start l) (lk_end l) (lk_pid l) o.

(** The test of the loop of [locks_conflict]. *)
Definition conflicts (lk l : lock) : bool :=
  negb (lk_owner l =? lk_owner lk) &&
  (lk_start lk <=? lk_end l) && (lk_start l <=? lk_end lk) &&
  ((lk_type l =? F_WRLCK) || (lk_type lk =? F_WRLCK)).

Fixpoint locks_conflict (locks : list lock) (lk : lock) : option lock :=
  match locks with
  | [] => None
  | l :: next => if conflicts lk l then Some l else locks_conflict next lk
  end.

(** The loop of [locks_insert] from the list cell [lp] points to: [newl1] and
    [newl2] say whether the two preallocated cells are still held, [lk] is the
    caller's lock, which the loop widens.  The result is the list from [lp] on
    when the function returns. *)
Fixpoint locks_insert_loop (fuel : nat) (newl1 newl2 : bool) (lk : lock)
    (lp : list lock) : res (list lock) :=
  match fuel with
  | O => Crash OutOfFuel
  | S fuel =>
    let finish : res (list lock) :=
      if negb (lk_type lk =? F_UNLCK)
      then if newl1 then Ok (lk :: lp) else Crash BadAccess
      else Ok lp in
    match lp with
    | [] => finish
    | l :: next =>
      let skip (l : lock) : res (list lock) :=
        next' ← locks_insert_loop fuel newl1 newl2 lk next; Ok (l :: next') in
      if negb (lk_owner l =? lk_owner lk) then skip l
      else if lk_type lk =? lk_type l then
        s1 ← off (lk_start lk - 1);
        if lk_end l <? s1 then skip l
        else
          s2 ← off (lk_start l - 1);
          if lk_end lk <? s2 then finish
          else if (lk_start l <=? lk_start lk) && (lk_end lk <=? lk_end l)
          then Ok (l :: next)
          else
            let lk := if lk_start l <? lk_start lk
                      then set_start (lk_start l) lk else lk in
            let lk := if lk_end lk <? lk_end l
                      then set_end (lk_end l) lk else lk in
            locks_insert_loop fuel newl1 newl2 lk next
      else if lk_end l <? lk_start lk then skip l
      else if lk_end lk <? lk_start l then finish
      else if (lk_start lk <=? lk_start l) && (lk_end l <=? lk_end lk)
      then locks_insert_loop fuel newl1 newl2 lk next
      else if lk_end l <=? lk_end lk then
        e ← off (lk_start lk - 1); skip (set_end e l)
      else if lk_start lk <=? lk_start l then
        s ← off (lk_end lk + 1);
        if negb (lk_type lk =? F_UNLCK)
        then if newl1 then Ok (lk :: set_start s l :: next) else Crash BadAccess
        else Ok (set_start s l :: next)
      else if newl2 then
        s ← off (lk_end lk + 1);
        e ← off (lk_start lk - 1);
        next' ← locks_insert_loop fuel newl1 false lk (set_start s l :: next);
        Ok (set_end e l :: next')
      else Crash BadAccess
    end
  end.

(** [malloc1] and [malloc2] are the outcomes of the two allocations. *)
Definition locks_insert (malloc1 malloc2 : bool) (locks : list lock) (lk : lock)
    : res (Z * list lock) :=
  let need := negb (lk_type lk =? F_UNLCK) || negb (lk_start lk =? 0) ||
              negb (lk_end lk =? OFFSET_MAX) in
  if need && (negb malloc1 || negb malloc2) then Ok (- ENOLCK, locks)
  else
    locks' ← locks_insert_loop (length locks + 2) need need lk locks;
    Ok (0, locks').

Definition flock_to_lock (fl : flock) : res lock :=
  e ← (if negb (l_len fl =? 0)
       then s ← off (l_start fl + l_len fl); off (s - 1)
       else Ok OFFSET_MAX);
  Ok (mk_lock (l_type fl) (l_start fl) e (l_pid fl) 0).

Definition lock_to_flock (lk : lock) (fl : flock) : res flock :=
  len ← (if lk_end lk =? OFFSET_MAX then Ok 0
         else d ← off (lk_end lk - lk_start lk); off (d + 1));
  Ok (mk_flock (lk_type lk) (l_whence fl) (lk_start lk) len (lk_pid lk)).

(** ** Specification *)

(** The range of a lock is a non-empty range of file offsets. *)
Definition lock_ok (l : lock) : Prop :=
  0 <= lk_start l /\ lk_start l <= lk_end l /\ lk_end l <= OFFSET_MAX.

(** Two locks of one owner, the first before the second in the list: their
    ranges are in order and disjoint, and ranges of one type do not touch. *)
Definition before (l1 l2 : lock) : Prop :=
  lk_owner l1 = lk_owner l2 ->
  lk_end l1 < lk_start l2 /\
  (lk_type l1 = lk_type l2 -> lk_end l1 + 1 < lk_start l2).

Definition locks_wf (locks : list lock) : Prop :=
  Forall (fun l => lock_ok l /\ lk_type l <> F_UNLCK) locks /\
  StronglySorted before locks.

Definition covers (o x : Z) (l : lock) : bool :=
  (lk_owner l =? o) && (lk_start l <=? x) && (x <=? lk_end l).

(** The type of lock owner [o] holds on byte [x]. *)
Fixpoint held (locks : list lock) (o x : Z) : option Z :=
  match locks with
  | [] => None
  | l :: next => if covers o x l then Some (lk_type l) else held next o x
  end.

(** What setting [lk] means: its owner holds its type on its bytes, and nothing
    else changes. *)
Definition held_after (locks : list lock) (lk : lock) (o x : Z) : option Z :=
  if covers o x lk
  then if lk_type lk =? F_UNLCK then None else Some (lk_type lk)
  else held locks o x.

(** ** Lemmas *)

Create HintDb locks.

Ltac lk_unfold :=
  unfold lock_ok, before, covers, set_start, set_end in *;
  simpl in *.

Lemma held_none ls o x :
  Forall (fun l => lk_owner l = o -> x < lk_start l) ls -> held ls o x = None.
Proof.
  induction 1 as [|l ls Hl _ IH]; [done|]. simpl. unfold covers.
  zcases; simpl; auto; lia.
Qed.

Lemma held_before l ls o x :
  Forall (before l) ls -> lk_owner l = o -> x <= lk_end l -> held ls o x = None.
Proof.
  intros Hb Ho Hx. apply held_none. eapply Forall_impl; [exact Hb|].
  intros l' Hl' Ho'. destruct Hl' as [Hl' _]; [congruence|lia].
Qed.

(** A lock that ends before the first lock of its owner comes before all. *)
Lemma before_all lk l ls :
  lk_owner l = lk_owner lk -> lock_ok l -> Forall (before l) ls ->
  before lk l -> Forall (before lk) (l :: ls).
Proof.
  intros Ho Hok Hls Hl. constructor; [done|].
  eapply Forall_impl; [exact Hls|]. intros l2 H2. lk_unfold. intros Ho2.
  destruct Hl as [Hl _]; [done|]. destruct H2 as [H2 _]; [congruence|]. lia.
Qed.

Lemma before_set_start s l ls :
  Forall (before l) ls -> Forall (before (set_start s l)) ls.
Proof. intros H. eapply Forall_impl; [exact H|]. by intros l2. Qed.

Lemma before_set_end e l ls :
  e <= lk_end l -> Forall (before l) ls -> Forall (before (set_end e l)) ls.
Proof.
  intros He H. eapply Forall_impl; [exact H|]. intros l2 H2. lk_unfold.
  intros Ho. destruct (H2 Ho). split; [lia|]. intros Ht. specialize (H1 Ht). lia.
Qed.

#[export] Hint Resolve before_set_start before_set_end : locks.

Lemma locks_wf_cons l ls :
  locks_wf (l :: ls) <->
  (lock_ok l /\ lk_type l <> F_UNLCK) /\ Forall (before l) ls /\ locks_wf ls.
Proof.
  unfold locks_wf. rewrite Forall_cons. split.
  - intros [[? ?] Hs]. inversion Hs; subst. auto.
  - intros (? & ? & ? & ?). split; [auto|]. by constructor.
Qed.

(** What one call of the loop guarantees for the list from its cell on. *)
Definition insert_post (lk : lock) (lp lp' : list lock) : Prop :=
  locks_wf lp' /\
  (forall o x, held lp' o x = held_after lp lk o x) /\
  (forall l0, Forall (before l0) lp -> before l0 lk -> Forall (before l0) lp').

Lemma insert_finish lk lp :
  lock_ok lk -> locks_wf lp -> Forall (before lk) lp ->
  insert_post lk lp (if negb (lk_type lk =? F_UNLCK) then lk :: lp else lp).
Proof.
  intros Hok Hwf Hb. unfold insert_post, held_after.
  destruct (Z.eqb_spec (lk_type lk) F_UNLCK) as [Ht|Ht]; simpl.
  - split_and!; [done| |done]. intros o x.
    destruct (covers o x lk) eqn:Hc; [|done].
    apply (held_before lk); [done|..]; unfold covers in Hc; zcases; simpl in *; lia.
  - split_and!; [by apply locks_wf_cons|done|]. intros l0 H0 Hl0. by constructor.
Qed.

(** The loop steps over [l], which becomes [l'] (it keeps a prefix of its range,
    the rest being inside [lk]). *)
Lemma insert_skip lk l e lp lp' :
  lock_ok l -> lk_type l <> F_UNLCK -> Forall (before l) lp ->
  lk_start l <= e -> before (set_end e l) lk ->
  (e = lk_end l \/ e < lk_end l /\ lk_owner l = lk_owner lk /\
     e + 1 = lk_start lk /\ lk_end l <= lk_end lk) ->
  insert_post lk lp lp' -> insert_post lk (l :: lp) (set_end e l :: lp').
Proof.
  intros Hok Ht Hb Hse Hl He (Hwf & Hheld & Hbef).
  assert (Hle : e <= lk_end l) by lia. split_and!.
  - apply locks_wf_cons. split_and!; [|done| |done].
    + lk_unfold. lia.
    + eauto with locks.
  - intros o x. simpl. rewrite Hheld. unfold held_after. simpl.
    lk_unfold. zcases; simpl; auto; lia.
  - intros l0 H0 Hl0. apply Forall_cons in H0 as [H0 H1].
    constructor; [by lk_unfold|auto].
Qed.

Lemma insert_skip_same lk l lp lp' :
  lock_ok l -> lk_type l <> F_UNLCK -> Forall (before l) lp -> before l lk ->
  insert_post lk lp lp' -> insert_post lk (l :: lp) (l :: lp').
Proof.
  intros Hok Ht Hb Hl Hp.
  assert (l = set_end (lk_end l) l) as Heq by by destruct l.
  rewrite Heq at 2. apply insert_skip; auto. apply Hok.
Qed.

(** The loop drops [l], whose range is inside [lk] once [lk] is widened to
    [lk']. *)
Lemma insert_delete lk lk' l lp lp' :
  lk_owner l = lk_owner lk ->
  lk' = lk /\ lk_start lk <= lk_start l /\ lk_end l <= lk_end lk \/
  lk_type l = lk_type lk /\ lk_type l <> F_UNLCK /\
  lk_start lk <= lk_end l + 1 /\ lk_start l <= lk_end lk + 1 /\
  lk' = set_start (Z.min (lk_start l) (lk_start lk))
          (set_end (Z.max (lk_end l) (lk_end lk)) lk) ->
  insert_post lk' lp lp' -> insert_post lk (l :: lp) lp'.
Proof.
  intros Ho Hc (Hwf & Hheld & Hbef). split_and!; [done| |].
  - intros o x. rewrite Hheld. unfold held_after. simpl.
    destruct Hc as [(-> & ? & ?)|(Ht & Hu & ? & ? & ->)]; lk_unfold;
      zcases; simpl; auto; try lia; by rewrite Ht.
  - intros l0 H0 Hl0. apply Forall_cons in H0 as [H0 H1]. apply Hbef; [done|].
    destruct Hc as [(-> & ? & ?)|(Ht & Hu & ? & ? & ->)]; [done|].
    lk_unfold. intros Hol. destruct (Hl0 Hol) as [Ha Hb].
    destruct (H0 ltac:(congruence)) as [Hc Hd].
    split; [lia|]. intros Htl. specialize (Hb Htl). specialize (Hd ltac:(congruence)).
    lia.
Qed.

(** The loop stops before [l], the lock that overlaps the end of [lk], and
    moves its start past [lk]. *)
Lemma insert_cut lk l lp :
  lock_ok lk -> lock_ok l -> lk_type l <> F_UNLCK -> lk_owner l = lk_owner lk ->
  lk_type l <> lk_type lk -> Forall (before l) lp -> locks_wf lp ->
  lk_start lk <= lk_start l -> lk_start l <= lk_end lk -> lk_end lk < lk_end l ->
  insert_post lk (l :: lp)
    (if negb (lk_type lk =? F_UNLCK)
     then lk :: set_start (lk_end lk + 1) l :: lp
     else set_start (lk_end lk + 1) l :: lp).
Proof.
  intros Hlk Hok Hu Ho Ht Hb Hwf H1 H2 H3.
  set (l' := set_start (lk_end lk + 1) l).
  assert (Hl' : locks_wf (l' :: lp)).
  { apply locks_wf_cons. split_and!; [|done|eauto with locks|done].
    lk_unfold; lia. }
  assert (Hbl : Forall (before lk) (l' :: lp)).
  { apply before_all; [done|apply locks_wf_cons in Hl'; tauto|eauto with locks|].
    subst l'. lk_unfold. split; [lia|congruence]. }
  destruct (insert_finish lk (l' :: lp) Hlk Hl' Hbl) as (Ha & Hheld & Hbef).
  split_and!; [done| |].
  - intros o x. rewrite Hheld. unfold held_after, l'. simpl.
    lk_unfold. zcases; simpl; auto; lia.
  - intros l0 H0 Hl0. apply Forall_cons in H0 as [H0 H0']. apply Hbef; [|done].
    constructor; [|done]. subst l'. lk_unfold. intros Hol. specialize (H0 Hol).
    split; [lia|]. intros Htl. destruct H0 as [_ H0]. specialize (H0 Htl). lia.
Qed.

Lemma insert_split lk l lp :
  lock_ok lk -> lock_ok l -> lk_type l <> F_UNLCK -> lk_owner l = lk_owner lk ->
  lk_type l <> lk_type lk -> Forall (before l) lp -> locks_wf lp ->
  lk_start l < lk_start lk -> lk_end lk < lk_end l ->
  insert_post lk (l :: lp)
    (set_end (lk_start lk - 1) l ::
     (if negb (lk_type lk =? F_UNLCK)
      then lk :: set_start (lk_end lk + 1) l :: lp
      else set_start (lk_end lk + 1) l :: lp)).
Proof.
  intros Hlk Hok Hu Ho Ht Hb Hwf H1 H2.
  set (l1 := set_end (lk_start lk - 1) l).
  set (l2 := set_start (lk_start lk) l).
  assert (insert_post lk (l2 :: lp)
    (if negb (lk_type lk =? F_UNLCK)
     then lk :: set_start (lk_end lk + 1) l :: lp
     else set_start (lk_end lk + 1) l :: lp)) as (Hwf' & Hheld & Hbef).
  { apply (insert_cut lk l2 lp); auto with locks; subst l2; lk_unfold; lia. }
  assert (Hl1 : Forall (before l1) (set_start (lk_end lk + 1) l :: lp) /\
    before l1 lk).
  { subst l1. split; [constructor|].
    - intros _. lk_unfold. lia.
    - apply before_set_end; [lk_unfold; lia|done].
    - intros _. lk_unfold. split; [lia|congruence]. }
  split_and!.
  - apply locks_wf_cons. split_and!; [subst l1; lk_unfold; lia|done| |done].
    destruct (negb _); [constructor|]; tauto.
  - intros o x. simpl. rewrite Hheld. unfold held_after, l1, l2. simpl.
    lk_unfold. zcases; simpl; auto; lia.
  - intros l0 H0 Hl0. apply Forall_cons in H0 as [H0 H0'].
    constructor; [by subst l1; lk_unfold|]. apply Hbef; [|done].
    constructor; [|done]. subst l2. lk_unfold. intros Hol. specialize (H0 Hol).
    split; [lia|]. intros Htl. destruct H0 as [_ H0]. specialize (H0 Htl). lia.
Qed.

Lemma off_pred z : 0 <= z <= OFFSET_MAX -> off (z - 1) = Ok (z - 1).
Proof. intros H. apply off_ok. unfold OFFSET_MIN, OFFSET_MAX in *. lia. Qed.

Lemma widen_eq l lk :
  (if lk_end (if lk_start l <? lk_start lk then set_start (lk_start l) lk else lk)
        <? lk_end l
   then set_end (lk_end l)
          (if lk_start l <? lk_start lk then set_start (lk_start l) lk else lk)
   else if lk_start l <? lk_start lk then set_start (lk_start l) lk else lk)
  = set_start (Z.min (lk_start l) (lk_start lk))
      (set_end (Z.max (lk_end l) (lk_end lk)) lk).
Proof. destruct lk. lk_unfold. zcases; f_equal; simpl in *; lia. Qed.

Lemma insert_loop_spec fuel newl1 newl2 lk lp :
  locks_wf lp -> lock_ok lk ->
  (lk_type lk <> F_UNLCK -> newl1 = true) ->
  (newl2 = true \/ lk_start lk = 0 /\ lk_end lk = OFFSET_MAX) ->
  (length lp + 2 <= fuel)%nat ->
  exists lp', locks_insert_loop fuel newl1 newl2 lk lp = Ok lp' /\
    insert_post lk lp lp'.
Proof.
  revert lk lp. induction fuel as [|fuel IH]; intros lk lp Hwf Hlk Hn1 Hn2 Hfuel;
    [lia|].
  assert (Hfin : forall lp', locks_wf lp' -> Forall (before lk) lp' ->
    exists lp'', (if negb (lk_type lk =? F_UNLCK)
      then if newl1 then Ok (lk :: lp') else Crash BadAccess else Ok lp') = Ok lp'' /\
      insert_post lk lp' lp'').
  { intros lp' Hwf' Hb. pose proof (insert_finish lk lp' Hlk Hwf' Hb) as Hp.
    destruct (Z.eqb_spec (lk_type lk) F_UNLCK); simpl in *; [eauto|].
    rewrite Hn1 by done. eauto. }
  simpl. destruct lp as [|l next]; [apply Hfin; [done|constructor]|].
  apply locks_wf_cons in Hwf as ([Hl Hu] & Hb & Hwf). simpl in Hfuel.
  pose proof Hlk as (Hk1 & Hk2 & Hk3). pose proof Hl as (Hl1 & Hl2 & Hl3).
  destruct (Z.eqb_spec (lk_owner l) (lk_owner lk)) as [Ho|Ho]; simpl.
  2:{ destruct (IH lk next) as (lp' & -> & Hp); auto; [lia|]. simpl.
      eexists. split; [done|]. apply insert_skip_same; auto. by intros ?. }
  rewrite !off_pred by lia. rewrite !res_bind_Ok.
  destruct (Z.eqb_spec (lk_type lk) (lk_type l)) as [Ht|Ht].
  - destruct (Z.ltb_spec (lk_end l) (lk_start lk - 1)).
    { destruct (IH lk next) as (lp' & -> & Hp); auto; [lia|]. simpl.
      eexists. split; [done|]. apply insert_skip_same; auto.
      intros _. lia. }
    destruct (Z.ltb_spec (lk_end lk) (lk_start l - 1)).
    { apply Hfin; [by apply locks_wf_cons|]. apply before_all; auto.
      intros _. lia. }
    destruct (Z.leb_spec (lk_start l) (lk_start lk)),
      (Z.leb_spec (lk_end lk) (lk_end l)); simpl.
    1:{ eexists. split; [done|]. split_and!; [by apply locks_wf_cons| |auto].
        intros o x. unfold held_after. simpl. lk_unfold. zcases; simpl; auto; try lia.
        by rewrite Ht. }
    all: set (lk' := set_start (Z.min (lk_start l) (lk_start lk))
      (set_end (Z.max (lk_end l) (lk_end lk)) lk)).
    all: rewrite widen_eq; fold lk'.
    all: destruct (IH lk' next) as (lp' & -> & Hp);
      [done|subst lk'; lk_unfold; lia|done
      |destruct Hn2; [by left|right; subst lk'; lk_unfold; lia]|lia|].
    all: eexists; split; [done|]; apply (insert_delete lk lk'); auto.
    all: right; split_and!; auto; lia.
  - destruct (Z.ltb_spec (lk_end l) (lk_start lk)).
    { destruct (IH lk next) as (lp' & -> & Hp); auto; [lia|]. simpl.
      eexists. split; [done|]. apply insert_skip_same; auto. intros _. lia. }
    destruct (Z.ltb_spec (lk_end lk) (lk_start l)).
    { apply Hfin; [by apply locks_wf_cons|]. apply before_all; auto.
      intros _. lia. }
    destruct (Z.leb_spec (lk_start lk) (lk_start l)),
      (Z.leb_spec (lk_end l) (lk_end lk)); simpl.
    + destruct (IH lk next) as (lp' & -> & Hp); auto; [lia|].
      eexists. split; [done|]. apply (insert_delete lk lk); auto; tauto.
    + rewrite off_ok by (unfold OFFSET_MIN; lia). rewrite res_bind_Ok.
      pose proof (insert_cut lk l next) as Hp.
      destruct (Z.eqb_spec (lk_type lk) F_UNLCK); simpl in *; [|rewrite Hn1 by done];
        eexists; (split; [done|]); apply Hp; auto; lia.
    + destruct (IH lk next) as (lp' & -> & Hp); auto; [lia|]. simpl.
      eexists. split; [done|]. apply insert_skip; auto; [lia| |lia].
      intros _. lk_unfold. split; [lia|congruence].
    + destruct Hn2 as [->|]; [|lia].
      rewrite off_ok by (unfold OFFSET_MIN; lia). rewrite res_bind_Ok.
      destruct fuel as [|fuel]; [lia|]. simpl.
      rewrite (proj2 (Z.eqb_eq _ _) Ho), (proj2 (Z.eqb_neq _ _) Ht). simpl.
      rewrite (proj2 (Z.ltb_ge _ _)), (proj2 (Z.ltb_lt (lk_end lk) _)) by lia.
      pose proof (insert_split lk l next) as Hp.
      destruct (Z.eqb_spec (lk_type lk) F_UNLCK); simpl in *; [|rewrite Hn1 by done];
        eexists; (split; [done|]); apply Hp; auto; lia.
Qed.

(** ** Properties *)

(** C39: [locks_insert] on a well-formed list always returns 0 when its two
    allocations succeed: it never dereferences a cell it does not hold, never
    overflows an offset, and the new list is well-formed and records, byte by
    byte and owner by owner, exactly the old locks overwritten by the new one. *)
Theorem locks_insert_functional locks lk :
  locks_wf locks -> lock_ok lk ->
  exists locks', locks_insert true true locks lk = Ok (0, locks') /\
    locks_wf locks' /\
    forall o x, held locks' o x = held_after locks lk o x.
Proof.
  intros Hwf Hlk. unfold locks_insert. simpl. rewrite andb_false_r.
  set (need := _ || _).
  destruct (insert_loop_spec (length locks + 2) need need lk locks)
    as (locks' & -> & Hp & Hheld & _); auto.
  - intros Ht. subst need. by rewrite (proj2 (Z.eqb_neq _ _) Ht).
  - destruct need eqn:Hneed; [by left|right]. subst need.
    destruct (Z.eqb_spec (lk_start lk) 0), (Z.eqb_spec (lk_end lk) OFFSET_MAX),
      (Z.eqb_spec (lk_type lk) F_UNLCK); done.
  - simpl. eauto.
Qed.

Definition ex_locks : list lock :=
  [mk_lock F_WRLCK 0 99 10 1; mk_lock F_RDLCK 40 50 11 2; mk_lock F_WRLCK 200 299 10 1].

Lemma ex_locks_wf : locks_wf ex_locks.
Proof.
  split; repeat constructor; simpl; try done; unfold F_UNLCK, F_WRLCK, F_RDLCK;
    try lia.
Qed.

Lemma locks_insert_functional_witness :
  locks_insert true true ex_locks (mk_lock F_UNLCK 10 19 10 1) =
    Ok (0, [mk_lock F_WRLCK 0 9 10 1; mk_lock F_WRLCK 20 99 10 1;
            mk_lock F_RDLCK 40 50 11 2; mk_lock F_WRLCK 200 299 10 1]) /\
  exists locks',
    locks_insert true true ex_locks (mk_lock F_UNLCK 10 19 10 1) = Ok (0, locks') /\
    locks_wf locks' /\
    forall o x, held locks' o x = held_after ex_locks (mk_lock F_UNLCK 10 19 10 1) o x.
Proof.
  split; [reflexivity|].
  apply (locks_insert_functional ex_locks); [exact ex_locks_wf|].
  unfold lock_ok, OFFSET_MAX; simpl; lia.
Defined.

(** Removing an owner's locks over the whole file, as every flush does,
    succeeds even when no memory can be allocated; the owner then holds no byte
    and every other owner keeps what it held. *)
Theorem locks_insert_unlock_all m1 m2 locks lk :
  locks_wf locks -> lk_type lk = F_UNLCK -> lk_start lk = 0 ->
  lk_end lk = OFFSET_MAX ->
  exists locks', locks_insert m1 m2 locks lk = Ok (0, locks') /\
    locks_wf locks' /\
    (forall x, 0 <= x <= OFFSET_MAX -> held locks' (lk_owner lk) x = None) /\
    (forall o x, o <> lk_owner lk -> held locks' o x = held locks o x).
Proof.
  intros Hwf Ht Hs He. unfold locks_insert. rewrite Ht, Hs, He. simpl.
  destruct (insert_loop_spec (length locks + 2) false false lk locks)
    as (locks' & -> & Hp & Hheld & _); auto.
  { unfold lock_ok. rewrite Hs, He. unfold OFFSET_MAX. lia. }
  simpl. exists locks'. split_and!; [done|done|..]; intros; rewrite Hheld;
    unfold held_after, covers; rewrite Ht, Hs, He; simpl; zcases; simpl; auto; lia.
Qed.

Lemma locks_insert_unlock_all_witness :
  exists locks', locks_insert false false ex_locks
      (mk_lock F_UNLCK 0 OFFSET_MAX 10 1) = Ok (0, locks') /\
    locks_wf locks' /\
    (forall x, 0 <= x <= OFFSET_MAX -> held locks' 1 x = None) /\
    (forall o x, o <> 1 -> held locks' o x = held ex_locks o x).
Proof.
  apply (locks_insert_unlock_all false false ex_locks
    (mk_lock F_UNLCK 0 OFFSET_MAX 10 1)); [exact ex_locks_wf|done..].
Defined.

Lemma conflicts_spec lk l :
  conflicts lk l = true <->
  lk_owner l <> lk_owner lk /\ lk_start lk <= lk_end l /\
  lk_start l <= lk_end lk /\ (lk_type l = F_WRLCK \/ lk_type lk = F_WRLCK).
Proof. unfold conflicts. zcases; simpl; split; intros; try done; lia. Qed.

Lemma held_Some_in locks o x t :
  held locks o x = Some t ->
  exists l, l ∈ locks /\ lk_type l = t /\ lk_owner l = o /\
    lk_start l <= x <= lk_end l.
Proof.
  induction locks as [|l locks IH]; [done|]. simpl. unfold covers.
  zcases; simpl; intros; simplify_eq;
    try (exists l; split_and!; [by left|done..]);
    (destruct IH as (l' & ? & ?); [done|]; exists l'; split; [by right|tauto]).
Qed.

Lemma held_in locks l x :
  locks_wf locks -> l ∈ locks -> lk_start l <= x <= lk_end l ->
  held locks (lk_owner l) x = Some (lk_type l).
Proof.
  induction locks as [|l0 locks IH]; intros Hwf Hin Hx; [by apply not_elem_of_nil in Hin|].
  apply locks_wf_cons in Hwf as (Hok & Hb & Hwf). simpl.
  apply elem_of_cons in Hin as [->|Hin].
  - unfold covers. zcases; simpl; auto; lia.
  - rewrite IH by done. rewrite Forall_forall in Hb. specialize (Hb l Hin).
    lk_unfold. zcases; simpl; auto. lia.
Qed.

Lemma locks_conflict_None locks lk :
  locks_conflict locks lk = None <-> forall l, l ∈ locks -> conflicts lk l = false.
Proof.
  induction locks as [|l locks IH]; simpl.
  { split; [|done]. intros _ l Hin. by apply not_elem_of_nil in Hin. }
  destruct (conflicts lk l) eqn:Hc.
  - split; [done|]. intros H. rewrite (H l) in Hc; [done|left].
  - rewrite IH. split; intros H.
    + intros l' Hin. apply elem_of_cons in Hin as [->|]; auto.
    + intros l' Hin. apply H. by right.
Qed.

(** C40: [locks_conflict] reports no conflict exactly when no other owner holds a
    lock on a byte of the requested range that excludes the request (a write
    lock there, or any lock there when the request is for writing). *)
Theorem locks_conflict_correct locks lk :
  locks_wf locks -> lock_ok lk ->
  locks_conflict locks lk = None <->
  forall o x t, o <> lk_owner lk -> lk_start lk <= x <= lk_end lk ->
    held locks o x = Some t -> t <> F_WRLCK /\ lk_type lk <> F_WRLCK.
Proof.
  intros Hwf Hlk. rewrite locks_conflict_None. split.
  - intros Hno o x t Ho Hx Hheld.
    apply held_Some_in in Hheld as (l & Hin & <- & <- & Hlx).
    specialize (Hno l Hin). apply not_true_iff_false in Hno.
    rewrite conflicts_spec in Hno. lia.
  - intros H l Hin. apply not_true_iff_false. rewrite conflicts_spec.
    intros (Ho & Hse & Hes & Ht).
    assert (lock_ok l) as Hl
      by (destruct Hwf as [Hall _]; rewrite Forall_forall in Hall; by apply Hall).
    unfold lock_ok in *.
    destruct (H (lk_owner l) (Z.max (lk_start l) (lk_start lk)) (lk_type l));
      [done|lia|apply held_in; [done..|lia]|tauto].
Qed.

Lemma locks_conflict_correct_witness :
  locks_conflict ex_locks (mk_lock F_RDLCK 45 60 12 2) =
    Some (mk_lock F_WRLCK 0 99 10 1) /\
  locks_conflict ex_locks (mk_lock F_RDLCK 100 150 12 2) = None /\
  forall o x t, o <> 2 -> 100 <= x <= 150 ->
    held ex_locks o x = Some t -> t <> F_WRLCK /\ F_RDLCK <> F_WRLCK.
Proof.
  split; [reflexivity|]. split; [reflexivity|].
  apply (locks_conflict_correct ex_locks (mk_lock F_RDLCK 100 150 12 2)
    ex_locks_wf); [unfold lock_ok, OFFSET_MAX; simpl; lia|reflexivity].
Defined.

(** A range the kernel sends: [l_len] 0 stands for "up to the end". *)
Definition flock_ok (fl : flock) : Prop :=
  0 <= l_start fl /\ 0 <= l_len fl /\ l_start fl + l_len fl <= OFFSET_MAX.

(** Converting a [struct flock] to a lock and back gives the same
    [struct flock], with no overflow on the way; a length of 0 is the range up to
    [OFFSET_MAX] and comes back as 0. *)
Theorem flock_roundtrip fl :
  flock_ok fl ->
  exists lk, flock_to_lock fl = Ok lk /\ lock_ok lk /\ lock_to_flock lk fl = Ok fl.
Proof.
  intros (H1 & H2 & H3). unfold flock_to_lock, lock_to_flock, lock_ok, OFFSET_MAX in *.
  destruct (Z.eqb_spec (l_len fl) 0) as [Hz|Hz]; simpl.
  - eexists. split_and!; [done|simpl; lia..|]. simpl. destruct fl; simpl in *.
    by subst.
  - rewrite off_ok by (unfold OFFSET_MIN, OFFSET_MAX; lia). simpl.
    rewrite off_ok by (unfold OFFSET_MIN, OFFSET_MAX; lia). simpl.
    eexists. split_and!; [done|simpl; lia..|]. simpl.
    rewrite (proj2 (Z.eqb_neq _ _)) by lia.
    rewrite off_ok by (unfold OFFSET_MIN, OFFSET_MAX; lia). simpl.
    rewrite off_ok by (unfold OFFSET_MIN, OFFSET_MAX; lia). simpl.
    destruct fl; simpl. f_equal. f_equal. lia.
Qed.

Lemma flock_roundtrip_witness :
  exists lk, flock_to_lock (mk_flock F_WRLCK SEEK_SET 100 50 7) = Ok lk /\
    lock_ok lk /\
    lock_to_flock lk (mk_flock F_WRLCK SEEK_SET 100 50 7) =
      Ok (mk_flock F_WRLCK SEEK_SET 100 50 7).
Proof.
  apply (flock_roundtrip (mk_flock F_WRLCK SEEK_SET 100 50 7)).
  unfold flock_ok, OFFSET_MAX. simpl. lia.
Defined.

End PosixLock.
