(* ===== verification/Types.v ===== *)
(** * Data of the high-level library (lib/fuse.c, include/fuse.h, fuse_common.h)

    The structures the components share.  A C pointer is its address, an integer,
    with 0 for NULL; the nodes live in [heap], a finite map from addresses.  A
    C [int] that the code uses only as a truth value is a [bool].  An intrusive
    list or hash chain is the list of the addresses it links, in order. *)
From S2P Require Import Prelude Slab PosixLock.
From Stdlib Require Import QArith.
#[local] Open Scope Z_scope.

Definition ptr : Type := Z.
Definition NULL : ptr := 0.

(** errno values (asm-generic/errno*.h) *)
Definition EPERM : Z := 1.
Definition ENOENT : Z := 2.
Definition EIO : Z := 5.
Definition EAGAIN : Z := 11.
Definition ENOMEM : Z := 12.
Definition EBUSY : Z := 16.
Definition EINVAL : Z := 22.
Definition ENOSYS : Z := 38.
Definition ENOTEMPTY : Z := 39.
Definition ESTALE : Z := 116.

Definition FUSE_ROOT_ID : Z := 1.
Definition FUSE_UNKNOWN_INO : Z := 0xffffffff.
Definition NODE_TABLE_MIN_SIZE : Z := 8192.
Definition INT_MIN : Z := - 2 ^ 31.
Definition TREELOCK_WRITE : Z := -1.
Definition TREELOCK_WAIT_OFFSET : Z := INT_MIN.
Definition RENAME_EXCHANGE : Z := 2.

Definition S_IFMT : Z := 61440.
Definition S_IFREG : Z := 32768.
Definition S_ISREG (m : Z) : bool := Z.land m S_IFMT =? S_IFREG.

(** [struct timespec]. *)
Record timespec : Type := mk_timespec {
  tv_sec : Z;
  tv_nsec : Z;
}.

#[global] Instance timespec_eq_dec : EqDecision timespec.
Proof. solve_decision. Defined.

(** [struct stat]. *)
Record stat : Type := mk_stat {
  st_ino : Z;
  st_mode : Z;
  st_nlink : Z;
  st_uid : Z;
  st_gid : Z;
  st_rdev : Z;
  st_size : Z;
  st_blksize : Z;
  st_blocks : Z;
  st_atim : timespec;
  st_mtim : timespec;
  st_ctim : timespec;
}.

#[global] Instance stat_eq_dec : EqDecision stat.
Proof. solve_decision. Defined.

Definition set_st_ino (v : Z) (r : stat) : stat :=
  mk_stat v (st_mode r) (st_nlink r) (st_uid r) (st_gid r) (st_rdev r)
    (st_size r) (st_blksize r) (st_blocks r) (st_atim r) (st_mtim r)
    (st_ctim r).
Definition set_st_mode (v : Z) (r : stat) : stat :=
  mk_stat (st_ino r) v (st_nlink r) (st_uid r) (st_gid r) (st_rdev r)
    (st_size r) (st_blksize r) (st_blocks r) (st_atim r) (st_mtim r)
    (st_ctim r).
Definition set_st_nlink (v : Z) (r : stat) : stat :=
  mk_stat (st_ino r) (st_mode r) v (st_uid r) (st_gid r) (st_rdev r)
    (st_size r) (st_blksize r) (st_blocks r) (st_atim r) (st_mtim r)
    (st_ctim r).
Definition set_st_uid (v : Z) (r : stat) : stat :=
  mk_stat (st_ino r) (st_mode r) (st_nlink r) v (st_gid r) (st_rdev r)
    (st_size r) (st_blksize r) (st_blocks r) (st_atim r) (st_mtim r)
    (st_ctim r).
Definition set_st_gid (v : Z) (r : stat) : stat :=
  mk_stat (st_ino r) (st_mode r) (st_nlink r) (st_uid r) v (st_rdev r)
    (st_size r) (st_blksize r) (st_blocks r) (st_atim r) (st_mtim r)
    (st_ctim r).

(** [memset(&buf, 0, sizeof(buf))]. *)
Definition time0 : timespec := mk_timespec 0 0.
Definition stat0 : stat := mk_stat 0 0 0 0 0 0 0 0 0 time0 time0 time0.

(** [struct fuse_config] (include/fuse.h); a [double] is a rational. *)
Record fuse_config : Type := mk_config {
  set_gid : bool;
  gid : Z;
  set_uid : bool;
  uid : Z;
  set_mode : bool;
  umask : Z;
  entry_timeout : Q;
  negative_timeout : Q;
  attr_timeout : Q;
  intr : bool;
  intr_signal : Z;
  remember : Z;
  hard_remove : bool;
  use_ino : bool;
  readdir_ino : bool;
  direct_io : bool;
  kernel_cache : bool;
  auto_cache : bool;
  no_rofd_flush : bool;
  ac_attr_timeout_set : bool;
  ac_attr_timeout : Q;
  nullpath_ok : bool;
  parallel_direct_writes : bool;
  debug : bool;
}.

(** [struct fuse_file_info] (include/fuse_common.h). *)
Record fuse_file_info : Type := mk_fi {
  fi_flags : Z;
  fi_writepage : bool;
  fi_direct_io : bool;
  fi_keep_cache : bool;
  fi_parallel_direct_writes : bool;
  fi_flush : bool;
  fi_nonseekable : bool;
  fi_flock_release : bool;
  fi_cache_readdir : bool;
  fi_noflush : bool;
  fi_fh : Z;
  fi_lock_owner : Z;
  fi_poll_events : Z;
}.

Definition set_fi_flags (v : Z) (r : fuse_file_info) : fuse_file_info :=
  mk_fi v (fi_writepage r) (fi_direct_io r) (fi_keep_cache r)
    (fi_parallel_direct_writes r) (fi_flush r) (fi_nonseekable r)
    (fi_flock_release r) (fi_cache_readdir r) (fi_noflush r)
    (fi_fh r) (fi_lock_owner r) (fi_poll_events r).
Definition set_fi_direct_io (v : bool) (r : fuse_file_info) : fuse_file_info :=
  mk_fi (fi_flags r) (fi_writepage r) v (fi_keep_cache r)
    (fi_parallel_direct_writes r) (fi_flush r) (fi_nonseekable r)
    (fi_flock_release r) (fi_cache_readdir r) (fi_noflush r)
    (fi_fh r) (fi_lock_owner r) (fi_poll_events r).
Definition set_fi_keep_cache (v : bool) (r : fuse_file_info) : fuse_file_info :=
  mk_fi (fi_flags r) (fi_writepage r) (fi_direct_io r) v
    (fi_parallel_direct_writes r) (fi_flush r) (fi_nonseekable r)
    (fi_flock_release r) (fi_cache_readdir r) (fi_noflush r)
    (fi_fh r) (fi_lock_owner r) (fi_poll_events r).
Definition set_fi_parallel_direct_writes (v : bool) (r : fuse_file_info) : fuse_file_info :=
  mk_fi (fi_flags r) (fi_writepage r) (fi_direct_io r) (fi_keep_cache r)
    v (fi_flush r) (fi_nonseekable r) (fi_flock_release r)
    (fi_cache_readdir r) (fi_noflush r) (fi_fh r) (fi_lock_owner r)
    (fi_poll_events r).
Definition set_fi_noflush (v : bool) (r : fuse_file_info) : fuse_file_info :=
  mk_fi (fi_flags r) (fi_writepage r) (fi_direct_io r) (fi_keep_cache r)
    (fi_parallel_direct_writes r) (fi_flush r) (fi_nonseekable r)
    (fi_flock_release r) (fi_cache_readdir r) v (fi_fh r)
    (fi_lock_owner r) (fi_poll_events r).
Definition set_fi_fh (v : Z) (r : fuse_file_info) : fuse_file_info :=
  mk_fi (fi_flags r) (fi_writepage r) (fi_direct_io r) (fi_keep_cache r)
    (fi_parallel_direct_writes r) (fi_flush r) (fi_nonseekable r)
    (fi_flock_release r) (fi_cache_readdir r) (fi_noflush r) v
    (fi_lock_owner r) (fi_poll_events r).

Definition fi0 : fuse_file_info :=
  mk_fi 0 false false false false false false false false false 0 0 0.

(** [struct fuse_entry_param] (include/fuse_lowlevel.h). *)
Record fuse_entry_param : Type := mk_entry {
  e_ino : Z;
  e_generation : Z;
  e_attr : stat;
  e_attr_timeout : Q;
  e_entry_timeout : Q;
}.

Definition set_e_ino (v : Z) (r : fuse_entry_param) : fuse_entry_param :=
  mk_entry v (e_generation r) (e_attr r) (e_attr_timeout r)
    (e_entry_timeout r).
Definition set_e_attr (v : stat) (r : fuse_entry_param) : fuse_entry_param :=
  mk_entry (e_ino r) (e_generation r) v (e_attr_timeout r)
    (e_entry_timeout r).
Definition set_e_entry_timeout (v : Q) (r : fuse_entry_param) : fuse_entry_param :=
  mk_entry (e_ino r) (e_generation r) (e_attr r) (e_attr_timeout r) v.

Definition entry0 : fuse_entry_param := mk_entry 0 0 stat0 0 0.

(** [struct node_table]: [array] holds the hash chains. *)
Record node_table : Type := mk_table {
  array : list (list ptr);
  tuse : Z;
  tsize : Z;
  tsplit : Z;
}.

Definition set_array (v : list (list ptr)) (r : node_table) : node_table :=
  mk_table v (tuse r) (tsize r) (tsplit r).
Definition set_tuse (v : Z) (r : node_table) : node_table :=
  mk_table (array r) v (tsize r) (tsplit r).
Definition set_tsplit (v : Z) (r : node_table) : node_table :=
  mk_table (array r) (tuse r) (tsize r) v.

(** [struct node] with the [forget_time] of [struct node_lru]; the chain links are in
    the tables and in [lru_table]. *)
Record node : Type := mk_node {
  nodeid : Z;
  n_generation : Z;
  refctr : Z;
  parent : ptr;
  name : option string;
  nlookup : Z;
  open_count : Z;
  stat_updated : timespec;
  mtime : timespec;
  n_size : Z;
  locks : list PosixLock.lock;
  is_hidden : bool;
  cache_valid : bool;
  treelock : Z;
  forget_time : timespec;
}.

#[global] Instance node_eq_dec : EqDecision node.
Proof. solve_decision. Defined.

Definition set_nodeid (v : Z) (r : node) : node :=
  mk_node v (n_generation r) (refctr r) (parent r) (name r) (nlookup r)
    (open_count r) (stat_updated r) (mtime r) (n_size r) (locks r)
    (is_hidden r) (cache_valid r) (treelock r) (forget_time r).
Definition set_n_generation (v : Z) (r : node) : node :=
  mk_node (nodeid r) v (refctr r) (parent r) (name r) (nlookup r)
    (open_count r) (stat_updated r) (mtime r) (n_size r) (locks r)
    (is_hidden r) (cache_valid r) (treelock r) (forget_time r).
Definition set_refctr (v : Z) (r : node) : node :=
  mk_node (nodeid r) (n_generation r) v (parent r) (name r) (nlookup r)
    (open_count r) (stat_updated r) (mtime r) (n_size r) (locks r)
    (is_hidden r) (cache_valid r) (treelock r) (forget_time r).
Definition set_parent (v : ptr) (r : node) : node :=
  mk_node (nodeid r) (n_generation r) (refctr r) v (name r) (nlookup r)
    (open_count r) (stat_updated r) (mtime r) (n_size r) (locks r)
    (is_hidden r) (cache_valid r) (treelock r) (forget_time r).
Definition set_name (v : option string) (r : node) : node :=
  mk_node (nodeid r) (n_generation r) (refctr r) (parent r) v (nlookup r)
    (open_count r) (stat_updated r) (mtime r) (n_size r) (locks r)
    (is_hidden r) (cache_valid r) (treelock r) (forget_time r).
Definition set_nlookup (v : Z) (r : node) : node :=
  mk_node (nodeid r) (n_generation r) (refctr r) (parent r) (name r) v
    (open_count r) (stat_updated r) (mtime r) (n_size r) (locks r)
    (is_hidden r) (cache_valid r) (treelock r) (forget_time r).
Definition set_open_count (v : Z) (r : node) : node :=
  mk_node (nodeid r) (n_generation r) (refctr r) (parent r) (name r)
    (nlookup r) v (stat_updated r) (mtime r) (n_size r) (locks r)
    (is_hidden r) (cache_valid r) (treelock r) (forget_time r).
Definition set_stat_updated (v : timespec) (r : node) : node :=
  mk_node (nodeid r) (n_generation r) (refctr r) (parent r) (name r)
    (nlookup r) (open_count r) v (mtime r) (n_size r) (locks r)
    (is_hidden r) (cache_valid r) (treelock r) (forget_time r).
Definition set_mtime (v : timespec) (r : node) : node :=
  mk_node (nodeid r) (n_generation r) (refctr r) (parent r) (name r)
    (nlookup r) (open_count r) (stat_updated r) v (n_size r)
    (locks r) (is_hidden r) (cache_valid r) (treelock r)
    (forget_time r).
Definition set_n_size (v : Z) (r : node) : node :=
  mk_node (nodeid r) (n_generation r) (refctr r) (parent r) (name r)
    (nlookup r) (open_count r) (stat_updated r) (mtime r) v (locks r)
    (is_hidden r) (cache_valid r) (treelock r) (forget_time r).
Definition set_locks (v : list PosixLock.lock) (r : node) : node :=
  mk_node (nodeid r) (n_generation r) (refctr r) (parent r) (name r)
    (nlookup r) (open_count r) (stat_updated r) (mtime r) (n_size r)
    v (is_hidden r) (cache_valid r) (treelock r) (forget_time r).
Definition set_is_hidden (v : bool) (r : node) : node :=
  mk_node (nodeid r) (n_generation r) (refctr r) (parent r) (name r)
    (nlookup r) (open_count r) (stat_updated r) (mtime r) (n_size r)
    (locks r) v (cache_valid r) (treelock r) (forget_time r).
Definition set_cache_valid (v : bool) (r : node) : node :=
  mk_node (nodeid r) (n_generation r) (refctr r) (parent r) (name r)
    (nlookup r) (open_count r) (stat_updated r) (mtime r) (n_size r)
    (locks r) (is_hidden r) v (treelock r) (forget_time r).
Definition set_treelock (v : Z) (r : node) : node :=
  mk_node (nodeid r) (n_generation r) (refctr r) (parent r) (name r)
    (nlookup r) (open_count r) (stat_updated r) (mtime r) (n_size r)
    (locks r) (is_hidden r) (cache_valid r) v (forget_time r).
Definition set_forget_time (v : timespec) (r : node) : node :=
  mk_node (nodeid r) (n_generation r) (refctr r) (parent r) (name r)
    (nlookup r) (open_count r) (stat_updated r) (mtime r) (n_size r)
    (locks r) (is_hidden r) (cache_valid r) (treelock r) v.

(** A node as [alloc_node] returns it: all bytes zero. *)
Definition node0 : node :=
  mk_node 0 0 0 NULL None 0 0 time0 time0 0 [] false false 0 time0.

(** [struct lock_queue_element].  [path1], [wnode1], [path2], [wnode2] say whether
    the pointer is non-null, the [out_] fields are what it points to, and
    [signalled] is the state of the condition variable. *)
Record lock_queue_element : Type := mk_qe {
  nodeid1 : Z;
  name1 : option string;
  path1 : bool;
  wnode1 : bool;
  nodeid2 : Z;
  name2 : option string;
  path2 : bool;
  wnode2 : bool;
  qerr : Z;
  qdone : bool;
  signalled : bool;
  out_path1 : option string;
  out_wnode1 : ptr;
  out_path2 : option string;
  out_wnode2 : ptr;
}.

Definition set_qerr (v : Z) (r : lock_queue_element) : lock_queue_element :=
  mk_qe (nodeid1 r) (name1 r) (path1 r) (wnode1 r) (nodeid2 r) (name2 r)
    (path2 r) (wnode2 r) v (qdone r) (signalled r) (out_path1 r)
    (out_wnode1 r) (out_path2 r) (out_wnode2 r).
Definition set_qdone (v : bool) (r : lock_queue_element) : lock_queue_element :=
  mk_qe (nodeid1 r) (name1 r) (path1 r) (wnode1 r) (nodeid2 r) (name2 r)
    (path2 r) (wnode2 r) (qerr r) v (signalled r) (out_path1 r)
    (out_wnode1 r) (out_path2 r) (out_wnode2 r).
Definition set_signalled (v : bool) (r : lock_queue_element) : lock_queue_element :=
  mk_qe (nodeid1 r) (name1 r) (path1 r) (wnode1 r) (nodeid2 r) (name2 r)
    (path2 r) (wnode2 r) (qerr r) (qdone r) v (out_path1 r)
    (out_wnode1 r) (out_path2 r) (out_wnode2 r).

(** [struct fuse].  A lock queue element lives on a stack and is known by an
    identity.  [allocs] is the environment: the outcomes of the coming
    allocations (success once the list is used up); [clock] is what
    [clock_gettime] returns. *)
Record fuse : Type := mk_fuse {
  heap : gmap ptr node;
  slabs : Slab.slabs;
  name_table : node_table;
  id_table : node_table;
  lru_table : list ptr;
  ctr : Z;
  generation : Z;
  hidectr : Z;
  conf : fuse_config;
  lockq : list (positive * lock_queue_element);
  allocs : list bool;
  clock : timespec;
}.

Definition set_heap (v : gmap ptr node) (r : fuse) : fuse :=
  mk_fuse v (slabs r) (name_table r) (id_table r) (lru_table r) (ctr r)
    (generation r) (hidectr r) (conf r) (lockq r) (allocs r)
    (clock r).
Definition set_slabs (v : Slab.slabs) (r : fuse) : fuse :=
  mk_fuse (heap r) v (name_table r) (id_table r) (lru_table r) (ctr r)
    (generation r) (hidectr r) (conf r) (lockq r) (allocs r)
    (clock r).
Definition set_name_table (v : node_table) (r : fuse) : fuse :=
  mk_fuse (heap r) (slabs r) v (id_table r) (lru_table r) (ctr r)
    (generation r) (hidectr r) (conf r) (lockq r) (allocs r)
    (clock r).
Definition set_id_table (v : node_table) (r : fuse) : fuse :=
  mk_fuse (heap r) (slabs r) (name_table r) v (lru_table r) (ctr r)
    (generation r) (hidectr r) (conf r) (lockq r) (allocs r)
    (clock r).
Definition set_lru_table (v : list ptr) (r : fuse) : fuse :=
  mk_fuse (heap r) (slabs r) (name_table r) (id_table r) v (ctr r)
    (generation r) (hidectr r) (conf r) (lockq r) (allocs r)
    (clock r).
Definition set_ctr (v : Z) (r : fuse) : fuse :=
  mk_fuse (heap r) (slabs r) (name_table r) (id_table r) (lru_table r) v
    (generation r) (hidectr r) (conf r) (lockq r) (allocs r)
    (clock r).
Definition set_generation (v : Z) (r : fuse) : fuse :=
  mk_fuse (heap r) (slabs r) (name_table r) (id_table r) (lru_table r)
    (ctr r) v (hidectr r) (conf r) (lockq r) (allocs r) (clock r).
Definition set_hidectr (v : Z) (r : fuse) : fuse :=
  mk_fuse (heap r) (slabs r) (name_table r) (id_table r) (lru_table r)
    (ctr r) (generation r) v (conf r) (lockq r) (allocs r) (clock r).
Definition set_lockq (v : list (positive * lock_queue_element)) (r : fuse) : fuse :=
  mk_fuse (heap r) (slabs r) (name_table r) (id_table r) (lru_table r)
    (ctr r) (generation r) (hidectr r) (conf r) v (allocs r)
    (clock r).
Definition set_allocs (v : list bool) (r : fuse) : fuse :=
  mk_fuse (heap r) (slabs r) (name_table r) (id_table r) (lru_table r)
    (ctr r) (generation r) (hidectr r) (conf r) (lockq r) v (clock r).
