(* ===== verification/NodeTable.v ===== *)
(** * The node tables (lib/fuse.c, 549-970)

    The two linear hash tables of nodes, by id and by parent and name, and the
    life of a node: allocation, lookup counts, references, deletion. *)
From S2P Require Import Prelude Slab PosixLock Types.
#[local] Open Scope Z_scope.

(** ** Access to the state *)
Definition F (A : Type) : Type := M fuse A.

(** [*p], undefined on a pointer that is not a live node. *)
Definition load (p : ptr) : F node := f ← getM; derefM (heap f !! p).
Definition store (p : ptr) (n : node) : F unit :=
  modifyM (fun f => set_heap (<[p := n]> (heap f)) f).
Definition update (p : ptr) (g : node -> node) : F unit :=
  n ← load p; store p (g n).

(** The outcome of the next allocation. *)
Definition malloc : F bool :=
  f ← getM;
  match allocs f with
  | [] => mret true
  | b :: bs => putM (set_allocs bs f);; mret b
  end.

(** Runs a computation of the slab allocator. *)
Definition with_slabs {A} (m : M Slab.slabs A) : F A :=
  f ← getM;
  match m (slabs f) with
  | Ok (a, s) => putM (set_slabs s f);; mret a
  | Crash c => crashM c
  end.

Definition alloc_node : F ptr :=
  f ← getM;
  p ← with_slabs (Slab.alloc_node (remember (conf f)));
  (if p =? NULL then mret tt else store p node0);;
  mret p.

Definition free_node (p : ptr) : F unit :=
  with_slabs (Slab.free_node_mem p);;
  modifyM (fun f => set_heap (delete p (heap f)) f).

Definition lru_enabled (f : fuse) : bool := 0 <? remember (conf f).

(** ** Linear hashing

    What [id_hash] and [name_hash] do with the full hash. *)
Definition bucket (t : node_table) (h : Z) : Z :=
  let hash := h mod tsize t in
  let oldhash := hash mod (tsize t / 2) in
  if tsplit t <=? oldhash then oldhash else hash.

Definition id_hash_full (ino : Z) : Z := u32 (u32 ino * 2654435761).

Definition id_hash (f : fuse) (ino : Z) : Z := bucket (id_table f) (id_hash_full ino).

Fixpoint name_hash_full (hash : Z) (name : string) : Z :=
  match name with
  | EmptyString => hash
  | String c name =>
    name_hash_full (u64 (hash * 31 + Z.of_N (Ascii.N_of_ascii c))) name
  end.

Definition name_hash (f : fuse) (parent : Z) (name : string) : Z :=
  bucket (name_table f) (name_hash_full parent name).

(** The code of the two tables is the same up to the hash function and the table;
    [table_ops] is what differs. *)
Record table_ops : Type := mk_ops {
  tget : fuse -> node_table;
  tset : node_table -> fuse -> fuse;
  tkey : fuse -> ptr -> option Z;
}.

Definition id_ops : table_ops :=
  mk_ops id_table set_id_table
    (fun f p => n ← heap f !! p; Some (id_hash_full (nodeid n))).

Definition name_ops : table_ops :=
  mk_ops name_table set_name_table
    (fun f p => n ← heap f !! p; pn ← heap f !! parent n; s ← name n;
       Some (name_hash_full (nodeid pn) s)).

(** [t->array[i]]. *)
Definition chain (t : node_table) (i : Z) : option (list ptr) :=
  if 0 <=? i then array t !! Z.to_nat i else None.
Definition set_chain (i : Z) (l : list ptr) (t : node_table) : node_table :=
  set_array (<[Z.to_nat i := l]> (array t)) t.

Definition get_chain (ops : table_ops) (i : Z) : F (list ptr) :=
  f ← getM; derefM (chain (tget ops f) i).
Definition put_chain (ops : table_ops) (i : Z) (l : list ptr) : F unit :=
  get_chain ops i;; modifyM (fun f => tset ops (set_chain i l (tget ops f)) f).

(** [realloc] of the array to half its size; on failure the old one is kept. *)
Definition node_table_reduce (ok : bool) (t : node_table) : node_table :=
  let newsize := tsize t / 2 in
  if newsize <? NODE_TABLE_MIN_SIZE then t
  else mk_table (if ok then take (Z.to_nat newsize) (array t) else array t)
         (tuse t) newsize (newsize / 2).

Definition node_table_resize (ok : bool) (t : node_table) : Z * node_table :=
  let newsize := tsize t * 2 in
  if negb ok then (-1, t)
  else (0, mk_table (take (Z.to_nat (tsize t)) (array t) ++
                     replicate (Z.to_nat (tsize t)) [])
             (tuse t) newsize 0).

(** The loop over the [iter] next buckets of [remerge_id] and [remerge_name]. *)
Fixpoint remerge_loop (iter : nat) (t : node_table) : res node_table :=
  match iter with
  | O => Ok t
  | S iter =>
    if negb (0 <? tsplit t) then Ok t
    else
      let t := set_tsplit (tsplit t - 1) t in
      let i := tsplit t + tsize t / 2 in
      match chain t i, chain t (tsplit t) with
      | Some [], _ => remerge_loop iter t
      | Some upper, Some lower =>
        Ok (set_chain i [] (set_chain (tsplit t) (lower ++ upper) t))
      | _, _ => Crash BadAccess
      end
  end.

Definition remerge (ops : table_ops) : F unit :=
  f ← getM;
  let t := tget ops f in
  (if (tsplit t =? 0) && negb (tsize t / 2 <? NODE_TABLE_MIN_SIZE) then
     ok ← malloc;
     modifyM (fun f => tset ops (node_table_reduce ok (tget ops f)) f)
   else mret tt);;
  f ← getM;
  match remerge_loop 8 (tget ops f) with
  | Ok t => putM (tset ops t f)
  | Crash c => crashM c
  end.

Definition remerge_id : F unit := remerge id_ops.
Definition remerge_name : F unit := remerge name_ops.

(** The loop of [rehash_id] and [rehash_name] over the chain [nodes] of bucket
    [hash], from [*nodep] on: the nodes that stay, and the table where the others
    have been put at the head of their new chains. *)
Fixpoint rehash_loop (key : ptr -> option Z) (hash : Z) (nodes : list ptr)
    (t : node_table) : res (list ptr * node_table) :=
  match nodes with
  | [] => Ok ([], t)
  | p :: nodes =>
    match key p with
    | None => Crash BadAccess
    | Some h =>
      let newhash := bucket t h in
      if negb (newhash =? hash) then
        match chain t newhash with
        | None => Crash BadAccess
        | Some l => rehash_loop key hash nodes (set_chain newhash (p :: l) t)
        end
      else
        '(stay, t) ← rehash_loop key hash nodes t; Ok (p :: stay, t)
    end
  end.

Definition rehash (ops : table_ops) : F unit :=
  f ← getM;
  let t := tget ops f in
  if tsplit t =? tsize t / 2 then mret tt
  else
    let hash := tsplit t in
    let t := set_tsplit (tsplit t + 1) t in
    nodes ← derefM (chain t hash);
    match rehash_loop (tkey ops f) hash nodes t with
    | Crash c => crashM c
    | Ok (stay, t) =>
      let t := set_chain hash stay t in
      putM (tset ops t f);;
      if tsplit t =? tsize t / 2 then
        ok ← malloc;
        modifyM (fun f => tset ops (snd (node_table_resize ok t)) f)
      else mret tt
    end.

Definition rehash_id : F unit := rehash id_ops.
Definition rehash_name : F unit := rehash name_ops.

(** Puts [p] at the head of chain [hash] and counts it; the tail of [hash_id] and
    [hash_name]. *)
Definition table_add (ops : table_ops) (hash : Z) (p : ptr) : F unit :=
  l ← get_chain ops hash;
  put_chain ops hash (p :: l);;
  modifyM (fun f => tset ops (set_tuse (tuse (tget ops f) + 1) (tget ops f)) f);;
  f ← getM;
  if tsize (tget ops f) / 2 <=? tuse (tget ops f) then rehash ops else mret tt.

(** Unlinks the first occurrence of [p]. *)
Fixpoint unlink (p : ptr) (l : list ptr) : option (list ptr) :=
  match l with
  | [] => None
  | q :: l => if q =? p then Some l else (fun l' => q :: l') <$> unlink p l
  end.

(** Takes one off the number of nodes and merges buckets when they are few. *)
Definition table_drop (ops : table_ops) : F unit :=
  modifyM (fun f => tset ops (set_tuse (tuse (tget ops f) - 1) (tget ops f)) f);;
  f ← getM;
  if tuse (tget ops f) <? tsize (tget ops f) / 4 then remerge ops else mret tt.

(** ** Nodes by id *)
Fixpoint find_id (f : fuse) (id : Z) (l : list ptr) : res ptr :=
  match l with
  | [] => Ok NULL
  | p :: l =>
    match heap f !! p with
    | None => Crash BadAccess
    | Some n => if nodeid n =? id then Ok p else find_id f id l
    end
  end.

Definition get_node_nocheck (id : Z) : F ptr :=
  f ← getM;
  l ← get_chain id_ops (id_hash f id);
  match find_id f id l with Ok p => mret p | Crash c => crashM c end.

Definition get_node (id : Z) : F ptr :=
  p ← get_node_nocheck id;
  if p =? NULL then crashM Abort else mret p.

Definition unhash_id (p : ptr) : F unit :=
  n ← load p;
  f ← getM;
  let hash := id_hash f (nodeid n) in
  l ← get_chain id_ops hash;
  match unlink p l with
  | Some l' => put_chain id_ops hash l';; table_drop id_ops
  | None => mret tt
  end.

Definition hash_id (p : ptr) : F unit :=
  n ← load p;
  f ← getM;
  table_add id_ops (id_hash f (nodeid n)) p.

(** ** The LRU list *)
Definition remove_node_lru (p : ptr) : F unit :=
  load p;;
  modifyM (fun f => set_lru_table (Slab.remove_addr p (lru_table f)) f).

Definition set_forget_time (p : ptr) : F unit :=
  modifyM (fun f => set_lru_table (Slab.remove_addr p (lru_table f) ++ [p]) f);;
  f ← getM;
  update p (Types.set_forget_time (clock f)).

(** ** Nodes by name

    [unref] is the caller's way to drop a reference: the functions
    [unhash_name], [delete_node] and [unref_node] call each other up the tree. *)
Definition unhash_name_with (unref : ptr -> F unit) (p : ptr) : F unit :=
  n ← load p;
  match name n with
  | None => mret tt
  | Some s =>
    pn ← load (parent n);
    f ← getM;
    let hash := name_hash f (nodeid pn) s in
    l ← get_chain name_ops hash;
    match unlink p l with
    | None => crashM Abort
    | Some l' =>
      put_chain name_ops hash l';;
      unref (parent n);;
      update p (fun n => set_parent NULL (set_name None n));;
      table_drop name_ops
    end
  end.

Definition delete_node_with (unref : ptr -> F unit) (p : ptr) : F unit :=
  n ← load p;
  assertM (treelock n =? 0);;
  unhash_name_with unref p;;
  f ← getM;
  (if lru_enabled f then remove_node_lru p else mret tt);;
  unhash_id p;;
  free_node p.

(** [fuel] bounds the length of the chain of parents that are deleted. *)
Fixpoint unref_node_loop (fuel : nat) (p : ptr) : F unit :=
  match fuel with
  | O => crashM OutOfFuel
  | S fuel =>
    n ← load p;
    assertM (0 <? refctr n);;
    update p (set_refctr (refctr n - 1));;
    if refctr n - 1 =? 0 then delete_node_with (unref_node_loop fuel) p
    else mret tt
  end.

(** No chain of parents is longer than the number of nodes. *)
Definition tree_fuel (f : fuse) : nat := S (base.size (heap f)).

Definition unref_node (p : ptr) : F unit :=
  f ← getM; unref_node_loop (tree_fuel f) p.
Definition delete_node (p : ptr) : F unit :=
  f ← getM; delete_node_with (unref_node_loop (tree_fuel f)) p.
Definition unhash_name (p : ptr) : F unit :=
  f ← getM; unhash_name_with (unref_node_loop (tree_fuel f)) p.

(** A name shorter than [inline_name] needs no allocation. *)
Definition sizeof_inline_name : Z := 32.
Definition strlen (s : string) : Z := Z.of_nat (String.length s).

Definition hash_name (p : ptr) (parentid : Z) (s : string) : F Z :=
  f ← getM;
  let hash := name_hash f parentid s in
  par ← get_node parentid;
  ok ← (if strlen s <? sizeof_inline_name then mret true else malloc);
  if negb ok then
    update p (set_name None);; mret (-1)
  else
    update p (set_name (Some s));;
    update par (fun n => set_refctr (refctr n + 1) n);;
    update p (set_parent par);;
    table_add name_ops hash p;;
    mret 0.

(** ** Fresh ids *)
Fixpoint next_id_loop (fuel : nat) : F Z :=
  match fuel with
  | O => crashM OutOfFuel
  | S fuel =>
    modifyM (fun f => set_ctr (Z.land (ctr f + 1) 0xffffffff) f);;
    f ← getM;
    (if ctr f =? 0
     then modifyM (fun f => set_generation (u32 (generation f + 1)) f)
     else mret tt);;
    if (ctr f =? 0) || (ctr f =? FUSE_UNKNOWN_INO) then next_id_loop fuel
    else
      p ← get_node_nocheck (ctr f);
      if negb (p =? NULL) then next_id_loop fuel else mret (ctr f)
  end.

(** Of any [size + 3] successive values of the counter at most two are reserved
    and at most [size] are taken. *)
Definition next_id : F Z :=
  f ← getM; next_id_loop (base.size (heap f) + 3).

(** ** Lookup *)
Fixpoint find_name (f : fuse) (par : Z) (s : string) (l : list ptr) : res ptr :=
  match l with
  | [] => Ok NULL
  | p :: l =>
    match (n ← heap f !! p; pn ← heap f !! parent n; s' ← name n;
           Some (nodeid pn, s')) with
    | None => Crash BadAccess
    | Some (pid, s') =>
      if (pid =? par) && String.eqb s' s then Ok p else find_name f par s l
    end
  end.

Definition lookup_node (par : Z) (s : string) : F ptr :=
  f ← getM;
  l ← get_chain name_ops (name_hash f par s);
  match find_name f par s l with Ok p => mret p | Crash c => crashM c end.

Definition inc_nlookup (p : ptr) : F unit :=
  n ← load p;
  (if nlookup n =? 0 then update p (set_refctr (refctr n + 1)) else mret tt);;
  update p (fun n => set_nlookup (u64 (nlookup n + 1)) n).

Definition find_node (par : Z) (s : option string) : F ptr :=
  p ← (match s with None => get_node par | Some s => lookup_node par s end);
  if p =? NULL then
    p ← alloc_node;
    if p =? NULL then mret NULL
    else
      id ← next_id;
      f ← getM;
      update p (fun n => set_n_generation (generation f) (set_nodeid id n));;
      (if negb (remember (conf f) =? 0) then inc_nlookup p else mret tt);;
      s ← derefM s;
      res ← hash_name p par s;
      if res =? -1 then free_node p;; mret NULL
      else
        hash_id p;;
        inc_nlookup p;;
        mret p
  else
    n ← load p;
    f ← getM;
    (if lru_enabled f && (nlookup n =? 1) then remove_node_lru p else mret tt);;
    inc_nlookup p;;
    mret p.

(** ** The state [fuse_new_31] makes *)
Definition node_table_init : node_table :=
  mk_table (replicate (Z.to_nat NODE_TABLE_MIN_SIZE) []) 0 NODE_TABLE_MIN_SIZE 0.

(** The state when both tables are there: [page] is what [getpagesize] returns,
    [mm], [al] and [now] are the environment. *)
Definition fuse_new_state (page : Z) (cf : fuse_config) (mm : list Z) (al : list bool)
    (now : timespec) : fuse :=
  mk_fuse ∅ (Slab.mk_slabs page [] [] ∅ mm) node_table_init node_table_init [] 0 0 0
    cf [] al now.

(** The root; [intr_ok] says that [fuse_init_intr_signal] did not fail. *)
Definition fuse_new_root (intr_ok : bool) : F bool :=
  root ← alloc_node;
  if root =? NULL then mret false
  else
    update root (set_name (Some "/"%string));;
    f ← getM;
    if intr (conf f) && negb intr_ok then mret false
    else
      update root (fun n => set_nodeid FUSE_ROOT_ID (set_parent NULL n));;
      inc_nlookup root;;
      hash_id root;;
      mret true.
