(* ===== verification/TableFacts.v ===== *)
(** * Facts about the linear hash tables

    The invariant of a table: every node is in the chain its hash selects.  Growing
    by one bucket, merging buckets back, and doubling or halving the array keep it
    and keep the nodes. *)
From S2P Require Import Prelude Slab PosixLock Types NodeTable.
#[local] Open Scope Z_scope.

(** ** Lists *)
Lemma concat_insert_perm {A} (l : list (list A)) i x y :
  l !! i = Some x -> concat (<[i:=y]> l) ++ x ≡ₚ concat l ++ y.
Proof.
  revert i. induction l as [|z l IH]; intros [|i] Hi; simpl in *; simplify_eq.
  - rewrite <- !app_assoc. rewrite (Permutation_app_comm (concat l) x).
    rewrite (Permutation_app_comm (concat l) y). rewrite !app_assoc.
    by rewrite (Permutation_app_comm x y).
  - by rewrite <- !app_assoc, IH.
Qed.

Lemma concat_nil_forall {A} (l : list (list A)) :
  Forall (fun x => x = []) l -> concat l = [].
Proof. induction 1 as [|x l -> _ IH]; done. Qed.

Lemma elem_of_concat {A} (l : list (list A)) (p : A) :
  p ∈ concat l <-> exists i x, l !! i = Some x /\ p ∈ x.
Proof.
  induction l as [|y l IH]; simpl.
  - split; [by intros ?%not_elem_of_nil|]. by intros (i & x & Hi & _).
  - rewrite elem_of_app, IH. split.
    + intros [Hp|(i & x & Hi & Hp)]; [by exists 0%nat, y|by exists (S i), x].
    + intros ([|i] & x & Hi & Hp); simpl in Hi; simplify_eq; [by left|right; eauto].
Qed.

(** ** Buckets *)
Definition members (t : node_table) : list ptr := concat (array t).

Lemma mod_double h s : 0 < s -> h mod (2 * s) = h mod s \/ h mod (2 * s) = h mod s + s.
Proof.
  intros Hs. pose proof (Z.mod_pos_bound h (2 * s)).
  assert (h mod s = (h mod (2 * s)) mod s) as ->.
  { symmetry. apply Z.mod_mod_divide. by exists 2. }
  set (x := h mod (2 * s)) in *. destruct (Z_lt_le_dec x s).
  - left. rewrite Z.mod_small; lia.
  - right. rewrite (Z.mod_eq x s) by lia.
    assert (x / s = 1) as ->; [|lia]. symmetry. apply (Z.div_unique x s 1 (x - s)); lia.
Qed.

Section Bucket.
Context (t : node_table) (s : Z) (Hs : 0 < s) (Hsize : tsize t = 2 * s).

Lemma half_size : tsize t / 2 = s.
Proof using Hsize. rewrite Hsize, Z.mul_comm. apply Z.div_mul. lia. Qed.

Lemma bucket_eq h :
  bucket t h = if tsplit t <=? h mod s then h mod s else h mod (2 * s).
Proof using Hs Hsize.
  unfold bucket. rewrite half_size, Hsize.
  assert ((h mod (2 * s)) mod s = h mod s) as Hm
    by (apply Z.mod_mod_divide; by exists 2).
  by rewrite Hm.
Qed.

Lemma bucket_range h :
  0 <= tsplit t <= s -> 0 <= bucket t h < s + tsplit t.
Proof using Hs Hsize.
  intros Hsp. rewrite bucket_eq. pose proof (Z.mod_pos_bound h s Hs).
  destruct (mod_double h s Hs) as [Hm|Hm]; rewrite ?Hm; zcases; lia.
Qed.

(** Splitting bucket [tsplit t]. *)
Lemma bucket_split h :
  0 <= tsplit t < s ->
  let t' := set_tsplit (tsplit t + 1) t in
  (bucket t h <> tsplit t /\ bucket t' h = bucket t h) \/
  (bucket t h = tsplit t /\
   (bucket t' h = tsplit t \/ bucket t' h = tsplit t + s)).
Proof using Hs Hsize.
  intros Hsp t'. rewrite bucket_eq.
  assert (bucket t' h = if tsplit t + 1 <=? h mod s then h mod s else h mod (2 * s))
    as ->.
  { unfold t', bucket. simpl. rewrite half_size, Hsize.
    by rewrite (Z.mod_mod_divide h (2 * s) s) by (by exists 2). }
  destruct (mod_double h s Hs) as [Hm|Hm]; rewrite ?Hm;
    pose proof (Z.mod_pos_bound h s Hs); zcases; lia.
Qed.

(** Merging the last split bucket back. *)
Lemma bucket_merge h :
  0 < tsplit t <= s ->
  let t' := set_tsplit (tsplit t - 1) t in
  (bucket t h <> tsplit t - 1 + s /\ bucket t' h = bucket t h) \/
  (bucket t h = tsplit t - 1 + s /\ bucket t' h = tsplit t - 1).
Proof using Hs Hsize.
  intros Hsp t'. rewrite bucket_eq.
  assert (bucket t' h = if tsplit t - 1 <=? h mod s then h mod s else h mod (2 * s))
    as ->.
  { unfold t', bucket. simpl. rewrite half_size, Hsize.
    by rewrite (Z.mod_mod_divide h (2 * s) s) by (by exists 2). }
  destruct (mod_double h s Hs) as [Hm|Hm]; rewrite ?Hm;
    pose proof (Z.mod_pos_bound h s Hs); zcases; lia.
Qed.
End Bucket.

(** ** The invariant *)
Section Table.
Context (key : ptr -> option Z).

Record table_wf (t : node_table) : Prop := mk_table_wf {
  tw_size : exists k, 13 <= k /\ tsize t = 2 ^ k;
  tw_split : 0 <= tsplit t <= tsize t / 2;
  tw_len : tsize t <= Z.of_nat (length (array t));
  tw_placed : forall i l p, array t !! i = Some l -> p ∈ l ->
    exists h, key p = Some h /\ bucket t h = Z.of_nat i;
  tw_nodup : NoDup (members t);
}.

Lemma tw_half t : table_wf t -> exists s, 4096 <= s /\ tsize t = 2 * s /\
  tsize t / 2 = s /\ 0 <= tsplit t <= s.
Proof.
  intros [(k & Hk & Hsz) Hsp _ _ _]. exists (2 ^ (k - 1)).
  assert (tsize t = 2 * 2 ^ (k - 1)) as H2.
  { rewrite Hsz, <- Z.pow_succ_r by lia. f_equal. lia. }
  assert (2 ^ 12 <= 2 ^ (k - 1)) as H4 by (apply Z.pow_le_mono_r; lia).
  change (2 ^ 12) with 4096 in H4.
  assert (tsize t / 2 = 2 ^ (k - 1)) as H3.
  { rewrite H2, Z.mul_comm. apply Z.div_mul. lia. }
  split_and!; [lia|done|done|lia|lia].
Qed.

Lemma tw_chain t h : table_wf t -> exists l, chain t (bucket t h) = Some l.
Proof.
  intros Hwf. destruct (tw_half t Hwf) as (s & Hs & H2 & H3 & Hsp).
  pose proof (bucket_range t s ltac:(lia) H2 h Hsp). pose proof (tw_len t Hwf).
  unfold chain. rewrite (proj2 (Z.leb_le 0 _)) by lia.
  apply lookup_lt_is_Some_2. lia.
Qed.

Lemma chain_Some t i l : chain t i = Some l <-> 0 <= i /\ array t !! Z.to_nat i = Some l.
Proof. unfold chain. zcases; split; [by split|by intros [_ ?]|done|lia]. Qed.

(** A node is in the table exactly when it is in the chain its key selects. *)
Lemma tw_member t p h : table_wf t -> key p = Some h ->
  p ∈ members t <-> exists l, chain t (bucket t h) = Some l /\ p ∈ l.
Proof.
  intros Hwf Hk. unfold members. rewrite elem_of_concat. split.
  - intros (i & l & Hi & Hp). destruct (tw_placed t Hwf i l p Hi Hp) as (h' & Hk' & Hb).
    simplify_eq. exists l. split; [|done]. apply chain_Some. rewrite Hb, Nat2Z.id. split; [lia|done].
  - intros (l & Hl & Hp). apply chain_Some in Hl as [_ Hl]. eauto.
Qed.

Lemma set_chain_perm t i l l' :
  chain t i = Some l -> members (set_chain i l' t) ++ l ≡ₚ members t ++ l'.
Proof. intros Hl. apply chain_Some in Hl as [_ Hl]. by apply concat_insert_perm. Qed.

Lemma set_chain_length t i l : length (array (set_chain i l t)) = length (array t).
Proof. apply length_insert. Qed.

(** ** Splitting a bucket *)
Definition at_bucket (t : node_table) (i : Z) (p : ptr) : Prop :=
  bucket t <$> key p = Some i.
#[local] Instance at_bucket_dec t i p : Decision (at_bucket t i p).
Proof. unfold at_bucket. apply _. Defined.

Lemma at_bucket_key t i p h : key p = Some h -> at_bucket t i p <-> bucket t h = i.
Proof. intros Hk. unfold at_bucket. rewrite Hk. simpl. split; [by injection 1|by intros ->]. Qed.

Lemma rehash_loop_spec t hash hash2 nodes l2 :
  hash <> hash2 -> chain t hash2 = Some l2 ->
  (forall p, p ∈ nodes -> at_bucket t hash p \/ at_bucket t hash2 p) ->
  rehash_loop key hash nodes t =
    Ok (filter (at_bucket t hash) nodes,
        set_chain hash2 (rev (filter (at_bucket t hash2) nodes) ++ l2) t).
Proof.
  intros Hne. revert t l2. induction nodes as [|p nodes IH]; intros t l2 Hl2 Hin.
  - simpl. do 2 f_equal. destruct t as [a u z sp]. unfold set_chain, set_array. simpl.
    f_equal. symmetry. apply list_insert_id. by apply chain_Some in Hl2 as [_ ?].
  - assert (Hin' : forall q, q ∈ nodes -> at_bucket t hash q \/ at_bucket t hash2 q)
      by (intros q Hq; apply Hin; by right).
    assert (exists h, key p = Some h) as [h Hk].
    { destruct (key p) as [h|] eqn:Hk; [eauto|].
      destruct (Hin p) as [Hb|Hb]; [left|..]; unfold at_bucket in Hb; by rewrite Hk in Hb. }
    pose proof (at_bucket_key t hash p h Hk) as H1.
    pose proof (at_bucket_key t hash2 p h Hk) as H2.
    rewrite !filter_cons. simpl. rewrite Hk.
    destruct (Z.eqb_spec (bucket t h) hash) as [Hb|Hb]; simpl.
    + rewrite (decide_True (P:=at_bucket t hash p)) by tauto.
      rewrite (decide_False (P:=at_bucket t hash2 p)) by (rewrite H2; congruence).
      by rewrite (IH t l2 Hl2 Hin').
    + rewrite (decide_False (P:=at_bucket t hash p)) by tauto.
      assert (Hb2 : bucket t h = hash2)
        by (destruct (Hin p) as [?|?]; [left|tauto|tauto]).
      rewrite (decide_True (P:=at_bucket t hash2 p)) by tauto. rewrite Hb2, Hl2.
      rewrite (IH (set_chain hash2 (p :: l2) t) (p :: l2)); [|..].
      * do 2 f_equal. unfold set_chain. simpl. rewrite <- app_assoc.
        unfold set_array. simpl. by rewrite list_insert_insert_eq.
      * apply chain_Some in Hl2 as [H0 Hl2]. apply chain_Some. split; [done|].
        simpl. apply list_lookup_insert_eq. by eapply lookup_lt_Some.
      * done.
Qed.

Lemma filter_partition (P Q : ptr -> Prop) `{!forall p, Decision (P p)}
    `{!forall p, Decision (Q p)} (l : list ptr) :
  (forall p, p ∈ l -> (P p /\ ~ Q p) \/ (~ P p /\ Q p)) ->
  l ≡ₚ filter P l ++ filter Q l.
Proof.
  induction l as [|p l IH]; intros Hpq; [done|]. rewrite !filter_cons.
  assert (l ≡ₚ filter P l ++ filter Q l) as Hl by (apply IH; intros q ?; apply Hpq; by right).
  destruct (Hpq p) as [[H1 H2]|[H1 H2]]; [left|..];
    rewrite ?(decide_True (P:=P p)), ?(decide_False (P:=P p)),
      ?(decide_True (P:=Q p)), ?(decide_False (P:=Q p)) by done.
  - simpl. by rewrite <- Hl.
  - by rewrite <- Permutation_middle, <- Hl.
Qed.

Lemma Permutation_cancel_r {A} (l1 l2 l : list A) : l1 ++ l ≡ₚ l2 ++ l -> l1 ≡ₚ l2.
Proof. rewrite !(Permutation_app_comm _ l). apply Permutation_app_inv_l. Qed.

Lemma chain_set_chain t i j l : chain t i = Some l -> 0 <= j -> i <> j ->
  forall l', chain (set_chain j l' t) i = Some l.
Proof.
  intros Hl Hj Hne l'. apply chain_Some in Hl as [Hi Hl]. apply chain_Some.
  split; [done|]. simpl. rewrite list_lookup_insert_ne; [done|]. lia.
Qed.

Lemma chain_lookup_set t i l : chain t i <> None ->
  chain (set_chain i l t) i = Some l.
Proof.
  intros Hi. destruct (chain t i) as [l0|] eqn:Hl; [|done].
  apply chain_Some in Hl as [H0 Hl]. apply chain_Some. split; [done|].
  apply list_lookup_insert_eq. by eapply lookup_lt_Some.
Qed.

Lemma placed_chain t i l p : table_wf t -> chain t i = Some l -> p ∈ l ->
  at_bucket t i p.
Proof.
  intros Hwf Hl Hp. apply chain_Some in Hl as [Hi Hl].
  destruct (tw_placed t Hwf _ _ _ Hl Hp) as (h & Hk & Hb).
  unfold at_bucket. rewrite Hk. simpl. f_equal. lia.
Qed.

(** Two chains rewritten in a table of the same size: what has to be checked. *)
Lemma table_wf_two t t1 i j li lj li' lj' :
  table_wf t -> tsize t1 = tsize t -> array t1 = array t ->
  0 <= tsplit t1 <= tsize t1 / 2 -> i <> j ->
  chain t i = Some li -> chain t j = Some lj ->
  li' ++ lj' ≡ₚ li ++ lj ->
  (forall p, p ∈ li' -> at_bucket t1 i p) -> (forall p, p ∈ lj' -> at_bucket t1 j p) ->
  (forall p h, key p = Some h -> bucket t h <> i -> bucket t h <> j ->
     bucket t1 h = bucket t h) ->
  let t' := set_chain i li' (set_chain j lj' t1) in
  table_wf t' /\ members t' ≡ₚ members t.
Proof.
  intros Hwf Hsz Harr Hsp Hne Hi Hj Hperm Hpi Hpj Hrest t'.
  assert (Hi1 : chain t1 i = Some li) by (unfold chain; by rewrite Harr).
  assert (Hj1 : chain t1 j = Some lj) by (unfold chain; by rewrite Harr).
  pose proof (proj1 (chain_Some _ _ _) Hi1) as [Hi0 Hi2].
  pose proof (proj1 (chain_Some _ _ _) Hj1) as [Hj0 Hj2].
  assert (Hm : members t' ≡ₚ members t).
  { pose proof (set_chain_perm t1 j lj lj' Hj1) as Ha.
    pose proof (set_chain_perm (set_chain j lj' t1) i li li'
      (chain_set_chain t1 i j li Hi1 Hj0 Hne lj')) as Hb.
    apply (Permutation_cancel_r _ _ (li ++ lj)). rewrite app_assoc. unfold t'.
    rewrite Hb, <- app_assoc, (Permutation_app_comm li' lj), app_assoc, Ha.
    assert (members t1 = members t) as -> by (unfold members; by rewrite Harr).
    rewrite <- app_assoc. by rewrite (Permutation_app_comm lj' li'), Hperm. }
  split; [|done]. constructor.
  - destruct (tw_size t Hwf) as (k & ? & ?). exists k. simpl. by rewrite Hsz.
  - done.
  - simpl. rewrite !length_insert, Hsz, Harr. apply (tw_len t Hwf).
  - intros n l p Hn Hp. simpl in Hn.
    assert (Hconv : forall q m, at_bucket t1 m q ->
      exists h, key q = Some h /\ bucket t' h = m).
    { intros q m Hq. unfold at_bucket in Hq. destruct (key q) as [h|]; [|done].
      exists h. split; [done|]. by injection Hq. }
    destruct (decide (n = Z.to_nat i)) as [->|Hni].
    { rewrite list_lookup_insert_eq in Hn
        by (rewrite length_insert; by eapply lookup_lt_Some).
      simplify_eq. rewrite Z2Nat.id by done. auto. }
    rewrite list_lookup_insert_ne in Hn by done.
    destruct (decide (n = Z.to_nat j)) as [->|Hnj].
    { rewrite list_lookup_insert_eq in Hn by (by eapply lookup_lt_Some).
      simplify_eq. rewrite Z2Nat.id by done. auto. }
    rewrite list_lookup_insert_ne, Harr in Hn by done.
    destruct (tw_placed t Hwf _ _ _ Hn Hp) as (h & Hk & Hb). exists h.
    split; [done|]. rewrite <- Hb. apply (Hrest p h Hk); lia.
  - rewrite Hm. apply (tw_nodup t Hwf).
Qed.

(** [rehash] before the array is doubled. *)
Lemma table_split_wf t :
  table_wf t -> tsplit t <> tsize t / 2 ->
  let t1 := set_tsplit (tsplit t + 1) t in
  exists nodes stay t2, chain t1 (tsplit t) = Some nodes /\
    rehash_loop key (tsplit t) nodes t1 = Ok (stay, t2) /\
    table_wf (set_chain (tsplit t) stay t2) /\
    members (set_chain (tsplit t) stay t2) ≡ₚ members t /\
    tsplit (set_chain (tsplit t) stay t2) = tsplit t + 1 /\
    tsize (set_chain (tsplit t) stay t2) = tsize t /\
    tuse (set_chain (tsplit t) stay t2) = tuse t.
Proof.
  intros Hwf Hne t1. destruct (tw_half t Hwf) as (s & Hs & H2 & H3 & Hsp).
  pose proof (tw_len t Hwf) as Hlen.
  assert (Hc : forall i, 0 <= i < 2 * s -> exists l, chain t i = Some l).
  { intros i Hi. unfold chain. rewrite (proj2 (Z.leb_le 0 i)) by lia.
    apply lookup_lt_is_Some_2. lia. }
  destruct (Hc (tsplit t)) as [nodes Hn]; [lia|].
  destruct (Hc (tsplit t + s)) as [l2 Hl2]; [lia|].
  assert (Hl2nil : l2 = []).
  { destruct l2 as [|p l2]; [done|]. exfalso.
    assert (at_bucket t (tsplit t + s) p) as Hp
      by (eapply placed_chain; [done..|by left]).
    unfold at_bucket in Hp. destruct (key p) as [h|]; [|done]. simpl in Hp.
    pose proof (bucket_range t s ltac:(lia) H2 h Hsp). simplify_eq. lia. }
  assert (Hat : forall p, p ∈ nodes ->
    (at_bucket t1 (tsplit t) p /\ ~ at_bucket t1 (tsplit t + s) p) \/
    (~ at_bucket t1 (tsplit t) p /\ at_bucket t1 (tsplit t + s) p)).
  { intros p Hp. pose proof (placed_chain t _ _ p Hwf Hn Hp) as Hb.
    unfold at_bucket in *. destruct (key p) as [h|]; [|done]. simpl in *.
    injection Hb as Hb.
    destruct (bucket_split t s ltac:(lia) H2 h ltac:(lia)) as [[? ?]|[_ [Hx|Hx]]];
      [lia|left|right]; fold t1 in Hx; rewrite Hx; split; try done; injection 1; lia. }
  exists nodes. do 2 eexists. split; [exact Hn|]. split.
  { apply (rehash_loop_spec t1 (tsplit t) (tsplit t + s) nodes l2); [lia|exact Hl2|].
    intros p Hp. destruct (Hat p Hp); tauto. }
  destruct (table_wf_two t t1 (tsplit t) (tsplit t + s) nodes l2
    (filter (at_bucket t1 (tsplit t)) nodes)
    (rev (filter (at_bucket t1 (tsplit t + s)) nodes) ++ l2)) as [Hw Hm];
    [done|done|done|unfold t1; simpl; lia|lia|done|done|..].
  - subst l2. rewrite !app_nil_r. rewrite <- Permutation_rev.
    symmetry. by apply filter_partition.
  - intros p Hp. by apply list_elem_of_filter in Hp as [? _].
  - intros p Hp. subst l2. rewrite app_nil_r in Hp.
    rewrite <- Permutation_rev in Hp. by apply list_elem_of_filter in Hp as [? _].
  - intros p h Hk Hb _.
    destruct (bucket_split t s ltac:(lia) H2 h ltac:(lia)) as [[_ ?]|[? _]]; [done|lia].
  - split_and!; done.
Qed.

(** Doubling the array once every bucket has been split. *)
Lemma table_resize_wf t ok : table_wf t -> tsplit t = tsize t / 2 ->
  table_wf (node_table_resize ok t).2 /\
  members (node_table_resize ok t).2 ≡ₚ members t.
Proof.
  intros Hwf Hfull. unfold node_table_resize. destruct ok; simpl; [|done].
  destruct (tw_half t Hwf) as (s & Hs & H2 & H3 & Hsp).
  set (t' := mk_table _ _ _ _). pose proof (tw_len t Hwf) as Hlen.
  assert (Hdrop : drop (Z.to_nat (tsize t)) (array t) = [] \/
    Forall (fun l => l = []) (drop (Z.to_nat (tsize t)) (array t))).
  { right. apply Forall_lookup. intros i l Hi. rewrite lookup_drop in Hi.
    destruct l as [|p l]; [done|exfalso].
    destruct (tw_placed t Hwf _ _ p Hi) as (h & _ & Hb); [by left|].
    pose proof (bucket_range t s ltac:(lia) H2 h Hsp). lia. }
  assert (Hm : members t' = members t).
  { unfold members, t'. simpl.
    rewrite <- (take_drop (Z.to_nat (tsize t)) (array t)) at 2. rewrite !concat_app. f_equal.
    rewrite concat_nil_forall; [|by apply Forall_replicate].
    destruct Hdrop as [->|Hd]; [done|]. by rewrite concat_nil_forall. }
  split; [|by rewrite Hm]. constructor; simpl.
  - destruct (tw_size t Hwf) as (k & Hk & Hsz). exists (k + 1). split; [lia|].
    rewrite Hsz, Z.pow_add_r by lia. lia.
  - split; [done|]. apply Z.div_pos; lia.
  - rewrite length_app, length_take, length_replicate. lia.
  - intros i l p Hi Hp. apply lookup_app_Some in Hi as [Hi|[_ Hi]].
    + apply lookup_take_Some in Hi as [Hi _].
      destruct (tw_placed t Hwf _ _ _ Hi Hp) as (h & Hk & Hb). exists h. split; [done|].
      rewrite <- Hb. rewrite (bucket_eq t s) by lia.
      unfold bucket. simpl. rewrite Z.div_mul by lia. rewrite H2.
      rewrite (Z.mod_mod_divide h (2 * s * 2) (2 * s)) by (exists 2; lia).
      pose proof (Z.mod_pos_bound h s). pose proof (Z.mod_pos_bound h (2 * s)).
      rewrite Hfull, H3. zcases; lia.
    + apply lookup_replicate in Hi as [-> _]. by apply not_elem_of_nil in Hp.
  - change (NoDup (members t')). rewrite Hm. apply (tw_nodup t Hwf).
Qed.

(** Halving it once every bucket has been merged. *)
Lemma table_reduce_wf t ok : table_wf t -> tsplit t = 0 ->
  table_wf (node_table_reduce ok t) /\ members (node_table_reduce ok t) ≡ₚ members t.
Proof.
  intros Hwf H0. unfold node_table_reduce.
  destruct (tw_half t Hwf) as (s & Hs & H2 & H3 & Hsp). rewrite H3. case (Z.ltb_spec s NODE_TABLE_MIN_SIZE); [done|].
  unfold NODE_TABLE_MIN_SIZE. intros Hmin. set (t' := mk_table _ _ _ _).
  pose proof (tw_len t Hwf) as Hlen.
  assert (Hdrop : Forall (fun l => l = []) (drop (Z.to_nat s) (array t))).
  { apply Forall_lookup. intros i l Hi. rewrite lookup_drop in Hi.
    destruct l as [|p l]; [done|exfalso].
    destruct (tw_placed t Hwf _ _ p Hi) as (h & _ & Hb); [by left|].
    pose proof (bucket_range t s ltac:(lia) H2 h Hsp). lia. }
  assert (Hm : members t' = members t).
  { unfold members, t'. simpl. destruct ok; [|done].
    rewrite <- (take_drop (Z.to_nat s) (array t)) at 2. rewrite concat_app.
    by rewrite (concat_nil_forall (drop _ _)), app_nil_r. }
  destruct (tw_size t Hwf) as (k & Hk & Hsz).
  assert (Hk1 : 13 <= k - 1 /\ s = 2 ^ (k - 1)).
  { assert (s = 2 ^ (k - 1)) as Hsk.
    { apply (Z.mul_reg_l _ _ 2); [lia|]. rewrite <- H2, Hsz, <- Z.pow_succ_r by lia.
      f_equal. lia. }
    split; [|done]. destruct (Z_lt_le_dec (k - 1) 13); [|done].
    assert (2 ^ (k - 1) < 2 ^ 13) by (apply Z.pow_lt_mono_r; lia). lia. }
  destruct Hk1 as [Hk1 Hsk].
  assert (Hs2 : s / 2 * 2 = s).
  { rewrite Hsk. replace (k - 1) with ((k - 2) + 1) by lia.
    rewrite Z.pow_add_r, Z.div_mul by lia. done. }
  split; [|by rewrite Hm]. constructor; simpl.
  - by exists (k - 1).
  - split; [|done]. apply Z.div_pos; lia.
  - destruct ok; [rewrite length_take|]; lia.
  - intros i l p Hi Hp. assert (array t !! i = Some l) as Hi'.
    { destruct ok; [|done]. by apply lookup_take_Some in Hi as [? _]. }
    destruct (tw_placed t Hwf _ _ _ Hi' Hp) as (h & Hk2 & Hb). exists h. split; [done|].
    rewrite <- Hb, (bucket_eq t s), H0 by lia. unfold bucket. simpl.
    rewrite (Z.mod_mod_divide h s (s / 2)) by (exists 2; lia).
    pose proof (Z.mod_pos_bound h s). pose proof (Z.mod_pos_bound h (s / 2)).
    destruct (mod_double h (s / 2)) as [Hd|Hd]; [lia|..];
      replace (2 * (s / 2)) with s in Hd by lia; rewrite Hd; zcases; lia.
  - change (NoDup (members t')). rewrite Hm. apply (tw_nodup t Hwf).
Qed.

Lemma table_resize_use t ok : tuse (node_table_resize ok t).2 = tuse t.
Proof. by destruct ok. Qed.

Lemma table_reduce_use t ok : tuse (node_table_reduce ok t) = tuse t.
Proof. unfold node_table_reduce. by destruct (_ <? _). Qed.

(** Merging back the last bucket that was split. *)
Lemma table_merge_wf t : table_wf t -> 0 < tsplit t ->
  let t1 := set_tsplit (tsplit t - 1) t in
  let j := tsplit t1 + tsize t1 / 2 in
  exists upper lower, chain t1 j = Some upper /\ chain t1 (tsplit t1) = Some lower /\
    let t' := set_chain j [] (set_chain (tsplit t1) (lower ++ upper) t1) in
    table_wf t' /\ members t' ≡ₚ members t.
Proof.
  intros Hwf Hpos t1 j. destruct (tw_half t Hwf) as (s & Hs & H2 & H3 & Hsp).
  assert (Hj : j = tsplit t - 1 + s) by (unfold j, t1; simpl; lia).
  pose proof (tw_len t Hwf) as Hlen.
  assert (Hc : forall i, 0 <= i < 2 * s -> exists l, chain t i = Some l).
  { intros i Hi. unfold chain. rewrite (proj2 (Z.leb_le 0 i)) by lia.
    apply lookup_lt_is_Some_2. lia. }
  destruct (Hc (tsplit t - 1)) as [lower Hl]; [lia|].
  destruct (Hc j) as [upper Hu]; [lia|].
  exists upper, lower. split; [exact Hu|]. split; [exact Hl|].
  assert (Hat : forall i p, at_bucket t i p -> i = tsplit t - 1 \/ i = j ->
    at_bucket t1 (tsplit t - 1) p).
  { intros i p Hp Hi. unfold at_bucket in *. destruct (key p) as [h|]; [|done]. simpl in *.
    injection Hp as Hp. f_equal. unfold t1.
    destruct (bucket_merge t s ltac:(lia) H2 h ltac:(lia)) as [[? ->]|[_ ->]]; lia. }
  apply (table_wf_two t t1 j (tsplit t - 1) upper lower [] (lower ++ upper));
    [done|done|done|unfold t1; simpl; lia|lia|done|done| |..].
  - apply (Permutation_app_comm lower upper).
  - intros p Hp. by apply not_elem_of_nil in Hp.
  - intros p [Hp|Hp]%elem_of_app.
    + apply (Hat (tsplit t - 1)); [by apply (placed_chain t _ lower)|by left].
    + apply (Hat j); [by apply (placed_chain t _ upper)|by right].
  - intros p h Hk Hb1 Hb2. unfold t1.
    destruct (bucket_merge t s ltac:(lia) H2 h ltac:(lia)) as [[_ ?]|[? _]]; [done|lia].
Qed.

Lemma set_chain_id t i l : chain t i = Some l -> set_chain i l t = t.
Proof.
  intros [_ Hl]%chain_Some. destruct t as [a u z sp]. unfold set_chain, set_array. simpl in *.
  by rewrite list_insert_id.
Qed.

Lemma remerge_loop_wf iter t : table_wf t ->
  exists t', remerge_loop iter t = Ok t' /\ table_wf t' /\ members t' ≡ₚ members t /\
    tuse t' = tuse t.
Proof.
  revert t. induction iter as [|iter IH]; intros t Hwf; [by exists t|]. simpl.
  destruct (Z.ltb_spec 0 (tsplit t)) as [Hpos|]; simpl; [|by exists t].
  destruct (table_merge_wf t Hwf Hpos) as (upper & lower & Hu & Hl & Hw & Hm).
  simpl in Hu, Hl. rewrite Hu, Hl. destruct upper as [|p upper].
  - simpl in *. rewrite app_nil_r, (set_chain_id _ _ _ Hl), (set_chain_id _ _ _ Hu) in Hw, Hm.
    destruct (IH _ Hw) as (t' & Ht' & Hw' & Hm' & Hu'). exists t'. rewrite Hm', Hm. done.
  - eexists. split; [reflexivity|]. split_and!; [exact Hw|exact Hm|reflexivity].
Qed.

End Table.

(** ** The tables inside the state *)
Class TableLaws (ops : table_ops) : Prop := {
  tget_tset t f : tget ops (tset ops t f) = t;
  tset_tset t t' f : tset ops t (tset ops t' f) = tset ops t f;
  tset_tget f : tset ops (tget ops f) f = f;
  tget_allocs a f : tget ops (set_allocs a f) = tget ops f;
  tset_allocs t a f : tset ops t (set_allocs a f) = set_allocs a (tset ops t f);
  tkey_tset t f : tkey ops (tset ops t f) = tkey ops f;
  tkey_allocs a f : tkey ops (set_allocs a f) = tkey ops f;
}.

#[export] Instance id_ops_laws : TableLaws id_ops.
Proof. split; intros; done || by destruct f. Qed.
#[export] Instance name_ops_laws : TableLaws name_ops.
Proof. split; intros; done || by destruct f. Qed.

Lemma set_allocs_id f : set_allocs (allocs f) f = f.
Proof. by destruct f. Qed.

(** [f'] is [f] with another table, which holds the nodes [ms] and counts [u]. *)
Definition table_to (ops : table_ops) (f : fuse) (ms : list ptr) (u : Z) (f' : fuse) :
    Prop :=
  exists t a, f' = set_allocs a (tset ops t f) /\ table_wf (tkey ops f) t /\
    members t ≡ₚ ms /\ tuse t = u.

#[local] Arguments remerge_loop : simpl never.
#[local] Arguments rehash_loop : simpl never.

Section Ops.
Context (ops : table_ops) `{!TableLaws ops}.

Lemma malloc_runs f : runs malloc f (fun _ f' => exists a, f' = set_allocs a f).
Proof.
  unfold malloc. mstep. destruct (allocs f) as [|b bs] eqn:Ha.
  - apply runs_ret. exists []. by rewrite <- Ha, set_allocs_id.
  - mstep. apply runs_ret. by eexists.
Qed.

Lemma table_to_trans f ms u f1 ms' u' f2 :
  table_to ops f ms u f1 -> table_to ops f1 ms' u' f2 -> table_to ops f ms' u' f2.
Proof.
  intros (t1 & a1 & -> & _ & _ & _) (t2 & a2 & -> & Hw & Hm & Hu).
  exists t2, a2. rewrite tset_allocs, tset_tset. split; [done|].
  by rewrite tkey_allocs, tkey_tset in Hw.
Qed.

Lemma table_to_mem f ms u f' : table_to ops f ms u f' ->
  table_wf (tkey ops f') (tget ops f') /\ members (tget ops f') ≡ₚ ms /\
  tuse (tget ops f') = u /\ heap f' = heap (tset ops (tget ops f') f) /\
  tkey ops f' = tkey ops f.
Proof.
  intros (t & a & -> & Hw & Hm & Hu).
  rewrite tkey_allocs, tkey_tset, tget_allocs, tget_tset. done.
Qed.

Lemma table_to_put f t ms u :
  table_wf (tkey ops f) t -> members t ≡ₚ ms -> tuse t = u ->
  table_to ops f ms u (tset ops t f).
Proof.
  intros Hw Hm Hu. exists t, (allocs f). split_and!; [|done..].
  by rewrite <- tset_allocs, set_allocs_id.
Qed.

Lemma table_to_refl f : table_wf (tkey ops f) (tget ops f) ->
  table_to ops f (members (tget ops f)) (tuse (tget ops f)) f.
Proof.
  intros Hw. exists (tget ops f), (allocs f).
  by rewrite tset_tget, set_allocs_id.
Qed.

(** Changing the table once more, after an allocation. *)
Lemma table_to_malloc f (g : bool -> fuse -> node_table) ms u :
  (forall ok a, table_wf (tkey ops f) (g ok (set_allocs a f)) /\
     members (g ok (set_allocs a f)) ≡ₚ ms /\ tuse (g ok (set_allocs a f)) = u) ->
  runs (ok ← malloc; modifyM (fun f => tset ops (g ok f) f)) f
    (fun _ f' => table_to ops f ms u f').
Proof.
  intros Hg. eapply runs_bind; [apply malloc_runs|]. simpl. intros ok f' (a & ->).
  destruct (Hg ok a) as (Hw & Hm & Hu). eexists _, _. split; [done|].
  exists (g ok (set_allocs a f)), a. by rewrite tset_allocs.
Qed.

Lemma rehash_runs f : table_wf (tkey ops f) (tget ops f) ->
  runs (rehash ops) f
    (fun _ f' => table_to ops f (members (tget ops f)) (tuse (tget ops f)) f').
Proof.
  intros Hwf. unfold rehash. mstep.
  destruct (Z.eqb_spec (tsplit (tget ops f)) (tsize (tget ops f) / 2)) as [He|Hne].
  { apply runs_ret. by apply table_to_refl. }
  destruct (table_split_wf _ _ Hwf Hne) as (nodes & stay & t2 & Hn & Hr & Hw & Hm & Hsp & Hsz & Hu).
  rewrite Hn. mstep. rewrite Hr. set (t3 := set_chain _ stay t2) in *.
  mstep. pose proof (table_to_put f t3 _ _ Hw Hm Hu) as Hput.
  change (tsplit t2) with (tsplit t3). change (tsize t2) with (tsize t3).
  destruct (Z.eqb_spec (tsplit t3) (tsize t3 / 2)) as [Hf|Hf]; [|by apply runs_ret].
  eapply runs_mono; [apply (table_to_malloc (tset ops t3 f)
    (fun ok _ => (node_table_resize ok t3).2) (members (tget ops f)) (tuse (tget ops f)))|].
  - intros ok a. rewrite tkey_tset.
    destruct (table_resize_wf _ t3 ok Hw Hf) as [Hw' Hm'].
    rewrite Hm', Hm, table_resize_use. done.
  - intros [] f' Hto. by eapply table_to_trans.
Qed.

Lemma remerge_runs f : table_wf (tkey ops f) (tget ops f) ->
  runs (remerge ops) f
    (fun _ f' => table_to ops f (members (tget ops f)) (tuse (tget ops f)) f').
Proof.
  intros Hwf. unfold remerge. mstep.
  eapply runs_bind with (P := fun _ f' =>
    table_to ops f (members (tget ops f)) (tuse (tget ops f)) f').
  { destruct (Z.eqb_spec (tsplit (tget ops f)) 0) as [H0|]; simpl;
      [|apply runs_ret; by apply table_to_refl].
    destruct (_ <? _); simpl; [apply runs_ret; by apply table_to_refl|].
    apply table_to_malloc. intros ok a. rewrite tget_allocs.
    destruct (table_reduce_wf _ _ ok Hwf H0) as [Hw Hm]. by rewrite table_reduce_use. }
  simpl. intros _ f1 Hto. mstep.
  pose proof Hto as (Hw1 & Hm1 & Hu1 & _)%table_to_mem.
  destruct (remerge_loop_wf _ 8 _ Hw1) as (t' & -> & Hw & Hm & Hu).
  eexists _, _. split; [done|]. eapply table_to_trans; [done|].
  apply table_to_put; [done|by rewrite Hm|by rewrite Hu].
Qed.

(** Counting a node in or out. *)
Lemma set_tuse_wf key t u : table_wf key t -> table_wf key (set_tuse u t).
Proof. by intros [? ? ? ? ?]. Qed.

Lemma set_chain_wf key t i l l' : table_wf key t -> chain t i = Some l ->
  (forall p, p ∈ l' -> exists h, key p = Some h /\ bucket t h = i) ->
  NoDup (members (set_chain i l' t)) -> table_wf key (set_chain i l' t).
Proof.
  intros Hwf Hl Hp Hnd. destruct Hwf as [? ? ? Hpl ?]. constructor; simpl; try done.
  - by rewrite length_insert.
  - intros j l2 p Hj Hin. apply chain_Some in Hl as [Hi Hl].
    destruct (decide (j = Z.to_nat i)) as [->|Hne].
    + rewrite list_lookup_insert_eq in Hj by (by eapply lookup_lt_Some). simplify_eq.
      destruct (Hp p Hin) as (h & ? & Hb). exists h. split; [done|].
      change (bucket _ h) with (bucket t h). lia.
    + rewrite list_lookup_insert_ne in Hj by done. by apply (Hpl j l2).
Qed.

Lemma table_add_runs f h p : table_wf (tkey ops f) (tget ops f) ->
  tkey ops f p = Some h -> p ∉ members (tget ops f) ->
  runs (table_add ops (bucket (tget ops f) h) p) f
    (fun _ f' => table_to ops f (p :: members (tget ops f)) (tuse (tget ops f) + 1) f').
Proof.
  intros Hwf Hk Hp. set (t := tget ops f) in *.
  destruct (tw_chain _ _ h Hwf) as [l Hl]. unfold table_add, get_chain. msteps.
  unfold put_chain, get_chain. msteps.
  rewrite ?tset_tset, !tget_tset.
  set (t1 := set_tuse _ _).
  assert (Hm : members t1 ≡ₚ p :: members t).
  { pose proof (set_chain_perm t (bucket t h) l (p :: l) Hl) as Hm.
    apply (Permutation_cancel_r _ _ l). change (members t1) with (members (set_chain (bucket t h) (p :: l) t)).
    rewrite Hm. by rewrite <- Permutation_middle. }
  assert (Hw : table_wf (tkey ops f) t1).
  { apply set_tuse_wf. apply (set_chain_wf _ t _ l); try done.
    - intros q [->|Hq]%elem_of_cons; [by exists h|].
      pose proof (placed_chain _ t _ l q Hwf Hl Hq) as Hb. unfold at_bucket in Hb.
      destruct (tkey ops f q) as [h'|]; [|done]. exists h'. split; [done|]. by injection Hb.
    - change (NoDup (members t1)). rewrite Hm. apply NoDup_cons. split; [done|]. apply (tw_nodup _ _ Hwf). }
  pose proof (table_to_put f t1 _ (tuse t + 1) Hw Hm eq_refl) as Hput.
  destruct (_ <=? _); [|by apply runs_ret].
  eapply runs_mono; [apply rehash_runs; by rewrite tkey_tset, tget_tset|].
  simpl. intros _ f' Hto. rewrite tget_tset in Hto.
  destruct Hto as (t2 & a & -> & Hw2 & Hm2 & Hu2). exists t2, a.
  rewrite tset_tset. rewrite tkey_tset in Hw2. rewrite Hm2. by split_and!.
Qed.

Lemma table_drop_runs f : table_wf (tkey ops f) (tget ops f) ->
  runs (table_drop ops) f
    (fun _ f' => table_to ops f (members (tget ops f)) (tuse (tget ops f) - 1) f').
Proof.
  intros Hwf. unfold table_drop. msteps. rewrite tget_tset. set (t := tget ops f) in *.
  set (t1 := set_tuse _ _).
  assert (Hw : table_wf (tkey ops f) t1) by (by apply set_tuse_wf).
  pose proof (table_to_put f t1 (members t) (tuse t - 1) Hw (Permutation_refl _) eq_refl) as Hput.
  destruct (_ <? _); [|by apply runs_ret].
  eapply runs_mono; [apply remerge_runs; by rewrite tkey_tset, tget_tset|].
  simpl. intros _ f' Hto. rewrite tget_tset in Hto. by eapply table_to_trans.
Qed.

End Ops.

(** ** Steps on nodes *)
Lemma runs_load_bind {B} f p n (k : node -> F B) Q : heap f !! p = Some n ->
  runs (k n) f Q -> runs (load p ≫= k) f Q.
Proof. intros Hp. unfold load, runs, mbind, M_bind, getM. simpl. by rewrite Hp. Qed.

Lemma runs_update_bind {B} f p n g (k : unit -> F B) Q : heap f !! p = Some n ->
  runs (k tt) (set_heap (<[p := g n]> (heap f)) f) Q -> runs (update p g ≫= k) f Q.
Proof.
  intros Hp. unfold update, store, load, runs, mbind, M_bind, getM. simpl. by rewrite Hp.
Qed.

Lemma update_eq f p n g : heap f !! p = Some n ->
  update p g f = Ok (tt, set_heap (<[p := g n]> (heap f)) f).
Proof. intros Hp. unfold update, store, load, mbind, M_bind, getM. simpl. by rewrite Hp. Qed.

Ltac nstep :=
  match goal with
  | |- runs (load _ ≫= _) _ _ => eapply runs_load_bind; [eassumption|]; cbv beta
  | |- runs (update _ _ ≫= _) _ _ => eapply runs_update_bind; [eassumption|]; cbv beta
  | _ => mstep
  end.
Ltac nsteps := repeat nstep.
