(* ===== verification/GraphFacts.v ===== *)
(** * The graph of nodes

    The invariant that ties the two hash tables, the reference counts, the lookup
    counts and the slab allocator together, and the proofs that allocation, lookup,
    hashing and the release of references keep it. *)
From S2P Require Import Prelude Slab PosixLock Types NodeTable TableFacts.
#[local] Open Scope Z_scope.

(** ** Chains *)
Lemma table_wf_ext key key' t : (forall p, p ∈ members t -> key' p = key p) ->
  table_wf key t -> table_wf key' t.
Proof.
  intros He [? ? ? Hp ?]. split; try done. intros i l p Hi Hin.
  rewrite He; [by apply (Hp i l)|]. apply elem_of_concat. eauto.
Qed.

Lemma unlink_Some p l : NoDup l -> p ∈ l ->
  exists l', unlink p l = Some l' /\ l ≡ₚ p :: l'.
Proof.
  induction l as [|q l IH]; intros Hnd Hp; [by apply not_elem_of_nil in Hp|]. simpl.
  apply NoDup_cons in Hnd as [_ Hnd]. destruct (Z.eqb_spec q p) as [->|Hne]; [eauto|].
  apply elem_of_cons in Hp as [->|Hp]; [done|].
  destruct (IH Hnd Hp) as (l' & -> & Hl). exists (q :: l'). split; [done|].
  rewrite Hl. constructor.
Qed.

Lemma unlink_None p l : p ∉ l -> unlink p l = None.
Proof.
  induction l as [|q l IH]; [done|]. rewrite not_elem_of_cons. intros [Hne Hp]. simpl.
  destruct (Z.eqb_spec q p); [congruence|]. by rewrite IH.
Qed.

(** A node that is in the table is found in its chain; without it the table is
    well formed. *)
Lemma table_unlink key t p h : table_wf key t -> key p = Some h -> p ∈ members t ->
  exists l l', chain t (bucket t h) = Some l /\ unlink p l = Some l' /\
    let t' := set_chain (bucket t h) l' t in
    table_wf key t' /\ members t ≡ₚ p :: members t'.
Proof.
  intros Hwf Hk Hp. apply (tw_member key t p h Hwf Hk) in Hp as (l & Hl & Hp).
  assert (Hsub : NoDup l).
  { pose proof (set_chain_perm t (bucket t h) l [] Hl) as Hm. rewrite app_nil_r in Hm.
    pose proof (tw_nodup key t Hwf) as Hnd. rewrite <- Hm in Hnd. by apply NoDup_app in Hnd as (_ & _ & ?). }
  destruct (unlink_Some p l Hsub Hp) as (l' & Hu & Hperm). exists l, l'.
  split_and!; try done.
  assert (Hm : members t ≡ₚ p :: members (set_chain (bucket t h) l' t)).
  { pose proof (set_chain_perm t (bucket t h) l l' Hl) as Hm.
    apply (Permutation_cancel_r _ _ l'). rewrite <- Hm, Hperm. simpl.
    by rewrite <- Permutation_middle. }
  split; [|done]. apply (set_chain_wf key t _ l); try done.
  - intros q Hq. assert (q ∈ l) as Hql by (rewrite Hperm; by right).
    pose proof (placed_chain key t _ l q Hwf Hl Hql) as Hb. unfold at_bucket in Hb.
    destruct (key q) as [h'|]; [|done]. exists h'. split; [done|]. by injection Hb.
  - pose proof (tw_nodup key t Hwf) as Hnd. rewrite Hm in Hnd. by apply NoDup_cons in Hnd as [_ ?].
Qed.

Lemma table_absent key t p h : table_wf key t -> key p = Some h -> p ∉ members t ->
  exists l, chain t (bucket t h) = Some l /\ unlink p l = None.
Proof.
  intros Hwf Hk Hp. destruct (tw_chain key t h Hwf) as [l Hl]. exists l. split; [done|].
  apply unlink_None. intros Hin. apply Hp. apply (tw_member key t p h Hwf Hk). eauto.
Qed.

(** ** The graph *)
Definition ids (f : fuse) : list ptr := members (id_table f).
Definition names (f : fuse) : list ptr := members (name_table f).

(** [q] is linked below [p]. *)
Definition child_of (f : fuse) (p q : ptr) : Prop := parent <$> heap f !! q = Some p.
#[global] Instance child_of_dec f p q : Decision (child_of f p q).
Proof. unfold child_of. apply _. Defined.

Definition children (f : fuse) (p : ptr) : Z :=
  Z.of_nat (length (filter (child_of f p) (names f))).

(** The references a node must count: one for a lookup count that is not zero, one
    for each child, and those [extra] accounts for. *)
Definition refs (extra : ptr -> Z) (f : fuse) (p : ptr) (n : node) : Z :=
  extra p + Z.b2z (0 <? nlookup n) + children f p.

Definition is_root (n : node) : Prop := nodeid n = FUSE_ROOT_ID.

(** A node as [fuse_new] and [find_node] make it. *)
Record node_ok (f : fuse) (p : ptr) (n : node) : Prop := mk_node_ok {
  no_id : 0 < nodeid n < FUSE_UNKNOWN_INO;
  no_nlookup : 0 <= nlookup n;
  no_lock : treelock n <> 0 -> 0 < nlookup n;
  no_linked : name n <> None -> 0 < refctr n -> p ∈ names f \/ 0 < nlookup n;
  no_root : is_root n -> 0 < nlookup n /\ p ∉ names f;
}.

Record graph_wf (extra : ptr -> Z) (f : fuse) : Prop := mk_graph_wf {
  gw_id : table_wf (tkey id_ops f) (id_table f);
  gw_ids : forall p, p ∈ ids f <-> is_Some (heap f !! p);
  gw_iduse : tuse (id_table f) = Z.of_nat (length (ids f));
  gw_name : table_wf (tkey name_ops f) (name_table f);
  gw_inj : forall p q n m, heap f !! p = Some n -> heap f !! q = Some m ->
    nodeid n = nodeid m -> p = q;
  gw_nameinj : forall p q n m, p ∈ names f -> q ∈ names f ->
    heap f !! p = Some n -> heap f !! q = Some m ->
    parent n = parent m -> name n = name m -> p = q;
  gw_extra : forall p, 0 <= extra p;
  gw_refs : forall p n, heap f !! p = Some n -> refctr n = refs extra f p n;
  gw_nodes : forall p n, heap f !! p = Some n -> node_ok f p n;
  gw_rooted : exists p n, heap f !! p = Some n /\ is_root n;
  gw_slabs : Slab.wf (remember (conf f)) (slabs f) (dom (heap f));
  gw_ctr : 0 <= ctr f <= FUSE_UNKNOWN_INO;
}.

(** What the counter of the name table is ahead of the number of nodes in it, while
    nodes are being taken out. *)
Definition slack (f : fuse) : Z := tuse (name_table f) - Z.of_nat (length (names f)).

(** A state between two operations: no reference is pending, no node waits for its
    deletion, and exactly the root and the nodes without a name are not linked. *)
Record fuse_wf (f : fuse) : Prop := mk_fuse_wf {
  fw_graph : graph_wf (fun _ => 0) f;
  fw_slack : slack f = 0;
  fw_pos : forall p n, heap f !! p = Some n -> 0 < refctr n;
  fw_linked : forall p n, heap f !! p = Some n -> name n <> None ->
    p ∈ names f \/ is_root n;
}.

(** ** Keys *)
Lemma id_key f p n : heap f !! p = Some n ->
  tkey id_ops f p = Some (id_hash_full (nodeid n)).
Proof. intros Hp. simpl. by rewrite Hp. Qed.

Lemma name_key f p n pn s : heap f !! p = Some n -> heap f !! parent n = Some pn ->
  name n = Some s -> tkey name_ops f p = Some (name_hash_full (nodeid pn) s).
Proof. intros Hp Hpn Hs. simpl. by rewrite Hp; simpl; rewrite Hpn; simpl; rewrite Hs. Qed.

Lemma name_key_inv f p h : tkey name_ops f p = Some h ->
  exists n pn s, heap f !! p = Some n /\ heap f !! parent n = Some pn /\
    name n = Some s /\ h = name_hash_full (nodeid pn) s.
Proof.
  simpl. destruct (heap f !! p) as [n|]; [|done]. simpl.
  destruct (heap f !! parent n) as [pn|] eqn:Hpn; [|done]. simpl.
  destruct (name n) as [s|] eqn:Hs; [|done]. intros [= <-]. eauto 10.
Qed.

(** A node in the name table has a name and a parent that is alive. *)
Lemma names_alive f p : table_wf (tkey name_ops f) (name_table f) -> p ∈ names f ->
  exists n pn s, heap f !! p = Some n /\ heap f !! parent n = Some pn /\ name n = Some s.
Proof.
  intros Hwf Hp. apply elem_of_concat in Hp as (i & l & Hi & Hp).
  destruct (tw_placed _ _ Hwf i l p Hi Hp) as (h & Hk & _).
  destruct (name_key_inv f p h Hk) as (n & pn & s & ? & ? & ? & _). eauto 10.
Qed.

Lemma NULL_not_live extra f : graph_wf extra f -> heap f !! NULL = None.
Proof.
  intros Hg. destruct (heap f !! NULL) as [n|] eqn:Hn; [exfalso|done].
  destruct (gw_slabs _ _ Hg) as [Hw _].
  assert (NULL ∈ dom (heap f)) as Hd by (apply elem_of_dom; eauto).
  apply (Slab.sw_live _ _ _ Hw) in Hd as (a & sl & Ha & Hx & _).
  pose proof (Slab.sw_room _ _ _ Hw). pose proof (Slab.node_size_pos (remember (conf f))).
  destruct (Slab.pw_aligned _ _ _ _ (Slab.sw_page _ _ _ Hw a sl Ha)) as (q & Hq & ->).
  apply Slab.carve_elem in Hx; unfold Slab.sizeof_node_slab, NULL in *; nia.
Qed.

(** ** Changes of one node *)
Lemma set_heap_key_id f h p : (forall q, nodeid <$> h !! q = nodeid <$> heap f !! q) ->
  tkey id_ops (set_heap h f) p = tkey id_ops f p.
Proof.
  intros Hh. specialize (Hh p). simpl.
  destruct (h !! p), (heap f !! p); simpl in *; congruence.
Qed.

Lemma set_heap_key_name f h p : (forall q, nodeid <$> h !! q = nodeid <$> heap f !! q) ->
  parent <$> h !! p = parent <$> heap f !! p -> name <$> h !! p = name <$> heap f !! p ->
  tkey name_ops (set_heap h f) p = tkey name_ops f p.
Proof.
  intros Hh Hp Hn. simpl. destruct (h !! p) as [n|], (heap f !! p) as [m|];
    simpl in *; try congruence.
  assert (parent n = parent m) as -> by congruence. specialize (Hh (parent m)).
  destruct (h !! parent m), (heap f !! parent m); simpl in *; try congruence.
  assert (name n = name m) as -> by congruence. by injection Hh as ->.
Qed.

Lemma filter_ext_in {A} (P Q : A -> Prop) `{!forall x, Decision (P x)}
    `{!forall x, Decision (Q x)} (l : list A) :
  (forall x, x ∈ l -> P x <-> Q x) -> filter P l = filter Q l.
Proof.
  induction l as [|x l IH]; intros Hpq; [done|]. rewrite !filter_cons.
  assert (P x <-> Q x) as Hx by (apply Hpq; by left).
  rewrite IH by (intros y Hy; apply Hpq; by right).
  by repeat case_decide; try tauto.
Qed.

Lemma children_ext f f' p : names f' ≡ₚ names f ->
  (forall q, q ∈ names f -> child_of f' p q <-> child_of f p q) ->
  children f' p = children f p.
Proof.
  intros Hn Hc. unfold children. rewrite Hn. by rewrite (filter_ext_in _ (child_of f p)).
Qed.

Lemma children_cons f f' p q n : names f' ≡ₚ q :: names f -> heap f' = heap f ->
  heap f !! q = Some n ->
  children f' p = children f p + if decide (parent n = p) then 1 else 0.
Proof.
  intros Hn Hh Hq. unfold children. rewrite Hn, filter_cons.
  assert (child_of f' p q <-> parent n = p) as Hc.
  { unfold child_of. rewrite Hh, Hq. simpl. split; congruence. }
  rewrite (filter_ext_in (child_of f' p) (child_of f p))
    by (intros x _; unfold child_of; by rewrite Hh).
  repeat case_decide; simpl; try tauto; lia.
Qed.

Lemma children_nonneg f p : 0 <= children f p.
Proof. unfold children. lia. Qed.

(** [n'] can take the place of [n] at [p]: the id stays, and so does the link of a
    node that is in the name table. *)
Definition same_place (f : fuse) (p : ptr) (n n' : node) : Prop :=
  nodeid n' = nodeid n /\ (p ∈ names f -> parent n' = parent n /\ name n' = name n).

Lemma insert_fmap {A} (g : node -> A) h (p q : ptr) (n n' : node) :
  h !! p = Some n -> (q = p -> g n' = g n) ->
  g <$> (<[p := n']> h : gmap ptr node) !! q = g <$> h !! q.
Proof.
  intros Hp Hg. destruct (decide (q = p)) as [->|Hne].
  - rewrite lookup_insert_eq, Hp. simpl. by rewrite Hg.
  - by rewrite lookup_insert_ne.
Qed.

Lemma same_place_children f p q n n' : heap f !! p = Some n -> same_place f p n n' ->
  children (set_heap (<[p := n']> (heap f)) f) q = children f q.
Proof.
  intros Hp [_ Hs]. apply children_ext; [done|]. intros x Hx. unfold child_of. simpl.
  rewrite (insert_fmap parent _ p x n n'); [done..|]. intros ->. by destruct Hs.
Qed.

Lemma graph_wf_update e e' f p n n' :
  graph_wf e f -> heap f !! p = Some n -> same_place f p n n' ->
  (forall q, q <> p -> e' q = e q) -> 0 <= e' p ->
  refctr n' = refs e' f p n' -> node_ok f p n' ->
  graph_wf e' (set_heap (<[p := n']> (heap f)) f).
Proof.
  intros Hg Hp Hs He He0 Hr Hok. pose proof Hs as [H1 H23].
  set (f' := set_heap _ f).
  assert (Hlook : forall q m, heap f' !! q = Some m ->
    exists m0, heap f !! q = Some m0 /\ same_place f q m0 m /\ (q = p /\ m = n' \/ q <> p /\ m = m0)).
  { intros q m Hq. simpl in Hq. apply lookup_insert_Some in Hq as [[<- <-]|[Hne Hq]].
    - exists n. split_and!; try done. by left.
    - exists m. split_and!; try done. by right. }
  constructor.
  - apply (table_wf_ext (tkey id_ops f)); [|apply (gw_id _ _ Hg)]. intros q _.
    apply set_heap_key_id. intros x. by apply (insert_fmap nodeid _ p x n).
  - intros q. change (ids f') with (ids f). rewrite (gw_ids _ _ Hg). simpl.
    rewrite lookup_insert_is_Some. destruct (decide (p = q)) as [->|]; [|tauto].
    rewrite Hp. split; eauto.
  - apply (gw_iduse _ _ Hg).
  - apply (table_wf_ext (tkey name_ops f)); [|apply (gw_name _ _ Hg)]. intros q Hq.
    apply set_heap_key_name; [intros x; by apply (insert_fmap nodeid _ p x n)|..];
      (apply (insert_fmap _ _ p q n); [done|]); intros ->; by destruct H23.
  - intros q q' m m' Hq Hq'. apply Hlook in Hq as (m0 & Hq & (Hi & _) & _).
    apply Hlook in Hq' as (m0' & Hq' & (Hi' & _) & _). rewrite Hi, Hi'.
    by apply (gw_inj _ _ Hg).
  - intros q q' m m' Hq1 Hq1' Hq Hq'. apply Hlook in Hq as (m0 & Hq & [_ Hs1] & _).
    apply Hlook in Hq' as (m0' & Hq' & [_ Hs2] & _).
    destruct (Hs1 Hq1) as [Hi Hj], (Hs2 Hq1') as [Hi' Hj']. rewrite Hi, Hi', Hj, Hj'.
    by apply (gw_nameinj _ _ Hg).
  - intros q. destruct (decide (q = p)) as [->|]; [done|]. rewrite He by done.
    apply (gw_extra _ _ Hg).
  - intros q m Hq. unfold refs. unfold f'. rewrite (same_place_children f p q n n') by done.
    apply Hlook in Hq as (m0 & Hq & _ & [[-> ->]|[Hne ->]]); [done|].
    rewrite He by done. by apply (gw_refs _ _ Hg).
  - intros q m Hq. apply Hlook in Hq as (m0 & Hq & _ & [[-> ->]|[Hne ->]]).
    + by destruct Hok.
    + destruct (gw_nodes _ _ Hg q m0 Hq). done.
  - destruct (gw_rooted _ _ Hg) as (r & m & Hm & Hroot). destruct (decide (r = p)) as [->|Hne].
    + exists p, n'. simpl. rewrite lookup_insert_eq. simplify_eq. unfold is_root in *.
      split; [done|congruence].
    + exists r, m. simpl. by rewrite lookup_insert_ne.
  - simpl. rewrite dom_insert_lookup_L by eauto. apply (gw_slabs _ _ Hg).
  - apply (gw_ctr _ _ Hg).
Qed.

(** Only the heap and the tables up to the order of their nodes matter. *)
Record same_graph (f f' : fuse) : Prop := mk_same_graph {
  sg_heap : heap f' = heap f;
  sg_slabs : Slab.wf (remember (conf f')) (slabs f') (dom (heap f));
  sg_ctr : 0 <= ctr f' <= FUSE_UNKNOWN_INO;
  sg_ids : ids f' ≡ₚ ids f;
  sg_names : names f' ≡ₚ names f;
}.

Lemma key_heap f f' : heap f' = heap f ->
  tkey id_ops f' = tkey id_ops f /\ tkey name_ops f' = tkey name_ops f.
Proof. intros Hh. simpl. by rewrite Hh. Qed.

Lemma graph_wf_same e f f' : graph_wf e f -> same_graph f f' ->
  table_wf (tkey id_ops f) (id_table f') -> tuse (id_table f') = tuse (id_table f) ->
  table_wf (tkey name_ops f) (name_table f') -> graph_wf e f'.
Proof.
  intros Hg [Hh Hs Hctr Hi Hn] Hwi Hui Hwn.
  destruct (key_heap f f' Hh) as [Hki Hkn]. constructor; rewrite ?Hki, ?Hkn, ?Hh; try done.
  - intros p. rewrite Hi. apply (gw_ids _ _ Hg).
  - rewrite Hui, (Permutation_length Hi). apply (gw_iduse _ _ Hg).
  - apply (gw_inj _ _ Hg).
  - intros p q n m. rewrite Hn. apply (gw_nameinj _ _ Hg).
  - apply (gw_extra _ _ Hg).
  - intros p n Hp. rewrite (gw_refs _ _ Hg p n Hp). unfold refs. f_equal. symmetry.
    apply children_ext; [done|]. intros q _. unfold child_of. by rewrite Hh.
  - intros p n Hp. destruct (gw_nodes _ _ Hg p n Hp). split; try done; by rewrite Hn.
  - apply (gw_rooted _ _ Hg).
Qed.

(** Taking [p] out of the name table leaves a reference to its parent pending. *)
Definition plus_ref (e : ptr -> Z) (p q : ptr) : Z := e q + if decide (q = p) then 1 else 0.

Lemma graph_wf_unlink e f f' p n : graph_wf e f -> heap f !! p = Some n ->
  heap f' = heap f -> slabs f' = slabs f -> conf f' = conf f -> ctr f' = ctr f ->
  id_table f' = id_table f -> names f ≡ₚ p :: names f' ->
  table_wf (tkey name_ops f) (name_table f') -> (0 < refctr n -> 0 < nlookup n) ->
  graph_wf (plus_ref e (parent n)) f'.
Proof.
  intros Hg Hp Hh Hs Hc Hctr Hi Hn Hw Hpin.
  destruct (key_heap f f' Hh) as [Hki Hkn]. unfold plus_ref.
  assert (Hids : ids f' = ids f) by (unfold ids; by rewrite Hi).
  constructor; rewrite ?Hki, ?Hkn, ?Hh, ?Hs, ?Hc, ?Hctr, ?Hids, ?Hi; try apply Hg.
  - done.
  - intros q q' m m' Hq Hq'. apply (gw_nameinj _ _ Hg); rewrite Hn; by right.
  - intros q. pose proof (gw_extra _ _ Hg q). case_decide; lia.
  - intros q m Hq. rewrite (gw_refs _ _ Hg q m Hq). unfold refs.
    rewrite (children_cons f' f q p n) by (rewrite ?Hh; done || by symmetry).
    repeat case_decide; subst; try done; lia.
  - intros q m Hq. destruct (gw_nodes _ _ Hg q m Hq) as [H1 H2 H3 H4 H5]. split; try done.
    + intros Hname Hrc. destruct (decide (q = p)) as [->|Hne]; [simplify_eq; right; auto|].
      destruct (H4 Hname Hrc) as [Hin|?]; [left|by right].
      rewrite Hn in Hin. by apply elem_of_cons in Hin as [?|?].
    + intros Hr. destruct (H5 Hr) as [H6 H7]. split; [done|]. intros Hin. apply H7.
      rewrite Hn. by right.
Qed.

(** Putting it in uses the reference up. *)
Lemma graph_wf_link e f f' p n pn s : graph_wf (plus_ref e (parent n)) f ->
  heap f !! p = Some n -> heap f !! parent n = Some pn -> name n = Some s ->
  ~ is_root n -> p ∉ names f ->
  (forall q m, q ∈ names f -> heap f !! q = Some m -> parent m = parent n -> name m <> name n) ->
  heap f' = heap f -> slabs f' = slabs f -> conf f' = conf f -> ctr f' = ctr f ->
  id_table f' = id_table f -> names f' ≡ₚ p :: names f ->
  table_wf (tkey name_ops f) (name_table f') -> (forall q, 0 <= e q) ->
  graph_wf e f'.
Proof.
  intros Hg Hp Hpn Hs Hroot Hnp Huniq Hh Hsl Hc Hctr Hi Hn Hw He.
  destruct (key_heap f f' Hh) as [Hki Hkn].
  assert (Hids : ids f' = ids f) by (unfold ids; by rewrite Hi).
  constructor; rewrite ?Hki, ?Hkn, ?Hh, ?Hsl, ?Hc, ?Hctr, ?Hids, ?Hi; try apply Hg; try done.
  - intros q q' m m' Hq Hq' Hm Hm' Hpar Hname. rewrite Hn in Hq, Hq'.
    apply elem_of_cons in Hq as [->|Hq], Hq' as [->|Hq']; [done|..]; simplify_eq.
    + exfalso. by eapply (Huniq q' m').
    + exfalso. by eapply (Huniq q m).
    + by apply (gw_nameinj _ _ Hg q q' m m').
  - intros q m Hq. rewrite (gw_refs _ _ Hg q m Hq). unfold refs, plus_ref.
    rewrite (children_cons f f' q p n) by done.
    repeat case_decide; subst; try done; lia.
  - intros q m Hq. destruct (gw_nodes _ _ Hg q m Hq) as [H1 H2 H3 H4 H5]. split; try done.
    + intros Hname Hrc. destruct (H4 Hname Hrc) as [?|?]; [left|by right]. rewrite Hn. by right.
    + intros Hr. destruct (H5 Hr) as [H6 H7]. split; [done|]. rewrite Hn.
      intros [->|?]%elem_of_cons; [by simplify_eq|done].
Qed.

(** Forgetting an id frees the node. *)
Lemma graph_wf_delete e f f' p n : graph_wf e f -> heap f !! p = Some n ->
  refctr n = 0 -> p ∉ names f -> heap f' = delete p (heap f) ->
  Slab.wf (remember (conf f)) (slabs f') (dom (heap f) ∖ {[p]}) ->
  conf f' = conf f -> ctr f' = ctr f -> ids f ≡ₚ p :: ids f' ->
  table_wf (tkey id_ops f) (id_table f') -> tuse (id_table f') = tuse (id_table f) - 1 ->
  name_table f' = name_table f -> graph_wf e f'.
Proof.
  intros Hg Hp Hr Hnp Hh Hs Hc Hctr Hi Hw Hu Hn.
  pose proof (gw_refs _ _ Hg p n Hp) as Hrefs. rewrite Hr in Hrefs. unfold refs in Hrefs.
  pose proof (gw_extra _ _ Hg p). pose proof (children_nonneg f p).
  assert (Hch : children f p = 0) by (destruct (0 <? nlookup n); simpl in *; lia).
  assert (Hnl : nlookup n = 0).
  { pose proof (no_nlookup _ _ _ (gw_nodes _ _ Hg p n Hp)).
    destruct (Z.ltb_spec 0 (nlookup n)); simpl in *; lia. }
  assert (Hnch : forall q, q ∈ names f -> ~ child_of f p q).
  { intros q Hq Hc'. unfold children in Hch.
    assert (q ∈ filter (child_of f p) (names f)) as Hin by (by apply list_elem_of_filter).
    destruct (filter _ _); [by apply not_elem_of_nil in Hin|done]. }
  assert (Hlook : forall q m, heap f' !! q = Some m <-> q <> p /\ heap f !! q = Some m).
  { intros q m. rewrite Hh, lookup_delete_Some. naive_solver. }
  assert (Hnames : names f' = names f) by (unfold names; by rewrite Hn).
  assert (Hidp : p ∉ ids f').
  { pose proof (tw_nodup _ _ (gw_id _ _ Hg)) as Hnd. change (NoDup (ids f)) in Hnd.
    rewrite Hi in Hnd. by apply NoDup_cons in Hnd as [? _]. }
  constructor; rewrite ?Hc, ?Hctr, ?Hnames, ?Hn.
  - apply (table_wf_ext (tkey id_ops f)); [|done]. intros q Hq. simpl.
    rewrite Hh, lookup_delete_ne; [done|]. intros <-. done.
  - intros q. destruct (decide (q = p)) as [->|Hne].
    + rewrite Hh, lookup_delete_eq. split; [done|by intros [? ?]].
    + rewrite Hh, lookup_delete_ne by done. rewrite <- (gw_ids _ _ Hg), Hi.
      rewrite elem_of_cons. naive_solver.
  - rewrite Hu, (gw_iduse _ _ Hg), (Permutation_length Hi). simpl. lia.
  - apply (table_wf_ext (tkey name_ops f)); [|apply (gw_name _ _ Hg)].
    intros q Hq. destruct (names_alive f q (gw_name _ _ Hg) Hq) as (m & pm & s & Hm & Hpm & _).
    simpl. rewrite Hh, lookup_delete_ne by (intros ->; done). rewrite Hm. simpl.
    rewrite lookup_delete_ne; [done|]. intros Heq. apply (Hnch q Hq).
    unfold child_of. rewrite Hm. simpl. congruence.
  - intros q q' m m' [_ Hq]%Hlook [_ Hq']%Hlook. by apply (gw_inj _ _ Hg).
  - intros q q' m m' Hq1 Hq1' [_ Hq]%Hlook [_ Hq']%Hlook. by apply (gw_nameinj _ _ Hg).
  - apply (gw_extra _ _ Hg).
  - intros q m [Hne Hq]%Hlook. rewrite (gw_refs _ _ Hg q m Hq). unfold refs. f_equal.
    symmetry. apply children_ext; [by rewrite Hnames|]. intros x Hx. unfold child_of.
    rewrite Hh, lookup_delete_ne; [done|]. by intros <-.
  - intros q m [Hne Hq]%Hlook. destruct (gw_nodes _ _ Hg q m Hq). split; try done; by rewrite Hnames.
  - destruct (gw_rooted _ _ Hg) as (r & m & Hm & Hroot). exists r, m. split; [|done].
    apply Hlook. split; [|done]. intros ->. simplify_eq.
    pose proof (no_root _ _ _ (gw_nodes _ _ Hg p n Hp) Hroot). lia.
  - by rewrite Hh, dom_delete_L.
  - apply (gw_ctr _ _ Hg).
Qed.

(** ** Taking a node out of the tables, and freeing it *)
Lemma free_node_runs f live p : Slab.wf (remember (conf f)) (slabs f) live -> p ∈ live ->
  runs (free_node p) f (fun _ f' => exists s,
    Slab.wf (remember (conf f)) s (live ∖ {[p]}) /\
    f' = set_heap (delete p (heap f)) (set_slabs s f)).
Proof.
  intros Hw Hp. destruct (Slab.free_node_mem_runs _ _ _ p Hw Hp) as ([] & s & Hs & Hw').
  unfold free_node, with_slabs. msteps. rewrite Hs. msteps.
  eexists _, _. split; [done|]. by exists s.
Qed.

Lemma unhash_id_runs f p n : table_wf (tkey id_ops f) (id_table f) ->
  heap f !! p = Some n -> p ∈ ids f ->
  runs (unhash_id p) f (fun _ f' => exists ms, ids f ≡ₚ p :: ms /\
    table_to id_ops f ms (tuse (id_table f) - 1) f').
Proof.
  intros Hw Hp Hin. destruct (table_unlink _ _ p _ Hw (id_key f p n Hp) Hin)
    as (l & l' & Hl & Hu & Hw' & Hm).
  unfold unhash_id, load, get_chain. msteps.
  rewrite Hu. unfold put_chain, get_chain. msteps.
  set (t' := set_chain _ l' _) in *.
  eapply runs_mono; [apply (table_drop_runs id_ops (set_id_table t' f)); exact Hw'|].
  simpl. intros [] f' Hto. exists (members t'). split; [done|].
  eapply (table_to_trans id_ops); [|exact Hto]. by apply (table_to_put id_ops f t').
Qed.

(** Everything of [f] but the heap, the tables, the slabs, the LRU list and the coming
    allocations. *)
Record same_rest (f f' : fuse) : Prop := mk_same_rest {
  sr_conf : conf f' = conf f;
  sr_ctr : ctr f' = ctr f;
  sr_generation : generation f' = generation f;
  sr_hidectr : hidectr f' = hidectr f;
  sr_lockq : lockq f' = lockq f;
  sr_clock : clock f' = clock f;
}.

#[export] Instance same_rest_preorder : PreOrder same_rest.
Proof. split; [by intros f|]. intros f g h [] []. split; congruence. Qed.

(** The last part of [delete_node]. *)
Lemma delete_rest_runs e f p n : graph_wf e f -> heap f !! p = Some n ->
  refctr n = 0 -> p ∉ names f ->
  runs (f0 ← getM; (if lru_enabled f0 then remove_node_lru p else mret tt);;
        unhash_id p;; free_node p) f
    (fun _ f' => graph_wf e f' /\ heap f' = delete p (heap f) /\
       name_table f' = name_table f /\ same_rest f f').
Proof.
  intros Hg Hp Hr Hnp. mstep.
  eapply runs_bind with (P := fun _ f1 => exists l, f1 = set_lru_table l f).
  { destruct (lru_enabled f); unfold remove_node_lru, load; msteps;
      (eexists _, _; split; [done|]); [by eexists|exists (lru_table f); by destruct f]. }
  simpl. intros _ f1 (l & ->).
  eapply runs_bind.
  { apply (unhash_id_runs _ p n); [apply (gw_id _ _ Hg)|done|].
    apply (gw_ids _ _ Hg). eauto. }
  simpl. intros _ f2 (ms & Hms & t & a & -> & Hw & Hm & Hu).
  eapply runs_mono; [apply (free_node_runs _ (dom (heap f)))|].
  - apply (gw_slabs _ _ Hg).
  - apply elem_of_dom. eauto.
  - simpl. intros _ f' (s & Hs & ->). split; [|done].
    eapply (graph_wf_delete e f _ p n); try done. simpl. by rewrite Hms, Hm.
Qed.

(** ** Dropping references

    What survives a cascade of deletions is unchanged up to its reference count. *)
Record released (f f' : fuse) : Prop := mk_released {
  rl_rest : same_rest f f';
  rl_nodes : forall p n', heap f' !! p = Some n' -> exists n, heap f !! p = Some n /\
    n' = set_refctr (refctr n') n /\ (0 < refctr n -> 0 < refctr n');
  rl_names : forall p, p ∈ names f' <-> p ∈ names f /\ is_Some (heap f' !! p);
  rl_zero : forall p n, heap f !! p = Some n -> refctr n = 0 -> heap f' !! p = Some n;
  rl_pinned : forall p n, heap f !! p = Some n -> 0 < nlookup n -> is_Some (heap f' !! p);
  rl_slack : slack f' = slack f;
}.

(** The reference dropped at [p] was its last. *)
Lemma last_ref e f p n : graph_wf e f -> heap f !! p = Some n -> refctr n = 0 ->
  e p = 0 /\ nlookup n = 0 /\ children f p = 0.
Proof.
  intros Hg Hp Hr. pose proof (gw_refs _ _ Hg p n Hp) as Hrefs. unfold refs in Hrefs.
  pose proof (gw_extra _ _ Hg p). pose proof (children_nonneg f p).
  pose proof (no_nlookup _ _ _ (gw_nodes _ _ Hg p n Hp)).
  destruct (Z.ltb_spec 0 (nlookup n)); simpl in *; lia.
Qed.

Definition minus_ref (e : ptr -> Z) (p q : ptr) : Z := e q - if decide (q = p) then 1 else 0.

Lemma drop_ref_wf e f p n : graph_wf e f -> heap f !! p = Some n -> 0 < e p ->
  graph_wf (minus_ref e p) (set_heap (<[p := set_refctr (refctr n - 1) n]> (heap f)) f).
Proof.
  intros Hg Hp He. apply (graph_wf_update e _ f p n); try done; unfold minus_ref.
  - intros q Hne. rewrite decide_False by done. lia.
  - rewrite decide_True by done. lia.
  - unfold refs. simpl. rewrite (gw_refs _ _ Hg p n Hp), decide_True by done. unfold refs. lia.
  - destruct (gw_nodes _ _ Hg p n Hp) as [? ? ? H ?]. split; try done. simpl. intros Hn Hr.
    apply H; [done|lia].
Qed.

(** ** Unlinking a node

    [unref] drops the reference to the parent; it may delete the parent and nodes
    above it. *)
Record unhashed (p : ptr) (f f2 f3 : fuse) (m : node) (f' : fuse) : Prop := mk_unhashed {
  uh_rest : same_rest f f2;
  uh_heap : heap f2 = heap f;
  uh_names : names f ≡ₚ p :: names f2;
  uh_slack : slack f2 = slack f + 1;
  uh_released : released f2 f3;
  uh_node : heap f3 !! p = Some m;
  uh_rest' : same_rest f3 f';
  uh_heap' : heap f' = <[p := set_parent NULL (set_name None m)]> (heap f3);
  uh_names' : names f' ≡ₚ names f3;
  uh_slack' : slack f' = slack f3 - 1;
}.

Lemma drop_name_runs e f p m : graph_wf e f -> heap f !! p = Some m -> p ∉ names f ->
  runs (update p (fun n => set_parent NULL (set_name None n));; table_drop name_ops) f
    (fun _ f' => graph_wf e f' /\ same_rest f f' /\
       heap f' = <[p := set_parent NULL (set_name None m)]> (heap f) /\
       names f' ≡ₚ names f /\ slack f' = slack f - 1).
Proof.
  intros Hg Hp Hnp. unfold update, load, store. msteps.
  set (f4 := set_heap _ f).
  assert (Hg4 : graph_wf e f4).
  { apply (graph_wf_update e e f p m); try done.
    - apply (gw_extra _ _ Hg).
    - apply (gw_refs _ _ Hg p m Hp).
    - destruct (gw_nodes _ _ Hg p m Hp). split; try done. }
  eapply runs_mono; [apply (table_drop_runs name_ops f4), (gw_name _ _ Hg4)|].
  intros [] f' (t & a & -> & Hw & Hm & Hu). split_and!; try done.
  - apply (graph_wf_same e f4 _ Hg4); [split; try done|apply (gw_id _ _ Hg4)|done|exact Hw].
    + apply (gw_slabs _ _ Hg4).
    + apply (gw_ctr _ _ Hg4).
  - unfold slack, names. simpl. rewrite Hu, (Permutation_length Hm). simpl. lia.
Qed.

Lemma unhash_name_with_runs unref e f p n s :
  graph_wf e f -> heap f !! p = Some n -> name n = Some s -> p ∈ names f ->
  (0 < refctr n -> 0 < nlookup n) ->
  (forall f2, graph_wf (plus_ref e (parent n)) f2 -> heap f2 = heap f ->
     is_Some (heap f !! parent n) -> names f ≡ₚ p :: names f2 ->
     runs (unref (parent n)) f2 (fun _ f3 => graph_wf e f3 /\ released f2 f3)) ->
  runs (unhash_name_with unref p) f (fun _ f' => graph_wf e f' /\
    exists f2 f3 m, unhashed p f f2 f3 m f').
Proof.
  intros Hg Hp Hs Hin Hpin Hunref.
  destruct (names_alive f p (gw_name _ _ Hg) Hin) as (n' & pn & s' & Hn & Hpn & Hs'). simplify_eq.
  destruct (table_unlink _ _ p _ (gw_name _ _ Hg) (name_key f p n pn s Hp Hpn Hs) Hin)
    as (l & l' & Hl & Hu & Hw & Hm).
  unfold unhash_name_with, load, get_chain. msteps. rewrite Hs. msteps. rewrite Hu.
  unfold put_chain, get_chain. msteps.
  set (t' := set_chain _ l' _) in *. set (f2 := set_name_table t' f).
  assert (Hg2 : graph_wf (plus_ref e (parent n)) f2) by (by apply (graph_wf_unlink e f f2 p n)).
  eapply runs_bind; [apply (Hunref f2); [done..|eauto|done]|]. simpl.
  intros _ f3 [Hg3 Hrel].
  assert (exists m, heap f3 !! p = Some m) as [m Hm3].
  { destruct (Z_lt_le_dec 0 (refctr n)) as [Hr|Hr]; [apply (rl_pinned _ _ Hrel p n); auto|].
    exists n. apply (rl_zero _ _ Hrel p n); [done|].
    pose proof (gw_refs _ _ Hg p n Hp) as Hrefs. unfold refs in Hrefs.
    pose proof (gw_extra _ _ Hg p). pose proof (children_nonneg f p).
    destruct (0 <? nlookup n); simpl in *; lia. }
  assert (Hnp : p ∉ names f3).
  { intros [Hin3 _]%(rl_names _ _ Hrel). pose proof (tw_nodup _ _ (gw_name _ _ Hg)) as Hnd.
    rewrite Hm in Hnd. by apply NoDup_cons in Hnd as [? _]. }
  destruct (drop_name_runs e f3 p m Hg3 Hm3 Hnp) as ([] & f' & Hrun & Hg' & Hrest & Hh' & Hn' & Hu').
  eexists tt, f'. split; [exact Hrun|]. split; [done|]. exists f2, f3, m.
  constructor; try done. unfold slack, names. simpl. rewrite (Permutation_length Hm). simpl. lia.
Qed.

Lemma graph_wf_ext e e' f : (forall q, e' q = e q) -> graph_wf e f -> graph_wf e' f.
Proof.
  intros He Hg. constructor; try apply Hg.
  - intros q. rewrite He. apply (gw_extra _ _ Hg).
  - intros q n Hq. unfold refs. rewrite He. apply (gw_refs _ _ Hg q n Hq).
Qed.

Lemma minus_plus_ref e p q : minus_ref (plus_ref e p) p q = e q.
Proof. unfold minus_ref, plus_ref. lia. Qed.

(** A reference that was not the last. *)
Lemma released_update f p n r : heap f !! p = Some n -> 0 < r -> 0 < refctr n ->
  (forall q, q ∈ names f -> is_Some (heap f !! q)) ->
  released f (set_heap (<[p := set_refctr r n]> (heap f)) f).
Proof.
  intros Hp Hr Hr0 Hal. constructor; simpl; try done.
  - intros q n' [[<- <-]|[Hne Hq]]%lookup_insert_Some; [by exists n|].
    exists n'. by destruct n'.
  - intros q. change (names (set_heap _ f)) with (names f). split; [|by intros [? _]].
    intros Hq. split; [done|]. rewrite lookup_insert_is_Some. destruct (decide (p = q)); auto.
  - intros q m Hq Hm. rewrite lookup_insert_ne; [done|]. intros ->. simplify_eq. lia.
  - intros q m Hq _. rewrite lookup_insert_is_Some. destruct (decide (p = q)); eauto.
Qed.

(** A reference that was the last, for a node without a name and for one with. *)
Lemma released_delete f f' p n : heap f !! p = Some n -> 0 < refctr n -> nlookup n = 0 ->
  p ∉ names f -> heap f' = delete p (heap f) -> name_table f' = name_table f ->
  same_rest f f' -> (forall q, q ∈ names f -> is_Some (heap f !! q)) -> released f f'.
Proof.
  intros Hp Hr Hn Hnp Hh Ht Hrest Hal. constructor; try done; rewrite ?Hh.
  - intros q n' [Hne Hq]%lookup_delete_Some. exists n'. by destruct n'.
  - intros q. unfold names. rewrite Ht. change (members (name_table f)) with (names f).
    split; [|by intros [? _]]. intros Hq. split; [done|].
    rewrite lookup_delete_ne by (by intros ->). auto.
  - intros q m Hq Hm. rewrite lookup_delete_ne; [done|]. intros ->. simplify_eq. lia.
  - intros q m Hq Hm. rewrite lookup_delete_ne; [eauto|]. intros ->. simplify_eq. lia.
  - unfold slack, names. by rewrite Ht.
Qed.

Lemma released_unhash_delete f f1 f2 f3 f4 f5 p n n1 m :
  heap f !! p = Some n -> 0 < refctr n -> nlookup n = 0 ->
  f1 = set_heap (<[p := n1]> (heap f)) f -> NoDup (names f) ->
  unhashed p f1 f2 f3 m f4 -> heap f5 = delete p (heap f4) ->
  name_table f5 = name_table f4 -> same_rest f4 f5 -> released f f5.
Proof.
  intros Hp Hr Hn -> Hnd [Ur Uh Un Us [Rr Rn Rna Rz Rp Rs] Um Ur' Uh' Un' Us'] Hh Ht Hrest.
  simpl in Uh. change (names (set_heap _ f)) with (names f) in Un.
  assert (Hlook : forall q, q <> p -> heap f5 !! q = heap f3 !! q).
  { intros q Hq. rewrite Hh, lookup_delete_ne, Uh', lookup_insert_ne; done. }
  assert (Hlook2 : forall q, q <> p -> heap f2 !! q = heap f !! q).
  { intros q Hq. by rewrite Uh, lookup_insert_ne. }
  assert (Hdel : heap f5 !! p = None) by (by rewrite Hh, lookup_delete_eq).
  assert (Hnames : names f5 ≡ₚ names f3) by (unfold names in *; by rewrite Ht).
  assert (Hpn2 : p ∉ names f2) by (rewrite Un in Hnd; by apply NoDup_cons in Hnd as [? _]).
  constructor.
  - etransitivity; [|exact Hrest]. etransitivity; [|exact Ur'].
    etransitivity; [|exact Rr]. destruct Ur. by split.
  - intros q n' Hq. destruct (decide (q = p)) as [->|Hne]; [congruence|].
    rewrite Hlook in Hq by done. destruct (Rn q n' Hq) as (k & Hk & ?).
    exists k. by rewrite <- Hlook2.
  - intros q. rewrite Hnames, Rna, Un, elem_of_cons. split.
    + intros [Hq Hs]. assert (q <> p) by (by intros ->). rewrite Hlook by done. auto.
    + intros [[->|Hq] Hs]; [rewrite Hdel in Hs; by destruct Hs|].
      assert (q <> p) by (by intros ->). by rewrite Hlook in Hs.
  - intros q k Hq Hk. assert (q <> p) by (intros ->; simplify_eq; lia).
    rewrite Hlook by done. apply Rz; [by rewrite Hlook2|done].
  - intros q k Hq Hk. assert (q <> p) by (intros ->; simplify_eq; lia).
    rewrite Hlook by done. apply (Rp q k); [by rewrite Hlook2|done].
  - change (slack (set_heap _ f)) with (slack f) in Us.
    assert (slack f5 = slack f4) as -> by (unfold slack, names; by rewrite Ht). lia.
Qed.

Lemma unref_node_loop_runs fuel e f p n : graph_wf e f -> heap f !! p = Some n ->
  0 < e p -> (length (names f) < fuel)%nat ->
  runs (unref_node_loop fuel p) f
    (fun _ f' => graph_wf (minus_ref e p) f' /\ released f f').
Proof.
  revert e f p n. induction fuel as [|fuel IH]; intros e f p n Hg Hp He Hfuel; [lia|].
  simpl. unfold update, load, store. msteps.
  pose proof (gw_refs _ _ Hg p n Hp) as Hrefs. unfold refs in Hrefs.
  pose proof (children_nonneg f p) as Hcn.
  assert (Hr : 0 < refctr n) by (destruct (0 <? nlookup n); simpl in *; lia).
  assert (Hal : forall q, q ∈ names f -> is_Some (heap f !! q)).
  { intros q Hq. destruct (names_alive f q (gw_name _ _ Hg) Hq) as (? & _ & _ & ? & _). eauto. }
  rewrite (proj2 (Z.ltb_lt 0 (refctr n))) by done. simpl. msteps.
  pose proof (drop_ref_wf e f p n Hg Hp He) as Hg1.
  set (n1 := set_refctr (refctr n - 1) n) in *. set (f1 := set_heap _ f) in *.
  destruct (Z.eqb_spec (refctr n - 1) 0) as [H0|H0].
  2: { apply runs_ret. split; [done|]. apply released_update; [done|lia|lia|done]. }
  assert (Hp1 : heap f1 !! p = Some n1) by apply lookup_insert_eq.
  destruct (last_ref _ _ _ _ Hg1 Hp1 H0) as (He1 & Hnl & Hch). simpl in Hnl.
  unfold delete_node_with, load. msteps.
  assert (Htl : treelock n = 0).
  { destruct (decide (treelock n = 0)) as [|Ht]; [done|].
    pose proof (no_lock _ _ _ (gw_nodes _ _ Hg p n Hp) Ht). lia. }
  apply runs_assert_bind; [by apply Z.eqb_eq|].
  destruct (name n) as [s|] eqn:Hname.
  - assert (Hin : p ∈ names f).
    { destruct (no_linked _ _ _ (gw_nodes _ _ Hg p n Hp)) as [|]; [by rewrite Hname|done..|lia]. }
    eapply runs_bind.
    { apply (unhash_name_with_runs _ _ f1 p n1 s Hg1 Hp1 Hname Hin); [simpl; lia|].
      intros f2 Hg2 Hh2 [pn Hpn] Hn2. eapply runs_mono.
      - apply (IH _ f2 (parent n1) pn Hg2); [by rewrite Hh2| |].
        + unfold plus_ref. rewrite decide_True by done. pose proof (gw_extra _ _ Hg1 (parent n1)). lia.
        + change (names f1) with (names f) in Hn2. rewrite (Permutation_length Hn2) in Hfuel. simpl in Hfuel. lia.
      - simpl. intros _ f3 [Hg3 Hrel]. split; [|done].
        eapply graph_wf_ext; [|exact Hg3]. intros q. by rewrite minus_plus_ref. }
    simpl. intros _ f4 (Hg4 & f2 & f3 & m & Hun).
    assert (Hm : m = n1).
    { pose proof (rl_zero _ _ (uh_released _ _ _ _ _ _ Hun) p n1) as Hz.
      rewrite (uh_heap _ _ _ _ _ _ Hun), (uh_node _ _ _ _ _ _ Hun) in Hz.
      specialize (Hz Hp1 H0). congruence. }
    eapply runs_mono; [apply (delete_rest_runs _ f4 p (set_parent NULL (set_name None n1)) Hg4)|].
    + rewrite (uh_heap' _ _ _ _ _ _ Hun), lookup_insert_eq. by rewrite Hm.
    + done.
    + rewrite (uh_names' _ _ _ _ _ _ Hun), (rl_names _ _ (uh_released _ _ _ _ _ _ Hun)).
      intros [Hin2 _]. pose proof (tw_nodup _ _ (gw_name _ _ Hg)) as Hnd.
      change (NoDup (names f1)) in Hnd. rewrite (uh_names _ _ _ _ _ _ Hun) in Hnd.
      by apply NoDup_cons in Hnd as [? _].
    + simpl. intros _ f5 (Hg5 & Hh5 & Ht5 & Hr5). split; [done|].
      apply (released_unhash_delete f f1 f2 f3 f4 f5 p n n1 m); try done.
      apply (tw_nodup _ _ (gw_name _ _ Hg)).
  - assert (Hnp : p ∉ names f).
    { intros Hin. destruct (names_alive f p (gw_name _ _ Hg) Hin) as (? & _ & s & ? & _ & ?). congruence. }
    unfold unhash_name_with, load. msteps. rewrite Hname. msteps.
    eapply runs_mono; [apply (delete_rest_runs _ f1 p n1 Hg1 Hp1 H0 Hnp)|].
    simpl. intros _ f' (Hg' & Hh' & Ht' & Hr'). split; [done|].
    apply (released_delete f f' p n); try done.
    + rewrite Hh'. simpl. by rewrite delete_insert_eq.
    + destruct Hr'. by split.
Qed.

#[global] Arguments unref_node_loop : simpl never.
#[global] Arguments tree_fuel : simpl never.

(** No chain of parents is longer than the heap. *)
Lemma names_length e f : graph_wf e f -> (length (names f) < tree_fuel f)%nat.
Proof.
  intros Hg. unfold tree_fuel. rewrite <- (size_dom (D := gset ptr)).
  assert (length (names f) <= base.size (dom (heap f)))%nat; [|lia].
  rewrite <- (size_list_to_set (C := gset ptr)) by (apply (tw_nodup _ _ (gw_name _ _ Hg))).
  apply subseteq_size. intros p Hp. apply elem_of_list_to_set in Hp.
  destruct (names_alive f p (gw_name _ _ Hg) Hp) as (n & _ & _ & Hn & _).
  apply elem_of_dom. eauto.
Qed.

Lemma unref_node_runs e f p n : graph_wf e f -> heap f !! p = Some n -> 0 < e p ->
  runs (unref_node p) f (fun _ f' => graph_wf (minus_ref e p) f' /\ released f f').
Proof.
  intros Hg Hp He. unfold unref_node. mstep.
  apply (unref_node_loop_runs _ e f p n); [done..|]. by eapply names_length.
Qed.

(** [unhash_name] on a node that is linked, and held by a lookup. *)
Lemma unhash_name_runs e f p n s : graph_wf e f -> heap f !! p = Some n ->
  name n = Some s -> p ∈ names f -> (0 < refctr n -> 0 < nlookup n) ->
  runs (unhash_name p) f (fun _ f' => graph_wf e f' /\
    exists f2 f3 m, unhashed p f f2 f3 m f').
Proof.
  intros Hg Hp Hs Hin Hpin. unfold unhash_name. mstep.
  apply (unhash_name_with_runs _ e f p n s); try done.
  intros f2 Hg2 Hh [pn Hpn] Hn. eapply runs_mono.
  - apply (unref_node_loop_runs _ _ f2 (parent n) pn Hg2); [by rewrite Hh| |].
    + unfold plus_ref. rewrite decide_True by done. pose proof (gw_extra _ _ Hg (parent n)). lia.
    + pose proof (names_length e f Hg). rewrite (Permutation_length Hn) in *. simpl in *. lia.
  - simpl. intros _ f3 [Hg3 Hrel]. split; [|done].
    eapply graph_wf_ext; [|exact Hg3]. intros q. by rewrite minus_plus_ref.
Qed.

(** What is left after a cascade is again a state between operations. *)
Lemma fuse_wf_released f f' : graph_wf (fun _ => 0) f' -> released f f' -> slack f = 0 ->
  (forall p n, heap f !! p = Some n -> 0 < refctr n) ->
  (forall p n, heap f !! p = Some n -> name n <> None -> p ∈ names f \/ is_root n) ->
  fuse_wf f'.
Proof.
  intros Hg [_ Hn Hna _ _ Hs] H0 Hpos Hlink. constructor; [done|lia|..].
  - intros p n' Hp. destruct (Hn p n' Hp) as (n & Hpn & _ & Hr). by apply Hr, (Hpos p n).
  - intros p n' Hp Hname. destruct (Hn p n' Hp) as (n & Hpn & He & _).
    rewrite He in Hname. simpl in Hname. destruct (Hlink p n Hpn Hname) as [Hin|Hr].
    + left. apply Hna. eauto.
    + right. rewrite He. exact Hr.
Qed.
