(* ===== verification/LookupFacts.v ===== *)
(** * Looking nodes up, fresh ids, and [find_node]

    Both tables answer exactly for the nodes of the graph; a fresh id is found as long
    as one is left; [find_node] returns the node of a name, or makes it. *)
From S2P Require Import Prelude Slab PosixLock Types NodeTable TableFacts GraphFacts.
#[local] Open Scope Z_scope.

(** ** By id *)
Lemma find_id_spec f id l : (forall p, p ∈ l -> is_Some (heap f !! p)) ->
  (find_id f id l = Ok NULL /\
     forall p n, p ∈ l -> heap f !! p = Some n -> nodeid n <> id) \/
  (exists p n, find_id f id l = Ok p /\ p ∈ l /\ heap f !! p = Some n /\ nodeid n = id).
Proof.
  induction l as [|p l IH]; intros Hl; simpl.
  - left. split; [done|]. intros p n Hp. by apply not_elem_of_nil in Hp.
  - destruct (Hl p) as [n Hn]; [by left|]. rewrite Hn.
    destruct (Z.eqb_spec (nodeid n) id) as [He|He].
    + right. exists p, n. split_and!; try done. by left.
    + destruct IH as [[IH1 IH2]|(q & m & IH1 & IH2 & IH3)].
      * intros q Hq. apply Hl. by right.
      * left. split; [done|]. intros q m [->|Hq]%elem_of_cons Hm; [by simplify_eq|eauto].
      * right. exists q, m. split_and!; try tauto. by right.
Qed.

(** What the id table must satisfy for a lookup; the heap may hold more nodes. *)
Definition ids_wf (f : fuse) : Prop :=
  table_wf (tkey id_ops f) (id_table f) /\ forall p, p ∈ ids f -> is_Some (heap f !! p).

Lemma graph_ids_wf e f : graph_wf e f -> ids_wf f.
Proof. intros Hg. split; [apply (gw_id _ _ Hg)|]. intros p. apply (gw_ids _ _ Hg). Qed.

Definition has_id (f : fuse) (id : Z) (p : ptr) : Prop :=
  exists n, p ∈ ids f /\ heap f !! p = Some n /\ nodeid n = id.

Lemma get_node_nocheck_spec f id : ids_wf f ->
  (get_node_nocheck id f = Ok (NULL, f) /\ forall p, ~ has_id f id p) \/
  (exists p, get_node_nocheck id f = Ok (p, f) /\ has_id f id p).
Proof.
  intros [Hw Hal]. unfold get_node_nocheck, get_chain, mbind, M_bind, getM. simpl.
  destruct (tw_chain _ _ (id_hash_full id) Hw) as [l Hl]. unfold id_hash.
  rewrite Hl. simpl.
  assert (Hsub : forall p, p ∈ l -> p ∈ ids f).
  { intros p Hp. apply chain_Some in Hl as [_ Hl]. apply elem_of_concat. eauto. }
  destruct (find_id_spec f id l) as [[He Hn]|(p & n & He & Hp & Hn & Hi)]; [auto|left|right];
    rewrite He.
  - split; [done|]. intros p (n & Hp & Hpn & Hi). apply (Hn p n); try done.
    assert (Hk : tkey id_ops f p = Some (id_hash_full id)) by (simpl; rewrite Hpn; simpl; by rewrite Hi).
    apply (tw_member _ _ p _ Hw Hk) in Hp as (l' & Hl' & Hp). by rewrite Hl in Hl'; simplify_eq.
  - exists p. split; [done|]. exists n. auto.
Qed.

(** ** By parent and name *)
Definition has_name (f : fuse) (par : Z) (s : string) (p : ptr) : Prop :=
  exists n pn, p ∈ names f /\ heap f !! p = Some n /\ heap f !! parent n = Some pn /\
    nodeid pn = par /\ name n = Some s.

Lemma find_name_spec f par s l : table_wf (tkey name_ops f) (name_table f) ->
  (forall p, p ∈ l -> p ∈ names f) ->
  (find_name f par s l = Ok NULL /\ forall p, p ∈ l -> ~ has_name f par s p) \/
  (exists p, find_name f par s l = Ok p /\ p ∈ l /\ has_name f par s p).
Proof.
  intros Hw. induction l as [|p l IH]; intros Hl; simpl.
  - left. split; [done|]. intros p Hp. by apply not_elem_of_nil in Hp.
  - destruct (names_alive f p Hw) as (n & pn & s' & Hn & Hpn & Hs); [apply Hl; by left|].
    rewrite Hn. simpl. rewrite Hpn. simpl. rewrite Hs. simpl.
    destruct (Z.eqb_spec (nodeid pn) par) as [He|He];
      [destruct (String.eqb_spec s' s) as [->|Hne]|]; simpl.
    1: { right. exists p. split_and!; [done|by left|]. exists n, pn. split_and!; auto. apply Hl. by left. }
    all: destruct IH as [[IH1 IH2]|(q & IH1 & IH2 & IH3)];
      [intros q Hq; apply Hl; by right|left|right; exists q; split_and!; try done; by right];
      (split; [done|]); intros q [->|Hq]%elem_of_cons; [|by apply IH2];
      intros (n' & pn' & _ & ? & ? & ? & ?); simplify_eq.
Qed.

Lemma lookup_node_spec f par s : table_wf (tkey name_ops f) (name_table f) ->
  (lookup_node par s f = Ok (NULL, f) /\ forall p, ~ has_name f par s p) \/
  (exists p, lookup_node par s f = Ok (p, f) /\ has_name f par s p).
Proof.
  intros Hw. unfold lookup_node, get_chain, mbind, M_bind, getM. simpl.
  destruct (tw_chain _ _ (name_hash_full par s) Hw) as [l Hl]. unfold name_hash.
  rewrite Hl. simpl.
  assert (Hsub : forall p, p ∈ l -> p ∈ names f).
  { intros p Hp. apply chain_Some in Hl as [_ Hl]. apply elem_of_concat. eauto. }
  destruct (find_name_spec f par s l Hw Hsub) as [[He Hn]|(p & He & Hp & Hn)]; [left|right];
    rewrite He; [|by exists p].
  split; [done|]. intros p Hp. apply (Hn p); [|done].
  destruct Hp as (n & pn & Hin & Hpn & Hpar & <- & Hs).
  pose proof (name_key f p n pn s Hpn Hpar Hs) as Hk.
  apply (tw_member _ _ p _ Hw Hk) in Hin as (l' & Hl' & Hp). by rewrite Hl in Hl'; simplify_eq.
Qed.

(** A name stands for one node. *)
Lemma has_name_inj e f par s p q : graph_wf e f -> has_name f par s p ->
  has_name f par s q -> p = q.
Proof.
  intros Hg (n & pn & Hp & Hn & Hpn & Hi & Hs) (m & pm & Hq & Hm & Hpm & Hj & Hs').
  apply (gw_nameinj _ _ Hg p q n m); try done; [|congruence].
  apply (gw_inj _ _ Hg _ _ pn pm); congruence.
Qed.

Lemma has_id_inj e f id p q : graph_wf e f -> has_id f id p -> has_id f id q -> p = q.
Proof.
  intros Hg (n & Hp & Hn & Hi) (m & Hq & Hm & Hj).
  apply (gw_inj _ _ Hg _ _ n m); congruence.
Qed.

Lemma get_node_runs f id p : ids_wf f -> has_id f id p -> heap f !! NULL = None ->
  (forall q, has_id f id q -> q = p) -> get_node id f = Ok (p, f).
Proof.
  intros Hw Hp H0 Hu. unfold get_node, mbind, M_bind.
  destruct (get_node_nocheck_spec f id Hw) as [[_ Hn]|(q & -> & Hq)]; [by destruct (Hn p)|].
  rewrite (Hu q Hq). destruct (Z.eqb_spec p NULL) as [->|]; [|done].
  destruct Hp as (n & _ & Hn & _). congruence.
Qed.

(** ** Fresh ids *)
Definition fresh_id (f : fuse) (id : Z) : Prop :=
  0 < id < FUSE_UNKNOWN_INO /\ forall p, ~ has_id f id p.

Definition nth_id (c : Z) (j : nat) : Z := (c + Z.of_nat j) mod 2 ^ 32.

Lemma next_ctr c : 0 <= c <= FUSE_UNKNOWN_INO -> Z.land (c + 1) 4294967295 = nth_id c 1.
Proof.
  intros Hc. unfold nth_id. change 4294967295 with (Z.ones 32).
  by rewrite Z.land_ones by done.
Qed.

Lemma nth_id_S c j : nth_id (nth_id c 1) j = nth_id c (S j).
Proof.
  unfold nth_id. rewrite Z.add_mod_idemp_l by done. f_equal. lia.
Qed.

Lemma nth_id_range c j : 0 <= nth_id c j <= FUSE_UNKNOWN_INO.
Proof.
  unfold nth_id, FUSE_UNKNOWN_INO. pose proof (Z.mod_pos_bound (c + Z.of_nat j) (2 ^ 32)). lia.
Qed.

(** The counter and the generation are all that changes. *)
Definition id_drawn (f : fuse) (id : Z) (f' : fuse) : Prop :=
  exists g, f' = set_generation g (set_ctr id f).

Lemma has_id_ctr f c g id p :
  has_id (set_generation g (set_ctr c f)) id p <-> has_id f id p.
Proof. done. Qed.

Lemma set_ctr_generation f c c' g g' :
  set_generation g' (set_ctr c' (set_generation g (set_ctr c f))) =
  set_generation g' (set_ctr c' f).
Proof. done. Qed.

Lemma id_free_or_taken f id : ids_wf f ->
  (forall p, ~ has_id f id p) \/ exists p, has_id f id p.
Proof.
  intros Hw. destruct (get_node_nocheck_spec f id Hw) as [[_ ?]|(p & _ & ?)]; eauto.
Qed.

(** If one of the next [fuel] values is fresh the loop stops at a fresh one. *)
Lemma next_id_loop_runs fuel f : ids_wf f -> heap f !! NULL = None ->
  0 <= ctr f <= FUSE_UNKNOWN_INO ->
  (exists j, (1 <= j <= fuel)%nat /\ fresh_id f (nth_id (ctr f) j)) ->
  runs (next_id_loop fuel) f (fun id f' => fresh_id f id /\ id_drawn f id f').
Proof.
  revert f. induction fuel as [|fuel IH]; intros f Hw H0 Hc (j & Hj & Hfresh); [lia|].
  simpl. msteps. rewrite next_ctr by done.
  set (c := nth_id (ctr f) 1) in *. pose proof (nth_id_range (ctr f) 1) as Hr. fold c in Hr.
  assert (exists g, (if c =? 0 then modifyM (fun f0 => set_generation (u32 (generation f0 + 1)) f0)
    else mret tt) (set_ctr c f) = Ok (tt, set_generation g (set_ctr c f))) as [g Hg].
  { destruct (c =? 0); eexists; [done|]. instantiate (1 := generation f). by destruct f. }
  eapply runs_bind with (P := fun _ f1 => f1 = set_generation g (set_ctr c f)).
  { eexists _, _. by split. }
  intros [] f1 ->.
  set (f1 := set_generation g (set_ctr c f)).
  assert (Hrec : ~ fresh_id f c -> runs (next_id_loop fuel) f1
    (fun id f' => fresh_id f id /\ id_drawn f id f')).
  { intros Hnf. eapply runs_mono; [apply (IH f1); try done|].
    - destruct j as [|[|j]]; [lia|done|]. exists (S j). split; [lia|].
      change (ctr f1) with c. unfold c. rewrite nth_id_S. exact Hfresh.
    - simpl. intros id f' [Hid (g' & ->)]. split; [exact Hid|]. by exists g'. }
  destruct ((c =? 0) || (c =? FUSE_UNKNOWN_INO)) eqn:Hres.
  { apply Hrec. intros [? _]. apply orb_true_iff in Hres as [?%Z.eqb_eq|?%Z.eqb_eq]; lia. }
  apply orb_false_iff in Hres as [Hc0%Z.eqb_neq Hc1%Z.eqb_neq].
  unfold runs, mbind, M_bind.
  destruct (get_node_nocheck_spec f1 c) as [[Hget Hn]|(p & Hget & Hp)]; [done|..];
    change (ctr f1) with c; rewrite Hget.
  - simpl. eexists _, _. split; [done|]. split; [split; [lia|exact Hn]|]. by exists g.
  - destruct (Z.eqb_spec p NULL) as [->|Hne].
    { destruct Hp as (n & _ & Hn & _). simpl in Hn. congruence. }
    simpl. apply Hrec. intros [_ Hn]. by apply (Hn p).
Qed.

Lemma nth_id_NoDup c k : Z.of_nat k <= 2 ^ 32 -> NoDup (nth_id c <$> seq 1 k).
Proof.
  intros Hk. apply NoDup_fmap_2_strong; [|apply NoDup_seq].
  intros i j Hi%elem_of_seq Hj%elem_of_seq Heq. unfold nth_id in Heq.
  assert ((Z.of_nat i - Z.of_nat j) mod 2 ^ 32 = 0) as Hz.
  { replace (Z.of_nat i - Z.of_nat j) with ((c + Z.of_nat i) - (c + Z.of_nat j)) by lia.
    rewrite Zminus_mod, Heq, Z.sub_diag. done. }
  apply Z.mod_divide in Hz as [q Hq]; [|done].
  assert (q = 0) as -> by nia. lia.
Qed.

(** The ids in use. *)
Definition taken (f : fuse) : list Z :=
  omap (fun p => nodeid <$> heap f !! p) (ids f).

Lemma taken_elem f id : ids_wf f -> id ∈ taken f <-> exists p, has_id f id p.
Proof.
  intros [_ Hal]. unfold taken. rewrite list_elem_of_omap. split.
  - intros (p & Hp & Hid). destruct (heap f !! p) as [n|] eqn:Hn; [|done].
    exists p, n. simpl in Hid. by simplify_eq.
  - intros (p & n & Hp & Hn & <-). exists p. by rewrite Hn.
Qed.

Lemma omap_length {A B} (g : A -> option B) l : (length (omap g l) <= length l)%nat.
Proof.
  induction l as [|x l IH]; [done|]. simpl. unfold omap in *. simpl. destruct (g x); simpl; lia.
Qed.

Lemma fresh_id_exists f : ids_wf f -> Z.of_nat (length (ids f)) + 3 <= 2 ^ 32 ->
  exists j, (1 <= j <= length (ids f) + 3)%nat /\ fresh_id f (nth_id (ctr f) j).
Proof.
  intros Hw Hlen. set (k := (length (ids f) + 3)%nat).
  destruct (decide (Exists (fun v => v ∉ 0 :: FUSE_UNKNOWN_INO :: taken f)
    (nth_id (ctr f) <$> seq 1 k))) as [He|He].
  - apply Exists_exists in He as (v & Hv & Hn). apply list_elem_of_fmap in Hv as (j & -> & Hj).
    apply elem_of_seq in Hj. exists j. split; [lia|].
    rewrite !not_elem_of_cons in Hn. destruct Hn as (H1 & H2 & H3).
    pose proof (nth_id_range (ctr f) j). split; [lia|].
    intros p Hp. apply H3. apply taken_elem; [done|eauto].
  - exfalso. apply not_Exists_Forall in He; [|intros v; apply _]. rewrite Forall_forall in He.
    assert (nth_id (ctr f) <$> seq 1 k ⊆+ 0 :: FUSE_UNKNOWN_INO :: taken f) as Hsub.
    { apply NoDup_submseteq; [apply nth_id_NoDup; lia|]. intros v Hv.
      specialize (He v Hv). by apply dec_stable in He. }
    apply submseteq_length in Hsub. rewrite length_fmap, length_seq in Hsub. simpl in Hsub.
    pose proof (omap_length (fun p => nodeid <$> heap f !! p) (ids f)). unfold taken in Hsub. lia.
Qed.

Lemma ids_length f : ids_wf f -> (length (ids f) <= base.size (heap f))%nat.
Proof.
  intros [Hw Hal]. rewrite <- (size_dom (D := gset ptr)).
  rewrite <- (size_list_to_set (C := gset ptr)) by (apply (tw_nodup _ _ Hw)).
  apply subseteq_size. intros p Hp. apply elem_of_list_to_set in Hp.
  apply elem_of_dom. by apply Hal.
Qed.

Lemma next_id_runs f : ids_wf f -> heap f !! NULL = None ->
  0 <= ctr f <= FUSE_UNKNOWN_INO -> Z.of_nat (length (ids f)) + 3 <= 2 ^ 32 ->
  runs next_id f (fun id f' => fresh_id f id /\ id_drawn f id f').
Proof.
  intros Hw H0 Hc Hlen. unfold next_id. apply runs_get_bind. apply next_id_loop_runs; try done.
  destruct (fresh_id_exists f Hw Hlen) as (j & Hj & Hf). exists j. split; [|done].
  pose proof (ids_length f Hw). lia.
Qed.

(** ** New nodes *)
Lemma insert_new_key f f' p n q : heap f !! p = None -> heap f' = <[p := n]> (heap f) ->
  is_Some (heap f !! q) -> tkey id_ops f' q = tkey id_ops f q.
Proof.
  intros Hp Hh [m Hq]. simpl. rewrite Hh, lookup_insert_ne; [done|]. by intros ->; rewrite Hp in Hq.
Qed.

Lemma graph_wf_new e f f' p n : graph_wf e f -> heap f !! p = None ->
  heap f' = <[p := n]> (heap f) -> ids f' ≡ₚ p :: ids f ->
  table_wf (tkey id_ops f') (id_table f') -> tuse (id_table f') = tuse (id_table f) + 1 ->
  name_table f' = name_table f -> Slab.wf (remember (conf f')) (slabs f') (dom (heap f')) ->
  0 < nodeid n < FUSE_UNKNOWN_INO -> (forall q, ~ has_id f (nodeid n) q) -> ~ is_root n ->
  name n = None -> treelock n = 0 -> 0 <= nlookup n ->
  refctr n = e p + Z.b2z (0 <? nlookup n) -> 0 <= ctr f' <= FUSE_UNKNOWN_INO ->
  graph_wf e f'.
Proof.
  intros Hg Hp Hh Hi Hw Hu Ht Hs Hid Hfresh Hroot Hname Hlock Hnl Hr Hctr.
  assert (Hn : names f' = names f) by (unfold names; by rewrite Ht).
  assert (Hlook : forall q m, heap f' !! q = Some m ->
    q = p /\ m = n \/ q <> p /\ heap f !! q = Some m).
  { intros q m Hq. rewrite Hh in Hq. apply lookup_insert_Some in Hq as [[<- <-]|[? ?]]; auto. }
  assert (Hal : forall q, q ∈ names f -> q <> p /\ heap f !! q = heap f' !! q /\
    (parent <$> heap f !! q) <> Some p).
  { intros q Hq. destruct (names_alive f q (gw_name _ _ Hg) Hq) as (m & pm & _ & Hm & Hpm & _).
    assert (q <> p) by (intros ->; congruence). split_and!; [done|..].
    - by rewrite Hh, lookup_insert_ne.
    - rewrite Hm. simpl. intros [= Heq]. congruence. }
  assert (Hch : forall q, children f' q = children f q).
  { intros q. apply children_ext; [by rewrite Hn|]. intros x Hx. unfold child_of.
    destruct (Hal x Hx) as (_ & -> & _). done. }
  assert (Hch0 : children f p = 0).
  { unfold children. rewrite (filter_ext_in _ (fun _ => False)).
    - clear. induction (names f) as [|x l IH]; [done|]. by rewrite filter_cons_False by tauto.
    - intros q Hq. destruct (Hal q Hq) as (_ & _ & Hne). unfold child_of. tauto. }
  assert (Hnew : forall q m, heap f !! q = Some m -> nodeid m <> nodeid n).
  { intros q m Hq Heq. apply (Hfresh q). exists m. split_and!; try done.
    apply (gw_ids _ _ Hg). eauto. }
  constructor; rewrite ?Hn; try done.
  - intros q. rewrite Hi, elem_of_cons, (gw_ids _ _ Hg), Hh, lookup_insert_is_Some.
    destruct (decide (q = p)) as [->|]; naive_solver.
  - rewrite Hu, (gw_iduse _ _ Hg), (Permutation_length Hi). simpl. lia.
  - rewrite Ht. apply (table_wf_ext (tkey name_ops f)); [|apply (gw_name _ _ Hg)].
    intros q Hq. destruct (names_alive f q (gw_name _ _ Hg) Hq) as (m & pm & _ & Hm & Hpm & _).
    simpl. rewrite Hh, lookup_insert_ne by (intros ->; congruence). rewrite Hm. simpl.
    by rewrite lookup_insert_ne by (intros ->; congruence).
  - intros q q' m m' Hq Hq' Heq. apply Hlook in Hq as [[-> ->]|[_ Hq]], Hq' as [[-> ->]|[_ Hq']].
    + done.
    + symmetry in Heq. by apply (Hnew q' m') in Heq.
    + by apply (Hnew q m) in Heq.
    + by apply (gw_inj _ _ Hg q q' m m').
  - intros q q' m m' Hq1 Hq1' Hq Hq'. destruct (Hal q Hq1) as (_ & Ha & _), (Hal q' Hq1') as (_ & Hb & _).
    rewrite <- Ha in Hq. rewrite <- Hb in Hq'. by apply (gw_nameinj _ _ Hg).
  - apply (gw_extra _ _ Hg).
  - intros q m Hq. unfold refs. rewrite Hch. apply Hlook in Hq as [[-> ->]|[_ Hq]]; [lia|].
    by apply (gw_refs _ _ Hg).
  - intros q m Hq. apply Hlook in Hq as [[-> ->]|[_ Hq]].
    + split; done.
    + destruct (gw_nodes _ _ Hg q m Hq). split; try done; by rewrite Hn.
  - destruct (gw_rooted _ _ Hg) as (r & m & Hm & Hrt). exists r, m. split; [|done].
    rewrite Hh, lookup_insert_ne; [done|]. by intros ->; rewrite Hp in Hm.
Qed.

(** ** The steps of [find_node] *)
Definition looked (n : node) : node :=
  let n' := if nlookup n =? 0 then set_refctr (refctr n + 1) n else n in
  set_nlookup (u64 (nlookup n + 1)) n'.

Lemma inc_nlookup_eq f p n : heap f !! p = Some n ->
  inc_nlookup p f = Ok (tt, set_heap (<[p := looked n]> (heap f)) f).
Proof.
  intros Hp. unfold inc_nlookup, update, load, store, looked, mbind, M_bind, getM. simpl.
  rewrite Hp. simpl. destruct (nlookup n =? 0); simpl; rewrite Hp; simpl; [|done].
  rewrite lookup_insert_eq. unfold modifyM. simpl. by rewrite insert_insert_eq.
Qed.

Lemma looked_wf e f p n : graph_wf e f -> heap f !! p = Some n -> nlookup n < 2 ^ 64 - 1 ->
  graph_wf e (set_heap (<[p := looked n]> (heap f)) f).
Proof.
  intros Hg Hp Hn. destruct (gw_nodes _ _ Hg p n Hp) as [H1 H2 H3 H4 H5].
  assert (Hu : nlookup (looked n) = nlookup n + 1).
  { unfold looked. simpl. unfold u64. rewrite Z.mod_small; lia. }
  assert (Hr : refctr (looked n) = refctr n + if nlookup n =? 0 then 1 else 0).
  { unfold looked. destruct (_ =? _); simpl; lia. }
  assert (Hs : forall A (g : node -> A), (forall v m, g (set_nlookup v m) = g m) ->
    (forall v m, g (set_refctr v m) = g m) -> g (looked n) = g n).
  { intros A g Hg1 Hg2. unfold looked. rewrite Hg1. by destruct (_ =? _). }
  apply (graph_wf_update e e f p n); try done.
  - unfold same_place. by rewrite !Hs.
  - apply (gw_extra _ _ Hg).
  - rewrite Hr, (gw_refs _ _ Hg p n Hp). unfold refs. rewrite Hu. zcases; simpl; lia.
  - split; rewrite ?Hu; unfold is_root in *; rewrite ?(Hs _ nodeid), ?(Hs _ treelock), ?(Hs _ name) by done.
    + done.
    + lia.
    + intros Ht. apply H3 in Ht. lia.
    + intros Hname _. right. lia.
    + intros Hrt. apply H5 in Hrt as [? ?]. split; [lia|done].
Qed.

Lemma fuse_alloc_node_runs f : Slab.wf (remember (conf f)) (slabs f) (dom (heap f)) ->
  Slab.mmap_ok (slabs f) ->
  runs alloc_node f (fun p f' => (p = NULL /\ f' = f) \/
    (heap f !! p = None /\ 0 < p /\ exists s,
       Slab.wf (remember (conf f)) s ({[p]} ∪ dom (heap f)) /\
       f' = set_heap (<[p := node0]> (heap f)) (set_slabs s f))).
Proof.
  intros Hw Hm. destruct (Slab.alloc_node_runs _ _ _ Hw Hm) as (p & s & Hs & Hcase).
  unfold alloc_node, with_slabs. msteps. rewrite Hs. msteps.
  destruct Hcase as [(-> & -> & _)|(Hp & Hnew & Hw')].
  - simpl. eexists _, _. split; [done|]. left. split; [done|]. by destruct f.
  - destruct (Z.eqb_spec p NULL) as [->|_]; [unfold NULL in *; lia|]. unfold store. msteps.
    apply runs_ret. right. split; [by apply not_elem_of_dom|]. eauto.
Qed.

(** [hash_name] of a node that is not in the name table: without memory the name is
    gone, else the node is linked below [pp], which counts it. *)
Definition linked_heap (p pp : ptr) (n pn : node) (s : string) (h : gmap ptr node) :=
  <[p := set_parent pp (set_name (Some s) n)]> (<[pp := set_refctr (refctr pn + 1) pn]> h).

Lemma linked_heap_ne p pp n pn s h q : q <> p -> q <> pp ->
  linked_heap p pp n pn s h !! q = h !! q.
Proof. intros ? ?. unfold linked_heap. by rewrite !lookup_insert_ne. Qed.

Lemma linked_heap_node p pp n pn s h :
  linked_heap p pp n pn s h !! p = Some (set_parent pp (set_name (Some s) n)).
Proof. apply lookup_insert_eq. Qed.

Lemma linked_heap_parent p pp n pn s h : p <> pp ->
  linked_heap p pp n pn s h !! pp = Some (set_refctr (refctr pn + 1) pn).
Proof. intros Hne. unfold linked_heap. by rewrite lookup_insert_ne, lookup_insert_eq. Qed.

Lemma linked_heap_place {A} (g : node -> A) p pp n pn s h q :
  h !! p = Some n -> h !! pp = Some pn -> p <> pp ->
  (forall m, g (set_refctr (refctr m + 1) m) = g m) ->
  (q = p -> g (set_parent pp (set_name (Some s) n)) = g n) ->
  g <$> linked_heap p pp n pn s h !! q = g <$> h !! q.
Proof.
  intros Hp Hpp Hne Hr Hl. unfold linked_heap. destruct (decide (q = p)) as [->|Hq].
  - rewrite lookup_insert_eq, Hp. simpl. by rewrite Hl.
  - rewrite lookup_insert_ne by done. apply insert_fmap with pn; [done|]. intros _. apply Hr.
Qed.

Lemma hash_name_runs f p n pp pn par s : heap f !! p = Some n -> heap f !! pp = Some pn ->
  p <> pp -> get_node par f = Ok (pp, f) -> nodeid pn = par -> p ∉ names f ->
  table_wf (tkey name_ops f) (name_table f) ->
  runs (hash_name p par s) f (fun r f' =>
    (r = -1 /\ exists a, f' = set_allocs a (set_heap (<[p := set_name None n]> (heap f)) f)) \/
    (r = 0 /\ exists a, let f1 := set_heap (linked_heap p pp n pn s (heap f)) (set_allocs a f) in
       table_to name_ops f1 (p :: names f) (tuse (name_table f) + 1) f')).
Proof.
  intros Hp Hpp Hne Hget Hid Hnp Hw. unfold hash_name. mstep.
  eapply runs_bind with (P := fun pp' f' => pp' = pp /\ f' = f); [by exists pp, f|].
  intros pp' f' [-> ->].
  eapply runs_bind with (P := fun _ f' => exists a, f' = set_allocs a f).
  { destruct (_ <? _); [|apply malloc_runs]. apply runs_ret. exists (allocs f).
    by rewrite set_allocs_id. }
  intros ok f' [a ->]. destruct ok; simpl; unfold update, load, store; msteps.
  2: { apply runs_ret. left. split; [done|]. by exists a. }
  rewrite lookup_insert_ne by done. msteps.
  rewrite (lookup_insert_ne _ pp p), lookup_insert_eq by done. msteps.
  set (f1 := set_heap _ _).
  assert (Hf1 : f1 = set_heap (linked_heap p pp n pn s (heap f)) (set_allocs a f)).
  { unfold f1, linked_heap. rewrite (insert_insert_ne _ pp p) by done.
    by rewrite insert_insert_eq. }
  clearbody f1.
  assert (Hh1 : heap f1 = linked_heap p pp n pn s (heap f)) by (by rewrite Hf1).
  assert (Hk : tkey name_ops f1 p = Some (name_hash_full par s)).
  { rewrite <- Hid. apply (name_key f1 p (set_parent pp (set_name (Some s) n))
      (set_refctr (refctr pn + 1) pn)); rewrite ?Hh1; [apply linked_heap_node|by apply linked_heap_parent|done]. }
  assert (Hw1 : table_wf (tkey name_ops f1) (name_table f1)).
  { rewrite Hf1. apply (table_wf_ext (tkey name_ops (set_allocs a f))); [|exact Hw].
    intros q Hq. assert (q <> p) by (intros ->; by apply Hnp in Hq).
    apply set_heap_key_name; intros; by eapply linked_heap_place. }
  assert (Ht : name_table f1 = name_table f) by (by rewrite Hf1).
  unfold name_hash. rewrite <- Ht.
  eapply runs_bind; [apply (table_add_runs name_ops f1 _ p Hw1 Hk)|]; unfold names; simpl; rewrite Ht.
  - exact Hnp.
  - intros _ f' Hto. apply runs_ret. right. split; [done|]. exists a. by rewrite <- Hf1.
Qed.

Lemma hash_id_runs f p n : table_wf (tkey id_ops f) (id_table f) -> heap f !! p = Some n ->
  p ∉ ids f ->
  runs (hash_id p) f (fun _ f' => table_to id_ops f (p :: ids f) (tuse (id_table f) + 1) f').
Proof.
  intros Hw Hp Hin. unfold hash_id, load. msteps.
  by apply (table_add_runs id_ops f _ p Hw (id_key f p n Hp)).
Qed.

(** The node is there already. *)
Lemma find_node_hit f par s p n : lookup_node par s f = Ok (p, f) ->
  heap f !! p = Some n -> p <> NULL ->
  runs (find_node par (Some s)) f (fun r f' => r = p /\
    exists l, f' = set_heap (<[p := looked n]> (heap f)) (set_lru_table l f)).
Proof.
  intros Hl Hp H0. unfold find_node.
  eapply runs_bind with (P := fun r f' => r = p /\ f' = f); [by exists p, f|].
  intros r f' [-> ->]. destruct (Z.eqb_spec p NULL); [done|].
  unfold load at 1. msteps.
  eapply runs_bind with (P := fun _ f' => exists l, f' = set_lru_table l f).
  { destruct (_ && _); unfold remove_node_lru, load; msteps;
      (eexists _, _; split; [done|]); [by eexists|exists (lru_table f); by destruct f]. }
  simpl. intros [] f' [l ->].
  eapply runs_bind with (P := fun _ f' => f' = set_heap (<[p := looked n]> (heap f)) (set_lru_table l f)).
  { eexists _, _. split; [by apply (inc_nlookup_eq (set_lru_table l f) p n)|done]. }
  simpl. intros [] f' ->. apply runs_ret. eauto.
Qed.

Lemma fuse_wf_looked f p n l : fuse_wf f -> heap f !! p = Some n -> nlookup n < 2 ^ 64 - 1 ->
  fuse_wf (set_heap (<[p := looked n]> (heap f)) (set_lru_table l f)).
Proof.
  intros Hw Hp Hn. destruct (gw_nodes _ _ (fw_graph _ Hw) p n Hp) as [H1 H2 H3 H4 H5].
  pose proof (fw_pos _ Hw p n Hp) as Hpos.
  pose proof (looked_wf _ f p n (fw_graph _ Hw) Hp Hn) as Hg.
  constructor; simpl.
  - eapply graph_wf_same; [exact Hg|split; try done|..]; try done.
    + apply (gw_slabs _ _ Hg).
    + apply (gw_ctr _ _ Hg).
    + apply (gw_id _ _ Hg).
    + apply (gw_name _ _ Hg).
  - apply (fw_slack _ Hw).
  - intros q m [[<- <-]|[Hne Hq]]%lookup_insert_Some; [|by apply (fw_pos _ Hw q)].
    unfold looked. destruct (_ =? _); simpl; lia.
  - intros q m [[<- <-]|[Hne Hq]]%lookup_insert_Some; [|by apply (fw_linked _ Hw q)].
    intros Hname. destruct (fw_linked _ Hw p n Hp) as [?|Hr].
    + unfold looked in Hname. by destruct (_ =? _).
    + by left.
    + right. unfold is_root, looked in *. by destruct (_ =? _).
Qed.

(** The node [find_node] makes: [rem] tells whether [remember] is set. *)
Definition made (g id : Z) (rem : bool) : node :=
  let n := set_n_generation g (set_nodeid id node0) in
  if rem then looked n else n.

Definition remembers (f : fuse) : bool := negb (remember (conf f) =? 0).

(** A state with the new node linked below [pp]. *)
Lemma graph_wf_made f f' p pp pn id g s n : graph_wf (fun _ => 0) f -> heap f !! p = None ->
  heap f !! pp = Some pn -> 0 < refctr pn -> fresh_id f id -> id <> FUSE_ROOT_ID ->
  (forall q, ~ has_name f (nodeid pn) s q) ->
  n = set_parent pp (set_name (Some s) (made g id (remembers f))) ->
  heap f' = <[p := looked n]> (<[pp := set_refctr (refctr pn + 1) pn]> (heap f)) ->
  Slab.wf (remember (conf f')) (slabs f') (dom (heap f')) ->
  0 <= ctr f' <= FUSE_UNKNOWN_INO ->
  ids f' ≡ₚ p :: ids f -> names f' ≡ₚ p :: names f ->
  tuse (id_table f') = tuse (id_table f) + 1 ->
  table_wf (tkey id_ops f') (id_table f') -> table_wf (tkey name_ops f') (name_table f') ->
  graph_wf (fun _ => 0) f'.
Proof.
  intros Hg Hp Hpp Hpos [Hid Hfresh] Hroot Hno Hn Hh Hs Hctr Hi Hnm Hu Hwi Hwn.
  assert (Hne : p <> pp) by (intros ->; congruence).
  assert (Hnp : p ∉ names f).
  { intros Hin. destruct (names_alive f p (gw_name _ _ Hg) Hin) as (? & _ & _ & ? & _). congruence. }
  set (na := set_parent NULL (set_name None (looked n))).
  assert (Hna : nodeid na = id /\ refctr na = 1 /\ 0 < nlookup na /\ treelock na = 0 /\
    refctr (looked n) = 1 /\ nlookup (looked n) = nlookup na /\ nodeid (looked n) = id /\
    treelock (looked n) = 0 /\ parent (looked n) = pp /\ name (looked n) = Some s).
  { subst n na. unfold made, looked. destruct (remembers f); simpl; by split_and!. }
  destruct Hna as (N1 & N2 & N3 & N4 & N5 & N6 & N7 & N8 & N9 & N10).
  set (fa := set_ctr (ctr f') (set_slabs (slabs f') (set_id_table (id_table f')
    (mk_fuse (<[p := na]> (heap f)) (slabs f) (name_table f) (id_table f) (lru_table f)
       (ctr f) (generation f) (hidectr f) (conf f') (lockq f) (allocs f) (clock f))))).
  assert (Hdom : (dom (heap f') : gset Z) = {[p]} ∪ dom (heap f)).
  { rewrite Hh, dom_insert_L, dom_insert_lookup_L; eauto. }
  assert (Hga : graph_wf (fun _ => 0) fa).
  { apply (graph_wf_new _ f fa p na); try done; try lia.
    - apply (table_wf_ext (tkey id_ops f')); [|done]. intros q Hq. simpl. rewrite Hh.
      destruct (decide (q = p)) as [->|Hqp].
      + by rewrite !lookup_insert_eq.
      + rewrite !(lookup_insert_ne _ p) by done. destruct (decide (q = pp)) as [->|].
        * by rewrite lookup_insert_eq, Hpp.
        * by rewrite lookup_insert_ne.
    - simpl. by rewrite dom_insert_L, <- Hdom.
    - by rewrite N1.
    - unfold is_root. by rewrite N1.
    - rewrite N2. by rewrite (proj2 (Z.ltb_lt _ _) N3). }
  set (fb := set_heap (<[pp := set_refctr (refctr pn + 1) pn]> (heap fa)) fa).
  assert (Hppa : heap fa !! pp = Some pn) by (simpl; by rewrite lookup_insert_ne).
  assert (Hgb : graph_wf (plus_ref (fun _ => 0) pp) fb).
  { apply (graph_wf_update (fun _ => 0) _ fa pp pn); try done; unfold plus_ref.
    - intros q Hq. by rewrite decide_False.
    - by rewrite decide_True.
    - simpl. rewrite (gw_refs _ _ Hga pp pn Hppa). unfold refs. simpl. rewrite decide_True by done. lia.
    - destruct (gw_nodes _ _ Hga pp pn Hppa) as [? ? ? H4 ?]. split; try done. simpl.
      intros Hname _. by apply H4. }
  set (fc := set_heap (<[p := looked n]> (heap fb)) fb).
  assert (Hpb : heap fb !! p = Some na) by (simpl; by rewrite lookup_insert_ne, lookup_insert_eq).
  assert (Hgc : graph_wf (plus_ref (fun _ => 0) pp) fc).
  { apply (graph_wf_update (plus_ref (fun _ => 0) pp) _ fb p na); try done.
    - apply (gw_extra _ _ Hgb).
    - rewrite N5. unfold refs, plus_ref. rewrite decide_False, N6, (proj2 (Z.ltb_lt _ _) N3) by done.
      pose proof (gw_refs _ _ Hgb p na Hpb) as Hr. unfold refs, plus_ref in Hr.
      rewrite decide_False, N2, (proj2 (Z.ltb_lt _ _) N3) in Hr by done. simpl in *. lia.
    - split; unfold is_root; rewrite ?N6, ?N7, ?N8; try lia; try done. }
  assert (Hhc : heap fc = heap f').
  { rewrite Hh. simpl. by rewrite (insert_insert_ne _ pp p), insert_insert_eq by done. }
  destruct (key_heap f' fc Hhc) as [Hki Hkn].
  rewrite <- N9 in Hgc.
  assert (Hgd : graph_wf (fun _ => 0) (set_name_table (name_table f') fc)).
  { apply (graph_wf_link _ fc _ p (looked n) (set_refctr (refctr pn + 1) pn) s Hgc); try done.
    - apply lookup_insert_eq.
    - rewrite N9. simpl. by rewrite lookup_insert_ne, lookup_insert_eq.
    - unfold is_root. by rewrite N7.
    - intros q m Hq Hm Hpar Hname. rewrite N9 in Hpar. rewrite N10 in Hname.
      change (names fc) with (names f) in Hq.
      assert (q <> p) as Hqp by (by intros ->).
      assert (exists m0, heap f !! q = Some m0 /\ parent m0 = pp /\ name m0 = Some s) as (m0 & Hm0 & Hp0 & Hs0).
      { rewrite Hhc, Hh, lookup_insert_ne in Hm by done.
        apply lookup_insert_Some in Hm as [[<- <-]|[_ Hm]]; eauto. }
      apply (Hno q). exists m0, pn. rewrite Hp0. by split_and!.
    - by rewrite Hkn. }
  eapply graph_wf_same; [exact Hgd|split|..]; try done.
  - rewrite <- Hhc in Hs. exact Hs.
  - change (table_wf (tkey id_ops fc) (id_table f')). by rewrite Hki.
  - change (table_wf (tkey name_ops fc) (name_table f')). by rewrite Hkn.
Qed.

(** [find_node] up to the name: a node with a fresh id that nothing refers to yet. *)
Record unhashed_new (f : fuse) (p : ptr) (id : Z) (n : node) (f' : fuse) : Prop := mk_un {
  un_absent : heap f !! p = None;
  un_NULL : 0 < p;
  un_fresh : fresh_id f id;
  un_node : exists g, n = made g id (remembers f);
  un_state : exists s g, f' = set_generation g (set_ctr id
    (set_heap (<[p := n]> (heap f)) (set_slabs s f))) /\
    Slab.wf (remember (conf f)) s ({[p]} ∪ dom (heap f));
}.

Definition start_node (p : ptr) : F unit :=
  id ← next_id;
  f ← getM;
  update p (fun n => set_n_generation (generation f) (set_nodeid id n));;
  (if negb (remember (conf f) =? 0) then inc_nlookup p else mret tt).

Lemma ids_wf_insert f p n s : graph_wf (fun _ => 0) f -> heap f !! p = None ->
  ids_wf (set_heap (<[p := n]> (heap f)) (set_slabs s f)).
Proof.
  intros Hg Hp. split.
  - apply (table_wf_ext (tkey id_ops f)); [|apply (gw_id _ _ Hg)]. intros q Hq.
    eapply (insert_new_key f _ p n); [done|done|]. by apply (gw_ids _ _ Hg).
  - intros q Hq. simpl. apply lookup_insert_is_Some. destruct (decide (p = q)); [by left|right].
    split; [done|]. by apply (gw_ids _ _ Hg).
Qed.

Lemma has_id_insert f p n s id q : graph_wf (fun _ => 0) f -> heap f !! p = None ->
  has_id (set_heap (<[p := n]> (heap f)) (set_slabs s f)) id q <-> has_id f id q.
Proof.
  intros Hg Hp. unfold has_id. change (ids (set_heap _ _)) with (ids f). simpl.
  split; intros (m & Hq & Hm & Hi); exists m; (split; [done|split; [|done]]).
  - apply lookup_insert_Some in Hm as [[<- _]|[_ Hm]]; [|done].
    apply (gw_ids _ _ Hg) in Hq. rewrite Hp in Hq. by destruct Hq.
  - rewrite lookup_insert_ne; [done|]. intros <-. congruence.
Qed.

Lemma start_node_runs f p s : graph_wf (fun _ => 0) f -> heap f !! p = None -> 0 < p ->
  Slab.wf (remember (conf f)) s ({[p]} ∪ dom (heap f)) ->
  Z.of_nat (length (ids f)) + 3 <= 2 ^ 32 ->
  runs (start_node p) (set_heap (<[p := node0]> (heap f)) (set_slabs s f))
    (fun _ f' => exists id n, unhashed_new f p id n f').
Proof.
  intros Hg Hp Hpos Hs Hlen. set (f1 := set_heap _ _). unfold start_node.
  eapply runs_bind; [apply (next_id_runs f1)|].
  - by apply ids_wf_insert.
  - simpl. rewrite lookup_insert_ne by (unfold NULL; lia). by apply (NULL_not_live (fun _ => 0)).
  - apply (gw_ctr _ _ Hg).
  - done.
  - simpl. intros id f2 [[Hid Hfresh] (g & ->)]. mstep.
    unfold update, load, store. msteps. rewrite lookup_insert_eq. msteps.
    rewrite insert_insert_eq.
    assert (Hfr : fresh_id f id) by (split; [done|]; intros q Hq; apply (Hfresh q); by apply has_id_insert).
    set (n1 := set_n_generation g (set_nodeid id node0)).
    destruct (negb (remember (conf f) =? 0)) eqn:Hrem.
    + eexists _, _. split; [by apply (inc_nlookup_eq _ p n1), lookup_insert_eq|].
      exists id, (looked n1). split; try done.
      * exists g. unfold made, remembers. by rewrite Hrem.
      * exists s, g. split; [|done]. simpl. by rewrite insert_insert_eq.
    + apply runs_ret. exists id, n1. split; try done.
      * exists g. unfold made, remembers. by rewrite Hrem.
      * by exists s, g.
Qed.

Definition finish_node (par : Z) (s : option string) (p : ptr) : F ptr :=
  s ← derefM s;
  res ← hash_name p par s;
  if res =? -1 then free_node p;; mret NULL
  else hash_id p;; inc_nlookup p;; mret p.

Lemma find_node_miss_eq par s f f1 p : lookup_node par s f = Ok (NULL, f) ->
  alloc_node f = Ok (p, f1) -> p <> NULL ->
  find_node par (Some s) f = (start_node p ≫= fun _ => finish_node par (Some s) p) f1.
Proof.
  intros Hl Ha Hp. unfold find_node, start_node, finish_node, mbind, M_bind.
  rewrite Hl. simpl. rewrite Ha. destruct (Z.eqb_spec p NULL); [done|].
  destruct (next_id f1) as [[id f2]|]; [|done]. simpl.
  by destruct (update p _ f2) as [[[] f3]|].
Qed.

(** What [find_node] does for a name that is not there. *)
Record node_made (f : fuse) (pp : ptr) (pn : node) (s : string) (p : ptr) (f' : fuse) : Prop :=
  mk_node_made {
  nm_absent : heap f !! p = None;
  nm_heap : exists g id, fresh_id f id /\ heap f' =
    <[p := looked (set_parent pp (set_name (Some s) (made g id (remembers f))))]>
      (<[pp := set_refctr (refctr pn + 1) pn]> (heap f));
  nm_ids : ids f' ≡ₚ p :: ids f;
  nm_names : names f' ≡ₚ p :: names f;
}.

Lemma fuse_wf_same f f' : fuse_wf f -> graph_wf (fun _ => 0) f' -> heap f' = heap f ->
  names f' ≡ₚ names f -> slack f' = slack f -> fuse_wf f'.
Proof.
  intros Hw Hg Hh Hn Hs. constructor; [done|rewrite Hs; apply (fw_slack _ Hw)|..]; rewrite Hh.
  - apply (fw_pos _ Hw).
  - intros p n. rewrite Hn. apply (fw_linked _ Hw).
Qed.

Lemma fuse_wf_made f pp pn s p f' : fuse_wf f -> heap f !! pp = Some pn ->
  node_made f pp pn s p f' -> slack f' = slack f -> graph_wf (fun _ => 0) f' -> fuse_wf f'.
Proof.
  intros Hw Hpp [Hp (g & id & _ & Hh) _ Hn] Hs Hg.
  constructor; [done|rewrite Hs; apply (fw_slack _ Hw)|..]; rewrite Hh.
  - intros q m [[<- <-]|[_ [[<- <-]|[_ Hq]]%lookup_insert_Some]]%lookup_insert_Some.
    + unfold made, looked. by destruct (remembers f).
    + pose proof (fw_pos _ Hw pp pn Hpp). simpl. lia.
    + by apply (fw_pos _ Hw q).
  - intros q m Hq Hname. destruct (decide (q = p)) as [->|Hne]; [left; rewrite Hn; by left|].
    rewrite lookup_insert_ne in Hq by done.
    assert (exists m0, heap f !! q = Some m0 /\ name m0 = name m /\ (is_root m0 -> is_root m)) as (m0 & Hm0 & E & R).
    { apply lookup_insert_Some in Hq as [[<- <-]|[_ Hq]]; eauto. }
    rewrite <- E in Hname. destruct (fw_linked _ Hw q m0 Hm0 Hname); [left|right; auto].
    rewrite Hn. by right.
Qed.

Section FinishNode.
Context (f f2 : fuse) (p pp : ptr) (pn : node) (par id : Z) (nm : string) (n : node).
Context (Hw : fuse_wf f) (Hpp : heap f !! pp = Some pn) (Hpar : nodeid pn = par)
  (Hno : forall q, ~ has_name f par nm q) (Hun : unhashed_new f p id n f2).

Let Hg : graph_wf (fun _ => 0) f := fw_graph f Hw.

Lemma new_ne : p <> pp.
Proof. intros ->. pose proof (un_absent _ _ _ _ _ Hun). congruence. Qed.

Lemma new_not_named : p ∉ names f.
Proof.
  intros Hin. destruct (names_alive f p (gw_name _ _ Hg) Hin) as (? & _ & _ & Hp & _).
  pose proof (un_absent _ _ _ _ _ Hun). congruence.
Qed.

Lemma new_not_id : p ∉ ids f.
Proof.
  intros [m Hp]%(gw_ids _ _ Hg). pose proof (un_absent _ _ _ _ _ Hun). congruence.
Qed.

Lemma new_get_node : get_node par f2 = Ok (pp, f2).
Proof.
  pose proof (un_absent _ _ _ _ _ Hun) as Hp. pose proof (un_NULL _ _ _ _ _ Hun).
  destruct (un_state _ _ _ _ _ Hun) as (s & g & -> & Hs).
  assert (Hid : has_id f par pp) by (exists pn; split_and!; [apply (gw_ids _ _ Hg); eauto|done..]).
  apply get_node_runs.
  - by apply (ids_wf_insert f p n s).
  - by apply (has_id_insert f p n s).
  - simpl. rewrite lookup_insert_ne by (unfold NULL; lia). by apply (NULL_not_live _ _ Hg).
  - intros q Hq. apply (has_id_inj _ f par q pp Hg); [|done]. by apply (has_id_insert f p n s).
Qed.

Lemma new_name_wf : table_wf (tkey name_ops f2) (name_table f2).
Proof.
  pose proof (un_absent _ _ _ _ _ Hun) as Hp.
  destruct (un_state _ _ _ _ _ Hun) as (s & g & -> & Hs).
  apply (table_wf_ext (tkey name_ops f)); [|apply (gw_name _ _ Hg)]. intros q Hq.
  destruct (names_alive f q (gw_name _ _ Hg) Hq) as (m & pm & nm' & Hm & Hpm & _).
  simpl. rewrite (lookup_insert_ne _ p q) by congruence. rewrite Hm. simpl.
  by rewrite lookup_insert_ne by congruence.
Qed.

(** Without memory for the name the new node is freed again. *)
Lemma new_undone a :
  runs (free_node p;; mret NULL)
    (set_allocs a (set_heap (<[p := set_name None n]> (heap f2)) f2))
    (fun r f' => r = NULL /\ fuse_wf f' /\ heap f' = heap f /\ conf f' = conf f).
Proof.
  pose proof (un_absent _ _ _ _ _ Hun) as Hp. pose proof (un_fresh _ _ _ _ _ Hun) as [Hid _].
  destruct (un_state _ _ _ _ _ Hun) as (s & g & E & Hs). rewrite E.
  eapply runs_bind; [apply (free_node_runs _ ({[p]} ∪ dom (heap f)));
    [exact Hs|apply elem_of_union_l, elem_of_singleton; done]|].
  simpl. intros _ f' (s' & Hs' & ->). apply runs_ret. split; [done|].
  assert (Hh : delete p (<[p := set_name None n]> (<[p := n]> (heap f))) = heap f).
  { by rewrite insert_insert_eq, delete_insert_id. }
  rewrite Hh. split; [|done].
  apply (fuse_wf_same f); try done. apply (graph_wf_same _ f); try done.
  - split; try done; simpl; [|unfold FUSE_UNKNOWN_INO in *; lia].
    assert (({[p]} ∪ dom (heap f)) ∖ {[p]} = (dom (heap f) : gset Z)) as <-; [|exact Hs'].
    apply not_elem_of_dom in Hp. set_solver.
  - apply (gw_id _ _ Hg).
  - apply (gw_name _ _ Hg).
Qed.

Lemma new_linked a :
  let f3 := set_heap (linked_heap p pp n pn nm (heap f2)) (set_allocs a f2) in
  forall f4, table_to name_ops f3 (p :: names f2) (tuse (name_table f2) + 1) f4 ->
  runs (hash_id p;; inc_nlookup p;; mret p) f4
    (fun r f' => r = p /\ fuse_wf f' /\ node_made f pp pn nm p f').
Proof.
  intros f3 f4 (t & a' & -> & Hwt & Hmt & Hut).
  pose proof (un_absent _ _ _ _ _ Hun) as Hp. pose proof new_ne as Hne.
  destruct (un_node _ _ _ _ _ Hun) as [g' Hn]. pose proof (un_fresh _ _ _ _ _ Hun) as Hfr.
  destruct (un_state _ _ _ _ _ Hun) as (s & g & E & Hs).
  set (n3 := set_parent pp (set_name (Some nm) n)) in *.
  assert (Hh3 : heap f3 = <[p := n3]> (<[pp := set_refctr (refctr pn + 1) pn]> (heap f))).
  { unfold f3, linked_heap. rewrite E. simpl. by rewrite (insert_insert_ne _ pp p), insert_insert_eq. }
  set (f4 := set_allocs a' (tset name_ops t f3)).
  assert (Hh4 : heap f4 = <[p := n3]> (<[pp := set_refctr (refctr pn + 1) pn]> (heap f)))
    by exact Hh3.
  assert (Hk : forall q, q <> p -> tkey id_ops f4 q = tkey id_ops f q).
  { intros q Hq. cbn [tkey id_ops]. rewrite Hh4.
    rewrite lookup_insert_ne by done. destruct (decide (q = pp)) as [->|].
    - by rewrite lookup_insert_eq, Hpp.
    - by rewrite lookup_insert_ne. }
  assert (Hid4 : id_table f4 = id_table f) by (unfold f4, f3; simpl; by rewrite E).
  assert (Hw4 : table_wf (tkey id_ops f4) (id_table f4)).
  { rewrite Hid4. apply (table_wf_ext (tkey id_ops f)); [|apply (gw_id _ _ Hg)].
    intros q Hq. apply Hk. intros ->. by apply new_not_id. }
  assert (Hp4 : heap f4 !! p = Some n3) by (rewrite Hh4; apply lookup_insert_eq).
  eapply runs_bind; [apply (hash_id_runs f4 p n3 Hw4 Hp4)|].
  { unfold ids. rewrite Hid4. apply new_not_id. }
  simpl. intros _ f5 (t5 & a5 & -> & Hw5 & Hm5 & Hu5).
  set (f5 := set_allocs a5 (tset id_ops t5 f4)) in *.
  set (f6 := set_heap (<[p := looked n3]> (heap f5)) f5).
  apply runs_bind with (P := fun _ f' => f' = f6).
  { eexists _, _. split; [by apply (inc_nlookup_eq f5 p n3)|done]. }
  simpl. intros _ f' ->. apply runs_ret.
  assert (Hh6 : heap f6 = <[p := looked n3]> (<[pp := set_refctr (refctr pn + 1) pn]> (heap f))).
  { change (heap f6) with (<[p := looked n3]> (heap f4)). by rewrite Hh4, insert_insert_eq. }
  assert (Hids6 : ids f6 ≡ₚ p :: ids f).
  { change (ids f6) with (members t5). rewrite Hm5. unfold ids. by rewrite Hid4. }
  assert (Hnames6 : names f6 ≡ₚ p :: names f).
  { change (names f6) with (members t). rewrite Hmt. unfold names. by rewrite E. }
  assert (Hl : forall A (h : node -> A), (forall v m, h (set_nlookup v m) = h m) ->
    (forall v m, h (set_refctr v m) = h m) -> h (looked n3) = h n3).
  { intros A h E1 E2. unfold looked. rewrite E1. by destruct (_ =? _). }
  assert (Hkey : forall q, tkey id_ops f6 q = tkey id_ops f4 q /\ tkey name_ops f6 q = tkey name_ops f3 q).
  { intros q. split.
    - apply (set_heap_key_id f5). intros x. apply (insert_fmap _ _ p x n3); [exact Hp4|by rewrite Hl].
    - apply (set_heap_key_name f5); [intros x|..]; (eapply insert_fmap; [exact Hp4|by rewrite Hl]). }
  assert (Hmade : node_made f pp pn nm p f6).
  { split; try done. exists g', id. split; [done|]. rewrite Hh6. unfold n3. by rewrite Hn. }
  assert (Hgw : graph_wf (fun _ => 0) f6).
  { apply (graph_wf_made f f6 p pp pn id g' nm n3); try done.
    - apply (fw_pos _ Hw pp pn Hpp).
    - destruct Hfr as [_ Hfr]. intros ->. destruct (gw_rooted _ _ Hg) as (r & m & Hm & Hr).
      apply (Hfr r). exists m. split_and!; [apply (gw_ids _ _ Hg); eauto|done..].
    - by rewrite Hpar.
    - unfold n3. by rewrite Hn.
    - rewrite Hh6, dom_insert_L, dom_insert_lookup_L by eauto. unfold f6, f5, f4, f3.
      simpl. rewrite E. exact Hs.
    - unfold f6, f5, f4, f3. simpl. rewrite E. simpl. destruct Hfr. unfold FUSE_UNKNOWN_INO in *. lia.
    - change (id_table f6) with t5. rewrite Hu5. by rewrite <- Hid4.
    - apply (table_wf_ext (tkey id_ops f4)); [|done]. intros q _. apply Hkey.
    - apply (table_wf_ext (tkey name_ops f3)); [|done]. intros q _. apply Hkey. }
  split; [done|]. split; [|done].
  apply (fuse_wf_made f pp pn nm p); try done.
  unfold slack. rewrite (Permutation_length Hnames6). change (name_table f6) with t.
  rewrite Hut, E. simpl. lia.
Qed.
End FinishNode.

Lemma find_node_miss f pp pn par nm : fuse_wf f -> Slab.mmap_ok (slabs f) ->
  Z.of_nat (length (ids f)) + 3 <= 2 ^ 32 ->
  heap f !! pp = Some pn -> nodeid pn = par -> (forall q, ~ has_name f par nm q) ->
  lookup_node par nm f = Ok (NULL, f) ->
  runs (find_node par (Some nm)) f (fun r f' => fuse_wf f' /\
    ((r = NULL /\ heap f' = heap f) \/ node_made f pp pn nm r f')).
Proof.
  intros Hw Hm Hlen Hpp Hpar Hno Hl. pose proof (fw_graph f Hw) as Hg.
  destruct (fuse_alloc_node_runs f (gw_slabs _ _ Hg) Hm) as (p & f1 & Ha & Hcase).
  destruct Hcase as [[-> ->]|(Hp & Hpos & s & Hs & ->)].
  { exists NULL, f. split; [|by auto]. unfold find_node, mbind, M_bind. by rewrite Hl; simpl; rewrite Ha. }
  unfold runs. rewrite (find_node_miss_eq par nm f _ p Hl Ha) by (unfold NULL; lia).
  change (runs (start_node p ≫= fun _ => finish_node par (Some nm) p)
    (set_heap (<[p := node0]> (heap f)) (set_slabs s f))
    (fun r f' => fuse_wf f' /\ ((r = NULL /\ heap f' = heap f) \/ node_made f pp pn nm r f'))).
  eapply runs_bind; [by apply (start_node_runs f p s)|]. simpl.
  intros _ f2 (id & n & Hun). unfold finish_node. mstep.
  pose proof (new_not_named f f2 p id n Hw Hun) as Hnn.
  assert (E : names f2 = names f /\ heap f2 = <[p := n]> (heap f))
    by (by destruct (un_state _ _ _ _ _ Hun) as (s' & g & -> & _)).
  destruct E as [En Eh]. assert (Hne : p <> pp) by (by intros ->; congruence).
  eapply runs_bind.
  { apply (hash_name_runs f2 p n pp pn par nm); try done.
    - rewrite Eh. apply lookup_insert_eq.
    - rewrite Eh. by rewrite lookup_insert_ne.
    - by apply (new_get_node f f2 p pp pn par id n).
    - by rewrite En.
    - by apply (new_name_wf f f2 p id n). }
  simpl. intros r f3 [(-> & a & ->)|(-> & a & Hto)]; simpl.
  - eapply runs_mono; [by eapply new_undone|].
    simpl. intros r f' (-> & Hw' & Hh & _). split; [done|by left].
  - eapply runs_mono; [by eapply new_linked|].
    simpl. intros r f' (-> & Hw' & Hmade). auto.
Qed.

(** ** The first state *)
#[local] Arguments node_table_init : simpl never.
#[local] Arguments fuse_new_state : simpl never.

Lemma node_table_init_wf key : table_wf key node_table_init /\ members node_table_init = [].
Proof.
  assert (Hm : members node_table_init = []) by (apply concat_nil_forall, Forall_replicate; done).
  split; [|done]. constructor.
  - by exists 13.
  - vm_compute. split; discriminate.
  - change (array node_table_init) with (replicate (Z.to_nat NODE_TABLE_MIN_SIZE) (@nil ptr)).
    rewrite length_replicate. vm_compute. discriminate.
  - intros i l p Hi Hp.
    change (array node_table_init) with (replicate (Z.to_nat NODE_TABLE_MIN_SIZE) (@nil ptr)) in Hi.
    apply lookup_replicate in Hi as [-> _]. by apply not_elem_of_nil in Hp.
  - rewrite Hm. constructor.
Qed.

Definition root_node : node :=
  looked (set_nodeid FUSE_ROOT_ID (set_parent NULL (set_name (Some "/"%string) node0))).

Lemma root_graph_wf f p : heap f = {[p := root_node]} -> ids f ≡ₚ [p] -> names f = [] ->
  table_wf (tkey id_ops f) (id_table f) -> tuse (id_table f) = 1 ->
  table_wf (tkey name_ops f) (name_table f) ->
  Slab.wf (remember (conf f)) (slabs f) {[p]} -> ctr f = 0 -> graph_wf (fun _ => 0) f.
Proof.
  intros Hh Hi Hn Hwi Hu Hwn Hs Hc.
  assert (Hlook : forall q n, heap f !! q = Some n -> q = p /\ n = root_node).
  { intros q n. rewrite Hh. intros [<- <-]%lookup_singleton_Some. done. }
  constructor; rewrite ?Hn, ?Hc; try done.
  - intros q. rewrite Hi, list_elem_of_singleton, Hh. split.
    + intros ->. rewrite lookup_singleton_eq. eauto.
    + intros [n Hq]. rewrite <- Hh in Hq. by destruct (Hlook q n Hq).
  - by rewrite Hu, (Permutation_length Hi).
  - intros q q' n m Hq Hq' _. destruct (Hlook _ _ Hq), (Hlook _ _ Hq'). congruence.
  - intros q q' n m Hq. by apply not_elem_of_nil in Hq.
  - intros q n Hq. destruct (Hlook _ _ Hq) as [-> ->]. unfold refs, children. by rewrite Hn.
  - intros q n Hq. destruct (Hlook _ _ Hq) as [-> ->]. split; try done.
    + by right.
    + rewrite Hn. intros _. split; [done|]. apply not_elem_of_nil.
  - exists p, root_node. by rewrite Hh, lookup_singleton_eq.
  - by rewrite Hh, dom_singleton_L.
Qed.

(** A state without nodes. *)
Record empty_state (f : fuse) : Prop := mk_empty_state {
  es_heap : heap f = ∅;
  es_id : forall key, table_wf key (id_table f);
  es_ids : ids f = [];
  es_iduse : tuse (id_table f) = 0;
  es_name : forall key, table_wf key (name_table f);
  es_names : names f = [];
  es_nameuse : tuse (name_table f) = 0;
  es_ctr : ctr f = 0;
  es_slabs : Slab.wf (remember (conf f)) (slabs f) ∅;
}.

Lemma fuse_new_root_runs f : empty_state f -> Slab.mmap_ok (slabs f) ->
  runs (fuse_new_root true) f (fun ok f' =>
    (ok = true -> fuse_wf f' /\ exists p, heap f' = {[p := root_node]})).
Proof.
  intros [E1 E2 E3 E4 E5 E6 E7 E8 E9] Hm. unfold fuse_new_root.
  eapply runs_bind; [apply (fuse_alloc_node_runs f); [by rewrite E1|done]|].
  simpl. intros p f1 [(-> & ->)|(Hp & Hpos & s & Hs & ->)]; [by apply runs_ret|].
  destruct (Z.eqb_spec p NULL); [unfold NULL in *; lia|].
  unfold update, load, store. msteps. rewrite lookup_insert_eq. msteps.
  rewrite andb_false_r. msteps. rewrite insert_insert_eq, lookup_insert_eq. msteps.
  rewrite insert_insert_eq. set (n1 := set_nodeid _ _). set (f2 := set_heap _ _).
  assert (Hp2 : heap f2 !! p = Some n1) by apply lookup_insert_eq.
  eapply runs_bind with (P := fun _ f' => f' = set_heap (<[p := root_node]> (heap f2)) f2).
  { eexists _, _. split; [by apply (inc_nlookup_eq f2 p n1)|done]. }
  simpl. intros _ f' ->. rewrite insert_insert_eq.
  set (f3 := set_heap _ f2).
  assert (Hp3 : heap f3 !! p = Some root_node) by apply lookup_insert_eq.
  eapply runs_bind; [apply (hash_id_runs f3 p root_node (E2 _) Hp3)|].
  { change (ids f3) with (ids f). rewrite E3. apply not_elem_of_nil. }
  simpl. intros _ f' (t & a & -> & Hw & Hmt & Hu). apply runs_ret. intros _.
  change (ids f3) with (ids f) in Hmt. rewrite E3 in Hmt. rewrite E4 in Hu.
  set (f4 := set_allocs a _).
  assert (Hh4 : heap f4 = {[p := root_node]}).
  { change (heap f4) with (<[p := root_node]> (heap f)). by rewrite E1. }
  assert (Hn4 : names f4 = []) by exact E6.
  split; [|by exists p]. constructor.
  - apply (root_graph_wf f4 p); try done.
    rewrite E1, dom_empty_L, union_empty_r_L in Hs. exact Hs.
  - unfold slack. rewrite Hn4. change (name_table f4) with (name_table f). by rewrite E7.
  - intros q m Hq. rewrite Hh4 in Hq. by apply lookup_singleton_Some in Hq as [_ <-].
  - intros q m Hq _. rewrite Hh4 in Hq. apply lookup_singleton_Some in Hq as [_ <-]. by right.
Qed.

Lemma fuse_new_state_empty k cf mm al now : 0 <= k ->
  Slab.sizeof_node_slab + Slab.get_node_size (remember cf) <= 2 ^ k ->
  empty_state (fuse_new_state (2 ^ k) cf mm al now).
Proof.
  intros Hk Hroom. split; try done; try (intros key; apply node_table_init_wf);
    try apply (node_table_init_wf (fun _ => None)).
  by apply Slab.slabs_init_wf.
Qed.

(** ** The properties *)

(** C11: [fuse_new_31] leaves a state that satisfies the invariant of the node graph,
    with the root as its only node. *)
Theorem fuse_new_establishes k cf mm al now : 0 <= k ->
  Slab.sizeof_node_slab + Slab.get_node_size (remember cf) <= 2 ^ k ->
  Slab.mmap_ok (slabs (fuse_new_state (2 ^ k) cf mm al now)) ->
  runs (fuse_new_root true) (fuse_new_state (2 ^ k) cf mm al now) (fun ok f' =>
    ok = true -> fuse_wf f' /\ exists p, heap f' = {[p := root_node]}).
Proof.
  intros Hk Hroom Hm. apply fuse_new_root_runs; [by apply fuse_new_state_empty|exact Hm].
Qed.

(** C9: Both hash tables answer exactly for the nodes of the graph.  [lookup_node]
    returns the node with the given parent and name, [get_node_nocheck] the node with
    the given id, each [NULL] exactly when there is none; the answer is unique, and
    neither changes the state. *)
Theorem lookups_correct f : fuse_wf f ->
  (forall par s, exists p, lookup_node par s f = Ok (p, f) /\
     ((p = NULL /\ forall q, ~ has_name f par s q) \/
      (has_name f par s p /\ forall q, has_name f par s q -> q = p))) /\
  (forall id, exists p, get_node_nocheck id f = Ok (p, f) /\
     ((p = NULL /\ forall q, ~ has_id f id q) \/
      (has_id f id p /\ forall q, has_id f id q -> q = p))).
Proof.
  intros Hw. pose proof (fw_graph f Hw) as Hg. split.
  - intros par s. destruct (lookup_node_spec f par s (gw_name _ _ Hg)) as [[? ?]|(p & ? & ?)];
      eexists; (split; [done|]); [by left|right; split; [done|]].
    intros q Hq. by eapply has_name_inj.
  - intros id. destruct (get_node_nocheck_spec f id (graph_ids_wf _ _ Hg)) as [[? ?]|(p & ? & ?)];
      eexists; (split; [done|]); [by left|right; split; [done|]].
    intros q Hq. by eapply has_id_inj.
Qed.

(** C10: [next_id] returns, and what it returns is neither 0, nor the reserved unknown
    inode, nor the id of a node that is alive, also after the counter has wrapped
    around; nothing but the counter and the generation changes. *)
Theorem next_id_fresh f : fuse_wf f -> Z.of_nat (length (ids f)) + 3 <= 2 ^ 32 ->
  runs next_id f (fun id f' => fresh_id f id /\ id_drawn f id f').
Proof.
  intros Hw Hlen. pose proof (fw_graph f Hw) as Hg.
  apply next_id_runs; [by eapply graph_ids_wf|by eapply NULL_not_live|apply (gw_ctr _ _ Hg)|done].
Qed.

(** C1: [find_node] keeps the invariant.  For a name that is there it returns that
    node with one more lookup; else it makes a node with a fresh id and one lookup
    below the parent, which counts it, or fails for lack of memory and leaves the
    nodes as they were. *)
Theorem find_node_correct f par nm pp pn : fuse_wf f -> Slab.mmap_ok (slabs f) ->
  Z.of_nat (length (ids f)) + 3 <= 2 ^ 32 ->
  (forall q n, heap f !! q = Some n -> nlookup n < 2 ^ 64 - 1) ->
  heap f !! pp = Some pn -> nodeid pn = par ->
  runs (find_node par (Some nm)) f (fun r f' => fuse_wf f' /\
    ((exists n, has_name f par nm r /\ heap f !! r = Some n /\
        heap f' = <[r := looked n]> (heap f)) \/
     ((forall q, ~ has_name f par nm q) /\
      ((r = NULL /\ heap f' = heap f) \/ node_made f pp pn nm r f')))).
Proof.
  intros Hw Hm Hlen Hnl Hpp Hpar. pose proof (fw_graph f Hw) as Hg.
  destruct (lookup_node_spec f par nm (gw_name _ _ Hg)) as [[Hl Hno]|(p & Hl & Hp)].
  - eapply runs_mono; [by apply (find_node_miss f pp pn par nm)|]. simpl. intros r f' [? ?]. auto.
  - destruct Hp as (n & pm & Hin & Hn & Hp').
    assert (p <> NULL) by (intros ->; pose proof (NULL_not_live _ _ Hg); congruence).
    eapply runs_mono; [by apply (find_node_hit f par nm p n)|]. simpl.
    intros r f' (-> & l & ->). split; [apply fuse_wf_looked; eauto|].
    left. exists n. split; [|done]. exists n, pm. done.
Qed.

(** ** The theorems at work *)
Definition conf0 : fuse_config :=
  let one := QArith_base.inject_Z 1 in
  mk_config false 0 false 0 false 0 one (QArith_base.inject_Z 0) one false 10 0
    false false false false false false false false one false false false.

Definition sample : fuse :=
  match fuse_new_root true (fuse_new_state (2 ^ 12) conf0 [65536] [] time0) with
  | Ok (_, f) => f
  | Crash _ => fuse_new_state (2 ^ 12) conf0 [] [] time0
  end.

Lemma sample_mmap : Slab.mmap_ok (slabs (fuse_new_state (2 ^ 12) conf0 [65536] [] time0)).
Proof. intros a rest [= <- <-]. split; [done|]. by exists 16. Qed.

Lemma sample_run : fuse_new_root true (fuse_new_state (2 ^ 12) conf0 [65536] [] time0) =
  Ok (true, sample).
Proof. vm_compute. reflexivity. Qed.

Lemma sample_wf : fuse_wf sample /\ exists p, heap sample = {[p := root_node]}.
Proof.
  assert (He : empty_state (fuse_new_state (2 ^ 12) conf0 [65536] [] time0))
    by (apply fuse_new_state_empty; [lia|vm_compute; discriminate]).
  by apply (runs_det _ _ _ _ _ (fuse_new_root_runs _ He sample_mmap) sample_run).
Qed.

Lemma sample_heap : heap sample = {[65680 := root_node]}.
Proof. vm_compute. reflexivity. Qed.

Lemma sample_ids : length (ids sample) = 1%nat.
Proof. vm_compute. reflexivity. Qed.

Lemma fuse_new_establishes_witness :
  runs (fuse_new_root true) (fuse_new_state (2 ^ 12) conf0 [65536] [] time0) (fun ok f' =>
    ok = true -> fuse_wf f' /\ exists p, heap f' = {[p := root_node]}).
Proof.
  apply fuse_new_establishes; [lia|vm_compute; discriminate|exact sample_mmap].
Defined.

Lemma lookups_correct_witness : exists p, lookup_node 1 "a" sample = Ok (p, sample) /\
  ((p = NULL /\ forall q, ~ has_name sample 1 "a" q) \/
   (has_name sample 1 "a" p /\ forall q, has_name sample 1 "a" q -> q = p)).
Proof. apply (proj1 (lookups_correct sample (proj1 sample_wf))). Defined.

Lemma next_id_fresh_witness :
  runs next_id sample (fun id f' => fresh_id sample id /\ id_drawn sample id f').
Proof.
  apply next_id_fresh; [exact (proj1 sample_wf)|]. rewrite sample_ids. lia.
Defined.

Lemma find_node_correct_witness :
  runs (find_node 1 (Some "a"%string)) sample (fun r f' => fuse_wf f' /\
    ((exists n, has_name sample 1 "a" r /\ heap sample !! r = Some n /\
        heap f' = <[r := looked n]> (heap sample)) \/
     ((forall q, ~ has_name sample 1 "a" q) /\
      ((r = NULL /\ heap f' = heap sample) \/ node_made sample 65680 root_node "a" r f')))).
Proof.
  apply find_node_correct.
  - exact (proj1 sample_wf).
  - intros a rest Ha. vm_compute in Ha. discriminate.
  - rewrite sample_ids. lia.
  - intros q n Hq. rewrite sample_heap in Hq. apply lookup_singleton_Some in Hq as [_ <-].
    vm_compute. reflexivity.
  - rewrite sample_heap. apply lookup_singleton_eq.
  - reflexivity.
Defined.

(** The same state with a file [a] below the root. *)
Definition sample2 : fuse :=
  match find_node 1 (Some "a"%string) sample with Ok (_, f) => f | Crash _ => sample end.

Definition node_a : node :=
  looked (set_parent 65680 (set_name (Some "a"%string) (made 0 2 false))).

Lemma sample2_heap : heap sample2 = <[65832 := node_a]> {[65680 := set_refctr 2 root_node]}.
Proof. vm_compute. reflexivity. Qed.

Lemma sample2_names : names sample2 = [65832].
Proof. vm_compute. reflexivity. Qed.

Lemma sample2_node : heap sample2 !! (65832 : ptr) = Some node_a.
Proof. rewrite sample2_heap. apply lookup_insert_eq. Qed.

Lemma sample2_root : heap sample2 !! (65680 : ptr) = Some (set_refctr 2 root_node).
Proof. rewrite sample2_heap. by rewrite lookup_insert_ne, lookup_singleton_eq. Qed.

Lemma sample2_wf : fuse_wf sample2.
Proof.
  assert (He : find_node 1 (Some "a"%string) sample = Ok (65832, sample2)) by (vm_compute; reflexivity).
  enough (Hr : runs (find_node 1 (Some "a"%string)) sample (fun r f' => fuse_wf f' /\
    ((r = NULL /\ heap f' = heap sample) \/ node_made sample 65680 root_node "a" r f')))
    by (apply (runs_det _ _ _ _ _ Hr He)).
  apply find_node_miss.
  - apply (proj1 sample_wf).
  - intros a rest Ha. vm_compute in Ha. discriminate.
  - rewrite sample_ids. lia.
  - rewrite sample_heap. apply lookup_singleton_eq.
  - reflexivity.
  - assert (Hn : names sample = []) by (vm_compute; reflexivity).
    intros q (n & pn & Hq & _). rewrite Hn in Hq. by apply not_elem_of_nil in Hq.
  - vm_compute. reflexivity.
Qed.
