(* ===== verification/Path.v ===== *)
(** * Paths and path locks (lib/fuse.c, 972-1593)

    Building the path of a node while read-locking its ancestors, write-locking
    the node a name stands for, the queue of waiting requests, and the operations
    that move and forget nodes. *)
From S2P Require Import Prelude Slab PosixLock Types NodeTable.
#[local] Open Scope Z_scope.

(** ** Looking a path up in the cache *)

Definition slash : Ascii.ascii := Ascii.ascii_of_nat 47.

(** The tokens [strtok_r(_, "/", _)] returns one after the other; [cur] is the
    token being read. *)
Fixpoint tokens (cur s : string) : list string :=
  match s with
  | EmptyString => if String.eqb cur "" then [] else [cur]
  | String c s =>
    if Ascii.eqb c slash
    then if String.eqb cur "" then tokens "" s else cur :: tokens "" s
    else tokens (cur +:+ String c "") s
  end.

Fixpoint lookup_tokens (ino : Z) (l : list string) : F (Z * Z) :=
  match l with
  | [] => mret (0, ino)
  | s :: l =>
    p ← lookup_node ino s;
    if p =? NULL then mret (- ENOENT, ino)
    else n ← load p; lookup_tokens (nodeid n) l
  end.

(** Returns the error and the inode number. *)
Definition lookup_path_in_cache (path : string) : F (Z * option Z) :=
  ok ← malloc;
  if negb ok then mret (- ENOMEM, None)
  else
    '(err, ino) ← lookup_tokens FUSE_ROOT_ID (tokens "" path);
    mret (err, if err =? 0 then Some ino else None).

(** ** The path buffer

    The path is built from its end: [spos] is the offset of [s] in a buffer of
    [bufsize] bytes and [text] the string from [s] to the final NUL. *)
Record pathbuf : Type := mk_buf {
  bufsize : Z;
  spos : Z;
  text : string;
}.

Definition add_name (b : pathbuf) (nm : string) : F (option pathbuf) :=
  let len := strlen nm in
  let put (size pos : Z) : F (option pathbuf) :=
    mret (Some (mk_buf size (pos - len - 1) ("/" +:+ nm +:+ text b))) in
  if spos b - len <=? 0 then
    let pathlen := u32 (bufsize b - spos b) in
    newbufsize ← liftM (grow grow_fuel (bufsize b) (pathlen + len + 1));
    ok ← malloc;
    if negb ok then mret None else put newbufsize (newbufsize - pathlen)
  else put (bufsize b) (spos b).

(** ** Path locks *)

(** The [for] loop of [unlock_path], from [node] up to [end_] or the root. *)
Fixpoint unlock_loop (fuel : nat) (p end_ : ptr) : F unit :=
  match fuel with
  | O => crashM OutOfFuel
  | S fuel =>
    if p =? end_ then mret tt
    else
      n ← load p;
      if nodeid n =? FUSE_ROOT_ID then mret tt
      else
        assertM (negb (treelock n =? 0));;
        assertM (negb (treelock n =? TREELOCK_WAIT_OFFSET));;
        assertM (negb (treelock n =? TREELOCK_WRITE));;
        let t := treelock n - 1 in
        update p (set_treelock (if t =? TREELOCK_WAIT_OFFSET then 0 else t));;
        unlock_loop fuel (parent n) end_
  end.

Definition unlock_path (id : Z) (wnode end_ : ptr) : F unit :=
  (if negb (wnode =? NULL) then
     w ← load wnode;
     assertM (treelock w =? TREELOCK_WRITE);;
     update wnode (set_treelock 0)
   else mret tt);;
  p ← get_node id;
  f ← getM;
  unlock_loop (tree_fuel f) p end_.

(** The outcome of the [for] loop of [try_get_path]: the finished buffer, or the
    error and the node where the loop was left. *)
Inductive walked : Type :=
| Reached (b : pathbuf)
| Left (err : Z) (at_ : ptr).

Fixpoint walk_up (fuel : nat) (need_lock : bool) (p : ptr) (b : pathbuf) : F walked :=
  match fuel with
  | O => crashM OutOfFuel
  | S fuel =>
    n ← load p;
    if nodeid n =? FUSE_ROOT_ID then mret (Reached b)
    else
      match name n with
      | None => mret (Left (- ESTALE) p)
      | Some s =>
        if parent n =? NULL then mret (Left (- ESTALE) p)
        else
          b' ← add_name b s;
          match b' with
          | None => mret (Left (- ENOMEM) p)
          | Some b' =>
            if need_lock then
              if treelock n <? 0 then mret (Left (- EAGAIN) p)
              else
                update p (set_treelock (treelock n + 1));;
                walk_up fuel need_lock (parent n) b'
            else walk_up fuel need_lock (parent n) b'
          end
      end
  end.

(** Write-locks the node [(id, name)] stands for, if there is one: the error, and
    the node.  A node read-locked by others is marked as waited for. *)
Definition lock_wnode (id : Z) (nm : option string) : F (Z * ptr) :=
  s ← derefM nm;
  w ← lookup_node id s;
  if w =? NULL then mret (0, NULL)
  else
    n ← load w;
    if negb (treelock n =? 0) then
      (if 0 <? treelock n
       then update w (set_treelock (treelock n + TREELOCK_WAIT_OFFSET))
       else mret tt);;
      mret (- EAGAIN, w)
    else
      update w (set_treelock TREELOCK_WRITE);; mret (0, w).

(** Returns the error, [*path] and [*wnodep]; [want_w] is [wnodep != NULL]. *)
Definition try_get_path (id : Z) (nm : option string) (want_w need_lock : bool)
    : F (Z * option string * ptr) :=
  ok ← malloc;
  if negb ok then mret (- ENOMEM, None, NULL)
  else
    b ← (match nm with
         | None => mret (Some (mk_buf 256 255 ""))
         | Some s => add_name (mk_buf 256 255 "") s
         end);
    match b with
    | None => mret (- ENOMEM, None, NULL)
    | Some b =>
      '(err, w) ← (if want_w then assertM need_lock;; lock_wnode id nm
                   else mret (0, NULL));
      if negb (err =? 0) then mret (err, None, NULL)
      else
        p ← get_node id;
        f ← getM;
        r ← walk_up (tree_fuel f) need_lock p b;
        match r with
        | Reached b =>
          mret (0, Some (if String.eqb (text b) "" then "/"%string else text b), w)
        | Left err at_ =>
          (if need_lock then unlock_path id w at_ else mret tt);;
          mret (err, None, NULL)
        end
    end.

(** Returns the error, the two paths and the two write-locked nodes. *)
Definition try_get_path2 (id1 : Z) (nm1 : option string) (id2 : Z)
    (nm2 : option string) (want_w1 want_w2 : bool)
    : F (Z * option string * option string * ptr * ptr) :=
  '(err, p1, w1) ← try_get_path id1 nm1 want_w1 true;
  if negb (err =? 0) then mret (err, p1, None, w1, NULL)
  else
    '(err, p2, w2) ← try_get_path id2 nm2 want_w2 true;
    if negb (err =? 0) then
      unlock_path id1 (if want_w1 then w1 else NULL) NULL;;
      mret (err, None, p2, NULL, w2)
    else mret (0, p1, p2, w1, w2).

(** ** The queue of waiting requests *)

Definition queue_element_wakeup (qe : lock_queue_element) : F lock_queue_element :=
  if negb (path1 qe) then
    p ← get_node (nodeid1 qe);
    n ← load p;
    mret (if treelock n =? 0 then set_signalled true qe else qe)
  else if qdone qe then mret qe
  else
    '(err, p1, p2, w1, w2) ←
      (if negb (path2 qe) then
         '(err, p1, w1) ← try_get_path (nodeid1 qe) (name1 qe) (wnode1 qe) true;
         mret (err, p1, None, w1, NULL)
       else
         try_get_path2 (nodeid1 qe) (name1 qe) (nodeid2 qe) (name2 qe)
           (wnode1 qe) (wnode2 qe));
    if err =? - EAGAIN then mret qe
    else
      mret (mk_qe (nodeid1 qe) (name1 qe) (path1 qe) (wnode1 qe) (nodeid2 qe)
              (name2 qe) (path2 qe) (wnode2 qe) err true true p1 w1 p2 w2).

Fixpoint wake_loop (q : list (positive * lock_queue_element))
    : F (list (positive * lock_queue_element)) :=
  match q with
  | [] => mret []
  | (i, qe) :: q =>
    qe ← queue_element_wakeup qe;
    q ← wake_loop q;
    mret ((i, qe) :: q)
  end.

Definition wake_up_queued : F unit :=
  f ← getM;
  q ← wake_loop (lockq f);
  modifyM (set_lockq q).

(** An identity no queued element has. *)
Definition fresh_qe (q : list (positive * lock_queue_element)) : positive :=
  Pos.succ (foldr (fun x m => Pos.max (fst x) m) 1%positive q).

Definition queue_path (qe : lock_queue_element) : F positive :=
  f ← getM;
  let i := fresh_qe (lockq f) in
  modifyM (set_lockq (lockq f ++ [(i, set_qdone false (set_signalled false qe))]));;
  mret i.

Fixpoint qe_of (i : positive) (q : list (positive * lock_queue_element))
    : option lock_queue_element :=
  match q with
  | [] => None
  | (j, qe) :: q => if bool_decide (i = j) then Some qe else qe_of i q
  end.

Definition dequeue_path (i : positive) : F unit :=
  f ← getM;
  derefM (qe_of i (lockq f));;
  modifyM (set_lockq (filter (fun x => x.1 <> i) (lockq f))).

(** [pthread_cond_wait] of the element [i]: a thread that nobody has signalled
    sleeps. *)
Definition cond_wait (i : positive) : F lock_queue_element :=
  f ← getM;
  qe ← derefM (qe_of i (lockq f));
  if signalled qe then mret qe else crashM Block.

Definition wait_path (qe : lock_queue_element) : F lock_queue_element :=
  i ← queue_path qe;
  qe ← cond_wait i;
  if negb (qdone qe) then crashM Block
  else dequeue_path i;; mret qe.

Definition qe_path (id : Z) (nm : option string) (want_w : bool) : lock_queue_element :=
  mk_qe id nm true want_w 0 None false false 0 false false None NULL None NULL.

Definition get_path_common (id : Z) (nm : option string) (want_w : bool)
    : F (Z * option string * ptr) :=
  '(err, path, w) ← try_get_path id nm want_w true;
  if err =? - EAGAIN then
    qe ← wait_path (qe_path id nm want_w);
    mret (qerr qe, out_path1 qe, out_wnode1 qe)
  else mret (err, path, w).

Definition get_path (id : Z) : F (Z * option string) :=
  '(err, path, _) ← get_path_common id None false; mret (err, path).

Definition get_path_nullok (id : Z) : F (Z * option string) :=
  f ← getM;
  if nullpath_ok (conf f) then mret (0, None)
  else
    '(err, path, _) ← get_path_common id None false;
    mret (if err =? - ESTALE then 0 else err, path).

Definition get_path_name (id : Z) (nm : option string) : F (Z * option string) :=
  '(err, path, _) ← get_path_common id nm false; mret (err, path).

Definition get_path_wrlock (id : Z) (nm : option string)
    : F (Z * option string * ptr) := get_path_common id nm true.

Definition qe_path2 (id1 : Z) (nm1 : option string) (id2 : Z) (nm2 : option string)
    (want_w1 want_w2 : bool) : lock_queue_element :=
  mk_qe id1 nm1 true want_w1 id2 nm2 true want_w2 0 false false None NULL None NULL.

(** Built for Linux, where [CHECK_DIR_LOOP] is not defined. *)
Definition get_path2 (id1 : Z) (nm1 : option string) (id2 : Z) (nm2 : option string)
    (want_w1 want_w2 : bool)
    : F (Z * option string * option string * ptr * ptr) :=
  '(err, p1, p2, w1, w2) ← try_get_path2 id1 nm1 id2 nm2 want_w1 want_w2;
  if err =? - EAGAIN then
    qe ← wait_path (qe_path2 id1 nm1 id2 nm2 want_w1 want_w2);
    mret (qerr qe, out_path1 qe, out_path2 qe, out_wnode1 qe, out_wnode2 qe)
  else mret (err, p1, p2, w1, w2).

Definition free_path_wrlock (id : Z) (wnode : ptr) : F unit :=
  unlock_path id wnode NULL;;
  f ← getM;
  if bool_decide (lockq f = []) then mret tt else wake_up_queued.

Definition free_path (id : Z) (path : option string) : F unit :=
  match path with
  | Some _ => free_path_wrlock id NULL
  | None => mret tt
  end.

Definition free_path2 (id1 id2 : Z) (wnode1 wnode2 : ptr) : F unit :=
  unlock_path id1 wnode1 NULL;;
  unlock_path id2 wnode2 NULL;;
  wake_up_queued.

(** ** Forgetting, unlinking and moving nodes *)

Definition qe_forget (id : Z) : lock_queue_element :=
  mk_qe id None false false 0 None false false 0 false false None NULL None NULL.

(** Drops [n] lookups; a locked node about to be forgotten is waited for. *)
Definition forget_node (id : Z) (n : Z) : F unit :=
  if id =? FUSE_ROOT_ID then mret tt
  else
    p ← get_node id;
    nd ← load p;
    (if (nlookup nd =? n) && negb (treelock nd =? 0) then
       i ← queue_path (qe_forget id);
       cond_wait i;;
       nd ← load p;
       if (nlookup nd =? n) && negb (treelock nd =? 0) then crashM Block
       else dequeue_path i
     else mret tt);;
    nd ← load p;
    assertM (n <=? nlookup nd);;
    update p (set_nlookup (nlookup nd - n));;
    f ← getM;
    if nlookup nd - n =? 0 then unref_node p
    else if lru_enabled f && (nlookup nd - n =? 1) then set_forget_time p
    else mret tt.

Definition unlink_node (p : ptr) : F unit :=
  f ← getM;
  (if negb (remember (conf f) =? 0) then
     n ← load p;
     assertM (1 <? nlookup n);;
     update p (set_nlookup (nlookup n - 1))
   else mret tt);;
  unhash_name p.

Definition remove_node (dir : Z) (nm : string) : F unit :=
  p ← lookup_node dir nm;
  if p =? NULL then mret tt else unlink_node p.

Definition rename_node (olddir : Z) (oldname : string) (newdir : Z) (newname : string)
    (hide : bool) : F Z :=
  p ← lookup_node olddir oldname;
  newnode ← lookup_node newdir newname;
  if p =? NULL then mret 0
  else if negb (newnode =? NULL) && hide then mret (- EBUSY)
  else
    (if negb (newnode =? NULL) then unlink_node newnode else mret tt);;
    unhash_name p;;
    res ← hash_name p newdir newname;
    if res =? -1 then mret (- ENOMEM)
    else
      (if hide then update p (set_is_hidden true) else mret tt);;
      mret 0.

Definition exchange_node (olddir : Z) (oldname : string) (newdir : Z)
    (newname : string) : F Z :=
  oldnode ← lookup_node olddir oldname;
  newnode ← lookup_node newdir newname;
  (if negb (oldnode =? NULL) then unhash_name oldnode else mret tt);;
  (if negb (newnode =? NULL) then unhash_name newnode else mret tt);;
  res ← (if negb (oldnode =? NULL) then hash_name oldnode newdir newname else mret 0);
  if res =? -1 then mret (- ENOMEM)
  else
    res ← (if negb (newnode =? NULL) then hash_name newnode olddir oldname
           else mret 0);
    if res =? -1 then mret (- ENOMEM) else mret 0.
