(* ===== verification/MoveFacts.v ===== *)
(** * Forgetting, unlinking and moving nodes

    [forget_node], [remove_node] and [rename_node] keep the invariant of the node
    graph, and what they change in it. *)
From S2P Require Import Prelude Slab PosixLock Types NodeTable TableFacts.
From S2P Require Import GraphFacts LookupFacts Path.
#[local] Open Scope Z_scope.

(** ** Forgetting *)
Definition one_ref (p : ptr) : ptr -> Z := plus_ref (fun _ => 0) p.

Lemma fuse_wf_update f f' p n n' : fuse_wf f -> heap f !! p = Some n ->
  heap f' = <[p := n']> (heap f) -> names f' = names f -> slack f' = slack f ->
  0 < refctr n' -> name n' = name n -> nodeid n' = nodeid n ->
  graph_wf (fun _ => 0) f' -> fuse_wf f'.
Proof.
  intros Hw Hp Hh Hn Hs Hr Hname Hid Hg.
  constructor; [done|rewrite Hs; apply (fw_slack _ Hw)|..]; rewrite Hh.
  - intros q m [[<- <-]|[_ Hq]]%lookup_insert_Some; [done|by apply (fw_pos _ Hw q)].
  - intros q m [[<- <-]|[_ Hq]]%lookup_insert_Some; rewrite Hn; [|by apply (fw_linked _ Hw)].
    rewrite Hname. unfold is_root. rewrite Hid. by apply (fw_linked _ Hw p n).
Qed.

(** The last lookup of a node turns into a pending reference. *)
Lemma last_lookup_wf f p n : fuse_wf f -> heap f !! p = Some n -> ~ is_root n ->
  0 < nlookup n -> treelock n = 0 ->
  graph_wf (one_ref p) (set_heap (<[p := set_nlookup 0 n]> (heap f)) f).
Proof.
  intros Hw Hp Hroot Hnl Htl. pose proof (fw_graph _ Hw) as Hg.
  apply (graph_wf_update (fun _ => 0) _ f p n); try done; unfold one_ref, plus_ref.
  - intros q Hq. by rewrite decide_False.
  - by rewrite decide_True.
  - unfold refs. simpl. rewrite (gw_refs _ _ Hg p n Hp), decide_True by done. unfold refs.
    rewrite (proj2 (Z.ltb_lt _ _) Hnl). simpl. lia.
  - destruct (gw_nodes _ _ Hg p n Hp) as [? ? ? ? ?]. split; try done.
    simpl. intros Hname _. left. by destruct (fw_linked _ Hw p n Hp Hname).
Qed.

Lemma fewer_lookups_wf f p n v t : fuse_wf f -> heap f !! p = Some n ->
  0 < nlookup n -> 0 < v <= nlookup n ->
  graph_wf (fun _ => 0) (set_heap (<[p := Types.set_forget_time t (set_nlookup v n)]> (heap f)) f).
Proof.
  intros Hw Hp Hnl Hv. pose proof (fw_graph _ Hw) as Hg.
  apply (graph_wf_update (fun _ => 0) _ f p n); try done.
  - unfold refs. simpl. rewrite (gw_refs _ _ Hg p n Hp). unfold refs.
    by rewrite !(proj2 (Z.ltb_lt _ _)) by lia.
  - destruct (gw_nodes _ _ Hg p n Hp) as [? ? ? ? H5]. split; simpl; try done; try lia.
    intros Hr. destruct (H5 Hr). split; [lia|done].
Qed.

(** A state that differs from a well-formed one in the LRU list alone. *)
Lemma fuse_wf_lru f l : fuse_wf f -> fuse_wf (set_lru_table l f).
Proof.
  intros Hw. pose proof (fw_graph _ Hw) as Hg. apply (fuse_wf_same f); try done.
  apply (graph_wf_same _ f _ Hg); [split; try done|..].
  - apply (gw_slabs _ _ Hg).
  - apply (gw_ctr _ _ Hg).
  - apply (gw_id _ _ Hg).
  - done.
  - apply (gw_name _ _ Hg).
Qed.

Lemma released_children f f' p : released f f' -> NoDup (names f) -> NoDup (names f') ->
  children f' p <= children f p.
Proof.
  intros [_ Hn Hna _ _ _] Hnd Hnd'. unfold children. apply inj_le, submseteq_length, NoDup_submseteq.
  { by apply NoDup_filter. }
  intros q [Hc Hq]%list_elem_of_filter. apply list_elem_of_filter.
  apply Hna in Hq as [Hq [m' Hm']]. split; [|done].
  destruct (Hn q m' Hm') as (m & Hm & He & _). unfold child_of in *. rewrite Hm' in Hc. rewrite Hm.
  simpl in *. rewrite He in Hc. exact Hc.
Qed.

Lemma unref_node_held f p n : heap f !! p = Some n -> 1 < refctr n ->
  unref_node p f = Ok (tt, set_heap (<[p := set_refctr (refctr n - 1) n]> (heap f)) f).
Proof.
  intros Hp Hr. unfold unref_node, tree_fuel, unref_node_loop, update, load, store, mbind, M_bind, getM.
  simpl. rewrite Hp. simpl. rewrite (proj2 (Z.ltb_lt 0 (refctr n))) by lia. simpl.
  rewrite Hp. simpl. destruct (Z.eqb_spec (refctr n - 1) 0); [lia|done].
Qed.

Lemma get_node_of f p n : fuse_wf f -> heap f !! p = Some n -> get_node (nodeid n) f = Ok (p, f).
Proof.
  intros Hw Hp. pose proof (fw_graph _ Hw) as Hg.
  assert (Hid : has_id f (nodeid n) p) by (exists n; split_and!; [apply (gw_ids _ _ Hg); eauto|done..]).
  apply get_node_runs; [by eapply graph_ids_wf|done|by eapply NULL_not_live|].
  intros q Hq. by eapply has_id_inj.
Qed.

(** C2: [forget_node] of an unlocked node keeps the invariant.  While lookups remain
    it only lowers the count (and stamps the node for the LRU list); when it takes the
    last one away, a node without children is freed, with every ancestor that loses its
    last reference, and a node with children stays; all the others are unchanged up to
    their reference counts. *)
Theorem forget_node_correct f p n k : fuse_wf f -> heap f !! p = Some n -> ~ is_root n ->
  0 < k <= nlookup n -> treelock n = 0 ->
  runs (forget_node (nodeid n) k) f (fun _ f' => fuse_wf f' /\
    (k < nlookup n -> exists t, heap f' =
       <[p := Types.set_forget_time t (set_nlookup (nlookup n - k) n)]> (heap f)) /\
    (k = nlookup n ->
       released (set_heap (<[p := set_nlookup 0 n]> (heap f)) f) f' /\
       (children f p = 0 -> heap f' !! p = None) /\
       (0 < children f p -> is_Some (heap f' !! p)))).
Proof.
  intros Hw Hp Hroot Hk Htl. pose proof (fw_graph _ Hw) as Hg.
  unfold forget_node. destruct (Z.eqb_spec (nodeid n) FUSE_ROOT_ID); [done|].
  apply runs_bind with (P := fun r f' => r = p /\ f' = f).
  { exists p, f. split; [by apply get_node_of|done]. }
  intros r f' [-> ->]. nstep. rewrite Htl, andb_false_r. nsteps.
  apply runs_assert_bind; [apply Z.leb_le; lia|]. nsteps.
  destruct (Z.eqb_spec (nlookup n - k) 0) as [H0|H0].
  - replace (nlookup n - k) with 0 by lia.
    set (f1 := set_heap _ f).
    assert (Hg1 : graph_wf (one_ref p) f1) by (apply last_lookup_wf; [done..|lia|done]).
    assert (Hp1 : heap f1 !! p = Some (set_nlookup 0 n)) by apply lookup_insert_eq.
    destruct (unref_node_runs _ f1 p _ Hg1 Hp1) as ([] & f' & Hrun & Hg' & Hrel).
    { unfold one_ref, plus_ref. rewrite decide_True by done. lia. }
    assert (Hheld : 1 < refctr n -> is_Some (heap f' !! p)).
    { intros Hr. rewrite (unref_node_held f1 p _ Hp1 Hr) in Hrun. injection Hrun as <-.
      simpl. rewrite lookup_insert_eq. eauto. }
    exists tt, f'. split; [exact Hrun|].
    assert (Hg0 : graph_wf (fun _ => 0) f').
    { eapply graph_wf_ext; [|exact Hg']. intros q. unfold one_ref. by rewrite minus_plus_ref. }
    assert (Hw' : fuse_wf f').
    { apply (fuse_wf_released f1); try done; [apply (fw_slack _ Hw)|..]; simpl.
      - intros q m [[<- <-]|[_ Hq]]%lookup_insert_Some; [by apply (fw_pos _ Hw p n)|by apply (fw_pos _ Hw q)].
      - intros q m [[<- <-]|[_ Hq]]%lookup_insert_Some;
          [by apply (fw_linked _ Hw p n)|by apply (fw_linked _ Hw q)]. }
    split; [done|]. split; [lia|]. intros _. split; [done|].
    pose proof (released_children f1 f' p Hrel (tw_nodup _ _ (gw_name _ _ Hg1))
      (tw_nodup _ _ (gw_name _ _ Hg0))) as Hch.
    assert (children f1 p = children f p) as Hc1.
    { apply (same_place_children f p p n (set_nlookup 0 n)); [done|]. by split. }
    split.
    + intros Hc. destruct (heap f' !! p) as [n'|] eqn:Hp'; [exfalso|done].
      pose proof (fw_pos _ Hw' p n' Hp'). pose proof (gw_refs _ _ Hg0 p n' Hp') as Hr.
      destruct (rl_nodes _ _ Hrel p n' Hp') as (m & Hm & He & _). rewrite Hp1 in Hm. simplify_eq.
      unfold refs in Hr. rewrite He in Hr. simpl in Hr. lia.
    + intros Hc. apply Hheld. simpl.
      pose proof (gw_refs _ _ Hg p n Hp) as Hr'. unfold refs in Hr'.
      rewrite (proj2 (Z.ltb_lt 0 (nlookup n))) in Hr' by lia. simpl in Hr'. lia.
  - assert (Hw' : forall t, fuse_wf (set_heap
      (<[p := Types.set_forget_time t (set_nlookup (nlookup n - k) n)]> (heap f)) f)).
    { intros t. eapply (fuse_wf_update f _ p n _ Hw Hp); try done; [by apply (fw_pos _ Hw p n)|].
      apply fewer_lookups_wf; [done|done|lia|lia]. }
    destruct (_ && _); [|apply runs_ret].
    + unfold NodeTable.set_forget_time. msteps. eexists _, _.
      split; [eapply update_eq, lookup_insert_eq|]. simpl. rewrite insert_insert_eq.
      split; [|split; [eauto|lia]].
      exact (fuse_wf_lru _ (Slab.remove_addr p (lru_table f) ++ [p]) (Hw' (clock f))).
    + split; [|split; [|lia]].
      * specialize (Hw' (forget_time n)). by destruct n.
      * intros _. exists (forget_time n). by destruct n.
Qed.

(** ** Unlinking

    [f'] is [f] without the name of [p]: ancestors that lost their last reference are
    gone, everything else is there, unchanged up to reference counts. *)
Record unlinked (p : ptr) (f f' : fuse) : Prop := mk_unlinked {
  ul_rest : same_rest f f';
  ul_node : exists n r, heap f !! p = Some n /\
    heap f' !! p = Some (set_parent NULL (set_name None (set_refctr r n)));
  ul_other : forall q n', q <> p -> heap f' !! q = Some n' ->
    exists n, heap f !! q = Some n /\ n' = set_refctr (refctr n') n;
  ul_pinned : forall q n, heap f !! q = Some n -> 0 < nlookup n -> is_Some (heap f' !! q);
  ul_names : forall q, q ∈ names f' <-> q <> p /\ q ∈ names f /\ is_Some (heap f' !! q);
}.

Lemma unhashed_unlinked p f f2 f3 m f' : NoDup (names f) -> unhashed p f f2 f3 m f' ->
  unlinked p f f'.
Proof.
  intros Hnd [Ur Uh Un Us [Rr Rn Rna Rz Rp Rs] Um Ur' Uh' Un' Us'].
  assert (Hpn2 : p ∉ names f2) by (rewrite Un in Hnd; by apply NoDup_cons in Hnd as [? _]).
  assert (Hlook : forall q, q <> p -> heap f' !! q = heap f3 !! q).
  { intros q Hq. by rewrite Uh', lookup_insert_ne. }
  rewrite Uh in *. constructor.
  - etransitivity; [exact Ur|]. by etransitivity; [exact Rr|].
  - destruct (Rn p m Um) as (n & Hn & He & _). exists n, (refctr m). split; [done|].
    by rewrite Uh', lookup_insert_eq, <- He.
  - intros q n' Hq Hn'. rewrite Hlook in Hn' by done. destruct (Rn q n' Hn') as (n & ? & ? & _). eauto.
  - intros q n Hn Hl. destruct (decide (q = p)) as [->|Hq].
    + rewrite Uh', lookup_insert_eq. eauto.
    + rewrite Hlook by done. eauto.
  - intros q. rewrite Un', Rna, Un, elem_of_cons. split.
    + intros [Hq Hs]. assert (q <> p) by (by intros ->). rewrite Hlook by done. auto.
    + intros (Hne & [->|Hq] & Hs); [done|]. by rewrite Hlook in Hs.
Qed.

Lemma unlinked_wf p f f' n : fuse_wf f -> heap f !! p = Some n -> unlinked p f f' ->
  graph_wf (fun _ => 0) f' -> slack f' = 0 ->
  (forall q n', heap f' !! q = Some n' -> 0 < refctr n') -> fuse_wf f'.
Proof.
  intros Hw Hp [_ (n0 & r & Hn0 & Hp') Ho _ Hna] Hg Hs Hpos. constructor; try done.
  intros q n' Hq Hname. destruct (decide (q = p)) as [->|Hne].
  - rewrite Hp' in Hq. injection Hq as <-. by destruct Hname.
  - destruct (Ho q n' Hne Hq) as (m & Hm & He). rewrite He in Hname. simpl in Hname.
    destruct (fw_linked _ Hw q m Hm Hname) as [Hin|Hr].
    + left. apply Hna. eauto.
    + right. rewrite He. exact Hr.
Qed.

Lemma unhash_name_wf f p n : fuse_wf f -> heap f !! p = Some n -> p ∈ names f ->
  0 < nlookup n -> runs (unhash_name p) f (fun _ f' => fuse_wf f' /\ unlinked p f f').
Proof.
  intros Hw Hp Hin Hnl. pose proof (fw_graph _ Hw) as Hg.
  destruct (names_alive f p (gw_name _ _ Hg) Hin) as (n0 & _ & s & Hn0 & _ & Hs). simplify_eq.
  eapply runs_mono; [by apply (unhash_name_runs _ f p n s Hg Hp Hs Hin)|].
  intros [] f' (Hg' & f2 & f3 & m & Hun).
  assert (Hul : unlinked p f f') by (eapply unhashed_unlinked; [apply (tw_nodup _ _ (gw_name _ _ Hg))|done]).
  split; [|done]. destruct Hun as [Ur Uh Un Us [Rr Rn Rna Rz Rp Rs] Um Ur' Uh' Un' Us'].
  apply (unlinked_wf p f f' n); try done.
  - pose proof (fw_slack _ Hw). lia.
  - intros q n' Hq. rewrite Uh' in Hq. apply lookup_insert_Some in Hq as [[<- <-]|[_ Hq]].
    + destruct (Rn p m Um) as (n1 & Hn1 & _ & Hr). rewrite Uh in Hn1. apply Hr, (fw_pos _ Hw p n1 Hn1).
    + destruct (Rn q n' Hq) as (n1 & Hn1 & _ & Hr). rewrite Uh in Hn1. apply Hr, (fw_pos _ Hw q n1 Hn1).
Qed.

(** A name that stands for something afterwards stood for it before. *)
Lemma has_name_unlinked p f f' par s q : unlinked p f f' ->
  table_wf (tkey name_ops f') (name_table f') -> has_name f' par s q ->
  has_name f par s q /\ q <> p.
Proof.
  intros [_ (n0 & r & Hn0 & Hp') Ho _ Hna] Hw (n & pn & Hq & Hn & Hpn & Hid & Hs).
  apply Hna in Hq as (Hne & Hq & _). split; [|done].
  destruct (Ho q n Hne Hn) as (m & Hm & He).
  assert (exists pm, heap f !! parent n = Some pm /\ nodeid pm = nodeid pn) as (pm & Hpm & Hid').
  { destruct (decide (parent n = p)) as [Hpp|Hpp].
    - rewrite Hpp in *. rewrite Hp' in Hpn. injection Hpn as <-. eauto.
    - destruct (Ho _ pn Hpp Hpn) as (pm & Hpm & He'). exists pm. by rewrite He'. }
  rewrite He in Hs, Hpm. simpl in *. exists m, pm. split_and!; try done. congruence.
Qed.

(** The lookup [remember] holds is given back first. *)
Lemma unlink_node_wf f p n : fuse_wf f -> heap f !! p = Some n -> p ∈ names f ->
  0 < nlookup n -> (remember (conf f) <> 0 -> 1 < nlookup n) ->
  let v := if remember (conf f) =? 0 then nlookup n else nlookup n - 1 in
  let f1 := set_heap (<[p := set_nlookup v n]> (heap f)) f in
  runs (unlink_node p) f (fun _ f' => fuse_wf f' /\ unlinked p f1 f').
Proof.
  intros Hw Hp Hin Hnl Hrem v f1. unfold unlink_node. mstep.
  assert (Hv : 0 < v <= nlookup n) by (unfold v; zcases; [lia|]; specialize (Hrem ltac:(done)); lia).
  assert (Hw1 : fuse_wf f1).
  { pose proof (fewer_lookups_wf f p n v (forget_time n) Hw Hp Hnl Hv) as Hg.
    replace (Types.set_forget_time (forget_time n) (set_nlookup v n)) with (set_nlookup v n) in Hg
      by (by destruct n).
    eapply (fuse_wf_update f _ p n _ Hw Hp); try done. by apply (fw_pos _ Hw p n). }
  assert (Hp1 : heap f1 !! p = Some (set_nlookup v n)) by apply lookup_insert_eq.
  apply runs_bind with (P := fun _ f' => f' = f1).
  { unfold f1, v. destruct (Z.eqb_spec (remember (conf f)) 0) as [H0|H0]; simpl.
    - apply runs_ret. rewrite insert_id; [by destruct f|]. by rewrite Hp; destruct n.
    - nstep. apply runs_assert_bind; [apply Z.ltb_lt; auto|].
      eexists _, _. split; [by apply (update_eq f p n)|done]. }
  intros [] f' ->. apply (unhash_name_wf f1 p (set_nlookup v n)); try done. simpl. lia.
Qed.

(** ** Linking again *)
Lemma graph_wf_linked f t a p n pp pn s : graph_wf (fun _ => 0) f -> heap f !! p = Some n ->
  heap f !! pp = Some pn -> p <> pp -> p ∉ names f -> ~ is_root n -> 0 < nlookup n ->
  0 < refctr pn -> (forall q, ~ has_name f (nodeid pn) s q) ->
  let f1 := set_heap (linked_heap p pp n pn s (heap f)) f in
  let f' := set_allocs a (set_name_table t f1) in
  table_wf (tkey name_ops f1) t -> members t ≡ₚ p :: names f -> graph_wf (fun _ => 0) f'.
Proof.
  intros Hg Hp Hpp Hne Hnp Hroot Hnl Hr Hno f1 f' Hw Hm.
  set (pn' := set_refctr (refctr pn + 1) pn).
  set (n' := set_parent pp (set_name (Some s) n)).
  set (fb := set_heap (<[pp := pn']> (heap f)) f).
  assert (Hgb : graph_wf (plus_ref (fun _ => 0) pp) fb).
  { apply (graph_wf_update (fun _ => 0) _ f pp pn); try done; unfold plus_ref.
    - intros q Hq. by rewrite decide_False.
    - by rewrite decide_True.
    - unfold refs. simpl. rewrite (gw_refs _ _ Hg pp pn Hpp), decide_True by done. unfold refs. lia.
    - destruct (gw_nodes _ _ Hg pp pn Hpp) as [? ? ? H4 ?]. split; try done. simpl.
      intros Hname _. by apply H4. }
  assert (Hpb : heap fb !! p = Some n) by (simpl; by rewrite lookup_insert_ne).
  assert (Hgc : graph_wf (plus_ref (fun _ => 0) pp) f1).
  { apply (graph_wf_update (plus_ref (fun _ => 0) pp) _ fb p n n'); try done.
    - apply (gw_extra _ _ Hgb).
    - apply (gw_refs _ _ Hgb p n Hpb).
    - destruct (gw_nodes _ _ Hgb p n Hpb). split; try done. by right. }
  apply (graph_wf_link _ f1 f' p n' pn' s); try done.
  - apply linked_heap_node.
  - by apply linked_heap_parent.
  - intros q m Hq Hm' Hpar Hname. change (names f1) with (names f) in Hq.
    assert (q <> p) as Hqp by (by intros ->).
    assert (exists m0, heap f !! q = Some m0 /\ parent m0 = pp /\ name m0 = Some s) as (m0 & Hm0 & Hp0 & Hs0).
    { change (heap f1) with (linked_heap p pp n pn s (heap f)) in Hm'. unfold linked_heap in Hm'.
      rewrite lookup_insert_ne in Hm' by done.
      apply lookup_insert_Some in Hm' as [[<- <-]|[_ Hm']]; eauto. }
    apply (Hno q). exists m0, pn. rewrite Hp0. by split_and!.
Qed.

Definition relinked (p pp : ptr) (n pn : node) (s : string) (f f' : fuse) : Prop :=
  heap f' = linked_heap p pp n pn s (heap f) /\ names f' ≡ₚ p :: names f /\
  ids f' = ids f /\ same_rest f f'.

Lemma hash_name_wf f p n pp pn s : fuse_wf f -> heap f !! p = Some n -> name n = None ->
  0 < nlookup n -> ~ is_root n -> heap f !! pp = Some pn -> p <> pp ->
  (forall q, ~ has_name f (nodeid pn) s q) ->
  runs (hash_name p (nodeid pn) s) f (fun r f' => fuse_wf f' /\
    ((r = -1 /\ heap f' = heap f /\ names f' = names f) \/
     (r = 0 /\ relinked p pp n pn s f f'))).
Proof.
  intros Hw Hp Hname Hnl Hroot Hpp Hne Hno. pose proof (fw_graph _ Hw) as Hg.
  assert (Hnp : p ∉ names f).
  { intros Hin. destruct (names_alive f p (gw_name _ _ Hg) Hin) as (? & _ & s' & ? & _ & ?). congruence. }
  eapply runs_mono; [apply (hash_name_runs f p n pp pn (nodeid pn) s Hp Hpp Hne)|]; try done.
  { by apply get_node_of. }
  { apply (gw_name _ _ Hg). }
  intros r f' [(-> & a & ->)|(-> & a & t & a' & -> & Hwt & Hmt & Hut)].
  - assert (E : <[p := set_name None n]> (heap f) = heap f).
    { rewrite insert_id; [done|]. rewrite Hp. f_equal. destruct n. simpl in *. by subst. }
    rewrite E. split; [|by left]. apply (fuse_wf_same f); try done.
    apply (graph_wf_same _ f _ Hg); [split; try done|..].
    + apply (gw_slabs _ _ Hg).
    + apply (gw_ctr _ _ Hg).
    + apply (gw_id _ _ Hg).
    + done.
    + apply (gw_name _ _ Hg).
  - set (f' := set_allocs a' _).
    assert (Hg' : graph_wf (fun _ => 0) f').
    { apply (graph_wf_linked f t a' p n pp pn s); try done. by apply (fw_pos _ Hw pp pn). }
    assert (Hh : heap f' = linked_heap p pp n pn s (heap f)) by done.
    split; [|right; split; [done|]; by split_and!].
    constructor; [done|..].
    + unfold slack. change (names f') with (members t). change (name_table f') with t.
      rewrite Hut, (Permutation_length Hmt). simpl. pose proof (fw_slack _ Hw) as Hs.
      unfold slack in Hs. lia.
    + intros q m Hq. rewrite Hh in Hq. unfold linked_heap in Hq.
      apply lookup_insert_Some in Hq as [[<- <-]|[_ [[<- <-]|[_ Hq]]%lookup_insert_Some]].
      * apply (fw_pos _ Hw p n Hp).
      * pose proof (fw_pos _ Hw pp pn Hpp). simpl. lia.
      * by apply (fw_pos _ Hw q).
    + intros q m Hq Hnm. change (names f') with (members t). rewrite Hmt, elem_of_cons.
      rewrite Hh in Hq. unfold linked_heap in Hq.
      apply lookup_insert_Some in Hq as [[<- _]|[_ [[<- <-]|[_ Hq]]%lookup_insert_Some]]; [auto|..].
      * destruct (fw_linked _ Hw pp pn Hpp Hnm); auto.
      * destruct (fw_linked _ Hw q m Hq Hnm); auto.
Qed.

(** ** Removing and renaming *)
Lemma has_name_update f p n n' par s q : heap f !! p = Some n -> nodeid n' = nodeid n ->
  parent n' = parent n -> name n' = name n ->
  has_name (set_heap (<[p := n']> (heap f)) f) par s q -> has_name f par s q.
Proof.
  intros Hp H1 H2 H3 (m & pm & Hq & Hm & Hpm & Hid & Hs). simpl in *.
  assert (exists m0, heap f !! q = Some m0 /\ parent m0 = parent m /\ name m0 = name m) as (m0 & Hm0 & E1 & E2).
  { apply lookup_insert_Some in Hm as [[<- <-]|[_ Hm]]; eauto. }
  assert (exists pm0, heap f !! parent m = Some pm0 /\ nodeid pm0 = nodeid pm) as (pm0 & Hpm0 & E3).
  { apply lookup_insert_Some in Hpm as [[<- <-]|[_ Hpm]]; eauto. }
  exists m0, pm0. rewrite E1. split_and!; try done; congruence.
Qed.

Lemma has_name_relinked p pp n pn s f f' par s' q : heap f !! pp = Some pn -> p <> pp ->
  heap f !! p = Some n -> relinked p pp n pn s f f' ->
  has_name f' par s' q -> q <> p -> has_name f par s' q.
Proof.
  intros Hpp Hne Hp (Hh & Hn & _) (m & pm & Hq & Hm & Hpm & Hid & Hs) Hqp.
  rewrite Hn in Hq. apply elem_of_cons in Hq as [|Hq]; [done|]. rewrite Hh in *.
  assert (E : forall A (g : node -> A), (forall m, g (set_refctr (refctr m + 1) m) = g m) ->
    forall x k, x <> p -> linked_heap p pp n pn s (heap f) !! x = Some k ->
    exists k0, heap f !! x = Some k0 /\ g k0 = g k).
  { intros A g Hg x k Hx Hk. unfold linked_heap in Hk. rewrite lookup_insert_ne in Hk by done.
    apply lookup_insert_Some in Hk as [[<- <-]|[_ Hk]]; eauto. }
  destruct (E _ (fun k => (parent k, name k)) ltac:(done) q m Hqp Hm) as (m0 & Hm0 & [= E1 E2]).
  assert (exists pm0, heap f !! parent m = Some pm0 /\ nodeid pm0 = nodeid pm) as (pm0 & Hpm0 & E3).
  { destruct (decide (parent m = p)) as [Hx|Hx].
    - rewrite Hx in *. rewrite linked_heap_node in Hpm. injection Hpm as <-. eauto.
    - by apply (E _ nodeid ltac:(done) (parent m) pm). }
  exists m0, pm0. rewrite E1. split_and!; try done; congruence.
Qed.

Lemma has_name_here p pp n pn s f f' : p <> pp -> relinked p pp n pn s f f' ->
  has_name f' (nodeid pn) s p.
Proof.
  intros Hne (Hh & Hn & _). exists (set_parent pp (set_name (Some s) n)), (set_refctr (refctr pn + 1) pn).
  rewrite Hn, Hh. split_and!; try done; [by left|apply linked_heap_node|by apply linked_heap_parent].
Qed.

(** A node the kernel has looked up. *)
Definition held (f : fuse) (n : node) : Prop :=
  0 < nlookup n /\ (remember (conf f) <> 0 -> 1 < nlookup n).

Definition given_back (f : fuse) (n : node) : node :=
  set_nlookup (if remember (conf f) =? 0 then nlookup n else nlookup n - 1) n.

Lemma unlink_name_runs f par s p n : fuse_wf f -> has_name f par s p ->
  heap f !! p = Some n -> held f n ->
  runs (unlink_node p) f (fun _ f' => fuse_wf f' /\
    unlinked p (set_heap (<[p := given_back f n]> (heap f)) f) f' /\
    (forall q, ~ has_name f' par s q) /\
    (forall par' s' q, has_name f' par' s' q -> has_name f par' s' q /\ q <> p)).
Proof.
  intros Hw Hh Hp [Hl1 Hl2]. pose proof (fw_graph _ Hw) as Hg.
  assert (Hin : p ∈ names f) by (by destruct Hh as (? & ? & ? & _)).
  eapply runs_mono; [by apply (unlink_node_wf f p n)|].
  intros [] f' [Hw' Hul].
  assert (Hback : forall par' s' q, has_name f' par' s' q -> has_name f par' s' q /\ q <> p).
  { intros par' s' q Hq.
    apply (has_name_unlinked p (set_heap (<[p := given_back f n]> (heap f)) f) f') in Hq as [Hq Hne]; [|done|apply (gw_name _ _ (fw_graph _ Hw'))].
    split; [|done]. by apply (has_name_update f p n (given_back f n)). }
  split_and!; try done. intros q Hq. destruct (Hback _ _ _ Hq) as [Hq' Hne].
  by apply Hne; eapply has_name_inj.
Qed.

(** C8: [remove_node] keeps the invariant and takes the name away; the node itself
    stays, without name and parent, for as long as the kernel holds it.  A name that
    stands for nothing changes nothing. *)
Theorem remove_node_correct f dir nm : fuse_wf f ->
  (forall p n, has_name f dir nm p -> heap f !! p = Some n -> held f n) ->
  runs (remove_node dir nm) f (fun _ f' => fuse_wf f' /\ (forall q, ~ has_name f' dir nm q) /\
    ((forall q, ~ has_name f dir nm q) -> f' = f) /\
    forall p n, has_name f dir nm p -> heap f !! p = Some n ->
      unlinked p (set_heap (<[p := given_back f n]> (heap f)) f) f').
Proof.
  intros Hw Hheld. pose proof (fw_graph _ Hw) as Hg. unfold remove_node.
  destruct (lookup_node_spec f dir nm (gw_name _ _ Hg)) as [[Hl Hno]|(p & Hl & Hp)].
  - eexists tt, f. unfold mbind, M_bind. rewrite Hl. split; [done|]. split_and!; try done.
    intros p n Hp. by apply Hno in Hp.
  - apply runs_bind with (P := fun r f' => r = p /\ f' = f); [by exists p, f|].
    intros r f' [-> ->]. pose proof Hp as (n & pn & _ & Hn & _).
    destruct (Z.eqb_spec p NULL) as [->|_]; [pose proof (NULL_not_live _ _ Hg); congruence|].
    eapply runs_mono; [apply (unlink_name_runs f dir nm p n); eauto|].
    intros [] f' (Hw' & Hul & Hno & _). split_and!; try done.
    + intros Hn'. by apply Hn' in Hp.
    + intros q m Hq Hm. assert (q = p) as -> by (by eapply has_name_inj). by simplify_eq.
Qed.

Definition survives (f f' : fuse) (q : ptr) (n : node) : Prop :=
  exists n', heap f' !! q = Some n' /\ nodeid n' = nodeid n /\ 0 < nlookup n'.

Lemma survives_unlinked p f f' q n : unlinked p f f' -> heap f !! q = Some n ->
  0 < nlookup n -> survives f f' q n.
Proof.
  intros [_ (n0 & r & Hn0 & Hp') Ho Hpin _] Hq Hl. destruct (Hpin q n Hq Hl) as [n' Hn'].
  exists n'. split; [done|]. destruct (decide (q = p)) as [->|Hne].
  - rewrite Hp' in Hn'. injection Hn' as <-. simplify_eq. done.
  - destruct (Ho q n' Hne Hn') as (m & Hm & He). rewrite He. simplify_eq. done.
Qed.

Lemma survives_unlink p n f f' q m : heap f !! p = Some n -> held f n ->
  unlinked p (set_heap (<[p := given_back f n]> (heap f)) f) f' ->
  heap f !! q = Some m -> 0 < nlookup m -> survives f f' q m.
Proof.
  intros Hp [H1 H2] Hul Hq Hl. destruct (decide (q = p)) as [->|Hne].
  - simplify_eq. destruct (survives_unlinked p _ f' p (given_back f n) Hul) as (n' & ? & ? & ?).
    + apply lookup_insert_eq.
    + unfold given_back. simpl. zcases; [lia|]. specialize (H2 ltac:(done)). lia.
    + by exists n'.
  - apply (survives_unlinked p _ f' q m Hul); [|done]. simpl. by rewrite lookup_insert_ne.
Qed.

(** The first half of [rename_node]: what has the new name is unlinked, then the node
    itself. *)
Definition make_room (newnode p : ptr) : F unit :=
  (if negb (newnode =? NULL) then unlink_node newnode else mret tt);; unhash_name p.

Lemma make_room_runs f p n pp pn newname newnode :
  fuse_wf f -> p ∈ names f -> heap f !! p = Some n -> 0 < nlookup n ->
  heap f !! pp = Some pn -> 0 < nlookup pn ->
  (newnode = NULL /\ (forall q, ~ has_name f (nodeid pn) newname q)) \/
  (newnode <> p /\ has_name f (nodeid pn) newname newnode /\
   exists d, heap f !! newnode = Some d /\ held f d) ->
  runs (make_room newnode p) f (fun _ f' => fuse_wf f' /\
    (exists n', heap f' !! p = Some n' /\ nodeid n' = nodeid n /\ 0 < nlookup n' /\ name n' = None) /\
    survives f f' pp pn /\ (forall q, ~ has_name f' (nodeid pn) newname q) /\
    (forall par s q, has_name f' par s q -> has_name f par s q /\ q <> p)).
Proof.
  intros Hw Hin Hp Hnl Hpp Hnlp Hcase. unfold make_room.
  apply runs_bind with (P := fun _ f1 => fuse_wf f1 /\ p ∈ names f1 /\ survives f f1 p n /\
    survives f f1 pp pn /\ (forall q, ~ has_name f1 (nodeid pn) newname q) /\
    (forall par s q, has_name f1 par s q -> has_name f par s q)).
  - destruct Hcase as [[-> Hno]|(Hne & Hd & d & Hdn & Hheld)].
    + apply runs_ret. split_and!; try done; [by exists n|by exists pn].
    + pose proof (fw_graph _ Hw) as Hg.
      destruct (Z.eqb_spec newnode NULL) as [->|_]; [pose proof (NULL_not_live _ _ Hg); congruence|].
      eapply runs_mono; [by apply (unlink_name_runs f (nodeid pn) newname newnode d)|].
      intros [] f1 (Hw1 & Hul & Hno & Hback).
      assert (Hs : survives f f1 p n) by (by eapply survives_unlink).
      split_and!; try done.
      * apply (ul_names _ _ _ Hul). split; [done|]. split; [done|]. destruct Hs as (? & ? & _). eauto.
      * by eapply survives_unlink.
      * intros par s q Hq. by apply Hback in Hq as [? _].
  - intros [] f1 (Hw1 & Hin1 & (n1 & Hp1 & Hid1 & Hl1) & (pn1 & Hpp1 & Hidp1 & Hlp1) & Hno & Hback).
    eapply runs_mono; [by apply (unhash_name_wf f1 p n1)|].
    intros [] f2 [Hw2 Hul]. pose proof (gw_name _ _ (fw_graph _ Hw2)) as Hwn.
    split_and!; try done.
    + destruct (ul_node _ _ _ Hul) as (n0 & r & Hn0 & Hp2). simplify_eq. eexists. by split_and!.
    + destruct (survives_unlinked p f1 f2 pp pn1 Hul Hpp1 Hlp1) as (pn2 & ? & ? & ?).
      exists pn2. split_and!; [done|congruence|done].
    + intros q Hq. apply (has_name_unlinked p f1 f2) in Hq as [Hq _]; [by apply (Hno q)|done|done].
    + intros par s q Hq. apply (has_name_unlinked p f1 f2) in Hq as [Hq ?]; [auto|done|done].
Qed.

Lemma hide_wf f p n : fuse_wf f -> heap f !! p = Some n ->
  fuse_wf (set_heap (<[p := set_is_hidden true n]> (heap f)) f).
Proof.
  intros Hw Hp. pose proof (fw_graph _ Hw) as Hg.
  eapply (fuse_wf_update f _ p n _ Hw Hp); try done; [by apply (fw_pos _ Hw p n)|].
  apply (graph_wf_update (fun _ => 0) _ f p n); try done.
  - apply (gw_refs _ _ Hg p n Hp).
  - destruct (gw_nodes _ _ Hg p n Hp). by split.
Qed.

Lemma has_name_update_iff f p n n' par s q : heap f !! p = Some n -> nodeid n' = nodeid n ->
  parent n' = parent n -> name n' = name n ->
  has_name (set_heap (<[p := n']> (heap f)) f) par s q <-> has_name f par s q.
Proof.
  intros Hp H1 H2 H3. split; [by apply (has_name_update f p n n')|]. intros Hq.
  apply (has_name_update _ p n' n); try done; [apply lookup_insert_eq|]. simpl.
  rewrite insert_insert_eq, insert_id by done. by destruct f.
Qed.

Lemma has_name_det f par s par' s' p : has_name f par s p -> has_name f par' s' p ->
  par = par' /\ s = s'.
Proof. intros (n & pn & _ & Hn & Hpn & <- & Hs) (m & pm & _ & Hm & Hpm & <- & Hs'). by simplify_eq. Qed.

Lemma has_name_same f f' par s q : heap f' = heap f -> names f' = names f ->
  has_name f' par s q <-> has_name f par s q.
Proof. intros Hh Hn. unfold has_name. by rewrite Hh, Hn. Qed.

(** What a finished [rename_node] promises. *)
Record renamed (olddir : Z) (oldname : string) (newdir : Z) (newname : string)
    (p : ptr) (f' : fuse) : Prop := mk_renamed {
  rn_new : forall q, has_name f' newdir newname q <-> q = p;
  rn_old : forall q, ~ has_name f' olddir oldname q;
}.

Lemma relinked_renamed f f2 f3 olddir oldname newname p n2 pp pn2 :
  fuse_wf f -> fuse_wf f3 -> has_name f olddir oldname p ->
  ~ has_name f (nodeid pn2) newname p -> heap f2 !! pp = Some pn2 -> heap f2 !! p = Some n2 ->
  p <> pp -> relinked p pp n2 pn2 newname f2 f3 ->
  (forall par s q, has_name f2 par s q -> has_name f par s q /\ q <> p) ->
  renamed olddir oldname (nodeid pn2) newname p f3.
Proof.
  intros Hw Hw3 Hname Hnn Hpp2 Hp2 Hne Hrel Hback.
  pose proof (has_name_here p pp n2 pn2 newname f2 f3 Hne Hrel) as Hhere. split.
  - intros q. split; [|by intros ->]. intros Hq. eapply has_name_inj; [apply (fw_graph _ Hw3)|done|done].
  - intros q Hq. destruct (decide (q = p)) as [->|Hqp].
    + destruct (has_name_det f3 _ _ _ _ p Hhere Hq) as [E1 E2]. congruence.
    + apply (has_name_relinked p pp n2 pn2 newname f2 f3) in Hq; [|done..]. destruct (Hback _ _ _ Hq) as [Hq' _].
      apply Hqp. eapply has_name_inj; [apply (fw_graph _ Hw)|done|done].
Qed.

(** C3: [rename_node] of a node that is held, into a directory that is held and is
    not the node itself, keeps the invariant.  It refuses to hide under a name that is
    taken; otherwise either the new name stands for the node and for nothing else, the
    old name for nothing, and what had the new name has lost it, or memory for a long
    name was missing and both names stand for nothing. *)
Theorem rename_node_correct f olddir oldname newdir newname hide p n pp pn :
  fuse_wf f -> has_name f olddir oldname p -> heap f !! p = Some n -> 0 < nlookup n ->
  heap f !! pp = Some pn -> nodeid pn = newdir -> 0 < nlookup pn -> pp <> p ->
  (forall d m, has_name f newdir newname d -> heap f !! d = Some m -> d <> p /\ held f m) ->
  runs (rename_node olddir oldname newdir newname hide) f (fun r f' => fuse_wf f' /\
    ((r = - EBUSY /\ hide = true /\ f' = f /\ exists d, has_name f newdir newname d) \/
     (r = - ENOMEM /\ forall q, ~ has_name f' newdir newname q /\ ~ has_name f' olddir oldname q) \/
     (r = 0 /\ renamed olddir oldname newdir newname p f' /\
      exists m, heap f' !! p = Some m /\ (hide = true -> is_hidden m = true)))).
Proof.
  intros Hw Hname Hp Hnl Hpp Hid Hnlp Hne Hdest. pose proof (fw_graph _ Hw) as Hg.
  pose proof (gw_name _ _ Hg) as Hwn. unfold rename_node.
  assert (Hin : p ∈ names f) by (by destruct Hname as (? & ? & ? & _)).
  apply runs_bind with (P := fun r f' => r = p /\ f' = f).
  { destruct (lookup_node_spec f olddir oldname Hwn) as [[_ Hno]|(q & Hl & Hq)]; [by apply Hno in Hname|].
    assert (q = p) as -> by (by eapply has_name_inj). by exists p, f. }
  intros r0 f0 [-> ->].
  assert (exists newnode, lookup_node newdir newname f = Ok (newnode, f) /\
    ((newnode = NULL /\ (forall q, ~ has_name f newdir newname q)) \/
     (newnode <> NULL /\ newnode <> p /\ has_name f newdir newname newnode /\
      exists d, heap f !! newnode = Some d /\ held f d))) as (newnode & Hl & Hcase).
  { destruct (lookup_node_spec f newdir newname Hwn) as [[Hl Hno]|(q & Hl & Hq)]; [eauto|].
    exists q. split; [done|]. right. pose proof Hq as (m & _ & _ & Hm & _).
    destruct (Hdest q m Hq Hm). split_and!; try done; [|by eauto].
    intros ->. pose proof (NULL_not_live _ _ Hg). congruence. }
  apply runs_bind with (P := fun r f' => r = newnode /\ f' = f); [by exists newnode, f|].
  intros r1 f1 [-> ->].
  destruct (Z.eqb_spec p NULL) as [->|_]; [pose proof (NULL_not_live _ _ Hg); congruence|].
  destruct (negb (newnode =? NULL) && hide) eqn:Hhide.
  { apply runs_ret. split; [done|]. left. apply andb_true_iff in Hhide as [H1 ->].
    destruct Hcase as [[-> _]|(_ & _ & ? & _)]; [done|eauto]. }
  apply runs_bind_unassoc. fold (make_room newnode p).
  subst newdir. eapply runs_bind; [apply (make_room_runs f p n pp pn newname newnode); try done|].
  { destruct Hcase as [[-> ?]|(_ & ? & ? & ?)]; auto. }
  intros [] f2 (Hw2 & (n2 & Hp2 & Hid2 & Hl2 & Hname2) & (pn2 & Hpp2 & Hidp2 & _) & Hno2 & Hback).
  eapply runs_bind.
  { rewrite <- Hidp2. apply (hash_name_wf f2 p n2 pp pn2 newname Hw2 Hp2 Hname2 Hl2); try done.
    - destruct (gw_nodes _ _ Hg p n Hp) as [_ _ _ _ H5]. unfold is_root in *. rewrite Hid2.
      intros Hr. by apply H5 in Hr as [_ Hr].
    - by rewrite Hidp2. }
  intros r f3 [Hw3 [(-> & Hh3 & Hr3)|(-> & Hrel)]].
  - apply runs_ret. split; [done|]. right; left. split; [done|].
    intros q. rewrite !(has_name_same f2 f3) by done. split; [apply Hno2|].
    intros Hq. destruct (Hback _ _ _ Hq) as [Hq' Hqp]. apply Hqp. by eapply has_name_inj.
  - assert (Hren : renamed olddir oldname (nodeid pn) newname p f3).
    { rewrite <- Hidp2. apply (relinked_renamed f f2 f3 olddir oldname newname p n2 pp pn2); try done.
      rewrite Hidp2. intros Hx. by destruct (Hdest p n Hx Hp). }
    assert (exists n3, heap f3 !! p = Some n3) as [n3 Hp3].
    { destruct Hrel as (-> & _). eexists. apply linked_heap_node. }
    destruct hide; simpl.
    + apply runs_bind with (P := fun _ f' => f' = set_heap (<[p := set_is_hidden true n3]> (heap f3)) f3).
      { eexists _, _. split; [by apply (update_eq f3 p n3)|done]. }
      intros [] f' ->. apply runs_ret. split; [by apply hide_wf|]. right; right. split; [done|].
      split; [|eexists; split; [apply lookup_insert_eq|done]]. destruct Hren as [R1 R2].
      split; intros q; rewrite (has_name_update_iff f3 p n3) by done; auto.
    + apply runs_ret. split; [done|]. right; right. split; [done|]. split; [done|]. by exists n3.
Qed.

(** ** The theorems at work *)
Lemma sample2_has_name s q : has_name sample2 1 s q -> q = 65832 /\ s = "a"%string.
Proof.
  intros (n & pn & Hq & Hn & _ & _ & Hs). rewrite sample2_names in Hq.
  apply list_elem_of_singleton in Hq as ->. rewrite sample2_node in Hn.
  simplify_eq. split; [done|]. vm_compute in Hs. congruence.
Qed.

Lemma forget_node_correct_witness :
  runs (forget_node 2 1) sample2 (fun _ f' => fuse_wf f' /\
    (1 < 1 -> exists t, heap f' =
       <[65832 := Types.set_forget_time t (set_nlookup (1 - 1) node_a)]> (heap sample2)) /\
    (1 = 1 -> released (set_heap (<[65832 := set_nlookup 0 node_a]> (heap sample2)) sample2) f' /\
       (children sample2 65832 = 0 -> heap f' !! 65832 = None) /\
       (0 < children sample2 65832 -> is_Some (heap f' !! 65832)))).
Proof.
  apply (forget_node_correct sample2 65832 node_a 1 sample2_wf sample2_node).
  - vm_compute. discriminate.
  - vm_compute. split; [reflexivity|discriminate].
  - reflexivity.
Defined.

Lemma sample2_held n : heap sample2 !! (65832 : ptr) = Some n -> held sample2 n.
Proof.
  rewrite sample2_node. intros [= <-]. split; [vm_compute; reflexivity|].
  intros Hr. by vm_compute in Hr.
Qed.

Lemma remove_node_correct_witness :
  runs (remove_node 1 "a") sample2 (fun _ f' => fuse_wf f' /\
    (forall q, ~ has_name f' 1 "a" q) /\ ((forall q, ~ has_name sample2 1 "a" q) -> f' = sample2) /\
    forall p n, has_name sample2 1 "a" p -> heap sample2 !! p = Some n ->
      unlinked p (set_heap (<[p := given_back sample2 n]> (heap sample2)) sample2) f').
Proof.
  apply (remove_node_correct sample2 1 "a" sample2_wf).
  intros p n Hp Hn. apply sample2_has_name in Hp as [-> _]. by apply sample2_held.
Defined.

Lemma rename_node_correct_witness :
  runs (rename_node 1 "a" 1 "b" false) sample2 (fun r f' => fuse_wf f' /\
    ((r = - EBUSY /\ false = true /\ f' = sample2 /\ exists d, has_name sample2 1 "b" d) \/
     (r = - ENOMEM /\ forall q, ~ has_name f' 1 "b" q /\ ~ has_name f' 1 "a" q) \/
     (r = 0 /\ renamed 1 "a" 1 "b" 65832 f' /\
      exists m, heap f' !! 65832 = Some m /\ (false = true -> is_hidden m = true)))).
Proof.
  apply (rename_node_correct sample2 1 "a" 1 "b" false 65832 node_a 65680 (set_refctr 2 root_node)
    sample2_wf).
  - exists node_a, (set_refctr 2 root_node). rewrite sample2_names. split_and!.
    + by left.
    + exact sample2_node.
    + exact sample2_root.
    + reflexivity.
    + reflexivity.
  - exact sample2_node.
  - vm_compute. reflexivity.
  - exact sample2_root.
  - reflexivity.
  - vm_compute. reflexivity.
  - discriminate.
  - intros d m Hd. apply sample2_has_name in Hd as [_ Hs]. discriminate Hs.
Defined.
