(* ===== verification/PathFacts.v ===== *)
(** * Paths and path locks: what they are worth

    The buffer a path is built in never under- or overruns; the path of a node leads
    back to it; locking a path and unlocking it again restores the lock counts; and
    the locks granted at any time exclude each other. *)
From S2P Require Import Prelude Slab PosixLock Types NodeTable TableFacts.
From S2P Require Import GraphFacts LookupFacts Path.
From Stdlib Require Import Ascii.
#[local] Open Scope Z_scope.

(** ** Paths as strings *)

(** The path of the names [l], the last one first. *)
Fixpoint path_string (l : list string) (suffix : string) : string :=
  match l with
  | [] => suffix
  | s :: l => path_string l ("/" +:+ s +:+ suffix)
  end.

Fixpoint no_slash (s : string) : bool :=
  match s with
  | EmptyString => true
  | String c s => negb (Ascii.eqb c slash) && no_slash s
  end.

Definition valid_name (s : string) : Prop := s <> ""%string /\ no_slash s = true.

(** Reading a name to its end. *)
Lemma tokens_name cur s rest : no_slash s = true ->
  tokens cur (s +:+ rest) = tokens (cur +:+ s) rest.
Proof.
  revert cur. induction s as [|c s IH]; intros cur Hs.
  - by rewrite string_app_nil_r.
  - apply andb_true_iff in Hs as [Hc Hs]. rewrite string_app_cons. simpl. apply negb_true_iff in Hc. rewrite Hc.
    rewrite IH by done. by rewrite string_app_snoc.
Qed.

(** What follows a name: nothing, or another component. *)
Definition starts_slash (s : string) : Prop := s = ""%string \/ exists r, s = String slash r.

Lemma tokens_end cur rest : cur <> ""%string -> starts_slash rest ->
  tokens cur rest = cur :: tokens "" rest.
Proof.
  intros Hc [->|(r & ->)]; simpl.
  - destruct (String.eqb_spec cur ""); done.
  - by destruct (String.eqb_spec cur "").
Qed.

Lemma tokens_path l suffix : Forall valid_name l -> starts_slash suffix ->
  tokens "" (path_string l suffix) = reverse l ++ tokens "" suffix.
Proof.
  revert suffix. induction l as [|s l IH]; intros suffix Hl Hs; [done|].
  apply Forall_cons in Hl as [[Hne Hns] Hl]. simpl. rewrite IH; [|done|right; by eexists].
  rewrite reverse_cons, <- app_assoc. f_equal.
  change (tokens "" (String slash (s +:+ suffix)) = s :: tokens "" suffix).
  simpl. rewrite tokens_name by done. by apply (tokens_end s).
Qed.

Lemma path_string_nil l : l <> [] -> path_string l "" <> ""%string.
Proof.
  assert (H : forall l suffix, suffix <> ""%string -> path_string l suffix <> ""%string).
  { induction l0 as [|s l0 IH]; intros suffix Hs; [done|]. apply IH. by rewrite string_app_cons. }
  destruct l as [|s l]; [done|]. intros _. apply (H l). by rewrite string_app_cons.
Qed.

(** ** The buffer *)
Lemma grow_spec fuel size need : 0 < size <= 4294967295 -> need <= 4294967295 ->
  2 ^ 32 <= size * 2 ^ (Z.of_nat fuel - 1) -> (0 < fuel)%nat ->
  exists r, grow fuel size need = Ok r /\ need <= r /\ size <= r <= 4294967295.
Proof.
  revert size. induction fuel as [|fuel IH]; intros size Hs Hn Hf H0; [lia|]. simpl.
  destruct (Z.ltb_spec size need) as [Hlt|Hge]; [|eexists; split; [done|]; lia].
  assert (Hcap : forall fuel', exists r, grow fuel' 4294967295 need = Ok r /\ need <= r /\
    4294967295 <= r <= 4294967295).
  { intros fuel'. exists 4294967295. split; [|lia].
    destruct fuel'; simpl; destruct (Z.ltb_spec 4294967295 need); lia || done. }
  destruct (Z.leb_spec 0x80000000 size) as [Hbig|Hsmall].
  { destruct (Hcap fuel) as (r & -> & ? & ?). eexists. split; [done|]. lia. }
  destruct fuel as [|fuel].
  { simpl in Hf. change (2 ^ 0) with 1 in Hf. lia. }
  destruct (IH (size * 2)) as (r & -> & ? & ?); [lia|lia| |lia|eexists; split; [done|]; lia].
  replace (Z.of_nat (S (S fuel)) - 1) with (Z.of_nat (S fuel) - 1 + 1) in Hf by lia.
  rewrite Z.pow_add_r in Hf by lia. change (2 ^ 1) with 2 in Hf. lia.
Qed.

Lemma grow_fuel_ok size need : 0 < size <= 4294967295 -> need <= 4294967295 ->
  exists r, grow grow_fuel size need = Ok r /\ need <= r /\ size <= r <= 4294967295.
Proof.
  intros Hs Hn. apply grow_spec; [done|done| |unfold grow_fuel; lia].
  unfold grow_fuel. change (Z.of_nat 33 - 1) with 32. nia.
Qed.

Lemma strlen_app a b : strlen (a +:+ b) = strlen a + strlen b.
Proof.
  unfold strlen. induction a as [|c a IH]; [done|].
  rewrite string_app_cons. simpl. lia.
Qed.

Lemma strlen_nonneg s : 0 <= strlen s.
Proof. unfold strlen. lia. Qed.

(** The text ends, with its NUL, where the buffer ends. *)
Record buf_wf (b : pathbuf) : Prop := mk_buf_wf {
  bw_size : 0 < bufsize b <= 4294967295;
  bw_start : 0 <= spos b;
  bw_text : spos b + strlen (text b) + 1 = bufsize b;
}.

Lemma buf_wf_init : buf_wf (mk_buf 256 255 "").
Proof. split; simpl; lia || done. Qed.

Definition grown (f : fuse) (f' : fuse) : Prop := exists a, f' = set_allocs a f.

Lemma grown_refl f : grown f f.
Proof. exists (allocs f). by rewrite set_allocs_id. Qed.

Lemma add_name_runs b nm f : buf_wf b -> strlen (text b) + strlen nm + 2 <= 4294967295 ->
  runs (add_name b nm) f (fun r f' => grown f f' /\
    forall b', r = Some b' -> buf_wf b' /\ text b' = "/" +:+ nm +:+ text b).
Proof.
  intros [Hs H0 Ht] Hlen. pose proof (strlen_nonneg nm). pose proof (strlen_nonneg (text b)).
  assert (Htext : strlen ("/" +:+ nm +:+ text b) = 1 + strlen nm + strlen (text b)).
  { rewrite !strlen_app. unfold strlen at 1. simpl. lia. }
  unfold add_name. destruct (Z.leb_spec (spos b - strlen nm) 0) as [Hle|Hgt].
  - assert (Hu : u32 (bufsize b - spos b) = bufsize b - spos b) by (unfold u32; rewrite Z.mod_small; lia).
    rewrite Hu. destruct (grow_fuel_ok (bufsize b) (bufsize b - spos b + strlen nm + 1))
      as (r & Hr & Hr1 & Hr2); [lia|lia|].
    apply runs_bind with (P := fun x f' => x = r /\ f' = f).
    { exists r, f. unfold liftM. by rewrite Hr. }
    intros x f' [-> ->]. eapply runs_bind; [apply malloc_runs|].
    simpl. intros [] f' (a & ->); simpl; apply runs_ret; (split; [by exists a|]); [|done].
    intros b' [= <-]. split; [|done]. split; cbn [bufsize spos text]; [lia|lia|].
    rewrite Htext. lia.
  - apply runs_ret. split; [apply grown_refl|].
    intros b' [= <-]. split; [|done]. split; cbn [bufsize spos text]; [lia|lia|].
    rewrite Htext. lia.
Qed.

(** ** The way up from a node to the root *)
Inductive ancestry (f : fuse) : ptr -> list (ptr * string) -> Prop :=
| anc_root p n : heap f !! p = Some n -> nodeid n = FUSE_ROOT_ID -> ancestry f p []
| anc_up p n s l : heap f !! p = Some n -> nodeid n <> FUSE_ROOT_ID -> name n = Some s ->
    parent n <> NULL -> ancestry f (parent n) l -> ancestry f p ((p, s) :: l).

Lemma ancestry_det f p l l' : ancestry f p l -> ancestry f p l' -> l = l'.
Proof.
  intros Ha. revert l'. induction Ha as [p n Hp Hr|p n s l Hp Hr Hs Hpar Ha IH];
    intros l' Ha'; inversion Ha'; simplify_eq; [done|]. f_equal. by apply IH.
Qed.

Lemma ancestry_suffix f p l q l1 s l2 : ancestry f p l -> l = l1 ++ (q, s) :: l2 ->
  ancestry f q ((q, s) :: l2).
Proof.
  intros Ha. revert l1. induction Ha as [p n Hp Hr|p n s' l Hp Hr Hs Hpar Ha IH];
    intros l1 Hl; [by destruct l1|].
  destruct l1 as [|x l1]; simplify_eq/=; [by eapply anc_up|by apply (IH l1)].
Qed.

Lemma ancestry_nodup f p l : ancestry f p l -> NoDup (fst <$> l).
Proof.
  intros Ha. induction Ha as [p n Hp Hr|p n s l Hp Hr Hs Hpar Ha IH]; simpl; [constructor|].
  apply NoDup_cons. split; [|done]. intros ([q s'] & Hq & Hin)%list_elem_of_fmap. simpl in Hq. subst q.
  apply list_elem_of_split in Hin as (l1 & l2 & Hl).
  pose proof (ancestry_suffix f _ _ p l1 s' l2 Ha Hl) as Ha2.
  assert (Ha3 : ancestry f p ((p, s) :: l)) by (by eapply anc_up).
  pose proof (ancestry_det f p _ _ Ha2 Ha3) as E. apply (f_equal length) in E.
  rewrite Hl in E. simpl in E. rewrite length_app in E. simpl in E. lia.
Qed.

Lemma ancestry_live f p l q s : ancestry f p l -> (q, s) ∈ l ->
  exists n, heap f !! q = Some n /\ nodeid n <> FUSE_ROOT_ID /\ name n = Some s.
Proof.
  intros Ha. induction Ha as [p n Hp Hr|p n s' l Hp Hr Hs Hpar Ha IH].
  - intros Hin. by apply not_elem_of_nil in Hin.
  - intros [[= -> ->]|Hin]%elem_of_cons; [eauto|auto].
Qed.

Lemma ancestry_length f p l : ancestry f p l -> (length l < tree_fuel f)%nat.
Proof.
  intros Ha. unfold tree_fuel. rewrite <- (length_fmap fst l).
  rewrite <- (size_dom (D := gset ptr)).
  assert (length (fst <$> l) <= base.size (dom (heap f)))%nat; [|lia].
  rewrite <- (size_list_to_set (C := gset ptr)) by (by eapply ancestry_nodup).
  apply subseteq_size. intros q Hq. apply elem_of_list_to_set in Hq.
  apply list_elem_of_fmap in Hq as ([q' s] & -> & Hin).
  destruct (ancestry_live f p l q' s Ha Hin) as (n & Hn & _). apply elem_of_dom. eauto.
Qed.

(** ** Lock counts

    [lock_read] is what one more reader does to a node, [unlock_read] what one reader
    less does. *)
Definition lock_read (n : node) : node := set_treelock (treelock n + 1) n.
Definition unlock_read (n : node) : node :=
  set_treelock (if treelock n - 1 =? TREELOCK_WAIT_OFFSET then 0 else treelock n - 1) n.

Definition each (g : node -> node) (ps : list ptr) (h : gmap ptr node) : gmap ptr node :=
  foldr (fun p h => alter g p h) h ps.

Lemma each_lookup g ps h q : NoDup ps ->
  each g ps h !! q = if decide (q ∈ ps) then g <$> h !! q else h !! q.
Proof.
  induction ps as [|p ps IH]; intros Hnd; [done|].
  apply NoDup_cons in Hnd as [Hp Hnd]. simpl. destruct (decide (q = p)) as [->|Hne].
  - rewrite lookup_alter_eq, IH by done. rewrite decide_False by done.
    by rewrite decide_True by (by left).
  - rewrite lookup_alter_ne by done. rewrite IH by done.
    destruct (decide (q ∈ ps)); [rewrite decide_True by (by right)|rewrite decide_False]; try done.
    by rewrite not_elem_of_cons.
Qed.

Lemma each_insert g p n ps h : p ∉ ps -> NoDup ps -> h !! p = Some n ->
  each g ps (<[p := g n]> h) = each g (p :: ps) h.
Proof.
  intros Hp Hnd Hn. apply map_eq. intros q. rewrite !each_lookup; [|by apply NoDup_cons|done].
  destruct (decide (q = p)) as [->|Hne].
  - rewrite decide_False by done. rewrite decide_True by (by left). by rewrite lookup_insert_eq, Hn.
  - rewrite lookup_insert_ne by done. destruct (decide (q ∈ ps)).
    + by rewrite decide_True by (by right).
    + rewrite decide_False; [done|]. by rewrite not_elem_of_cons.
Qed.

Lemma unlock_lock_read n : 0 <= treelock n -> unlock_read (lock_read n) = n.
Proof.
  intros Ht. unfold unlock_read, lock_read. simpl.
  destruct (Z.eqb_spec (treelock n + 1 - 1) TREELOCK_WAIT_OFFSET) as [He|_].
  - unfold TREELOCK_WAIT_OFFSET, INT_MIN in He. lia.
  - destruct n. unfold set_treelock. simpl. f_equal. lia.
Qed.

Lemma each_inverse ps h : NoDup ps ->
  (forall p n, p ∈ ps -> h !! p = Some n -> 0 <= treelock n) ->
  each unlock_read ps (each lock_read ps h) = h.
Proof.
  intros Hnd Ht. apply map_eq. intros q. rewrite !each_lookup by done.
  case_decide as Hq; [|done]. destruct (h !! q) as [n|] eqn:Hn; [|done]. simpl.
  f_equal. by apply unlock_lock_read, (Ht q).
Qed.

(** ** Walking up *)
Definition place (n : node) : Z * ptr * option string := (nodeid n, parent n, name n).

Lemma ancestry_ext f f' p l : (forall q, place <$> heap f' !! q = place <$> heap f !! q) ->
  ancestry f p l -> ancestry f' p l.
Proof.
  intros He Ha. induction Ha as [p n Hp Hr|p n s l Hp Hr Hs Hpar Ha IH];
    specialize (He p); rewrite Hp in He; (destruct (heap f' !! p) as [n'|] eqn:Hp'; [|done]);
    unfold place in He; simpl in He; injection He as E1 E2 E3.
  - eapply anc_root; [done|]. congruence.
  - eapply anc_up; [done|congruence|congruence|congruence|]. by rewrite E2.
Qed.

Lemma place_insert f p n n' q : heap f !! p = Some n -> place n' = place n ->
  place <$> heap (set_heap (<[p := n']> (heap f)) f) !! q = place <$> heap f !! q.
Proof. intros Hp Hn. simpl. by apply insert_fmap with n. Qed.

(** [f'] is [f] with [g] done to the nodes [ps]. *)
Definition locked (g : node -> node) (ps : list ptr) (f f' : fuse) : Prop :=
  exists a, f' = set_allocs a (set_heap (each g ps (heap f)) f).

Lemma locked_nil g f f' : grown f f' -> locked g [] f f'.
Proof. intros (a & ->). exists a. by destruct f. Qed.

Lemma locked_grown g ps f f1 f' : grown f f1 -> locked g ps f1 f' -> locked g ps f f'.
Proof. intros (a & ->) (a' & ->). by exists a'. Qed.

Lemma locked_cons g p n ps f f' : heap f !! p = Some n -> p ∉ ps -> NoDup ps ->
  locked g ps (set_heap (<[p := g n]> (heap f)) f) f' -> locked g (p :: ps) f f'.
Proof.
  intros Hp Hn Hnd (a & ->). exists a. simpl. by rewrite each_insert.
Qed.

(** How the walk ends: it got to the root, or stopped at a node. *)
Definition walk_post (f : fuse) (need : bool) (l : list (ptr * string)) (b : pathbuf)
    (r : walked) (f' : fuse) : Prop :=
  exists l1 l2, l = l1 ++ l2 /\
    locked lock_read (if need then l1.*1 else []) f f' /\
    (need = true -> forall q s n, (q, s) ∈ l1 -> heap f !! q = Some n -> 0 <= treelock n) /\
    match r with
    | Reached b' => l2 = [] /\ buf_wf b' /\ text b' = path_string l.*2 (text b)
    | Left err at_ => exists s l', l2 = (at_, s) :: l' /\
        (err = - ENOMEM \/
         (err = - EAGAIN /\ need = true /\ exists n, heap f !! at_ = Some n /\ treelock n < 0))
    end.

Lemma path_string_length l suffix : strlen suffix <= strlen (path_string l suffix).
Proof.
  revert suffix. induction l as [|s l IH]; intros suffix; simpl; [lia|].
  etransitivity; [|apply IH]. rewrite !strlen_app.
  pose proof (strlen_nonneg s). pose proof (strlen_nonneg "/"). lia.
Qed.

Lemma walk_up_runs fuel need p l b f : ancestry f p l -> (length l < fuel)%nat -> buf_wf b ->
  strlen (path_string l.*2 (text b)) + 1 <= 4294967295 ->
  runs (walk_up fuel need p b) f (walk_post f need l b).
Proof.
  revert p l b f. induction fuel as [|fuel IH]; intros p l b f Ha Hfuel Hb Hlen; [lia|].
  inversion Ha as [p0 n Hp Hr E1 E2|p0 n s l' Hp Hr Hs Hpar Ha' E1 E2]; subst; simpl; nstep.
  { rewrite Hr. simpl. apply runs_ret. exists [], []. split; [done|].
    split; [destruct need; apply locked_nil, grown_refl|]. split; [|done].
    intros _ q s n' Hq. by apply not_elem_of_nil in Hq. }
  destruct (Z.eqb_spec (nodeid n) FUSE_ROOT_ID); [done|]. rewrite Hs.
  destruct (Z.eqb_spec (parent n) NULL); [done|].
  pose proof (path_string_length l'.*2 ("/" +:+ s +:+ text b)) as Hl.
  rewrite fmap_cons in Hlen. cbn [path_string snd] in Hlen.
  eapply runs_bind; [apply (add_name_runs b s f Hb)|].
  { rewrite !strlen_app in Hl. change (strlen "/") with 1 in Hl. lia. }
  intros r f1 [Hgr Hb'].
  pose proof (ancestry_nodup f p _ Ha) as Hnd. simpl in Hnd. apply NoDup_cons in Hnd as [Hpl Hnd].
  destruct r as [b'|].
  2: { apply runs_ret. exists [], ((p, s) :: l'). split; [done|].
       split; [destruct need; by apply locked_nil|]. split; [|eauto 10].
       intros _ q s' n' Hq. by apply not_elem_of_nil in Hq. }
  destruct (Hb' b' eq_refl) as [Hbw Hbt].
  assert (Hheap : heap f1 = heap f) by (by destruct Hgr as (a & ->)).
  destruct need.
  - destruct (Z.ltb_spec (treelock n) 0) as [Hneg|Hpos].
    { apply runs_ret. exists [], ((p, s) :: l'). split; [done|].
      split; [by apply locked_nil|]. split; [intros _ q s' n' Hq; by apply not_elem_of_nil in Hq|].
      exists s, l'. split; [done|]. right. eauto. }
    eapply runs_update_bind; [by rewrite Hheap|]. cbv beta.
    set (f2 := set_heap _ f1).
    assert (Ha2 : ancestry f2 (parent n) l').
    { apply (ancestry_ext f1); [intros q; by apply (place_insert f1 p n); [rewrite Hheap|]|].
      apply (ancestry_ext f); [intros q; by rewrite Hheap|done]. }
    eapply runs_mono; [apply (IH (parent n) l' b' f2 Ha2); [simpl in Hfuel; lia|done|by rewrite Hbt]|].
    intros r f' (l1 & l2 & -> & Hlk & Hge & Hr'). exists ((p, s) :: l1), l2. split; [done|].
    rewrite fmap_app in Hpl, Hnd. apply not_elem_of_app in Hpl as [Hpl1 Hpl2].
    apply NoDup_app in Hnd as (Hnd1 & Hnd2 & _).
    assert (Hother : forall q s' m, (q, s') ∈ l1 ++ l2 -> heap f2 !! q = Some m -> heap f !! q = Some m).
    { intros q s' m Hq Hm. unfold f2 in Hm. simpl in Hm. rewrite Hheap in Hm.
      rewrite lookup_insert_ne in Hm; [done|]. intros ->.
      apply (list_elem_of_fmap_2 fst) in Hq. rewrite fmap_app, elem_of_app in Hq. simpl in Hq. tauto. }
    split; [|split].
    + eapply locked_grown; [exact Hgr|]. simpl. apply (locked_cons lock_read p n l1.*1); [by rewrite Hheap|done..].
    + intros _ q s' m [[= -> ->]|Hq]%elem_of_cons Hm; [by simplify_eq|].
      apply (Hge eq_refl q s' m Hq). unfold f2. simpl. rewrite Hheap, lookup_insert_ne; [done|].
      intros ->. apply Hpl1. exact (list_elem_of_fmap_2 fst l1 _ Hq).
    + destruct r as [b2|err at_].
      * destruct Hr' as (-> & Hw & Ht). split_and!; [done|done|by rewrite Ht, Hbt].
      * destruct Hr' as (s' & l3 & -> & Hcase). exists s', l3. split; [done|].
        destruct Hcase as [?|(? & ? & m & Hm & ?)]; [by left|right]. split; [done|]. split; [done|].
        exists m. split; [|done]. apply (Hother at_ s'); [|done]. apply elem_of_app. right. by left.
  - assert (Ha2 : ancestry f1 (parent n) l') by (apply (ancestry_ext f); [intros q; by rewrite Hheap|done]).
    eapply runs_mono; [apply (IH (parent n) l' b' f1 Ha2); [simpl in Hfuel; lia|done|by rewrite Hbt]|].
    intros r f' (l1 & l2 & -> & Hlk & _ & Hr'). exists ((p, s) :: l1), l2. split; [done|].
    split; [by eapply locked_grown|]. split; [done|]. destruct r as [b2|err at_].
    + destruct Hr' as (-> & Hw & Ht). split_and!; [done|done|by rewrite Ht, Hbt].
    + destruct Hr' as (s' & l3 & -> & [?|(? & ? & _)]); [|done]. eauto 10.
Qed.

(** ** Unlocking *)
Definition unlockable (n : node) : Prop :=
  treelock n <> 0 /\ treelock n <> TREELOCK_WAIT_OFFSET /\ treelock n <> TREELOCK_WRITE.

(** Where [unlock_path] stops: at the node it is given, or at the root. *)
Definition stops_at (l2 : list (ptr * string)) (end_ : ptr) : Prop :=
  (l2 = [] /\ end_ = NULL) \/ exists s l', l2 = (end_, s) :: l'.

Lemma ancestry_no_null f p l q s : heap f !! NULL = None -> ancestry f p l -> (q, s) ∈ l ->
  q <> NULL.
Proof.
  intros H0 Ha Hin ->. destruct (ancestry_live f p l NULL s Ha Hin) as (n & Hn & _). congruence.
Qed.

Lemma unlock_loop_runs fuel p l1 l2 end_ f : heap f !! NULL = None ->
  ancestry f p (l1 ++ l2) -> (length l1 < fuel)%nat -> stops_at l2 end_ ->
  (forall q s n, (q, s) ∈ l1 -> heap f !! q = Some n -> unlockable n) ->
  unlock_loop fuel p end_ f = Ok (tt, set_heap (each unlock_read l1.*1 (heap f)) f).
Proof.
  revert p l1 f. induction fuel as [|fuel IH]; intros p l1 f H0 Ha Hfuel Hend Hun; [lia|].
  destruct l1 as [|[p' s] l1]; simpl.
  - assert (E : set_heap (heap f) f = f) by (by destruct f). rewrite E. simpl in Ha.
    destruct (Z.eqb_spec p end_) as [|Hne]; [done|].
    destruct Hend as [[-> ->]|(s & l' & ->)]; [|inversion Ha; subst; done].
    inversion Ha as [p0 n Hp Hr|]; subst. unfold load, mbind, M_bind, getM. simpl. rewrite Hp. simpl.
    by rewrite Hr.
  - pose proof (ancestry_nodup f p _ Ha) as Hnd. simpl in Hnd. apply NoDup_cons in Hnd as [Hpl Hnd].
    assert (Hpl1 : p' ∉ l1.*1) by (intros Hin; apply Hpl; rewrite fmap_app; by apply elem_of_app; left).
    assert (Hnd1 : NoDup l1.*1) by (rewrite fmap_app in Hnd; by apply NoDup_app in Hnd as (? & _)).
    pose proof (ancestry_no_null f p _ p' s H0 Ha ltac:(by left)) as Hpn.
    assert (Hpe : p' <> end_).
    { destruct Hend as [[-> ->]|(s' & l' & ->)]; [done|]. intros ->. apply Hpl.
      rewrite fmap_app. apply elem_of_app. right. by left. }
    simpl in Ha. inversion Ha as [|p0 n s0 l0 Hp Hr Hs Hpar Ha' E1 E2]; subst p0 s0 l0.
    assert (p' = p) as -> by congruence.
    destruct (Z.eqb_spec p end_); [done|].
    destruct (Hun p s n) as (U1 & U2 & U3); [by left|done|].
    unfold load, mbind, M_bind, getM. simpl. rewrite Hp. simpl.
    rewrite (proj2 (Z.eqb_neq _ _) Hr), (proj2 (Z.eqb_neq _ _) U1),
      (proj2 (Z.eqb_neq _ _) U2), (proj2 (Z.eqb_neq _ _) U3). simpl.
    rewrite (update_eq f p n) by done.
    change (set_treelock (if treelock n - 1 =? TREELOCK_WAIT_OFFSET then 0 else treelock n - 1) n)
      with (unlock_read n).
    rewrite (IH (parent n) l1 (set_heap (<[p := unlock_read n]> (heap f)) f)).
    + simpl. by rewrite (each_insert unlock_read p n).
    + simpl. by rewrite lookup_insert_ne.
    + apply (ancestry_ext f); [|done]. intros q. by apply (place_insert f p n).
    + simpl in Hfuel. lia.
    + done.
    + intros q s' m Hq Hm. simpl in Hm. assert (q <> p) as Hqp.
      { intros ->. apply Hpl1. exact (list_elem_of_fmap_2 fst l1 _ Hq). }
      rewrite lookup_insert_ne in Hm by done. apply (Hun q s' m); [by right|done].
Qed.

#[local] Arguments walk_up : simpl never.
#[local] Arguments unlock_loop : simpl never.

(** ** A whole path *)
Definition same_places (f f' : fuse) : Prop :=
  (forall q, place <$> heap f' !! q = place <$> heap f !! q) /\
  id_table f' = id_table f /\ name_table f' = name_table f.

Lemma same_places_nodeid f f' q : same_places f f' ->
  nodeid <$> heap f' !! q = nodeid <$> heap f !! q.
Proof.
  intros [Hp _]. specialize (Hp q). destruct (heap f' !! q), (heap f !! q); simpl in *; try done.
  by injection Hp as -> _ _.
Qed.

(** What paths need of the graph; locks do not matter for it. *)
Record tree_wf (f : fuse) : Prop := mk_tree_wf {
  tr_null : heap f !! NULL = None;
  tr_id : table_wf (tkey id_ops f) (id_table f);
  tr_ids : forall p, p ∈ ids f <-> is_Some (heap f !! p);
  tr_name : table_wf (tkey name_ops f) (name_table f);
  tr_inj : forall p q n m, heap f !! p = Some n -> heap f !! q = Some m ->
    nodeid n = nodeid m -> p = q;
  tr_root : forall p n, heap f !! p = Some n -> is_root n -> p ∉ names f;
}.

Lemma fuse_wf_tree f : fuse_wf f -> tree_wf f.
Proof.
  intros Hw. pose proof (fw_graph _ Hw) as Hg.
  split; [by eapply NULL_not_live|apply Hg|apply Hg|apply Hg|apply Hg|].
  intros p n Hp Hr. by destruct (no_root _ _ _ (gw_nodes _ _ Hg p n Hp) Hr).
Qed.

Lemma same_places_some f f' q m' : same_places f f' -> heap f' !! q = Some m' ->
  exists m, heap f !! q = Some m /\ nodeid m = nodeid m'.
Proof.
  intros Hs Hq. pose proof (same_places_nodeid f f' q Hs) as E. rewrite Hq in E.
  destruct (heap f !! q) as [m|]; [|done]. exists m. split; [done|]. simpl in E. congruence.
Qed.

Lemma same_places_sym f f' : same_places f f' -> same_places f' f.
Proof. intros (H1 & H2 & H3). by split_and!. Qed.

Lemma same_places_tree f f' : same_places f f' -> tree_wf f -> tree_wf f'.
Proof.
  intros Hs [T1 T2 T3 T4 T5 T6]. pose proof Hs as (Hp & Ht & Hn).
  assert (Hids : ids f' = ids f) by (unfold ids; by rewrite Ht).
  assert (Hnames : names f' = names f) by (unfold names; by rewrite Hn).
  assert (Hfield : forall A (g : node -> A) (h : Z * ptr * option string -> A),
    (forall n, g n = h (place n)) -> forall q, g <$> heap f' !! q = g <$> heap f !! q).
  { intros A g h Hgh q. specialize (Hp q).
    destruct (heap f' !! q) as [n|], (heap f !! q) as [m|]; try done. simpl in *.
    assert (place n = place m) as E by congruence. by rewrite !Hgh, E. }
  pose proof (Hfield _ nodeid (fun x => x.1.1) ltac:(done)) as F1.
  pose proof (Hfield _ parent (fun x => x.1.2) ltac:(done)) as F2.
  pose proof (Hfield _ name (fun x => x.2) ltac:(done)) as F3.
  constructor; rewrite ?Hids, ?Hnames, ?Ht, ?Hn.
  - specialize (Hp NULL). rewrite T1 in Hp. by destruct (heap f' !! NULL).
  - apply (table_wf_ext (tkey id_ops f)); [|done]. intros q _.
    exact (set_heap_key_id f (heap f') q F1).
  - intros q. rewrite T3, <- !(fmap_is_Some nodeid). by rewrite F1.
  - apply (table_wf_ext (tkey name_ops f)); [|done]. intros q _.
    exact (set_heap_key_name f (heap f') q F1 (F2 q) (F3 q)).
  - intros q q' m m' Hq Hq' He. destruct (same_places_some f f' q m Hs Hq) as (n & Hqn & E1).
    destruct (same_places_some f f' q' m' Hs Hq') as (n' & Hqn' & E2).
    apply (T5 q q' n n'); congruence.
  - intros q m Hq Hr. destruct (same_places_some f f' q m Hs Hq) as (n & Hqn & E1).
    apply (T6 q n Hqn). unfold is_root in *. by rewrite E1.
Qed.

Lemma tree_ids_wf f : tree_wf f -> ids_wf f.
Proof. intros Hw. split; [apply (tr_id _ Hw)|]. intros p. apply (tr_ids _ Hw). Qed.

Lemma tree_get_node f p n : tree_wf f -> heap f !! p = Some n ->
  get_node (nodeid n) f = Ok (p, f).
Proof.
  intros Hw Hp. apply get_node_runs; [by apply tree_ids_wf| |apply (tr_null _ Hw)|].
  - exists n. split_and!; [apply (tr_ids _ Hw); eauto|done..].
  - intros q (m & _ & Hq & Hid). by apply (tr_inj _ Hw q p m n).
Qed.

Lemma get_node_places f f' p n : tree_wf f -> same_places f f' -> heap f !! p = Some n ->
  get_node (nodeid n) f' = Ok (p, f').
Proof.
  intros Hw Hs Hp. destruct (same_places_some f' f p n (same_places_sym _ _ Hs) Hp) as (m & Hm & E).
  rewrite <- E. apply tree_get_node; [by eapply same_places_tree|done].
Qed.

(** The write lock on [w], if there is one. *)
Definition write_lock (w : ptr) (h : gmap ptr node) : gmap ptr node :=
  alter (set_treelock TREELOCK_WRITE) w h.

(** A request that waits leaves its mark on a node that is read. *)
Definition wait_mark (w : ptr) (h : gmap ptr node) : gmap ptr node :=
  alter (fun n => if 0 <? treelock n then set_treelock (treelock n + TREELOCK_WAIT_OFFSET) n else n) w h.

Lemma alter_absent {A} (g : A -> A) (w : ptr) (h : gmap ptr A) : h !! w = None -> alter g w h = h.
Proof.
  intros Hw. apply map_eq. intros q. destruct (decide (q = w)) as [->|].
  - by rewrite lookup_alter_eq, Hw.
  - by rewrite lookup_alter_ne.
Qed.

Lemma lock_wnode_runs f id s : tree_wf f ->
  runs (lock_wnode id (Some s)) f (fun r f' =>
    (r = (0, NULL) /\ f' = f /\ forall q, ~ has_name f id s q) \/
    (exists w n, has_name f id s w /\ heap f !! w = Some n /\
       ((r = (0, w) /\ treelock n = 0 /\ f' = set_heap (write_lock w (heap f)) f) \/
        (r = (- EAGAIN, w) /\ treelock n <> 0 /\ f' = set_heap (wait_mark w (heap f)) f)))).
Proof.
  intros Hw. pose proof (tr_null _ Hw) as H0. unfold lock_wnode. mstep.
  destruct (lookup_node_spec f id s (tr_name _ Hw)) as [[Hl Hno]|(w & Hl & Hhas)].
  - apply runs_bind with (P := fun r f' => r = NULL /\ f' = f); [by exists NULL, f|].
    intros r f' [-> ->]. simpl. apply runs_ret. by left.
  - apply runs_bind with (P := fun r f' => r = w /\ f' = f); [by exists w, f|].
    intros r f' [-> ->]. pose proof Hhas as (n & _ & _ & Hn & _).
    destruct (Z.eqb_spec w NULL) as [->|_]; [congruence|]. nstep.
    destruct (Z.eqb_spec (treelock n) 0) as [Ht|Ht]; simpl.
    + nstep. apply runs_ret. right. exists w, n. split; [done|]. split; [done|]. left.
      split; [done|]. split; [done|]. unfold write_lock. by rewrite (alter_insert_eq _ w _ n).
    + apply runs_bind with (P := fun _ f' => f' = set_heap (wait_mark w (heap f)) f).
      { unfold wait_mark. rewrite (alter_insert_eq _ w _ n) by done.
        destruct (0 <? treelock n).
        - eexists _, _. split; [by apply (update_eq f w n)|done].
        - apply runs_ret. rewrite insert_id by done. by destruct f. }
      intros [] f' ->. apply runs_ret. right. exists w, n. auto 10.
Qed.

Definition write_unlock (w : ptr) (h : gmap ptr node) : gmap ptr node :=
  alter (set_treelock 0) w h.

Lemma place_alter g (w q : ptr) (h : gmap ptr node) : (forall n, place (g n) = place n) ->
  place <$> alter g w h !! q = place <$> h !! q.
Proof.
  intros Hg. destruct (decide (q = w)) as [->|].
  - rewrite lookup_alter_eq. destruct (h !! w); simpl; [by rewrite Hg|done].
  - by rewrite lookup_alter_ne.
Qed.

Lemma place_each g ps (h : gmap ptr node) q : (forall n, place (g n) = place n) ->
  place <$> each g ps h !! q = place <$> h !! q.
Proof.
  intros Hg. induction ps as [|p ps IH]; [done|]. simpl. by rewrite place_alter.
Qed.

Lemma same_places_heap f h : (forall q, place <$> h !! q = place <$> heap f !! q) ->
  same_places f (set_heap h f).
Proof. by split. Qed.

Lemma same_places_trans f g h : same_places f g -> same_places g h -> same_places f h.
Proof. intros (H1 & H2 & H3) (H4 & H5 & H6). split_and!; [intros q|..]; congruence. Qed.

Lemma same_places_allocs f a : same_places f (set_allocs a f).
Proof. done. Qed.

Lemma unlock_path_runs f0 f p n l1 l2 w end_ : tree_wf f0 -> same_places f0 f ->
  heap f0 !! p = Some n -> ancestry f0 p (l1 ++ l2) -> stops_at l2 end_ ->
  w ∉ l1.*1 -> (w <> NULL -> exists m, heap f !! w = Some m /\ treelock m = TREELOCK_WRITE) ->
  (forall q s m, (q, s) ∈ l1 -> heap f !! q = Some m -> unlockable m) ->
  unlock_path (nodeid n) w end_ f =
    Ok (tt, set_heap (each unlock_read l1.*1 (write_unlock w (heap f))) f).
Proof.
  intros Hw Hs Hp Ha Hend Hwl Hwt Hun.
  assert (H0 : heap f !! NULL = None).
  { pose proof (tr_null _ Hw) as H0. destruct Hs as (Hs & _). specialize (Hs NULL).
    rewrite H0 in Hs. by destruct (heap f !! NULL). }
  set (f1 := set_heap (write_unlock w (heap f)) f).
  assert (Hs1 : same_places f0 f1).
  { eapply same_places_trans; [exact Hs|]. apply same_places_heap. intros q. by apply place_alter. }
  assert (Hstep : (if negb (w =? NULL) then w0 ← load w; assertM (treelock w0 =? TREELOCK_WRITE);; update w (set_treelock 0)
     else mret tt) f = Ok (tt, f1)).
  { unfold f1, write_unlock. destruct (Z.eqb_spec w NULL) as [->|Hne]; simpl.
    - rewrite alter_absent by done. by destruct f.
    - destruct (Hwt Hne) as (m & Hm & Ht). rewrite (alter_insert_eq _ w _ m) by done.
      unfold load, mbind, M_bind, getM. simpl. rewrite Hm. simpl.
      rewrite Ht, Z.eqb_refl. simpl. by apply (update_eq f w m). }
  unfold unlock_path. unfold mbind at 1, M_bind at 1. rewrite Hstep.
  unfold mbind at 1, M_bind at 1. rewrite (get_node_places f0 f1 p n Hw Hs1 Hp).
  unfold mbind, M_bind, getM.
  assert (Ha1 : ancestry f1 p (l1 ++ l2)) by (apply (ancestry_ext f0); [apply Hs1|done]).
  assert (Hwo : forall q, q <> w -> heap f1 !! q = heap f !! q).
  { intros q Hq. unfold f1, write_unlock. simpl. by rewrite lookup_alter_ne. }
  rewrite (unlock_loop_runs (tree_fuel f1) p l1 l2 end_ f1); try done.
  - unfold f1, write_unlock. simpl. destruct (decide (w = NULL)) as [->|Hne].
    + by rewrite lookup_alter_eq, H0.
    + by rewrite lookup_alter_ne.
  - pose proof (ancestry_length f1 p _ Ha1) as Hl. rewrite length_app in Hl. lia.
  - intros q s m Hq Hm. rewrite Hwo in Hm; [by apply (Hun q s)|]. intros ->.
    apply Hwl. exact (list_elem_of_fmap_2 fst l1 _ Hq).
Qed.

(** Unlocking undoes the locks on a heap. *)
Lemma unlock_restores l1 w h : NoDup l1 -> w ∉ l1 ->
  (forall q n, q ∈ l1 -> h !! q = Some n -> 0 <= treelock n) ->
  (forall n, h !! w = Some n -> treelock n = 0) ->
  each unlock_read l1 (write_unlock w (each lock_read l1 (write_lock w h))) = h.
Proof.
  intros Hnd Hw Ht Hw0. apply map_eq. intros q. rewrite each_lookup by done.
  unfold write_unlock, write_lock. case_decide as Hq.
  - assert (q <> w) by (by intros ->). rewrite lookup_alter_ne by done.
    rewrite each_lookup by done. rewrite decide_True by done. rewrite lookup_alter_ne by done.
    destruct (h !! q) as [n|] eqn:Hn; [|done]. simpl. f_equal. apply unlock_lock_read. by apply (Ht q).
  - destruct (decide (q = w)) as [->|Hne].
    + rewrite lookup_alter_eq, each_lookup by done. rewrite decide_False by done.
      rewrite lookup_alter_eq. destruct (h !! w) as [n|] eqn:Hn; [|done]. simpl. f_equal.
      specialize (Hw0 n eq_refl). destruct n. simpl in *. subst. done.
    + rewrite lookup_alter_ne by done. rewrite each_lookup by done.
      rewrite decide_False by done. by rewrite lookup_alter_ne.
Qed.

Definition suffix (nm : option string) : string :=
  match nm with None => "" | Some s => "/" +:+ s end.

Definition full_path (l : list (ptr * string)) (nm : option string) : string :=
  let t := path_string l.*2 (suffix nm) in if String.eqb t "" then "/" else t.

(** [(nodeid n, nm)] is in the way of somebody else's lock. *)
Definition blocked (f : fuse) (id : Z) (l : list (ptr * string)) (nm : option string) : Prop :=
  (exists q s m, (q, s) ∈ l /\ heap f !! q = Some m /\ treelock m < 0) \/
  (exists s w m, nm = Some s /\ has_name f id s w /\ heap f !! w = Some m /\ treelock m <> 0).

(** What [try_get_path] is about: a node below the root, and what it is asked for. *)
Record request (f : fuse) (id : Z) (p : ptr) (l : list (ptr * string)) (nm : option string)
    (want need : bool) : Prop := mk_request {
  rq_node : exists n, heap f !! p = Some n /\ nodeid n = id;
  rq_up : ancestry f p l;
  rq_size : strlen (path_string l.*2 (suffix nm)) + 1 <= 4294967295;
  rq_want : want = true -> need = true /\ exists s, nm = Some s;
}.

(** A granted request has every node on the way up read-locked, and the named node, if
    there is one, write-locked. *)
Definition granted (f : fuse) (id : Z) (l : list (ptr * string)) (nm : option string)
    (want need : bool) (w : ptr) (f' : fuse) : Prop :=
  (exists a, f' = set_allocs a
     (set_heap (each lock_read (if need then l.*1 else []) (write_lock w (heap f))) f)) /\
  (need = true -> forall q s m, (q, s) ∈ l -> heap f !! q = Some m -> 0 <= treelock m) /\
  (want = false -> w = NULL) /\
  (want = true -> exists s, nm = Some s /\
     ((w = NULL /\ forall q, ~ has_name f id s q) \/
      (has_name f id s w /\ exists m, heap f !! w = Some m /\ treelock m = 0))).

(** A refused one leaves every lock as it was, but for the mark of a waiting writer. *)
Definition refused (f : fuse) (id : Z) (l : list (ptr * string)) (nm : option string)
    (want need : bool) (err : Z) (f' : fuse) : Prop :=
  (exists a w0, f' = set_allocs a (set_heap (wait_mark w0 (heap f)) f) /\
     (w0 = NULL \/ (want = true /\ err = - EAGAIN /\ exists s, nm = Some s /\ has_name f id s w0))) /\
  (err = - ENOMEM \/ (err = - EAGAIN /\ need = true /\ blocked f id l nm)).

Lemma named_child_fresh f p n l s w : tree_wf f -> heap f !! p = Some n -> ancestry f p l ->
  has_name f (nodeid n) s w -> w ∉ l.*1 /\ w <> NULL.
Proof.
  intros Hw Hp Ha Hhas. pose proof (tr_null _ Hw) as H0.
  pose proof Hhas as (m & pm & Hin & Hm & Hpm & Hid & Hs).
  assert (parent m = p) as Hpar by (by apply (tr_inj _ Hw _ _ pm n)).
  assert (Hroot : ~ is_root m) by (intros Hr; by apply (tr_root _ Hw w m)).
  assert (Hup : ancestry f w ((w, s) :: l)).
  { eapply anc_up; [done|done|done|rewrite Hpar; intros ->; congruence|by rewrite Hpar]. }
  apply ancestry_nodup in Hup. simpl in Hup. apply NoDup_cons in Hup as [? _].
  split; [done|]. intros ->. congruence.
Qed.

Lemma refused_nothing f id l nm want need err a : heap f !! NULL = None ->
  err = - ENOMEM \/ (err = - EAGAIN /\ need = true /\ blocked f id l nm) ->
  refused f id l nm want need err (set_allocs a f).
Proof.
  intros H0 He. split; [|done]. exists a, NULL. split; [|by left].
  unfold wait_mark. rewrite alter_absent by done. by destruct f.
Qed.

(** The walk of [try_get_path] from the state [f3], with [w] write-locked. *)
Section Climb.
Context (f f3 : fuse) (p : ptr) (n : node) (l : list (ptr * string)) (nm : option string)
  (want need : bool) (w : ptr) (b : pathbuf).
Context (Hw : tree_wf f) (Hp : heap f !! p = Some n) (Ha : ancestry f p l)
  (Hf3 : exists a, f3 = set_allocs a (set_heap (write_lock w (heap f)) f))
  (Hb : buf_wf b) (Htext : text b = suffix nm)
  (Hlen : strlen (path_string l.*2 (suffix nm)) + 1 <= 4294967295)
  (Hwl : w ∉ l.*1) (Hw0 : forall m, heap f !! w = Some m -> treelock m = 0)
  (HwN : w = NULL \/ (need = true /\ is_Some (heap f !! w)))
  (Hwant : forall f', (exists a, f' = set_allocs a
     (set_heap (each lock_read (if need then l.*1 else []) (write_lock w (heap f))) f)) ->
     (need = true -> forall q s m, (q, s) ∈ l -> heap f !! q = Some m -> 0 <= treelock m) ->
     granted f (nodeid n) l nm want need w f').

Lemma climb_heap q : q <> w -> heap f3 !! q = heap f !! q.
Proof.
  intros Hq. destruct Hf3 as (a & ->). simpl. unfold write_lock. by rewrite lookup_alter_ne.
Qed.

Lemma climb_in q s l1 l2 : l = l1 ++ l2 -> (q, s) ∈ l -> heap f3 !! q = heap f !! q.
Proof.
  intros _ Hq. apply climb_heap. intros ->. apply Hwl. exact (list_elem_of_fmap_2 fst l _ Hq).
Qed.

Lemma climb_places : same_places f f3.
Proof.
  destruct Hf3 as (a & ->). eapply same_places_trans; [|apply same_places_allocs].
  apply same_places_heap. intros q. by apply place_alter.
Qed.

(** Giving up half way. *)
Lemma climb_back l1 l2 at_ f4 : l = l1 ++ l2 -> stops_at l2 at_ ->
  locked lock_read (if need then l1.*1 else []) f3 f4 ->
  (need = true -> forall q s m, (q, s) ∈ l1 -> heap f3 !! q = Some m -> 0 <= treelock m) ->
  runs (if need then unlock_path (nodeid n) w at_ else mret tt) f4
    (fun _ f' => grown f f').
Proof.
  intros El Hstop Hlk Hge. pose proof (ancestry_nodup f p l Ha) as Hnd.
  assert (Hl1 : forall q s, (q, s) ∈ l1 -> (q, s) ∈ l) by (intros q s Hq; rewrite El; apply elem_of_app; by left).
  rewrite El, fmap_app in Hnd. apply NoDup_app in Hnd as (Hnd1 & _ & _).
  assert (Hw1 : w ∉ l1.*1) by (intros Hin; apply Hwl; rewrite El, fmap_app; apply elem_of_app; by left).
  destruct need; [|destruct HwN as [Hnull|[? _]]; [|done]].
  - assert (Hplaces : same_places f f4).
    { eapply same_places_trans; [apply climb_places|]. destruct Hlk as (a & ->).
      eapply same_places_trans; [|apply same_places_allocs]. apply same_places_heap.
      intros q. by apply place_each. }
    assert (Hh4 : heap f4 = each lock_read l1.*1 (write_lock w (heap f))).
    { destruct Hlk as (a & ->), Hf3 as (a3 & ->). done. }
    eexists tt, _. split.
    { rewrite El in Ha. apply (unlock_path_runs f f4 p n l1 l2 w at_ Hw Hplaces Hp Ha Hstop Hw1).
      - intros Hne. destruct HwN as [|[_ [m Hm]]]; [done|]. exists (set_treelock TREELOCK_WRITE m).
        split; [|done]. rewrite Hh4, each_lookup by done. rewrite decide_False by done.
        unfold write_lock. by rewrite lookup_alter_eq, Hm.
      - intros q s m Hq Hm. pose proof (list_elem_of_fmap_2 fst l1 _ Hq) as Hq1. simpl in Hq1.
        rewrite Hh4, each_lookup, decide_True in Hm by done.
        assert (q <> w) as Hqw by (by intros ->).
        unfold write_lock in Hm. rewrite lookup_alter_ne in Hm by done.
        destruct (heap f !! q) as [m0|] eqn:Hm0; [|done]. injection Hm as <-.
        assert (0 <= treelock m0) as Ht by (apply (Hge eq_refl q s m0 Hq); by rewrite climb_heap).
        unfold unlockable, lock_read, TREELOCK_WAIT_OFFSET, TREELOCK_WRITE, INT_MIN. simpl. lia. }
    rewrite Hh4, unlock_restores; try done.
    + destruct Hlk as (a & ->), Hf3 as (a3 & ->). exists a. by destruct f.
    + intros q m Hq Hm. apply list_elem_of_fmap in Hq as ([q' s] & -> & Hq).
      apply (Hge eq_refl q' s m Hq). by rewrite (climb_in q' s l1 l2 El (Hl1 _ _ Hq)).
  - apply runs_ret. destruct Hlk as (a & ->), Hf3 as (a3 & ->). exists a. rewrite Hnull.
    unfold write_lock. simpl. rewrite alter_absent by (apply (tr_null _ Hw)).
    by destruct f.
Qed.

Lemma climb :
  runs (p0 ← get_node (nodeid n); f0 ← getM; r ← walk_up (tree_fuel f0) need p0 b;
        match r with
        | Reached b' =>
          mret (0, Some (if String.eqb (text b') "" then "/"%string else text b'), w)
        | Left err at_ =>
          (if need then unlock_path (nodeid n) w at_ else mret tt);; mret (err, None, NULL)
        end) f3
    (fun r f' => (exists w', r = (0, Some (full_path l nm), w') /\ w' = w /\
                    granted f (nodeid n) l nm want need w f') \/
       (exists err, r = (err, None, NULL) /\ refused f (nodeid n) l nm want need err f')).
Proof.
  pose proof climb_places as Hplaces.
  apply runs_bind with (P := fun r f' => r = p /\ f' = f3).
  { exists p, f3. split; [by apply (get_node_places f f3 p n)|done]. }
  intros r f' [-> ->]. mstep.
  assert (Ha3 : ancestry f3 p l) by (apply (ancestry_ext f); [apply Hplaces|done]).
  eapply runs_bind; [apply (walk_up_runs _ need p l b f3 Ha3); try done|].
  { by apply (ancestry_length f3 p). }
  { by rewrite Htext. }
  intros r f4 (l1 & l2 & El & Hlk & Hge & Hr). destruct r as [b'|err at_].
  - destruct Hr as (-> & _ & Ht). rewrite app_nil_r in El. subst l1.
    apply runs_ret. left. exists w. unfold full_path. rewrite Ht, Htext. split; [done|]. split; [done|].
    apply Hwant.
    + destruct Hlk as (a & ->), Hf3 as (a3 & ->). by exists a.
    + intros Hn q s m Hq Hm. apply (Hge Hn q s m Hq). by rewrite (climb_in q s l [] (eq_sym (app_nil_r l)) Hq).
  - destruct Hr as (s & l' & E2 & Hcase).
    eapply runs_bind; [apply (climb_back l1 l2 at_ f4 El); [right; by eexists _, _|done|done]|].
    intros [] f5 (a & ->). apply runs_ret. right. exists err. split; [done|].
    apply refused_nothing; [apply (tr_null _ Hw)|].
    destruct Hcase as [?|(? & ? & m & Hm & Hneg)]; [by left|right]. split; [done|]. split; [done|].
    assert (Hin : (at_, s) ∈ l) by (rewrite El, E2; apply elem_of_app; right; by left).
    rewrite (climb_in at_ s l1 l2 El Hin) in Hm. left. eauto 10.
Qed.
End Climb.

Definition path_post (f : fuse) (id : Z) (l : list (ptr * string)) (nm : option string)
    (want need : bool) (r : Z * option string * ptr) (f' : fuse) : Prop :=
  (exists w, r = (0, Some (full_path l nm), w) /\ granted f id l nm want need w f') \/
  (exists err, r = (err, None, NULL) /\ refused f id l nm want need err f').

Lemma write_lock_NULL f : heap f !! NULL = None -> write_lock NULL (heap f) = heap f.
Proof. intros H0. unfold write_lock. by apply alter_absent. Qed.

Lemma write_lock_grown f a w :
  exists a', set_heap (write_lock w (heap (set_allocs a f))) (set_allocs a f) =
    set_allocs a' (set_heap (write_lock w (heap f)) f).
Proof. by exists a. Qed.

Lemma try_get_path_runs f id p l nm want need : tree_wf f -> request f id p l nm want need ->
  runs (try_get_path id nm want need) f (path_post f id l nm want need).
Proof.
  intros Hw [(n & Hp & <-) Ha Hlen Hwant].
  pose proof (tr_null _ Hw) as H0.
  assert (Hmem : forall a, path_post f (nodeid n) l nm want need (- ENOMEM, None, NULL) (set_allocs a f)).
  { intros a. right. eexists. split; [done|]. apply refused_nothing; auto. }
  unfold try_get_path. eapply runs_bind; [apply malloc_runs|].
  intros ok f1 (a1 & ->). destruct ok; simpl; [|by apply runs_ret].
  apply runs_bind with (P := fun r f2 => grown f f2 /\
    forall b, r = Some b -> buf_wf b /\ text b = suffix nm).
  { pose proof (path_string_length l.*2 (suffix nm)) as Hl. destruct nm as [s|].
    - eapply runs_mono; [apply (add_name_runs _ s _ buf_wf_init)|].
      + simpl in *. rewrite strlen_app in Hl. change (strlen "/") with 1 in Hl. change (strlen "") with 0. lia.
      + intros r f2 [(a2 & ->) Hb]. split; [by exists a2|]. intros b Hr.
        destruct (Hb b Hr) as [? Ht]. split; [done|]. rewrite Ht. simpl. by rewrite string_app_nil_r.
    - apply runs_ret. split; [by exists a1|]. intros b [= <-]. split; [apply buf_wf_init|done]. }
  intros [b|] f2 [(a2 & ->) Hb]; [|by apply runs_ret]. destruct (Hb b eq_refl) as [Hbw Hbt].
  destruct want; simpl.
  - destruct (Hwant eq_refl) as [-> [s ->]]. apply runs_bind_assoc, runs_assert_bind; [done|].
    eapply runs_bind; [apply (lock_wnode_runs _ _ s (same_places_tree _ _ (same_places_allocs f a2) Hw))|].
    intros [err w] f3 [([= -> ->] & -> & Hno)|(w0 & m & Hhas & Hm & [([= -> ->] & Ht & ->)|([= -> ->] & Ht & ->)])].
    + simpl. eapply runs_mono; [apply (climb f (set_allocs a2 f) p n l (Some s) true true NULL b); try done|].
      * exists a2. rewrite write_lock_NULL by done. by destruct f.
      * intros Hin. apply list_elem_of_fmap in Hin as ([q s'] & Hq & Hin). simpl in Hq.
        destruct (ancestry_live f p l q s' Ha Hin) as (m & Hm & _). by rewrite <- Hq, H0 in Hm.
      * intros m Hm. by rewrite H0 in Hm.
      * by left.
      * intros f' Hf' Hge. split; [done|]. split; [done|]. split; [done|].
        intros _. exists s. split; [done|]. by left.
      * intros r f' [(w' & -> & -> & Hgr)|(err & -> & Href)]; [left|right]; eauto.
    + change (has_name f (nodeid n) s w0) in Hhas. change (heap f !! w0 = Some m) in Hm.
      destruct (named_child_fresh f p n l s w0 Hw Hp Ha Hhas) as [Hwl Hwn]. simpl.
      eapply runs_mono; [apply (climb f _ p n l (Some s) true true w0 b); try done|].
      * by exists a2.
      * intros m' Hm'. by simplify_eq.
      * right. eauto.
      * intros f' Hf' Hge. split; [done|]. split; [done|]. split; [done|].
        intros _. exists s. split; [done|]. right. eauto.
      * intros r f' [(w' & -> & -> & Hgr)|(err & -> & Href)]; [left|right]; eauto.
    + change (has_name f (nodeid n) s w0) in Hhas. change (heap f !! w0 = Some m) in Hm.
      simpl. apply runs_ret. right. exists (- EAGAIN). split; [done|]. split.
      * exists a2, w0. split; [done|]. right. split; [done|]. split; [done|]. eauto.
      * right. split; [done|]. split; [done|]. right. eauto 10.
  - apply runs_ret_bind. simpl.
    eapply runs_mono; [apply (climb f (set_allocs a2 f) p n l nm false need NULL b); try done|].
    + exists a2. rewrite write_lock_NULL by done. by destruct f.
    + intros Hin. apply list_elem_of_fmap in Hin as ([q s'] & Hq & Hin). simpl in Hq.
      destruct (ancestry_live f p l q s' Ha Hin) as (m & Hm & _). by rewrite <- Hq, H0 in Hm.
    + intros m Hm. by rewrite H0 in Hm.
    + by left.
    + intros r f' [(w' & -> & -> & Hgr)|(err & -> & Href)]; [left|right]; eauto.
Qed.

(** ** Exclusion

    [gs] are the requests that hold their locks. *)
Record grant : Type := mk_grant {
  g_id : Z;
  g_ptr : ptr;
  g_up : list (ptr * string);
  g_w : ptr;
}.

Definition readers (gs : list grant) (q : ptr) : Z :=
  Z.of_nat (length (filter (fun g => q ∈ (g_up g).*1) gs)).
Definition writers (gs : list grant) (q : ptr) : Z :=
  Z.of_nat (length (filter (fun g => g_w g = q) gs)).

(** What the lock count of a node with [r] readers and [w] writers can be. *)
Definition lock_ok (r w t : Z) : Prop :=
  (w = 0 /\ (t = r \/ (0 < r /\ t = TREELOCK_WAIT_OFFSET + r))) \/
  (w = 1 /\ r = 0 /\ t = TREELOCK_WRITE).

Record grant_ok (f : fuse) (g : grant) : Prop := mk_grant_ok {
  gr_node : exists n, heap f !! g_ptr g = Some n /\ nodeid n = g_id g;
  gr_up : ancestry f (g_ptr g) (g_up g);
  gr_w : g_w g ∉ (g_up g).*1;
  gr_live : g_w g <> NULL -> is_Some (heap f !! g_w g);
}.

Record locks_wf (f : fuse) (gs : list grant) : Prop := mk_locks_wf {
  lw_tree : tree_wf f;
  lw_count : forall q m, heap f !! q = Some m -> lock_ok (readers gs q) (writers gs q) (treelock m);
  lw_grants : forall g, g ∈ gs -> grant_ok f g;
  lw_bound : Z.of_nat (length gs) < 2 ^ 31 - 1;
}.

(** The steps of the threads: a request is granted or refused, or gives its locks
    back.  Each step is a critical section under the mutex of [struct fuse]. *)
Inductive lock_step : fuse * list grant -> fuse * list grant -> Prop :=
| step_grant f gs id p l nm want path w f' :
    request f id p l nm want true -> Z.of_nat (length gs) + 1 < 2 ^ 31 - 1 ->
    try_get_path id nm want true f = Ok ((0, path, w), f') ->
    lock_step (f, gs) (f', mk_grant id p l w :: gs)
| step_refuse f gs id p l nm want err path w f' :
    request f id p l nm want true -> err <> 0 ->
    try_get_path id nm want true f = Ok ((err, path, w), f') ->
    lock_step (f, gs) (f', gs)
| step_release f gs1 g gs2 f' :
    unlock_path (g_id g) (g_w g) NULL f = Ok (tt, f') ->
    lock_step (f, gs1 ++ g :: gs2) (f', gs1 ++ gs2).

Lemma readers_bound gs q : 0 <= readers gs q <= Z.of_nat (length gs).
Proof. unfold readers. pose proof (length_filter (fun g => q ∈ (g_up g).*1) gs). lia. Qed.

Lemma readers_cons g gs q :
  readers (g :: gs) q = readers gs q + if decide (q ∈ (g_up g).*1) then 1 else 0.
Proof. unfold readers. rewrite filter_cons. case_decide; simpl; lia. Qed.

Lemma writers_cons g gs q : writers (g :: gs) q = writers gs q + if decide (g_w g = q) then 1 else 0.
Proof. unfold writers. rewrite filter_cons. case_decide; simpl; lia. Qed.

Lemma readers_app_cons gs1 g gs2 q :
  readers (gs1 ++ g :: gs2) q = readers (gs1 ++ gs2) q + if decide (q ∈ (g_up g).*1) then 1 else 0.
Proof. unfold readers. rewrite !filter_app, filter_cons. case_decide; rewrite !length_app; simpl; lia. Qed.

Lemma writers_app_cons gs1 g gs2 q :
  writers (gs1 ++ g :: gs2) q = writers (gs1 ++ gs2) q + if decide (g_w g = q) then 1 else 0.
Proof. unfold writers. rewrite !filter_app, filter_cons. case_decide; rewrite !length_app; simpl; lia. Qed.

Lemma grant_ok_places f f' g : same_places f f' -> grant_ok f g -> grant_ok f' g.
Proof.
  intros Hs [(n & Hn & Hid) Hup Hw Hl]. split; [| |done|].
  - destruct (same_places_some f' f _ n (same_places_sym _ _ Hs) Hn) as (m & Hm & E).
    exists m. split; [done|congruence].
  - apply (ancestry_ext f); [apply Hs|done].
  - intros Hne. destruct (Hl Hne) as [m Hm].
    destruct (same_places_some f' f _ m (same_places_sym _ _ Hs) Hm) as (m' & Hm' & _). eauto.
Qed.

(** A refused request changes nothing but marks. *)
Lemma refused_locks f gs id l nm want err f' : locks_wf f gs ->
  refused f id l nm want true err f' -> locks_wf f' gs.
Proof.
  intros [Ht Hc Hg Hb] [(a & w0 & -> & _) _].
  assert (Hs : same_places f (set_allocs a (set_heap (wait_mark w0 (heap f)) f))).
  { eapply same_places_trans; [|apply same_places_allocs]. apply same_places_heap. intros q.
    apply place_alter. intros n. by destruct (0 <? treelock n). }
  constructor; [by eapply same_places_tree| |intros g ?; by eapply grant_ok_places; [|apply Hg]|done].
  intros q m Hq. simpl in Hq. unfold wait_mark in Hq.
  destruct (decide (q = w0)) as [->|Hne]; [|rewrite lookup_alter_ne in Hq by done; by apply Hc].
  rewrite lookup_alter_eq in Hq. destruct (heap f !! w0) as [m0|] eqn:Hm0; [|done].
  injection Hq as <-. specialize (Hc w0 m0 Hm0). destruct (Z.ltb_spec 0 (treelock m0)); [|done].
  simpl. unfold lock_ok, TREELOCK_WAIT_OFFSET, TREELOCK_WRITE, INT_MIN in *.
  pose proof (readers_bound gs w0). lia.
Qed.

Lemma granted_heap f id l nm want w f' q : NoDup l.*1 ->
  granted f id l nm want true w f' -> heap f' !! q =
    if decide (q ∈ l.*1) then lock_read <$> write_lock w (heap f) !! q
    else write_lock w (heap f) !! q.
Proof. intros Hnd [(a & ->) _]. simpl. by apply each_lookup. Qed.

Lemma granted_places f id l nm want need w f' : granted f id l nm want need w f' -> same_places f f'.
Proof.
  intros [(a & ->) _]. eapply same_places_trans; [|apply same_places_allocs].
  apply same_places_heap. intros q. rewrite place_each by done. by apply place_alter.
Qed.

Lemma granted_fresh f id p n l nm want w f' : tree_wf f -> heap f !! p = Some n ->
  nodeid n = id -> ancestry f p l -> granted f id l nm want true w f' ->
  w ∉ l.*1 /\ (w <> NULL -> exists m, heap f !! w = Some m /\ treelock m = 0).
Proof.
  intros Ht Hp <- Ha (_ & _ & Hf & Hw).
  assert (Hnull : NULL ∉ l.*1).
  { intros Hin. apply list_elem_of_fmap in Hin as ([q s] & Hq & Hin). simpl in Hq.
    destruct (ancestry_live f p l q s Ha Hin) as (m & Hm & _). by rewrite <- Hq, (tr_null _ Ht) in Hm. }
  destruct want; [|by rewrite Hf].
  destruct (Hw eq_refl) as (s & _ & [[-> _]|(Hhas & m & Hm & Hl)]); [done|].
  destruct (named_child_fresh f p n l s w Ht Hp Ha Hhas). eauto.
Qed.

Lemma granted_locks f gs id p l nm want w f' : locks_wf f gs ->
  request f id p l nm want true -> Z.of_nat (length gs) + 1 < 2 ^ 31 - 1 ->
  granted f id l nm want true w f' -> locks_wf f' (mk_grant id p l w :: gs).
Proof.
  intros [Ht Hc Hg Hb] [(n & Hp & Hid) Ha _ _] Hlen Hgr.
  pose proof (granted_places _ _ _ _ _ _ _ _ Hgr) as Hs.
  destruct (granted_fresh f id p n l nm want w f' Ht Hp Hid Ha Hgr) as [Hwl Hw0].
  pose proof (ancestry_nodup f p l Ha) as Hnd.
  constructor; [by eapply same_places_tree| | |simpl; lia].
  - intros q m Hq. rewrite readers_cons, writers_cons. simpl.
    rewrite (granted_heap f id l nm want w f' q Hnd Hgr) in Hq. unfold write_lock in Hq.
    destruct Hgr as (_ & Hge & _).
    pose proof (readers_bound gs q) as Hrb.
    destruct (decide (q ∈ l.*1)) as [Hin|Hnin].
    + assert (w <> q) as Hwq by (by intros ->). rewrite decide_False by done.
      rewrite lookup_alter_ne in Hq by done.
      destruct (heap f !! q) as [m0|] eqn:Hm0; [|done]. injection Hq as <-.
      apply list_elem_of_fmap in Hin as ([q' s] & -> & Hin).
      pose proof (Hge eq_refl q' s m0 Hin Hm0). specialize (Hc q' m0 Hm0). simpl in *.
      unfold lock_ok, TREELOCK_WAIT_OFFSET, TREELOCK_WRITE, INT_MIN in *. lia.
    + destruct (decide (w = q)) as [->|Hwq].
      * rewrite lookup_alter_eq in Hq. destruct (heap f !! q) as [m0|] eqn:Hm0; [|done].
        injection Hq as <-. specialize (Hc q m0 Hm0).
        assert (q <> NULL) as Hqn by (intros ->; by rewrite (tr_null _ Ht) in Hm0).
        destruct (Hw0 Hqn) as (m1 & Hm1 & Ht0). simplify_eq. simpl.
        unfold lock_ok, TREELOCK_WAIT_OFFSET, TREELOCK_WRITE, INT_MIN in *. lia.
      * rewrite lookup_alter_ne in Hq by done. specialize (Hc q m Hq). by rewrite !Z.add_0_r.
  - intros g [->|Hin]%elem_of_cons.
    + eapply grant_ok_places; [exact Hs|]. split; simpl; [by exists n|done|done|].
      intros Hne. destruct (Hw0 Hne) as (m & Hm & _). eauto.
    + eapply grant_ok_places; [exact Hs|by apply Hg].
Qed.

(** A grant can always be given back. *)
Lemma release_runs f gs1 g gs2 : locks_wf f (gs1 ++ g :: gs2) ->
  exists f', unlock_path (g_id g) (g_w g) NULL f = Ok (tt, f') /\
    f' = set_heap (each unlock_read (g_up g).*1 (write_unlock (g_w g) (heap f))) f.
Proof.
  intros [Ht Hc Hg Hb]. destruct (Hg g) as [(n & Hn & Hid) Hup Hw Hl]; [apply elem_of_app; right; by left|].
  eexists. split; [|done]. rewrite <- Hid.
  apply (unlock_path_runs f f (g_ptr g) n (g_up g) []); try done.
  - by rewrite app_nil_r.
  - by left.
  - intros Hne. destruct (Hl Hne) as [m Hm]. exists m. split; [done|].
    specialize (Hc _ m Hm). rewrite writers_app_cons, decide_True in Hc by done.
    destruct Hc as [[Hc _]|(_ & _ & Hc)]; [|done].
    assert (0 <= writers (gs1 ++ gs2) (g_w g)) by (unfold writers; lia). lia.
  - intros q s m Hq Hm. specialize (Hc q m Hm).
    rewrite readers_app_cons, decide_True in Hc by exact (list_elem_of_fmap_2 fst _ _ Hq).
    pose proof (readers_bound (gs1 ++ gs2) q) as Hr. rewrite length_app in Hb, Hr. simpl in Hb.
    unfold unlockable, lock_ok, TREELOCK_WAIT_OFFSET, TREELOCK_WRITE, INT_MIN in *. lia.
Qed.

Lemma release_locks f gs1 g gs2 f' : locks_wf f (gs1 ++ g :: gs2) ->
  unlock_path (g_id g) (g_w g) NULL f = Ok (tt, f') -> locks_wf f' (gs1 ++ gs2).
Proof.
  intros Hlw Hu. destruct (release_runs f gs1 g gs2 Hlw) as (f1 & Hf1 & E).
  rewrite Hf1 in Hu. injection Hu as <-. destruct Hlw as [Ht Hc Hg Hb].
  destruct (Hg g) as [_ Hup Hw Hl]; [apply elem_of_app; right; by left|].
  pose proof (ancestry_nodup _ _ _ Hup) as Hnd.
  assert (Hs : same_places f f1).
  { rewrite E. apply same_places_heap. intros q. rewrite place_each by done. by apply place_alter. }
  constructor.
  - by eapply same_places_tree.
  - intros q m Hq. rewrite E in Hq. simpl in Hq. rewrite each_lookup in Hq by done.
    unfold write_unlock in Hq. pose proof (readers_bound (gs1 ++ gs2) q) as Hr.
    assert (Hwp : 0 <= writers (gs1 ++ gs2) q) by (unfold writers; lia).
    rewrite length_app in Hb, Hr. simpl in Hb.
    destruct (decide (q ∈ (g_up g).*1)) as [Hin|Hnin].
    + assert (Hne : g_w g <> q) by (intros Heq; by rewrite Heq in Hw).
      rewrite lookup_alter_ne in Hq by done.
      destruct (heap f !! q) as [m0|] eqn:Hm0; [|done]. injection Hq as <-. specialize (Hc q m0 Hm0).
      rewrite readers_app_cons, decide_True, writers_app_cons, decide_False in Hc by done. simpl.
      unfold lock_ok, TREELOCK_WAIT_OFFSET, TREELOCK_WRITE, INT_MIN in *.
      destruct (Z.eqb_spec (treelock m0 - 1) (- 2 ^ 31)); lia.
    + destruct (decide (g_w g = q)) as [<-|Hwq].
      * rewrite lookup_alter_eq in Hq. destruct (heap f !! g_w g) as [m0|] eqn:Hm0; [|done].
        injection Hq as <-. specialize (Hc _ m0 Hm0).
        rewrite readers_app_cons, decide_False, writers_app_cons, decide_True in Hc by done. simpl.
        unfold lock_ok, TREELOCK_WAIT_OFFSET, TREELOCK_WRITE, INT_MIN in *. lia.
      * rewrite lookup_alter_ne in Hq by done. specialize (Hc q m Hq).
        by rewrite readers_app_cons, decide_False, writers_app_cons, decide_False, !Z.add_0_r in Hc by done.
  - intros g' Hin. eapply grant_ok_places; [exact Hs|]. apply Hg.
    apply elem_of_app in Hin as [?|?]; apply elem_of_app; [by left|right; by right].
  - rewrite length_app in *. simpl in Hb. lia.
Qed.

Lemma lock_step_wf s s' : lock_step s s' -> locks_wf s.1 s.2 -> locks_wf s'.1 s'.2.
Proof.
  intros Hstep Hlw. destruct Hstep as [f gs id p l nm want path w f' Hrq Hlen Hrun|
      f gs id p l nm want err path w f' Hrq Herr Hrun|f gs1 g gs2 f' Hrun]; simpl in *.
  - pose proof (runs_det _ _ _ _ _ (try_get_path_runs _ _ _ _ _ _ _ (lw_tree _ _ Hlw) Hrq) Hrun)
      as [(w' & [= -> ->] & Hgr)|(err & [= <- _ _] & [_ [?|[? _]]])]; [|done..].
    by eapply granted_locks.
  - pose proof (runs_det _ _ _ _ _ (try_get_path_runs _ _ _ _ _ _ _ (lw_tree _ _ Hlw) Hrq) Hrun)
      as [(w' & [= -> -> ->] & Hgr)|(err' & [= -> -> ->] & Href)]; [done|].
    by eapply refused_locks.
  - by eapply release_locks.
Qed.

(** ** There and back *)
Definition linked_names (f : fuse) : Prop := forall q m, heap f !! q = Some m ->
  name m <> None -> nodeid m <> FUSE_ROOT_ID -> q ∈ names f.

Lemma fuse_wf_linked f f' : fuse_wf f -> same_places f f' -> linked_names f'.
Proof.
  intros Hw Hs q m Hq Hname Hr. pose proof Hs as (Hp & _ & Hn).
  unfold names. rewrite Hn. specialize (Hp q). rewrite Hq in Hp.
  destruct (heap f !! q) as [m0|] eqn:Hm0; [|done]. unfold place in Hp. simpl in Hp. injection Hp as E1 E2 E3.
  destruct (fw_linked _ Hw q m0 Hm0) as [|Hroot]; [congruence|done|].
  unfold is_root in Hroot. congruence.
Qed.

Lemma lookup_up f p l n rest : tree_wf f -> linked_names f ->
  (forall par s p q, has_name f par s p -> has_name f par s q -> p = q) ->
  ancestry f p l -> heap f !! p = Some n ->
  lookup_tokens FUSE_ROOT_ID (reverse l.*2 ++ rest) f = lookup_tokens (nodeid n) rest f.
Proof.
  intros Ht Hlink Hinj Ha. revert n rest.
  induction Ha as [p m Hp Hr|p m s l Hp Hr Hs Hpar Ha IH]; intros n rest Hn; simplify_eq.
  - by rewrite Hr.
  - rewrite fmap_cons, reverse_cons, <- app_assoc. simpl.
    assert (Hin : p ∈ names f) by (apply (Hlink p m); [done|by rewrite Hs|done]).
    destruct (names_alive f p (tr_name _ Ht) Hin) as (m' & pm & s' & Hm & Hpm & Hs'). simplify_eq.
    rewrite (IH pm (s :: rest) Hpm). simpl. unfold mbind, M_bind.
    assert (Hhas : has_name f (nodeid pm) s p) by (exists m, pm; by split_and!).
    destruct (lookup_node_spec f (nodeid pm) s (tr_name _ Ht)) as [[_ Hno]|(q & -> & Hq)];
      [by apply Hno in Hhas|].
    assert (q = p) as -> by (by eapply Hinj).
    destruct (Z.eqb_spec p NULL) as [->|_]; [by rewrite (tr_null _ Ht) in Hp|].
    unfold load, mbind, M_bind, getM. simpl. by rewrite Hp.
Qed.

(** A name stands for one node, whatever the locks. *)
Lemma names_unique f f' par s p q : fuse_wf f -> same_places f f' ->
  has_name f' par s p -> has_name f' par s q -> p = q.
Proof.
  intros Hw Hs. pose proof Hs as (Hp & _ & Hn).
  assert (H : forall x, has_name f' par s x -> has_name f par s x).
  { intros x (n & pn & Hin & Hx & Hpx & Hi & Hnm). unfold names in Hin. rewrite Hn in Hin.
    pose proof (Hp x) as Ex. rewrite Hx in Ex. destruct (heap f !! x) as [n0|] eqn:Hn0; [|done].
    pose proof (Hp (parent n)) as Ep. rewrite Hpx in Ep.
    unfold place in Ex. simpl in Ex. injection Ex as E1 E2 E3. rewrite E2 in Ep, Hpx.
    destruct (heap f !! parent n0) as [pn0|] eqn:Hpn0; [|done].
    unfold place in Ep. simpl in Ep. injection Ep as F1 F2 F3.
    exists n0, pn0. split_and!; try done; congruence. }
  intros Hpn Hqn. eapply has_name_inj; [apply (fw_graph _ Hw)|by apply H|by apply H].
Qed.

Lemma full_path_tokens l : Forall valid_name l.*2 -> tokens "" (full_path l None) = reverse l.*2.
Proof.
  intros Hv. unfold full_path. simpl. destruct l as [|x l]; [done|].
  destruct (String.eqb_spec (path_string (x :: l).*2 "") "") as [E|_].
  { by apply path_string_nil in E. }
  rewrite tokens_path by (done || by left). by rewrite app_nil_r.
Qed.

(** ** The properties *)

(** C7: The path buffer.  [add_name] puts ["/"] and a name in front of the text, in
    the buffer if there is room and in one that has grown otherwise; the growing loop
    ends, the text never starts before the buffer and always ends with it, and the
    32-bit sizes do not wrap, for any path below 4 GiB. *)
Theorem add_name_correct b nm f : buf_wf b -> strlen (text b) + strlen nm + 2 <= 4294967295 ->
  runs (add_name b nm) f (fun r f' => grown f f' /\
    forall b', r = Some b' -> buf_wf b' /\ text b' = "/" +:+ nm +:+ text b).
Proof. apply add_name_runs. Qed.

(** C5: [try_get_path] for a node below the root returns its path, with every node on
    the way read-locked and the named node write-locked, exactly when it succeeds;
    unlocking then restores every node.  When it fails no lock has changed, but for the
    mark a waiting writer leaves, and it only asks to be retried if a lock is in the
    way. *)
Theorem path_lock_roundtrip f id p l nm want : fuse_wf f -> request f id p l nm want true ->
  runs (try_get_path id nm want true) f (path_post f id l nm want true) /\
  runs ('(err, path, w) ← try_get_path id nm want true;
        (if err =? 0 then unlock_path id w NULL else mret tt);; mret (err, path)) f
    (fun r f' => (r = (0, Some (full_path l nm)) /\ grown f f') \/
       exists err, r = (err, None) /\ refused f id l nm want true err f').
Proof.
  intros Hw Hrq. pose proof (fuse_wf_tree f Hw) as Ht.
  pose proof (try_get_path_runs f id p l nm want true Ht Hrq) as Hrun. split; [exact Hrun|].
  destruct Hrq as [(n & Hp & Hid) Ha _ _]. pose proof (ancestry_nodup f p l Ha) as Hnd.
  eapply runs_bind; [exact Hrun|].
  intros [[err path] w] f1 [(w' & [= -> -> ->] & Hgr)|(err' & [= -> -> ->] & Href)].
  - simpl. pose proof (granted_places _ _ _ _ _ _ _ _ Hgr) as Hs.
    destruct (granted_fresh f id p n l nm want w' f1 Ht Hp Hid Ha Hgr) as [Hwl Hw0].
    assert (Hl : l ++ [] = l) by apply app_nil_r.
    apply runs_bind with (P := fun _ f2 => grown f f2).
    { eexists tt, _. split.
      - rewrite <- Hid. apply (unlock_path_runs f f1 p n l []); try done; [by rewrite Hl|by left|..].
        + intros Hne. destruct (Hw0 Hne) as (m & Hm & _). exists (set_treelock TREELOCK_WRITE m).
          split; [|done]. rewrite (granted_heap f id l nm want w' f1 w' Hnd Hgr), decide_False by done.
          unfold write_lock. by rewrite lookup_alter_eq, Hm.
        + intros q s m Hq Hm. pose proof (list_elem_of_fmap_2 fst l _ Hq) as Hq1. simpl in Hq1.
          rewrite (granted_heap f id l nm want w' f1 q Hnd Hgr), decide_True in Hm by done.
          assert (w' <> q) by (by intros ->). unfold write_lock in Hm. rewrite lookup_alter_ne in Hm by done.
          destruct (heap f !! q) as [m0|] eqn:Hm0; [|done]. injection Hm as <-.
          destruct Hgr as (_ & Hge & _). pose proof (Hge eq_refl q s m0 Hq Hm0).
          unfold unlockable, lock_read, TREELOCK_WAIT_OFFSET, TREELOCK_WRITE, INT_MIN. simpl. lia.
      - destruct Hgr as [(a & ->) (Hge & _)]. exists a. simpl. rewrite unlock_restores; try done.
        + intros q m Hq Hm. apply list_elem_of_fmap in Hq as ([q' s] & -> & Hq). by apply (Hge eq_refl q' s).
        + intros m Hm. assert (w' <> NULL) as Hne by (intros ->; by rewrite (tr_null _ Ht) in Hm).
          destruct (Hw0 Hne) as (m' & Hm' & ?). by simplify_eq. }
    intros [] f2 Hgrown. apply runs_ret. by left.
  - assert (Hne : (err' =? 0) = false) by (apply Z.eqb_neq; destruct Href as [_ [->|[-> _]]]; done).
    rewrite Hne. apply runs_ret_bind, runs_ret. right. eauto.
Qed.

(** C6: The path [try_get_path] makes of a node, looked up component by component by
    [lookup_path_in_cache], leads back to the node. *)
Theorem path_leads_back f id p l need : fuse_wf f -> request f id p l None false need ->
  Forall valid_name l.*2 ->
  runs ('(err, path, _) ← try_get_path id None false need;
        match path with
        | Some path => r ← lookup_path_in_cache path; mret (err, Some r)
        | None => mret (err, None)
        end) f
    (fun r _ => r = (0, Some (0, Some id)) \/ (r.1 < 0 /\ r.2 = None) \/
       r = (0, Some (- ENOMEM, None))).
Proof.
  intros Hw Hrq Hv. pose proof (fuse_wf_tree f Hw) as Ht.
  eapply runs_bind; [by apply (try_get_path_runs f id p l)|].
  destruct Hrq as [(n & Hp & Hid) Ha _ _].
  intros [[err path] w] f1 [(w' & [= -> -> ->] & Hgr)|(err' & [= -> -> ->] & Href)].
  2: { apply runs_ret. right; left. split; [|done]. by destruct Href as [_ [->|[-> _]]]. }
  pose proof (granted_places _ _ _ _ _ _ _ _ Hgr) as Hs.
  unfold lookup_path_in_cache. apply runs_bind_assoc. eapply runs_bind; [apply malloc_runs|].
  intros ok f2 (a & ->). destruct ok; simpl; [|apply runs_ret_bind, runs_ret; auto].
  rewrite full_path_tokens by done. apply runs_bind_assoc.
  set (f2 := set_allocs a f1).
  assert (Hs2 : same_places f f2) by (eapply same_places_trans; [exact Hs|done]).
  assert (He : lookup_tokens FUSE_ROOT_ID (reverse l.*2) f2 = Ok (0, id, f2)).
  { rewrite <- (app_nil_r (reverse l.*2)).
    destruct (same_places_some f2 f p n (same_places_sym _ _ Hs2) Hp) as (m & Hm & E).
    rewrite (lookup_up f2 p l m []); [simpl; by rewrite E, Hid|..].
    - by eapply same_places_tree.
    - by eapply fuse_wf_linked.
    - intros par s q q'. by apply (names_unique f).
    - apply (ancestry_ext f); [apply Hs2|done].
    - done. }
  eapply runs_bind with (P := fun r f3 => r = (0, id)); [by exists (0, id), f2|].
  intros [e i] f3 [= -> ->]. simpl. apply runs_ret_bind, runs_ret. by left.
Qed.

(** C4: Mutual exclusion.  Threads that lock paths by [try_get_path] and give them back
    by [unlock_path], in any interleaving and starting without locks, never have a node
    write-locked by one and read- or write-locked by another; the lock count of every
    node tells how many readers it has; and no assertion of [unlock_path] fails. *)
Theorem treelock_exclusion f0 f gs : fuse_wf f0 ->
  (forall q m, heap f0 !! q = Some m -> treelock m = 0) ->
  rtc lock_step (f0, []) (f, gs) ->
  (forall q m, heap f !! q = Some m ->
     (writers gs q = 0 /\ (treelock m = readers gs q \/
        (0 < readers gs q /\ treelock m = TREELOCK_WAIT_OFFSET + readers gs q))) \/
     (writers gs q = 1 /\ readers gs q = 0 /\ treelock m = TREELOCK_WRITE)) /\
  (forall g, g ∈ gs -> exists f', unlock_path (g_id g) (g_w g) NULL f = Ok (tt, f')).
Proof.
  intros Hw H0 Hsteps.
  assert (Hinit : locks_wf f0 []).
  { constructor; [by apply fuse_wf_tree| |intros g Hg; by apply not_elem_of_nil in Hg|simpl; lia].
    intros q m Hm. left. split; [done|]. left. by apply (H0 q). }
  assert (Hlw : locks_wf f gs).
  { remember (f0, []) as s eqn:Es. remember (f, gs) as s' eqn:Es'.
    assert (Hs : locks_wf s.1 s.2) by (by subst). clear Es Hinit.
    assert (Hend : locks_wf s'.1 s'.2); [|by subst].
    clear Es'. induction Hsteps as [s|s1 s2 s3 H1 _ IH]; [done|]. apply IH. by eapply lock_step_wf. }
  split; [apply (lw_count _ _ Hlw)|].
  intros g Hg. apply list_elem_of_split in Hg as (gs1 & gs2 & ->).
  destruct (release_runs f gs1 g gs2 Hlw) as (f' & Hf & _). eauto.
Qed.

(** ** The theorems at work *)
Lemma sample2_up : ancestry sample2 65832 [(65832, "a"%string)].
Proof.
  eapply anc_up; [exact sample2_node|discriminate|reflexivity|discriminate|].
  eapply anc_root; [exact sample2_root|reflexivity].
Qed.

Lemma sample2_request need : request sample2 2 65832 [(65832, "a"%string)] None false need.
Proof.
  split; [exists node_a; split; [exact sample2_node|reflexivity]|exact sample2_up| |done].
  vm_compute. discriminate.
Qed.

Lemma add_name_correct_witness :
  runs (add_name (mk_buf 256 255 "") "a") sample2 (fun r f' => grown sample2 f' /\
    forall b', r = Some b' -> buf_wf b' /\ text b' = "/" +:+ "a" +:+ "").
Proof.
  apply (add_name_correct (mk_buf 256 255 "") "a" sample2 buf_wf_init). vm_compute. discriminate.
Defined.

Lemma path_lock_roundtrip_witness :
  runs (try_get_path 2 None false true) sample2
    (path_post sample2 2 [(65832, "a"%string)] None false true) /\
  runs ('(err, path, w) ← try_get_path 2 None false true;
        (if err =? 0 then unlock_path 2 w NULL else mret tt);; mret (err, path)) sample2
    (fun r f' => (r = (0, Some (full_path [(65832, "a"%string)] None)) /\ grown sample2 f') \/
       exists err, r = (err, None) /\
         refused sample2 2 [(65832, "a"%string)] None false true err f').
Proof.
  apply (path_lock_roundtrip sample2 2 65832 [(65832, "a"%string)] None false sample2_wf).
  apply sample2_request.
Defined.

Lemma path_leads_back_witness :
  runs ('(err, path, _) ← try_get_path 2 None false false;
        match path with
        | Some path => r ← lookup_path_in_cache path; mret (err, Some r)
        | None => mret (err, None)
        end) sample2
    (fun r _ => r = (0, Some (0, Some 2)) \/ (r.1 < 0 /\ r.2 = None) \/
       r = (0, Some (- ENOMEM, None))).
Proof.
  apply (path_leads_back sample2 2 65832 [(65832, "a"%string)] false sample2_wf).
  - apply sample2_request.
  - constructor; [|constructor]. split; [discriminate|reflexivity].
Defined.

(** The state after the path of [a] has been locked. *)
Definition sample2_locked : fuse :=
  match try_get_path 2 None false true sample2 with Ok (_, f) => f | Crash _ => sample2 end.

Lemma sample2_unlocked q m : heap sample2 !! q = Some m -> treelock m = 0.
Proof.
  rewrite sample2_heap. intros [[<- <-]|[_ [<- <-]%lookup_singleton_Some]]%lookup_insert_Some; reflexivity.
Qed.

Lemma sample2_grant : lock_step (sample2, [])
  (sample2_locked, [mk_grant 2 65832 [(65832, "a"%string)] NULL]).
Proof.
  eapply step_grant with (path := Some "/a"%string); [apply sample2_request|reflexivity|].
  vm_compute. reflexivity.
Qed.

Lemma treelock_exclusion_witness :
  let gs := [mk_grant 2 65832 [(65832, "a"%string)] NULL] in
  (forall q m, heap sample2_locked !! q = Some m ->
     (writers gs q = 0 /\ (treelock m = readers gs q \/
        (0 < readers gs q /\ treelock m = TREELOCK_WAIT_OFFSET + readers gs q))) \/
     (writers gs q = 1 /\ readers gs q = 0 /\ treelock m = TREELOCK_WRITE)) /\
  (forall g, g ∈ gs -> exists f', unlock_path (g_id g) (g_w g) NULL sample2_locked = Ok (tt, f')).
Proof.
  apply (treelock_exclusion sample2).
  - exact sample2_wf.
  - exact sample2_unlocked.
  - apply rtc_once. exact sample2_grant.
Defined.
