(* ===== verification/Buf.v ===== *)
(** * Data buffers (lib/buffer.c, include/fuse_common.h)

    Buffer vectors whose pieces are memory or file descriptors, and the copy from
    one vector to another over memory, [read], [write] and [splice]. *)
From S2P Require Import Prelude.
#[local] Open Scope Z_scope.

Module Buf.

Definition SIZE_MAX : Z := 2 ^ 64 - 1.
Definition EINVAL : Z := 22.

Definition FUSE_BUF_IS_FD : Z := 2.
Definition FUSE_BUF_FD_SEEK : Z := 4.
Definition FUSE_BUF_FD_RETRY : Z := 8.
Definition FUSE_BUF_FD_SECTION : Z := 16.

Definition FUSE_BUF_NO_SPLICE : Z := 2.
Definition FUSE_BUF_FORCE_SPLICE : Z := 4.
Definition FUSE_BUF_SPLICE_MOVE : Z := 8.
Definition FUSE_BUF_SPLICE_NONBLOCK : Z := 16.

(** Flags of splice(2). *)
Definition SPLICE_F_MOVE : Z := 1.
Definition SPLICE_F_NONBLOCK : Z := 2.

(** [flags & bit] as a truth value. *)
Definition has (flags bit : Z) : bool := negb (Z.land flags bit =? 0).

Record fuse_buf : Type := mk_fbuf {
  b_size : Z;
  b_metadata : Z;
  b_footer : Z;
  b_flags : Z;
  b_mem : Z;
  b_fd : Z;
  b_pos : Z;
}.

Record fuse_bufvec : Type := mk_bufvec {
  count : Z;
  idx : Z;
  off : Z;
  buf : list fuse_buf;
}.

Definition FUSE_BUFVEC_INIT (size : Z) : fuse_bufvec :=
  mk_bufvec 1 0 0 [mk_fbuf size 0 0 0 0 (-1) 0].

(** ** Memory and the kernel

    [mem] holds the mapped bytes, [blocks] the sizes of the malloc'd blocks, [brk]
    the next free address, and [kern] whatever is behind the file descriptors and
    the user's file system. *)
Record sys (K : Type) : Type := mk_sys {
  mem : gmap Z Z;
  blocks : gmap Z Z;
  brk : Z;
  kern : K;
}.
Arguments mk_sys {K}. Arguments mem {K}. Arguments blocks {K}.
Arguments brk {K}. Arguments kern {K}.

(** The system calls of the C library the file uses.  Each returns the result
    and [errno]; the reading ones also the bytes read. *)
Record syscalls (K : Type) : Type := mk_syscalls {
  sys_pwrite : Z -> list Z -> Z -> K -> (Z * Z) * K;
  sys_write : Z -> list Z -> K -> (Z * Z) * K;
  sys_pread : Z -> Z -> Z -> K -> (Z * Z * list Z) * K;
  sys_read : Z -> Z -> K -> (Z * Z * list Z) * K;
  sys_splice : Z -> option Z -> Z -> option Z -> Z -> Z -> K -> (Z * Z) * K;
}.
Arguments sys_pwrite {K}. Arguments sys_write {K}. Arguments sys_pread {K}.
Arguments sys_read {K}. Arguments sys_splice {K}.

Section Memory.
Context {K : Type}.

Definition addrs (a n : Z) : list Z :=
  (fun i => a + Z.of_nat i) <$> seq 0 (Z.to_nat n).

Definition load_bytes (a n : Z) : M (sys K) (list Z) :=
  s ← getM; derefM (mapM (fun x => mem s !! x) (addrs a n)).

Fixpoint write_bytes (a : Z) (l : list Z) (m : gmap Z Z) : gmap Z Z :=
  match l with
  | [] => m
  | b :: l => write_bytes (a + 1) l (<[a := b]> m)
  end.

Definition store_bytes (a : Z) (l : list Z) : M (sys K) unit :=
  load_bytes a (Z.of_nat (length l));;
  modifyM (fun s => mk_sys (write_bytes a l (mem s)) (blocks s) (brk s) (kern s)).

Definition call {A} (f : K -> A * K) : M (sys K) A :=
  s ← getM;
  let '(r, k) := f (kern s) in
  putM (mk_sys (mem s) (blocks s) (brk s) k);; mret r.

(** [malloc(n)] that succeeds; the block is mapped and zero. *)
Definition alloc (n : Z) : M (sys K) Z :=
  s ← getM;
  let a := brk s in
  putM (mk_sys (write_bytes a (replicate (Z.to_nat n) 0) (mem s))
          (<[a := n]> (blocks s)) (a + Z.max n 1) (kern s));;
  mret a.

Definition free (a : Z) : M (sys K) unit :=
  if a =? 0 then mret tt
  else
    s ← getM;
    n ← derefM (blocks s !! a);
    putM (mk_sys (foldr delete (mem s) (addrs a n)) (delete a (blocks s))
            (brk s) (kern s)).
End Memory.

(** ** Sizes *)

Fixpoint buf_size_loop (size : Z) (l : list fuse_buf) : Z :=
  match l with
  | [] => size
  | b :: l =>
    buf_size_loop (if b_size b =? SIZE_MAX then SIZE_MAX
                   else u64 (size + b_size b)) l
  end.

(** The loop runs over the first [count] entries of the array. *)
Definition fuse_buf_size (v : fuse_bufvec) : Z :=
  buf_size_loop 0 (take (Z.to_nat (count v)) (buf v)).

(** Conversion of a [size_t] to [ssize_t]. *)
Definition ssize (z : Z) : Z := (z + 2 ^ 63) mod 2 ^ 64 - 2 ^ 63.

Definition min_size (s1 s2 : Z) : Z := if s1 <? s2 then s1 else s2.

Section Copy.
Context {K : Type} (S : syscalls K).

(** A [size_t] wraps at 2^64; [pos + off] is
    computed in [size_t] and converted to [off_t].

    The loops end because every iteration that goes on has moved at least one
    byte; [fuel] is that bound. *)
Fixpoint buf_write_loop (fuel : nat) (dst : fuse_buf) (dst_off : Z) (src : fuse_buf)
    (src_off len copied : Z) : M (sys K) Z :=
  if len =? 0 then mret (ssize copied)
  else
    match fuel with
    | O => crashM OutOfFuel
    | Datatypes.S fuel =>
      data ← load_bytes (b_mem src + src_off) len;
      '(res, errno) ←
        call (if has (b_flags dst) FUSE_BUF_FD_SEEK
              then sys_pwrite S (b_fd dst) data (ssize (b_pos dst + dst_off))
              else sys_write S (b_fd dst) data);
      if res =? -1 then
        mret (if copied =? 0 then - errno else ssize copied)
      else if res =? 0 then mret (ssize copied)
      else if negb (has (b_flags dst) FUSE_BUF_FD_RETRY) then mret (ssize (u64 (copied + res)))
      else
        buf_write_loop fuel dst (u64 (dst_off + res)) src (u64 (src_off + res)) (u64 (len - res))
          (u64 (copied + res))
    end.

Definition fuse_buf_write (dst : fuse_buf) (dst_off : Z) (src : fuse_buf)
    (src_off len : Z) : M (sys K) Z :=
  buf_write_loop (Z.to_nat len) dst dst_off src src_off len 0.

Fixpoint buf_read_loop (fuel : nat) (dst : fuse_buf) (dst_off : Z) (src : fuse_buf)
    (src_off len copied : Z) : M (sys K) Z :=
  if len =? 0 then mret (ssize copied)
  else
    match fuel with
    | O => crashM OutOfFuel
    | Datatypes.S fuel =>
      '(res, errno, data) ←
        call (if has (b_flags src) FUSE_BUF_FD_SEEK
              then sys_pread S (b_fd src) len (ssize (b_pos src + src_off))
              else sys_read S (b_fd src) len);
      if res =? -1 then
        mret (if copied =? 0 then - errno else ssize copied)
      else if res =? 0 then mret (ssize copied)
      else
        store_bytes (b_mem dst + dst_off) data;;
        if negb (has (b_flags src) FUSE_BUF_FD_RETRY) then mret (ssize (u64 (copied + res)))
        else
          buf_read_loop fuel dst (u64 (dst_off + res)) src (u64 (src_off + res)) (u64 (len - res))
            (u64 (copied + res))
    end.

Definition fuse_buf_read (dst : fuse_buf) (dst_off : Z) (src : fuse_buf)
    (src_off len : Z) : M (sys K) Z :=
  buf_read_loop (Z.to_nat len) dst dst_off src src_off len 0.

Fixpoint fd_to_fd_loop (fuel : nat) (tmp dst : fuse_buf) (dst_off : Z)
    (src : fuse_buf) (src_off len copied : Z) : M (sys K) Z :=
  if len =? 0 then mret (ssize copied)
  else
    match fuel with
    | O => crashM OutOfFuel
    | Datatypes.S fuel =>
      let this_len := min_size (b_size tmp) len in
      res ← fuse_buf_read tmp 0 src src_off this_len;
      if res <? 0 then mret (if copied =? 0 then res else ssize copied)
      else if res =? 0 then mret (ssize copied)
      else
        res ← fuse_buf_write dst dst_off tmp 0 res;
        if res <? 0 then mret (if copied =? 0 then res else ssize copied)
        else if res =? 0 then mret (ssize copied)
        else if res <? this_len then mret (ssize (u64 (copied + res)))
        else
          fd_to_fd_loop fuel tmp dst (u64 (dst_off + res)) src (u64 (src_off + res))
            (u64 (len - res)) (u64 (copied + res))
    end.

(** [buf] is a local array of 4096 bytes. *)
Definition fuse_buf_fd_to_fd (dst : fuse_buf) (dst_off : Z) (src : fuse_buf)
    (src_off len : Z) : M (sys K) Z :=
  a ← alloc 4096;
  res ← fd_to_fd_loop (Z.to_nat len) (mk_fbuf 4096 0 0 0 a 0 0) dst dst_off src
    src_off len 0;
  free a;;
  mret res.

(** [srcpos] and [dstpos] are null, or hold a position that splice(2) advances by
    the number of bytes it has moved. *)
Fixpoint splice_loop (fuel : nat) (dst : fuse_buf) (dst_off : Z) (src : fuse_buf)
    (src_off : Z) (srcpos dstpos : option Z) (len : Z) (splice_flags flags : Z)
    (copied : Z) : M (sys K) Z :=
  if len =? 0 then mret (ssize copied)
  else
    match fuel with
    | O => crashM OutOfFuel
    | Datatypes.S fuel =>
      '(res, errno) ←
        call (sys_splice S (b_fd src) srcpos (b_fd dst) dstpos len splice_flags);
      if res =? -1 then
        if negb (copied =? 0) then mret (ssize copied)
        else if negb (errno =? EINVAL) || has flags FUSE_BUF_FORCE_SPLICE
        then mret (- errno)
        else fuse_buf_fd_to_fd dst dst_off src src_off len
      else if res =? 0 then mret (ssize copied)
      else if negb (has (b_flags src) FUSE_BUF_FD_RETRY) &&
              negb (has (b_flags dst) FUSE_BUF_FD_RETRY)
      then mret (ssize (u64 (copied + res)))
      else
        splice_loop fuel dst dst_off src src_off
          ((fun p => p + res) <$> srcpos) ((fun p => p + res) <$> dstpos)
          (u64 (len - res)) splice_flags flags (u64 (copied + res))
    end.

(** Built with [HAVE_SPLICE]. *)
Definition fuse_buf_splice (dst : fuse_buf) (dst_off : Z) (src : fuse_buf)
    (src_off len flags : Z) : M (sys K) Z :=
  let splice_flags :=
    Z.lor (if has flags FUSE_BUF_SPLICE_MOVE then SPLICE_F_MOVE else 0)
          (if has flags FUSE_BUF_SPLICE_NONBLOCK then SPLICE_F_NONBLOCK else 0) in
  let srcpos := if has (b_flags src) FUSE_BUF_FD_SEEK
                then Some (ssize (b_pos src + src_off)) else None in
  let dstpos := if has (b_flags dst) FUSE_BUF_FD_SEEK
                then Some (ssize (b_pos dst + dst_off)) else None in
  splice_loop (Z.to_nat len) dst dst_off src src_off srcpos dstpos len
    splice_flags flags 0.

(** [memcpy] and [memmove] both leave the old source bytes at the destination
    here: the ranges given to [memcpy] do not overlap. *)
Definition fuse_buf_copy_one (dst : fuse_buf) (dst_off : Z) (src : fuse_buf)
    (src_off len flags : Z) : M (sys K) Z :=
  let src_is_fd := has (b_flags src) FUSE_BUF_IS_FD in
  let dst_is_fd := has (b_flags dst) FUSE_BUF_IS_FD in
  if negb src_is_fd && negb dst_is_fd then
    let dstmem := b_mem dst + dst_off in
    let srcmem := b_mem src + src_off in
    (if negb (dstmem =? srcmem) then
       data ← load_bytes srcmem len; store_bytes dstmem data
     else mret tt);;
    mret (ssize len)
  else if negb src_is_fd then fuse_buf_write dst dst_off src src_off len
  else if negb dst_is_fd then fuse_buf_read dst dst_off src src_off len
  else if has flags FUSE_BUF_NO_SPLICE
  then fuse_buf_fd_to_fd dst dst_off src src_off len
  else fuse_buf_splice dst dst_off src src_off len flags.

Definition fuse_bufvec_current (v : fuse_bufvec) : option fuse_buf :=
  if idx v <? count v then buf v !! Z.to_nat (idx v) else None.

(** Returns whether there is more, and the vector. *)
Definition fuse_bufvec_advance (v : fuse_bufvec) (len : Z)
    : M (sys K) (bool * fuse_bufvec) :=
  match fuse_bufvec_current v with
  | None => mret (false, v)
  | Some b =>
    let off' := u64 (off v + len) in
    assertM (off' <=? b_size b);;
    if off' =? b_size b then
      assertM (idx v <? count v);;
      let idx' := idx v + 1 in
      if idx' =? count v then mret (false, mk_bufvec (count v) idx' off' (buf v))
      else mret (true, mk_bufvec (count v) idx' 0 (buf v))
    else mret (true, mk_bufvec (count v) (idx v) off' (buf v))
  end.

(** Every iteration that goes on finishes a piece of one of the vectors. *)
Fixpoint buf_copy_loop (fuel : nat) (dstv srcv : fuse_bufvec) (flags copied : Z)
    : M (sys K) (Z * fuse_bufvec * fuse_bufvec) :=
  match fuel with
  | O => crashM OutOfFuel
  | Datatypes.S fuel =>
    match fuse_bufvec_current srcv, fuse_bufvec_current dstv with
    | Some src, Some dst =>
      let src_len := u64 (b_size src - off srcv) in
      let dst_len := u64 (b_size dst - off dstv) in
      let len := min_size src_len dst_len in
      res ← fuse_buf_copy_one dst (off dstv) src (off srcv) len flags;
      if res <? 0 then
        mret (if copied =? 0 then res else ssize copied, dstv, srcv)
      else
        '(more, srcv) ← fuse_bufvec_advance srcv res;
        if negb more then mret (ssize (u64 (copied + res)), dstv, srcv)
        else
          '(more, dstv) ← fuse_bufvec_advance dstv res;
          if negb more then mret (ssize (u64 (copied + res)), dstv, srcv)
          else if res <? len then mret (ssize (u64 (copied + res)), dstv, srcv)
          else buf_copy_loop fuel dstv srcv flags (u64 (copied + res))
    | _, _ => mret (ssize copied, dstv, srcv)
    end
  end.

Definition copy_fuel (dstv srcv : fuse_bufvec) : nat :=
  Datatypes.S (Z.to_nat (count dstv) + Z.to_nat (count srcv)).

(** Returns the result and the two vectors; [same] is [dstv == srcv]. *)
Definition fuse_buf_copy (same : bool) (dstv srcv : fuse_bufvec) (flags : Z)
    : M (sys K) (Z * fuse_bufvec * fuse_bufvec) :=
  if same then mret (ssize (fuse_buf_size dstv), dstv, srcv)
  else buf_copy_loop (copy_fuel dstv srcv) dstv srcv flags 0.

End Copy.

End Buf.
