(* ===== verification/BufFacts.v ===== *)
(** * Data buffers: what a copy does

    Copies between vectors of memory pieces, and reading, writing and copying
    through file descriptors whose system calls keep their documented contract. *)
From S2P Require Import Prelude Buf.
Import Buf.
#[local] Open Scope Z_scope.

(** ** Ranges of addresses *)
Lemma addrs_length a n : 0 <= n -> Z.of_nat (length (addrs a n)) = n.
Proof. intros Hn. unfold addrs. rewrite length_fmap, length_seq. lia. Qed.

Lemma addrs_nil a : addrs a 0 = [].
Proof. done. Qed.

Lemma addrs_app a n k : 0 <= k <= n -> addrs a n = addrs a k ++ addrs (a + k) (n - k).
Proof.
  intros Hk. unfold addrs. replace (Z.to_nat n) with (Z.to_nat k + Z.to_nat (n - k))%nat by lia.
  rewrite seq_app, fmap_app. f_equal.
  replace (0 + Z.to_nat k)%nat with (Z.to_nat k + 0)%nat by lia.
  rewrite <- fmap_add_seq, <- list_fmap_compose.
  apply list_fmap_ext. intros i x _. simpl. lia.
Qed.

Lemma take_addrs a n k : 0 <= k <= n -> take (Z.to_nat k) (addrs a n) = addrs a k.
Proof.
  intros Hk. rewrite (addrs_app a n k) by done. rewrite take_app_le by
    (pose proof (addrs_length a k); lia).
  apply take_ge. pose proof (addrs_length a k). lia.
Qed.

Lemma drop_addrs a n k : 0 <= k <= n -> drop (Z.to_nat k) (addrs a n) = addrs (a + k) (n - k).
Proof.
  intros Hk. rewrite (addrs_app a n k) by done. apply drop_app_length'.
  pose proof (addrs_length a k). lia.
Qed.

Lemma elem_addrs a n x : x ∈ addrs a n <-> a <= x < a + n.
Proof.
  unfold addrs. rewrite list_elem_of_fmap. split.
  - intros (i & -> & Hi). apply elem_of_seq in Hi. lia.
  - intros Hx. exists (Z.to_nat (x - a)). rewrite elem_of_seq. lia.
Qed.

Lemma addrs_lookup a n i x : addrs a n !! i = Some x <-> x = a + Z.of_nat i /\ Z.of_nat i < n.
Proof.
  unfold addrs. rewrite list_lookup_fmap_Some. setoid_rewrite lookup_seq. split.
  - intros (y & -> & Hy). lia.
  - intros [-> Hi]. exists i. lia.
Qed.

Lemma write_bytes_spec l : forall a m x, write_bytes a l m !! x =
  if decide (a <= x < a + Z.of_nat (length l)) then l !! Z.to_nat (x - a) else m !! x.
Proof.
  induction l as [|b l IH]; intros a m x; simpl.
  { rewrite decide_False by lia. done. }
  rewrite IH. destruct (decide (x = a)) as [->|Hne].
  { rewrite decide_False, decide_True by lia. rewrite lookup_insert_eq.
    by replace (Z.to_nat (a - a)) with 0%nat by lia. }
  rewrite lookup_insert_ne by done. repeat case_decide; try lia; [|done].
  by replace (Z.to_nat (x - a)) with (Datatypes.S (Z.to_nat (x - (a + 1)))) by lia.
Qed.

Lemma write_bytes_app l1 : forall a l2 m,
  write_bytes a (l1 ++ l2) m = write_bytes (a + Z.of_nat (length l1)) l2 (write_bytes a l1 m).
Proof.
  induction l1 as [|b l1 IH]; intros a l2 m; simpl; [by rewrite Z.add_0_r|].
  rewrite IH. f_equal. lia.
Qed.

(** ** Loading and storing *)
Section Access.
Context {K : Type}.
Implicit Types (s : sys K) (m : gmap Z Z).

(** The [n] bytes at [a] are mapped and are [l]. *)
Definition holds m (a : Z) (l : list Z) : Prop :=
  forall i, m !! (a + Z.of_nat i) = l !! i \/ (length l <= i)%nat.

Definition mapped m (a n : Z) : Prop := forall x, a <= x < a + n -> is_Some (m !! x).

Lemma holds_mapM m a l :
  holds m a l -> mapM (fun x => m !! x) (addrs a (Z.of_nat (length l))) = Some l.
Proof.
  intros Hl. apply mapM_Some. apply Forall2_same_length_lookup. split.
  { pose proof (addrs_length a (Z.of_nat (length l))). lia. }
  intros i x y Hx Hy. apply addrs_lookup in Hx as [-> Hi].
  destruct (Hl i) as [->|]; [done|lia].
Qed.

Lemma mapped_holds m a n : 0 <= n -> mapped m a n ->
  exists l, holds m a l /\ Z.of_nat (length l) = n.
Proof.
  intros Hn Hm. exists (omap (fun x => m !! x) (addrs a n)).
  assert (H : mapM (fun x => m !! x) (addrs a n) = Some (omap (fun x => m !! x) (addrs a n))).
  { assert (Hall : forall x, x ∈ addrs a n -> is_Some (m !! x)).
    { intros x Hx%elem_addrs. by apply Hm. }
    revert Hall. generalize (addrs a n) as xs. induction xs as [|x xs IH]; intros Hall; simpl; [done|].
    destruct (Hall x) as [y Hy]; [by left|]. rewrite Hy. simpl.
    rewrite IH by (intros z Hz; apply Hall; by right). done. }
  apply mapM_Some in H. split.
  - intros i. destruct (decide (length (omap (fun x => m !! x) (addrs a n)) <= i)%nat);
      [by right|left]. destruct (lookup_lt_is_Some_2 (omap (fun x => m !! x) (addrs a n)) i)
      as [y Hy]; [lia|]. rewrite Hy.
    destruct (Forall2_lookup_r _ _ _ _ _ H Hy) as (x & Hx & Hxy).
    apply addrs_lookup in Hx as [-> _]. done.
  - apply Forall2_length in H. rewrite <- H. by apply addrs_length.
Qed.

Lemma load_bytes_bind {B} m a l (k : list Z -> M (sys K) B) s Q : m = mem s -> holds m a l ->
  runs (k l) s Q -> runs (load_bytes a (Z.of_nat (length l)) ≫= k) s Q.
Proof.
  intros -> Hl Hk. unfold load_bytes. msteps.
  eapply runs_deref_bind; [by apply holds_mapM|done].
Qed.

Definition set_mem m s : sys K := mk_sys m (blocks s) (brk s) (kern s).
Definition set_kern (k : K) s : sys K := mk_sys (mem s) (blocks s) (brk s) k.

Lemma store_bytes_bind {B} a l (k : unit -> M (sys K) B) s Q :
  mapped (mem s) a (Z.of_nat (length l)) ->
  runs (k tt) (set_mem (write_bytes a l (mem s)) s) Q -> runs (store_bytes a l ≫= k) s Q.
Proof.
  intros Hm Hk. unfold store_bytes. mstep.
  destruct (mapped_holds (mem s) a (Z.of_nat (length l))) as (l' & Hl' & Hlen); [lia|done|].
  rewrite <- Hlen. eapply load_bytes_bind; [done..|]. msteps. exact Hk.
Qed.
End Access.

(** ** Vectors *)

(** The addresses a vector still has to offer, in order. *)
Definition piece (b : fuse_buf) : list Z := addrs (b_mem b) (b_size b).

Definition pieces_left (v : fuse_bufvec) : list fuse_buf :=
  drop (Z.to_nat (idx v)) (take (Z.to_nat (count v)) (buf v)).

Definition spots (v : fuse_bufvec) : list Z :=
  drop (Z.to_nat (off v)) (concat (piece <$> pieces_left v)).

(** The position is inside the current piece, and sizes are [size_t]. *)
Record vec_ok (v : fuse_bufvec) : Prop := mk_vec_ok {
  vo_count : 0 <= count v <= Z.of_nat (length (buf v));
  vo_idx : 0 <= idx v <= count v;
  vo_sizes : Forall (fun b => 0 <= b_size b < 2 ^ 64) (buf v);
  vo_off : 0 <= off v;
  vo_current : forall b, fuse_bufvec_current v = Some b -> off v <= b_size b;
}.

Lemma current_Some v b : vec_ok v -> fuse_bufvec_current v = Some b ->
  idx v < count v /\ buf v !! Z.to_nat (idx v) = Some b /\ 0 <= off v <= b_size b /\
  b_size b < 2 ^ 64.
Proof.
  intros Hv Hb. pose proof (vo_current _ Hv _ Hb) as Hc. pose proof (vo_off _ Hv).
  unfold fuse_bufvec_current in Hb.
  destruct (Z.ltb_spec (idx v) (count v)); [|done].
  destruct (proj1 (Forall_lookup _ _) (vo_sizes _ Hv) _ _ Hb). done.
Qed.

Lemma spots_end v : 0 <= count v <= idx v -> spots v = [].
Proof.
  intros Hi. unfold spots, pieces_left.
  rewrite (drop_ge (take _ _)); [apply skipn_nil|]. rewrite length_take. lia.
Qed.

Lemma current_None v : vec_ok v -> fuse_bufvec_current v = None -> spots v = [].
Proof.
  intros Hv Hb. apply spots_end. unfold fuse_bufvec_current in Hb.
  pose proof (vo_count _ Hv). pose proof (vo_idx _ Hv).
  destruct (Z.ltb_spec (idx v) (count v)); [|lia]. apply lookup_ge_None in Hb. lia.
Qed.

Lemma pieces_left_cons v b : vec_ok v -> fuse_bufvec_current v = Some b ->
  pieces_left v =
    b :: pieces_left (mk_bufvec (count v) (idx v + 1) 0 (buf v)).
Proof.
  intros Hv Hb. destruct (current_Some _ _ Hv Hb) as (Hi & Hl & _ & _).
  pose proof (vo_idx _ Hv). unfold pieces_left. simpl.
  replace (Z.to_nat (idx v + 1)) with (Datatypes.S (Z.to_nat (idx v))) by lia.
  apply drop_S. rewrite lookup_take_lt by lia. done.
Qed.

Lemma spots_current v b : vec_ok v -> fuse_bufvec_current v = Some b ->
  spots v = addrs (b_mem b + off v) (b_size b - off v) ++
            spots (mk_bufvec (count v) (idx v + 1) 0 (buf v)).
Proof.
  intros Hv Hb. destruct (current_Some _ _ Hv Hb) as (_ & _ & Ho & _).
  unfold spots at 1. rewrite (pieces_left_cons v b Hv Hb), fmap_cons, concat_cons.
  rewrite drop_app_le; [|pose proof (addrs_length (b_mem b) (b_size b)); unfold piece; lia].
  unfold piece at 1. rewrite drop_addrs by done. done.
Qed.

Lemma spots_advance v b len : vec_ok v -> fuse_bufvec_current v = Some b ->
  0 <= len <= b_size b - off v ->
  drop (Z.to_nat len) (spots v) =
    addrs (b_mem b + off v + len) (b_size b - off v - len) ++
    spots (mk_bufvec (count v) (idx v + 1) 0 (buf v)).
Proof.
  intros Hv Hb Hlen. rewrite (spots_current v b Hv Hb), drop_app_le.
  - f_equal. by rewrite drop_addrs.
  - pose proof (addrs_length (b_mem b + off v) (b_size b - off v)). lia.
Qed.

(** What is left of a vector, counted in pieces. *)
Definition left_of (v : fuse_bufvec) : nat := Z.to_nat (count v - idx v).

(** After [fuse_bufvec_advance v len]. *)
Definition advanced (v : fuse_bufvec) (len : Z) (more : bool) (v' : fuse_bufvec) : Prop :=
  vec_ok v' /\ count v' = count v /\ buf v' = buf v /\
  spots v' = drop (Z.to_nat len) (spots v) /\
  (more = false -> spots v' = []) /\ (left_of v' <= left_of v)%nat /\
  (forall b, fuse_bufvec_current v = Some b -> len = b_size b - off v ->
     left_of v = Datatypes.S (left_of v')).

Lemma advance_runs {K} v b len (s : sys K) : vec_ok v -> fuse_bufvec_current v = Some b ->
  0 <= len <= b_size b - off v ->
  runs (fuse_bufvec_advance v len) s (fun r s' => s' = s /\ advanced v len r.1 r.2).
Proof.
  intros Hv Hb Hlen. destruct (current_Some _ _ Hv Hb) as (Hi & Hl & Ho & Hsz).
  pose proof (spots_advance v b len Hv Hb Hlen) as Hsp. pose proof (vo_idx _ Hv).
  unfold fuse_bufvec_advance. rewrite Hb.
  replace (u64 (off v + len)) with (off v + len) by (unfold u64; rewrite Z.mod_small; lia).
  apply runs_assert_bind; [apply Z.leb_le; lia|].
  destruct (Z.eqb_spec (off v + len) (b_size b)) as [He|He].
  - apply runs_assert_bind; [by apply Z.ltb_lt|].
    replace (b_size b - off v - len) with 0 in Hsp by lia. simpl in Hsp.
    destruct (Z.eqb_spec (idx v + 1) (count v)) as [Hc|Hc]; apply runs_ret; simpl;
      (split; [done|]); unfold advanced; simpl.
    + assert (Hcur : fuse_bufvec_current (mk_bufvec (count v) (idx v + 1) (off v + len) (buf v)) = None).
      { unfold fuse_bufvec_current. simpl. rewrite Hc, Z.ltb_irrefl. done. }
      assert (Hok : vec_ok (mk_bufvec (count v) (idx v + 1) (off v + len) (buf v))).
      { split; simpl; [apply Hv|lia|apply Hv|lia|]. intros b'. by rewrite Hcur. }
      rewrite Hsp, !spots_end by (simpl; lia). unfold left_of. simpl.
      split_and!; [done..|lia|]. intros ? _ _. lia.
    + assert (Hok : vec_ok (mk_bufvec (count v) (idx v + 1) 0 (buf v))).
      { split; simpl; [apply Hv|lia|apply Hv|lia|]. intros b' Hb'.
        unfold fuse_bufvec_current in Hb'. simpl in Hb'.
        destruct (_ <? _); [|done]. apply (Forall_lookup_1 _ _ _ _ (vo_sizes _ Hv) Hb'). }
      unfold left_of. simpl. split_and!; [done..|lia|]. intros ? _ _. lia.
  - apply runs_ret. split; [done|]. unfold advanced, left_of. simpl.
    assert (Hcur : fuse_bufvec_current (mk_bufvec (count v) (idx v) (off v + len) (buf v)) = Some b)
      by done.
    assert (Hok : vec_ok (mk_bufvec (count v) (idx v) (off v + len) (buf v))).
    { split; simpl; [apply Hv..|lia|]. rewrite Hcur. intros ? [= <-]. lia. }
    split_and!; [done..| |done|lia|].
    + rewrite Hsp, (spots_current _ b Hok Hcur). simpl. f_equal. f_equal; lia.
    + intros ?. rewrite Hb. intros [= <-]. lia.
Qed.

(** ** Copying between vectors of memory *)

(** The bytes at [ss] have gone to [ds], one for one as far as both reach, and
    nothing else has changed. *)
Definition moved (ds ss : list Z) (m m' : gmap Z Z) : Prop :=
  (forall i d s, ds !! i = Some d -> ss !! i = Some s -> m' !! d = m !! s) /\
  (forall a, a ∉ take (length ss) ds -> m' !! a = m !! a).

Definition all_mem (v : fuse_bufvec) : Prop :=
  Forall (fun b => has (b_flags b) FUSE_BUF_IS_FD = false) (buf v).

Lemma moved_nil ds m : moved ds [] m m.
Proof. split; [intros i d s _ Hs; by rewrite lookup_nil in Hs|done]. Qed.

Lemma moved_app d1 d2 s1 s2 m m1 m2 : length d1 = length s1 -> NoDup (d1 ++ d2) ->
  (forall a, a ∈ d1 ++ d2 -> a ∉ s1 ++ s2) ->
  moved d1 s1 m m1 -> moved d2 s2 m1 m2 -> moved (d1 ++ d2) (s1 ++ s2) m m2.
Proof.
  intros Hlen Hnd Hdis [Hg1 Hr1] [Hg2 Hr2]. apply NoDup_app in Hnd as (_ & Hsep & _).
  split.
  - intros i d s Hd Hs. apply lookup_app_Some in Hd as [Hd|[Hi Hd]].
    + rewrite lookup_app_l in Hs by (rewrite <- Hlen; by eapply lookup_lt_Some).
      rewrite Hr2; [by eapply Hg1|]. intros Hin. apply elem_of_take in Hin as (? & Hin & _).
      apply (Hsep d); [by eapply list_elem_of_lookup_2|by eapply list_elem_of_lookup_2].
    + rewrite Hlen in Hi, Hd. rewrite lookup_app_r in Hs by done.
      rewrite (Hg2 _ _ _ Hd Hs). apply Hr1. intros Hin.
      apply elem_of_take in Hin as (? & Hin & _). apply (Hdis s).
      * apply elem_of_app. left. by eapply list_elem_of_lookup_2.
      * apply elem_of_app. right. by eapply list_elem_of_lookup_2.
  - intros a Ha. rewrite length_app, <- Hlen, take_app_add in Ha.
    apply not_elem_of_app in Ha as [Ha1 Ha2]. rewrite Hr2 by done. apply Hr1.
    by rewrite take_ge by lia.
Qed.

Lemma moved_Some ds ss m m' a : length ds = length ss -> (forall s, s ∈ ss -> is_Some (m !! s)) ->
  moved ds ss m m' -> is_Some (m !! a) -> is_Some (m' !! a).
Proof.
  intros Hlen Hss [Hg Hr] Ha. destruct (decide (a ∈ take (length ss) ds)) as [Hin|Hin].
  - apply elem_of_take in Hin as (i & Hd & Hi).
    destruct (lookup_lt_is_Some_2 ss i Hi) as [s Hs]. rewrite (Hg _ _ _ Hd Hs).
    apply Hss. by eapply list_elem_of_lookup_2.
  - by rewrite Hr.
Qed.

Lemma moved_write m d s l : holds m s l ->
  moved (addrs d (Z.of_nat (length l))) (addrs s (Z.of_nat (length l))) m (write_bytes d l m).
Proof.
  intros Hl. split.
  - intros i x y [-> Hi]%addrs_lookup [-> _]%addrs_lookup. rewrite write_bytes_spec.
    rewrite decide_True by lia. replace (Z.to_nat (d + Z.of_nat i - d)) with i by lia.
    destruct (Hl i) as [->|]; [done|lia].
  - intros a Ha. rewrite write_bytes_spec, decide_False; [done|]. intros Hin. apply Ha.
    rewrite take_ge; [by apply elem_addrs|].
    pose proof (addrs_length d (Z.of_nat (length l))).
    pose proof (addrs_length s (Z.of_nat (length l))). lia.
Qed.

Lemma ssize_id z : - 2 ^ 63 <= z < 2 ^ 63 -> ssize z = z.
Proof. intros Hz. unfold ssize. rewrite Z.mod_small; lia. Qed.

Lemma u64_id z : 0 <= z < 2 ^ 64 -> u64 z = z.
Proof. intros Hz. by apply Z.mod_small. Qed.

Lemma elem_drop {A} (x : A) n l : x ∈ drop n l -> x ∈ l.
Proof. intros Hx. rewrite <- (take_drop n l). apply elem_of_app. by right. Qed.

Section MemCopy.
Context {K : Type} (S : syscalls K).

Lemma copy_one_mem dst doff src soff len flags (s : sys K) :
  has (b_flags src) FUSE_BUF_IS_FD = false -> has (b_flags dst) FUSE_BUF_IS_FD = false ->
  0 <= len < 2 ^ 63 -> mapped (mem s) (b_mem src + soff) len ->
  mapped (mem s) (b_mem dst + doff) len ->
  runs (fuse_buf_copy_one S dst doff src soff len flags) s (fun r s' => r = len /\
    exists m', s' = set_mem m' s /\
      moved (addrs (b_mem dst + doff) len) (addrs (b_mem src + soff) len) (mem s) m').
Proof.
  intros Hs Hd Hlen Hms Hmd. unfold fuse_buf_copy_one. rewrite Hs, Hd. simpl.
  rewrite (ssize_id len) by lia.
  destruct (mapped_holds (mem s) (b_mem src + soff) len) as (l & Hl & Hll); [lia|done|].
  destruct (Z.eqb_spec (b_mem dst + doff) (b_mem src + soff)) as [He|He]; simpl.
  - mstep. apply runs_ret. split; [done|]. exists (mem s). split; [by destruct s|].
    rewrite <- He. split; [|done]. intros i x y Hx Hy. rewrite Hx in Hy. by simplify_eq.
  - apply runs_bind_assoc. rewrite <- Hll. eapply load_bytes_bind; [done..|].
    eapply store_bytes_bind; [by rewrite Hll|]. apply runs_ret. split; [done|].
    eexists. split; [done|]. by apply moved_write.
Qed.

(** The vectors lie in mapped memory, apart from each other, and the destination
    names no byte twice. *)
Record apart (dstv srcv : fuse_bufvec) (m : gmap Z Z) : Prop := mk_apart {
  ap_dst : vec_ok dstv;
  ap_src : vec_ok srcv;
  ap_dst_mem : all_mem dstv;
  ap_src_mem : all_mem srcv;
  ap_once : NoDup (spots dstv);
  ap_disjoint : forall a, a ∈ spots dstv -> a ∉ spots srcv;
  ap_mapped : forall a, a ∈ spots dstv ++ spots srcv -> is_Some (m !! a);
}.

Lemma apart_advanced dstv srcv m m' len more more' dstv' srcv' : apart dstv srcv m ->
  (forall a, is_Some (m !! a) -> is_Some (m' !! a)) ->
  advanced dstv len more dstv' -> advanced srcv len more' srcv' -> apart dstv' srcv' m'.
Proof.
  intros Ha Hm (Hd & _ & Hdb & Hds & _) (Hs & _ & Hsb & Hss & _).
  split; [done|done|..].
  - unfold all_mem. rewrite Hdb. apply (ap_dst_mem _ _ _ Ha).
  - unfold all_mem. rewrite Hsb. apply (ap_src_mem _ _ _ Ha).
  - rewrite Hds. eapply sublist_NoDup; [apply (ap_once _ _ _ Ha)|apply sublist_drop].
  - intros a. rewrite Hds, Hss. intros H1 H2.
    apply (ap_disjoint _ _ _ Ha a); eapply elem_drop; eauto.
  - intros a Hin. apply Hm, (ap_mapped _ _ _ Ha). rewrite Hds, Hss in Hin.
    apply elem_of_app in Hin as [H1|H1]; apply elem_of_app; [left|right];
      eapply elem_drop; eauto.
Qed.

(** One round of the loop: [len] bytes, and both vectors forward. *)
Lemma apart_head dstv srcv m src dst len : apart dstv srcv m ->
  fuse_bufvec_current srcv = Some src -> fuse_bufvec_current dstv = Some dst ->
  0 <= len <= b_size src - off srcv -> len <= b_size dst - off dstv ->
  take (Z.to_nat len) (spots srcv) = addrs (b_mem src + off srcv) len /\
  take (Z.to_nat len) (spots dstv) = addrs (b_mem dst + off dstv) len.
Proof.
  intros Ha Hs Hd H1 H2. rewrite (spots_current srcv src), (spots_current dstv dst);
    [|apply Ha|done|apply Ha|done].
  pose proof (addrs_length (b_mem src + off srcv) (b_size src - off srcv)).
  pose proof (addrs_length (b_mem dst + off dstv) (b_size dst - off dstv)).
  rewrite !take_app_le by lia. rewrite !take_addrs by lia. done.
Qed.

Lemma take_mapped (v : fuse_bufvec) m a len : take (Z.to_nat len) (spots v) = addrs a len ->
  (forall x, x ∈ spots v -> is_Some (m !! x)) -> mapped m a len.
Proof.
  intros Ht Hm x Hx. apply Hm. rewrite <- (take_drop (Z.to_nat len) (spots v)).
  apply elem_of_app. left. rewrite Ht. by apply elem_addrs.
Qed.

Lemma moved_all d1 d2 s1 s2 m m1 m2 : length d1 = length s1 -> NoDup (d1 ++ d2) ->
  (forall a, a ∈ d1 ++ d2 -> a ∉ s1 ++ s2) -> moved d1 s1 m m1 ->
  ((d2 = [] \/ s2 = []) /\ m2 = m1) \/ moved d2 s2 m1 m2 ->
  moved (d1 ++ d2) (s1 ++ s2) m m2.
Proof.
  intros Hlen Hnd Hdis Hm1 Hm2. eapply moved_app; [done..|].
  destruct Hm2 as [[[->| ->] ->]|Hm2]; [|apply moved_nil|done].
  split; [done|]. intros a _. done.
Qed.

(** What a copy of memory gives: the result, the destination and the source
    afterwards, and the new memory. *)
Definition mem_copied (dstv srcv : fuse_bufvec) (copied : Z) (s : sys K)
    (r : Z * fuse_bufvec * fuse_bufvec) (s' : sys K) : Prop :=
  let n := Nat.min (length (spots dstv)) (length (spots srcv)) in
  let '(res, dstv', srcv') := r in
  res = copied + Z.of_nat n /\ spots srcv' = drop n (spots srcv) /\
  vec_ok dstv' /\ vec_ok srcv' /\
  exists m', s' = set_mem m' s /\ moved (spots dstv) (spots srcv) (mem s) m'.

(** One round [len] and what is left combine. *)
Lemma mem_copied_step dstv srcv m1 m2 m len copied res srcv2 :
  apart dstv srcv m -> 0 <= len ->
  length (take (Z.to_nat len) (spots dstv)) = Z.to_nat len ->
  length (take (Z.to_nat len) (spots srcv)) = Z.to_nat len ->
  moved (take (Z.to_nat len) (spots dstv)) (take (Z.to_nat len) (spots srcv)) m m1 ->
  let d2 := drop (Z.to_nat len) (spots dstv) in
  let s2 := drop (Z.to_nat len) (spots srcv) in
  ((d2 = [] \/ s2 = []) /\ m2 = m1) \/ moved d2 s2 m1 m2 ->
  res = copied + len + Z.of_nat (Nat.min (length d2) (length s2)) ->
  spots srcv2 = drop (Nat.min (length d2) (length s2)) s2 ->
  let n := Nat.min (length (spots dstv)) (length (spots srcv)) in
  res = copied + Z.of_nat n /\ spots srcv2 = drop n (spots srcv) /\
  moved (spots dstv) (spots srcv) m m2.
Proof.
  intros Ha Hlen Hd Hs Hm1 d2 s2 Hm2 Hres Hs2.
  rewrite length_take in Hd, Hs.
  assert (Hn : Nat.min (length (spots dstv)) (length (spots srcv)) =
    (Z.to_nat len + Nat.min (length d2) (length s2))%nat).
  { unfold d2, s2. rewrite !length_drop. lia. }
  simpl. rewrite Hn. split; [lia|]. split; [rewrite Hs2; unfold s2; by rewrite drop_drop|].
  rewrite <- (take_drop (Z.to_nat len) (spots dstv)) at 1.
  rewrite <- (take_drop (Z.to_nat len) (spots srcv)) at 1.
  eapply moved_all; [by rewrite !length_take; lia|..|exact Hm1|exact Hm2];
    rewrite !take_drop; apply Ha.
Qed.

Lemma moved_none ds ss m : ds = [] \/ ss = [] -> moved ds ss m m.
Proof.
  intros [-> | ->]; split; [intros i d s Hd; by rewrite lookup_nil in Hd|done| |done].
  intros i d s _ Hs. by rewrite lookup_nil in Hs.
Qed.

Lemma copy_stop dstv srcv copied (s : sys K) : apart dstv srcv (mem s) ->
  0 <= copied < 2 ^ 63 -> spots dstv = [] \/ spots srcv = [] ->
  runs (mret (ssize copied, dstv, srcv)) s (mem_copied dstv srcv copied s).
Proof.
  intros Ha Hc He. apply runs_ret. unfold mem_copied. rewrite ssize_id by lia.
  assert (Hn : Nat.min (length (spots dstv)) (length (spots srcv)) = 0%nat)
    by (destruct He as [-> | ->]; simpl; lia).
  rewrite Hn. split_and!; [lia|done|apply Ha|apply Ha|].
  exists (mem s). split; [by destruct s|by apply moved_none].
Qed.

(** Copying [len] bytes between the current pieces. *)
Lemma round_runs dstv srcv src dst len flags (s : sys K) : apart dstv srcv (mem s) ->
  fuse_bufvec_current srcv = Some src -> fuse_bufvec_current dstv = Some dst ->
  0 <= len <= b_size src - off srcv -> len <= b_size dst - off dstv -> len < 2 ^ 63 ->
  let ts := take (Z.to_nat len) (spots srcv) in
  let td := take (Z.to_nat len) (spots dstv) in
  length ts = Z.to_nat len /\ length td = Z.to_nat len /\
  runs (fuse_buf_copy_one S dst (off dstv) src (off srcv) len flags) s (fun r s' =>
    r = len /\ exists m', s' = set_mem m' s /\ moved td ts (mem s) m' /\
    forall a, is_Some (mem s !! a) -> is_Some (m' !! a)).
Proof.
  intros Ha Hsrc Hdst H1 H2 H3 ts td.
  destruct (apart_head _ _ _ _ _ len Ha Hsrc Hdst H1 H2) as [Hts Htd].
  assert (Hls : length ts = Z.to_nat len)
    by (unfold ts; rewrite Hts; pose proof (addrs_length (b_mem src + off srcv) len); lia).
  assert (Hld : length td = Z.to_nat len)
    by (unfold td; rewrite Htd; pose proof (addrs_length (b_mem dst + off dstv) len); lia).
  split_and!; [done..|].
  assert (Hin : forall a, a ∈ spots dstv \/ a ∈ spots srcv -> is_Some (mem s !! a)).
  { intros a Hin. apply (ap_mapped _ _ _ Ha). by apply elem_of_app. }
  destruct (current_Some _ _ (ap_src _ _ _ Ha) Hsrc) as (_ & Hsb & _).
  destruct (current_Some _ _ (ap_dst _ _ _ Ha) Hdst) as (_ & Hdb & _).
  eapply runs_mono.
  { apply (copy_one_mem _ _ _ _ len); [..|lia| |].
    - apply (Forall_lookup_1 _ _ _ _ (ap_src_mem _ _ _ Ha) Hsb).
    - apply (Forall_lookup_1 _ _ _ _ (ap_dst_mem _ _ _ Ha) Hdb).
    - eapply take_mapped; [exact Hts|auto].
    - eapply take_mapped; [exact Htd|auto]. }
  intros r s1 (-> & m1 & -> & Hm1). rewrite <- Hts, <- Htd in Hm1.
  split; [done|]. exists m1. split_and!; [done..|]. intros a.
  eapply moved_Some; [|..|exact Hm1]; [unfold ts, td in *; lia|].
  intros x Hx. apply Hin. right. rewrite <- (take_drop (Z.to_nat len)). apply elem_of_app.
  by left.
Qed.

(** The last round: one of the vectors is used up. *)
Lemma copy_last dstv srcv dstv' srcv' len copied m1 more (s : sys K) :
  apart dstv srcv (mem s) -> 0 <= len -> 0 <= copied -> copied + len < 2 ^ 63 ->
  length (take (Z.to_nat len) (spots srcv)) = Z.to_nat len ->
  length (take (Z.to_nat len) (spots dstv)) = Z.to_nat len ->
  moved (take (Z.to_nat len) (spots dstv)) (take (Z.to_nat len) (spots srcv)) (mem s) m1 ->
  advanced srcv len more srcv' -> vec_ok dstv' ->
  drop (Z.to_nat len) (spots dstv) = [] \/ drop (Z.to_nat len) (spots srcv) = [] ->
  runs (mret (ssize (copied + len), dstv', srcv')) (set_mem m1 s)
    (mem_copied dstv srcv copied s).
Proof.
  intros Ha Hlen Hc Hmax Hls Hld Hm1 (Hv & _ & _ & Hsp & _) Hv' Hend. apply runs_ret.
  unfold mem_copied. rewrite ssize_id by lia.
  assert (Hn : Nat.min (length (drop (Z.to_nat len) (spots dstv)))
    (length (drop (Z.to_nat len) (spots srcv))) = 0%nat)
    by (destruct Hend as [-> | ->]; simpl; lia).
  edestruct (mem_copied_step dstv srcv m1 m1 (mem s) len copied (copied + len) srcv')
    as (? & ? & ?); [done|lia|done|done|exact Hm1|left; auto|by rewrite Hn; lia
    |by rewrite Hsp, Hn|].
  split_and!; [done..|]. by exists m1.
Qed.

Lemma min_size_spec a b : min_size a b <= a /\ min_size a b <= b /\
  (min_size a b = a \/ min_size a b = b).
Proof. unfold min_size. zcases; lia. Qed.

Lemma copy_loop_mem flags : forall fuel dstv srcv copied s,
  apart dstv srcv (mem s) -> (left_of dstv + left_of srcv < fuel)%nat ->
  0 <= copied -> copied + Z.of_nat (length (spots srcv)) < 2 ^ 63 ->
  runs (buf_copy_loop S fuel dstv srcv flags copied) s (mem_copied dstv srcv copied s).
Proof.
  induction fuel as [|fuel IH]; intros dstv srcv copied s Ha Hf Hc Hmax; [lia|]. simpl.
  pose proof (ap_dst _ _ _ Ha) as Hvd. pose proof (ap_src _ _ _ Ha) as Hvs.
  destruct (fuse_bufvec_current srcv) as [src|] eqn:Hsrc;
    [|apply copy_stop; [done|lia|right; by apply current_None]].
  destruct (fuse_bufvec_current dstv) as [dst|] eqn:Hdst;
    [|apply copy_stop; [done|lia|left; by apply current_None]].
  destruct (current_Some _ _ Hvs Hsrc) as (_ & _ & Hso & Hss).
  destruct (current_Some _ _ Hvd Hdst) as (_ & _ & Hdo & Hds).
  rewrite !u64_id by lia.
  destruct (min_size_spec (b_size src - off srcv) (b_size dst - off dstv)) as (Hl1 & Hl2 & Hl3).
  set (len := min_size _ _) in *. assert (Hl0 : 0 <= len) by lia.
  assert (Hl4 : len <= Z.of_nat (length (spots srcv))).
  { rewrite (spots_current srcv src Hvs Hsrc), length_app.
    pose proof (addrs_length (b_mem src + off srcv) (b_size src - off srcv)). lia. }
  destruct (round_runs _ _ _ _ len flags s Ha Hsrc Hdst (conj Hl0 Hl1) Hl2) as (Hls & Hld & Hr);
    [lia|].
  eapply runs_bind; [exact Hr|]. clear Hr. intros r s1 (-> & m1 & -> & Hm1 & Hdom).
  replace (len <? 0) with false by (symmetry; apply Z.ltb_ge; lia).
  rewrite (u64_id (copied + len)) by lia.
  eapply runs_bind; [apply (advance_runs _ _ _ _ Hvs Hsrc (conj Hl0 Hl1))|].
  intros [more srcv1] s1 [-> Hadv1]. pose proof Hadv1 as (_ & _ & _ & Hsp1 & He1 & Hd1 & Hc1).
  simpl in *. destruct more eqn:Hmore; simpl.
  2: { eapply copy_last; [done|lia..|done|done|done|exact Hadv1|done|].
       right. rewrite <- Hsp1. auto. }
  eapply runs_bind; [apply (advance_runs _ _ len _ Hvd Hdst (conj Hl0 Hl2))|].
  intros [more' dstv1] s1 [-> Hadv2]. pose proof Hadv2 as (Hv2 & _ & _ & Hsp2 & He2 & Hd2 & Hc2).
  simpl in *. destruct more' eqn:Hmore'; simpl.
  2: { eapply copy_last; [done|lia..|done|done|done|exact Hadv1|done|].
       left. rewrite <- Hsp2. auto. }
  rewrite Z.ltb_irrefl. eapply runs_mono.
  { apply IH; [eapply apart_advanced; eauto|..|lia|rewrite Hsp1, length_drop; lia].
    specialize (Hc1 _ Hsrc). specialize (Hc2 _ Hdst). lia. }
  intros [[res dstv2] srcv2] s2 (Hres & Hsp & Hw2 & Hw1 & m2 & -> & Hm2).
  rewrite Hsp1, Hsp2 in *. simpl in Hm2.
  edestruct (mem_copied_step dstv srcv m1 m2 (mem s) len copied res srcv2)
    as (? & ? & ?); [done|lia|done|done|exact Hm1|by right|done|done|].
  split_and!; [done..|]. by exists m2.
Qed.
End MemCopy.

(** ** File descriptors

    What a descriptor is to the copy: a place to put bytes, or a place to draw them
    from, both at an offset from where the buffer starts.  A pipe, a socket or a file
    with its own position ignores the offset; a file with [FUSE_BUF_FD_SEEK] is
    addressed by it. *)
Section Descriptors.
Context {K : Type} (S : syscalls K).

Definition write_call (dst : fuse_buf) (o : Z) (data : list Z) : K -> (Z * Z) * K :=
  if has (b_flags dst) FUSE_BUF_FD_SEEK
  then sys_pwrite S (b_fd dst) data (ssize (b_pos dst + o))
  else sys_write S (b_fd dst) data.

Definition read_call (src : fuse_buf) (o len : Z) : K -> (Z * Z * list Z) * K :=
  if has (b_flags src) FUSE_BUF_FD_SEEK
  then sys_pread S (b_fd src) len (ssize (b_pos src + o))
  else sys_read S (b_fd src) len.

(** The positions [o] to [o + n] of a seekable descriptor are [off_t] values. *)
Definition in_reach (b : fuse_buf) (o n : Z) : Prop :=
  has (b_flags b) FUSE_BUF_FD_SEEK = true -> 0 <= b_pos b + o /\ b_pos b + o + n < 2 ^ 63.

Lemma in_reach_more b o n r : in_reach b o n -> 0 <= r <= n -> in_reach b (o + r) (n - r).
Proof. intros Hb Hr Hs. specialize (Hb Hs). lia. Qed.

Lemma in_reach_less b o n m : in_reach b o n -> m <= n -> in_reach b o m.
Proof. intros Hb Hr Hs. specialize (Hb Hs). lia. Qed.

(** write(2) and pwrite(2): an error leaves the file alone, and otherwise the first
    [r] of the bytes have been put there. *)
Class Sink {V} (dst : fuse_buf) (view : K -> V) (put : Z -> list Z -> V -> V) : Prop :=
  mk_sink {
  put_nil : forall o v, put o [] v = v;
  put_app : forall o l1 l2 v,
    put o (l1 ++ l2) v = put (o + Z.of_nat (length l1)) l2 (put o l1 v);
  sink_law : forall o data k r e k', in_reach dst o (Z.of_nat (length data)) ->
    write_call dst o data k = ((r, e), k') ->
    (r = -1 /\ 0 < e /\ view k' = view k) \/
    (0 <= r <= Z.of_nat (length data) /\ view k' = put o (take (Z.to_nat r) data) (view k));
}.

(** read(2) and pread(2): at most [len] bytes, and they are the next ones. *)
Class Source {V} (src : fuse_buf) (view : K -> V) (draw : Z -> list Z -> V -> V -> Prop) :
    Prop := mk_source {
  draw_nil : forall o v, draw o [] v v;
  draw_app : forall o l1 l2 v v1 v2, draw o l1 v v1 ->
    draw (o + Z.of_nat (length l1)) l2 v1 v2 -> draw o (l1 ++ l2) v v2;
  source_law : forall o len k r e data k', in_reach src o len ->
    read_call src o len k = ((r, e, data), k') ->
    (r = -1 /\ 0 < e /\ view k' = view k) \/
    (0 <= r <= len /\ r = Z.of_nat (length data) /\ draw o data (view k) (view k'));
}.

(** A descriptor that takes at least one byte whenever it is given some, such as a
    regular file on a disk with room. *)
Definition willing (dst : fuse_buf) : Prop := forall o data k, data <> [] ->
  0 < (write_call dst o data k).1.1.

(** A descriptor that gets everything: one that is willing and asked again with
    [FUSE_BUF_FD_RETRY], or one that takes all it is given at once. *)
Definition takes_all (dst : fuse_buf) : Prop :=
  (has (b_flags dst) FUSE_BUF_FD_RETRY = true /\ willing dst) \/
  forall o data k, (write_call dst o data k).1.1 = Z.of_nat (length data).

Lemma call_bind {A B} (f : K -> A * K) (k : A -> M (sys K) B) s Q :
  runs (k (f (kern s)).1) (set_kern (f (kern s)).2 s) Q -> runs (call f ≫= k) s Q.
Proof.
  intros Hk. unfold call. mstep. mstep. destruct (f (kern s)) as [a k'] eqn:Hf.
  mstep. mstep. exact Hk.
Qed.

Lemma holds_drop m a l n : (n <= length l)%nat -> holds m a l ->
  holds m (a + Z.of_nat n) (drop n l).
Proof.
  intros Hn Hl i. rewrite lookup_drop, length_drop.
  destruct (Hl (n + i)%nat) as [H|H]; [left|right; lia]. rewrite <- H. f_equal. lia.
Qed.

(** The outcome of writing [data] at offset [o] after [copied] bytes. *)
Definition written {V} (view : K -> V) (put : Z -> list Z -> V -> V) (o : Z) (data : list Z)
    (copied : Z) (s : sys K) (r : Z) (s' : sys K) : Prop :=
  (exists k', s' = set_kern k' s) /\
  ((r < 0 /\ copied = 0 /\ view (kern s') = view (kern s)) \/
   (copied <= r <= copied + Z.of_nat (length data) /\
    view (kern s') = put o (take (Z.to_nat (r - copied)) data) (view (kern s)))).

Context {V : Type} (dst : fuse_buf) (view : K -> V) (put : Z -> list Z -> V -> V).
Context `{!Sink dst view put}.

Lemma written_stop o data copied s k' : 0 <= copied < 2 ^ 63 ->
  view k' = view (kern s) ->
  written view put o data copied s copied (set_kern k' s).
Proof.
  intros Hc Hv. split; [by exists k'|]. right. split; [lia|]. simpl.
  by rewrite Z.sub_diag, put_nil.
Qed.

Lemma written_more o data copied s r k' r2 s2 : 0 <= r <= Z.of_nat (length data) ->
  view k' = put o (take (Z.to_nat r) data) (view (kern s)) -> 0 < r -> 0 <= copied ->
  written view put (o + r) (drop (Z.to_nat r) data) (copied + r) (set_kern k' s) r2 s2 ->
  written view put o data copied s r2 s2.
Proof.
  intros Hr Hv Hpos Hc [[k2 ->] [(? & ? & _)|[Hr2 Hv2]]]; [lia|]. split; [by exists k2|].
  right. rewrite length_drop in Hr2. split; [lia|]. simpl in *.
  rewrite Hv2, Hv. replace (o + r) with (o + Z.of_nat (length (take (Z.to_nat r) data)))
    by (rewrite length_take; lia).
  rewrite <- put_app. f_equal.
  replace (Z.to_nat (r2 - copied)) with (Z.to_nat r + Z.to_nat (r2 - (copied + r)))%nat by lia.
  by rewrite take_take_drop.
Qed.

Lemma write_loop_runs src : forall fuel o soff data copied s,
  (length data <= fuel)%nat -> holds (mem s) (b_mem src + soff) data ->
  in_reach dst o (Z.of_nat (length data)) ->
  0 <= o -> 0 <= soff -> 0 <= copied -> copied + Z.of_nat (length data) < 2 ^ 63 ->
  o + Z.of_nat (length data) < 2 ^ 64 -> soff + Z.of_nat (length data) < 2 ^ 64 ->
  runs (buf_write_loop S fuel dst o src soff (Z.of_nat (length data)) copied) s
    (fun r s' => written view put o data copied s r s' /\
       (takes_all dst -> r = copied + Z.of_nat (length data))).
Proof.
  induction fuel as [|fuel IH]; intros o soff data copied s Hf Hl Hre Ho Hso Hc Hm1 Hm2 Hm3.
  { destruct data; [|simpl in Hf; lia]. simpl. apply runs_ret. rewrite ssize_id by lia.
    split; [|intros; lia]. replace s with (set_kern (kern s) s) at 2 by (by destruct s).
    by apply written_stop; [simpl in *; lia|]. }
  simpl. destruct (Z.eqb_spec (Z.of_nat (length data)) 0) as [H0|H0].
  { apply runs_ret. rewrite ssize_id by lia. split; [|intros; lia].
    replace s with (set_kern (kern s) s) at 2 by (by destruct s).
    by apply written_stop; [simpl in *; lia|]. }
  eapply load_bytes_bind; [done..|]. apply call_bind.
  fold (write_call dst o data). destruct (write_call dst o data (kern s)) as [[r e] k'] eqn:Hw.
  cbn [fst snd]. pose proof (sink_law _ _ _ _ _ _ Hre Hw) as Hlaw. fold (set_kern k' s).
  assert (Hwill : takes_all dst -> 0 < r).
  { intros [[_ Hwl]|Hall].
    - specialize (Hwl o data (kern s)). rewrite Hw in Hwl. apply Hwl. by intros ->.
    - specialize (Hall o data (kern s)). rewrite Hw in Hall. simpl in Hall. lia. }
  destruct (Z.eqb_spec r (-1)) as [->|Hr1].
  { destruct Hlaw as [(_ & He & Hv)|[? _]]; [|lia]. apply runs_ret.
    split; [|intros Hwl; specialize (Hwill Hwl); lia].
    destruct (Z.eqb_spec copied 0) as [->|Hc0].
    - split; [by exists k'|]. left. split; [lia|done].
    - rewrite ssize_id by lia. apply written_stop; [lia|done]. }
  destruct Hlaw as [(? & _)|[Hr Hv]]; [done|].
  destruct (Z.eqb_spec r 0) as [->|Hr0].
  { apply runs_ret. rewrite ssize_id by lia.
    split; [|intros Hwl; specialize (Hwill Hwl); lia].
    apply written_stop; [lia|]. by rewrite Hv, put_nil. }
  rewrite (u64_id (copied + r)), (u64_id (o + r)), (u64_id (soff + r)), (u64_id (_ - r)) by lia.
  assert (Hok : written view put o data copied s (copied + r) (set_kern k' s)).
  { split; [by exists k'|]. right. split; [lia|].
    by replace (copied + r - copied) with r by lia. }
  destruct (has (b_flags dst) FUSE_BUF_FD_RETRY) eqn:Hretry; simpl.
  2: { apply runs_ret. rewrite ssize_id by lia. split; [done|].
       intros [[Hx _]|Hall]; [congruence|]. specialize (Hall o data (kern s)).
       rewrite Hw in Hall. simpl in Hall. lia. }
  replace (Z.of_nat (length data) - r) with (Z.of_nat (length (drop (Z.to_nat r) data)))
    by (rewrite length_drop; lia).
  eapply runs_mono.
  { apply IH; rewrite ?length_drop; try lia.
    2: { eapply in_reach_less; [by apply (in_reach_more _ _ _ r Hre)|lia]. }
    simpl.
    replace (b_mem src + (soff + r)) with (b_mem src + soff + Z.of_nat (Z.to_nat r)) by lia.
    apply holds_drop; [lia|done]. }
  intros r2 s2 [Hw2 Hall]. split.
  - apply (written_more o data copied s r k'); [lia|done|lia|lia|done].
  - intros Hwl. rewrite (Hall Hwl), length_drop. lia.
Qed.

(** fuse_buf_write *)
Lemma buf_write_runs src o soff data s : holds (mem s) (b_mem src + soff) data ->
  in_reach dst o (Z.of_nat (length data)) ->
  0 <= o -> 0 <= soff -> Z.of_nat (length data) < 2 ^ 63 ->
  o + Z.of_nat (length data) < 2 ^ 64 -> soff + Z.of_nat (length data) < 2 ^ 64 ->
  runs (fuse_buf_write S dst o src soff (Z.of_nat (length data))) s
    (fun r s' => written view put o data 0 s r s' /\
       (takes_all dst -> r = Z.of_nat (length data))).
Proof. intros. apply write_loop_runs; try done; lia. Qed.
End Descriptors.

Section Reading.
Context {K : Type} (S : syscalls K).
Context {V : Type} (src : fuse_buf) (view : K -> V) (draw : Z -> list Z -> V -> V -> Prop).
Context `{!Source S src view draw}.

(** A descriptor that has at least one byte whenever it is asked, such as a regular
    file before its end. *)
Definition generous : Prop := forall o len k, 0 < len -> 0 < (read_call S src o len k).1.1.1.

(** The outcome of reading [len] bytes from offset [o] to the address [a]. *)
Definition read_in (a o len copied : Z) (s : sys K) (r : Z) (s' : sys K) : Prop :=
  exists data k', s' = set_kern k' (set_mem (write_bytes a data (mem s)) s) /\
    ((r < 0 /\ copied = 0 /\ data = [] /\ view k' = view (kern s)) \/
     (r = copied + Z.of_nat (length data) /\ Z.of_nat (length data) <= len /\
      draw o data (view (kern s)) (view k'))).

Lemma read_in_stop a o len copied s k' : 0 <= len -> view k' = view (kern s) ->
  read_in a o len copied s copied (set_kern k' s).
Proof.
  intros Hlen Hv. exists [], k'. split; [by destruct s|]. right. simpl.
  split_and!; [lia|lia|]. rewrite Hv. by eapply draw_nil.
Qed.

Lemma read_in_more a o len copied s r data k' r2 s2 : r = Z.of_nat (length data) -> r <= len ->
  0 < r -> 0 <= copied -> draw o data (view (kern s)) (view k') ->
  read_in (a + r) (o + r) (len - r) (copied + r)
    (set_kern k' (set_mem (write_bytes a data (mem s)) s)) r2 s2 ->
  read_in a o len copied s r2 s2.
Proof.
  intros -> Hle Hpos Hc Hd (data2 & k2 & -> & [(? & ? & _)|(-> & Hl2 & Hd2)]); [lia|].
  exists (data ++ data2), k2. split; [by rewrite write_bytes_app|]. right.
  rewrite length_app. split_and!; [lia|lia|].
  eapply draw_app; [eassumption|exact Hd|exact Hd2].
Qed.

Lemma read_in_now a o len copied s data k' : Z.of_nat (length data) <= len ->
  draw o data (view (kern s)) (view k') ->
  read_in a o len copied s (copied + Z.of_nat (length data))
    (set_kern k' (set_mem (write_bytes a data (mem s)) s)).
Proof. intros. exists data, k'. split; [done|]. by right. Qed.

Lemma mapped_write m a n b l : mapped m a n -> mapped (write_bytes b l m) a n.
Proof.
  intros Hm x Hx. rewrite write_bytes_spec. case_decide; [|by apply Hm].
  apply lookup_lt_is_Some. lia.
Qed.

Lemma mapped_sub m a n b k : mapped m a n -> a <= b -> b + k <= a + n -> mapped m b k.
Proof. intros Hm ? ? x Hx. apply Hm. lia. Qed.

Lemma read_loop_runs dst : forall fuel doff o len copied s,
  len <= Z.of_nat fuel -> mapped (mem s) (b_mem dst + doff) len -> in_reach src o len ->
  0 <= o -> 0 <= doff -> 0 <= copied -> 0 <= len -> copied + len < 2 ^ 63 ->
  o + len < 2 ^ 64 -> doff + len < 2 ^ 64 ->
  runs (buf_read_loop S fuel dst doff src o len copied) s
    (fun r s' => read_in (b_mem dst + doff) o len copied s r s' /\
       (has (b_flags src) FUSE_BUF_FD_RETRY = true -> generous -> r = copied + len)).
Proof.
  induction fuel as [|fuel IH]; intros doff o len copied s Hf Hm Hre Ho Hd Hc Hlen Hm1 Hm2 Hm3.
  all: assert (Hstop : len = 0 -> runs (mret (ssize copied)) s
    (fun r s' => read_in (b_mem dst + doff) o len copied s r s' /\
       (has (b_flags src) FUSE_BUF_FD_RETRY = true -> generous -> r = copied + len)))
    by (intros ->; apply runs_ret; rewrite ssize_id by lia; split; [|lia];
        replace s with (set_kern (kern s) s) at 2 by (by destruct s); by apply read_in_stop).
  { replace len with 0 in * by lia. by apply Hstop. }
  simpl. destruct (Z.eqb_spec len 0) as [H0|H0]; [by apply Hstop|clear Hstop].
  apply call_bind. fold (read_call S src o len).
  destruct (read_call S src o len (kern s)) as [[[r e] data] k'] eqn:Hr.
  cbn [fst snd]. pose proof (source_law S _ _ _ _ _ _ _ Hre Hr) as Hlaw.
  assert (Hgen : generous -> 0 < r).
  { intros Hg. specialize (Hg o len (kern s)). rewrite Hr in Hg. apply Hg. lia. }
  destruct (Z.eqb_spec r (-1)) as [->|Hr1].
  { destruct Hlaw as [(_ & He & Hv)|[? _]]; [|lia]. apply runs_ret.
    split; [|intros _ Hg; specialize (Hgen Hg); lia].
    destruct (Z.eqb_spec copied 0) as [->|Hc0].
    - exists [], k'. split; [by destruct s|]. left. split_and!; [lia|done..].
    - rewrite ssize_id by lia. by apply read_in_stop. }
  destruct Hlaw as [(? & _)|(Hr2 & Hrl & Hdr)]; [done|].
  destruct (Z.eqb_spec r 0) as [->|Hr0].
  { apply runs_ret. rewrite ssize_id by lia.
    split; [|intros _ Hg; specialize (Hgen Hg); lia].
    destruct data; [|simpl in Hrl; lia]. exists [], k'. split; [by destruct s|].
    right. simpl. split_and!; [lia|lia|done]. }
  eapply store_bytes_bind; [eapply mapped_sub; [exact Hm|lia..]|].
  rewrite (u64_id (copied + r)), (u64_id (o + r)), (u64_id (doff + r)), (u64_id (_ - r)) by lia.
  destruct (has (b_flags src) FUSE_BUF_FD_RETRY) eqn:Hretry; simpl.
  2: { apply runs_ret. rewrite ssize_id, Hrl by lia. split; [|done].
       apply (read_in_now (b_mem dst + doff) o len copied s data k'); [lia|done]. }
  eapply runs_mono.
  { apply IH; try lia; [|apply in_reach_more; [done|lia]].
    simpl. apply mapped_write. eapply mapped_sub; [exact Hm|lia..]. }
  intros r2 s2 [Hw2 Hall]. split; [|intros _ Hg; rewrite (Hall eq_refl Hg); lia].
  rewrite Z.add_assoc in Hw2. eapply read_in_more; eauto; lia.
Qed.

(** fuse_buf_read *)
Lemma buf_read_runs dst doff o len s : mapped (mem s) (b_mem dst + doff) len ->
  in_reach src o len ->
  0 <= o -> 0 <= doff -> 0 <= len < 2 ^ 63 -> o + len < 2 ^ 64 -> doff + len < 2 ^ 64 ->
  runs (fuse_buf_read S dst doff src o len) s
    (fun r s' => read_in (b_mem dst + doff) o len 0 s r s' /\
       (has (b_flags src) FUSE_BUF_FD_RETRY = true -> generous -> r = len)).
Proof. intros. apply read_loop_runs; try done; lia. Qed.
End Reading.

(** ** A local buffer *)
Section LocalBuffer.
Context {K : Type}.
Implicit Types (s : sys K).

(** Nothing is mapped at or above the next free address. *)
Definition sys_ok s : Prop := 0 < brk s /\
  forall x, brk s <= x -> mem s !! x = None /\ blocks s !! x = None.

(** [m'] differs from [m] at most in the [n] bytes at [a]. *)
Definition only_in (a n : Z) (m m' : gmap Z Z) : Prop :=
  forall x, ~ (a <= x < a + n) -> m' !! x = m !! x.

Lemma only_in_trans a n m1 m2 m3 : only_in a n m1 m2 -> only_in a n m2 m3 -> only_in a n m1 m3.
Proof. intros H1 H2 x Hx. rewrite H2, H1 by done. done. Qed.

Lemma only_in_write a n l m : Z.of_nat (length l) <= n -> only_in a n m (write_bytes a l m).
Proof. intros Hl x Hx. rewrite write_bytes_spec, decide_False by lia. done. Qed.

Lemma foldr_delete_lookup (l : list Z) (m : gmap Z Z) x :
  foldr delete m l !! x = if decide (x ∈ l) then None else m !! x.
Proof.
  induction l as [|y l IH]; simpl; [done|].
  destruct (decide (x = y)) as [->|Hne].
  - rewrite lookup_delete_eq, decide_True; [done|by left].
  - rewrite lookup_delete_ne, IH by done.
    repeat case_decide; set_solver.
Qed.

(** A block that is allocated, used and freed leaves no trace in the memory. *)
Lemma local_buffer_runs {A} n (body : Z -> M (sys K) A) s (Q : A -> K -> Prop) : 0 <= n -> sys_ok s ->
  (forall m, mapped m (brk s) n -> only_in (brk s) n (mem s) m ->
     runs (body (brk s)) (mk_sys m (<[brk s := n]> (blocks s)) (brk s + Z.max n 1) (kern s))
       (fun r s' => exists m' k', only_in (brk s) n m m' /\
          s' = set_kern k' (set_mem m'
                 (mk_sys m (<[brk s := n]> (blocks s)) (brk s + Z.max n 1) (kern s))) /\ Q r k')) ->
  runs (a ← alloc n; r ← body a; free a;; mret r) s (fun r s' => exists k', Q r k' /\
    s' = mk_sys (mem s) (blocks s) (brk s + Z.max n 1) k').
Proof.
  intros Hn [Hpos Hfree] Hbody. unfold alloc. apply runs_bind_assoc, runs_get_bind.
  apply runs_bind_assoc, runs_put_bind, runs_ret_bind.
  set (m := write_bytes _ _ _).
  assert (Hm : only_in (brk s) n (mem s) m).
  { apply only_in_write. rewrite length_replicate. lia. }
  eapply runs_bind.
  { apply (Hbody m); [|done]. intros x Hx. unfold m.
    rewrite write_bytes_spec, length_replicate, decide_True by lia.
    apply lookup_lt_is_Some. rewrite length_replicate. lia. }
  intros r s1 (m' & k' & Hm' & -> & HQ). unfold free.
  destruct (Z.eqb_spec (brk s) 0); [lia|]. apply runs_bind_assoc, runs_get_bind.
  apply runs_bind_assoc.
  apply runs_deref_bind with (a := n); [apply lookup_insert_eq|].
  apply runs_put_bind, runs_ret. exists k'. split; [done|].
  unfold set_kern, set_mem. simpl. f_equal.
  - apply map_eq. intros x. rewrite foldr_delete_lookup.
    destruct (decide (x ∈ addrs (brk s) n)) as [Hx|Hx]; rewrite elem_addrs in Hx.
    + by destruct (Hfree x ltac:(lia)) as [-> _].
    + rewrite (only_in_trans _ _ _ _ _ Hm Hm') by done. done.
  - rewrite delete_insert_id; [done|]. by destruct (Hfree (brk s) ltac:(lia)).
Qed.
End LocalBuffer.

(** ** From a descriptor to a descriptor *)
Section FdToFd.
Context {K : Type} (S : syscalls K).
Context {V W : Type} (dst src : fuse_buf).
Context (into : K -> V) (put : Z -> list Z -> V -> V) `{!Sink S dst into put}.
Context (from : K -> W) (draw : Z -> list Z -> W -> W -> Prop) `{!Source S src from draw}.

(** Writing to the one descriptor does not change what the other has to offer, and
    reading from it does not change what the first has received. *)
Record unrelated : Prop := mk_unrelated {
  un_write : forall o data k, from (write_call S dst o data k).2 = from k;
  un_read : forall o len k, into (read_call S src o len k).2 = into k;
}.

(** The outcome: [data] has arrived, [lost] was read but not accepted. *)
Definition piped (o_dst o_src len copied : Z) (k : K) (r : Z) (k' : K) : Prop :=
  exists data lost, draw o_src (data ++ lost) (from k) (from k') /\
    into k' = put o_dst data (into k) /\ Z.of_nat (length (data ++ lost)) <= len /\
    ((r < 0 /\ copied = 0 /\ data = []) \/ r = copied + Z.of_nat (length data)) /\
    (takes_all S dst -> lost = []).

Lemma write_loop_from (un : unrelated) : forall fuel o s_buf soff len copied s r s',
  buf_write_loop S fuel dst o s_buf soff len copied s = Ok (r, s') ->
  from (kern s') = from (kern s).
Proof.
  induction fuel as [|fuel IH]; intros o s_buf soff len copied s r s' Hrun; simpl in Hrun.
  { destruct (len =? 0); [|done]. by injection Hrun as _ <-. }
  destruct (len =? 0); [by injection Hrun as _ <-|].
  apply bind_inv in Hrun as (data & s1 & Hload & Hrun).
  assert (s1 = s) as ->.
  { unfold load_bytes in Hload. apply bind_inv in Hload as (? & ? & [= <- <-] & Hd).
    destruct (mapM _ _); [|done]. by injection Hd. }
  apply bind_inv in Hrun as ([q e] & s1 & Hcall & Hrun).
  fold (write_call S dst o data) in Hcall.
  assert (Hs1 : from (kern s1) = from (kern s)).
  { rewrite <- (un_write un o data (kern s)). unfold call in Hcall.
    apply bind_inv in Hcall as (? & ? & [= <- <-] & Hcall).
    destruct (write_call S dst o data (kern s)). by injection Hcall as _ <-. }
  rewrite <- Hs1. repeat (case_match; [by injection Hrun as _ <-|]). by eapply IH.
Qed.

Lemma read_loop_into (un : unrelated) : forall fuel d_buf doff o len copied s r s',
  buf_read_loop S fuel d_buf doff src o len copied s = Ok (r, s') ->
  into (kern s') = into (kern s).
Proof.
  induction fuel as [|fuel IH]; intros d_buf doff o len copied s r s' Hrun; simpl in Hrun.
  { destruct (len =? 0); [|done]. by injection Hrun as _ <-. }
  destruct (len =? 0); [by injection Hrun as _ <-|].
  apply bind_inv in Hrun as ([[q e] data] & s1 & Hcall & Hrun).
  fold (read_call S src o len) in Hcall.
  assert (Hs1 : into (kern s1) = into (kern s)).
  { rewrite <- (un_read un o len (kern s)). unfold call in Hcall.
    apply bind_inv in Hcall as (? & ? & [= <- <-] & Hcall).
    destruct (read_call S src o len (kern s)). by injection Hcall as _ <-. }
  rewrite <- Hs1. do 2 (case_match; [by injection Hrun as _ <-|]).
  apply bind_inv in Hrun as ([] & s2 & Hstore & Hrun).
  assert (Hs2 : kern s2 = kern s1).
  { unfold store_bytes, load_bytes in Hstore.
    apply bind_inv in Hstore as (? & s3 & Hl & Hstore).
    apply bind_inv in Hl as (? & ? & [= <- <-] & Hd).
    destruct (mapM _ _); [|done]. injection Hd as _ <-. by injection Hstore as <-. }
  rewrite <- Hs2. case_match; [by injection Hrun as _ <-|]. by eapply IH.
Qed.

Lemma piped_stop o_dst o_src len copied k k' : 0 <= len -> from k' = from k ->
  into k' = into k -> piped o_dst o_src len copied k copied k'.
Proof.
  intros Hlen Hf Hi. exists [], []. simpl. rewrite Hf, Hi.
  split_and!; [by eapply draw_nil|by rewrite (put_nil S)|lia|right; lia|done].
Qed.

(** Bytes read and not passed on: an error, or nothing was accepted. *)
Lemma piped_lost o_dst o_src len copied k r k' data :
  draw o_src data (from k) (from k') -> into k' = into k -> Z.of_nat (length data) <= len ->
  (r < 0 /\ copied = 0) \/ r = copied ->
  (takes_all S dst -> data = []) ->
  piped o_dst o_src len copied k r k'.
Proof.
  intros Hd Hi Hlen Hr Hw. exists [], data. rewrite Hi. simpl.
  split_and!; [done|by rewrite (put_nil S)|done| |done].
  destruct Hr as [[? ?]| ->]; [by left|right; lia].
Qed.

Lemma piped_from o_dst o_src len copied k k0 r k' : into k = into k0 -> from k = from k0 ->
  piped o_dst o_src len copied k r k' -> piped o_dst o_src len copied k0 r k'.
Proof. unfold piped. by intros -> ->. Qed.

Lemma piped_more o_dst o_src len copied k r k1 data r2 k2 : r = Z.of_nat (length data) ->
  0 < r <= len -> 0 <= copied ->
  draw o_src data (from k) (from k1) -> into k1 = put o_dst data (into k) ->
  piped (o_dst + r) (o_src + r) (len - r) (copied + r) k1 r2 k2 ->
  piped o_dst o_src len copied k r2 k2.
Proof.
  intros -> Hlen Hc Hd Hi (data2 & lost & Hd2 & Hi2 & Hl2 & Hr2 & Hw).
  exists (data ++ data2), lost. rewrite <- app_assoc, length_app.
  split_and!; [by eapply draw_app|by rewrite (put_app S), Hi2, Hi|lia| |done].
  rewrite length_app. destruct Hr2 as [(? & ? & ?)|Hr2]; [lia|right; lia].
Qed.

Lemma piped_now o_dst o_src len copied k k' data n : Z.of_nat (length data) <= len ->
  (n <= length data)%nat -> draw o_src data (from k) (from k') ->
  into k' = put o_dst (take n data) (into k) ->
  (takes_all S dst -> n = length data) ->
  piped o_dst o_src len copied k (copied + Z.of_nat n) k'.
Proof.
  intros Hlen Hn Hd Hi Hw. exists (take n data), (drop n data). rewrite take_drop.
  split_and!; [done..|right; rewrite length_take; lia|].
  intros Hwl. rewrite (Hw Hwl). apply drop_ge. done.
Qed.

Context (un : unrelated) (tmp : fuse_buf) (n : Z).
Context (Hsize : b_size tmp = n) (Hn : 0 < n < 2 ^ 63).

Lemma fd_to_fd_loop_runs : forall fuel o_dst o_src len copied s,
  len <= Z.of_nat fuel -> mapped (mem s) (b_mem tmp) n ->
  in_reach dst o_dst len -> in_reach src o_src len ->
  0 <= o_dst -> 0 <= o_src -> 0 <= copied -> 0 <= len ->
  copied + len < 2 ^ 63 -> o_dst + len < 2 ^ 64 -> o_src + len < 2 ^ 64 ->
  runs (fd_to_fd_loop S fuel tmp dst o_dst src o_src len copied) s (fun r s' =>
    exists m' k', only_in (b_mem tmp) n (mem s) m' /\ s' = set_kern k' (set_mem m' s) /\
      piped o_dst o_src len copied (kern s) r k').
Proof.
  induction fuel as [|fuel IH]; intros o_dst o_src len copied s Hf Hm Hrd Hrs Hd Hs Hc Hlen H1 H2 H3.
  { replace len with 0 in * by lia. simpl. apply runs_ret. rewrite ssize_id by lia.
    exists (mem s), (kern s). split_and!; [done|by destruct s|by apply piped_stop]. }
  simpl. destruct (Z.eqb_spec len 0) as [H0|H0].
  { apply runs_ret. rewrite ssize_id by lia.
    exists (mem s), (kern s). split_and!; [done|by destruct s|by apply piped_stop]. }
  rewrite Hsize. destruct (min_size_spec n len) as (Hl1 & Hl2 & Hl3).
  set (this := min_size n len) in *.
  destruct (buf_read_runs S src from draw tmp 0 o_src this s) as (r & s1 & Hrun & Hin & _);
    [rewrite Z.add_0_r; eapply mapped_sub; [exact Hm|lia..]
    |by eapply in_reach_less|lia..|].
  eapply runs_Ok_bind; [exact Hrun|]. apply (read_loop_into un) in Hrun as Hi.
  rewrite Z.add_0_r in Hin. destruct Hin as (data & k1 & -> & Hcase). simpl in Hi.
  set (m1 := write_bytes (b_mem tmp) data (mem s)) in *.
  assert (Hm1 : only_in (b_mem tmp) n (mem s) m1)
    by (apply only_in_write; destruct Hcase as [(_ & _ & -> & _)|(_ & ? & _)]; simpl; lia).
  assert (Hend : forall r' k', piped o_dst o_src len copied (kern s) r' k' ->
    runs (mret r') (set_kern k' (set_mem m1 s)) (fun r s' => exists m' k',
      only_in (b_mem tmp) n (mem s) m' /\ s' = set_kern k' (set_mem m' s) /\
      piped o_dst o_src len copied (kern s) r k')).
  { intros r' k' Hp. apply runs_ret. by exists m1, k'. }
  destruct Hcase as [(Hr & _ & -> & Hfr)|(-> & Hlen1 & Hdr)].
  { rewrite (proj2 (Z.ltb_lt _ _) Hr). apply Hend.
    destruct (Z.eqb_spec copied 0) as [->|Hc0].
    - apply (piped_lost _ _ _ _ _ _ _ []); [|done|simpl; lia|by left|done].
      rewrite Hfr. by eapply draw_nil.
    - rewrite ssize_id by lia. by apply piped_stop. }
  rewrite Z.add_0_l. destruct (Z.ltb_spec (Z.of_nat (length data)) 0); [lia|].
  destruct (Z.eqb_spec (Z.of_nat (length data)) 0) as [Hz|Hz].
  { rewrite ssize_id by lia. apply Hend. destruct data; [|simpl in Hz; lia].
    apply (piped_lost _ _ _ _ _ _ _ []); [done|done|simpl; lia|by right|done]. }
  destruct (buf_write_runs S dst into put tmp o_dst 0 data (set_kern k1 (set_mem m1 s)))
    as (r & s2 & Hrun2 & Hin2 & Hwill); [|eapply in_reach_less; [exact Hrd|lia]|lia..|].
  { rewrite Z.add_0_r. intros i. simpl. unfold m1. rewrite write_bytes_spec.
    case_decide; [left; f_equal; lia|right; lia]. }
  eapply runs_Ok_bind; [exact Hrun2|]. apply (write_loop_from un) in Hrun2 as Hfr2.
  destruct Hin2 as [[k2 ->] Hcase]. simpl in Hcase, Hfr2.
  change (set_kern k2 (set_kern k1 (set_mem m1 s))) with (set_kern k2 (set_mem m1 s)) in *.
  rewrite <- Hfr2 in Hdr. rewrite Hi in Hcase.
  destruct Hcase as [(Hr & _ & Hi2)|[Hr Hi2]].
  { rewrite (proj2 (Z.ltb_lt _ _) Hr). apply Hend.
    apply (piped_lost _ _ _ _ _ _ _ data); [done|done|lia| |].
    - destruct (Z.eqb_spec copied 0) as [->|]; [by left|right; apply ssize_id; lia].
    - intros Hwl. specialize (Hwill Hwl). lia. }
  rewrite Z.add_0_l, Z.sub_0_r in *. destruct (Z.ltb_spec r 0); [lia|].
  assert (Hnow : piped o_dst o_src len copied (kern s) (copied + r) k2).
  { replace (copied + r) with (copied + Z.of_nat (Z.to_nat r)) by lia.
    eapply piped_now; [|..|exact Hi2|]; [|..|exact Hdr|]; [lia|lia|].
    intros Hwl. specialize (Hwill Hwl). lia. }
  destruct (Z.eqb_spec r 0) as [->|Hr0].
  { rewrite ssize_id by lia. apply Hend. by rewrite Z.add_0_r in Hnow. }
  rewrite (u64_id (copied + r)), (u64_id (o_dst + r)), (u64_id (o_src + r)), (u64_id (_ - r)) by lia.
  destruct (Z.ltb_spec r this); [rewrite ssize_id by lia; by apply Hend|].
  rewrite take_ge in Hi2 by lia.
  eapply runs_mono.
  { apply IH; try lia; [by apply mapped_write|apply in_reach_more; [done|lia]..]. }
  intros r3 s3 (m3 & k3 & Hm3 & -> & Hp). simpl in Hm3, Hp. exists m3, k3.
  split_and!; [by eapply only_in_trans|done|].
  eapply (piped_more _ _ _ _ _ r _ data); try done; lia.
Qed.

End FdToFd.

(** ** Splicing *)
Section Splicing.
Context {K : Type} (S : syscalls K).
Context {V W : Type} (dst src : fuse_buf).
Context (into : K -> V) (put : Z -> list Z -> V -> V) `{!Sink S dst into put}.
Context (from : K -> W) (draw : Z -> list Z -> W -> W -> Prop) `{!Source S src from draw}.
Context (un : unrelated S dst src into from).

Notation piped := (piped S dst into put from draw).

(** [m] and [blocks] are as before; only the kernel and the next free address are not. *)
Definition kernel_only (P : Z -> K -> Prop) (s : sys K) (r : Z) (s' : sys K) : Prop :=
  exists b k', s' = mk_sys (mem s) (blocks s) b k' /\ P r k'.

(** fuse_buf_fd_to_fd *)
Lemma fd_to_fd_runs o_dst o_src len s : sys_ok s -> in_reach dst o_dst len ->
  in_reach src o_src len -> 0 <= o_dst -> 0 <= o_src ->
  0 <= len < 2 ^ 63 -> o_dst + len < 2 ^ 64 -> o_src + len < 2 ^ 64 ->
  runs (fuse_buf_fd_to_fd S dst o_dst src o_src len) s
    (kernel_only (piped o_dst o_src len 0 (kern s)) s).
Proof.
  intros Hs Hrd Hrs Hd Hsr Hlen H1 H2. unfold fuse_buf_fd_to_fd. eapply runs_mono.
  { apply (local_buffer_runs 4096 _ s (fun r k' => piped o_dst o_src len 0 (kern s) r k'));
      [lia|done|].
    intros m Hm _. eapply runs_mono.
    { apply (fd_to_fd_loop_runs S dst src into put from draw un
        (mk_fbuf 4096 0 0 0 (brk s) 0 0) 4096); try done; lia. }
    intros r s' (m' & k' & Ho & -> & Hp). exists m', k'. done. }
  intros r s' (k' & Hp & ->). by eexists _, k'.
Qed.

(** The position handed to splice(2), null without [FUSE_BUF_FD_SEEK]. *)
Definition seek_to (b : fuse_buf) (o : Z) : option Z :=
  if has (b_flags b) FUSE_BUF_FD_SEEK then Some (b_pos b + o) else None.

(** splice(2): an error moves nothing, and otherwise [r] bytes have gone from the one
    descriptor to the other. *)
Definition splice_law : Prop := forall o_src o_dst len fl k r e k',
  in_reach src o_src len -> in_reach dst o_dst len ->
  sys_splice S (b_fd src) (seek_to src o_src) (b_fd dst) (seek_to dst o_dst) len fl k =
    ((r, e), k') ->
  (r = -1 /\ 0 < e /\ into k' = into k /\ from k' = from k) \/
  (0 <= r <= len /\ exists data, r = Z.of_nat (length data) /\
     draw o_src data (from k) (from k') /\ into k' = put o_dst data (into k)).

Context (splices : splice_law).

Lemma seek_to_more b o r : (fun p => p + r) <$> seek_to b o = seek_to b (o + r).
Proof. unfold seek_to. destruct (has _ _); [simpl; by rewrite Z.add_assoc|done]. Qed.

Lemma splice_loop_runs fl flags o_dst0 o_src0 : forall fuel o_dst o_src len copied s,
  sys_ok s -> len <= Z.of_nat fuel -> 0 <= copied ->
  (copied = 0 -> o_dst0 = o_dst /\ o_src0 = o_src) ->
  in_reach dst o_dst len -> in_reach src o_src len ->
  0 <= o_dst -> 0 <= o_src -> 0 <= len -> copied + len < 2 ^ 63 ->
  o_dst + len < 2 ^ 64 -> o_src + len < 2 ^ 64 ->
  runs (splice_loop S fuel dst o_dst0 src o_src0 (seek_to src o_src) (seek_to dst o_dst) len
          fl flags copied) s
    (kernel_only (piped o_dst o_src len copied (kern s)) s).
Proof.
  induction fuel as [|fuel IH]; intros o_dst o_src len copied s Hs Hf Hc Ho Hrd Hrs Hd Hsr Hlen H1 H2 H3;
    simpl.
  all: assert (Hend : forall r k', piped o_dst o_src len copied (kern s) r k' ->
      runs (mret r) (set_kern k' s) (kernel_only (piped o_dst o_src len copied (kern s)) s))
    by (intros r k' Hp; apply runs_ret; exists (brk s), k'; done).
  all: assert (Hstop : runs (mret (ssize copied)) s
      (kernel_only (piped o_dst o_src len copied (kern s)) s))
    by (rewrite ssize_id by lia; apply runs_ret; exists (brk s), (kern s);
        split; [by destruct s|by eapply piped_stop]).
  { replace len with 0 in * by lia. exact Hstop. }
  destruct (Z.eqb_spec len 0) as [H0|H0]; [exact Hstop|clear Hstop].
  apply call_bind.
  destruct (sys_splice _ _ _ _ _ _ _ _) as [[r e] k'] eqn:Hsp. cbn [fst snd].
  pose proof (splices _ _ _ _ _ _ _ _ Hrs Hrd Hsp) as Hlaw.
  destruct (Z.eqb_spec r (-1)) as [->|Hr1].
  { destruct Hlaw as [(_ & He & Hi & Hfr)|[? _]]; [|lia].
    destruct (Z.eqb_spec copied 0) as [->|Hc0]; simpl.
    - destruct (Ho eq_refl) as [-> ->]. case_match.
      + apply Hend. eapply piped_lost with (data := []);
          [eassumption..|rewrite Hfr; by eapply draw_nil|done|simpl; lia|left; lia|done].
      + eapply runs_mono.
        { apply fd_to_fd_runs; [|done|done|lia..]. destruct Hs as [Hp Hfree]. by split. }
        intros r s' (b & k2 & -> & Hp). exists b, k2. split; [done|].
        by eapply piped_from; [exact Hi|exact Hfr|].
    - rewrite ssize_id by lia. apply Hend. by eapply piped_stop. }
  destruct Hlaw as [(? & _)|(Hr & data & -> & Hdr & Hi)]; [done|].
  assert (Hnow : piped o_dst o_src len copied (kern s) (copied + Z.of_nat (length data)) k').
  { eapply piped_now; [|done|exact Hdr|by rewrite firstn_all|done]. lia. }
  destruct (Z.eqb_spec (Z.of_nat (length data)) 0) as [Hz|Hz].
  { rewrite ssize_id by lia. apply Hend. by rewrite Hz, Z.add_0_r in Hnow. }
  rewrite (u64_id (copied + _)), (u64_id (len - _)) by lia.
  case_match; [rewrite ssize_id by lia; by apply Hend|].
  rewrite !seek_to_more. eapply runs_mono.
  { apply IH; try lia; [destruct Hs as [Hp Hfree]; by split|..];
      (apply in_reach_more; [done|lia]). }
  intros r s' (b & k2 & -> & Hp). exists b, k2. split; [done|]. simpl in Hp.
  eapply piped_more with (data := data); eauto; lia.
Qed.

(** fuse_buf_splice *)
Lemma seek_to_id b o n : in_reach b o n -> 0 <= n ->
  (if has (b_flags b) FUSE_BUF_FD_SEEK then Some (ssize (b_pos b + o)) else None) = seek_to b o.
Proof.
  unfold in_reach, seek_to. destruct (has _ _); [|done]. intros Hb Hn.
  destruct (Hb eq_refl). by rewrite ssize_id by lia.
Qed.

Lemma splice_runs flags o_dst o_src len s : sys_ok s -> in_reach dst o_dst len ->
  in_reach src o_src len -> 0 <= o_dst -> 0 <= o_src -> 0 <= len < 2 ^ 63 ->
  o_dst + len < 2 ^ 64 -> o_src + len < 2 ^ 64 ->
  runs (fuse_buf_splice S dst o_dst src o_src len flags) s
    (kernel_only (piped o_dst o_src len 0 (kern s)) s).
Proof.
  intros Hs Hrd Hrs Hd Hsr Hlen H1 H2. unfold fuse_buf_splice.
  rewrite !(seek_to_id _ _ len) by (done || lia).
  apply splice_loop_runs; try done; lia.
Qed.
End Splicing.

(** ** A host

    A kernel with an input stream, an output stream and a file, that keeps the
    contracts above: descriptors without [FUSE_BUF_FD_SEEK] are the streams, those
    with it the file. *)
Record host : Type := mk_host { input : list Z; output : list Z; file : gmap Z Z }.

(** The bytes of the file from [pos] on, [n] at most, up to the first hole. *)
Fixpoint file_bytes (n : nat) (pos : Z) (m : gmap Z Z) : list Z :=
  match n with
  | O => []
  | Datatypes.S n =>
    match m !! pos with Some b => b :: file_bytes n (pos + 1) m | None => [] end
  end.

Definition EIO : Z := 5.

Definition host_sys : syscalls host := mk_syscalls host
  (fun _ data pos k =>
     ((Z.of_nat (length data), 0), mk_host (input k) (output k) (write_bytes pos data (file k))))
  (fun _ data k => ((Z.of_nat (length data), 0), mk_host (input k) (output k ++ data) (file k)))
  (fun _ len pos k =>
     let data := file_bytes (Z.to_nat len) pos (file k) in
     if len <? 0 then ((-1, EIO, []), k) else ((Z.of_nat (length data), 0, data), k))
  (fun _ len k =>
     let data := take (Z.to_nat len) (input k) in
     if len <? 0 then ((-1, EIO, []), k)
     else ((Z.of_nat (length data), 0, data),
           mk_host (drop (Z.to_nat len) (input k)) (output k) (file k)))
  (fun _ sp _ dp len _ k =>
     let data := take (Z.to_nat len) (input k) in
     match sp, dp with
     | None, None =>
       if len <? 0 then ((-1, EINVAL), k)
       else ((Z.of_nat (length data), 0),
             mk_host (drop (Z.to_nat len) (input k)) (output k ++ data) (file k))
     | _, _ => ((-1, EINVAL), k)
     end).

Definition append (_ : Z) (l v : list Z) : list Z := v ++ l.
Definition take_off (_ : Z) (l v v' : list Z) : Prop := v = l ++ v'.
Definition put_at (b : fuse_buf) (o : Z) (l : list Z) (m : gmap Z Z) : gmap Z Z :=
  write_bytes (b_pos b + o) l m.
Definition see_at (b : fuse_buf) (o : Z) (l : list Z) (m m' : gmap Z Z) : Prop :=
  m' = m /\ holds m (b_pos b + o) l.

Lemma stream_sink dst : has (b_flags dst) FUSE_BUF_FD_SEEK = false ->
  Sink host_sys dst output append.
Proof.
  intros Hs. split.
  - intros o v. apply app_nil_r.
  - intros o l1 l2 v. apply app_assoc.
  - intros o data k r e k' _ Hw. unfold write_call in Hw. rewrite Hs in Hw. simpl in Hw.
    injection Hw as <- <- <-. right. split; [lia|]. simpl. unfold append.
    by rewrite Nat2Z.id, firstn_all.
Qed.

Lemma file_sink dst : has (b_flags dst) FUSE_BUF_FD_SEEK = true ->
  Sink host_sys dst file (put_at dst).
Proof.
  intros Hs. split.
  - done.
  - intros o l1 l2 v. unfold put_at. by rewrite write_bytes_app, Z.add_assoc.
  - intros o data k r e k' Hre Hw. unfold write_call in Hw. rewrite Hs in Hw. simpl in Hw.
    specialize (Hre Hs). rewrite ssize_id in Hw by lia.
    injection Hw as <- <- <-. right. split; [lia|]. simpl. unfold put_at.
    by rewrite Nat2Z.id, firstn_all.
Qed.

Lemma stream_source src : has (b_flags src) FUSE_BUF_FD_SEEK = false ->
  Source host_sys src input take_off.
Proof.
  intros Hs. split.
  - done.
  - intros o l1 l2 v v1 v2 -> ->. unfold take_off. by rewrite app_assoc.
  - intros o len k r e data k' _ Hr. unfold read_call in Hr. rewrite Hs in Hr. simpl in Hr.
    destruct (Z.ltb_spec len 0); injection Hr as <- <- <- <-; [by left|].
    right. rewrite length_take. split; [lia|]. split; [done|]. simpl. unfold take_off.
    by rewrite take_drop.
Qed.

Lemma file_bytes_spec n : forall pos m, holds m pos (file_bytes n pos m) /\
  (length (file_bytes n pos m) <= n)%nat.
Proof.
  induction n as [|n IH]; intros pos m; simpl; [split; [intros i; right; simpl; lia|simpl; lia]|].
  destruct (m !! pos) as [b|] eqn:Hb; [|split; [intros i; right; simpl; lia|simpl; lia]].
  destruct (IH (pos + 1) m) as [Hh Hl]. simpl. split; [|lia].
  intros [|i]; simpl; [left; by rewrite Z.add_0_r|].
  destruct (Hh i) as [<-|Hi]; [left; f_equal; lia|right; lia].
Qed.

Lemma holds_app m a l1 l2 : holds m a l1 -> holds m (a + Z.of_nat (length l1)) l2 ->
  holds m a (l1 ++ l2).
Proof.
  intros H1 H2 i. destruct (decide (i < length l1)%nat) as [Hi|Hi].
  - rewrite lookup_app_l by done. destruct (H1 i); [by left|lia].
  - rewrite lookup_app_r, length_app by lia. destruct (H2 (i - length l1)%nat) as [H|H].
    + left. rewrite <- H. f_equal. lia.
    + right. lia.
Qed.

Lemma file_source src : has (b_flags src) FUSE_BUF_FD_SEEK = true ->
  Source host_sys src file (see_at src).
Proof.
  intros Hs. split.
  - intros o v. split; [done|]. intros i. right. simpl. lia.
  - intros o l1 l2 v v1 v2 [-> H1] [-> H2]. split; [done|]. apply holds_app; [done|].
    by rewrite <- Z.add_assoc.
  - intros o len k r e data k' Hre Hr. unfold read_call in Hr. rewrite Hs in Hr. simpl in Hr.
    specialize (Hre Hs).
    destruct (Z.ltb_spec len 0); injection Hr as <- <- <- <-; [by left|].
    rewrite ssize_id by lia.
    destruct (file_bytes_spec (Z.to_nat len) (b_pos src + o) (file k)) as [Hh Hl].
    right. split; [lia|]. split; [done|]. by split.
Qed.

Lemma host_willing dst : willing host_sys dst.
Proof.
  intros o data k Hne. unfold write_call. destruct data; [done|].
  case_match; simpl; lia.
Qed.

Lemma streams_unrelated dst src : has (b_flags dst) FUSE_BUF_FD_SEEK = false ->
  has (b_flags src) FUSE_BUF_FD_SEEK = false -> unrelated host_sys dst src output input.
Proof.
  intros Hd Hs. split.
  - intros o data k. unfold write_call. by rewrite Hd.
  - intros o len k. unfold read_call. rewrite Hs. simpl. by case_match.
Qed.

Lemma streams_splice dst src : has (b_flags dst) FUSE_BUF_FD_SEEK = false ->
  has (b_flags src) FUSE_BUF_FD_SEEK = false ->
  splice_law host_sys dst src output append input take_off.
Proof.
  intros Hd Hs o_src o_dst len fl k r e k' _ _. unfold seek_to. rewrite Hd, Hs. simpl.
  destruct (Z.ltb_spec len 0); intros [= <- <- <-]; [by left|].
  right. rewrite length_take. split; [lia|].
  exists (take (Z.to_nat len) (input k)). rewrite length_take. split; [done|]. simpl.
  unfold take_off. by rewrite take_drop.
Qed.

(** ** Properties *)

(** C13: [fuse_buf_copy] between vectors of memory that lie apart moves the bytes of the
    source, in order, to the places of the destination, as many as both have, whatever
    the sizes of the pieces; it returns that number, moves the source position past
    them, changes no other byte, and neither fails an assertion nor runs forever. *)
Theorem fuse_buf_copy_memory {K} (S : syscalls K) dstv srcv flags (s : sys K) :
  apart dstv srcv (mem s) -> Z.of_nat (length (spots srcv)) < 2 ^ 63 ->
  runs (fuse_buf_copy S false dstv srcv flags) s (fun '(res, dstv', srcv') s' =>
    let n := Nat.min (length (spots dstv)) (length (spots srcv)) in
    res = Z.of_nat n /\ spots srcv' = drop n (spots srcv) /\
    vec_ok dstv' /\ vec_ok srcv' /\
    exists m', s' = set_mem m' s /\ moved (spots dstv) (spots srcv) (mem s) m').
Proof.
  intros Ha Hmax. unfold fuse_buf_copy. eapply runs_mono.
  - apply copy_loop_mem; [done| |lia|lia]. unfold copy_fuel, left_of.
    pose proof (vo_idx _ (ap_dst _ _ _ Ha)). pose proof (vo_idx _ (ap_src _ _ _ Ha)). lia.
  - intros [[res dstv'] srcv'] s' H. exact H.
Qed.

(** C15: Copying memory to a descriptor puts a prefix of the bytes there, at the right
    offset, and returns its length; an error is returned only if nothing was put; with
    [FUSE_BUF_FD_RETRY] a descriptor that takes something every time gets everything;
    the memory does not change. *)
Theorem copy_to_descriptor {K V} (S : syscalls K) dst src o soff data flags
    (view : K -> V) put (s : sys K) (sink : Sink S dst view put) :
  has (b_flags src) FUSE_BUF_IS_FD = false -> has (b_flags dst) FUSE_BUF_IS_FD = true ->
  holds (mem s) (b_mem src + soff) data -> in_reach dst o (Z.of_nat (length data)) ->
  0 <= o -> 0 <= soff -> Z.of_nat (length data) < 2 ^ 63 ->
  o + Z.of_nat (length data) < 2 ^ 64 -> soff + Z.of_nat (length data) < 2 ^ 64 ->
  runs (fuse_buf_copy_one S dst o src soff (Z.of_nat (length data)) flags) s (fun r s' =>
    (exists k', s' = set_kern k' s) /\
    ((r < 0 /\ view (kern s') = view (kern s)) \/
     (0 <= r <= Z.of_nat (length data) /\
      view (kern s') = put o (take (Z.to_nat r) data) (view (kern s)))) /\
    (has (b_flags dst) FUSE_BUF_FD_RETRY = true -> willing S dst ->
     r = Z.of_nat (length data))).
Proof.
  intros Hs Hd Hh Hre Ho Hso H1 H2 H3. unfold fuse_buf_copy_one. rewrite Hs, Hd. simpl.
  eapply runs_mono; [by apply (buf_write_runs S dst view put)|].
  intros r s' [[Hk Hcase] Hall]. split_and!; [done| |by intros; apply Hall; left].
  rewrite Z.sub_0_r, Z.add_0_l in Hcase.
  destruct Hcase as [(? & _ & ?)|[? ?]]; [by left|by right].
Qed.

(** C16: Copying from a descriptor to memory stores the next bytes it has, at most
    [len], in order from the given address on, and returns their number; an error is
    returned only if nothing was read; with [FUSE_BUF_FD_RETRY] a descriptor that has
    something every time fills the whole range; no other byte changes. *)
Theorem copy_from_descriptor {K V} (S : syscalls K) dst src o doff len flags
    (view : K -> V) draw (s : sys K) (source : Source S src view draw) :
  has (b_flags src) FUSE_BUF_IS_FD = true -> has (b_flags dst) FUSE_BUF_IS_FD = false ->
  mapped (mem s) (b_mem dst + doff) len -> in_reach src o len ->
  0 <= o -> 0 <= doff -> 0 <= len < 2 ^ 63 -> o + len < 2 ^ 64 -> doff + len < 2 ^ 64 ->
  runs (fuse_buf_copy_one S dst doff src o len flags) s (fun r s' =>
    exists data k',
      s' = set_kern k' (set_mem (write_bytes (b_mem dst + doff) data (mem s)) s) /\
      ((r < 0 /\ data = [] /\ view k' = view (kern s)) \/
       (r = Z.of_nat (length data) /\ r <= len /\ draw o data (view (kern s)) (view k'))) /\
      (has (b_flags src) FUSE_BUF_FD_RETRY = true -> generous S src -> r = len)).
Proof.
  intros Hs Hd Hm Hre Ho Hso H1 H2 H3. unfold fuse_buf_copy_one. rewrite Hs, Hd. simpl.
  eapply runs_mono; [by apply (buf_read_runs S src view draw)|].
  intros r s' [(data & k' & -> & Hcase) Hall]. exists data, k'. split_and!; [done| |done].
  destruct Hcase as [(? & _ & ? & ?)|(-> & ? & ?)]; [by left|right]. by rewrite Z.add_0_l.
Qed.

(** C14: Copying between descriptors, by splice(2), or through a local buffer when splicing
    is refused or not wanted, delivers bytes of the source to the destination in order
    and returns how many arrived; an error is returned only if none did.  Bytes can be
    [lost], read but never written, only when the destination refuses some: none is lost
    when it takes all it is given, or takes something every time and is asked again with
    [FUSE_BUF_FD_RETRY].  The memory is left as it was.  The buffers are plain ones,
    without [FUSE_BUF_FD_SECTION]. *)
Theorem copy_between_descriptors {K V W} (S : syscalls K) dst src o_dst o_src len flags
    (into : K -> V) put (from : K -> W) draw (s : sys K)
    (sink : Sink S dst into put) (source : Source S src from draw) :
  unrelated S dst src into from -> splice_law S dst src into put from draw ->
  has (b_flags src) FUSE_BUF_IS_FD = true -> has (b_flags dst) FUSE_BUF_IS_FD = true ->
  has (b_flags src) FUSE_BUF_FD_SECTION = false -> has (b_flags dst) FUSE_BUF_FD_SECTION = false ->
  sys_ok s -> in_reach dst o_dst len -> in_reach src o_src len ->
  0 <= o_dst -> 0 <= o_src -> 0 <= len < 2 ^ 63 ->
  o_dst + len < 2 ^ 64 -> o_src + len < 2 ^ 64 ->
  runs (fuse_buf_copy_one S dst o_dst src o_src len flags) s (fun r s' =>
    exists b k' data lost, s' = mk_sys (mem s) (blocks s) b k' /\
      draw o_src (data ++ lost) (from (kern s)) (from k') /\
      into k' = put o_dst data (into (kern s)) /\ Z.of_nat (length (data ++ lost)) <= len /\
      ((r < 0 /\ data = []) \/ r = Z.of_nat (length data)) /\
      (takes_all S dst -> lost = [])).
Proof.
  intros Hun Hsp Hs Hd _ _ Hok Hrd Hrs H1 H2 H3 H4 H5. unfold fuse_buf_copy_one.
  rewrite Hs, Hd. simpl.
  apply runs_mono with
    (P := kernel_only (piped S dst into put from draw o_dst o_src len 0 (kern s)) s).
  - case_match; [by apply fd_to_fd_runs|by apply splice_runs].
  - intros r s' (b & k' & -> & data & lost & Hp1 & Hp2 & Hp3 & Hp4 & Hp5).
    exists b, k', data, lost. split_and!; try done.
    destruct Hp4 as [(? & _ & ?)| ->]; [by left|by right].
Qed.

(** The sum of the sizes. *)
Definition total (l : list fuse_buf) : Z := foldr (fun b n => b_size b + n) 0 l.

Lemma buf_size_loop_sum l : forall n, 0 <= n -> Forall (fun b => 0 <= b_size b) l ->
  Forall (fun b => b_size b <> SIZE_MAX) l -> n + total l < 2 ^ 64 ->
  buf_size_loop n l = n + total l.
Proof.
  induction l as [|b l IH]; intros n Hn Hpos Hmax Hsum; simpl in *; [lia|].
  apply Forall_cons in Hpos as [Hb Hpos]. apply Forall_cons in Hmax as [Hb' Hmax].
  assert (0 <= total l) by (clear -Hpos; induction Hpos; simpl; lia).
  destruct (Z.eqb_spec (b_size b) SIZE_MAX); [done|].
  rewrite u64_id by lia. rewrite IH; [lia|lia|done..|lia].
Qed.

Lemma buf_size_loop_last l b : b_size b = SIZE_MAX ->
  forall n, buf_size_loop n (l ++ [b]) = SIZE_MAX.
Proof. intros Hb. induction l as [|c l IH]; intros n; simpl; [by rewrite Hb|apply IH]. Qed.

(** [fuse_buf_size] is the sum of the sizes of the pieces when it fits, and the
    unlimited [SIZE_MAX] when the last piece is; an unlimited piece that is not the last
    is forgotten: with a byte after it the size comes out as 0. *)
Theorem fuse_buf_size_correct v : 
  let l := take (Z.to_nat (count v)) (buf v) in
  (Forall (fun b => 0 <= b_size b) l -> Forall (fun b => b_size b <> SIZE_MAX) l ->
   total l < 2 ^ 64 -> fuse_buf_size v = total l) /\
  (forall l0 b, l = l0 ++ [b] -> b_size b = SIZE_MAX -> fuse_buf_size v = SIZE_MAX) /\
  (forall l0 b c, l = l0 ++ [b; c] -> b_size b = SIZE_MAX -> b_size c = 1 ->
   fuse_buf_size v = 0).
Proof.
  intros l. unfold fuse_buf_size. fold l. split_and!.
  - intros Hpos Hmax Hsum. by rewrite (buf_size_loop_sum l 0).
  - intros l0 b -> Hb. by apply buf_size_loop_last.
  - intros l0 b c -> Hb Hc. assert (H : forall n, buf_size_loop n (l0 ++ [b; c]) = 0); [|apply H].
    induction l0 as [|d l0 IH]; intros n; simpl; [by rewrite Hb, Hc|apply IH].
Qed.

(** ** The hypotheses can hold *)
Definition m_buf (a n : Z) : fuse_buf := mk_fbuf n 0 0 0 a (-1) 0.
Definition fd_buf (n flags fd pos : Z) : fuse_buf :=
  mk_fbuf n 0 0 (Z.lor FUSE_BUF_IS_FD flags) 0 fd pos.

(** Bytes 1 to 6 at 300 and 400, five zero bytes at 100 and 200. *)
Definition ex_sys : sys host := mk_sys
  (write_bytes 100 [0; 0; 0] (write_bytes 200 [0; 0]
     (write_bytes 300 [1] (write_bytes 400 [2; 3; 4; 5; 6] ∅)))) ∅ 500
  (mk_host [7; 8; 9] [] (write_bytes 0 [10; 11; 12] ∅)).
Definition ex_dst : fuse_bufvec := mk_bufvec 2 0 0 [m_buf 100 3; m_buf 200 2].
Definition ex_src : fuse_bufvec := mk_bufvec 2 0 0 [m_buf 300 1; m_buf 400 5].

(** A decidable fact about concrete lists. *)
Ltac by_computation := apply (bool_decide_unpack _); vm_compute; exact I.

Lemma ex_apart : apart ex_dst ex_src (mem ex_sys).
Proof.
  split.
  1,2: split; [simpl; lia..| |simpl; lia|]; [repeat constructor; simpl; lia|];
    intros b [= <-]; simpl; lia.
  1,2: repeat constructor.
  - by_computation.
  - assert (Hd : Forall (fun a => a ∉ spots ex_src) (spots ex_dst)) by by_computation.
    intros a Ha. by apply (proj1 (Forall_forall _ _) Hd).
  - assert (Hd : Forall (fun a => is_Some (mem ex_sys !! a)) (spots ex_dst ++ spots ex_src))
      by by_computation.
    intros a Ha. by apply (proj1 (Forall_forall _ _) Hd).
Qed.

Lemma fuse_buf_copy_memory_witness :
  runs (fuse_buf_copy host_sys false ex_dst ex_src 0) ex_sys (fun '(res, dstv', srcv') s' =>
    let n := Nat.min (length (spots ex_dst)) (length (spots ex_src)) in
    res = Z.of_nat n /\ spots srcv' = drop n (spots ex_src) /\
    vec_ok dstv' /\ vec_ok srcv' /\
    exists m', s' = set_mem m' ex_sys /\ moved (spots ex_dst) (spots ex_src) (mem ex_sys) m').
Proof. apply (fuse_buf_copy_memory host_sys ex_dst ex_src 0 ex_sys ex_apart). reflexivity. Defined.

Lemma ex_sys_ok : sys_ok ex_sys.
Proof.
  split; [done|]. intros x Hx. split; [|done]. simpl in Hx. unfold ex_sys. simpl.
  rewrite !lookup_insert_ne by lia. done.
Qed.

(** The computed outcome of that copy. *)
Example ex_copied :
  (fun r => match r with Ok ((n, _, _), s) => Some (n, (fun a => mem s !! a) <$> spots ex_dst)
            | Crash _ => None end) (fuse_buf_copy host_sys false ex_dst ex_src 0 ex_sys) =
  Some (5, Some <$> [1; 2; 3; 4; 5]).
Proof. vm_compute. reflexivity. Qed.

Definition stream (flags : Z) : fuse_buf := fd_buf 3 flags 4 0.
Definition at_file (flags pos : Z) : fuse_buf := fd_buf 3 (Z.lor FUSE_BUF_FD_SEEK flags) 5 pos.

Lemma copy_to_descriptor_witness :
  runs (fuse_buf_copy_one host_sys (at_file 8 1) 0 (m_buf 400 5) 1 3 0) ex_sys (fun r s' =>
    (exists k', s' = set_kern k' ex_sys) /\
    ((r < 0 /\ file (kern s') = file (kern ex_sys)) \/
     (0 <= r <= 3 /\
      file (kern s') = put_at (at_file 8 1) 0 (take (Z.to_nat r) [3; 4; 5]) (file (kern ex_sys)))) /\
    (has (b_flags (at_file 8 1)) FUSE_BUF_FD_RETRY = true -> willing host_sys (at_file 8 1) ->
     r = 3)).
Proof.
  apply (copy_to_descriptor host_sys (at_file 8 1) (m_buf 400 5) 0 1 [3; 4; 5] 0 file
    (put_at (at_file 8 1)) ex_sys (file_sink (at_file 8 1) eq_refl)); try done.
  intros [|[|[|i]]]; [left; reflexivity..|right; simpl; lia].
Defined.

Lemma copy_from_descriptor_witness :
  runs (fuse_buf_copy_one host_sys (m_buf 100 3) 0 (at_file 0 1) 0 2 0) ex_sys (fun r s' =>
    exists data k',
      s' = set_kern k' (set_mem (write_bytes 100 data (mem ex_sys)) ex_sys) /\
      ((r < 0 /\ data = [] /\ file k' = file (kern ex_sys)) \/
       (r = Z.of_nat (length data) /\ r <= 2 /\
        see_at (at_file 0 1) 0 data (file (kern ex_sys)) (file k'))) /\
      (has (b_flags (at_file 0 1)) FUSE_BUF_FD_RETRY = true ->
       generous host_sys (at_file 0 1) -> r = 2)).
Proof.
  apply (copy_from_descriptor host_sys (m_buf 100 3) (at_file 0 1) 0 0 2 0 file
    (see_at (at_file 0 1)) ex_sys (file_source (at_file 0 1) eq_refl)); try done.
  intros x Hx. simpl in Hx. assert (x = 100 \/ x = 101) as [-> | ->] by lia; by eexists.
Defined.

Lemma copy_between_descriptors_witness :
  runs (fuse_buf_copy_one host_sys (stream 8) 0 (stream 0) 0 2 0) ex_sys (fun r s' =>
    exists b k' data lost, s' = mk_sys (mem ex_sys) (blocks ex_sys) b k' /\
      take_off 0 (data ++ lost) (input (kern ex_sys)) (input k') /\
      output k' = append 0 data (output (kern ex_sys)) /\ Z.of_nat (length (data ++ lost)) <= 2 /\
      ((r < 0 /\ data = []) \/ r = Z.of_nat (length data)) /\
      (takes_all host_sys (stream 8) -> lost = [])).
Proof.
  apply (copy_between_descriptors host_sys (stream 8) (stream 0) 0 0 2 0 output append input
    take_off ex_sys (stream_sink (stream 8) eq_refl) (stream_source (stream 0) eq_refl)
    (streams_unrelated (stream 8) (stream 0) eq_refl eq_refl)
    (streams_splice (stream 8) (stream 0) eq_refl eq_refl) eq_refl eq_refl eq_refl eq_refl
    ex_sys_ok); done.
Defined.

Lemma fuse_buf_size_correct_witness :
  fuse_buf_size ex_src = 6 /\
  fuse_buf_size (mk_bufvec 2 0 0 [m_buf 300 1; m_buf 400 SIZE_MAX]) = SIZE_MAX /\
  fuse_buf_size (mk_bufvec 2 0 0 [m_buf 400 SIZE_MAX; m_buf 300 1]) = 0.
Proof.
  split; [|split].
  - apply (proj1 (fuse_buf_size_correct ex_src)); [by_computation..|reflexivity].
  - apply (proj1 (proj2 (fuse_buf_size_correct _)) [m_buf 300 1] (m_buf 400 SIZE_MAX));
      reflexivity.
  - apply (proj2 (proj2 (fuse_buf_size_correct _)) [] (m_buf 400 SIZE_MAX) (m_buf 300 1));
      reflexivity.
Defined.
