(* ===== verification/FsOps.v ===== *)
(** * The user's file system and its wrappers (lib/fuse.c, [fuse_fs_*])

    The operations a file system supplies, the state a request handler works on,
    and the functions that call an operation if it is there. *)
From S2P Require Import Prelude Slab PosixLock Types NodeTable Path Buf.
From Stdlib Require Import QArith.
#[local] Open Scope Z_scope.

Definition F_GETLK : Z := 5.
Definition F_SETLK : Z := 6.
Definition F_SETLKW : Z := 7.
Definition FUSE_CAP_POSIX_LOCKS : Z := 2.
Definition FUSE_CAP_EXPORT_SUPPORT : Z := 16.
Definition FUSE_CAP_SPLICE_READ : Z := 512.
Definition FUSE_CAP_FLOCK_LOCKS : Z := 1024.

(** [(int) z] *)
Definition to_int (z : Z) : Z := (z + 2 ^ 31) mod 2 ^ 32 - 2 ^ 31.

Record statvfs : Type := mk_statvfs {
  f_bsize : Z; f_frsize : Z; f_blocks : Z; f_bfree : Z; f_bavail : Z;
  f_files : Z; f_ffree : Z; f_namemax : Z;
}.
Definition statvfs0 : statvfs := mk_statvfs 0 0 0 0 0 0 0 0.

Record fuse_conn_info : Type := mk_conn { capable : Z; want : Z }.

(** A path argument: [nullpath_ok] lets it be NULL. *)
Definition path_arg : Type := option string.

(** What the [readdir] operation does with its filler: a call and, from the value
    it returns, what is done next; or the operation's result. *)
Inductive filling : Type :=
| Finish (res : Z)
| Fill (name : string) (statp : option stat) (off : Z) (flags : Z)
    (k : Z -> filling).

Section Ops.
Context {K : Type}.

(** An operation runs on the memory and on the state behind the descriptors. *)
Definition Op (A : Type) : Type := Buf.sys K -> A * Buf.sys K.

(** [struct fuse_operations]; an absent operation is a null pointer.  What an
    operation stores through its pointers is part of its result. *)
Record fuse_operations : Type := mk_operations {
  op_getattr : option (path_arg -> option fuse_file_info -> Op (Z * stat));
  op_readlink : option (path_arg -> Z -> Op (Z * string));
  op_mknod : option (path_arg -> Z -> Z -> Op Z);
  op_mkdir : option (path_arg -> Z -> Op Z);
  op_unlink : option (path_arg -> Op Z);
  op_rmdir : option (path_arg -> Op Z);
  op_symlink : option (string -> path_arg -> Op Z);
  op_rename : option (path_arg -> path_arg -> Z -> Op Z);
  op_link : option (path_arg -> path_arg -> Op Z);
  op_chmod : option (path_arg -> Z -> option fuse_file_info -> Op Z);
  op_chown : option (path_arg -> Z -> Z -> option fuse_file_info -> Op Z);
  op_truncate : option (path_arg -> Z -> option fuse_file_info -> Op Z);
  op_open : option (path_arg -> fuse_file_info -> Op (Z * fuse_file_info));
  op_read : option (path_arg -> Z -> Z -> Z -> fuse_file_info -> Op Z);
  op_write : option (path_arg -> Z -> Z -> Z -> fuse_file_info -> Op Z);
  op_statfs : option (path_arg -> Op (Z * statvfs));
  op_flush : option (path_arg -> fuse_file_info -> Op Z);
  op_release : option (path_arg -> fuse_file_info -> Op Z);
  op_fsync : option (path_arg -> Z -> fuse_file_info -> Op Z);
  op_setxattr : option (path_arg -> string -> list Z -> Z -> Z -> Op Z);
  op_getxattr : option (path_arg -> string -> Z -> Z -> Op Z);
  op_listxattr : option (path_arg -> Z -> Z -> Op Z);
  op_removexattr : option (path_arg -> string -> Op Z);
  op_opendir : option (path_arg -> fuse_file_info -> Op (Z * fuse_file_info));
  op_readdir : option (path_arg -> Z -> fuse_file_info -> Z -> Op filling);
  op_releasedir : option (path_arg -> fuse_file_info -> Op Z);
  op_fsyncdir : option (path_arg -> Z -> fuse_file_info -> Op Z);
  op_init : option (fuse_conn_info -> fuse_config ->
                    Op (fuse_conn_info * fuse_config * Z));
  op_destroy : option (Z -> Op unit);
  op_access : option (path_arg -> Z -> Op Z);
  op_create : option (path_arg -> Z -> fuse_file_info -> Op (Z * fuse_file_info));
  op_lock : option (path_arg -> fuse_file_info -> Z -> PosixLock.flock ->
                    Op (Z * PosixLock.flock));
  op_utimens : option (path_arg -> timespec * timespec -> option fuse_file_info -> Op Z);
  op_bmap : option (path_arg -> Z -> Z -> Op (Z * Z));
  op_ioctl : option (path_arg -> Z -> Z -> fuse_file_info -> Z -> Z -> Op Z);
  op_poll : option (path_arg -> fuse_file_info -> option Z -> Op (Z * Z));
  op_write_buf : option (path_arg -> Buf.fuse_bufvec -> Z -> fuse_file_info -> Op Z);
  op_read_buf : option (path_arg -> Z -> Z -> fuse_file_info ->
                        Op (Z * option Buf.fuse_bufvec));
  op_flock : option (path_arg -> fuse_file_info -> Z -> Op Z);
  op_fallocate : option (path_arg -> Z -> Z -> Z -> fuse_file_info -> Op Z);
  op_copy_file_range : option (path_arg -> fuse_file_info -> Z -> path_arg ->
                               fuse_file_info -> Z -> Z -> Z -> Op Z);
  op_lseek : option (path_arg -> Z -> Z -> fuse_file_info -> Op Z);
}.

Record fuse_fs : Type := mk_fs { op : fuse_operations; user_data : Z }.

(** [struct fuse_context]. *)
Record fuse_context : Type := mk_context {
  c_uid : Z; c_gid : Z; c_pid : Z; c_umask : Z; private_data : Z;
}.

Definition F_WRLCK := PosixLock.F_WRLCK.

(** [struct fuse_direntry]: the [next] links are the list it is in. *)
Record fuse_direntry : Type := mk_direntry { de_stat : stat; de_name : string }.

(** [struct fuse_dh].  [contents] is [None] for a null pointer and has [dh_size]
    bytes otherwise; [first] is the list of entries, with [last] its end. *)
Record fuse_dh : Type := mk_dh {
  contents : option (list Z);
  first : list fuse_direntry;
  dh_len : Z;
  dh_size : Z;
  needlen : Z;
  filled : bool;
  dh_fh : Z;
  dh_error : Z;
  dh_nodeid : Z;
}.

(** What goes to the kernel, one constructor per [fuse_reply_*] function. *)
Inductive reply : Type :=
| ReplyErr (err : Z)
| ReplyNone
| ReplyEntry (e : fuse_entry_param)
| ReplyCreate (e : fuse_entry_param) (fi : fuse_file_info)
| ReplyAttr (st : stat) (timeout : Q)
| ReplyReadlink (s : string)
| ReplyOpen (fi : fuse_file_info)
| ReplyWrite (count : Z)
| ReplyBuf (data : list Z)
| ReplyData (v : Buf.fuse_bufvec) (flags : Z)
| ReplyStatfs (st : statvfs)
| ReplyXattr (count : Z)
| ReplyLock (fl : PosixLock.flock)
| ReplyBmap (idx : Z)
| ReplyIoctl (result : Z) (data : list Z)
| ReplyPoll (revents : Z)
| ReplyLseek (off : Z).

(** The state of a handler: the library, the file system, the memory, the
    calling thread's context, whether an interrupt function is registered, the
    directory handles by address, the replies sent (the latest first), and the
    results of the coming sends (0 once used up). *)
Record world : Type := mk_world {
  w_fuse : fuse;
  w_fs : fuse_fs;
  w_sys : Buf.sys K;
  w_ctx : option fuse_context;
  w_intr : bool;
  w_dhs : gmap Z fuse_dh;
  w_out : list reply;
  w_sends : list Z;
}.

Definition H (A : Type) : Type := M world A.

Definition with_fuse (f : fuse) (w : world) : world :=
  mk_world f (w_fs w) (w_sys w) (w_ctx w) (w_intr w) (w_dhs w) (w_out w) (w_sends w).
Definition with_fs (fs : fuse_fs) (w : world) : world :=
  mk_world (w_fuse w) fs (w_sys w) (w_ctx w) (w_intr w) (w_dhs w) (w_out w) (w_sends w).
Definition with_sys (s : Buf.sys K) (w : world) : world :=
  mk_world (w_fuse w) (w_fs w) s (w_ctx w) (w_intr w) (w_dhs w) (w_out w) (w_sends w).
Definition with_ctx (c : option fuse_context) (w : world) : world :=
  mk_world (w_fuse w) (w_fs w) (w_sys w) c (w_intr w) (w_dhs w) (w_out w) (w_sends w).
Definition with_intr (b : bool) (w : world) : world :=
  mk_world (w_fuse w) (w_fs w) (w_sys w) (w_ctx w) b (w_dhs w) (w_out w) (w_sends w).
Definition with_dhs (d : gmap Z fuse_dh) (w : world) : world :=
  mk_world (w_fuse w) (w_fs w) (w_sys w) (w_ctx w) (w_intr w) d (w_out w) (w_sends w).
Definition with_out (o : list reply) (s : list Z) (w : world) : world :=
  mk_world (w_fuse w) (w_fs w) (w_sys w) (w_ctx w) (w_intr w) (w_dhs w) o s.

(** Runs a critical section of [f->lock]. *)
Definition locked {A} (m : F A) : H A := fun w =>
  match m (w_fuse w) with
  | Ok (a, f) => Ok (a, with_fuse f w)
  | Crash c => Crash c
  end.

Definition on_sys {A} (m : M (Buf.sys K) A) : H A := fun w =>
  match m (w_sys w) with
  | Ok (a, s) => Ok (a, with_sys s w)
  | Crash c => Crash c
  end.

Definition call_op {A} (o : Op A) : H A := fun w =>
  let '(a, s) := o (w_sys w) in Ok (a, with_sys s w).

(** [fuse_get_context()]. *)
Definition fuse_get_context : H fuse_context :=
  w ← getM; derefM (w_ctx w).

(** [fuse_get_context()->private_data = fs->user_data]. *)
Definition set_private (fs : fuse_fs) : H unit :=
  c ← fuse_get_context;
  modifyM (with_ctx (Some (mk_context (c_uid c) (c_gid c) (c_pid c) (c_umask c)
                             (user_data fs)))).

(** The shape of the wrappers: set the private data, then call the operation or
    return [absent]. *)
Definition dispatch {T A} (fs : fuse_fs) (o : option T) (k : T -> H A) (absent : A)
    : H A :=
  set_private fs;;
  match o with Some f => k f | None => mret absent end.

Definition fuse_fs_getattr fs path fi : H (Z * stat) :=
  dispatch fs (op_getattr (op fs)) (fun o => call_op (o path fi)) (- ENOSYS, stat0).
Definition fuse_fs_rename fs oldpath newpath flags : H Z :=
  dispatch fs (op_rename (op fs)) (fun o => call_op (o oldpath newpath flags)) (- ENOSYS).
Definition fuse_fs_unlink fs path : H Z :=
  dispatch fs (op_unlink (op fs)) (fun o => call_op (o path)) (- ENOSYS).
Definition fuse_fs_rmdir fs path : H Z :=
  dispatch fs (op_rmdir (op fs)) (fun o => call_op (o path)) (- ENOSYS).
Definition fuse_fs_symlink fs linkname path : H Z :=
  dispatch fs (op_symlink (op fs)) (fun o => call_op (o linkname path)) (- ENOSYS).
Definition fuse_fs_link fs oldpath newpath : H Z :=
  dispatch fs (op_link (op fs)) (fun o => call_op (o oldpath newpath)) (- ENOSYS).
Definition fuse_fs_release fs path fi : H Z :=
  dispatch fs (op_release (op fs)) (fun o => call_op (o path fi)) 0.
Definition fuse_fs_opendir fs path fi : H (Z * fuse_file_info) :=
  dispatch fs (op_opendir (op fs)) (fun o => call_op (o path fi)) (0, fi).
Definition fuse_fs_open fs path fi : H (Z * fuse_file_info) :=
  dispatch fs (op_open (op fs)) (fun o => call_op (o path fi)) (0, fi).
Definition fuse_fs_fsync fs path datasync fi : H Z :=
  dispatch fs (op_fsync (op fs)) (fun o => call_op (o path datasync fi)) (- ENOSYS).
Definition fuse_fs_fsyncdir fs path datasync fi : H Z :=
  dispatch fs (op_fsyncdir (op fs)) (fun o => call_op (o path datasync fi)) (- ENOSYS).
Definition fuse_fs_flush fs path fi : H Z :=
  dispatch fs (op_flush (op fs)) (fun o => call_op (o path fi)) (- ENOSYS).
(** The default sets [f_namemax] and [f_bsize] of the caller's zeroed structure. *)
Definition fuse_fs_statfs fs path : H (Z * statvfs) :=
  dispatch fs (op_statfs (op fs)) (fun o => call_op (o path))
    (0, mk_statvfs 512 0 0 0 0 0 0 255).
Definition fuse_fs_releasedir fs path fi : H Z :=
  dispatch fs (op_releasedir (op fs)) (fun o => call_op (o path fi)) 0.
Definition fuse_fs_create fs path mode fi : H (Z * fuse_file_info) :=
  dispatch fs (op_create (op fs)) (fun o => call_op (o path mode fi)) (- ENOSYS, fi).
Definition fuse_fs_lock fs path fi cmd lock : H (Z * PosixLock.flock) :=
  dispatch fs (op_lock (op fs)) (fun o => call_op (o path fi cmd lock)) (- ENOSYS, lock).
Definition fuse_fs_flock fs path fi lop : H Z :=
  dispatch fs (op_flock (op fs)) (fun o => call_op (o path fi lop)) (- ENOSYS).
Definition fuse_fs_chown fs path uid gid fi : H Z :=
  dispatch fs (op_chown (op fs)) (fun o => call_op (o path uid gid fi)) (- ENOSYS).
Definition fuse_fs_truncate fs path size fi : H Z :=
  dispatch fs (op_truncate (op fs)) (fun o => call_op (o path size fi)) (- ENOSYS).
Definition fuse_fs_utimens fs path tv fi : H Z :=
  dispatch fs (op_utimens (op fs)) (fun o => call_op (o path tv fi)) (- ENOSYS).
Definition fuse_fs_access fs path mask : H Z :=
  dispatch fs (op_access (op fs)) (fun o => call_op (o path mask)) (- ENOSYS).
Definition fuse_fs_readlink fs path len : H (Z * string) :=
  dispatch fs (op_readlink (op fs)) (fun o => call_op (o path len)) (- ENOSYS, ""%string).
Definition fuse_fs_mknod fs path mode rdev : H Z :=
  dispatch fs (op_mknod (op fs)) (fun o => call_op (o path mode rdev)) (- ENOSYS).
Definition fuse_fs_mkdir fs path mode : H Z :=
  dispatch fs (op_mkdir (op fs)) (fun o => call_op (o path mode)) (- ENOSYS).
Definition fuse_fs_chmod fs path mode fi : H Z :=
  dispatch fs (op_chmod (op fs)) (fun o => call_op (o path mode fi)) (- ENOSYS).
Definition fuse_fs_setxattr fs path name value size flags : H Z :=
  dispatch fs (op_setxattr (op fs)) (fun o => call_op (o path name value size flags)) (- ENOSYS).
Definition fuse_fs_getxattr fs path name value size : H Z :=
  dispatch fs (op_getxattr (op fs)) (fun o => call_op (o path name value size)) (- ENOSYS).
Definition fuse_fs_listxattr fs path lst size : H Z :=
  dispatch fs (op_listxattr (op fs)) (fun o => call_op (o path lst size)) (- ENOSYS).
Definition fuse_fs_removexattr fs path name : H Z :=
  dispatch fs (op_removexattr (op fs)) (fun o => call_op (o path name)) (- ENOSYS).
Definition fuse_fs_bmap fs path blocksize idx : H (Z * Z) :=
  dispatch fs (op_bmap (op fs)) (fun o => call_op (o path blocksize idx)) (- ENOSYS, idx).
Definition fuse_fs_ioctl fs path cmd arg fi flags data : H Z :=
  dispatch fs (op_ioctl (op fs)) (fun o => call_op (o path cmd arg fi flags data)) (- ENOSYS).
(** [revents] is what [*reventsp] holds before. *)
Definition fuse_fs_poll fs path fi ph (revents : Z) : H (Z * Z) :=
  dispatch fs (op_poll (op fs)) (fun o => call_op (o path fi ph)) (- ENOSYS, revents).
Definition fuse_fs_fallocate fs path mode offset length fi : H Z :=
  dispatch fs (op_fallocate (op fs)) (fun o => call_op (o path mode offset length fi)) (- ENOSYS).
Definition fuse_fs_copy_file_range fs path_in fi_in off_in path_out fi_out off_out len flags : H Z :=
  dispatch fs (op_copy_file_range (op fs))
    (fun o => call_op (o path_in fi_in off_in path_out fi_out off_out len flags)) (- ENOSYS).
Definition fuse_fs_lseek fs path off whence fi : H Z :=
  dispatch fs (op_lseek (op fs)) (fun o => call_op (o path off whence fi)) (- ENOSYS).

(** [filler] is run for every call of the user's function. *)
Fixpoint run_filling (filler : string -> option stat -> Z -> Z -> H Z) (r : filling)
    : H Z :=
  match r with
  | Finish res => mret res
  | Fill name statp off flags k =>
    v ← filler name statp off flags; run_filling filler (k v)
  end.

Definition fuse_fs_readdir fs path (filler : string -> option stat -> Z -> Z -> H Z)
    off fi flags : H Z :=
  dispatch fs (op_readdir (op fs))
    (fun o => r ← call_op (o path off fi flags); run_filling filler r) (- ENOSYS).

(** Returns the connection, the configuration and the file system. *)
Definition fuse_fs_init (fs : fuse_fs) (conn : fuse_conn_info) (cfg : fuse_config)
    : H (fuse_conn_info * fuse_config * fuse_fs) :=
  set_private fs;;
  let clear {T} (o : option T) (cap w : Z) :=
    match o with None => Z.land w (Z.lnot cap) | Some _ => w end in
  let w := clear (op_write_buf (op fs)) FUSE_CAP_SPLICE_READ (want conn) in
  let w := clear (op_lock (op fs)) FUSE_CAP_POSIX_LOCKS w in
  let w := clear (op_flock (op fs)) FUSE_CAP_FLOCK_LOCKS w in
  let conn := mk_conn (capable conn) w in
  match op_init (op fs) with
  | Some o =>
    '(conn, cfg, d) ← call_op (o conn cfg);
    mret (conn, cfg, mk_fs (op fs) d)
  | None => mret (conn, cfg, fs)
  end.

Definition fuse_fs_destroy (fs : fuse_fs) : H unit :=
  dispatch fs (op_destroy (op fs)) (fun o => call_op (o (user_data fs))) tt.

(** ** Reading and writing through buffer vectors *)
Context (SC : Buf.syscalls K).

Definition has_op {T} (o : option T) : bool := bool_decide (is_Some o).

Fixpoint free_bufs (l : list Buf.fuse_buf) : H unit :=
  match l with
  | [] => mret tt
  | b :: l =>
    (if Buf.has (Buf.b_flags b) Buf.FUSE_BUF_IS_FD then mret tt
     else on_sys (Buf.free (Buf.b_mem b)));;
    free_bufs l
  end.

Definition fuse_free_buf (v : option Buf.fuse_bufvec) : H unit :=
  match v with
  | None => mret tt
  | Some v => free_bufs (take (Z.to_nat (Buf.count v)) (Buf.buf v))
  end.

(** Returns the result and [*bufp]. *)
Definition fuse_fs_read_buf fs path size off fi : H (Z * option Buf.fuse_bufvec) :=
  set_private fs;;
  if has_op (op_read (op fs)) || has_op (op_read_buf (op fs)) then
    let finish (res : Z) (v : option Buf.fuse_bufvec) : H (Z * option Buf.fuse_bufvec) :=
      (if 0 <=? res then v ← derefM v; mret tt else mret tt);;
      mret (if res <? 0 then res else 0, v) in
    match op_read_buf (op fs), op_read (op fs) with
    | Some o, _ =>
      '(res, v) ← call_op (o path size off fi);
      finish res v
    | None, Some o =>
      ok1 ← locked malloc;
      if negb ok1 then mret (- ENOMEM, None)
      else
        ok2 ← locked malloc;
        if negb ok2 then mret (- ENOMEM, None)
        else
          mem ← on_sys (Buf.alloc size);
          let v sz := Buf.mk_bufvec 1 0 0 [Buf.mk_fbuf sz 0 0 0 mem (-1) 0] in
          res ← call_op (o path mem size off fi);
          finish res (Some (v (if 0 <=? res then res else size)))
    | None, None => crashM BadAccess
    end
  else mret (- ENOSYS, None).

Definition fuse_fs_read fs path mem size off fi : H Z :=
  set_private fs;;
  if has_op (op_read (op fs)) || has_op (op_read_buf (op fs)) then
    match op_read_buf (op fs), op_read (op fs) with
    | Some o, _ =>
      '(res, v) ← call_op (o path size off fi);
      res ← (if res =? 0 then
               v ← derefM v;
               let dst := Buf.mk_bufvec 1 0 0 [Buf.mk_fbuf size 0 0 0 mem (-1) 0] in
               '(r, _, _) ← on_sys (Buf.fuse_buf_copy SC false dst v 0);
               mret (to_int r)
             else mret res);
      fuse_free_buf v;;
      mret res
    | None, Some o => call_op (o path mem size off fi)
    | None, None => crashM BadAccess
    end
  else mret (- ENOSYS).

Definition fuse_fs_write_buf fs path (v : Buf.fuse_bufvec) off fi : H Z :=
  set_private fs;;
  if has_op (op_write_buf (op fs)) || has_op (op_write (op fs)) then
    let size := Buf.fuse_buf_size v in
    assertM ((Buf.idx v =? 0) && (Buf.off v =? 0));;
    match op_write_buf (op fs), op_write (op fs) with
    | Some o, _ => call_op (o path v off fi)
    | None, Some o =>
      b0 ← derefM (head (Buf.buf v));
      if (Buf.count v =? 1) && negb (Buf.has (Buf.b_flags b0) Buf.FUSE_BUF_IS_FD) then
        call_op (o path (Buf.b_mem b0) (Buf.b_size b0) off fi)
      else
        ok ← locked malloc;
        if negb ok then mret (- ENOMEM)
        else
          mem ← on_sys (Buf.alloc size);
          let tmp := Buf.mk_bufvec 1 0 0 [Buf.mk_fbuf size 0 0 0 mem (-1) 0] in
          '(r, _, _) ← on_sys (Buf.fuse_buf_copy SC false tmp v 0);
          let res := to_int r in
          res ← (if res <=? 0 then mret res else call_op (o path mem res off fi));
          on_sys (Buf.free mem);;
          mret res
    | None, None => crashM BadAccess
    end
  else mret (- ENOSYS).

Definition fuse_fs_write fs path mem size off fi : H Z :=
  fuse_fs_write_buf fs path
    (Buf.mk_bufvec 1 0 0 [Buf.mk_fbuf size 0 0 0 mem (-1) 0]) off fi.

End Ops.
Arguments fuse_operations K : clear implicits.
Arguments fuse_fs K : clear implicits.
Arguments world K : clear implicits.
