(* ===== verification/Entry.v ===== *)
(** * Entries and attributes (lib/fuse.c, 1595-1680 and 2591-2977)

    Replies, the interrupt hooks, attribute fix-ups, hiding of open files, and the
    lookup and forget handlers. *)
From S2P Require Import Prelude Slab PosixLock Types NodeTable Path Buf FsOps.
From Stdlib Require Import QArith.
#[local] Open Scope Z_scope.

Section Entry.
Context {K : Type}.
#[local] Abbreviation H := (@FsOps.H K).

Definition gets_fs : H (fuse_fs K) := w ← getM; mret (w_fs w).
Definition gets_conf : H fuse_config := w ← getM; mret (conf (w_fuse w)).

(** [fuse_req_ctx] of the request. *)
Definition fuse_req : Type := fuse_context.

Definition fuse_create_context : H unit :=
  modifyM (with_ctx (Some (mk_context 0 0 0 0 0))).

Definition req_fuse_prepare (req : fuse_req) : H unit :=
  fuse_create_context;;
  modifyM (with_ctx (Some (mk_context (c_uid req) (c_gid req) (c_pid req)
                             (c_umask req) 0))).

(** Sends a reply; the result is that of the write to the device. *)
Definition send (r : reply) : H Z :=
  w ← getM;
  match w_sends w with
  | [] => putM (with_out (r :: w_out w) [] w);; mret 0
  | e :: es => putM (with_out (r :: w_out w) es w);; mret e
  end.

Definition reply_err (err : Z) : H unit := send (ReplyErr (- err));; mret tt.

Definition fuse_prepare_interrupt : H unit :=
  c ← gets_conf; if intr c then modifyM (with_intr true) else mret tt.
Definition fuse_finish_interrupt : H unit :=
  c ← gets_conf; if intr c then modifyM (with_intr false) else mret tt.
Definition interruptible {A} (m : H A) : H A :=
  fuse_prepare_interrupt;; r ← m; fuse_finish_interrupt;; mret r.

Definition set_stat (c : fuse_config) (id : Z) (st : stat) : stat :=
  let st := if negb (use_ino c) then set_st_ino id st else st in
  let st := if set_mode c
            then set_st_mode (Z.lor (Z.land (st_mode st) S_IFMT)
                                (Z.land 511 (Z.lnot (umask c)))) st
            else st in
  let st := if set_uid c then set_st_uid (uid c) st else st in
  if set_gid c then set_st_gid (gid c) st else st.

(** ** Hidden files *)

Definition is_open (dir : Z) (nm : string) : F bool :=
  p ← lookup_node dir nm;
  if p =? NULL then mret false
  else n ← load p; mret (0 <? open_count n).

Definition hex_digit (z : Z) : Ascii.ascii :=
  Ascii.ascii_of_nat (Z.to_nat (if z <? 10 then 48 + z else 87 + z)).

(** [%08x] *)
Fixpoint hex (digits : nat) (z : Z) : string :=
  match digits with
  | O => ""
  | S d => hex d (z / 16) +:+ String (hex_digit (z mod 16)) ""
  end.

Definition hidden_format (id hctr : Z) : string :=
  ".fuse_hidden" +:+ hex 8 (u32 id) +:+ hex 8 hctr.

(** The inner loop of [hidden_name]: a name not in the cache. *)
Fixpoint fresh_hidden (fuel : nat) (dir id : Z) : F string :=
  match fuel with
  | O => crashM OutOfFuel
  | S fuel =>
    modifyM (fun f => set_hidectr (u32 (hidectr f + 1)) f);;
    f ← getM;
    let newname := hidden_format id (hidectr f) in
    p ← lookup_node dir newname;
    if negb (p =? NULL) then fresh_hidden fuel dir id else mret newname
  end.

(** One critical section of [hidden_name]: nothing when [oldname] is gone, else
    the name tried and what [try_get_path] says. *)
Definition hidden_try (dir : Z) (oldname : string)
    : F (option (string * Z * option string)) :=
  p ← lookup_node dir oldname;
  if p =? NULL then mret None
  else
    n ← load p;
    f ← getM;
    newname ← fresh_hidden (S (base.size (heap f))) dir (nodeid n);
    '(res, newpath, _) ← try_get_path dir (Some newname) false false;
    mret (Some (newname, res, newpath)).

(** Returns the new path, if any, and the new name. *)
Fixpoint hidden_name_loop (failctr : nat) (dir : Z) (oldname : string)
    : H (option string * string) :=
  r ← locked (hidden_try dir oldname);
  match r with
  | None => mret (None, ""%string)
  | Some (newname, res, newpath) =>
    if negb (res =? 0) then mret (newpath, newname)
    else
      fs ← gets_fs;
      '(res, _) ← fuse_fs_getattr fs newpath None;
      if res =? - ENOENT then mret (newpath, newname)
      else
        match failctr with
        | S failctr =>
          if res =? 0 then hidden_name_loop failctr dir oldname
          else mret (None, newname)
        | O => mret (None, newname)
        end
  end.

(** [failctr] starts at 10: ten attempts. *)
Definition hidden_name (dir : Z) (oldname : string) : H (option string * string) :=
  hidden_name_loop 9 dir oldname.

Definition hide_node (oldpath : path_arg) (dir : Z) (oldname : string) : H Z :=
  '(newpath, newname) ← hidden_name dir oldname;
  match newpath with
  | None => mret (- EBUSY)
  | Some np =>
    fs ← gets_fs;
    err ← fuse_fs_rename fs oldpath (Some np) 0;
    if err =? 0 then locked (rename_node dir oldname dir newname true)
    else mret err
  end.

(** ** Cached attributes *)

Definition mtime_eq (st : stat) (ts : timespec) : bool :=
  (tv_sec (st_mtim st) =? tv_sec ts) && (tv_nsec (st_mtim st) =? tv_nsec ts).

Definition update_stat (now : timespec) (st : stat) (n : node) : node :=
  let n := if cache_valid n &&
              (negb (mtime_eq st (mtime n)) || negb (st_size st =? n_size n))
           then set_cache_valid false n else n in
  set_stat_updated now (set_n_size (st_size st) (set_mtime (st_mtim st) n)).

Definition node_update_stat (p : ptr) (st : stat) : F unit :=
  f ← getM; update p (update_stat (clock f) st).

Definition diff_timespec (t1 t2 : timespec) : Q :=
  (inject_Z (tv_sec t1 - tv_sec t2) +
   inject_Z (tv_nsec t1 - tv_nsec t2) / inject_Z 1000000000)%Q.

(** [a > b] on doubles. *)
Definition Qgtb (a b : Q) : bool := negb (Qle_bool a b).

(** ** Lookup *)

Definition do_lookup (id : Z) (nm : option string) (e : fuse_entry_param)
    : H (Z * fuse_entry_param) :=
  p ← locked (find_node id nm);
  if p =? NULL then mret (- ENOMEM, e)
  else
    n ← locked (load p);
    c ← gets_conf;
    (if auto_cache c then locked (node_update_stat p (e_attr e)) else mret tt);;
    mret (0, mk_entry (nodeid n) (n_generation n)
               (set_stat c (nodeid n) (e_attr e)) (attr_timeout c) (entry_timeout c)).

Definition lookup_path (id : Z) (nm : option string) (path : path_arg)
    (fi : option fuse_file_info) : H (Z * fuse_entry_param) :=
  fs ← gets_fs;
  '(res, st) ← fuse_fs_getattr fs path fi;
  let e := set_e_attr st entry0 in
  if res =? 0 then do_lookup id nm e else mret (res, e).

Definition reply_entry (e : fuse_entry_param) (err : Z) : H unit :=
  if err =? 0 then
    r ← send (ReplyEntry e);
    if r =? - ENOENT then
      if negb (e_ino e =? 0) then locked (forget_node (e_ino e) 1) else mret tt
    else mret tt
  else reply_err err.

(** "." and ".." as [fuse_lib_lookup] takes them. *)
Inductive dots : Type := NoDot | Dot | DotDot.
Definition dots_of (s : string) : dots :=
  if String.eqb s "." then Dot else if String.eqb s ".." then DotDot else NoDot.

(** The critical section for "." and "..": the node held, the directory, and the
    name; [None] when "." is no known node. *)
Definition resolve_dots (par : Z) (nm : string) : F (option (ptr * Z * option string)) :=
  match dots_of nm with
  | NoDot => mret (Some (NULL, par, Some nm))
  | Dot =>
    dot ← get_node_nocheck par;
    if dot =? NULL then mret None
    else
      update dot (fun n => set_refctr (refctr n + 1) n);;
      mret (Some (dot, par, None))
  | DotDot =>
    p ← get_node par;
    n ← load p;
    pn ← load (parent n);
    mret (Some (NULL, nodeid pn, None))
  end.

Definition fuse_lib_lookup (req : fuse_req) (par : Z) (nm : string) : H unit :=
  req_fuse_prepare req;;
  r ← locked (resolve_dots par nm);
  match r with
  | None => reply_entry entry0 (- ESTALE)
  | Some (dot, par, nm) =>
    '(err, path) ← locked (get_path_name par nm);
    '(err, e) ←
      (if err =? 0 then
         r ← interruptible (
           '(err, e) ← lookup_path par nm path None;
           c ← gets_conf;
           if (err =? - ENOENT) && negb (Qeq_bool (negative_timeout c) 0)
           then mret (0, set_e_entry_timeout (negative_timeout c) (set_e_ino 0 e))
           else mret (err, e));
         locked (free_path par path);;
         mret r
       else mret (err, entry0));
    (if negb (dot =? NULL) then locked (unref_node dot) else mret tt);;
    reply_entry e err
  end.

Definition do_forget (ino n : Z) : H unit := locked (forget_node ino n).

Definition reply_none : H unit := send ReplyNone;; mret tt.

Definition fuse_lib_forget (ino n : Z) : H unit := do_forget ino n;; reply_none.

Fixpoint forget_all (l : list (Z * Z)) : H unit :=
  match l with
  | [] => mret tt
  | (ino, n) :: l => do_forget ino n;; forget_all l
  end.

Definition fuse_lib_forget_multi (forgets : list (Z * Z)) : H unit :=
  forget_all forgets;; reply_none.

(** ** Initialisation *)
Definition fuse_lib_init (conn : fuse_conn_info) : H fuse_conn_info :=
  fuse_create_context;;
  let w := if Buf.has (capable conn) FUSE_CAP_EXPORT_SUPPORT
           then Z.lor (want conn) FUSE_CAP_EXPORT_SUPPORT else want conn in
  fs ← gets_fs;
  c ← gets_conf;
  '(conn, cfg, fs) ← fuse_fs_init fs (mk_conn (capable conn) w) c;
  modifyM (fun w =>
    let f := w_fuse w in
    with_fs fs (with_fuse (mk_fuse (heap f) (slabs f) (name_table f) (id_table f)
      (lru_table f) (ctr f) (generation f) (hidectr f) cfg (lockq f) (allocs f)
      (clock f)) w));;
  mret conn.

Definition fuse_lib_destroy : H unit :=
  fuse_create_context;;
  fs ← gets_fs;
  fuse_fs_destroy fs.

End Entry.
