(* ===== verification/Dir.v ===== *)
(** * Reading directories (lib/fuse.c, 3640-4110; lib/fuse_lowlevel.c, 283-403)

    The directory handle, the two ways a file system fills it, the packing of
    entries into the reply buffer, and the directory handlers. *)
From S2P Require Import Prelude Slab PosixLock Types NodeTable Path Buf FsOps Entry.
From Stdlib Require Import QArith Qround.
#[local] Open Scope Z_scope.

Definition FUSE_FILL_DIR_PLUS : Z := 2.
Definition FUSE_READDIR_PLUS : Z := 1.

(** ** Packing entries *)

Fixpoint string_bytes (s : string) : list Z :=
  match s with
  | EmptyString => []
  | String c s => Z.of_N (Ascii.N_of_ascii c) :: string_bytes s
  end.

Definition FUSE_NAME_OFFSET : Z := 24.
Definition FUSE_NAME_OFFSET_DIRENTPLUS : Z := 152.
Definition FUSE_DIRENT_ALIGN (x : Z) : Z := Z.land (x + 7) (Z.lnot 7).

(** [struct fuse_dirent] and the name, padded with zeros. *)
Definition dirent_bytes (ino off mode : Z) (name : string) (pad : Z) : list Z :=
  le_bytes 8 ino ++ le_bytes 8 off ++ le_bytes 4 (strlen name) ++
  le_bytes 4 (Z.shiftr (Z.land mode S_IFMT) 12) ++
  string_bytes name ++ replicate (Z.to_nat pad) 0.

(** Returns the padded length and the bytes written at the start of [buf]:
    none when [buf] is null or too small. *)
Definition fuse_add_direntry (null : bool) (bufsize : Z) (name : string) (st : stat)
    (off : Z) : Z * list Z :=
  let entlen := FUSE_NAME_OFFSET + strlen name in
  let entlen_padded := FUSE_DIRENT_ALIGN entlen in
  if null || (bufsize <? entlen_padded) then (entlen_padded, [])
  else (entlen_padded,
        dirent_bytes (st_ino st) off (st_mode st) name (entlen_padded - entlen)).

Definition ULONG_MAX : Z := 2 ^ 64 - 1.

Definition calc_timeout_sec (t : Q) : Z :=
  if negb (Qle_bool t (inject_Z ULONG_MAX)) then ULONG_MAX
  else if negb (Qle_bool 0 t) then 0
  else Qfloor t.

Definition calc_timeout_nsec (t : Q) : Z :=
  let f := (t - inject_Z (calc_timeout_sec t))%Q in
  if negb (Qle_bool 0 f) then 0
  else if Qle_bool (999999999 # 1000000000) f then 999999999
  else Qfloor (f * inject_Z 1000000000).

(** [struct fuse_attr] as [convert_stat] fills it. *)
Definition convert_stat (st : stat) : list Z :=
  le_bytes 8 (st_ino st) ++ le_bytes 8 (st_size st) ++ le_bytes 8 (st_blocks st) ++
  le_bytes 8 (tv_sec (st_atim st)) ++ le_bytes 8 (tv_sec (st_mtim st)) ++
  le_bytes 8 (tv_sec (st_ctim st)) ++ le_bytes 4 (tv_nsec (st_atim st)) ++
  le_bytes 4 (tv_nsec (st_mtim st)) ++ le_bytes 4 (tv_nsec (st_ctim st)) ++
  le_bytes 4 (st_mode st) ++ le_bytes 4 (st_nlink st) ++ le_bytes 4 (st_uid st) ++
  le_bytes 4 (st_gid st) ++ le_bytes 4 (st_rdev st) ++ le_bytes 4 (st_blksize st) ++
  le_bytes 4 0.

(** [struct fuse_entry_out]. *)
Definition fill_entry (e : fuse_entry_param) : list Z :=
  le_bytes 8 (e_ino e) ++ le_bytes 8 (e_generation e) ++
  le_bytes 8 (calc_timeout_sec (e_entry_timeout e)) ++
  le_bytes 8 (calc_timeout_sec (e_attr_timeout e)) ++
  le_bytes 4 (calc_timeout_nsec (e_entry_timeout e)) ++
  le_bytes 4 (calc_timeout_nsec (e_attr_timeout e)) ++
  convert_stat (e_attr e).

Definition fuse_add_direntry_plus (null : bool) (bufsize : Z) (name : string)
    (e : fuse_entry_param) (off : Z) : Z * list Z :=
  let entlen := FUSE_NAME_OFFSET_DIRENTPLUS + strlen name in
  let entlen_padded := FUSE_DIRENT_ALIGN entlen in
  if null || (bufsize <? entlen_padded) then (entlen_padded, [])
  else (entlen_padded,
        fill_entry e ++
        dirent_bytes (st_ino (e_attr e)) off (st_mode (e_attr e)) name
          (entlen_padded - entlen)).

(** ** The directory handle *)

Definition set_contents (c : option (list Z)) (size : Z) (d : fuse_dh) : fuse_dh :=
  mk_dh c (first d) (dh_len d) size (needlen d) (filled d) (dh_fh d) (dh_error d)
    (dh_nodeid d).
Definition set_first (l : list fuse_direntry) (d : fuse_dh) : fuse_dh :=
  mk_dh (contents d) l (dh_len d) (dh_size d) (needlen d) (filled d) (dh_fh d)
    (dh_error d) (dh_nodeid d).
Definition set_len (n : Z) (d : fuse_dh) : fuse_dh :=
  mk_dh (contents d) (first d) n (dh_size d) (needlen d) (filled d) (dh_fh d)
    (dh_error d) (dh_nodeid d).
Definition set_needlen (n : Z) (d : fuse_dh) : fuse_dh :=
  mk_dh (contents d) (first d) (dh_len d) (dh_size d) n (filled d) (dh_fh d)
    (dh_error d) (dh_nodeid d).
Definition set_filled (b : bool) (d : fuse_dh) : fuse_dh :=
  mk_dh (contents d) (first d) (dh_len d) (dh_size d) (needlen d) b (dh_fh d)
    (dh_error d) (dh_nodeid d).
Definition set_fh (n : Z) (d : fuse_dh) : fuse_dh :=
  mk_dh (contents d) (first d) (dh_len d) (dh_size d) (needlen d) (filled d) n
    (dh_error d) (dh_nodeid d).
Definition set_error (n : Z) (d : fuse_dh) : fuse_dh :=
  mk_dh (contents d) (first d) (dh_len d) (dh_size d) (needlen d) (filled d)
    (dh_fh d) n (dh_nodeid d).

(** Writes [l] at offset [i] of [c], which must be large enough. *)
Definition splice_bytes (i : Z) (l c : list Z) : option (list Z) :=
  if Z.of_nat (length c) <? i + Z.of_nat (length l) then None
  else Some (take (Z.to_nat i) c ++ l ++ drop (Z.to_nat i + length l) c).

Definition dot : Ascii.ascii := Ascii.ascii_of_nat 46.

Section Dir.
Context {K : Type}.
#[local] Abbreviation H := (@FsOps.H K).

Definition load_dh (a : Z) : H fuse_dh := w ← getM; derefM (w_dhs w !! a).
Definition store_dh (a : Z) (d : fuse_dh) : H unit :=
  modifyM (fun w => with_dhs (<[a := d]> (w_dhs w)) w).
Definition update_dh (a : Z) (g : fuse_dh -> fuse_dh) : H unit :=
  d ← load_dh a; store_dh a (g d).

(** [dh->contents] grown to at least [minsize] bytes; the new bytes are
    unspecified, here zero. *)
Definition extend_contents (a : Z) (minsize : Z) : H Z :=
  d ← load_dh a;
  if dh_size d <? minsize then
    newsize ← liftM (grow grow_fuel (if dh_size d =? 0 then 1024 else dh_size d) minsize);
    ok ← locked malloc;
    if negb ok then update_dh a (set_error (- ENOMEM));; mret (-1)
    else
      let c := default [] (contents d) in
      store_dh a (set_contents
        (Some (c ++ replicate (Z.to_nat (newsize - dh_size d)) 0)) newsize d);;
      mret 0
  else mret 0.

Definition fuse_add_direntry_to_dh (a : Z) (name : string) (st : stat) : H Z :=
  ok1 ← locked malloc;
  if negb ok1 then update_dh a (set_error (- ENOMEM));; mret (-1)
  else
    ok2 ← locked malloc;
    if negb ok2 then update_dh a (set_error (- ENOMEM));; mret (-1)
    else
      update_dh a (fun d => set_first (first d ++ [mk_direntry st name]) d);;
      mret 0.

Definition lookup_nodeid (par : Z) (nm : string) : F Z :=
  p ← lookup_node par nm;
  if p =? NULL then mret FUSE_UNKNOWN_INO else n ← load p; mret (nodeid n).

(** The common end of [fill_dir] and [fill_dir_plus]: with an offset the entry
    goes to the buffer, packed by [add] (whose arguments are whether the buffer is
    null and what is left of it); without, to the list. *)
Definition fill_tail (a : Z) (name : string) (st : stat) (off : Z)
    (add : bool -> Z -> Z * list Z) : H Z :=
  if negb (off =? 0) then
    d ← load_dh a;
    if filled d then store_dh a (set_error (- EIO) d);; mret 1
    else if negb (bool_decide (length (first d) = 0%nat))
    then store_dh a (set_error (- EIO) d);; mret 1
    else
      r ← extend_contents a (needlen d);
      if r =? -1 then mret 1
      else
        d ← load_dh a;
        let '(entlen, bytes) :=
          add (bool_decide (contents d = None) && (dh_len d =? 0))
            (needlen d - dh_len d) in
        let newlen := dh_len d + entlen in
        (if bool_decide (length bytes = 0%nat) then mret tt
         else
           c ← derefM (contents d ≫= splice_bytes (dh_len d) bytes);
           update_dh a (set_contents (Some c) (dh_size d)));;
        if needlen d <? newlen then mret 1
        else update_dh a (set_len newlen);; mret 0
  else
    update_dh a (set_filled true);;
    r ← fuse_add_direntry_to_dh a name st;
    mret (if r =? -1 then 1 else 0).

Definition bad_flags (flags : Z) : bool :=
  negb (Z.land flags (Z.lnot FUSE_FILL_DIR_PLUS) =? 0).

Definition fill_dir (a : Z) (name : string) (statp : option stat) (off flags : Z) : H Z :=
  if bad_flags flags then update_dh a (set_error (- EIO));; mret 1
  else
    let st := match statp with Some s => s | None => set_st_ino FUSE_UNKNOWN_INO stat0 end in
    c ← gets_conf;
    d ← load_dh a;
    st ← (if negb (use_ino c) then
            if readdir_ino c
            then ino ← locked (lookup_nodeid (dh_nodeid d) name); mret (set_st_ino ino st)
            else mret (set_st_ino FUSE_UNKNOWN_INO st)
          else mret st);
    fill_tail a name st off (fun null rem => fuse_add_direntry null rem name st off).

Definition is_dot_or_dotdot (name : string) : bool :=
  match name with
  | String c s =>
    Ascii.eqb c dot &&
    match s with
    | EmptyString => true
    | String c2 s2 => Ascii.eqb c2 dot && String.eqb s2 ""
    end
  | EmptyString => false
  end.

Definition fill_dir_plus (a : Z) (name : string) (statp : option stat) (off flags : Z)
    : H Z :=
  if bad_flags flags then update_dh a (set_error (- EIO));; mret 1
  else
    c ← gets_conf;
    d ← load_dh a;
    r ← match statp with
        | Some st =>
          if Buf.has flags FUSE_FILL_DIR_PLUS then
            let e := set_e_attr st entry0 in
            if is_dot_or_dotdot name then mret (0, e)
            else do_lookup (dh_nodeid d) (Some name) e
          else
            let st' := set_st_mode (st_mode st)
                         (set_st_ino (if use_ino c then st_ino st else FUSE_UNKNOWN_INO)
                            stat0) in
            ino ← (if negb (use_ino c) && readdir_ino c
                   then locked (lookup_nodeid (dh_nodeid d) name)
                   else mret (st_ino st'));
            mret (0, set_e_attr (set_st_ino ino st') entry0)
        | None =>
          ino ← (if negb (use_ino c) && readdir_ino c
                 then locked (lookup_nodeid (dh_nodeid d) name)
                 else mret FUSE_UNKNOWN_INO);
          mret (0, set_e_attr (set_st_ino ino stat0) entry0)
        end;
    let '(res, e) := r in
    if negb (res =? 0) then update_dh a (set_error res);; mret 1
    else
      fill_tail a name (e_attr e) off
        (fun null rem => fuse_add_direntry_plus null rem name e off).

(** Returns the error; the handle is at [a]. *)
Definition readdir_fill (ino size off : Z) (a : Z) (fi : fuse_file_info) (flags : Z)
    : H Z :=
  fs ← gets_fs;
  '(err, path) ← locked (if has_op (op_readdir (op fs))
                         then get_path_nullok ino else get_path ino);
  if err =? 0 then
    let filler := if Buf.has flags FUSE_READDIR_PLUS then fill_dir_plus a
                  else fill_dir a in
    update_dh a (fun d => set_filled false (set_needlen size (set_error 0
      (set_len 0 (set_first [] d)))));;
    err ← interruptible (fuse_fs_readdir fs path filler off fi flags);
    d ← load_dh a;
    let err := if err =? 0 then dh_error d else err in
    (if negb (err =? 0) then update_dh a (set_filled false) else mret tt);;
    locked (free_path ino path);;
    mret err
  else mret err.

(** The second loop of [readdir_fill_from_list]; [pos] counts the entries passed. *)
Fixpoint pack_list (plus null : bool) (needlen len pos : Z) (acc : list Z)
    (l : list fuse_direntry) : Z * list Z :=
  match l with
  | [] => (len, acc)
  | de :: l =>
    let rem := needlen - len in
    let pos := pos + 1 in
    let '(thislen, bytes) :=
      if plus then fuse_add_direntry_plus null rem (de_name de)
                     (set_e_attr (de_stat de) entry0) pos
      else fuse_add_direntry null rem (de_name de) (de_stat de) pos in
    let newlen := len + thislen in
    if needlen <? newlen then (len, acc)
    else pack_list plus null needlen newlen pos (acc ++ bytes) l
  end.

(** The entries after the first [off], and how many were passed. *)
Definition readdir_fill_from_list (a : Z) (off flags : Z) : H Z :=
  update_dh a (set_len 0);;
  d ← load_dh a;
  r ← extend_contents a (needlen d);
  d ← load_dh a;
  if r =? -1 then mret (dh_error d)
  else
    let skip := Z.to_nat (Z.max 0 off) in
    let pos := Z.min (Z.max 0 off) (Z.of_nat (length (first d))) in
    let '(len, bytes) :=
      pack_list (Buf.has flags FUSE_READDIR_PLUS) (bool_decide (contents d = None))
        (needlen d) 0 pos [] (drop skip (first d)) in
    (if bool_decide (length bytes = 0%nat) then mret tt
     else
       c ← derefM (contents d ≫= splice_bytes 0 bytes);
       update_dh a (set_contents (Some c) (dh_size d)));;
    update_dh a (set_len len);;
    mret 0.

(** [get_dirhandle]: the handle of [llfi] and the file system's [fi]. *)
Definition get_dirhandle (llfi : fuse_file_info) : H (Z * fuse_file_info) :=
  d ← load_dh (fi_fh llfi);
  mret (fi_fh llfi, set_fi_fh (dh_fh d) fi0).

Definition fuse_readdir_common (req : fuse_req) (ino size off : Z)
    (llfi : fuse_file_info) (flags : Z) : H unit :=
  req_fuse_prepare req;;
  '(a, fi) ← get_dirhandle llfi;
  (if off =? 0 then update_dh a (set_filled false) else mret tt);;
  d ← load_dh a;
  err ← (if negb (filled d) then readdir_fill ino size off a fi flags else mret 0);
  if negb (err =? 0) then reply_err err
  else
    d ← load_dh a;
    err ← (if filled d then
             update_dh a (set_needlen size);;
             readdir_fill_from_list a off flags
           else mret 0);
    if negb (err =? 0) then reply_err err
    else
      d ← load_dh a;
      send (ReplyBuf (take (Z.to_nat (dh_len d)) (default [] (contents d))));;
      mret tt.

Definition fuse_lib_readdir req ino size off llfi : H unit :=
  fuse_readdir_common req ino size off llfi 0.
Definition fuse_lib_readdirplus req ino size off llfi : H unit :=
  fuse_readdir_common req ino size off llfi FUSE_READDIR_PLUS.

(** An address no handle has. *)
Definition fresh_dh (m : gmap Z fuse_dh) : Z :=
  1 + foldr (fun x acc => Z.max (fst x) acc) 0 (map_to_list m).

Definition free_dh (a : Z) : H unit :=
  modifyM (fun w => with_dhs (delete a (w_dhs w)) w).

Definition fuse_lib_opendir (req : fuse_req) (ino : Z) (llfi : fuse_file_info) : H unit :=
  req_fuse_prepare req;;
  ok ← locked malloc;
  if negb ok then reply_err (- ENOMEM)
  else
    w ← getM;
    let a := fresh_dh (w_dhs w) in
    store_dh a (mk_dh None [] 0 0 0 false 0 0 ino);;
    let llfi := set_fi_fh a llfi in
    let fi := set_fi_flags (fi_flags llfi) fi0 in
    fs ← gets_fs;
    '(err, path) ← locked (get_path ino);
    '(err, fi) ←
      (if err =? 0 then
         r ← interruptible (fuse_fs_opendir fs path fi);
         update_dh a (set_fh (fi_fh r.2));;
         mret r
       else mret (err, fi));
    (if err =? 0 then
       r ← send (ReplyOpen llfi);
       if r =? - ENOENT then fuse_fs_releasedir fs path fi;; free_dh a
       else mret tt
     else reply_err err;; free_dh a);;
    locked (free_path ino path).

Definition fuse_lib_releasedir (req : fuse_req) (ino : Z) (llfi : fuse_file_info) : H unit :=
  req_fuse_prepare req;;
  '(a, fi) ← get_dirhandle llfi;
  '(_, path) ← locked (get_path_nullok ino);
  fs ← gets_fs;
  interruptible (fuse_fs_releasedir fs path fi);;
  locked (free_path ino path);;
  free_dh a;;
  reply_err 0.

Definition fuse_lib_fsyncdir (req : fuse_req) (ino datasync : Z) (llfi : fuse_file_info)
    : H unit :=
  req_fuse_prepare req;;
  '(_, fi) ← get_dirhandle llfi;
  fs ← gets_fs;
  '(err, path) ← locked (get_path_nullok ino);
  err ← (if err =? 0 then
           err ← interruptible (fuse_fs_fsyncdir fs path datasync fi);
           locked (free_path ino path);; mret err
         else mret err);
  reply_err err.

End Dir.
