(* ===== verification/Handlers.v ===== *)
(** * The request handlers (lib/fuse.c, 2979-4760)

    One definition per [fuse_lib_*] handler of the path based interface, in the
    order of the source. *)
From S2P Require Import Prelude Slab PosixLock Types NodeTable Path Buf FsOps Entry Dir.
From Stdlib Require Import QArith.
#[local] Open Scope Z_scope.

(** Bits of [valid] in setattr. *)
Definition FUSE_SET_ATTR_MODE : Z := 1.
Definition FUSE_SET_ATTR_UID : Z := 2.
Definition FUSE_SET_ATTR_GID : Z := 4.
Definition FUSE_SET_ATTR_SIZE : Z := 8.
Definition FUSE_SET_ATTR_ATIME : Z := 16.
Definition FUSE_SET_ATTR_MTIME : Z := 32.
Definition FUSE_SET_ATTR_ATIME_NOW : Z := 128.
Definition FUSE_SET_ATTR_MTIME_NOW : Z := 256.
Definition UTIME_NOW : Z := 2 ^ 30 - 1.
Definition UTIME_OMIT : Z := 2 ^ 30 - 2.
Definition O_ACCMODE : Z := 3.
Definition O_RDONLY : Z := 0.
Definition O_WRONLY : Z := 1.
Definition O_CREAT : Z := 64.
Definition O_EXCL : Z := 128.
Definition FUSE_IOCTL_UNRESTRICTED : Z := 2.
Definition FUSE_IOCTL_DIR : Z := 16.
Definition PATH_MAX : Z := 4096.
(** [(uid_t) -1] *)
Definition ID_NONE : Z := 2 ^ 32 - 1.

Section Handlers.
Context {K : Type} (SC : Buf.syscalls K).
#[local] Abbreviation H := (@FsOps.H K).

(** The common body: take the path of [ino] with [get], run [m] on it, release
    it. *)
Definition with_path (get : Z -> F (Z * option string)) (ino : Z)
    (m : path_arg -> H Z) : H Z :=
  '(err, path) ← locked (get ino);
  if err =? 0 then
    err ← interruptible (m path);
    locked (free_path ino path);;
    mret err
  else mret err.

Definition get_path_fi (fi : option fuse_file_info) : Z -> F (Z * option string) :=
  match fi with Some _ => get_path_nullok | None => get_path end.

(** ** Attributes *)

Definition getattr_node (ino : Z) (st : stat) : F stat :=
  p ← get_node ino;
  n ← load p;
  let st := if is_hidden n && (0 <? st_nlink st)
            then set_st_nlink (st_nlink st - 1) st else st in
  f ← getM;
  (if auto_cache (conf f) then node_update_stat p st else mret tt);;
  mret st.

Definition fuse_lib_getattr (req : fuse_req) (ino : Z) (fi : option fuse_file_info)
    : H unit :=
  req_fuse_prepare req;;
  fs ← gets_fs;
  '(err, path) ← locked (get_path_fi fi ino);
  '(err, st) ←
    (if err =? 0 then
       r ← interruptible (fuse_fs_getattr fs path fi);
       locked (free_path ino path);;
       mret r
     else mret (err, stat0));
  if err =? 0 then
    st ← locked (getattr_node ino st);
    c ← gets_conf;
    send (ReplyAttr (set_stat c ino st) (attr_timeout c));;
    mret tt
  else reply_err err.

(** One step of setattr: nothing once an error has occurred or when [valid] has
    none of the bits. *)
Definition setattr_step (err : Z) (cond : bool) (m : H Z) : H Z :=
  if (err =? 0) && cond then m else mret err.

(** The times given to [utimens], with [HAVE_UTIMENSAT]. *)
Definition setattr_times (valid : Z) (attr : stat) : timespec * timespec :=
  let omit := mk_timespec 0 UTIME_OMIT in
  let now := mk_timespec 0 UTIME_NOW in
  (if Buf.has valid FUSE_SET_ATTR_ATIME_NOW then now
   else if Buf.has valid FUSE_SET_ATTR_ATIME then st_atim attr else omit,
   if Buf.has valid FUSE_SET_ATTR_MTIME_NOW then now
   else if Buf.has valid FUSE_SET_ATTR_MTIME then st_mtim attr else omit).

(** The operations of setattr, in their order, and the final getattr. *)
Definition setattr_ops (path : path_arg) (attr : stat) (valid : Z)
    (fi : option fuse_file_info) : H (Z * stat) :=
  fs ← gets_fs;
  err ← setattr_step 0 (Buf.has valid FUSE_SET_ATTR_MODE)
          (fuse_fs_chmod fs path (st_mode attr) fi);
  err ← setattr_step err
          (Buf.has valid (Z.lor FUSE_SET_ATTR_UID FUSE_SET_ATTR_GID))
          (fuse_fs_chown fs path
             (if Buf.has valid FUSE_SET_ATTR_UID then st_uid attr else ID_NONE)
             (if Buf.has valid FUSE_SET_ATTR_GID then st_gid attr else ID_NONE) fi);
  err ← setattr_step err (Buf.has valid FUSE_SET_ATTR_SIZE)
          (fuse_fs_truncate fs path (st_size attr) fi);
  err ← (if (err =? 0) &&
            Buf.has valid (Z.lor FUSE_SET_ATTR_ATIME FUSE_SET_ATTR_MTIME)
         then fuse_fs_utimens fs path (setattr_times valid attr) fi
         else if (err =? 0) &&
                 (Z.land valid (Z.lor FUSE_SET_ATTR_ATIME FUSE_SET_ATTR_MTIME) =?
                    Z.lor FUSE_SET_ATTR_ATIME FUSE_SET_ATTR_MTIME)
         then fuse_fs_utimens fs path (st_atim attr, st_mtim attr) fi
         else mret err);
  if err =? 0 then fuse_fs_getattr fs path fi else mret (err, stat0).

Definition fuse_lib_setattr (req : fuse_req) (ino : Z) (attr : stat) (valid : Z)
    (fi : option fuse_file_info) : H unit :=
  req_fuse_prepare req;;
  '(err, path) ← locked (get_path_fi fi ino);
  '(err, st) ←
    (if err =? 0 then
       r ← interruptible (setattr_ops path attr valid fi);
       locked (free_path ino path);;
       mret r
     else mret (err, stat0));
  if err =? 0 then
    c ← gets_conf;
    (if auto_cache c
     then locked (p ← get_node ino; node_update_stat p st) else mret tt);;
    send (ReplyAttr (set_stat c ino st) (attr_timeout c));;
    mret tt
  else reply_err err.

Definition fuse_lib_access (req : fuse_req) (ino mask : Z) : H unit :=
  req_fuse_prepare req;;
  fs ← gets_fs;
  err ← with_path get_path ino (fun path => fuse_fs_access fs path mask);
  reply_err err.

(** [linkname[PATH_MAX] = 0]. *)
Definition fuse_lib_readlink (req : fuse_req) (ino : Z) : H unit :=
  req_fuse_prepare req;;
  fs ← gets_fs;
  '(err, path) ← locked (get_path ino);
  '(err, linkname) ←
    (if err =? 0 then
       r ← interruptible (fuse_fs_readlink fs path (PATH_MAX + 1));
       locked (free_path ino path);;
       mret r
     else mret (err, ""%string));
  if err =? 0 then
    send (ReplyReadlink (String.substring 0 (Z.to_nat PATH_MAX) linkname));; mret tt
  else reply_err err.

(** ** Making and removing entries *)

(** The handlers that make an entry: [make] creates it and looks it up. *)
Definition make_entry (par : Z) (nm : string)
    (make : path_arg -> H (Z * fuse_entry_param)) : H unit :=
  '(err, path) ← locked (get_path_name par (Some nm));
  '(err, e) ←
    (if err =? 0 then
       r ← interruptible (make path);
       locked (free_path par path);;
       mret r
     else mret (err, entry0));
  reply_entry e err.

Definition then_lookup (err par : Z) (nm : string) (path : path_arg)
    : H (Z * fuse_entry_param) :=
  if err =? 0 then lookup_path par (Some nm) path None else mret (err, entry0).

Definition fuse_lib_mknod (req : fuse_req) (par : Z) (nm : string) (mode rdev : Z)
    : H unit :=
  req_fuse_prepare req;;
  fs ← gets_fs;
  make_entry par nm (fun path =>
    '(err, e) ←
      (if S_ISREG mode then
         let fi := set_fi_flags (Z.lor O_CREAT (Z.lor O_EXCL O_WRONLY)) fi0 in
         '(err, fi) ← fuse_fs_create fs path mode fi;
         if err =? 0 then
           r ← lookup_path par (Some nm) path (Some fi);
           fuse_fs_release fs path fi;;
           mret r
         else mret (err, entry0)
       else mret (- ENOSYS, entry0));
    if err =? - ENOSYS then
      err ← fuse_fs_mknod fs path mode rdev;
      then_lookup err par nm path
    else mret (err, e)).

Definition fuse_lib_mkdir (req : fuse_req) (par : Z) (nm : string) (mode : Z) : H unit :=
  req_fuse_prepare req;;
  fs ← gets_fs;
  make_entry par nm (fun path =>
    err ← fuse_fs_mkdir fs path mode; then_lookup err par nm path).

Definition fuse_lib_unlink (req : fuse_req) (par : Z) (nm : string) : H unit :=
  req_fuse_prepare req;;
  fs ← gets_fs;
  c ← gets_conf;
  '(err, path, wnode) ← locked (get_path_wrlock par (Some nm));
  err ←
    (if err =? 0 then
       err ← interruptible (
         opened ← (if negb (hard_remove c) then locked (is_open par nm) else mret false);
         if (opened : bool) then hide_node path par nm
         else
           err ← fuse_fs_unlink fs path;
           (if err =? 0 then locked (remove_node par nm) else mret tt);;
           mret err);
       locked (free_path_wrlock par wnode);;
       mret err
     else mret err);
  reply_err err.

Definition fuse_lib_rmdir (req : fuse_req) (par : Z) (nm : string) : H unit :=
  req_fuse_prepare req;;
  fs ← gets_fs;
  '(err, path, wnode) ← locked (get_path_wrlock par (Some nm));
  err ←
    (if err =? 0 then
       err ← interruptible (fuse_fs_rmdir fs path);
       (if err =? 0 then locked (remove_node par nm) else mret tt);;
       locked (free_path_wrlock par wnode);;
       mret err
     else mret err);
  reply_err err.

Definition fuse_lib_symlink (req : fuse_req) (linkname : string) (par : Z) (nm : string)
    : H unit :=
  req_fuse_prepare req;;
  fs ← gets_fs;
  make_entry par nm (fun path =>
    err ← fuse_fs_symlink fs linkname path; then_lookup err par nm path).

Definition fuse_lib_rename (req : fuse_req) (olddir : Z) (oldname : string)
    (newdir : Z) (newname : string) (flags : Z) : H unit :=
  req_fuse_prepare req;;
  fs ← gets_fs;
  c ← gets_conf;
  '(err, oldpath, newpath, wnode1, wnode2) ←
    locked (get_path2 olddir (Some oldname) newdir (Some newname) true true);
  err ←
    (if err =? 0 then
       err ← interruptible (
         let exch := Buf.has flags RENAME_EXCHANGE in
         opened ← (if negb (hard_remove c) && negb exch
                   then locked (is_open newdir newname) else mret false);
         err ← (if (opened : bool) then hide_node newpath newdir newname else mret 0);
         if err =? 0 then
           err ← fuse_fs_rename fs oldpath newpath flags;
           if err =? 0 then
             if exch then locked (exchange_node olddir oldname newdir newname)
             else locked (rename_node olddir oldname newdir newname false)
           else mret err
         else mret err);
       locked (free_path2 olddir newdir wnode1 wnode2);;
       mret err
     else mret err);
  reply_err err.

Definition fuse_lib_link (req : fuse_req) (ino newparent : Z) (newname : string) : H unit :=
  req_fuse_prepare req;;
  fs ← gets_fs;
  '(err, oldpath, newpath, _, _) ←
    locked (get_path2 ino None newparent (Some newname) false false);
  '(err, e) ←
    (if err =? 0 then
       r ← interruptible (
         err ← fuse_fs_link fs oldpath newpath;
         then_lookup err newparent newname newpath);
       locked (free_path2 ino newparent NULL NULL);;
       mret r
     else mret (err, entry0));
  reply_entry e err.

(** ** Opening and releasing files *)

(** The critical section of [fuse_do_release]: whether a hidden file is to be
    removed now. *)
Definition release_node (ino : Z) : F bool :=
  p ← get_node ino;
  n ← load p;
  assertM (0 <? open_count n);;
  update p (set_open_count (open_count n - 1));;
  if is_hidden n && (open_count n - 1 =? 0)
  then update p (set_is_hidden false);; mret true
  else mret false.

Definition fuse_do_release (ino : Z) (path : path_arg) (fi : fuse_file_info) : H unit :=
  fs ← gets_fs;
  fuse_fs_release fs path fi;;
  unlink_hidden ← locked (release_node ino);
  if (unlink_hidden : bool) then
    match path with
    | Some _ => fuse_fs_unlink fs path;; mret tt
    | None =>
      c ← gets_conf;
      if nullpath_ok c then
        '(err, unlinkpath) ← locked (get_path ino);
        (if err =? 0 then fuse_fs_unlink fs unlinkpath;; mret tt else mret tt);;
        locked (free_path ino unlinkpath)
      else mret tt
    end
  else mret tt.

Definition node_opened (ino : Z) : F unit :=
  p ← get_node ino; update p (fun n => set_open_count (open_count n + 1) n).

(** The flags [fuse_lib_create] and [fuse_lib_open] set from the configuration. *)
Definition conf_direct_io (c : fuse_config) (fi : fuse_file_info) : fuse_file_info :=
  if direct_io c then set_fi_direct_io true fi else fi.
Definition conf_kernel_cache (c : fuse_config) (fi : fuse_file_info) : fuse_file_info :=
  if kernel_cache c then set_fi_keep_cache true fi else fi.
Definition conf_parallel (c : fuse_config) (fi : fuse_file_info) : fuse_file_info :=
  if fi_direct_io fi && parallel_direct_writes c
  then set_fi_parallel_direct_writes true fi else fi.

Definition fuse_lib_create (req : fuse_req) (par : Z) (nm : string) (mode : Z)
    (fi : fuse_file_info) : H unit :=
  req_fuse_prepare req;;
  fs ← gets_fs;
  c ← gets_conf;
  '(err, path) ← locked (get_path_name par (Some nm));
  '(err, e, fi) ←
    (if err =? 0 then
       interruptible (
         '(err, fi) ← fuse_fs_create fs path mode fi;
         if err =? 0 then
           '(err, e) ← lookup_path par (Some nm) path (Some fi);
           if negb (err =? 0) then fuse_fs_release fs path fi;; mret (err, e, fi)
           else if negb (S_ISREG (st_mode (e_attr e))) then
             fuse_fs_release fs path fi;;
             locked (forget_node (e_ino e) 1);;
             mret (- EIO, e, fi)
           else mret (0, e, conf_parallel c (conf_kernel_cache c (conf_direct_io c fi)))
         else mret (err, entry0, fi))
     else mret (err, entry0, fi));
  (if err =? 0 then
     locked (node_opened (e_ino e));;
     r ← send (ReplyCreate e fi);
     if r =? - ENOENT then
       fuse_do_release (e_ino e) path fi;;
       locked (forget_node (e_ino e) 1)
     else mret tt
   else reply_err err);;
  locked (free_path par path).

(** The first critical section of [open_auto_cache]: whether the cached
    attributes are too old. *)
Definition cache_expired (ino : Z) : F bool :=
  p ← get_node ino;
  n ← load p;
  f ← getM;
  mret (cache_valid n &&
        Qgtb (diff_timespec (clock f) (stat_updated n)) (ac_attr_timeout (conf f))).

(** The last one: whether the cache is kept. *)
Definition cache_keep (p : ptr) : F bool :=
  n ← load p;
  update p (set_cache_valid true);;
  mret (cache_valid n).

Definition open_auto_cache (ino : Z) (path : path_arg) (fi : fuse_file_info)
    : H fuse_file_info :=
  fs ← gets_fs;
  p ← locked (get_node ino);
  expired ← locked (cache_expired ino);
  (if (expired : bool) then
     '(err, st) ← fuse_fs_getattr fs path (Some fi);
     locked (if err =? 0 then node_update_stat p st
             else update p (set_cache_valid false))
   else mret tt);;
  keep ← locked (cache_keep p);
  mret (if (keep : bool) then set_fi_keep_cache true fi else fi).

Definition fuse_lib_open (req : fuse_req) (ino : Z) (fi : fuse_file_info) : H unit :=
  req_fuse_prepare req;;
  fs ← gets_fs;
  c ← gets_conf;
  '(err, path) ← locked (get_path ino);
  '(err, fi) ←
    (if err =? 0 then
       interruptible (
         '(err, fi) ← fuse_fs_open fs path fi;
         if err =? 0 then
           let fi := conf_kernel_cache c (conf_direct_io c fi) in
           fi ← (if auto_cache c then open_auto_cache ino path fi else mret fi);
           let fi := if no_rofd_flush c && (Z.land (fi_flags fi) O_ACCMODE =? O_RDONLY)
                     then set_fi_noflush true fi else fi in
           mret (0, conf_parallel c fi)
         else mret (err, fi))
     else mret (err, fi));
  (if err =? 0 then
     locked (node_opened ino);;
     r ← send (ReplyOpen fi);
     if r =? - ENOENT then fuse_do_release ino path fi else mret tt
   else reply_err err);;
  locked (free_path ino path).

(** ** Data *)

Definition fuse_lib_read (req : fuse_req) (ino size off : Z) (fi : fuse_file_info)
    : H unit :=
  req_fuse_prepare req;;
  fs ← gets_fs;
  '(res, path) ← locked (get_path_nullok ino);
  '(res, v) ←
    (if res =? 0 then
       r ← interruptible (fuse_fs_read_buf fs path size off fi);
       locked (free_path ino path);;
       mret r
     else mret (res, None));
  (if res =? 0 then
     b ← derefM v; send (ReplyData b Buf.FUSE_BUF_SPLICE_MOVE);; mret tt
   else reply_err res);;
  fuse_free_buf v.

Definition fuse_lib_write_buf (req : fuse_req) (ino : Z) (v : Buf.fuse_bufvec) (off : Z)
    (fi : fuse_file_info) : H unit :=
  req_fuse_prepare req;;
  fs ← gets_fs;
  res ← with_path get_path_nullok ino
          (fun path => fuse_fs_write_buf SC fs path v off fi);
  if 0 <=? res then send (ReplyWrite res);; mret tt else reply_err res.

Definition fuse_lib_fsync (req : fuse_req) (ino datasync : Z) (fi : fuse_file_info)
    : H unit :=
  req_fuse_prepare req;;
  fs ← gets_fs;
  err ← with_path get_path_nullok ino (fun path => fuse_fs_fsync fs path datasync fi);
  reply_err err.

(** ** File system and extended attributes *)

Definition fuse_lib_statfs (req : fuse_req) (ino : Z) : H unit :=
  req_fuse_prepare req;;
  fs ← gets_fs;
  '(err, path) ← (if negb (ino =? 0) then locked (get_path ino) else mret (0, None));
  '(err, st) ←
    (if err =? 0 then
       r ← interruptible (fuse_fs_statfs fs
             (Some (match path with Some s => s | None => "/"%string end)));
       locked (free_path ino path);;
       mret r
     else mret (err, statvfs0));
  if err =? 0 then send (ReplyStatfs st);; mret tt else reply_err err.

Definition fuse_lib_setxattr (req : fuse_req) (ino : Z) (nm : string) (value : list Z)
    (size flags : Z) : H unit :=
  req_fuse_prepare req;;
  fs ← gets_fs;
  err ← with_path get_path ino
          (fun path => fuse_fs_setxattr fs path nm value size flags);
  reply_err err.

(** The body of getxattr and listxattr: with a size, a buffer of that size is
    filled and sent; without, the size needed is. *)
Definition xattr_reply (size : Z) (common : Z -> Z -> H Z) : H unit :=
  if negb (size =? 0) then
    ok ← locked malloc;
    if negb ok then reply_err (- ENOMEM)
    else
      value ← on_sys (Buf.alloc size);
      res ← common value size;
      (if 0 <? res then
         data ← on_sys (Buf.load_bytes value res);
         send (ReplyBuf data);; mret tt
       else reply_err res);;
      on_sys (Buf.free value)
  else
    res ← common 0 0;
    if 0 <=? res then send (ReplyXattr res);; mret tt else reply_err res.

Definition common_getxattr (ino : Z) (nm : string) (value size : Z) : H Z :=
  fs ← gets_fs;
  with_path get_path ino (fun path => fuse_fs_getxattr fs path nm value size).

Definition fuse_lib_getxattr (req : fuse_req) (ino : Z) (nm : string) (size : Z) : H unit :=
  req_fuse_prepare req;; xattr_reply size (common_getxattr ino nm).

Definition common_listxattr (ino lst size : Z) : H Z :=
  fs ← gets_fs;
  with_path get_path ino (fun path => fuse_fs_listxattr fs path lst size).

Definition fuse_lib_listxattr (req : fuse_req) (ino size : Z) : H unit :=
  req_fuse_prepare req;; xattr_reply size (common_listxattr ino).

Definition fuse_lib_removexattr (req : fuse_req) (ino : Z) (nm : string) : H unit :=
  req_fuse_prepare req;;
  fs ← gets_fs;
  err ← with_path get_path ino (fun path => fuse_fs_removexattr fs path nm);
  reply_err err.

(** ** Locks *)

(** Allocates when [PosixLock.locks_insert] needs to. *)
Definition node_locks_insert (ino : Z) (lk : PosixLock.lock) : F Z :=
  p ← get_node ino;
  n ← load p;
  '(m1, m2) ←
    (if negb (PosixLock.lk_type lk =? PosixLock.F_UNLCK) ||
        negb (PosixLock.lk_start lk =? 0) ||
        negb (PosixLock.lk_end lk =? OFFSET_MAX)
     then m1 ← malloc; m2 ← malloc; mret (m1, m2)
     else mret (true, true));
  '(err, ls) ← liftM (PosixLock.locks_insert m1 m2 (locks n) lk);
  update p (set_locks ls);;
  mret err.

Definition fuse_flush_common (ino : Z) (path : path_arg) (fi : fuse_file_info) : H Z :=
  fs ← gets_fs;
  '(err, errlock, fl) ←
    interruptible (
      err ← fuse_fs_flush fs path fi;
      '(errlock, fl) ← fuse_fs_lock fs path fi F_SETLK
        (PosixLock.mk_flock PosixLock.F_UNLCK PosixLock.SEEK_SET 0 0 0);
      mret (err, errlock, fl));
  if negb (errlock =? - ENOSYS) then
    l ← liftM (PosixLock.flock_to_lock fl);
    locked (node_locks_insert ino (PosixLock.set_owner (fi_lock_owner fi) l));;
    mret (if err =? - ENOSYS then 0 else err)
  else mret err.

Definition fuse_lib_release (req : fuse_req) (ino : Z) (fi : fuse_file_info) : H unit :=
  req_fuse_prepare req;;
  '(_, path) ← locked (get_path_nullok ino);
  err ← (if fi_flush fi then
           err ← fuse_flush_common ino path fi;
           mret (if err =? - ENOSYS then 0 else err)
         else mret 0);
  interruptible (fuse_do_release ino path fi);;
  locked (free_path ino path);;
  reply_err err.

Definition fuse_lib_flush (req : fuse_req) (ino : Z) (fi : fuse_file_info) : H unit :=
  req_fuse_prepare req;;
  '(_, path) ← locked (get_path_nullok ino);
  err ← fuse_flush_common ino path fi;
  locked (free_path ino path);;
  reply_err err.

(** Returns the error and [*lock]. *)
Definition fuse_lock_common (req : fuse_req) (ino : Z) (fi : fuse_file_info)
    (lock : PosixLock.flock) (cmd : Z) : H (Z * PosixLock.flock) :=
  req_fuse_prepare req;;
  fs ← gets_fs;
  '(err, path) ← locked (get_path_nullok ino);
  if err =? 0 then
    r ← interruptible (fuse_fs_lock fs path fi cmd lock);
    locked (free_path ino path);;
    mret r
  else mret (err, lock).

Definition node_locks_conflict (ino : Z) (lk : PosixLock.lock)
    : F (option PosixLock.lock) :=
  p ← get_node ino;
  n ← load p;
  mret (PosixLock.locks_conflict (locks n) lk).

Definition fuse_lib_getlk (req : fuse_req) (ino : Z) (fi : fuse_file_info)
    (lock : PosixLock.flock) : H unit :=
  l ← liftM (PosixLock.flock_to_lock lock);
  conflict ← locked (node_locks_conflict ino (PosixLock.set_owner (fi_lock_owner fi) l));
  '(err, lock) ←
    match conflict with
    | Some c => lock ← liftM (PosixLock.lock_to_flock c lock); mret (0, lock)
    | None => fuse_lock_common req ino fi lock F_GETLK
    end;
  if err =? 0 then send (ReplyLock lock);; mret tt else reply_err err.

Definition fuse_lib_setlk (req : fuse_req) (ino : Z) (fi : fuse_file_info)
    (lock : PosixLock.flock) (sleep : bool) : H unit :=
  '(err, lock) ← fuse_lock_common req ino fi lock (if sleep then F_SETLKW else F_SETLK);
  (if err =? 0 then
     l ← liftM (PosixLock.flock_to_lock lock);
     locked (node_locks_insert ino (PosixLock.set_owner (fi_lock_owner fi) l));;
     mret tt
   else mret tt);;
  reply_err err.

Definition fuse_lib_flock (req : fuse_req) (ino : Z) (fi : fuse_file_info) (lop : Z)
    : H unit :=
  req_fuse_prepare req;;
  fs ← gets_fs;
  err ← with_path get_path_nullok ino (fun path => fuse_fs_flock fs path fi lop);
  reply_err err.

(** ** The rest *)

Definition fuse_lib_bmap (req : fuse_req) (ino blocksize idx : Z) : H unit :=
  req_fuse_prepare req;;
  fs ← gets_fs;
  '(err, path) ← locked (get_path ino);
  '(err, idx) ←
    (if err =? 0 then
       r ← interruptible (fuse_fs_bmap fs path blocksize idx);
       locked (free_path ino path);;
       mret r
     else mret (err, idx));
  if err =? 0 then send (ReplyBmap idx);; mret tt else reply_err err.

(** The part of ioctl after [out_buf] is allocated (0 when it is not). *)
Definition ioctl_body (ino cmd arg : Z) (fi : fuse_file_info)
    (flags in_buf in_bufsz out_buf out_bufsz : Z) : H unit :=
  assertM ((in_bufsz =? 0) || (out_bufsz =? 0) || (in_bufsz =? out_bufsz));;
  (if negb (out_buf =? 0) && negb (in_bufsz =? 0) then
     data ← on_sys (Buf.load_bytes in_buf in_bufsz);
     on_sys (Buf.store_bytes out_buf data)
   else mret tt);;
  '(err, path) ← locked (get_path_nullok ino);
  (if negb (err =? 0) then reply_err err
   else
     fs ← gets_fs;
     err ← interruptible (fuse_fs_ioctl fs path cmd arg fi flags
             (if negb (out_buf =? 0) then out_buf else in_buf));
     locked (free_path ino path);;
     if err <? 0 then reply_err err
     else
       data ← on_sys (Buf.load_bytes out_buf out_bufsz);
       send (ReplyIoctl err data);; mret tt);;
  on_sys (Buf.free out_buf).

Definition fuse_lib_ioctl (req : fuse_req) (ino cmd arg : Z) (llfi : fuse_file_info)
    (flags in_buf in_bufsz out_bufsz : Z) : H unit :=
  req_fuse_prepare req;;
  if Buf.has flags FUSE_IOCTL_UNRESTRICTED then reply_err (- EPERM)
  else
    fi ← (if Buf.has flags FUSE_IOCTL_DIR
          then '(_, fi) ← get_dirhandle llfi; mret fi else mret llfi);
    if negb (out_bufsz =? 0) then
      ok ← locked malloc;
      if negb ok then reply_err (- ENOMEM)
      else
        out_buf ← on_sys (Buf.alloc out_bufsz);
        ioctl_body ino cmd arg fi flags in_buf in_bufsz out_buf out_bufsz
    else ioctl_body ino cmd arg fi flags in_buf in_bufsz 0 out_bufsz.

Definition fuse_lib_poll (req : fuse_req) (ino : Z) (fi : fuse_file_info)
    (ph : option Z) : H unit :=
  req_fuse_prepare req;;
  fs ← gets_fs;
  '(err, path) ← locked (get_path_nullok ino);
  '(err, revents) ←
    (if err =? 0 then
       r ← interruptible (fuse_fs_poll fs path fi ph 0);
       locked (free_path ino path);;
       mret r
     else mret (err, 0));
  if err =? 0 then send (ReplyPoll revents);; mret tt else reply_err err.

Definition fuse_lib_fallocate (req : fuse_req) (ino mode offset length : Z)
    (fi : fuse_file_info) : H unit :=
  req_fuse_prepare req;;
  fs ← gets_fs;
  err ← with_path get_path_nullok ino
          (fun path => fuse_fs_fallocate fs path mode offset length fi);
  reply_err err.

Definition fuse_lib_copy_file_range (req : fuse_req) (nodeid_in off_in : Z)
    (fi_in : fuse_file_info) (nodeid_out off_out : Z) (fi_out : fuse_file_info)
    (len flags : Z) : H unit :=
  req_fuse_prepare req;;
  fs ← gets_fs;
  '(err, path_in) ← locked (get_path_nullok nodeid_in);
  if negb (err =? 0) then reply_err err
  else
    '(err, path_out) ← locked (get_path_nullok nodeid_out);
    if negb (err =? 0) then
      locked (free_path nodeid_in path_in);; reply_err err
    else
      res ← interruptible (fuse_fs_copy_file_range fs path_in fi_in off_in path_out
              fi_out off_out len flags);
      (if 0 <=? res then send (ReplyWrite res);; mret tt else reply_err res);;
      locked (free_path nodeid_in path_in);;
      locked (free_path nodeid_out path_out).

Definition fuse_lib_lseek (req : fuse_req) (ino off whence : Z) (fi : fuse_file_info)
    : H unit :=
  req_fuse_prepare req;;
  fs ← gets_fs;
  '(err, path) ← locked (get_path ino);
  if negb (err =? 0) then reply_err err
  else
    res ← interruptible (fuse_fs_lseek fs path off whence fi);
    locked (free_path ino path);;
    if 0 <=? res then send (ReplyLseek res);; mret tt else reply_err res.

(** ** Cleaning the LRU list *)

Definition clean_delay (c : fuse_config) : Z :=
  let min_sleep := 60 in
  let max_sleep := 3600 in
  let sleep_time := Z.quot (remember c) 10 in
  if max_sleep <? sleep_time then max_sleep
  else if sleep_time <? min_sleep then min_sleep
  else sleep_time.

(** The loop over the nodes that were in the list when it started: it stops at
    the first that is young enough. *)
Fixpoint clean_loop (now : timespec) (l : list ptr) : F unit :=
  match l with
  | [] => mret tt
  | p :: l =>
    n ← load p;
    f ← getM;
    if Qle_bool (diff_timespec now (forget_time n)) (inject_Z (remember (conf f)))
    then mret tt
    else
      assertM (nlookup n =? 1);;
      if 1 <? refctr n then clean_loop now l
      else
        update p (set_nlookup 0);;
        unhash_name p;;
        unref_node p;;
        clean_loop now l
  end.

Definition fuse_clean_cache : H Z :=
  locked (f ← getM; clean_loop (clock f) (lru_table f));;
  c ← gets_conf;
  mret (clean_delay c).

End Handlers.
