(* ===== verification/Opt.v ===== *)
(** * Option parsing (lib/fuse_opt.c, include/fuse_opt.h)

    Argument lists, comma separated option lists with escapes, and the matching of
    options against templates.  A [string] is the text of a C string, before its NUL.
    Reading a C string beyond its NUL, reading memory that was not written and writing
    outside an allocation are crashes ([BadAccess]), so that the bounds of the code are
    part of what is proved.  Lengths are taken to fit the [int] and [unsigned] variables
    that hold some of them (texts below 2 GiB). *)
From S2P Require Import Prelude.
#[local] Open Scope Z_scope.

Module Opt.

Definition FUSE_OPT_KEY_OPT : Z := -1.
Definition FUSE_OPT_KEY_NONOPT : Z := -2.
Definition FUSE_OPT_KEY_KEEP : Z := -3.
Definition FUSE_OPT_KEY_DISCARD : Z := -4.
(** [-1U], the offset of an option that is passed to the processing function. *)
Definition OFFSET_KEY : Z := 2 ^ 32 - 1.

Definition ch (n : nat) : Ascii.ascii := Ascii.ascii_of_nat n.
Definition NUL : Ascii.ascii := ch 0.
Definition COMMA : Ascii.ascii := ch 44.
Definition BACKSLASH : Ascii.ascii := ch 92.
Definition EQUALS : Ascii.ascii := ch 61.
Definition SPACE : Ascii.ascii := ch 32.
Definition PERCENT : Ascii.ascii := ch 37.
Definition DASH : Ascii.ascii := ch 45.

(** [s + i] *)
Fixpoint from (i : nat) (s : string) : string :=
  match i, s with
  | O, _ => s
  | S i, String _ s => from i s
  | S _, EmptyString => EmptyString
  end.

Fixpoint upto (i : nat) (s : string) : string :=
  match i, s with
  | S i, String c s => String c (upto i s)
  | _, _ => EmptyString
  end.

Fixpoint strchr (s : string) (c : Ascii.ascii) : option nat :=
  match s with
  | EmptyString => None
  | String d s => if Ascii.eqb c d then Some O else S <$> strchr s c
  end.

(** ** Memory *)
Section Memory.
Context {St : Type}.

(** [s[i]]: the last readable character is the NUL. *)
Definition peek (i : nat) (s : string) : M St Ascii.ascii :=
  match String.get i s with
  | Some c => mret c
  | None => if (i =? String.length s)%nat then mret NUL else crashM BadAccess
  end.

(** The C string at [s + i]. *)
Definition tail_at (i : nat) (s : string) : M St string :=
  if (i <=? String.length s)%nat then mret (from i s) else crashM BadAccess.

(** The first [n] characters, for [memcpy]. *)
Definition head_at (n : nat) (s : string) : M St string :=
  if (n <=? String.length s)%nat then mret (upto n s) else crashM BadAccess.

(** [n] bytes or elements are used of an allocation of [size]. *)
Definition fits (n size : Z) : M St unit :=
  if (0 <=? n) && (n <=? size) then mret tt else crashM BadAccess.
End Memory.

(** An allocation; [None] is a byte that was not written yet. *)
Abbreviation cbuf := (list (option Ascii.ascii)).

Section Buffers.
Context {St : Type}.

Definition rd (b : cbuf) (i : nat) : M St Ascii.ascii :=
  match b !! i with Some (Some c) => mret c | _ => crashM BadAccess end.

Definition wr (b : cbuf) (i : nat) (c : Ascii.ascii) : M St cbuf :=
  if (i <? length b)%nat then mret (<[i := Some c]> b) else crashM BadAccess.
End Buffers.

(** The bytes of a C string, its NUL included. *)
Definition chars (s : string) : cbuf := Some <$> (String.list_ascii_of_string s ++ [NUL]).

(** The C string at the start of the memory. *)
Fixpoint c_str (b : cbuf) : option string :=
  match b with
  | Some c :: b => if Ascii.eqb c NUL then Some EmptyString else String c <$> c_str b
  | _ => None
  end.

(** A text as the C string it is: up to the first NUL. *)
Fixpoint cstr (s : string) : string :=
  match s with
  | EmptyString => EmptyString
  | String c s => if Ascii.eqb c NUL then EmptyString else String c (cstr s)
  end.

Definition strdup (s : string) : cbuf := chars (cstr s).

Definition realloc (b : cbuf) (size : nat) : cbuf := take size (b ++ replicate size None).

(** ** Values *)

(** What an option stores at an offset of the user's data. *)
Inductive optval : Type :=
| VInt (z : Z)
| VStr (s : string).

Definition data : Type := gmap Z optval.

Record fuse_opt : Type := mk_opt {
  templ : string;
  offset : Z;
  value : Z;
}.

(** [argv] is [None] for a null pointer. *)
Record fuse_args : Type := mk_args {
  argc : Z;
  argv : option (list string);
  allocated : bool;
}.

Definition args0 : fuse_args := mk_args 0 None false.

(** The user's processing function. *)
Definition fuse_opt_proc_t : Type :=
  data -> string -> Z -> fuse_args -> Z * data * fuse_args.

(** [struct fuse_opt_context]; [allocs] are the outcomes of the coming
    allocations. *)
Record fuse_opt_context : Type := mk_octx {
  c_data : data;
  c_opt : list fuse_opt;
  c_proc : option fuse_opt_proc_t;
  c_argctr : Z;
  c_argc : Z;
  c_argv : list string;
  c_outargs : fuse_args;
  c_opts : option string;
  c_nonopt : Z;
  c_allocs : list bool;
}.

Definition set_data (d : data) (c : fuse_opt_context) : fuse_opt_context :=
  mk_octx d (c_opt c) (c_proc c) (c_argctr c) (c_argc c) (c_argv c) (c_outargs c)
    (c_opts c) (c_nonopt c) (c_allocs c).
Definition set_argctr (n : Z) (c : fuse_opt_context) : fuse_opt_context :=
  mk_octx (c_data c) (c_opt c) (c_proc c) n (c_argc c) (c_argv c) (c_outargs c)
    (c_opts c) (c_nonopt c) (c_allocs c).
Definition set_outargs (a : fuse_args) (c : fuse_opt_context) : fuse_opt_context :=
  mk_octx (c_data c) (c_opt c) (c_proc c) (c_argctr c) (c_argc c) (c_argv c) a
    (c_opts c) (c_nonopt c) (c_allocs c).
Definition set_opts (o : option string) (c : fuse_opt_context) : fuse_opt_context :=
  mk_octx (c_data c) (c_opt c) (c_proc c) (c_argctr c) (c_argc c) (c_argv c)
    (c_outargs c) o (c_nonopt c) (c_allocs c).
Definition set_nonopt (n : Z) (c : fuse_opt_context) : fuse_opt_context :=
  mk_octx (c_data c) (c_opt c) (c_proc c) (c_argctr c) (c_argc c) (c_argv c)
    (c_outargs c) (c_opts c) n (c_allocs c).
Definition set_allocs (l : list bool) (c : fuse_opt_context) : fuse_opt_context :=
  mk_octx (c_data c) (c_opt c) (c_proc c) (c_argctr c) (c_argc c) (c_argv c)
    (c_outargs c) (c_opts c) (c_nonopt c) l.

Definition P (A : Type) : Type := M fuse_opt_context A.

Definition malloc : P bool :=
  c ← getM;
  match c_allocs c with
  | [] => mret true
  | b :: bs => putM (set_allocs bs c);; mret b
  end.

(** ** Argument lists *)

Definition fuse_opt_free_args (a : option fuse_args) : option fuse_args :=
  match a with Some _ => Some args0 | None => None end.

(** Returns the result and the arguments. *)
Definition fuse_opt_add_arg (args : fuse_args) (arg : string) : P (Z * fuse_args) :=
  assertM (bool_decide (argv args = None) || allocated args);;
  ok1 ← malloc;
  if negb ok1 then mret (-1, args)
  else
    ok2 ← malloc;
    if negb ok2 then mret (-1, args)
    else
      let old := take (Z.to_nat (argc args)) (default [] (argv args)) in
      let size := argc args + 2 in
      fits (argc args + 1) size;;
      fits (argc args + 2) size;;
      mret (0, mk_args (argc args + 1) (Some (old ++ [arg])) true).

Definition fuse_opt_insert_arg_common (args : fuse_args) (pos : Z) (arg : string)
    : P (Z * fuse_args) :=
  assertM (pos <=? argc args);;
  '(r, args) ← fuse_opt_add_arg args arg;
  if r =? -1 then mret (-1, args)
  else if negb (pos =? argc args - 1) then
    l ← derefM (argv args);
    let old := take (Z.to_nat (argc args - 1)) l in
    fits pos (argc args);;
    fits (pos + 1 + (argc args - pos - 1)) (argc args + 1);;
    mret (0, mk_args (argc args)
               (Some (take (Z.to_nat pos) old ++ [arg] ++ drop (Z.to_nat pos) old))
               (allocated args))
  else mret (0, args).

Definition fuse_opt_insert_arg := fuse_opt_insert_arg_common.

Definition next_arg : P Z :=
  c ← getM;
  if c_argc c <=? c_argctr c + 1 then mret (-1)
  else putM (set_argctr (c_argctr c + 1) c);; mret 0.

Definition add_arg (arg : string) : P Z :=
  c ← getM;
  '(r, a) ← fuse_opt_add_arg (c_outargs c) arg;
  modifyM (set_outargs a);;
  mret r.

(** ** Option lists *)

(** The loop that copies [opt] to [d]. *)
Fixpoint put_escaped (b : cbuf) (d : nat) (opt : string) (esc : bool) : P (cbuf * nat) :=
  match opt with
  | EmptyString => mret (b, d)
  | String c opt =>
    '(b, d) ← (if esc && (Ascii.eqb c COMMA || Ascii.eqb c BACKSLASH)
               then b ← wr b d BACKSLASH; mret (b, S d) else mret (b, d));
    b ← wr b d c;
    put_escaped b (S d) opt esc
  end.

(** Returns the result and [*opts]. *)
Definition add_opt_common (opts : option string) (opt : string) (esc : bool)
    : P (Z * option string) :=
  let oldlen := match opts with Some s => String.length s | None => O end in
  ok ← malloc;
  if negb ok then mret (-1, opts)
  else
    let b := realloc (match opts with Some s => chars s | None => [] end)
               (oldlen + 1 + String.length opt * 2 + 1) in
    '(b, d) ← (if bool_decide (oldlen = O) then mret (b, O)
               else b ← wr b oldlen COMMA; mret (b, S oldlen));
    '(b, d) ← put_escaped b d opt esc;
    b ← wr b d NUL;
    o ← derefM (c_str b);
    mret (0, Some o).

Definition fuse_opt_add_opt opts opt := add_opt_common opts opt false.
Definition fuse_opt_add_opt_escaped opts opt := add_opt_common opts opt true.

Definition add_opt (opt : string) : P Z :=
  c ← getM;
  '(r, o) ← add_opt_common (c_opts c) opt true;
  modifyM (set_opts o);;
  mret r.

Definition keep (arg : string) (iso : bool) : P Z :=
  if iso then add_opt arg else add_arg arg.

Definition call_proc (arg : string) (key : Z) (iso : bool) : P Z :=
  if key =? FUSE_OPT_KEY_DISCARD then mret 0
  else
    c ← getM;
    match c_proc c with
    | Some proc =>
      if negb (key =? FUSE_OPT_KEY_KEEP) then
        let '(res, d, a) := proc (c_data c) arg key (c_outargs c) in
        putM (set_data d (set_outargs a c));;
        if (res =? -1) || (res =? 0) then mret res else keep arg iso
      else keep arg iso
    | None => keep arg iso
    end.

(** ** Templates *)

Section Match.
Context {St : Type}.

(** The separator, when the option matches. *)
Definition match_template (t arg : string) : M St (option nat) :=
  let arglen := String.length arg in
  let sep := match strchr t EQUALS with Some i => Some i | None => strchr t SPACE end in
  let exact := if String.eqb t arg then Some O else None in
  match sep with
  | Some i =>
    next ← peek (S i) t;
    if Ascii.eqb next NUL || Ascii.eqb next PERCENT then
      c ← peek i t;
      let tlen := if Ascii.eqb c EQUALS then S i else i in
      mret (if (tlen <=? arglen)%nat && String.eqb (upto tlen arg) (upto tlen t)
            then Some i else exact)
    else mret exact
  | None => mret exact
  end.

(** The first matching option, its separator, and the options after it. *)
Fixpoint find_opt (opts : list fuse_opt) (arg : string)
    : M St (option (fuse_opt * nat * list fuse_opt)) :=
  match opts with
  | [] => mret None
  | o :: opts =>
    m ← match_template (templ o) arg;
    match m with
    | Some sep => mret (Some (o, sep, opts))
    | None => find_opt opts arg
    end
  end.
End Match.

Definition fuse_opt_match (opts : list fuse_opt) (opt : string) : res Z :=
  match find_opt opts opt tt with
  | Ok (Some _, _) => Ok 1
  | Ok (None, _) => Ok 0
  | Crash c => Crash c
  end.

Section Parse.
(** [sscanf param format &v]: the value converted, if one was. *)
Variable sscanf : string -> string -> option optval.

Definition store (off : Z) (v : optval) : P unit :=
  modifyM (fun c => set_data (<[off := v]> (c_data c)) c).

Definition process_opt_param (off : Z) (format param arg : string) : P Z :=
  f0 ← peek 0 format;
  assertM (Ascii.eqb f0 PERCENT);;
  f1 ← peek 1 format;
  if Ascii.eqb f1 (ch 115) then
    ok ← malloc;
    if negb ok then mret (-1) else store off (VStr param);; mret 0
  else
    match sscanf param format with
    | Some v => store off v;; mret 0
    | None => mret (-1)
    end.

Definition process_opt (o : fuse_opt) (sep : nat) (arg : string) (iso : bool) : P Z :=
  if offset o =? OFFSET_KEY then
    r ← call_proc arg (value o) iso;
    mret (if r =? -1 then -1 else 0)
  else
    formatted ← (if bool_decide (sep = O) then mret false
                 else t ← peek (S sep) (templ o); mret (negb (Ascii.eqb t NUL)));
    if formatted : bool then
      param ← tail_at sep arg;
      t ← peek sep (templ o);
      param ← (if Ascii.eqb t EQUALS then tail_at 1 param else mret param);
      format ← tail_at (S sep) (templ o);
      r ← process_opt_param (offset o) format param arg;
      mret (if r =? -1 then -1 else 0)
    else store (offset o) (VInt (value o));; mret 0.

Definition process_opt_sep_arg (o : fuse_opt) (sep : nat) (arg : string) (iso : bool)
    : P Z :=
  r ← next_arg;
  if r =? -1 then mret (-1)
  else
    c ← getM;
    param ← derefM (c_argv c !! Z.to_nat (c_argctr c));
    let size := Z.of_nat sep + Z.of_nat (String.length param) + 1 in
    ok ← malloc;
    if negb ok then mret (-1)
    else
      fits (Z.of_nat sep) size;;
      head ← head_at sep arg;
      fits (Z.of_nat sep + (Z.of_nat (String.length param) + 1)) size;;
      process_opt o sep (head +:+ param) iso.

(** The [for] loop of [process_gopt] from the option found in [opts] on. *)
Fixpoint process_gopt_loop (opts : list fuse_opt) (arg : string) (iso : bool) : P Z :=
  match opts with
  | [] => mret 0
  | o :: opts =>
    m ← match_template (templ o) arg;
    match m with
    | None => process_gopt_loop opts arg iso
    | Some sep =>
      separate ← (if bool_decide (sep = O) then mret false
                  else
                    t ← peek sep (templ o);
                    if Ascii.eqb t SPACE then a ← peek sep arg; mret (Ascii.eqb a NUL)
                    else mret false);
      r ← (if separate : bool
           then process_opt_sep_arg o sep arg iso
           else process_opt o sep arg iso);
      if r =? -1 then mret (-1) else process_gopt_loop opts arg iso
    end
  end.

Definition process_gopt (arg : string) (iso : bool) : P Z :=
  c ← getM;
  found ← find_opt (c_opt c) arg;
  match found with
  | Some _ => process_gopt_loop (c_opt c) arg iso
  | None => call_proc arg FUSE_OPT_KEY_OPT iso
  end.

Definition octal (hi : nat) (c : Ascii.ascii) : option nat :=
  let n := Ascii.nat_of_ascii c in
  if (48 <=? n)%nat && (n <=? 48 + hi)%nat then Some (n - 48)%nat else None.

(** The character of three octal digits at [s], tested one after the other. *)
Definition octal_at (b : cbuf) (s : nat) : P (option Ascii.ascii) :=
  c0 ← rd b s;
  match octal 3 c0 with
  | None => mret None
  | Some x =>
    c1 ← rd b (S s);
    match octal 7 c1 with
    | None => mret None
    | Some y =>
      c2 ← rd b (S (S s));
      mret (match octal 7 c2 with
            | None => None
            | Some z => Some (ch (x * 64 + y * 8 + z))
            end)
    end
  end.

(** Copies the character at [s], or what the escape there stands for, to [d]; returns
    the memory and the place of the last character read. *)
Definition copy_char (b : cbuf) (s d : nat) : P (cbuf * nat) :=
  c ← rd b s;
  escaped ← (if Ascii.eqb c BACKSLASH
             then n ← rd b (S s); mret (negb (Ascii.eqb n NUL)) else mret false);
  if escaped : bool then
    o ← octal_at b (S s);
    match o with
    | Some x => b ← wr b d x; mret (b, (S s + 2)%nat)
    | None => x ← rd b (S s); b ← wr b d x; mret (b, S s)
    end
  else b ← wr b d c; mret (b, s).

(** The loop of [process_real_option_group] on the copy of the options, which it
    rewrites in place; [fuel] bounds the characters left. *)
Fixpoint option_group_loop (fuel : nat) (b : cbuf) (s d : nat) : P Z :=
  match fuel with
  | O => crashM OutOfFuel
  | S fuel =>
    c ← rd b s;
    let end_ := Ascii.eqb c NUL in
    if Ascii.eqb c COMMA || end_ then
      b ← wr b d NUL;
      token ← derefM (c_str b);
      r ← process_gopt token true;
      if r =? -1 then mret (-1)
      else if end_ then mret 0
      else option_group_loop fuel b (S s) O
    else
      '(b, s) ← copy_char b s d;
      option_group_loop fuel b (S s) (S d)
  end.

Definition process_real_option_group (opts : cbuf) : P Z :=
  option_group_loop (length opts) opts O O.

Definition process_option_group (opts : string) : P Z :=
  ok ← malloc;
  if negb ok then mret (-1) else process_real_option_group (strdup opts).

Definition process_one (arg : string) : P Z :=
  c ← getM;
  nonopt ← (if negb (c_nonopt c =? 0) then mret true
            else a0 ← peek 0 arg; mret (negb (Ascii.eqb a0 DASH)));
  if nonopt : bool then call_proc arg FUSE_OPT_KEY_NONOPT false
  else
    a1 ← peek 1 arg;
    if Ascii.eqb a1 (ch 111) then
      a2 ← peek 2 arg;
      if negb (Ascii.eqb a2 NUL) then
        group ← tail_at 2 arg;
        process_option_group group
      else
        r ← next_arg;
        if r =? -1 then mret (-1)
        else
          c ← getM;
          next ← derefM (c_argv c !! Z.to_nat (c_argctr c));
          process_option_group next
    else
      separator ← (if Ascii.eqb a1 DASH then a2 ← peek 2 arg; mret (Ascii.eqb a2 NUL)
                   else mret false);
      if separator : bool then
        r ← add_arg arg;
        if r =? -1 then mret (-1)
        else
          modifyM (fun c => set_nonopt (argc (c_outargs c)) c);;
          mret 0
      else process_gopt arg false.

Fixpoint parse_loop (fuel : nat) : P Z :=
  c ← getM;
  if c_argctr c <? c_argc c then
    match fuel with
    | O => crashM OutOfFuel
    | S fuel =>
      arg ← derefM (c_argv c !! Z.to_nat (c_argctr c));
      r ← process_one arg;
      if r =? -1 then mret (-1)
      else
        modifyM (fun c => set_argctr (c_argctr c + 1) c);;
        parse_loop fuel
    end
  else mret 0.

(** Inserts the collected options as the first arguments. *)
Definition insert_opts (o : string) : P Z :=
  c ← getM;
  '(r, a) ← fuse_opt_insert_arg (c_outargs c) 1 "-o";
  modifyM (set_outargs a);;
  if r =? -1 then mret (-1)
  else
    '(r, a) ← fuse_opt_insert_arg a 2 o;
    modifyM (set_outargs a);;
    mret r.

(** Drops a final "--". *)
Definition drop_separator : P unit :=
  c ← getM;
  let a := c_outargs c in
  if negb (c_nonopt c =? 0) && (c_nonopt c =? argc a) then
    l ← derefM (argv a);
    last ← derefM (l !! Z.to_nat (argc a - 1));
    if String.eqb last "--"
    then putM (set_outargs (mk_args (argc a - 1)
           (Some (take (Z.to_nat (argc a - 1)) l)) (allocated a)) c)
    else mret tt
  else mret tt.

Definition opt_parse : P Z :=
  c ← getM;
  r ← (if negb (c_argc c =? 0)
       then arg0 ← derefM (c_argv c !! O); add_arg arg0 else mret 0);
  if r =? -1 then mret (-1)
  else
    modifyM (set_argctr 1);;
    r ← parse_loop (Z.to_nat (c_argc c));
    if r =? -1 then mret (-1)
    else
      c ← getM;
      r ← match c_opts c with Some o => insert_opts o | None => mret 0 end;
      if r =? -1 then mret (-1)
      else drop_separator;; mret 0.

(** Returns the result, the arguments and the user's data. *)
Definition fuse_opt_parse (allocs : list bool) (args : option fuse_args) (d : data)
    (opts : list fuse_opt) (proc : option fuse_opt_proc_t)
    : res (Z * option fuse_args * data) :=
  match args with
  | None => Ok (0, args, d)
  | Some a =>
    match argv a with
    | None => Ok (0, args, d)
    | Some l =>
      if argc a =? 0 then Ok (0, args, d)
      else
        match opt_parse (mk_octx d opts proc 0 (argc a) l args0 None 0 allocs) with
        | Crash c => Crash c
        | Ok (r, c) =>
          if negb (r =? -1) then Ok (r, Some (c_outargs c), c_data c)
          else Ok (r, args, c_data c)
        end
    end
  end.

End Parse.
End Opt.
