(* ===== verification/OptFacts.v ===== *)
(** * Option parsing: round trip, safety and what is kept

    Escaped option lists are read back as they were put together; parsing ends
    without an invalid access for every argument list; arguments nobody asked for are
    kept.  The loops that rewrite memory in place are related to functions on strings
    ([option_group_loop_ref], [put_escaped_Ok]). *)
From S2P Require Import Prelude Opt.
From Stdlib Require Import Ascii.
Import Opt.
#[local] Open Scope Z_scope.

(** ** Strings *)
(** A C string: no NUL inside. *)
Fixpoint c_string (s : string) : Prop :=
  match s with EmptyString => True | String c s => c <> NUL /\ c_string s end.

#[export] Instance c_string_dec s : Decision (c_string s).
Proof. induction s; simpl; apply _. Defined.

Lemma cstr_id s : c_string s -> cstr s = s.
Proof.
  induction s as [|c s IH]; simpl; [done|]. intros [Hc Hs].
  destruct (Ascii.eqb_spec c NUL); [done|]. by rewrite IH.
Qed.

(** [s[i]], and the NUL beyond the end. *)
Definition char_at (i : nat) (s : string) : Ascii.ascii := default NUL (String.get i s).

Lemma upto_app (a b : string) : upto (String.length a) (a +:+ b) = a.
Proof. induction a as [|x a IH]; simpl; [by destruct b|]. by rewrite IH. Qed.

Lemma from_app (a b : string) : Opt.from (String.length a) (a +:+ b) = b.
Proof. induction a as [|x a IH]; simpl; [by destruct b|done]. Qed.

Lemma char_at_app (a b : string) i : char_at (String.length a + i) (a +:+ b) = char_at i b.
Proof. unfold char_at. induction a as [|x a IH]; simpl; [done|exact IH]. Qed.

Lemma get_beyond i s : (String.length s <= i)%nat -> String.get i s = None.
Proof.
  revert i. induction s as [|c s IH]; intros [|i]; cbn [String.length String.get]; try done; [lia|].
  intros H. apply IH. lia.
Qed.

Lemma peek_Ok {St} i s (c : St) : (i <= String.length s)%nat -> peek i s c = Ok (char_at i s, c).
Proof.
  intros Hi. unfold peek, char_at. destruct (String.get i s) as [x|] eqn:E; [done|].
  destruct (Nat.eqb_spec i (String.length s)) as [|Hne]; [done|]. exfalso.
  clear -E Hi Hne. revert i E Hi Hne. induction s as [|y s IH]; intros [|i]; cbn [String.length String.get]; try done; try lia.
  intros E Hi Hne. apply (IH i); [done|lia..].
Qed.

Lemma char_at_inside i s : char_at i s <> NUL -> (i < String.length s)%nat.
Proof.
  intros H. destruct (Nat.lt_ge_cases i (String.length s)) as [|Hge]; [done|].
  unfold char_at in H. by rewrite get_beyond in H.
Qed.

Lemma tail_at_Ok {St} i s (c : St) : (i <= String.length s)%nat -> tail_at i s c = Ok (Opt.from i s, c).
Proof. intros H. unfold tail_at. by rewrite (proj2 (Nat.leb_le _ _)). Qed.

Lemma runs_peek {St B} i s (k : Ascii.ascii -> M St B) c Q : (i <= String.length s)%nat ->
  runs (k (char_at i s)) c Q -> runs (peek i s ≫= k) c Q.
Proof. intros Hi Hk. unfold runs, mbind, M_bind. by rewrite peek_Ok. Qed.

(** ** Templates *)
Lemma strchr_at s x i : strchr s x = Some i -> char_at i s = x /\ (i < String.length s)%nat.
Proof.
  revert i. induction s as [|y s IH]; intros i; cbn [strchr String.length]; [done|].
  destruct (Ascii.eqb_spec x y) as [->|_]; [intros [= <-]; split; [done|lia]|].
  destruct (strchr s x) as [j|]; [|done]. intros [= <-]. destruct (IH j eq_refl). split; [done|lia].
Qed.

(** What [match_template] finds. *)
Definition template_match (t arg : string) : option nat :=
  let sep := match strchr t EQUALS with Some i => Some i | None => strchr t SPACE end in
  let exact := if String.eqb t arg then Some O else None in
  match sep with
  | Some i =>
    let next := char_at (S i) t in
    if Ascii.eqb next NUL || Ascii.eqb next PERCENT then
      let tlen := if Ascii.eqb (char_at i t) EQUALS then S i else i in
      if (tlen <=? String.length arg)%nat && String.eqb (upto tlen arg) (upto tlen t)
      then Some i else exact
    else exact
  | None => exact
  end.

Lemma separator_inside t i :
  match strchr t EQUALS with Some i => Some i | None => strchr t SPACE end = Some i -> (i < String.length t)%nat.
Proof.
  destruct (strchr t EQUALS) as [j|] eqn:E; [intros [= ->]|intros E']; by eapply strchr_at.
Qed.

Lemma match_template_Ok {St} t arg (c : St) : match_template t arg c = Ok (template_match t arg, c).
Proof.
  unfold match_template, template_match.
  destruct (match strchr t EQUALS with Some i => Some i | None => strchr t SPACE end) as [i|] eqn:E; [|done].
  apply separator_inside in E. unfold mbind, M_bind. rewrite peek_Ok by lia.
  destruct (_ || _)%bool; [|done]. by rewrite peek_Ok by lia.
Qed.

(** The separator is inside the template and the argument reaches it. *)
Definition sep_fits (t arg : string) (sep : nat) : Prop :=
  (sep < String.length t)%nat /\ (sep <= String.length arg)%nat /\
  (char_at sep t = EQUALS -> (S sep <= String.length arg)%nat).

Lemma template_match_fits t arg sep : template_match t arg = Some sep -> sep <> O -> sep_fits t arg sep.
Proof.
  unfold template_match. intros H Hs.
  destruct (match strchr t EQUALS with Some i => Some i | None => strchr t SPACE end) as [i|] eqn:E;
    [|destruct (String.eqb t arg); by simplify_eq].
  apply separator_inside in E.
  destruct (Ascii.eqb (char_at (S i) t) NUL || _)%bool; [|destruct (String.eqb t arg); by simplify_eq].
  destruct ((_ <=? _)%nat && _) eqn:Hl; [|destruct (String.eqb t arg); by simplify_eq]. injection H as <-.
  apply andb_true_iff in Hl as [Hl _]. apply Nat.leb_le in Hl. split; [done|].
  destruct (Ascii.eqb_spec (char_at i t) EQUALS) as [He|He]; split; try done; lia.
Qed.

Fixpoint first_match (opts : list fuse_opt) (arg : string) : option (fuse_opt * nat * list fuse_opt) :=
  match opts with
  | [] => None
  | o :: opts =>
    match template_match (templ o) arg with
    | Some sep => Some (o, sep, opts)
    | None => first_match opts arg
    end
  end.

Lemma find_opt_Ok {St} opts arg (c : St) : find_opt opts arg c = Ok (first_match opts arg, c).
Proof.
  induction opts as [|o opts IH]; cbn [find_opt first_match]; [done|]. unfold mbind, M_bind.
  rewrite match_template_Ok. by destruct (template_match (templ o) arg).
Qed.

Lemma fuse_opt_match_none opts arg : fuse_opt_match opts arg = Ok 0 <-> first_match opts arg = None.
Proof. unfold fuse_opt_match. rewrite find_opt_Ok. by destruct (first_match opts arg). Qed.

(** ** Memory *)
Lemma chars_cons x s : chars (String x s) = Some x :: chars s.
Proof. done. Qed.

Lemma length_chars s : length (chars s) = S (String.length s).
Proof. induction s as [|c s IH]; [done|]. rewrite chars_cons. cbn [length String.length]. by rewrite IH. Qed.

(** The characters of [s], without the NUL. *)
Definition text (s : string) : cbuf := Some <$> String.list_ascii_of_string s.

Lemma text_app a b : text (a +:+ b) = text a ++ text b.
Proof. induction a as [|x a IH]; [done|]. rewrite string_app_cons. unfold text in *. cbn. by rewrite IH. Qed.

Lemma length_text s : length (text s) = String.length s.
Proof. induction s as [|c s IH]; [done|]. unfold text in *. cbn. by rewrite IH. Qed.

Lemma c_str_text s l : c_str (text s ++ Some NUL :: l) = Some (cstr s).
Proof.
  induction s as [|x s IH]; [done|]. unfold text in *. cbn. destruct (Ascii.eqb x NUL); [done|].
  by rewrite IH.
Qed.

Lemma rd_Ok {St} b i x (c : St) : b !! i = Some (Some x) -> rd b i c = Ok (x, c).
Proof. intros H. unfold rd. by rewrite H. Qed.

Lemma wr_Ok {St} b i x (c : St) : (i < length b)%nat -> wr b i x c = Ok (<[i := Some x]> b, c).
Proof. intros H. unfold wr. by rewrite (proj2 (Nat.ltb_lt _ _)). Qed.

Lemma drop_here {A} i x (l b : list A) : drop i b = x :: l -> b !! i = Some x /\ drop (S i) b = l.
Proof.
  intros H. split; [|].
  - replace i with (i + 0)%nat by lia. by rewrite <- lookup_drop, H.
  - replace (S i) with (i + 1)%nat by lia. by rewrite <- drop_drop, H.
Qed.

Lemma take_written {A} i x (l b : list A) : take i b = l -> (i < length b)%nat -> take (S i) (<[i := x]> b) = l ++ [x].
Proof.
  intros <- Hi. rewrite (take_S_r _ _ x) by (by apply list_lookup_insert_eq). by rewrite take_insert_ge.
Qed.

Lemma c_str_written d b s x : take d b = text s -> (d < length b)%nat -> x = NUL ->
  c_str (<[d := Some x]> b) = Some (cstr s).
Proof.
  intros Ht Hd ->. rewrite insert_take_drop by done. rewrite Ht. apply c_str_text.
Qed.

(** ** Collecting options *)
(** What [put_escaped] writes. *)
Fixpoint escape (esc : bool) (opt : string) : string :=
  match opt with
  | EmptyString => EmptyString
  | String c opt =>
    if esc && (Ascii.eqb c COMMA || Ascii.eqb c BACKSLASH)
    then String BACKSLASH (String c (escape esc opt))
    else String c (escape esc opt)
  end.

Lemma string_snoc a x b : a +:+ String x b = (a +:+ String x "") +:+ b.
Proof. by rewrite string_app_assoc. Qed.

Lemma put_escaped_Ok esc opt : forall b d pre c, take d b = text pre ->
  (d + String.length opt * 2 < length b)%nat -> exists b' d',
  put_escaped b d opt esc c = Ok ((b', d'), c) /\ take d' b' = text (pre +:+ escape esc opt) /\
  (d' < length b')%nat.
Proof.
  induction opt as [|x opt IH]; intros b d pre c Ht Hd; cbn [put_escaped escape String.length] in *.
  { exists b, d. rewrite string_app_nil_r. split; [done|]. split; [done|lia]. }
  unfold mbind, M_bind. destruct (esc && _) eqn:He.
  - rewrite wr_Ok by lia. cbn [mret M_ret]. rewrite wr_Ok by (rewrite length_insert; lia).
    destruct (IH (<[S d := Some x]> (<[d := Some BACKSLASH]> b)) (S (S d)) ((pre +:+ String BACKSLASH "") +:+ String x "") c)
      as (b' & d' & E & Ht' & Hd').
    + rewrite !text_app. apply take_written; [|rewrite length_insert; lia]. apply take_written; [done|lia].
    + rewrite !length_insert. lia.
    + exists b', d'. split; [done|]. split; [|done]. by rewrite Ht', !string_app_assoc.
  - cbn [mret M_ret]. rewrite wr_Ok by lia.
    destruct (IH (<[d := Some x]> b) (S d) (pre +:+ String x "") c) as (b' & d' & E & Ht' & Hd').
    + rewrite text_app. apply take_written; [done|lia].
    + rewrite length_insert. lia.
    + exists b', d'. split; [done|]. split; [|done]. by rewrite Ht', string_app_assoc.
Qed.

(** [*opts] with [opt] added. *)
Definition added (opts : option string) (opt : string) (esc : bool) : string :=
  match opts with
  | Some (String c s) => String c s +:+ String COMMA (escape esc opt)
  | _ => escape esc opt
  end.

Lemma length_realloc b n : length (realloc b n) = n.
Proof. unfold realloc. rewrite length_take, length_app, length_replicate. lia. Qed.

Lemma take_realloc b n m : (m <= length b)%nat -> (m <= n)%nat -> take m (realloc b n) = take m b.
Proof. intros H1 H2. unfold realloc. rewrite take_take, Nat.min_l by done. by rewrite take_app_le. Qed.

Lemma chars_text s : chars s = text s ++ [Some NUL].
Proof. unfold chars, text. by rewrite fmap_app. Qed.

(** The bytes are written inside the allocation and the string is the old one with the
    new option. *)
Lemma add_opt_common_Ok opts opt esc c : exists bs r,
  add_opt_common opts opt esc c = Ok (r, set_allocs bs c) /\
  (r = (-1, opts) \/ r = (0, Some (cstr (added opts opt esc)))) /\
  (c_allocs c = [] -> bs = [] /\ r.1 = 0).
Proof.
  unfold add_opt_common. unfold mbind at 1, M_bind at 1.
  assert (Hm : exists b bs, malloc c = Ok (b, set_allocs bs c) /\ (c_allocs c = [] -> bs = [] /\ b = true)).
  { unfold malloc, mbind, M_bind, getM. destruct (c_allocs c) as [|b bs] eqn:Ha.
    - exists true, []. split; [|done]. rewrite <- Ha. by destruct c.
    - by exists b, bs. }
  destruct Hm as (ok & bs & -> & Hbs). exists bs. destruct ok; cbn [negb].
  2: { eexists. split; [done|]. split; [by left|]. intros Ha. by destruct (Hbs Ha). }
  exists (0, Some (cstr (added opts opt esc))). split; [|split; [by right|intros Ha; by destruct (Hbs Ha)]].
  set (oldlen := match opts with Some s => String.length s | None => O end).
  set (b := realloc _ _). set (c1 := set_allocs bs c).
  assert (Hb : length b = (oldlen + 1 + String.length opt * 2 + 1)%nat) by apply length_realloc.
  assert (Hpre : exists b1 d1 pre, (if bool_decide (oldlen = O) then mret (b, O)
      else b ← wr b oldlen COMMA; mret (b, S oldlen)) c1 = Ok ((b1, d1), c1) /\
    take d1 b1 = text pre /\ (d1 + String.length opt * 2 < length b1)%nat /\
    pre +:+ escape esc opt = added opts opt esc).
  { destruct opts as [ [|x s]|].
    1, 3: exists b, O, EmptyString; split; [done|]; split; [done|]; split; [lia|done].
    exists (<[oldlen := Some COMMA]> b), (S oldlen), (String x s +:+ String COMMA "").
    split; [|split; [|split]].
    - rewrite bool_decide_eq_false_2 by done. unfold mbind, M_bind. rewrite wr_Ok by lia. done.
    - rewrite text_app. apply take_written; [|lia]. unfold b. rewrite take_realloc; [|rewrite length_chars; unfold oldlen; lia|lia].
      rewrite chars_text. unfold oldlen. rewrite <- (length_text (String x s)). by rewrite take_app_length.
    - rewrite length_insert. lia.
    - cbn [added]. by rewrite string_app_assoc. }
  destruct Hpre as (b1 & d1 & pre & E1 & Ht1 & Hd1 & Hadd). unfold mbind, M_bind. unfold mbind, M_bind in E1. rewrite E1.
  destruct (put_escaped_Ok esc opt b1 d1 pre c1 Ht1 Hd1) as (b2 & d2 & -> & Ht2 & Hd2).
  rewrite wr_Ok by done. rewrite (c_str_written d2 b2 _ NUL Ht2) by done. cbn. by rewrite Hadd.
Qed.

(** ** What is read in place *)
(** The character a backslash and what follows it stand for, and the rest. *)
Definition unescape (s : string) : option (Ascii.ascii * string) :=
  match s with
  | EmptyString => None
  | String c s' =>
    match octal 3 c, octal 7 (char_at 0 s'), octal 7 (char_at 1 s') with
    | Some a, Some b, Some d => Some (ch (a * 64 + b * 8 + d), Opt.from 2 s')
    | _, _, _ => Some (c, s')
    end
  end.

#[local] Arguments unescape : simpl never.

(** ** Option groups *)
Section Groups.
Variable sscanf : string -> string -> option optval.

(** The loop on what is left of the options, with the token read so far. *)
Fixpoint group_loop (fuel : nat) (d s : string) : P Z :=
  match fuel with
  | O => crashM OutOfFuel
  | S fuel =>
    match s with
    | EmptyString =>
      r ← process_gopt sscanf (cstr d) true;
      mret (if r =? -1 then -1 else 0)
    | String c s' =>
      if Ascii.eqb c COMMA then
        r ← process_gopt sscanf (cstr d) true;
        if r =? -1 then mret (-1) else group_loop fuel "" s'
      else if Ascii.eqb c BACKSLASH then
        match unescape s' with
        | Some (c', s'') => group_loop fuel (d +:+ String c' "") s''
        | None => group_loop fuel (d +:+ String c "") s'
        end
      else group_loop fuel (d +:+ String c "") s'
    end
  end.

(** *** The loop in place does the same *)
(** The token is at the start of the memory, what is left of the options at its end,
    and the token has not overtaken the reading. *)
Record in_place (b : cbuf) (s d : nat) (tok rest : string) : Prop := mk_in_place {
  ip_tok : take d b = text tok;
  ip_rest : drop s b = chars rest;
  ip_order : (d <= s)%nat;
  ip_string : c_string rest;
}.

Lemma in_place_room b s d tok rest : in_place b s d tok rest -> (d < length b)%nat.
Proof.
  intros [_ H Hd _]. apply (f_equal length) in H. rewrite length_chars, length_drop in H. lia.
Qed.

(** One character of the token, [n] characters of the options. *)
Lemma in_place_step b s d tok rest n rest' x : in_place b s d tok rest ->
  drop (S s + n) b = chars rest' -> c_string rest' ->
  in_place (<[d := Some x]> b) (S s + n) (S d) (tok +:+ String x "") rest'.
Proof.
  intros H Hr Hc. pose proof (in_place_room _ _ _ _ _ H) as Hd. destruct H as [Ht _ Ho _]. split.
  - rewrite text_app. by apply take_written.
  - rewrite drop_insert_lt by lia. done.
  - lia.
  - done.
Qed.

(** Reading where [rest] is. *)
Lemma rd_chars {St} b s rest (c : St) : drop s b = chars rest -> rd b s c = Ok (char_at 0 rest, c).
Proof. intros H. apply rd_Ok. destruct rest; apply drop_here in H as [H _]; exact H. Qed.

Definition octals (rest : string) : option Ascii.ascii :=
  match octal 3 (char_at 0 rest), octal 7 (char_at 1 rest), octal 7 (char_at 2 rest) with
  | Some x, Some y, Some z => Some (ch (x * 64 + y * 8 + z))
  | _, _, _ => None
  end.

Lemma octal_at_Ok b s rest c : drop s b = chars rest -> octal_at b s c = Ok (octals rest, c).
Proof.
  intros H. unfold octal_at, octals, mbind, M_bind. rewrite (rd_chars _ _ _ _ H).
  destruct (octal 3 (char_at 0 rest)) as [x|] eqn:E0; [|done]. destruct rest as [|a rest]; [done|].
  apply drop_here in H as [_ H]. rewrite (rd_chars _ _ _ _ H). change (char_at 1 (String a rest)) with (char_at 0 rest).
  destruct (octal 7 (char_at 0 rest)) as [y|] eqn:E1; [|done]. destruct rest as [|b' rest]; [done|].
  apply drop_here in H as [_ H]. rewrite (rd_chars _ _ _ _ H). change (char_at 2 (String a (String b' rest))) with (char_at 0 rest).
  by destruct (octal 7 (char_at 0 rest)).
Qed.

(** The character that is copied and what is left. *)
Definition next_char (x : Ascii.ascii) (rest : string) : Ascii.ascii * string :=
  if Ascii.eqb x BACKSLASH then default (x, rest) (unescape rest) else (x, rest).

Lemma octals_unescape y rest : unescape (String y rest) =
  Some (match octals (String y rest) with Some x => (x, Opt.from 2 rest) | None => (y, rest) end).
Proof.
  unfold unescape, octals. change (char_at 0 (String y rest)) with y.
  change (char_at 1 (String y rest)) with (char_at 0 rest). change (char_at 2 (String y rest)) with (char_at 1 rest).
  destruct (octal 3 y), (octal 7 (char_at 0 rest)), (octal 7 (char_at 1 rest)); done.
Qed.

Lemma octals_long y rest x : octals (String y rest) = Some x -> exists a b rest', rest = String a (String b rest').
Proof.
  unfold octals. change (char_at 1 (String y rest)) with (char_at 0 rest). change (char_at 2 (String y rest)) with (char_at 1 rest).
  destruct (octal 3 _); [|done]. destruct rest as [|a [|b rest] ]; [done| |by eauto].
  destruct (octal 7 (char_at 0 _)); done.
Qed.

Lemma copy_char_Ok b s d tok x rest c : in_place b s d tok (String x rest) -> exists s',
  copy_char b s d c = Ok ((<[d := Some (next_char x rest).1]> b, s'), c) /\
  in_place (<[d := Some (next_char x rest).1]> b) (S s') (S d) (tok +:+ String (next_char x rest).1 "") (next_char x rest).2.
Proof.
  intros H. pose proof (in_place_room _ _ _ _ _ H) as Hd. pose proof (ip_rest _ _ _ _ _ H) as Hr.
  pose proof (ip_string _ _ _ _ _ H) as [_ Hc]. pose proof Hr as [_ Hr1]%drop_here.
  assert (Hplain : forall s', s' = s -> in_place (<[d := Some x]> b) (S s') (S d) (tok +:+ String x "") rest).
  { intros s' ->. replace (S s) with (S s + 0)%nat by lia. eapply in_place_step; [exact H|by rewrite Nat.add_0_r|done]. }
  unfold copy_char, next_char, mbind, M_bind. rewrite (rd_chars _ _ _ _ Hr). change (char_at 0 (String x rest)) with x.
  destruct (Ascii.eqb_spec x BACKSLASH) as [->|_]; cbn [mret M_ret fst snd].
  2: { exists s. rewrite wr_Ok by done. split; [done|]. by apply Hplain. }
  change (drop (S s) b = chars rest) in Hr1. rewrite (rd_chars _ _ _ _ Hr1). destruct rest as [|y rest].
  { exists s. change (char_at 0 "") with NUL. rewrite Ascii.eqb_refl. cbn [negb mret M_ret]. rewrite wr_Ok by done. split; [done|]. by apply Hplain. }
  destruct Hc as [Hy Hc]. change (char_at 0 (String y rest)) with y.
  rewrite (proj2 (Ascii.eqb_neq y NUL)) by done. cbn [negb mret M_ret]. rewrite octals_unescape, (octal_at_Ok _ _ _ _ Hr1).
  destruct (octals (String y rest)) as [z|] eqn:Ho; cbn [default fst snd].
  - destruct (octals_long _ _ _ Ho) as (a & b' & rest' & ->). destruct Hc as (_ & _ & Hc).
    exists (S s + 2)%nat. cbn [mret M_ret]. rewrite wr_Ok by done. split; [done|].
    replace (S (S s + 2)) with (S s + 3)%nat by lia. eapply in_place_step; [exact H| |exact Hc].
    rewrite <- drop_drop, Hr1. done.
  - exists (S s). rewrite (rd_chars _ _ _ _ Hr1). cbn [mret M_ret]. rewrite wr_Ok by done. split; [done|].
    replace (S (S s)) with (S s + 1)%nat by lia. eapply in_place_step; [exact H| |exact Hc].
    rewrite <- drop_drop, Hr1. done.
Qed.

Lemma group_loop_char f tok x rest c : x <> COMMA ->
  group_loop (S f) tok (String x rest) c = group_loop f (tok +:+ String (next_char x rest).1 "") (next_char x rest).2 c.
Proof.
  intros Hx. cbn [group_loop]. rewrite (proj2 (Ascii.eqb_neq x COMMA)) by done. unfold next_char.
  destruct (Ascii.eqb_spec x BACKSLASH) as [->|_]; [|done]. by destruct (unescape rest) as [ [y rest']|].
Qed.

Lemma option_group_loop_ref f : forall b s d tok rest c, in_place b s d tok rest ->
  option_group_loop sscanf f b s d c = group_loop f tok rest c.
Proof.
  induction f as [|f IH]; intros b s d tok rest c H; [done|].
  pose proof (in_place_room _ _ _ _ _ H) as Hd. pose proof (ip_rest _ _ _ _ _ H) as Hr.
  cbn [option_group_loop]. unfold mbind at 1, M_bind at 1. rewrite (rd_chars _ _ _ _ Hr).
  destruct (Ascii.eqb (char_at 0 rest) COMMA || Ascii.eqb (char_at 0 rest) NUL)%bool eqn:He.
  - unfold mbind at 1, M_bind at 1. rewrite wr_Ok by done. unfold mbind at 1, M_bind at 1.
    rewrite (c_str_written d b tok NUL) by (done || apply H). cbn [derefM mret M_ret].
    destruct rest as [|x rest]; cbn [group_loop].
    + unfold mbind, M_bind. destruct (process_gopt sscanf (cstr tok) true c) as [ [r c']|]; [|done].
      by destruct (r =? -1).
    + change (char_at 0 (String x rest)) with x in *. pose proof (ip_string _ _ _ _ _ H) as [Hx Hc].
      rewrite (proj2 (Ascii.eqb_neq x NUL)) in He |- * by done. rewrite orb_false_r in He. rewrite He.
      unfold mbind, M_bind. destruct (process_gopt sscanf (cstr tok) true c) as [ [r c']|]; [|done].
      destruct (r =? -1); [done|]. apply IH. destruct H as [_ H Ho _]. apply drop_here in H as [_ H].
      split; [done| |lia|done]. by rewrite drop_insert_lt by lia.
  - apply orb_false_iff in He as [He1 He2]. destruct rest as [|x rest]; [done|].
    change (char_at 0 (String x rest)) with x in *. rewrite group_loop_char by (by apply Ascii.eqb_neq).
    destruct (copy_char_Ok _ _ _ _ _ _ c H) as (s' & E & H'). unfold mbind, M_bind. rewrite E. by apply IH.
Qed.

Lemma cstr_string s : c_string (cstr s).
Proof. induction s as [|x s IH]; cbn; [done|]. destruct (Ascii.eqb_spec x NUL); [done|by split]. Qed.

Lemma process_real_option_group_ref s c :
  process_real_option_group sscanf (strdup s) c = group_loop (S (String.length (cstr s))) "" (cstr s) c.
Proof.
  unfold process_real_option_group, strdup. rewrite length_chars. apply option_group_loop_ref.
  split; [done|by rewrite drop_0|done|apply cstr_string].
Qed.

Lemma unescape_length s x s' : unescape s = Some (x, s') ->
  (String.length s' <= String.length s)%nat.
Proof.
  intros Hu. destruct s as [|y s]; [done|]. unfold unescape in Hu.
  destruct (octal 3 y), (octal 7 (char_at 0 s)), (octal 7 (char_at 1 s)); injection Hu as _ <-;
    simpl; try lia. destruct s as [|? [|]]; simpl; lia.
Qed.

(** The token loop does not depend on the fuel once there is enough of it. *)
Lemma loop_fuel f1 : forall f2 d s c, (String.length s < f1)%nat -> (String.length s < f2)%nat ->
  group_loop f1 d s c = group_loop f2 d s c.
Proof.
  induction f1 as [|f1 IH]; intros f2 d s c H1 H2; [lia|]. destruct f2 as [|f2]; [lia|].
  destruct s as [|x s]; simpl; [done|]. simpl in H1, H2.
  destruct (Ascii.eqb x COMMA).
  { unfold mbind, M_bind. destruct (process_gopt _ _ _ _) as [[r c']|]; [|done].
    destruct (r =? -1); [done|]. apply IH; lia. }
  destruct (Ascii.eqb x BACKSLASH); [|apply IH; lia].
  destruct (unescape s) as [[x' s']|] eqn:Hu; [|apply IH; lia].
  apply unescape_length in Hu.
  apply IH; lia.
Qed.

Lemma unescape_special c s : c = COMMA \/ c = BACKSLASH -> unescape (String c s) = Some (c, s).
Proof. intros [-> | ->]; reflexivity. Qed.

(** Reading an escaped option gives back the option. *)
Lemma loop_escaped a : forall f d s c, (String.length (escape true a +:+ s) < f)%nat ->
  group_loop f d (escape true a +:+ s) c =
  group_loop f (d +:+ a) s c.
Proof.
  induction a as [|x a IH]; intros f d s c Hf; [by rewrite string_app_nil_r|].
  assert (Hd : d +:+ String x a = (d +:+ String x "") +:+ a) by (by rewrite string_app_assoc).
  rewrite Hd. simpl in *. destruct (Ascii.eqb x COMMA || Ascii.eqb x BACKSLASH)%bool eqn:Hx;
    rewrite ?string_app_cons in *; simpl in Hf.
  - destruct f as [|f]; [lia|].
    assert (Hsp : x = COMMA \/ x = BACKSLASH).
    { destruct (Ascii.eqb_spec x COMMA); [by left|]. destruct (Ascii.eqb_spec x BACKSLASH);
        [by right|done]. }
    simpl group_loop at 1. rewrite unescape_special by done. rewrite IH by lia.
    apply loop_fuel; rewrite string_app_length in Hf; lia.
  - destruct f as [|f]; [lia|]. simpl group_loop at 1.
    apply orb_false_iff in Hx as [Hx1 Hx2]. rewrite Hx1, Hx2. rewrite IH by lia.
    apply loop_fuel; rewrite string_app_length in Hf; lia.
Qed.

(** [opts] one after the other. *)
Fixpoint process_all (opts : list string) : P Z :=
  match opts with
  | [] => mret 0
  | o :: opts =>
    r ← process_gopt sscanf o true;
    if r =? -1 then mret (-1) else process_all opts
  end.

(** The options, escaped and separated by commas. *)
Fixpoint joined (l : list string) : string :=
  match l with
  | [] => ""
  | [o] => escape true o
  | o :: l => escape true o +:+ String COMMA (joined l)
  end.

Lemma joined_cons o o' l :
  joined (o :: o' :: l) = escape true o +:+ String COMMA (joined (o' :: l)).
Proof. done. Qed.

Lemma group_joined l : forall f c, l <> [] -> Forall c_string l ->
  (String.length (joined l) < f)%nat ->
  group_loop f "" (joined l) c = process_all l c.
Proof.
  induction l as [|o l IH]; intros f c Hne Hl Hf; [done|].
  apply Forall_cons in Hl as [Ho Hl]. destruct l as [|o' l].
  - change (joined [o]) with (escape true o) in *. rewrite <- (string_app_nil_r (escape true o)).
    rewrite loop_escaped by (rewrite string_app_nil_r; exact Hf). destruct f as [|f]; [lia|].
    change ("" +:+ o) with o. simpl. rewrite cstr_id by done.
    unfold mbind at 1 2, M_bind at 1 2.
    destruct (process_gopt _ _ _ _) as [[r c']|]; [|done]. by destruct (r =? -1).
  - rewrite joined_cons in *. rewrite loop_escaped by done. change ("" +:+ o) with o.
    destruct f as [|f]; [lia|].
    rewrite string_app_length in Hf. simpl in Hf |- *. rewrite cstr_id by done.
    unfold mbind at 1 2, M_bind at 1 2.
    destruct (process_gopt _ _ _ _) as [[r c']|]; [|done]. destruct (r =? -1); [done|].
    apply IH; [done|done|simpl; lia].
Qed.

Lemma joined_snoc l o : l <> [] -> joined (l ++ [o]) = joined l +:+ String COMMA (escape true o).
Proof.
  induction l as [|x l IH]; intros Hl; [done|]. destruct l as [|y l]; [done|].
  change (joined ((x :: y :: l) ++ [o])) with
    (escape true x +:+ String COMMA (joined ((y :: l) ++ [o]))).
  rewrite IH by done. rewrite joined_cons. by rewrite string_app_assoc.
Qed.

Lemma escape_nonempty o : o <> ""%string -> escape true o <> ""%string.
Proof. destruct o; simpl; [done|]. by destruct (_ || _)%bool. Qed.

Lemma joined_nonempty l : l <> [] -> Forall (fun o => o <> ""%string) l -> joined l <> ""%string.
Proof.
  intros Hl Hne. destruct l as [|o l]; [done|]. apply Forall_cons in Hne as [Ho _].
  apply escape_nonempty in Ho. destruct l as [|o' l]; [done|]. rewrite joined_cons.
  by destruct (escape true o).
Qed.

(** The option string [l] leads to, by [fuse_opt_add_opt_escaped]. *)
Definition collected (l : list string) : option string :=
  match l with [] => None | _ => Some (joined l) end.

Lemma c_string_app a b : c_string a -> c_string b -> c_string (a +:+ b).
Proof. induction a as [|x a IH]; [done|]. rewrite string_app_cons. intros [H1 H2] Hb. split; [done|by apply IH]. Qed.

Lemma c_string_escape o : c_string o -> c_string (escape true o).
Proof.
  induction o as [|x o IH]; [done|]. intros [Hx Ho]. specialize (IH Ho). cbn [escape].
  by destruct (_ && _); repeat split.
Qed.

Lemma c_string_joined l : Forall c_string l -> c_string (joined l).
Proof.
  induction l as [|o l IH]; [done|]. intros [Ho%c_string_escape Hl]%Forall_cons. destruct l as [|o' l]; [done|].
  rewrite joined_cons. apply c_string_app; [done|]. split; [by intros ?|by apply IH].
Qed.

Lemma added_collected l o : Forall (fun o => o <> ""%string) l -> added (collected l) o true = joined (l ++ [o]).
Proof.
  intros Hl. destruct l as [|x l]; [done|]. pose proof (joined_nonempty (x :: l) ltac:(done) Hl) as Hne.
  rewrite joined_snoc by done. unfold collected, added. by destruct (joined (x :: l)).
Qed.

Lemma add_opt_collected l o c : Forall (fun o => o <> ""%string) l -> Forall c_string (l ++ [o]) ->
  c_allocs c = [] -> fuse_opt_add_opt_escaped (collected l) o c = Ok ((0, collected (l ++ [o])), c).
Proof.
  intros Hl Hc Ha. unfold fuse_opt_add_opt_escaped.
  destruct (add_opt_common_Ok (collected l) o true c) as (bs & r & -> & Hr & Hbs).
  destruct (Hbs Ha) as [-> Hr0]. destruct Hr as [-> | ->]; [done|].
  rewrite added_collected, cstr_id by (try apply c_string_joined; done).
  assert (Hs : set_allocs [] c = c) by (destruct c; cbn in Ha; by rewrite Ha). rewrite Hs.
  by destruct l.
Qed.
End Groups.

(** ** Parsing is safe *)

(** [args] as the library builds them: [argc] strings, in allocated memory. *)
Definition args_list (a : fuse_args) : list string := default [] (argv a).

Definition args_ok (a : fuse_args) : Prop :=
  argc a = Z.of_nat (length (args_list a)) /\ (argv a <> None -> allocated a = true).

(** The processing function may add arguments of its own at the end. *)
Definition proc_ok (proc : fuse_opt_proc_t) : Prop := forall d arg key a r d' a',
  args_ok a -> proc d arg key a = (r, d', a') ->
  args_ok a' /\ args_list a `prefix_of` args_list a'.

Record ctx_ok (c : fuse_opt_context) : Prop := mk_ctx_ok {
  co_argv : c_argc c = Z.of_nat (length (c_argv c));
  co_ctr : 0 <= c_argctr c;
  co_out : args_ok (c_outargs c);
  co_first : 1 <= argc (c_outargs c);
  co_nonopt : (c_nonopt c = 0 \/ 2 <= c_nonopt c) /\ c_nonopt c <= argc (c_outargs c);
  co_proc : forall proc, c_proc c = Some proc -> proc_ok proc;
}.

(** What an operation leaves as it was, and what only grows. *)
Record grows (c c' : fuse_opt_context) : Prop := mk_grows {
  gr_argv : c_argv c' = c_argv c;
  gr_argc : c_argc c' = c_argc c;
  gr_opt : c_opt c' = c_opt c;
  gr_ctr : c_argctr c <= c_argctr c';
  gr_out : args_list (c_outargs c) `prefix_of` args_list (c_outargs c');
}.

#[export] Instance grows_preorder : PreOrder grows.
Proof.
  split; [by split|]. intros c1 c2 c3 [] []. split; try congruence; [lia|by etransitivity].
Qed.

(** From a good context the operation returns, leaving a good one. *)
Definition safe {A} (m : P A) : Prop := forall c, ctx_ok c ->
  runs m c (fun _ c' => ctx_ok c' /\ grows c c').

Lemma safe_ret {A} (a : A) : safe (mret a).
Proof. intros c Hc. by apply runs_ret. Qed.

Lemma safe_bind {A B} (m : P A) (k : A -> P B) : safe m -> (forall a, safe (k a)) -> safe (m ≫= k).
Proof.
  intros Hm Hk c Hc. eapply runs_bind; [by apply Hm|]. intros a c1 [Hc1 Hg1].
  eapply runs_mono; [by apply Hk|]. intros b c2 [Hc2 Hg2]. split; [done|by etransitivity].
Qed.

Lemma safe_if {A} (b : bool) (m1 m2 : P A) : safe m1 -> safe m2 -> safe (if b then m1 else m2).
Proof. by destruct b. Qed.

(** An operation that starts by looking at the context. *)
Lemma safe_get {A} (k : fuse_opt_context -> P A) :
  (forall c, ctx_ok c -> runs (k c) c (fun _ c' => ctx_ok c' /\ grows c c')) -> safe (getM ≫= k).
Proof. intros Hk c Hc. apply runs_get_bind. by apply Hk. Qed.

Create HintDb safe.
#[export] Hint Resolve safe_ret safe_bind safe_if : safe.

Lemma opt_malloc_runs c : runs malloc c (fun _ c' => exists bs, c' = set_allocs bs c).
Proof.
  unfold malloc. apply runs_get_bind. destruct (c_allocs c) as [|b bs] eqn:Hb.
  - apply runs_ret. exists []. rewrite <- Hb. by destruct c.
  - apply runs_put_bind, runs_ret. by exists bs.
Qed.

Lemma set_allocs_ok c bs : ctx_ok c -> ctx_ok (set_allocs bs c) /\ grows c (set_allocs bs c).
Proof. intros []. by split; split. Qed.

Lemma safe_malloc : safe malloc.
Proof.
  intros c Hc. eapply runs_mono; [apply opt_malloc_runs|]. intros b c' [bs ->].
  by apply set_allocs_ok.
Qed.

Lemma set_outargs_ok c a : ctx_ok c -> args_ok a ->
  args_list (c_outargs c) `prefix_of` args_list a ->
  ctx_ok (set_outargs a c) /\ grows c (set_outargs a c).
Proof.
  intros [H1 H2 [H3 _] H4 H5 H6] Ha Hp. destruct Ha as [Hl Hal]. apply prefix_length in Hp as Hle.
  split; [|by split]. split; simpl; [done|done|by split|lia|lia|done].
Qed.

Lemma fits_Ok {St} n size (c : St) : 0 <= n <= size -> fits n size c = Ok (tt, c).
Proof. intros Hn. unfold fits. by rewrite (proj2 (Z.leb_le 0 n)), (proj2 (Z.leb_le n size)) by lia. Qed.

Lemma runs_fits {B} n size (k : unit -> P B) c Q : 0 <= n <= size -> runs (k tt) c Q -> runs (fits n size ≫= k) c Q.
Proof.
  intros Hn Hk. unfold runs, mbind, M_bind. by rewrite fits_Ok.
Qed.

(** Adding at the end, and putting the new argument further to the front. *)
Lemma add_arg_runs args arg c : args_ok args ->
  runs (fuse_opt_add_arg args arg) c (fun r c' => (exists bs, c' = set_allocs bs c) /\
    (r = (-1, args) \/ (r.1 = 0 /\ args_ok r.2 /\ args_list r.2 = args_list args ++ [arg]))).
Proof.
  intros [Hn Hal]. unfold fuse_opt_add_arg. apply runs_assert_bind.
  { apply orb_true_iff. destruct (argv args) as [l|] eqn:Hl; [right; by apply Hal|left].
    by apply bool_decide_eq_true_2. }
  eapply runs_bind; [apply opt_malloc_runs|]. intros b1 c1 [bs1 ->].
  destruct b1; simpl; [|apply runs_ret; split; [by exists bs1|by left]].
  eapply runs_bind; [apply opt_malloc_runs|]. intros b2 c2 [bs2 ->].
  destruct b2; simpl; [do 2 (apply runs_fits; [lia|])|]; apply runs_ret; (split; [by exists bs2|]); [right|by left].
  unfold args_ok, args_list in *. simpl. rewrite Hn, Nat2Z.id, firstn_all.
  split_and!; [done| |done|done]. rewrite length_app. simpl. lia.
Qed.

Lemma insert_arg_runs args pos arg c : args_ok args -> 0 <= pos <= argc args ->
  runs (fuse_opt_insert_arg args pos arg) c (fun r c' => (exists bs, c' = set_allocs bs c) /\
    (r = (-1, args) \/ (r.1 = 0 /\ args_ok r.2 /\ args_list r.2 =
       take (Z.to_nat pos) (args_list args) ++ arg :: drop (Z.to_nat pos) (args_list args)))).
Proof.
  intros Ha Hpos. unfold fuse_opt_insert_arg, fuse_opt_insert_arg_common.
  apply runs_assert_bind; [apply Z.leb_le; lia|].
  eapply runs_bind; [by apply add_arg_runs|]. intros [r a] c1 [Hc1 Hcase].
  destruct Hcase as [[= -> ->]|(Hr & Ha1 & Hl)]; simpl in *; [apply runs_ret; auto|].
  subst r. simpl. destruct Ha as [Hn _], Ha1 as [Hn1 Hal1].
  rewrite Hl, length_app in Hn1. simpl in Hn1.
  assert (Hlen : Z.to_nat (argc a - 1) = length (args_list args)) by lia.
  destruct (Z.eqb_spec pos (argc a - 1)) as [He|He]; simpl.
  - apply runs_ret. split; [done|]. right. simpl.
    replace (Z.to_nat pos) with (length (args_list args)) by lia.
    rewrite take_ge, drop_ge by lia. split_and!; [done| |done].
    split; [rewrite Hl, length_app; simpl; lia|done].
  - unfold args_list in Hl at 1. destruct (argv a) as [l|] eqn:Hav; simpl in *;
      [|by destruct (args_list args)].
    apply runs_ret_bind. do 2 (apply runs_fits; [lia|]). apply runs_ret. split; [done|]. right. simpl. subst l.
    rewrite Hlen, take_app_length. unfold args_ok, args_list at 1 3. simpl.
    split_and!; [done| |intros _; by apply Hal1|done].
    rewrite length_app, length_take. simpl. rewrite length_drop. lia.
Qed.

(** [add_arg] adds the argument, or the context is as before. *)
Lemma ctx_add_arg arg c : ctx_ok c -> runs (add_arg arg) c (fun r c' => ctx_ok c' /\ grows c c' /\
  (r = -1 \/ 2 <= argc (c_outargs c'))).
Proof.
  intros Hc. apply runs_get_bind. eapply runs_bind; [apply add_arg_runs, (co_out _ Hc)|].
  intros [r a] c1 [[bs ->] Hcase]. apply runs_modify_bind, runs_ret.
  destruct (set_allocs_ok c bs Hc) as [Hc1 Hg1].
  assert (Ha : args_ok a /\ args_list (c_outargs c) `prefix_of` args_list a /\
    (r = -1 \/ 2 <= argc a)).
  { destruct Hcase as [[= -> ->]|(_ & Ha & Hl)]; simpl in *; [split_and!; [apply Hc|done|by left]|].
    split_and!; [done|rewrite Hl; by apply prefix_app_r|right].
    destruct Ha as [-> _]. rewrite Hl, length_app. simpl.
    pose proof (co_first _ Hc). pose proof (proj1 (co_out _ Hc)). lia. }
  destruct Ha as (Ha & Hp & Hr). destruct (set_outargs_ok _ a Hc1 Ha Hp) as [H1 H2].
  split_and!; [done|by etransitivity|done].
Qed.

Lemma safe_add_arg arg : safe (add_arg arg).
Proof.
  intros c Hc. eapply runs_mono; [by apply ctx_add_arg|]. intros r c' (H1 & H2 & _). done.
Qed.

Lemma safe_separator arg : safe (r ← add_arg arg; if r =? -1 then mret (-1)
  else modifyM (fun c => set_nonopt (argc (c_outargs c)) c);; mret 0).
Proof.
  intros c Hc. eapply runs_bind; [by apply ctx_add_arg|]. intros r c1 (Hc1 & Hg1 & Hr).
  destruct (Z.eqb_spec r (-1)); [by apply runs_ret|]. destruct Hr as [?|Hr]; [done|].
  apply runs_modify_bind, runs_ret. destruct Hc1, Hg1. split; split; simpl; try done.
  split; [by right|lia].
Qed.

Lemma safe_next_arg : forall c, ctx_ok c -> runs next_arg c (fun r c' => ctx_ok c' /\ grows c c' /\
  (r = -1 \/ 0 <= c_argctr c' < c_argc c')).
Proof.
  intros c Hc. unfold next_arg. apply runs_get_bind.
  destruct (Z.leb_spec (c_argc c) (c_argctr c + 1)); [apply runs_ret; split_and!; auto|].
  { done. }
  apply runs_put_bind, runs_ret. destruct Hc. split_and!; [by split; simpl; try lia| |simpl; lia].
  split; simpl; try done. lia.
Qed.

Lemma safe_set_opts o : safe (modifyM (set_opts o)).
Proof.
  intros c Hc. exists tt, (set_opts o c). split; [done|]. destruct Hc. by split; [split|].
Qed.

Lemma safe_add_opt opt : safe (add_opt opt).
Proof.
  apply safe_get. intros c Hc.
  destruct (add_opt_common_Ok (c_opts c) opt true c) as (bs & [r o] & E & _).
  destruct (set_allocs_ok c bs Hc) as [Hc1 Hg1]. eapply runs_Ok_bind; [exact E|]. eapply runs_mono.
  - assert (Hs : safe (modifyM (set_opts o);; mret r)) by eauto using safe_set_opts with safe.
    by apply Hs.
  - intros _ c2 [Hc2 Hg2]. split; [done|by etransitivity].
Qed.

Lemma safe_keep arg iso : safe (keep arg iso).
Proof. unfold keep. eauto using safe_add_opt, safe_add_arg with safe. Qed.

Lemma safe_call_proc arg key iso : safe (call_proc arg key iso).
Proof.
  unfold call_proc. apply safe_if; [apply safe_ret|]. apply safe_get. intros c Hc.
  destruct (c_proc c) as [proc|] eqn:Hp; [|by apply safe_keep].
  destruct (negb _); [|by apply safe_keep].
  destruct (proc (c_data c) arg key (c_outargs c)) as [[r d] a] eqn:Hr.
  destruct (co_proc _ Hc proc Hp _ _ _ _ _ _ _ (co_out _ Hc) Hr) as [Ha Hpre].
  apply runs_put_bind. destruct (set_outargs_ok c a Hc Ha Hpre) as [H1 H2].
  assert (H1' : ctx_ok (set_data d (set_outargs a c))) by (by destruct H1; split).
  assert (H2' : grows c (set_data d (set_outargs a c))) by (by destruct H2; split).
  eapply runs_mono.
  - assert (Hs : safe (if (r =? -1) || (r =? 0) then mret r else keep arg iso))
      by eauto using safe_keep with safe. by apply Hs.
  - intros _ c2 [Hc2 Hg2]. split; [done|by etransitivity].
Qed.
#[export] Hint Resolve safe_malloc safe_add_arg safe_add_opt safe_call_proc safe_keep : safe.

Section Parsing.
Variable sscanf : string -> string -> option optval.

(** A match with a separator is one on a template whose separator ends it or comes
    before a format. *)
Lemma match_template_format t arg sep : template_match t arg = Some sep -> sep <> O ->
  char_at (S sep) t = NUL \/ char_at (S sep) t = PERCENT.
Proof.
  unfold template_match. intros Hm Hsep.
  destruct (match strchr t EQUALS with Some i => Some i | None => strchr t SPACE end) as [i|];
    [|destruct (String.eqb t arg); by simplify_eq].
  destruct (Ascii.eqb (char_at (S i) t) NUL || Ascii.eqb (char_at (S i) t) PERCENT)%bool eqn:Hn.
  - assert (Hi : char_at (S i) t = NUL \/ char_at (S i) t = PERCENT).
    { apply orb_true_iff in Hn as [Hn|Hn]; apply Ascii.eqb_eq in Hn; auto. }
    destruct (_ && _); [by simplify_eq|].
    destruct (String.eqb t arg); by simplify_eq.
  - destruct (String.eqb t arg); by simplify_eq.
Qed.

Lemma safe_store off v : safe (store off v).
Proof. intros c Hc. exists tt. eexists. split; [done|]. destruct Hc. by split; [split|]. Qed.
Hint Resolve safe_store : safe.

Lemma char_at_from i j s : char_at i (Opt.from j s) = char_at (j + i) s.
Proof.
  unfold char_at. revert j. induction s as [|c s IH]; intros [|j]; simpl; done.
Qed.

(** Operations that read a string. *)
Lemma safe_peek {B} i s (k : Ascii.ascii -> P B) : (i <= String.length s)%nat ->
  safe (k (char_at i s)) -> safe (peek i s ≫= k).
Proof. intros Hi Hk c Hc. apply runs_peek; [done|by apply Hk]. Qed.

Lemma safe_tail_at {B} i s (k : string -> P B) : (i <= String.length s)%nat ->
  safe (k (Opt.from i s)) -> safe (tail_at i s ≫= k).
Proof. intros Hi Hk c Hc. unfold tail_at. rewrite (proj2 (Nat.leb_le _ _)) by done. by apply runs_ret_bind, Hk. Qed.

Lemma safe_head_at {B} i s (k : string -> P B) : (i <= String.length s)%nat ->
  safe (k (upto i s)) -> safe (head_at i s ≫= k).
Proof. intros Hi Hk c Hc. unfold head_at. rewrite (proj2 (Nat.leb_le _ _)) by done. by apply runs_ret_bind, Hk. Qed.

Lemma safe_fits {B} n size (k : unit -> P B) : 0 <= n <= size -> safe (k tt) -> safe (fits n size ≫= k).
Proof.
  intros Hn Hk c Hc. apply runs_fits; [done|by apply Hk].
Qed.

Lemma length_from i s : (i <= String.length s)%nat -> String.length (Opt.from i s) = (String.length s - i)%nat.
Proof. revert i. induction s as [|x s IH]; intros [|i]; cbn; try done; try lia. intros H. apply IH. lia. Qed.

Lemma length_upto i s : (i <= String.length s)%nat -> String.length (upto i s) = i.
Proof. revert i. induction s as [|x s IH]; intros [|i]; cbn; try done; try lia. intros H. by rewrite IH by lia. Qed.

(** A test that reads only when the one before it does not decide. *)
Lemma safe_test {B} (b : bool) x (m : P bool) (k : bool -> P B) :
  (b = true -> safe (k x)) -> (b = false -> safe (m ≫= k)) ->
  safe ((if b then mret x else m) ≫= k).
Proof.
  destruct b; intros H1 H2; [|by apply H2]. intros c Hc. apply runs_ret_bind. by apply H1.
Qed.

Lemma safe_process_opt_param off format param arg : char_at 0 format = PERCENT ->
  safe (process_opt_param sscanf off format param arg).
Proof.
  intros Hf. assert (Hl : (0 < String.length format)%nat) by (apply char_at_inside; by rewrite Hf).
  unfold process_opt_param. apply safe_peek; [lia|]. rewrite Hf. intros c Hc. apply runs_assert_bind; [done|].
  revert c Hc. change (safe (f1 ← peek 1 format;
    if Ascii.eqb f1 (ch 115) then
      ok ← malloc; if negb ok then mret (-1) else store off (VStr param);; mret 0
    else match sscanf param format with
         | Some v => store off v;; mret 0 | None => mret (-1) end)).
  apply safe_peek; [lia|]. apply safe_if; [eauto with safe|]. destruct (sscanf param format); eauto with safe.
Qed.

Lemma safe_process_opt o sep arg arg0 iso : template_match (templ o) arg0 = Some sep ->
  (sep <> O -> sep_fits (templ o) arg sep) -> safe (process_opt sscanf o sep arg iso).
Proof.
  intros Hm Hfit. unfold process_opt. apply safe_if; [eauto with safe|]. apply safe_test; intros Hs.
  { eauto with safe. }
  apply bool_decide_eq_false_1 in Hs. destruct (Hfit Hs) as (Ht & Ha & He).
  intros c Hc. apply runs_bind_assoc. revert c Hc. apply safe_peek; [lia|]. intros c Hc. apply runs_ret_bind. revert c Hc.
  destruct (Ascii.eqb_spec (char_at (S sep) (templ o)) NUL) as [|Hn]; cbn [negb]; [change (safe (store (offset o) (VInt (value o));; mret 0)); eauto with safe|].
  apply safe_tail_at; [done|]. apply safe_peek; [lia|].
  assert (Hk : forall param, safe (format ← tail_at (S sep) (templ o);
    r ← process_opt_param sscanf (offset o) format param arg; mret (if r =? -1 then -1 else 0))).
  { intros param. apply safe_tail_at; [lia|]. apply safe_bind; [|eauto with safe].
    apply safe_process_opt_param. rewrite char_at_from, Nat.add_0_r.
    by destruct (match_template_format _ _ _ Hm Hs). }
  destruct (Ascii.eqb_spec (char_at sep (templ o)) EQUALS) as [Heq|_].
  - specialize (He Heq). apply safe_tail_at; [rewrite length_from by done; lia|apply Hk].
  - intros c Hc. apply runs_ret_bind. by apply Hk.
Qed.

Lemma argv_lookup c i : ctx_ok c -> 0 <= i < c_argc c -> is_Some (c_argv c !! Z.to_nat i).
Proof. intros Hc Hi. apply lookup_lt_is_Some. rewrite (co_argv _ Hc) in Hi. lia. Qed.

(** Steps that take the next argument of the command line. *)
Lemma safe_next {A} (fail : A) (k : string -> P A) : (forall s, safe (k s)) ->
  safe (r ← next_arg; if r =? -1 then mret fail else
        c ← getM; s ← derefM (c_argv c !! Z.to_nat (c_argctr c)); k s).
Proof.
  intros Hk c Hc. eapply runs_bind; [by apply safe_next_arg|].
  intros r c1 (Hc1 & Hg1 & Hr). destruct (Z.eqb_spec r (-1)); [by apply runs_ret|].
  apply runs_get_bind.
  destruct Hr as [?|Hr]; [done|]. destruct (argv_lookup c1 _ Hc1 Hr) as [x Hx].
  eapply runs_deref_bind; [exact Hx|].
  eapply runs_mono; [by apply Hk|]. intros a c2 [Hc2 Hg2]. split; [done|by etransitivity].
Qed.

Lemma safe_process_opt_sep_arg o sep arg iso : template_match (templ o) arg = Some sep -> sep <> O ->
  char_at sep (templ o) = SPACE -> safe (process_opt_sep_arg sscanf o sep arg iso).
Proof.
  intros Hm Hs Hsp. pose proof (template_match_fits _ _ _ Hm Hs) as (Ht & Ha & _).
  apply safe_next. intros param. apply safe_bind; [eauto with safe|]. intros ok.
  apply safe_if; [eauto with safe|]. apply safe_fits; [lia|]. apply safe_head_at; [done|]. apply safe_fits; [lia|].
  eapply safe_process_opt; [exact Hm|]. intros _. split; [done|]. rewrite Hsp.
  rewrite string_app_length, length_upto by done. split; [lia|done].
Qed.

Lemma safe_process_gopt_loop opts arg iso : safe (process_gopt_loop sscanf opts arg iso).
Proof.
  induction opts as [|o opts IH]; cbn [process_gopt_loop]; [eauto with safe|].
  intros c Hc. eapply runs_Ok_bind; [apply match_template_Ok|]. revert c Hc.
  destruct (template_match (templ o) arg) as [sep|] eqn:Hm; [|exact IH].
  assert (Hone : safe (r ← process_opt sscanf o sep arg iso; if r =? -1 then mret (-1) else process_gopt_loop sscanf opts arg iso)).
  { apply safe_bind; [|eauto with safe]. eapply safe_process_opt; [exact Hm|]. by apply template_match_fits. }
  apply safe_test; intros Hs; [exact Hone|]. apply bool_decide_eq_false_1 in Hs.
  pose proof (template_match_fits _ _ _ Hm Hs) as (Ht & Ha & _).
  intros c Hc. apply runs_bind_assoc. revert c Hc. apply safe_peek; [lia|].
  destruct (Ascii.eqb_spec (char_at sep (templ o)) SPACE) as [Hsp|_].
  - intros c Hc. apply runs_bind_assoc. revert c Hc. apply safe_peek; [lia|]. intros c Hc. apply runs_ret_bind. revert c Hc.
    destruct (Ascii.eqb (char_at sep arg) NUL); [|exact Hone].
    apply safe_bind; [by apply safe_process_opt_sep_arg|eauto with safe].
  - intros c Hc. apply runs_ret_bind. by apply Hone.
Qed.

Lemma safe_process_gopt arg iso : safe (process_gopt sscanf arg iso).
Proof.
  apply safe_get. intros c Hc. eapply runs_Ok_bind; [apply find_opt_Ok|]. destruct (first_match (c_opt c) arg).
  - by apply safe_process_gopt_loop.
  - by apply safe_call_proc.
Qed.

Lemma safe_group_loop f : forall d s, (String.length s < f)%nat -> safe (group_loop sscanf f d s).
Proof.
  induction f as [|f IH]; intros d s Hf; [lia|]. destruct s as [|x s]; simpl.
  { eauto using safe_process_gopt with safe. }
  simpl in Hf. assert (Hs : forall d, safe (group_loop sscanf f d s)) by (intros; apply IH; lia).
  apply safe_if; [eauto using safe_process_gopt with safe|]. apply safe_if; [|done].
  destruct (unescape s) as [[x' s']|] eqn:Hu; [|done]. apply IH.
  apply unescape_length in Hu. lia.
Qed.

Lemma safe_process_option_group opts : safe (process_option_group sscanf opts).
Proof.
  unfold process_option_group. apply safe_bind; [eauto with safe|]. intros ok. apply safe_if; [eauto with safe|].
  intros c Hc. unfold runs. rewrite process_real_option_group_ref. apply safe_group_loop; [lia|done].
Qed.

(** What [process_one] does with an argument that starts with a dash. *)
Definition process_dashed (arg : string) : P Z :=
  a1 ← peek 1 arg;
  if Ascii.eqb a1 (ch 111) then
    a2 ← peek 2 arg;
    if negb (Ascii.eqb a2 NUL) then group ← tail_at 2 arg; process_option_group sscanf group
    else
      r ← next_arg;
      if r =? -1 then mret (-1)
      else
        c ← getM;
        next ← derefM (c_argv c !! Z.to_nat (c_argctr c));
        process_option_group sscanf next
  else
    separator ← (if Ascii.eqb a1 DASH then a2 ← peek 2 arg; mret (Ascii.eqb a2 NUL) else mret false);
    if separator : bool then
      r ← add_arg arg;
      if r =? -1 then mret (-1)
      else modifyM (fun c => set_nonopt (argc (c_outargs c)) c);; mret 0
    else process_gopt sscanf arg false.

Lemma safe_process_dashed arg : char_at 0 arg = DASH -> safe (process_dashed arg).
Proof.
  intros H0. assert (Hl0 : (0 < String.length arg)%nat) by (apply char_at_inside; by rewrite H0).
  unfold process_dashed. apply safe_peek; [lia|].
  assert (Hl1 : char_at 1 arg <> NUL -> (1 < String.length arg)%nat) by apply char_at_inside.
  destruct (Ascii.eqb_spec (char_at 1 arg) (ch 111)) as [H1|_].
  - assert (Hl : (1 < String.length arg)%nat) by (apply Hl1; by rewrite H1). apply safe_peek; [lia|].
    apply safe_if; [apply safe_tail_at; [lia|apply safe_process_option_group]|].
    apply safe_next. apply safe_process_option_group.
  - destruct (Ascii.eqb_spec (char_at 1 arg) DASH) as [H1|_].
    + assert (Hl : (1 < String.length arg)%nat) by (apply Hl1; by rewrite H1).
      intros c Hc. apply runs_bind_assoc. revert c Hc. apply safe_peek; [lia|]. intros c Hc. apply runs_ret_bind.
      revert c Hc. apply safe_if; [apply safe_separator|apply safe_process_gopt].
    + intros c Hc. apply runs_ret_bind. by apply safe_process_gopt.
Qed.

Lemma safe_process_one arg : safe (process_one sscanf arg).
Proof.
  apply safe_get. intros c0 Hc0.
  assert (H : safe (nonopt ← (if negb (c_nonopt c0 =? 0) then mret true
      else a0 ← peek 0 arg; mret (negb (Ascii.eqb a0 DASH)));
    if nonopt : bool then call_proc arg FUSE_OPT_KEY_NONOPT false else process_dashed arg)).
  { apply safe_test; intros _; [apply safe_call_proc|]. intros c Hc. apply runs_bind_assoc. revert c Hc.
    apply safe_peek; [lia|]. intros c Hc. apply runs_ret_bind. revert c Hc.
    destruct (Ascii.eqb_spec (char_at 0 arg) DASH) as [Hd|_]; cbn [negb]; [|apply safe_call_proc].
    by apply safe_process_dashed. }
  by apply H.
Qed.

(** Every round uses up an argument. *)
Lemma safe_parse_loop f : forall c, ctx_ok c -> c_argc c - c_argctr c <= Z.of_nat f ->
  runs (parse_loop sscanf f) c (fun _ c' => ctx_ok c' /\ grows c c').
Proof.
  induction f as [|f IH]; intros c Hc Hf; simpl; apply runs_get_bind;
    destruct (Z.ltb_spec (c_argctr c) (c_argc c)); try (by apply runs_ret); [lia|].
  destruct (argv_lookup c (c_argctr c) Hc) as [x Hx]; [pose proof (co_ctr _ Hc); lia|].
  eapply runs_deref_bind; [exact Hx|]. eapply runs_bind; [by apply safe_process_one|].
  intros r c1 [Hc1 Hg1]. destruct (r =? -1); [by apply runs_ret|].
  apply runs_modify_bind. set (c2 := set_argctr _ c1).
  assert (Hc2 : ctx_ok c2) by (destruct Hc1; split; simpl; try done; lia).
  assert (Hg2 : grows c c2).
  { destruct Hg1. split; simpl; try done. lia. }
  eapply runs_mono; [apply IH; [done|]|].
  - destruct Hg1. simpl. lia.
  - intros a c3 [Hc3 Hg3]. split; [done|by etransitivity].
Qed.

(** The context [fuse_opt_parse] starts from, and after its first argument. *)
Definition start (allocs : list bool) (d : data) (opts : list fuse_opt)
    (proc : option fuse_opt_proc_t) (l : list string) : fuse_opt_context :=
  mk_octx d opts proc 0 (Z.of_nat (length l)) l args0 None 0 allocs.

Lemma first_arg_runs allocs d opts proc arg0 l :
  (forall p, proc = Some p -> proc_ok p) ->
  runs (add_arg arg0) (start allocs d opts proc (arg0 :: l)) (fun r c =>
    r = -1 \/ (ctx_ok (set_argctr 1 c) /\ c_argv c = arg0 :: l /\
               args_list (c_outargs c) = [arg0] /\ c_argc c = Z.of_nat (length (arg0 :: l)))).
Proof.
  intros Hp. apply runs_get_bind. eapply runs_bind; [by apply add_arg_runs|].
  intros [r a] c1 [[bs ->] [[= -> ->]|(Hr & Ha & Hl)]]; apply runs_modify_bind, runs_ret;
    [by left|right]. simpl in *. subst r. split_and!; try done.
  destruct Ha as [Hn Hal]. rewrite Hl in Hn. simpl in Hn.
  split; simpl; try done; [by split; [rewrite Hl|]|lia|split; [by left|lia]].
Qed.

Lemma length_middle {A} n (x : A) l : length (take n l ++ x :: drop n l) = S (length l).
Proof. rewrite <- (take_drop n l) at 3. rewrite !length_app. simpl. lia. Qed.

Lemma insert_opts_runs o c : ctx_ok c -> runs (insert_opts o) c (fun r c' =>
  r = -1 \/ (args_ok (c_outargs c') /\ 1 <= argc (c_outargs c') /\
    (c_nonopt c' = 0 \/ 2 <= c_nonopt c') /\ c_nonopt c' <= argc (c_outargs c') /\
    args_list (c_outargs c') !! O = args_list (c_outargs c) !! O)).
Proof.
  intros Hc. apply runs_get_bind. pose proof (co_first _ Hc) as Hf.
  eapply runs_bind; [apply insert_arg_runs; [apply Hc|lia]|].
  intros [r a] c1 [[bs ->] Hcase]. apply runs_modify_bind.
  destruct Hcase as [[= -> ->]|(Hr & Ha & Hl)]; simpl in *; [apply runs_ret; by left|].
  subst r. simpl. pose proof (proj1 (co_out _ Hc)) as Hn.
  assert (Hlen : argc a = argc (c_outargs c) + 1).
  { destruct Ha as [-> _]. rewrite Hl, (length_middle 1). lia. }
  eapply runs_bind; [apply insert_arg_runs; [done|lia]|].
  intros [r2 a2] c2 [[bs2 ->] Hcase2]. apply runs_modify_bind, runs_ret.
  destruct Hcase2 as [[= -> ->]|(Hr2 & Ha2 & Hl2)]; simpl in *; [by left|right].
  destruct (co_nonopt _ Hc) as [Hno1 Hno2]. subst r2.
  assert (Hlen2 : argc (c_outargs c) <= argc a2).
  { destruct Ha2 as [-> _]. rewrite Hl2, (length_middle 2), Hl, (length_middle 1). lia. }
  split_and!; [done|lia|done|lia|].
  rewrite Hl2, Hl. destruct (args_list (c_outargs c)) as [|x l]; simpl in *; [lia|done].
Qed.

Lemma drop_separator_runs c : args_ok (c_outargs c) ->
  (c_nonopt c = 0 \/ 2 <= c_nonopt c) -> runs drop_separator c (fun _ c' =>
    args_ok (c_outargs c') /\ args_list (c_outargs c') !! O = args_list (c_outargs c) !! O).
Proof.
  intros [Hn Hal] Hno. unfold drop_separator. apply runs_get_bind.
  destruct (negb (c_nonopt c =? 0) && (c_nonopt c =? argc (c_outargs c))) eqn:Hb;
    [|by apply runs_ret].
  apply andb_true_iff in Hb as [H1 H2]. apply negb_true_iff, Z.eqb_neq in H1.
  apply Z.eqb_eq in H2. unfold args_ok, args_list in *.
  destruct (argv (c_outargs c)) as [l|] eqn:Hl; simpl in *; [|lia].
  apply runs_ret_bind. destruct (lookup_lt_is_Some_2 l (Z.to_nat (argc (c_outargs c) - 1)))
    as [x Hx]; [lia|]. eapply runs_deref_bind; [exact Hx|].
  destruct (String.eqb x "--"); [|apply runs_ret; rewrite Hl; done].
  exists tt. eexists. split; [done|]. simpl. split_and!.
  - rewrite length_take. lia.
  - intros _. by apply Hal.
  - rewrite lookup_take_lt by lia. done.
Qed.

Lemma opt_parse_runs allocs d opts proc arg0 l : (forall p, proc = Some p -> proc_ok p) ->
  runs (opt_parse sscanf) (start allocs d opts proc (arg0 :: l)) (fun r c =>
    r = -1 \/ (r = 0 /\ args_ok (c_outargs c) /\ args_list (c_outargs c) !! O = Some arg0)).
Proof.
  intros Hp. unfold opt_parse. apply runs_get_bind.
  replace (c_argc _ =? 0) with false by (symmetry; apply Z.eqb_neq; simpl; lia).
  cbv beta iota delta [negb]. apply runs_bind_assoc. apply runs_ret_bind.
  eapply runs_bind; [by apply first_arg_runs|]. intros r c1 Hc1.
  destruct (Z.eqb_spec r (-1)) as [->|Hr]; [apply runs_ret; by left|].
  destruct Hc1 as [?|(Hc1 & Hv & Hl & Hn)]; [done|].
  apply runs_modify_bind. eapply runs_bind.
  { apply safe_parse_loop; [done|]. rewrite !Hn || idtac. simpl. simpl in Hn. lia. }
  intros r2 c2 [Hc2 Hg2]. destruct (r2 =? -1); [apply runs_ret; by left|].
  apply runs_get_bind.
  assert (Hhead : args_list (c_outargs c2) !! O = Some arg0).
  { pose proof (gr_out _ _ Hg2) as Hpre. simpl in Hpre. rewrite Hl in Hpre.
    by apply (prefix_lookup_Some _ _ O arg0) in Hpre. }
  apply runs_bind with (P := fun r c => r = -1 \/ (args_ok (c_outargs c) /\
    1 <= argc (c_outargs c) /\ (c_nonopt c = 0 \/ 2 <= c_nonopt c) /\
    c_nonopt c <= argc (c_outargs c) /\ args_list (c_outargs c) !! O = Some arg0)).
  { destruct (c_opts c2) as [o|].
    - eapply runs_mono; [by apply insert_opts_runs|]. by rewrite Hhead.
    - apply runs_ret. right. destruct (co_nonopt _ Hc2).
      split_and!; [apply Hc2|apply Hc2|done|done|done]. }
  intros r3 c3 Hc3. destruct (Z.eqb_spec r3 (-1)) as [->|Hr3]; [apply runs_ret; by left|].
  destruct Hc3 as [?|(Ha3 & _ & Hno3 & _ & Hh3)]; [done|].
  eapply runs_bind; [by apply drop_separator_runs|]. intros [] c4 [Ha4 Hh4].
  apply runs_ret. right. split_and!; [done|done|congruence].
Qed.
End Parsing.

(** ** Properties *)

(** C18: Options collected with [fuse_opt_add_opt_escaped] and then parsed as a group come
    out one by one, in order and unchanged, commas and backslashes included. *)
Theorem option_group_roundtrip sscanf l o c : Forall (fun o => o <> ""%string) l ->
  Forall c_string (l ++ [o]) -> c_allocs c = [] ->
  fuse_opt_add_opt_escaped (collected l) o c = Ok ((0, collected (l ++ [o])), c) /\
  forall s c', collected (l ++ [o]) = Some s ->
    process_real_option_group sscanf (strdup s) c' = process_all sscanf (l ++ [o]) c'.
Proof.
  intros Hne Hc Hal. split; [by apply add_opt_collected|].
  intros s c' Hs. assert (Hl : l ++ [o] <> []) by (by destruct l).
  unfold collected in Hs. destruct (l ++ [o]) as [|x l'] eqn:Hx; [done|]. injection Hs as <-.
  rewrite process_real_option_group_ref, cstr_id by exact (c_string_joined (x :: l') Hc).
  exact (group_joined sscanf (x :: l') _ c' Hl Hc (Nat.lt_succ_diag_r _)).
Qed.

(** C17: [fuse_opt_parse] ends, without a failed assertion, a read beyond the end of a
    string or of an argument list, or a write outside the memory allocated for it, for
    every command line, every set of templates and every processing function that at most
    adds arguments, whatever allocations fail.  It returns -1 with the arguments as they
    were, or 0 with a proper argument list that still starts with the program's name. *)
Theorem fuse_opt_parse_safe sscanf allocs a l d opts proc :
  argv a = Some l -> argc a = Z.of_nat (length l) ->
  (forall p, proc = Some p -> proc_ok p) ->
  exists r args' d', fuse_opt_parse sscanf allocs (Some a) d opts proc = Ok (r, args', d') /\
    ((r = -1 /\ args' = Some a) \/
     (r = 0 /\ exists a', args' = Some a' /\ args_list a' !! O = l !! O /\
                 (argc a = 0 \/ args_ok a'))).
Proof.
  intros Hl Hn Hp. unfold fuse_opt_parse. rewrite Hl.
  destruct (Z.eqb_spec (argc a) 0) as [H0|H0].
  { exists 0, (Some a), d. split; [done|]. right. split; [done|]. exists a.
    split_and!; [done| |by left]. unfold args_list. by rewrite Hl. }
  destruct l as [|arg0 l]; [simpl in Hn; lia|]. rewrite Hn.
  fold (start allocs d opts proc (arg0 :: l)).
  destruct (opt_parse_runs sscanf allocs d opts proc arg0 l Hp) as (r & c & -> & Hcase).
  destruct (Z.eqb_spec r (-1)) as [->|Hr]; simpl.
  - exists (-1), (Some a), (c_data c). split; [done|]. by left.
  - destruct Hcase as [?|(-> & Ha & Hh)]; [done|].
    exists 0, (Some (c_outargs c)), (c_data c). split; [done|]. right. split; [done|].
    exists (c_outargs c). split_and!; [done|done|by right].
Qed.

(** An argument that is neither [-o...] nor the separator. *)
Definition plain (opts : list fuse_opt) (s : string) : Prop :=
  (char_at 0 s <> DASH \/
   (char_at 1 s <> ch 111 /\ (char_at 1 s <> DASH \/ char_at 2 s <> NUL))) /\
  fuse_opt_match opts s = Ok 0.

Section Kept.
Variable sscanf : string -> string -> option optval.
Variables (d : data) (opts : list fuse_opt) (argv0 : list string).

(** The context after [n] arguments have been kept. *)
Definition kept (n : nat) : fuse_opt_context :=
  mk_octx d opts None (Z.of_nat n) (Z.of_nat (length argv0)) argv0
    (mk_args (Z.of_nat n) (Some (take n argv0)) true) None 0 [].

Lemma keep_one n s : argv0 !! n = Some s -> plain opts s ->
  process_one sscanf s (kept n) =
    Ok (0, set_argctr (Z.of_nat n) (kept (S n))).
Proof.
  intros Hs [Hp Hf].
  assert (Hkeep : forall key, key = FUSE_OPT_KEY_NONOPT \/ key = FUSE_OPT_KEY_OPT ->
    call_proc s key false (kept n) = Ok (0, set_argctr (Z.of_nat n) (kept (S n)))).
  { intros key [-> | ->]; unfold call_proc, keep, add_arg, fuse_opt_add_arg, kept; simpl;
      unfold mbind, M_bind, getM; simpl; rewrite !fits_Ok by lia;
      rewrite ?Nat2Z.id, ?take_take, ?Nat.min_id; unfold set_argctr, set_outargs; simpl;
      rewrite (take_S_r _ _ _ Hs);
      replace (Z.of_nat n + 1) with (Z.of_nat (S n)) by lia; done. }
  apply fuse_opt_match_none in Hf.
  assert (Hg : process_gopt sscanf s false (kept n) = Ok (0, set_argctr (Z.of_nat n) (kept (S n)))).
  { unfold process_gopt, mbind, M_bind, getM. rewrite find_opt_Ok. change (c_opt (kept n)) with opts. rewrite Hf. apply Hkeep. by right. }
  unfold process_one, mbind, M_bind, getM. change (negb (c_nonopt (kept n) =? 0)) with false. cbv beta iota.
  rewrite peek_Ok by lia. cbn [mret M_ret].
  destruct (Ascii.eqb_spec (char_at 0 s) DASH) as [H0|H0]; cbn [negb]; [|apply Hkeep; by left].
  destruct Hp as [?|[H1 H2]]; [done|].
  assert (Hl : (1 <= String.length s)%nat) by (apply char_at_inside; by rewrite H0).
  cbv beta. rewrite peek_Ok by done. destruct (Ascii.eqb_spec (char_at 1 s) (ch 111)); [done|].
  destruct (Ascii.eqb_spec (char_at 1 s) DASH) as [Hd|]; [|exact Hg].
  assert (Hl2 : (2 <= String.length s)%nat) by (apply char_at_inside; by rewrite Hd).
  cbv beta. rewrite peek_Ok by done. destruct H2 as [?|H2]; [done|]. cbn [mret M_ret].
  by rewrite (proj2 (Ascii.eqb_neq _ _) H2).
Qed.

Lemma keep_all f : forall n, (1 <= n)%nat -> (n + f)%nat = length argv0 ->
  Forall (plain opts) (drop n argv0) ->
  parse_loop sscanf (f + 1) (kept n) = Ok (0, kept (length argv0)).
Proof.
  induction f as [|f IH]; intros n Hn Hlen Hall; simpl; unfold mbind, M_bind, getM; simpl.
  - rewrite (proj2 (Z.ltb_ge _ _)) by lia. by rewrite <- Hlen, Nat.add_0_r.
  - rewrite (proj2 (Z.ltb_lt _ _)) by lia. rewrite Nat2Z.id.
    destruct (lookup_lt_is_Some_2 argv0 n) as [s Hs]; [lia|]. rewrite Hs. simpl.
    rewrite (drop_S _ _ _ Hs) in Hall. apply Forall_cons in Hall as [Hp Hall].
    rewrite keep_one by done. simpl.
    change (set_argctr _ (set_argctr _ (kept (S n)))) with
      (set_argctr (Z.of_nat n + 1) (kept (S n))).
    replace (set_argctr (Z.of_nat n + 1) (kept (S n))) with (kept (S n))
      by (unfold set_argctr, kept; simpl; f_equal; lia).
    apply IH; [lia|lia|done].
Qed.

End Kept.

Lemma opt_parse_kept sscanf d opts arg0 l : Forall (plain opts) l ->
  opt_parse sscanf (start [] d opts None (arg0 :: l)) =
    Ok (0, kept d opts (arg0 :: l) (S (length l))).
Proof.
  intros Hall.
  pose proof (keep_all sscanf d opts (arg0 :: l) (length l) 1 ltac:(lia) eq_refl Hall) as Hk.
  assert (Hadd : add_arg arg0 (start [] d opts None (arg0 :: l)) =
    Ok (0, set_argctr 0 (kept d opts (arg0 :: l) 1))) by done.
  unfold opt_parse. unfold mbind, M_bind, getM.
  replace (c_argc (start [] d opts None (arg0 :: l)) =? 0) with false
    by (symmetry; apply Z.eqb_neq; simpl; lia).
  cbn [negb]. cbn [start c_argv lookup list_lookup derefM mret M_ret].
  fold (start [] d opts None (arg0 :: l)). rewrite Hadd. cbn [Z.eqb modifyM].
  replace (Z.to_nat (c_argc (start [] d opts None (arg0 :: l)))) with (length l + 1)%nat
    by (simpl; lia).
  change (set_argctr 1 (set_argctr 0 (kept d opts (arg0 :: l) 1))) with (kept d opts (arg0 :: l) 1).
  rewrite Hk. done.
Qed.

(** C19: Without a processing function and with the memory it asks for, [fuse_opt_parse]
    keeps a command line of arguments that match no template and are neither option
    groups nor the separator, in order, and does not touch the user's data. *)
Theorem fuse_opt_parse_keeps sscanf a arg0 l d opts :
  argv a = Some (arg0 :: l) -> argc a = Z.of_nat (length (arg0 :: l)) ->
  Forall (plain opts) l ->
  fuse_opt_parse sscanf [] (Some a) d opts None =
    Ok (0, Some (mk_args (argc a) (argv a) true), d).
Proof.
  intros Hl Hn Hall. unfold fuse_opt_parse. rewrite Hl, Hn.
  destruct (Z.eqb_spec (Z.of_nat (length (arg0 :: l))) 0) as [?|_]; [simpl in *; lia|].
  fold (start [] d opts None (arg0 :: l)).
  rewrite (opt_parse_kept sscanf d opts arg0 l Hall). simpl. by rewrite firstn_all.
Qed.

(** An option with the template [name=%s] stores the text after the equals sign, as
    it is, at its offset, and nowhere else. *)
Theorem string_option_stored sscanf name v off val iso c :
  name <> ""%string -> strchr name EQUALS = None -> off <> OFFSET_KEY ->
  c_opt c = [mk_opt (name +:+ "=%s") off val] -> c_allocs c = [] ->
  process_gopt sscanf (name +:+ String EQUALS v) iso c =
    Ok (0, set_data (<[off := VStr v]> (c_data c)) c).
Proof.
  intros Hne Hno Hoff Hopt Hal.
  assert (Hsep : strchr (name +:+ "=%s") EQUALS = Some (String.length name)).
  { clear Hne Hopt. induction name as [|x name IH]; [reflexivity|].
    rewrite string_app_cons. cbn [strchr] in *.
    destruct (Ascii.eqb EQUALS x); [done|].
    destruct (strchr name EQUALS) eqn:E; [done|]. by rewrite (IH eq_refl). }
  set (k := String.length name) in *.
  assert (Hch : forall s, char_at k (name +:+ s) = char_at 0 s).
  { intros s. replace k with (String.length name + 0)%nat by (unfold k; lia). apply char_at_app. }
  assert (Hch1 : char_at (S k) (name +:+ "=%s") = PERCENT).
  { replace (S k) with (String.length name + 1)%nat by (unfold k; lia). by rewrite char_at_app. }
  assert (Hfrom : forall x s, Opt.from (S k) (name +:+ String x s) = s).
  { intros x s. unfold k. clear. induction name as [|y name IH]; [done|exact IH]. }
  assert (Hup : forall s, upto (S k) (name +:+ String EQUALS s) = name +:+ "=").
  { intros s. unfold k. clear. induction name as [|x name IH]; [by destruct s|].
    rewrite !string_app_cons. simpl in *. by rewrite IH. }
  assert (Hm : template_match (name +:+ "=%s") (name +:+ String EQUALS v) = Some k).
  { unfold template_match. rewrite Hsep, Hch1, Hch.
    change (Ascii.eqb PERCENT NUL || Ascii.eqb PERCENT PERCENT)%bool with true.
    change (Ascii.eqb (char_at 0 "=%s") EQUALS) with true. cbv iota.
    assert (Hlen : (S k <=? String.length (name +:+ String EQUALS v))%nat = true).
    { apply Nat.leb_le. rewrite string_app_length. fold k. simpl. lia. }
    change "=%s"%string with (String EQUALS "%s"). rewrite Hlen, !Hup, String.eqb_refl. done. }
  assert (Hk : k <> O) by (unfold k; by destruct name).
  assert (Hl1 : String.length (name +:+ "=%s") = (k + 3)%nat) by (by rewrite string_app_length).
  assert (Hl2 : String.length (name +:+ String EQUALS v) = (k + S (String.length v))%nat) by (by rewrite string_app_length).
  unfold process_gopt, mbind, M_bind, getM. rewrite find_opt_Ok, Hopt. cbn [first_match templ]. rewrite Hm.
  cbn [process_gopt_loop templ]. unfold mbind, M_bind. rewrite match_template_Ok, Hm, bool_decide_eq_false_2 by done.
  rewrite peek_Ok, Hch by lia. change (Ascii.eqb (char_at 0 "=%s") SPACE) with false. cbn [mret M_ret].
  unfold process_opt. cbn [offset templ value]. rewrite (proj2 (Z.eqb_neq _ _)), bool_decide_eq_false_2 by done.
  unfold mbind, M_bind. cbv beta iota. rewrite peek_Ok, Hch1 by lia. cbn [negb Ascii.eqb mret M_ret].
  change (Ascii.eqb PERCENT NUL) with false. cbn [negb]. rewrite tail_at_Ok by lia. rewrite peek_Ok, Hch by lia.
  change (Ascii.eqb (char_at 0 "=%s") EQUALS) with true. unfold k at 1. rewrite from_app.
  rewrite tail_at_Ok by (cbn; lia). rewrite tail_at_Ok by lia. change "=%s"%string with (String EQUALS "%s"). rewrite Hfrom.
  unfold process_opt_param, malloc, mbind, M_bind, getM. simpl. by rewrite Hal.
Qed.

(** ** The hypotheses can hold *)
Definition no_sscanf (param format : string) : option optval := None.
Definition ex_ctx (opts : list fuse_opt) : fuse_opt_context :=
  mk_octx ∅ opts None 1 1 ["prog"] (mk_args 1 (Some ["prog"]) true) None 0 [].

Lemma option_group_roundtrip_witness :
  fuse_opt_add_opt_escaped (collected ["a,b"]) "c\" (ex_ctx []) =
    Ok ((0, collected ["a,b"; "c\"]), ex_ctx []) /\
  forall s c', collected ["a,b"; "c\"] = Some s ->
    process_real_option_group no_sscanf (strdup s) c' = process_all no_sscanf ["a,b"; "c\"] c'.
Proof.
  apply (option_group_roundtrip no_sscanf ["a,b"%string] "c\"%string (ex_ctx [])).
  - by repeat constructor.
  - apply (bool_decide_unpack _). vm_compute. exact I.
  - reflexivity.
Defined.

(** The function that keeps what it is given and never adds anything. *)
Definition keep_proc : fuse_opt_proc_t := fun d _ _ a => (1, d, a).

Lemma keep_proc_ok : proc_ok keep_proc.
Proof. intros d arg key a r d' a' Ha [= <- <- <-]. by split. Qed.

Definition ex_args : fuse_args := mk_args 4 (Some ["prog"; "-o"; "x=1,y"; "file"]) false.

Lemma fuse_opt_parse_safe_witness :
  exists r args' d',
    fuse_opt_parse no_sscanf [true; true; false] (Some ex_args) ∅
      [mk_opt "x=%s" 8 0] (Some keep_proc) = Ok (r, args', d') /\
    ((r = -1 /\ args' = Some ex_args) \/
     (r = 0 /\ exists a', args' = Some a' /\
        args_list a' !! O = ["prog"; "-o"; "x=1,y"; "file"] !! O /\ (argc ex_args = 0 \/ args_ok a'))).
Proof.
  apply (fuse_opt_parse_safe no_sscanf [true; true; false] ex_args
    ["prog"; "-o"; "x=1,y"; "file"] ∅ [mk_opt "x=%s" 8 0] (Some keep_proc)).
  - reflexivity.
  - reflexivity.
  - intros p [= <-]. apply keep_proc_ok.
Defined.

Lemma fuse_opt_parse_keeps_witness :
  fuse_opt_parse no_sscanf [] (Some (mk_args 3 (Some ["prog"; "-f"; "mnt"]) false)) ∅
    [mk_opt "x=%s" 8 0] None =
  Ok (0, Some (mk_args 3 (Some ["prog"; "-f"; "mnt"]) true), ∅).
Proof.
  apply (fuse_opt_parse_keeps no_sscanf (mk_args 3 (Some ["prog"; "-f"; "mnt"]) false) "prog"
    ["-f"; "mnt"]); [reflexivity|reflexivity|].
  constructor; [|constructor; [|constructor]]; split.
  - right. split; [discriminate|]. left. discriminate.
  - reflexivity.
  - left. discriminate.
  - reflexivity.
Defined.

Lemma string_option_stored_witness :
  process_gopt no_sscanf "fsname=a,b" true (ex_ctx [mk_opt "fsname=%s" 8 0]) =
    Ok (0, set_data (<[8 := VStr "a,b"]> ∅) (ex_ctx [mk_opt "fsname=%s" 8 0])).
Proof.
  apply (string_option_stored no_sscanf "fsname" "a,b" 8 0 true (ex_ctx [mk_opt "fsname=%s" 8 0]));
    [discriminate|reflexivity|discriminate|reflexivity|reflexivity].
Defined.

(** An octal escape, rewritten in place, ends up in the value that is stored. *)
Example octal_escape :
  fuse_opt_parse no_sscanf [] (Some (mk_args 2 (Some ["prog"; "-ox=a\054b,y"]) false)) ∅ [mk_opt "x=%s" 8 0] None =
  Ok (0, Some (mk_args 3 (Some ["prog"; "-o"; "y"]) true), <[8 := VStr "a,b"]> ∅).
Proof. reflexivity. Qed.

(** The separator at the end goes away, but not when there are options to insert: their
    two arguments come before it and the position kept for it no longer fits. *)
Example separator_dropped :
  fuse_opt_parse no_sscanf [] (Some (mk_args 2 (Some ["prog"; "--"]) false)) ∅ [] None =
  Ok (0, Some (mk_args 1 (Some ["prog"]) true), ∅).
Proof. reflexivity. Qed.

Example separator_left :
  fuse_opt_parse no_sscanf [] (Some (mk_args 4 (Some ["prog"; "-o"; "a"; "--"]) false)) ∅ [] None =
  Ok (0, Some (mk_args 4 (Some ["prog"; "-o"; "a"; "--"]) true), ∅).
Proof. reflexivity. Qed.
