(* ===== verification/LLTypes.v ===== *)
(** * Data of the low-level library (lib/fuse_i.h, fuse_lowlevel.c, fuse_loop_mt.c)

    Requests, channels, the session and the pipe of a thread, and the calls to the
    file system.  An object is known by its address, with 0 for NULL. *)
From S2P Require Import Prelude PosixLock Types Buf.
#[local] Open Scope Z_scope.

(** [struct fuse_ctx]. *)
Record fuse_ctx : Type := mk_ctx {
  c_uid : Z;
  c_gid : Z;
  c_pid : Z;
  c_umask : Z;
}.

Definition set_c_umask (v : Z) (r : fuse_ctx) : fuse_ctx :=
  mk_ctx (c_uid r) (c_gid r) (c_pid r) v.

(** Where the [next] and [prev] of a request point: to itself, into one of the two
    lists of the session, or to neighbours it has been removed from. *)
Inductive chain : Type :=
| Alone
| OnList
| OnInterrupts
| Removed.

#[global] Instance chain_eq_dec : EqDecision chain.
Proof. solve_decision. Defined.

(** [struct fuse_req].  [u] is a union: [u.i.unique] and [u.ni.func] are its first
    word, [u.ni.data] its second. *)
Record fuse_req : Type := mk_req {
  r_unique : Z;
  r_ctr : Z;
  r_locked : bool;
  r_ctx : fuse_ctx;
  r_ch : Z;
  r_interrupted : bool;
  r_ioctl_64bit : bool;
  r_u0 : Z;
  r_u1 : Z;
  r_chain : chain;
}.

Definition set_r_unique (v : Z) (r : fuse_req) : fuse_req :=
  mk_req v (r_ctr r) (r_locked r) (r_ctx r) (r_ch r) (r_interrupted r)
    (r_ioctl_64bit r) (r_u0 r) (r_u1 r) (r_chain r).
Definition set_r_ctr (v : Z) (r : fuse_req) : fuse_req :=
  mk_req (r_unique r) v (r_locked r) (r_ctx r) (r_ch r) (r_interrupted r)
    (r_ioctl_64bit r) (r_u0 r) (r_u1 r) (r_chain r).
Definition set_r_locked (v : bool) (r : fuse_req) : fuse_req :=
  mk_req (r_unique r) (r_ctr r) v (r_ctx r) (r_ch r) (r_interrupted r)
    (r_ioctl_64bit r) (r_u0 r) (r_u1 r) (r_chain r).
Definition set_r_ctx (v : fuse_ctx) (r : fuse_req) : fuse_req :=
  mk_req (r_unique r) (r_ctr r) (r_locked r) v (r_ch r) (r_interrupted r)
    (r_ioctl_64bit r) (r_u0 r) (r_u1 r) (r_chain r).
Definition set_r_ch (v : Z) (r : fuse_req) : fuse_req :=
  mk_req (r_unique r) (r_ctr r) (r_locked r) (r_ctx r) v (r_interrupted r)
    (r_ioctl_64bit r) (r_u0 r) (r_u1 r) (r_chain r).
Definition set_r_interrupted (v : bool) (r : fuse_req) : fuse_req :=
  mk_req (r_unique r) (r_ctr r) (r_locked r) (r_ctx r) (r_ch r) v
    (r_ioctl_64bit r) (r_u0 r) (r_u1 r) (r_chain r).
Definition set_r_u0 (v : Z) (r : fuse_req) : fuse_req :=
  mk_req (r_unique r) (r_ctr r) (r_locked r) (r_ctx r) (r_ch r)
    (r_interrupted r) (r_ioctl_64bit r) v (r_u1 r) (r_chain r).
Definition set_r_u1 (v : Z) (r : fuse_req) : fuse_req :=
  mk_req (r_unique r) (r_ctr r) (r_locked r) (r_ctx r) (r_ch r)
    (r_interrupted r) (r_ioctl_64bit r) (r_u0 r) v (r_chain r).
Definition set_r_chain (v : chain) (r : fuse_req) : fuse_req :=
  mk_req (r_unique r) (r_ctr r) (r_locked r) (r_ctx r) (r_ch r)
    (r_interrupted r) (r_ioctl_64bit r) (r_u0 r) (r_u1 r) v.

(** [calloc]. *)
Definition req0 : fuse_req := mk_req 0 0 false (mk_ctx 0 0 0 0) 0 false false 0 0 Alone.

(** [struct fuse_chan]. *)
Record fuse_chan : Type := mk_chan { ch_ctr : Z; ch_fd : Z }.

(** [struct fuse_pollhandle]; there is one session. *)
Record fuse_pollhandle : Type := mk_ph { kh : Z }.

(** [struct fuse_retrieve_req] with the [unique] of its [nreq], the only kind of
    notification that waits for a reply. *)
Record fuse_retrieve_req : Type := mk_rreq { nr_unique : Z; cookie : Z }.

(** [struct fuse_ll_pipe]. *)
Record fuse_ll_pipe : Type := mk_pipe {
  p_size : Z; can_grow : bool; pipe_rd : Z; pipe_wr : Z;
}.

(** [struct fuse_conn_info] (include/fuse_common.h). *)
Record fuse_conn_info : Type := mk_conn {
  proto_major : Z;
  proto_minor : Z;
  max_write : Z;
  max_read : Z;
  max_readahead : Z;
  capable : Z;
  want : Z;
  max_background : Z;
  congestion_threshold : Z;
  time_gran : Z;
}.

Definition set_proto_major (v : Z) (r : fuse_conn_info) : fuse_conn_info :=
  mk_conn v (proto_minor r) (max_write r) (max_read r) (max_readahead r)
    (capable r) (want r) (max_background r) (congestion_threshold r)
    (time_gran r).
Definition set_proto_minor (v : Z) (r : fuse_conn_info) : fuse_conn_info :=
  mk_conn (proto_major r) v (max_write r) (max_read r) (max_readahead r)
    (capable r) (want r) (max_background r) (congestion_threshold r)
    (time_gran r).
Definition set_max_write (v : Z) (r : fuse_conn_info) : fuse_conn_info :=
  mk_conn (proto_major r) (proto_minor r) v (max_read r) (max_readahead r)
    (capable r) (want r) (max_background r) (congestion_threshold r)
    (time_gran r).
Definition set_max_readahead (v : Z) (r : fuse_conn_info) : fuse_conn_info :=
  mk_conn (proto_major r) (proto_minor r) (max_write r) (max_read r) v
    (capable r) (want r) (max_background r) (congestion_threshold r)
    (time_gran r).
Definition set_capable (v : Z) (r : fuse_conn_info) : fuse_conn_info :=
  mk_conn (proto_major r) (proto_minor r) (max_write r) (max_read r)
    (max_readahead r) v (want r) (max_background r)
    (congestion_threshold r) (time_gran r).
Definition set_want (v : Z) (r : fuse_conn_info) : fuse_conn_info :=
  mk_conn (proto_major r) (proto_minor r) (max_write r) (max_read r)
    (max_readahead r) (capable r) v (max_background r)
    (congestion_threshold r) (time_gran r).
Definition set_max_background (v : Z) (r : fuse_conn_info) : fuse_conn_info :=
  mk_conn (proto_major r) (proto_minor r) (max_write r) (max_read r)
    (max_readahead r) (capable r) (want r) v (congestion_threshold r)
    (time_gran r).
Definition set_congestion_threshold (v : Z) (r : fuse_conn_info) : fuse_conn_info :=
  mk_conn (proto_major r) (proto_minor r) (max_write r) (max_read r)
    (max_readahead r) (capable r) (want r) (max_background r) v
    (time_gran r).
Definition set_time_gran (v : Z) (r : fuse_conn_info) : fuse_conn_info :=
  mk_conn (proto_major r) (proto_minor r) (max_write r) (max_read r)
    (max_readahead r) (capable r) (want r) (max_background r)
    (congestion_threshold r) v.

(** The members of [struct fuse_lowlevel_ops] (include/fuse_lowlevel.h). *)
Inductive fuse_lowlevel_op : Type :=
| op_init | op_destroy | op_lookup | op_forget | op_getattr | op_setattr
| op_readlink | op_mknod | op_mkdir | op_unlink | op_rmdir | op_symlink
| op_rename | op_link | op_open | op_read | op_write | op_flush | op_release
| op_fsync | op_opendir | op_readdir | op_releasedir | op_fsyncdir
| op_statfs | op_setxattr | op_getxattr | op_listxattr | op_removexattr
| op_access | op_create | op_getlk | op_setlk | op_bmap | op_ioctl | op_poll
| op_write_buf | op_retrieve_reply | op_forget_multi | op_flock
| op_fallocate | op_readdirplus | op_copy_file_range | op_lseek.

(** A call of a member.  A name or a buffer is passed by its address. *)
Inductive call : Type :=
| C_init
| C_destroy
| C_lookup (req parent name : Z)
| C_forget (req ino nlookup : Z)
| C_getattr (req ino : Z) (fi : option fuse_file_info)
| C_setattr (req ino : Z) (attr : stat) (to_set : Z) (fi : option fuse_file_info)
| C_readlink (req ino : Z)
| C_mknod (req parent name mode rdev : Z)
| C_mkdir (req parent name mode : Z)
| C_unlink (req parent name : Z)
| C_rmdir (req parent name : Z)
| C_symlink (req link parent name : Z)
| C_rename (req parent name newparent newname flags : Z)
| C_link (req ino newparent newname : Z)
| C_open (req ino : Z) (fi : fuse_file_info)
| C_read (req ino size off : Z) (fi : fuse_file_info)
| C_write (req ino buf size off : Z) (fi : fuse_file_info)
| C_flush (req ino : Z) (fi : fuse_file_info)
| C_release (req ino : Z) (fi : fuse_file_info)
| C_fsync (req ino datasync : Z) (fi : fuse_file_info)
| C_opendir (req ino : Z) (fi : fuse_file_info)
| C_readdir (req ino size off : Z) (fi : fuse_file_info)
| C_releasedir (req ino : Z) (fi : fuse_file_info)
| C_fsyncdir (req ino datasync : Z) (fi : fuse_file_info)
| C_statfs (req ino : Z)
| C_setxattr (req ino name value size flags : Z)
| C_getxattr (req ino name size : Z)
| C_listxattr (req ino size : Z)
| C_removexattr (req ino name : Z)
| C_access (req ino mask : Z)
| C_create (req parent name mode : Z) (fi : fuse_file_info)
| C_getlk (req ino : Z) (fi : fuse_file_info) (lock : PosixLock.flock)
| C_setlk (req ino : Z) (fi : fuse_file_info) (lock : PosixLock.flock) (sleep : Z)
| C_bmap (req ino blocksize idx : Z)
| C_ioctl (req ino cmd arg : Z) (fi : fuse_file_info)
    (flags in_buf in_bufsz out_bufsz : Z)
| C_poll (req ino : Z) (fi : fuse_file_info) (ph : Z)
| C_write_buf (req ino : Z) (off : Z) (fi : fuse_file_info)
| C_retrieve_reply (req cookie ino off : Z)
| C_forget_multi (req count forgets : Z)
| C_flock (req ino : Z) (fi : fuse_file_info) (op : Z)
| C_fallocate (req ino mode off len : Z) (fi : fuse_file_info)
| C_readdirplus (req ino size off : Z) (fi : fuse_file_info)
| C_copy_file_range (req ino_in off_in : Z) (fi_in : fuse_file_info)
    (ino_out off_out : Z) (fi_out : fuse_file_info) (len flags : Z)
| C_lseek (req ino off whence : Z) (fi : fuse_file_info).

(** [struct fuse_session].  The two lists of requests and the list of notifications
    hold addresses, first to last; [io] says which of [splice_receive] and
    [splice_send] the custom functions have; [pipe_key] is what
    [pthread_getspecific] returns in the thread that runs, and [mo_max_read] is
    [get_max_read(mo)]; [se_locked] is the state of [lock]. *)
Record fuse_session : Type := mk_session {
  exited : bool;
  se_fd : Z;
  io : option (bool * bool);
  deny_others : bool;
  op : fuse_lowlevel_op -> bool;
  got_init : bool;
  cuse_data : bool;
  owner : Z;
  conn : fuse_conn_info;
  se_list : list Z;
  se_interrupts : list Z;
  se_locked : bool;
  got_destroy : bool;
  pipe_key : option fuse_ll_pipe;
  broken_splice_nonblock : bool;
  notify_ctr : Z;
  notify_list : list Z;
  bufsize : Z;
  se_error : Z;
  mo_max_read : Z;
}.

Definition set_exited (v : bool) (r : fuse_session) : fuse_session :=
  mk_session v (se_fd r) (io r) (deny_others r) (op r) (got_init r)
    (cuse_data r) (owner r) (conn r) (se_list r) (se_interrupts r)
    (se_locked r) (got_destroy r) (pipe_key r)
    (broken_splice_nonblock r) (notify_ctr r) (notify_list r)
    (bufsize r) (se_error r) (mo_max_read r).
Definition set_se_fd (v : Z) (r : fuse_session) : fuse_session :=
  mk_session (exited r) v (io r) (deny_others r) (op r) (got_init r)
    (cuse_data r) (owner r) (conn r) (se_list r) (se_interrupts r)
    (se_locked r) (got_destroy r) (pipe_key r)
    (broken_splice_nonblock r) (notify_ctr r) (notify_list r)
    (bufsize r) (se_error r) (mo_max_read r).
Definition set_got_init (v : bool) (r : fuse_session) : fuse_session :=
  mk_session (exited r) (se_fd r) (io r) (deny_others r) (op r) v
    (cuse_data r) (owner r) (conn r) (se_list r) (se_interrupts r)
    (se_locked r) (got_destroy r) (pipe_key r)
    (broken_splice_nonblock r) (notify_ctr r) (notify_list r)
    (bufsize r) (se_error r) (mo_max_read r).
Definition set_conn (v : fuse_conn_info) (r : fuse_session) : fuse_session :=
  mk_session (exited r) (se_fd r) (io r) (deny_others r) (op r) (got_init r)
    (cuse_data r) (owner r) v (se_list r) (se_interrupts r)
    (se_locked r) (got_destroy r) (pipe_key r)
    (broken_splice_nonblock r) (notify_ctr r) (notify_list r)
    (bufsize r) (se_error r) (mo_max_read r).
Definition set_se_list (v : list Z) (r : fuse_session) : fuse_session :=
  mk_session (exited r) (se_fd r) (io r) (deny_others r) (op r) (got_init r)
    (cuse_data r) (owner r) (conn r) v (se_interrupts r)
    (se_locked r) (got_destroy r) (pipe_key r)
    (broken_splice_nonblock r) (notify_ctr r) (notify_list r)
    (bufsize r) (se_error r) (mo_max_read r).
Definition set_se_interrupts (v : list Z) (r : fuse_session) : fuse_session :=
  mk_session (exited r) (se_fd r) (io r) (deny_others r) (op r) (got_init r)
    (cuse_data r) (owner r) (conn r) (se_list r) v (se_locked r)
    (got_destroy r) (pipe_key r) (broken_splice_nonblock r)
    (notify_ctr r) (notify_list r) (bufsize r) (se_error r)
    (mo_max_read r).
Definition set_se_locked (v : bool) (r : fuse_session) : fuse_session :=
  mk_session (exited r) (se_fd r) (io r) (deny_others r) (op r) (got_init r)
    (cuse_data r) (owner r) (conn r) (se_list r) (se_interrupts r) v
    (got_destroy r) (pipe_key r) (broken_splice_nonblock r)
    (notify_ctr r) (notify_list r) (bufsize r) (se_error r)
    (mo_max_read r).
Definition set_got_destroy (v : bool) (r : fuse_session) : fuse_session :=
  mk_session (exited r) (se_fd r) (io r) (deny_others r) (op r) (got_init r)
    (cuse_data r) (owner r) (conn r) (se_list r) (se_interrupts r)
    (se_locked r) v (pipe_key r) (broken_splice_nonblock r)
    (notify_ctr r) (notify_list r) (bufsize r) (se_error r)
    (mo_max_read r).
Definition set_pipe_key (v : option fuse_ll_pipe) (r : fuse_session) : fuse_session :=
  mk_session (exited r) (se_fd r) (io r) (deny_others r) (op r) (got_init r)
    (cuse_data r) (owner r) (conn r) (se_list r) (se_interrupts r)
    (se_locked r) (got_destroy r) v (broken_splice_nonblock r)
    (notify_ctr r) (notify_list r) (bufsize r) (se_error r)
    (mo_max_read r).
Definition set_broken_splice_nonblock (v : bool) (r : fuse_session) : fuse_session :=
  mk_session (exited r) (se_fd r) (io r) (deny_others r) (op r) (got_init r)
    (cuse_data r) (owner r) (conn r) (se_list r) (se_interrupts r)
    (se_locked r) (got_destroy r) (pipe_key r) v (notify_ctr r)
    (notify_list r) (bufsize r) (se_error r) (mo_max_read r).
Definition set_notify_ctr (v : Z) (r : fuse_session) : fuse_session :=
  mk_session (exited r) (se_fd r) (io r) (deny_others r) (op r) (got_init r)
    (cuse_data r) (owner r) (conn r) (se_list r) (se_interrupts r)
    (se_locked r) (got_destroy r) (pipe_key r)
    (broken_splice_nonblock r) v (notify_list r) (bufsize r)
    (se_error r) (mo_max_read r).
Definition set_notify_list (v : list Z) (r : fuse_session) : fuse_session :=
  mk_session (exited r) (se_fd r) (io r) (deny_others r) (op r) (got_init r)
    (cuse_data r) (owner r) (conn r) (se_list r) (se_interrupts r)
    (se_locked r) (got_destroy r) (pipe_key r)
    (broken_splice_nonblock r) (notify_ctr r) v (bufsize r)
    (se_error r) (mo_max_read r).
Definition set_bufsize (v : Z) (r : fuse_session) : fuse_session :=
  mk_session (exited r) (se_fd r) (io r) (deny_others r) (op r) (got_init r)
    (cuse_data r) (owner r) (conn r) (se_list r) (se_interrupts r)
    (se_locked r) (got_destroy r) (pipe_key r)
    (broken_splice_nonblock r) (notify_ctr r) (notify_list r) v
    (se_error r) (mo_max_read r).
Definition set_se_error (v : Z) (r : fuse_session) : fuse_session :=
  mk_session (exited r) (se_fd r) (io r) (deny_others r) (op r) (got_init r)
    (cuse_data r) (owner r) (conn r) (se_list r) (se_interrupts r)
    (se_locked r) (got_destroy r) (pipe_key r)
    (broken_splice_nonblock r) (notify_ctr r) (notify_list r)
    (bufsize r) v (mo_max_read r).

(** The session and all the objects: memory and descriptors, requests, channels,
    retrieve requests and poll handles; [objs] is the last address given to an
    object, and [oks] the outcomes of the coming allocations (success once the
    list is used up). *)
Record ll (K : Type) : Type := mk_ll {
  sysm : Buf.sys K;
  se : fuse_session;
  reqs : gmap Z fuse_req;
  chans : gmap Z fuse_chan;
  rreqs : gmap Z fuse_retrieve_req;
  phs : gmap Z fuse_pollhandle;
  objs : Z;
  oks : list bool;
}.
Arguments mk_ll {K}. Arguments sysm {K}. Arguments se {K}. Arguments reqs {K}.
Arguments chans {K}. Arguments rreqs {K}. Arguments phs {K}. Arguments objs {K}.
Arguments oks {K}.

Definition set_sysm {K} (v : Buf.sys K) (r : ll K) : ll K :=
  mk_ll v (se r) (reqs r) (chans r) (rreqs r) (phs r) (objs r) (oks r).
Definition set_se {K} (v : fuse_session) (r : ll K) : ll K :=
  mk_ll (sysm r) v (reqs r) (chans r) (rreqs r) (phs r) (objs r) (oks r).
Definition set_reqs {K} (v : gmap Z fuse_req) (r : ll K) : ll K :=
  mk_ll (sysm r) (se r) v (chans r) (rreqs r) (phs r) (objs r) (oks r).
Definition set_chans {K} (v : gmap Z fuse_chan) (r : ll K) : ll K :=
  mk_ll (sysm r) (se r) (reqs r) v (rreqs r) (phs r) (objs r) (oks r).
Definition set_rreqs {K} (v : gmap Z fuse_retrieve_req) (r : ll K) : ll K :=
  mk_ll (sysm r) (se r) (reqs r) (chans r) v (phs r) (objs r) (oks r).
Definition set_phs {K} (v : gmap Z fuse_pollhandle) (r : ll K) : ll K :=
  mk_ll (sysm r) (se r) (reqs r) (chans r) (rreqs r) v (objs r) (oks r).
Definition set_objs {K} (v : Z) (r : ll K) : ll K :=
  mk_ll (sysm r) (se r) (reqs r) (chans r) (rreqs r) (phs r) v (oks r).
Definition set_oks {K} (v : list bool) (r : ll K) : ll K :=
  mk_ll (sysm r) (se r) (reqs r) (chans r) (rreqs r) (phs r) (objs r) v.
