(* ===== verification/LowLevel.v ===== *)
(** * Requests and replies of the low-level library (lib/fuse_lowlevel.c, 58-160)

    Reference counts of requests and channels, the two request lists, and the
    messages written to the device. *)
From S2P Require Import Prelude PosixLock Types Buf FsOps Entry Dir LLTypes.
From Stdlib Require Import QArith.
#[local] Open Scope Z_scope.

Definition EACCES : Z := 13.
Definition ENODEV : Z := 19.
Definition EBADF : Z := 9.
Definition EINTR : Z := 4.
Definition ENOTTY : Z := 25.
Definition ERANGE : Z := 34.
Definition EPROTO : Z := 71.
Definition ENOTCONN : Z := 107.

(** Sizes of the structures of the protocol on a 64-bit machine. *)
Definition SIZEOF_IN_HEADER : Z := 40.
Definition SIZEOF_OUT_HEADER : Z := 32.
Definition SIZEOF_WRITE_IN : Z := 40.

(** [getpagesize()]. *)
Definition pagesize : Z := 4096.

(** [struct fuse_out_header]. *)
Record fuse_out_header : Type := mk_out {
  o_len : Z; o_error : Z; o_unique : Z; o_header : Z; o_footer : Z; o_mem : Z;
}.
Definition out0 : fuse_out_header := mk_out 0 0 0 0 0 0.
Definition set_o_len (v : Z) (o : fuse_out_header) : fuse_out_header :=
  mk_out v (o_error o) (o_unique o) (o_header o) (o_footer o) (o_mem o).
Definition out_bytes (o : fuse_out_header) : list Z :=
  le_bytes 4 (o_len o) ++ le_bytes 4 (o_error o) ++ le_bytes 8 (o_unique o) ++
  le_bytes 4 (o_header o) ++ le_bytes 4 (o_footer o) ++ le_bytes 8 (o_mem o).

(** What the library asks of the system, and of the custom functions of the
    session: each returns its result and [errno].  [h_junk] is what an
    uninitialised header holds in its fields [header], [footer] and [mem]. *)
Record host (K : Type) : Type := mk_host {
  h_sys : Buf.syscalls K;
  h_writev : Z -> list (list Z) -> Buf.sys K -> (Z * Z) * Buf.sys K;
  h_splice : Z -> Z -> Z -> Z -> Buf.sys K -> (Z * Z) * Buf.sys K;
  h_vmsplice : Z -> list (list Z) -> K -> (Z * Z) * K;
  h_close : Z -> K -> unit * K;
  h_pipe2 : K -> (Z * Z * Z) * K;
  h_set_pipe_size : Z -> Z -> K -> (Z * Z) * K;
  h_open_max_size : K -> (Z * Z) * K;
  h_io_writev : Z -> list (list Z) -> Buf.sys K -> (Z * Z) * Buf.sys K;
  h_io_read : Z -> Z -> K -> (Z * Z * list Z) * K;
  h_io_splice_receive : Z -> Z -> Z -> K -> (Z * Z) * K;
  h_io_splice_send : Z -> Z -> Z -> Z -> Buf.sys K -> (Z * Z) * Buf.sys K;
  h_junk : K -> Z * Z * Z;
}.
Arguments h_sys {K}. Arguments h_writev {K}. Arguments h_splice {K}.
Arguments h_vmsplice {K}. Arguments h_close {K}. Arguments h_pipe2 {K}.
Arguments h_set_pipe_size {K}. Arguments h_open_max_size {K}.
Arguments h_io_writev {K}. Arguments h_io_read {K}. Arguments h_io_splice_receive {K}.
Arguments h_io_splice_send {K}. Arguments h_junk {K}.

Section Requests.
Context {K : Type} (h : host K).
#[local] Abbreviation L := (M (ll K)).

(** ** Access to the state *)
Definition liftS {A} (m : M (Buf.sys K) A) : L A := fun s =>
  match m (sysm s) with
  | Ok (a, b) => Ok (a, set_sysm b s)
  | Crash c => Crash c
  end.
Definition with_sys {A} (f : Buf.sys K -> A * Buf.sys K) : L A :=
  liftS (fun b => Ok (f b)).
Definition modify_se (g : fuse_session -> fuse_session) : L unit :=
  modifyM (fun s => set_se (g (se s)) s).
Definition modify_conn (g : fuse_conn_info -> fuse_conn_info) : L unit :=
  modify_se (fun e => set_conn (g (conn e)) e).
Definition load_req (r : Z) : L fuse_req := s ← getM; derefM (reqs s !! r).
Definition update_req (r : Z) (g : fuse_req -> fuse_req) : L unit :=
  q ← load_req r; modifyM (fun s => set_reqs (<[r := g q]> (reqs s)) s).
Definition malloc_ok : L bool :=
  s ← getM;
  match oks s with
  | [] => mret true
  | b :: l => putM (set_oks l s);; mret b
  end.
Definition new_obj : L Z := s ← getM; putM (set_objs (objs s + 1) s);; mret (objs s + 1).
Definition proto_minor_of : L Z := getsM (fun s => proto_minor (conn (se s))).

(** [pthread_mutex_lock] of a mutex the thread already holds does not return. *)
Definition lock_se : L unit :=
  s ← getM;
  if se_locked (se s) then crashM Block else modify_se (set_se_locked true).
Definition unlock_se : L unit := modify_se (set_se_locked false).
Definition lock_req (r : Z) : L unit :=
  q ← load_req r;
  if r_locked q then crashM Block else update_req r (set_r_locked true).
Definition unlock_req (r : Z) : L unit := update_req r (set_r_locked false).

(** ** Channels (lib/fuse_loop_mt.c) *)
Definition fuse_chan_new (fd : Z) : L Z :=
  ok ← malloc_ok;
  if negb ok then mret 0
  else
    a ← new_obj;
    modifyM (fun s => set_chans (<[a := mk_chan 1 fd]> (chans s)) s);;
    mret a.

Definition fuse_chan_get (ch : Z) : L Z :=
  s ← getM;
  c ← derefM (chans s !! ch);
  assertM (0 <? ch_ctr c);;
  modifyM (fun s => set_chans (<[ch := mk_chan (ch_ctr c + 1) (ch_fd c)]> (chans s)) s);;
  mret ch.

Definition fuse_chan_put (ch : Z) : L unit :=
  if ch =? 0 then mret tt
  else
    s ← getM;
    c ← derefM (chans s !! ch);
    let ctr := ch_ctr c - 1 in
    if ctr =? 0 then
      liftS (Buf.call (h_close h (ch_fd c)));;
      modifyM (fun s => set_chans (delete ch (chans s)) s)
    else modifyM (fun s => set_chans (<[ch := mk_chan ctr (ch_fd c)]> (chans s)) s).

(** ** Requests *)
Definition remove_req (r : Z) (l : list Z) : list Z := filter (fun x => x <> r) l.

Definition list_init_req (r : Z) : L unit := update_req r (set_r_chain Alone).

(** The neighbours of a request that has been removed may be gone. *)
Definition list_del_req (r : Z) : L unit :=
  q ← load_req r;
  match r_chain q with
  | Alone => mret tt
  | OnList =>
    modify_se (fun e => set_se_list (remove_req r (se_list e)) e);;
    update_req r (set_r_chain Removed)
  | OnInterrupts =>
    modify_se (fun e => set_se_interrupts (remove_req r (se_interrupts e)) e);;
    update_req r (set_r_chain Removed)
  | Removed => crashM BadAccess
  end.

(** [list_add_req(req, &se->list)] and [list_add_req(req, &se->interrupts)]: before
    the head, which is the end of the list. *)
Definition list_add_req (r : Z) : L unit :=
  update_req r (set_r_chain OnList);;
  modify_se (fun e => set_se_list (se_list e ++ [r]) e).
Definition list_add_interrupt (r : Z) : L unit :=
  update_req r (set_r_chain OnInterrupts);;
  modify_se (fun e => set_se_interrupts (se_interrupts e ++ [r]) e).

(** A mutex that is destroyed must be free. *)
Definition destroy_req (r : Z) : L unit :=
  q ← load_req r;
  assertM (r_ch q =? 0);;
  (if r_locked q then crashM BadAccess else mret tt);;
  modifyM (fun s => set_reqs (delete r (reqs s)) s).

Definition fuse_free_req (r : Z) : L unit :=
  load_req r;;
  lock_se;;
  update_req r (set_r_u0 0);;
  update_req r (set_r_u1 0);;
  list_del_req r;;
  update_req r (fun q => set_r_ctr (r_ctr q - 1) q);;
  q ← load_req r;
  fuse_chan_put (r_ch q);;
  update_req r (set_r_ch 0);;
  unlock_se;;
  if r_ctr q =? 0 then destroy_req r else mret tt.

Definition fuse_ll_alloc_req : L Z :=
  ok ← malloc_ok;
  if negb ok then mret 0
  else
    r ← new_obj;
    modifyM (fun s => set_reqs (<[r := set_r_ctr 1 req0]> (reqs s)) s);;
    list_init_req r;;
    mret r.

(** ** Messages *)
Definition iov_length (iov : list (list Z)) : Z :=
  foldl (fun ret v => u64 (ret + Z.of_nat (length v))) 0 iov.

(** The descriptor a message goes to: that of the channel, or of the session. *)
Definition send_fd (ch : Z) : L Z :=
  s ← getM;
  if ch =? 0 then mret (se_fd (se s))
  else c ← derefM (chans s !! ch); mret (ch_fd c).

(** [iov] is what follows the header. *)
Definition fuse_send_msg (ch : Z) (out : fuse_out_header) (iov : list (list Z)) : L Z :=
  let len := u32 (iov_length (out_bytes out :: iov)) in
  let msg := out_bytes (set_o_len len out) :: iov in
  fd ← send_fd ch;
  s ← getM;
  '(res, err) ← with_sys (match io (se s) with
                          | Some _ => h_io_writev h fd msg
                          | None => h_writev h fd msg
                          end);
  if res =? -1 then mret (- err) else mret 0.

Definition fuse_send_reply_iov_nofree (r error : Z) (iov : list (list Z)) : L Z :=
  let error := if (error <=? -1000) || (0 <? error) then - ERANGE else error in
  q ← load_req r;
  fuse_send_msg (r_ch q) (mk_out 0 error (r_unique q) 0 0 0) iov.

Definition send_reply_iov (r error : Z) (iov : list (list Z)) : L Z :=
  res ← fuse_send_reply_iov_nofree r error iov;
  fuse_free_req r;;
  mret res.

(** [argsize] is the length of [arg]. *)
Definition send_reply (r error : Z) (arg : list Z) : L Z :=
  send_reply_iov r error (match arg with [] => [] | _ => [arg] end).

Definition send_reply_ok (r : Z) (arg : list Z) : L Z := send_reply r 0 arg.
Definition fuse_reply_err (r err : Z) : L Z := send_reply r (- err) [].
Definition fuse_reply_none (r : Z) : L unit := fuse_free_req r.

(** An array of [struct iovec]: base and length of each piece. *)
Definition load_iov (iov : list (Z * Z)) : L (list (list Z)) :=
  mapM (fun '(base, len) => liftS (Buf.load_bytes base len)) iov.

Definition fuse_reply_iov (r : Z) (iov : list (Z * Z)) : L Z :=
  ok ← malloc_ok;
  if negb ok then fuse_reply_err r ENOMEM
  else l ← load_iov iov; send_reply_iov r 0 l.
End Requests.
