(* ===== verification/LLReply.v ===== *)
(** * Replies with data (lib/fuse_lowlevel.c, 160-1210)

    The reply functions for each kind of answer, and the ways the contents of a
    buffer vector reach the device: copied, or spliced through a pipe. *)
From S2P Require Import Prelude PosixLock Types Buf FsOps Entry Dir LLTypes LowLevel.
From Stdlib Require Import QArith.
#[local] Open Scope Z_scope.

Definition FUSE_COMPAT_ENTRY_OUT_SIZE : Z := 120.
Definition FUSE_COMPAT_ATTR_OUT_SIZE : Z := 96.
Definition FUSE_COMPAT_STATFS_SIZE : Z := 48.

Definition FOPEN_DIRECT_IO : Z := 1.
Definition FOPEN_KEEP_CACHE : Z := 2.
Definition FOPEN_NONSEEKABLE : Z := 4.
Definition FOPEN_CACHE_DIR : Z := 8.
Definition FOPEN_NOFLUSH : Z := 32.
Definition FOPEN_PARALLEL_DIRECT_WRITES : Z := 64.

Definition FUSE_CAP_SPLICE_WRITE : Z := 128.
Definition FUSE_CAP_SPLICE_MOVE : Z := 256.
Definition FUSE_IOCTL_RETRY : Z := 4.

(** [if (c) flags |= bit]. *)
Definition flag (c : bool) (bit : Z) : Z := if c then bit else 0.

(** [struct fuse_open_out] over zeroed memory. *)
Definition fill_open (f : fuse_file_info) : list Z :=
  le_bytes 8 (fi_fh f) ++
  le_bytes 4 (Z.lor (flag (fi_direct_io f) FOPEN_DIRECT_IO)
             (Z.lor (flag (fi_keep_cache f) FOPEN_KEEP_CACHE)
             (Z.lor (flag (fi_cache_readdir f) FOPEN_CACHE_DIR)
             (Z.lor (flag (fi_nonseekable f) FOPEN_NONSEEKABLE)
             (Z.lor (flag (fi_noflush f) FOPEN_NOFLUSH)
                    (flag (fi_parallel_direct_writes f) FOPEN_PARALLEL_DIRECT_WRITES)))))) ++
  le_bytes 4 0.

(** [struct fuse_kstatfs] over zeroed memory. *)
Definition convert_statfs (st : statvfs) : list Z :=
  le_bytes 8 (f_blocks st) ++ le_bytes 8 (f_bfree st) ++ le_bytes 8 (f_bavail st) ++
  le_bytes 8 (f_files st) ++ le_bytes 8 (f_ffree st) ++ le_bytes 4 (f_bsize st) ++
  le_bytes 4 (f_namemax st) ++ le_bytes 4 (f_frsize st) ++ replicate 28 0.

(** A structure sent whole, or cut to the size an older protocol had. *)
Definition cut (compat : bool) (size : Z) (arg : list Z) : list Z :=
  if compat then take (Z.to_nat size) arg else arg.

(** [atoi]: the number at the start of a string; undefined past an [int]. *)
Definition is_space (c : Z) : bool := (c =? 32) || ((9 <=? c) && (c <=? 13)).
Definition is_digit (c : Z) : bool := (48 <=? c) && (c <=? 57).
Fixpoint digits (n : Z) (l : list Z) : Z :=
  match l with
  | c :: l => if is_digit c then digits (10 * n + (c - 48)) l else n
  | [] => n
  end.
Fixpoint atoi (l : list Z) : res Z :=
  match l with
  | [] => Ok 0
  | c :: l' =>
    if is_space c then atoi l'
    else
      let n := if c =? 45 then - digits 0 l'
               else if c =? 43 then digits 0 l' else digits 0 l in
      if to_int n =? n then Ok n else Crash Overflow
  end.

(** [strlen]: the bytes looked at are mapped, so there are at most [size mem]. *)
Fixpoint strlen_loop {K} (fuel : nat) (a n : Z) : M (Buf.sys K) Z :=
  match fuel with
  | O => crashM OutOfFuel
  | S fuel =>
    s ← getM;
    b ← derefM (Buf.mem s !! a);
    if b =? 0 then mret n else strlen_loop fuel (a + 1) (n + 1)
  end.
Definition strlen_at {K} (a : Z) : M (Buf.sys K) Z :=
  s ← getM; strlen_loop (S (size (Buf.mem s))) a 0.

Section Replies.
Context {K : Type} (h : host K).
#[local] Abbreviation L := (M (ll K)).

Definition fuse_reply_entry (r : Z) (e : fuse_entry_param) : L Z :=
  minor ← proto_minor_of;
  if (e_ino e =? 0) && (minor <? 4) then fuse_reply_err h r ENOENT
  else
    send_reply_ok h r (cut (minor <? 9) FUSE_COMPAT_ENTRY_OUT_SIZE (fill_entry e)).

(** The open part overlays the entry part where an older protocol cuts it. *)
Definition fuse_reply_create (r : Z) (e : fuse_entry_param) (f : fuse_file_info) : L Z :=
  minor ← proto_minor_of;
  send_reply_ok h r
    (cut (minor <? 9) FUSE_COMPAT_ENTRY_OUT_SIZE (fill_entry e) ++ fill_open f).

Definition fuse_reply_attr (r : Z) (attr : stat) (attr_timeout : Q) : L Z :=
  minor ← proto_minor_of;
  send_reply_ok h r
    (cut (minor <? 9) FUSE_COMPAT_ATTR_OUT_SIZE
       (le_bytes 8 (calc_timeout_sec attr_timeout) ++
        le_bytes 4 (calc_timeout_nsec attr_timeout) ++ le_bytes 4 0 ++
        convert_stat attr)).

Definition fuse_reply_readlink (r : Z) (linkname : string) : L Z :=
  send_reply_ok h r (string_bytes linkname).

Definition fuse_reply_open (r : Z) (f : fuse_file_info) : L Z :=
  send_reply_ok h r (fill_open f).

Definition fuse_reply_write (r count : Z) : L Z :=
  send_reply_ok h r (le_bytes 4 count ++ le_bytes 4 0).

Definition fuse_reply_buf (r buf size : Z) : L Z :=
  arg ← liftS (Buf.load_bytes buf size);
  send_reply_ok h r arg.

Definition fuse_reply_statfs (r : Z) (st : statvfs) : L Z :=
  minor ← proto_minor_of;
  send_reply_ok h r (cut (minor <? 4) FUSE_COMPAT_STATFS_SIZE (convert_statfs st)).

Definition fuse_reply_xattr (r count : Z) : L Z :=
  send_reply_ok h r (le_bytes 4 count ++ le_bytes 4 0).

Definition fuse_reply_lock (r : Z) (lock : PosixLock.flock) : L Z :=
  let unlck := PosixLock.l_type lock =? PosixLock.F_UNLCK in
  end_ ← (if unlck then mret 0
          else if PosixLock.l_len lock =? 0 then mret OFFSET_MAX
          else liftM (e ← off (PosixLock.l_start lock + PosixLock.l_len lock);
                      off (e - 1)));
  send_reply_ok h r
    (le_bytes 8 (if unlck then 0 else PosixLock.l_start lock) ++ le_bytes 8 end_ ++
     le_bytes 4 (PosixLock.l_type lock) ++ le_bytes 4 (PosixLock.l_pid lock)).

Definition fuse_reply_bmap (r idx : Z) : L Z := send_reply_ok h r (le_bytes 8 idx).

(** [struct fuse_ioctl_iovec] and, on a 64-bit machine, [struct iovec]. *)
Definition iovec_bytes (iov : list (Z * Z)) : list Z :=
  flat_map (fun '(base, len) => le_bytes 8 base ++ le_bytes 8 len) iov.

Definition ioctl_out (result flags in_iovs out_iovs : Z) : list Z :=
  le_bytes 4 result ++ le_bytes 4 flags ++ le_bytes 4 in_iovs ++ le_bytes 4 out_iovs.

(** The arrays as they are sent, or nothing when memory is missing. *)
Definition fuse_ioctl_iovec_copy (iov : list (Z * Z)) : L (option (list Z)) :=
  ok ← malloc_ok; if negb ok then mret None else mret (Some (iovec_bytes iov)).

Definition fuse_reply_ioctl_retry (r : Z) (in_iov out_iov : list (Z * Z)) : L Z :=
  let arg := ioctl_out 0 FUSE_IOCTL_RETRY (Z.of_nat (length in_iov))
               (Z.of_nat (length out_iov)) in
  let piece (l : list (Z * Z)) :=
    match l with [] => [] | _ => [iovec_bytes l] end in
  minor ← proto_minor_of;
  if (minor <? 16)%Z then send_reply_iov h r 0 (arg :: piece in_iov ++ piece out_iov)
  else
    i ← (if negb (Z.of_nat (length in_iov) =? 0) then fuse_ioctl_iovec_copy in_iov
         else mret (Some ([] : list Z)));
    match i with
    | None => fuse_reply_err h r ENOMEM
    | Some _ =>
      o ← (if negb (Z.of_nat (length out_iov) =? 0) then fuse_ioctl_iovec_copy out_iov
           else mret (Some ([] : list Z)));
      match o with
      | None => fuse_reply_err h r ENOMEM
      | Some _ => send_reply_iov h r 0 (arg :: piece in_iov ++ piece out_iov)
      end
    end.

Definition fuse_reply_ioctl (r result buf size : Z) : L Z :=
  data ← (if size =? 0 then mret ([] : list (list Z))
          else l ← liftS (Buf.load_bytes buf size); mret [l]);
  send_reply_iov h r 0 (ioctl_out result 0 0 0 :: data).

Definition fuse_reply_ioctl_iov (r result : Z) (iov : list (Z * Z)) : L Z :=
  ok ← malloc_ok;
  if negb ok then fuse_reply_err h r ENOMEM
  else
    l ← load_iov iov;
    send_reply_iov h r 0 (ioctl_out result 0 0 0 :: l).

Definition fuse_reply_poll (r revents : Z) : L Z :=
  send_reply_ok h r (le_bytes 4 revents ++ le_bytes 4 0).

Definition fuse_reply_lseek (r off : Z) : L Z := send_reply_ok h r (le_bytes 8 off).

(** ** The pipe of a thread *)
Definition close (fd : Z) : L unit := liftS (Buf.call (h_close h fd)).

Definition set_llp (p : option fuse_ll_pipe) : L unit := modify_se (set_pipe_key p).

Definition fuse_ll_pipe_free (p : fuse_ll_pipe) : L unit :=
  close (pipe_rd p);; close (pipe_wr p).

(** Built with [pipe2]. *)
Definition fuse_pipe : L (Z * Z * Z) := liftS (Buf.call (h_pipe2 h)).

Definition fuse_ll_get_pipe : L (option fuse_ll_pipe) :=
  s ← getM;
  match pipe_key (se s) with
  | Some p => mret (Some p)
  | None =>
    ok ← malloc_ok;
    if negb ok then mret None
    else
      '(res, rd, wr) ← fuse_pipe;
      if res =? -1 then mret None
      else
        let p := mk_pipe (pagesize * 16) true rd wr in
        set_llp (Some p);; mret (Some p)
  end.

Definition fuse_ll_clear_pipe : L unit :=
  s ← getM;
  match pipe_key (se s) with
  | Some p => set_llp None;; fuse_ll_pipe_free p
  | None => mret tt
  end.

(** [read(fd, buf, len)] of exactly [len] bytes into memory; returns 0 or [-EIO]. *)
Definition read_back (fd buf len : Z) : L Z :=
  '(res, _, data) ← liftS (Buf.call (Buf.sys_read (h_sys h) fd len));
  if res =? -1 then mret (- EIO)
  else
    liftS (Buf.store_bytes buf data);;
    if negb (to_int res =? len) then mret (- EIO) else mret 0.

(** The first 31 bytes of [/proc/sys/fs/pipe-max-size]. *)
Definition grow_pipe_to_max (fd : Z) : L Z :=
  '(maxfd, errno) ← liftS (Buf.call (h_open_max_size h));
  if maxfd <? 0 then mret (- errno)
  else
    '(res, errno, data) ← liftS (Buf.call (Buf.sys_read (h_sys h) maxfd 31));
    close maxfd;;
    if res <? 0 then mret (- errno)
    else
      max ← liftM (atoi data);
      '(res, errno) ← liftS (Buf.call (h_set_pipe_size h fd max));
      if res <? 0 then mret (- errno) else mret max.

(** The pipe, grown to at least [need] bytes; [None] is a jump to the fallback. *)
Definition grow_pipe (p : fuse_ll_pipe) (need : Z) : L (option fuse_ll_pipe) :=
  if p_size p <? need then
    if can_grow p then
      '(res, _) ← liftS (Buf.call (h_set_pipe_size h (pipe_rd p) need));
      if res =? -1 then
        res ← grow_pipe_to_max (pipe_rd p);
        set_llp (Some (mk_pipe (if 0 <? res then res else p_size p) false
                         (pipe_rd p) (pipe_wr p)));;
        mret None
      else
        let p := mk_pipe res true (pipe_rd p) (pipe_wr p) in
        set_llp (Some p);;
        if p_size p <? need then mret None else mret (Some p)
    else mret None
  else mret (Some p).
End Replies.
