(* ===== verification/LLData.v ===== *)
(** * Replies made of buffer vectors (lib/fuse_lowlevel.c, 519-965)

    [fuse_send_data_iov]: a header and the contents of a vector go to the device
    through the pipe of the thread, or are copied into memory first.  The [goto]s
    of the code are calls here: [fallback], [clear_pipe]. *)
From S2P Require Import Prelude PosixLock Types Buf FsOps Entry Dir LLTypes LowLevel LLReply.
#[local] Open Scope Z_scope.

Section Data.
Context {K : Type} (h : host K).
#[local] Abbreviation L := (M (ll K)).

Definition fuse_buf_copy (dst src : Buf.fuse_bufvec) (flags : Z)
    : L (Z * Buf.fuse_bufvec * Buf.fuse_bufvec) :=
  liftS (Buf.fuse_buf_copy (h_sys h) false dst src flags).

(** [posix_memalign(&mbuf, pagesize, n)]: the block, or [ENOMEM]. *)
Definition memalign (n : Z) : L (Z + Z) :=
  ok ← malloc_ok;
  if negb ok then mret (inr ENOMEM)
  else a ← liftS (Buf.alloc n); mret (inl a).

(** [malloc(n)]: the block, or NULL. *)
Definition malloc (n : Z) : L Z :=
  ok ← malloc_ok;
  if negb ok then mret 0 else liftS (Buf.alloc n).

Definition free (a : Z) : L unit := liftS (Buf.free a).

(** A vector of one piece of memory, [FUSE_BUFVEC_INIT(len)] with its [mem]. *)
Definition mem_vec (len mem off : Z) : Buf.fuse_bufvec :=
  Buf.mk_bufvec 1 0 off [Buf.mk_fbuf len 0 0 0 mem (-1) 0].

Definition is_fd (b : Buf.fuse_buf) : bool := Buf.has (Buf.b_flags b) Buf.FUSE_BUF_IS_FD.

(** [iov] is what follows the header; returns the result and the vector, which the
    copy advances. *)
Definition fuse_send_data_iov_fallback (ch : Z) (out : fuse_out_header)
    (iov : list (list Z)) (buf : Buf.fuse_bufvec) (len : Z) : L (Z * Buf.fuse_bufvec) :=
  b ← derefM (Buf.buf buf !! 0%nat);
  if (Buf.count buf =? 1) && (Buf.idx buf =? 0) && (Buf.off buf =? 0) && negb (is_fd b)
  then
    data ← liftS (Buf.load_bytes (Buf.b_mem b) len);
    res ← fuse_send_msg h ch out (iov ++ [data]);
    mret (res, buf)
  else
    m ← memalign len;
    match m with
    | inr res => mret (res, buf)
    | inl mbuf =>
      '(res, _, buf) ← fuse_buf_copy (mem_vec len mbuf 0) buf 0;
      let res := to_int res in
      if res <? 0 then free mbuf;; mret (- res, buf)
      else
        data ← liftS (Buf.load_bytes mbuf res);
        res ← fuse_send_msg h ch out (iov ++ [data]);
        free mbuf;;
        mret (res, buf)
    end.

(** What is left in the vector, from its current position. *)
Definition total_buf_size (buf : Buf.fuse_bufvec) : Z :=
  let rest := drop (Z.to_nat (Buf.idx buf)) (take (Z.to_nat (Buf.count buf)) (Buf.buf buf)) in
  match rest with
  | [] => 0
  | b :: l =>
    foldl (fun n b => u64 (n + Buf.b_size b)) (u64 (Buf.b_size b - Buf.off buf)) l
  end.

(** The header, and the vector, of a reply whose first piece is a section of a
    file: room is made for the bytes before and after the data, and its address is
    sent to the kernel.  Without memory the address is NULL. *)
Definition section_header (out : fuse_out_header) (buf : Buf.fuse_bufvec)
    : L (fuse_out_header * Buf.fuse_bufvec) :=
  b ← derefM (Buf.buf buf !! 0%nat);
  if negb (Buf.has (Buf.b_flags b) Buf.FUSE_BUF_FD_SECTION) then mret (out, buf)
  else
    let header := u32 (Buf.b_metadata b) in
    let footer := u32 (Buf.b_footer b) in
    m ← memalign (u32 (header + footer));
    let mbuf := match m with inl a => a | inr _ => 0 end in
    let b := Buf.mk_fbuf (Buf.b_size b) (Buf.b_metadata b) (Buf.b_footer b)
               (Buf.b_flags b) mbuf (Buf.b_fd b) (Buf.b_pos b) in
    mret (mk_out (o_len out) (o_error out) (o_unique out) header footer mbuf,
          Buf.mk_bufvec (Buf.count buf) (Buf.idx buf) (Buf.off buf)
            (<[0%nat := b]> (Buf.buf buf))).

Definition clear_pipe {A} (res : Z) (buf : A) : L (Z * A) :=
  fuse_ll_clear_pipe h;; mret (res, buf).

(** The last step: [len] bytes of the vector follow the header in the pipe, and the
    whole goes to the device. *)
Definition splice_out (ch : Z) (out : fuse_out_header) (buf : Buf.fuse_bufvec)
    (p : fuse_ll_pipe) (headerlen len flags : Z) : L (Z * Buf.fuse_bufvec) :=
  s ← getM;
  let out_len := u32 (headerlen + len) in
  let splice_flags :=
    flag (Buf.has flags Buf.FUSE_BUF_SPLICE_MOVE &&
          Buf.has (want (conn (se s))) FUSE_CAP_SPLICE_MOVE) Buf.SPLICE_F_MOVE in
  fd ← send_fd ch;
  '(res, errno) ← with_sys
    (match io (se s) with
     | Some (_, true) => h_io_splice_send h (pipe_rd p) fd out_len splice_flags
     | _ => h_splice h (pipe_rd p) fd out_len splice_flags
     end);
  let res := to_int res in
  if res =? -1 then clear_pipe (- errno) buf
  else if negb (u32 res =? out_len) then clear_pipe (- EIO) buf
  else mret (0, buf).

(** Fewer than [len] bytes reached the pipe: when the vector has more, the pipe is
    read back and the message is sent from memory. *)
Definition send_short (ch : Z) (out : fuse_out_header) (iov : list (list Z))
    (buf : Buf.fuse_bufvec) (p : fuse_ll_pipe) (headerlen len now_len flags : Z)
    : L (Z * Buf.fuse_bufvec) :=
  m ← memalign len;
  match m with
  | inr res => clear_pipe res buf
  | inl mbuf =>
    '(res, _, buf) ← fuse_buf_copy (mem_vec len mbuf now_len) buf 0;
    let res := to_int res in
    if 0 <? res then
      tmpbuf ← malloc headerlen;
      if tmpbuf =? 0 then free mbuf;; clear_pipe ENOMEM buf
      else
        err ← read_back h (pipe_rd p) tmpbuf headerlen;
        free tmpbuf;;
        if negb (err =? 0) then free mbuf;; clear_pipe err buf
        else
          err ← read_back h (pipe_rd p) mbuf now_len;
          if negb (err =? 0) then free mbuf;; clear_pipe err buf
          else
            data ← liftS (Buf.load_bytes mbuf (now_len + res));
            err ← fuse_send_msg h ch out (iov ++ [data]);
            free mbuf;;
            mret (err, buf)
    else free mbuf;; splice_out ch out buf p headerlen now_len flags
  end.

(** The message through the pipe, which is large enough. *)
Definition send_spliced (ch : Z) (out : fuse_out_header) (iov : list (list Z))
    (buf : Buf.fuse_bufvec) (p : fuse_ll_pipe) (len flags : Z)
    : L (Z * Buf.fuse_bufvec) :=
  let msg := out_bytes out :: iov in
  let headerlen := iov_length msg in
  '(res, _) ← liftS (Buf.call (h_vmsplice h (pipe_wr p) msg));
  let res := to_int res in
  if res =? -1 then fuse_send_data_iov_fallback ch out iov buf len
  else if negb (res =? headerlen) then clear_pipe (- EIO) buf
  else
    let pipe_buf := Buf.mk_bufvec 1 0 0
      [Buf.mk_fbuf len 0 0 Buf.FUSE_BUF_IS_FD 0 (pipe_wr p) 0] in
    '(res, _, buf) ← fuse_buf_copy pipe_buf buf
                       (Z.lor Buf.FUSE_BUF_FORCE_SPLICE Buf.FUSE_BUF_SPLICE_NONBLOCK);
    let res := to_int res in
    if res <? 0 then
      if (res =? - EAGAIN) || (res =? - EINVAL) then
        (if res =? - EAGAIN then modify_se (set_broken_splice_nonblock true)
         else mret tt);;
        set_llp None;;
        fuse_ll_pipe_free h p;;
        fuse_send_data_iov_fallback ch out iov buf len
      else clear_pipe (- res) buf
    else if negb (res =? 0) && (res <? len) then
      send_short ch out iov buf p headerlen len res flags
    else splice_out ch out buf p headerlen res flags.

(** Built with [HAVE_SPLICE] and [HAVE_VMSPLICE]. *)
Definition fuse_send_data_iov (ch : Z) (out : fuse_out_header) (iov : list (list Z))
    (buf : Buf.fuse_bufvec) (flags : Z) : L (Z * Buf.fuse_bufvec) :=
  s ← getM;
  let len := Buf.fuse_buf_size buf in
  if broken_splice_nonblock (se s) || Buf.has flags Buf.FUSE_BUF_NO_SPLICE ||
     (total_buf_size buf <? 2 * pagesize) || (proto_minor (conn (se s)) <? 14) ||
     negb (Buf.has (want (conn (se s))) FUSE_CAP_SPLICE_WRITE)
  then fuse_send_data_iov_fallback ch out iov buf len
  else
    llp ← fuse_ll_get_pipe h;
    match llp with
    | None => fuse_send_data_iov_fallback ch out iov buf len
    | Some p =>
      let headerlen := iov_length (out_bytes out :: iov) in
      let out := set_o_len (u32 (headerlen + len)) out in
      '(out, buf) ← section_header out buf;
      let iov_count := Z.of_nat (S (length iov)) in
      let pipesize :=
        u64 (pagesize * (iov_count + Buf.count buf + 1) + o_len out) in
      p ← grow_pipe h p pipesize;
      match p with
      | None => fuse_send_data_iov_fallback ch out iov buf len
      | Some p => send_spliced ch out iov buf p len flags
      end
    end.

(** The header is a local variable of which [unique] and [error] are set.  A section
    that came back is printed as a string.  Returns the result and the vector. *)
Definition fuse_reply_data (r : Z) (bufv : Buf.fuse_bufvec) (flags : Z) : L Z :=
  q ← load_req r;
  s ← getM;
  let '(header, footer, mem) := h_junk h (Buf.kern (sysm s)) in
  let out := mk_out 0 0 (r_unique q) header footer mem in
  '(res, bufv) ← fuse_send_data_iov (r_ch q) out [] bufv flags;
  b ← derefM (Buf.buf bufv !! 0%nat);
  (if Buf.has (Buf.b_flags b) Buf.FUSE_BUF_FD_SECTION && negb (Buf.b_mem b =? 0)
   then liftS (strlen_at (Buf.b_mem b));; mret tt
   else mret tt);;
  if res <=? 0 then fuse_free_req h r;; mret res
  else fuse_reply_err h r res.
End Data.
