(* ===== verification/LLOps.v ===== *)
(** * Requests to operations (lib/fuse_lowlevel.c, 1217-2074 and 2384-2400)

    The handler of each opcode reads its arguments from the message and calls the
    operation of the file system, or answers when there is none.  A structure of the
    protocol is read field by field at the offsets it has on a 64-bit machine. *)
From S2P Require Import Prelude PosixLock Types Buf FsOps Entry Dir LLTypes LowLevel LLReply LLData.
From Stdlib Require Import QArith.
#[local] Open Scope Z_scope.

Definition FUSE_COMPAT_MKNOD_IN_SIZE : Z := 8.
Definition FUSE_COMPAT_WRITE_IN_SIZE : Z := 24.
Definition FUSE_COMPAT_SETXATTR_IN_SIZE : Z := 8.
Definition SIZEOF_OPEN_IN : Z := 8.
Definition SIZEOF_CREATE_IN : Z := 16.
Definition SIZEOF_MKNOD_IN : Z := 16.
Definition SIZEOF_MKDIR_IN : Z := 8.
Definition SIZEOF_RENAME_IN : Z := 8.
Definition SIZEOF_RENAME2_IN : Z := 16.
Definition SIZEOF_LINK_IN : Z := 8.
Definition SIZEOF_SETXATTR_IN : Z := 16.
Definition SIZEOF_GETXATTR_IN : Z := 8.
Definition SIZEOF_IOCTL_IN : Z := 32.
Definition SIZEOF_BATCH_FORGET_IN : Z := 8.
Definition SIZEOF_FORGET_ONE : Z := 16.

Definition FUSE_GETATTR_FH : Z := 1.
Definition FATTR_FH : Z := 64.
Definition FUSE_SET_ATTR_MODE : Z := 1.
Definition FUSE_SET_ATTR_UID : Z := 2.
Definition FUSE_SET_ATTR_GID : Z := 4.
Definition FUSE_SET_ATTR_SIZE : Z := 8.
Definition FUSE_SET_ATTR_ATIME : Z := 16.
Definition FUSE_SET_ATTR_MTIME : Z := 32.
Definition FUSE_SET_ATTR_ATIME_NOW : Z := 128.
Definition FUSE_SET_ATTR_MTIME_NOW : Z := 256.
Definition FUSE_SET_ATTR_CTIME : Z := 1024.
Definition FUSE_SET_ATTR_KILL_SUID : Z := 2048.
Definition FUSE_SET_ATTR_KILL_SGID : Z := 4096.
Definition FUSE_WRITE_CACHE : Z := 1.
Definition FUSE_RELEASE_FLUSH : Z := 1.
Definition FUSE_RELEASE_FLOCK_UNLOCK : Z := 2.
Definition FUSE_LK_FLOCK : Z := 1.
Definition FUSE_IOCTL_DIR : Z := 16.
Definition FUSE_POLL_SCHEDULE_NOTIFY : Z := 1.
Definition FUSE_CAP_IOCTL_DIR : Z := 2048.
Definition FUSE_CAP_SETXATTR_EXT : Z := 2 ^ 27.
Definition LOCK_SH : Z := 1.
Definition LOCK_EX : Z := 2.
Definition LOCK_NB : Z := 4.
Definition LOCK_UN : Z := 8.

(** The file information of a handle: zero but for [fh]. *)
Definition fi_of (fh : Z) : fuse_file_info := set_fi_fh fh fi0.
Definition set_fi_lock_owner (v : Z) (f : fuse_file_info) : fuse_file_info :=
  mk_fi (fi_flags f) (fi_writepage f) (fi_direct_io f) (fi_keep_cache f)
    (fi_parallel_direct_writes f) (fi_flush f) (fi_nonseekable f)
    (fi_flock_release f) (fi_cache_readdir f) (fi_noflush f) (fi_fh f) v
    (fi_poll_events f).
Definition set_fi_writepage (v : bool) (f : fuse_file_info) : fuse_file_info :=
  mk_fi (fi_flags f) v (fi_direct_io f) (fi_keep_cache f)
    (fi_parallel_direct_writes f) (fi_flush f) (fi_nonseekable f)
    (fi_flock_release f) (fi_cache_readdir f) (fi_noflush f) (fi_fh f)
    (fi_lock_owner f) (fi_poll_events f).
Definition set_fi_flush (v : bool) (f : fuse_file_info) : fuse_file_info :=
  mk_fi (fi_flags f) (fi_writepage f) (fi_direct_io f) (fi_keep_cache f)
    (fi_parallel_direct_writes f) v (fi_nonseekable f)
    (fi_flock_release f) (fi_cache_readdir f) (fi_noflush f) (fi_fh f)
    (fi_lock_owner f) (fi_poll_events f).
Definition set_fi_flock_release (v : bool) (f : fuse_file_info) : fuse_file_info :=
  mk_fi (fi_flags f) (fi_writepage f) (fi_direct_io f) (fi_keep_cache f)
    (fi_parallel_direct_writes f) (fi_flush f) (fi_nonseekable f)
    v (fi_cache_readdir f) (fi_noflush f) (fi_fh f)
    (fi_lock_owner f) (fi_poll_events f).
Definition set_fi_poll_events (v : Z) (f : fuse_file_info) : fuse_file_info :=
  mk_fi (fi_flags f) (fi_writepage f) (fi_direct_io f) (fi_keep_cache f)
    (fi_parallel_direct_writes f) (fi_flush f) (fi_nonseekable f)
    (fi_flock_release f) (fi_cache_readdir f) (fi_noflush f) (fi_fh f)
    (fi_lock_owner f) v.

(** The bits of [valid] that reach the file system. *)
Definition setattr_mask : Z :=
  Z.lor FUSE_SET_ATTR_MODE (Z.lor FUSE_SET_ATTR_UID (Z.lor FUSE_SET_ATTR_GID
  (Z.lor FUSE_SET_ATTR_SIZE (Z.lor FUSE_SET_ATTR_ATIME (Z.lor FUSE_SET_ATTR_MTIME
  (Z.lor FUSE_SET_ATTR_KILL_SUID (Z.lor FUSE_SET_ATTR_KILL_SGID
  (Z.lor FUSE_SET_ATTR_ATIME_NOW (Z.lor FUSE_SET_ATTR_MTIME_NOW
         FUSE_SET_ATTR_CTIME))))))))).

Section Ops.
Context {K : Type} (h : host K).
#[local] Abbreviation L := (M (ll K)).

(** The file system: what a member does when it is called.  The two members that
    take a vector return it, since they advance it. *)
Context (run_op : call -> L unit)
        (run_op_bufv : call -> Buf.fuse_bufvec -> L Buf.fuse_bufvec)
        (run_intr : Z -> Z -> Z -> L unit).

Definition has_op (o : fuse_lowlevel_op) : L bool := getsM (fun s => op (se s) o).
Definition ld32 (a : Z) : L Z := l ← liftS (Buf.load_bytes a 4); mret (le_num l).
Definition ld64 (a : Z) : L Z := l ← liftS (Buf.load_bytes a 8); mret (le_num l).
Definition strlen (a : Z) : L Z := liftS (strlen_at a).

(** [if (op.x) op.x(...); else ...]. *)
Definition call_or (o : fuse_lowlevel_op) (c : call) (absent : L unit) : L unit :=
  b ← has_op o; if negb b then absent else run_op c.
Definition reply_err_ (r err : Z) : L unit := fuse_reply_err h r err;; mret tt.
Definition call_op (o : fuse_lowlevel_op) (r : Z) (c : call) : L unit :=
  call_or o c (reply_err_ r ENOSYS).

Definition do_lookup (r nodeid inarg : Z) : L unit :=
  call_op op_lookup r (C_lookup r nodeid inarg).

Definition do_forget (r nodeid inarg : Z) : L unit :=
  b ← has_op op_forget;
  if negb b then fuse_reply_none h r
  else nlookup ← ld64 inarg; run_op (C_forget r nodeid nlookup).

(** [n] is the number of entries still to do, [param] the next one. *)
Fixpoint forget_each (r : Z) (n : nat) (param : Z) : L unit :=
  match n with
  | O => mret tt
  | S n =>
    dummy ← fuse_ll_alloc_req;
    if dummy =? 0 then mret tt
    else
      q ← load_req r;
      update_req dummy (set_r_unique (r_unique q));;
      update_req dummy (set_r_ctx (r_ctx q));;
      update_req dummy (set_r_ch 0);;
      nodeid ← ld64 param;
      nlookup ← ld64 (param + 8);
      run_op (C_forget dummy nodeid nlookup);;
      forget_each r n (param + SIZEOF_FORGET_ONE)
  end.

Definition do_batch_forget (r nodeid inarg : Z) : L unit :=
  let param := inarg + SIZEOF_BATCH_FORGET_IN in
  multi ← has_op op_forget_multi;
  single ← has_op op_forget;
  if negb (negb multi) then
    count ← ld32 inarg; run_op (C_forget_multi r count param)
  else if negb (negb single) then
    count ← ld32 inarg;
    forget_each r (Z.to_nat count) param;;
    fuse_reply_none h r
  else fuse_reply_none h r.

Definition do_getattr (r nodeid inarg : Z) : L unit :=
  minor ← proto_minor_of;
  fip ← (if minor <? 9 then mret None
         else
           flags ← ld32 inarg;
           if Buf.has flags FUSE_GETATTR_FH
           then fh ← ld64 (inarg + 8); mret (Some (fi_of fh))
           else mret None);
  call_op op_getattr r (C_getattr r nodeid fip).

(** [stbuf] starts as zeros; times and the size are signed there. *)
Definition convert_attr (a : Z) : L stat :=
  mode ← ld32 (a + 68); uid ← ld32 (a + 76); gid ← ld32 (a + 80);
  sz ← ld64 (a + 16);
  atime ← ld64 (a + 32); mtime ← ld64 (a + 40); ctime ← ld64 (a + 48);
  an ← ld32 (a + 56); mn ← ld32 (a + 60); cn ← ld32 (a + 64);
  mret (mk_stat 0 mode 0 uid gid 0 (Buf.ssize sz) 0 0
          (mk_timespec (Buf.ssize atime) an) (mk_timespec (Buf.ssize mtime) mn)
          (mk_timespec (Buf.ssize ctime) cn)).

Definition do_setattr (r nodeid inarg : Z) : L unit :=
  b ← has_op op_setattr;
  if negb b then reply_err_ r ENOSYS
  else
    stbuf ← convert_attr inarg;
    valid ← ld32 inarg;
    fi ← (if Buf.has valid FATTR_FH
          then fh ← ld64 (inarg + 8); mret (Some (fi_of fh))
          else mret None);
    let valid := if Buf.has valid FATTR_FH then Z.ldiff valid FATTR_FH else valid in
    let valid := Z.land valid setattr_mask in
    liftS (Buf.store_bytes inarg (le_bytes 4 valid));;
    run_op (C_setattr r nodeid stbuf (to_int valid) fi).

Definition do_access (r nodeid inarg : Z) : L unit :=
  b ← has_op op_access;
  if negb b then reply_err_ r ENOSYS
  else mask ← ld32 inarg; run_op (C_access r nodeid (to_int mask)).

Definition do_readlink (r nodeid inarg : Z) : L unit :=
  call_op op_readlink r (C_readlink r nodeid).

Definition set_umask (r v : Z) : L unit :=
  update_req r (fun q => set_r_ctx (set_c_umask v (r_ctx q)) q).

Definition do_mknod (r nodeid inarg : Z) : L unit :=
  minor ← proto_minor_of;
  name ← (if minor <? 12 then mret (inarg + FUSE_COMPAT_MKNOD_IN_SIZE)
          else umask ← ld32 (inarg + 8); set_umask r umask;;
               mret (inarg + SIZEOF_MKNOD_IN));
  b ← has_op op_mknod;
  if negb b then reply_err_ r ENOSYS
  else
    mode ← ld32 inarg; rdev ← ld32 (inarg + 4);
    run_op (C_mknod r nodeid name mode rdev).

Definition do_mkdir (r nodeid inarg : Z) : L unit :=
  minor ← proto_minor_of;
  (if minor <? 12 then mret tt
   else umask ← ld32 (inarg + 4); set_umask r umask);;
  b ← has_op op_mkdir;
  if negb b then reply_err_ r ENOSYS
  else
    mode ← ld32 inarg;
    run_op (C_mkdir r nodeid (inarg + SIZEOF_MKDIR_IN) mode).

Definition do_unlink (r nodeid inarg : Z) : L unit :=
  call_op op_unlink r (C_unlink r nodeid inarg).

Definition do_rmdir (r nodeid inarg : Z) : L unit :=
  call_op op_rmdir r (C_rmdir r nodeid inarg).

Definition do_symlink (r nodeid inarg : Z) : L unit :=
  n ← strlen inarg;
  call_op op_symlink r (C_symlink r (inarg + n + 1) nodeid inarg).

Definition do_rename (r nodeid inarg : Z) : L unit :=
  let oldname := inarg + SIZEOF_RENAME_IN in
  n ← strlen oldname;
  b ← has_op op_rename;
  if negb b then reply_err_ r ENOSYS
  else
    newdir ← ld64 inarg;
    run_op (C_rename r nodeid oldname newdir (oldname + n + 1) 0).

Definition do_rename2 (r nodeid inarg : Z) : L unit :=
  let oldname := inarg + SIZEOF_RENAME2_IN in
  n ← strlen oldname;
  b ← has_op op_rename;
  if negb b then reply_err_ r ENOSYS
  else
    newdir ← ld64 inarg; flags ← ld32 (inarg + 8);
    run_op (C_rename r nodeid oldname newdir (oldname + n + 1) flags).

Definition do_link (r nodeid inarg : Z) : L unit :=
  b ← has_op op_link;
  if negb b then reply_err_ r ENOSYS
  else
    oldnodeid ← ld64 inarg;
    run_op (C_link r oldnodeid nodeid (inarg + SIZEOF_LINK_IN)).

Definition do_create (r nodeid inarg : Z) : L unit :=
  b ← has_op op_create;
  if negb b then reply_err_ r ENOSYS
  else
    flags ← ld32 inarg;
    minor ← proto_minor_of;
    name ← (if minor <? 12 then mret (inarg + SIZEOF_OPEN_IN)
            else umask ← ld32 (inarg + 8); set_umask r umask;;
                 mret (inarg + SIZEOF_CREATE_IN));
    mode ← ld32 (inarg + 4);
    run_op (C_create r nodeid name mode (set_fi_flags (to_int flags) fi0)).

Definition do_open (r nodeid inarg : Z) : L unit :=
  flags ← ld32 inarg;
  let fi := set_fi_flags (to_int flags) fi0 in
  call_or op_open (C_open r nodeid fi) (fuse_reply_open h r fi;; mret tt).

Definition do_read (r nodeid inarg : Z) : L unit :=
  b ← has_op op_read;
  if negb b then reply_err_ r ENOSYS
  else
    fh ← ld64 inarg;
    minor ← proto_minor_of;
    fi ← (if minor <? 9 then mret (fi_of fh)
          else lock_owner ← ld64 (inarg + 24); flags ← ld32 (inarg + 32);
               mret (set_fi_flags (to_int flags) (set_fi_lock_owner lock_owner (fi_of fh))));
    sz ← ld32 (inarg + 16); offset ← ld64 (inarg + 8);
    run_op (C_read r nodeid sz (Buf.ssize offset) fi).

(** The information [do_write] and [do_write_buf] build. *)
Definition write_info (inarg : Z) : L fuse_file_info :=
  fh ← ld64 inarg;
  write_flags ← ld32 (inarg + 20);
  let fi := set_fi_writepage (Buf.has write_flags FUSE_WRITE_CACHE) (fi_of fh) in
  minor ← proto_minor_of;
  if minor <? 9 then mret fi
  else
    lock_owner ← ld64 (inarg + 24); flags ← ld32 (inarg + 32);
    mret (set_fi_flags (to_int flags) (set_fi_lock_owner lock_owner fi)).

Definition do_write (r nodeid inarg : Z) : L unit :=
  fi ← write_info inarg;
  minor ← proto_minor_of;
  let param := inarg + (if minor <? 9 then FUSE_COMPAT_WRITE_IN_SIZE else SIZEOF_WRITE_IN) in
  b ← has_op op_write;
  if negb b then reply_err_ r ENOSYS
  else
    sz ← ld32 (inarg + 16); offset ← ld64 (inarg + 8);
    run_op (C_write r nodeid param sz (Buf.ssize offset) fi).

(** A copy of [b] with [mem] and [size] changed. *)
Definition with_mem_size (mem sz : Z) (b : Buf.fuse_buf) : Buf.fuse_buf :=
  Buf.mk_fbuf sz (Buf.b_metadata b) (Buf.b_footer b) (Buf.b_flags b) mem
    (Buf.b_fd b) (Buf.b_pos b).

(** The pipe is reset when the vector has not been consumed. *)
Definition reset_unread (ibuf : Buf.fuse_buf) (bufv : Buf.fuse_bufvec) : L unit :=
  if is_fd ibuf && (Buf.idx bufv <? Buf.count bufv) then fuse_ll_clear_pipe h else mret tt.

Definition do_write_buf (r nodeid inarg : Z) (ibuf : Buf.fuse_buf) : L unit :=
  fi ← write_info inarg;
  minor ← proto_minor_of;
  (if minor <? 9 then assertM (negb (is_fd ibuf)) else mret tt);;
  let mem :=
    if minor <? 9 then inarg + FUSE_COMPAT_WRITE_IN_SIZE
    else if is_fd ibuf then Buf.b_mem ibuf else inarg + SIZEOF_WRITE_IN in
  let sz := u64 (Buf.b_size ibuf - (SIZEOF_IN_HEADER +
              (if minor <? 9 then FUSE_COMPAT_WRITE_IN_SIZE else SIZEOF_WRITE_IN))) in
  arg_size ← ld32 (inarg + 16);
  if sz <? arg_size then
    reply_err_ r EIO;;
    reset_unread ibuf (Buf.mk_bufvec 1 0 0 [with_mem_size mem sz ibuf])
  else
    offset ← ld64 (inarg + 8);
    bufv ← run_op_bufv (C_write_buf r nodeid (Buf.ssize offset) fi)
             (Buf.mk_bufvec 1 0 0 [with_mem_size mem arg_size ibuf]);
    reset_unread ibuf bufv.

Definition do_flush (r nodeid inarg : Z) : L unit :=
  fh ← ld64 inarg;
  minor ← proto_minor_of;
  lock_owner ← (if minor <? 7 then mret 0 else ld64 (inarg + 16));
  call_op op_flush r
    (C_flush r nodeid (set_fi_lock_owner lock_owner (set_fi_flush true (fi_of fh)))).

Definition do_release (r nodeid inarg : Z) : L unit :=
  flags ← ld32 (inarg + 8);
  fh ← ld64 inarg;
  release_flags ← ld32 (inarg + 12);
  minor ← proto_minor_of;
  let fi := set_fi_flags (to_int flags) (fi_of fh) in
  fi ← (if minor <? 8 then mret fi
        else lock_owner ← ld64 (inarg + 16);
             mret (set_fi_lock_owner lock_owner
                     (set_fi_flush (Buf.has release_flags FUSE_RELEASE_FLUSH) fi)));
  fi ← (if Buf.has release_flags FUSE_RELEASE_FLOCK_UNLOCK then
          lock_owner ← ld64 (inarg + 16);
          mret (set_fi_lock_owner lock_owner (set_fi_flock_release true fi))
        else mret fi);
  call_or op_release (C_release r nodeid fi) (reply_err_ r 0).

Definition do_fsync (r nodeid inarg : Z) : L unit :=
  fsync_flags ← ld32 (inarg + 8); fh ← ld64 inarg;
  call_op op_fsync r (C_fsync r nodeid (Z.land fsync_flags 1) (fi_of fh)).

Definition do_opendir (r nodeid inarg : Z) : L unit :=
  flags ← ld32 inarg;
  let fi := set_fi_flags (to_int flags) fi0 in
  call_or op_opendir (C_opendir r nodeid fi) (fuse_reply_open h r fi;; mret tt).

Definition do_readdir (r nodeid inarg : Z) : L unit :=
  fh ← ld64 inarg;
  b ← has_op op_readdir;
  if negb b then reply_err_ r ENOSYS
  else
    sz ← ld32 (inarg + 16); offset ← ld64 (inarg + 8);
    run_op (C_readdir r nodeid sz (Buf.ssize offset) (fi_of fh)).

Definition do_readdirplus (r nodeid inarg : Z) : L unit :=
  fh ← ld64 inarg;
  b ← has_op op_readdirplus;
  if negb b then reply_err_ r ENOSYS
  else
    sz ← ld32 (inarg + 16); offset ← ld64 (inarg + 8);
    run_op (C_readdirplus r nodeid sz (Buf.ssize offset) (fi_of fh)).

Definition do_releasedir (r nodeid inarg : Z) : L unit :=
  flags ← ld32 (inarg + 8); fh ← ld64 inarg;
  let fi := set_fi_flags (to_int flags) (fi_of fh) in
  call_or op_releasedir (C_releasedir r nodeid fi) (reply_err_ r 0).

Definition do_fsyncdir (r nodeid inarg : Z) : L unit :=
  fsync_flags ← ld32 (inarg + 8); fh ← ld64 inarg;
  call_op op_fsyncdir r (C_fsyncdir r nodeid (Z.land fsync_flags 1) (fi_of fh)).

Definition do_statfs (r nodeid inarg : Z) : L unit :=
  call_or op_statfs (C_statfs r nodeid)
    (fuse_reply_statfs h r (mk_statvfs 512 0 0 0 0 0 0 255);; mret tt).

Definition do_setxattr (r nodeid inarg : Z) : L unit :=
  s ← getM;
  let xattr_ext := Buf.has (want (conn (se s))) FUSE_CAP_SETXATTR_EXT in
  let name := inarg + (if xattr_ext then SIZEOF_SETXATTR_IN
                       else FUSE_COMPAT_SETXATTR_IN_SIZE) in
  n ← strlen name;
  b ← has_op op_setxattr;
  if negb b then reply_err_ r ENOSYS
  else
    sz ← ld32 inarg; flags ← ld32 (inarg + 4);
    run_op (C_setxattr r nodeid name (name + n + 1) sz (to_int flags)).

Definition do_getxattr (r nodeid inarg : Z) : L unit :=
  b ← has_op op_getxattr;
  if negb b then reply_err_ r ENOSYS
  else
    sz ← ld32 inarg;
    run_op (C_getxattr r nodeid (inarg + SIZEOF_GETXATTR_IN) sz).

Definition do_listxattr (r nodeid inarg : Z) : L unit :=
  b ← has_op op_listxattr;
  if negb b then reply_err_ r ENOSYS
  else sz ← ld32 inarg; run_op (C_listxattr r nodeid sz).

Definition do_removexattr (r nodeid inarg : Z) : L unit :=
  call_op op_removexattr r (C_removexattr r nodeid inarg).

(** [struct fuse_file_lock] at [fl] as a [struct flock]. *)
Definition convert_fuse_file_lock (fl : Z) : L PosixLock.flock :=
  start ← ld64 fl; end_ ← ld64 (fl + 8); type ← ld32 (fl + 16); pid ← ld32 (fl + 20);
  mret (PosixLock.mk_flock ((type + 2 ^ 15) mod 2 ^ 16 - 2 ^ 15) 0 (Buf.ssize start)
          (if end_ =? OFFSET_MAX then 0 else Buf.ssize (u64 (end_ - start + 1)))
          (to_int pid)).

Definition do_getlk (r nodeid inarg : Z) : L unit :=
  fh ← ld64 inarg; owner ← ld64 (inarg + 8);
  flock ← convert_fuse_file_lock (inarg + 16);
  call_op op_getlk r
    (C_getlk r nodeid (set_fi_lock_owner owner (fi_of fh)) flock).

Definition do_setlk_common (r nodeid inarg : Z) (sleep : bool) : L unit :=
  fh ← ld64 inarg; owner ← ld64 (inarg + 8);
  let fi := set_fi_lock_owner owner (fi_of fh) in
  lk_flags ← ld32 (inarg + 40);
  if Buf.has lk_flags FUSE_LK_FLOCK then
    type ← ld32 (inarg + 32);
    let op :=
      if type =? PosixLock.F_RDLCK then LOCK_SH
      else if type =? PosixLock.F_WRLCK then LOCK_EX
      else if type =? PosixLock.F_UNLCK then LOCK_UN else 0 in
    let op := if sleep then op else Z.lor op LOCK_NB in
    call_op op_flock r (C_flock r nodeid fi op)
  else
    flock ← convert_fuse_file_lock (inarg + 16);
    call_op op_setlk r (C_setlk r nodeid fi flock (if sleep then 1 else 0)).

Definition do_setlk (r nodeid inarg : Z) : L unit := do_setlk_common r nodeid inarg false.
Definition do_setlkw (r nodeid inarg : Z) : L unit := do_setlk_common r nodeid inarg true.

Definition do_bmap (r nodeid inarg : Z) : L unit :=
  b ← has_op op_bmap;
  if negb b then reply_err_ r ENOSYS
  else
    blocksize ← ld32 (inarg + 8); block ← ld64 inarg;
    run_op (C_bmap r nodeid blocksize block).

(** On a 64-bit machine [ioctl_64bit] stays 0. *)
Definition do_ioctl (r nodeid inarg : Z) : L unit :=
  flags ← ld32 (inarg + 8);
  in_size ← ld32 (inarg + 24);
  let in_buf := if in_size =? 0 then 0 else inarg + SIZEOF_IOCTL_IN in
  s ← getM;
  if Buf.has flags FUSE_IOCTL_DIR &&
     negb (Buf.has (want (conn (se s))) FUSE_CAP_IOCTL_DIR)
  then reply_err_ r ENOTTY
  else
    fh ← ld64 inarg;
    b ← has_op op_ioctl;
    if negb b then reply_err_ r ENOSYS
    else
      cmd ← ld32 (inarg + 12); arg ← ld64 (inarg + 16); out_size ← ld32 (inarg + 28);
      run_op (C_ioctl r nodeid cmd arg (fi_of fh) flags in_buf in_size out_size).

Definition fuse_pollhandle_destroy (ph : Z) : L unit :=
  if ph =? 0 then mret tt
  else s ← getM; derefM (phs s !! ph);; modifyM (fun s => set_phs (delete ph (phs s)) s).

Definition do_poll (r nodeid inarg : Z) : L unit :=
  fh ← ld64 inarg; events ← ld32 (inarg + 20);
  let fi := set_fi_poll_events events (fi_of fh) in
  b ← has_op op_poll;
  if negb b then reply_err_ r ENOSYS
  else
    flags ← ld32 (inarg + 16);
    if negb (Buf.has flags FUSE_POLL_SCHEDULE_NOTIFY)
    then run_op (C_poll r nodeid fi 0)
    else
      ok ← malloc_ok;
      if negb ok then reply_err_ r ENOMEM
      else
        kh ← ld64 (inarg + 8);
        ph ← new_obj;
        modifyM (fun s => set_phs (<[ph := mk_ph kh]> (phs s)) s);;
        run_op (C_poll r nodeid fi ph).

Definition do_fallocate (r nodeid inarg : Z) : L unit :=
  fh ← ld64 inarg;
  b ← has_op op_fallocate;
  if negb b then reply_err_ r ENOSYS
  else
    mode ← ld32 (inarg + 24); offset ← ld64 (inarg + 8); length ← ld64 (inarg + 16);
    run_op (C_fallocate r nodeid (to_int mode) (Buf.ssize offset) (Buf.ssize length)
              (fi_of fh)).

Definition do_copy_file_range (r nodeid_in inarg : Z) : L unit :=
  fh_in ← ld64 inarg; fh_out ← ld64 (inarg + 24);
  b ← has_op op_copy_file_range;
  if negb b then reply_err_ r ENOSYS
  else
    off_in ← ld64 (inarg + 8); nodeid_out ← ld64 (inarg + 16);
    off_out ← ld64 (inarg + 32); len ← ld64 (inarg + 40); flags ← ld64 (inarg + 48);
    run_op (C_copy_file_range r nodeid_in (Buf.ssize off_in) (fi_of fh_in) nodeid_out
              (Buf.ssize off_out) (fi_of fh_out) len (to_int flags)).

Definition do_lseek (r nodeid inarg : Z) : L unit :=
  fh ← ld64 inarg;
  b ← has_op op_lseek;
  if negb b then reply_err_ r ENOSYS
  else
    offset ← ld64 (inarg + 8); whence ← ld32 (inarg + 16);
    run_op (C_lseek r nodeid (Buf.ssize offset) (to_int whence) (fi_of fh)).

End Ops.
