(* ===== verification/LLInit.v ===== *)
(** * Starting and stopping a session (lib/fuse_lowlevel.c, 2076-2381)

    The INIT request: what the kernel can do, what the file system wants of it, and
    the sizes both sides agree on. *)
From S2P Require Import Prelude PosixLock Types Buf FsOps Entry Dir LLTypes LowLevel LLReply LLData LLOps.
#[local] Open Scope Z_scope.

Definition UINT_MAX : Z := 2 ^ 32 - 1.
Definition FUSE_KERNEL_VERSION : Z := 7.
Definition FUSE_KERNEL_MINOR_VERSION : Z := 38.
Definition FUSE_MIN_READ_BUFFER : Z := 8192.
Definition FUSE_BUFFER_HEADER_SIZE : Z := 4096.
Definition FUSE_DEFAULT_MAX_PAGES_PER_REQ : Z := 32.
Definition FUSE_MAX_MAX_PAGES : Z := 256.
Definition FUSE_COMPAT_INIT_OUT_SIZE : Z := 8.
Definition FUSE_COMPAT_22_INIT_OUT_SIZE : Z := 24.

(** Flags of INIT (include/fuse_kernel.h). *)
Definition FUSE_ASYNC_READ : Z := 2 ^ 0.
Definition FUSE_POSIX_LOCKS : Z := 2 ^ 1.
Definition FUSE_ATOMIC_O_TRUNC : Z := 2 ^ 3.
Definition FUSE_EXPORT_SUPPORT : Z := 2 ^ 4.
Definition FUSE_BIG_WRITES : Z := 2 ^ 5.
Definition FUSE_DONT_MASK : Z := 2 ^ 6.
Definition FUSE_FLOCK_LOCKS : Z := 2 ^ 10.
Definition FUSE_AUTO_INVAL_DATA : Z := 2 ^ 12.
Definition FUSE_DO_READDIRPLUS : Z := 2 ^ 13.
Definition FUSE_READDIRPLUS_AUTO : Z := 2 ^ 14.
Definition FUSE_ASYNC_DIO : Z := 2 ^ 15.
Definition FUSE_WRITEBACK_CACHE : Z := 2 ^ 16.
Definition FUSE_NO_OPEN_SUPPORT : Z := 2 ^ 17.
Definition FUSE_PARALLEL_DIROPS : Z := 2 ^ 18.
Definition FUSE_HANDLE_KILLPRIV : Z := 2 ^ 19.
Definition FUSE_POSIX_ACL : Z := 2 ^ 20.
Definition FUSE_MAX_PAGES : Z := 2 ^ 22.
Definition FUSE_CACHE_SYMLINKS : Z := 2 ^ 23.
Definition FUSE_NO_OPENDIR_SUPPORT : Z := 2 ^ 24.
Definition FUSE_EXPLICIT_INVAL_DATA : Z := 2 ^ 25.
Definition FUSE_SETXATTR_EXT : Z := 2 ^ 29.
Definition FUSE_INIT_EXT : Z := 2 ^ 30.

(** Capabilities of a connection (include/fuse_common.h). *)
Definition FUSE_CAP_ASYNC_READ : Z := 2 ^ 0.
Definition FUSE_CAP_POSIX_LOCKS : Z := 2 ^ 1.
Definition FUSE_CAP_ATOMIC_O_TRUNC : Z := 2 ^ 3.
Definition FUSE_CAP_EXPORT_SUPPORT : Z := 2 ^ 4.
Definition FUSE_CAP_DONT_MASK : Z := 2 ^ 6.
Definition FUSE_CAP_SPLICE_READ : Z := 2 ^ 9.
Definition FUSE_CAP_FLOCK_LOCKS : Z := 2 ^ 10.
Definition FUSE_CAP_AUTO_INVAL_DATA : Z := 2 ^ 12.
Definition FUSE_CAP_READDIRPLUS : Z := 2 ^ 13.
Definition FUSE_CAP_READDIRPLUS_AUTO : Z := 2 ^ 14.
Definition FUSE_CAP_ASYNC_DIO : Z := 2 ^ 15.
Definition FUSE_CAP_WRITEBACK_CACHE : Z := 2 ^ 16.
Definition FUSE_CAP_NO_OPEN_SUPPORT : Z := 2 ^ 17.
Definition FUSE_CAP_PARALLEL_DIROPS : Z := 2 ^ 18.
Definition FUSE_CAP_POSIX_ACL : Z := 2 ^ 19.
Definition FUSE_CAP_HANDLE_KILLPRIV : Z := 2 ^ 20.
Definition FUSE_CAP_CACHE_SYMLINKS : Z := 2 ^ 23.
Definition FUSE_CAP_NO_OPENDIR_SUPPORT : Z := 2 ^ 24.
Definition FUSE_CAP_EXPLICIT_INVAL_DATA : Z := 2 ^ 25.
Definition FUSE_CAP_EXPIRE_ONLY : Z := 2 ^ 26.

(** [if (flags & f) acc |= c] for each pair [(f, c)] in order. *)
Definition translate (table : list (Z * Z)) (flags acc : Z) : Z :=
  foldl (fun acc '(f, c) => if Buf.has flags f then Z.lor acc c else acc) acc table.

(** The flags of the kernel and the capabilities they stand for. *)
Definition capable_table : list (Z * Z) :=
  [(FUSE_ASYNC_READ, FUSE_CAP_ASYNC_READ);
   (FUSE_POSIX_LOCKS, FUSE_CAP_POSIX_LOCKS);
   (FUSE_ATOMIC_O_TRUNC, FUSE_CAP_ATOMIC_O_TRUNC);
   (FUSE_EXPORT_SUPPORT, FUSE_CAP_EXPORT_SUPPORT);
   (FUSE_DONT_MASK, FUSE_CAP_DONT_MASK);
   (FUSE_FLOCK_LOCKS, FUSE_CAP_FLOCK_LOCKS);
   (FUSE_AUTO_INVAL_DATA, FUSE_CAP_AUTO_INVAL_DATA);
   (FUSE_DO_READDIRPLUS, FUSE_CAP_READDIRPLUS);
   (FUSE_READDIRPLUS_AUTO, FUSE_CAP_READDIRPLUS_AUTO);
   (FUSE_ASYNC_DIO, FUSE_CAP_ASYNC_DIO);
   (FUSE_WRITEBACK_CACHE, FUSE_CAP_WRITEBACK_CACHE);
   (FUSE_NO_OPEN_SUPPORT, FUSE_CAP_NO_OPEN_SUPPORT);
   (FUSE_PARALLEL_DIROPS, FUSE_CAP_PARALLEL_DIROPS);
   (FUSE_POSIX_ACL, FUSE_CAP_POSIX_ACL);
   (FUSE_HANDLE_KILLPRIV, FUSE_CAP_HANDLE_KILLPRIV);
   (FUSE_CACHE_SYMLINKS, FUSE_CAP_CACHE_SYMLINKS);
   (FUSE_NO_OPENDIR_SUPPORT, FUSE_CAP_NO_OPENDIR_SUPPORT);
   (FUSE_EXPLICIT_INVAL_DATA, FUSE_CAP_EXPLICIT_INVAL_DATA);
   (FUSE_SETXATTR_EXT, FUSE_CAP_SETXATTR_EXT)].

(** The capabilities that are wanted and the flags that ask for them. *)
Definition want_table : list (Z * Z) :=
  [(FUSE_CAP_ASYNC_READ, FUSE_ASYNC_READ);
   (FUSE_CAP_POSIX_LOCKS, FUSE_POSIX_LOCKS);
   (FUSE_CAP_ATOMIC_O_TRUNC, FUSE_ATOMIC_O_TRUNC);
   (FUSE_CAP_EXPORT_SUPPORT, FUSE_EXPORT_SUPPORT);
   (FUSE_CAP_DONT_MASK, FUSE_DONT_MASK);
   (FUSE_CAP_FLOCK_LOCKS, FUSE_FLOCK_LOCKS);
   (FUSE_CAP_AUTO_INVAL_DATA, FUSE_AUTO_INVAL_DATA);
   (FUSE_CAP_READDIRPLUS, FUSE_DO_READDIRPLUS);
   (FUSE_CAP_READDIRPLUS_AUTO, FUSE_READDIRPLUS_AUTO);
   (FUSE_CAP_ASYNC_DIO, FUSE_ASYNC_DIO);
   (FUSE_CAP_WRITEBACK_CACHE, FUSE_WRITEBACK_CACHE);
   (FUSE_CAP_POSIX_ACL, FUSE_POSIX_ACL);
   (FUSE_CAP_CACHE_SYMLINKS, FUSE_CACHE_SYMLINKS);
   (FUSE_CAP_EXPLICIT_INVAL_DATA, FUSE_EXPLICIT_INVAL_DATA);
   (FUSE_CAP_SETXATTR_EXT, FUSE_SETXATTR_EXT)].

(** [LL_SET_DEFAULT(cond, cap)] for each pair in order. *)
Definition set_defaults (defaults : list (bool * Z)) (cap want : Z) : Z :=
  foldl (fun w '(cond, c) => if cond && Buf.has cap c then Z.lor w c else w)
    want defaults.

(** What is wanted unless the file system says otherwise. *)
Definition default_wants (op : fuse_lowlevel_op -> bool) : list (bool * Z) :=
  [(true, FUSE_CAP_ASYNC_READ);
   (true, FUSE_CAP_PARALLEL_DIROPS);
   (true, FUSE_CAP_AUTO_INVAL_DATA);
   (true, FUSE_CAP_HANDLE_KILLPRIV);
   (true, FUSE_CAP_ASYNC_DIO);
   (true, FUSE_CAP_IOCTL_DIR);
   (true, FUSE_CAP_ATOMIC_O_TRUNC);
   (op op_write_buf, FUSE_CAP_SPLICE_READ);
   (op op_getlk && op op_setlk, FUSE_CAP_POSIX_LOCKS);
   (op op_flock, FUSE_CAP_FLOCK_LOCKS);
   (op op_readdirplus, FUSE_CAP_READDIRPLUS);
   (op op_readdirplus && op op_readdir, FUSE_CAP_READDIRPLUS_AUTO)].

(** [struct fuse_init_out]. *)
Definition init_out (major minor max_readahead flags max_background
    congestion_threshold max_write time_gran max_pages flags2 : Z) : list Z :=
  le_bytes 4 major ++ le_bytes 4 minor ++ le_bytes 4 max_readahead ++
  le_bytes 4 flags ++ le_bytes 2 max_background ++ le_bytes 2 congestion_threshold ++
  le_bytes 4 max_write ++ le_bytes 4 time_gran ++ le_bytes 2 max_pages ++
  le_bytes 2 0 ++ le_bytes 4 flags2 ++ replicate 28 0.

Section Init.
Context {K : Type} (h : host K).
#[local] Abbreviation L := (M (ll K)).
Context (run_op : call -> L unit).

Definition fuse_session_exit : L unit := modify_se (set_exited true).
Definition fuse_session_reset : L unit :=
  modify_se (fun e => set_se_error 0 (set_exited false e)).
Definition fuse_session_exited : L bool := getsM (fun s => exited (se s)).

(** Capabilities from the flags of the kernel, 64 bits of them. *)
Definition init_flags (flags flags2 : Z) : Z :=
  if Buf.has flags FUSE_INIT_EXT then Z.lor flags (Z.shiftl flags2 32) else flags.

(** The first half of [do_init]: what the kernel offers.  Returns the flags and the
    size of the read buffer. *)
Definition init_offer (minor max_readahead_in flags flags2 bufsize : Z)
    (c : fuse_conn_info) : fuse_conn_info * Z * Z :=
  if minor <? 6 then (set_max_readahead 0 c, 0, bufsize)
  else
    let c := if max_readahead_in <? max_readahead c
             then set_max_readahead max_readahead_in c else c in
    let inargflags := init_flags flags flags2 in
    let c := set_capable (translate capable_table inargflags (capable c)) c in
    let max_bufsize := FUSE_DEFAULT_MAX_PAGES_PER_REQ * pagesize + FUSE_BUFFER_HEADER_SIZE in
    let bufsize := if negb (Buf.has inargflags FUSE_MAX_PAGES) && (max_bufsize <? bufsize)
                   then max_bufsize else bufsize in
    let c := if minor <? 38 then c
             else set_capable (Z.lor (capable c) FUSE_CAP_EXPIRE_ONLY) c in
    (c, inargflags, bufsize).

(** Capabilities of the library itself, and the default wishes.  Built with
    [HAVE_SPLICE] and [HAVE_VMSPLICE]. *)
Definition init_defaults (e : fuse_session) (c : fuse_conn_info) : fuse_conn_info :=
  let c := if proto_minor c <? 14 then c
           else
             let c := match io e with
                      | Some (_, false) => c
                      | _ => set_capable (Z.lor (capable c)
                               (Z.lor FUSE_CAP_SPLICE_WRITE FUSE_CAP_SPLICE_MOVE)) c
                      end in
             match io e with
             | Some (false, _) => c
             | _ => set_capable (Z.lor (capable c) FUSE_CAP_SPLICE_READ) c
             end in
  let c := if proto_minor c <? 18 then c
           else set_capable (Z.lor (capable c) FUSE_CAP_IOCTL_DIR) c in
  let c := set_want (set_defaults (default_wants (op e)) (capable c) (want c)) c in
  set_time_gran 1 c.

(** The limits on background requests. *)
Definition init_background (c : fuse_conn_info) : fuse_conn_info :=
  let c := if 2 ^ 16 <=? max_background c then set_max_background (2 ^ 16 - 1) c else c in
  let c := if max_background c <? congestion_threshold c
           then set_congestion_threshold (max_background c) c else c in
  if congestion_threshold c =? 0
  then set_congestion_threshold (u32 (max_background c * 3) / 4) c else c.

Definition abort_init (r : Z) : L unit :=
  fuse_reply_err h r EPROTO;;
  modify_se (set_se_error (- EPROTO));;
  fuse_session_exit.

(** The second half: the answer. *)
Definition init_reply (r minor flags inargflags bufsize : Z) : L unit :=
  s ← getM;
  let c := conn (se s) in
  (if max_write c <? u64 (bufsize - FUSE_BUFFER_HEADER_SIZE)
   then modify_se (set_bufsize (u32 (max_write c + FUSE_BUFFER_HEADER_SIZE)))
   else mret tt);;
  let maxp := Buf.has flags FUSE_MAX_PAGES in
  let max_pages := if maxp then (u32 (max_write c - 1) / pagesize + 1) mod 2 ^ 16 else 0 in
  let outargflags := Z.lor (flag maxp FUSE_MAX_PAGES) FUSE_BIG_WRITES in
  let outargflags := translate want_table (want c) outargflags in
  let ext := Buf.has inargflags FUSE_INIT_EXT in
  let outargflags := if ext then Z.lor outargflags FUSE_INIT_EXT else outargflags in
  let flags2 := if ext then Z.shiftr outargflags 32 else 0 in
  let new := negb (proto_minor c <? 13) in
  let c := if new then init_background c else c in
  modify_conn (fun _ => c);;
  let out := init_out FUSE_KERNEL_VERSION FUSE_KERNEL_MINOR_VERSION (max_readahead c)
    outargflags (if new then max_background c else 0)
    (if new then congestion_threshold c else 0) (max_write c)
    (if proto_minor c <? 23 then 0 else time_gran c) max_pages flags2 in
  let outargsize := if minor <? 5 then FUSE_COMPAT_INIT_OUT_SIZE
                    else if minor <? 23 then FUSE_COMPAT_22_INIT_OUT_SIZE else 64 in
  send_reply_ok h r (take (Z.to_nat outargsize) out);;
  mret tt.

Definition do_init (r nodeid inarg : Z) : L unit :=
  major ← ld32 inarg; minor ← ld32 (inarg + 4);
  modify_conn (fun c => set_want 0 (set_capable 0
                          (set_proto_minor minor (set_proto_major major c))));;
  if major <? 7 then reply_err_ h r EPROTO
  else if 7 <? major then
    send_reply_ok h r (init_out FUSE_KERNEL_VERSION FUSE_KERNEL_MINOR_VERSION
                         0 0 0 0 0 0 0 0);;
    mret tt
  else
    max_readahead ← (if minor <? 6 then mret 0 else ld32 (inarg + 8));
    flags ← ld32 (inarg + 12);
    flags2 ← (if (minor <? 6) || negb (Buf.has flags FUSE_INIT_EXT) then mret 0
              else ld32 (inarg + 16));
    s ← getM;
    let '(c, inargflags, bufsize) :=
      init_offer minor max_readahead flags flags2 (bufsize (se s)) (conn (se s)) in
    let c := init_defaults (se s) c in
    let bufsize := if bufsize <? FUSE_MIN_READ_BUFFER then FUSE_MIN_READ_BUFFER
                   else bufsize in
    let c := if u64 (bufsize - FUSE_BUFFER_HEADER_SIZE) <? max_write c
             then set_max_write (u32 (bufsize - FUSE_BUFFER_HEADER_SIZE)) c else c in
    modify_se (fun e => set_got_init true (set_bufsize bufsize (set_conn c e)));;
    b ← has_op op_init;
    (if negb b then mret tt else run_op C_init);;
    s ← getM;
    if negb (Z.land (want (conn (se s))) (Z.ldiff UINT_MAX (capable (conn (se s)))) =? 0)
    then abort_init r
    else if negb (max_read (conn (se s)) =? mo_max_read (se s)) then abort_init r
    else init_reply r minor flags inargflags bufsize.

Definition do_destroy (r nodeid inarg : Z) : L unit :=
  modify_se (set_got_destroy true);;
  b ← has_op op_destroy;
  (if negb b then mret tt else run_op C_destroy);;
  send_reply_ok h r [];; mret tt.

(** [fuse_session_new] after the options and with the memory it needs: the session it
    returns. *)
Definition fuse_session_new (deny_others : bool) (op : fuse_lowlevel_op -> bool)
    (owner mo_max_read : Z) : fuse_session :=
  mk_session false (-1) None deny_others op false false owner
    (mk_conn 0 0 UINT_MAX 0 UINT_MAX 0 0 0 0 0) [] [] false false None false 1 []
    (FUSE_MAX_MAX_PAGES * pagesize + FUSE_BUFFER_HEADER_SIZE) 0 mo_max_read.

(** [fuse_session_custom_io]: [io] says which functions the structure has, in the
    order of its members. *)
Definition fuse_session_custom_io (i : option (bool * bool * bool * bool)) (fd errno : Z)
    : L Z :=
  if fd <? 0 then mret (- EBADF)
  else
    match i with
    | None => mret (- EINVAL)
    | Some (writev, read, splice_receive, splice_send) =>
      if negb read || negb writev then mret (- EINVAL)
      else
        ok ← malloc_ok;
        if negb ok then mret (- errno)
        else
          modify_se (set_se_fd fd);;
          modify_se (fun e =>
            mk_session (exited e) (se_fd e) (Some (splice_receive, splice_send))
              (deny_others e) (LLTypes.op e) (got_init e) (cuse_data e) (owner e) (conn e)
              (se_list e) (se_interrupts e) (se_locked e) (got_destroy e) (pipe_key e)
              (broken_splice_nonblock e) (notify_ctr e) (notify_list e) (bufsize e)
              (se_error e) (LLTypes.mo_max_read e));;
          mret 0
    end.

(** [fuse_session_destroy], up to the release of the session itself. *)
Definition fuse_session_destroy : L unit :=
  s ← getM;
  (if got_init (se s) && negb (got_destroy (se s))
   then b ← has_op op_destroy; if negb b then mret tt else run_op C_destroy
   else mret tt);;
  s ← getM;
  (match pipe_key (se s) with Some p => fuse_ll_pipe_free h p | None => mret tt end);;
  (if se_fd (se s) =? -1 then mret tt else close h (se_fd (se s))).
End Init.
