(* ===== verification/LLSession.v ===== *)
(** * Interrupts, notifications and the session loop (lib/fuse_lowlevel.c, 1832-1901
    and 2383-3160; lib/fuse_loop.c)

    A message from the device becomes a request, passes the checks on its opcode, and
    is handed to the handler of the opcode. *)
From S2P Require Import Prelude PosixLock Types Buf FsOps Entry Dir LLTypes LowLevel LLReply LLData LLOps LLInit.
#[local] Open Scope Z_scope.

Definition FUSE_NOTIFY_POLL : Z := 1.
Definition FUSE_NOTIFY_INVAL_INODE : Z := 2.
Definition FUSE_NOTIFY_INVAL_ENTRY : Z := 3.
Definition FUSE_NOTIFY_STORE : Z := 4.
Definition FUSE_NOTIFY_RETRIEVE : Z := 5.
Definition FUSE_NOTIFY_DELETE : Z := 6.
Definition FUSE_LL_EXPIRE_ONLY : Z := 1.
Definition FUSE_EXPIRE_ONLY : Z := 1.

(** Opcodes (include/fuse_kernel.h). *)
Definition FUSE_LOOKUP : Z := 1.
Definition FUSE_FORGET : Z := 2.
Definition FUSE_GETATTR : Z := 3.
Definition FUSE_SETATTR : Z := 4.
Definition FUSE_READLINK : Z := 5.
Definition FUSE_SYMLINK : Z := 6.
Definition FUSE_MKNOD : Z := 8.
Definition FUSE_MKDIR : Z := 9.
Definition FUSE_UNLINK : Z := 10.
Definition FUSE_RMDIR : Z := 11.
Definition FUSE_RENAME : Z := 12.
Definition FUSE_LINK : Z := 13.
Definition FUSE_OPEN : Z := 14.
Definition FUSE_READ : Z := 15.
Definition FUSE_WRITE : Z := 16.
Definition FUSE_STATFS : Z := 17.
Definition FUSE_RELEASE : Z := 18.
Definition FUSE_FSYNC : Z := 20.
Definition FUSE_SETXATTR : Z := 21.
Definition FUSE_GETXATTR : Z := 22.
Definition FUSE_LISTXATTR : Z := 23.
Definition FUSE_REMOVEXATTR : Z := 24.
Definition FUSE_FLUSH : Z := 25.
Definition FUSE_INIT : Z := 26.
Definition FUSE_OPENDIR : Z := 27.
Definition FUSE_READDIR : Z := 28.
Definition FUSE_RELEASEDIR : Z := 29.
Definition FUSE_FSYNCDIR : Z := 30.
Definition FUSE_GETLK : Z := 31.
Definition FUSE_SETLK : Z := 32.
Definition FUSE_SETLKW : Z := 33.
Definition FUSE_ACCESS : Z := 34.
Definition FUSE_CREATE : Z := 35.
Definition FUSE_INTERRUPT : Z := 36.
Definition FUSE_BMAP : Z := 37.
Definition FUSE_DESTROY : Z := 38.
Definition FUSE_IOCTL : Z := 39.
Definition FUSE_POLL : Z := 40.
Definition FUSE_NOTIFY_REPLY : Z := 41.
Definition FUSE_BATCH_FORGET : Z := 42.
Definition FUSE_FALLOCATE : Z := 43.
Definition FUSE_READDIRPLUS : Z := 44.
Definition FUSE_RENAME2 : Z := 45.
Definition FUSE_LSEEK : Z := 46.
Definition FUSE_COPY_FILE_RANGE : Z := 47.
Definition CUSE_INIT : Z := 4096.

Section Session.
Context {K : Type} (h : host K).
#[local] Abbreviation L := (M (ll K)).
Context (run_op : call -> L unit)
        (run_op_bufv : call -> Buf.fuse_bufvec -> L Buf.fuse_bufvec)
        (run_intr : Z -> Z -> Z -> L unit)
        (cuse_lowlevel_init : Z -> Z -> Z -> L unit).

(** ** Interrupts *)

(** The first request of [l] for which [p] holds. *)
Fixpoint find_req (p : fuse_req -> bool) (l : list Z) : L (option Z) :=
  match l with
  | [] => mret None
  | curr :: l =>
    c ← load_req curr;
    if p c then mret (Some curr) else find_req p l
  end.

(** [func(curr, data)]. *)
Definition call_intr (func curr data : Z) : L unit :=
  if func =? 0 then mret tt else run_intr func curr data.

(** Called and left with [se->lock] held.  The request found is kept by a reference of
    its own while its function runs without that lock. *)
Definition interrupt_req (curr r : Z) : L unit :=
  update_req curr (fun c => set_r_ctr (r_ctr c + 1) c);;
  unlock_se;;
  lock_req curr;;
  lock_se;;
  update_req curr (set_r_interrupted true);;
  c ← load_req curr;
  unlock_se;;
  call_intr (r_u0 c) curr (r_u1 c);;
  unlock_req curr;;
  lock_se;;
  update_req curr (fun c => set_r_ctr (r_ctr c - 1) c);;
  c ← load_req curr;
  if r_ctr c =? 0 then
    q ← load_req r;
    fuse_chan_put h (r_ch q);;
    update_req r (set_r_ch 0);;
    destroy_req curr
  else mret tt.

Definition find_interrupted (r : Z) : L bool :=
  q ← load_req r;
  s ← getM;
  curr ← find_req (fun c => r_unique c =? r_u0 q) (se_list (se s));
  match curr with
  | Some curr => interrupt_req curr r;; mret true
  | None =>
    curr ← find_req (fun c => r_u0 c =? r_u0 q) (se_interrupts (se s));
    match curr with Some _ => mret true | None => mret false end
  end.

(** An interrupt request that is dropped. *)
Definition drop_interrupt (r : Z) : L unit :=
  q ← load_req r;
  fuse_chan_put h (r_ch q);;
  update_req r (set_r_ch 0);;
  destroy_req r.

Definition interrupt_unique (r unique : Z) : L unit :=
  update_req r (set_r_u0 unique);;
  lock_se;;
  found ← find_interrupted r;
  (if negb (negb found) then drop_interrupt r else list_add_interrupt r);;
  unlock_se.

Definition do_interrupt (r nodeid inarg : Z) : L unit :=
  unique ← ld64 inarg;
  interrupt_unique r unique.

(** The interrupt to be answered, or 0. *)
Definition check_interrupt (r : Z) : L Z :=
  q ← load_req r;
  s ← getM;
  curr ← find_req (fun c => r_u0 c =? r_unique q) (se_interrupts (se s));
  match curr with
  | Some curr =>
    update_req r (set_r_interrupted true);;
    list_del_req curr;;
    drop_interrupt curr;;
    mret 0
  | None =>
    match se_interrupts (se s) with
    | curr :: _ => list_del_req curr;; list_init_req curr;; mret curr
    | [] => mret 0
    end
  end.

Definition fuse_req_interrupt_func (r func data : Z) : L unit :=
  lock_req r;;
  lock_se;;
  update_req r (set_r_u0 func);;
  update_req r (set_r_u1 data);;
  unlock_se;;
  q ← load_req r;
  (if r_interrupted q && negb (func =? 0) then run_intr func r data else mret tt);;
  unlock_req r.

Definition fuse_req_interrupted (r : Z) : L bool :=
  lock_se;; q ← load_req r; unlock_se;; mret (r_interrupted q).

(** ** Notifications *)
Definition junk_out (error : Z) (s : ll K) : fuse_out_header :=
  let '(header, footer, mem) := h_junk h (Buf.kern (sysm s)) in
  mk_out 0 error 0 header footer mem.

(** The header is a local variable of which [unique] and [error] are set. *)
Definition send_notify_iov (notify_code : Z) (iov : list (list Z)) : L Z :=
  s ← getM;
  if negb (got_init (se s)) then mret (- ENOTCONN)
  else fuse_send_msg h 0 (junk_out notify_code s) iov.

Definition fuse_lowlevel_notify_poll (ph : Z) : L Z :=
  if ph =? 0 then mret 0
  else
    s ← getM; p ← derefM (phs s !! ph);
    send_notify_iov FUSE_NOTIFY_POLL [le_bytes 8 (kh p)].

Definition fuse_lowlevel_notify_inval_inode (ino off len : Z) : L Z :=
  minor ← proto_minor_of;
  if minor <? 12 then mret (- ENOSYS)
  else
    send_notify_iov FUSE_NOTIFY_INVAL_INODE [le_bytes 8 ino ++ le_bytes 8 off ++ le_bytes 8 len].

Definition fuse_lowlevel_notify_expire_entry (parent name namelen flags : Z) : L Z :=
  minor ← proto_minor_of;
  if minor <? 12 then mret (- ENOSYS)
  else
    nm ← liftS (Buf.load_bytes name (u64 (namelen + 1)));
    send_notify_iov FUSE_NOTIFY_INVAL_ENTRY
      [le_bytes 8 parent ++ le_bytes 4 namelen ++
       le_bytes 4 (flag (Buf.has flags FUSE_LL_EXPIRE_ONLY) FUSE_EXPIRE_ONLY); nm].

Definition fuse_lowlevel_notify_inval_entry (parent name namelen : Z) : L Z :=
  fuse_lowlevel_notify_expire_entry parent name namelen 0.

Definition fuse_lowlevel_notify_delete (parent child name namelen : Z) : L Z :=
  minor ← proto_minor_of;
  if minor <? 18 then mret (- ENOSYS)
  else
    nm ← liftS (Buf.load_bytes name (u64 (namelen + 1)));
    send_notify_iov FUSE_NOTIFY_DELETE
      [le_bytes 8 parent ++ le_bytes 8 child ++ le_bytes 4 namelen ++ le_bytes 4 0; nm].

(** Returns also the vector, which the copy advances. *)
Definition fuse_lowlevel_notify_store (ino offset : Z) (bufv : Buf.fuse_bufvec) (flags : Z)
    : L (Z * Buf.fuse_bufvec) :=
  minor ← proto_minor_of;
  if minor <? 15 then mret (- ENOSYS, bufv)
  else
    s ← getM;
    '(res, bufv) ← fuse_send_data_iov h 0 (junk_out FUSE_NOTIFY_STORE s)
      [le_bytes 8 ino ++ le_bytes 8 offset ++
       le_bytes 4 (Buf.fuse_buf_size bufv) ++ le_bytes 4 0] bufv flags;
    mret (if 0 <? res then - res else res, bufv).

(** [list_add_nreq(nreq, &se->notify_list)], [list_del_nreq]. *)
Definition list_add_nreq (n : Z) : L unit :=
  modify_se (fun e => set_notify_list (notify_list e ++ [n]) e).
Definition list_del_nreq (n : Z) : L unit :=
  modify_se (fun e => set_notify_list (remove_req n (notify_list e)) e).

Definition fuse_lowlevel_notify_retrieve (ino sz offset cookie : Z) : L Z :=
  minor ← proto_minor_of;
  if minor <? 15 then mret (- ENOSYS)
  else
    ok ← malloc_ok;
    if negb ok then mret (- ENOMEM)
    else
      rreq ← new_obj;
      lock_se;;
      s ← getM;
      let unique := notify_ctr (se s) in
      modify_se (set_notify_ctr (u64 (unique + 1)));;
      modifyM (fun s => set_rreqs (<[rreq := mk_rreq unique cookie]> (rreqs s)) s);;
      list_add_nreq rreq;;
      unlock_se;;
      err ← send_notify_iov FUSE_NOTIFY_RETRIEVE
        [le_bytes 8 unique ++ le_bytes 8 ino ++ le_bytes 8 offset ++
         le_bytes 4 sz ++ le_bytes 4 0];
      (if err =? 0 then mret tt
       else
         lock_se;;
         list_del_nreq rreq;;
         unlock_se;;
         modifyM (fun s => set_rreqs (delete rreq (rreqs s)) s));;
      mret err.

Definition fuse_ll_retrieve_reply (n r ino inarg : Z) (ibuf : Buf.fuse_buf) : L unit :=
  s ← getM;
  rreq ← derefM (rreqs s !! n);
  let mem := if is_fd ibuf then Buf.b_mem ibuf else inarg + SIZEOF_WRITE_IN in
  let sz := u64 (Buf.b_size ibuf - (SIZEOF_IN_HEADER + SIZEOF_WRITE_IN)) in
  arg_size ← ld32 (inarg + 16);
  bufv ←
    (if sz <? arg_size then
       fuse_reply_none h r;; mret (Buf.mk_bufvec 1 0 0 [with_mem_size mem sz ibuf])
     else
       let bufv := Buf.mk_bufvec 1 0 0 [with_mem_size mem arg_size ibuf] in
       b ← has_op op_retrieve_reply;
       if negb b then fuse_reply_none h r;; mret bufv
       else
         offset ← ld64 (inarg + 8);
         run_op_bufv (C_retrieve_reply r (cookie rreq) ino (Buf.ssize offset)) bufv);
  modifyM (fun s => set_rreqs (delete n (rreqs s)) s);;
  reset_unread h ibuf bufv.

Fixpoint find_nreq (unique : Z) (l : list Z) : L (option Z) :=
  match l with
  | [] => mret None
  | n :: l =>
    s ← getM;
    q ← derefM (rreqs s !! n);
    if nr_unique q =? unique then mret (Some n) else find_nreq unique l
  end.

Definition do_notify_reply (r nodeid inarg : Z) (buf : Buf.fuse_buf) : L unit :=
  q ← load_req r;
  lock_se;;
  s ← getM;
  n ← find_nreq (r_unique q) (notify_list (se s));
  (match n with Some n => list_del_nreq n | None => mret tt end);;
  unlock_se;;
  match n with
  | Some n => fuse_ll_retrieve_reply n r nodeid inarg buf
  | None => mret tt
  end.

(** ** Dispatch *)

(** [fuse_ll_ops]; an opcode without an entry has no function. *)
Definition fuse_ll_ops (opcode : Z) : option (Z -> Z -> Z -> L unit) :=
  if opcode =? FUSE_LOOKUP then Some (do_lookup h run_op)
  else if opcode =? FUSE_FORGET then Some (do_forget h run_op)
  else if opcode =? FUSE_GETATTR then Some (do_getattr h run_op)
  else if opcode =? FUSE_SETATTR then Some (do_setattr h run_op)
  else if opcode =? FUSE_READLINK then Some (do_readlink h run_op)
  else if opcode =? FUSE_SYMLINK then Some (do_symlink h run_op)
  else if opcode =? FUSE_MKNOD then Some (do_mknod h run_op)
  else if opcode =? FUSE_MKDIR then Some (do_mkdir h run_op)
  else if opcode =? FUSE_UNLINK then Some (do_unlink h run_op)
  else if opcode =? FUSE_RMDIR then Some (do_rmdir h run_op)
  else if opcode =? FUSE_RENAME then Some (do_rename h run_op)
  else if opcode =? FUSE_LINK then Some (do_link h run_op)
  else if opcode =? FUSE_OPEN then Some (do_open h run_op)
  else if opcode =? FUSE_READ then Some (do_read h run_op)
  else if opcode =? FUSE_WRITE then Some (do_write h run_op)
  else if opcode =? FUSE_STATFS then Some (do_statfs h run_op)
  else if opcode =? FUSE_RELEASE then Some (do_release h run_op)
  else if opcode =? FUSE_FSYNC then Some (do_fsync h run_op)
  else if opcode =? FUSE_SETXATTR then Some (do_setxattr h run_op)
  else if opcode =? FUSE_GETXATTR then Some (do_getxattr h run_op)
  else if opcode =? FUSE_LISTXATTR then Some (do_listxattr h run_op)
  else if opcode =? FUSE_REMOVEXATTR then Some (do_removexattr h run_op)
  else if opcode =? FUSE_FLUSH then Some (do_flush h run_op)
  else if opcode =? FUSE_INIT then Some (do_init h run_op)
  else if opcode =? FUSE_OPENDIR then Some (do_opendir h run_op)
  else if opcode =? FUSE_READDIR then Some (do_readdir h run_op)
  else if opcode =? FUSE_RELEASEDIR then Some (do_releasedir h run_op)
  else if opcode =? FUSE_FSYNCDIR then Some (do_fsyncdir h run_op)
  else if opcode =? FUSE_GETLK then Some (do_getlk h run_op)
  else if opcode =? FUSE_SETLK then Some (do_setlk h run_op)
  else if opcode =? FUSE_SETLKW then Some (do_setlkw h run_op)
  else if opcode =? FUSE_ACCESS then Some (do_access h run_op)
  else if opcode =? FUSE_CREATE then Some (do_create h run_op)
  else if opcode =? FUSE_INTERRUPT then Some do_interrupt
  else if opcode =? FUSE_BMAP then Some (do_bmap h run_op)
  else if opcode =? FUSE_IOCTL then Some (do_ioctl h run_op)
  else if opcode =? FUSE_POLL then Some (do_poll h run_op)
  else if opcode =? FUSE_FALLOCATE then Some (do_fallocate h run_op)
  else if opcode =? FUSE_DESTROY then Some (do_destroy h run_op)
  else if opcode =? FUSE_NOTIFY_REPLY then Some (fun _ _ _ => crashM BadAccess)
  else if opcode =? FUSE_BATCH_FORGET then Some (do_batch_forget h run_op)
  else if opcode =? FUSE_READDIRPLUS then Some (do_readdirplus h run_op)
  else if opcode =? FUSE_RENAME2 then Some (do_rename2 h run_op)
  else if opcode =? FUSE_COPY_FILE_RANGE then Some (do_copy_file_range h run_op)
  else if opcode =? FUSE_LSEEK then Some (do_lseek h run_op)
  else if opcode =? CUSE_INIT then Some cuse_lowlevel_init
  else None.

(** The opcodes that other users than the owner and root may send. *)
Definition open_to_others (opcode : Z) : bool :=
  existsb (Z.eqb opcode)
    [FUSE_INIT; FUSE_READ; FUSE_WRITE; FUSE_FSYNC; FUSE_RELEASE; FUSE_READDIR;
     FUSE_FSYNCDIR; FUSE_RELEASEDIR; FUSE_NOTIFY_REPLY; FUSE_READDIRPLUS].

(** The checks before a request is accepted: the error it is answered with. *)
Definition refuse (e : fuse_session) (opcode uid : Z) : option Z :=
  if (if got_init e then (opcode =? FUSE_INIT) || (opcode =? CUSE_INIT)
      else negb (opcode =? (if cuse_data e then CUSE_INIT else FUSE_INIT)))
  then Some EIO
  else if deny_others e && negb (uid =? owner e) && negb (uid =? 0) &&
          negb (open_to_others opcode) then Some EACCES
  else match fuse_ll_ops opcode with None => Some ENOSYS | Some _ => None end.

(** Returns 0, or a negative number, and the vector that was read. *)
Definition fuse_ll_copy_from_pipe (dst src : Buf.fuse_bufvec)
    : L (Z * Buf.fuse_bufvec) :=
  '(res, dst, src) ← fuse_buf_copy h dst src 0;
  if res <? 0 then mret (to_int res, src)
  else if u64 res <? Buf.fuse_buf_size dst then mret (-1, src) else mret (0, src).

(** [realloc(p, n)] of a block that grows: the new block, or 0. *)
Definition realloc (p n : Z) : L Z :=
  q ← malloc n;
  if q =? 0 then mret 0
  else
    s ← getM;
    old ← derefM (Buf.blocks (sysm s) !! p);
    data ← liftS (Buf.load_bytes p old);
    liftS (Buf.store_bytes q data);;
    free p;;
    mret q.

Definition WRITE_HEADER_SIZE : Z := SIZEOF_IN_HEADER + SIZEOF_WRITE_IN.

(** [clear_pipe: ... out_free:]. *)
Definition process_clear (buf : Buf.fuse_buf) (mbuf : Z) : L unit :=
  (if is_fd buf then fuse_ll_clear_pipe h else mret tt);; free mbuf.
Definition process_err (r err : Z) (buf : Buf.fuse_buf) (mbuf : Z) : L unit :=
  reply_err_ h r err;; process_clear buf mbuf.

(** The rest of a message whose header has been taken from the pipe.  Returns the
    buffer, or the error. *)
Definition read_rest (buf : Buf.fuse_buf) (mbuf : Z) (bufv : Buf.fuse_bufvec)
    : L (Z * option Z) :=
  newmbuf ← realloc mbuf (Buf.b_size buf);
  if newmbuf =? 0 then mret (mbuf, Some ENOMEM)
  else
    let tmp := mem_vec (u64 (Buf.b_size buf - WRITE_HEADER_SIZE))
                 (newmbuf + WRITE_HEADER_SIZE) 0 in
    '(res, _) ← fuse_ll_copy_from_pipe tmp bufv;
    mret (newmbuf, if res <? 0 then Some (- res) else None).

(** The request is accepted: the interrupts that wait are looked at, and it joins
    the list. *)
Definition accept_req (r opcode : Z) : L unit :=
  if opcode =? FUSE_INTERRUPT then mret tt
  else
    lock_se;;
    intr ← check_interrupt r;
    list_add_req r;;
    unlock_se;;
    if intr =? 0 then mret tt else reply_err_ h intr EAGAIN.

Definition call_handler (r opcode nodeid inarg : Z) (buf : Buf.fuse_buf) : L unit :=
  wb ← has_op op_write_buf;
  if (opcode =? FUSE_WRITE) && wb then do_write_buf h run_op_bufv r nodeid inarg buf
  else if opcode =? FUSE_NOTIFY_REPLY then do_notify_reply r nodeid inarg buf
  else
    func ← derefM (fuse_ll_ops opcode);
    func r nodeid inarg.

(** The members of a new request. *)
Definition fill_req (r unique : Z) (ctx : fuse_ctx) (ch : Z) : L unit :=
  update_req r (set_r_unique unique);;
  update_req r (set_r_ctx ctx);;
  ch ← (if ch =? 0 then mret 0 else fuse_chan_get ch);
  update_req r (set_r_ch ch).

(** From the header at [in_] on. *)
Definition process_request (buf : Buf.fuse_buf) (ch in_ mbuf : Z)
    (bufv : Buf.fuse_bufvec) : L unit :=
  unique ← ld64 (in_ + 8);
  r ← fuse_ll_alloc_req;
  if r =? 0 then
    fuse_send_msg h ch (mk_out 0 (- ENOMEM) unique 0 0 0) [];;
    process_clear buf mbuf
  else
    uid ← ld32 (in_ + 24); gid ← ld32 (in_ + 28); pid ← ld32 (in_ + 32);
    fill_req r unique (mk_ctx uid gid (to_int pid) 0) ch;;
    opcode ← ld32 (in_ + 4);
    s ← getM;
    match refuse (se s) opcode uid with
    | Some err => process_err r err buf mbuf
    | None =>
      accept_req r opcode;;
      wb ← has_op op_write_buf;
      '(in_, mbuf, err) ←
        (if is_fd buf && (WRITE_HEADER_SIZE <? Buf.b_size buf) &&
            (negb (opcode =? FUSE_WRITE) || negb wb) &&
            negb (opcode =? FUSE_NOTIFY_REPLY)
         then '(mbuf, err) ← read_rest buf mbuf bufv; mret (mbuf, mbuf, err)
         else mret (in_, mbuf, None));
      match err with
      | Some err => process_err r err buf mbuf
      | None =>
        nodeid ← ld64 (in_ + 16);
        call_handler r opcode nodeid (in_ + SIZEOF_IN_HEADER) buf;;
        free mbuf
      end
    end.

Definition fuse_session_process_buf_int (buf : Buf.fuse_buf) (ch : Z) : L unit :=
  let bufv := Buf.mk_bufvec 1 0 0 [buf] in
  if is_fd buf then
    let sz := Z.min WRITE_HEADER_SIZE (Buf.b_size buf) in
    mbuf ← malloc sz;
    if mbuf =? 0 then process_clear buf 0
    else
      '(res, bufv) ← fuse_ll_copy_from_pipe (mem_vec sz mbuf 0) bufv;
      if res <? 0 then process_clear buf mbuf
      else process_request buf ch mbuf mbuf bufv
  else process_request buf ch (Buf.b_mem buf) 0 bufv.

Definition fuse_session_process_buf (buf : Buf.fuse_buf) : L unit :=
  fuse_session_process_buf_int buf 0.

(** ** Reading from the device *)

(** [buf->mem] is allocated the first time; [None] when there is no memory. *)
Definition read_buffer (buf : Buf.fuse_buf) : L (option Buf.fuse_buf) :=
  if negb (Buf.b_mem buf =? 0) then mret (Some buf)
  else
    s ← getM;
    mem ← malloc (bufsize (se s));
    if mem =? 0 then mret None
    else mret (Some (with_mem_size mem (Buf.b_size buf) buf)).

(** [restart:]; [fuel] bounds the number of reads that end with [ENOENT]. *)
Fixpoint read_device (fuel : nat) (fd : Z) (buf : Buf.fuse_buf)
    : L (Z * Buf.fuse_buf) :=
  match fuel with
  | O => crashM OutOfFuel
  | S fuel =>
    s ← getM;
    let n := bufsize (se s) in
    '(res, err, data) ← liftS (Buf.call (match io (se s) with
                                         | Some _ => h_io_read h fd n
                                         | None => Buf.sys_read (h_sys h) fd n
                                         end));
    (if res =? -1 then mret tt else liftS (Buf.store_bytes (Buf.b_mem buf) data));;
    if exited (se s) then mret (0, buf)
    else if res =? -1 then
      if err =? ENOENT then read_device fuel fd buf
      else if err =? ENODEV then fuse_session_exit;; mret (0, buf)
      else mret (- err, buf)
    else if res <? SIZEOF_IN_HEADER then mret (- EIO, buf)
    else mret (to_int res, with_mem_size (Buf.b_mem buf) res buf)
  end.

Definition receive_fallback (fuel : nat) (ch : Z) (buf : Buf.fuse_buf)
    : L (Z * Buf.fuse_buf) :=
  b ← read_buffer buf;
  match b with
  | None => mret (- ENOMEM, buf)
  | Some buf => fd ← send_fd ch; read_device fuel fd buf
  end.

(** [res] bytes are in the pipe: a small request is copied to memory. *)
Definition receive_piped (p : fuse_ll_pipe) (res : Z) (buf : Buf.fuse_buf)
    : L (Z * Buf.fuse_buf) :=
  let tmpbuf := Buf.mk_fbuf res 0 0 Buf.FUSE_BUF_IS_FD 0 (pipe_rd p) 0 in
  if res <? SIZEOF_IN_HEADER + SIZEOF_WRITE_IN + pagesize then
    b ← read_buffer buf;
    match b with
    | None => mret (- ENOMEM, buf)
    | Some buf =>
      s ← getM;
      let buf := Buf.mk_fbuf (bufsize (se s)) (Buf.b_metadata buf) (Buf.b_footer buf) 0
                   (Buf.b_mem buf) (Buf.b_fd buf) (Buf.b_pos buf) in
      '(n, _, _) ← fuse_buf_copy h (Buf.mk_bufvec 1 0 0 [buf]) (Buf.mk_bufvec 1 0 0 [tmpbuf]) 0;
      if n <? 0 then fuse_ll_clear_pipe h;; mret (to_int n, buf)
      else if n <? res then fuse_ll_clear_pipe h;; mret (- EIO, buf)
      else
        assertM (n =? res);;
        mret (to_int n, with_mem_size (Buf.b_mem buf) res buf)
    end
  else
    mret (to_int res,
          Buf.mk_fbuf res (Buf.b_metadata buf) (Buf.b_footer buf) Buf.FUSE_BUF_IS_FD
            (Buf.b_mem buf) (pipe_rd p) (Buf.b_pos buf)).

(** The device is spliced into the pipe of the thread where that is possible. *)
Definition fuse_session_receive_buf_int (fuel : nat) (buf : Buf.fuse_buf) (ch : Z)
    : L (Z * Buf.fuse_buf) :=
  s ← getM;
  let n := bufsize (se s) in
  if (proto_minor (conn (se s)) <? 14) ||
     negb (Buf.has (want (conn (se s))) FUSE_CAP_SPLICE_READ)
  then receive_fallback fuel ch buf
  else
    llp ← fuse_ll_get_pipe h;
    match llp with
    | None => receive_fallback fuel ch buf
    | Some p =>
      p ← grow_pipe h p n;
      match p with
      | None => receive_fallback fuel ch buf
      | Some p =>
        fd ← send_fd ch;
        '(res, err) ← liftS (Buf.call
          (match io (se s) with
           | Some (true, _) => h_io_splice_receive h fd (pipe_wr p) n
           | _ => Buf.sys_splice (h_sys h) fd None (pipe_wr p) None n 0
           end));
        s ← getM;
        if exited (se s) then mret (0, buf)
        else if res =? -1 then
          if err =? ENODEV then fuse_session_exit;; mret (0, buf)
          else mret (- err, buf)
        else if u64 res <? SIZEOF_IN_HEADER then mret (- EIO, buf)
        else receive_piped p res buf
      end
    end.

(** ** The session loop (lib/fuse_loop.c): [fuel] bounds its iterations. *)
Fixpoint session_loop (fuel : nat) (res : Z) (fbuf : Buf.fuse_buf) : L (Z * Buf.fuse_buf) :=
  stop ← fuse_session_exited;
  if negb (negb stop) then mret (res, fbuf)
  else
    match fuel with
    | O => crashM OutOfFuel
    | S fuel' =>
      '(res, fbuf) ← fuse_session_receive_buf_int fuel fbuf 0;
      if res =? - EINTR then session_loop fuel' res fbuf
      else if res <=? 0 then mret (res, fbuf)
      else fuse_session_process_buf_int fbuf 0;; session_loop fuel' res fbuf
    end.

Definition fuse_session_loop (fuel : nat) : L Z :=
  '(res, fbuf) ← session_loop fuel 0 (Buf.mk_fbuf 0 0 0 0 0 0 0);
  free (Buf.b_mem fbuf);;
  s ← getM;
  let res := if 0 <? res then 0 else res in
  let res := if negb (se_error (se s) =? 0) then se_error (se s) else res in
  fuse_session_reset;;
  mret res.

End Session.
