(* ===== verification/LLFacts.v ===== *)
(** * The low-level library: reading messages

    What the loads of the handlers return on a message that is laid out field by
    field, and the effect of the small operations on the state. *)
From S2P Require Import Prelude PosixLock Types Buf BufFacts FsOps Entry Dir LLTypes LowLevel LLReply LLData LLOps LLInit LLSession.
#[local] Open Scope Z_scope.

(** A structure: the width and the value of each field. *)
Definition w4 (z : Z) : nat * Z := (4%nat, z).
Definition w8 (z : Z) : nat * Z := (8%nat, z).

Definition enc (fs : list (nat * Z)) : list Z :=
  concat ((fun f => le_bytes f.1 f.2) <$> fs).

Fixpoint field_at (fs : list (nat * Z)) (off : Z) : option (nat * Z) :=
  match fs with
  | [] => None
  | f :: fs => if off =? 0 then Some f else field_at fs (off - Z.of_nat f.1)
  end.

Fixpoint enc_size (fs : list (nat * Z)) : Z :=
  match fs with [] => 0 | f :: fs => Z.of_nat f.1 + enc_size fs end.

Lemma enc_length fs : Z.of_nat (length (enc fs)) = enc_size fs.
Proof.
  induction fs as [|f fs IH]; [done|].
  change (enc (f :: fs)) with (le_bytes f.1 f.2 ++ enc fs).
  rewrite length_app, le_bytes_length, Nat2Z.inj_add, IH. done.
Qed.

Lemma holds_app_inv m a l1 l2 :
  holds m a (l1 ++ l2) -> holds m a l1 /\ holds m (a + Z.of_nat (length l1)) l2.
Proof.
  intros H. split; intros i.
  - destruct (decide (length l1 <= i)%nat); [by right|left].
    destruct (H i) as [->|Hi]; [by rewrite lookup_app_l by lia|].
    rewrite length_app in Hi. lia.
  - destruct (H (length l1 + i)%nat) as [Hi|Hi].
    + left. rewrite lookup_app_r in Hi by lia.
      replace (length l1 + i - length l1)%nat with i in Hi by lia.
      rewrite <- Hi. f_equal. lia.
    + right. rewrite length_app in Hi. lia.
Qed.

Lemma field_at_split fs : forall off n z, field_at fs off = Some (n, z) ->
  exists fs1 fs2, fs = fs1 ++ (n, z) :: fs2 /\ off = enc_size fs1.
Proof.
  induction fs as [|f fs IH]; intros off n z; simpl; [done|].
  case (Z.eqb_spec off 0) as [->|Hne]; intros Hf.
  - injection Hf as ->. exists [], fs. split; done.
  - apply IH in Hf as (fs1 & fs2 & -> & Hoff). exists (f :: fs1), fs2.
    split; [done|]. simpl. lia.
Qed.

Lemma enc_app fs1 fs2 : enc (fs1 ++ fs2) = enc fs1 ++ enc fs2.
Proof. unfold enc. by rewrite fmap_app, concat_app. Qed.

Section Loads.
Context {K : Type}.
Implicit Types (s : ll K).
#[local] Abbreviation bytes s := (Buf.mem (sysm s)).

Lemma load_holds s a l : holds (bytes s) a l ->
  liftS (Buf.load_bytes a (Z.of_nat (length l))) s = Ok (l, s).
Proof.
  intros Hl. unfold liftS, Buf.load_bytes, mbind, M_bind, getM.
  rewrite (holds_mapM _ _ _ Hl). by destruct s.
Qed.

Lemma field_holds s a fs tail off n z x : holds (bytes s) a (enc fs ++ tail) ->
  field_at fs off = Some (n, z) -> x = a + off -> holds (bytes s) x (le_bytes n z).
Proof.
  intros Hh (fs1 & fs2 & -> & ->)%field_at_split ->.
  apply holds_app_inv in Hh as [Hh _]. rewrite enc_app in Hh.
  apply holds_app_inv in Hh as [_ Hh]. rewrite enc_length in Hh.
  change (enc ((n, z) :: fs2)) with (le_bytes n z ++ enc fs2) in Hh.
  by apply holds_app_inv in Hh as [Hh _].
Qed.

Lemma ld32_field s a fs tail off z x : holds (bytes s) a (enc fs ++ tail) ->
  field_at fs off = Some (4%nat, z) -> x = a + off -> ld32 x s = Ok (u32 z, s).
Proof.
  intros Hh Hf Hx. unfold ld32. pose proof (field_holds _ _ _ _ _ _ _ _ Hh Hf Hx) as Hl.
  apply load_holds in Hl. rewrite le_bytes_length in Hl.
  change (Z.of_nat 4) with 4 in Hl. rewrite (bind_Ok _ _ _ _ _ Hl).
  unfold mret, M_ret. by rewrite le_num_bytes.
Qed.

Lemma ld64_field s a fs tail off z x : holds (bytes s) a (enc fs ++ tail) ->
  field_at fs off = Some (8%nat, z) -> x = a + off -> ld64 x s = Ok (u64 z, s).
Proof.
  intros Hh Hf Hx. unfold ld64. pose proof (field_holds _ _ _ _ _ _ _ _ Hh Hf Hx) as Hl.
  apply load_holds in Hl. rewrite le_bytes_length in Hl.
  change (Z.of_nat 8) with 8 in Hl. rewrite (bind_Ok _ _ _ _ _ Hl).
  unfold mret, M_ret. by rewrite le_num_bytes.
Qed.

(** A string in memory: its bytes, none of them 0, and the 0 that ends it. *)
Definition no_zero (l : list Z) : Prop := Forall (fun b => b <> 0) l.

Lemma strlen_loop_holds (b : Buf.sys K) l tail : forall fuel a n, no_zero l ->
  holds (Buf.mem b) a (l ++ 0 :: tail) -> (length l < fuel)%nat ->
  strlen_loop fuel a n b = Ok (n + Z.of_nat (length l), b).
Proof.
  induction l as [|c l IH]; intros [|fuel] a n Hz Hh Hfuel; simpl in Hfuel; try lia.
  - simpl. unfold mbind, M_bind, getM.
    destruct (Hh O) as [Hb|Hlen]; [|simpl in Hlen; lia].
    rewrite Z.add_0_r in Hb. simpl in Hb. rewrite Hb. simpl.
    unfold mret, M_ret. by rewrite Z.add_0_r.
  - apply Forall_cons in Hz as [Hc Hz]. simpl. unfold mbind, M_bind, getM.
    destruct (Hh O) as [Hb|Hlen]; [|simpl in Hlen; lia].
    rewrite Z.add_0_r in Hb. simpl in Hb. rewrite Hb. simpl.
    case (Z.eqb_spec c 0) as [->|_]; [done|].
    rewrite (IH fuel (a + 1) (n + 1)); [f_equal; f_equal; lia|done| |lia].
    apply (holds_app_inv _ _ [c]) in Hh as [_ Hh]. done.
Qed.

Lemma holds_size m a l : holds m a l -> (length l <= size m)%nat.
Proof.
  intros Hl. set (xs := (fun i => a + Z.of_nat i) <$> seq 0 (length l)).
  assert (Hnd : NoDup xs) by (apply NoDup_fmap_2; [intros i j; lia|apply NoDup_seq]).
  rewrite <- size_dom.
  replace (length l) with (size (list_to_set xs : gset Z)).
  2:{ rewrite size_list_to_set by done. unfold xs. by rewrite length_fmap, length_seq. }
  apply subseteq_size. intros x Hx. apply elem_of_list_to_set, list_elem_of_fmap in Hx
    as (i & -> & Hi). apply elem_of_seq in Hi. apply elem_of_dom.
  destruct (Hl i) as [->|]; [|lia]. apply lookup_lt_is_Some. lia.
Qed.

Lemma strlen_holds s a l tail : no_zero l -> holds (bytes s) a (l ++ 0 :: tail) ->
  strlen a s = Ok (Z.of_nat (length l), s).
Proof.
  intros Hz Hh. unfold strlen, liftS, strlen_at, mbind, M_bind, getM.
  rewrite (strlen_loop_holds _ l tail); [by destruct s|done..|].
  apply holds_size in Hh. rewrite length_app in Hh. simpl in Hh. lia.
Qed.
End Loads.

(** ** Small operations as equations *)
Section Equations.
Context {K : Type}.
#[local] Abbreviation L := (M (ll K)).
Implicit Types s : ll K.

Lemma update_req_Ok s r q g : reqs s !! r = Some q ->
  update_req r g s = Ok (tt, set_reqs (<[r := g q]> (reqs s)) s).
Proof.
  intros Hr. unfold update_req, load_req, mbind, M_bind, getM. rewrite Hr. done.
Qed.

Lemma malloc_enough s : oks s = [] -> malloc_ok s = Ok (true, s).
Proof. intros Ho. unfold malloc_ok, mbind, M_bind, getM. by rewrite Ho. Qed.

Lemma load_req_Ok s r q : reqs s !! r = Some q -> load_req r s = Ok (q, s).
Proof. intros Hr. unfold load_req, mbind, M_bind, getM. by rewrite Hr. Qed.

Lemma lock_se_Ok s : se_locked (se s) = false ->
  lock_se s = Ok (tt, set_se (set_se_locked true (se s)) s).
Proof. intros Hl. unfold lock_se, mbind, M_bind, getM. by rewrite Hl. Qed.
End Equations.

(** ** A device that notes the messages written to it *)
Definition note (iov : list (list Z)) (b : Buf.sys (list (list Z)))
    : (Z * Z) * Buf.sys (list (list Z)) :=
  ((Z.of_nat (length (concat iov)), 0),
   set_kern (Buf.kern b ++ [concat iov]) b).

Definition no_syscalls : Buf.syscalls (list (list Z)) :=
  Buf.mk_syscalls _ (fun _ _ _ k => ((-1, EINVAL), k)) (fun _ _ k => ((-1, EINVAL), k))
    (fun _ _ _ k => ((-1, EINVAL, []), k)) (fun _ _ k => ((-1, ENODEV, []), k))
    (fun _ _ _ _ _ _ k => ((-1, EINVAL), k)).

Definition recorder : host (list (list Z)) :=
  mk_host _ no_syscalls (fun _ => note) (fun _ _ _ _ b => ((-1, EINVAL), b))
    (fun _ _ k => ((-1, EINVAL), k)) (fun _ k => (tt, k)) (fun k => ((-1, 0, 0), k))
    (fun _ _ k => ((-1, EINVAL), k)) (fun k => ((-1, ENOENT), k)) (fun _ => note)
    (fun _ _ k => ((-1, ENODEV, []), k)) (fun _ _ _ k => ((-1, EINVAL), k))
    (fun _ _ _ _ b => ((-1, EINVAL), b)) (fun _ => (0, 0, 0)).

(** A session after INIT with protocol 7.38 and every member but [write_buf], and the
    bytes [l] at address 4096. *)
Definition every_op (o : fuse_lowlevel_op) : bool :=
  match o with op_write_buf => false | _ => true end.

Definition started : fuse_session :=
  set_conn (mk_conn 7 38 131072 0 131072 0 0 12 9 1)
    (set_got_init true (fuse_session_new false every_op 1000 0)).

Definition running (l : list Z) : ll (list (list Z)) :=
  mk_ll (Buf.mk_sys (Buf.write_bytes 4096 l ∅) ∅ 65536 []) started ∅ ∅ ∅ ∅ 0 [].

Lemma holds_written (m : gmap Z Z) a l : holds (Buf.write_bytes a l m) a l.
Proof.
  intros i. destruct (decide (length l <= i)%nat); [by right|left].
  rewrite write_bytes_spec, decide_True by lia. f_equal. lia.
Qed.

Definition message_buf (n : Z) : Buf.fuse_buf := Buf.mk_fbuf n 0 0 0 4096 0 0.
