(* ===== verification/LLWire.v ===== *)
(** * The messages of the kernel and the calls they stand for

    A message as the protocol lays it out (include/fuse_kernel.h), and the theorem
    that the library turns it into the call of the file system it means, with the
    same numbers and with the addresses of the same names and data. *)
From S2P Require Import Prelude PosixLock Types Buf BufFacts FsOps Entry Dir LLTypes LowLevel LLReply LLData LLOps LLInit LLSession LLFacts.
#[local] Open Scope Z_scope.

(** A request of the kernel.  Numbers are the members of the structure of the opcode,
    in order and without padding; names and data are lists of bytes. *)
Inductive kmsg : Type :=
| K_lookup (name : list Z)
| K_forget (nlookup : Z)
| K_getattr (flags fh : Z)
| K_setattr (valid fh sz lock_owner atime mtime ctime atimensec mtimensec ctimensec
    mode uid gid : Z)
| K_readlink
| K_symlink (name link : list Z)
| K_mknod (mode rdev umask : Z) (name : list Z)
| K_mkdir (mode umask : Z) (name : list Z)
| K_unlink (name : list Z)
| K_rmdir (name : list Z)
| K_rename (newdir : Z) (old new : list Z)
| K_link (oldnodeid : Z) (name : list Z)
| K_open (flags open_flags : Z)
| K_read (fh offset sz read_flags lock_owner flags : Z)
| K_write (fh offset sz write_flags lock_owner flags : Z) (data : list Z)
| K_statfs
| K_release (fh flags release_flags lock_owner : Z)
| K_fsync (fh fsync_flags : Z)
| K_setxattr (sz flags setxattr_flags : Z) (name value : list Z)
| K_getxattr (sz : Z) (name : list Z)
| K_listxattr (sz : Z)
| K_removexattr (name : list Z)
| K_flush (fh lock_owner : Z)
| K_opendir (flags open_flags : Z)
| K_readdir (fh offset sz read_flags lock_owner flags : Z)
| K_releasedir (fh flags release_flags lock_owner : Z)
| K_fsyncdir (fh fsync_flags : Z)
| K_getlk (fh owner start end_ type pid lk_flags : Z)
| K_setlk (sleep : bool) (fh owner start end_ type pid lk_flags : Z)
| K_access (mask : Z)
| K_create (flags mode umask open_flags : Z) (name : list Z)
| K_bmap (block blocksize : Z)
| K_ioctl (fh flags cmd arg in_size out_size : Z) (data : list Z)
| K_poll (fh kh flags events : Z)
| K_batch_forget (count : Z) (forgets : list Z)
| K_fallocate (fh offset len mode : Z)
| K_readdirplus (fh offset sz read_flags lock_owner flags : Z)
| K_rename2 (newdir flags : Z) (old new : list Z)
| K_lseek (fh offset whence : Z)
| K_copy_file_range (fh_in off_in nodeid_out fh_out off_out len flags : Z).

Definition opcode_of (m : kmsg) : Z :=
  match m with
  | K_lookup _ => 1 | K_forget _ => 2 | K_getattr _ _ => 3
  | K_setattr _ _ _ _ _ _ _ _ _ _ _ _ _ => 4 | K_readlink => 5 | K_symlink _ _ => 6
  | K_mknod _ _ _ _ => 8 | K_mkdir _ _ _ => 9 | K_unlink _ => 10 | K_rmdir _ => 11
  | K_rename _ _ _ => 12 | K_link _ _ => 13 | K_open _ _ => 14 | K_read _ _ _ _ _ _ => 15
  | K_write _ _ _ _ _ _ _ => 16 | K_statfs => 17 | K_release _ _ _ _ => 18
  | K_fsync _ _ => 20 | K_setxattr _ _ _ _ _ => 21 | K_getxattr _ _ => 22
  | K_listxattr _ => 23 | K_removexattr _ => 24 | K_flush _ _ => 25 | K_opendir _ _ => 27
  | K_readdir _ _ _ _ _ _ => 28 | K_releasedir _ _ _ _ => 29 | K_fsyncdir _ _ => 30
  | K_getlk _ _ _ _ _ _ _ => 31
  | K_setlk sleep _ _ _ _ _ _ _ => if sleep then 33 else 32
  | K_access _ => 34 | K_create _ _ _ _ _ => 35 | K_bmap _ _ => 37
  | K_ioctl _ _ _ _ _ _ _ => 39 | K_poll _ _ _ _ => 40 | K_batch_forget _ _ => 42
  | K_fallocate _ _ _ _ => 43 | K_readdirplus _ _ _ _ _ _ => 44 | K_rename2 _ _ _ _ => 45
  | K_lseek _ _ _ => 46 | K_copy_file_range _ _ _ _ _ _ _ => 47
  end.

(** The structure of a message, with its padding. *)
Definition fixed_part (ext : bool) (m : kmsg) : list (nat * Z) :=
  match m with
  | K_forget n => [w8 n]
  | K_getattr flags fh => [w4 flags; w4 0; w8 fh]
  | K_setattr valid fh sz lo at_ mt ct an mn cn mode uid gid =>
    [w4 valid; w4 0; w8 fh; w8 sz; w8 lo; w8 at_; w8 mt; w8 ct;
     w4 an; w4 mn; w4 cn; w4 mode; w4 0; w4 uid; w4 gid; w4 0]
  | K_mknod mode rdev umask _ => [w4 mode; w4 rdev; w4 umask; w4 0]
  | K_mkdir mode umask _ => [w4 mode; w4 umask]
  | K_rename newdir _ _ => [w8 newdir]
  | K_link old _ => [w8 old]
  | K_open flags open_flags | K_opendir flags open_flags => [w4 flags; w4 open_flags]
  | K_read fh off sz rf lo flags | K_readdir fh off sz rf lo flags
  | K_readdirplus fh off sz rf lo flags | K_write fh off sz rf lo flags _ =>
    [w8 fh; w8 off; w4 sz; w4 rf; w8 lo; w4 flags; w4 0]
  | K_release fh flags rf lo | K_releasedir fh flags rf lo =>
    [w8 fh; w4 flags; w4 rf; w8 lo]
  | K_fsync fh ff | K_fsyncdir fh ff => [w8 fh; w4 ff; w4 0]
  | K_setxattr sz flags xf _ _ =>
    if ext then [w4 sz; w4 flags; w4 xf; w4 0] else [w4 sz; w4 flags]
  | K_getxattr sz _ | K_listxattr sz => [w4 sz; w4 0]
  | K_flush fh lo => [w8 fh; w4 0; w4 0; w8 lo]
  | K_getlk fh ow st en ty pid lf | K_setlk _ fh ow st en ty pid lf =>
    [w8 fh; w8 ow; w8 st; w8 en; w4 ty; w4 pid; w4 lf; w4 0]
  | K_access mask => [w4 mask; w4 0]
  | K_create flags mode umask open_flags _ =>
    [w4 flags; w4 mode; w4 umask; w4 open_flags]
  | K_bmap block blocksize => [w8 block; w4 blocksize; w4 0]
  | K_ioctl fh flags cmd arg isz osz _ =>
    [w8 fh; w4 flags; w4 cmd; w8 arg; w4 isz; w4 osz]
  | K_poll fh kh flags events => [w8 fh; w8 kh; w4 flags; w4 events]
  | K_batch_forget count _ => [w4 count; w4 0]
  | K_fallocate fh off len mode => [w8 fh; w8 off; w8 len; w4 mode; w4 0]
  | K_rename2 newdir flags _ _ => [w8 newdir; w4 flags; w4 0]
  | K_lseek fh off whence => [w8 fh; w8 off; w4 whence; w4 0]
  | K_copy_file_range fi oi no fo oo len flags =>
    [w8 fi; w8 oi; w8 no; w8 fo; w8 oo; w8 len; w8 flags]
  | _ => []
  end.

(** What follows it. *)
Definition variable_part (m : kmsg) : list Z :=
  match m with
  | K_lookup n | K_unlink n | K_rmdir n | K_removexattr n | K_mknod _ _ _ n
  | K_mkdir _ _ n | K_link _ n | K_create _ _ _ _ n | K_getxattr _ n => n ++ [0]
  | K_symlink a b | K_rename _ a b | K_rename2 _ _ a b => a ++ 0 :: b ++ [0]
  | K_setxattr _ _ _ n v => n ++ 0 :: v
  | K_write _ _ _ _ _ _ d | K_ioctl _ _ _ _ _ _ d | K_batch_forget _ d => d
  | _ => []
  end.

(** No name contains a 0. *)
Definition names_ok (m : kmsg) : Prop :=
  match m with
  | K_symlink a _ | K_rename _ a _ | K_rename2 _ _ a _ => no_zero a
  | K_setxattr _ _ _ n _ => no_zero n
  | _ => True
  end.

(** The member of [fuse_lowlevel_ops] that serves a message. *)
Definition op_of (m : kmsg) : fuse_lowlevel_op :=
  match m with
  | K_lookup _ => op_lookup | K_forget _ => op_forget | K_getattr _ _ => op_getattr
  | K_setattr _ _ _ _ _ _ _ _ _ _ _ _ _ => op_setattr | K_readlink => op_readlink
  | K_symlink _ _ => op_symlink | K_mknod _ _ _ _ => op_mknod | K_mkdir _ _ _ => op_mkdir
  | K_unlink _ => op_unlink | K_rmdir _ => op_rmdir | K_rename _ _ _ => op_rename
  | K_link _ _ => op_link | K_open _ _ => op_open | K_read _ _ _ _ _ _ => op_read
  | K_write _ _ _ _ _ _ _ => op_write | K_statfs => op_statfs
  | K_release _ _ _ _ => op_release | K_fsync _ _ => op_fsync
  | K_setxattr _ _ _ _ _ => op_setxattr | K_getxattr _ _ => op_getxattr
  | K_listxattr _ => op_listxattr | K_removexattr _ => op_removexattr
  | K_flush _ _ => op_flush | K_opendir _ _ => op_opendir
  | K_readdir _ _ _ _ _ _ => op_readdir | K_releasedir _ _ _ _ => op_releasedir
  | K_fsyncdir _ _ => op_fsyncdir | K_getlk _ _ _ _ _ _ _ => op_getlk
  | K_setlk _ _ _ _ _ _ _ lk_flags =>
    if Buf.has (u32 lk_flags) FUSE_LK_FLOCK then op_flock else op_setlk
  | K_access _ => op_access | K_create _ _ _ _ _ => op_create | K_bmap _ _ => op_bmap
  | K_ioctl _ _ _ _ _ _ _ => op_ioctl | K_poll _ _ _ _ => op_poll
  | K_batch_forget _ _ => op_forget_multi | K_fallocate _ _ _ _ => op_fallocate
  | K_readdirplus _ _ _ _ _ _ => op_readdirplus | K_rename2 _ _ _ _ => op_rename
  | K_lseek _ _ _ => op_lseek | K_copy_file_range _ _ _ _ _ _ _ => op_copy_file_range
  end.

(** A POSIX lock of the protocol: the end is inclusive, [OFFSET_MAX] is the end of the
    file. *)
Definition wire_lock (start end_ type pid : Z) : PosixLock.flock :=
  PosixLock.mk_flock ((u32 type + 2 ^ 15) mod 2 ^ 16 - 2 ^ 15) 0 (Buf.ssize (u64 start))
    (if u64 end_ =? OFFSET_MAX then 0
     else Buf.ssize (u64 (u64 end_ - u64 start + 1)))
    (to_int (u32 pid)).

Definition wire_flock (sleep : bool) (type : Z) : Z :=
  let op := if type =? PosixLock.F_RDLCK then LOCK_SH
            else if type =? PosixLock.F_WRLCK then LOCK_EX
            else if type =? PosixLock.F_UNLCK then LOCK_UN else 0 in
  if sleep then op else Z.lor op LOCK_NB.

(** What a file handle of a message says of the file. *)
Definition wire_file (fh lock_owner flags : Z) : fuse_file_info :=
  set_fi_flags (to_int (u32 flags)) (set_fi_lock_owner (u64 lock_owner) (fi_of (u64 fh))).

(** The call a message means.  The message is at [a]; [p] is where its names and data
    begin, and [ph] the poll handle made for it. *)
Definition call_of (r nodeid a p ph : Z) (m : kmsg) : call :=
  let second (l : list Z) := p + Z.of_nat (length l) + 1 in
  match m with
  | K_lookup _ => C_lookup r nodeid p
  | K_forget n => C_forget r nodeid (u64 n)
  | K_getattr flags fh =>
    C_getattr r nodeid (if Buf.has (u32 flags) FUSE_GETATTR_FH
                        then Some (fi_of (u64 fh)) else None)
  | K_setattr valid fh sz _ at_ mt ct an mn cn mode uid gid =>
    C_setattr r nodeid
      (mk_stat 0 (u32 mode) 0 (u32 uid) (u32 gid) 0 (Buf.ssize (u64 sz)) 0 0
         (mk_timespec (Buf.ssize (u64 at_)) (u32 an))
         (mk_timespec (Buf.ssize (u64 mt)) (u32 mn))
         (mk_timespec (Buf.ssize (u64 ct)) (u32 cn)))
      (to_int (Z.land (u32 valid) setattr_mask))
      (if Buf.has (u32 valid) FATTR_FH then Some (fi_of (u64 fh)) else None)
  | K_readlink => C_readlink r nodeid
  | K_symlink name _ => C_symlink r (second name) nodeid p
  | K_mknod mode rdev _ _ => C_mknod r nodeid p (u32 mode) (u32 rdev)
  | K_mkdir mode _ _ => C_mkdir r nodeid p (u32 mode)
  | K_unlink _ => C_unlink r nodeid p
  | K_rmdir _ => C_rmdir r nodeid p
  | K_rename newdir old _ => C_rename r nodeid p (u64 newdir) (second old) 0
  | K_link old _ => C_link r (u64 old) nodeid p
  | K_open flags _ => C_open r nodeid (set_fi_flags (to_int (u32 flags)) fi0)
  | K_read fh off sz _ lo flags =>
    C_read r nodeid (u32 sz) (Buf.ssize (u64 off)) (wire_file fh lo flags)
  | K_write fh off sz wf lo flags _ =>
    C_write r nodeid p (u32 sz) (Buf.ssize (u64 off))
      (set_fi_writepage (Buf.has (u32 wf) FUSE_WRITE_CACHE) (wire_file fh lo flags))
  | K_statfs => C_statfs r nodeid
  | K_release fh flags rf lo =>
    C_release r nodeid
      (set_fi_flush (Buf.has (u32 rf) FUSE_RELEASE_FLUSH)
        (set_fi_flock_release (Buf.has (u32 rf) FUSE_RELEASE_FLOCK_UNLOCK)
          (wire_file fh lo flags)))
  | K_fsync fh ff => C_fsync r nodeid (Z.land (u32 ff) 1) (fi_of (u64 fh))
  | K_setxattr sz flags _ name _ =>
    C_setxattr r nodeid p (second name) (u32 sz) (to_int (u32 flags))
  | K_getxattr sz _ => C_getxattr r nodeid p (u32 sz)
  | K_listxattr sz => C_listxattr r nodeid (u32 sz)
  | K_removexattr _ => C_removexattr r nodeid p
  | K_flush fh lo =>
    C_flush r nodeid (set_fi_lock_owner (u64 lo) (set_fi_flush true (fi_of (u64 fh))))
  | K_opendir flags _ => C_opendir r nodeid (set_fi_flags (to_int (u32 flags)) fi0)
  | K_readdir fh off sz _ _ _ =>
    C_readdir r nodeid (u32 sz) (Buf.ssize (u64 off)) (fi_of (u64 fh))
  | K_releasedir fh flags _ _ =>
    C_releasedir r nodeid (set_fi_flags (to_int (u32 flags)) (fi_of (u64 fh)))
  | K_fsyncdir fh ff => C_fsyncdir r nodeid (Z.land (u32 ff) 1) (fi_of (u64 fh))
  | K_getlk fh ow st en ty pid _ =>
    C_getlk r nodeid (set_fi_lock_owner (u64 ow) (fi_of (u64 fh))) (wire_lock st en ty pid)
  | K_setlk sleep fh ow st en ty pid lf =>
    let fi := set_fi_lock_owner (u64 ow) (fi_of (u64 fh)) in
    if Buf.has (u32 lf) FUSE_LK_FLOCK then C_flock r nodeid fi (wire_flock sleep (u32 ty))
    else C_setlk r nodeid fi (wire_lock st en ty pid) (if sleep then 1 else 0)
  | K_access mask => C_access r nodeid (to_int (u32 mask))
  | K_create flags mode _ _ _ =>
    C_create r nodeid p (u32 mode) (set_fi_flags (to_int (u32 flags)) fi0)
  | K_bmap block blocksize => C_bmap r nodeid (u32 blocksize) (u64 block)
  | K_ioctl fh flags cmd arg isz osz _ =>
    C_ioctl r nodeid (u32 cmd) (u64 arg) (fi_of (u64 fh)) (u32 flags)
      (if u32 isz =? 0 then 0 else p) (u32 isz) (u32 osz)
  | K_poll fh _ _ events =>
    C_poll r nodeid (set_fi_poll_events (u32 events) (fi_of (u64 fh))) ph
  | K_batch_forget count _ => C_forget_multi r (u32 count) p
  | K_fallocate fh off len mode =>
    C_fallocate r nodeid (to_int (u32 mode)) (Buf.ssize (u64 off)) (Buf.ssize (u64 len))
      (fi_of (u64 fh))
  | K_readdirplus fh off sz _ _ _ =>
    C_readdirplus r nodeid (u32 sz) (Buf.ssize (u64 off)) (fi_of (u64 fh))
  | K_rename2 newdir flags old _ =>
    C_rename r nodeid p (u64 newdir) (second old) (u32 flags)
  | K_lseek fh off whence =>
    C_lseek r nodeid (Buf.ssize (u64 off)) (to_int (u32 whence)) (fi_of (u64 fh))
  | K_copy_file_range fi oi no fo oo len flags =>
    C_copy_file_range r nodeid (Buf.ssize (u64 oi)) (fi_of (u64 fi)) (u64 no)
      (Buf.ssize (u64 oo)) (fi_of (u64 fo)) (u64 len) (to_int (u64 flags))
  end.

Section Handlers.
Context {K : Type} (h : host K).
#[local] Abbreviation L := (M (ll K)).
Context (run_op : call -> L unit)
        (run_op_bufv : call -> Buf.fuse_bufvec -> L Buf.fuse_bufvec)
        (run_intr : Z -> Z -> Z -> L unit)
        (cuse_lowlevel_init : Z -> Z -> Z -> L unit).
Implicit Types s : ll K.
#[local] Abbreviation bytes s := (Buf.mem (sysm s)).
#[local] Abbreviation minor s := (proto_minor (conn (se s))).

Lemma store_holds s a l l' : holds (bytes s) a l' -> (length l <= length l')%nat ->
  liftS (Buf.store_bytes a l) s = Ok (tt, set_sysm (set_mem (Buf.write_bytes a l (bytes s)) (sysm s)) s).
Proof.
  intros Hh Hlen. unfold liftS, Buf.store_bytes, Buf.load_bytes, mbind, M_bind, getM.
  rewrite <- (take_drop (length l) l') in Hh. apply holds_app_inv in Hh as [Hh _].
  pose proof (holds_mapM _ _ _ Hh) as Hm. rewrite length_take_le in Hm by done.
  rewrite Hm. done.
Qed.

(** The handler an opcode has. *)
Definition handler_of (m : kmsg) : Z -> Z -> Z -> L unit :=
  match m with
  | K_lookup _ => do_lookup h run_op | K_forget _ => do_forget h run_op
  | K_getattr _ _ => do_getattr h run_op
  | K_setattr _ _ _ _ _ _ _ _ _ _ _ _ _ => do_setattr h run_op
  | K_readlink => do_readlink h run_op | K_symlink _ _ => do_symlink h run_op
  | K_mknod _ _ _ _ => do_mknod h run_op | K_mkdir _ _ _ => do_mkdir h run_op
  | K_unlink _ => do_unlink h run_op | K_rmdir _ => do_rmdir h run_op
  | K_rename _ _ _ => do_rename h run_op | K_link _ _ => do_link h run_op
  | K_open _ _ => do_open h run_op | K_read _ _ _ _ _ _ => do_read h run_op
  | K_write _ _ _ _ _ _ _ => do_write h run_op | K_statfs => do_statfs h run_op
  | K_release _ _ _ _ => do_release h run_op | K_fsync _ _ => do_fsync h run_op
  | K_setxattr _ _ _ _ _ => do_setxattr h run_op | K_getxattr _ _ => do_getxattr h run_op
  | K_listxattr _ => do_listxattr h run_op | K_removexattr _ => do_removexattr h run_op
  | K_flush _ _ => do_flush h run_op | K_opendir _ _ => do_opendir h run_op
  | K_readdir _ _ _ _ _ _ => do_readdir h run_op
  | K_releasedir _ _ _ _ => do_releasedir h run_op
  | K_fsyncdir _ _ => do_fsyncdir h run_op | K_getlk _ _ _ _ _ _ _ => do_getlk h run_op
  | K_setlk sleep _ _ _ _ _ _ _ => if sleep then do_setlkw h run_op else do_setlk h run_op
  | K_access _ => do_access h run_op | K_create _ _ _ _ _ => do_create h run_op
  | K_bmap _ _ => do_bmap h run_op | K_ioctl _ _ _ _ _ _ _ => do_ioctl h run_op
  | K_poll _ _ _ _ => do_poll h run_op | K_batch_forget _ _ => do_batch_forget h run_op
  | K_fallocate _ _ _ _ => do_fallocate h run_op
  | K_readdirplus _ _ _ _ _ _ => do_readdirplus h run_op
  | K_rename2 _ _ _ _ => do_rename2 h run_op | K_lseek _ _ _ => do_lseek h run_op
  | K_copy_file_range _ _ _ _ _ _ _ => do_copy_file_range h run_op
  end.

Lemma handler_found m :
  fuse_ll_ops h run_op run_intr cuse_lowlevel_init (opcode_of m) = Some (handler_of m).
Proof. destruct m; try reflexivity. by destruct sleep. Qed.

(** What a handler changes before the call: SETATTR stores the bits it passes on, the
    opcodes that create a file note the umask, POLL makes a handle. *)
Definition poll_notifies (m : kmsg) : bool :=
  match m with
  | K_poll _ _ flags _ => Buf.has (u32 flags) FUSE_POLL_SCHEDULE_NOTIFY
  | _ => false
  end.

Definition with_umask (r umask : Z) (s : ll K) : ll K :=
  set_reqs (alter (fun q => set_r_ctx (set_c_umask (u32 umask) (r_ctx q)) q) r (reqs s)) s.

Definition prepared (m : kmsg) (r a : Z) (s : ll K) : ll K :=
  match m with
  | K_setattr valid _ _ _ _ _ _ _ _ _ _ _ _ =>
    set_sysm (set_mem (Buf.write_bytes a (le_bytes 4 (Z.land (u32 valid) setattr_mask))
                         (bytes s)) (sysm s)) s
  | K_mknod _ _ umask _ | K_mkdir _ umask _ | K_create _ _ umask _ _ => with_umask r umask s
  | K_poll _ kh flags _ =>
    if Buf.has (u32 flags) FUSE_POLL_SCHEDULE_NOTIFY
    then set_phs (<[objs s + 1 := mk_ph (u64 kh)]> (phs s)) (set_objs (objs s + 1) s)
    else s
  | _ => s
  end.

(** The circumstances in which a message is a call: a recent protocol, a member that
    serves it, memory, and an ioctl on a directory only when that has been agreed.
    (A WRITE goes to [write_buf] where there is one.) *)
Record served (s : ll K) (m : kmsg) : Prop := mk_served {
  sv_minor : 16 <= minor s;
  sv_op : op (se s) (op_of m) = true;
  sv_memory : oks s = [];
  sv_names : names_ok m;
  sv_write : match m with
             | K_write _ _ _ _ _ _ _ => op (se s) op_write_buf = false
             | _ => True
             end;
  sv_ioctl_dir : match m with
                 | K_ioctl _ flags _ _ _ _ _ => Buf.has (u32 flags) FUSE_IOCTL_DIR = true ->
                     Buf.has (want (conn (se s))) FUSE_CAP_IOCTL_DIR = true
                 | _ => True
                 end;
}.

Definition ext_of (s : ll K) : bool := Buf.has (want (conn (se s))) FUSE_CAP_SETXATTR_EXT.

Lemma with_umask_eq s r umask : is_Some (reqs s !! r) ->
  update_req r (fun q => set_r_ctx (set_c_umask (u32 umask) (r_ctx q)) q) s
  = Ok (tt, with_umask r umask s).
Proof.
  intros [q Hq]. rewrite (update_req_Ok _ _ _ _ Hq). unfold with_umask.
  f_equal. f_equal. f_equal. symmetry.
  by rewrite (alter_insert_eq _ _ _ q).
Qed.

(** One step of a handler on a message at [a], described by [Hh]; the handler runs in a
    state whose protocol is recent and whose operations are there. *)
Ltac old_protocol :=
  match goal with
  | Hm : 16 <= ?p |- context [?p <? ?c] =>
    replace (p <? c) with false by (symmetry; apply Z.ltb_ge; lia)
  end.
Ltac load_field lem x :=
  erewrite bind_Ok;
  [|match x with
    | ?a + ?o + ?o' => eapply (lem _ a _ _ (o + o'))
    | ?a + ?o => eapply (lem _ a _ _ o)
    | ?a => eapply (lem _ a _ _ 0)
    end; [eassumption|reflexivity|lia]].
Ltac hstep :=
  match goal with
  | |- ((_ ≫= _) ≫= _) _ = _ => rewrite bind_assoc_eq
  | |- (mret ?v ≫= ?k) ?s = ?R => change (k v s = R)
  | |- (getM ≫= ?k) ?s = ?R => change (k s s = R)
  | |- (proto_minor_of ≫= ?k) ?s = ?R => change (k (minor s) s = R)
  | |- (has_op ?o ≫= ?k) ?s = ?R => change (k (op (se s) o) s = R)
  | |- (ld32 ?x ≫= _) _ = _ => load_field (@ld32_field K) x
  | |- (ld64 ?x ≫= _) _ = _ => load_field (@ld64_field K) x
  | |- (strlen _ ≫= _) _ = _ => erewrite bind_Ok by eassumption
  | |- (set_umask _ _ ≫= _) _ = _ => erewrite bind_Ok by (by apply with_umask_eq)
  | |- (new_obj ≫= ?k) ?s = ?R => change (k (objs s + 1) (set_objs (objs s + 1) s) = R)
  | |- (modifyM ?g ≫= ?k) ?s = ?R => change (k tt (g s) = R)
  | _ => old_protocol
  | Ho : op (se ?s) ?o = true |- context [op (se ?s') ?o] =>
    change (op (se s') o) with (op (se s) o); rewrite Ho
  end; cbv beta iota zeta; cbn [negb andb].
Ltac hsteps := repeat hstep.
Lemma name_length s a fs name rest tail x : no_zero name ->
  holds (bytes s) a (enc fs ++ (name ++ 0 :: rest) ++ tail) -> x = a + enc_size fs ->
  strlen x s = Ok (Z.of_nat (length name), s).
Proof.
  intros Hz Hh ->. apply holds_app_inv in Hh as [_ Hh]. rewrite enc_length in Hh.
  apply (strlen_holds _ _ _ (rest ++ tail) Hz). by rewrite <- app_assoc in Hh.
Qed.

Lemma setattr_bits v : Z.land (Z.ldiff v FATTR_FH) setattr_mask = Z.land v setattr_mask.
Proof.
  change (Z.ldiff v FATTR_FH) with (Z.land v (Z.lnot FATTR_FH)).
  by rewrite <- Z.land_assoc.
Qed.

Lemma handler_calls s r nodeid a m tail : served s m -> is_Some (reqs s !! r) ->
  holds (bytes s) a (enc (fixed_part (ext_of s) m) ++ variable_part m ++ tail) ->
  handler_of m r nodeid a s =
  run_op (call_of r nodeid a (a + enc_size (fixed_part (ext_of s) m))
            (if poll_notifies m then objs s + 1 else 0) m) (prepared m r a s).
Proof.
  intros [Hm Hop Hmem Hnames _ Hdir] Hreq Hh.
  destruct m; cbn [fixed_part variable_part op_of names_ok] in *.
  all: cbn [handler_of prepared call_of poll_notifies enc_size w4 w8 fst].
  all: try (solve [unfold do_lookup, do_forget, do_getattr, do_access, do_readlink, do_unlink, do_rmdir, do_link, do_open, do_read, do_write, write_info, do_statfs, do_fsync, do_getxattr, do_listxattr, do_removexattr, do_flush, do_opendir, do_readdir, do_readdirplus, do_releasedir, do_fsyncdir, do_bmap, do_fallocate, do_lseek, do_copy_file_range, do_batch_forget, do_release, call_op, call_or; hsteps; rewrite ?Z.add_0_r; try done]).
  - (* GETATTR *) unfold do_getattr, call_op, call_or. hsteps.
    case_match; hsteps; done.
  - (* SETATTR *) unfold do_setattr, convert_attr. hsteps.
    case_match; hsteps; rewrite ?setattr_bits.
    all: by erewrite bind_Ok by (eapply store_holds; [exact Hh|simpl; lia]).
  - (* SYMLINK *) unfold do_symlink, call_op, call_or.
    pose proof (name_length _ a [] _ _ _ a Hnames Hh ltac:(simpl; lia)). hsteps.
    rewrite ?Z.add_0_r. done.
  - (* MKNOD *) unfold do_mknod. hsteps. done.
  - (* MKDIR *) unfold do_mkdir. hsteps. done.
  - (* RENAME *) unfold do_rename.
    pose proof (name_length _ a _ _ _ _ (a + SIZEOF_RENAME_IN) Hnames Hh eq_refl). hsteps. done.
  - (* RELEASE *) unfold do_release, call_or. hsteps. case_match; hsteps; done.
  - (* SETXATTR *) unfold do_setxattr. hsteps. unfold ext_of in *. case_match.
    + pose proof (name_length _ a _ _ _ _ (a + SIZEOF_SETXATTR_IN) Hnames Hh eq_refl).
      hsteps. done.
    + pose proof (name_length _ a _ _ _ _ (a + FUSE_COMPAT_SETXATTR_IN_SIZE) Hnames Hh eq_refl).
      hsteps. done.
  - (* GETLK *) unfold do_getlk, convert_fuse_file_lock, call_op, call_or. hsteps. done.
  - (* SETLK *) destruct sleep; unfold do_setlk, do_setlkw, do_setlk_common, convert_fuse_file_lock, call_op, call_or; hsteps; unfold wire_flock, wire_lock; case_match; hsteps; done.
  - (* CREATE *) unfold do_create. hsteps. done.
  - (* IOCTL *) unfold do_ioctl. hsteps.
    rewrite (proj2 (andb_false_iff _ _)).
    { hsteps. done. }
    destruct (Buf.has (u32 flags) FUSE_IOCTL_DIR); [right|by left].
    by rewrite Hdir.
  - (* POLL *) unfold do_poll. hsteps.
    destruct (Buf.has (u32 flags) FUSE_POLL_SCHEDULE_NOTIFY); cbn [negb]; [|done].
    rewrite (bind_Ok _ _ _ _ _ (malloc_enough _ Hmem)). cbn [negb]. hsteps. done.
  - (* RENAME2 *) unfold do_rename2.
    pose proof (name_length _ a _ _ _ _ (a + SIZEOF_RENAME2_IN) Hnames Hh eq_refl). hsteps. done.
Qed.
(** ** From the device to the handler *)

(** [struct fuse_in_header]. *)
Definition in_header (len opcode unique nodeid uid gid pid : Z) : list (nat * Z) :=
  [w4 len; w4 opcode; w8 unique; w8 nodeid; w4 uid; w4 gid; w4 pid; w4 0].

(** A session that takes requests: INIT is done, no lock is held, no interrupt waits. *)
Record taking (s : ll K) : Prop := mk_taking {
  tk_init : got_init (se s) = true;
  tk_unlocked : se_locked (se s) = false;
  tk_quiet : se_interrupts (se s) = [];
  tk_new : reqs s !! (objs s + 1) = None;
  tk_objs : 0 <= objs s;
}.

(** The request of a message, and the state in which it has joined the list. *)
Definition request_of (unique uid gid pid : Z) (c : chain) : fuse_req :=
  mk_req (u64 unique) 1 false (mk_ctx (u32 uid) (u32 gid) (to_int (u32 pid)) 0) 0
    false false 0 0 c.

Definition joined (r : Z) (q : fuse_req) (s : ll K) : ll K :=
  set_se (set_se_list (se_list (se s) ++ [r]) (se s))
    (set_reqs (<[r := set_r_chain OnList q]> (reqs s)) s).

Definition allocated (unique uid gid pid : Z) (s : ll K) : ll K :=
  set_objs (objs s + 1)
    (set_reqs (<[objs s + 1 := request_of unique uid gid pid Alone]> (reqs s)) s).

Lemma check_quiet s r q : reqs s !! r = Some q -> se_interrupts (se s) = [] ->
  check_interrupt h r s = Ok (0, s).
Proof.
  intros Hr Hi. unfold check_interrupt. rewrite (bind_Ok _ _ _ _ _ (load_req_Ok _ _ _ Hr)).
  unfold mbind, M_bind, getM. by rewrite Hi.
Qed.

Lemma accept_quiet s r q opcode : se_locked (se s) = false -> se_interrupts (se s) = [] ->
  reqs s !! r = Some q -> opcode <> FUSE_INTERRUPT ->
  accept_req h r opcode s = Ok (tt, joined r q s).
Proof.
  intros Hl Hi Hr Ho. unfold accept_req. rewrite (proj2 (Z.eqb_neq _ _) Ho).
  rewrite (bind_Ok _ _ _ _ _ (lock_se_Ok _ Hl)).
  erewrite bind_Ok by (by apply (check_quiet _ r q)).
  unfold list_add_req. rewrite bind_assoc_eq.
  erewrite bind_Ok by (by apply (update_req_Ok _ r q)).
  unfold joined. destruct s as [b e rs cs rr ps o k]. destruct e. cbn in *. by subst.
Qed.

Lemma alloc_req_Ok s : oks s = [] ->
  fuse_ll_alloc_req s = Ok (objs s + 1, set_objs (objs s + 1)
    (set_reqs (<[objs s + 1 := set_r_ctr 1 req0]> (reqs s)) s)).
Proof.
  intros Ho. unfold fuse_ll_alloc_req, list_init_req.
  rewrite (bind_Ok _ _ _ _ _ (malloc_enough _ Ho)). cbn [negb].
  hsteps. erewrite bind_Ok by (apply update_req_Ok; apply lookup_insert_eq).
  cbn. by rewrite insert_insert_eq.
Qed.

(** The opcode of a message is none of those the session treats itself. *)
Lemma opcode_ordinary m : u32 (opcode_of m) = opcode_of m /\ opcode_of m <> FUSE_INTERRUPT /\ opcode_of m <> FUSE_INIT /\ opcode_of m <> CUSE_INIT /\ opcode_of m <> FUSE_NOTIFY_REPLY.
Proof. destruct m; try done. by destruct sleep. Qed.

Lemma handler_called s r nodeid a m buf :
  (match m with K_write _ _ _ _ _ _ _ => op (se s) op_write_buf = false | _ => True end) ->
  call_handler h run_op run_op_bufv run_intr cuse_lowlevel_init r (opcode_of m) nodeid a buf s
  = handler_of m r nodeid a s.
Proof.
  intros Hw. unfold call_handler.
  change ((has_op op_write_buf ≫= ?k) s) with (k (op (se s) op_write_buf) s). cbv beta.
  destruct (opcode_ordinary m) as (_ & _ & _ & _ & Hn%Z.eqb_neq).
  rewrite Hn, handler_found.
  assert (Hf : (opcode_of m =? FUSE_WRITE) && op (se s) op_write_buf = false).
  { destruct m; try reflexivity; [by rewrite Hw|by destruct sleep]. }
  by rewrite Hf.
Qed.

Lemma not_refused e m uid : got_init e = true -> deny_others e = false \/ uid = owner e ->
  refuse h run_op run_intr cuse_lowlevel_init e (opcode_of m) uid = None.
Proof.
  intros Hi Hd. unfold refuse. rewrite Hi, handler_found.
  destruct (opcode_ordinary m) as (_ & _ & H1%Z.eqb_neq & H2%Z.eqb_neq & _).
  rewrite H1, H2. cbn. destruct Hd as [->| ->]; [done|].
  by rewrite Z.eqb_refl, !andb_false_r.
Qed.

Definition header_at s a len m unique nodeid uid gid pid rest : Prop :=
  holds (bytes s) a (enc (in_header len (opcode_of m) unique nodeid uid gid pid) ++ rest).

(** A message of any opcode becomes a request and comes to the checks. *)
Lemma request_started s buf len opcode unique nodeid uid gid pid rest
    (x := Buf.b_mem buf) (r := objs s + 1) :
  reqs s !! r = None -> 0 <= objs s -> oks s = [] -> is_fd buf = false ->
  holds (bytes s) x (enc (in_header len opcode unique nodeid uid gid pid) ++ rest) ->
  exists k : L unit,
  fuse_session_process_buf_int h run_op run_op_bufv run_intr cuse_lowlevel_init buf 0 s =
  match refuse h run_op run_intr cuse_lowlevel_init (se s) (u32 opcode) (u32 uid) with
  | Some err => process_err h r err buf 0
  | None => accept_req h r (u32 opcode);; k
  end (allocated unique uid gid pid s) /\
  forall s', holds (bytes s') x (enc (in_header len opcode unique nodeid uid gid pid) ++ rest) ->
    k s' = (call_handler h run_op run_op_bufv run_intr cuse_lowlevel_init r (u32 opcode)
              (u64 nodeid) (x + SIZEOF_IN_HEADER) buf;; free 0) s'.
Proof.
  intros Hnew Hobj Ho Hfd Hh. eexists. split.
  - unfold fuse_session_process_buf_int. rewrite Hfd.
    unfold process_request. fold x.
    hsteps. erewrite bind_Ok by (by apply alloc_req_Ok). fold r.
    rewrite (proj2 (Z.eqb_neq r 0)) by (unfold r; lia).
    hsteps. unfold fill_req. rewrite bind_assoc_eq.
    erewrite bind_Ok by (apply update_req_Ok; apply lookup_insert_eq). hsteps.
    erewrite bind_Ok by (apply update_req_Ok; apply lookup_insert_eq).
    change (if 0 =? 0 then mret 0 else fuse_chan_get 0) with (mret 0 : L Z). hsteps.
    erewrite bind_Ok by (apply update_req_Ok; apply lookup_insert_eq).
    match goal with |- _ ?s1 = _ => replace s1 with (allocated unique uid gid pid s)
      by (unfold allocated; cbn; by rewrite !insert_insert_eq) end.
    hsteps. change (se (allocated unique uid gid pid s)) with (se s).
    case_match; reflexivity.
  - intros s' Hh'. cbv beta. rewrite Hfd. cbn [andb]. hsteps. done.
Qed.

Lemma request_processed s buf m len unique nodeid uid gid pid rest :
  taking s -> oks s = [] -> is_fd buf = false ->
  deny_others (se s) = false \/ u32 uid = owner (se s) ->
  header_at s (Buf.b_mem buf) len m unique nodeid uid gid pid rest ->
  fuse_session_process_buf_int h run_op run_op_bufv run_intr cuse_lowlevel_init buf 0 s =
  (call_handler h run_op run_op_bufv run_intr cuse_lowlevel_init (objs s + 1) (opcode_of m)
     (u64 nodeid) (Buf.b_mem buf + SIZEOF_IN_HEADER) buf;; free 0)
    (joined (objs s + 1) (request_of unique uid gid pid Alone) (allocated unique uid gid pid s)).
Proof.
  intros [Hi Hl Hq Hnew Hobj] Ho Hfd Hd Hh.
  destruct (opcode_ordinary m) as (Hop & Hint & _ & _ & _).
  destruct (request_started _ _ _ _ _ _ _ _ _ _ Hnew Hobj Ho Hfd Hh) as (k & -> & Hk).
  rewrite Hop, not_refused by done.
  erewrite bind_Ok by (apply accept_quiet; [done..|apply lookup_insert_eq|done]).
  rewrite Hk by exact Hh. by rewrite Hop.
Qed.

(** C21: the protocol round trip.  A message of any of the forty-one opcodes that reach the
    file system, laid out in memory as the kernel lays it out, makes the library do
    exactly this: allocate a request, enter it in the list with the identifier and the
    credentials of the header, and call the one member of the file system that serves
    the opcode with the numbers of the message (cut to their width, and signed where
    the interface is signed).  The addresses it passes are those where the names and
    the data of the message lie. *)
Theorem dispatch_roundtrip s buf m len unique nodeid uid gid pid tail
    (a := Buf.b_mem buf + SIZEOF_IN_HEADER) (r := objs s + 1)
    (p := a + enc_size (fixed_part (ext_of s) m))
    (s1 := joined r (request_of unique uid gid pid Alone)
             (allocated unique uid gid pid s))
    (s2 := prepared m r a s1) :
  taking s -> served s m -> is_fd buf = false ->
  deny_others (se s) = false \/ u32 uid = owner (se s) ->
  holds (bytes s) (Buf.b_mem buf)
    (enc (in_header len (opcode_of m) unique nodeid uid gid pid) ++
     enc (fixed_part (ext_of s) m) ++ variable_part m ++ tail) ->
  fuse_session_process_buf_int h run_op run_op_bufv run_intr cuse_lowlevel_init buf 0 s =
    (run_op (call_of r (u64 nodeid) a p (if poll_notifies m then objs s + 2 else 0) m);;
     free 0) s2 /\
  holds (bytes s2) p (variable_part m) /\
  se_list (se s2) = se_list (se s) ++ [r] /\
  exists q, reqs s2 !! r = Some q /\ r_unique q = u64 unique /\ r_ctr q = 1 /\
    r_chain q = OnList /\ c_uid (r_ctx q) = u32 uid /\ c_gid (r_ctx q) = u32 gid.
Proof.
  intros Ht Hs Hfd Hd Hh. pose proof Hh as Hh'.
  apply holds_app_inv in Hh as [_ Hb]. rewrite enc_length in Hb.
  change (holds (bytes s1) a (enc (fixed_part (ext_of s1) m) ++ variable_part m ++ tail)) in Hb.
  rewrite (request_processed _ _ m _ _ _ _ _ _ _ Ht (sv_memory _ _ Hs) Hfd Hd Hh').
  repeat split.
  - fold a r s1. unfold mbind at 1 2, M_bind at 1 2.
    rewrite handler_called by (destruct Hs; done).
    rewrite (handler_calls s1 r (u64 nodeid) a m tail); [|by destruct Hs|by eexists; apply lookup_insert_eq|done].
    by replace (objs s1 + 1) with (objs s + 2) by (cbn; lia).
  - apply holds_app_inv in Hb as [_ Hb]. rewrite enc_length in Hb.
    apply holds_app_inv in Hb as [Hb _].
    destruct m; try exact Hb; [intros i; by right; apply Nat.le_0_l|].
    unfold s2, prepared. by case_match.
  - by destruct m; try done; unfold s2, prepared; case_match.
  - unfold s2. destruct m; cbn [prepared with_umask reqs set_reqs set_sysm].
    all: try (case_match; cbn [reqs set_phs set_objs]).
    all: unfold with_umask; cbn [reqs set_reqs]; rewrite ?lookup_alter_eq.
    all: unfold s1, joined; cbn [reqs set_se set_reqs]; rewrite lookup_insert_eq.
    all: by eexists.
Qed.
End Handlers.

(** RENAME2 of [a] to [bc] in directory 7, not replacing. *)
Definition ex_rename : kmsg := K_rename2 7 1 [97] [98; 99].
Definition ex_message : list Z :=
  enc (in_header 61 45 10 1 1000 100 4242) ++ enc (fixed_part false ex_rename) ++
  variable_part ex_rename ++ [].

Lemma dispatch_roundtrip_witness (h := recorder)
    (run_op := fun _ : call => mret tt : M (ll (list (list Z))) unit) :
  fuse_session_process_buf_int h run_op (fun _ v => mret v) (fun _ _ _ => mret tt)
    (fun _ _ _ => mret tt) (message_buf 61) 0 (running ex_message) =
  (run_op (C_rename 1 1 4152 7 4154 1);; free 0)
    (joined 1 (request_of 10 1000 100 4242 Alone)
       (allocated 10 1000 100 4242 (running ex_message))).
Proof.
  refine (proj1 (dispatch_roundtrip h run_op _ _ _ (running ex_message) (message_buf 61)
    ex_rename 61 10 1 1000 100 4242 [] _ _ _ _ _)).
  - by split.
  - split; try done. by repeat constructor.
  - done.
  - by left.
  - apply holds_written.
Defined.
