(* ===== verification/LLRequests.v ===== *)
(** * Requests are freed once and never used afterwards

    The invariant of the requests, channels and request lists of a session, and its
    preservation by arrivals, replies and interrupts, also when the function of an
    interrupt answers the request it interrupts. *)
From S2P Require Import Prelude PosixLock Types Buf BufFacts FsOps Entry Dir LLTypes LowLevel LLReply LLData LLOps LLInit LLSession LLFacts.
#[local] Open Scope Z_scope.

Section Requests.
Context {K : Type} (h : host K).
#[local] Abbreviation L := (M (ll K)).
Implicit Types (s : ll K) (m : gmap Z fuse_req).

(** The references the requests hold on a channel. *)
Definition users (ch : Z) m : Z :=
  Z.of_nat (size (filter (fun rq => r_ch rq.2 = ch) m)).

(** A request in the lists has the reference of its owner; one whose interrupt function
    runs is locked and has another; one that was answered meanwhile has only that. *)
Definition req_ok (pins : list Z) (r : Z) (q : fuse_req) : Prop :=
  r_locked q = bool_decide (r ∈ pins) /\
  match r_chain q with
  | OnList => r_ctr q = 1 + (if decide (r ∈ pins) then 1 else 0)
  | Alone | OnInterrupts => r_ctr q = 1 /\ r ∉ pins
  | Removed => r_ctr q = 1 /\ r ∈ pins /\ r_ch q = 0
  end.

(** [pins] are the requests whose interrupt functions run, [held] the references on
    channels that are not held by requests (each worker holds one on its own), and [lk]
    the state of [se->lock]. *)
Record req_wf (held : Z -> Z) (lk : bool) (pins : list Z) (s : ll K) : Prop := mk_req_wf {
  rw_lock : se_locked (se s) = lk;
  rw_list : forall r, r ∈ se_list (se s) <->
    exists q, reqs s !! r = Some q /\ r_chain q = OnList;
  rw_intr : forall r, r ∈ se_interrupts (se s) <->
    exists q, reqs s !! r = Some q /\ r_chain q = OnInterrupts;
  rw_list_nodup : NoDup (se_list (se s));
  rw_intr_nodup : NoDup (se_interrupts (se s));
  rw_req : forall r q, reqs s !! r = Some q -> 0 < r <= objs s /\ req_ok pins r q;
  rw_pins : forall r, r ∈ pins -> is_Some (reqs s !! r);
  rw_chan : forall r q, reqs s !! r = Some q -> r_ch q <> 0 ->
    is_Some (chans s !! r_ch q);
  rw_ctr : forall ch c, chans s !! ch = Some c ->
    0 < ch <= objs s /\ ch_ctr c = held ch + users ch (reqs s);
  rw_held : forall ch, 0 <= held ch;
  rw_kept : forall ch, 0 < held ch -> is_Some (chans s !! ch);
  rw_objs : 0 <= objs s;
}.

(** ** Counting *)
Definition uses (ch : Z) (q : fuse_req) : Z := if decide (r_ch q = ch) then 1 else 0.

Lemma users_insert ch m r q : m !! r = None -> users ch (<[r := q]> m) = users ch m + uses ch q.
Proof.
  intros Hr. unfold users, uses. case_decide as Hc.
  - rewrite map_filter_insert_True by done. rewrite map_size_insert_None; [lia|].
    apply map_lookup_filter_None. by left.
  - rewrite map_filter_insert_False by done. rewrite delete_id by done. lia.
Qed.

Lemma users_delete ch m r q : m !! r = Some q -> users ch (delete r m) = users ch m - uses ch q.
Proof.
  intros Hr. rewrite <- (insert_delete_id m r q Hr) at 2.
  rewrite users_insert by apply lookup_delete_eq. lia.
Qed.

Lemma users_replace ch m r q q' : m !! r = Some q ->
  users ch (<[r := q']> m) = users ch m - uses ch q + uses ch q'.
Proof.
  intros Hr. rewrite <- insert_delete_eq, users_insert by apply lookup_delete_eq.
  by rewrite (users_delete ch m r q).
Qed.

Lemma users_pos ch m r q : m !! r = Some q -> r_ch q = ch -> 0 < users ch m.
Proof.
  intros Hr Hc. pose proof (users_delete ch m r q Hr) as H. unfold uses in H.
  rewrite decide_True in H by done. unfold users in *. lia.
Qed.

Lemma remove_elem r l x : x ∈ remove_req r l <-> x <> r /\ x ∈ l.
Proof. unfold remove_req. by rewrite list_elem_of_filter. Qed.

Lemma remove_nodup r l : NoDup l -> NoDup (remove_req r l).
Proof. apply NoDup_filter. Qed.

Lemma remove_other r l : r ∉ l -> remove_req r l = l.
Proof.
  intros Hr. unfold remove_req. induction l as [|x l IH]; [done|].
  rewrite filter_cons_True by (intros ->; apply Hr; by left).
  rewrite IH; [done|]. intros Hx. apply Hr. by right.
Qed.
(** ** Channels *)
Definition after_put (ch : Z) (s : ll K) : ll K :=
  if ch =? 0 then s
  else match chans s !! ch with
       | None => s
       | Some c =>
         if ch_ctr c - 1 =? 0 then
           set_chans (delete ch (chans s))
             (set_sysm (set_kern (h_close h (ch_fd c) (Buf.kern (sysm s))).2 (sysm s)) s)
         else set_chans (<[ch := mk_chan (ch_ctr c - 1) (ch_fd c)]> (chans s)) s
       end.

Lemma chan_put_Ok s ch : (ch <> 0 -> is_Some (chans s !! ch)) ->
  fuse_chan_put h ch s = Ok (tt, after_put ch s).
Proof.
  intros Hc. unfold fuse_chan_put, after_put. case (Z.eqb_spec ch 0) as [|Hne]; [done|].
  destruct (Hc Hne) as [c Hch]. unfold mbind, M_bind, getM. rewrite Hch. simpl.
  case (ch_ctr c - 1 =? 0); [|done]. unfold liftS, Buf.call, mbind, M_bind, getM.
  by destruct (h_close h (ch_fd c) (Buf.kern (sysm s))) as [[] k].
Qed.

Lemma after_put_same ch s : reqs (after_put ch s) = reqs s /\ se (after_put ch s) = se s /\
  objs (after_put ch s) = objs s /\ oks (after_put ch s) = oks s /\
  Buf.mem (sysm (after_put ch s)) = Buf.mem (sysm s).
Proof. unfold after_put. repeat case_match; done. Qed.

Definition chan_wf (held : Z -> Z) m (cs : gmap Z fuse_chan) (o : Z) : Prop :=
  (forall r q, m !! r = Some q -> r_ch q <> 0 -> is_Some (cs !! r_ch q)) /\
  (forall ch c, cs !! ch = Some c -> 0 < ch <= o /\ ch_ctr c = held ch + users ch m).

(** A request [r] that used its channel does not any more. *)
Lemma chan_wf_put held m m' s r q o : (forall ch, 0 <= held ch) ->
  chan_wf held m (chans s) o -> m !! r = Some q ->
  (forall r' q', m' !! r' = Some q' -> r_ch q' = 0 \/ (r' <> r /\ m !! r' = Some q')) ->
  (forall ch, ch <> 0 -> users ch m' = users ch m - uses ch q) ->
  chan_wf held m' (chans (after_put (r_ch q) s)) o.
Proof.
  intros Hheld [Hin Hctr] Hr Hm' Hu. unfold after_put.
  case (Z.eqb_spec (r_ch q) 0) as [H0|Hne].
  { split.
    - intros r' q' Hr' Hch. destruct (Hm' _ _ Hr') as [|[_ Hq]]; [done|by eapply Hin].
    - intros ch c Hc. destruct (Hctr _ _ Hc) as [Hpos Hct]. split; [done|].
      rewrite Hct, Hu by lia. unfold uses. rewrite decide_False by lia. lia. }
  destruct (Hin _ _ Hr Hne) as [c Hc]. rewrite Hc. destruct (Hctr _ _ Hc) as [Hpos Hct].
  assert (Hus : users (r_ch q) m' = users (r_ch q) m - 1).
  { rewrite Hu by done. unfold uses. by rewrite decide_True. }
  case (Z.eqb_spec (ch_ctr c - 1) 0) as [Hz|Hz]; cbn [chans set_chans]; split.
  - intros r' q' Hr' Hch. destruct (Hm' _ _ Hr') as [|[_ Hq]]; [done|].
    rewrite lookup_delete_ne; [by eapply Hin|]. intros Heq.
    pose proof (users_pos (r_ch q) m' r' q' Hr' (eq_sym Heq)). specialize (Hheld (r_ch q)). lia.
  - intros ch c' Hc'. destruct (decide (ch = r_ch q)) as [->|Hd].
    { by rewrite lookup_delete_eq in Hc'. }
    rewrite lookup_delete_ne in Hc' by done. destruct (Hctr _ _ Hc') as [Hp Hct'].
    split; [done|]. rewrite Hct', Hu by lia. unfold uses. rewrite decide_False by done. lia.
  - intros r' q' Hr' Hch. destruct (Hm' _ _ Hr') as [|[_ Hq]]; [done|].
    destruct (decide (r_ch q' = r_ch q)) as [->|Hd]; [by rewrite lookup_insert_eq|].
    rewrite lookup_insert_ne by done. by eapply Hin.
  - intros ch c' Hc'. destruct (decide (ch = r_ch q)) as [->|Hd].
    + rewrite lookup_insert_eq in Hc'. injection Hc' as <-. cbn. split; [done|]. lia.
    + rewrite lookup_insert_ne in Hc' by done. destruct (Hctr _ _ Hc') as [Hp Hct'].
      split; [done|]. rewrite Hct', Hu by lia. unfold uses. rewrite decide_False by done. lia.
Qed.

(** ** Freeing a request *)
Definition unlisted (r : Z) (q : fuse_req) (e : fuse_session) : fuse_session :=
  match r_chain q with
  | OnList => set_se_list (remove_req r (se_list e)) e
  | OnInterrupts => set_se_interrupts (remove_req r (se_interrupts e)) e
  | _ => e
  end.

Definition off_chain (c : chain) : chain := match c with Alone => Alone | _ => Removed end.

Definition cleared (q : fuse_req) : fuse_req :=
  set_r_ch 0 (set_r_ctr (r_ctr q - 1)
    (set_r_chain (off_chain (r_chain q)) (set_r_u1 0 (set_r_u0 0 q)))).

Definition freed (r : Z) (q : fuse_req) (s : ll K) : ll K :=
  set_se (unlisted r q (se s))
    (set_reqs (if r_ctr q - 1 =? 0 then delete r (reqs s) else <[r := cleared q]> (reqs s))
       (after_put (r_ch q) s)).

Lemma list_del_Ok s r q : reqs s !! r = Some q -> r_chain q <> Removed ->
  list_del_req r s =
  Ok (tt, set_se (unlisted r q (se s))
            (set_reqs (<[r := set_r_chain (off_chain (r_chain q)) q]> (reqs s)) s)).
Proof.
  intros Hr Hc. unfold list_del_req. rewrite (bind_Ok _ _ _ _ _ (load_req_Ok _ _ _ Hr)).
  unfold unlisted. destruct (r_chain q) eqn:Hq; try done.
  - unfold mret, M_ret. cbn. rewrite insert_id by (rewrite Hr; destruct q; cbn in *; by subst).
    by destruct s.
  - change ((modify_se ?g ≫= ?k) s) with (k tt (set_se (g (se s)) s)). cbv beta.
    by rewrite (update_req_Ok _ r q).
  - change ((modify_se ?g ≫= ?k) s) with (k tt (set_se (g (se s)) s)). cbv beta.
    by rewrite (update_req_Ok _ r q).
Qed.
Lemma after_put_set ch e m s :
  after_put ch (set_se e (set_reqs m s)) = set_se e (set_reqs m (after_put ch s)).
Proof. unfold after_put. cbn. by repeat case_match. Qed.

Lemma destroy_Ok s r q : reqs s !! r = Some q -> r_ch q = 0 -> r_locked q = false ->
  destroy_req r s = Ok (tt, set_reqs (delete r (reqs s)) s).
Proof.
  intros Hr Hc Hl. unfold destroy_req. rewrite (bind_Ok _ _ _ _ _ (load_req_Ok _ _ _ Hr)).
  by rewrite Hc, Hl.
Qed.

Lemma unlisted_locked r q e b : unlisted r q (set_se_locked b e) = set_se_locked b (unlisted r q e).
Proof. unfold unlisted. by case_match. Qed.

Lemma unlisted_lock r q e : se_locked (unlisted r q e) = se_locked e.
Proof. unfold unlisted. by case_match. Qed.

Lemma relock e : se_locked e = false -> set_se_locked false (set_se_locked true e) = e.
Proof. destruct e. cbn. by intros ->. Qed.

Lemma free_req_Ok s r q : se_locked (se s) = false -> reqs s !! r = Some q ->
  r_chain q <> Removed -> (r_ch q <> 0 -> is_Some (chans s !! r_ch q)) ->
  (r_ctr q = 1 -> r_locked q = false) ->
  fuse_free_req h r s = Ok (tt, freed r q s).
Proof.
  intros Hl Hr Hc Hch Hlock. unfold fuse_free_req.
  rewrite (bind_Ok _ _ _ _ _ (load_req_Ok _ _ _ Hr)).
  rewrite (bind_Ok _ _ _ _ _ (lock_se_Ok _ Hl)).
  erewrite bind_Ok by (apply (update_req_Ok _ r q); done).
  erewrite bind_Ok by (apply update_req_Ok; apply lookup_insert_eq).
  erewrite bind_Ok by (apply list_del_Ok; [apply lookup_insert_eq|done]).
  erewrite bind_Ok by (apply update_req_Ok; apply lookup_insert_eq).
  set (q4 := set_r_ctr (r_ctr q - 1)
    (set_r_chain (off_chain (r_chain q)) (set_r_u1 0 (set_r_u0 0 q)))).
  eapply run_from with (s2 :=
    set_se (set_se_locked true (unlisted r q (se s))) (set_reqs (<[r := q4]> (reqs s)) s)).
  { cbn. rewrite !insert_insert_eq. by rewrite <- unlisted_locked. }
  erewrite bind_Ok by (apply load_req_Ok; apply lookup_insert_eq).
  erewrite bind_Ok by (apply chan_put_Ok; exact Hch). rewrite after_put_set.
  erewrite bind_Ok by (apply update_req_Ok; apply lookup_insert_eq).
  unfold unlock_se, modify_se.
  change ((modifyM ?g ≫= ?k) ?s1) with (k tt (g s1)). cbv beta.
  eapply run_from with (s2 := set_se (unlisted r q (se s))
    (set_reqs (<[r := cleared q]> (reqs s)) (after_put (r_ch q) s))).
  { cbn. rewrite insert_insert_eq, relock; [done|]. by rewrite unlisted_lock. }
  change (r_ctr q4) with (r_ctr q - 1). unfold freed.
  case (Z.eqb_spec (r_ctr q - 1) 0) as [Hz|]; [|done].
  rewrite (destroy_Ok _ r (cleared q)); [|apply lookup_insert_eq|done|apply Hlock; lia].
  cbn. by rewrite delete_insert_eq.
Qed.
(** ** The invariant is kept *)
Lemma after_put_kept held lk pins s r q ch : req_wf held lk pins s -> reqs s !! r = Some q ->
  0 < held ch -> is_Some (chans (after_put (r_ch q) s) !! ch).
Proof.
  intros Hw Hr Hch. pose proof (rw_kept _ _ _ _ Hw _ Hch) as Hk. unfold after_put.
  case (r_ch q =? 0); [done|]. destruct (chans s !! r_ch q) as [c|] eqn:Hc; [|done].
  destruct (rw_ctr _ _ _ _ Hw _ _ Hc) as [_ Hct].
  pose proof (users_pos (r_ch q) (reqs s) r q Hr eq_refl) as Hu.
  case (Z.eqb_spec (ch_ctr c - 1) 0) as [Hz|_]; cbn [chans set_chans].
  - rewrite lookup_delete_ne; [done|]. intros <-. lia.
  - destruct (decide (r_ch q = ch)) as [->|]; [by rewrite lookup_insert_eq|].
    by rewrite lookup_insert_ne.
Qed.

Lemma chan_wf_of held lk pins s : req_wf held lk pins s -> chan_wf held (reqs s) (chans s) (objs s).
Proof. intros []. by split. Qed.

Lemma removed_list held lk pins s r q : req_wf held lk pins s -> reqs s !! r = Some q ->
  forall x, x ∈ se_list (unlisted r q (se s)) <-> x <> r /\ x ∈ se_list (se s).
Proof.
  intros Hw Hr x. unfold unlisted. destruct (r_chain q) eqn:Hc; cbn; rewrite ?remove_elem; try done.
  all: split; [|by intros [_ ?]]; intros Hx; split; [|done]; intros ->;
    apply (rw_list _ _ _ _ Hw) in Hx as (q' & Hq' & Hl); congruence.
Qed.

Lemma removed_intr held lk pins s r q : req_wf held lk pins s -> reqs s !! r = Some q ->
  forall x, x ∈ se_interrupts (unlisted r q (se s)) <-> x <> r /\ x ∈ se_interrupts (se s).
Proof.
  intros Hw Hr x. unfold unlisted. destruct (r_chain q) eqn:Hc; cbn; rewrite ?remove_elem; try done.
  all: split; [|by intros [_ ?]]; intros Hx; split; [|done]; intros ->;
    apply (rw_intr _ _ _ _ Hw) in Hx as (q' & Hq' & Hl); congruence.
Qed.

Lemma unlisted_nodup r q e : NoDup (se_list e) -> NoDup (se_interrupts e) ->
  NoDup (se_list (unlisted r q e)) /\ NoDup (se_interrupts (unlisted r q e)).
Proof. intros. unfold unlisted. case_match; cbn; split; try done; by apply remove_nodup. Qed.

(** The map after [r] has been freed: it is gone, or it waits for its function. *)
Lemma freed_reqs held lk pins s r q : req_wf held lk pins s -> reqs s !! r = Some q ->
  r_chain q <> Removed ->
  (r ∉ pins /\ reqs (freed r q s) = delete r (reqs s)) \/
  (r ∈ pins /\ reqs (freed r q s) = <[r := cleared q]> (reqs s) /\ r_chain q = OnList /\
   r_ctr q = 2).
Proof.
  intros Hw Hr Hc. destruct (rw_req _ _ _ _ Hw _ _ Hr) as [_ [_ Hok]]. unfold freed. cbn.
  destruct (r_chain q); [| | |done]; try (destruct Hok as [-> ?]; left; by split).
  case_decide; rewrite Hok; [right|left]; by repeat split.
Qed.

Lemma freed_lookup held lk pins s r q x q' : req_wf held lk pins s -> reqs s !! r = Some q ->
  r_chain q <> Removed -> reqs (freed r q s) !! x = Some q' ->
  (x <> r /\ reqs s !! x = Some q') \/
  (x = r /\ q' = cleared q /\ r ∈ pins /\ r_chain q = OnList /\ r_ctr q = 2).
Proof.
  intros Hw Hr Hc Hx.
  destruct (freed_reqs _ _ _ _ _ _ Hw Hr Hc) as [[Hp Heq]|(Hp & Heq & Hl & Hctr)]; rewrite Heq in Hx.
  - apply lookup_delete_Some in Hx as [? ?]. left. by split.
  - destruct (decide (x = r)) as [->|Hne].
    + rewrite lookup_insert_eq in Hx. injection Hx as <-. by right.
    + rewrite lookup_insert_ne in Hx by done. left. by split.
Qed.

Lemma freed_other held lk pins s r q x : req_wf held lk pins s -> reqs s !! r = Some q ->
  r_chain q <> Removed -> x <> r -> reqs (freed r q s) !! x = reqs s !! x.
Proof.
  intros Hw Hr Hc Hne. destruct (freed_reqs _ _ _ _ _ _ Hw Hr Hc) as [[_ ->]|(_ & -> & _)].
  - by rewrite lookup_delete_ne.
  - by rewrite lookup_insert_ne.
Qed.

Lemma freed_objs r q s : objs (freed r q s) = objs s.
Proof. apply (after_put_same (r_ch q) s). Qed.

Lemma freed_chan_wf held lk pins s r q : req_wf held lk pins s -> reqs s !! r = Some q ->
  r_chain q <> Removed -> chan_wf held (reqs (freed r q s)) (chans (freed r q s)) (objs s).
Proof.
  intros Hw Hr Hc. change (chans (freed r q s)) with (chans (after_put (r_ch q) s)).
  apply (chan_wf_put _ (reqs s) _ s r q); [apply Hw|by eapply chan_wf_of|done|..].
  - intros x q' [[? ?]|(-> & -> & _)]%(freed_lookup _ _ _ _ _ _ _ _ Hw Hr Hc); [by right|by left].
  - intros ch Hne. destruct (freed_reqs _ _ _ _ _ _ Hw Hr Hc) as [[_ ->]|(_ & -> & _)].
    + by apply users_delete.
    + rewrite (users_replace _ _ _ q) by done. unfold uses at 2. cbn.
      rewrite decide_False by lia. lia.
Qed.

(** Who is on a list afterwards. *)
Lemma freed_chain held lk pins s r q c : req_wf held lk pins s -> reqs s !! r = Some q ->
  r_chain q <> Removed -> c = OnList \/ c = OnInterrupts -> forall x,
  (x <> r /\ exists q', reqs s !! x = Some q' /\ r_chain q' = c) <->
  (exists q', reqs (freed r q s) !! x = Some q' /\ r_chain q' = c).
Proof.
  intros Hw Hr Hc Hcc x. split.
  - intros [Hne (q' & Hq' & Hl)]. exists q'. by rewrite (freed_other _ _ _ _ _ _ _ Hw).
  - intros (q' & [[Hne Hq']|(-> & -> & _ & Hq & _)]%(freed_lookup _ _ _ _ _ _ _ _ Hw Hr Hc) & Hl).
    + split; [done|]. by exists q'.
    + cbn in Hl. rewrite Hq in Hl. by destruct Hcc; subst.
Qed.

Lemma freed_wf held lk pins s r q : req_wf held lk pins s -> reqs s !! r = Some q ->
  r_chain q <> Removed -> req_wf held lk pins (freed r q s).
Proof.
  intros Hw Hr Hc. destruct (freed_chan_wf _ _ _ _ _ _ Hw Hr Hc) as [Hch1 Hch2].
  destruct (unlisted_nodup r q (se s)) as [Hn1 Hn2]; [apply Hw..|].
  split; rewrite ?freed_objs; try done; try apply Hw.
  - cbn. rewrite unlisted_lock. apply Hw.
  - intros x. change (se (freed r q s)) with (unlisted r q (se s)).
    rewrite (removed_list _ _ _ _ _ _ Hw Hr), (rw_list _ _ _ _ Hw).
    apply (freed_chain held lk pins); auto.
  - intros x. change (se (freed r q s)) with (unlisted r q (se s)).
    rewrite (removed_intr _ _ _ _ _ _ Hw Hr), (rw_intr _ _ _ _ Hw).
    apply (freed_chain held lk pins); auto.
  - intros x q' [[Hne Hq']|(-> & -> & Hp & Hl & Hctr)]%(freed_lookup _ _ _ _ _ _ _ _ Hw Hr Hc);
      [by apply Hw|].
    destruct (rw_req _ _ _ _ Hw _ _ Hr) as [Hpos [Hlk _]]. do 2 (split; [done|]).
    cbn. by rewrite Hctr, Hl.
  - intros x Hx. destruct (decide (x = r)) as [->|Hne].
    + destruct (freed_reqs _ _ _ _ _ _ Hw Hr Hc) as [[Hp _]|(_ & -> & _)]; [done|].
      by rewrite lookup_insert_eq.
    + rewrite (freed_other _ _ _ _ _ _ _ Hw) by done. by apply Hw.
  - intros ch. change (chans (freed r q s)) with (chans (after_put (r_ch q) s)).
    by apply (after_put_kept held lk pins s r).
Qed.
Lemma wf_sysm held lk pins s b oks' : req_wf held lk pins s ->
  req_wf held lk pins (set_oks oks' (set_sysm b s)).
Proof. by intros []. Qed.

Lemma wf_lock held lk lk' pins s : req_wf held lk pins s ->
  req_wf held lk' pins (set_se (set_se_locked lk' (se s)) s).
Proof. by intros []. Qed.

(** Members that hold no reference. *)
Record same_refs (q q' : fuse_req) : Prop := mk_same_refs {
  sr_ctr : r_ctr q' = r_ctr q;
  sr_locked : r_locked q' = r_locked q;
  sr_ch : r_ch q' = r_ch q;
  sr_chain : r_chain q' = r_chain q;
}.

Lemma lookup_replace_Some {A} (m : gmap Z A) r q0 q1 x y : m !! r = Some q0 ->
  <[r := q1]> m !! x = Some y -> (x = r /\ y = q1) \/ (x <> r /\ m !! x = Some y).
Proof.
  intros Hr Hx. destruct (decide (x = r)) as [->|Hne].
  - rewrite lookup_insert_eq in Hx. injection Hx as <-. by left.
  - rewrite lookup_insert_ne in Hx by done. by right.
Qed.

(** A list of requests after a change of one of them that is on it or stays off it. *)
Lemma on_chain_replace m r q q' c x : m !! r = Some q -> (r_chain q' = c <-> r_chain q = c) ->
  (exists y, <[r := q']> m !! x = Some y /\ r_chain y = c) <->
  (exists y, m !! x = Some y /\ r_chain y = c).
Proof.
  intros Hr Hc. destruct (decide (x = r)) as [->|Hne].
  - rewrite lookup_insert_eq, Hr. split; intros (y & [= <-] & Hy); eexists; split; try done; tauto.
  - by rewrite lookup_insert_ne.
Qed.

Lemma wf_replace held lk pins pins' s r q q' : req_wf held lk pins s -> reqs s !! r = Some q ->
  r_chain q' = r_chain q -> r_ch q' = r_ch q -> req_ok pins' r q' ->
  (forall x, x <> r -> x ∈ pins' <-> x ∈ pins) ->
  req_wf held lk pins' (set_reqs (<[r := q']> (reqs s)) s).
Proof.
  intros Hw Hr Hc Hch Hok Hp. split; cbn [reqs set_reqs se chans objs].
  - apply Hw.
  - intros x. rewrite (rw_list _ _ _ _ Hw). symmetry.
    apply on_chain_replace with q; [done|by rewrite Hc].
  - intros x. rewrite (rw_intr _ _ _ _ Hw). symmetry.
    apply on_chain_replace with q; [done|by rewrite Hc].
  - apply Hw.
  - apply Hw.
  - intros x y [[-> ->]|[Hne Hy]]%(lookup_replace_Some _ _ _ _ _ _ Hr).
    + split; [by eapply Hw|done].
    + destruct (rw_req _ _ _ _ Hw _ _ Hy) as [Ho [Hl Hx]]. split; [done|].
      assert (Hd : bool_decide (x ∈ pins') = bool_decide (x ∈ pins)) by (apply bool_decide_ext; auto).
      split; [by rewrite Hd|]. specialize (Hp x Hne).
      destruct (r_chain y); repeat case_decide; naive_solver.
  - intros x Hx. destruct (decide (x = r)) as [->|Hne]; [by rewrite lookup_insert_eq|].
    rewrite lookup_insert_ne by done. apply (rw_pins _ _ _ _ Hw). by apply Hp.
  - intros x y [[-> ->]|[Hne Hy]]%(lookup_replace_Some _ _ _ _ _ _ Hr) Hx.
    + rewrite Hch in *. by apply (rw_chan _ _ _ _ Hw _ _ Hr).
    + by apply (rw_chan _ _ _ _ Hw _ _ Hy).
  - intros ch c Hcc. destruct (rw_ctr _ _ _ _ Hw _ _ Hcc) as [Hpos ->]. split; [done|].
    rewrite (users_replace _ _ _ q) by done. unfold uses. rewrite Hch. lia.
  - apply Hw.
  - apply Hw.
  - apply Hw.
Qed.

Lemma wf_update held lk pins s r q q' : req_wf held lk pins s -> reqs s !! r = Some q ->
  same_refs q q' -> req_wf held lk pins (set_reqs (<[r := q']> (reqs s)) s).
Proof.
  intros Hw Hr [Hct Hl Hch Hc]. apply (wf_replace held lk pins _ s r q); try done.
  destruct (rw_req _ _ _ _ Hw _ _ Hr) as [_ [Hlk Hok]]. split; [by rewrite Hl|].
  rewrite Hc, Hct, Hch. done.
Qed.

(** A new request, on no list yet. *)
Lemma wf_new held lk pins s : req_wf held lk pins s ->
  req_wf held lk pins (set_objs (objs s + 1)
    (set_reqs (<[objs s + 1 := set_r_ctr 1 req0]> (reqs s)) s)).
Proof.
  intros Hw. set (r := objs s + 1).
  assert (Hr : reqs s !! r = None).
  { destruct (reqs s !! r) as [q|] eqn:Hq; [|done].
    destruct (rw_req _ _ _ _ Hw _ _ Hq). unfold r in *. lia. }
  assert (Hp : r ∉ pins).
  { intros Hp. apply (rw_pins _ _ _ _ Hw) in Hp as [q Hq]. congruence. }
  assert (Hc : forall x c, c <> Alone ->
    (exists y, <[r := set_r_ctr 1 req0]> (reqs s) !! x = Some y /\ r_chain y = c) <->
    (exists y, reqs s !! x = Some y /\ r_chain y = c)).
  { intros x c Hc. destruct (decide (x = r)) as [->|Hne]; [|by rewrite lookup_insert_ne].
    rewrite lookup_insert_eq, Hr. split; intros (y & [= <-] & Hy). by subst c. }
  pose proof (rw_objs _ _ _ _ Hw) as Ho.
  split; cbn [reqs set_reqs set_objs se chans objs].
  - apply Hw.
  - intros x. by rewrite Hc, (rw_list _ _ _ _ Hw).
  - intros x. by rewrite Hc, (rw_intr _ _ _ _ Hw).
  - apply Hw.
  - apply Hw.
  - intros x y [[<- <-]|[Hne Hy]]%lookup_insert_Some.
    + split; [lia|]. split; [|done]. cbn. symmetry. by apply bool_decide_eq_false.
    + destruct (rw_req _ _ _ _ Hw _ _ Hy). split; [lia|done].
  - intros x Hx. rewrite lookup_insert_ne by congruence. by apply Hw.
  - intros x y [[<- <-]|[Hne Hy]]%lookup_insert_Some Hx; [done|]. by eapply Hw.
  - intros ch c Hcc. destruct (rw_ctr _ _ _ _ Hw _ _ Hcc) as [Hpos ->]. split; [lia|].
    rewrite users_insert by done. unfold uses. cbn. rewrite decide_False by lia. lia.
  - apply Hw.
  - apply Hw.
  - lia.
Qed.
(** A request takes a reference on a channel. *)
Lemma wf_join_chan held lk pins s r q ch c : req_wf held lk pins s -> reqs s !! r = Some q ->
  r_ch q = 0 -> r_chain q <> Removed -> chans s !! ch = Some c ->
  req_wf held lk pins
    (set_chans (<[ch := mk_chan (ch_ctr c + 1) (ch_fd c)]> (chans s))
       (set_reqs (<[r := set_r_ch ch q]> (reqs s)) s)).
Proof.
  intros Hw Hr Hq Hrm Hc. destruct (rw_ctr _ _ _ _ Hw _ _ Hc) as [Hpos Hct].
  destruct (rw_req _ _ _ _ Hw _ _ Hr) as [Ho [Hlk Hok]].
  split; cbn [reqs set_reqs set_chans se chans objs]; try apply Hw.
  - intros x. rewrite (rw_list _ _ _ _ Hw). symmetry. by apply on_chain_replace with q.
  - intros x. rewrite (rw_intr _ _ _ _ Hw). symmetry. by apply on_chain_replace with q.
  - intros x y [[-> ->]|[Hne Hy]]%(lookup_replace_Some _ _ _ _ _ _ Hr); [|by apply Hw].
    split; [done|]. split; [done|]. cbn. by destruct (r_chain q).
  - intros x Hx. destruct (decide (x = r)) as [->|]; [by rewrite lookup_insert_eq|].
    rewrite lookup_insert_ne by done. by apply Hw.
  - intros x y [[-> ->]|[Hne Hy]]%(lookup_replace_Some _ _ _ _ _ _ Hr) Hx.
    + cbn. by rewrite lookup_insert_eq.
    + destruct (decide (r_ch y = ch)) as [->|]; [by rewrite lookup_insert_eq|].
      rewrite lookup_insert_ne by done. by eapply (rw_chan _ _ _ _ Hw).
  - intros x cx [[<- <-]|[Hne Hx]]%lookup_insert_Some; cbn.
    + split; [done|]. rewrite (users_replace _ _ _ q) by done.
      unfold uses. cbn. rewrite Hq, decide_False, decide_True by lia. lia.
    + destruct (rw_ctr _ _ _ _ Hw _ _ Hx) as [Hp ->]. split; [done|].
      rewrite (users_replace _ _ _ q) by done.
      unfold uses. cbn. rewrite Hq, !decide_False by lia. lia.
  - intros x Hx. destruct (decide (x = ch)) as [->|]; [by rewrite lookup_insert_eq|].
    rewrite lookup_insert_ne by done. by apply (rw_kept _ _ _ _ Hw).
Qed.

(** The channel a message came through is kept by its reader. *)
Definition reader (held : Z -> Z) (ch : Z) (s : ll K) : Prop :=
  ch <> 0 -> 0 < held ch /\ is_Some (chans s !! ch).

Definition filled (unique : Z) (ctx : fuse_ctx) (ch : Z) (q : fuse_req) : fuse_req :=
  set_r_ch ch (set_r_ctx ctx (set_r_unique unique q)).

(** [s'] is [s] with the requests [m], and perhaps other channels. *)
Record reqs_only (s s' : ll K) (m : gmap Z fuse_req) : Prop := mk_reqs_only {
  ro_reqs : reqs s' = m;
  ro_se : se s' = se s;
  ro_objs : objs s' = objs s;
  ro_sysm : sysm s' = sysm s;
  ro_oks : oks s' = oks s;
}.

Lemma fill_runs held lk pins s r q unique ctx ch : req_wf held lk pins s ->
  reader held ch s -> reqs s !! r = Some q -> r_ch q = 0 -> r_chain q <> Removed ->
  runs (fill_req r unique ctx ch) s (fun _ s' => req_wf held lk pins s' /\
    reqs_only s s' (<[r := filled unique ctx ch q]> (reqs s))).
Proof.
  intros Hw Hrd Hr Hch Hrm. unfold fill_req, runs.
  erewrite bind_Ok by (by apply update_req_Ok).
  erewrite bind_Ok by (apply update_req_Ok; apply lookup_insert_eq). cbn.
  set (q2 := set_r_ctx ctx (set_r_unique unique q)). rewrite insert_insert_eq.
  assert (Hw2 : req_wf held lk pins (set_reqs (<[r := q2]> (reqs s)) s)) by 
    by (apply (wf_update _ _ _ s r q); [done..|by split]).
  case (Z.eqb_spec ch 0) as [->|Hne].
  - change (((mret 0 : L Z) ≫= ?k) ?t) with (k 0 t). cbv beta.
    erewrite update_req_Ok by apply lookup_insert_eq. eexists _, _. split; [done|].
    cbn. rewrite !insert_insert_eq. split; [|done].
    refine (wf_update held lk pins s r q (filled unique ctx 0 q) Hw Hr _). by split.
  - destruct (Hrd Hne) as [Hheld [c Hc]]. destruct (rw_ctr _ _ _ _ Hw _ _ Hc) as [Hpos Hct].
    assert (Hget : fuse_chan_get ch (set_reqs (<[r := q2]> (reqs s)) s) = Ok (ch,
      set_chans (<[ch := mk_chan (ch_ctr c + 1) (ch_fd c)]> (chans s))
        (set_reqs (<[r := q2]> (reqs s)) s))).
    { unfold fuse_chan_get, mbind, M_bind, getM. cbn. rewrite Hc. cbn.
      unfold users in Hct. rewrite (proj2 (Z.ltb_lt 0 (ch_ctr c))) by lia. done. }
    erewrite bind_Ok by apply Hget.
    erewrite update_req_Ok by apply lookup_insert_eq. eexists _, _. split; [done|].
    cbn. rewrite !insert_insert_eq. split; [|done].
    pose proof (wf_join_chan _ _ _ _ _ q2 ch c Hw2 (lookup_insert_eq _ _ _) Hch Hrm Hc) as Hj.
    cbn in Hj. by rewrite insert_insert_eq in Hj.
Qed.

(** ** Lists *)
Lemma find_req_Ok s p l : (forall r, r ∈ l -> is_Some (reqs s !! r)) ->
  exists o, find_req p l s = Ok (o, s) /\
    match o with
    | Some r => r ∈ l /\ exists q, reqs s !! r = Some q /\ p q = true
    | None => forall r q, r ∈ l -> reqs s !! r = Some q -> p q = false
    end.
Proof.
  induction l as [|r l IH]; intros Hl.
  { exists None. split; [done|]. intros r q []%not_elem_of_nil. }
  destruct (Hl r) as [q Hq]; [by left|]. simpl.
  rewrite (bind_Ok _ _ _ _ _ (load_req_Ok _ _ _ Hq)).
  destruct (p q) eqn:Hp.
  { exists (Some r). split; [done|]. split; [by left|]. by exists q. }
  destruct IH as (o & Ho & Hres); [intros x Hx; apply Hl; by right|].
  exists o. split; [done|]. destruct o as [x|].
  - destruct Hres as [Hx Hy]. split; [by right|done].
  - intros x y [->|Hx]%elem_of_cons Hy; [by rewrite Hq in Hy; simplify_eq|by eapply Hres].
Qed.

Lemma wf_on_list held lk pins s r : req_wf held lk pins s -> r ∈ se_list (se s) ->
  exists q, reqs s !! r = Some q /\ r_chain q = OnList.
Proof. intros Hw Hr. by apply (rw_list _ _ _ _ Hw). Qed.

Lemma wf_on_intr held lk pins s r : req_wf held lk pins s -> r ∈ se_interrupts (se s) ->
  exists q, reqs s !! r = Some q /\ r_chain q = OnInterrupts.
Proof. intros Hw Hr. by apply (rw_intr _ _ _ _ Hw). Qed.

Definition appended (c : chain) (r : Z) (e : fuse_session) : fuse_session :=
  match c with
  | OnList => set_se_list (se_list e ++ [r]) e
  | OnInterrupts => set_se_interrupts (se_interrupts e ++ [r]) e
  | _ => e
  end.

(** The members of a list when [r] changes its chain from [c] to [c']. *)
Lemma chain_moved m r q c' x c : m !! r = Some q ->
  (exists y, <[r := set_r_chain c' q]> m !! x = Some y /\ r_chain y = c) <->
  (x = r /\ c' = c) \/ (x <> r /\ exists y, m !! x = Some y /\ r_chain y = c).
Proof.
  intros Hr. destruct (decide (x = r)) as [->|Hne].
  - rewrite lookup_insert_eq. split; [intros (y & [= <-] & <-); by left|].
    intros [[_ <-]|[? _]]; [by eexists|done].
  - rewrite lookup_insert_ne by done. naive_solver.
Qed.

Lemma NoDup_snoc (l : list Z) r : NoDup l -> r ∉ l -> NoDup (l ++ [r]).
Proof.
  intros Hn Hr. apply NoDup_app. split; [done|]. split; [|by apply NoDup_singleton].
  intros x Hx ->%list_elem_of_singleton. done.
Qed.

(** [list_add_req] of a request that is on no list. *)
Lemma wf_append held lk pins s r q c : req_wf held lk pins s -> reqs s !! r = Some q ->
  r_chain q = Alone -> c = OnList \/ c = OnInterrupts ->
  req_wf held lk pins
    (set_se (appended c r (se s)) (set_reqs (<[r := set_r_chain c q]> (reqs s)) s)).
Proof.
  intros Hw Hr Hq Hc. destruct (rw_req _ _ _ _ Hw _ _ Hr) as [Ho [Hlk Hok]].
  rewrite Hq in Hok. destruct Hok as [Hct Hp].
  assert (Hnl : r ∉ se_list (se s)).
  { intros (q' & Hq' & Hl)%(wf_on_list _ _ _ _ _ Hw). congruence. }
  assert (Hni : r ∉ se_interrupts (se s)).
  { intros (q' & Hq' & Hl)%(wf_on_intr _ _ _ _ _ Hw). congruence. }
  split; cbn [reqs set_reqs set_se se chans objs]; try apply Hw.
  - transitivity (se_locked (se s)); [by destruct Hc; subst|apply Hw].
  - intros x. rewrite (chain_moved _ _ q) by done.
    rewrite <- (rw_list _ _ _ _ Hw). destruct Hc; subst; cbn.
    + rewrite elem_of_app, list_elem_of_singleton.
      destruct (decide (x = r)) as [->|]; naive_solver.
    + destruct (decide (x = r)) as [->|]; naive_solver.
  - intros x. rewrite (chain_moved _ _ q) by done.
    rewrite <- (rw_intr _ _ _ _ Hw). destruct Hc; subst; cbn.
    + destruct (decide (x = r)) as [->|]; naive_solver.
    + rewrite elem_of_app, list_elem_of_singleton.
      destruct (decide (x = r)) as [->|]; naive_solver.
  - destruct Hc; subst; cbn; [apply NoDup_snoc; [apply Hw|done]|apply Hw].
  - destruct Hc; subst; cbn; [apply Hw|apply NoDup_snoc; [apply Hw|done]].
  - intros x y [[-> ->]|[Hne Hy]]%(lookup_replace_Some _ _ _ _ _ _ Hr); [|by apply Hw].
    split; [done|]. split; [done|]. cbn. destruct Hc; subst; [by rewrite decide_False|done].
  - intros x Hx. destruct (decide (x = r)) as [->|]; [by rewrite lookup_insert_eq|].
    rewrite lookup_insert_ne by done. by apply Hw.
  - intros x y [[-> ->]|[Hne Hy]]%(lookup_replace_Some _ _ _ _ _ _ Hr);
      [exact (rw_chan _ _ _ _ Hw _ _ Hr)|exact (rw_chan _ _ _ _ Hw _ _ Hy)].
  - intros ch cc Hcc. destruct (rw_ctr _ _ _ _ Hw _ _ Hcc) as [Hpos ->]. split; [done|].
    rewrite (users_replace _ _ _ q) by done. unfold uses. cbn. lia.
Qed.

(** An interrupt that is taken off its list to be answered. *)
Lemma wf_dequeue held lk pins s r q : req_wf held lk pins s -> reqs s !! r = Some q ->
  r_chain q = OnInterrupts ->
  req_wf held lk pins
    (set_se (unlisted r q (se s)) (set_reqs (<[r := set_r_chain Alone q]> (reqs s)) s)).
Proof.
  intros Hw Hr Hq. destruct (rw_req _ _ _ _ Hw _ _ Hr) as [Ho [Hlk Hok]].
  rewrite Hq in Hok. destruct (unlisted_nodup r q (se s)) as [Hn1 Hn2]; [apply Hw..|].
  split; cbn [reqs set_reqs set_se se chans objs]; try apply Hw; try done.
  - rewrite unlisted_lock. apply Hw.
  - intros x. rewrite (chain_moved _ _ q), (removed_list _ _ _ _ _ _ Hw Hr) by done.
    rewrite (rw_list _ _ _ _ Hw). naive_solver.
  - intros x. rewrite (chain_moved _ _ q), (removed_intr _ _ _ _ _ _ Hw Hr) by done.
    rewrite (rw_intr _ _ _ _ Hw). naive_solver.
  - intros x y [[-> ->]|[Hne Hy]]%(lookup_replace_Some _ _ _ _ _ _ Hr); [|by apply Hw].
    by split.
  - intros x Hx. destruct (decide (x = r)) as [->|]; [by rewrite lookup_insert_eq|].
    rewrite lookup_insert_ne by done. by apply Hw.
  - intros x y [[-> ->]|[Hne Hy]]%(lookup_replace_Some _ _ _ _ _ _ Hr);
      [exact (rw_chan _ _ _ _ Hw _ _ Hr)|exact (rw_chan _ _ _ _ Hw _ _ Hy)].
  - intros ch cc Hcc. destruct (rw_ctr _ _ _ _ Hw _ _ Hcc) as [Hpos ->]. split; [done|].
    rewrite (users_replace _ _ _ q) by done. unfold uses. cbn. lia.
Qed.

(** ** Replies *)
Lemma send_msg_Ok ch out iov s : (ch <> 0 -> is_Some (chans s !! ch)) ->
  exists res b, fuse_send_msg h ch out iov s = Ok (res, set_sysm b s).
Proof.
  intros Hc. unfold fuse_send_msg, send_fd.
  set (w := fun fd (s : ll K) => match io (se s) with
     | Some _ => h_io_writev h fd (out_bytes (set_o_len (u32 (iov_length (out_bytes out :: iov))) out) :: iov)
     | None => h_writev h fd (out_bytes (set_o_len (u32 (iov_length (out_bytes out :: iov))) out) :: iov) end).
  assert (Hfd : exists fd, (if ch =? 0 then mret (se_fd (se s))
    else c ← derefM (chans s !! ch); mret (ch_fd c) : L Z) s = Ok (fd, s)).
  { case (Z.eqb_spec ch 0) as [|Hne]; [by eexists|]. destruct (Hc Hne) as [c Hcc].
    rewrite Hcc. by eexists. }
  destruct Hfd as [fd Hfd].
  change ((getM ≫= ?k) s) with (k s s). rewrite bind_assoc_eq.
  change ((getM ≫= ?k) s) with (k s s). cbv beta. rewrite (bind_Ok _ _ _ _ _ Hfd).
  change ((getM ≫= ?k) s) with (k s s). cbv beta.
  unfold with_sys, liftS at 1, mbind at 1, M_bind at 1. fold (w fd s).
  destruct (w fd s (sysm s)) as [[res err] b]. exists (if res =? -1 then - err else 0), b.
  by destruct (res =? -1).
Qed.

(** ** Requests on no list *)
Definition alone (s : ll K) (x : Z) (y : fuse_req) : Prop :=
  reqs s !! x = Some y /\ r_chain y = Alone.

(** The same requests are on no list in [s] and in [s'], those of [l] apart. *)
Definition alone_but (l : list Z) (s s' : ll K) : Prop :=
  forall x, x ∉ l -> forall y, alone s' x y <-> alone s x y.

Lemma alone_but_trans l l' s s1 s2 : alone_but l s s1 -> alone_but l' s1 s2 ->
  alone_but (l ++ l') s s2.
Proof.
  intros H1 H2 x Hx y. rewrite elem_of_app in Hx. etransitivity; [apply H2|apply H1]; tauto.
Qed.

Lemma alone_but_insert r q (s s' : ll K) : reqs s' = <[r := q]> (reqs s) -> alone_but [r] s s'.
Proof.
  intros Hs x Hx y. unfold alone. rewrite Hs, lookup_insert_ne; [done|].
  intros ->. apply Hx. by left.
Qed.

Lemma alone_but_freed held lk pins s r q : req_wf held lk pins s -> reqs s !! r = Some q ->
  r_chain q <> Removed -> alone_but [r] s (freed r q s).
Proof.
  intros Hw Hr Hc x Hx y. unfold alone. rewrite (freed_other _ _ _ _ _ _ _ Hw); [done..|].
  intros ->. apply Hx. by left.
Qed.

(** A request that was on a list is back, or on none, or gone: nothing has changed. *)
Lemma alone_but_listed l r q s s' : alone_but (r :: l) s s' -> reqs s !! r = Some q ->
  r_chain q <> Alone -> (forall y, ~ alone s' r y) -> alone_but l s s'.
Proof.
  intros Hb Hr Hq Hs' x Hx y. destruct (decide (x = r)) as [->|Hne].
  - split; [by intros ?%Hs'|]. intros [Hy Hc]. congruence.
  - apply Hb. by rewrite not_elem_of_cons.
Qed.

Lemma freed_gone held lk pins s r q y : req_wf held lk pins s -> reqs s !! r = Some q ->
  r_chain q <> Removed -> ~ alone (freed r q s) r y.
Proof.
  intros Hw Hr Hc [Hy Ha].
  destruct (freed_lookup _ _ _ _ _ _ _ _ Hw Hr Hc Hy) as [[? _]|(_ & -> & _ & Hl & _)]; [done|].
  cbn in Ha. by rewrite Hl in Ha.
Qed.

(** ** Dropping an interrupt *)
Lemma drop_Ok s r q : reqs s !! r = Some q -> r_locked q = false ->
  (r_ch q <> 0 -> is_Some (chans s !! r_ch q)) ->
  drop_interrupt h r s = Ok (tt, set_reqs (delete r (reqs s)) (after_put (r_ch q) s)).
Proof.
  intros Hr Hl Hc. unfold drop_interrupt. rewrite (bind_Ok _ _ _ _ _ (load_req_Ok _ _ _ Hr)).
  erewrite bind_Ok by (by apply chan_put_Ok).
  destruct (after_put_same (r_ch q) s) as (Hreqs & _).
  erewrite bind_Ok by (apply update_req_Ok; by rewrite Hreqs).
  erewrite destroy_Ok; [|apply lookup_insert_eq|done|done].
  cbn. by rewrite delete_insert_eq, Hreqs.
Qed.

Lemma freed_single s r q : r_ctr q = 1 ->
  freed r q s =
  set_se (unlisted r q (se s)) (set_reqs (delete r (reqs s)) (after_put (r_ch q) s)).
Proof. intros Hc. unfold freed. by rewrite Hc. Qed.

Lemma set_se_same s : set_se (se s) s = s.
Proof. by destruct s. Qed.

(** A request of which only the reference of its owner is left. *)
Lemma wf_single held lk pins s r q : req_wf held lk pins s -> reqs s !! r = Some q ->
  r_chain q = Alone \/ r_chain q = OnInterrupts ->
  r_ctr q = 1 /\ r_locked q = false /\ r ∉ pins.
Proof.
  intros Hw Hr Hc. destruct (rw_req _ _ _ _ Hw _ _ Hr) as (_ & Hl & Hok).
  assert (Hok' : r_ctr q = 1 /\ r ∉ pins) by (by destruct Hc as [Hc|Hc]; rewrite Hc in Hok).
  destruct Hok' as [? Hp]. split; [done|]. split; [|done].
  rewrite Hl. by apply bool_decide_eq_false.
Qed.

Lemma drop_alone_Ok held lk pins s r q : req_wf held lk pins s -> alone s r q ->
  drop_interrupt h r s = Ok (tt, freed r q s).
Proof.
  intros Hw [Hr Ha]. destruct (wf_single _ _ _ _ _ _ Hw Hr) as (Hct & Hl & _); [by left|].
  rewrite (drop_Ok _ _ _ Hr Hl); [|by apply (rw_chan _ _ _ _ Hw _ _ Hr)].
  rewrite freed_single by done. unfold unlisted. rewrite Ha.
  destruct (after_put_same (r_ch q) s) as (_ & Hse & _). rewrite <- Hse.
  by rewrite set_se_same || destruct (after_put (r_ch q) s).
Qed.

Lemma drop_listed_Ok held lk pins s r q : req_wf held lk pins s -> reqs s !! r = Some q ->
  r_chain q = OnInterrupts ->
  (list_del_req r;; drop_interrupt h r) s = Ok (tt, freed r q s).
Proof.
  intros Hw Hr Hc. destruct (wf_single _ _ _ _ _ _ Hw Hr) as (Hct & Hl & _); [by right|].
  erewrite bind_Ok by (apply list_del_Ok; [done|by rewrite Hc]).
  erewrite drop_Ok; [|apply lookup_insert_eq|done|exact (rw_chan _ _ _ _ Hw _ _ Hr)].
  rewrite freed_single by done. rewrite after_put_set.
  cbn. by rewrite delete_insert_eq.
Qed.

Lemma alone_but_weaken l l' s s' : alone_but l s s' -> l ⊆ l' -> alone_but l' s s'.
Proof. intros Hb Hl x Hx. apply Hb. set_solver. Qed.

(** A request that is on no list in neither of two states is no exception. *)
Lemma alone_but_neither l l' x s s' : (forall y, ~ alone s x y) -> (forall y, ~ alone s' x y) ->
  alone_but l s s' -> (forall z, z ∈ l -> z = x \/ z ∈ l') -> alone_but l' s s'.
Proof.
  intros Hs Hs' Hb Hl z Hz y. destruct (decide (z = x)) as [->|Hne].
  - split; intros Hy; [by apply Hs' in Hy|by apply Hs in Hy].
  - apply Hb. intros Hzl. destruct (Hl z Hzl); done.
Qed.

Lemma not_alone_null held lk pins s y : req_wf held lk pins s -> ~ alone s 0 y.
Proof. intros Hw [Hy _]. destruct (rw_req _ _ _ _ Hw _ _ Hy). lia. Qed.

(** ** Accepting a request *)
Lemma check_runs held pins s r q : req_wf held true pins s -> alone s r q ->
  runs (check_interrupt h r) s (fun intr s' => req_wf held true pins s' /\
    exists q', alone s' r q' /\ r_unique q' = r_unique q /\ alone_but [r; intr] s s' /\
    (intr = 0 \/ intr <> r /\ (forall y, ~ alone s intr y) /\ exists qi, alone s' intr qi)).
Proof.
  intros Hw [Hr Ha]. unfold check_interrupt, runs.
  rewrite (bind_Ok _ _ _ _ _ (load_req_Ok _ _ _ Hr)).
  change ((getM ≫= ?k) s) with (k s s). cbv beta.
  destruct (find_req_Ok s (fun c => r_u0 c =? r_unique q) (se_interrupts (se s)))
    as (o & Ho & Hres).
  { intros x (qx & Hx & _)%(wf_on_intr _ _ _ _ _ Hw). by eexists. }
  rewrite (bind_Ok _ _ _ _ _ Ho). destruct o as [curr|].
  - destruct Hres as [(qc & Hcurr & Hon)%(wf_on_intr _ _ _ _ _ Hw) _].
    assert (Hne : curr <> r) by (intros ->; congruence).
    erewrite bind_Ok by (apply update_req_Ok; exact Hr).
    set (q' := set_r_interrupted true q).
    assert (Hsr : same_refs q q') by by split.
    set (s1 := set_reqs (<[r := q']> (reqs s)) s).
    pose proof (wf_update _ _ _ _ _ _ q' Hw Hr Hsr) as Hw1. fold s1 in Hw1.
    assert (Hc1 : reqs s1 !! curr = Some qc) by (by cbn; rewrite lookup_insert_ne).
    assert (Hcr : r_chain qc <> Removed) by by rewrite Hon.
    rewrite <- bind_assoc_eq.
    erewrite bind_Ok by (by eapply drop_listed_Ok).
    eexists _, _. split; [done|]. split; [by apply freed_wf|]. exists q'.
    assert (Hb : alone_but [r; curr] s (freed curr qc s1)).
    { apply (alone_but_trans [r] [curr] s s1); [by eapply alone_but_insert|].
      by eapply alone_but_freed. }
    split; [|split; [done|split; [|by left]]].
    + split; [|by cbn]. rewrite (freed_other _ _ _ _ _ _ _ Hw1) by done. apply lookup_insert_eq.
    + intros x Hx y. destruct (decide (x = curr)) as [->|Hxc].
      * split; [by intros ?%(freed_gone _ _ _ _ _ _ _ Hw1 Hc1)|]. intros [? ?]; congruence.
      * apply Hb. intros Hx'. apply Hx. set_solver.
  - destruct (se_interrupts (se s)) as [|curr l] eqn:Hil.
    { eexists _, _. split; [done|]. split; [done|]. exists q.
      do 3 (split; [done|]). by left. }
    destruct (wf_on_intr _ _ _ _ curr Hw) as (qc & Hcurr & Hon); [rewrite Hil; by left|].
    assert (Hne : curr <> r) by (intros ->; congruence).
    erewrite bind_Ok by (apply list_del_Ok; [done|by rewrite Hon]).
    unfold list_init_req. erewrite bind_Ok by (apply update_req_Ok; apply lookup_insert_eq).
    eexists _, _. split; [done|]. cbn [reqs set_reqs set_se se].
    pose proof (wf_dequeue _ _ _ _ _ _ Hw Hcurr Hon) as Hw'.
    rewrite insert_insert_eq. split; [exact Hw'|]. exists q.
    split; [split; [by cbn; rewrite lookup_insert_ne|done]|]. split; [done|]. split.
    + intros x Hx y. apply (alone_but_insert curr (set_r_chain Alone qc)); [done|set_solver].
    + right. split; [done|]. split; [intros y [? ?]; congruence|].
      eexists. split; [apply lookup_insert_eq|done].
Qed.

Lemma wf_sys held lk pins s b : req_wf held lk pins s -> req_wf held lk pins (set_sysm b s).
Proof. by intros []. Qed.

Lemma wf_free_Ok held pins s r q : req_wf held false pins s -> reqs s !! r = Some q ->
  r_chain q <> Removed -> fuse_free_req h r s = Ok (tt, freed r q s).
Proof.
  intros Hw Hr Hc. apply free_req_Ok; [apply Hw|done|done|by apply (rw_chan _ _ _ _ Hw _ _ Hr)|].
  intros Hct. destruct (rw_req _ _ _ _ Hw _ _ Hr) as (_ & -> & Hok).
  apply bool_decide_eq_false. destruct (r_chain q); try tauto. case_decide; [lia|done].
Qed.

Lemma send_reply_Ok held pins s r q error iov : req_wf held false pins s ->
  reqs s !! r = Some q -> r_chain q <> Removed ->
  exists res b, send_reply_iov h r error iov s = Ok (res, freed r q (set_sysm b s)).
Proof.
  intros Hw Hr Hc. unfold send_reply_iov, fuse_send_reply_iov_nofree.
  set (err := if _ : bool then _ else _).
  destruct (send_msg_Ok (r_ch q) (mk_out 0 err (r_unique q) 0 0 0) iov s) as (res & b & Hmsg);
    [by apply (rw_chan _ _ _ _ Hw _ _ Hr)|].
  exists res, b. rewrite bind_assoc_eq, (bind_Ok _ _ _ _ _ (load_req_Ok _ _ _ Hr)).
  rewrite (bind_Ok _ _ _ _ _ Hmsg).
  by rewrite (bind_Ok _ _ _ _ _ (wf_free_Ok _ _ (set_sysm b s) r q (wf_sys _ _ _ _ b Hw) Hr Hc)).
Qed.

Lemma send_reply_runs held pins s r q error iov : req_wf held false pins s ->
  reqs s !! r = Some q -> r_chain q <> Removed ->
  runs (send_reply_iov h r error iov) s (fun _ s' => req_wf held false pins s' /\
    alone_but [r] s s' /\ (forall y, ~ alone s' r y) /\ (r ∉ pins -> reqs s' !! r = None) /\
    (forall x, x <> r -> reqs s' !! x = reqs s !! x)).
Proof.
  intros Hw Hr Hc. destruct (send_reply_Ok _ _ _ _ _ error iov Hw Hr Hc) as (res & b & Hrun).
  exists res. eexists. split; [exact Hrun|].
  assert (Hw' : req_wf held false pins (set_sysm b s)) by by apply wf_sys.
  split; [by apply freed_wf|]. split; [exact (alone_but_freed _ _ _ _ _ _ Hw' Hr Hc)|].
  split; [intros y; exact (freed_gone _ _ _ _ _ _ _ Hw' Hr Hc)|]. split.
  - intros Hp. destruct (freed_reqs _ _ _ _ _ _ Hw' Hr Hc) as [[_ ->]|[? _]]; [|done].
    apply lookup_delete_eq.
  - intros x Hx. by rewrite (freed_other _ _ _ _ _ _ _ Hw').
Qed.

(** [list_add_req] and [list_add_interrupt]. *)
Lemma list_add_Ok s r q : reqs s !! r = Some q ->
  list_add_req r s = Ok (tt, set_se (appended OnList r (se s))
    (set_reqs (<[r := set_r_chain OnList q]> (reqs s)) s)) /\
  list_add_interrupt r s = Ok (tt, set_se (appended OnInterrupts r (se s))
    (set_reqs (<[r := set_r_chain OnInterrupts q]> (reqs s)) s)).
Proof.
  intros Hr. unfold list_add_req, list_add_interrupt.
  split; rewrite (bind_Ok _ _ _ _ _ (update_req_Ok _ _ _ _ Hr)). all: done.
Qed.

Lemma accept_runs held pins s r q opcode : req_wf held false pins s -> alone s r q ->
  opcode <> FUSE_INTERRUPT ->
  runs (accept_req h r opcode) s (fun _ s' => req_wf held false pins s' /\
    alone_but [r] s s' /\ exists q', reqs s' !! r = Some q' /\ r_chain q' = OnList /\
      r_unique q' = r_unique q).
Proof.
  intros Hw Ha Hop. unfold accept_req. rewrite (proj2 (Z.eqb_neq _ _) Hop).
  eapply runs_Ok_bind; [apply lock_se_Ok; apply Hw|].
  pose proof (wf_lock _ _ true _ _ Hw) as Hw1. set (s1 := set_se _ s) in *.
  eapply runs_bind; [by apply check_runs|].
  intros intr s2 (Hw2 & q' & Ha' & Hsr & Hb & Hi). cbv beta.
  destruct Ha' as [Hr' Hc'].
  eapply runs_Ok_bind; [apply (list_add_Ok _ _ _ Hr')|].
  pose proof (wf_append _ _ _ _ _ _ OnList Hw2 Hr' Hc' (or_introl eq_refl)) as Hw3.
  eapply runs_Ok_bind; [done|]. apply (wf_lock _ _ false) in Hw3.
  set (s4 := set_se (set_se_locked false _) _) in *.
  change (runs (if intr =? 0 then mret tt else reply_err_ h intr EAGAIN) s4 (fun _ s' =>
    req_wf held false pins s' /\ alone_but [r] s s' /\ exists y, reqs s' !! r = Some y /\
      r_chain y = OnList /\ r_unique y = r_unique q)).
  assert (Hb4 : alone_but [r; intr; r] s s4).
  { apply (alone_but_trans [r; intr] [r] s s2); [exact Hb|by eapply alone_but_insert]. }
  assert (Hr4 : reqs s4 !! r = Some (set_r_chain OnList q')) by apply lookup_insert_eq.
  case (Z.eqb_spec intr 0) as [Hz|Hz].
  - apply runs_ret. split; [done|]. split; [|by eexists].
    apply (alone_but_neither [r; intr; r] _ intr); [..|exact Hb4|set_solver];
      intros y; subst intr; by eapply not_alone_null.
  - destruct Hi as [?|(Hne & Hn & qi & Hqi & Hci)]; [done|].
    assert (Hi4 : reqs s4 !! intr = Some qi) by (cbn; by rewrite lookup_insert_ne).
    unfold reply_err_. eapply runs_bind.
    { apply (send_reply_runs held pins s4 intr qi); [done..|by rewrite Hci]. }
    intros _ s5 (Hw5 & Hb5 & Hn5 & _ & Ho5). apply runs_ret. split; [done|]. split.
    + apply (alone_but_neither ([r; intr; r] ++ [intr]) [r] intr); [exact Hn|done| |set_solver].
      by apply alone_but_trans with s4.
    + rewrite Ho5 by done. by eexists.
Qed.

(** ** Interrupting a request *)

(** The answered request whose function has returned. *)
Lemma wf_drop_removed held lk s curr c : req_wf held lk [curr] s -> reqs s !! curr = Some c ->
  r_chain c = Removed -> req_wf held lk [] (set_reqs (delete curr (reqs s)) s).
Proof.
  intros Hw Hr Hc. destruct (rw_req _ _ _ _ Hw _ _ Hr) as (_ & _ & Hok).
  rewrite Hc in Hok. destruct Hok as (_ & _ & Hch).
  assert (Hon : forall x ch, ch <> Removed ->
    (exists y, delete curr (reqs s) !! x = Some y /\ r_chain y = ch) <->
    (exists y, reqs s !! x = Some y /\ r_chain y = ch)).
  { intros x ch Hne. destruct (decide (x = curr)) as [->|Hx]; [|by rewrite lookup_delete_ne].
    rewrite lookup_delete_eq, Hr. naive_solver congruence. }
  split; cbn [reqs set_reqs se chans objs]; try apply Hw.
  - intros x. by rewrite Hon, (rw_list _ _ _ _ Hw).
  - intros x. by rewrite Hon, (rw_intr _ _ _ _ Hw).
  - intros x y [Hne Hy]%lookup_delete_Some.
    destruct (rw_req _ _ _ _ Hw _ _ Hy) as (Ho & Hl & Hok). split; [done|].
    assert (Hx : x ∉ [curr]) by set_solver.
    rewrite bool_decide_eq_false_2 in Hl by done.
    split; [by rewrite bool_decide_eq_false_2 by set_solver|].
    destruct (r_chain y); repeat case_decide; set_solver.
  - intros x []%not_elem_of_nil.
  - intros x y [Hne Hy]%lookup_delete_Some. by apply (rw_chan _ _ _ _ Hw _ _ Hy).
  - intros ch cc Hcc. destruct (rw_ctr _ _ _ _ Hw _ _ Hcc) as [Hpos ->]. split; [done|].
    rewrite (users_delete _ _ _ c) by done. unfold uses. rewrite Hch.
    rewrite decide_False by lia. lia.
Qed.

(** A request on no list gives up its channel. *)
Lemma wf_put_chan held lk pins s r q : req_wf held lk pins s -> alone s r q ->
  req_wf held lk pins (set_reqs (<[r := set_r_ch 0 q]> (reqs s)) (after_put (r_ch q) s)).
Proof.
  intros Hw [Hr Ha]. destruct (after_put_same (r_ch q) s) as (Hreqs & Hse & Ho & _).
  assert (Hc : chan_wf held (<[r := set_r_ch 0 q]> (reqs s)) (chans (after_put (r_ch q) s)) (objs s)).
  { apply (chan_wf_put _ (reqs s) _ s r q); [apply Hw|by eapply chan_wf_of|done|..].
    - intros x y [[-> ->]|[Hne Hy]]%(lookup_replace_Some _ _ _ _ _ _ Hr); [by left|by right].
    - intros ch Hne. rewrite (users_replace _ _ _ q) by done. unfold uses at 2. cbn.
      rewrite decide_False by lia. lia. }
  destruct Hc as [Hc1 Hc2].
  split; cbn [reqs set_reqs se chans objs set_chans]; rewrite ?Hse, ?Ho; try done; try apply Hw.
  - intros x. rewrite (rw_list _ _ _ _ Hw). symmetry. by apply on_chain_replace with q.
  - intros x. rewrite (rw_intr _ _ _ _ Hw). symmetry. by apply on_chain_replace with q.
  - intros x y [[-> ->]|[Hne Hy]]%(lookup_replace_Some _ _ _ _ _ _ Hr); [|by apply Hw].
    destruct (rw_req _ _ _ _ Hw _ _ Hr) as (Hpos & Hl & Hok).
    split; [done|]. split; [done|]. cbn. by rewrite Ha in *.
  - intros x Hx. destruct (decide (x = r)) as [->|]; [by rewrite lookup_insert_eq|].
    rewrite lookup_insert_ne by done. by apply Hw.
  - intros ch. by apply (after_put_kept held lk pins s r).
Qed.

Context (run_intr : Z -> Z -> Z -> L unit).

(** What the function of an interrupt may do, while the request it interrupts is kept for
    it: anything that keeps the invariant, such as answering requests, also that one. *)
Definition intr_func_ok : Prop := forall held func curr data s c, func <> 0 ->
  req_wf held false [curr] s -> reqs s !! curr = Some c -> r_chain c = OnList ->
  r_interrupted c = true ->
  runs (run_intr func curr data) s (fun _ s' => req_wf held false [curr] s' /\ alone_but [] s s').

(** A function that does not touch the session: it only works on the program's own data. *)
Definition leaves_session (func : Z) : Prop := forall curr data s,
  exists sy, run_intr func curr data s = Ok (tt, set_sysm sy s).

Lemma call_intr_runs held func curr data s c : intr_func_ok ->
  req_wf held false [curr] s -> reqs s !! curr = Some c -> r_chain c = OnList ->
  r_interrupted c = true ->
  runs (call_intr run_intr func curr data) s
    (fun _ s' => req_wf held false [curr] s' /\ alone_but [] s s').
Proof.
  intros Hf Hw Hr Hl Hi. unfold call_intr. case (Z.eqb_spec func 0) as [|Hne].
  - apply runs_ret. by split.
  - by eapply Hf.
Qed.

(** The request as its function finds it. *)
Definition interrupting (c : fuse_req) : fuse_req :=
  set_r_interrupted true (set_r_locked true (set_r_ctr (r_ctr c + 1) c)).

Definition before_intr (curr : Z) (c : fuse_req) (s : ll K) : ll K :=
  set_se (set_se_locked false (se s)) (set_reqs (<[curr := interrupting c]> (reqs s)) s).

Lemma wf_before held lk s curr c : req_wf held lk [] s -> reqs s !! curr = Some c ->
  r_chain c = OnList -> req_wf held false [curr] (before_intr curr c s).
Proof.
  intros Hw Hr Hc. unfold before_intr.
  apply (wf_lock held lk false [curr] (set_reqs (<[curr := interrupting c]> (reqs s)) s)).
  destruct (rw_req _ _ _ _ Hw _ _ Hr) as (_ & _ & Hok). rewrite Hc in Hok.
  rewrite decide_False in Hok by apply not_elem_of_nil.
  apply (wf_replace held lk [] [curr] s curr c); [done..| |set_solver].
  split; cbn; [by rewrite bool_decide_eq_true_2 by by left|].
  rewrite Hc, decide_True by by left. lia.
Qed.

Lemma after_put_reqs ch m s : after_put ch (set_reqs m s) = set_reqs m (after_put ch s).
Proof. unfold after_put. cbn. by repeat case_match. Qed.

(** What follows the call of the function. *)
Definition after_intr (curr r : Z) : L unit :=
  unlock_req curr;;
  lock_se;;
  update_req curr (fun c => set_r_ctr (r_ctr c - 1) c);;
  c ← load_req curr;
  if r_ctr c =? 0 then
    q ← load_req r;
    fuse_chan_put h (r_ch q);;
    update_req r (set_r_ch 0);;
    destroy_req curr
  else mret tt.

Lemma interrupt_req_eq curr r s c : se_locked (se s) = true -> reqs s !! curr = Some c ->
  r_locked c = false ->
  interrupt_req h run_intr curr r s =
  (call_intr run_intr (r_u0 c) curr (r_u1 c);; after_intr curr r) (before_intr curr c s).
Proof.
  intros Hl Hr Hlk. unfold interrupt_req.
  rewrite (bind_Ok _ _ _ _ _ (update_req_Ok _ _ _ _ Hr)).
  change ((unlock_se ≫= ?k) ?t) with (k tt (set_se (set_se_locked false (se t)) t)). cbv beta.
  unfold lock_req at 1. rewrite bind_assoc_eq.
  erewrite bind_Ok by (apply load_req_Ok; apply lookup_insert_eq).
  cbn [r_locked set_r_ctr]. rewrite Hlk.
  erewrite bind_Ok by (apply update_req_Ok; apply lookup_insert_eq).
  erewrite bind_Ok by (by apply lock_se_Ok).
  erewrite bind_Ok by (apply update_req_Ok; apply lookup_insert_eq).
  erewrite bind_Ok by (apply load_req_Ok; apply lookup_insert_eq).
  change ((unlock_se ≫= ?k) ?t) with (k tt (set_se (set_se_locked false (se t)) t)). cbv beta.
  eapply run_from; [|reflexivity].
  unfold before_intr, interrupting. cbn. rewrite !insert_insert_eq. done.
Qed.

(** The last reference goes with the call, or the request is still on its list. *)
Lemma after_intr_runs held s curr r c q : req_wf held false [curr] s ->
  reqs s !! curr = Some c -> curr <> r -> alone s r q ->
  runs (after_intr curr r) s (fun _ s' => req_wf held true [] s' /\ alone_but [r] s s' /\
    exists q', alone s' r q' /\ r_u0 q' = r_u0 q).
Proof.
  intros Hw Hr Hne [Hq Ha].
  destruct (rw_req _ _ _ _ Hw _ _ Hr) as (Hpos & _ & Hok).
  set (c' := set_r_ctr (r_ctr c - 1) (set_r_locked false c)).
  set (s1 := set_reqs (<[curr := c']> (reqs s)) (set_se (set_se_locked true (se s)) s)).
  unfold after_intr. eapply runs_Ok_bind; [by apply update_req_Ok|].
  eapply runs_Ok_bind; [apply lock_se_Ok; apply Hw|].
  eapply runs_Ok_bind; [apply update_req_Ok; apply lookup_insert_eq|].
  apply (runs_from _ _ s1); [unfold s1; cbn; by rewrite insert_insert_eq|].
  eapply runs_Ok_bind; [apply load_req_Ok; apply lookup_insert_eq|].
  assert (Hr1 : reqs s1 !! r = Some q) by by (cbn; rewrite lookup_insert_ne).
  pose proof (wf_lock _ _ true _ _ Hw) as Hwl. set (sl := set_se _ s) in *.
  case (Z.eqb_spec (r_ctr c') 0) as [Hz|Hz].
  - assert (Hrm : r_chain c = Removed).
    { cbn in Hz. destruct (r_chain c); [set_solver| |set_solver|done].
      rewrite decide_True in Hok by by left. lia. }
    rewrite Hrm in Hok. destruct Hok as (_ & _ & Hch).
    pose proof (wf_drop_removed _ _ _ _ _ Hwl Hr Hrm) as Hwd.
    set (sd := set_reqs _ sl) in Hwd.
    assert (Had : alone sd r q) by (split; [by cbn; rewrite lookup_delete_ne|done]).
    apply (wf_put_chan _ _ _ _ _ _ Hwd) in Had as Hwf.
    eapply runs_Ok_bind; [by apply load_req_Ok|].
    eapply runs_Ok_bind; [apply chan_put_Ok; exact (rw_chan _ _ _ _ Hw _ _ Hq)|].
    unfold s1. rewrite after_put_reqs.
    eapply runs_Ok_bind; [by apply update_req_Ok|].
    eexists tt, _. split; [apply (destroy_Ok _ _ c'); [by cbn; rewrite lookup_insert_ne, lookup_insert_eq|done..]|].
    unfold sd in Hwf. rewrite after_put_reqs in Hwf. cbn in *.
    rewrite delete_insert_ne, delete_insert_eq by done.
    split; [exact Hwf|]. split.
    + intros x Hx y. unfold alone. cbn. rewrite lookup_insert_ne by set_solver.
      destruct (decide (x = curr)) as [->|]; [|by rewrite lookup_delete_ne].
      rewrite lookup_delete_eq, Hr. naive_solver congruence.
    + eexists. split; [split; [apply lookup_insert_eq|done]|done].
  - assert (Hol : r_chain c = OnList /\ r_ctr c = 2).
    { cbn in Hz. destruct (r_chain c); [set_solver| |set_solver|lia].
      by rewrite decide_True in Hok by by left. }
    apply runs_ret. split; [|split; [|by exists q]].
    + apply (wf_replace held true [curr] [] sl curr c); [done..| |set_solver].
      split; cbn; [done|]. destruct Hol as [-> ->]. by rewrite decide_False by set_solver.
    + intros x Hx y. apply (alone_but_neither [curr] [] curr s); [ | | |set_solver|set_solver].
      * intros z [? ?]. destruct Hol. congruence.
      * intros z [Hz1 Hz2]. cbn in Hz1. rewrite lookup_insert_eq in Hz1. destruct Hol.
        simplify_eq. cbn in Hz2. congruence.
      * by eapply alone_but_insert.
Qed.

Lemma interrupt_req_runs held s curr r c q : intr_func_ok -> req_wf held true [] s ->
  reqs s !! curr = Some c -> r_chain c = OnList -> alone s r q ->
  runs (interrupt_req h run_intr curr r) s (fun _ s' => req_wf held true [] s' /\
    alone_but [r] s s' /\ exists q', alone s' r q').
Proof.
  intros Hf Hw Hr Hl [Hq Ha]. assert (Hne : curr <> r) by (intros ->; congruence).
  destruct (rw_req _ _ _ _ Hw _ _ Hr) as (_ & Hlk & _). cbn in Hlk.
  unfold runs. rewrite (interrupt_req_eq curr r s c); [|apply Hw|done|done].
  set (s1 := before_intr curr c s).
  assert (Hc1 : reqs s1 !! curr = Some (interrupting c)) by apply lookup_insert_eq.
  assert (Hb1 : alone_but [] s s1).
  { apply (alone_but_listed [] curr c); [by eapply alone_but_insert|done|by rewrite Hl|].
    intros y [Hy Hya]. cbn in Hya. rewrite Hc1 in Hy. simplify_eq. cbn in Hya. congruence. }
  pose proof (wf_before _ _ _ _ _ Hw Hr Hl) as Hw1. fold s1 in Hw1.
  eapply runs_bind.
  { by apply (call_intr_runs held _ _ _ s1 (interrupting c)). }
  intros [] s2 [Hw2 Hb2].
  assert (Hq2 : alone s2 r q).
  { apply Hb2; [apply not_elem_of_nil|]. by apply Hb1; [apply not_elem_of_nil|]. }
  destruct (rw_pins _ _ _ _ Hw2 curr) as [c2 Hc2]; [by left|].
  eapply runs_mono; [by apply (after_intr_runs held s2 curr r c2 q)|].
  intros [] s3 (Hw3 & Hb3 & q' & Hq' & _). split; [done|]. split; [|by exists q'].
  apply (alone_but_trans ([] ++ []) [r] s s2); [by apply alone_but_trans with s1|done].
Qed.

Lemma find_interrupted_runs held s r q : intr_func_ok -> req_wf held true [] s -> alone s r q ->
  runs (find_interrupted h run_intr r) s (fun _ s' => req_wf held true [] s' /\
    alone_but [r] s s' /\ exists q', alone s' r q').
Proof.
  intros Hf Hw Hq. unfold find_interrupted.
  eapply runs_Ok_bind; [apply load_req_Ok; apply Hq|]. apply runs_get_bind.
  destruct (find_req_Ok s (fun c => r_unique c =? r_u0 q) (se_list (se s))) as (o & Ho & Hres).
  { intros x (qx & Hx & _)%(wf_on_list _ _ _ _ _ Hw). by eexists. }
  eapply runs_Ok_bind; [exact Ho|]. destruct o as [curr|].
  - destruct Hres as [(c & Hc & Hl)%(wf_on_list _ _ _ _ _ Hw) _].
    eapply runs_bind; [by apply (interrupt_req_runs held s curr r c q)|].
    intros [] s' Hs'. by apply runs_ret.
  - destruct (find_req_Ok s (fun c => r_u0 c =? r_u0 q) (se_interrupts (se s)))
      as (o & Ho' & _).
    { intros x (qx & Hx & _)%(wf_on_intr _ _ _ _ _ Hw). by eexists. }
    eapply runs_Ok_bind; [exact Ho'|].
    assert (Hs : req_wf held true [] s /\ alone_but [r] s s /\ exists q', alone s r q').
    { split; [done|]. split; [done|by exists q]. }
    by destruct o; apply runs_ret.
Qed.

Lemma interrupt_unique_runs held s r q unique : intr_func_ok -> req_wf held false [] s ->
  alone s r q ->
  runs (interrupt_unique h run_intr r unique) s (fun _ s' => req_wf held false [] s' /\
    alone_but [r] s s' /\ forall y, ~ alone s' r y).
Proof.
  intros Hf Hw [Hr Ha]. unfold interrupt_unique.
  eapply runs_Ok_bind; [by apply update_req_Ok|].
  assert (Hsr : same_refs q (set_r_u0 unique q)) by by split.
  pose proof (wf_update _ _ _ _ _ _ _ Hw Hr Hsr) as Hw1. set (s1 := set_reqs _ s) in *.
  eapply runs_Ok_bind; [apply lock_se_Ok; apply Hw|].
  apply (wf_lock _ _ true) in Hw1. set (s2 := set_se _ s1) in *.
  eapply runs_bind.
  { apply (find_interrupted_runs held s2 r (set_r_u0 unique q)); [done..|].
    split; [apply lookup_insert_eq|done]. }
  intros found s3 (Hw3 & Hb3 & q3 & Hq3 & Ha3).
  assert (Hb : alone_but [r] s s3).
  { apply (alone_but_weaken [r; r]); [|set_solver].
    apply (alone_but_trans [r] [r] s s2); [by eapply alone_but_insert|done]. }
  eapply (runs_bind _ _ _ (fun _ s4 => req_wf held true [] s4 /\ alone_but [r] s s4 /\
    forall y, ~ alone s4 r y)).
  - case found; cbn [negb].
    + eexists _, _. split; [by apply (drop_alone_Ok held true [])|].
      assert (Hc : r_chain q3 <> Removed) by by rewrite Ha3.
      split; [by apply freed_wf|]. split.
      * apply (alone_but_weaken [r; r]); [|set_solver].
        apply (alone_but_trans [r] [r] s s3); [done|by eapply alone_but_freed].
      * intros y. by apply (freed_gone held true []).
    + eexists _, _. split; [by apply list_add_Ok|].
      split; [apply (wf_append _ _ _ _ _ _ OnInterrupts); auto|]. split.
      * apply (alone_but_weaken [r; r]); [|set_solver].
        apply (alone_but_trans [r] [r] s s3); [done|by eapply alone_but_insert].
      * intros y [Hy Hya]. cbn in Hy. rewrite lookup_insert_eq in Hy. by simplify_eq.
  - intros [] s4 (Hw4 & Hb4 & Hn4). eexists _, _. split; [done|].
    by apply (wf_lock _ _ false) in Hw4.
Qed.

(** Registering a function for a request: when that was interrupted before, the function is
    called at once, with the lock of the request held and no reference taken. *)
Definition may_register (q : fuse_req) (func : Z) : Prop :=
  r_interrupted q = false \/ func = 0 \/ leaves_session func.

Lemma req_wf_sysm held lk pins s sy : req_wf held lk pins s -> req_wf held lk pins (set_sysm sy s).
Proof. intros []. by constructor. Qed.

Lemma register_runs held s r q func data : req_wf held false [] s -> reqs s !! r = Some q ->
  r_chain q = OnList -> may_register q func ->
  runs (fuse_req_interrupt_func run_intr r func data) s (fun _ s' => req_wf held false [] s' /\
    alone_but [] s s' /\ reqs s' = <[r := set_r_u1 data (set_r_u0 func q)]> (reqs s)).
Proof.
  intros Hw Hr Hl Hi. destruct (rw_req _ _ _ _ Hw _ _ Hr) as (_ & Hlk & _). cbn in Hlk.
  unfold fuse_req_interrupt_func, lock_req. apply runs_bind_assoc.
  eapply runs_Ok_bind; [by apply load_req_Ok|]. rewrite Hlk.
  eapply runs_Ok_bind; [by apply update_req_Ok|].
  eapply runs_Ok_bind; [apply lock_se_Ok; apply Hw|].
  do 2 (eapply runs_Ok_bind; [apply update_req_Ok; apply lookup_insert_eq|]).
  eapply runs_Ok_bind; [done|].
  eapply runs_Ok_bind; [apply load_req_Ok; apply lookup_insert_eq|].
  cbn [r_interrupted set_r_u1 set_r_u0 set_r_locked].
  match goal with |- runs _ ?s0 _ => set (sl := s0) end.
  apply (runs_bind _ _ _ (fun _ s' => exists sy, s' = set_sysm sy sl)).
  { assert (Hsame : runs (mret tt) sl (fun _ s' => exists sy, s' = set_sysm sy sl))
      by (apply runs_ret; exists (sysm sl); by destruct sl).
    destruct Hi as [->|[->|Hq]]; cbn [andb]; [done|by rewrite andb_false_r|].
    destruct (_ && _); [|done]. destruct (Hq r data sl) as [sy Hm]. exists tt. eexists. by eauto. }
  intros [] ? [sy ->]. unfold unlock_req.
  eexists _, _. split; [apply update_req_Ok; apply lookup_insert_eq|]. subst sl.
  cbn. rewrite !insert_insert_eq, relock by apply Hw.
  set (q' := set_r_locked false _).
  assert (Hq' : q' = set_r_u1 data (set_r_u0 func q)) by (unfold q'; destruct q; cbn in *; by subst).
  rewrite Hq'. assert (Hsr : same_refs q (set_r_u1 data (set_r_u0 func q))) by by split.
  split; [exact (req_wf_sysm _ _ _ _ sy (wf_update _ _ _ _ _ _ _ Hw Hr Hsr))|]. split; [|done].
  apply (alone_but_listed [] r q); [by eapply alone_but_insert|done|by rewrite Hl|].
  intros y [Hy Hya]. cbn in Hy. rewrite lookup_insert_eq in Hy. simplify_eq. cbn in Hya. congruence.
Qed.

(** ** The life of a session *)
Lemma alloc_runs held pins s : req_wf held false pins s ->
  runs fuse_ll_alloc_req s (fun r s' => req_wf held false pins s' /\ se s' = se s /\
    (r = 0 /\ reqs s' = reqs s \/
     r <> 0 /\ reqs s !! r = None /\ reqs s' = <[r := set_r_ctr 1 req0]> (reqs s))).
Proof.
  intros Hw. unfold fuse_ll_alloc_req.
  assert (Hok : exists b l, malloc_ok s = Ok (b, set_oks l s)).
  { unfold malloc_ok, mbind, M_bind, getM.
    destruct (oks s) as [|b l] eqn:Ho; [exists true, []|by exists b, l].
    rewrite <- Ho. by destruct s. }
  destruct Hok as (b & l & Hok). eapply runs_Ok_bind; [exact Hok|].
  assert (Hw1 : req_wf held false pins (set_oks l s)) by by destruct Hw.
  destruct b; [|apply runs_ret; split; [done|split; [done|by left]]].
  eapply runs_Ok_bind; [done|]. apply runs_modify_bind.
  unfold list_init_req. eapply runs_Ok_bind; [apply update_req_Ok; apply lookup_insert_eq|].
  apply runs_ret. cbn. rewrite insert_insert_eq.
  split; [exact (wf_new _ _ _ _ Hw1)|]. split; [done|]. right.
  pose proof (rw_objs _ _ _ _ Hw). split; [lia|]. split; [|done].
  destruct (reqs s !! (objs s + 1)) as [q|] eqn:Hq; [|done].
  destruct (rw_req _ _ _ _ Hw _ _ Hq). lia.
Qed.

(** A message becomes a request, with the start of [process_request], and goes on with
    [rest]. *)
Definition arrive (unique : Z) (ctx : fuse_ctx) (ch : Z) (rest : Z -> L unit) : L unit :=
  r ← fuse_ll_alloc_req;
  if r =? 0 then fuse_send_msg h ch (mk_out 0 (- ENOMEM) unique 0 0 0) [];; mret tt
  else fill_req r unique ctx ch;; rest r.

(** What happens to requests: a message asks for something (and its handler keeps the
    request), a message interrupts a request, the program registers a function for an
    interrupt, answers a request, or ends one that has no answer. *)
Inductive event : Type :=
| Arrive (opcode unique : Z) (ctx : fuse_ctx) (ch : Z)
| Interrupt (unique target : Z) (ctx : fuse_ctx) (ch : Z)
| Register (r func data : Z)
| Reply (r error : Z) (iov : list (list Z))
| Finish (r : Z).

Definition do_event (e : event) : L unit :=
  match e with
  | Arrive opcode unique ctx ch => arrive unique ctx ch (fun r => accept_req h r opcode)
  | Interrupt unique target ctx ch =>
    arrive unique ctx ch (fun r =>
      accept_req h r FUSE_INTERRUPT;; interrupt_unique h run_intr r target)
  | Register r func data => fuse_req_interrupt_func run_intr r func data
  | Reply r error iov => send_reply_iov h r error iov;; mret tt
  | Finish r => fuse_reply_none h r
  end.

(** The messages come from a channel that is open for its reader, the program uses a
    request only until it has answered it, and a function registered for a request that
    was interrupted before leaves the session alone: the code calls it with the lock of
    the request held and no reference taken, so that one that answers the request there
    would destroy the lock. *)
Definition allowed (held : Z -> Z) (s : ll K) (e : event) : Prop :=
  match e with
  | Arrive opcode _ _ ch => opcode <> FUSE_INTERRUPT /\ (ch = 0 \/ 0 < held ch)
  | Interrupt _ _ _ ch => ch = 0 \/ 0 < held ch
  | Register r func _ => exists q, reqs s !! r = Some q /\ r_chain q = OnList /\
      may_register q func
  | Reply r _ _ | Finish r => r ∈ se_list (se s)
  end.

(** Every request is open or waits as an interrupt. *)
Definition session_wf (held : Z -> Z) (s : ll K) : Prop :=
  req_wf held false [] s /\ forall x y, ~ alone s x y.

Lemma session_alone held s s' r : session_wf held s -> req_wf held false [] s' ->
  alone_but [r] s s' -> (forall y, ~ alone s' r y) -> session_wf held s'.
Proof.
  intros [_ Hs] Hw' Hb Hr. split; [done|]. intros x y Ha.
  destruct (decide (x = r)) as [->|]; [by apply Hr in Ha|].
  apply Hb in Ha; [by apply Hs in Ha|set_solver].
Qed.

Lemma arrive_runs held s unique ctx ch rest : session_wf held s -> ch = 0 \/ 0 < held ch ->
  (forall r q s1, req_wf held false [] s1 -> alone s1 r q ->
     runs (rest r) s1 (fun _ s2 => req_wf held false [] s2 /\ alone_but [r] s1 s2 /\
       forall y, ~ alone s2 r y)) ->
  runs (arrive unique ctx ch rest) s (fun _ s' => session_wf held s').
Proof.
  intros Hs Hch Hrest. pose proof Hs as [Hw _]. unfold arrive.
  eapply runs_bind; [by apply alloc_runs|]. intros r s1 (Hw1 & Hse & Hr).
  assert (Hrd : reader held ch s1).
  { intros Hne. destruct Hch as [|Hh]; [done|]. split; [done|by apply (rw_kept _ _ _ _ Hw1)]. }
  destruct Hr as [[-> Hreqs]|(Hne & Hnone & Hreqs)].
  - cbn. destruct (send_msg_Ok ch (mk_out 0 (- ENOMEM) unique 0 0 0) [] s1) as (res & b & Hm).
    { intros Hc. by apply Hrd. }
    eapply runs_Ok_bind; [exact Hm|]. apply runs_ret. split; [by apply wf_sys|].
    intros x y [Hx Hy]. cbn in Hx. rewrite Hreqs in Hx. by apply (proj2 Hs x y).
  - rewrite (proj2 (Z.eqb_neq _ _) Hne).
    assert (Hq : reqs s1 !! r = Some (set_r_ctr 1 req0)) by (rewrite Hreqs; apply lookup_insert_eq).
    eapply runs_bind; [by apply (fill_runs held false [] s1 r _ unique ctx ch Hw1 Hrd Hq)|].
    intros [] s2 [Hw2 Hro].
    assert (Hq2 : alone s2 r (filled unique ctx ch (set_r_ctr 1 req0))).
    { split; [|done]. rewrite (ro_reqs _ _ _ Hro). apply lookup_insert_eq. }
    eapply runs_mono; [by eapply Hrest|]. intros [] s3 (Hw3 & Hb3 & Hn3).
    apply (session_alone held s s3 r); [done..| |done].
    apply (alone_but_weaken [r; r]); [|set_solver].
    apply (alone_but_trans [r] [r] s s2); [|done].
    apply (alone_but_insert r (filled unique ctx ch (set_r_ctr 1 req0))).
    by rewrite (ro_reqs _ _ _ Hro), Hreqs, insert_insert_eq.
Qed.

(** What an event leaves behind. *)
Definition outcome (e : event) (s s' : ll K) : Prop :=
  match e with
  | Reply r _ _ | Finish r => reqs s' = delete r (reqs s)
  | Register r func data => exists q, reqs s !! r = Some q /\
      reqs s' = <[r := set_r_u1 data (set_r_u0 func q)]> (reqs s)
  | _ => True
  end.

Lemma free_runs held s r error iov : session_wf held s -> r ∈ se_list (se s) ->
  runs (send_reply_iov h r error iov) s
    (fun _ s' => session_wf held s' /\ reqs s' = delete r (reqs s)) /\
  runs (fuse_reply_none h r) s (fun _ s' => session_wf held s' /\ reqs s' = delete r (reqs s)).
Proof.
  intros Hs Hr. pose proof Hs as [Hw _].
  destruct (wf_on_list _ _ _ _ _ Hw Hr) as (q & Hq & Hl).
  assert (Hc : r_chain q <> Removed) by by rewrite Hl.
  assert (Hf : forall b, session_wf held (freed r q (set_sysm b s)) /\
    reqs (freed r q (set_sysm b s)) = delete r (reqs s)).
  { intros b. pose proof (wf_sys _ _ _ _ b Hw) as Hwb. split.
    - apply (session_alone held (set_sysm b s) _ r); [by split; [|apply Hs]|by apply freed_wf| |].
      + by apply (alone_but_freed held false []).
      + intros y. by apply (freed_gone held false []).
    - by destruct (freed_reqs _ _ _ _ _ _ Hwb Hq Hc) as [[_ ->]|[?%not_elem_of_nil _]]. }
  split.
  - destruct (send_reply_Ok held [] s r q error iov Hw Hq Hc) as (res & b & Hrun).
    exists res. eexists. split; [exact Hrun|apply Hf].
  - eexists _, _. split; [by apply (wf_free_Ok held [])|].
    specialize (Hf (sysm s)). by destruct s.
Qed.

Lemma event_runs held s e : intr_func_ok -> session_wf held s -> allowed held s e ->
  runs (do_event e) s (fun _ s' => session_wf held s' /\ outcome e s s').
Proof.
  intros Hf Hs Ha. destruct e as [op u ctx ch|u t ctx ch|r f d|r error iov|r]; cbn [do_event].
  - destruct Ha as [Hop Hch]. eapply runs_mono; [apply (arrive_runs held); [done..|]|by split].
    intros r q s1 Hw1 Hq. eapply runs_mono; [apply (accept_runs held []); [exact Hw1|exact Hq|exact Hop]|].
    intros [] s2 (Hw2 & Hb2 & q' & Hq' & Hl & _). split; [done|]. split; [done|].
    intros y [Hy Hya]. congruence.
  - eapply runs_mono; [apply (arrive_runs held); [done..|]|by split].
    intros r q s1 Hw1 Hq. apply runs_ret_bind.
    by apply (interrupt_unique_runs held s1 r q).
  - destruct Ha as (q & Hq & Hl & Hi). pose proof Hs as [Hw _].
    eapply runs_mono; [by apply (register_runs held s r q)|].
    intros [] s' (Hw' & Hb & Hreqs). split; [|by exists q]. split; [done|].
    intros x y Hx. apply Hb in Hx; [by apply (proj2 Hs) in Hx|apply not_elem_of_nil].
  - eapply runs_bind; [by apply (proj1 (free_runs held s r error iov Hs Ha))|].
    intros res s' Hs'. by apply runs_ret.
  - exact (proj2 (free_runs held s r 0 [] Hs Ha)).
Qed.

(** The states a session goes through, one event at a time. *)
Inductive history (held : Z -> Z) : ll K -> ll K -> Prop :=
| history_start s : history held s s
| history_step s s1 s2 e : history held s s1 -> allowed held s1 e ->
    do_event e s1 = Ok (tt, s2) -> history held s s2.

(** C22: requests are freed once and never used afterwards.  However messages, interrupts,
    registrations of interrupt functions and answers follow each other, and also when the
    function of an interrupt answers the very request it is called for: no event touches
    a request, a channel or a lock that is gone, every request stays open until it is
    answered or waits as an interrupt (none is leaked), its answer frees it, its
    reference counts are exact, and a channel lives while a request or its reader uses
    it.  One registration is not covered: that of a function that answers requests, for
    a request that was interrupted before; the code then frees a request whose lock it
    holds.  A function that leaves the session alone may be registered at any time. *)
Theorem requests_freed_once held s s' : intr_func_ok -> session_wf held s ->
  history held s s' ->
  session_wf held s' /\
  forall e, allowed held s' e -> exists s'',
    do_event e s' = Ok (tt, s'') /\ session_wf held s'' /\ outcome e s' s''.
Proof.
  intros Hf Hs Hh.
  assert (Hstep : forall t, session_wf held t -> forall e, allowed held t e -> exists s'',
    do_event e t = Ok (tt, s'') /\ session_wf held s'' /\ outcome e t s'').
  { intros t Ht e He. destruct (event_runs held t e Hf Ht He) as ([] & s'' & Hrun & HQ).
    by exists s''. }
  assert (Hs' : session_wf held s'); [|by auto].
  induction Hh as [|s s1 s2 e Hh IH Ha He]; [done|].
  destruct (Hstep s1 (IH Hs) e Ha) as (s'' & He' & Hw & _). rewrite He in He'. by simplify_eq.
Qed.
End Requests.

(** A function that answers the request it is called for. *)
Definition answer_intr (func curr data : Z) : M (ll (list (list Z))) unit :=
  q ← load_req curr;
  match r_chain q with
  | OnList => fuse_reply_err recorder curr EINTR;; mret tt
  | _ => mret tt
  end.

Lemma answer_intr_ok : intr_func_ok answer_intr.
Proof.
  intros held func curr data s c _ Hw Hc Hl _. unfold answer_intr.
  eapply runs_Ok_bind; [by apply load_req_Ok|]. rewrite Hl.
  assert (Hrm : r_chain c <> Removed) by by rewrite Hl.
  unfold fuse_reply_err, send_reply.
  eapply runs_bind; [by apply (send_reply_runs recorder held [curr] s curr c)|].
  intros res s' (Hw' & Hb & Hn & _). apply runs_ret. split; [done|].
  apply (alone_but_listed [] curr c); [done..|by rewrite Hl|done].
Qed.

Lemma started_wf : session_wf (K := list (list Z)) (fun _ => 0) (running []).
Proof.
  split; [|by intros x y []]. split; try done.
  - intros r. split; [by intros ?%not_elem_of_nil|by intros (q & ? & _)].
  - intros r. split; [by intros ?%not_elem_of_nil|by intros (q & ? & _)].
  - apply NoDup_nil_2.
  - apply NoDup_nil_2.
  - by intros r ?%not_elem_of_nil.
Qed.

(** LOOKUP 10 arrives and a function is registered for it; INTERRUPT 11 then makes the
    function answer it, and nothing is left of either. *)
Definition ex_ctx : fuse_ctx := mk_ctx 1000 100 42 0.
Definition ex_run (e : event) (s : ll (list (list Z))) : ll (list (list Z)) :=
  match do_event recorder answer_intr e s with Ok (_, s') => s' | Crash _ => s end.
Definition ex_s1 := ex_run (Arrive 1 10 ex_ctx 0) (running []).
Definition ex_s2 := ex_run (Register 1 77 0) ex_s1.
Definition ex_s3 := ex_run (Interrupt 11 10 ex_ctx 0) ex_s2.

Lemma requests_freed_once_witness : size (reqs ex_s2) = 1%nat /\ reqs ex_s3 = ∅ /\
  session_wf (fun _ => 0) ex_s3.
Proof.
  split; [by vm_compute|]. split; [by vm_compute|].
  apply (requests_freed_once recorder answer_intr (fun _ => 0) (running []) ex_s3
    answer_intr_ok started_wf).
  apply (history_step recorder answer_intr _ _ ex_s2 ex_s3 (Interrupt 11 10 ex_ctx 0)); [|by left|by vm_compute].
  apply (history_step recorder answer_intr _ _ ex_s1 ex_s2 (Register 1 77 0));
    [|eexists; split; [by vm_compute|split; [done|by left]]|by vm_compute].
  apply (history_step recorder answer_intr _ _ (running []) ex_s1 (Arrive 1 10 ex_ctx 0));
    [apply history_start|by split; [|left]|by vm_compute].
Defined.
