(* ===== verification/LLOrder.v ===== *)
(** * An interrupt may overtake its request

    INTERRUPT before the request it names, and after it, lead to the same session. *)
From S2P Require Import Prelude PosixLock Types Buf BufFacts FsOps Entry Dir LLTypes LowLevel LLReply LLData LLOps LLInit LLSession LLFacts LLWire LLRequests.
#[local] Open Scope Z_scope.

Section Order.
Context {K : Type} (h : host K) (run_intr : Z -> Z -> Z -> M (ll K) unit).
#[local] Abbreviation L := (M (ll K)).
Implicit Types (s : ll K) (r : Z) (q c : fuse_req).

(** What a request looks like once [arrive] has filled it in. *)
Definition fresh_req (unique : Z) (ctx : fuse_ctx) (ch : Z) : fuse_req :=
  filled unique ctx ch (set_r_ctr 1 req0).

Record arrived (s s1 : ll K) (q : fuse_req) : Prop := mk_arrived {
  ar_reqs : reqs s1 = <[objs s + 1 := q]> (reqs s);
  ar_se : se s1 = se s;
  ar_objs : objs s1 = objs s + 1;
  ar_oks : oks s1 = [];
}.

Lemma arrive_Ok held pins s unique ctx ch rest : req_wf held false pins s -> oks s = [] ->
  ch = 0 \/ 0 < held ch ->
  exists s1, arrive h unique ctx ch rest s = rest (objs s + 1) s1 /\
    req_wf held false pins s1 /\ arrived s s1 (fresh_req unique ctx ch).
Proof.
  intros Hw Ho Hch. unfold arrive. rewrite (bind_Ok _ _ _ _ _ (alloc_req_Ok s Ho)).
  pose proof (rw_objs _ _ _ _ Hw). rewrite (proj2 (Z.eqb_neq (objs s + 1) 0)) by lia.
  pose proof (wf_new _ _ _ _ Hw) as Hw1. set (s1 := set_objs _ _) in *.
  assert (Hrd : reader held ch s1).
  { intros Hne. destruct Hch as [|Hh]; [done|]. split; [done|by apply (rw_kept _ _ _ _ Hw1)]. }
  assert (Hr : reqs s1 !! (objs s + 1) = Some (set_r_ctr 1 req0)) by apply lookup_insert_eq.
  destruct (fill_runs held false pins s1 (objs s + 1) (set_r_ctr 1 req0) unique ctx ch Hw1 Hrd
    Hr eq_refl) as ([] & s2 & Hfill & Hw2 & [Hreqs Hse Hobjs _ Hoks]); [done|].
  exists s2. rewrite (bind_Ok _ _ _ _ _ Hfill). split; [done|]. split; [done|].
  split; [|done..|by rewrite Hoks]. rewrite Hreqs. cbn. by rewrite insert_insert_eq.
Qed.

(** The first request of [l] for which [p] holds, when it is the last. *)
Lemma find_req_last s p l r q : (forall x, x ∈ l -> exists y, reqs s !! x = Some y /\ p y = false) ->
  reqs s !! r = Some q -> p q = true -> find_req p (l ++ [r]) s = Ok (Some r, s).
Proof.
  intros Hl Hr Hp. induction l as [|x l IH]; simpl.
  - rewrite (bind_Ok _ _ _ _ _ (load_req_Ok _ _ _ Hr)). by rewrite Hp.
  - destruct (Hl x) as (y & Hy & Hpy); [by left|].
    rewrite (bind_Ok _ _ _ _ _ (load_req_Ok _ _ _ Hy)), Hpy.
    apply IH. intros z Hz. apply Hl. by right.
Qed.

Lemma find_req_none s p l : (forall x, x ∈ l -> exists y, reqs s !! x = Some y /\ p y = false) ->
  find_req p l s = Ok (None, s).
Proof.
  intros Hl. induction l as [|x l IH]; [done|]. simpl.
  destruct (Hl x) as (y & Hy & Hpy); [by left|].
  rewrite (bind_Ok _ _ _ _ _ (load_req_Ok _ _ _ Hy)), Hpy.
  apply IH. intros z Hz. apply Hl. by right.
Qed.

(** Interrupting a request without a function. *)
Lemma interrupt_quiet s curr r c : se_locked (se s) = true -> reqs s !! curr = Some c ->
  r_locked c = false -> r_ctr c = 1 -> r_u0 c = 0 ->
  interrupt_req h run_intr curr r s =
  Ok (tt, set_reqs (<[curr := set_r_interrupted true c]> (reqs s)) s).
Proof.
  intros Hl Hc Hlk Hct Hu. rewrite (interrupt_req_eq h run_intr curr r s c) by done.
  rewrite Hu. change (call_intr run_intr 0 curr (r_u1 c)) with (mret tt : L unit).
  change (((mret tt : L unit) ≫= ?k) ?t) with (k tt t). cbv beta. unfold after_intr.
  unfold unlock_req. erewrite bind_Ok by (apply update_req_Ok; apply lookup_insert_eq).
  erewrite bind_Ok by (by apply lock_se_Ok).
  erewrite bind_Ok by (apply update_req_Ok; apply lookup_insert_eq).
  erewrite bind_Ok by (apply load_req_Ok; apply lookup_insert_eq).
  cbn. rewrite Hct. cbn. rewrite !insert_insert_eq.
  assert (Hq : set_r_ctr (1 + 1 - 1) (set_r_locked false (interrupting c)) = set_r_interrupted true c).
  { destruct c. cbn in *. by subst. }
  rewrite Hq. by destruct s as [? [] ? ? ? ? ? ?]; cbn in *; subst.
Qed.

(** The state both orders lead to: [r] is open and has been told. *)
Record told (s s' : ll K) (r : Z) (q : fuse_req) : Prop := mk_told {
  td_reqs : reqs s' = <[r := set_r_interrupted true (set_r_chain OnList q)]> (reqs s);
  td_se : se s' = set_se_list (se_list (se s) ++ [r]) (se s);
  td_objs : objs s' = objs s + 2;
}.

(** Nothing of [s] has to do with a request called [u]. *)
Record unheard (u : Z) (s : ll K) : Prop := mk_unheard {
  uh_interrupts : se_interrupts (se s) = [];
  uh_unique : forall r q, reqs s !! r = Some q -> r_unique q <> u;
  uh_oks : oks s = [];
}.

(** An interrupt that finds its request, and one that does not. *)
Lemma interrupt_unique_found held s curr r c q u l : req_wf held false [] s ->
  se_list (se s) = l ++ [curr] ->
  (forall x, x ∈ l -> exists y, reqs s !! x = Some y /\ r_unique y <> u) ->
  reqs s !! curr = Some c -> r_unique c = u -> r_chain c = OnList -> r_u0 c = 0 ->
  alone s r q ->
  exists s', interrupt_unique h run_intr r u s = Ok (tt, s') /\
    reqs s' = delete r (<[curr := set_r_interrupted true c]> (reqs s)) /\
    se s' = se s /\ objs s' = objs s.
Proof.
  intros Hw Hl Hne Hc Hu Hlist Hu0 [Hr Ha]. unfold interrupt_unique.
  assert (Hcr : curr <> r) by (intros ->; congruence).
  destruct (rw_req _ _ _ _ Hw _ _ Hc) as (_ & Hlk & Hok). cbn in Hlk.
  rewrite Hlist, decide_False in Hok by apply not_elem_of_nil.
  destruct (wf_single _ _ _ _ _ _ Hw Hr) as (Hct & Hrl & _); [by left|].
  erewrite bind_Ok by (by apply update_req_Ok).
  erewrite bind_Ok by (apply lock_se_Ok; apply Hw).
  set (s1 := set_se _ _). set (q1 := set_r_u0 u q).
  assert (Hr1 : reqs s1 !! r = Some q1) by apply lookup_insert_eq.
  assert (Hc1 : reqs s1 !! curr = Some c) by by (cbn; rewrite lookup_insert_ne).
  assert (Hall : forall x, x ∈ l -> exists y, reqs s1 !! x = Some y /\
    (r_unique y =? r_u0 q1) = false).
  { intros x Hx. destruct (Hne x Hx) as (y & Hy & Hyu).
    destruct (decide (x = r)) as [->|Hxr].
    - exists q1. split; [done|]. apply Z.eqb_neq. cbn. congruence.
    - exists y. cbn. rewrite lookup_insert_ne by done. split; [done|by apply Z.eqb_neq]. }
  assert (Hf : find_interrupted h run_intr r s1 =
    Ok (true, set_reqs (<[curr := set_r_interrupted true c]> (reqs s1)) s1)).
  { unfold find_interrupted. erewrite bind_Ok by (by apply load_req_Ok).
    change ((getM ≫= ?k) s1) with (k s1 s1). cbv beta.
    change (se_list (se s1)) with (se_list (se s)). rewrite Hl.
    rewrite (bind_Ok _ _ _ _ _ (find_req_last s1 (fun y => r_unique y =? r_u0 q1) l curr c
      Hall Hc1 (proj2 (Z.eqb_eq _ _) Hu))).
    by erewrite bind_Ok by (by apply interrupt_quiet). }
  rewrite (bind_Ok _ _ _ _ _ Hf). cbn [negb].
  erewrite bind_Ok.
  2: { apply (drop_Ok h _ r q1); [by cbn; rewrite lookup_insert_ne|done|].
       exact (rw_chan _ _ _ _ Hw _ _ Hr). }
  eexists. split; [done|]. cbn.
  match goal with |- context [after_put h (r_ch q) ?t] =>
    destruct (after_put_same h (r_ch q) t) as (_ & -> & -> & _) end.
  cbn. rewrite relock by apply Hw.
  rewrite !(delete_insert_ne _ r curr) by done. by rewrite delete_insert_eq.
Qed.

Lemma interrupt_unique_waits s r q u : se_locked (se s) = false -> reqs s !! r = Some q ->
  (forall x, x ∈ se_list (se s) -> exists y, x <> r /\ reqs s !! x = Some y /\ r_unique y <> u) ->
  se_interrupts (se s) = [] ->
  interrupt_unique h run_intr r u s =
  Ok (tt, set_se (set_se_interrupts [r] (se s))
            (set_reqs (<[r := set_r_chain OnInterrupts (set_r_u0 u q)]> (reqs s)) s)).
Proof.
  intros Hlk Hr Hne Hi. unfold interrupt_unique.
  erewrite bind_Ok by (by apply update_req_Ok).
  erewrite bind_Ok by (by apply lock_se_Ok).
  set (s1 := set_se _ _). set (q1 := set_r_u0 u q).
  assert (Hr1 : reqs s1 !! r = Some q1) by apply lookup_insert_eq.
  assert (Hall : forall x, x ∈ se_list (se s1) -> exists y, reqs s1 !! x = Some y /\
    (r_unique y =? r_u0 q1) = false).
  { intros x Hx. destruct (Hne x Hx) as (y & Hxr & Hy & Hyu). exists y. cbn.
    rewrite lookup_insert_ne by done. split; [done|by apply Z.eqb_neq]. }
  assert (Hf : find_interrupted h run_intr r s1 = Ok (false, s1)).
  { unfold find_interrupted. erewrite bind_Ok by (by apply load_req_Ok).
    change ((getM ≫= ?k) s1) with (k s1 s1). cbv beta.
    rewrite (bind_Ok _ _ _ _ _ (find_req_none s1 (fun y => r_unique y =? r_u0 q1) _ Hall)).
    change (se_interrupts (se s1)) with (se_interrupts (se s)). by rewrite Hi. }
  rewrite (bind_Ok _ _ _ _ _ Hf). cbn [negb].
  rewrite (bind_Ok _ _ _ _ _ (proj2 (list_add_Ok _ _ _ Hr1))).
  cbn. rewrite insert_insert_eq, Hi.
  by destruct s as [? [] ? ? ? ? ? ?]; cbn in *; subst.
Qed.

(** The interrupt that waits is the one for [r]. *)
Lemma check_match held s r q i qi : req_wf held true [] s -> alone s r q ->
  reqs s !! i = Some qi -> se_interrupts (se s) = [i] -> r_u0 qi = r_unique q ->
  exists s', check_interrupt h r s = Ok (0, s') /\
    reqs s' = delete i (<[r := set_r_interrupted true q]> (reqs s)) /\
    se s' = set_se_interrupts [] (se s) /\ objs s' = objs s.
Proof.
  intros Hw [Hr Ha] Hqi Hi Hu. unfold check_interrupt.
  destruct (wf_on_intr _ _ _ _ i Hw) as (qi' & Hqi' & Hon); [rewrite Hi; by left|].
  rewrite Hqi in Hqi'. injection Hqi' as <-.
  assert (Hne : i <> r) by (intros ->; congruence).
  rewrite (bind_Ok _ _ _ _ _ (load_req_Ok _ _ _ Hr)).
  change ((getM ≫= ?k) s) with (k s s). cbv beta. rewrite Hi.
  rewrite (bind_Ok _ _ _ _ _ (find_req_last s (fun c => r_u0 c =? r_unique q) [] i qi
    ltac:(by intros x ?%not_elem_of_nil) Hqi (proj2 (Z.eqb_eq _ _) Hu))).
  rewrite (bind_Ok _ _ _ _ _ (update_req_Ok _ _ _ _ Hr)).
  assert (Hsr : same_refs q (set_r_interrupted true q)) by by split.
  pose proof (wf_update _ _ _ _ _ _ _ Hw Hr Hsr) as Hw1. set (s1 := set_reqs _ s) in *.
  rewrite <- bind_assoc_eq.
  erewrite bind_Ok by (apply (drop_listed_Ok h held true [] s1 i qi);
    [done|by cbn; rewrite lookup_insert_ne|done]).
  destruct (wf_single _ _ _ _ _ _ Hw Hqi) as (Hct & _); [by right|].
  eexists. split; [done|]. rewrite freed_single by done. cbn. split; [done|].
  assert (Hrm : remove_req i [i] = []).
  { unfold remove_req. by rewrite filter_cons_False by tauto. }
  unfold unlisted. rewrite Hon. change (se s1) with (se s). rewrite Hi, Hrm.
  split; [done|]. apply (after_put_same h (r_ch qi) s1).
Qed.

(** The request of a waiting interrupt is accepted, and told. *)
Lemma accept_match held s r q i qi op : req_wf held false [] s -> alone s r q ->
  reqs s !! i = Some qi -> se_interrupts (se s) = [i] -> r_u0 qi = r_unique q ->
  op <> FUSE_INTERRUPT -> i <> r ->
  exists s', accept_req h r op s = Ok (tt, s') /\
    reqs s' = <[r := set_r_chain OnList (set_r_interrupted true q)]> (delete i (reqs s)) /\
    se s' = set_se_interrupts [] (set_se_list (se_list (se s) ++ [r]) (se s)) /\
    objs s' = objs s.
Proof.
  intros Hw Ha Hqi Hi Hu Hop Hne. unfold accept_req. rewrite (proj2 (Z.eqb_neq _ _) Hop).
  erewrite bind_Ok by (apply lock_se_Ok; apply Hw).
  destruct (check_match held (set_se (set_se_locked true (se s)) s) r q i qi)
    as (s1 & He1 & Hr1 & Hse1 & Hob1); [by apply (wf_lock held false true)|done..|].
  rewrite (bind_Ok _ _ _ _ _ He1).
  assert (Hq1 : reqs s1 !! r = Some (set_r_interrupted true q)).
  { rewrite Hr1, lookup_delete_ne by done. apply lookup_insert_eq. }
  rewrite (bind_Ok _ _ _ _ _ (proj1 (list_add_Ok _ _ _ Hq1))).
  eexists. split; [done|]. cbn. rewrite Hr1, Hse1. cbn.
  rewrite delete_insert_ne, insert_insert_eq by done. split; [done|]. split; [|done].
  pose proof (rw_lock _ _ _ _ Hw) as Hl. destruct (se s). cbn in *. by subst.
Qed.

Lemma interrupt_after held s u ctx op ch iu ictx ich : session_wf held s -> unheard u s ->
  op <> FUSE_INTERRUPT -> ch = 0 \/ 0 < held ch -> ich = 0 \/ 0 < held ich ->
  exists s',
    (do_event h run_intr (Arrive op u ctx ch);; do_event h run_intr (Interrupt iu u ictx ich)) s
      = Ok (tt, s') /\ told s s' (objs s + 1) (fresh_req u ctx ch).
Proof.
  intros [Hw _] [Hi Hu Ho] Hop Hch Hich. set (r := objs s + 1). set (q := fresh_req u ctx ch).
  cbn [do_event].
  destruct (arrive_Ok held [] s u ctx ch (fun r => accept_req h r op) Hw Ho Hch)
    as (s1 & He1 & Hw1 & [Hr1 Hse1 Hob1 Hok1]).
  assert (Hq1 : reqs s1 !! r = Some q) by (rewrite Hr1; apply lookup_insert_eq).
  fold r in He1. rewrite (accept_quiet h s1 r q op) in He1; [|by rewrite Hse1; apply Hw|by rewrite Hse1|done..].
  rewrite (bind_Ok _ _ _ _ _ He1). set (s2 := joined r q s1).
  assert (Hw2 : req_wf held false [] s2).
  { exact (wf_append _ _ _ _ _ _ OnList Hw1 Hq1 eq_refl (or_introl eq_refl)). }
  destruct (arrive_Ok held [] s2 iu ictx ich (fun r => accept_req h r FUSE_INTERRUPT;;
    interrupt_unique h run_intr r u) Hw2 Hok1 Hich) as (s3 & He3 & Hw3 & [Hr3 Hse3 Hob3 Hok3]).
  rewrite He3. set (r' := objs s2 + 1) in *.
  change (objs s2) with (objs s1) in r'. assert (Hr' : r' = objs s + 2) by (unfold r'; lia).
  assert (Hlow : forall x y, reqs s !! x = Some y -> x <> r /\ x <> r').
  { intros x y Hx. destruct (rw_req _ _ _ _ Hw _ _ Hx). lia. }
  assert (Hs3 : forall x, x <> r -> x <> r' -> reqs s3 !! x = reqs s !! x).
  { intros x Hxr Hxr'. rewrite Hr3, lookup_insert_ne by done. cbn.
    rewrite lookup_insert_ne, Hr1, lookup_insert_ne by done. done. }
  destruct (interrupt_unique_found held s3 r r' (set_r_chain OnList q) (fresh_req iu ictx ich) u
    (se_list (se s))) as (s4 & He4 & Hr4 & Hse4 & Hob4); try done.
  - rewrite Hse3. cbn. by rewrite Hse1.
  - intros x Hx. destruct (wf_on_list _ _ _ _ _ Hw Hx) as (y & Hy & _).
    destruct (Hlow x y Hy). exists y. rewrite Hs3 by done. by eauto.
  - rewrite Hr3, lookup_insert_ne by lia. apply lookup_insert_eq.
  - split; [rewrite Hr3; apply lookup_insert_eq|done].
  - exists s4. split; [exact He4|]. split; [|by rewrite Hse4, Hse3; cbn; rewrite Hse1|lia].
    rewrite Hr4, Hr3. rewrite (delete_insert_ne _ r' r) by lia. rewrite delete_insert_eq.
    cbn. rewrite delete_id by (rewrite lookup_insert_ne by lia; rewrite Hr1, lookup_insert_ne by lia;
      destruct (reqs s !! r') eqn:Hx; [by destruct (Hlow _ _ Hx)|done]).
    by rewrite insert_insert_eq, Hr1, insert_insert_eq.
Qed.

Lemma interrupt_before held s u ctx op ch iu ictx ich : session_wf held s -> unheard u s ->
  op <> FUSE_INTERRUPT -> ch = 0 \/ 0 < held ch -> ich = 0 \/ 0 < held ich ->
  exists s',
    (do_event h run_intr (Interrupt iu u ictx ich);; do_event h run_intr (Arrive op u ctx ch)) s
      = Ok (tt, s') /\ told s s' (objs s + 2) (fresh_req u ctx ch).
Proof.
  intros [Hw _] [Hi Hu Ho] Hop Hch Hich. set (i := objs s + 1). set (q := fresh_req u ctx ch).
  set (qi := fresh_req iu ictx ich). cbn [do_event].
  destruct (arrive_Ok held [] s iu ictx ich (fun r => accept_req h r FUSE_INTERRUPT;;
    interrupt_unique h run_intr r u) Hw Ho Hich) as (s1 & He1 & Hw1 & [Hr1 Hse1 Hob1 Hok1]).
  fold i in He1. assert (Hi1 : reqs s1 !! i = Some qi) by (rewrite Hr1; apply lookup_insert_eq).
  change ((accept_req h i FUSE_INTERRUPT;; interrupt_unique h run_intr i u) s1)
    with (interrupt_unique h run_intr i u s1) in He1.
  rewrite (interrupt_unique_waits s1 i qi u) in He1; [|by rewrite Hse1; apply Hw|done| |by rewrite Hse1].
  2: { intros x Hx. rewrite Hse1 in Hx. destruct (wf_on_list _ _ _ _ _ Hw Hx) as (y & Hy & _).
    destruct (rw_req _ _ _ _ Hw _ _ Hy). assert (x <> i) by lia. exists y.
    rewrite Hr1, lookup_insert_ne by done. by eauto. }
  rewrite (bind_Ok _ _ _ _ _ He1). set (s2 := set_se _ _).
  assert (Hw2 : req_wf held false [] s2).
  { pose proof (wf_update _ _ _ _ _ _ (set_r_u0 u qi) Hw1 Hi1 ltac:(by split)) as Hwu.
    pose proof (wf_append _ _ _ _ i (set_r_u0 u qi) OnInterrupts Hwu (lookup_insert_eq _ _ _)
      eq_refl (or_intror eq_refl)) as Hwa.
    cbn in Hwa. rewrite insert_insert_eq, Hse1, Hi in Hwa.
    unfold s2. rewrite Hse1. exact Hwa. }
  destruct (arrive_Ok held [] s2 u ctx ch (fun r => accept_req h r op) Hw2 Hok1 Hch)
    as (s3 & He3 & Hw3 & [Hr3 Hse3 Hob3 Hok3]).
  rewrite He3. set (r' := objs s2 + 1) in *. change (objs s2) with (objs s1) in r'.
  assert (Hr' : r' = objs s + 2) by (unfold r'; lia).
  destruct (accept_match held s3 r' q i (set_r_chain OnInterrupts (set_r_u0 u qi)) op)
    as (s4 & He4 & Hr4 & Hse4 & Hob4); try done.
  - split; [rewrite Hr3; apply lookup_insert_eq|done].
  - rewrite Hr3, lookup_insert_ne by lia. apply lookup_insert_eq.
  - by rewrite Hse3.
  - lia.
  - exists s4. split; [exact He4|]. rewrite <- Hr'. split; [| |lia].
    + rewrite Hr4, Hr3. rewrite delete_insert_ne by lia. cbn.
      rewrite insert_insert_eq, delete_insert_eq, Hr1, delete_insert_eq.
      rewrite delete_id; [done|]. destruct (reqs s !! i) as [y|] eqn:Hy; [|done].
      destruct (rw_req _ _ _ _ Hw _ _ Hy). lia.
    + rewrite Hse4, Hse3. cbn. rewrite Hse1, <- Hi. by destruct (se s).
Qed.

(** C23: an interrupt may overtake its request.  When nothing else waits, INTERRUPT and the
    request it names lead to the same session in either order: the request is open, has
    been marked as interrupted and holds the same reference, and the interrupt is gone;
    only the identity of the memory differs. *)
Theorem interrupt_order held s u ctx op ch iu ictx ich : session_wf held s -> unheard u s ->
  op <> FUSE_INTERRUPT -> ch = 0 \/ 0 < held ch -> ich = 0 \/ 0 < held ich ->
  exists s1 s2 q,
    (do_event h run_intr (Arrive op u ctx ch);;
     do_event h run_intr (Interrupt iu u ictx ich)) s = Ok (tt, s1) /\
    (do_event h run_intr (Interrupt iu u ictx ich);;
     do_event h run_intr (Arrive op u ctx ch)) s = Ok (tt, s2) /\
    r_unique q = u /\ r_interrupted q = true /\ r_chain q = OnList /\ r_ch q = ch /\
    reqs s1 = <[objs s + 1 := q]> (reqs s) /\ reqs s2 = <[objs s + 2 := q]> (reqs s) /\
    se s1 = set_se_list (se_list (se s) ++ [objs s + 1]) (se s) /\
    se s2 = set_se_list (se_list (se s) ++ [objs s + 2]) (se s).
Proof.
  intros Hs Hu Hop Hch Hich.
  destruct (interrupt_after held s u ctx op ch iu ictx ich) as (s1 & He1 & [Hr1 Hse1 _]); [done..|].
  destruct (interrupt_before held s u ctx op ch iu ictx ich) as (s2 & He2 & [Hr2 Hse2 _]); [done..|].
  by exists s1, s2, (set_r_interrupted true (set_r_chain OnList (fresh_req u ctx ch))).
Qed.
End Order.

Lemma interrupt_order_witness :
  let s1 := ex_run (Interrupt 11 10 ex_ctx 0) (ex_run (Arrive 1 10 ex_ctx 0) (running [])) in
  let s2 := ex_run (Arrive 1 10 ex_ctx 0) (ex_run (Interrupt 11 10 ex_ctx 0) (running [])) in
  exists q, r_interrupted q = true /\ reqs s1 = {[ 1 := q ]} /\ reqs s2 = {[ 2 := q ]}.
Proof.
  intros s1 s2.
  destruct (interrupt_order recorder answer_intr (fun _ => 0) (running []) 10 ex_ctx 1 0 11 ex_ctx 0
    started_wf) as (t1 & t2 & q & H1 & H2 & _ & Hi & _ & _ & Hr1 & Hr2 & _);
    [by split; [|intros r q ?|]|done..|by left|by left|].
  exists q. split; [done|].
  assert (Hs1 : Ok (tt, s1) = Ok (tt, t1)) by (rewrite <- H1; by vm_compute).
  assert (Hs2 : Ok (tt, s2) = Ok (tt, t2)) by (rewrite <- H2; by vm_compute).
  injection Hs1 as ->. injection Hs2 as ->. by rewrite Hr1, Hr2.
Defined.

(** The function registered for a request that was interrupted before runs without a
    reference of its own: when it answers the request, its lock is destroyed while it is
    held. *)
Example late_registration_crashes :
  let s := ex_run (Interrupt 11 10 ex_ctx 0) (ex_run (Arrive 1 10 ex_ctx 0) (running [])) in
  do_event recorder answer_intr (Register 1 77 0) s = Crash BadAccess.
Proof. by vm_compute. Qed.
