(* ===== verification/LLStart.v ===== *)
(** * What INIT agrees on

    The answer to INIT offers the kernel nothing it did not ask for, stays within the
    limits of both sides, and leaves a read buffer that takes the largest write. *)
From S2P Require Import Prelude PosixLock Types Buf BufFacts FsOps Entry Dir LLTypes LowLevel LLReply LLData LLOps LLInit LLFacts.
#[local] Open Scope Z_scope.

(** ** Flags *)
Lemma has_bit x k : 0 <= k -> Buf.has x (2 ^ k) = Z.testbit x k.
Proof.
  intros Hk. unfold Buf.has. destruct (Z.testbit x k) eqn:Hb.
  - apply negb_true_iff, Z.eqb_neq. intros H0. apply (f_equal (fun y => Z.testbit y k)) in H0.
    rewrite Z.land_spec, Hb, Z.pow2_bits_true, Z.bits_0 in H0 by done. done.
  - apply negb_false_iff, Z.eqb_eq. apply Z.bits_inj'. intros n Hn.
    rewrite Z.land_spec, Z.pow2_bits_eqb, Z.bits_0 by done.
    case (Z.eqb_spec k n) as [->|]; [by rewrite Hb|apply andb_false_r].
Qed.

(** A bit of the result was there, or comes from a pair that applies. *)
Lemma translate_bit table flags acc n : Z.testbit (translate table flags acc) n = true ->
  Z.testbit acc n = true \/
  exists f c, In (f, c) table /\ Buf.has flags f = true /\ Z.testbit c n = true.
Proof.
  revert acc. induction table as [|[f c] table IH]; intros acc; simpl; [by left|].
  intros [Ha|(f' & c' & Hin & Hf & Hc)]%IH; [|right; exists f', c'; auto].
  destruct (Buf.has flags f) eqn:Hf; [|by left].
  rewrite Z.lor_spec in Ha. apply orb_true_iff in Ha as [Ha|Hc]; [by left|].
  right. exists f, c. auto.
Qed.

Lemma has_inv x y : 0 <= y -> Buf.has x y = true ->
  exists k, 0 <= k /\ Z.testbit x k = true /\ Z.testbit y k = true.
Proof.
  intros Hy Hh. apply negb_true_iff, Z.eqb_neq in Hh.
  assert (H0 : 0 < Z.land x y).
  { assert (0 <= Z.land x y) by (apply Z.land_nonneg; by right). lia. }
  exists (Z.log2 (Z.land x y)). split; [apply Z.log2_nonneg|].
  pose proof (Z.bit_log2 _ H0) as Hb. rewrite Z.land_spec in Hb. by apply andb_true_iff in Hb.
Qed.

Lemma has_intro x y k : Z.testbit x k = true -> Z.testbit y k = true -> Buf.has x y = true.
Proof.
  intros Hx Hy. apply negb_true_iff, Z.eqb_neq. intros H0.
  apply (f_equal (fun z => Z.testbit z k)) in H0. by rewrite Z.land_spec, Hx, Hy, Z.bits_0 in H0.
Qed.

(** Capabilities that do not stand for a flag of INIT. *)
Definition own_caps : Z :=
  Z.lor (Z.lor FUSE_CAP_SPLICE_WRITE FUSE_CAP_SPLICE_MOVE)
    (Z.lor FUSE_CAP_SPLICE_READ (Z.lor FUSE_CAP_IOCTL_DIR FUSE_CAP_EXPIRE_ONLY)).

(** A wish that stands for a flag stands for the flag of the capability. *)
Definition tables_agree : bool :=
  forallb (fun '(c, f) =>
    (0 <=? c) && negb (Buf.has own_caps c) && (2 ^ Z.log2 f =? f) && (Z.log2 f <? 30) &&
    forallb (fun '(f', c') => negb (Buf.has c c') || (f =? f')) capable_table) want_table.

Lemma tables_do_agree : tables_agree = true.
Proof. by vm_compute. Qed.

(** Every flag of the answer is one the kernel offered. *)
Lemma answer_offered inf cap w acc n :
  (forall k, Z.testbit cap k = true ->
     Z.testbit (translate capable_table inf 0) k = true \/ Z.testbit own_caps k = true) ->
  Z.land w (Z.ldiff UINT_MAX cap) = 0 -> 0 <= w < 2 ^ 32 -> 0 <= n ->
  Z.testbit (translate want_table w acc) n = true ->
  Z.testbit acc n = true \/ (n < 30 /\ Z.testbit inf n = true).
Proof.
  intros Hcap Hw Hr Hn [|(c & f & Hin & Hc & Hf)]%translate_bit; [by left|right].
  pose proof tables_do_agree as Hall. unfold tables_agree in Hall.
  rewrite forallb_forall in Hall. specialize (Hall _ Hin). cbn beta iota in Hall.
  apply andb_true_iff in Hall as [Hall Htab]. apply andb_true_iff in Hall as [Hall Hlog].
  apply andb_true_iff in Hall as [Hall Hpow]. apply andb_true_iff in Hall as [Hc0 Hown].
  apply Z.leb_le in Hc0. apply Z.eqb_eq in Hpow. apply Z.ltb_lt in Hlog.
  rewrite <- Hpow in Hf. rewrite Z.pow2_bits_eqb in Hf by apply Z.log2_nonneg.
  apply Z.eqb_eq in Hf. split; [lia|].
  destruct (has_inv w c Hc0 Hc) as (k & Hk & Hwk & Hck).
  assert (Hkc : Z.testbit cap k = true).
  { apply (f_equal (fun z => Z.testbit z k)) in Hw.
    rewrite Z.land_spec, Z.ldiff_spec, Hwk, Z.bits_0 in Hw.
    assert (Hk32 : k < 32).
    { destruct (Z.ltb_spec k 32); [done|]. rewrite Z.bits_above_log2 in Hwk; [done|lia|].
      destruct (Z.eq_dec w 0) as [->|]; [cbn; lia|]. apply Z.log2_lt_pow2; [lia|].
      apply Z.lt_le_trans with (2 ^ 32); [lia|]. by apply Z.pow_le_mono_r. }
    replace (Z.testbit UINT_MAX k) with true in Hw; [by destruct (Z.testbit cap k)|].
    change UINT_MAX with (Z.ones 32). by rewrite Z.ones_spec_low. }
  destruct (Hcap k Hkc) as [Htr|Hown'].
  - apply translate_bit in Htr as [Htr|(f' & c' & Hin' & Hf' & Hc')]; [by rewrite Z.bits_0 in Htr|].
    rewrite forallb_forall in Htab. specialize (Htab _ Hin'). cbn beta iota in Htab.
    rewrite (has_intro c c' k) in Htab by done. apply Z.eqb_eq in Htab. subst f'.
    rewrite <- Hpow, has_bit in Hf' by apply Z.log2_nonneg. by rewrite <- Hf.
  - by rewrite (has_intro own_caps c k) in Hown.
Qed.

Section Start.
Context {K : Type} (h : host K) (run_op : call -> M (ll K) unit).
#[local] Abbreviation L := (M (ll K)).
Implicit Types (s : ll K) (c : fuse_conn_info) (e : fuse_session).
#[local] Abbreviation bytes s := (Buf.mem (sysm s)).

(** [struct fuse_init_in]. *)
Definition init_in (minor max_readahead flags flags2 : Z) : list (nat * Z) :=
  [(4%nat, 7); (4%nat, minor); (4%nat, max_readahead); (4%nat, flags); (4%nat, flags2)].

(** What INIT of protocol 7.[minor] puts to the file system: the connection and the size
    of the buffer. *)
Definition first_conn (minor : Z) e : fuse_conn_info :=
  set_want 0 (set_capable 0 (set_proto_minor minor (set_proto_major 7 (conn e)))).

Definition offer (minor max_readahead flags flags2 : Z) e : fuse_conn_info * Z :=
  let '(c, _, bs) := init_offer minor max_readahead flags flags2 (bufsize e) (first_conn minor e) in
  let c := init_defaults e c in
  let bs := if bs <? FUSE_MIN_READ_BUFFER then FUSE_MIN_READ_BUFFER else bs in
  (if u64 (bs - FUSE_BUFFER_HEADER_SIZE) <? max_write c
   then set_max_write (u32 (bs - FUSE_BUFFER_HEADER_SIZE)) c else c, bs).

Definition put_offer (o : fuse_conn_info * Z) (s : ll K) : ll K :=
  set_se (set_got_init true (set_bufsize o.2 (set_conn o.1 (se s)))) s.

(** What happens after the file system has been asked. *)
Definition settle (r minor flags flags2 bs : Z) : L unit :=
  s ← getM;
  if negb (Z.land (want (conn (se s))) (Z.ldiff UINT_MAX (capable (conn (se s)))) =? 0)
  then abort_init h r
  else if negb (max_read (conn (se s)) =? mo_max_read (se s)) then abort_init h r
  else init_reply h r minor flags (init_flags flags flags2) bs.

Lemma init_offer_flags minor ra flags flags2 bs c : 6 <= minor -> exists c' bs',
  init_offer minor ra flags flags2 bs c = (c', init_flags flags flags2, bs').
Proof. intros Hm. unfold init_offer. rewrite (proj2 (Z.ltb_ge minor 6)) by lia. by eauto. Qed.

Lemma do_init_eq s r nodeid inarg minor ra flags flags2 tail :
  holds (bytes s) inarg (enc (init_in minor ra flags flags2) ++ tail) ->
  6 <= minor < 2 ^ 32 -> 0 <= ra < 2 ^ 32 -> 0 <= flags < 2 ^ 32 -> 0 <= flags2 < 2 ^ 32 ->
  (Buf.has flags FUSE_INIT_EXT = false -> flags2 = 0) ->
  do_init h run_op r nodeid inarg s =
  ((if negb (op (se s) op_init) then mret tt else run_op C_init);;
   settle r minor flags flags2 (offer minor ra flags flags2 (se s)).2)
  (put_offer (offer minor ra flags flags2 (se s)) s).
Proof.
  intros Hh Hmin Hra Hfl Hfl2 Hext. unfold do_init.
  assert (Hu : forall z, 0 <= z < 2 ^ 32 -> u32 z = z) by (intros; by apply Z.mod_small).
  assert (Hld : forall (t : ll K) off z, holds (bytes t) inarg (enc (init_in minor ra flags flags2) ++ tail) ->
    field_at (init_in minor ra flags flags2) off = Some (4%nat, z) -> 0 <= z < 2 ^ 32 ->
    ld32 (inarg + off) t = Ok (z, t)).
  { intros t off z Ht Hf Hz. pose proof (ld32_field t inarg _ _ off z _ Ht Hf eq_refl) as Hl.
    by rewrite (Hu z Hz) in Hl. }
  rewrite <- (Z.add_0_r inarg) at 1.
  rewrite (bind_Ok _ _ _ _ _ (Hld s 0 7 Hh eq_refl ltac:(lia))).
  rewrite (bind_Ok _ _ _ _ _ (Hld s 4 minor Hh eq_refl ltac:(lia))).
  change ((modify_conn ?g ≫= ?k) s) with (k tt (set_se (set_conn (g (conn (se s))) (se s)) s)).
  cbv beta. set (s1 := set_se _ s). cbn [Z.ltb Z.compare Pos.compare Pos.compare_cont].
  rewrite (proj2 (Z.ltb_ge minor 6)) by lia. cbn [orb].
  rewrite (bind_Ok _ _ _ _ _ (Hld s1 8 ra Hh eq_refl ltac:(lia))).
  rewrite (bind_Ok _ _ _ _ _ (Hld s1 12 flags Hh eq_refl ltac:(lia))).
  assert (Hf2 : (if negb (Buf.has flags FUSE_INIT_EXT) then mret 0 else ld32 (inarg + 16)) s1
    = Ok (flags2, s1)).
  { destruct (Buf.has flags FUSE_INIT_EXT); [exact (Hld s1 16 flags2 Hh eq_refl ltac:(lia))|].
    by rewrite Hext. }
  rewrite (bind_Ok _ _ _ _ _ Hf2).
  change ((getM ≫= ?k) s1) with (k s1 s1). cbv beta.
  unfold offer. change (bufsize (se s1)) with (bufsize (se s)).
  change (conn (se s1)) with (first_conn minor (se s)).
  destruct (init_offer_flags minor ra flags flags2 (bufsize (se s)) (first_conn minor (se s)))
    as (c & bs & ->); [lia|]. cbn beta iota zeta.
  assert (Hd : init_defaults (se s1) c = init_defaults (se s) c) by reflexivity.
  rewrite Hd. clear Hd. generalize (init_defaults (se s) c). intros d.
  set (bs' := if bs <? FUSE_MIN_READ_BUFFER then _ else bs).
  set (d' := if _ <? max_write d then _ else d). reflexivity.
Qed.

(** ** What is put to the file system *)
Lemma offer_caps minor ra flags flags2 e k : 6 <= minor ->
  Z.testbit (capable (offer minor ra flags flags2 e).1) k = true ->
  Z.testbit (translate capable_table (init_flags flags flags2) 0) k = true \/
  Z.testbit own_caps k = true.
Proof.
  intros Hm. unfold offer, init_offer. rewrite (proj2 (Z.ltb_ge minor 6)) by lia.
  set (cap := translate capable_table (init_flags flags flags2) 0).
  assert (Hset : forall (b : bool) v c, capable (if b then set_max_write v c else c) = capable c)
    by by intros [].
  assert (Hd : forall c, Z.testbit (capable (init_defaults e c)) k = true ->
    Z.testbit (capable c) k = true \/ Z.testbit own_caps k = true).
  { intros c. unfold init_defaults, own_caps.
    destruct (io e) as [[[] []]|], (proto_minor c <? 14); cbn [proto_minor set_capable];
      destruct (proto_minor c <? 18); cbn [capable set_capable set_want set_time_gran];
      rewrite ?Z.lor_spec, ?orb_true_iff; tauto. }
  cbn [fst]. rewrite Hset. intros [Hk|]%Hd; [|by right]. revert Hk. clear Hd Hset.
  set (c1 := if ra <? _ then _ else _).
  assert (Hc1 : capable c1 = 0) by (unfold c1; by case (ra <? _)).
  rewrite Hc1. fold cap. clearbody c1 cap.
  destruct (minor <? 38); cbn [capable set_capable]; [by left|].
  rewrite Z.lor_spec, orb_true_iff. intros [Hk|Hk]; [by left|right]. unfold own_caps.
  by rewrite !Z.lor_spec, Hk, !orb_true_r.
Qed.

Lemma offer_minor minor ra flags flags2 e : 6 <= minor ->
  proto_minor (offer minor ra flags flags2 e).1 = minor.
Proof.
  intros Hm. unfold offer, init_offer. rewrite (proj2 (Z.ltb_ge minor 6)) by lia. cbn [fst].
  match goal with |- context [init_defaults e ?x] => set (c := x) end.
  assert (Hc : proto_minor c = minor).
  { unfold c. case (minor <? 38); cbn [proto_minor set_capable]; by case (ra <? _). }
  assert (Hd : proto_minor (init_defaults e c) = minor).
  { unfold init_defaults. rewrite <- Hc.
    destruct (io e) as [[[] []]|], (proto_minor c <? 14); cbn [proto_minor set_capable];
      by destruct (proto_minor c <? 18). }
  by case (_ <? max_write _).
Qed.

Lemma offer_sizes minor ra flags flags2 e (o := offer minor ra flags flags2 e) :
  6 <= minor -> 0 <= bufsize e < 2 ^ 31 ->
  FUSE_MIN_READ_BUFFER <= o.2 < 2 ^ 31 /\ max_write o.1 <= o.2 - FUSE_BUFFER_HEADER_SIZE.
Proof.
  intros Hm Hb. unfold o, offer, init_offer. rewrite (proj2 (Z.ltb_ge minor 6)) by lia.
  set (bs0 := if _ && _ then _ else bufsize e).
  assert (Hb0 : 0 <= bs0 < 2 ^ 31).
  { unfold bs0. case (_ && _); [by vm_compute|done]. }
  set (bs := if bs0 <? FUSE_MIN_READ_BUFFER then FUSE_MIN_READ_BUFFER else bs0).
  assert (Hbs : FUSE_MIN_READ_BUFFER <= bs < 2 ^ 31).
  { unfold bs. destruct (Z.ltb_spec bs0 FUSE_MIN_READ_BUFFER); [by vm_compute|lia]. }
  cbn [fst snd]. split; [done|].
  set (c := init_defaults e _). unfold FUSE_MIN_READ_BUFFER, FUSE_BUFFER_HEADER_SIZE in *.
  assert (Hu : u64 (bs - 4096) = bs - 4096) by (apply Z.mod_small; lia).
  rewrite Hu. destruct (Z.ltb_spec (bs - 4096) (max_write c)); [|done].
  cbn. unfold u32. rewrite Z.mod_small; lia.
Qed.

Lemma background_limits c : 0 <= max_background c -> 0 <= congestion_threshold c ->
  0 <= congestion_threshold (init_background c) <= max_background (init_background c) /\
  max_background (init_background c) < 2 ^ 16.
Proof.
  intros Hb Hc. unfold init_background. set (c1 := if (2 ^ 16 <=? _) : bool then _ else c).
  assert (H1 : 0 <= max_background c1 < 2 ^ 16 /\ 0 <= congestion_threshold c1).
  { unfold c1. destruct (Z.leb_spec (2 ^ 16) (max_background c)); cbn; lia. }
  clearbody c1.
  set (c2 := if (_ <? _) : bool then _ else c1).
  assert (H2 : max_background c2 = max_background c1 /\
    0 <= congestion_threshold c2 <= max_background c1).
  { unfold c2. destruct (Z.ltb_spec (max_background c1) (congestion_threshold c1)); cbn; lia. }
  destruct H2 as [Hm H2], H1 as [H1 _]. clearbody c2.
  case (congestion_threshold c2 =? 0); cbn; rewrite Hm; [|lia].
  unfold u32. rewrite Z.mod_small by lia. split; [|lia].
  split; [apply Z.div_pos; lia|]. apply Z.div_le_upper_bound; lia.
Qed.

Lemma background_same c : max_readahead (init_background c) = max_readahead c /\
  max_write (init_background c) = max_write c /\ time_gran (init_background c) = time_gran c /\
  proto_minor (init_background c) = proto_minor c.
Proof. unfold init_background. by repeat case_match. Qed.

Lemma init_out_length z1 z2 z3 z4 z5 z6 z7 z8 z9 z10 :
  length (init_out z1 z2 z3 z4 z5 z6 z7 z8 z9 z10) = 64%nat.
Proof. unfold init_out. by rewrite !length_app, !le_bytes_length, length_replicate. Qed.

(** ** The answer *)

(** Neither more than can be had, nor another maximum than the one mounted with. *)
Definition agreed (s : ll K) : Prop :=
  Z.land (want (conn (se s))) (Z.ldiff UINT_MAX (capable (conn (se s)))) = 0 /\
  max_read (conn (se s)) = mo_max_read (se s).

(** The numbers are those of unsigned members. *)
Record unsigned (c : fuse_conn_info) : Prop := mk_unsigned {
  un_want : 0 <= want c < 2 ^ 32;
  un_max_write : 0 <= max_write c < 2 ^ 32;
  un_background : 0 <= max_background c;
  un_congestion : 0 <= congestion_threshold c;
}.

(** What the answer promises, when the kernel offered [inf] and a buffer of [bs]. *)
Record fair (flags inf bs : Z) (c : fuse_conn_info) (fl bg ct mp bs' : Z) : Prop := mk_fair {
  fair_flags : forall n, 0 <= n -> Z.testbit fl n = true -> n = 5 \/ Z.testbit inf n = true;
  fair_low : Z.shiftr fl 32 = 0;
  fair_background : 0 <= ct <= bg /\ bg < 2 ^ 16;
  fair_pages : 1 <= max_write c <= (2 ^ 16 - 1) * pagesize -> Z.testbit flags 22 = true ->
    max_write c <= mp * pagesize < max_write c + pagesize;
  fair_buffer : FUSE_MIN_READ_BUFFER - FUSE_BUFFER_HEADER_SIZE <= max_write c <=
      bs - FUSE_BUFFER_HEADER_SIZE ->
    bs' = max_write c + FUSE_BUFFER_HEADER_SIZE /\ FUSE_MIN_READ_BUFFER <= bs';
}.

Definition answer_flags (flags inf w : Z) : Z :=
  let maxp := Buf.has flags FUSE_MAX_PAGES in
  let fl := translate want_table w (Z.lor (flag maxp FUSE_MAX_PAGES) FUSE_BIG_WRITES) in
  if Buf.has inf FUSE_INIT_EXT then Z.lor fl FUSE_INIT_EXT else fl.

Lemma answer_flags_offered flags flags2 cap w n (inf := init_flags flags flags2) :
  (forall k, Z.testbit cap k = true ->
     Z.testbit (translate capable_table inf 0) k = true \/ Z.testbit own_caps k = true) ->
  Z.land w (Z.ldiff UINT_MAX cap) = 0 -> 0 <= w < 2 ^ 32 -> 0 <= n ->
  Z.testbit (answer_flags flags inf w) n = true ->
  n < 31 /\ (n = 5 \/ Z.testbit inf n = true).
Proof.
  intros Hcap Hw Hr Hn. unfold answer_flags. set (fl := translate _ _ _).
  assert (Hfl : Z.testbit fl n = true -> n < 31 /\ (n = 5 \/ Z.testbit inf n = true)).
  { intros [Ha|[Hlt Hi]]%(answer_offered inf cap w _ n Hcap Hw Hr Hn); [|split; [lia|by right]].
    rewrite Z.lor_spec in Ha. apply orb_true_iff in Ha as [Ha|Ha].
    - unfold flag in Ha. destruct (Buf.has flags FUSE_MAX_PAGES) eqn:Hm; [|by rewrite Z.bits_0 in Ha].
      unfold FUSE_MAX_PAGES in *. rewrite Z.pow2_bits_eqb in Ha by lia. apply Z.eqb_eq in Ha. subst n.
      rewrite has_bit in Hm by lia. split; [lia|right]. unfold inf, init_flags.
      case (Buf.has flags FUSE_INIT_EXT); [by rewrite Z.lor_spec, Hm|done].
    - unfold FUSE_BIG_WRITES in Ha. rewrite Z.pow2_bits_eqb in Ha by lia.
      apply Z.eqb_eq in Ha. split; [lia|by left]. }
  destruct (Buf.has inf FUSE_INIT_EXT) eqn:He; [|done].
  rewrite Z.lor_spec. intros [Hf|Hf]%orb_true_iff; [auto|].
  unfold FUSE_INIT_EXT in *. rewrite Z.pow2_bits_eqb in Hf by lia. apply Z.eqb_eq in Hf. subst n.
  rewrite has_bit in He by lia. split; [lia|by right].
Qed.

Lemma pages_cover w : 1 <= w <= (2 ^ 16 - 1) * pagesize ->
  w <= ((u32 (w - 1) / pagesize + 1) mod 2 ^ 16) * pagesize < w + pagesize.
Proof.
  unfold u32, pagesize. intros Hw. rewrite (Z.mod_small (w - 1)) by lia.
  pose proof (Z.div_mod (w - 1) 4096 ltac:(lia)). pose proof (Z.mod_pos_bound (w - 1) 4096 ltac:(lia)).
  rewrite Z.mod_small by lia. lia.
Qed.

Lemma init_reply_runs s r minor flags flags2 bs (c := conn (se s)) (inf := init_flags flags flags2) :
  23 <= minor -> proto_minor c = minor -> agreed s -> unsigned c -> bufsize (se s) = bs ->
  FUSE_MIN_READ_BUFFER <= bs < 2 ^ 31 ->
  (forall k, Z.testbit (capable c) k = true ->
     Z.testbit (translate capable_table inf 0) k = true \/ Z.testbit own_caps k = true) ->
  exists fl bg ct mp t,
    init_reply h r minor flags inf bs s =
      (send_reply_ok h r (init_out 7 38 (max_readahead c) fl bg ct (max_write c)
         (time_gran c) mp 0);; mret tt) t /\
    got_init (se t) = got_init (se s) /\ fair flags inf bs c fl bg ct mp (bufsize (se t)).
Proof.
  intros Hmin Hproto [Hwant _] Hun Hbs Hb Hcap.
  pose proof (answer_flags_offered flags flags2 (capable c) (want c)) as Hfl.
  specialize (fun n => Hfl n Hcap Hwant (un_want _ Hun)).
  set (fl := answer_flags flags inf (want c)) in *.
  set (cb := init_background c).
  assert (Hlow : Z.shiftr fl 32 = 0).
  { apply Z.bits_inj'. intros n Hn. rewrite Z.shiftr_spec, Z.bits_0 by done.
    destruct (Z.testbit fl (n + 32)) eqn:Hbit; [|done].
    destruct (Hfl (n + 32) ltac:(lia) Hbit). lia. }
  set (mp := if Buf.has flags FUSE_MAX_PAGES
             then (u32 (max_write c - 1) / pagesize + 1) mod 2 ^ 16 else 0).
  set (bs' := if max_write c <? bs - FUSE_BUFFER_HEADER_SIZE
              then max_write c + FUSE_BUFFER_HEADER_SIZE else bs).
  exists fl, (max_background cb), (congestion_threshold cb), mp,
    (set_se (set_conn cb (set_bufsize bs' (se s))) s).
  unfold FUSE_MIN_READ_BUFFER, FUSE_BUFFER_HEADER_SIZE in *.
  assert (Hu : u64 (bs - 4096) = bs - 4096) by (apply Z.mod_small; lia).
  assert (Hset : (if max_write c <? bs - 4096 then modify_se (set_bufsize (u32 (max_write c + 4096)))
    else mret tt : L unit) s = Ok (tt, set_se (set_bufsize bs' (se s)) s)).
  { pose proof (un_max_write _ Hun). unfold bs'. destruct (Z.ltb_spec (max_write c) (bs - 4096)).
    - unfold u32. by rewrite Z.mod_small by lia.
    - rewrite <- Hbs. by destruct s as [? [] ? ? ? ? ? ?]. }
  split; [|split; [done|]].
  - unfold init_reply. change ((getM ≫= ?k) s) with (k s s). cbv beta zeta. fold c.
    unfold FUSE_BUFFER_HEADER_SIZE. rewrite Hu, Hproto.
    rewrite (proj2 (Z.ltb_ge minor 13)), (proj2 (Z.ltb_ge minor 5)), (proj2 (Z.ltb_ge minor 23)) by lia.
    cbn [negb]. fold cb. fold (answer_flags flags inf (want c)). fold fl.
    destruct (background_same c) as (Hr1 & Hr2 & Hr3 & Hr4).
    fold cb in Hr1, Hr2, Hr3, Hr4. rewrite Hr1, Hr2, Hr3, Hr4, Hproto.
    rewrite (proj2 (Z.ltb_ge minor 23)), take_ge by (rewrite ?init_out_length; lia).
    assert (Hf2 : (if Buf.has inf FUSE_INIT_EXT then Z.shiftr fl 32 else 0) = 0)
      by by case (Buf.has inf FUSE_INIT_EXT).
    rewrite Hf2. by rewrite (bind_Ok _ _ _ _ _ Hset).
  - split; [intros n Hn Hbit; by apply Hfl|done|by apply background_limits; apply Hun| |].
    + intros Hw Hbit. unfold mp. unfold FUSE_MAX_PAGES. rewrite has_bit, Hbit by lia.
      by apply pages_cover.
    + unfold FUSE_BUFFER_HEADER_SIZE. cbn. unfold FUSE_MIN_READ_BUFFER. intros Hle. unfold bs'.
      destruct (Z.ltb_spec (max_write c) (bs - 4096)); lia.
Qed.

(** The [init] member, when there is one, only changes the connection, by [f], and leaves
    what it was told there alone. *)
Definition init_member (f : fuse_conn_info -> fuse_conn_info) : Prop :=
  (forall s, op (se s) op_init = true ->
     run_op C_init s = Ok (tt, set_se (set_conn (f (conn (se s))) (se s)) s)) /\
  forall c, proto_minor (f c) = proto_minor c /\ capable (f c) = capable c.

Definition asked (f : fuse_conn_info -> fuse_conn_info) (o : fuse_conn_info * Z) (s : ll K) : ll K :=
  put_offer (if op (se s) op_init then f o.1 else o.1, o.2) s.

(** C24: the negotiation of INIT.  For every INIT of protocol 7.23 or later and every file
    system: when [init] asks for nothing the kernel cannot do and the mount agrees with
    it, the session is answered with one message of 64 bytes whose flags were all
    offered by the kernel (big writes apart, which is always set), whose background
    limits fit 16 bits and each other, and whose pages just cover the largest write; when
    the largest write is at least 4096 bytes and fits, the buffer for reading requests is
    what it needs, and at least the FUSE_MIN_READ_BUFFER of 8192 bytes.  Otherwise the
    session is ended with EPROTO. *)
Theorem init_negotiation s r nodeid inarg minor ra flags flags2 tail f
    (o := offer minor ra flags flags2 (se s)) (t := asked f o s) (c := conn (se t)) :
  holds (bytes s) inarg (enc (init_in minor ra flags flags2) ++ tail) ->
  23 <= minor < 2 ^ 32 -> 0 <= ra < 2 ^ 32 -> 0 <= flags < 2 ^ 32 -> 0 <= flags2 < 2 ^ 32 ->
  (Buf.has flags FUSE_INIT_EXT = false -> flags2 = 0) ->
  0 <= bufsize (se s) < 2 ^ 31 -> init_member f -> unsigned c ->
  (agreed t -> exists fl bg ct mp t',
     do_init h run_op r nodeid inarg s =
       (send_reply_ok h r (init_out 7 38 (max_readahead c) fl bg ct (max_write c)
          (time_gran c) mp 0);; mret tt) t' /\
     got_init (se t') = true /\
     fair flags (init_flags flags flags2) o.2 c fl bg ct mp (bufsize (se t'))) /\
  (~ agreed t -> do_init h run_op r nodeid inarg s = abort_init h r t).
Proof.
  intros Hh Hmin Hra Hfl Hfl2 Hext Hb [Hrun Hf] Hun.
  rewrite (do_init_eq s r nodeid inarg minor ra flags flags2 tail) by (done || lia). fold o.
  assert (Hask : (if negb (op (se s) op_init) then mret tt else run_op C_init) (put_offer o s)
    = Ok (tt, t)).
  { unfold t, asked. destruct (op (se s) op_init) eqn:Hop; [|by destruct o]. by apply Hrun. }
  rewrite (bind_Ok _ _ _ _ _ Hask).
  unfold settle. change ((getM ≫= ?k) t) with (k t t). cbv beta.
  assert (Hc : capable c = capable o.1 /\ proto_minor c = proto_minor o.1).
  { unfold c, t, asked. cbn. destruct (Hf o.1). by case (op (se s) op_init). }
  destruct (offer_sizes minor ra flags flags2 (se s)) as [Hbs _]; [lia|done|]. fold o in Hbs.
  split.
  - intros Ha. pose proof Ha as [Hw Hr]. rewrite Hw, Hr, !Z.eqb_refl. cbn [negb].
    destruct (init_reply_runs t r minor flags flags2 o.2) as (fl & bg & ct & mp & t' & He & Hg & Hfair);
      try done; [lia| | |exists fl, bg, ct, mp, t'; split; [exact He|]; split; [by rewrite Hg|]; exact Hfair].
    + fold c. rewrite (proj2 Hc). apply offer_minor. lia.
    + fold c. intros k. rewrite (proj1 Hc). apply offer_caps. lia.
  - intros Hn.
    case (Z.eqb_spec (Z.land (want (conn (se t))) (Z.ldiff UINT_MAX (capable (conn (se t))))) 0)
      as [Hw|]; [|done].
    case (Z.eqb_spec (max_read (conn (se t))) (mo_max_read (se t))) as [Hr|]; [|done].
    by destruct Hn.
Qed.
End Start.

(** A kernel that offers asynchronous reads and large requests, and a file system that
    takes writes of 64 KiB. *)
Definition ex_flags : Z := 2 ^ 0 + 2 ^ 15 + 2 ^ 22.
Definition ex_init (c : fuse_conn_info) : fuse_conn_info := set_max_write 65536 c.
Definition ex_op (c : call) : M (ll (list (list Z))) unit :=
  match c with C_init => modify_conn ex_init | _ => mret tt end.
Definition ex_start : ll (list (list Z)) :=
  set_se (fuse_session_new false every_op 1000 0)
    (running (enc (init_in 38 131072 ex_flags 0) ++ [])).

Lemma init_negotiation_witness : exists fl bg ct mp t',
  do_init recorder ex_op 1 0 4096 ex_start =
    (send_reply_ok recorder 1 (init_out 7 38 131072 fl bg ct 65536 1 mp 0);; mret tt) t' /\
  fair ex_flags ex_flags 1052672 (set_max_write 65536 (offer 38 131072 ex_flags 0 (se ex_start)).1)
    fl bg ct mp (bufsize (se t')).
Proof.
  destruct (proj1 (init_negotiation recorder ex_op ex_start 1 0 4096 38 131072 ex_flags 0 [] ex_init
    (holds_written _ _ _) ltac:(lia) ltac:(lia) ltac:(by vm_compute) ltac:(lia) ltac:(done)
    ltac:(by vm_compute) ltac:(by split) ltac:(by split; vm_compute)) ltac:(by split; vm_compute))
    as (fl & bg & ct & mp & t' & He & _ & Hf).
  exists fl, bg, ct, mp, t'. split; [exact He|exact Hf].
Defined.

(** A file system that asks for what the kernel does not offer. *)
Example init_refused : let s := (do_init recorder (fun _ => modify_conn (set_want FUSE_CAP_POSIX_ACL))
    1 0 4096 (set_reqs {[ 1 := set_r_ctr 1 req0 ]} ex_start)) in
  match s with Ok (_, s) => exited (se s) = true /\ se_error (se s) = - EPROTO | _ => False end.
Proof. by vm_compute. Qed.

(** A file system that takes only small writes: the buffer becomes smaller than the
    [FUSE_MIN_READ_BUFFER] a kernel asks for before it hands out a request. *)
Example small_writes_small_buffer :
  let s := do_init recorder (fun _ => modify_conn (set_max_write 1024))
    1 0 4096 (set_reqs {[ 1 := set_r_ctr 1 req0 ]} ex_start) in
  match s with Ok (_, s) => bufsize (se s) = 5120 /\ 5120 < FUSE_MIN_READ_BUFFER | _ => False end.
Proof. by vm_compute. Qed.
