(* ===== verification/LLGate.v ===== *)
(** * The checks before a request is served

    Which requests a session takes, and what happens to the others. *)
From S2P Require Import Prelude PosixLock Types Buf BufFacts FsOps Entry Dir LLTypes LowLevel LLReply LLData LLOps LLInit LLSession LLFacts LLWire LLRequests.
#[local] Open Scope Z_scope.

Section Gate.
Context {K : Type} (h : host K) (run_op : call -> M (ll K) unit)
        (run_op_bufv : call -> Buf.fuse_bufvec -> M (ll K) Buf.fuse_bufvec)
        (run_intr cuse_lowlevel_init : Z -> Z -> Z -> M (ll K) unit).
Implicit Types (s : ll K) (e : fuse_session).
#[local] Abbreviation bytes s := (Buf.mem (sysm s)).
#[local] Abbreviation refuse := (refuse h run_op run_intr cuse_lowlevel_init).
#[local] Abbreviation fuse_ll_ops := (fuse_ll_ops h run_op run_intr cuse_lowlevel_init).
#[local] Abbreviation process_buf :=
  (fuse_session_process_buf_int h run_op run_op_bufv run_intr cuse_lowlevel_init).

(** INIT comes first and once. *)
Definition in_order (opcode : Z) e : Prop :=
  if got_init e then opcode <> FUSE_INIT /\ opcode <> CUSE_INIT
  else opcode = if cuse_data e then CUSE_INIT else FUSE_INIT.

(** With [deny_others], only the owner and root may look at names and attributes. *)
Definition permitted (opcode uid : Z) e : Prop :=
  deny_others e = false \/ uid = owner e \/ uid = 0 \/ open_to_others opcode = true.

Lemma refuse_spec e opcode uid :
  match refuse e opcode uid with
  | None => in_order opcode e /\ permitted opcode uid e /\ is_Some (fuse_ll_ops opcode)
  | Some err => err = EIO /\ ~ in_order opcode e \/
                err = EACCES /\ in_order opcode e /\ ~ permitted opcode uid e \/
                err = ENOSYS /\ in_order opcode e /\ permitted opcode uid e /\
                  fuse_ll_ops opcode = None
  end.
Proof.
  unfold LLSession.refuse.
  set (early := if got_init e then (opcode =? FUSE_INIT) || (opcode =? CUSE_INIT)
                else negb (opcode =? (if cuse_data e then CUSE_INIT else FUSE_INIT))).
  assert (He : early = false <-> in_order opcode e).
  { unfold early, in_order. destruct (got_init e).
    - rewrite orb_false_iff, !Z.eqb_neq. done.
    - by rewrite negb_false_iff, Z.eqb_eq. }
  set (barred := deny_others e && negb (uid =? owner e) && negb (uid =? 0) &&
          negb (open_to_others opcode)).
  assert (Hb : barred = false <-> permitted opcode uid e).
  { unfold barred, permitted.
    rewrite !andb_false_iff, !negb_false_iff, !Z.eqb_eq. tauto. }
  destruct early; [left; split; [done|]; by intros ?%He|].
  destruct barred; [right; left; split; [done|]; split; [by apply He|]; by intros ?%Hb|].
  destruct (fuse_ll_ops opcode) eqn:Hops.
  - split; [by apply He|]. split; [by apply Hb|by eexists].
  - right. right. split; [done|]. split; [by apply He|]. by split; [apply Hb|].
Qed.

(** A session between two messages: no lock is held, and the next request is new. *)
Record idle (s : ll K) : Prop := mk_idle {
  id_unlocked : se_locked (se s) = false;
  id_new : reqs s !! (objs s + 1) = None;
  id_objs : 0 <= objs s;
  id_oks : oks s = [];
}.

(** One error message, and nothing else. *)
Definition only_answered (unique err : Z) (s s' : ll K) : Prop :=
  reqs s' = reqs s /\ se s' = se s /\ chans s' = chans s /\
  exists w, w = (match io (se s) with Some _ => h_io_writev h | None => h_writev h end) /\
    sysm s' = (w (se_fd (se s)) [out_bytes (mk_out 32 (- err) unique 0 0 0)] (sysm s)).2.

Lemma send_to_session s out iov (w := match io (se s) with Some _ => h_io_writev h | None => h_writev h end)
    (msg := out_bytes (set_o_len (u32 (iov_length (out_bytes out :: iov))) out) :: iov)
    (r := w (se_fd (se s)) msg (sysm s)) :
  fuse_send_msg h 0 out iov s = Ok (if r.1.1 =? -1 then - r.1.2 else 0, set_sysm r.2 s).
Proof.
  unfold fuse_send_msg, send_fd, with_sys, liftS, mbind, M_bind, getM. cbn.
  unfold r, msg, w. clear r msg w. destruct (io (se s)).
  all: destruct (h_io_writev h _ _ _) as [[res err] b] || destruct (h_writev h _ _ _) as [[res err] b].
  all: cbn; by case (res =? -1).
Qed.

Lemma refused s r q err buf : se_locked (se s) = false -> reqs s !! r = None ->
  r_ctr q = 1 -> r_ch q = 0 -> r_chain q = Alone -> r_locked q = false -> 0 < err < 1000 ->
  is_fd buf = false ->
  exists s', process_err h r err buf 0 (set_reqs (<[r := q]> (reqs s)) s) = Ok (tt, s') /\
    only_answered (r_unique q) err s s'.
Proof.
  intros Hl Hr Hct Hch Hc Hlk Herr Hfd. set (s1 := set_reqs _ s).
  assert (Hq : reqs s1 !! r = Some q) by apply lookup_insert_eq.
  unfold process_err, reply_err_, fuse_reply_err, send_reply, send_reply_iov,
    fuse_send_reply_iov_nofree.
  rewrite !bind_assoc_eq, (bind_Ok _ _ _ _ _ (load_req_Ok _ _ _ Hq)), Hch.
  replace ((- err <=? -1000) || (0 <? - err)) with false by lia.
  rewrite (bind_Ok _ _ _ _ _ (send_to_session s1 _ _)), !bind_assoc_eq.
  set (res := (_ : Z * Z * Buf.sys K)).
  erewrite bind_Ok by (apply (free_req_Ok h (set_sysm res.2 s1) r q);
    [done|done|by rewrite Hc|by rewrite Hch|done]).
  unfold process_clear. rewrite Hfd. eexists. split; [destruct (res.1.1 =? -1); reflexivity|].
  unfold only_answered, freed. rewrite Hct, Hch. cbn.
  rewrite delete_insert_id by done. split; [done|].
  unfold unlisted. rewrite Hc. split; [done|]. split; [done|].
  eexists. split; [done|]. reflexivity.
Qed.

(** C25: the gate.  A message is either served or refused.  It is served exactly when it
    comes in order (INIT before anything else, and never twice), when its sender may
    send it, and when the opcode is known; then it joins the requests and its handler is
    called.  Otherwise it is answered with one error message under its own identifier
    ([EIO], [EACCES], [ENOSYS], in this order) and leaves nothing behind: no request, no
    change of the session, no call of the file system. *)
Theorem gate s buf len opcode unique nodeid uid gid pid rest
    (op_ := u32 opcode) (uid_ := u32 uid) :
  idle s -> is_fd buf = false ->
  holds (bytes s) (Buf.b_mem buf)
    (enc (in_header len opcode unique nodeid uid gid pid) ++ rest) ->
  (in_order op_ (se s) /\ permitted op_ uid_ (se s) /\ is_Some (fuse_ll_ops op_) ->
   exists k : M (ll K) unit,
     process_buf buf 0 s =
       (accept_req h (objs s + 1) op_;; k) (allocated unique uid gid pid s) /\
     forall s', holds (bytes s') (Buf.b_mem buf)
         (enc (in_header len opcode unique nodeid uid gid pid) ++ rest) ->
       k s' = (call_handler h run_op run_op_bufv run_intr cuse_lowlevel_init (objs s + 1) op_
                 (u64 nodeid) (Buf.b_mem buf + SIZEOF_IN_HEADER) buf;; free 0) s') /\
  (~ (in_order op_ (se s) /\ permitted op_ uid_ (se s) /\ is_Some (fuse_ll_ops op_)) ->
   exists err s', (err = EIO /\ ~ in_order op_ (se s) \/
                   err = EACCES /\ in_order op_ (se s) /\ ~ permitted op_ uid_ (se s) \/
                   err = ENOSYS /\ in_order op_ (se s) /\ permitted op_ uid_ (se s)) /\
     process_buf buf 0 s = Ok (tt, s') /\
     only_answered (u64 unique) err (set_objs (objs s + 1) s) s').
Proof.
  intros [Hl Hnew Hobj Ho] Hfd Hh.
  destruct (request_started h run_op run_op_bufv run_intr cuse_lowlevel_init s buf len opcode
    unique nodeid uid gid pid rest Hnew Hobj Ho Hfd Hh) as (k & -> & Hk).
  pose proof (refuse_spec (se s) op_ uid_) as Hr. fold op_ uid_ in Hk |- *.
  destruct (refuse (se s) op_ uid_) as [err|].
  - split.
    { intros (? & ? & [f Hf]). exfalso.
      destruct Hr as [[_ ?]|[(_ & _ & ?)|(_ & _ & _ & Hn)]]; [done..|congruence]. }
    intros _.
    assert (Herr : 0 < err < 1000) by (destruct Hr as [[-> _]|[[-> _]|[-> _]]]; by vm_compute).
    destruct (refused (set_objs (objs s + 1) s) (objs s + 1)
      (request_of unique uid gid pid Alone) err buf) as (s' & Hs' & Ha); try done.
    exists err, s'. split; [by destruct Hr as [?|[?|(? & ? & ? & _)]]; auto|]. split; [exact Hs'|exact Ha].
  - split; [|by intros []]. intros _. exists k. split; [done|exact Hk].
Qed.
End Gate.

(** A second INIT. *)
Definition ex_again : ll (list (list Z)) :=
  running (enc (in_header 56 FUSE_INIT 9 0 0 0 0) ++ []).

Lemma gate_witness (run_op := fun _ : call => mret tt : M (ll (list (list Z))) unit)
    (none := fun _ _ _ : Z => mret tt : M (ll (list (list Z))) unit) :
  exists err s', fuse_session_process_buf_int recorder run_op (fun _ v => mret v) none none
      (message_buf 56) 0 ex_again = Ok (tt, s') /\
    only_answered recorder 9 err (set_objs 1 ex_again) s' /\ err <> 0.
Proof.
  destruct (proj2 (gate recorder run_op (fun _ v => mret v) none none ex_again (message_buf 56)
    56 FUSE_INIT 9 0 0 0 0 [] ltac:(by split) ltac:(done) (holds_written _ _ _)))
    as (err & s' & Herr & Hrun & Ha).
  { intros [[Hi _] _]. by apply Hi. }
  exists err, s'. split; [exact Hrun|]. split; [exact Ha|].
  by destruct Herr as [[-> _]|[[-> _]|[-> _]]].
Defined.
