(* ===== verification/Workers.v ===== *)
(** * The pool of worker threads (lib/fuse_loop_mt.c, exit_handler of lib/fuse_signals.c)

    The threads of the multi-threaded session loop and the thread that waits for them,
    with their structures, channels and buffers.  Each definition is what a thread does
    between two points at which it sleeps, takes a lock or leaves the pool: the sections
    under [mt->lock] are steps, and so are the single accesses outside of them. *)
From S2P Require Import Prelude PosixLock Types Buf FsOps Entry Dir LLTypes LowLevel LLReply LLData LLOps LLInit LLSession ListHead.
#[local] Open Scope Z_scope.

(** [FUSE_LOOP_MT_V2_IDENTIFIER] and the defaults. *)
Definition FUSE_LOOP_MT_V2_IDENTIFIER : Z := 2 ^ 31 - 1 - 2.
Definition FUSE_LOOP_MT_DEF_CLONE_FD : Z := 0.
Definition FUSE_LOOP_MT_DEF_MAX_THREADS : Z := 10.
Definition FUSE_LOOP_MT_DEF_IDLE_THREADS : Z := -1.
Definition FUSE_LOOP_MT_MAX_THREADS : Z := 100 * 1000.

(** [struct fuse_loop_config], and [struct fuse_loop_config_v1] of older programs. *)
Record fuse_loop_config : Type := mk_config {
  version_id : Z; cfg_clone_fd : Z; max_idle_threads : Z; cfg_max_threads : Z;
}.
Record fuse_loop_config_v1 : Type := mk_config_v1 { v1_clone_fd : Z; v1_max_idle_threads : Z }.

(** [struct fuse_worker].  Its [prev] and [next] are in the links of the pool; of its
    buffer the address, the flags and the opcode of the message in it matter. *)
Record fuse_worker : Type := mk_worker {
  thread_id : Z; w_mem : Z; w_flags : Z; w_opcode : Z; w_ch : Z;
}.
Definition worker0 : fuse_worker := mk_worker 0 0 0 0 0.
Definition set_thread_id (v : Z) (w : fuse_worker) : fuse_worker :=
  mk_worker v (w_mem w) (w_flags w) (w_opcode w) (w_ch w).
Definition set_w_mem (v : Z) (w : fuse_worker) : fuse_worker :=
  mk_worker (thread_id w) v (w_flags w) (w_opcode w) (w_ch w).
Definition set_w_message (flags opcode : Z) (w : fuse_worker) : fuse_worker :=
  mk_worker (thread_id w) (w_mem w) flags opcode (w_ch w).
Definition set_w_ch (v : Z) (w : fuse_worker) : fuse_worker :=
  mk_worker (thread_id w) (w_mem w) (w_flags w) (w_opcode w) v.

(** [struct fuse_mt]; its [main] is the worker at the address [main_worker]. *)
Record fuse_mt : Type := mk_mt {
  mt_locked : bool; numworker : Z; numavail : Z; finish : Z; exit : bool;
  mt_error : Z; clone_fd : Z; max_idle : Z; max_threads : Z;
}.
Definition main_worker : Z := -1.
Definition set_mt_locked (v : bool) (m : fuse_mt) : fuse_mt :=
  mk_mt v (numworker m) (numavail m) (finish m) (exit m) (mt_error m) (clone_fd m)
    (max_idle m) (max_threads m).
Definition set_numworker (v : Z) (m : fuse_mt) : fuse_mt :=
  mk_mt (mt_locked m) v (numavail m) (finish m) (exit m) (mt_error m) (clone_fd m)
    (max_idle m) (max_threads m).
Definition set_numavail (v : Z) (m : fuse_mt) : fuse_mt :=
  mk_mt (mt_locked m) (numworker m) v (finish m) (exit m) (mt_error m) (clone_fd m)
    (max_idle m) (max_threads m).
Definition set_finish (v : Z) (m : fuse_mt) : fuse_mt :=
  mk_mt (mt_locked m) (numworker m) (numavail m) v (exit m) (mt_error m) (clone_fd m)
    (max_idle m) (max_threads m).
Definition set_exit (v : bool) (m : fuse_mt) : fuse_mt :=
  mk_mt (mt_locked m) (numworker m) (numavail m) (finish m) v (mt_error m) (clone_fd m)
    (max_idle m) (max_threads m).
Definition set_mt_error (v : Z) (m : fuse_mt) : fuse_mt :=
  mk_mt (mt_locked m) (numworker m) (numavail m) (finish m) (exit m) v (clone_fd m)
    (max_idle m) (max_threads m).
Definition set_clone_fd (v : Z) (m : fuse_mt) : fuse_mt :=
  mk_mt (mt_locked m) (numworker m) (numavail m) (finish m) (exit m) (mt_error m) v
    (max_idle m) (max_threads m).

(** Where a worker thread is in [fuse_do_work]. *)
Inductive point : Type :=
| Checking                      (* at the test of the loop *)
| Receiving                     (* in fuse_session_receive_buf_int *)
| Failing (res : Z)             (* the session was ended, the error is not stored *)
| Got                           (* a message was received *)
| Processing (isforget : bool)  (* in fuse_session_process_buf_int *)
| Leaving                       (* out of the pool *)
| Posting                       (* out of the loop *)
| Ended.

#[global] Instance point_eq_dec : EqDecision point.
Proof. solve_decision. Defined.

(** A thread, with the argument it was started with and whether it was cancelled. *)
Record thread : Type := mk_thread { t_worker : Z; t_at : point; t_cancel : bool }.
Definition set_at (p : point) (t : thread) : thread := mk_thread (t_worker t) p (t_cancel t).
Definition set_cancel (t : thread) : thread := mk_thread (t_worker t) (t_at t) true.

(** Where the thread that called the loop is, with the configurations that are freed when
    the call returns. *)
Inductive main_at : Type :=
| Outside (result : option Z)
| Testing (created after : Z)
| Sleeping (created after : Z)
| Joining (created after : Z).

(** The pool, and the session and objects it shares with the rest of the library. *)
Record pool (K : Type) : Type := mk_pool {
  low : ll K;
  mt : option fuse_mt;
  links : gmap Z ListHead.list_head;
  workers : gmap Z fuse_worker;
  threads : gmap Z thread;
  bufs : gset Z;
  configs : gmap Z fuse_loop_config;
  main : main_at;
}.
Arguments mk_pool {K}. Arguments low {K}. Arguments mt {K}. Arguments links {K}.
Arguments workers {K}. Arguments threads {K}. Arguments bufs {K}.
Arguments configs {K}. Arguments main {K}.

Definition set_low {K} (v : ll K) (s : pool K) : pool K :=
  mk_pool v (mt s) (links s) (workers s) (threads s) (bufs s) (configs s) (main s).
Definition set_mt {K} (v : option fuse_mt) (s : pool K) : pool K :=
  mk_pool (low s) v (links s) (workers s) (threads s) (bufs s) (configs s) (main s).
Definition set_links {K} (v : gmap Z ListHead.list_head) (s : pool K) : pool K :=
  mk_pool (low s) (mt s) v (workers s) (threads s) (bufs s) (configs s) (main s).
Definition set_workers {K} (v : gmap Z fuse_worker) (s : pool K) : pool K :=
  mk_pool (low s) (mt s) (links s) v (threads s) (bufs s) (configs s) (main s).
Definition set_threads {K} (v : gmap Z thread) (s : pool K) : pool K :=
  mk_pool (low s) (mt s) (links s) (workers s) v (bufs s) (configs s) (main s).
Definition set_bufs {K} (v : gset Z) (s : pool K) : pool K :=
  mk_pool (low s) (mt s) (links s) (workers s) (threads s) v (configs s) (main s).
Definition set_configs {K} (v : gmap Z fuse_loop_config) (s : pool K) : pool K :=
  mk_pool (low s) (mt s) (links s) (workers s) (threads s) (bufs s) v (main s).
Definition set_main {K} (v : main_at) (s : pool K) : pool K :=
  mk_pool (low s) (mt s) (links s) (workers s) (threads s) (bufs s) (configs s) v.

(** The calls the pool makes of the system: opening the device, the ioctl that clones
    its descriptor, and whether a thread could be created. *)
Record system (K : Type) : Type := mk_system {
  open_dev : K -> Z * K;
  clone_ioctl : Z -> Z -> K -> Z * K;
  create_thread : K -> bool * K;
}.
Arguments open_dev {K}. Arguments clone_ioctl {K}. Arguments create_thread {K}.

Section Workers.
Context {K : Type} (h : host K) (sy : system K).
#[local] Abbreviation P := (M (pool K)).

(** ** Access to the state *)
Definition liftLow {A} (m : M (ll K) A) : P A := fun s =>
  match m (low s) with
  | Ok (a, l) => Ok (a, set_low l s)
  | Crash c => Crash c
  end.
Definition liftLinks {A} (m : M (gmap Z ListHead.list_head) A) : P A := fun s =>
  match m (links s) with
  | Ok (a, l) => Ok (a, set_links l s)
  | Crash c => Crash c
  end.
Definition syscall {A} (f : K -> A * K) : P A := liftLow (liftS (Buf.call f)).
Definition load_mt : P fuse_mt := s ← getM; derefM (mt s).
Definition update_mt (g : fuse_mt -> fuse_mt) : P unit :=
  m ← load_mt; modifyM (set_mt (Some (g m))).
Definition load_worker (w : Z) : P fuse_worker := s ← getM; derefM (workers s !! w).
Definition update_worker (w : Z) (g : fuse_worker -> fuse_worker) : P unit :=
  x ← load_worker w; modifyM (fun s => set_workers (<[w := g x]> (workers s)) s).
Definition load_thread (i : Z) : P thread := s ← getM; derefM (threads s !! i).
Definition update_thread (i : Z) (g : thread -> thread) : P unit :=
  t ← load_thread i; modifyM (fun s => set_threads (<[i := g t]> (threads s)) s).
Definition go (i : Z) (p : point) : P unit := update_thread i (set_at p).
Definition load_config (c : Z) : P fuse_loop_config := s ← getM; derefM (configs s !! c).
Definition update_config (c : Z) (g : fuse_loop_config -> fuse_loop_config) : P unit :=
  x ← load_config c; modifyM (fun s => set_configs (<[c := g x]> (configs s)) s).

Definition lock_mt : P unit :=
  m ← load_mt;
  if mt_locked m then crashM Block else update_mt (set_mt_locked true).
Definition unlock_mt : P unit :=
  m ← load_mt;
  assertM (mt_locked m);;
  update_mt (set_mt_locked false).

(** [free] of a buffer, of a worker and of a configuration. *)
Definition free_buf (a : Z) : P unit :=
  if a =? 0 then mret tt
  else
    s ← getM;
    if decide (a ∈ bufs s) then putM (set_bufs (bufs s ∖ {[a]}) s) else crashM BadAccess.
Definition free_worker (w : Z) : P unit :=
  load_worker w;;
  modifyM (fun s => set_workers (delete w (workers s)) (set_links (delete w (links s)) s)).
Definition fuse_loop_cfg_destroy (config : Z) : P unit :=
  if config =? 0 then mret tt
  else
    load_config config;;
    modifyM (fun s => set_configs (delete config (configs s)) s).

(** ** The list of workers *)
Definition list_add_worker (w next : Z) : P unit :=
  n ← liftLinks (ListHead.load next);
  let prev := ListHead.prev n in
  liftLinks (ListHead.store_next w next);;
  liftLinks (ListHead.store_prev w prev);;
  liftLinks (ListHead.store_next prev w);;
  liftLinks (ListHead.store_prev next w).

Definition list_del_worker (w : Z) : P unit :=
  x ← liftLinks (ListHead.load w);
  let prev := ListHead.prev x in
  let next := ListHead.next x in
  liftLinks (ListHead.store_next prev next);;
  liftLinks (ListHead.store_prev next prev).

(** ** Starting threads *)
Definition fuse_start_thread (w : Z) : P Z :=
  ok ← syscall (create_thread sy);
  if negb ok then mret (-1)
  else
    i ← liftLow new_obj;
    modifyM (fun s => set_threads (<[i := mk_thread w Checking false]> (threads s)) s);;
    update_worker w (set_thread_id i);;
    mret 0.

Definition fuse_clone_chan : P Z :=
  clonefd ← syscall (open_dev sy);
  if clonefd =? -1 then mret 0
  else
    s ← getM;
    let masterfd := se_fd (se (low s)) in
    res ← syscall (clone_ioctl sy clonefd masterfd);
    if res =? -1 then syscall (h_close h clonefd);; mret 0
    else
      newch ← liftLow (fuse_chan_new clonefd);
      (if newch =? 0 then syscall (h_close h clonefd) else mret tt);;
      mret newch.

Definition fuse_loop_start_thread : P Z :=
  ok ← liftLow malloc_ok;
  if negb ok then mret (-1)
  else
    w ← liftLow new_obj;
    modifyM (fun s => set_workers (<[w := worker0]> (workers s))
                        (set_links (<[w := ListHead.mk_head 0 0]> (links s)) s));;
    m ← load_mt;
    (if clone_fd m =? 0 then mret tt
     else
       ch ← fuse_clone_chan;
       update_worker w (set_w_ch ch);;
       if ch =? 0 then update_mt (set_clone_fd 0) else mret tt);;
    res ← fuse_start_thread w;
    if res =? -1 then
      x ← load_worker w;
      liftLow (fuse_chan_put h (w_ch x));;
      free_worker w;;
      mret (-1)
    else
      list_add_worker w main_worker;;
      update_mt (fun m => set_numavail (numavail m + 1) m);;
      update_mt (fun m => set_numworker (numworker m + 1) m);;
      mret 0.

(** ** A worker: the steps of [fuse_do_work] *)

(** The test of the loop. *)
Definition do_work_check (i : Z) : P unit :=
  stop ← liftLow fuse_session_exited;
  go i (if stop : bool then Posting else Receiving).

(** The receive returns [res]; it allocated the buffer if there was none ([alloc]), ended
    the session if the device was gone ([nodev]), and read a message of which [flags] are
    the flags of the buffer and [opcode] is the opcode. *)
Definition do_work_received (i : Z) (alloc nodev : bool) (res flags opcode : Z) : P unit :=
  t ← load_thread i;
  w ← load_worker (t_worker t);
  (if alloc && (w_mem w =? 0) then
     a ← liftLow new_obj;
     modifyM (fun s => set_bufs ({[a]} ∪ bufs s) s);;
     update_worker (t_worker t) (set_w_mem a)
   else mret tt);;
  (if nodev : bool then liftLow fuse_session_exit else mret tt);;
  if res =? - EINTR then go i Checking
  else if res <=? 0 then
    if res <? 0 then liftLow fuse_session_exit;; go i (Failing res)
    else go i Posting
  else
    update_worker (t_worker t) (set_w_message flags opcode);;
    go i Got.

(** The thread is cancelled in the receive. *)
Definition do_work_cancelled (i : Z) (alloc : bool) : P unit :=
  t ← load_thread i;
  w ← load_worker (t_worker t);
  (if alloc && (w_mem w =? 0) then
     a ← liftLow new_obj;
     modifyM (fun s => set_bufs ({[a]} ∪ bufs s) s);;
     update_worker (t_worker t) (set_w_mem a)
   else mret tt);;
  go i Ended.

(** The error of the receive is stored, without the lock. *)
Definition do_work_fail (i res : Z) : P unit :=
  update_mt (set_mt_error res);;
  go i Posting.

Definition is_forget (w : fuse_worker) : bool :=
  negb (Buf.has (w_flags w) Buf.FUSE_BUF_IS_FD) &&
  ((w_opcode w =? FUSE_FORGET) || (w_opcode w =? FUSE_BATCH_FORGET)).

(** From the receive to the processing. *)
Definition do_work_take (i : Z) : P unit :=
  t ← load_thread i;
  lock_mt;;
  m ← load_mt;
  if exit m then unlock_mt;; go i Ended
  else
    w ← load_worker (t_worker t);
    let isforget := is_forget w in
    (if negb isforget then update_mt (fun m => set_numavail (numavail m - 1) m) else mret tt);;
    m ← load_mt;
    (if (numavail m =? 0) && (numworker m <? max_threads m)
     then fuse_loop_start_thread;; mret tt else mret tt);;
    unlock_mt;;
    go i (Processing isforget).

(** After the processing. *)
Definition do_work_done (i : Z) (isforget : bool) : P unit :=
  t ← load_thread i;
  lock_mt;;
  (if negb isforget then update_mt (fun m => set_numavail (numavail m + 1) m) else mret tt);;
  m ← load_mt;
  if negb (max_idle m =? -1) && (max_idle m <? numavail m) && (1 <? numworker m) then
    if exit m then unlock_mt;; go i Ended
    else
      list_del_worker (t_worker t);;
      update_mt (fun m => set_numavail (numavail m - 1) m);;
      update_mt (fun m => set_numworker (numworker m - 1) m);;
      unlock_mt;;
      go i Leaving
  else unlock_mt;; go i Checking.

(** A worker that has left the pool frees what it has; a detached thread that returns is
    gone. *)
Definition do_work_leave (i : Z) : P unit :=
  t ← load_thread i;
  w ← load_worker (t_worker t);
  load_thread (thread_id w);;
  free_buf (w_mem w);;
  liftLow (fuse_chan_put h (w_ch w));;
  free_worker (t_worker t);;
  modifyM (fun s => set_threads (delete i (threads s)) s).

Definition do_work_post (i : Z) : P unit :=
  update_mt (fun m => set_finish (finish m + 1) m);;
  go i Ended.

(** ** Configurations *)
Definition fuse_loop_cfg_create : P Z :=
  ok ← liftLow malloc_ok;
  if negb ok then mret 0
  else
    c ← liftLow new_obj;
    modifyM (fun s => set_configs (<[c := mk_config FUSE_LOOP_MT_V2_IDENTIFIER
      FUSE_LOOP_MT_DEF_CLONE_FD FUSE_LOOP_MT_DEF_IDLE_THREADS
      FUSE_LOOP_MT_DEF_MAX_THREADS]> (configs s)) s);;
    mret c.

Definition fuse_loop_cfg_verify (config : Z) : P Z :=
  c ← load_config config;
  if negb (version_id c =? FUSE_LOOP_MT_V2_IDENTIFIER) then mret (- Buf.EINVAL) else mret 0.

Definition fuse_loop_cfg_set_idle_threads (config value : Z) : P unit :=
  if FUSE_LOOP_MT_MAX_THREADS <? value then mret tt
  else
    update_config config (fun c =>
      mk_config (version_id c) (cfg_clone_fd c) (to_int value) (cfg_max_threads c)).

Definition fuse_loop_cfg_set_max_threads (config value : Z) : P unit :=
  update_config config (fun c =>
    mk_config (version_id c) (cfg_clone_fd c) (max_idle_threads c) value).

Definition fuse_loop_cfg_set_clone_fd (config value : Z) : P unit :=
  update_config config (fun c =>
    mk_config (version_id c) (to_int value) (max_idle_threads c) (cfg_max_threads c)).

Definition fuse_loop_cfg_convert (config : Z) (v1_conf : fuse_loop_config_v1) : P unit :=
  fuse_loop_cfg_set_idle_threads config (v1_max_idle_threads v1_conf);;
  fuse_loop_cfg_set_clone_fd config (u32 (v1_clone_fd v1_conf)).

(** ** The thread that called the loop *)

(** The end of [fuse_session_loop_mt_312], and of the function that called it. *)
Definition loop_mt_return (created after err : Z) : P unit :=
  m ← load_mt;
  assertM (negb (mt_locked m));;
  modifyM (fun s => set_mt None (set_links (delete main_worker (links s)) s));;
  s ← getM;
  let e := se_error (se (low s)) in
  let err := if negb (e =? 0) then e else err in
  liftLow fuse_session_reset;;
  fuse_loop_cfg_destroy created;;
  fuse_loop_cfg_destroy after;;
  modifyM (set_main (Outside (Some err))).

(** Up to the first sleep; [after] is what the caller frees when it returns. *)
Definition fuse_session_loop_mt_312 (config after : Z) : P unit :=
  err ← (if config =? 0 then mret 0 else fuse_loop_cfg_verify config);
  if negb (err =? 0) then
    fuse_loop_cfg_destroy after;;
    modifyM (set_main (Outside (Some err)))
  else
    created ← (if config =? 0 then fuse_loop_cfg_create else mret 0);
    let config := if config =? 0 then created else config in
    c ← load_config config;
    modifyM (fun s => set_mt
      (Some (mk_mt false 0 0 0 false 0 (cfg_clone_fd c) (max_idle_threads c)
               (to_int (cfg_max_threads c))))
      (set_links (<[main_worker := ListHead.mk_head main_worker main_worker]> (links s)) s));;
    lock_mt;;
    err ← fuse_loop_start_thread;
    unlock_mt;;
    if err =? 0 then modifyM (set_main (Testing created after))
    else loop_mt_return created after err.

Definition fuse_session_loop_mt_32 (config_v1 : option fuse_loop_config_v1) : P unit :=
  match config_v1 with
  | None => fuse_session_loop_mt_312 0 0
  | Some v1 =>
    config ← fuse_loop_cfg_create;
    if config =? 0 then modifyM (set_main (Outside (Some ENOMEM)))
    else fuse_loop_cfg_convert config v1;; fuse_session_loop_mt_312 config config
  end.

Definition fuse_session_loop_mt_31 (clone_fd : Z) : P unit :=
  config ← fuse_loop_cfg_create;
  (if 0 <? clone_fd then fuse_loop_cfg_set_clone_fd config clone_fd else mret tt);;
  fuse_session_loop_mt_312 config 0.

(** [pthread_cancel] for every worker of the list from [w] on. *)
Fixpoint cancel_workers (fuel : nat) (w : Z) : P unit :=
  if w =? main_worker then mret tt
  else
    match fuel with
    | O => crashM OutOfFuel
    | S fuel =>
      x ← load_worker w;
      update_thread (thread_id x) set_cancel;;
      n ← liftLinks (ListHead.load w);
      cancel_workers fuel (ListHead.next n)
    end.

(** The test of the loop that waits, and the section after it. *)
Definition main_test (created after : Z) : P unit :=
  stop ← liftLow fuse_session_exited;
  if (stop : bool) then
    lock_mt;;
    s ← getM;
    n ← liftLinks (ListHead.load main_worker);
    cancel_workers (size (links s)) (ListHead.next n);;
    update_mt (set_exit true);;
    unlock_mt;;
    modifyM (set_main (Joining created after))
  else modifyM (set_main (Sleeping created after)).

(** [sem_wait] returns. *)
Definition main_wake (created after : Z) : P unit :=
  m ← load_mt;
  if finish m <=? 0 then crashM Block
  else
    update_mt (fun m => set_finish (finish m - 1) m);;
    modifyM (set_main (Testing created after)).

Definition fuse_join_worker (w : Z) : P unit :=
  x ← load_worker w;
  t ← load_thread (thread_id x);
  if decide (t_at t = Ended) then
    modifyM (fun s => set_threads (delete (thread_id x) (threads s)) s);;
    lock_mt;;
    list_del_worker w;;
    unlock_mt;;
    free_buf (w_mem x);;
    liftLow (fuse_chan_put h (w_ch x));;
    free_worker w
  else crashM Block.

Definition main_join (created after : Z) : P unit :=
  n ← liftLinks (ListHead.load main_worker);
  if ListHead.next n =? main_worker then
    m ← load_mt;
    loop_mt_return created after (mt_error m)
  else fuse_join_worker (ListHead.next n).

Definition main_step : P unit :=
  s ← getM;
  match main s with
  | Outside _ => mret tt
  | Testing c a => main_test c a
  | Sleeping c a => main_wake c a
  | Joining c a => main_join c a
  end.

(** The handler of SIGHUP, SIGINT and SIGTERM. *)
Definition exit_handler (sig : Z) : P unit :=
  liftLow fuse_session_exit;;
  assertM (0 <? sig);;
  liftLow (modify_se (set_se_error sig)).

(** A signal reaches the thread that waits: workers block them. *)
Definition signalled (sig : option Z) : P unit :=
  (match sig with Some sig => exit_handler sig | None => mret tt end);;
  s ← getM;
  match main s with
  | Sleeping c a => modifyM (set_main (Testing c a))
  | _ => mret tt
  end.
End Workers.
