(* ===== verification/WorkersFacts.v ===== *)
(** * Channels, links and structures of the pool (proofs about Workers) *)
From S2P Require Import Prelude PosixLock Types Buf FsOps Entry Dir LLTypes LowLevel LLReply LLData LLOps LLInit LLSession LLFacts LLRequests ListHead Workers.
#[local] Open Scope Z_scope.

(** ** Sums over a map *)
Section Total.
Context {A : Type} (f : A -> Z).
Implicit Types (m : gmap Z A).

Definition total m : Z := map_fold (fun _ x n => f x + n) 0 m.

Lemma total_insert m i x : m !! i = None -> total (<[i := x]> m) = f x + total m.
Proof. intros Hi. unfold total. by rewrite map_fold_insert_L by (done || (intros; lia)). Qed.

Lemma total_delete m i x : m !! i = Some x -> total (delete i m) = total m - f x.
Proof.
  intros Hi. unfold total. rewrite (map_fold_delete_L _ 0 i x m); [lia|intros; lia|done].
Qed.

Lemma total_replace m i x y : m !! i = Some x -> total (<[i := y]> m) = total m - f x + f y.
Proof.
  intros Hi. rewrite <- insert_delete_eq, total_insert by apply lookup_delete_eq.
  rewrite (total_delete m i x Hi). lia.
Qed.

Lemma total_same m i x y : m !! i = Some x -> f y = f x -> total (<[i := y]> m) = total m.
Proof. intros Hi Hf. rewrite (total_replace m i x y Hi). lia. Qed.

Lemma total_nonneg m : (forall i x, m !! i = Some x -> 0 <= f x) -> 0 <= total m.
Proof.
  induction m as [|i x m Hi IH] using map_ind; intros H; [done|].
  rewrite total_insert by done. assert (0 <= f x) by (apply (H i); by simplify_map_eq).
  assert (0 <= total m); [|lia]. apply IH. intros j y Hj. apply (H j).
  rewrite lookup_insert_ne; [done|]. by intros ->; simplify_map_eq.
Qed.

Lemma total_ge m i x : (forall i x, m !! i = Some x -> 0 <= f x) -> m !! i = Some x -> f x <= total m.
Proof.
  intros H Hi. pose proof (total_delete m i x Hi) as Hd.
  assert (0 <= total (delete i m)); [|lia]. apply total_nonneg. intros j y Hj.
  apply lookup_delete_Some in Hj as [_ Hj]. by apply (H j).
Qed.

Lemma total_pos m : 0 < total m -> exists i x, m !! i = Some x /\ 0 < f x.
Proof.
  induction m as [|i x m Hi IH] using map_ind; [done|].
  rewrite total_insert by done. intros H. destruct (decide (0 < f x)) as [Hx|Hx].
  - exists i, x. by simplify_map_eq.
  - destruct IH as (j & y & Hj & Hy); [lia|]. exists j, y. split; [|done].
    rewrite lookup_insert_ne; [done|]. by intros ->; simplify_map_eq.
Qed.
End Total.

(** ** The session and its channels *)
Section Low.
Context {K : Type} (h : host K).
Implicit Types (l : ll K) (held : Z -> Z).

(** One more or less reference on [ch] that is not held by a request. *)
Definition bump held (ch d : Z) : Z -> Z :=
  fun x => held x + if (x =? ch) && negb (ch =? 0) then d else 0.

(** The session is the same, and objects have only been added. *)
Definition quiet l l' : Prop := se l' = se l /\ objs l <= objs l'.

Lemma quiet_low_refl l : quiet l l.
Proof. split; [done|lia]. Qed.

Lemma quiet_low_trans l l1 l2 : quiet l l1 -> quiet l1 l2 -> quiet l l2.
Proof. intros [H1 ?] [H2 ?]. split; [by rewrite H2|lia]. Qed.

Lemma session_wf_ext held held' l : (forall ch, held' ch = held ch) -> session_wf held l ->
  session_wf held' l.
Proof.
  intros He [[] Ha]. split; [|done]. split; try done.
  - intros ch c Hc. rewrite He. eauto.
  - intros ch. rewrite He. eauto.
  - intros ch. rewrite He. eauto.
Qed.

Lemma session_wf_objs held l o : session_wf held l -> objs l <= o -> session_wf held (set_objs o l).
Proof.
  intros [[] Ha] Ho. split; [|done]. split; try done; cbn.
  - intros r q Hr. destruct (rw_req r q Hr) as [[? ?] ?]. split; [lia|done].
  - intros ch c Hc. destruct (rw_ctr ch c Hc) as [[? ?] ?]. split; [lia|done].
  - lia.
Qed.

Lemma session_wf_oks held l o : session_wf held l -> session_wf held (set_oks o l).
Proof. by intros [[] Ha]. Qed.

Lemma session_wf_sys held l b : session_wf held l -> session_wf held (set_sysm b l).
Proof. by intros [[] Ha]. Qed.

(** What the pool sets in the session does not matter to requests. *)
Lemma session_wf_se held l b n : session_wf held l ->
  session_wf held (set_se (set_se_error n (set_exited b (se l))) l).
Proof. by intros [[] Ha]. Qed.

Lemma session_wf_exited held l b : session_wf held l ->
  session_wf held (set_se (set_exited b (se l)) l).
Proof. by intros [[] Ha]. Qed.

Lemma session_wf_error held l n : session_wf held l ->
  session_wf held (set_se (set_se_error n (se l)) l).
Proof. by intros [[] Ha]. Qed.

Lemma held_objs held l ch : session_wf held l -> 0 < held ch -> 0 < ch <= objs l.
Proof.
  intros [Hw _] Hch. destruct (rw_kept _ _ _ _ Hw ch Hch) as [c Hc].
  by destruct (rw_ctr _ _ _ _ Hw ch c Hc).
Qed.

Lemma malloc_ok_runs held l : session_wf held l ->
  runs malloc_ok l (fun ok l' => session_wf held l' /\ quiet l l' /\
    ((ok = true /\ hd true (oks l) = true) \/ (ok = false /\ hd true (oks l) = false))).
Proof.
  intros Hw. unfold malloc_ok. mstep. destruct (oks l) as [|b o].
  - apply runs_ret. split; [done|]. split; [apply quiet_low_refl|by left].
  - mstep. apply runs_ret. split; [by apply session_wf_oks|]. split; [split; cbn; [done|lia]|].
    destruct b; [by left|by right].
Qed.

Lemma new_obj_runs held l : session_wf held l ->
  runs new_obj l (fun a l' => session_wf held l' /\ se l' = se l /\ a = objs l + 1 /\
    objs l' = a).
Proof.
  intros Hw. unfold new_obj. mstep. mstep. apply runs_ret.
  split; [apply session_wf_objs; [done|lia]|done].
Qed.

Lemma call_runs {A} held l (f : K -> A * K) : session_wf held l ->
  runs (liftS (Buf.call f)) l (fun _ l' => session_wf held l' /\ quiet l l').
Proof.
  intros Hw. unfold liftS, Buf.call, runs, mbind, M_bind, getM, putM.
  destruct (f (Buf.kern (sysm l))) as [r k]. eexists _, _. split; [done|].
  split; [by apply session_wf_sys|by split].
Qed.

(** A fresh channel is held by the one who made it. *)
Lemma users_none ch m : (forall r q, m !! r = Some q -> r_ch q <> ch) -> users ch m = 0.
Proof.
  intros H. unfold users. rewrite (map_empty_filter_2 _ m); [by rewrite map_size_empty|].
  intros r q Hr. by apply (H r).
Qed.

Lemma chan_fresh held l : session_wf held l ->
  chans l !! (objs l + 1) = None /\ held (objs l + 1) = 0 /\ users (objs l + 1) (reqs l) = 0.
Proof.
  intros [W _]. assert (Hno : chans l !! (objs l + 1) = None).
  { destruct (chans l !! (objs l + 1)) as [c|] eqn:Hc; [|done].
    destruct (rw_ctr _ _ _ _ W _ _ Hc). lia. }
  split_and!; [done| |].
  - destruct (decide (0 < held (objs l + 1))) as [Hh|Hh].
    + destruct (rw_kept _ _ _ _ W _ Hh). congruence.
    + pose proof (rw_held _ _ _ _ W (objs l + 1)). lia.
  - apply users_none. intros r q Hr Hq. pose proof (rw_objs _ _ _ _ W).
    destruct (rw_chan _ _ _ _ W r q Hr) as [c Hc]; [lia|]. congruence.
Qed.

Lemma chan_add_wf held l fd : session_wf held l ->
  session_wf (bump held (objs l + 1) 1)
    (set_chans (<[objs l + 1 := mk_chan 1 fd]> (chans l)) (set_objs (objs l + 1) l)).
Proof.
  intros Hw. destruct (chan_fresh held l Hw) as (Hno & Hh & Hu). destruct Hw as [[] Ha].
  assert (Hb : forall ch, bump held (objs l + 1) 1 ch = held ch + if decide (ch = objs l + 1) then 1 else 0).
  { intros ch. unfold bump. rewrite (proj2 (Z.eqb_neq (objs l + 1) 0)) by lia.
    case (Z.eqb_spec ch (objs l + 1)) as [->|]; [by rewrite decide_True|by rewrite decide_False]. }
  split; [|done]. split; try done; cbn.
  - intros r q Hr. destruct (rw_req r q Hr) as [[? ?] ?]. split; [lia|done].
  - intros r q Hr Hq. apply lookup_insert_is_Some. destruct (decide (objs l + 1 = r_ch q)); eauto.
  - intros ch c Hc. rewrite Hb. apply lookup_insert_Some in Hc as [[<- <-]|[Hne Hc]].
    + rewrite decide_True by done. cbn. lia.
    + rewrite decide_False by done. destruct (rw_ctr ch c Hc). lia.
  - intros ch. rewrite Hb. specialize (rw_held ch). case_decide; lia.
  - intros ch Hc. rewrite Hb in Hc. apply lookup_insert_is_Some.
    destruct (decide (objs l + 1 = ch)) as [|Hne]; [by left|right]. split; [done|].
    apply rw_kept. rewrite decide_False in Hc by done. lia.
  - lia.
Qed.

Lemma chan_new_runs held l fd : session_wf held l ->
  runs (fuse_chan_new fd) l (fun ch l' => quiet l l' /\ session_wf (bump held ch 1) l').
Proof.
  intros Hw. unfold fuse_chan_new. eapply runs_bind; [by apply malloc_ok_runs|].
  intros [] l1 (Hw1 & Hq1 & _); simpl.
  - unfold new_obj. msteps. apply runs_ret. split; [split; cbn; [apply Hq1|destruct Hq1; lia]|].
    by apply (chan_add_wf held l1 fd).
  - apply runs_ret. split; [done|]. eapply session_wf_ext; [|done]. intros x. unfold bump.
    rewrite andb_false_r. lia.
Qed.

(** A reference that is not a request's is given back. *)
Lemma put_ok held l ch : session_wf held l -> ch = 0 \/ 0 < held ch ->
  session_wf (bump held ch (-1)) (after_put h ch l) /\ quiet l (after_put h ch l).
Proof.
  intros Hw Hch. destruct (after_put_same h ch l) as (Hr & Hs & Ho & _ & _).
  split; [|split; [done|lia]]. destruct Hw as [W Ha].
  split; [|intros x y; unfold alone; rewrite Hr; apply Ha].
  assert (Hlk : forall x, chans (after_put h ch l) !! x =
    if decide (x = ch /\ ch <> 0) then c ← chans l !! ch;
      if ch_ctr c - 1 =? 0 then None else Some (mk_chan (ch_ctr c - 1) (ch_fd c))
    else chans l !! x).
  { intros x. unfold after_put. case (Z.eqb_spec ch 0) as [->|Hne].
    - by rewrite decide_False by (by intros [_ ?]).
    - destruct (chans l !! ch) as [c|] eqn:Hc; cbn.
      + case (ch_ctr c - 1 =? 0); cbn; case_decide as Hx.
        * destruct Hx as [-> _]. by rewrite lookup_delete_eq.
        * rewrite lookup_delete_ne; [done|]. intros ->. by apply Hx.
        * destruct Hx as [-> _]. by rewrite lookup_insert_eq.
        * rewrite lookup_insert_ne; [done|]. intros ->. by apply Hx.
      + case_decide as Hx; [|done]. by destruct Hx as [-> _]. }
  assert (Hb : forall x, bump held ch (-1) x = held x - if decide (x = ch /\ ch <> 0) then 1 else 0).
  { intros x. unfold bump. case (Z.eqb_spec x ch) as [->|]; cbn.
    - case (Z.eqb_spec ch 0) as [->|]; cbn.
      + rewrite decide_False by (by intros [_ ?]). lia.
      + rewrite decide_True by done. lia.
    - rewrite decide_False by tauto. lia. }
  assert (Hk : forall x, 0 < bump held ch (-1) x + users x (reqs l) -> is_Some (chans l !! x) ->
    is_Some (chans (after_put h ch l) !! x)).
  { intros x Hx [c Hc]. rewrite Hlk. rewrite Hb in Hx. destruct (rw_ctr _ _ _ _ W x c Hc) as [_ Hctr].
    destruct (decide (x = ch /\ ch <> 0)) as [Hd|Hd]; [|by rewrite Hc]. destruct Hd as [-> Hne]. rewrite Hc. cbn.
    case (Z.eqb_spec (ch_ctr c - 1) 0); [lia|eauto]. }
  assert (Hu : forall x, 0 <= users x (reqs l)) by (intros x; unfold users; lia).
  assert (Hp : forall x, 0 <= bump held ch (-1) x).
  { intros x. rewrite Hb. pose proof (rw_held _ _ _ _ W x) as Hx.
    destruct (decide (x = ch /\ ch <> 0)) as [Hd|Hd]; [|lia].
    destruct Hd as [-> ?]. destruct Hch as [->|]; [done|lia]. }
  destruct W. split; rewrite ?Hr, ?Hs, ?Ho; try done.
  - intros r q Hq Hne. apply Hk; [|by apply (rw_chan r)].
    pose proof (users_pos (r_ch q) _ r q Hq eq_refl). specialize (Hp (r_ch q)). lia.
  - intros x c Hc. rewrite Hlk in Hc. rewrite Hb.
    destruct (decide (x = ch /\ ch <> 0)) as [Hd|Hd]; [|destruct (rw_ctr x c Hc); lia].
    destruct Hd as [-> Hne]. destruct (chans l !! ch) as [c0|] eqn:Hc0; [|done]. cbn in Hc.
    destruct (rw_ctr ch c0 Hc0) as [? Hct]. revert Hc. case (Z.eqb_spec (ch_ctr c0 - 1) 0); [done|].
    intros _ [= <-]. cbn. lia.
  - intros x Hx. apply Hk; [specialize (Hu x); lia|]. apply rw_kept.
    rewrite Hb in Hx. destruct (decide (x = ch /\ ch <> 0)); lia.
Qed.

Lemma chan_put_runs held l ch : session_wf held l -> ch = 0 \/ 0 < held ch ->
  runs (fuse_chan_put h ch) l (fun _ l' => session_wf (bump held ch (-1)) l' /\ quiet l l').
Proof.
  intros Hw Hch. exists tt, (after_put h ch l). split; [|by apply put_ok].
  apply chan_put_Ok. intros Hne. destruct Hch as [|Hch]; [done|].
  destruct Hw as [W _]. by apply (rw_kept _ _ _ _ W).
Qed.
End Low.

(** ** Steps on a part of the state *)
Section Lift.
Context {K : Type} (h : host K) (sy : system K).
Implicit Types (s : pool K) (lk : gmap Z ListHead.list_head).

Lemma liftLow_runs {A} (m : M (ll K) A) s (Q : A -> pool K -> Prop) :
  runs m (low s) (fun a l => Q a (set_low l s)) -> runs (liftLow m) s Q.
Proof. intros (a & l & Hm & HQ). exists a, (set_low l s). unfold liftLow. by rewrite Hm. Qed.

Lemma liftLinks_runs {A} (m : M (gmap Z ListHead.list_head) A) s (Q : A -> pool K -> Prop) :
  runs m (links s) (fun a l => Q a (set_links l s)) -> runs (liftLinks m) s Q.
Proof. intros (a & l & Hm & HQ). exists a, (set_links l s). unfold liftLinks. by rewrite Hm. Qed.

Lemma load_link_bind {B} a x (k : ListHead.list_head -> M (pool K) B) s Q : links s !! a = Some x ->
  runs (k x) s Q -> runs (liftLinks (ListHead.load a) ≫= k) s Q.
Proof.
  intros Ha Hk. eapply runs_Ok_bind; [|exact Hk]. unfold liftLinks, ListHead.load, mbind, M_bind, getM.
  rewrite Ha. by destruct s.
Qed.

(** A store to a link is one of the two kinds of [ListHead]. *)
Lemma store_next_bind {B} a v (k : unit -> M (pool K) B) s Q : is_Some (links s !! a) ->
  (forall lk, ListHead.set_nxt a v (links s) lk -> runs (k tt) (set_links lk s) Q) ->
  runs (liftLinks (ListHead.store_next a v) ≫= k) s Q.
Proof.
  intros Ha Hk. apply (runs_bind _ _ _ (fun _ s' => runs (k tt) s' Q)).
  - apply liftLinks_runs. eapply runs_mono; [by apply ListHead.set_nxt_runs|].
    intros [] lk Hlk. exact (Hk lk Hlk).
  - by intros [] s' H.
Qed.

Lemma store_prev_bind {B} a v (k : unit -> M (pool K) B) s Q : is_Some (links s !! a) ->
  (forall lk, ListHead.set_prv a v (links s) lk -> runs (k tt) (set_links lk s) Q) ->
  runs (liftLinks (ListHead.store_prev a v) ≫= k) s Q.
Proof.
  intros Ha Hk. apply (runs_bind _ _ _ (fun _ s' => runs (k tt) s' Q)).
  - apply liftLinks_runs. eapply runs_mono; [by apply ListHead.set_prv_runs|].
    intros [] lk Hlk. exact (Hk lk Hlk).
  - by intros [] s' H.
Qed.

(** [list_add_worker] puts a worker at the end, [list_del_worker] takes one out. *)
Lemma list_add_worker_runs s head l w : ListHead.is_list (links s) head l -> w ∉ head :: l ->
  is_Some (links s !! w) ->
  runs (list_add_worker w head) s (fun _ s' => exists lk, s' = set_links lk s /\
    ListHead.is_list lk head (l ++ [w]) /\ ListHead.only_at (w :: head :: l) (links s) lk).
Proof.
  intros Hl Hw Hm. destruct (ListHead.list_end_next _ head l Hl) as [Hn Hp].
  assert (HS : exists S1, head :: l = S1 ++ [List.last l head]).
  { destruct l as [|x l] using rev_ind; [by exists []|]. exists (head :: l). by rewrite last_last. }
  destruct HS as [S1 HS]. set (p := List.last l head) in *.
  assert (Hl0 : ListHead.is_list (links s) head (l ++ [])) by by rewrite app_nil_r.
  destruct (ListHead.is_list_near _ head l [] S1 p head [] Hl0 HS eq_refl) as ([Hpin _] & Hmp & Hmh).
  rewrite app_nil_r in Hpin.
  unfold list_add_worker. eapply load_link_bind; [by apply ListHead.nxt_prv|]. cbn.
  apply store_next_bind; [done|]. intros k1 E1. apply store_prev_bind; [by eapply ListHead.set_nxt_mapped|].
  intros k2 E2. apply store_next_bind.
  { eapply ListHead.set_prv_mapped; [exact E2|]. by eapply ListHead.set_nxt_mapped. }
  intros k3 E3. apply liftLinks_runs. eapply runs_mono.
  { apply ListHead.set_prv_runs. eapply ListHead.set_nxt_mapped; [exact E3|].
    eapply ListHead.set_prv_mapped; [exact E2|]. by eapply ListHead.set_nxt_mapped. }
  intros [] k4 E4. exists k4. split; [by destruct s|].
  destruct E1 as (E1n & E1p & E1o), E2 as (E2p & E2n & E2o), E3 as (E3n & E3p & E3o), E4 as (E4p & E4n & E4o).
  cbn in *. split; [|intros a Ha; rewrite E4o, E3o, E2o, E1o by set_solver; done].
  eapply (ListHead.is_list_added (links s) k4 head l [] w S1 p head []); [done|by rewrite app_nil_r|done..|].
  assert (w <> head /\ w <> p) as [Hd1 Hd2] by set_solver.
  split; intros b.
  - by rewrite E4n, E3n, E2n, E1n.
  - rewrite E4p, E3p, E2p, E1p. destruct (decide (b = head)) as [->|]; [by rewrite decide_False|done].
Qed.

Lemma list_del_worker_runs s head l1 w l2 : ListHead.is_list (links s) head (l1 ++ w :: l2) ->
  runs (list_del_worker w) s (fun _ s' => exists lk, s' = set_links lk s /\
    ListHead.is_list lk head (l1 ++ l2) /\ ListHead.only_at (head :: l1 ++ l2) (links s) lk).
Proof.
  intros Hl. destruct (ListHead.is_list_skipped _ head l1 w l2 Hl) as
    (p & n & Hx & Hpin & Hnin & Hmp & Hmn & Hd).
  unfold list_del_worker. eapply load_link_bind; [exact Hx|]. cbn.
  apply store_next_bind; [done|]. intros k1 E1. apply liftLinks_runs.
  eapply runs_mono; [apply ListHead.set_prv_runs; by eapply ListHead.set_nxt_mapped|].
  intros [] k2 E2. exists k2. split; [by destruct s|].
  destruct E1 as (E1n & E1p & E1o), E2 as (E2p & E2n & E2o). cbn in *.
  split; [|intros a Ha; rewrite E2o, E1o by set_solver; done].
  apply Hd. split; intros b; [by rewrite E2n, E1n|by rewrite E2p, E1p].
Qed.
End Lift.
