(* ===== verification/WorkersInv.v ===== *)
(** * What holds of the pool whenever its lock is free (proofs about Workers) *)
From S2P Require Import Prelude PosixLock Types Buf FsOps Entry Dir LLTypes LowLevel LLReply LLData LLOps LLInit LLSession LLFacts LLRequests ListHead Workers WorkersFacts.
#[local] Open Scope Z_scope.

Section Steps.
Context {K : Type} (h : host K) (sy : system K).
#[local] Abbreviation P := (M (pool K)).
Implicit Types (s : pool K) (m : fuse_mt) (w : fuse_worker) (t : thread) (held : Z -> Z).

(** ** Accesses *)
Lemma load_mt_bind {B} (k : fuse_mt -> P B) s m Q : mt s = Some m -> runs (k m) s Q ->
  runs (load_mt ≫= k) s Q.
Proof. intros Hm Hk. unfold load_mt. msteps. exact Hk. Qed.

Lemma update_mt_bind {B} g (k : unit -> P B) s m Q : mt s = Some m ->
  runs (k tt) (set_mt (Some (g m)) s) Q -> runs (update_mt g ≫= k) s Q.
Proof.
  intros Hm Hk. unfold update_mt. apply runs_bind_assoc. eapply load_mt_bind; [exact Hm|]. by mstep.
Qed.

Lemma lock_mt_bind {B} (k : unit -> P B) s m Q : mt s = Some m -> mt_locked m = false ->
  runs (k tt) (set_mt (Some (set_mt_locked true m)) s) Q -> runs (lock_mt ≫= k) s Q.
Proof.
  intros Hm Hl Hk. unfold lock_mt. apply runs_bind_assoc. eapply load_mt_bind; [exact Hm|].
  rewrite Hl. by eapply update_mt_bind.
Qed.

Lemma unlock_mt_bind {B} (k : unit -> P B) s m Q : mt s = Some m -> mt_locked m = true ->
  runs (k tt) (set_mt (Some (set_mt_locked false m)) s) Q -> runs (unlock_mt ≫= k) s Q.
Proof.
  intros Hm Hl Hk. unfold unlock_mt. apply runs_bind_assoc. eapply load_mt_bind; [exact Hm|].
  rewrite Hl. apply runs_bind_assoc. apply runs_ret_bind. by eapply update_mt_bind.
Qed.

Lemma load_worker_bind {B} a (k : fuse_worker -> P B) s w Q : workers s !! a = Some w ->
  runs (k w) s Q -> runs (load_worker a ≫= k) s Q.
Proof. intros Hm Hk. unfold load_worker. msteps. exact Hk. Qed.

Lemma update_worker_bind {B} a g (k : unit -> P B) s w Q : workers s !! a = Some w ->
  runs (k tt) (set_workers (<[a := g w]> (workers s)) s) Q -> runs (update_worker a g ≫= k) s Q.
Proof.
  intros Hm Hk. unfold update_worker. apply runs_bind_assoc. eapply load_worker_bind; [exact Hm|].
  by mstep.
Qed.

Lemma load_thread_bind {B} i (k : thread -> P B) s t Q : threads s !! i = Some t ->
  runs (k t) s Q -> runs (load_thread i ≫= k) s Q.
Proof. intros Hm Hk. unfold load_thread. msteps. exact Hk. Qed.

Lemma update_thread_bind {B} i g (k : unit -> P B) s t Q : threads s !! i = Some t ->
  runs (k tt) (set_threads (<[i := g t]> (threads s)) s) Q -> runs (update_thread i g ≫= k) s Q.
Proof.
  intros Hm Hk. unfold update_thread. apply runs_bind_assoc. eapply load_thread_bind; [exact Hm|].
  by mstep.
Qed.

Lemma go_runs i p s t Q : threads s !! i = Some t ->
  Q tt (set_threads (<[i := set_at p t]> (threads s)) s) -> runs (go i p) s Q.
Proof.
  intros Ht HQ. unfold go, update_thread. eapply load_thread_bind; [exact Ht|]. by eexists _, _.
Qed.

(** A step of the session, of which the pool needs to know [Q]. *)
Lemma low_bind {A B} (m : M (ll K) A) (k : A -> P B) s (R : A -> ll K -> Prop) Q :
  runs m (low s) R -> (forall a l, R a l -> runs (k a) (set_low l s) Q) ->
  runs (liftLow m ≫= k) s Q.
Proof.
  intros Hm Hk. apply (runs_bind _ _ _ (fun a s' => exists l, s' = set_low l s /\ R a l)).
  - apply liftLow_runs. eapply runs_mono; [exact Hm|]. intros a l HR. by exists l.
  - intros a s' (l & -> & HR). by apply Hk.
Qed.

(** ** Starting a thread *)
Lemma clone_chan_runs held s : session_wf held (low s) ->
  runs (fuse_clone_chan h sy) s (fun ch s' => exists l, s' = set_low l s /\ quiet (low s) l /\
    session_wf (bump held ch 1) l).
Proof.
  intros Hw. unfold fuse_clone_chan, syscall.
  assert (Hno : forall l : ll K, session_wf held l -> session_wf (bump held 0 1) l).
  { intros l. apply session_wf_ext. intros x. unfold bump. rewrite andb_false_r. lia. }
  eapply low_bind; [by apply (call_runs held)|]. intros fd l1 [Hw1 Hq1]. cbv beta.
  case (fd =? -1); [apply runs_ret; eauto|]. mstep.
  eapply low_bind; [by apply (call_runs held)|]. intros res l2 [Hw2 Hq2]. cbn in Hq2.
  pose proof (quiet_low_trans _ _ _ Hq1 Hq2) as Hq.
  case (res =? -1).
  { eapply low_bind; [by apply (call_runs held)|]. intros x l3 [Hw3 Hq3]. apply runs_ret.
    exists l3. split; [done|]. split; [by eapply quiet_low_trans|by apply Hno]. }
  eapply low_bind; [by apply (chan_new_runs held)|]. intros ch l3 [Hq3 Hw3]. cbn in Hq3.
  pose proof (quiet_low_trans _ _ _ Hq Hq3) as Hq'. case (Z.eqb_spec ch 0) as [->|Hne].
  - eapply low_bind; [by eapply call_runs|]. intros x l4 [Hw4 Hq4]. apply runs_ret.
    exists l4. split; [done|]. split; [by eapply quiet_low_trans|done].
  - mstep. apply runs_ret. eauto.
Qed.

(** What a start leaves: nothing but the session, or a worker at the end of the list. *)
Inductive started held (s : pool K) m (l : list Z) : Z -> pool K -> Prop :=
| start_failed (lo : ll K) m' : quiet (low s) lo -> session_wf held lo ->
    m' = m \/ m' = set_clone_fd 0 m ->
    started held s m l (-1) (set_mt (Some m') (set_low lo s))
| start_done (lo : ll K) m' a i ch lk : se lo = se (low s) -> objs (low s) < a < i -> i <= objs lo ->
    session_wf (bump held ch 1) lo -> m' = m \/ m' = set_clone_fd 0 m ->
    ListHead.is_list lk main_worker (l ++ [a]) ->
    (forall x, is_Some (lk !! x) <-> x = a \/ is_Some (links s !! x)) ->
    started held s m l 0 (mk_pool lo
      (Some (set_numworker (numworker m + 1) (set_numavail (numavail m + 1) m'))) lk
      (<[a := mk_worker i 0 0 0 ch]> (workers s)) (<[i := mk_thread a Checking false]> (threads s))
      (bufs s) (configs s) (main s)).

(** Addresses in use. *)
Definition used s : Prop := forall o,
  is_Some (links s !! o) \/ is_Some (workers s !! o) \/ is_Some (threads s !! o) \/ o ∈ bufs s ->
  o <= objs (low s).

Lemma is_list_mapped (m0 : gmap Z ListHead.list_head) hd l x : ListHead.is_list m0 hd l ->
  x ∈ hd :: l -> is_Some (m0 !! x).
Proof.
  intros [_ H] Hx. apply list_elem_of_lookup in Hx as [i Hi].
  destruct (Forall2_lookup_l _ _ _ _ _ H Hi) as (y & _ & Hn & _).
  apply ListHead.mapped_nxt. eauto.
Qed.

(** An entry that is not on a list may be made. *)
Lemma is_list_fresh (m0 : gmap Z ListHead.list_head) hd l a x : ListHead.is_list m0 hd l ->
  m0 !! a = None -> ListHead.is_list (<[a := x]> m0) hd l /\ a ∉ hd :: l.
Proof.
  intros Hl Ha. assert (Hal : a ∉ hd :: l).
  { intros Hx. destruct (is_list_mapped _ _ _ _ Hl Hx). congruence. }
  split; [|done]. destruct Hl as [Hnd Hf]. split; [done|].
  eapply ListHead.links_frame; [exact Hf|..]; intros b Hb; unfold ListHead.nxt, ListHead.prv;
    rewrite lookup_insert_ne; try done; intros <-; apply Hal; [done|].
  apply elem_of_app in Hb as [Hb|Hb%list_elem_of_singleton]; [by right|subst; by left].
Qed.

Lemma only_at_mapped (m0 m1 : gmap Z ListHead.list_head) l : ListHead.only_at l m0 m1 ->
  (forall x, x ∈ l -> is_Some (m0 !! x) /\ is_Some (m1 !! x)) ->
  forall x, is_Some (m1 !! x) <-> is_Some (m0 !! x).
Proof.
  intros Ho Hx x. destruct (decide (x ∈ l)) as [Hin|Hin]; [|by rewrite (Ho x Hin)].
  by destruct (Hx x Hin).
Qed.

Lemma bump_back held ch (l : ll K) : session_wf (bump (bump held ch 1) ch (-1)) l -> session_wf held l.
Proof.
  apply session_wf_ext. intros x. unfold bump. destruct ((x =? ch) && negb (ch =? 0)); lia.
Qed.

Lemma bump_pos held ch (l : ll K) : session_wf held l -> ch = 0 \/ 0 < bump held ch 1 ch.
Proof.
  intros [W _]. destruct (decide (ch = 0)) as [|Hc]; [by left|right]. unfold bump.
  rewrite Z.eqb_refl, (proj2 (Z.eqb_neq ch 0)) by done. simpl. pose proof (rw_held _ _ _ _ W ch). lia.
Qed.

(** The channel of a worker at [a] that has just been allocated. *)
Definition with_worker s a ch (lo : ll K) m : pool K :=
  mk_pool lo (Some m) (<[a := ListHead.mk_head 0 0]> (links s))
    (<[a := mk_worker 0 0 0 0 ch]> (workers s)) (threads s) (bufs s) (configs s) (main s).

Lemma worker_chan_runs {B} held s m a (lo : ll K) (k : unit -> P B) Q : session_wf held lo ->
  (forall ch lo' m', quiet lo lo' -> session_wf (bump held ch 1) lo' ->
     m' = m \/ m' = set_clone_fd 0 m -> runs (k tt) (with_worker s a ch lo' m') Q) ->
  runs ((if clone_fd m =? 0 then mret tt
         else
           ch ← fuse_clone_chan h sy;
           update_worker a (set_w_ch ch);;
           if ch =? 0 then update_mt (set_clone_fd 0) else mret tt) ≫= k) (with_worker s a 0 lo m) Q.
Proof.
  intros Hw Hk. case (clone_fd m =? 0).
  - mstep. apply Hk; [apply quiet_low_refl| |by left]. eapply session_wf_ext; [|exact Hw].
    intros x. unfold bump. rewrite andb_false_r. lia.
  - apply runs_bind_assoc. eapply runs_bind; [by apply (clone_chan_runs held)|].
    intros ch s' (l & -> & Hq & Hw'). apply runs_bind_assoc.
    eapply update_worker_bind; [by apply lookup_insert_eq|]. cbn. rewrite insert_insert_eq.
    case (Z.eqb_spec ch 0) as [->|Hne].
    + eapply update_mt_bind; [done|]. apply (Hk 0 l (set_clone_fd 0 m)); [done..|by right].
    + mstep. apply (Hk ch l m); [done..|by left].
Qed.

Lemma start_thread_runs held s m l : mt s = Some m -> ListHead.is_list (links s) main_worker l ->
  used s -> session_wf held (low s) -> runs (fuse_loop_start_thread h sy) s (started held s m l).
Proof.
  intros Hm Hl Hu Hw. unfold fuse_loop_start_thread.
  eapply low_bind; [by apply (malloc_ok_runs held)|]. intros ok l1 (Hw1 & Hq1 & _). cbv beta.
  destruct ok; cbn [negb]; cycle 1.
  { apply runs_ret. replace (set_low l1 s) with (set_mt (Some m) (set_low l1 s)) by (by destruct s; cbn in *; subst).
    apply start_failed; [done|done|by left]. }
  eapply low_bind; [by apply (new_obj_runs held)|]. intros a l2 (Hw2 & Hs2 & -> & Ho2).
  cbn in Hs2, Ho2. set (a := objs l1 + 1) in *.
  assert (Ha : objs (low s) < a) by (destruct Hq1; unfold a; lia).
  assert (Hna : links s !! a = None /\ workers s !! a = None).
  { split; apply eq_None_not_Some; intros Hx; specialize (Hu a); [assert (a <= objs (low s)); [|lia]; tauto|].
    assert (a <= objs (low s)); [|lia]; tauto. }
  destruct Hna as [Hnl Hnw]. mstep. eapply load_mt_bind; [done|].
  apply (runs_from _ _ (with_worker s a 0 l2 m)); [by destruct s; cbn in *; subst|].
  apply (worker_chan_runs held); [done|]. intros ch l3 m' [Hs3 Ho3] Hw3 Hm'.
  unfold fuse_start_thread, syscall. apply runs_bind_assoc.
  eapply low_bind; [by apply (call_runs _ _ _ Hw3)|]. intros ok l4 [Hw4 [Hs4 Ho4]]. cbv beta.
  assert (Hs : se l4 = se (low s)) by (destruct Hq1; congruence).
  assert (Hso : a <= objs l4) by lia.
  destruct ok; cbn [negb].
  - apply runs_bind_assoc. eapply low_bind; [by apply (new_obj_runs _ _ Hw4)|].
    intros i l5 (Hw5 & Hs5 & -> & Ho5). cbn in Hs5, Ho5. set (i := objs l4 + 1) in *.
    apply runs_bind_assoc. mstep. apply runs_bind_assoc.
    eapply update_worker_bind; [by apply lookup_insert_eq|]. cbn. mstep. cbn.
    destruct (is_list_fresh _ _ _ a (ListHead.mk_head 0 0) Hl Hnl) as [Hlk Hal].
    eapply runs_bind; [apply (list_add_worker_runs _ main_worker l a); [exact Hlk|done|]|].
    { cbn. rewrite lookup_insert_eq. eauto. }
    intros [] s' (lk & -> & Hl' & Ho'). cbn in Ho'.
    eapply update_mt_bind; [done|]. eapply update_mt_bind; [done|]. apply runs_ret. cbn.
    rewrite insert_insert_eq.
    replace (numavail m') with (numavail m) by (by destruct Hm' as [->| ->]).
    replace (numworker m') with (numworker m) by (by destruct Hm' as [->| ->]).
    apply (start_done held s m l l5 m'); [congruence|lia|lia|done|done|done|].
    intros x. rewrite (only_at_mapped _ lk _ Ho').
    + rewrite lookup_insert_is_Some. destruct (decide (a = x)); naive_solver.
    + intros y Hy. split.
      * apply elem_of_cons in Hy as [->|Hy]; [rewrite lookup_insert_eq; eauto|].
        by apply (is_list_mapped _ _ _ _ Hlk).
      * apply (is_list_mapped _ _ _ _ Hl'). set_solver.
  - mstep. cbn. eapply load_worker_bind; [by apply lookup_insert_eq|]. cbn.
    eapply low_bind; [apply (chan_put_runs h _ _ ch Hw4); by eapply bump_pos|].
    intros [] l5 [Hw5%bump_back [Hs5 Ho5]]. unfold free_worker. apply runs_bind_assoc.
    eapply load_worker_bind; [by apply lookup_insert_eq|]. mstep. apply runs_ret. cbn in *.
    rewrite !delete_insert_id by done.
    apply (start_failed held s m l l5 m'); [|done|done]. split; [congruence|lia].
Qed.
End Steps.
