(* ===== verification/WorkersPool.v ===== *)
(** * The invariant of the pool and the structures it owns (proofs about Workers) *)
From S2P Require Import Prelude PosixLock Types Buf FsOps Entry Dir LLTypes LowLevel LLReply LLData LLOps LLInit LLSession LLFacts LLRequests ListHead Workers WorkersFacts WorkersInv.
#[local] Open Scope Z_scope.

Lemma total_mono {A} (f g : A -> Z) (m : gmap Z A) :
  (forall i x, m !! i = Some x -> f x <= g x) -> total f m <= total g m.
Proof.
  induction m as [|i x m Hi IH] using map_ind; intros H; [done|].
  rewrite !total_insert by done. assert (f x <= g x) by (apply (H i); by simplify_map_eq).
  assert (total f m <= total g m); [|lia]. apply IH. intros j y Hj. apply (H j).
  rewrite lookup_insert_ne; [done|]. by intros ->; simplify_map_eq.
Qed.

Section Pool.
Context {K : Type} (h : host K) (sy : system K).
#[local] Abbreviation P := (M (pool K)).
Implicit Types (s : pool K) (m : fuse_mt) (w : fuse_worker) (t : thread).

(** The references the workers hold on a channel. *)
Definition uses_ch (ch : Z) w : Z := if w_ch w =? ch then 1 else 0.
Definition held s (ch : Z) : Z := if ch =? 0 then 0 else total (uses_ch ch) (workers s).

(** A thread that processes a request other than a forget, and one that is in the pool. *)
Definition busy t : Z := match t_at t with Processing false => 1 | _ => 0 end.
Definition pooled t : Z := match t_at t with Leaving => 0 | _ => 1 end.

(** Every thread has a worker and every worker a thread; the buffers are those of the
    workers, each of one worker. *)
Record owned s : Prop := mk_owned {
  ow_thread : forall i t, threads s !! i = Some t ->
    exists w, workers s !! t_worker t = Some w /\ thread_id w = i;
  ow_worker : forall a w, workers s !! a = Some w ->
    exists t, threads s !! thread_id w = Some t /\ t_worker t = a;
  ow_link : forall a, is_Some (workers s !! a) -> is_Some (links s !! a) /\ a <> main_worker;
  ow_buf : forall b, b ∈ bufs s <-> b <> 0 /\ exists a w, workers s !! a = Some w /\ w_mem w = b;
  ow_inj : forall a1 a2 w1 w2, workers s !! a1 = Some w1 -> workers s !! a2 = Some w2 ->
    w_mem w1 = w_mem w2 -> w_mem w1 <> 0 -> a1 = a2;
  ow_used : used s;
}.

(** The pool while the call of the loop lasts: [l] are the workers in it; [joining] after
    they were cancelled. *)
Record in_pool s m (l : list Z) (joining : bool) : Prop := mk_in_pool {
  ip_mt : mt s = Some m;
  ip_list : ListHead.is_list (links s) main_worker l;
  ip_elem : forall a, a ∈ l <-> exists i t, threads s !! i = Some t /\ t_worker t = a /\ pooled t = 1;
  ip_lock : mt_locked m = false;
  ip_exit : exit m = joining;
  ip_avail : numavail m = numworker m - total busy (threads s);
  ip_length : Z.of_nat (length l) = total pooled (threads s);
  ip_count : if joining then Z.of_nat (length l) <= numworker m
             else numworker m = Z.of_nat (length l);
  ip_bound : 0 <= numworker m <= Z.max 1 (max_threads m);
  ip_max : max_threads m < 2 ^ 31;
  ip_finish : 0 <= finish m;
  ip_cancel : joining = true -> forall i t, threads s !! i = Some t -> pooled t = 1 -> t_cancel t = true;
}.

Definition config_ok s (c : Z) : Prop := c = 0 \/ is_Some (configs s !! c).
Definition frame s (created after : Z) : Prop :=
  config_ok s created /\ config_ok s after /\ (created <> 0 -> created <> after).

Definition place s : Prop :=
  match main s with
  | Outside _ => mt s = None /\ forall i t, threads s !! i = Some t -> pooled t = 0
  | Testing c a | Sleeping c a => frame s c a /\ exists m l, in_pool s m l false /\ 1 <= numworker m
  | Joining c a => frame s c a /\ exists m l, in_pool s m l true /\ 1 <= numworker m
  end.

Record pool_wf s : Prop := mk_pool_wf {
  pw_low : session_wf (held s) (low s);
  pw_owned : owned s;
  pw_place : place s;
}.

(** ** Parts of the state that do not matter to a part of the invariant *)
Lemma owned_same s s' : workers s' = workers s -> threads s' = threads s -> links s' = links s ->
  bufs s' = bufs s -> objs (low s) <= objs (low s') -> owned s -> owned s'.
Proof.
  intros Hw Ht Hl Hb Ho [H1 H2 H3 H4 H5 H6]. split; rewrite ?Hw, ?Ht, ?Hl, ?Hb; try done.
  intros o Hx. rewrite Hw, Ht, Hl, Hb in Hx. specialize (H6 o Hx). lia.
Qed.

Lemma in_pool_same s s' m l j : mt s' = mt s -> threads s' = threads s -> links s' = links s ->
  in_pool s m l j -> in_pool s' m l j.
Proof. intros Hm Ht Hl []. split; rewrite ?Hm, ?Ht, ?Hl; done. Qed.

Lemma place_same s s' : mt s' = mt s -> threads s' = threads s -> links s' = links s ->
  main s' = main s -> configs s' = configs s -> place s -> place s'.
Proof.
  intros Hm Ht Hl Hma Hc. unfold place, frame, config_ok. rewrite Hma, Hc, Hm, Ht.
  destruct (main s); [done|..]; intros (? & m & l & Hin & ?); (split; [done|]); exists m, l;
    (split; [|done]); by apply (in_pool_same s).
Qed.

(** Members of a worker that own nothing. *)
Lemma owned_worker s a w w' : owned s -> workers s !! a = Some w -> thread_id w' = thread_id w ->
  w_mem w' = w_mem w -> owned (set_workers (<[a := w']> (workers s)) s).
Proof.
  intros [H1 H2 H3 H4 H5 H6] Ha Hi Hb.
  assert (Hlk : forall x y, <[a := w']> (workers s) !! x = Some y -> exists z,
    workers s !! x = Some z /\ thread_id y = thread_id z /\ w_mem y = w_mem z).
  { intros x y Hx. apply lookup_insert_Some in Hx as [[<- <-]|[_ Hx]]; eauto. }
  assert (Hlk' : forall x z, workers s !! x = Some z -> exists y,
    <[a := w']> (workers s) !! x = Some y /\ thread_id y = thread_id z /\ w_mem y = w_mem z).
  { intros x z Hx. destruct (decide (x = a)) as [->|Hne]; [rewrite lookup_insert_eq|rewrite lookup_insert_ne by done].
    - assert (z = w) as -> by congruence. eauto.
    - eauto. }
  split; cbn.
  - intros i t Ht. destruct (H1 i t Ht) as (z & Hz & Hzi). destruct (Hlk' _ _ Hz) as (y & Hy & Hyi & _).
    exists y. split; [done|congruence].
  - intros x y Hx. destruct (Hlk _ _ Hx) as (z & Hz & Hzi & _). rewrite Hzi. eauto.
  - intros x [y Hx]. destruct (Hlk _ _ Hx) as (z & Hz & _). apply H3. eauto.
  - intros b. rewrite H4. split; intros (Hne & x & z & Hx & Hz); (split; [done|]).
    + destruct (Hlk' _ _ Hx) as (y & Hy & _ & Hym). exists x, y. split; [done|congruence].
    + destruct (Hlk _ _ Hx) as (y & Hy & _ & Hym). exists x, y. split; [done|congruence].
  - intros x1 x2 y1 y2 Hx1 Hx2 Hm Hne.
    destruct (Hlk _ _ Hx1) as (z1 & Hz1 & _ & Hm1), (Hlk _ _ Hx2) as (z2 & Hz2 & _ & Hm2).
    apply (H5 x1 x2 z1 z2); congruence.
  - intros o Ho. apply (H6 o). cbn in Ho. destruct Ho as [|[Ho|]]; [tauto| |tauto].
    right. left. destruct Ho as [y Hy]. destruct (Hlk _ _ Hy) as (z & Hz & _). eauto.
Qed.

(** A worker without a buffer gets a fresh one. *)
Lemma owned_alloc s a w (l : ll K) b : owned s -> workers s !! a = Some w -> w_mem w = 0 ->
  0 <= objs (low s) < b -> b <= objs l ->
  owned (set_workers (<[a := set_w_mem b w]> (workers s)) (set_bufs ({[b]} ∪ bufs s) (set_low l s))).
Proof.
  intros [H1 H2 H3 H4 H5 H6] Ha Hw0 Hb Hl.
  assert (Hfresh : b ∉ bufs s) by (intros Hx; assert (b <= objs (low s)) by (apply H6; tauto); lia).
  assert (Hlk : forall x y, <[a := set_w_mem b w]> (workers s) !! x = Some y ->
    (x = a /\ y = set_w_mem b w) \/ (x <> a /\ workers s !! x = Some y)).
  { intros x y Hx. apply lookup_insert_Some in Hx as [[-> <-]|[? ?]]; auto. }
  split; cbn.
  - intros i t Ht. destruct (H1 i t Ht) as (z & Hz & Hzi). destruct (decide (t_worker t = a)) as [He|He].
    + rewrite He in *. rewrite lookup_insert_eq. eexists. split; [done|]. cbn. congruence.
    + rewrite lookup_insert_ne by done. eauto.
  - intros x y [[-> ->]|[_ Hx]]%Hlk; [|eauto]. cbn. eauto.
  - intros x Hx. apply H3. apply lookup_insert_is_Some in Hx as [<-|[_ Hx]]; eauto.
  - intros c. rewrite elem_of_union, elem_of_singleton, H4. split.
    + intros [->|(Hne & x & y & Hx & Hy)].
      * split; [lia|]. exists a, (set_w_mem b w). by rewrite lookup_insert_eq.
      * split; [done|]. exists x, y. rewrite lookup_insert_ne; [done|]. intros <-.
        assert (y = w) as -> by congruence. congruence.
    + intros (Hne & x & y & [[-> ->]|[_ Hx]]%Hlk & Hy); [by left|right]. eauto.
  - intros x1 x2 y1 y2 [[-> ->]|[Hne1 Hx1]]%Hlk [[-> ->]|[Hne2 Hx2]]%Hlk Hm Hn; [done|..]; cbn in *.
    + exfalso. apply Hfresh, H4. split; [lia|]. eauto.
    + exfalso. apply Hfresh, H4. split; [lia|]. eauto.
    + by eapply H5.
  - intros o Ho. cbn in *. destruct Ho as [Ho|[Ho|[Ho|Ho]]].
    + assert (o <= objs (low s)) by (apply H6; tauto). lia.
    + assert (o <= objs (low s)); [|lia]. apply H6. right. left.
      apply lookup_insert_is_Some in Ho as [<-|[_ Ho]]; eauto.
    + assert (o <= objs (low s)) by (apply H6; tauto). lia.
    + apply elem_of_union in Ho as [->%elem_of_singleton|Ho]; [lia|].
      assert (o <= objs (low s)) by (apply H6; tauto). lia.
Qed.

Lemma held_same s ws : (forall ch, total (uses_ch ch) ws = total (uses_ch ch) (workers s)) ->
  forall ch, (if ch =? 0 then 0 else total (uses_ch ch) ws) = held s ch.
Proof. intros H ch. unfold held. by rewrite H. Qed.

Lemma pooled_cases t : pooled t = 1 /\ t_at t <> Leaving \/ pooled t = 0 /\ t_at t = Leaving.
Proof. unfold pooled. destruct (t_at t); [left..|right|left|left]; done. Qed.

Lemma pooled_nonneg t : 0 <= pooled t.
Proof. unfold pooled. destruct (t_at t); lia. Qed.

Lemma busy_pooled t : 0 <= busy t <= pooled t.
Proof. unfold busy, pooled. destruct (t_at t) as [| | | |[]| | |]; lia. Qed.

(** The counters of the pool are what they should be. *)
Lemma counters_ok s m l j : in_pool s m l j ->
  0 <= numavail m <= numworker m /\ numworker m <= Z.max 1 (max_threads m).
Proof.
  intros []. assert (0 <= total busy (threads s) <= total pooled (threads s)).
  { split; [apply total_nonneg|apply total_mono]; intros i t _; apply busy_pooled. }
  destruct j; lia.
Qed.

(** ** A thread goes on *)
Lemma owned_move s i t t' : owned s -> threads s !! i = Some t -> t_worker t' = t_worker t ->
  owned (set_threads (<[i := t']> (threads s)) s).
Proof.
  intros [H1 H2 H3 H4 H5 H6] Ht Hw. split; try done; cbn.
  - intros j u Hj. apply lookup_insert_Some in Hj as [[<- <-]|[Hne Hj]]; [rewrite Hw|]; auto.
  - intros a w Ha. destruct (H2 a w Ha) as (u & Hu & Hua). destruct (decide (thread_id w = i)) as [He|He].
    + rewrite He in *. rewrite lookup_insert_eq. exists t'. split; [done|]. congruence.
    + rewrite lookup_insert_ne by done. eauto.
  - intros o Ho. apply (H6 o). cbn in Ho. destruct Ho as [|[|[Ho|]]]; [tauto|tauto| |tauto].
    right. right. left. apply lookup_insert_is_Some in Ho as [<-|[_ Ho]]; eauto.
Qed.

(** The same thread of the pool elsewhere in the pool, with new counters. *)
Lemma in_pool_move s m m' l j i t t' : in_pool s m l j -> threads s !! i = Some t ->
  t_worker t' = t_worker t -> t_cancel t' = t_cancel t -> pooled t = 1 -> pooled t' = 1 ->
  mt_locked m' = false -> exit m' = exit m -> numworker m' = numworker m ->
  max_threads m' = max_threads m -> 0 <= finish m' ->
  numavail m' = numavail m - (busy t' - busy t) ->
  in_pool (set_mt (Some m') (set_threads (<[i := t']> (threads s)) s)) m' l j.
Proof.
  intros [] Ht Hw Hc Hp Hp' Hl Hx Hn Hmax Hf Ha. split; cbn; try done; rewrite ?Hx, ?Hn, ?Hmax; try done.
  - intros a. rewrite ip_elem0. split; intros (k & u & Hk & Hua & Hu).
    + destruct (decide (k = i)) as [->|He].
      * exists i, t'. rewrite lookup_insert_eq. split_and!; [done|congruence|done].
      * exists k, u. by rewrite lookup_insert_ne.
    + apply lookup_insert_Some in Hk as [[<- <-]|[He Hk]]; [|by exists k, u].
      exists i, t. by rewrite <- Hw.
  - rewrite (total_replace busy _ i t t' Ht). lia.
  - rewrite (total_replace pooled _ i t t' Ht). lia.
  - intros Hj k u Hk Hu. apply lookup_insert_Some in Hk as [[<- <-]|[He Hk]]; [|by eapply ip_cancel0].
    rewrite Hc. by eapply ip_cancel0.
Qed.

(** ** A new worker *)
Lemma owned_add s a i w lk (lo : ll K) mm : owned s -> objs (low s) < a < i -> i <= objs lo ->
  thread_id w = i -> w_mem w = 0 -> 0 <= objs (low s) ->
  (forall x, is_Some (lk !! x) <-> x = a \/ is_Some (links s !! x)) ->
  owned (mk_pool lo mm lk (<[a := w]> (workers s)) (<[i := mk_thread a Checking false]> (threads s))
    (bufs s) (configs s) (main s)).
Proof.
  intros [H1 H2 H3 H4 H5 H6] Ha Hi Hid Hb Ho Hlk.
  assert (Hwa : forall x, is_Some (workers s !! x) -> x <> a).
  { intros x Hx ->. assert (a <= objs (low s)) by (apply H6; tauto). lia. }
  assert (Hti : forall x, is_Some (threads s !! x) -> x <> i).
  { intros x Hx ->. assert (i <= objs (low s)) by (apply H6; tauto). lia. }
  assert (Hle : forall x, is_Some (links s !! x) \/ is_Some (workers s !! x) \/ is_Some (threads s !! x) \/
    x ∈ bufs s -> x <= objs lo) by (intros x Hx; specialize (H6 x Hx); lia).
  split; cbn.
  - intros j t Ht. apply lookup_insert_Some in Ht as [[<- <-]|[Hne Ht]].
    + exists w. cbn. by rewrite lookup_insert_eq.
    + destruct (H1 j t Ht) as (z & Hz & Hzi). exists z. split; [|done].
      rewrite lookup_insert_ne; [done|]. intros He. symmetry in He. revert He. apply Hwa. eauto.
  - intros x y Hx. apply lookup_insert_Some in Hx as [[<- <-]|[Hne Hx]].
    + rewrite Hid, lookup_insert_eq. eauto.
    + destruct (H2 x y Hx) as (t & Ht & Htx). exists t. split; [|done].
      rewrite lookup_insert_ne; [done|]. intros He. symmetry in He. revert He. apply Hti. eauto.
  - intros x Hx. rewrite Hlk. apply lookup_insert_is_Some in Hx as [<-|[Hne Hx]].
    + split; [by left|]. unfold main_worker. lia.
    + destruct (H3 x Hx). auto.
  - intros b. rewrite H4. split; intros (Hne & x & y & Hx & Hy); (split; [done|]); exists x, y.
    + split; [|done]. rewrite lookup_insert_ne; [done|]. intros He. symmetry in He. revert He. apply Hwa. eauto.
    + apply lookup_insert_Some in Hx as [[<- <-]|[_ Hx]]; [congruence|done].
  - intros x1 x2 y1 y2 Hx1 Hx2 Hm Hne.
    apply lookup_insert_Some in Hx1 as [[<- <-]|[_ Hx1]]; [congruence|].
    apply lookup_insert_Some in Hx2 as [[<- <-]|[_ Hx2]]; [congruence|]. by eapply H5.
  - intros o Hx. cbn in *. destruct Hx as [Hx|[Hx|[Hx|Hx]]].
    + apply Hlk in Hx as [->|Hx]; [lia|auto].
    + apply lookup_insert_is_Some in Hx as [<-|[_ Hx]]; [lia|auto].
    + apply lookup_insert_is_Some in Hx as [<-|[_ Hx]]; [lia|auto].
    + auto.
Qed.

Lemma held_add s a w (lo : ll K) : workers s !! a = None ->
  session_wf (bump (held s) (w_ch w) 1) lo ->
  session_wf (fun ch => if ch =? 0 then 0 else total (uses_ch ch) (<[a := w]> (workers s))) lo.
Proof.
  intros Ha. apply session_wf_ext. intros ch. unfold bump, held. rewrite total_insert by done.
  unfold uses_ch at 1. case (Z.eqb_spec ch 0) as [->|Hne].
  - case (Z.eqb_spec 0 (w_ch w)) as [<-|]; done.
  - rewrite (Z.eqb_sym ch). case (Z.eqb_spec (w_ch w) ch) as [->|]; cbn; [|lia].
    rewrite (proj2 (Z.eqb_neq ch 0)) by done. cbn. lia.
Qed.

Lemma in_pool_add s m m' l a i ws lk (lo : ll K) : in_pool s m l false -> threads s !! i = None ->
  ListHead.is_list lk main_worker (l ++ [a]) ->
  numworker m < Z.max 1 (max_threads m) -> m' = m \/ m' = set_clone_fd 0 m ->
  in_pool (mk_pool lo (Some (set_numworker (numworker m + 1) (set_numavail (numavail m + 1) m'))) lk
    ws (<[i := mk_thread a Checking false]> (threads s)) (bufs s) (configs s) (main s))
    (set_numworker (numworker m + 1) (set_numavail (numavail m + 1) m')) (l ++ [a]) false.
Proof.
  intros [] Hi Hl Hn Hm'.
  assert (Hf : mt_locked m' = mt_locked m /\ exit m' = exit m /\ max_threads m' = max_threads m /\
    finish m' = finish m) by (by destruct Hm' as [->| ->]).
  destruct Hf as (Hf1 & Hf2 & Hf3 & Hf4). split; cbn; rewrite ?Hf1, ?Hf2, ?Hf3, ?Hf4; try done; try lia.
  - intros x. rewrite elem_of_app, list_elem_of_singleton, ip_elem0. split.
    + intros [(j & t & Hj & Hx)| ->].
      * exists j, t. rewrite lookup_insert_ne; [done|]. by intros ->; congruence.
      * eexists i, _. by rewrite lookup_insert_eq.
    + intros (j & t & Hj & Hx & Hp). apply lookup_insert_Some in Hj as [[<- <-]|[_ Hj]]; [by right|left; eauto].
  - rewrite total_insert by done. cbn. lia.
  - rewrite length_app, total_insert by done. cbn. lia.
  - rewrite length_app. cbn. lia.
Qed.

(** ** Steps towards the end *)

(** How far a thread, and the one that waits for them, are from their ends. *)
Definition weight t : Z :=
  match t_at t with
  | Ended | Leaving => 1 | Posting => 2 | Checking | Failing _ => 3
  | Receiving | Processing _ => 4 | Got => 8
  end.
Definition main_weight (p : main_at) : Z :=
  match p with Outside _ => 0 | Joining _ _ => 1 | Testing _ _ => 2 | Sleeping _ _ => 3 end.
Definition measure s : Z := total weight (threads s) + main_weight (main s).

Definition over s : bool := exited (se (low s)).
Definition outside s : Prop := exists r, main s = Outside r.

(** A thread that will look at the session before it sleeps. *)
Definition awake t : bool :=
  match t_at t with Checking | Failing _ | Got | Processing _ | Posting => true | _ => false end.

(** When the session is over, the thread that waits has been told, or will be. *)
Definition told s : Prop :=
  match main s with
  | Sleeping _ _ => over s = true -> exists m, mt s = Some m /\
      (0 < finish m \/ exists i t, threads s !! i = Some t /\ awake t = true)
  | _ => True
  end.
(** The limit of idle workers, and whether there is none. *)
Definition idle_of s : option Z := max_idle <$> mt s.
Definition keeps_idle s : Prop := forall m, mt s = Some m -> max_idle m = -1.

Record progress s s' : Prop := mk_progress {
  pr_measure : over s = true -> measure s' < measure s;
  pr_over : over s = true -> over s' = true \/ outside s';
  pr_idle : outside s' \/ idle_of s' = idle_of s;
  pr_told : keeps_idle s -> told s -> told s';
}.
Definition good_step s s' : Prop := pool_wf s' /\ progress s s'.

(** A change that none of this depends on. *)
Record silent s s' : Prop := mk_silent {
  si_wf : pool_wf s';
  si_mt : mt s' = mt s;
  si_threads : threads s' = threads s;
  si_main : main s' = main s;
  si_configs : configs s' = configs s;
  si_over : over s' = over s;
}.

Lemma silent_good s s1 s' : silent s s1 -> good_step s1 s' -> good_step s s'.
Proof.
  intros [] [Hw [P1 P2 P3 P4]]. split; [done|].
  unfold measure, idle_of, keeps_idle, told in *. rewrite si_mt0, si_threads0, si_main0, si_over0 in *. by split.
Qed.

Lemma pool_of s i t : pool_wf s -> threads s !! i = Some t -> pooled t = 1 ->
  exists m l j, in_pool s m l j /\ ~ outside s /\ 1 <= numworker m /\
    forall s' m' l', main s' = main s -> configs s' = configs s -> in_pool s' m' l' j ->
      1 <= numworker m' -> place s'.
Proof.
  intros [_ _ Hp] Ht Hu. unfold place in Hp.
  assert (Hf : forall s' c a, configs s' = configs s -> frame s c a -> frame s' c a).
  { intros s' c a Hc. unfold frame, config_ok. by rewrite Hc. }
  destruct (main s) as [r|c a|c a|c a] eqn:Hm.
  { destruct Hp as [_ Hp]. specialize (Hp i t Ht). lia. }
  all: destruct Hp as (Hfr & m & l & Hin & Hn); exists m, l; eexists;
    split_and!; [exact Hin|by intros [r ?]; congruence|done|];
    intros s' m' l' Hm' Hc Hin' Hn'; unfold place; rewrite Hm'; eauto 8.
Qed.

(** The thread [i] goes to another point of the pool. *)
Lemma move_good s m l j i t p m' (lo : ll K) : pool_wf s -> threads s !! i = Some t ->
  pooled t = 1 -> in_pool s m l j -> p <> Leaving ->
  session_wf (held s) lo -> objs (low s) <= objs lo ->
  (mt_locked m' = false /\ exit m' = exit m /\ numworker m' = numworker m /\
   max_threads m' = max_threads m /\ max_idle m' = max_idle m) ->
  finish m <= finish m' -> numavail m' = numavail m - (busy (set_at p t) - busy t) ->
  (over s = true -> weight (set_at p t) < weight t /\ exited (se lo) = true) ->
  (exited (se lo) = true -> over s = true \/ awake (set_at p t) = true) ->
  (exit m = false -> exited (se lo) = true -> awake t = true ->
     awake (set_at p t) = true \/ 0 < finish m') ->
  good_step s (mk_pool lo (Some m') (links s) (workers s) (<[i := set_at p t]> (threads s))
    (bufs s) (configs s) (main s)).
Proof.
  intros Hwf Ht Hu Hin Hp Hlo Ho (Hl & Hx & Hn & Hmax & Hid) Hf Hav Hm1 Hex Haw.
  destruct (pool_of s i t Hwf Ht Hu) as (m0 & l0 & j0 & Hin0 & Hout & Hn0 & Hpl).
  assert (m0 = m) as -> by (destruct Hin, Hin0; congruence).
  assert (j0 = j) as -> by (destruct Hin, Hin0; congruence).
  set (s' := mk_pool _ _ _ _ _ _ _ _). split.
  - split; [done| |].
    + apply (owned_same (set_threads (<[i := set_at p t]> (threads s)) s)); try done.
      by apply (owned_move s i t); [apply Hwf|done..].
    + apply (Hpl s' m' l); [done..| |by rewrite Hn].
      apply (in_pool_same (set_mt (Some m') (set_threads (<[i := set_at p t]> (threads s)) s))); try done.
      apply (in_pool_move s m m' l j i t); try done; [by destruct p|destruct Hin; lia].
  - split.
    + intros Hov. destruct (Hm1 Hov) as [Hw _]. unfold measure. cbn.
      rewrite (total_replace weight _ i t _ Ht). lia.
    + intros Hov. left. by apply Hm1.
    + right. unfold idle_of. cbn. rewrite Hid. by rewrite (ip_mt _ _ _ _ Hin).
    + intros _ Htold. unfold told in *. cbn. destruct (main s) eqn:Hmain; try done.
      intros Hov. assert (Hx0 : exit m = false).
      { destruct Hwf as [_ _ Hpw]. unfold place in Hpw. rewrite Hmain in Hpw.
        destruct Hpw as (_ & m1 & l1 & [] & _). destruct Hin. congruence. }
      exists m'. split; [done|].
      assert (Hi : awake (set_at p t) = true -> exists k u, <[i := set_at p t]> (threads s) !! k = Some u /\ awake u = true).
      { intros Ha. exists i, (set_at p t). by rewrite lookup_insert_eq. }
      destruct (Hex Hov) as [Hov'|Ha]; [|by right; apply Hi].
      destruct (Htold Hov') as (m1 & Hm1' & [Hfin|(k & u & Hk & Hu')]).
      { left. assert (m1 = m) as -> by (destruct Hin; congruence). lia. }
      destruct (decide (k = i)) as [->|He].
      * assert (u = t) as -> by congruence. destruct (Haw Hx0 Hov Hu'); [right; by apply Hi|by left].
      * right. exists k, u. by rewrite lookup_insert_ne.
Qed.
End Pool.
