(* ===== verification/WorkersSteps.v ===== *)
(** * The steps of the worker threads keep the invariant (proofs about Workers) *)
From S2P Require Import Prelude PosixLock Types Buf FsOps Entry Dir LLTypes LowLevel LLReply LLData LLOps LLInit LLSession LLFacts LLRequests ListHead Workers WorkersFacts WorkersInv WorkersPool.
#[local] Open Scope Z_scope.

Section Steps.
Context {K : Type} (h : host K) (sy : system K).
#[local] Abbreviation P := (M (pool K)).
Implicit Types (s : pool K) (m : fuse_mt) (w : fuse_worker) (t : thread).

Lemma exited_bind {B} (k : bool -> P B) s Q : runs (k (over s)) s Q ->
  runs (liftLow fuse_session_exited ≫= k) s Q.
Proof. intros Hk. by destruct s. Qed.

Definition ended (l : ll K) : ll K := set_se (set_exited true (se l)) l.

Lemma exit_bind {B} (k : unit -> P B) s Q : runs (k tt) (set_low (ended (low s)) s) Q ->
  runs (liftLow fuse_session_exit ≫= k) s Q.
Proof. done. Qed.

Lemma good_at s s1 s2 : s2 = s1 -> good_step s s1 -> good_step s s2.
Proof. by intros ->. Qed.

Lemma pooled_at t : t_at t <> Leaving -> pooled t = 1.
Proof. by destruct (pooled_cases t) as [[]|[]]. Qed.

Lemma go_good s m l j i t p m' (lo : ll K) s1 : pool_wf s -> threads s !! i = Some t ->
  in_pool s m l j -> t_at t <> Leaving -> p <> Leaving ->
  s1 = mk_pool lo (Some m') (links s) (workers s) (threads s) (bufs s) (configs s) (main s) ->
  session_wf (held s) lo /\ objs (low s) <= objs lo ->
  (mt_locked m' = false /\ exit m' = exit m /\ numworker m' = numworker m /\
   max_threads m' = max_threads m /\ max_idle m' = max_idle m) ->
  finish m <= finish m' /\ numavail m' = numavail m - (busy (set_at p t) - busy t) ->
  (over s = true -> weight (set_at p t) < weight t /\ exited (se lo) = true) ->
  (exited (se lo) = true -> over s = true \/ awake (set_at p t) = true) ->
  (exit m = false -> exited (se lo) = true -> awake t = true ->
     awake (set_at p t) = true \/ 0 < finish m') ->
  runs (go i p) s1 (fun _ => good_step s).
Proof.
  intros Hwf Ht Hin Hl Hp -> [Hlo Ho] Hm' [Hf Ha] H1 H2 H3. eapply go_runs; [done|].
  by apply (move_good s m l j i t p m' lo); [..|apply pooled_at| | | | | | | | | |].
Qed.
End Steps.

(** A step of the thread that is where [Hat] says, to [p]; [m'] and [lo] are the counters
    and the session after it. *)
Ltac go_to Hwf Ht Hin Hat p m' lo :=
  apply (go_good _ _ _ _ _ _ p m' lo _ Hwf Ht Hin);
    [by rewrite Hat|done
    |match goal with s : pool _ |- _ => by destruct s; cbn in *; subst end
    |split; [try apply Hwf|cbn; try lia]
    |split_and!; first [done|apply Hin]
    |unfold busy; rewrite ?Hat; cbn; try lia
    |unfold weight, over in *; rewrite ?Hat; cbn; try done; try (intros; split; [lia|done]); try (intros; congruence)
    |unfold awake, over in *; cbn; try (intros; congruence); auto
    |unfold awake, over in *; rewrite ?Hat; cbn; try (intros; congruence); auto].

Section Threads.
Context {K : Type} (h : host K) (sy : system K).
#[local] Abbreviation P := (M (pool K)).
Implicit Types (s : pool K) (m : fuse_mt) (w : fuse_worker) (t : thread).

(** [fuse_do_work] tests whether the session is over. *)
Lemma check_good s i t : pool_wf s -> threads s !! i = Some t -> t_at t = Checking ->
  runs (do_work_check i) s (fun _ => good_step s).
Proof.
  intros Hwf Ht Hat. assert (Hl : t_at t <> Leaving) by by rewrite Hat.
  destruct (pool_of _ _ _ Hwf Ht (pooled_at _ Hl)) as (m & l & j & Hin & _ & Hn1 & _).
  pose proof (ip_mt _ _ _ _ Hin) as Hm. unfold do_work_check. apply exited_bind.
  destruct (over s) eqn:Ho.
  - go_to Hwf Ht Hin Hat Posting m (low s).
  - go_to Hwf Ht Hin Hat Receiving m (low s).
Qed.

(** The receive has allocated the buffer. *)
Lemma alloc_silent {B} s i t (alloc : bool) (k : P B) Q : pool_wf s -> threads s !! i = Some t ->
  (forall s1, silent s s1 -> runs k s1 Q) ->
  runs (w ← load_worker (t_worker t);
        (if alloc && (w_mem w =? 0) then
           a ← liftLow new_obj;
           modifyM (fun s => set_bufs ({[a]} ∪ bufs s) s);;
           update_worker (t_worker t) (set_w_mem a)
         else mret tt);;
        k) s Q.
Proof.
  intros Hwf Ht Hk. destruct (ow_thread _ (pw_owned _ Hwf) i t Ht) as (w & Hw & Hi).
  eapply load_worker_bind; [exact Hw|].
  destruct (alloc && (w_mem w =? 0)) eqn:Hc; [|mstep; by apply Hk].
  apply andb_prop in Hc as [_ Hc%Z.eqb_eq]. apply runs_bind_assoc.
  eapply low_bind; [by apply (new_obj_runs (held s)), Hwf|]. intros a l (Hl & Hse & -> & Ho).
  apply runs_bind_assoc. mstep. eapply update_worker_bind; [exact Hw|]. apply Hk.
  destruct Hwf as [Hlow How Hpl]. split; [|done..|unfold over; cbn; by rewrite Hse]. split; cbn.
  - eapply session_wf_ext; [|exact Hl]. intros ch. apply (held_same s). intros x.
    by apply (total_same _ _ _ w).
  - apply (owned_alloc s (t_worker t) w l (objs (low s) + 1)); [done..| |lia].
    destruct Hlow as [[] _]. lia.
  - by apply (place_same s).
Qed.

(** The message is in the buffer. *)
Lemma message_silent s i t flags opcode : pool_wf s -> threads s !! i = Some t ->
  runs (update_worker (t_worker t) (set_w_message flags opcode)) s (fun _ => silent s).
Proof.
  intros Hwf Ht. destruct (ow_thread _ (pw_owned _ Hwf) i t Ht) as (w & Hw & Hi).
  unfold update_worker. eapply load_worker_bind; [exact Hw|]. eexists _, _. split; [done|].
  destruct Hwf as [Hlow How Hpl]. split; [|done..]. split; cbn.
  - eapply session_wf_ext; [|exact Hlow]. intros ch. apply (held_same s). intros x.
    by apply (total_same _ _ _ w).
  - by apply (owned_worker s (t_worker t) w).
  - by apply (place_same s).
Qed.

(** What a receive may return: an end of the session is noticed, and nothing is received
    after it. *)
Definition receive_ok s (nodev : bool) (res : Z) : Prop :=
  (nodev = true -> res = 0) /\
  (res = 0 -> nodev = true \/ over s = true) /\
  (over s = true -> res <= 0 /\ res <> - EINTR).

Lemma received_good s i t alloc nodev res flags opcode : pool_wf s -> threads s !! i = Some t ->
  t_at t = Receiving -> receive_ok s nodev res ->
  runs (do_work_received i alloc nodev res flags opcode) s (fun _ => good_step s).
Proof.
  intros Hwf Ht Hat (Hr1 & Hr2 & Hr3). unfold do_work_received.
  eapply load_thread_bind; [done|]. apply (alloc_silent s i t alloc _ _ Hwf Ht). intros s1 Hs1.
  eapply runs_mono; [|intros a s'; by apply (silent_good s s1)].
  rewrite <- (si_threads _ _ Hs1) in Ht. rewrite <- (si_over _ _ Hs1) in Hr2, Hr3.
  pose proof (si_wf _ _ Hs1) as Hwf1. clear Hs1 Hwf. rename s into s0, s1 into s.
  assert (Hl : t_at t <> Leaving) by by rewrite Hat.
  destruct (pool_of _ _ _ Hwf1 Ht (pooled_at _ Hl)) as (m & l & j & Hin & _ & Hn1 & _).
  pose proof (ip_mt _ _ _ _ Hin) as Hm.
  destruct nodev; [rewrite (Hr1 eq_refl) in *; apply exit_bind|mstep]; cbn.
  - go_to Hwf1 Ht Hin Hat Posting m (ended (low s)). by apply session_wf_exited, Hwf1.
  - destruct (Z.eqb_spec res (- EINTR)) as [->|He].
    { go_to Hwf1 Ht Hin Hat Checking m (low s). }
    destruct (Z.leb_spec res 0) as [H0|H0]; [destruct (Z.ltb_spec res 0) as [H1|H1]|].
    + apply exit_bind. go_to Hwf1 Ht Hin Hat (Failing res) m (ended (low s)). by apply session_wf_exited, Hwf1.
    + go_to Hwf1 Ht Hin Hat Posting m (low s).
    + eapply runs_bind; [by apply (message_silent s i t)|]. intros [] s1 Hs1.
      eapply runs_mono; [|intros a s'; by apply (silent_good s s1)].
      assert (Ho : over s1 = false).
      { rewrite (si_over _ _ Hs1). destruct (over s); [|done]. destruct Hr3; [done|lia]. }
      rewrite <- (si_threads _ _ Hs1) in Ht. rewrite <- (si_mt _ _ Hs1) in Hm.
      pose proof (si_wf _ _ Hs1) as Hwf. destruct (pool_of _ _ _ Hwf Ht (pooled_at _ Hl)) as (m1 & l1 & j1 & Hin1 & _).
      rewrite (ip_mt _ _ _ _ Hin1) in Hm. injection Hm as ->. pose proof (ip_mt _ _ _ _ Hin1) as Hm.
      clear Hs1 Hwf1 Hin Hr1 Hr2 Hr3. rename s into s2, s1 into s.
      go_to Hwf Ht Hin1 Hat Got m (low s).
Qed.

(** A thread that was cancelled ends in the receive. *)
Lemma cancelled_good s i t alloc : pool_wf s -> threads s !! i = Some t -> t_at t = Receiving ->
  runs (do_work_cancelled i alloc) s (fun _ => good_step s).
Proof.
  intros Hwf Ht Hat. unfold do_work_cancelled.
  eapply load_thread_bind; [done|]. apply (alloc_silent s i t alloc _ _ Hwf Ht). intros s1 Hs1.
  eapply runs_mono; [|intros a s'; by apply (silent_good s s1)].
  rewrite <- (si_threads _ _ Hs1) in Ht.
  pose proof (si_wf _ _ Hs1) as Hwf1. clear Hs1 Hwf. rename s into s0, s1 into s.
  assert (Hl : t_at t <> Leaving) by by rewrite Hat.
  destruct (pool_of _ _ _ Hwf1 Ht (pooled_at _ Hl)) as (m & l & j & Hin & _ & Hn1 & _).
  pose proof (ip_mt _ _ _ _ Hin) as Hm.
  go_to Hwf1 Ht Hin Hat Ended m (low s).
Qed.

Lemma fail_good s i t res : pool_wf s -> threads s !! i = Some t -> t_at t = Failing res ->
  runs (do_work_fail i res) s (fun _ => good_step s).
Proof.
  intros Hwf Ht Hat. assert (Hl : t_at t <> Leaving) by by rewrite Hat.
  destruct (pool_of _ _ _ Hwf Ht (pooled_at _ Hl)) as (m & l & j & Hin & _ & Hn1 & _).
  pose proof (ip_mt _ _ _ _ Hin) as Hm. unfold do_work_fail. eapply update_mt_bind; [done|].
  go_to Hwf Ht Hin Hat Posting (set_mt_error res m) (low s).
Qed.

Lemma post_good s i t : pool_wf s -> threads s !! i = Some t -> t_at t = Posting ->
  runs (do_work_post i) s (fun _ => good_step s).
Proof.
  intros Hwf Ht Hat. assert (Hl : t_at t <> Leaving) by by rewrite Hat.
  destruct (pool_of _ _ _ Hwf Ht (pooled_at _ Hl)) as (m & l & j & Hin & _ & Hn1 & _).
  pose proof (ip_mt _ _ _ _ Hin) as Hm. unfold do_work_post. eapply update_mt_bind; [done|].
  go_to Hwf Ht Hin Hat Ended (set_finish (finish m + 1) m) (low s).
  intros _ _ _. right. pose proof (ip_finish _ _ _ _ Hin). cbn. lia.
Qed.

(** The count of available workers, unless the message is a forget. *)
Lemma avail_bind {B} (f : bool) d (k : unit -> P B) s m Q : mt s = Some m ->
  runs (k tt) (set_mt (Some (set_numavail (numavail m + if f then 0 else d) m)) s) Q ->
  runs ((if negb f then update_mt (fun m => set_numavail (numavail m + d) m) else mret tt) ≫= k) s Q.
Proof.
  intros Hm Hk. destruct f; cbn.
  - mstep. eapply runs_from; [|exact Hk]. rewrite Z.add_0_r. by destruct s, m; cbn in *; subst.
  - by eapply update_mt_bind.
Qed.

(** A message is taken and a worker is added. *)
Lemma add_good s i t (f : bool) m l a i2 ch lk (lo : ll K) m' m'' : pool_wf s -> threads s !! i = Some t ->
  t_at t = Got -> in_pool s m l false -> numworker m < max_threads m ->
  se lo = se (low s) -> objs (low s) < a < i2 -> i2 <= objs lo ->
  session_wf (bump (held s) ch 1) lo -> m' = m \/ m' = set_clone_fd 0 m ->
  ListHead.is_list lk main_worker (l ++ [a]) ->
  (forall x, is_Some (lk !! x) <-> x = a \/ is_Some (links s !! x)) ->
  m'' = set_numworker (numworker m + 1)
          (set_numavail (numavail m + 1 - if f then 0 else 1) m') ->
  good_step s (mk_pool lo (Some m'') lk (<[a := mk_worker i2 0 0 0 ch]> (workers s))
    (<[i := set_at (Processing f) t]> (<[i2 := mk_thread a Checking false]> (threads s)))
    (bufs s) (configs s) (main s)).
Proof.
  intros Hwf Ht Hat Hin Hn Hse Ha Hi Hlo Hm' Hl Hlk ->.
  pose proof (pw_low _ Hwf) as Hlow. pose proof (pw_owned _ Hwf) as How.
  assert (Hp : pooled t = 1) by (apply pooled_at; by rewrite Hat).
  destruct (pool_of s i t Hwf Ht Hp) as (m0 & l0 & j & Hin0 & Hout & Hn1 & Hplace).
  assert (m0 = m) as -> by (destruct Hin, Hin0; congruence).
  assert (j = false) as -> by (destruct Hin, Hin0; congruence).
  assert (Ho : 0 <= objs (low s)) by by destruct Hlow as [[] _].
  assert (Hi2 : threads s !! i2 = None).
  { apply eq_None_not_Some. intros Hx. assert (i2 <= objs (low s)) by (apply (ow_used _ How); tauto). lia. }
  assert (Haw : workers s !! a = None).
  { apply eq_None_not_Some. intros Hx. assert (a <= objs (low s)) by (apply (ow_used _ How); tauto). lia. }
  assert (Hne : i2 <> i) by congruence.
  set (mA := set_numworker (numworker m + 1) (set_numavail (numavail m + 1) m')).
  set (sA := mk_pool lo (Some mA) lk (<[a := mk_worker i2 0 0 0 ch]> (workers s))
    (<[i2 := mk_thread a Checking false]> (threads s)) (bufs s) (configs s) (main s)).
  assert (HinA : in_pool sA mA (l ++ [a]) false).
  { apply (in_pool_add s m m' l a i2); [done..|lia|done]. }
  assert (HwfA : pool_wf sA).
  { split; [by apply held_add|by apply owned_add|apply (Hplace sA mA (l ++ [a])); [done..|unfold mA; cbn; lia]]. }
  assert (Hf : finish m' = finish m /\ max_idle m' = max_idle m /\ mt_locked m' = false /\ exit m' = false).
  { destruct Hin. by destruct Hm' as [->| ->]. }
  destruct Hf as (Hf1 & Hf2 & Hf3 & Hf4).
  assert (HtA : threads sA !! i = Some t) by (cbn; by rewrite lookup_insert_ne).
  split.
  - refine (proj1 (move_good sA mA (l ++ [a]) false i t (Processing f) _ lo HwfA HtA Hp HinA _ _ _ _ _ _ _ _ _));
      unfold busy, awake, over; rewrite ?Hat; cbn; auto; try lia; [apply HwfA|].
    unfold weight. rewrite Hat. cbn. intros ?. split; [lia|done].
  - split.
    + intros _. unfold measure. cbn. rewrite (total_replace weight _ i t) by by rewrite lookup_insert_ne.
      rewrite total_insert by done. unfold weight. rewrite Hat. cbn. lia.
    + intros Hov. left. unfold over in *. cbn. by rewrite Hse.
    + right. unfold idle_of. cbn. by rewrite Hf2, (ip_mt _ _ _ _ Hin).
    + intros _ _. unfold told. cbn. destruct (main s); try done. intros _. eexists. split; [done|]. right.
      exists i, (set_at (Processing f) t). by rewrite lookup_insert_eq.
Qed.

Lemma take_good s i t : pool_wf s -> threads s !! i = Some t -> t_at t = Got ->
  runs (do_work_take h sy i) s (fun _ => good_step s).
Proof.
  intros Hwf Ht Hat. assert (Hl : t_at t <> Leaving) by by rewrite Hat.
  destruct (pool_of _ _ _ Hwf Ht (pooled_at _ Hl)) as (m & l & j & Hin & _ & Hn1 & _).
  pose proof (ip_mt _ _ _ _ Hin) as Hm. pose proof (ip_lock _ _ _ _ Hin) as Hlk.
  pose proof (ip_exit _ _ _ _ Hin) as Hx.
  unfold do_work_take. eapply load_thread_bind; [done|].
  eapply lock_mt_bind; [done..|]. eapply load_mt_bind; [done|]. cbn.
  destruct (ow_thread _ (pw_owned _ Hwf) i t Ht) as (w & Hw & Hi).
  destruct (exit m) eqn:He.
  { eapply unlock_mt_bind; [done..|]. go_to Hwf Ht Hin Hat Ended (set_mt_locked false m) (low s). }
  subst j. eapply load_worker_bind; [exact Hw|]. set (f := is_forget w).
  eapply (avail_bind f (-1)); [done|]. eapply load_mt_bind; [done|]. cbn.
  destruct (_ && _) eqn:Hc; cycle 1.
  { mstep. eapply unlock_mt_bind; [done..|]. 
    go_to Hwf Ht Hin Hat (Processing f) (set_mt_locked false (set_numavail (numavail m + if f then 0 else -1) m)) (low s).
    destruct f; lia. }
  apply andb_prop in Hc as [_ Hc%Z.ltb_lt].
  set (m1 := set_numavail _ _). set (s1 := set_mt (Some m1) s).
  assert (Hin1 : ListHead.is_list (links s1) main_worker l) by apply Hin.
  apply runs_bind_assoc. eapply runs_bind.
  { apply (start_thread_runs h sy (held s) s1 m1 l); [done|done|apply Hwf|apply Hwf]. }
  intros r s2 Hs2. mstep. destruct Hs2 as [lo m' Hq Hlo Hm'|lo m' a i2 ch lk Hse Ha Hi2 Hlo Hm' Hl2 Hlk2].
  - assert (Hm1 : mt_locked m' = true /\ exit m' = exit m /\ numworker m' = numworker m /\
      max_threads m' = max_threads m /\ max_idle m' = max_idle m /\ finish m' = finish m /\
      numavail m' = numavail m + if f then 0 else -1) by (by destruct Hm' as [->| ->]).
    destruct Hm1 as (Hm1 & Hm2 & Hm3 & Hm4 & Hm5 & Hm6 & Hm7), Hq as [Hq1 Hq2].
    eapply unlock_mt_bind; [done..|].
    go_to Hwf Ht Hin Hat (Processing f) (set_mt_locked false m') lo.
    + done.
    + done.
    + split; [lia|]. destruct f; lia.
    + intros Ho. rewrite Hq1. by split.
  - cbn in Hse, Ha, Hlk2. assert (Hi2i : i2 <> i).
    { intros ->. assert (i <= objs (low s)); [|lia]. apply (ow_used _ (pw_owned _ Hwf)). rewrite Ht. eauto. }
    destruct Hm' as [->| ->]; (eapply unlock_mt_bind; [done..|]);
      (eapply go_runs; [cbn; by rewrite lookup_insert_ne|]).
    + eapply good_at; [|eapply (add_good s i t f m l a i2 ch lk lo m)]; try done; [by left|].
      clear -Hlk f. unfold m1, set_mt_locked, set_clone_fd, set_numworker, set_numavail. cbn.
      f_equal; [done|destruct f; lia].
    + eapply good_at; [|eapply (add_good s i t f m l a i2 ch lk lo (set_clone_fd 0 m))]; try done; [by right|].
      clear -Hlk f. unfold m1, set_mt_locked, set_clone_fd, set_numworker, set_numavail. cbn.
      f_equal; [done|destruct f; lia].
Qed.
End Threads.
