(* ===== verification/WorkersLeave.v ===== *)
(** * Workers that leave the pool (proofs about Workers) *)
From S2P Require Import Prelude PosixLock Types Buf FsOps Entry Dir LLTypes LowLevel LLReply LLData LLOps LLInit LLSession LLFacts LLRequests ListHead Workers WorkersFacts WorkersInv WorkersPool WorkersSteps.
#[local] Open Scope Z_scope.

Section Leave.
Context {K : Type} (h : host K) (sy : system K).
#[local] Abbreviation P := (M (pool K)).
Implicit Types (s : pool K) (m : fuse_mt) (w : fuse_worker) (t : thread).

(** A worker and its thread are gone, with what the worker had. *)
Lemma owned_remove s a i w t lk bs (lo : ll K) mm mn cf : owned s ->
  workers s !! a = Some w -> threads s !! i = Some t -> t_worker t = a -> thread_id w = i ->
  (forall x, x <> a -> is_Some (links s !! x) -> is_Some (lk !! x)) ->
  (forall x, is_Some (lk !! x) -> x <= objs (low s)) ->
  (forall b, b ∈ bs <-> b ∈ bufs s /\ b <> w_mem w) -> objs (low s) <= objs lo ->
  owned (mk_pool lo mm lk (delete a (workers s)) (delete i (threads s)) bs cf mn).
Proof.
  intros [H1 H2 H3 H4 H5 H6] Ha Hi Hta Hwi Hlk Hlk2 Hbs Hlo. split; cbn.
  - intros j u [Hne Hj]%lookup_delete_Some. destruct (H1 j u Hj) as (z & Hz & Hzi).
    exists z. rewrite lookup_delete_ne; [done|]. intros He. apply Hne. congruence.
  - intros x y [Hne Hx]%lookup_delete_Some. destruct (H2 x y Hx) as (u & Hu & Hux).
    exists u. rewrite lookup_delete_ne; [done|]. intros He. apply Hne. congruence.
  - intros x [y [Hne Hx]%lookup_delete_Some]. destruct (H3 x) as [Hl Hm]; eauto.
  - intros b. rewrite Hbs, H4. split.
    + intros [(Hne & x & y & Hx & Hy) Hb]. split; [done|]. exists x, y.
      rewrite lookup_delete_ne; [done|]. intros <-. congruence.
    + intros (Hne & x & y & [Hxa Hx]%lookup_delete_Some & Hy). split; [by eauto|].
      intros ->. apply Hxa. by eapply H5.
  - intros x1 x2 y1 y2 [_ Hx1]%lookup_delete_Some [_ Hx2]%lookup_delete_Some. by apply H5.
  - intros o Ho. cbn in *. assert (o <= objs (low s)); [|lia]. destruct Ho as [Ho|[Ho|[Ho|Ho]]].
    + by apply Hlk2.
    + apply H6. right. left. by destruct Ho as [y [_ Hy]%lookup_delete_Some].
    + apply H6. right. right. left. by destruct Ho as [y [_ Hy]%lookup_delete_Some].
    + apply H6. apply Hbs in Ho as [Ho _]. tauto.
Qed.

Lemma held_remove s a w (lo : ll K) : workers s !! a = Some w ->
  session_wf (bump (held s) (w_ch w) (-1)) lo ->
  session_wf (fun ch => if ch =? 0 then 0 else total (uses_ch ch) (delete a (workers s))) lo.
Proof.
  intros Ha. apply session_wf_ext. intros ch. unfold bump, held. rewrite (total_delete _ _ _ w Ha).
  unfold uses_ch at 2. case (Z.eqb_spec ch 0) as [->|Hne].
  - case (Z.eqb_spec 0 (w_ch w)) as [<-|]; done.
  - rewrite (Z.eqb_sym ch). case (Z.eqb_spec (w_ch w) ch) as [->|]; cbn; [|lia].
    rewrite (proj2 (Z.eqb_neq ch 0)) by done. cbn. lia.
Qed.

Lemma worker_holds s a w : workers s !! a = Some w -> w_ch w = 0 \/ 0 < held s (w_ch w).
Proof.
  intros Ha. destruct (decide (w_ch w = 0)) as [|Hne]; [by left|right]. unfold held.
  rewrite (proj2 (Z.eqb_neq _ 0) Hne).
  assert (H : uses_ch (w_ch w) w <= total (uses_ch (w_ch w)) (workers s)).
  { apply (total_ge _ _ a); [|done]. intros j x _. unfold uses_ch. case_match; lia. }
  unfold uses_ch at 1 in H. rewrite Z.eqb_refl in H. lia.
Qed.

Lemma owned_buf s a w : owned s -> workers s !! a = Some w ->
  0 ∉ bufs s /\ (w_mem w <> 0 -> w_mem w ∈ bufs s).
Proof.
  intros How Ha. split; [by intros [? _]%(ow_buf _ How)|]. intros Hne. apply (ow_buf _ How). eauto.
Qed.

(** The end of a worker: its buffer, its channel and its structure. *)
Lemma free_all_runs {B} s a w (k : P B) Q : session_wf (held s) (low s) ->
  (0 ∉ bufs s /\ (w_mem w <> 0 -> w_mem w ∈ bufs s)) -> workers s !! a = Some w ->
  (forall (lo : ll K) bs, quiet (low s) lo -> session_wf (bump (held s) (w_ch w) (-1)) lo ->
     (forall b, b ∈ bs <-> b ∈ bufs s /\ b <> w_mem w) ->
     runs k (mk_pool lo (mt s) (delete a (links s)) (delete a (workers s)) (threads s) bs
               (configs s) (main s)) Q) ->
  runs (free_buf (w_mem w);; liftLow (fuse_chan_put h (w_ch w));; free_worker a;; k) s Q.
Proof.
  intros Hw [H0b Hbw] Ha Hk.
  assert (Hb : runs (free_buf (w_mem w)) s (fun _ s' => exists bs, s' = set_bufs bs s /\
    forall b, b ∈ bs <-> b ∈ bufs s /\ b <> w_mem w)).
  { unfold free_buf. case (Z.eqb_spec (w_mem w) 0) as [H0|Hne].
    - apply runs_ret. exists (bufs s). split; [by destruct s|]. intros b. rewrite H0.
      split; [|tauto]. intros Hb. split; [done|]. by intros ->.
    - mstep. rewrite decide_True by auto.
      eexists _, _. split; [done|]. eexists. split; [done|]. intros b. set_solver. }
  eapply runs_bind; [exact Hb|]. intros [] s1 (bs & -> & Hbs).
  eapply low_bind; [by apply (chan_put_runs h (held s) (low s)); [|by eapply worker_holds]|].
  intros [] lo [Hlo Hq]. unfold free_worker. apply runs_bind_assoc.
  eapply load_worker_bind; [exact Ha|]. mstep. by apply Hk.
Qed.

Lemma runs_last {A B} (a : P A) (b : P B) (c : P unit) s (Q : pool K -> Prop) :
  runs (a;; b;; c;; mret tt) s (fun _ => Q) -> runs (a;; b;; c) s (fun _ => Q).
Proof.
  intros (x & s' & Hr & HQ). exists tt, s'. split; [|done]. revert Hr.
  unfold mbind, M_bind, mret, M_ret. destruct (a s) as [[? s1]|]; [|done].
  destruct (b s1) as [[? s2]|]; [|done]. destruct (c s2) as [[[] s3]|]; [|done]. by intros [= _ ->].
Qed.

Lemma not_listed s m l j i t : owned s -> in_pool s m l j -> threads s !! i = Some t ->
  pooled t = 0 -> t_worker t ∉ l.
Proof.
  intros How Hin Ht Hp Hx. apply (ip_elem _ _ _ _ Hin) in Hx as (k & u & Hk & Hw & Hu).
  destruct (ow_thread _ How i t Ht) as (w & Hwi & Hi), (ow_thread _ How k u Hk) as (w' & Hwk & Hk').
  rewrite Hw, Hwi in Hwk. injection Hwk as <-. assert (u = t) by congruence. subst. lia.
Qed.

Lemma is_list_forget (lk : gmap Z ListHead.list_head) hd l a : ListHead.is_list lk hd l ->
  a ∉ hd :: l -> ListHead.is_list (delete a lk) hd l.
Proof.
  intros [Hnd Hf] Ha. split; [done|].
  eapply ListHead.links_frame; [exact Hf|..]; intros b Hb; unfold ListHead.nxt, ListHead.prv;
    rewrite lookup_delete_ne; try done; intros <-; apply Ha; [done|].
  apply elem_of_app in Hb as [Hb|Hb%list_elem_of_singleton]; [by right|subst; by left].
Qed.

(** Links of others, and threads that are not in the pool, do not matter to it. *)
Lemma in_pool_gone s m l j i t a s' : in_pool s m l j -> threads s !! i = Some t -> pooled t = 0 ->
  a ∉ main_worker :: l -> mt s' = mt s -> links s' = delete a (links s) ->
  threads s' = delete i (threads s) -> in_pool s' m l j.
Proof.
  intros [] Ht Hp Ha Hm Hl Hth.
  assert (Hb : busy t = 0) by (pose proof (busy_pooled t); lia).
  split; rewrite ?Hm, ?Hl, ?Hth; try done.
  - by apply is_list_forget.
  - intros x. rewrite ip_elem. split; intros (k & u & Hk & Hu & Hpu).
    + exists k, u. rewrite lookup_delete_ne; [done|]. intros <-. assert (u = t) by congruence. subst. lia.
    + apply lookup_delete_Some in Hk as [_ Hk]. eauto.
  - rewrite (total_delete _ _ _ t Ht). lia.
  - rewrite (total_delete _ _ _ t Ht). lia.
  - intros Hj k u [_ Hk]%lookup_delete_Some. by eapply ip_cancel.
Qed.

Lemma leave_good s i t : pool_wf s -> threads s !! i = Some t -> t_at t = Leaving ->
  runs (do_work_leave h i) s (fun _ => good_step s).
Proof.
  intros Hwf Ht Hat. assert (Hp : pooled t = 0) by (unfold pooled; by rewrite Hat).
  pose proof (pw_owned _ Hwf) as How. pose proof (pw_low _ Hwf) as Hlow.
  destruct (ow_thread _ How i t Ht) as (w & Hw & Hi).
  unfold do_work_leave. eapply load_thread_bind; [done|]. eapply load_worker_bind; [exact Hw|].
  rewrite Hi. eapply load_thread_bind; [done|].
  apply (free_all_runs s (t_worker t) w); [done|by eapply owned_buf|done|]. intros lo bs Hq Hlo Hbs.
  eexists _, _. split; [done|].
  set (s' := mk_pool lo (mt s) (delete (t_worker t) (links s)) (delete (t_worker t) (workers s))
    (delete i (threads s)) bs (configs s) (main s)).
  apply (good_at s s'); [done|].
  assert (Hout : outside s -> place s').
  { intros [r Hr]. pose proof (pw_place _ Hwf) as Hpl. unfold place in *. cbn. rewrite Hr in *.
    destruct Hpl as [Hm Hth]. split; [done|]. intros k u [_ Hk]%lookup_delete_Some. eauto. }
  assert (Hin : forall m l j, in_pool s m l j -> in_pool s' m l j).
  { intros m l j Hin. apply (in_pool_gone s m l j i t (t_worker t)); try done.
    apply not_elem_of_cons. split; [apply (ow_link _ How); eauto|by eapply not_listed]. }
  split.
  - split; [by eapply held_remove| |].
    + apply (owned_remove s (t_worker t) i w t); try done; [..|apply Hq].
      * intros x Hx Hl. by rewrite lookup_delete_ne.
      * intros x [y [_ Hx]%lookup_delete_Some]. apply (ow_used _ How). left. eauto.
    + pose proof (pw_place _ Hwf) as Hpl. unfold place in Hpl, Hout |- *.
      assert (Hms : main s' = main s) by done. assert (Hcs : configs s' = configs s) by done.
      rewrite Hms in *. clearbody s'.
      destruct (main s) as [r|c a|c a|c a] eqn:Hm; [by apply Hout; eexists|..];
        destruct Hpl as (Hf & m & l & Hi' & Hn);
        (split; [unfold frame, config_ok; by rewrite Hcs|]); exists m, l; (split; [by apply Hin|done]).
  - split.
    + intros _. unfold measure. cbn. rewrite (total_delete _ _ _ t Ht). unfold weight at 2. rewrite Hat. lia.
    + intros Ho. left. unfold over in *. cbn. by rewrite (proj1 Hq).
    + by right.
    + intros _. unfold told, over. cbn. rewrite (proj1 Hq). destruct (main s); try done.
      intros Htold Ho. destruct (Htold Ho) as (m & Hm & Hx). exists m. split; [done|].
      destruct Hx as [|(k & u & Hk & Hu)]; [by left|right]. exists k, u.
      rewrite lookup_delete_ne; [done|]. intros <-. assert (u = t) by congruence. subst.
      unfold awake in Hu. by rewrite Hat in Hu.
Qed.

(** A worker is taken out of the list. *)
Lemma in_pool_del s m m' l1 l2 i t lk : owned s -> in_pool s m (l1 ++ t_worker t :: l2) false ->
  threads s !! i = Some t -> pooled t = 1 ->
  ListHead.is_list lk main_worker (l1 ++ l2) -> numworker m' = numworker m - 1 ->
  numavail m' = numavail m + busy t - 1 -> 1 <= numworker m' ->
  (mt_locked m' = false /\ exit m' = false /\ max_threads m' = max_threads m /\ finish m' = finish m) ->
  in_pool (mk_pool (low s) (Some m') lk (workers s) (<[i := set_at Leaving t]> (threads s)) (bufs s)
    (configs s) (main s)) m' (l1 ++ l2) false.
Proof.
  intros How [] Ht Hp Hlk Hn Ha Hn1 (Hl & Hx & Hmax & Hf).
  assert (Huniq : forall k u, threads s !! k = Some u -> t_worker u = t_worker t -> k = i).
  { intros k u Hk Hu. destruct (ow_thread _ How i t Ht) as (w & Hwi & Hi), (ow_thread _ How k u Hk) as (w' & Hwk & Hk').
    rewrite Hu, Hwi in Hwk. congruence. }
  assert (Hnd : t_worker t ∉ l1 ++ l2).
  { destruct ip_list as [Hnd _]. rewrite app_comm_cons, <- Permutation_middle in Hnd.
    apply NoDup_cons in Hnd as [Hnd _]. set_solver. }
  assert (Hlen : Z.of_nat (length (l1 ++ l2)) = Z.of_nat (length (l1 ++ t_worker t :: l2)) - 1).
  { rewrite !length_app. cbn. lia. }
  split; cbn; rewrite ?Hl, ?Hx, ?Hmax, ?Hf; try done.
  - intros x. split.
    + intros Hxl. assert (Hx1 : x ∈ l1 ++ t_worker t :: l2) by set_solver.
      apply ip_elem in Hx1 as (k & u & Hk & Hu & Hpu). exists k, u. rewrite lookup_insert_ne; [done|].
      intros <-. apply Hnd. by assert (u = t) as -> by congruence; subst x.
    + intros (k & u & Hk & Hu & Hpu). apply lookup_insert_Some in Hk as [[<- <-]|[Hne Hk]]; [done|].
      assert (Hx1 : x ∈ l1 ++ t_worker t :: l2) by (apply ip_elem; eauto).
      assert (x <> t_worker t); [|set_solver]. intros ->. apply Hne. symmetry. by eapply Huniq.
  - rewrite (total_replace busy _ i t _ Ht). unfold busy at 3. cbn. lia.
  - rewrite (total_replace pooled _ i t _ Ht). unfold pooled at 3. cbn. lia.
  - lia.
  - lia.
Qed.

Lemma done_good s i t f : pool_wf s -> threads s !! i = Some t -> t_at t = Processing f ->
  runs (do_work_done i f) s (fun _ => good_step s).
Proof.
  intros Hwf Ht Hat. assert (Hl : t_at t <> Leaving) by by rewrite Hat.
  destruct (pool_of _ _ _ Hwf Ht (pooled_at _ Hl)) as (m & l & j & Hin & _ & Hn1 & Hpl).
  pose proof (ip_mt _ _ _ _ Hin) as Hm. pose proof (ip_lock _ _ _ _ Hin) as Hlk.
  pose proof (ip_exit _ _ _ _ Hin) as Hx. pose proof (pw_owned _ Hwf) as How.
  unfold do_work_done. eapply load_thread_bind; [done|].
  eapply lock_mt_bind; [done..|]. eapply (avail_bind f 1); [done|]. eapply load_mt_bind; [done|]. cbn.
  destruct (_ && _) eqn:Hc; cycle 1.
  { eapply unlock_mt_bind; [done..|].
    go_to Hwf Ht Hin Hat Checking (set_mt_locked false (set_numavail (numavail m + if f then 0 else 1) m)) (low s). }
  destruct (exit m) eqn:He.
  { eapply unlock_mt_bind; [done..|].
    go_to Hwf Ht Hin Hat Ended (set_mt_locked false (set_numavail (numavail m + if f then 0 else 1) m)) (low s). }
  subst j. apply andb_prop in Hc as [[Hc1 _]%andb_prop Hc2%Z.ltb_lt].
  assert (Hal : t_worker t ∈ l) by (apply (ip_elem _ _ _ _ Hin); exists i, t; by split_and!; [..|apply pooled_at]).
  apply list_elem_of_split in Hal as (l1 & l2 & ->).
  eapply runs_bind.
  { apply (list_del_worker_runs _ main_worker l1 (t_worker t) l2). apply Hin. }
  intros [] s1 (lk & -> & Hlist & Hoat). cbn in Hoat.
  eapply update_mt_bind; [done|]. eapply update_mt_bind; [done|]. eapply unlock_mt_bind; [done..|].
  eapply go_runs; [exact Ht|].
  set (m' := set_numworker (numworker m - 1) (set_numavail (numavail m + busy t - 1) m)).
  apply (good_at _ (mk_pool (low s) (Some m') lk (workers s) (<[i := set_at Leaving t]> (threads s))
    (bufs s) (configs s) (main s))).
  { unfold m', busy. rewrite Hat. destruct s, m, f; cbn in *; subst; repeat f_equal; lia. }
  assert (Hin' : in_pool (mk_pool (low s) (Some m') lk (workers s) (<[i := set_at Leaving t]> (threads s))
    (bufs s) (configs s) (main s)) m' (l1 ++ l2) false).
  { apply (in_pool_del s m); try done; [by apply pooled_at|cbn; lia]. }
  assert (Hlks : forall x, is_Some (lk !! x) <-> is_Some (links s !! x)).
  { apply (only_at_mapped _ _ _ Hoat). intros x Hx'. split; [|by eapply is_list_mapped].
    eapply is_list_mapped; [apply Hin|]. set_solver. }
  split.
  - split; [apply Hwf| |].
    + destruct (owned_move s i t (set_at Leaving t) How Ht eq_refl) as [H1 H2 H3 H4 H5 H6].
      split; try done; cbn.
      * intros x Hw. rewrite Hlks. by apply H3.
      * intros o Ho. apply (H6 o). cbn in Ho |- *. rewrite Hlks in Ho. exact Ho.
    + apply (Hpl _ m' (l1 ++ l2)); try done. cbn. lia.
  - split.
    + intros _. unfold measure. cbn. rewrite (total_replace weight _ i t _ Ht).
      unfold weight at 2 3. rewrite Hat. cbn. lia.
    + intros Ho. by left.
    + right. unfold idle_of. cbn. by rewrite Hm.
    + intros Hk. rewrite (Hk m Hm) in Hc1. discriminate Hc1.
Qed.
End Leave.
