(* ===== verification/WorkersMain.v ===== *)
(** * The thread that waits for the workers (proofs about Workers) *)
From S2P Require Import Prelude PosixLock Types Buf FsOps Entry Dir LLTypes LowLevel LLReply LLData LLOps LLInit LLSession LLFacts LLRequests ListHead Workers WorkersFacts WorkersInv WorkersPool WorkersSteps WorkersLeave.
#[local] Open Scope Z_scope.

Lemma total_fmap {A} (f : A -> Z) (g : A -> A) (m : gmap Z A) : (forall x, f (g x) = f x) ->
  total f (g <$> m) = total f m.
Proof.
  intros Hg. induction m as [|i x m Hi IH] using map_ind; [by rewrite fmap_empty|].
  rewrite fmap_insert, !total_insert, Hg, IH; [done|done|]. by rewrite lookup_fmap, Hi.
Qed.

Lemma total_zero {A} (f : A -> Z) (m : gmap Z A) : (forall i x, m !! i = Some x -> f x = 0) ->
  total f m = 0.
Proof.
  induction m as [|i x m Hi IH] using map_ind; intros H; [done|].
  rewrite total_insert by done. rewrite (H i x) by by simplify_map_eq.
  rewrite IH; [done|]. intros j y Hj. apply (H j). rewrite lookup_insert_ne; [done|].
  by intros ->; simplify_map_eq.
Qed.

Section Main.
Context {K : Type} (h : host K) (sy : system K).
#[local] Abbreviation P := (M (pool K)).
Implicit Types (s : pool K) (m : fuse_mt) (w : fuse_worker) (t : thread).

(** ** Cancelling the workers *)
Lemma list_next (lk : gmap Z ListHead.list_head) hd0 l1 x l2 : ListHead.is_list lk hd0 (l1 ++ x :: l2) ->
  exists n, lk !! x = Some n /\ ListHead.next n = hd hd0 l2.
Proof.
  intros [_ H]. destruct (Forall2_lookup_l _ _ _ (S (length l1)) x H) as (y & Hy & Hn & _).
  { change ((l1 ++ x :: l2) !! length l1 = Some x). by apply list_lookup_middle. }
  unfold ListHead.nxt in Hn. destruct (lk !! x) as [n|]; [|done]. exists n. split; [done|].
  injection Hn as Hn. rewrite Hn. clear -Hy. replace (l1 ++ x :: l2) with ((l1 ++ [x]) ++ l2) in Hy
    by by rewrite <- app_assoc.
  rewrite <- app_assoc, lookup_app_r in Hy by (rewrite length_app; cbn; lia).
  rewrite length_app in Hy. cbn in Hy. replace (S (length l1) - (length l1 + 1))%nat with 0%nat in Hy by lia.
  destruct l2; cbn in *; congruence.
Qed.

Definition cancel_in (l : list Z) t : thread := if decide (t_worker t ∈ l) then set_cancel t else t.

Lemma cancel_runs fuel : forall s l1 l2, owned s ->
  ListHead.is_list (links s) main_worker (l1 ++ l2) ->
  (forall a, a ∈ l2 -> is_Some (workers s !! a)) -> (length l2 <= fuel)%nat ->
  runs (cancel_workers fuel (hd main_worker l2)) s
    (fun _ s' => s' = set_threads (cancel_in l2 <$> threads s) s).
Proof.
  induction fuel as [|fuel IH]; intros s l1 l2 How Hl Hw Hf.
  - destruct l2; [|cbn in Hf; lia]. apply runs_ret. 
    rewrite (map_fmap_ext _ id), map_fmap_id; [by destruct s|]. intros i t _. unfold cancel_in. done.
  - destruct l2 as [|a l2]; cbn [hd cancel_workers].
    { rewrite Z.eqb_refl. apply runs_ret.
      rewrite (map_fmap_ext _ id), map_fmap_id; [by destruct s|]. intros i t _. unfold cancel_in. done. }
    destruct (Hw a) as [w Ha]; [by left|]. destruct (ow_worker _ How a w Ha) as (t & Ht & Hta).
    rewrite (proj2 (Z.eqb_neq a main_worker)) by (apply (ow_link _ How); eauto).
    eapply load_worker_bind; [exact Ha|]. eapply update_thread_bind; [exact Ht|].
    destruct (list_next _ _ _ _ _ Hl) as (n & Hn & Hnx). eapply load_link_bind; [exact Hn|]. rewrite Hnx.
    eapply runs_mono.
    { apply (IH _ (l1 ++ [a])); cbn; [by apply (owned_move s (thread_id w) t)|by rewrite <- app_assoc| |].
      - intros b Hb. apply Hw. by right.
      - cbn in Hf. lia. }
    intros [] s' ->. cbn. unfold set_threads. cbn. f_equal. apply map_eq. intros k.
    rewrite !lookup_fmap. destruct (decide (k = thread_id w)) as [->|Hne].
    + rewrite lookup_insert_eq, Ht. cbn. f_equal. unfold cancel_in. cbn. rewrite Hta.
      rewrite (decide_True (P := a ∈ a :: l2)) by by left. by case_decide.
    + rewrite lookup_insert_ne by done. destruct (threads s !! k) as [u|] eqn:Hk; [|done]. cbn. f_equal.
      unfold cancel_in. destruct (decide (t_worker u ∈ l2)) as [Hu|Hu].
      * rewrite decide_True; [done|by right].
      * rewrite decide_False; [done|]. apply not_elem_of_cons. split; [|done]. intros He. apply Hne.
        destruct (ow_thread _ How k u Hk) as (w' & Hw' & <-). rewrite He in Hw'. congruence.
Qed.

Lemma links_enough s m l j : in_pool s m l j -> (length l <= size (links s))%nat.
Proof.
  intros Hin. destruct (ip_list _ _ _ _ Hin) as [Hnd _]. apply NoDup_cons in Hnd as [_ Hnd].
  rewrite <- size_dom, <- (size_list_to_set (C := gset Z) l Hnd). apply subseteq_size.
  intros x Hx%elem_of_list_to_set. apply elem_of_dom.
  eapply is_list_mapped; [apply Hin|]. by right.
Qed.

Lemma owned_fmap s (g : thread -> thread) : (forall t, t_worker (g t) = t_worker t) -> owned s ->
  owned (set_threads (g <$> threads s) s).
Proof.
  intros Hg [H1 H2 H3 H4 H5 H6]. split; try done; cbn.
  - intros i t Ht. rewrite lookup_fmap in Ht. apply fmap_Some in Ht as (u & Hu & ->). rewrite Hg. auto.
  - intros a w Ha. destruct (H2 a w Ha) as (t & Ht & Hta). exists (g t).
    rewrite lookup_fmap, Ht. split; [done|]. by rewrite Hg.
  - intros o Ho. apply (H6 o). cbn in Ho. by rewrite lookup_fmap, fmap_is_Some in Ho.
Qed.

(** The pool after its workers were cancelled. *)
Lemma in_pool_cancel s m m' l : in_pool s m l false ->
  m' = set_mt_locked false (set_exit true (set_mt_locked true m)) ->
  in_pool (set_mt (Some m') (set_threads (cancel_in l <$> threads s) s)) m' l true.
Proof.
  intros [] ->.
  assert (Hg : forall t, t_worker (cancel_in l t) = t_worker t /\ pooled (cancel_in l t) = pooled t /\
    busy (cancel_in l t) = busy t) by (intros t; unfold cancel_in; by case_decide).
  split; cbn; try done; try lia.
  - intros a. rewrite ip_elem. split; intros (i & t & Hi & Ht & Hp).
    + exists i, (cancel_in l t). rewrite lookup_fmap, Hi. destruct (Hg t) as (-> & -> & _). done.
    + rewrite lookup_fmap in Hi. apply fmap_Some in Hi as (u & Hu & ->).
      destruct (Hg u) as (Hu1 & Hu2 & _). exists i, u. by rewrite <- Hu1, <- Hu2.
  - rewrite total_fmap by apply Hg. done.
  - rewrite total_fmap by apply Hg. done.
  - intros _ i t Hi Hp. rewrite lookup_fmap in Hi. apply fmap_Some in Hi as (u & Hu & ->).
    destruct (Hg u) as (_ & Hu2 & _). unfold cancel_in. rewrite decide_True; [done|].
    apply ip_elem. exists i, u. by rewrite <- Hu2.
Qed.

(** ** The steps of the thread that waits *)
Lemma pool_of_main s c a : main s = Testing c a \/ main s = Sleeping c a -> pool_wf s ->
  frame s c a /\ exists m l, in_pool s m l false /\ 1 <= numworker m /\ mt s = Some m.
Proof.
  intros Hm [_ _ Hp]. unfold place in Hp. destruct Hm as [Hm|Hm]; rewrite Hm in Hp;
    destruct Hp as (Hf & m & l & Hin & Hn); (split; [done|]); exists m, l; split_and!; try done; apply Hin.
Qed.

Lemma test_good s c a : pool_wf s -> main s = Testing c a ->
  runs (main_test c a) s (fun _ => good_step s).
Proof.
  intros Hwf Hmain. destruct (pool_of_main s c a (or_introl Hmain) Hwf) as (Hfr & m & l & Hin & Hn & Hm).
  pose proof (pw_owned _ Hwf) as How. unfold main_test. apply exited_bind.
  destruct (over s) eqn:Ho; cycle 1.
  { eexists _, _. split; [done|]. split; [split; [apply Hwf|by apply (owned_same s)|]|split].
    - split; [done|]. exists m, l. split; [by apply (in_pool_same s)|done].
    - congruence.
    - congruence.
    - by right.
    - intros _ _ Hx. change (over s = true) in Hx. congruence. }
  eapply lock_mt_bind; [done|apply Hin|]. mstep.
  destruct (ListHead.list_end_next _ _ _ (ip_list _ _ _ _ Hin)) as [Hnx Hpv].
  eapply load_link_bind; [by apply ListHead.nxt_prv|]. cbn [ListHead.next].
  eapply runs_bind.
  { apply (cancel_runs _ _ [] l); cbn.
    - by apply (owned_same s).
    - apply Hin.
    - intros x Hx. apply (ip_elem _ _ _ _ Hin) in Hx as (i & t & Ht & <- & _).
      destruct (ow_thread _ How i t Ht) as (w & Hw & _). eauto.
    - by eapply links_enough. }
  intros [] s1 ->. eapply update_mt_bind; [done|]. eapply unlock_mt_bind; [done..|].
  set (m' := set_mt_locked false (set_exit true (set_mt_locked true m))).
  set (s' := mk_pool (low s) (Some m') (links s) (workers s) (cancel_in l <$> threads s) (bufs s)
    (configs s) (Joining c a)).
  eexists _, _. split; [done|]. apply (good_at s s'); [by destruct s|].
  pose proof (in_pool_cancel s m m' l Hin eq_refl) as Hin'.
  assert (Hg : forall t, t_worker (cancel_in l t) = t_worker t /\ weight (cancel_in l t) = weight t)
    by (intros t; unfold cancel_in; by case_decide).
  split; [split; [apply Hwf| |]|split].
  - apply (owned_same (set_threads (cancel_in l <$> threads s) s)); try done.
    apply owned_fmap; [apply Hg|done].
  - split; [done|]. exists m', l. split; [by eapply in_pool_same; [..|exact Hin']|done].
  - intros _. unfold measure. cbn. rewrite Hmain, total_fmap by apply Hg. cbn. lia.
  - intros _. by left.
  - right. unfold idle_of. cbn. by rewrite Hm.
  - done.
Qed.

Lemma wake_good s c a m : pool_wf s -> main s = Sleeping c a -> mt s = Some m -> 0 < finish m ->
  runs (main_wake c a) s (fun _ => good_step s).
Proof.
  intros Hwf Hmain Hm Hfin.
  destruct (pool_of_main s c a (or_intror Hmain) Hwf) as (Hfr & m0 & l & Hin & Hn & Hm0).
  assert (m0 = m) as -> by congruence. unfold main_wake. eapply load_mt_bind; [done|].
  rewrite (proj2 (Z.leb_gt _ _)) by done. eapply update_mt_bind; [done|].
  eexists _, _. split; [done|]. split; [split; [apply Hwf| |]|split].
  - by apply (owned_same s), Hwf.
  - split; [done|]. exists (set_finish (finish m - 1) m), l. split; [|done].
    destruct Hin. split; try done. cbn. lia.
  - intros _. unfold measure. cbn. rewrite Hmain. cbn. lia.
  - intros Ho. by left.
  - right. unfold idle_of. cbn. by rewrite Hm.
  - done.
Qed.

(** A worker that has ended is joined. *)
Lemma in_pool_join s m a l i t s' : owned s -> in_pool s m (a :: l) true -> threads s !! i = Some t ->
  t_worker t = a -> t_at t = Ended -> mt s' = Some m -> ListHead.is_list (links s') main_worker l ->
  threads s' = delete i (threads s) -> in_pool s' m l true.
Proof.
  intros How [] Ht Ha Hat Hm Hl Hth. destruct ip_list as [Hnd _].
  apply NoDup_cons in Hnd as [_ Hnd]. apply NoDup_cons in Hnd as [Hal _].
  split; rewrite ?Hth; try done.
  - intros x. split.
    + intros Hx. assert (Hx1 : x ∈ a :: l) by by right. apply ip_elem in Hx1 as (k & u & Hk & Hu & Hp).
      exists k, u. rewrite lookup_delete_ne; [done|]. intros <-. assert (u = t) by congruence. subst. done.
    + intros (k & u & [Hne Hk]%lookup_delete_Some & Hu & Hp).
      assert (Hx : x ∈ a :: l) by (apply ip_elem; eauto). apply elem_of_cons in Hx as [->|]; [|done].
      exfalso. apply Hne. destruct (ow_thread _ How i t Ht) as (w & Hw & <-), (ow_thread _ How k u Hk) as (w' & Hw' & <-).
      congruence.
  - rewrite (total_delete _ _ _ t Ht). unfold busy at 2. rewrite Hat. lia.
  - rewrite (total_delete _ _ _ t Ht). unfold pooled at 2. rewrite Hat. cbn in ip_length. lia.
  - cbn in ip_count. lia.
  - intros Hj k u [_ Hk]%lookup_delete_Some. by eapply ip_cancel.
Qed.

Lemma join_good s c a m b l w t : pool_wf s -> main s = Joining c a -> in_pool s m (b :: l) true ->
  1 <= numworker m -> frame s c a -> workers s !! b = Some w -> threads s !! thread_id w = Some t ->
  t_at t = Ended -> runs (fuse_join_worker h b) s (fun _ => good_step s).
Proof.
  intros Hwf Hmain Hin Hn Hfr Hw Ht Hat. pose proof (pw_owned _ Hwf) as How.
  pose proof (ip_mt _ _ _ _ Hin) as Hm. pose proof (ip_lock _ _ _ _ Hin) as Hlk.
  assert (Htw : t_worker t = b) by (destruct (ow_worker _ How b w Hw) as (u & Hu & <-); congruence).
  unfold fuse_join_worker. eapply load_worker_bind; [exact Hw|]. eapply load_thread_bind; [exact Ht|].
  rewrite decide_True by done. mstep. eapply lock_mt_bind; [done..|].
  eapply runs_bind; [apply (list_del_worker_runs _ main_worker [] b l), Hin|].
  intros [] s1 (lk & -> & Hlist & Hoat). cbn in Hoat, Hlist. eapply unlock_mt_bind; [done..|].
  assert (Hbl : b ∉ main_worker :: l).
  { destruct (ip_list _ _ _ _ Hin) as [Hnd _]. apply NoDup_cons in Hnd as [Hmb Hnd].
    apply NoDup_cons in Hnd as [Hbl _]. set_solver. }
  assert (Hlks : forall x, is_Some (lk !! x) <-> is_Some (links s !! x)).
  { apply (only_at_mapped _ _ _ Hoat). intros x Hx'. split; [|by eapply is_list_mapped].
    eapply is_list_mapped; [apply Hin|]. set_solver. }
  apply runs_last.
  set (s2 := set_mt _ _).
  assert (Hs2 : s2 = mk_pool (low s) (Some m) lk (workers s) (delete (thread_id w) (threads s)) (bufs s)
    (configs s) (main s)) by (destruct m; cbn in *; subst; done).
  clearbody s2. subst s2.
  apply (free_all_runs h _ b w).
  { apply Hwf. }
  { by eapply (owned_buf s). }
  { done. }
  intros lo bs Hq Hlo Hbs. cbn in Hq, Hlo, Hbs. apply runs_ret. cbn.
  set (s' := mk_pool _ _ _ _ _ _ _ _).
  assert (Hin' : in_pool s' m l true).
  { apply (in_pool_join s m b l (thread_id w) t); try done. by apply is_list_forget. }
  split; [split; [by apply (held_remove s b w)| |]|split].
  - apply (owned_remove s b (thread_id w) w t); try done; [..|apply Hq].
    + intros x Hx Hl. rewrite lookup_delete_ne by done. by apply Hlks.
    + intros x [y [_ Hx]%lookup_delete_Some]. apply (ow_used _ How). left. apply Hlks. eauto.
  - unfold place. cbn. rewrite Hmain. split; [done|]. by exists m, l.
  - intros _. unfold measure. cbn. rewrite (total_delete _ _ _ t Ht). unfold weight at 2. rewrite Hat. lia.
  - intros Ho. left. unfold over in *. cbn. by rewrite (proj1 Hq).
  - right. unfold idle_of. cbn. by rewrite Hm.
  - intros _ _. unfold told. cbn. by rewrite Hmain.
Qed.

(** ** The end of the call *)
Lemma destroy_bind {B} c (k : unit -> P B) s Q : config_ok s c ->
  runs (k tt) (set_configs (if c =? 0 then configs s else delete c (configs s)) s) Q ->
  runs (fuse_loop_cfg_destroy c ≫= k) s Q.
Proof.
  intros Hc Hk. unfold fuse_loop_cfg_destroy. case (Z.eqb_spec c 0) as [->|Hne].
  - mstep. by destruct s.
  - destruct Hc as [|[x Hx]]; [done|]. unfold load_config. apply runs_bind_assoc. mstep.
    mstep. rewrite Hx. mstep. by mstep.
Qed.

Definition fresh (l : ll K) : ll K := set_se (set_se_error 0 (set_exited false (se l))) l.

Lemma reset_bind {B} (k : unit -> P B) s Q : runs (k tt) (set_low (fresh (low s)) s) Q ->
  runs (liftLow fuse_session_reset ≫= k) s Q.
Proof. done. Qed.

Definition result_of s (err : Z) : Z :=
  if se_error (se (low s)) =? 0 then err else se_error (se (low s)).

Lemma return_runs s m created after err : owned s -> session_wf (held s) (low s) ->
  frame s created after -> mt s = Some m -> mt_locked m = false ->
  (forall i t, threads s !! i = Some t -> pooled t = 0) ->
  runs (loop_mt_return created after err) s (fun _ s' =>
    pool_wf s' /\ threads s' = threads s /\ mt s' = None /\
    main s' = Outside (Some (result_of s err))).
Proof.
  intros How Hlow (Hc & Ha & Hne) Hm Hl Hth. unfold loop_mt_return.
  eapply load_mt_bind; [done|]. rewrite Hl. apply runs_assert_bind; [done|]. mstep. mstep.
  apply reset_bind. cbn.
  eapply destroy_bind; [done|]. eapply destroy_bind.
  { destruct Ha as [->|Ha]; [by left|]. right. cbn. case_match; [done|].
    destruct Ha as [x Hx]. exists x. rewrite lookup_delete_ne; [done|]. apply Hne. lia. }
  eexists _, _. split; [done|]. cbn. split; [split|]; cbn.
  - by apply session_wf_se.
  - destruct How as [H1 H2 H3 H4 H5 H6]. split; try done; cbn.
    + intros x Hx. destruct (H3 x Hx) as [Hl' Hne']. rewrite lookup_delete_ne by done. done.
    + intros o Ho. apply (H6 o). cbn in Ho. destruct Ho as [[y [_ Hy]%lookup_delete_Some]|Ho]; [|tauto].
      left. eauto.
  - done.
  - split_and!; try done. unfold result_of. do 2 f_equal. by case (se_error (se (low s)) =? 0).
Qed.

Lemma join_step_good s c a : pool_wf s -> main s = Joining c a ->
  (forall m b l w t, in_pool s m (b :: l) true -> workers s !! b = Some w ->
     threads s !! thread_id w = Some t -> t_at t = Ended) ->
  runs (main_join h c a) s (fun _ => good_step s).
Proof.
  intros Hwf Hmain Hend. pose proof (pw_owned _ Hwf) as How. pose proof (pw_place _ Hwf) as Hpl.
  unfold place in Hpl. rewrite Hmain in Hpl. destruct Hpl as (Hfr & m & l & Hin & Hn).
  unfold main_join. destruct (ListHead.list_end_next _ _ _ (ip_list _ _ _ _ Hin)) as [Hnx Hpv].
  eapply load_link_bind; [by apply ListHead.nxt_prv|]. cbn [ListHead.next].
  destruct l as [|b l]; cbn [hd].
  - rewrite Z.eqb_refl. eapply load_mt_bind; [apply Hin|].
    assert (Hth : forall i t, threads s !! i = Some t -> pooled t = 0).
    { intros i t Ht. pose proof (ip_length _ _ _ _ Hin) as Hlen. cbn in Hlen.
      pose proof (total_ge pooled (threads s) i t (fun _ x _ => pooled_nonneg x) Ht).
      pose proof (pooled_nonneg t). lia. }
    eapply runs_mono; [apply (return_runs s m c a); [done|apply Hwf|done|apply Hin|apply Hin|done]|].
    intros [] s' (Hwf' & Hth' & Hmt' & Hmain'). split; [done|]. split.
    + intros _. unfold measure. rewrite Hth', Hmain', Hmain. cbn. lia.
    + intros _. right. by eexists.
    + left. by eexists.
    + intros _ _. unfold told. by rewrite Hmain'.
  - assert (Hb : b ∈ b :: l) by by left.
    apply (ip_elem _ _ _ _ Hin) in Hb as (i & t & Ht & Htb & _).
    destruct (ow_thread _ How i t Ht) as (w & Hw & Hi). rewrite Htb in Hw. subst i.
    rewrite (proj2 (Z.eqb_neq b main_worker)) by (apply (ow_link _ How); eauto).
    apply (join_good s c a m b l w t); try done. by eapply Hend.
Qed.

(** The step of the thread that waits, when it can go on. *)
Definition main_ready s : Prop :=
  match main s with
  | Outside _ => False
  | Testing _ _ => True
  | Sleeping _ _ => exists m, mt s = Some m /\ 0 < finish m
  | Joining _ _ => forall n w t, links s !! main_worker = Some n ->
      workers s !! ListHead.next n = Some w -> threads s !! thread_id w = Some t -> t_at t = Ended
  end.

Lemma main_good s : pool_wf s -> main_ready s -> runs (main_step h) s (fun _ => good_step s).
Proof.
  intros Hwf Hr. unfold main_step. mstep. unfold main_ready in Hr.
  destruct (main s) as [r|c a|c a|c a] eqn:Hmain; [done|..].
  - by apply test_good.
  - destruct Hr as (m & Hm & Hf). by apply (wake_good s c a m).
  - apply join_step_good; [done..|]. intros m b l w t Hin Hw Ht.
    destruct (ListHead.list_end_next _ _ _ (ip_list _ _ _ _ Hin)) as [Hnx Hpv].
    eapply Hr; [by apply ListHead.nxt_prv|cbn; exact Hw|exact Ht].
Qed.
End Main.
