(* ===== verification/WorkersLoop.v ===== *)
(** * The call of the loop, and what others do meanwhile (proofs about Workers) *)
From S2P Require Import Prelude PosixLock Types Buf FsOps Entry Dir LLTypes LowLevel LLReply LLData LLOps LLInit LLSession LLFacts LLRequests ListHead Workers WorkersFacts WorkersInv WorkersPool WorkersSteps WorkersLeave WorkersMain.
#[local] Open Scope Z_scope.

Section Loop.
Context {K : Type} (h : host K) (sy : system K).
#[local] Abbreviation P := (M (pool K)).
Implicit Types (s : pool K) (m : fuse_mt) (w : fuse_worker) (t : thread).

(** ** What happens beside the steps of the pool *)
Record beside s s' : Prop := mk_beside {
  be_wf : pool_wf s';
  be_measure : measure s' <= measure s;
  be_over : over s = true -> over s' = true;
  be_outside : outside s' <-> outside s;
  be_idle : idle_of s' = idle_of s;
  be_told : told s -> told s';
}.

(** The session alone changes. *)
Lemma low_beside s (lo : ll K) : pool_wf s -> session_wf (held s) lo -> objs (low s) <= objs lo ->
  (over s = true -> exited (se lo) = true) ->
  (exited (se lo) = true -> (exists c a, main s = Sleeping c a) -> over s = true \/
     exists i t, threads s !! i = Some t /\ awake t = true) ->
  beside s (set_low lo s).
Proof.
  intros [Hlow How Hpl] Hlo Ho H1 H2. split; try done.
  - split; [done|by apply (owned_same s)|by apply (place_same s)].
  - intros Htold. unfold told in *. cbn. destruct (main s) as [r|c a|c a|c a] eqn:Hm; try done.
    intros Hov. destruct (H2 Hov) as [Hs|Hex]; [by eauto|by apply Htold|].
    unfold place in Hpl. rewrite Hm in Hpl. destruct Hpl as (_ & m & l & Hin & _).
    exists m. split; [apply Hin|by right].
Qed.

Lemma signalled_runs s sig : pool_wf s -> ~ outside s -> (forall n, sig = Some n -> 0 < n) ->
  runs (signalled sig) s (fun _ => beside s).
Proof.
  intros Hwf Hout Hsig. unfold signalled.
  apply (runs_bind _ _ _ (fun _ s' => exists lo, s' = set_low lo s /\ session_wf (held s) lo /\
    objs lo = objs (low s) /\ (over s = true -> exited (se lo) = true))).
  - destruct sig as [n|].
    + unfold exit_handler. apply exit_bind. apply runs_assert_bind; [apply Z.ltb_lt; auto|].
      eexists _, _. split; [done|]. eexists. split; [done|]. split; [|done].
      apply (session_wf_error _ (ended (low s))), session_wf_exited, Hwf.
    + apply runs_ret. exists (low s). split; [by destruct s|]. split; [apply Hwf|done].
  - intros [] s1 (lo & -> & Hlo & Ho & Hov). mstep.
    assert (Hb : (forall c a, main s <> Sleeping c a) -> beside s (set_low lo s)).
    { intros Hns. apply low_beside; [done|done|lia|done|]. intros _ (c & a & Hm). by apply Hns in Hm. }
    destruct (main s) as [r|c a|c a|c a] eqn:Hm; [by exfalso; apply Hout; eexists|..].
    1, 3: by apply runs_ret, Hb.
    eexists _, _. split; [done|].
    destruct (pool_of_main s c a (or_intror Hm) Hwf) as (Hfr & m & l & Hin & Hn & Hmt). split.
    + split; [done|apply (owned_same s); try done; [cbn; lia|apply Hwf]|].
      split; [done|]. exists m, l. split; [by apply (in_pool_same s)|done].
    + unfold measure. cbn. rewrite Hm. cbn. lia.
    + done.
    + unfold outside. cbn. rewrite Hm. split; by intros [r ?].
    + done.
    + done.
Qed.

(** A thread that processes a request ends the session. *)
Definition exit_by (error : option Z) : P unit :=
  liftLow fuse_session_exit;;
  match error with Some e => liftLow (modify_se (set_se_error e)) | None => mret tt end.

Lemma exit_by_runs s i t f error : pool_wf s -> threads s !! i = Some t -> t_at t = Processing f ->
  runs (exit_by error) s (fun _ => beside s).
Proof.
  intros Hwf Ht Hat. unfold exit_by. apply exit_bind.
  assert (Hb : forall lo : ll K, session_wf (held s) lo -> objs lo = objs (low s) ->
    exited (se lo) = true -> beside s (set_low lo s)).
  { intros lo Hlo Ho Hx. apply low_beside; [done|done|lia|done|]. intros _ _. right. exists i, t.
    split; [done|]. unfold awake. by rewrite Hat. }
  destruct error as [e|].
  - eexists _, _. split; [done|]. eapply (eq_rect _ (beside s)); [apply Hb|].
    + apply (session_wf_error _ (ended (low s)) e), session_wf_exited, Hwf.
    + done.
    + done.
    + by destruct s.
  - apply runs_ret. apply Hb; [by apply session_wf_exited, Hwf|done..].
Qed.

(** Requests arrive, are interrupted and answered. *)
Definition undisturbed (l l' : ll K) : Prop := exited (se l') = exited (se l) /\ objs l <= objs l'.

Lemma low_event_runs run_intr s e : intr_func_ok run_intr -> pool_wf s ->
  allowed run_intr (held s) (low s) e ->
  (forall l', do_event h run_intr e (low s) = Ok (tt, l') -> undisturbed (low s) l') ->
  runs (liftLow (do_event h run_intr e)) s (fun _ => beside s).
Proof.
  intros Hf Hwf Ha Hu. apply liftLow_runs.
  destruct (event_runs h run_intr (held s) (low s) e Hf (pw_low _ Hwf) Ha) as ([] & l' & Hrun & Hw & _).
  exists tt, l'. split; [done|]. destruct (Hu l' Hrun) as [Hx Ho].
  apply low_beside; [done|done|done|unfold over; by rewrite Hx|].
  intros Hov _. left. unfold over. by rewrite <- Hx.
Qed.

(** ** Configurations *)

(** What happens to configurations does not matter to a pool that does not run. *)
Definition apart s s' : Prop := pool_wf s' /\ main s' = main s.

Lemma configs_apart s cs : pool_wf s -> outside s -> apart s (set_configs cs s).
Proof.
  intros [Hlow How Hpl] [r Hr]. split; [|done]. split; [done|by apply (owned_same s)|].
  unfold place in *. cbn. by rewrite Hr in *.
Qed.

Lemma update_config_runs s c g : pool_wf s -> outside s -> is_Some (configs s !! c) ->
  runs (update_config c g) s (fun _ s' => apart s s' /\
    forall x, is_Some (configs s' !! x) <-> is_Some (configs s !! x)).
Proof.
  intros Hwf Hout [x Hx]. unfold update_config, load_config. msteps.
  eexists _, _. split; [done|]. split; [by apply configs_apart|]. intros y. cbn.
  rewrite lookup_insert_is_Some. destruct (decide (c = y)) as [->|]; naive_solver.
Qed.

Definition sure s : Prop := hd true (oks (low s)) = true.

Lemma create_runs s : pool_wf s -> outside s ->
  runs fuse_loop_cfg_create s (fun c s' => apart s s' /\
    (c = 0 /\ ~ sure s \/ is_Some (configs s' !! c) /\ c <> 0) /\
    forall x, is_Some (configs s !! x) -> is_Some (configs s' !! x)).
Proof.
  intros Hwf Hout. unfold fuse_loop_cfg_create.
  assert (Hlow : forall (l : ll K) cs, session_wf (held s) l -> objs (low s) <= objs l ->
    apart s (set_configs cs (set_low l s))).
  { intros l cs Hl Ho. destruct Hwf as [_ How Hpl], Hout as [r Hr]. split; [|done].
    split; [done|by apply (owned_same s)|]. unfold place in *. cbn. by rewrite Hr in *. }
  eapply low_bind; [by apply (malloc_ok_runs (held s)), Hwf|]. intros ok l1 (Hw1 & [Hs1 Ho1] & Hok). cbv beta.
  destruct ok; cbn [negb].
  - eapply low_bind; [by apply (new_obj_runs (held s))|]. intros c l2 (Hw2 & Hs2 & -> & Ho2). cbn in *.
    mstep. apply runs_ret. cbn. split; [|split].
    + apply (Hlow l2); [done|lia].
    + right. rewrite lookup_insert_eq. split; [eauto|].
      destruct Hw1 as [[] _]. lia.
    + intros x Hx. apply lookup_insert_is_Some. destruct (decide (objs l1 + 1 = x)); eauto.
  - apply runs_ret. destruct Hok as [[? _]|[_ Hok]]; [done|]. split; [|split; [left; split; [done|unfold sure; congruence]|done]].
    pose proof (Hlow l1 (configs s) Hw1 Ho1) as Ha. by destruct s.
Qed.

(** ** The call of the loop *)
Definition call_ok s (config after : Z) : Prop :=
  (config = 0 -> after = 0 /\ sure s) /\
  (config <> 0 -> is_Some (configs s !! config)) /\ config_ok s after.

Lemma to_int_lt z : to_int z < 2 ^ 31.
Proof. unfold to_int. pose proof (Z.mod_pos_bound (z + 2 ^ 31) (2 ^ 32)). lia. Qed.

(** The structures of a pool that starts. *)
Lemma start_pool s m : pool_wf s -> outside s ->
  mt_locked m = false -> numworker m = 0 -> numavail m = 0 -> finish m = 0 -> exit m = false ->
  max_threads m < 2 ^ 31 ->
  in_pool (set_mt (Some m)
    (set_links (<[main_worker := ListHead.mk_head main_worker main_worker]> (links s)) s)) m [] false /\
  owned (set_links (<[main_worker := ListHead.mk_head main_worker main_worker]> (links s)) s).
Proof.
  intros [Hlow How Hpl] [r Hr] Hl Hn Ha Hf Hx Hmax. unfold place in Hpl. rewrite Hr in Hpl.
  destruct Hpl as [Hm Hth]. split.
  - split; cbn; try done; try lia.
    + split; [apply NoDup_singleton|]. constructor; [|done]. unfold ListHead.link, ListHead.nxt, ListHead.prv.
      by rewrite lookup_insert_eq.
    + intros a. split; [by intros ?%elem_of_nil|]. intros (i & t & Ht & _ & Hp). rewrite (Hth i t Ht) in Hp. lia.
    + rewrite total_zero; [lia|]. intros i t Ht. pose proof (busy_pooled t). specialize (Hth i t Ht). lia.
    + by rewrite total_zero.
  - destruct How as [H1 H2 H3 H4 H5 H6]. split; try done; cbn.
    + intros a Ha'. destruct (H3 a Ha'). split; [|done]. by rewrite lookup_insert_ne.
    + intros o Ho. cbn in Ho. destruct Ho as [Ho|Ho]; [|by apply H6; right].
      apply lookup_insert_is_Some in Ho as [<-|[_ Ho]]; [|by apply H6; left].
      destruct Hlow as [[] _]. unfold main_worker. cbn. lia.
Qed.

Lemma destroy_runs s c (Q : unit -> pool K -> Prop) : config_ok s c ->
  Q tt (set_configs (if c =? 0 then configs s else delete c (configs s)) s) ->
  runs (fuse_loop_cfg_destroy c) s Q.
Proof.
  intros Hc HQ. unfold fuse_loop_cfg_destroy. case (Z.eqb_spec c 0) as [->|Hne].
  - apply runs_ret. by destruct s.
  - destruct Hc as [|[x Hx]]; [done|]. unfold load_config. msteps. by eexists _, _.
Qed.

Lemma not_running s r : pool_wf s -> outside s -> pool_wf (set_main (Outside r) s).
Proof.
  intros [Hlow How Hpl] [r' Hr]. split; [done|by apply (owned_same s)|].
  unfold place in *. cbn. by rewrite Hr in Hpl.
Qed.

(** The pool with its first worker, and the return when there is none. *)
Lemma first_worker_runs s m created after : pool_wf s -> outside s -> frame s created after ->
  mt_locked m = false -> numworker m = 0 -> numavail m = 0 -> finish m = 0 -> exit m = false ->
  max_threads m < 2 ^ 31 ->
  runs (lock_mt;;
        err ← fuse_loop_start_thread h sy;
        unlock_mt;;
        if err =? 0 then modifyM (set_main (Testing created after))
        else loop_mt_return created after err)
    (set_mt (Some m)
      (set_links (<[main_worker := ListHead.mk_head main_worker main_worker]> (links s)) s))
    (fun _ s' => pool_wf s' /\ told s').
Proof.
  intros Hwf Hout Hfr Hl Hn Ha Hf Hx Hmax.
  destruct (start_pool s m Hwf Hout Hl Hn Ha Hf Hx Hmax) as [Hin How].
  pose proof (pw_low _ Hwf) as Hlow. pose proof (pw_place _ Hwf) as Hpl.
  destruct Hout as [r Hr]. unfold place in Hpl. rewrite Hr in Hpl. destruct Hpl as [_ Hth].
  set (lk := <[main_worker := ListHead.mk_head main_worker main_worker]> (links s)) in *.
  eapply lock_mt_bind; [done..|].
  set (m1 := set_mt_locked true m). set (s1 := set_mt (Some m1) _).
  eapply runs_bind.
  { apply (start_thread_runs h sy (held s) s1 m1 []); [done|apply Hin|apply (ow_used _ How)|done]. }
  intros err s2 Hs2.
  destruct Hs2 as [lo m' Hq Hlo Hm'|lo m' a i ch lk2 Hse Hai Hi2 Hlo Hm' Hl2 Hlk2].
  - assert (Hm2 : mt_locked m' = true) by (by destruct Hm' as [->| ->]).
    eapply unlock_mt_bind; [done..|]. cbn [Z.eqb].
    eapply runs_mono; [eapply return_runs|intros [] s' (? & _ & _ & Hmain); split; [done|unfold told; by rewrite Hmain]].
    + by apply (owned_same (set_links lk s)); [..|apply Hq|].
    + done.
    + done.
    + done.
    + done.
    + done.
  - assert (Hm2 : mt_locked m' = true) by (by destruct Hm' as [->| ->]).
    eapply unlock_mt_bind; [done..|]. cbn [Z.eqb]. eexists _, _. split; [done|].
    cbn in Hse, Hai, Hlk2. assert (Ho : 0 <= objs (low s)) by by destruct Hlow as [[] _].
    assert (Haw : workers s !! a = None).
    { apply eq_None_not_Some. intros Hxa. assert (a <= objs (low s)); [|lia].
      apply (ow_used _ How). right. by left. }
    assert (Hit : threads s !! i = None).
    { apply eq_None_not_Some. intros Hxa. assert (i <= objs (low s)); [|lia].
      apply (ow_used _ How). right. right. by left. }
    assert (Hm2' : exists m2, (m2 = m \/ m2 = set_clone_fd 0 m) /\
      set_mt_locked false (set_numworker (numworker m1 + 1) (set_numavail (numavail m1 + 1) m')) =
      set_numworker (numworker m + 1) (set_numavail (numavail m + 1) m2)).
    { destruct Hm' as [->| ->]; [exists m|exists (set_clone_fd 0 m)]; (split; [auto|]);
        destruct m; cbn in *; by subst. }
    destruct Hm2' as (m2 & Hm2' & Heq). split; [|done]. split.
    + by apply (held_add s a (mk_worker i 0 0 0 ch) lo).
    + by apply (owned_same (mk_pool lo (mt s) lk2 (<[a := mk_worker i 0 0 0 ch]> (workers s))
        (<[i := mk_thread a Checking false]> (threads s)) (bufs s) (configs s) (main s)));
        [..|apply (owned_add (set_links lk s))].
    + split; [done|]. eexists _, [a]. split.
      * eapply in_pool_same; [..|apply (in_pool_add _ m m2 [] a i (workers s) lk2 lo Hin)]; try done.
        -- cbn. by f_equal.
        -- cbn. lia.
      * cbn. lia.
Qed.

Lemma loop_runs s config after : pool_wf s -> outside s -> call_ok s config after ->
  runs (fuse_session_loop_mt_312 h sy config after) s (fun _ s' => pool_wf s' /\ told s').
Proof.
  intros Hwf Hout (Hc0 & Hc1 & Haf). unfold fuse_session_loop_mt_312.
  apply (runs_bind _ _ _ (fun err s' => s' = s /\ (config = 0 -> err = 0))).
  { case (Z.eqb_spec config 0) as [->|Hne]; [by apply runs_ret|].
    destruct (Hc1 Hne) as [c Hc]. unfold fuse_loop_cfg_verify, load_config. msteps.
    case_match; by apply runs_ret. }
  intros err s1 [-> Herr]. case (Z.eqb_spec err 0) as [->|He]; cbn [negb].
  - eapply (runs_bind _ _ _ (fun created s' => pool_wf s' /\ outside s' /\ frame s' created after /\
      is_Some (configs s' !! (if config =? 0 then created else config)))).
    + case (Z.eqb_spec config 0) as [->|Hne].
      * destruct (Hc0 eq_refl) as [-> Hs]. eapply runs_mono; [by apply create_runs|].
        intros c s' ((Hwf' & Hm') & Hc & Hk). destruct Hc as [[_ ?]|[Hc Hc']]; [done|].
        split_and!; [done|unfold outside; by rewrite Hm'| |done].
        split; [by right|split; [by left|done]].
      * apply runs_ret. split_and!; [done..| |by apply Hc1]. split; [by left|by split].
    + intros created s1 (Hwf1 & Hout1 & Hfr & [c Hc]). unfold load_config. mstep. mstep. rewrite Hc.
      mstep. mstep. by apply first_worker_runs; try done; apply to_int_lt.
  - eapply destroy_bind; [done|]. eexists _, _. split; [done|]. split; [|done].
    apply (not_running (set_configs _ s)); [|done]. by apply configs_apart.
Qed.

Lemma loop_32_runs s config_v1 : pool_wf s -> outside s -> (config_v1 = None -> sure s) ->
  runs (fuse_session_loop_mt_32 h sy config_v1) s (fun _ s' => pool_wf s' /\ told s').
Proof.
  intros Hwf Hout Hs. unfold fuse_session_loop_mt_32. destruct config_v1 as [v1|].
  - eapply runs_bind; [by apply create_runs|]. intros c s1 ((Hwf1 & Hm1) & Hc & Hk).
    assert (Hout1 : outside s1) by (unfold outside; by rewrite Hm1).
    case (Z.eqb_spec c 0) as [->|Hne].
    { eexists _, _. split; [done|]. split; [by apply not_running|done]. }
    destruct Hc as [[]|[Hc _]]; [done|]. unfold fuse_loop_cfg_convert, fuse_loop_cfg_set_idle_threads,
      fuse_loop_cfg_set_clone_fd. apply runs_bind_assoc.
    apply (runs_bind _ _ _ (fun _ s' => pool_wf s' /\ outside s' /\ is_Some (configs s' !! c))).
    { case_match; [by apply runs_ret|]. eapply runs_mono; [by apply update_config_runs|].
      intros [] s2 ((Hwf2 & Hm2) & Hcs). split_and!; [done|unfold outside; by rewrite Hm2|by apply Hcs]. }
    intros [] s2 (Hwf2 & Hout2 & Hc2). eapply runs_bind; [by apply update_config_runs|].
    intros [] s3 ((Hwf3 & Hm3) & Hcs). apply loop_runs; [done|unfold outside; by rewrite Hm3|].
    split; [done|]. split; [|right]; intros; by apply Hcs.
  - apply loop_runs; [done..|]. split; [intros _; by auto|]. split; [done|by left].
Qed.

Lemma loop_31_runs s clone_fd : pool_wf s -> outside s -> sure s ->
  runs (fuse_session_loop_mt_31 h sy clone_fd) s (fun _ s' => pool_wf s' /\ told s').
Proof.
  intros Hwf Hout Hs. unfold fuse_session_loop_mt_31.
  eapply runs_bind; [by apply create_runs|]. intros c s1 ((Hwf1 & Hm1) & Hc & Hk).
  assert (Hout1 : outside s1) by (unfold outside; by rewrite Hm1).
  destruct Hc as [[_ ?]|[Hc Hne]]; [done|].
  apply (runs_bind _ _ _ (fun _ s' => pool_wf s' /\ outside s' /\ is_Some (configs s' !! c))).
  { case (0 <? clone_fd); [|by apply runs_ret]. unfold fuse_loop_cfg_set_clone_fd.
    eapply runs_mono; [by apply update_config_runs|].
    intros [] s2 ((Hwf2 & Hm2) & Hcs). split_and!; [done|unfold outside; by rewrite Hm2|by apply Hcs]. }
  intros [] s2 (Hwf2 & Hout2 & Hc2). apply loop_runs; [done..|].
  split; [done|]. split; [done|by left].
Qed.
End Loop.
