(* ===== verification/WorkersStop.v ===== *)
(** * The pool as a transition system: it is safe, and it stops when the session is over *)
From S2P Require Import Prelude PosixLock Types Buf FsOps Entry Dir LLTypes LowLevel LLReply LLData LLOps LLInit LLSession LLFacts LLRequests ListHead Workers WorkersFacts WorkersInv WorkersPool WorkersSteps WorkersLeave WorkersMain WorkersLoop.
#[local] Open Scope Z_scope.

(** The steps of the threads of the pool. *)
Inductive pool_step : Type :=
| Main
| Check (i : Z)
| Receive (i : Z) (alloc nodev : bool) (res flags opcode : Z)
| Cancelled (i : Z) (alloc : bool)
| Fail (i res : Z)
| Take (i : Z)
| Done (i : Z) (isforget : bool)
| Leave (i : Z)
| Post (i : Z).

(** What else happens: configurations are made, the loop is called, signals arrive, and
    the processing of requests reaches the session. *)
Inductive pool_event : Type :=
| CfgCreate
| CfgIdle (config value : Z)
| CfgMax (config value : Z)
| CfgClone (config value : Z)
| CfgDestroy (config : Z)
| Loop312 (config : Z)
| Loop32 (config_v1 : option fuse_loop_config_v1)
| Loop31 (clone_fd : Z)
| Signalled (sig : option Z)
| ExitBy (error : option Z)
| Low (e : LLRequests.event).

Section Stop.
Context {K : Type} (h : host K) (sy : system K) (run_intr : Z -> Z -> Z -> M (ll K) unit).
#[local] Abbreviation P := (M (pool K)).
Implicit Types (s : pool K) (m : fuse_mt) (w : fuse_worker) (t : thread).

Definition do_step (e : pool_step) : P unit :=
  match e with
  | Main => main_step h
  | Check i => do_work_check i
  | Receive i alloc nodev res flags opcode => do_work_received i alloc nodev res flags opcode
  | Cancelled i alloc => do_work_cancelled i alloc
  | Fail i res => do_work_fail i res
  | Take i => do_work_take h sy i
  | Done i f => do_work_done i f
  | Leave i => do_work_leave h i
  | Post i => do_work_post i
  end.

Definition do_event (e : pool_event) : P unit :=
  match e with
  | CfgCreate => fuse_loop_cfg_create;; mret tt
  | CfgIdle c v => fuse_loop_cfg_set_idle_threads c v
  | CfgMax c v => fuse_loop_cfg_set_max_threads c v
  | CfgClone c v => fuse_loop_cfg_set_clone_fd c v
  | CfgDestroy c => fuse_loop_cfg_destroy c
  | Loop312 c => fuse_session_loop_mt_312 h sy c 0
  | Loop32 v1 => fuse_session_loop_mt_32 h sy v1
  | Loop31 fd => fuse_session_loop_mt_31 h sy fd
  | Signalled sig => signalled sig
  | ExitBy error => exit_by error
  | Low e => liftLow (LLRequests.do_event h run_intr e)
  end.

(** A thread is where it makes the step; a receive returns what it may; a thread is
    cancelled in the receive. *)
Definition thread_at s (i : Z) (p : point) : Prop :=
  exists t, threads s !! i = Some t /\ t_at t = p.

Definition can_step s (e : pool_step) : Prop :=
  match e with
  | Main => main_ready s
  | Check i => thread_at s i Checking
  | Receive i _ nodev res _ _ => thread_at s i Receiving /\ receive_ok s nodev res
  | Cancelled i _ => exists t, threads s !! i = Some t /\ t_at t = Receiving /\ t_cancel t = true
  | Fail i res => thread_at s i (Failing res)
  | Take i => thread_at s i Got
  | Done i f => thread_at s i (Processing f)
  | Leave i => thread_at s i Leaving
  | Post i => thread_at s i Posting
  end.

(** The loop is not called twice at a time, and with a configuration that is there or can
    be allocated; the session is ended by [ExitBy] and signals. *)
Definition can_happen s (e : pool_event) : Prop :=
  match e with
  | CfgCreate => outside s
  | CfgIdle c _ | CfgMax c _ | CfgClone c _ => outside s /\ is_Some (configs s !! c)
  | CfgDestroy c => outside s /\ config_ok s c
  | Loop312 c => outside s /\ call_ok s c 0
  | Loop32 v1 => outside s /\ (v1 = None -> sure s)
  | Loop31 _ => outside s /\ sure s
  | Signalled sig => ~ outside s /\ forall n, sig = Some n -> 0 < n
  | ExitBy _ => exists i f, thread_at s i (Processing f)
  | Low e => allowed run_intr (held s) (low s) e /\
      forall l', LLRequests.do_event h run_intr e (low s) = Ok (tt, l') -> undisturbed (low s) l'
  end.

Definition steps s s' : Prop := exists e, can_step s e /\ do_step e s = Ok (tt, s').
Definition happens s s' : Prop := exists e, can_happen s e /\ do_event e s = Ok (tt, s').

(** No pool; the session may have requests. *)
Definition pool0 (l : ll K) : pool K := mk_pool l None ∅ ∅ ∅ ∅ ∅ (Outside None).

Inductive reach : pool K -> Prop :=
| reach_start l : session_wf (fun _ => 0) l -> reach (pool0 l)
| reach_step s s' : reach s -> steps s s' -> reach s'
| reach_event s s' : reach s -> happens s s' -> reach s'.

(** ** Every step keeps the invariant *)
Lemma step_good s e : pool_wf s -> can_step s e -> runs (do_step e) s (fun _ => good_step s).
Proof.
  intros Hwf He. destruct e; cbn in He |- *.
  - by apply main_good.
  - destruct He as (t & Ht & Hat). by eapply check_good.
  - destruct He as [(t & Ht & Hat) Hr]. by eapply received_good.
  - destruct He as (t & Ht & Hat & _). by eapply cancelled_good.
  - destruct He as (t & Ht & Hat). by eapply fail_good.
  - destruct He as (t & Ht & Hat). by eapply take_good.
  - destruct He as (t & Ht & Hat). by eapply done_good.
  - destruct He as (t & Ht & Hat). by eapply leave_good.
  - destruct He as (t & Ht & Hat). by eapply post_good.
Qed.

Lemma happens_outside s e : can_happen s e -> ~ outside s ->
  match e with Signalled _ | ExitBy _ | Low _ => True | _ => False end.
Proof. intros He Hout. destruct e; cbn in He; try done; by destruct He. Qed.

Lemma beside_good s e : intr_func_ok run_intr -> pool_wf s -> can_happen s e ->
  match e with Signalled _ | ExitBy _ | Low _ => True | _ => False end ->
  runs (do_event e) s (fun _ => beside s).
Proof.
  intros Hf Hwf He Hk. destruct e; try done; cbn in He |- *.
  - destruct He. by apply signalled_runs.
  - destruct He as (i & f & t & Ht & Hat). by eapply exit_by_runs.
  - destruct He. by apply low_event_runs.
Qed.

Lemma outside_told s : outside s -> told s.
Proof. intros [r Hr]. unfold told. by rewrite Hr. Qed.

Lemma event_wf s e : intr_func_ok run_intr -> pool_wf s -> can_happen s e ->
  runs (do_event e) s (fun _ s' => pool_wf s' /\ (beside s s' \/ told s')).
Proof.
  intros Hf Hwf He.
  assert (Hb : match e with Signalled _ | ExitBy _ | Low _ => True | _ => False end ->
    runs (do_event e) s (fun _ s' => pool_wf s' /\ (beside s s' \/ told s'))).
  { intros Hk. eapply runs_mono; [by apply beside_good|]. intros [] s' Hs'. split; [by destruct Hs'|by left]. }
  assert (Hset : forall c g, outside s /\ is_Some (configs s !! c) ->
    runs (update_config c g) s (fun _ s' => pool_wf s' /\ (beside s s' \/ told s'))).
  { intros c g [Ho Hc]. eapply runs_mono; [by apply update_config_runs|]. intros [] s' [[Hw Hm] _].
    split; [done|right]. apply outside_told. unfold outside. by rewrite Hm. }
  destruct e; try (by apply Hb); cbn in He |- *.
  - eapply runs_bind; [by apply create_runs|]. intros c s' [[Hw Hm] _]. apply runs_ret.
    split; [done|right]. apply outside_told. unfold outside. by rewrite Hm.
  - unfold fuse_loop_cfg_set_idle_threads. destruct He as [Ho Hc].
    case_match; [apply runs_ret; split; [done|right; by apply outside_told]|by apply Hset].
  - by apply Hset.
  - by apply Hset.
  - destruct He as [Ho Hc]. apply destroy_runs; [done|]. split; [by apply configs_apart|right].
    by apply outside_told.
  - destruct He. eapply runs_mono; [by apply loop_runs|]. intros [] s' []. auto.
  - destruct He. eapply runs_mono; [by apply loop_32_runs|]. intros [] s' []. auto.
  - destruct He. eapply runs_mono; [by apply loop_31_runs|]. intros [] s' []. auto.
Qed.

Lemma pool0_wf l : session_wf (fun _ => 0) l -> pool_wf (pool0 l).
Proof.
  intros Hl. split.
  - eapply session_wf_ext; [|exact Hl]. intros ch. unfold held. by case_match.
  - split; cbn; try done.
    + intros a [x Hx]. done.
    + intros b. split; [by intros ?%elem_of_empty|]. by intros (_ & a & w & Hw & _).
    + intros o [[? Hx]|[[? Hx]|[[? Hx]|Hx]]]; try done.
  - by split.
Qed.

Lemma idle_back s s' : idle_of s' = idle_of s -> keeps_idle s' -> keeps_idle s.
Proof.
  unfold idle_of. intros He Hk m Hm. rewrite Hm in He. destruct (mt s') as [m'|] eqn:Hm'; [|done].
  injection He as <-. by apply Hk.
Qed.

(** What holds of every state that can be reached. *)
Lemma reach_wf s : intr_func_ok run_intr -> reach s -> pool_wf s /\ (keeps_idle s -> told s).
Proof.
  intros Hf. induction 1 as [l Hl|s s' _ [IH1 IH2] (e & He & Hr)|s s' _ [IH1 IH2] (e & He & Hr)].
  - split; [by apply pool0_wf|done].
  - apply (runs_det _ _ _ _ _ (step_good s e IH1 He)) in Hr as [Hw [_ _ Hi Ht]]. split; [done|].
    intros Hk. destruct Hi as [Ho|Hi]; [by apply outside_told|]. pose proof (idle_back _ _ Hi Hk). auto.
  - apply (runs_det _ _ _ _ _ (event_wf s e Hf IH1 He)) in Hr as [Hw Ht]. split; [done|].
    intros Hk. destruct Ht as [[_ _ _ _ Hi Ht]|]; [|done]. pose proof (idle_back _ _ Hi Hk). auto.
Qed.

(** C26: the worker pool is safe.  In every state that can be reached, with threads created,
    cancelled, failing and leaving in any order: whatever a thread does next runs, so no
    worker, buffer, channel, thread or lock is used after it is gone or freed twice, and
    every section gives its lock back; the session and its channels stay well-formed with
    exact counts; the list links exactly the workers that have not left, the counters are
    exact and within the limit on threads, and the pool does not become empty before it is
    told to exit; and when the call has returned and the threads are gone, nothing of the
    pool is left. *)
Theorem pool_safe s : intr_func_ok run_intr -> reach s ->
  (forall e, can_step s e -> exists s', do_step e s = Ok (tt, s')) /\
  (forall e, can_happen s e -> exists s', do_event e s = Ok (tt, s')) /\
  session_wf (held s) (low s) /\
  (forall m, mt s = Some m -> mt_locked m = false /\
     0 <= numavail m <= numworker m /\ numworker m <= Z.max 1 (max_threads m) < 2 ^ 31 /\
     numavail m = numworker m - total busy (threads s) /\
     exists l, ListHead.is_list (links s) main_worker l /\
       (forall a, a ∈ l <-> exists i t, threads s !! i = Some t /\ t_worker t = a /\ t_at t <> Leaving) /\
       (exit m = false -> l <> [] /\ numworker m = Z.of_nat (length l))) /\
  (outside s -> mt s = None /\ forall i t, threads s !! i = Some t -> t_at t = Leaving) /\
  (outside s -> threads s = ∅ -> workers s = ∅ /\ bufs s = ∅ /\ forall ch, held s ch = 0).
Proof.
  intros Hf Hr. destruct (reach_wf s Hf Hr) as [Hwf _]. pose proof (pw_owned _ Hwf) as How.
  pose proof (pw_place _ Hwf) as Hpl. split_and!.
  - intros e He. destruct (step_good s e Hwf He) as ([] & s' & Hs & _). eauto.
  - intros e He. destruct (event_wf s e Hf Hwf He) as ([] & s' & Hs & _). eauto.
  - apply Hwf.
  - intros m Hm. assert (Hin : exists l j, in_pool s m l j /\ 1 <= numworker m).
    { unfold place in Hpl. destruct (main s); [by destruct Hpl; congruence|..];
        destruct Hpl as (_ & m' & l & Hin & Hn); pose proof (ip_mt _ _ _ _ Hin);
        assert (m' = m) as -> by congruence; eauto. }
    destruct Hin as (l & j & Hin & Hn). destruct (counters_ok s m l j Hin) as [Hc1 Hc2].
    split_and!; try lia; try apply Hin.
    + pose proof (ip_max _ _ _ _ Hin). lia.
    + exists l. split_and!; [apply Hin| |].
      * intros a. rewrite (ip_elem _ _ _ _ Hin). split; intros (i & t & Ht & Ha & Hp); exists i, t;
          (split_and!; [done|done|]); destruct (pooled_cases t) as [[]|[]]; (done || lia).
      * intros Hx. pose proof (ip_exit _ _ _ _ Hin) as Hj. rewrite Hx in Hj. subst j.
        pose proof (ip_count _ _ _ _ Hin) as Hcount. cbn in Hcount. split; [|done].
        intros ->. cbn in Hcount. lia.
  - intros [r Ho]. unfold place in Hpl. rewrite Ho in Hpl. destruct Hpl as [Hm Hth]. split; [done|].
    intros i t Ht. specialize (Hth i t Ht). destruct (pooled_cases t) as [[]|[]]; [lia|done].
  - intros _ Hth. assert (Hw : workers s = ∅).
    { apply map_empty. intros a. apply eq_None_not_Some. intros [w Hw].
      destruct (ow_worker _ How a w Hw) as (t & Ht & _). by rewrite Hth in Ht. }
    split_and!; [done| |].
    + apply set_eq. intros b. split; [|by intros ?%elem_of_empty].
      intros (_ & a & w & Ha & _)%(ow_buf _ How). by rewrite Hw in Ha.
    + intros ch. unfold held. rewrite Hw. by case_match.
Qed.

(** ** The pool stops *)

(** However the threads are scheduled, and whatever happens between their steps, the call
    of the loop returns: it has or, after any of these, some thread can make a step, and
    after each step the rest of the way is shorter. *)
Inductive stops s : Prop :=
| stops_now : outside s -> stops s
| stops_later : (forall s1, rtc happens s s1 -> (exists s', steps s1 s') /\
    forall s', steps s1 s' -> stops s') -> stops s.

Lemma measure_nonneg s : 0 <= measure s.
Proof.
  unfold measure. assert (0 <= total weight (threads s)).
  { apply total_nonneg. intros i t _. unfold weight. case_match; lia. }
  unfold main_weight. case_match; lia.
Qed.

(** A thread that does not sleep makes a step. *)
Lemma thread_steps s i t : threads s !! i = Some t -> pooled t = 1 -> t_at t <> Ended ->
  (t_at t = Receiving -> t_cancel t = true) -> exists e, can_step s e.
Proof.
  intros Ht Hp He Hc. destruct (t_at t) as [| |res| |f| | |] eqn:Hat; try done.
  - exists (Check i). by exists t.
  - exists (Cancelled i false). exists t. auto.
  - exists (Fail i res). by exists t.
  - exists (Take i). by exists t.
  - exists (Done i f). by exists t.
  - unfold pooled in Hp. by rewrite Hat in Hp.
  - exists (Post i). by exists t.
Qed.

Lemma can_go_on s : pool_wf s -> told s -> over s = true -> ~ outside s -> exists e, can_step s e.
Proof.
  intros Hwf Ht Hov Hout. pose proof (pw_place _ Hwf) as Hpl. pose proof (pw_owned _ Hwf) as How.
  unfold place, told in *. destruct (main s) as [r|c a|c a|c a] eqn:Hm.
  - exfalso. apply Hout. by eexists.
  - exists Main. cbn. unfold main_ready. by rewrite Hm.
  - destruct (Ht Hov) as (m & Hmt & [Hfin|(i & t & Hi & Ha)]).
    + exists Main. cbn. unfold main_ready. rewrite Hm. eauto.
    + unfold awake in Ha. apply (thread_steps s i t Hi).
      * unfold pooled. by destruct (t_at t).
      * by destruct (t_at t).
      * by destruct (t_at t).
  - destruct Hpl as (_ & m & l & Hin & _).
    destruct (ListHead.list_end_next _ _ _ (ip_list _ _ _ _ Hin)) as [Hnx Hpv].
    assert (Hhead : forall n, links s !! main_worker = Some n -> ListHead.next n = hd main_worker l).
    { intros n Hn. unfold ListHead.nxt in Hnx. rewrite Hn in Hnx. cbn in Hnx. congruence. }
    destruct l as [|b l].
    + exists Main. cbn. unfold main_ready. rewrite Hm. intros n w t Hn Hw. exfalso.
      rewrite (Hhead n Hn) in Hw. cbn in Hw. by destruct (ow_link _ How main_worker); [eauto|].
    + assert (Hb : b ∈ b :: l) by by left.
      apply (ip_elem _ _ _ _ Hin) in Hb as (i & t & Ht' & Htb & Hp).
      destruct (decide (t_at t = Ended)) as [He|He].
      * exists Main. cbn. unfold main_ready. rewrite Hm. intros n w u Hn Hw Hu.
        rewrite (Hhead n Hn) in Hw. cbn in Hw. destruct (ow_thread _ How i t Ht') as (w' & Hw' & <-).
        congruence.
      * apply (thread_steps s i t Ht' Hp He). intros _. by apply (ip_cancel _ _ _ _ Hin eq_refl i t).
Qed.

Lemma rtc_beside s s1 : intr_func_ok run_intr -> rtc happens s s1 ->
  pool_wf s -> told s -> over s = true -> ~ outside s ->
  pool_wf s1 /\ told s1 /\ over s1 = true /\ ~ outside s1 /\ idle_of s1 = idle_of s /\
  measure s1 <= measure s.
Proof.
  intros Hf. induction 1 as [s|s s2 s1 (e & He & Hr) _ IH]; intros Hwf Ht Hov Hout; [by split_and!|].
  pose proof (happens_outside s e He Hout) as Hk.
  apply (runs_det _ _ _ _ _ (beside_good s e Hf Hwf He Hk)) in Hr as [B1 B2 B3 B4 B5 B6].
  destruct IH as (? & ? & ? & ? & ? & ?); [done|by apply B6|by apply B3|by rewrite B4|].
  split_and!; try done; [congruence|lia].
Qed.

Lemma stops_in n : forall s, intr_func_ok run_intr -> pool_wf s -> told s -> keeps_idle s ->
  over s = true -> measure s < Z.of_nat n -> stops s.
Proof.
  induction n as [|n IH]; intros s Hf Hwf Ht Hk Hov Hn; [pose proof (measure_nonneg s); lia|].
  assert (Hd : outside s \/ ~ outside s).
  { unfold outside. destruct (main s) as [r| | |]; [left; eauto|right; by intros [r ?]..]. }
  destruct Hd as [Ho|Ho]; [by apply stops_now|].
  apply stops_later. intros s1 Hs1.
  destruct (rtc_beside s s1 Hf Hs1 Hwf Ht Hov Ho) as (Hwf1 & Ht1 & Hov1 & Ho1 & Hi1 & Hm1).
  assert (Hk1 : keeps_idle s1) by by apply (idle_back s1 s).
  split.
  - destruct (can_go_on s1 Hwf1 Ht1 Hov1 Ho1) as [e He].
    destruct (step_good s1 e Hwf1 He) as ([] & s' & Hs & _). exists s', e. done.
  - intros s' (e & He & Hs). apply (runs_det _ _ _ _ _ (step_good s1 e Hwf1 He)) in Hs as [Hw [P1 P2 P3 P4]].
    destruct (P2 Hov1) as [Hov'|Ho']; [|by apply stops_now].
    destruct P3 as [Ho'|Hi']; [by apply stops_now|].
    apply IH; try done; [by apply P4|by apply (idle_back s' s1)|specialize (P1 Hov1); lia].
Qed.

(** C27: the call of the loop returns.  Once the session is over, and idle workers are kept
    (the default), every worker ends and is joined and the loop returns, however the threads
    are scheduled: as long as it has not, some thread can make a step, and only a bounded
    number of steps is left, whatever signals, requests and further ends of the session
    come in between. *)
Theorem pool_stops s : intr_func_ok run_intr -> reach s -> ~ outside s -> over s = true ->
  (forall m, mt s = Some m -> max_idle m = -1) -> stops s.
Proof.
  intros Hf Hr Hout Hov Hk. destruct (reach_wf s Hf Hr) as [Hwf Ht].
  apply (stops_in (Z.to_nat (measure s + 1))); try done; [by apply Ht|].
  pose proof (measure_nonneg s). lia.
Qed.
End Stop.
