(* ===== verification/WorkersEx.v ===== *)
(** * The worker pool on examples *)
From S2P Require Import Prelude PosixLock Types Buf FsOps Entry Dir LLTypes LowLevel LLReply LLData LLOps LLInit LLSession LLFacts LLRequests ListHead Workers WorkersFacts WorkersInv WorkersPool WorkersSteps WorkersLeave WorkersMain WorkersLoop WorkersStop.
#[local] Open Scope Z_scope.

#[local] Abbreviation pool_ := (pool (list (list Z))).

(** Threads and clones of the device can always be made. *)
Definition sys_ok : system (list (list Z)) :=
  mk_system _ (fun k => (3, k)) (fun _ _ k => (0, k)) (fun k => (true, k)).

Definition ex_state (r : res (unit * pool_)) (s : pool_) : pool_ :=
  match r with Ok (_, s') => s' | Crash _ => s end.
Definition ex_step (e : pool_step) (s : pool_) : pool_ := ex_state (do_step recorder sys_ok e s) s.
Definition ex_event (e : pool_event) (s : pool_) : pool_ :=
  ex_state (do_event recorder sys_ok answer_intr e s) s.

#[local] Abbreviation reached := (reach recorder sys_ok answer_intr).

Lemma ex_reach_step e s : reached s -> can_step s e ->
  do_step recorder sys_ok e s = Ok (tt, ex_step e s) -> reached (ex_step e s).
Proof. intros Hr He Hs. eapply reach_step; [exact Hr|]. by exists e. Qed.

Lemma ex_reach_event e s : reached s -> can_happen recorder answer_intr s e ->
  do_event recorder sys_ok answer_intr e s = Ok (tt, ex_event e s) -> reached (ex_event e s).
Proof. intros Hr He Hs. eapply reach_event; [exact Hr|]. by exists e. Qed.

(** A loop with a descriptor per worker and the limit [idle] on idle workers: the worker 2
    with the thread 4 receives a request and starts the worker 6 with the thread 8, and
    both the thread 8 and the one that waits sleep. *)
Definition ex_loop (idle : Z) : pool_ :=
  ex_event (Loop312 1) (ex_event (CfgIdle 1 idle) (ex_event (CfgClone 1 1)
    (ex_event CfgCreate (pool0 (running []))))).
Definition ex_busy (idle : Z) : pool_ :=
  ex_step Main (ex_step (Check 8) (ex_step (Take 4)
    (ex_step (Receive 4 true false 64 0 FUSE_LOOKUP) (ex_step (Check 4) (ex_loop idle))))).

Ltac ex_tac :=
  lazymatch goal with
  | |- reach _ _ _ (ex_step ?e ?s) => apply (ex_reach_step e s); [| |vm_compute; reflexivity]
  | |- reach _ _ _ (ex_event ?e ?s) => apply (ex_reach_event e s); [| |vm_compute; reflexivity]
  | |- reach _ _ _ (pool0 _) => apply reach_start, started_wf
  end.
Ltac ex_at := eexists; split; [vm_compute; reflexivity|vm_compute; reflexivity].

Ltac ex_out := exists None; vm_compute; reflexivity.
Ltac ex_some := eexists; vm_compute; reflexivity.
Ltac ex_can :=
  lazymatch goal with
  | |- can_happen _ _ _ CfgCreate => ex_out
  | |- can_happen _ _ _ (CfgIdle _ _) => split; [ex_out|ex_some]
  | |- can_happen _ _ _ (CfgClone _ _) => split; [ex_out|ex_some]
  | |- can_happen _ _ _ (Loop312 _) => split; [ex_out|split; [done|split; [intros _; ex_some|by left]]]
  | |- can_happen _ _ _ (ExitBy _) => exists 4, false; ex_at
  | |- can_step _ (Receive _ _ _ _ _ _) =>
    split; [ex_at|split; [done|split; [done|]]]; vm_compute; discriminate
  | |- can_step _ Main => vm_compute; exact I
  | |- can_step _ _ => ex_at
  end.

Lemma ex_busy_reach idle : idle = 4294967295 \/ idle = 0 -> reached (ex_busy idle).
Proof.
  intros Hi. unfold ex_busy, ex_loop. destruct Hi as [-> | ->]; repeat ex_tac; ex_can.
Qed.

(** A request handler ends the session while the other threads sleep: the call returns. *)
Definition ex_over : pool_ := ex_event (ExitBy None) (ex_busy 4294967295).

Lemma ex_over_reach : reached ex_over.
Proof. unfold ex_over. ex_tac; [apply ex_busy_reach; by left|ex_can]. Qed.

Lemma pool_stops_witness : over ex_over = true /\ size (threads ex_over) = 2%nat /\
  stops recorder sys_ok answer_intr ex_over.
Proof.
  split; [by vm_compute|]. split; [by vm_compute|].
  apply (pool_stops recorder sys_ok answer_intr ex_over answer_intr_ok ex_over_reach).
  - intros [r Hr]. vm_compute in Hr. discriminate.
  - vm_compute. reflexivity.
  - intros m Hm. vm_compute in Hm. injection Hm as <-. reflexivity.
Defined.

(** Two workers, one of which processes a request: all the counts of the pool. *)
Lemma pool_safe_witness : numworker <$> mt (ex_busy 4294967295) = Some 2 /\
  numavail <$> mt (ex_busy 4294967295) = Some 1 /\
  session_wf (held (ex_busy 4294967295)) (low (ex_busy 4294967295)) /\
  (exists s', do_step recorder sys_ok (Done 4 false) (ex_busy 4294967295) = Ok (tt, s')).
Proof.
  split; [by vm_compute|]. split; [by vm_compute|].
  destruct (pool_safe recorder sys_ok answer_intr (ex_busy 4294967295) answer_intr_ok
    (ex_busy_reach _ (or_introl eq_refl))) as (Hs & _ & Hw & _).
  split; [exact Hw|]. apply Hs. ex_at.
Defined.

(** A handler ends the session of a loop that keeps no idle workers, and its worker leaves. *)
Definition ex_missed : pool_ :=
  ex_step (Leave 4) (ex_step (Done 4 false) (ex_event (ExitBy None) (ex_busy 0))).

Lemma only_receive (s : pool_) : map_to_list (threads s) = [(8, mk_thread 6 Receiving false)] ->
  ~ main_ready s -> forall e, can_step s e ->
    exists alloc nodev res flags opcode, e = Receive 8 alloc nodev res flags opcode.
Proof.
  intros Hth Hm e He.
  assert (Hl : forall i t, threads s !! i = Some t -> i = 8 /\ t = mk_thread 6 Receiving false).
  { intros i t Hi. apply elem_of_map_to_list in Hi. rewrite Hth in Hi.
    apply list_elem_of_singleton in Hi. by injection Hi as -> ->. }
  assert (Ht : forall i p, thread_at s i p -> i = 8 /\ p = Receiving).
  { intros i p (t & Ht & <-). by apply Hl in Ht as [-> ->]. }
  destruct e as [|i|i alloc nodev res flags opcode|i alloc|i res|i|i f|i|i]; cbn in He;
    try (by apply Ht in He as [_ ?]); [done|..].
  - destruct He as [He _]. apply Ht in He as [-> _]. by repeat eexists.
  - destruct He as (t & He & _ & Hc). by apply Hl in He as [_ ->].
Qed.

(** With a limit on idle workers the end of the session can be missed: the worker whose
    request ended it leaves the pool without posting, and the thread that waits and the
    other worker sleep until another message arrives. *)
Lemma end_is_missed : reached ex_missed /\ over ex_missed = true /\ ~ outside ex_missed /\
  forall e, can_step ex_missed e ->
    exists alloc nodev res flags opcode, e = Receive 8 alloc nodev res flags opcode.
Proof.
  split_and!.
  - unfold ex_missed. do 3 (ex_tac; [|ex_can]). apply ex_busy_reach. by right.
  - by vm_compute.
  - intros [r Hr]. vm_compute in Hr. discriminate.
  - apply only_receive; [vm_compute; reflexivity|].
    intros Hr. vm_compute in Hr. destruct Hr as (m & [= <-] & Hf). discriminate Hf.
Qed.

(** The configuration [fuse_session_loop_mt_31] makes is there after the call returned. *)
Definition ex_31 : pool_ :=
  ex_step Main (ex_step Main (ex_step (Post 3) (ex_step (Check 3) (ex_step Main
    (ex_event (Signalled (Some 2)) (ex_event (Loop31 0) (pool0 (running [])))))))).

Example loop_31_leaks : main ex_31 = Outside (Some 2) /\ threads ex_31 = ∅ /\ workers ex_31 = ∅ /\
  map_to_list (configs ex_31) = [(1, mk_config FUSE_LOOP_MT_V2_IDENTIFIER 0 (-1) 10)].
Proof. split_and!; vm_compute; reflexivity. Qed.

(** The default configuration is used although it could not be allocated. *)
Example default_config_null :
  do_event recorder sys_ok answer_intr (Loop312 0) (pool0 (set_oks [false] (running []))) =
  Crash BadAccess.
Proof. vm_compute. reflexivity. Qed.

(** More threads than an [int] counts are none at all. *)
Example max_threads_wraps : to_int 4294967295 = -1.
Proof. reflexivity. Qed.
