(* ===== verification/KTypes.v ===== *)
(** * Data of the device of the kernel module (fuse_module/fuse_i.h, dev.c)

    Requests, the queues they travel through, and the connection.  An object is known by
    its address, with 0 for NULL. *)
From S2P Require Import Prelude.
#[local] Open Scope Z_scope.

(** [struct fuse_args] with the pages of [struct fuse_args_pages]: an argument is its
    [size] and the address of its [value]; [a_end] says whether there is an [end]
    function; a page is its address, with its [length] and [offset] in [descs]. *)
Record fuse_args : Type := mk_args {
  a_nodeid : Z;
  a_opcode : Z;
  a_force : bool;
  a_noreply : bool;
  a_nocreds : bool;
  in_pages : bool;
  out_pages : bool;
  user_pages : bool;
  out_argvar : bool;
  page_zeroing : bool;
  page_replace : bool;
  in_args : list (Z * Z);
  out_args : list (Z * Z);
  a_end : bool;
  pages : list Z;
  descs : list (Z * Z);
}.

Definition set_in_args (v : list (Z * Z)) (r : fuse_args) : fuse_args :=
  mk_args (a_nodeid r) (a_opcode r) (a_force r) (a_noreply r) (a_nocreds r)
    (in_pages r) (out_pages r) (user_pages r) (out_argvar r)
    (page_zeroing r) (page_replace r) v (out_args r) (a_end r)
    (pages r) (descs r).
Definition set_out_args (v : list (Z * Z)) (r : fuse_args) : fuse_args :=
  mk_args (a_nodeid r) (a_opcode r) (a_force r) (a_noreply r) (a_nocreds r)
    (in_pages r) (out_pages r) (user_pages r) (out_argvar r)
    (page_zeroing r) (page_replace r) (in_args r) v (a_end r)
    (pages r) (descs r).
Definition set_pages (v : list Z) (r : fuse_args) : fuse_args :=
  mk_args (a_nodeid r) (a_opcode r) (a_force r) (a_noreply r) (a_nocreds r)
    (in_pages r) (out_pages r) (user_pages r) (out_argvar r)
    (page_zeroing r) (page_replace r) (in_args r) (out_args r)
    (a_end r) v (descs r).

(** The list a request is linked into: none, [fiq->pending], [fc->bg_queue], the list
    [io] of a device, or the bucket [h] of its [processing]. *)
Inductive place : Type :=
| Nowhere
| OnPending
| OnBg
| OnIo (d : Z)
| OnProcessing (d h : Z).

#[global] Instance place_eq_dec : EqDecision place.
Proof. solve_decision. Defined.

(** Where the thread that waits for the answer stands in [request_wait_answer]: nobody
    waits, or any signal ends the wait, or a fatal one, or none. *)
Inductive waiter : Type :=
| NoWaiter
| Interruptible
| Killable
| Unkillable.

#[global] Instance waiter_eq_dec : EqDecision waiter.
Proof. solve_decision. Defined.

(** The thread that copies the request from or to user space, through device [d]. *)
Inductive copier : Type :=
| NoCopier
| Reader (d : Z)
| Writer (d : Z).

#[global] Instance copier_eq_dec : EqDecision copier.
Proof. solve_decision. Defined.

(** [struct fuse_req]: the arguments, the reference count, members of [in.h] and the
    error of [out.h], the flags of [enum fuse_req_flag], the list it is linked into,
    and the threads that wait for it and copy it. *)
Record kreq : Type := mk_kreq {
  k_args : fuse_args;
  k_count : Z;
  k_unique : Z;
  k_uid : Z;
  k_gid : Z;
  k_pid : Z;
  k_len : Z;
  k_error : Z;
  k_isreply : bool;
  k_force : bool;
  k_background : bool;
  k_waiting : bool;
  k_aborted : bool;
  k_interrupted : bool;
  k_locked : bool;
  k_pending : bool;
  k_sent : bool;
  k_finished : bool;
  k_private : bool;
  k_async : bool;
  k_place : place;
  k_waiter : waiter;
  k_copier : copier;
}.

Definition set_k_args (v : fuse_args) (r : kreq) : kreq :=
  mk_kreq v (k_count r) (k_unique r) (k_uid r) (k_gid r) (k_pid r)
    (k_len r) (k_error r) (k_isreply r) (k_force r) (k_background r)
    (k_waiting r) (k_aborted r) (k_interrupted r) (k_locked r)
    (k_pending r) (k_sent r) (k_finished r) (k_private r) (k_async r)
    (k_place r) (k_waiter r) (k_copier r).
Definition set_k_count (v : Z) (r : kreq) : kreq :=
  mk_kreq (k_args r) v (k_unique r) (k_uid r) (k_gid r) (k_pid r) (k_len r)
    (k_error r) (k_isreply r) (k_force r) (k_background r)
    (k_waiting r) (k_aborted r) (k_interrupted r) (k_locked r)
    (k_pending r) (k_sent r) (k_finished r) (k_private r) (k_async r)
    (k_place r) (k_waiter r) (k_copier r).
Definition set_k_unique (v : Z) (r : kreq) : kreq :=
  mk_kreq (k_args r) (k_count r) v (k_uid r) (k_gid r) (k_pid r) (k_len r)
    (k_error r) (k_isreply r) (k_force r) (k_background r)
    (k_waiting r) (k_aborted r) (k_interrupted r) (k_locked r)
    (k_pending r) (k_sent r) (k_finished r) (k_private r) (k_async r)
    (k_place r) (k_waiter r) (k_copier r).
Definition set_k_uid (v : Z) (r : kreq) : kreq :=
  mk_kreq (k_args r) (k_count r) (k_unique r) v (k_gid r) (k_pid r)
    (k_len r) (k_error r) (k_isreply r) (k_force r) (k_background r)
    (k_waiting r) (k_aborted r) (k_interrupted r) (k_locked r)
    (k_pending r) (k_sent r) (k_finished r) (k_private r) (k_async r)
    (k_place r) (k_waiter r) (k_copier r).
Definition set_k_gid (v : Z) (r : kreq) : kreq :=
  mk_kreq (k_args r) (k_count r) (k_unique r) (k_uid r) v (k_pid r)
    (k_len r) (k_error r) (k_isreply r) (k_force r) (k_background r)
    (k_waiting r) (k_aborted r) (k_interrupted r) (k_locked r)
    (k_pending r) (k_sent r) (k_finished r) (k_private r) (k_async r)
    (k_place r) (k_waiter r) (k_copier r).
Definition set_k_pid (v : Z) (r : kreq) : kreq :=
  mk_kreq (k_args r) (k_count r) (k_unique r) (k_uid r) (k_gid r) v
    (k_len r) (k_error r) (k_isreply r) (k_force r) (k_background r)
    (k_waiting r) (k_aborted r) (k_interrupted r) (k_locked r)
    (k_pending r) (k_sent r) (k_finished r) (k_private r) (k_async r)
    (k_place r) (k_waiter r) (k_copier r).
Definition set_k_len (v : Z) (r : kreq) : kreq :=
  mk_kreq (k_args r) (k_count r) (k_unique r) (k_uid r) (k_gid r) (k_pid r)
    v (k_error r) (k_isreply r) (k_force r) (k_background r)
    (k_waiting r) (k_aborted r) (k_interrupted r) (k_locked r)
    (k_pending r) (k_sent r) (k_finished r) (k_private r) (k_async r)
    (k_place r) (k_waiter r) (k_copier r).
Definition set_k_error (v : Z) (r : kreq) : kreq :=
  mk_kreq (k_args r) (k_count r) (k_unique r) (k_uid r) (k_gid r) (k_pid r)
    (k_len r) v (k_isreply r) (k_force r) (k_background r)
    (k_waiting r) (k_aborted r) (k_interrupted r) (k_locked r)
    (k_pending r) (k_sent r) (k_finished r) (k_private r) (k_async r)
    (k_place r) (k_waiter r) (k_copier r).
Definition set_k_isreply (v : bool) (r : kreq) : kreq :=
  mk_kreq (k_args r) (k_count r) (k_unique r) (k_uid r) (k_gid r) (k_pid r)
    (k_len r) (k_error r) v (k_force r) (k_background r)
    (k_waiting r) (k_aborted r) (k_interrupted r) (k_locked r)
    (k_pending r) (k_sent r) (k_finished r) (k_private r) (k_async r)
    (k_place r) (k_waiter r) (k_copier r).
Definition set_k_force (v : bool) (r : kreq) : kreq :=
  mk_kreq (k_args r) (k_count r) (k_unique r) (k_uid r) (k_gid r) (k_pid r)
    (k_len r) (k_error r) (k_isreply r) v (k_background r)
    (k_waiting r) (k_aborted r) (k_interrupted r) (k_locked r)
    (k_pending r) (k_sent r) (k_finished r) (k_private r) (k_async r)
    (k_place r) (k_waiter r) (k_copier r).
Definition set_k_background (v : bool) (r : kreq) : kreq :=
  mk_kreq (k_args r) (k_count r) (k_unique r) (k_uid r) (k_gid r) (k_pid r)
    (k_len r) (k_error r) (k_isreply r) (k_force r) v (k_waiting r)
    (k_aborted r) (k_interrupted r) (k_locked r) (k_pending r)
    (k_sent r) (k_finished r) (k_private r) (k_async r) (k_place r)
    (k_waiter r) (k_copier r).
Definition set_k_waiting (v : bool) (r : kreq) : kreq :=
  mk_kreq (k_args r) (k_count r) (k_unique r) (k_uid r) (k_gid r) (k_pid r)
    (k_len r) (k_error r) (k_isreply r) (k_force r) (k_background r)
    v (k_aborted r) (k_interrupted r) (k_locked r) (k_pending r)
    (k_sent r) (k_finished r) (k_private r) (k_async r) (k_place r)
    (k_waiter r) (k_copier r).
Definition set_k_aborted (v : bool) (r : kreq) : kreq :=
  mk_kreq (k_args r) (k_count r) (k_unique r) (k_uid r) (k_gid r) (k_pid r)
    (k_len r) (k_error r) (k_isreply r) (k_force r) (k_background r)
    (k_waiting r) v (k_interrupted r) (k_locked r) (k_pending r)
    (k_sent r) (k_finished r) (k_private r) (k_async r) (k_place r)
    (k_waiter r) (k_copier r).
Definition set_k_interrupted (v : bool) (r : kreq) : kreq :=
  mk_kreq (k_args r) (k_count r) (k_unique r) (k_uid r) (k_gid r) (k_pid r)
    (k_len r) (k_error r) (k_isreply r) (k_force r) (k_background r)
    (k_waiting r) (k_aborted r) v (k_locked r) (k_pending r)
    (k_sent r) (k_finished r) (k_private r) (k_async r) (k_place r)
    (k_waiter r) (k_copier r).
Definition set_k_locked (v : bool) (r : kreq) : kreq :=
  mk_kreq (k_args r) (k_count r) (k_unique r) (k_uid r) (k_gid r) (k_pid r)
    (k_len r) (k_error r) (k_isreply r) (k_force r) (k_background r)
    (k_waiting r) (k_aborted r) (k_interrupted r) v (k_pending r)
    (k_sent r) (k_finished r) (k_private r) (k_async r) (k_place r)
    (k_waiter r) (k_copier r).
Definition set_k_pending (v : bool) (r : kreq) : kreq :=
  mk_kreq (k_args r) (k_count r) (k_unique r) (k_uid r) (k_gid r) (k_pid r)
    (k_len r) (k_error r) (k_isreply r) (k_force r) (k_background r)
    (k_waiting r) (k_aborted r) (k_interrupted r) (k_locked r) v
    (k_sent r) (k_finished r) (k_private r) (k_async r) (k_place r)
    (k_waiter r) (k_copier r).
Definition set_k_sent (v : bool) (r : kreq) : kreq :=
  mk_kreq (k_args r) (k_count r) (k_unique r) (k_uid r) (k_gid r) (k_pid r)
    (k_len r) (k_error r) (k_isreply r) (k_force r) (k_background r)
    (k_waiting r) (k_aborted r) (k_interrupted r) (k_locked r)
    (k_pending r) v (k_finished r) (k_private r) (k_async r)
    (k_place r) (k_waiter r) (k_copier r).
Definition set_k_finished (v : bool) (r : kreq) : kreq :=
  mk_kreq (k_args r) (k_count r) (k_unique r) (k_uid r) (k_gid r) (k_pid r)
    (k_len r) (k_error r) (k_isreply r) (k_force r) (k_background r)
    (k_waiting r) (k_aborted r) (k_interrupted r) (k_locked r)
    (k_pending r) (k_sent r) v (k_private r) (k_async r) (k_place r)
    (k_waiter r) (k_copier r).
Definition set_k_private (v : bool) (r : kreq) : kreq :=
  mk_kreq (k_args r) (k_count r) (k_unique r) (k_uid r) (k_gid r) (k_pid r)
    (k_len r) (k_error r) (k_isreply r) (k_force r) (k_background r)
    (k_waiting r) (k_aborted r) (k_interrupted r) (k_locked r)
    (k_pending r) (k_sent r) (k_finished r) v (k_async r) (k_place r)
    (k_waiter r) (k_copier r).
Definition set_k_async (v : bool) (r : kreq) : kreq :=
  mk_kreq (k_args r) (k_count r) (k_unique r) (k_uid r) (k_gid r) (k_pid r)
    (k_len r) (k_error r) (k_isreply r) (k_force r) (k_background r)
    (k_waiting r) (k_aborted r) (k_interrupted r) (k_locked r)
    (k_pending r) (k_sent r) (k_finished r) (k_private r) v
    (k_place r) (k_waiter r) (k_copier r).
Definition set_k_place (v : place) (r : kreq) : kreq :=
  mk_kreq (k_args r) (k_count r) (k_unique r) (k_uid r) (k_gid r) (k_pid r)
    (k_len r) (k_error r) (k_isreply r) (k_force r) (k_background r)
    (k_waiting r) (k_aborted r) (k_interrupted r) (k_locked r)
    (k_pending r) (k_sent r) (k_finished r) (k_private r) (k_async r)
    v (k_waiter r) (k_copier r).
Definition set_k_waiter (v : waiter) (r : kreq) : kreq :=
  mk_kreq (k_args r) (k_count r) (k_unique r) (k_uid r) (k_gid r) (k_pid r)
    (k_len r) (k_error r) (k_isreply r) (k_force r) (k_background r)
    (k_waiting r) (k_aborted r) (k_interrupted r) (k_locked r)
    (k_pending r) (k_sent r) (k_finished r) (k_private r) (k_async r)
    (k_place r) v (k_copier r).
Definition set_k_copier (v : copier) (r : kreq) : kreq :=
  mk_kreq (k_args r) (k_count r) (k_unique r) (k_uid r) (k_gid r) (k_pid r)
    (k_len r) (k_error r) (k_isreply r) (k_force r) (k_background r)
    (k_waiting r) (k_aborted r) (k_interrupted r) (k_locked r)
    (k_pending r) (k_sent r) (k_finished r) (k_private r) (k_async r)
    (k_place r) (k_waiter r) v.

(** [kmem_cache_zalloc]. *)
Definition args0 : fuse_args :=
  mk_args 0 0 false false false false false false false false false [] [] false [] [].
Definition kreq0 : kreq :=
  mk_kreq args0 0 0 0 0 0 0 0 false false false false false false false false false
    false false false Nowhere NoWaiter NoCopier.

(** [struct fuse_forget_link]. *)
Record forget_link : Type := mk_forget { f_next : Z; f_nodeid : Z; f_nlookup : Z }.
Definition set_f_next (v : Z) (f : forget_link) : forget_link :=
  mk_forget v (f_nodeid f) (f_nlookup f).

(** [struct fuse_iqueue]: [forget_head] is [forget_list_head.next]; a [forget_tail] of 0
    is the address of [forget_list_head] itself. *)
Record fuse_iqueue : Type := mk_iqueue {
  connected : bool;
  reqctr : Z;
  pending : list Z;
  interrupts : list Z;
  forget_head : Z;
  forget_tail : Z;
  forget_batch : Z;
}.

Definition set_connected (v : bool) (r : fuse_iqueue) : fuse_iqueue :=
  mk_iqueue v (reqctr r) (pending r) (interrupts r) (forget_head r)
    (forget_tail r) (forget_batch r).
Definition set_reqctr (v : Z) (r : fuse_iqueue) : fuse_iqueue :=
  mk_iqueue (connected r) v (pending r) (interrupts r) (forget_head r)
    (forget_tail r) (forget_batch r).
Definition set_pending (v : list Z) (r : fuse_iqueue) : fuse_iqueue :=
  mk_iqueue (connected r) (reqctr r) v (interrupts r) (forget_head r)
    (forget_tail r) (forget_batch r).
Definition set_interrupts (v : list Z) (r : fuse_iqueue) : fuse_iqueue :=
  mk_iqueue (connected r) (reqctr r) (pending r) v (forget_head r)
    (forget_tail r) (forget_batch r).
Definition set_forget_head (v : Z) (r : fuse_iqueue) : fuse_iqueue :=
  mk_iqueue (connected r) (reqctr r) (pending r) (interrupts r) v
    (forget_tail r) (forget_batch r).
Definition set_forget_tail (v : Z) (r : fuse_iqueue) : fuse_iqueue :=
  mk_iqueue (connected r) (reqctr r) (pending r) (interrupts r)
    (forget_head r) v (forget_batch r).
Definition set_forget_batch (v : Z) (r : fuse_iqueue) : fuse_iqueue :=
  mk_iqueue (connected r) (reqctr r) (pending r) (interrupts r)
    (forget_head r) (forget_tail r) v.

(** [struct fuse_pqueue]; a bucket that is not in the map is empty. *)
Record fuse_pqueue : Type := mk_pqueue {
  pq_connected : bool;
  processing : gmap Z (list Z);
  pq_io : list Z;
}.

Definition set_pq_connected (v : bool) (r : fuse_pqueue) : fuse_pqueue :=
  mk_pqueue v (processing r) (pq_io r).
Definition set_processing (v : gmap Z (list Z)) (r : fuse_pqueue) : fuse_pqueue :=
  mk_pqueue (pq_connected r) v (pq_io r).
Definition set_pq_io (v : list Z) (r : fuse_pqueue) : fuse_pqueue :=
  mk_pqueue (pq_connected r) (processing r) v.

(** [struct fuse_conn]; [devices] are the addresses of the devices, the oldest first. *)
Record fuse_conn : Type := mk_fconn {
  iq : fuse_iqueue;
  minor : Z;
  max_write : Z;
  max_background : Z;
  num_background : Z;
  active_background : Z;
  bg_queue : list Z;
  initialized : bool;
  blocked : bool;
  fc_connected : bool;
  aborted : bool;
  conn_error : bool;
  no_interrupt : bool;
  num_waiting : Z;
  dev_count : Z;
  devices : list Z;
}.

Definition set_iq (v : fuse_iqueue) (r : fuse_conn) : fuse_conn :=
  mk_fconn v (minor r) (max_write r) (max_background r) (num_background r)
    (active_background r) (bg_queue r) (initialized r) (blocked r)
    (fc_connected r) (aborted r) (conn_error r) (no_interrupt r)
    (num_waiting r) (dev_count r) (devices r).
Definition set_minor (v : Z) (r : fuse_conn) : fuse_conn :=
  mk_fconn (iq r) v (max_write r) (max_background r) (num_background r)
    (active_background r) (bg_queue r) (initialized r) (blocked r)
    (fc_connected r) (aborted r) (conn_error r) (no_interrupt r)
    (num_waiting r) (dev_count r) (devices r).
Definition set_max_write (v : Z) (r : fuse_conn) : fuse_conn :=
  mk_fconn (iq r) (minor r) v (max_background r) (num_background r)
    (active_background r) (bg_queue r) (initialized r) (blocked r)
    (fc_connected r) (aborted r) (conn_error r) (no_interrupt r)
    (num_waiting r) (dev_count r) (devices r).
Definition set_max_background (v : Z) (r : fuse_conn) : fuse_conn :=
  mk_fconn (iq r) (minor r) (max_write r) v (num_background r)
    (active_background r) (bg_queue r) (initialized r) (blocked r)
    (fc_connected r) (aborted r) (conn_error r) (no_interrupt r)
    (num_waiting r) (dev_count r) (devices r).
Definition set_num_background (v : Z) (r : fuse_conn) : fuse_conn :=
  mk_fconn (iq r) (minor r) (max_write r) (max_background r) v
    (active_background r) (bg_queue r) (initialized r) (blocked r)
    (fc_connected r) (aborted r) (conn_error r) (no_interrupt r)
    (num_waiting r) (dev_count r) (devices r).
Definition set_active_background (v : Z) (r : fuse_conn) : fuse_conn :=
  mk_fconn (iq r) (minor r) (max_write r) (max_background r)
    (num_background r) v (bg_queue r) (initialized r) (blocked r)
    (fc_connected r) (aborted r) (conn_error r) (no_interrupt r)
    (num_waiting r) (dev_count r) (devices r).
Definition set_bg_queue (v : list Z) (r : fuse_conn) : fuse_conn :=
  mk_fconn (iq r) (minor r) (max_write r) (max_background r)
    (num_background r) (active_background r) v (initialized r)
    (blocked r) (fc_connected r) (aborted r) (conn_error r)
    (no_interrupt r) (num_waiting r) (dev_count r) (devices r).
Definition set_initialized (v : bool) (r : fuse_conn) : fuse_conn :=
  mk_fconn (iq r) (minor r) (max_write r) (max_background r)
    (num_background r) (active_background r) (bg_queue r) v
    (blocked r) (fc_connected r) (aborted r) (conn_error r)
    (no_interrupt r) (num_waiting r) (dev_count r) (devices r).
Definition set_blocked (v : bool) (r : fuse_conn) : fuse_conn :=
  mk_fconn (iq r) (minor r) (max_write r) (max_background r)
    (num_background r) (active_background r) (bg_queue r)
    (initialized r) v (fc_connected r) (aborted r) (conn_error r)
    (no_interrupt r) (num_waiting r) (dev_count r) (devices r).
Definition set_fc_connected (v : bool) (r : fuse_conn) : fuse_conn :=
  mk_fconn (iq r) (minor r) (max_write r) (max_background r)
    (num_background r) (active_background r) (bg_queue r)
    (initialized r) (blocked r) v (aborted r) (conn_error r)
    (no_interrupt r) (num_waiting r) (dev_count r) (devices r).
Definition set_aborted (v : bool) (r : fuse_conn) : fuse_conn :=
  mk_fconn (iq r) (minor r) (max_write r) (max_background r)
    (num_background r) (active_background r) (bg_queue r)
    (initialized r) (blocked r) (fc_connected r) v (conn_error r)
    (no_interrupt r) (num_waiting r) (dev_count r) (devices r).
Definition set_conn_error (v : bool) (r : fuse_conn) : fuse_conn :=
  mk_fconn (iq r) (minor r) (max_write r) (max_background r)
    (num_background r) (active_background r) (bg_queue r)
    (initialized r) (blocked r) (fc_connected r) (aborted r) v
    (no_interrupt r) (num_waiting r) (dev_count r) (devices r).
Definition set_no_interrupt (v : bool) (r : fuse_conn) : fuse_conn :=
  mk_fconn (iq r) (minor r) (max_write r) (max_background r)
    (num_background r) (active_background r) (bg_queue r)
    (initialized r) (blocked r) (fc_connected r) (aborted r)
    (conn_error r) v (num_waiting r) (dev_count r) (devices r).
Definition set_num_waiting (v : Z) (r : fuse_conn) : fuse_conn :=
  mk_fconn (iq r) (minor r) (max_write r) (max_background r)
    (num_background r) (active_background r) (bg_queue r)
    (initialized r) (blocked r) (fc_connected r) (aborted r)
    (conn_error r) (no_interrupt r) v (dev_count r) (devices r).
Definition set_dev_count (v : Z) (r : fuse_conn) : fuse_conn :=
  mk_fconn (iq r) (minor r) (max_write r) (max_background r)
    (num_background r) (active_background r) (bg_queue r)
    (initialized r) (blocked r) (fc_connected r) (aborted r)
    (conn_error r) (no_interrupt r) (num_waiting r) v (devices r).
Definition set_devices (v : list Z) (r : fuse_conn) : fuse_conn :=
  mk_fconn (iq r) (minor r) (max_write r) (max_background r)
    (num_background r) (active_background r) (bg_queue r)
    (initialized r) (blocked r) (fc_connected r) (aborted r)
    (conn_error r) (no_interrupt r) (num_waiting r) (dev_count r) v.

(** The state of the device: the connection, its devices by address, the requests and
    the forgets in memory, the number of objects ever made, the outcomes of the next
    allocations (all later ones succeed), and the calls of [end] functions made so far,
    with their error. *)
Record kernel : Type := mk_kernel {
  fc : fuse_conn;
  devs : gmap Z fuse_pqueue;
  kreqs : gmap Z kreq;
  links : gmap Z forget_link;
  kobjs : Z;
  koks : list bool;
  ended : list (Z * Z);
}.

Definition set_fc (v : fuse_conn) (r : kernel) : kernel :=
  mk_kernel v (devs r) (kreqs r) (links r) (kobjs r) (koks r) (ended r).
Definition set_devs (v : gmap Z fuse_pqueue) (r : kernel) : kernel :=
  mk_kernel (fc r) v (kreqs r) (links r) (kobjs r) (koks r) (ended r).
Definition set_kreqs (v : gmap Z kreq) (r : kernel) : kernel :=
  mk_kernel (fc r) (devs r) v (links r) (kobjs r) (koks r) (ended r).
Definition set_links (v : gmap Z forget_link) (r : kernel) : kernel :=
  mk_kernel (fc r) (devs r) (kreqs r) v (kobjs r) (koks r) (ended r).
Definition set_kobjs (v : Z) (r : kernel) : kernel :=
  mk_kernel (fc r) (devs r) (kreqs r) (links r) v (koks r) (ended r).
Definition set_koks (v : list bool) (r : kernel) : kernel :=
  mk_kernel (fc r) (devs r) (kreqs r) (links r) (kobjs r) v (ended r).
Definition set_ended (v : list (Z * Z)) (r : kernel) : kernel :=
  mk_kernel (fc r) (devs r) (kreqs r) (links r) (kobjs r) (koks r) v.
