(* ===== verification/KForget.v ===== *)
(** * The queue of forgets (fuse_module/dev.c, 231-248 and 1142-1257)

    FORGET needs no answer and no request: the forgets wait in a linked list with a
    pointer to its end, and are assembled into messages when they are read. *)
From S2P Require Import Prelude KTypes.
#[local] Open Scope Z_scope.

Definition FUSE_FORGET : Z := 2.
Definition FUSE_BATCH_FORGET : Z := 42.
Definition EINVAL : Z := 22.
Definition SIZEOF_IN_HEADER : Z := 40.
Definition SIZEOF_FORGET_IN : Z := 8.
Definition SIZEOF_BATCH_FORGET_IN : Z := 8.
Definition SIZEOF_FORGET_ONE : Z := 16.
Definition FUSE_REQ_ID_STEP : Z := 2.
Definition FUSE_INT_REQ_BIT : Z := 1.

#[local] Abbreviation L := (M kernel).

Definition modify_fc (g : fuse_conn -> fuse_conn) : L unit :=
  modifyM (fun s => set_fc (g (fc s)) s).
Definition modify_iq (g : fuse_iqueue -> fuse_iqueue) : L unit :=
  modify_fc (fun c => set_iq (g (iq c)) c).
Definition get_iq : L fuse_iqueue := getsM (fun s => iq (fc s)).

Definition load_link (a : Z) : L forget_link := s ← getM; derefM (links s !! a).
Definition update_link (a : Z) (g : forget_link -> forget_link) : L unit :=
  l ← load_link a; modifyM (fun s => set_links (<[a := g l]> (links s)) s).
Definition kfree_link (a : Z) : L unit :=
  load_link a;; modifyM (fun s => set_links (delete a (links s)) s).

Definition fuse_get_unique : L Z :=
  modify_iq (fun q => set_reqctr (u64 (reqctr q + FUSE_REQ_ID_STEP)) q);;
  q ← get_iq; mret (reqctr q).

(** [fiq->forget_list_tail->next = forget]. *)
Definition store_tail_next (forget : Z) : L unit :=
  q ← get_iq;
  if forget_tail q =? 0 then modify_iq (set_forget_head forget)
  else update_link (forget_tail q) (set_f_next forget).

Definition fuse_queue_forget (forget nodeid nlookup : Z) : L unit :=
  update_link forget (fun l => mk_forget (f_next l) nodeid nlookup);;
  q ← get_iq;
  if connected q then
    store_tail_next forget;;
    modify_iq (set_forget_tail forget)
  else kfree_link forget.

(** The loop of [fuse_dequeue_forget]: [newhead] is the address of the local [head], 0
    here, or of the [next] of a link; [cur] is what it points to. *)
Fixpoint dequeue_walk (fuel : nat) (newhead cur count max : Z) : L (Z * Z * Z) :=
  match fuel with
  | O => crashM OutOfFuel
  | S fuel =>
    if negb (cur =? 0) && (count <? max) then
      l ← load_link cur;
      dequeue_walk fuel cur (f_next l) (count + 1) max
    else mret (newhead, cur, count)
  end.

(** Returns the first link that was taken and their number. *)
Definition fuse_dequeue_forget (max : Z) : L (Z * Z) :=
  q ← get_iq;
  s ← getM;
  let head := forget_head q in
  '(newhead, cur, count) ← dequeue_walk (S (size (links s))) 0 head 0 max;
  modify_iq (set_forget_head cur);;
  head ← (if newhead =? 0 then mret 0 else update_link newhead (set_f_next 0);; mret head);
  (if cur =? 0 then modify_iq (set_forget_tail 0) else mret tt);;
  mret (head, count).

(** [struct fuse_in_header]. *)
Definition in_header (len opcode unique nodeid uid gid pid : Z) : list Z :=
  le_bytes 4 len ++ le_bytes 4 opcode ++ le_bytes 8 unique ++ le_bytes 8 nodeid ++
  le_bytes 4 uid ++ le_bytes 4 gid ++ le_bytes 4 pid ++ le_bytes 4 0.

(** The message a read delivers when its copy to user space succeeds, or an error. *)
Definition fuse_read_single_forget (nbytes : Z) : L (Z + list Z) :=
  '(forget, _) ← fuse_dequeue_forget 1;
  l ← load_link forget;
  unique ← fuse_get_unique;
  let len := SIZEOF_IN_HEADER + SIZEOF_FORGET_IN in
  kfree_link forget;;
  if nbytes <? len then mret (inl (- EINVAL))
  else mret (inr (in_header len FUSE_FORGET unique (f_nodeid l) 0 0 0 ++
                  le_bytes 8 (f_nlookup l))).

(** [while (head)]: the links are copied and freed. *)
Fixpoint copy_forgets (fuel : nat) (head : Z) : L (list Z) :=
  match fuel with
  | O => crashM OutOfFuel
  | S fuel =>
    if head =? 0 then mret []
    else
      l ← load_link head;
      kfree_link head;;
      r ← copy_forgets fuel (f_next l);
      mret (le_bytes 8 (f_nodeid l) ++ le_bytes 8 (f_nlookup l) ++ r)
  end.

Definition fuse_read_batch_forget (nbytes : Z) : L (Z + list Z) :=
  unique ← fuse_get_unique;
  let len := SIZEOF_IN_HEADER + SIZEOF_BATCH_FORGET_IN in
  if nbytes <? len then mret (inl (- EINVAL))
  else
    let max_forgets := u32 ((nbytes - len) / SIZEOF_FORGET_ONE) in
    '(head, count) ← fuse_dequeue_forget max_forgets;
    s ← getM;
    let len := u32 (len + count * SIZEOF_FORGET_ONE) in
    forgets ← copy_forgets (S (size (links s))) head;
    mret (inr (in_header len FUSE_BATCH_FORGET unique 0 0 0 0 ++
               le_bytes 4 count ++ le_bytes 4 0 ++ forgets)).

Definition fuse_read_forget (nbytes : Z) : L (Z + list Z) :=
  s ← getM;
  l ← load_link (forget_head (iq (fc s)));
  if (minor (fc s) <? 16) || (f_next l =? 0) then fuse_read_single_forget nbytes
  else fuse_read_batch_forget nbytes.

(** [forget_pending]. *)
Definition forget_pending (q : fuse_iqueue) : bool := negb (forget_head q =? 0).
