(* ===== verification/KForgetFacts.v ===== *)
(** * Forgets are delivered in order

    The linked list with its tail pointer implements a queue, and a read takes a prefix
    of it into one message. *)
From S2P Require Import Prelude KTypes KForget.
#[local] Open Scope Z_scope.

#[local] Abbreviation L := (M kernel).
Implicit Types (s : kernel) (m : gmap Z forget_link).

(** A forget in the queue: the address of its link, its node and its lookups. *)
Definition item : Type := Z * (Z * Z).

Fixpoint chain m (head : Z) (l : list item) : Prop :=
  match l with
  | [] => head = 0
  | (a, (n, k)) :: l =>
    head = a /\ a <> 0 /\ exists next, m !! a = Some (mk_forget next n k) /\ chain m next l
  end.

Definition last_addr (l : list item) : Z := default 0 (last l.*1).

(** The queue of [s] holds the forgets [l], the oldest first. *)
Record forgets s (l : list item) : Prop := mk_forgets {
  fg_chain : chain (links s) (forget_head (iq (fc s))) l;
  fg_nodup : NoDup l.*1;
  fg_tail : forget_tail (iq (fc s)) = last_addr l;
}.

Lemma chain_frame m m' l : forall head, chain m head l ->
  (forall a, a ∈ l.*1 -> m' !! a = m !! a) -> chain m' head l.
Proof.
  induction l as [|[a [n k]] l IH]; intros head Hc Hm; [done|].
  destruct Hc as (-> & Ha & next & Hl & Hc). split; [done|]. split; [done|].
  exists next. rewrite Hm by by left. split; [done|]. apply IH; [done|].
  intros b Hb. apply Hm. by right.
Qed.

Lemma chain_mem m l : forall head a, chain m head l -> a ∈ l.*1 -> a <> 0 /\ is_Some (m !! a).
Proof.
  induction l as [|[b [n k]] l IH]; intros head a Hc Ha; [by apply not_elem_of_nil in Ha|].
  destruct Hc as (-> & Hb & next & Hl & Hc). apply elem_of_cons in Ha as [->|Ha]; [by eauto|].
  by eapply IH.
Qed.

Lemma chain_size m l head : chain m head l -> NoDup l.*1 -> (length l <= size m)%nat.
Proof.
  intros Hc Hn. assert (Hl : length l = length l.*1) by (by rewrite length_fmap).
  rewrite Hl, <- size_dom.
  rewrite <- (size_list_to_set (C := gset Z) l.*1 Hn). apply subseteq_size.
  intros a Ha%elem_of_list_to_set. apply elem_of_dom. by apply (chain_mem _ _ _ _ Hc).
Qed.

Lemma load_link_Ok s a l : links s !! a = Some l -> load_link a s = Ok (l, s).
Proof. intros Hl. unfold load_link, mbind, M_bind, getM. by rewrite Hl. Qed.

Lemma update_link_Ok s a l g : links s !! a = Some l ->
  update_link a g s = Ok (tt, set_links (<[a := g l]> (links s)) s).
Proof. intros Hl. unfold update_link. by rewrite (bind_Ok _ _ _ _ _ (load_link_Ok _ _ _ Hl)). Qed.

(** ** Adding one *)
Lemma last_addr_snoc l a x : last_addr (l ++ [(a, x)]) = a.
Proof. unfold last_addr. rewrite fmap_app. cbn. by rewrite last_snoc. Qed.

Lemma chain_snoc m l f n k : forall head, chain m head l -> l <> [] -> NoDup l.*1 ->
  f ∉ l.*1 -> f <> 0 -> m !! f = Some (mk_forget 0 n k) ->
  exists x, m !! last_addr l = Some x /\ last_addr l ∈ l.*1 /\
    chain (<[last_addr l := set_f_next f x]> m) head (l ++ [(f, (n, k))]).
Proof.
  induction l as [|[a [n' k']] l IH]; intros head Hc Hne Hnd Hf Hf0 Hm; [done|].
  destruct Hc as (-> & Ha & next & Hl & Hc). apply NoDup_cons in Hnd as [Hal Hnd].
  rewrite fmap_cons, not_elem_of_cons in Hf. destruct Hf as [Hfa Hf].
  destruct l as [|[b y] l].
  - cbn in Hc. subst next. exists (mk_forget 0 n' k'). split; [done|]. split; [by left|].
    split; [done|]. split; [done|]. exists f. cbn in Hfa |- *.
    split; [by rewrite lookup_insert_eq|]. split; [done|]. split; [done|].
    exists 0. by rewrite lookup_insert_ne by done.
  - destruct (IH next Hc ltac:(done) Hnd Hf Hf0 Hm) as (x & Hx & Hin & Hc').
    change (last_addr ((a, (n', k')) :: (b, y) :: l)) with (last_addr ((b, y) :: l)).
    exists x. split; [done|]. split; [by right|]. split; [done|]. split; [done|].
    exists next. rewrite lookup_insert_ne by (intros Heq; apply Hal; by rewrite <- Heq).
    by split.
Qed.

(** Only the queue of forgets has changed. *)
Definition same_but_forgets s s' : Prop :=
  kreqs s' = kreqs s /\ devs s' = devs s /\ kobjs s' = kobjs s /\ koks s' = koks s /\
  ended s' = ended s /\
  exists hd tl ctr, fc s' = set_iq (set_reqctr ctr (set_forget_tail tl (set_forget_head hd (iq (fc s))))) (fc s).

Lemma queue_forget_runs s l f l0 nodeid nlookup : forgets s l ->
  links s !! f = Some l0 -> f_next l0 = 0 -> f <> 0 -> f ∉ l.*1 ->
  connected (iq (fc s)) = true ->
  runs (fuse_queue_forget f nodeid nlookup) s (fun _ s' =>
    forgets s' (l ++ [(f, (nodeid, nlookup))]) /\ same_but_forgets s s' /\
    reqctr (iq (fc s')) = reqctr (iq (fc s)) /\ dom (links s') = dom (links s)).
Proof.
  intros [Hc Hnd Ht] Hf Hn Hf0 Hfl Hcon. unfold fuse_queue_forget.
  destruct l0 as [nx n0 k0]. cbn in Hn. subst nx.
  eapply runs_Ok_bind; [by apply update_link_Ok|]. cbn [f_next].
  set (s1 := set_links _ s). eapply runs_Ok_bind; [done|].
  change (connected (iq (fc s1))) with (connected (iq (fc s))). rewrite Hcon.
  assert (Hc1 : chain (links s1) (forget_head (iq (fc s))) l).
  { apply (chain_frame (links s)); [done|]. intros a Ha. cbn.
    rewrite lookup_insert_ne; [done|]. by intros ->. }
  assert (Hf1 : links s1 !! f = Some (mk_forget 0 nodeid nlookup)) by apply lookup_insert_eq.
  assert (Hd1 : dom (links s1) = dom (links s)) by (apply dom_insert_lookup_L; eauto).
  assert (Hnd' : NoDup (l ++ [(f, (nodeid, nlookup))]).*1).
  { rewrite fmap_app. apply NoDup_app. split; [done|]. split; [|by apply NoDup_singleton].
    by intros a Ha ->%list_elem_of_singleton. }
  unfold store_tail_next. apply runs_bind_assoc. eapply runs_Ok_bind; [done|].
  change (forget_tail (iq (fc s1))) with (forget_tail (iq (fc s))). rewrite Ht.
  destruct l as [|i l].
  - cbn. eexists tt, _. split; [done|].
    split; [|split; [do 5 (split; [done|]); by exists f, f, (reqctr (iq (fc s)))|done]].
    split; [|done|done]. cbn. split; [done|]. split; [done|]. exists 0. by split.
  - destruct (chain_snoc (links s1) (i :: l) f nodeid nlookup _ Hc1 ltac:(done) Hnd Hfl Hf0 Hf1)
      as (x & Hx & Hin & Hc2).
    destruct (chain_mem _ _ _ _ Hc Hin) as [Hz _]. rewrite (proj2 (Z.eqb_neq _ _) Hz).
    eapply runs_Ok_bind; [by apply update_link_Ok|].
    eexists tt, _. split; [done|].
    split; [|split; [do 5 (split; [done|]); by exists (forget_head (iq (fc s))), f, (reqctr (iq (fc s)))|]].
    + split; [exact Hc2|done|by rewrite last_addr_snoc].
    + split; [done|]. rewrite <- Hd1. apply dom_insert_lookup_L. eauto.
Qed.

Definition next_unique s : Z := u64 (reqctr (iq (fc s)) + FUSE_REQ_ID_STEP).

(** ** Taking some *)
Lemma walk_runs s l max : forall fuel newhead cur count, chain (links s) cur l ->
  (length l < fuel)%nat -> 0 <= count ->
  dequeue_walk fuel newhead cur count max s =
  Ok (last_addr ((newhead, (0, 0)) :: take (Z.to_nat (max - count)) l),
      fst (default (0, (0, 0)) (head (drop (Z.to_nat (max - count)) l))),
      count + Z.of_nat (length (take (Z.to_nat (max - count)) l)), s).
Proof.
  induction l as [|[a [n k]] l IH]; intros [|fuel] newhead cur count Hc Hf Hcnt; cbn in Hf; try lia.
  - cbn in Hc. subst cur. rewrite take_nil, drop_nil. cbn. by rewrite Z.add_0_r.
  - destruct Hc as (-> & Ha & next & Hl & Hc). cbn [dequeue_walk].
    rewrite (proj2 (Z.eqb_neq _ _) Ha). cbn [negb andb].
    destruct (Z.ltb_spec count max).
    + rewrite (bind_Ok _ _ _ _ _ (load_link_Ok _ _ _ Hl)). cbn [f_next].
      rewrite (IH fuel a next (count + 1)) by (done || lia).
      replace (Z.to_nat (max - count)) with (S (Z.to_nat (max - (count + 1)))) by lia.
      cbn [take drop length]. set (t := take _ l).
      replace (count + 1 + Z.of_nat (length t)) with (count + Z.of_nat (S (length t))) by lia.
      reflexivity.
    + replace (Z.to_nat (max - count)) with 0%nat by lia. cbn. by rewrite Z.add_0_r.
Qed.

Definition first_addr (l : list item) : Z := fst (default (0, (0, 0)) (head l)).

Lemma chain_first m l head : chain m head l -> head = first_addr l.
Proof. destruct l as [|[a [n k]] l]; [done|]. by intros (-> & _). Qed.

(** Cutting the list after [t]. *)
Lemma chain_cut m t d : forall head, chain m head (t ++ d) -> t <> [] -> NoDup (t ++ d).*1 ->
  exists x, m !! last_addr t = Some x /\ last_addr t ∈ t.*1 /\
    chain (<[last_addr t := set_f_next 0 x]> m) head t /\ chain m (first_addr d) d.
Proof.
  induction t as [|[a [n k]] t IH]; intros head Hc Hne Hnd; [done|].
  destruct Hc as (-> & Ha & next & Hl & Hc). apply NoDup_cons in Hnd as [Hat Hnd].
  destruct t as [|[b y] t].
  - exists (mk_forget next n k). split; [done|]. split; [by left|]. split.
    + split; [done|]. split; [done|]. exists 0. cbn. by rewrite lookup_insert_eq.
    + cbn in Hc. by rewrite <- (chain_first _ _ _ Hc).
  - destruct (IH next Hc ltac:(done) Hnd) as (x & Hx & Hin & Hc' & Hd).
    change (last_addr ((a, (n, k)) :: (b, y) :: t)) with (last_addr ((b, y) :: t)).
    exists x. split; [done|]. split; [by right|]. split; [|done]. split; [done|]. split; [done|].
    exists next. rewrite lookup_insert_ne; [by split|]. intros Heq.
    assert (Hat' : a ∉ (((b, y) :: t) ++ d).*1) by exact Hat. apply Hat'.
    rewrite fmap_app. apply elem_of_app. left. by rewrite <- Heq.
Qed.

Lemma last_addr_app t d : d <> [] -> last_addr (t ++ d) = last_addr d.
Proof.
  intros Hd. unfold last_addr. rewrite fmap_app. destruct d as [|x d] using rev_ind; [done|].
  rewrite (fmap_app _ d [x]). change ([x].*1) with [x.1]. by rewrite app_assoc, !last_snoc.
Qed.

(** [fuse_dequeue_forget] takes at most [max] of the oldest forgets. *)
Lemma dequeue_runs s l max (n := Z.to_nat max) : forgets s l -> 0 <= max ->
  runs (fuse_dequeue_forget max) s (fun r s' => r.2 = Z.of_nat (length (take n l)) /\
    chain (links s') r.1 (take n l) /\ forgets s' (drop n l) /\ same_but_forgets s s' /\
    reqctr (iq (fc s')) = reqctr (iq (fc s)) /\ dom (links s') = dom (links s) /\ (forall a, a ∉ l.*1 -> links s' !! a = links s !! a)).
Proof.
  intros [Hc Hnd Ht] Hmax. unfold fuse_dequeue_forget.
  eapply runs_Ok_bind; [done|]. apply runs_get_bind. cbv zeta.
  set (hd := forget_head (iq (fc s))) in *.
  pose proof (walk_runs s l max (S (size (links s))) 0 hd 0 Hc) as Hw.
  rewrite Z.sub_0_r in Hw. fold n in Hw.
  eapply runs_Ok_bind; [apply Hw; [pose proof (chain_size _ _ _ Hc Hnd); lia|lia]|]. clear Hw.
  fold (first_addr (drop n l)). rewrite Z.add_0_l.
  set (t := take n l). set (d := drop n l).
  assert (Hl : l = t ++ d) by (symmetry; apply take_drop).
  assert (Hndd : NoDup d.*1 /\ forall a, a ∈ t.*1 -> a ∉ d.*1).
  { rewrite Hl, fmap_app in Hnd. apply NoDup_app in Hnd as (_ & Hx & Hy). by split. }
  set (tl' := if first_addr d =? 0 then 0 else forget_tail (iq (fc s))).
  assert (Htl : tl' = last_addr d).
  { unfold tl'. destruct (decide (d = [])) as [->|Hne]; [done|].
    rewrite Ht, Hl, last_addr_app by done.
    assert (Hf : first_addr d <> 0); [|by rewrite (proj2 (Z.eqb_neq _ _) Hf)].
    destruct d as [|[a [u v]] d']; [done|]. cbn.
    apply (chain_mem (links s) l hd a Hc). rewrite Hl, fmap_app. apply elem_of_app. right. by left. }
  apply runs_modify_bind.
  set (s1 := set_fc _ s).
  assert (Hcd : chain (links s) (first_addr d) d).
  { destruct (decide (t = [])) as [Ht0|Hne].
    - rewrite Hl, Ht0 in Hc. cbn in Hc. by rewrite <- (chain_first _ _ _ Hc).
    - rewrite Hl in Hc, Hnd. by destruct (chain_cut (links s) t d hd Hc Hne Hnd) as (x & _ & _ & _ & ?). }
  assert (Htail : forall (hd' : Z) m, chain m hd' t -> (forall a, a ∈ d.*1 -> m !! a = links s !! a) ->
    dom m = dom (links s) -> (forall a, a ∉ l.*1 -> m !! a = links s !! a) ->
    runs ((if first_addr d =? 0 then modify_iq (set_forget_tail 0) else mret tt);;
          mret (hd', Z.of_nat (length t))) (set_links m s1)
      (fun r s' => r.2 = Z.of_nat (length t) /\ chain (links s') r.1 t /\ forgets s' d /\
         same_but_forgets s s' /\ reqctr (iq (fc s')) = reqctr (iq (fc s)) /\
         dom (links s') = dom (links s) /\
         (forall a, a ∉ l.*1 -> links s' !! a = links s !! a))).
  { intros hd' m Hm Hmd Hdom Hml. eexists _,
      (set_links m (set_fc (set_iq (set_forget_tail tl' (set_forget_head (first_addr d)
        (iq (fc s)))) (fc s)) s)).
    split; [unfold tl'; case (first_addr d =? 0); reflexivity|].
    split; [done|]. split; [done|]. split; [|split; [|done]].
    - split; [|apply Hndd|done]. by apply (chain_frame (links s)).
    - do 5 (split; [done|]). by exists (first_addr d), tl', (reqctr (iq (fc s))). }
  destruct (decide (t = [])) as [Ht0|Hne].
  - rewrite Ht0 in Htail |- *. apply runs_ret_bind. by apply (Htail 0 (links s)).
  - rewrite Hl in Hc, Hnd. destruct (chain_cut (links s) t d hd Hc Hne Hnd) as (x & Hx & Hin & Hct & _).
    rewrite <- Hl in Hc. destruct (chain_mem _ _ _ (last_addr t) Hc) as [Hz _].
    { rewrite Hl, fmap_app. apply elem_of_app. by left. }
    assert (Hz' : last_addr ((0, (0, 0)) :: t) = last_addr t) by by destruct t.
    rewrite Hz', (proj2 (Z.eqb_neq _ _) Hz). apply runs_bind_assoc.
    eapply runs_Ok_bind; [by apply update_link_Ok|]. apply runs_ret_bind.
    apply (Htail hd); [done|..].
    + intros a Ha. rewrite lookup_insert_ne; [done|]. intros <-. by apply (proj2 Hndd _ Hin).
    + rewrite dom_insert_L. apply subseteq_union_1_L. apply singleton_subseteq_l.
      apply elem_of_dom. by exists x.
    + intros a Ha. rewrite lookup_insert_ne; [done|]. intros <-. apply Ha.
      rewrite Hl, fmap_app. apply elem_of_app. by left.
Qed.

(** ** Reading *)
Definition forget_bytes (l : list item) : list Z :=
  concat ((fun i : item => le_bytes 8 i.2.1 ++ le_bytes 8 i.2.2) <$> l).

Lemma forget_bytes_cons a n k l :
  forget_bytes ((a, (n, k)) :: l) = le_bytes 8 n ++ le_bytes 8 k ++ forget_bytes l.
Proof.
  change (forget_bytes ((a, (n, k)) :: l)) with ((le_bytes 8 n ++ le_bytes 8 k) ++ forget_bytes l).
  by rewrite <- app_assoc.
Qed.

Lemma kfree_link_Ok s a l : links s !! a = Some l ->
  kfree_link a s = Ok (tt, set_links (delete a (links s)) s).
Proof. intros Hl. unfold kfree_link. by rewrite (bind_Ok _ _ _ _ _ (load_link_Ok _ _ _ Hl)). Qed.

Lemma copy_forgets_Ok l : forall fuel s hd, chain (links s) hd l -> NoDup l.*1 ->
  (length l < fuel)%nat ->
  copy_forgets fuel hd s = Ok (forget_bytes l, set_links (foldl (fun m a => delete a m) (links s) l.*1) s).
Proof.
  induction l as [|[a [n k]] l IH]; intros [|fuel] s hd Hc Hnd Hf; cbn in Hf; try lia.
  - cbn in Hc. subst hd. by destruct s.
  - destruct Hc as (-> & Ha & next & Hl & Hc). apply NoDup_cons in Hnd as [Hal Hnd].
    cbn [copy_forgets]. rewrite (proj2 (Z.eqb_neq _ _) Ha).
    rewrite (bind_Ok _ _ _ _ _ (load_link_Ok _ _ _ Hl)).
    rewrite (bind_Ok _ _ _ _ _ (kfree_link_Ok _ _ _ Hl)). cbn [f_next f_nodeid f_nlookup].
    rewrite (bind_Ok _ _ _ _ _ (IH fuel (set_links (delete a (links s)) s) next
      ltac:(apply (chain_frame (links s)); [done|]; intros b Hb; cbn; rewrite lookup_delete_ne; [done|];
            by intros ->) Hnd ltac:(lia))).
    by rewrite forget_bytes_cons.
Qed.

Lemma delete_all_lookup (l : list Z) a : forall m,
  foldl (fun m b => delete b m) m l !! a = if decide (a ∈ l) then None else m !! a.
Proof.
  induction l as [|b l IH]; intros m; cbn [foldl].
  { rewrite decide_False; [done|]. apply not_elem_of_nil. }
  rewrite IH. destruct (decide (a ∈ l)) as [Ha|Ha].
  - rewrite decide_True; [done|]. by right.
  - destruct (decide (a = b)) as [->|Hne].
    + rewrite lookup_delete_eq, decide_True; [done|]. by left.
    + rewrite lookup_delete_ne, decide_False; [done| |done]. by rewrite not_elem_of_cons.
Qed.

(** How many of the forgets a read takes. *)
Definition batch_size (minor nbytes : Z) (l : list item) : nat :=
  if (minor <? 16) || (length l =? 1)%nat then 1%nat
  else Nat.min (length l) (Z.to_nat ((nbytes - 48) / 16)).

Definition forget_message (minor unique : Z) (l t : list item) : list Z :=
  match t with
  | (_, (n, k)) :: _ =>
    if (minor <? 16) || (length l =? 1)%nat
    then in_header 48 FUSE_FORGET unique n 0 0 0 ++ le_bytes 8 k
    else in_header (48 + 16 * Z.of_nat (length t)) FUSE_BATCH_FORGET unique 0 0 0 0 ++
         le_bytes 4 (Z.of_nat (length t)) ++ le_bytes 4 0 ++ forget_bytes t
  | [] => []
  end.

(** What a read of forgets leaves and delivers. *)
Record forgets_read s s' (l : list item) (k : nat) (r : Z + list Z) : Prop := mk_forgets_read {
  fr_rest : forgets s' (drop k l);
  fr_freed : forall a, a ∈ (take k l).*1 -> links s' !! a = None;
  fr_kept : forall a, a ∉ (take k l).*1 -> a ∉ l.*1 -> links s' !! a = links s !! a;
  fr_same : same_but_forgets s s';
  fr_ctr : reqctr (iq (fc s')) = next_unique s;
  fr_message : r = inr (forget_message (minor (fc s)) (next_unique s) l (take k l));
}.

Lemma unique_runs s l : forgets s l ->
  runs fuse_get_unique s (fun u s' => u = next_unique s /\ forgets s' l /\ same_but_forgets s s' /\
    links s' = links s /\ reqctr (iq (fc s')) = next_unique s).
Proof.
  intros [Hc Hnd Ht]. eexists _, _. split; [done|]. split; [done|]. split; [by split|].
  split; [|done]. do 5 (split; [done|]).
  by exists (forget_head (iq (fc s))), (forget_tail (iq (fc s))), (next_unique s).
Qed.

Lemma same_trans s s1 s2 : same_but_forgets s s1 -> same_but_forgets s1 s2 -> same_but_forgets s s2.
Proof.
  intros (H1 & H2 & H3 & H4 & H5 & hd & tl & ctr & Hf) (G1 & G2 & G3 & G4 & G5 & hd' & tl' & ctr' & Gf).
  unfold same_but_forgets. rewrite G1, G2, G3, G4, G5. do 5 (split; [done|]).
  exists hd', tl', ctr'. by rewrite Gf, Hf.
Qed.

Lemma forgets_delete s l a : forgets s l -> a ∉ l.*1 -> forgets (set_links (delete a (links s)) s) l.
Proof.
  intros [Hc Hnd Ht] Ha. split; [|done..]. apply (chain_frame (links s)); [done|].
  intros b Hb. cbn. rewrite lookup_delete_ne; [done|]. by intros ->.
Qed.

Lemma read_single_runs s l nbytes : forgets s l -> l <> [] -> 48 <= nbytes ->
  (minor (fc s) <? 16) || (length l =? 1)%nat = true ->
  runs (fuse_read_single_forget nbytes) s (fun r s' => forgets_read s s' l 1 r).
Proof.
  intros Hf Hne Hnb Hone. unfold fuse_read_single_forget.
  eapply runs_bind; [by apply (dequeue_runs s l 1)|].
  intros [hd cnt] s1 (_ & Hc & Hf1 & Hs1 & Hu1 & Hd1 & Hk1). cbn [fst] in Hc.
  destruct l as [|[a [n k]] l]; [done|]. cbn in Hc. destruct Hc as (-> & Ha & next & Hl & ->).
  assert (Hal : a ∉ l.*1) by (destruct Hf as [_ Hnd _]; by apply NoDup_cons in Hnd as [? _]).
  eapply runs_Ok_bind; [by apply load_link_Ok|]. cbn [f_next f_nodeid f_nlookup].
  eapply runs_bind; [exact (unique_runs s1 _ Hf1)|]. intros u s2 (-> & Hf2 & Hs2 & Hl2 & Hct2).
  eapply runs_Ok_bind; [eapply kfree_link_Ok; by rewrite Hl2|].
  change (SIZEOF_IN_HEADER + SIZEOF_FORGET_IN) with 48. rewrite (proj2 (Z.ltb_ge _ _) Hnb).
  apply runs_ret. cbn [drop] in Hf2. split.
  - by apply forgets_delete.
  - intros b ->%list_elem_of_singleton. cbn. by rewrite Hl2, lookup_delete_eq.
  - intros b Hb Hbl. cbn. rewrite Hl2, lookup_delete_ne by set_solver. by apply Hk1.
  - exact (same_trans _ _ _ Hs1 Hs2).
  - cbn. rewrite Hct2. unfold next_unique. by rewrite Hu1.
  - unfold forget_message. rewrite Hone. unfold next_unique. by rewrite Hu1.
Qed.

Lemma read_batch_runs s l nbytes (k := Nat.min (length l) (Z.to_nat ((nbytes - 48) / 16))) :
  forgets s l -> l <> [] -> 64 <= nbytes < 2 ^ 32 ->
  (minor (fc s) <? 16) || (length l =? 1)%nat = false ->
  runs (fuse_read_batch_forget nbytes) s (fun r s' => forgets_read s s' l k r).
Proof.
  intros Hf Hne Hnb Hone. unfold fuse_read_batch_forget.
  eapply runs_bind; [exact (unique_runs s l Hf)|]. intros u s1 (-> & Hf1 & Hs1 & Hl1 & Hct1). cbv zeta.
  change (SIZEOF_IN_HEADER + SIZEOF_BATCH_FORGET_IN) with 48.
  rewrite (proj2 (Z.ltb_ge nbytes 48)) by lia.
  set (max := u32 ((nbytes - 48) / SIZEOF_FORGET_ONE)).
  assert (Hmax : max = (nbytes - 48) / 16 /\ 1 <= max).
  { assert (1 <= (nbytes - 48) / 16) by (apply Z.div_le_lower_bound; lia).
    assert ((nbytes - 48) / 16 < 2 ^ 32) by (apply Z.div_lt_upper_bound; lia).
    unfold max, SIZEOF_FORGET_ONE, u32. rewrite Z.mod_small by lia. done. }
  destruct Hmax as [Hmax Hpos].
  eapply runs_bind; [apply (dequeue_runs s1 l max Hf1); lia|].
  intros [hd cnt] s2 (Hcnt & Hc & Hf2 & Hs2 & Hu2 & Hd2 & Hk2). cbn [fst snd] in Hc, Hcnt. subst cnt.
  rewrite Hmax in Hf2, Hc |- *. set (n := Z.to_nat ((nbytes - 48) / 16)) in *.
  assert (Hk : take n l = take k l /\ drop n l = drop k l).
  { unfold k. destruct (Nat.min_spec (length l) n) as [[Hlt ->]|[Hge ->]]; [|done].
    by rewrite !take_ge, !drop_ge by lia. }
  destruct Hk as [Ht Hd]. rewrite Ht, Hd in *. apply runs_get_bind. cbv zeta.
  set (t := take k l) in *.
  assert (Hnd : NoDup t.*1).
  { destruct Hf as [_ Hnd _]. unfold t. rewrite fmap_take.
    rewrite <- (take_drop k l.*1) in Hnd. by apply NoDup_app in Hnd as (? & _). }
  assert (Htl : (1 <= length t)%nat /\ Z.of_nat (length t) <= (nbytes - 48) / 16).
  { unfold t. rewrite length_take. unfold k, n. destruct l; [done|]. cbn [length]. lia. }
  assert (Hfit : 16 * ((nbytes - 48) / 16) <= nbytes - 48) by (apply Z.mul_div_le; lia).
  eapply runs_Ok_bind.
  { apply copy_forgets_Ok; [exact Hc|done|].
    pose proof (chain_size _ _ _ Hc Hnd). lia. }
  apply runs_ret. cbn [links set_links]. split.
  - destruct Hf2 as [Hc2 Hnd2 Ht2]. split; [|done..]. apply (chain_frame (links s2)); [done|].
    intros a Ha. cbn. rewrite delete_all_lookup, decide_False; [done|]. intros Hat.
    destruct Hf as [_ Hndl _]. rewrite <- (take_drop k l), fmap_app in Hndl.
    apply NoDup_app in Hndl as (_ & Hx & _). by apply (Hx a).
  - intros a Ha. cbn. by rewrite delete_all_lookup, decide_True.
  - intros a Ha Hal. cbn. rewrite delete_all_lookup, decide_False by done. by rewrite Hk2, Hl1.
  - exact (same_trans _ _ _ Hs1 Hs2).
  - cbn. by rewrite Hu2, Hct1.
  - unfold forget_message. fold t. rewrite Hone. destruct t as [|[a [u v]] t'] eqn:Heq; [cbn in Htl; lia|].
    rewrite <- Heq in *. unfold u32. unfold SIZEOF_FORGET_ONE. rewrite Z.mod_small by lia.
    by replace (48 + Z.of_nat (length t) * 16) with (48 + 16 * Z.of_nat (length t)) by lia.
Qed.

Lemma read_forget_runs s l nbytes (k := batch_size (minor (fc s)) nbytes l) : forgets s l ->
  l <> [] -> 64 <= nbytes < 2 ^ 32 ->
  (1 <= k <= length l)%nat /\ runs (fuse_read_forget nbytes) s (fun r s' => forgets_read s s' l k r).
Proof.
  intros Hf Hne Hnb. split.
  { unfold k, batch_size. assert (1 <= (nbytes - 48) / 16) by (apply Z.div_le_lower_bound; lia).
    destruct l; [done|]. case (_ || _); cbn [length]; lia. }
  unfold fuse_read_forget. apply runs_get_bind. pose proof Hf as [Hc Hnd _].
  destruct l as [|[a [n q]] l]; [done|]. destruct Hc as (Hhd & Ha & next & Hl & Hc). rewrite Hhd.
  eapply runs_Ok_bind; [by apply load_link_Ok|]. cbn [f_next].
  assert (Hone : (next =? 0) = (length ((a, (n, q)) :: l) =? 1)%nat).
  { destruct l as [|[b [u v]] l]; [by rewrite Hc|]. destruct Hc as (-> & Hb & _).
    by rewrite (proj2 (Z.eqb_neq _ _) Hb). }
  rewrite Hone.
  assert (Hk : k = if (minor (fc s) <? 16) || (length ((a, (n, q)) :: l) =? 1)%nat then 1%nat
    else Nat.min (length ((a, (n, q)) :: l)) (Z.to_nat ((nbytes - 48) / 16))) by reflexivity.
  destruct ((minor (fc s) <? 16) || (length ((a, (n, q)) :: l) =? 1)%nat) eqn:Hsingle.
  - rewrite Hk. apply read_single_runs; [done..|lia|done].
  - rewrite Hk. by apply read_batch_runs.
Qed.

(** C28: the queue of forgets.  [fuse_queue_forget] appends, and a read takes the oldest
    forgets, one for an old protocol or when there is only one, else as many as fit the
    buffer, puts exactly them into its message in order, frees their links and leaves
    the rest queued; nothing but the queue changes. *)
Theorem forget_queue_refines s l : forgets s l ->
  (forall f l0 nodeid nlookup, links s !! f = Some l0 -> f_next l0 = 0 -> f <> 0 ->
     f ∉ l.*1 -> connected (iq (fc s)) = true ->
     runs (fuse_queue_forget f nodeid nlookup) s (fun _ s' =>
       forgets s' (l ++ [(f, (nodeid, nlookup))]) /\ same_but_forgets s s')) /\
  (forall nbytes, l <> [] -> 64 <= nbytes < 2 ^ 32 ->
     let k := batch_size (minor (fc s)) nbytes l in
     (1 <= k <= length l)%nat /\
     runs (fuse_read_forget nbytes) s (fun r s' => forgets_read s s' l k r)).
Proof.
  intros Hf. split.
  { intros. eapply runs_mono; [by eapply queue_forget_runs|]. by intros _ s' (? & ? & _). }
  intros nbytes Hne Hnb k. by apply read_forget_runs.
Qed.

Definition ex_iqueue : fuse_iqueue := mk_iqueue true 0 [] [] 1 2 0.
Definition ex_conn : fuse_conn :=
  mk_fconn ex_iqueue 38 131072 12 0 0 [] true false true false false false 0 1 [].
Definition ex_kernel : kernel :=
  mk_kernel ex_conn ∅ ∅ (list_to_map [(1, mk_forget 2 7 1); (2, mk_forget 0 9 4)]) 2 [] [].

Lemma forget_queue_refines_witness :
  runs (fuse_read_forget 8192) ex_kernel (fun r s' => forgets s' [] /\
    r = inr (in_header 80 FUSE_BATCH_FORGET 2 0 0 0 0 ++ le_bytes 4 2 ++ le_bytes 4 0 ++
             forget_bytes [(1, (7, 1)); (2, (9, 4))])).
Proof.
  assert (Hf : forgets ex_kernel [(1, (7, 1)); (2, (9, 4))]).
  { split; [|repeat constructor; set_solver|done].
    split; [done|]. split; [done|]. exists 2. split; [done|]. split; [done|]. split; [done|].
    by exists 0. }
  eapply runs_mono.
  - apply (proj2 (proj2 (forget_queue_refines _ _ Hf) 8192 ltac:(done) ltac:(lia))).
  - intros r s' [Hr _ _ _ _ Hm]. split; [exact Hr|exact Hm].
Defined.
