(* ===== verification/KQueue.v ===== *)
(** * The queues of requests of the device (fuse_module/dev.c)

    A request is queued by the thread that needs an answer, read by the daemon through a
    device, and ended when the answer is written, when the connection is aborted, or
    when its sender is killed first.  Each definition is the code between two points at
    which a thread sleeps, takes a page fault, or returns; waking threads up is left out,
    since a thread that sleeps may run whenever what it waits for holds.  [WARN_ON] and
    [BUG_ON] are assertions. *)
From S2P Require Import Prelude KTypes KForget.
#[local] Open Scope Z_scope.

Definition ENOENT : Z := 2.
Definition EINTR : Z := 4.
Definition EIO : Z := 5.
Definition E2BIG : Z := 7.
Definition EAGAIN : Z := 11.
Definition ENOMEM : Z := 12.
Definition ENODEV : Z := 19.
Definition ENOSYS : Z := 38.
Definition EOVERFLOW : Z := 75.
Definition ECONNABORTED : Z := 103.
Definition ENOTCONN : Z := 107.
Definition ECONNREFUSED : Z := 111.
Definition UINT_MAX : Z := 0xffffffff.

#[local] Abbreviation L := (M kernel).

Definition load_req (a : Z) : L kreq := s ← getM; derefM (kreqs s !! a).
Definition update_req (a : Z) (g : kreq -> kreq) : L unit :=
  r ← load_req a; modifyM (fun s => set_kreqs (<[a := g r]> (kreqs s)) s).
Definition load_dev (d : Z) : L fuse_pqueue := s ← getM; derefM (devs s !! d).
Definition update_dev (d : Z) (g : fuse_pqueue -> fuse_pqueue) : L unit :=
  q ← load_dev d; modifyM (fun s => set_devs (<[d := g q]> (devs s)) s).
Definition get_fc : L fuse_conn := getsM fc.

(** ** The lists a request is linked into *)
Definition bucket (h : Z) (q : fuse_pqueue) : list Z := default [] (processing q !! h).
Definition set_bucket (h : Z) (l : list Z) (q : fuse_pqueue) : fuse_pqueue :=
  set_processing (<[h := l]> (processing q)) q.

(** Change the list at a place. *)
Definition on_list (p : place) (g : list Z -> list Z) : L unit :=
  match p with
  | Nowhere => mret tt
  | OnPending => modify_iq (fun q => set_pending (g (pending q)) q)
  | OnBg => modify_fc (fun c => set_bg_queue (g (bg_queue c)) c)
  | OnIo d => update_dev d (fun q => set_pq_io (g (pq_io q)) q)
  | OnProcessing d h => update_dev d (fun q => set_bucket h (g (bucket h q)) q)
  end.

Definition remove_addr (a : Z) (l : list Z) : list Z := filter (.≠ a) l.

Definition list_add (a : Z) (p : place) : L unit :=
  on_list p (cons a);; update_req a (set_k_place p).
Definition list_add_tail (a : Z) (p : place) : L unit :=
  on_list p (fun l => l ++ [a]);; update_req a (set_k_place p).
(** [list_del] and [list_del_init]: an entry on no list stays on none. *)
Definition list_del (a : Z) : L unit :=
  r ← load_req a;
  on_list (k_place r) (remove_addr a);; update_req a (set_k_place Nowhere).

(** Take all requests of a list off it: [list_splice_init] onto a list of the caller. *)
Fixpoint list_del_all (l : list Z) : L unit :=
  match l with
  | [] => mret tt
  | a :: l => list_del a;; list_del_all l
  end.

(** ** Making and freeing requests *)
(** An allocation that may not fail takes no outcome. *)
Definition fuse_request_alloc (nofail : bool) : L Z :=
  s ← getM;
  match (if nofail then true :: koks s else koks s) with
  | false :: oks => putM (set_koks oks s);; mret 0
  | oks =>
    let a := kobjs s + 1 in
    let r := set_k_pending true (set_k_count 1 kreq0) in
    putM (set_koks (tail oks) (set_kobjs a (set_kreqs (<[a := r]> (kreqs s)) s)));; mret a
  end.

Definition fuse_request_free (a : Z) : L unit :=
  modifyM (fun s => set_kreqs (delete a (kreqs s)) s).

Definition get_request (a : Z) : L unit := update_req a (fun r => set_k_count (k_count r + 1) r).
Definition put_request (a : Z) : L unit :=
  r ← load_req a; assertM (1 <? k_count r);;
  update_req a (fun r => set_k_count (k_count r - 1) r).

Definition fuse_block_alloc (c : fuse_conn) (for_background : bool) : bool :=
  negb (initialized c) || (for_background && blocked c).

Definition fuse_drop_waiting : L unit :=
  modify_fc (fun c => set_num_waiting (num_waiting c - 1) c).

Definition fuse_put_request (a : Z) : L unit :=
  r ← load_req a;
  assertM (0 <? k_count r);;
  update_req a (fun r => set_k_count (k_count r - 1) r);;
  if k_count r - 1 =? 0 then
    (if k_waiting r then update_req a (set_k_waiting false);; fuse_drop_waiting else mret tt);;
    fuse_request_free a
  else mret tt.

(** The ids of the calling thread in the name spaces of the connection; an id of [-1]
    has no image there. *)
Definition creds : Type := Z * Z * Z.
Definition NO_ID : Z := 0xffffffff.
Definition set_creds (c : creds) (r : kreq) : kreq :=
  let '(uid, gid, pid) := c in set_k_pid pid (set_k_gid gid (set_k_uid uid r)).

(** An error, or a request.  The thread sleeps while allocation is blocked; [killed]
    says that a fatal signal ended the sleep, and the call is made here at the moment
    the thread goes on. *)
Definition fuse_get_req (for_background : bool) (who : creds) (killed : bool) : L (Z + Z) :=
  modify_fc (fun c => set_num_waiting (num_waiting c + 1) c);;
  c ← get_fc;
  if fuse_block_alloc c for_background && killed then
    fuse_drop_waiting;; mret (inl (- EINTR))
  else if fuse_block_alloc c for_background then crashM Block
  else if negb (fc_connected c) then fuse_drop_waiting;; mret (inl (- ENOTCONN))
  else if conn_error c then fuse_drop_waiting;; mret (inl (- ECONNREFUSED))
  else
    a ← fuse_request_alloc false;
    if a =? 0 then fuse_drop_waiting;; mret (inl (- ENOMEM))
    else
      update_req a (set_creds who);;
      update_req a (set_k_waiting true);;
      (if for_background then update_req a (set_k_background true) else mret tt);;
      let '(uid, gid, _) := who in
      if (uid =? NO_ID) || (gid =? NO_ID) then fuse_put_request a;; mret (inl (- EOVERFLOW))
      else mret (inr a).

(** ** Queueing *)
Fixpoint fuse_len_args (args : list (Z * Z)) : Z :=
  match args with [] => 0 | (size, _) :: l => u32 (size + fuse_len_args l) end.

(** [queue_request_and_unlock]. *)
Definition queue_request (a : Z) : L unit :=
  update_req a (fun r => set_k_len (u32 (SIZEOF_IN_HEADER + fuse_len_args (in_args (k_args r)))) r);;
  list_add_tail a OnPending.

(** The body of the loop in [flush_bg_queue]. *)
Definition flush_one (a : Z) : L unit :=
  list_del a;;
  modify_fc (fun c => set_active_background (u32 (active_background c + 1)) c);;
  unique ← fuse_get_unique;
  update_req a (set_k_unique unique);;
  queue_request a.

Fixpoint flush_loop (fuel : nat) : L unit :=
  match fuel with
  | O => crashM OutOfFuel
  | S fuel =>
    c ← get_fc;
    if active_background c <? max_background c then
      match bg_queue c with
      | [] => mret tt
      | a :: _ =>
        flush_one a;; flush_loop fuel
      end
    else mret tt
  end.

Definition flush_bg_queue : L unit := c ← get_fc; flush_loop (S (length (bg_queue c))).

(** ** The end of a request *)
Definition intr_del (a : Z) : L unit :=
  modify_iq (fun q => set_interrupts (remove_addr a (interrupts q)) q).

(** The part of [fuse_request_end] for a background request. *)
Definition end_background (a : Z) : L unit :=
  update_req a (set_k_background false);;
  modify_fc (fun c => if num_background c =? max_background c then set_blocked false c else c);;
  modify_fc (fun c => set_num_background (u32 (num_background c - 1)) c);;
  modify_fc (fun c => set_active_background (u32 (active_background c - 1)) c);;
  flush_bg_queue.

Definition call_end (a : Z) : L unit :=
  r ← load_req a; modifyM (fun s => set_ended (ended s ++ [(a, k_error r)]) s).

Definition fuse_request_end (a : Z) : L unit :=
  r ← load_req a;
  (if k_finished r then mret tt
   else
     update_req a (set_k_finished true);;
     (if k_interrupted r then intr_del a else mret tt);;
     assertM (negb (k_pending r));;
     assertM (negb (k_sent r));;
     (if k_background r then end_background a else mret tt);;
     (if k_async r then call_end a else mret tt));;
  fuse_put_request a.

(** ** The thread that waits for the answer *)
Definition queue_interrupt (a : Z) : L Z :=
  r ← load_req a;
  if negb (k_interrupted r) then mret (- EINVAL)
  else
    q ← get_iq;
    if bool_decide (a ∈ interrupts q) then mret 0
    else
      modify_iq (fun q => set_interrupts (interrupts q ++ [a]) q);;
      (if k_finished r then intr_del a else mret tt);;
      mret 0.

(** What a call gives back: the thread sleeps in [request_wait_answer] for the request,
    or it returns. *)
Inductive sent : Type :=
| Asleep (a : Z)
| Returned (ret : Z).

(** [request_wait_answer] up to the first sleep. *)
Definition request_wait_answer (a : Z) : L unit :=
  c ← get_fc;
  update_req a (fun r =>
    set_k_waiter (if negb (no_interrupt c) then Interruptible
                  else if negb (k_force r) then Killable else Unkillable) r).

(** After [__fuse_request_send] in [fuse_simple_request]. *)
Definition request_return (a : Z) : L Z :=
  update_req a (set_k_waiter NoWaiter);;
  r ← load_req a;
  ret ← (if (k_error r =? 0) && out_argvar (k_args r) then
           derefM (fst <$> last (out_args (k_args r)))
         else mret (k_error r));
  fuse_put_request a;;
  mret ret.

(** A signal ends the interruptible sleep. *)
Definition wait_interrupted (a : Z) : L unit :=
  update_req a (set_k_interrupted true);;
  r ← load_req a;
  (if k_sent r then queue_interrupt a;; mret tt else mret tt);;
  update_req a (fun r => set_k_waiter (if negb (k_force r) then Killable else Unkillable) r).

(** A fatal signal ends the killable sleep. *)
Definition wait_killed (a : Z) : L sent :=
  r ← load_req a;
  if k_pending r then
    list_del a;;
    put_request a;;
    update_req a (set_k_error (- EINTR));;
    ret ← request_return a; mret (Returned ret)
  else update_req a (set_k_waiter Unkillable);; mret (Asleep a).

(** [__fuse_request_send]; [true] when the thread sleeps. *)
Definition fuse_request_send (a : Z) : L bool :=
  r ← load_req a;
  assertM (negb (k_background r));;
  q ← get_iq;
  if negb (connected q) then update_req a (set_k_error (- ENOTCONN));; mret false
  else
    unique ← fuse_get_unique;
    update_req a (set_k_unique unique);;
    get_request a;;
    queue_request a;;
    request_wait_answer a;;
    mret true.

(** ** Calls of the rest of the file system *)
Definition FUSE_STATFS : Z := 17.
Definition FUSE_LOOKUP : Z := 1.
Definition FUSE_CREATE : Z := 35.
Definition FUSE_MKNOD : Z := 8.
Definition FUSE_MKDIR : Z := 9.
Definition FUSE_SYMLINK : Z := 6.
Definition FUSE_LINK : Z := 13.
Definition FUSE_GETATTR : Z := 3.
Definition FUSE_SETATTR : Z := 4.
Definition FUSE_COMPAT_STATFS_SIZE : Z := 48.
Definition FUSE_COMPAT_ENTRY_OUT_SIZE : Z := 120.
Definition FUSE_COMPAT_ATTR_OUT_SIZE : Z := 96.
Definition FUSE_COMPAT_MKNOD_IN_SIZE : Z := 8.
Definition SIZEOF_OPEN_IN : Z := 8.

Definition size0 (size : Z) (l : list (Z * Z)) : list (Z * Z) := alter (fun x => (size, x.2)) 0%nat l.
Definition is_one_of (op : Z) (l : list Z) : bool := bool_decide (op ∈ l).

Definition fuse_adjust_compat (minor : Z) (args : fuse_args) : fuse_args :=
  let op := a_opcode args in
  let args := if (minor <? 4) && (op =? FUSE_STATFS)
    then set_out_args (size0 FUSE_COMPAT_STATFS_SIZE (out_args args)) args else args in
  let args := if minor <? 9 then
      if is_one_of op [FUSE_LOOKUP; FUSE_CREATE; FUSE_MKNOD; FUSE_MKDIR; FUSE_SYMLINK; FUSE_LINK]
      then set_out_args (size0 FUSE_COMPAT_ENTRY_OUT_SIZE (out_args args)) args
      else if is_one_of op [FUSE_GETATTR; FUSE_SETATTR]
      then set_out_args (size0 FUSE_COMPAT_ATTR_OUT_SIZE (out_args args)) args
      else args else args in
  if minor <? 12 then
    if op =? FUSE_CREATE then set_in_args (size0 SIZEOF_OPEN_IN (in_args args)) args
    else if op =? FUSE_MKNOD then set_in_args (size0 FUSE_COMPAT_MKNOD_IN_SIZE (in_args args)) args
    else args
  else args.

Definition fuse_args_to_req (a : Z) (args : fuse_args) : L unit :=
  update_req a (set_k_args args);;
  if a_end args then update_req a (set_k_async true) else mret tt.

Definition fuse_simple_request (args : fuse_args) (who : creds) (killed : bool) : L sent :=
  got ← (if a_force args then
           modify_fc (fun c => set_num_waiting (num_waiting c + 1) c);;
           a ← fuse_request_alloc true;
           (if a_nocreds args then mret tt else update_req a (set_creds who));;
           update_req a (set_k_waiting true);;
           update_req a (set_k_force true);;
           mret (inr a)
         else
           assertM (negb (a_nocreds args));;
           fuse_get_req false who killed);
  match got with
  | inl err => mret (Returned err)
  | inr a =>
    c ← get_fc;
    fuse_args_to_req a (fuse_adjust_compat (minor c) args);;
    (if a_noreply args then mret tt else update_req a (set_k_isreply true));;
    sleeps ← fuse_request_send a;
    if (sleeps : bool) then mret (Asleep a)
    else ret ← request_return a; mret (Returned ret)
  end.

Definition fuse_request_queue_background (a : Z) : L bool :=
  r ← load_req a;
  assertM (k_background r);;
  (if k_waiting r then mret tt
   else
     update_req a (set_k_waiting true);;
     modify_fc (fun c => set_num_waiting (num_waiting c + 1) c));;
  update_req a (set_k_isreply true);;
  c ← get_fc;
  if fc_connected c then
    modify_fc (fun c => set_num_background (u32 (num_background c + 1)) c);;
    modify_fc (fun c => if num_background c =? max_background c then set_blocked true c else c);;
    list_add_tail a OnBg;;
    flush_bg_queue;;
    mret true
  else mret false.

Definition fuse_simple_background (args : fuse_args) (who : creds) (killed : bool) : L Z :=
  got ← (if a_force args then
           assertM (a_nocreds args);;
           a ← fuse_request_alloc false;
           if a =? 0 then mret (inl (- ENOMEM))
           else update_req a (set_k_background true);; mret (inr a)
         else
           assertM (negb (a_nocreds args));;
           fuse_get_req true who killed);
  match got with
  | inl err => mret err
  | inr a =>
    fuse_args_to_req a args;;
    queued ← fuse_request_queue_background a;
    if (queued : bool) then mret 0
    else fuse_put_request a;; mret (- ENOTCONN)
  end.

Definition fuse_simple_notify_reply (args : fuse_args) (unique : Z) (who : creds) (killed : bool)
    : L Z :=
  got ← fuse_get_req false who killed;
  match got with
  | inl err => mret err
  | inr a =>
    update_req a (set_k_isreply false);;
    update_req a (set_k_unique unique);;
    fuse_args_to_req a args;;
    q ← get_iq;
    if connected q then queue_request a;; mret 0
    else fuse_put_request a;; mret (- ENODEV)
  end.

(** ** The devices *)
Section Hash.
(** The hash function of the kernel, from a value to so many bits. *)
Context (hash_long : Z -> Z -> Z).

Definition FUSE_PQ_HASH_BITS : Z := 8.
Definition FUSE_PQ_HASH_SIZE : nat := 256.
Definition fuse_req_hash (unique : Z) : Z :=
  hash_long (Z.land unique (Z.lnot FUSE_INT_REQ_BIT)) FUSE_PQ_HASH_BITS.

(** ** Locking a request while it is copied *)
Definition lock_request (a : Z) : L Z :=
  r ← load_req a;
  if k_aborted r then mret (- ENOENT) else update_req a (set_k_locked true);; mret 0.
Definition unlock_request (a : Z) : L Z :=
  r ← load_req a;
  if k_aborted r then mret (- ENOENT) else update_req a (set_k_locked false);; mret 0.

(** ** Reading *)
Definition FUSE_MIN_READ_BUFFER : Z := 8192.
Definition SIZEOF_WRITE_IN : Z := 40.
Definition SIZEOF_INTERRUPT_IN : Z := 8.
Definition FUSE_INTERRUPT : Z := 36.
Definition FUSE_SETXATTR : Z := 21.

Definition request_pending (q : fuse_iqueue) : bool :=
  negb (bool_decide (pending q = [])) || negb (bool_decide (interrupts q = [])) || forget_pending q.

Definition fuse_read_interrupt (nbytes a : Z) : L (Z + list Z) :=
  r ← load_req a;
  let reqsize := SIZEOF_IN_HEADER + SIZEOF_INTERRUPT_IN in
  intr_del a;;
  if nbytes <? reqsize then mret (inl (- EINVAL))
  else mret (inr (in_header reqsize FUSE_INTERRUPT (Z.lor (k_unique r) FUSE_INT_REQ_BIT) 0 0 0 0 ++
                  le_bytes 8 (k_unique r))).

(** What a read comes to: an error; the message of an interrupt or of forgets; nothing is
    pending and the thread sleeps; or the thread now copies request [a]. *)
Inductive read_result : Type :=
| ReadError (err : Z)
| Message (msg : list Z)
| ReadSleeps
| Copies (a : Z).

Definition message (r : Z + list Z) : read_result :=
  match r with inl err => ReadError err | inr msg => Message msg end.

(** The choice between forgets and requests, and what it does to the counter: [true] is
    for the forgets. *)
Definition forgets_turn : L bool :=
  q ← get_iq;
  if negb (forget_pending q) then mret false
  else if bool_decide (pending q = []) then mret true
  else
    modify_iq (fun q => set_forget_batch (forget_batch q - 1) q);;
    if 0 <? forget_batch q then mret true
    else
      modify_iq (fun q => if forget_batch q <=? -8 then set_forget_batch 16 q else q);;
      mret false.

(** [out_end] of [fuse_dev_do_read]. *)
Definition read_out_end (a : Z) : L unit :=
  r ← load_req a;
  (if k_private r then mret tt else list_del a);;
  fuse_request_end a.

(** The first request is taken off [pending]; [None] when it is too large and the read
    starts again. *)
Definition read_request (d nbytes : Z) : L (option read_result) :=
  q ← get_iq;
  a ← derefM (head (pending q));
  update_req a (set_k_pending false);;
  list_del a;;
  r ← load_req a;
  if nbytes <? k_len r then
    update_req a (set_k_error (if a_opcode (k_args r) =? FUSE_SETXATTR then - E2BIG else - EIO));;
    fuse_request_end a;;
    mret None
  else
    p ← load_dev d;
    if negb (pq_connected p) then
      update_req a (set_k_error (- ECONNABORTED));;
      read_out_end a;;
      mret (Some (ReadError (- ECONNABORTED)))
    else
      list_add a (OnIo d);;
      update_req a (set_k_copier (Reader d));;
      mret (Some (Copies a)).

Fixpoint read_loop (fuel : nat) (d nbytes : Z) (nonblock : bool) : L read_result :=
  match fuel with
  | O => crashM OutOfFuel
  | S fuel =>
    q ← get_iq;
    if connected q && negb (request_pending q) then
      mret (if nonblock then ReadError (- EAGAIN) else ReadSleeps)
    else if negb (connected q) then
      c ← get_fc; mret (ReadError (if aborted c then - ECONNABORTED else - ENODEV))
    else
      match interrupts q with
      | a :: _ => r ← fuse_read_interrupt nbytes a; mret (message r)
      | [] =>
        forget ← forgets_turn;
        if (forget : bool) then r ← fuse_read_forget nbytes; mret (message r)
        else
          o ← read_request d nbytes;
          match o with Some r => mret r | None => read_loop fuel d nbytes nonblock end
      end
  end.

(** [fuse_dev_do_read] up to the copy.  A request that is too large may let queued
    background requests follow, so the loop runs at most once for each of both. *)
Definition fuse_dev_do_read (d nbytes : Z) (nonblock : bool) : L read_result :=
  c ← get_fc;
  if nbytes <? Z.max FUSE_MIN_READ_BUFFER (SIZEOF_IN_HEADER + SIZEOF_WRITE_IN + max_write c)
  then mret (ReadError (- EINVAL))
  else read_loop (S (length (pending (iq c)) + length (bg_queue c))) d nbytes nonblock.

(** [fuse_dev_do_read] after the copy of request [a], which ended with [err]. *)
Definition read_done (d a err : Z) : L Z :=
  r ← load_req a;
  let reqsize := k_len r in
  p ← load_dev d;
  c ← get_fc;
  update_req a (set_k_locked false);;
  update_req a (set_k_copier NoCopier);;
  if negb (pq_connected p) then
    read_out_end a;; mret (if aborted c then - ECONNABORTED else - ENODEV)
  else if negb (err =? 0) then
    update_req a (set_k_error (- EIO));; read_out_end a;; mret err
  else if negb (k_isreply r) then read_out_end a;; mret reqsize
  else
    list_del a;; list_add_tail a (OnProcessing d (fuse_req_hash (k_unique r)));;
    get_request a;;
    update_req a (set_k_sent true);;
    (if k_interrupted r then queue_interrupt a;; mret tt else mret tt);;
    fuse_put_request a;;
    mret reqsize.

(** ** Writing *)
Definition SIZEOF_OUT_HEADER : Z := 32.

(** [len], [error] and [unique] of [struct fuse_out_header]. *)
Record out_header : Type := mk_oh { oh_len : Z; oh_error : Z; oh_unique : Z }.

(** What a write comes to: it returns; it is a notification; or the thread now copies the
    contents of the reply to request [a]. *)
Inductive write_result : Type :=
| Written (ret : Z)
| Notifies (code size : Z)
| CopiesOut (a : Z).

Fixpoint find_unique (unique : Z) (l : list Z) : L (option Z) :=
  match l with
  | [] => mret None
  | a :: l =>
    r ← load_req a;
    if k_unique r =? unique then mret (Some a) else find_unique unique l
  end.
Definition request_find (d unique : Z) : L (option Z) :=
  p ← load_dev d; find_unique unique (bucket (fuse_req_hash unique) p).

(** The sizes in [copy_out_args]; [args] with the last size as the reply has it, or
    [None] when they do not fit. *)
Definition set_last_size (size : Z) (l : list (Z * Z)) : list (Z * Z) :=
  alter (fun x => (size, x.2)) (length l - 1)%nat l.
Definition copy_out_sizes (args : fuse_args) (nbytes : Z) : option fuse_args :=
  let reqsize := u32 (SIZEOF_OUT_HEADER + fuse_len_args (out_args args)) in
  if (reqsize <? nbytes) || ((nbytes <? reqsize) && negb (out_argvar args)) then None
  else if nbytes <? reqsize then
    let diffsize := reqsize - nbytes in
    match last (out_args args) with
    | None => None
    | Some (size, _) =>
      if size <? diffsize then None
      else Some (set_out_args (set_last_size (size - diffsize) (out_args args)) args)
    end
  else Some args.

(** [fuse_dev_do_write] after the copy of request [a], which ended with [err]. *)
Definition write_done (d a err nbytes : Z) : L Z :=
  p ← load_dev d;
  update_req a (set_k_locked false);;
  update_req a (set_k_copier NoCopier);;
  err ← (if negb (pq_connected p) then mret (- ENOENT)
         else (if negb (err =? 0) then update_req a (set_k_error (- EIO)) else mret tt);; mret err);
  r ← load_req a;
  (if k_private r then mret tt else list_del a);;
  fuse_request_end a;;
  mret (if negb (err =? 0) then err else nbytes).

(** The answer to an interrupt. *)
Definition write_interrupt (a nbytes error : Z) : L Z :=
  get_request a;;
  err ← (if negb (nbytes =? SIZEOF_OUT_HEADER) then mret (- EINVAL)
         else if error =? - ENOSYS then modify_fc (set_no_interrupt true);; mret 0
         else if error =? - EAGAIN then queue_interrupt a
         else mret 0);
  fuse_put_request a;;
  mret (if negb (err =? 0) then err else nbytes).

(** The answer to request [a]: it leaves the list of requests that wait for one. *)
Definition write_reply (d a : Z) (oh : out_header) (nbytes : Z) : L write_result :=
  update_req a (set_k_sent false);;
  list_del a;; list_add a (OnIo d);;
  update_req a (set_k_error (oh_error oh));;
  update_req a (set_k_locked true);;
  update_req a (set_k_copier (Writer d));;
  if negb (oh_error oh =? 0) then
    ret ← write_done d a (if negb (nbytes =? SIZEOF_OUT_HEADER) then - EINVAL else 0) nbytes;
    mret (Written ret)
  else
    r ← load_req a;
    match copy_out_sizes (k_args r) nbytes with
    | None => ret ← write_done d a (- EINVAL) nbytes; mret (Written ret)
    | Some args => update_req a (set_k_args args);; mret (CopiesOut a)
    end.

(** [fuse_dev_do_write] up to the copy; [copied] is the header, or the error with which
    the copy of the header ended. *)
Definition fuse_dev_do_write (d : Z) (copied : Z + out_header) (nbytes : Z) : L write_result :=
  if nbytes <? SIZEOF_OUT_HEADER then mret (Written (- EINVAL))
  else
    match copied with
    | inl err => mret (Written err)
    | inr oh =>
      if negb (oh_len oh =? nbytes) then mret (Written (- EINVAL))
      else if oh_unique oh =? 0 then
        mret (Notifies (oh_error oh) (nbytes - SIZEOF_OUT_HEADER))
      else if (oh_error oh <=? -512) || (0 <? oh_error oh) then mret (Written (- EINVAL))
      else
        p ← load_dev d;
        found ← (if pq_connected p
                 then request_find d (Z.land (oh_unique oh) (Z.lnot FUSE_INT_REQ_BIT))
                 else mret None);
        match found with
        | None => mret (Written (- ENOENT))
        | Some a =>
          if negb (Z.land (oh_unique oh) FUSE_INT_REQ_BIT =? 0) then
            ret ← write_interrupt a nbytes (oh_error oh); mret (Written ret)
          else write_reply d a oh nbytes
        end
    end.

(** ** The end of the connection *)
Definition abort_request (a : Z) : L unit :=
  update_req a (set_k_error (- ECONNABORTED));;
  update_req a (set_k_sent false);;
  list_del a;;
  fuse_request_end a.
Fixpoint end_requests (l : list Z) : L unit :=
  match l with
  | [] => mret tt
  | a :: l => abort_request a;; end_requests l
  end.

(** The loop over [fpq->io]: a request that is not locked moves to [to_end]. *)
Fixpoint abort_io (l to_end : list Z) : L (list Z) :=
  match l with
  | [] => mret to_end
  | a :: l =>
    update_req a (set_k_error (- ECONNABORTED));;
    update_req a (set_k_aborted true);;
    r ← load_req a;
    if negb (k_locked r) then
      update_req a (set_k_private true);;
      get_request a;;
      list_del a;;
      abort_io l (a :: to_end)
    else abort_io l to_end
  end.

(** The requests in the buckets of a device, taken off them. *)
Definition buckets (p : fuse_pqueue) : list (list Z) :=
  map (fun h => bucket (Z.of_nat h) p) (seq 0 FUSE_PQ_HASH_SIZE).

Fixpoint abort_devices (l to_end : list Z) : L (list Z) :=
  match l with
  | [] => mret to_end
  | d :: l =>
    update_dev d (set_pq_connected false);;
    p ← load_dev d;
    to_end ← abort_io (pq_io p) to_end;
    p ← load_dev d;
    list_del_all (concat (buckets p));;
    abort_devices l (to_end ++ concat (buckets p))
  end.

Fixpoint clear_pending (l : list Z) : L unit :=
  match l with
  | [] => mret tt
  | a :: l => update_req a (set_k_pending false);; clear_pending l
  end.

(** [while (forget_pending(fiq)) kfree(fuse_dequeue_forget(fiq, 1, NULL))]. *)
Fixpoint drop_forgets (fuel : nat) : L unit :=
  match fuel with
  | O => crashM OutOfFuel
  | S fuel =>
    q ← get_iq;
    if forget_pending q then
      '(f, _) ← fuse_dequeue_forget 1;
      kfree_link f;;
      drop_forgets fuel
    else mret tt
  end.

Definition fuse_abort_conn : L unit :=
  c ← get_fc;
  if fc_connected c then
    modify_fc (set_fc_connected false);;
    modify_fc (set_initialized true);;
    to_end ← abort_devices (devices c) [];
    modify_fc (set_blocked false);;
    modify_fc (set_max_background UINT_MAX);;
    flush_bg_queue;;
    modify_iq (set_connected false);;
    q ← get_iq;
    clear_pending (pending q);;
    list_del_all (pending q);;
    s ← getM;
    drop_forgets (S (size (links s)));;
    end_requests (to_end ++ pending q)
  else mret tt.

(** [fuse_wait_aborted] waits for this. *)
Definition wait_aborted (c : fuse_conn) : bool := num_waiting c =? 0.

(** The file of a device is closed, when no read or write uses it any more. *)
Definition fuse_dev_release (d : Z) : L unit :=
  p ← load_dev d;
  assertM (bool_decide (pq_io p = []));;
  let to_end := concat (rev (buckets p)) in
  list_del_all to_end;;
  end_requests to_end;;
  modify_fc (fun c => set_dev_count (dev_count c - 1) c);;
  c ← get_fc;
  (if dev_count c =? 0 then fuse_abort_conn else mret tt);;
  modify_fc (fun c => set_devices (remove_addr d (devices c)) c);;
  modifyM (fun s => set_devs (delete d (devs s)) s).

End Hash.

(** ** Setting up (fuse_module/inode.c, control.c) *)
Definition fuse_pqueue_init : fuse_pqueue := mk_pqueue true ∅ [].
Definition fuse_iqueue_init : fuse_iqueue := mk_iqueue true 0 [] [] 0 0 0.
Definition FUSE_DEFAULT_MAX_BACKGROUND : Z := 12.
Definition fuse_conn_init : fuse_conn :=
  mk_fconn fuse_iqueue_init 0 0 FUSE_DEFAULT_MAX_BACKGROUND 0 0 [] false false true false false
    false 0 1 [].

(** [fuse_dev_alloc]; 0 when one of its two allocations fails. *)
Definition fuse_dev_alloc : L Z :=
  s ← getM;
  match koks s with
  | false :: oks => putM (set_koks oks s);; mret 0
  | true :: false :: _ => putM (set_koks (drop 2 (koks s)) s);; mret 0
  | oks =>
    let d := kobjs s + 1 in
    putM (set_koks (drop 2 oks) (set_kobjs d (set_devs (<[d := fuse_pqueue_init]> (devs s)) s)));;
    mret d
  end.
Definition fuse_dev_install (d : Z) : L unit :=
  modify_fc (fun c => set_devices (devices c ++ [d]) c).
Definition fuse_dev_alloc_install : L Z :=
  d ← fuse_dev_alloc;
  if d =? 0 then mret 0 else fuse_dev_install d;; mret d.
Definition fuse_device_clone : L Z :=
  d ← fuse_dev_alloc_install;
  if d =? 0 then mret (- ENOMEM)
  else modify_fc (fun c => set_dev_count (dev_count c + 1) c);; mret 0.

Definition fuse_set_initialized : L unit := modify_fc (set_initialized true).

(** [process_init_limits]: [limit] is [max_user_bgreq], which does not bind the
    superuser. *)
Definition process_init_limits (minor_ max limit : Z) (superuser : bool) : L unit :=
  if minor_ <? 13 then mret tt
  else if max =? 0 then mret tt
  else modify_fc (set_max_background (if negb superuser && (limit <? max) then limit else max)).

(** [fuse_conn_max_background_write] of an accepted number. *)
Definition max_background_write (val : Z) : L unit :=
  modify_fc (set_max_background val);;
  modify_fc (fun c => set_blocked (max_background c <=? num_background c) c).

(** [fuse_alloc_forget]. *)
Definition fuse_alloc_forget : L Z :=
  s ← getM;
  match koks s with
  | false :: oks => putM (set_koks oks s);; mret 0
  | oks =>
    let f := kobjs s + 1 in
    putM (set_koks (tail oks) (set_kobjs f (set_links (<[f := mk_forget 0 0 0]> (links s)) s)));;
    mret f
  end.
