(* ===== verification/KInv.v ===== *)
(** * The invariant of the requests of the device

    What holds of every request in memory, of the lists and of the counters, whenever
    no thread is in the middle of a step; with a list of the requests whose queue
    reference the running thread holds, it also states what holds in the middle. *)
From S2P Require Import Prelude KTypes KForget KForgetFacts KQueue.
#[local] Open Scope Z_scope.

#[local] Abbreviation L := (M kernel).
Implicit Types (s : kernel) (m : gmap Z kreq) (a b d : Z) (r : kreq) (fly : list Z).

(** ** Counting requests *)
Definition wt (f : kreq -> bool) (o : option kreq) : Z :=
  match o with Some r => Z.b2z (f r) | None => 0 end.
Definition cnt (f : kreq -> bool) m : Z := map_fold (fun _ r n => Z.b2z (f r) + n) 0 m.

Lemma cnt_empty f : cnt f ∅ = 0.
Proof. apply map_fold_empty. Qed.

Lemma cnt_insert f m a r : m !! a = None -> cnt f (<[a := r]> m) = Z.b2z (f r) + cnt f m.
Proof. intros Ha. unfold cnt. rewrite map_fold_insert_L; [done| |done]. intros. lia. Qed.

Lemma cnt_delete f m a : cnt f m = wt f (m !! a) + cnt f (delete a m).
Proof.
  destruct (m !! a) as [r|] eqn:Ha; cbn [wt]; [|by rewrite delete_id].
  rewrite <- (insert_delete_id m a r Ha) at 1. by rewrite cnt_insert by apply lookup_delete_eq.
Qed.

Lemma cnt_change f m m' a : (forall b, b <> a -> m' !! b = m !! b) ->
  cnt f m' = cnt f m + wt f (m' !! a) - wt f (m !! a).
Proof.
  intros Hb. rewrite (cnt_delete f m a), (cnt_delete f m' a).
  replace (delete a m') with (delete a m); [lia|]. apply map_eq. intros b.
  destruct (decide (b = a)) as [->|Hne]; [by rewrite !lookup_delete_eq|].
  rewrite !lookup_delete_ne by done. by rewrite Hb.
Qed.

Lemma cnt_nonneg f m : 0 <= cnt f m.
Proof.
  induction m as [|a r m Ha IH] using map_ind; [by rewrite cnt_empty|].
  rewrite cnt_insert by done. destruct (f r); cbn [Z.b2z]; lia.
Qed.

Lemma cnt_size f m : cnt f m <= Z.of_nat (size m).
Proof.
  induction m as [|a r m Ha IH] using map_ind; [by rewrite cnt_empty|].
  rewrite cnt_insert, map_size_insert_None by done. destruct (f r); cbn [Z.b2z]; lia.
Qed.

Lemma cnt_le f g m : (forall a r, m !! a = Some r -> f r = true -> g r = true) -> cnt f m <= cnt g m.
Proof.
  induction m as [|a r m Ha IH] using map_ind; intros Hfg; [by rewrite !cnt_empty|].
  rewrite !cnt_insert by done.
  assert (cnt f m <= cnt g m).
  { apply IH. intros b q Hb. apply (Hfg b q). by rewrite lookup_insert_ne by congruence. }
  pose proof (Hfg a r (lookup_insert_eq _ _ _)) as Hr.
  destruct (f r); [rewrite Hr by done|destruct (g r)]; cbn [Z.b2z]; lia.
Qed.

Lemma cnt_zero f m : (forall a r, m !! a = Some r -> f r = false) -> cnt f m = 0.
Proof.
  induction m as [|a r m Ha IH] using map_ind; intros Hf; [by rewrite cnt_empty|].
  rewrite cnt_insert, (Hf a r), IH by (done || apply lookup_insert_eq ||
    (intros b q Hb; apply (Hf b q); by rewrite lookup_insert_ne by congruence)). done.
Qed.

Lemma cnt_pos f m a r : m !! a = Some r -> f r = true -> 0 < cnt f m.
Proof.
  intros Ha Hf. rewrite (cnt_delete f m a), Ha. cbn [wt]. rewrite Hf.
  pose proof (cnt_nonneg f (delete a m)). cbn [Z.b2z]. lia.
Qed.

(** ** The lists *)
Definition dev_list s d (g : fuse_pqueue -> list Z) : list Z :=
  match devs s !! d with Some q => g q | None => [] end.
Definition linked s (p : place) : list Z :=
  match p with
  | Nowhere => []
  | OnPending => pending (iq (fc s))
  | OnBg => bg_queue (fc s)
  | OnIo d => dev_list s d pq_io
  | OnProcessing d h => dev_list s d (bucket h)
  end.

Lemma remove_addr_in a b l : b ∈ remove_addr a l <-> b <> a /\ b ∈ l.
Proof. unfold remove_addr. by rewrite list_elem_of_filter. Qed.

Lemma remove_addr_nodup a l : NoDup l -> NoDup (remove_addr a l).
Proof. apply NoDup_filter. Qed.

Lemma remove_addr_id a l : a ∉ l -> remove_addr a l = l.
Proof.
  unfold remove_addr. induction l as [|b l IH]; intros Ha; [done|].
  rewrite filter_cons_True by (intros ->; apply Ha; by left).
  rewrite IH; [done|]. intros H. apply Ha. by right.
Qed.

(** ** What holds of a request *)
Definition queued (p : place) : bool := match p with OnPending | OnBg => true | _ => false end.
Definition on_bg r : bool := bool_decide (k_place r = OnBg).
Definition active r : bool := k_background r && negb (on_bg r).
Definition numbered r : bool := k_isreply r && negb (on_bg r).
Definition waits r : Z := if decide (k_waiter r = NoWaiter) then 0 else 1.
(** The reference of the queues belongs to the list the request is on, and to the thread
    that copies it. *)
Definition held r : Z :=
  if decide (k_place r = Nowhere /\ k_copier r = NoCopier) then 0 else 1.

Definition copies r d : Prop := k_copier r = Reader d \/ k_copier r = Writer d.
Definition offline s d : Prop := exists q, devs s !! d = Some q /\ pq_connected q = false.

(** A request whose last argument has a variable size has arguments. *)
Definition args_ok (args : fuse_args) : Prop := out_argvar args = true -> out_args args <> [].

(** [fly] are the requests whose reference the running thread holds; [e] is the one whose
    [end] function it still has to call. *)
Record rok s (e : Z) fly a r : Prop := mk_rok {
  rk_addr : 0 < a <= kobjs s;
  rk_count : k_count r = waits r + held r + Z.of_nat (count_occ Z.eq_dec fly a);
  rk_lists : forall p, a ∈ linked s p <-> p = k_place r /\ p <> Nowhere;
  rk_live : k_place r <> Nowhere -> k_finished r = false;
  rk_done : k_place r = Nowhere -> a ∉ fly -> k_finished r = true;
  rk_pending : k_pending r = true -> queued (k_place r) = true;
  rk_sent : k_sent r = true -> (exists d h, k_place r = OnProcessing d h) \/
    k_place r = Nowhere /\ a ∈ fly;
  rk_bg : k_place r = OnBg -> k_background r = true;
  rk_ended_bg : k_finished r = true -> k_background r = false;
  rk_io : forall d, k_place r = OnIo d -> copies r d;
  rk_copier : forall d, copies r d -> k_place r = OnIo d /\ k_private r = false \/
    k_place r = Nowhere /\ k_private r = true /\ offline s d;
  rk_private : k_private r = true -> k_place r = Nowhere;
  rk_aborted : k_private r = true -> k_aborted r = true;
  rk_locked : k_locked r = true -> exists d, k_place r = OnIo d;
  rk_reply : forall d h, k_place r = OnProcessing d h ->
    k_isreply r = true /\ 0 <= h < Z.of_nat FUSE_PQ_HASH_SIZE;
  rk_waiter : k_waiter r <> NoWaiter -> k_background r = false;
  rk_args : args_ok (k_args r);
  rk_intr : a ∈ interrupts (iq (fc s)) ->
    k_interrupted r = true /\ k_finished r = false /\ queued (k_place r) = false;
  rk_end : k_finished r = true -> k_async r = true -> a <> e -> a ∈ (ended s).*1;
  rk_not_end : a ∈ (ended s).*1 -> k_finished r = true /\ a <> e;
  rk_unique : numbered r = true -> 0 < k_unique r <= reqctr (iq (fc s)) /\ Z.even (k_unique r) = true;
}.

(** The invariant. *)
Record kinv (e : Z) fly s : Prop := mk_kinv {
  ki_req : forall a r, kreqs s !! a = Some r -> rok s e fly a r;
  ki_mem : forall p a, a ∈ linked s p -> is_Some (kreqs s !! a);
  ki_nodup : forall p, NoDup (linked s p);
  ki_intr : forall a, a ∈ interrupts (iq (fc s)) -> is_Some (kreqs s !! a);
  ki_intr_nodup : NoDup (interrupts (iq (fc s)));
  ki_fly : forall a, a ∈ fly -> is_Some (kreqs s !! a);
  ki_ended : forall a, a ∈ (ended s).*1 -> a <= kobjs s;
  ki_once : NoDup (ended s).*1;
  ki_num : num_background (fc s) = cnt k_background (kreqs s);
  ki_active : active_background (fc s) = cnt active (kreqs s);
  ki_waiting : num_waiting (fc s) = cnt k_waiting (kreqs s);
  ki_few : Z.of_nat (size (kreqs s)) < UINT_MAX;
  ki_unique : forall a b ra rb, kreqs s !! a = Some ra -> kreqs s !! b = Some rb ->
    numbered ra = true -> numbered rb = true -> k_unique ra = k_unique rb -> a = b;
  ki_even : 0 <= reqctr (iq (fc s)) /\ Z.even (reqctr (iq (fc s))) = true;
  ki_ctr : reqctr (iq (fc s)) + 2 * (cnt on_bg (kreqs s) + Z.of_nat (size (links s))) <= 2 * kobjs s;
  ki_objs : 0 <= kobjs s < 2 ^ 62;
}.

(** ** One request changes *)
(** What another request may see of a state. *)
Record agree s s' b : Prop := mk_agree {
  ag_lists : forall p, b ∈ linked s' p <-> b ∈ linked s p;
  ag_intr : b ∈ interrupts (iq (fc s')) -> b ∈ interrupts (iq (fc s));
  ag_ended : b ∈ (ended s').*1 <-> b ∈ (ended s).*1;
}.

(** What all may see. *)
Record grows s s' : Prop := mk_grows {
  gr_objs : kobjs s <= kobjs s' < 2 ^ 62;
  gr_offline : forall d, offline s d -> offline s' d;
  gr_ctr : reqctr (iq (fc s)) <= reqctr (iq (fc s')) /\ Z.even (reqctr (iq (fc s'))) = true;
}.

Lemma rok_agree s s' e e' fly fly' b r : rok s e fly b r -> agree s s' b -> grows s s' ->
  count_occ Z.eq_dec fly' b = count_occ Z.eq_dec fly b ->
  (0 < b -> b = e <-> b = e') ->
  rok s' e' fly' b r.
Proof.
  intros [] [] [] Hocc He. specialize (He (proj1 rk_addr0)).
  assert (Hin : b ∈ fly' <-> b ∈ fly).
  { rewrite !list_elem_of_In. rewrite !(count_occ_In Z.eq_dec). by rewrite Hocc. }
  split; try done.
  - lia.
  - by rewrite Hocc.
  - intros p. by rewrite ag_lists0.
  - intros Hp Hf. apply rk_done0; [done|]. by rewrite <- Hin.
  - rewrite Hin. done.
  - intros d Hd. destruct (rk_copier0 d Hd) as [|(? & ? & ?)]; [by left|]. right. eauto.
  - eauto.
  - intros Hf Ha Hne. rewrite ag_ended0. apply rk_end0; [done..|]. by rewrite He.
  - rewrite ag_ended0. intros Hi. destruct (rk_not_end0 Hi). split; [done|]. by rewrite <- He.
  - intros Hn. destruct (rk_unique0 Hn). split; [lia|done].
Qed.

(** The master lemma: only request [a] is changed, made or freed. *)
Lemma kinv_change a e e' fly fly' s s' : kinv e fly s ->
  (forall b, b <> a -> kreqs s' !! b = kreqs s !! b) ->
  (forall b, b <> a -> agree s s' b) ->
  grows s s' ->
  (forall b, b <> a -> count_occ Z.eq_dec fly' b = count_occ Z.eq_dec fly b) ->
  (forall b, b <> a -> 0 < b -> b = e <-> b = e') ->
  (forall r, kreqs s' !! a = Some r -> rok s' e' fly' a r) ->
  (kreqs s' !! a = None ->
     a ∉ fly' /\ a ∉ interrupts (iq (fc s')) /\ forall p, a ∉ linked s' p) ->
  (forall p, NoDup (linked s' p)) ->
  NoDup (interrupts (iq (fc s'))) ->
  (a ∈ (ended s').*1 -> a <= kobjs s') ->
  NoDup (ended s').*1 ->
  let d f := wt f (kreqs s' !! a) - wt f (kreqs s !! a) in
  num_background (fc s') = num_background (fc s) + d k_background ->
  active_background (fc s') = active_background (fc s) + d active ->
  num_waiting (fc s') = num_waiting (fc s) + d k_waiting ->
  Z.of_nat (size (kreqs s')) < UINT_MAX ->
  (forall r b rb, kreqs s' !! a = Some r -> numbered r = true -> b <> a ->
     kreqs s !! b = Some rb -> numbered rb = true -> k_unique rb <> k_unique r) ->
  reqctr (iq (fc s')) - reqctr (iq (fc s)) + 2 * d on_bg +
    2 * (Z.of_nat (size (links s')) - Z.of_nat (size (links s))) <= 2 * (kobjs s' - kobjs s) ->
  kinv e' fly' s'.
Proof.
  intros K Hb Hag Hgr Hocc He Ha Hnone Hnd Hnd' Hend Honce d Hnum Hact Hwait Hsz Hu Hctr.
  assert (Hin : forall b, b <> a -> b ∈ fly' <-> b ∈ fly).
  { intros b Hne. rewrite !list_elem_of_In, !(count_occ_In Z.eq_dec). by rewrite Hocc. }
  assert (Hother : forall b, b <> a -> is_Some (kreqs s !! b) -> is_Some (kreqs s' !! b)).
  { intros b Hne. by rewrite Hb. }
  assert (Hself : forall P : Prop, (kreqs s' !! a = None -> ~ P) -> P -> is_Some (kreqs s' !! a)).
  { intros P HN HP. destruct (kreqs s' !! a); [eauto|]. by destruct (HN eq_refl). }
  destruct Hgr as [Hg1 Hg2 [Hg3 Hg4]]. split.
  - intros b r Hr. destruct (decide (b = a)) as [->|Hne]; [by apply Ha|].
    rewrite Hb in Hr by done.
    apply (rok_agree s s' e e' fly fly'); [by apply (ki_req _ _ _ K)|by apply Hag|done|by apply Hocc|by apply He].
  - intros p b Hp. destruct (decide (b = a)) as [->|Hne].
    + apply (Hself (a ∈ linked s' p)); [|done]. intros HN. by apply Hnone.
    + apply Hother; [done|]. apply (ki_mem _ _ _ K p). by apply (Hag b Hne).
  - done.
  - intros b Hi. destruct (decide (b = a)) as [->|Hne].
    + apply (Hself (a ∈ interrupts (iq (fc s')))); [|done]. intros HN. by apply Hnone.
    + apply Hother; [done|]. apply (ki_intr _ _ _ K). by apply (Hag b Hne).
  - done.
  - intros b Hf. destruct (decide (b = a)) as [->|Hne].
    + apply (Hself (a ∈ fly')); [|done]. intros HN. by apply Hnone.
    + apply Hother; [done|]. apply (ki_fly _ _ _ K). by apply Hin.
  - intros b Hi. destruct (decide (b = a)) as [->|Hne]; [by apply Hend|].
    apply (Hag b Hne) in Hi. pose proof (ki_ended _ _ _ K b Hi). lia.
  - done.
  - rewrite Hnum, (ki_num _ _ _ K), (cnt_change _ (kreqs s) (kreqs s') a Hb). unfold d. lia.
  - rewrite Hact, (ki_active _ _ _ K), (cnt_change _ (kreqs s) (kreqs s') a Hb). unfold d. lia.
  - rewrite Hwait, (ki_waiting _ _ _ K), (cnt_change _ (kreqs s) (kreqs s') a Hb). unfold d. lia.
  - done.
  - intros b c rb rc Hrb Hrc Hnb Hnc Hq.
    destruct (decide (b = a)) as [->|Hne]; destruct (decide (c = a)) as [->|Hne2]; [done| | |].
    + rewrite Hb in Hrc by done. by destruct (Hu rb c rc Hrb Hnb Hne2 Hrc Hnc).
    + rewrite Hb in Hrb by done. by destruct (Hu rc b rb Hrc Hnc Hne Hrb Hnb).
    + rewrite Hb in Hrb, Hrc by done. by apply (ki_unique _ _ _ K b c rb rc).
  - destruct (ki_even _ _ _ K). split; [lia|done].
  - pose proof (ki_ctr _ _ _ K). rewrite (cnt_change on_bg (kreqs s) (kreqs s') a Hb).
    unfold d in Hctr. lia.
  - pose proof (ki_objs _ _ _ K). lia.
Qed.

(** ** States by their requests, their lists and the rest *)
Definition core s :=
  (set_bg_queue [] (set_iq (set_pending [] (iq (fc s))) (fc s)),
   pq_connected <$> devs s, links s, kobjs s, koks s, ended s).

(** A change of the connection that does not look at the lists. *)
Definition blank (c : fuse_conn) : fuse_conn :=
  set_bg_queue [] (set_iq (set_pending [] (iq c)) c).
Lemma core_mod f s s' : (forall c, blank (f c) = f (blank c)) -> core s' = core s ->
  core (set_fc (f (fc s')) s') = core (set_fc (f (fc s)) s).
Proof.
  intros Hf H. unfold core in *. cbn. fold (blank (f (fc s'))) (blank (f (fc s))).
  fold (blank (fc s')) (blank (fc s)) in H. rewrite !Hf.
  rewrite !pair_equal_spec in H. destruct H as (((((H1 & H2) & H3) & H4) & H5) & H6). congruence.
Qed.

Definition put_req a r s : kernel := set_kreqs (<[a := r]> (kreqs s)) s.

Lemma linked_put a r s p : linked (put_req a r s) p = linked s p.
Proof. by destruct p. Qed.
Lemma core_put a r s : core (put_req a r s) = core s.
Proof. done. Qed.

Lemma kload_req_Ok a r s : kreqs s !! a = Some r -> load_req a s = Ok (r, s).
Proof. intros Ha. unfold load_req, mbind, M_bind, getM. by rewrite Ha. Qed.

Lemma kupdate_req_Ok a r g s : kreqs s !! a = Some r ->
  update_req a g s = Ok (tt, put_req a (g r) s).
Proof. intros Ha. unfold update_req. by rewrite (bind_Ok _ _ _ _ _ (kload_req_Ok _ _ _ Ha)). Qed.

Lemma load_dev_Ok d q s : devs s !! d = Some q -> load_dev d s = Ok (q, s).
Proof. intros Ha. unfold load_dev, mbind, M_bind, getM. by rewrite Ha. Qed.

Lemma update_dev_Ok d q g s : devs s !! d = Some q ->
  update_dev d g s = Ok (tt, set_devs (<[d := g q]> (devs s)) s).
Proof. intros Ha. unfold update_dev. by rewrite (bind_Ok _ _ _ _ _ (load_dev_Ok _ _ _ Ha)). Qed.

(** The device of a place exists. *)
Definition place_ok s (p : place) : Prop :=
  match p with OnIo d | OnProcessing d _ => is_Some (devs s !! d) | _ => True end.

Lemma linked_place_ok s p a : a ∈ linked s p -> place_ok s p.
Proof.
  destruct p; cbn; unfold dev_list; try done; destruct (devs s !! d); eauto;
    by intros ?%not_elem_of_nil.
Qed.

Lemma bucket_set h h' l q : bucket h (set_bucket h' l q) = if decide (h = h') then l else bucket h q.
Proof.
  unfold bucket, set_bucket. cbn. case_decide as Hh; [by subst; rewrite lookup_insert_eq|].
  by rewrite lookup_insert_ne by congruence.
Qed.

Lemma dev_list_insert s d q d' f :
  dev_list (set_devs (<[d := q]> (devs s)) s) d' f = if decide (d' = d) then f q else dev_list s d' f.
Proof.
  unfold dev_list. cbn. case_decide as Hd; [by subst; rewrite lookup_insert_eq|].
  by rewrite lookup_insert_ne by congruence.
Qed.

Lemma core_dev s d q q' : devs s !! d = Some q -> pq_connected q' = pq_connected q ->
  core (set_devs (<[d := q']> (devs s)) s) = core s.
Proof.
  intros Hd Hq. unfold core. cbn. do 5 f_equal. rewrite fmap_insert, Hq. apply insert_id.
  by rewrite lookup_fmap, Hd.
Qed.

Lemma on_list_runs s p g : place_ok s p -> p <> Nowhere -> exists s',
  on_list p g s = Ok (tt, s') /\ kreqs s' = kreqs s /\ core s' = core s /\
  forall p', linked s' p' = if decide (p' = p) then g (linked s p) else linked s p'.
Proof.
  intros Hp Hnw. destruct p as [| | |d|d h]; [done|..]; cbn in Hp; cbn [on_list].
  - eexists. split; [done|]. do 2 (split; [done|]). intros []; by case_decide.
  - eexists. split; [done|]. do 2 (split; [done|]). intros []; by case_decide.
  - destruct Hp as [q Hq]. rewrite (update_dev_Ok d q) by done. eexists. split; [done|].
    split; [done|]. split; [by apply (core_dev s d q)|].
    intros [| | |d'|d' h']; try by rewrite decide_False.
    + cbn. rewrite dev_list_insert. destruct (decide (d' = d)) as [->|Hne].
      * rewrite decide_True by done. unfold dev_list. by rewrite Hq.
      * by rewrite decide_False by congruence.
    + cbn. rewrite dev_list_insert. rewrite (decide_False (P := OnProcessing d' h' = OnIo d)) by done.
      destruct (decide (d' = d)) as [->|Hne]; [|done]. unfold dev_list. by rewrite Hq.
  - destruct Hp as [q Hq]. rewrite (update_dev_Ok d q) by done. eexists. split; [done|].
    split; [done|]. split; [by apply (core_dev s d q)|].
    intros [| | |d'|d' h']; try by rewrite decide_False.
    + cbn. rewrite dev_list_insert. rewrite (decide_False (P := OnIo d' = OnProcessing d h)) by done.
      destruct (decide (d' = d)) as [->|Hne]; [|done]. unfold dev_list. by rewrite Hq.
    + cbn. rewrite dev_list_insert. destruct (decide (d' = d)) as [->|Hne].
      * rewrite bucket_set. unfold dev_list. rewrite Hq.
        destruct (decide (h' = h)) as [->|Hh]; [by rewrite decide_True|].
        by rewrite decide_False by congruence.
      * by rewrite decide_False by congruence.
Qed.

(** Request [a] of [s] becomes [r'] and the lists are [g]; nothing else changes. *)
Record turned s s' a r' (g : place -> list Z) : Prop := mk_turned {
  tn_reqs : kreqs s' = <[a := r']> (kreqs s);
  tn_core : core s' = core s;
  tn_lists : forall p, linked s' p = g p;
}.

Lemma klist_del_runs s a r : kreqs s !! a = Some r ->
  (forall p, a ∈ linked s p <-> p = k_place r /\ p <> Nowhere) -> exists s',
  list_del a s = Ok (tt, s') /\
  turned s s' a (set_k_place Nowhere r) (fun p => remove_addr a (linked s p)).
Proof.
  intros Ha Hp. unfold list_del. rewrite (bind_Ok _ _ _ _ _ (kload_req_Ok _ _ _ Ha)).
  destruct (decide (k_place r = Nowhere)) as [Hnw|Hnw].
  - rewrite Hnw. cbn [on_list]. rewrite (bind_Ok _ _ _ tt s) by done.
    rewrite (kupdate_req_Ok _ r) by done. eexists. split; [done|]. split; [done..|].
    intros p. rewrite linked_put, remove_addr_id; [done|]. rewrite Hp, Hnw. by intros [-> ?].
  - assert (Hin : a ∈ linked s (k_place r)) by by apply Hp.
    destruct (on_list_runs s (k_place r) (remove_addr a)) as (s1 & Hr & Hq & Hc & Hl);
      [by apply (linked_place_ok _ _ a)|done|].
    rewrite (bind_Ok _ _ _ _ _ Hr), (kupdate_req_Ok _ r) by by rewrite Hq.
    eexists. split; [done|]. split; [unfold put_req; cbn; by rewrite Hq|done|].
    intros p. rewrite linked_put, Hl. case_decide as Hpp; [by subst|].
    rewrite remove_addr_id; [done|]. rewrite Hp. by intros [-> ?].
Qed.

Lemma klist_add_runs s a r p : kreqs s !! a = Some r -> place_ok s p -> p <> Nowhere -> exists s',
  list_add a p s = Ok (tt, s') /\
  turned s s' a (set_k_place p r) (fun p' => if decide (p' = p) then a :: linked s p else linked s p').
Proof.
  intros Ha Hp Hnw. destruct (on_list_runs s p (cons a) Hp Hnw) as (s1 & Hr & Hq & Hc & Hl).
  unfold list_add. rewrite (bind_Ok _ _ _ _ _ Hr), (kupdate_req_Ok _ r) by by rewrite Hq.
  eexists. split; [done|]. split; [unfold put_req; cbn; by rewrite Hq|done|].
  intros p'. by rewrite linked_put, Hl.
Qed.

Lemma klist_add_tail_runs s a r p : kreqs s !! a = Some r -> place_ok s p -> p <> Nowhere ->
  exists s', list_add_tail a p s = Ok (tt, s') /\
  turned s s' a (set_k_place p r)
    (fun p' => if decide (p' = p) then linked s p ++ [a] else linked s p').
Proof.
  intros Ha Hp Hnw. destruct (on_list_runs s p (fun l => l ++ [a]) Hp Hnw) as (s1 & Hr & Hq & Hc & Hl).
  unfold list_add_tail. rewrite (bind_Ok _ _ _ _ _ Hr), (kupdate_req_Ok _ r) by by rewrite Hq.
  eexists. split; [done|]. split; [unfold put_req; cbn; by rewrite Hq|done|].
  intros p'. by rewrite linked_put, Hl.
Qed.

Lemma turned_trans s s1 s2 a r1 r2 g1 g2 : turned s s1 a r1 g1 -> turned s1 s2 a r2 g2 ->
  turned s s2 a r2 g2.
Proof.
  intros [H1 H2 H3] [H4 H5 H6]. split; [|congruence|done]. by rewrite H4, H1, insert_insert_eq.
Qed.

Lemma turned_put s s1 a r1 r2 g : turned s s1 a r1 g -> turned s (put_req a r2 s1) a r2 g.
Proof.
  intros H. apply (turned_trans _ _ _ _ _ _ _ _ H). split; [done..|]. intros p.
  rewrite linked_put. apply H.
Qed.

Lemma put_turned s a r : turned s (put_req a r s) a r (linked s).
Proof. split; [done..|]. intros p. apply linked_put. Qed.

Lemma turned_self s s' a r g : turned s s' a r g -> kreqs s' !! a = Some r.
Proof. intros []. by rewrite tn_reqs0, lookup_insert_eq. Qed.

Lemma turned_other s s' a r g b : turned s s' a r g -> b <> a -> kreqs s' !! b = kreqs s !! b.
Proof. intros [] Hb. by rewrite tn_reqs0, lookup_insert_ne by congruence. Qed.

(** The facts two states with the same core share. *)
Record rests s s' : Prop := mk_rests {
  rs_intr : interrupts (iq (fc s')) = interrupts (iq (fc s));
  rs_ctr : reqctr (iq (fc s')) = reqctr (iq (fc s));
  rs_conn : connected (iq (fc s')) = connected (iq (fc s));
  rs_head : forget_head (iq (fc s')) = forget_head (iq (fc s));
  rs_tail : forget_tail (iq (fc s')) = forget_tail (iq (fc s));
  rs_batch : forget_batch (iq (fc s')) = forget_batch (iq (fc s));
  rs_num : num_background (fc s') = num_background (fc s);
  rs_active : active_background (fc s') = active_background (fc s);
  rs_wait : num_waiting (fc s') = num_waiting (fc s);
  rs_max : max_background (fc s') = max_background (fc s);
  rs_blocked : blocked (fc s') = blocked (fc s);
  rs_fcc : fc_connected (fc s') = fc_connected (fc s);
  rs_devices : devices (fc s') = devices (fc s);
  rs_noint : no_interrupt (fc s') = no_interrupt (fc s);
  rs_devs : pq_connected <$> devs s' = pq_connected <$> devs s;
  rs_links : links s' = links s;
  rs_objs : kobjs s' = kobjs s;
  rs_oks : koks s' = koks s;
  rs_ended : ended s' = ended s;
}.

Lemma core_rests s s' : core s' = core s -> rests s s'.
Proof.
  intros H. unfold core in H.
  injection H as H1 H2 H3 H4 H5 H6 H7 H8 H9 H10 H11 H12 H13 H14 H15 H16 H17 H18 H19 H20 H21 H22 H23 H24 H25.
  by split.
Qed.

Lemma offline_fmap s s' d : pq_connected <$> devs s' = pq_connected <$> devs s ->
  offline s d -> offline s' d.
Proof.
  intros H (q & Hq & Hf). pose proof (f_equal (fun x => x !! d) H) as He. cbn in He.
  rewrite !lookup_fmap, Hq in He. cbn in He. unfold offline.
  destruct (devs s' !! d) as [q'|]; [|done]. exists q'. split; [done|]. injection He. congruence.
Qed.

Lemma place_ok_fmap s s' p : pq_connected <$> devs s' = pq_connected <$> devs s ->
  place_ok s p -> place_ok s' p.
Proof.
  intros H. destruct p as [| | |d|d h]; cbn; try done; intros [q Hq];
    pose proof (f_equal (fun x => x !! d) H) as He; cbn in He;
    rewrite !lookup_fmap, Hq in He; destruct (devs s' !! d); eauto; done.
Qed.

(** Request [a] changes and moves; nothing else changes. *)
Lemma kinv_turned e fly fly' s s' a r r' g : kinv e fly s -> kreqs s !! a = Some r ->
  turned s s' a r' g ->
  (forall p b, b <> a -> b ∈ g p <-> b ∈ linked s p) -> (forall p, NoDup (g p)) ->
  (forall b, b <> a -> count_occ Z.eq_dec fly' b = count_occ Z.eq_dec fly b) ->
  rok s' e fly' a r' ->
  k_background r' = k_background r -> k_waiting r' = k_waiting r ->
  on_bg r' = on_bg r ->
  (numbered r' = true -> numbered r = true /\ k_unique r' = k_unique r) ->
  kinv e fly' s'.
Proof.
  intros K Ha Ht Hg Hnd Hocc Hr Hbg Hw Hon Hu.
  pose proof (core_rests _ _ (tn_core _ _ _ _ _ Ht)) as Hs.
  pose proof (turned_self _ _ _ _ _ Ht) as Ha'.
  assert (Hsize : size (kreqs s') = size (kreqs s)).
  { rewrite (tn_reqs _ _ _ _ _ Ht). by rewrite map_size_insert_Some by eauto. }
  assert (Hact : active r' = active r) by (unfold active; by rewrite Hbg, Hon).
  apply (kinv_change a e e fly fly' s s'); try done.
  - intros b Hb. by apply (turned_other _ _ _ _ _ _ Ht).
  - intros b Hb. split.
    + intros p. rewrite (tn_lists _ _ _ _ _ Ht). by apply Hg.
    + by rewrite (rs_intr _ _ Hs).
    + by rewrite (rs_ended _ _ Hs).
  - destruct Hs. split.
    + rewrite rs_objs0. pose proof (ki_objs _ _ _ K). lia.
    + intros d. by apply offline_fmap.
    + rewrite rs_ctr0. split; [lia|apply (ki_even _ _ _ K)].
  - intros q Hq. rewrite Ha' in Hq. by injection Hq as <-.
  - by rewrite Ha'.
  - intros p. rewrite (tn_lists _ _ _ _ _ Ht). apply Hnd.
  - rewrite (rs_intr _ _ Hs). apply (ki_intr_nodup _ _ _ K).
  - rewrite (rs_ended _ _ Hs), (rs_objs _ _ Hs). apply (ki_ended _ _ _ K).
  - rewrite (rs_ended _ _ Hs). apply (ki_once _ _ _ K).
  - rewrite (rs_num _ _ Hs), Ha', Ha. cbn [wt]. rewrite Hbg. lia.
  - rewrite (rs_active _ _ Hs), Ha', Ha. cbn [wt]. rewrite Hact. lia.
  - rewrite (rs_wait _ _ Hs), Ha', Ha. cbn [wt]. rewrite Hw. lia.
  - rewrite Hsize. apply (ki_few _ _ _ K).
  - intros q b rb Hq Hn Hb Hrb Hnb Hub. rewrite Ha' in Hq. injection Hq as <-.
    destruct (Hu Hn) as [Hna Hua]. rewrite Hua in Hub.
    by destruct Hb; apply (ki_unique _ _ _ K b a rb r).
  - rewrite (rs_ctr _ _ Hs), (rs_links _ _ Hs), (rs_objs _ _ Hs), Ha', Ha. cbn [wt].
    rewrite Hon. lia.
Qed.

(** A change that the invariant does not see. *)
Record calm r r' : Prop := mk_calm {
  ca_place : k_place r' = k_place r;
  ca_waiter : k_waiter r' = k_waiter r;
  ca_copier : k_copier r' = k_copier r;
  ca_count : k_count r' = k_count r;
  ca_finished : k_finished r' = k_finished r;
  ca_private : k_private r' = k_private r;
  ca_background : k_background r' = k_background r;
  ca_waiting : k_waiting r' = k_waiting r;
  ca_unique : k_unique r' = k_unique r;
  ca_isreply : k_isreply r' = k_isreply r;
  ca_async : k_async r' = k_async r;
  ca_pending : k_pending r' = true -> k_pending r = true;
  ca_sent : k_sent r' = true -> k_sent r = true;
  ca_locked : k_locked r' = true -> k_locked r = true;
  ca_intr : k_interrupted r = true -> k_interrupted r' = true;
  ca_args : args_ok (k_args r) -> args_ok (k_args r');
  ca_aborted : k_aborted r = true -> k_aborted r' = true;
}.

Lemma calm_trans r1 r2 r3 : calm r1 r2 -> calm r2 r3 -> calm r1 r3.
Proof. intros [] []. split; try congruence; auto. Qed.

Lemma calm_rok s e fly a r r' : calm r r' -> rok s e fly a r -> rok s e fly a r'.
Proof.
  intros [] []. unfold waits, held, copies, numbered, on_bg in *.
  split; unfold waits, held, copies, numbered, on_bg; rewrite ?ca_place0, ?ca_waiter0, ?ca_copier0,
    ?ca_count0, ?ca_finished0, ?ca_private0, ?ca_background0, ?ca_unique0, ?ca_isreply0, ?ca_async0;
    eauto. intros Hi. destruct (rk_intr0 Hi). eauto.
Qed.

Lemma rok_core s s' e fly a r : core s' = core s -> (forall p, linked s' p = linked s p) ->
  rok s e fly a r -> kobjs s < 2 ^ 62 -> Z.even (reqctr (iq (fc s))) = true -> rok s' e fly a r.
Proof.
  intros Hc Hl Hr Ho He. pose proof (core_rests _ _ Hc) as []. apply (rok_agree s s' e e fly fly); try done.
  - split; [intros p; by rewrite Hl|by rewrite rs_intr0|by rewrite rs_ended0].
  - split; [rewrite rs_objs0; lia|intros d; by apply offline_fmap|].
    rewrite rs_ctr0. split; [lia|done].
Qed.

Lemma kinv_calm e fly s a r r' : kinv e fly s -> kreqs s !! a = Some r -> calm r r' ->
  kinv e fly (put_req a r' s).
Proof.
  intros K Ha Hc. apply (kinv_turned e fly fly s _ a r r' (linked s)); try done.
  - apply (ki_nodup _ _ _ K).
  - apply (rok_core s); [done|by apply linked_put| |apply (ki_objs _ _ _ K)|apply (ki_even _ _ _ K)].
    apply (calm_rok _ _ _ _ r); [done|]. by apply (ki_req _ _ _ K).
  - by destruct Hc.
  - by destruct Hc.
  - unfold on_bg. by destruct Hc as [-> _].
  - destruct Hc. unfold numbered, on_bg. by rewrite ca_place0, ca_isreply0.
Qed.
