(* ===== verification/KSteps.v ===== *)
(** * The invariant along the steps of the device

    Each operation of the queues runs without an error from a state that satisfies the
    invariant, and keeps it. *)
From S2P Require Import Prelude KTypes KForget KForgetFacts KQueue KInv.
#[local] Open Scope Z_scope.

#[local] Abbreviation L := (M kernel).
Implicit Types (s : kernel) (m : gmap Z kreq) (a b d : Z) (r : kreq) (fly : list Z).

Ltac kred := cbn [k_args k_count k_unique k_uid k_gid k_pid k_len k_error k_isreply k_force
  k_background k_waiting k_aborted k_interrupted k_locked k_pending k_sent k_finished k_private
  k_async k_place k_waiter k_copier set_k_args set_k_count set_k_unique set_k_uid set_k_gid
  set_k_pid set_k_len set_k_error set_k_isreply set_k_force set_k_background set_k_waiting
  set_k_aborted set_k_interrupted set_k_locked set_k_pending set_k_sent set_k_finished
  set_k_private set_k_async set_k_place set_k_waiter set_k_copier
  fc devs kreqs links kobjs koks ended set_fc set_devs set_kreqs set_links set_kobjs set_koks
  set_ended
  iq minor max_write max_background num_background active_background bg_queue initialized blocked
  fc_connected aborted conn_error no_interrupt num_waiting dev_count devices
  set_iq set_minor set_max_write set_max_background set_num_background set_active_background
  set_bg_queue set_initialized set_blocked set_fc_connected set_aborted set_conn_error
  set_no_interrupt set_num_waiting set_dev_count set_devices
  connected reqctr pending interrupts forget_head forget_tail forget_batch set_connected
  set_reqctr set_pending set_interrupts set_forget_head set_forget_tail set_forget_batch
  put_req] in *.

(** The facts of [core_rests], by fixed names. *)
Ltac kcore H :=
  let R := fresh in pose proof (core_rests _ _ H) as R;
  destruct R as [Eintr Ectr Econn Ehead Etail Ebatch Enum Eact Ewait Emax Eblk Efcc Edevs Enoint
                 Epq Elinks Eobjs Eoks Eend]; kred.

(** The parts of [rok], by fixed names. *)
Ltac krok R :=
  destruct R as [Raddr Rcount Rlists Rlive Rdone Rpend Rsent Rbg Rebg Rio Rcop Rpriv Rab Rlock Rrep
                 Rwait Rargs Rintr Rend Rnend Runiq].

Lemma modify_fc_Ok g s : modify_fc g s = Ok (tt, set_fc (g (fc s)) s).
Proof. done. Qed.
Lemma modify_iq_Ok g s : modify_iq g s = Ok (tt, set_fc (set_iq (g (iq (fc s))) (fc s)) s).
Proof. done. Qed.
Lemma get_fc_Ok s : get_fc s = Ok (fc s, s).
Proof. done. Qed.
Lemma get_iq_Ok s : get_iq s = Ok (iq (fc s), s).
Proof. done. Qed.
Lemma fuse_get_unique_Ok s : let u := u64 (reqctr (iq (fc s)) + FUSE_REQ_ID_STEP) in
  fuse_get_unique s = Ok (u, set_fc (set_iq (set_reqctr u (iq (fc s))) (fc s)) s).
Proof. done. Qed.

(** ** Flushing the background queue *)
Lemma queue_request_runs s a r : kreqs s !! a = Some r -> exists s',
  queue_request a s = Ok (tt, s') /\
  turned s s' a (set_k_place OnPending
      (set_k_len (u32 (SIZEOF_IN_HEADER + fuse_len_args (in_args (k_args r)))) r))
    (fun p => if decide (p = OnPending) then linked s p ++ [a] else linked s p).
Proof.
  intros Ha. unfold queue_request. rewrite (bind_Ok _ _ _ _ _ (kupdate_req_Ok _ _ _ _ Ha)).
  set (r1 := set_k_len _ r).
  destruct (klist_add_tail_runs (put_req a r1 s) a r1 OnPending) as (s' & Hr & Ht);
    [by apply lookup_insert_eq|done|done|].
  exists s'. split; [exact Hr|]. apply (turned_trans _ _ _ _ _ _ _ _ (put_turned s a r1)).
  destruct Ht as [H1 H2 H3]. split; [done..|].
  intros p. rewrite H3. case_decide as Hp; by rewrite ?linked_put; subst.
Qed.

(** [l] has moved from the background queue to the pending requests. *)
Record flushed s s' (l : list Z) : Prop := mk_flushed {
  fl_reqs : forall b, b ∉ l -> kreqs s' !! b = kreqs s !! b;
  fl_moved : forall b, b ∈ l -> exists r, kreqs s' !! b = Some r /\ k_place r = OnPending;
  fl_bg : bg_queue (fc s) = l ++ bg_queue (fc s');
  fl_pending : pending (iq (fc s')) = pending (iq (fc s)) ++ l;
  fl_lists : forall p, p <> OnBg -> p <> OnPending -> linked s' p = linked s p;
  fl_core : core (set_fc (set_active_background 0 (set_iq (set_reqctr 0 (iq (fc s'))) (fc s'))) s') =
            core (set_fc (set_active_background 0 (set_iq (set_reqctr 0 (iq (fc s))) (fc s))) s);
}.

Lemma flushed_nil s : flushed s s [].
Proof. split; try done; [by intros b ?%not_elem_of_nil|by rewrite app_nil_r]. Qed.

Lemma flushed_trans s s1 s2 l1 l2 : flushed s s1 l1 -> flushed s1 s2 l2 ->
  (forall b, b ∈ l1 -> b ∉ l2) -> flushed s s2 (l1 ++ l2).
Proof.
  intros [] [] Hd. split.
  - intros b Hb. rewrite not_elem_of_app in Hb. destruct Hb. rewrite fl_reqs1 by done. by apply fl_reqs0.
  - intros b [Hb|Hb]%elem_of_app; [|by apply fl_moved1].
    destruct (fl_moved0 b Hb) as (r & Hr & Hp). exists r. split; [|done].
    rewrite fl_reqs1; [done|by apply Hd].
  - rewrite fl_bg0, fl_bg1. by rewrite app_assoc.
  - rewrite fl_pending1, fl_pending0. by rewrite app_assoc.
  - intros p H1 H2. by rewrite fl_lists1, fl_lists0.
  - congruence.
Qed.

Definition max_ok s : Prop := 0 <= max_background (fc s) <= UINT_MAX.

Lemma active_lt s e fly a r : kinv e fly s -> kreqs s !! a = Some r -> active r = false ->
  0 <= active_background (fc s) < UINT_MAX.
Proof.
  intros K Ha Hr. rewrite (ki_active _ _ _ K). pose proof (ki_few _ _ _ K).
  rewrite (cnt_delete _ _ a), Ha. cbn [wt]. rewrite Hr. cbn [Z.b2z].
  pose proof (cnt_size active (delete a (kreqs s))). pose proof (cnt_nonneg active (delete a (kreqs s))).
  rewrite map_size_delete_Some in * by eauto.
  assert (size (kreqs s) <> 0%nat) by (by intros Hz%map_size_empty_inv; rewrite Hz in Ha).
  lia.
Qed.

Lemma ctr_room s e fly a r : kinv e fly s -> kreqs s !! a = Some r -> on_bg r = true ->
  0 <= reqctr (iq (fc s)) /\ reqctr (iq (fc s)) + 2 <= 2 * kobjs s.
Proof.
  intros K Ha Hr. pose proof (ki_ctr _ _ _ K). pose proof (cnt_pos on_bg _ _ _ Ha Hr).
  pose proof (ki_even _ _ _ K). lia.
Qed.

(** One request moves from the background queue to the pending ones. *)
Lemma flush_one_runs s a r : kreqs s !! a = Some r ->
  (forall p, a ∈ linked s p <-> p = k_place r /\ p <> Nowhere) ->
  let u := u64 (reqctr (iq (fc s)) + FUSE_REQ_ID_STEP) in
  let n := u32 (active_background (fc s) + 1) in
  exists s' len, flush_one a s = Ok (tt, s') /\
    kreqs s' = <[a := set_k_place OnPending (set_k_len len (set_k_unique u (set_k_place Nowhere r)))]> (kreqs s) /\
    (forall p, linked s' p = if decide (p = OnPending) then remove_addr a (linked s p) ++ [a]
                             else remove_addr a (linked s p)) /\
    core s' = core (set_fc (set_active_background n (set_iq (set_reqctr u (iq (fc s))) (fc s))) s).
Proof.
  intros Ha Hp u n. unfold flush_one.
  destruct (klist_del_runs s a r Ha Hp) as (s1 & Hr1 & [Hq1 Hc1 Hl1]).
  rewrite (bind_Ok _ _ _ _ _ Hr1). pose proof (core_rests _ _ Hc1) as Hs1.
  set (s3 := set_fc (set_active_background n (set_iq (set_reqctr u (iq (fc s1))) (fc s1))) s1).
  set (r4 := set_k_unique u (set_k_place Nowhere r)).
  destruct (queue_request_runs (put_req a r4 s3) a r4) as (s' & Hr & [Hq Hc Hl]);
    [by apply lookup_insert_eq|].
  exists s'. eexists. split; [|split; [|split]].
  - rewrite (bind_Ok _ _ _ _ _ (modify_fc_Ok _ _)), (bind_Ok _ _ _ _ _ (fuse_get_unique_Ok _)).
    kred. rewrite (rs_active _ _ Hs1), (rs_ctr _ _ Hs1).
    erewrite bind_Ok; [exact Hr|]. apply (kupdate_req_Ok _ (set_k_place Nowhere r)).
    unfold s3; kred. rewrite Hq1. apply lookup_insert_eq.
  - rewrite Hq. unfold put_req, s3. kred. rewrite Hq1, !insert_insert_eq. done.
  - intros p. rewrite Hl, !linked_put.
    assert (Hls : forall p, linked s3 p = linked s1 p) by by intros [].
    by rewrite !Hls, !Hl1.
  - rewrite Hc, core_put. unfold s3.
    apply (core_mod (fun c => set_active_background n (set_iq (set_reqctr u (iq c)) c))); done.
Qed.

Lemma even_step z : Z.even z = true -> Z.even (z + FUSE_REQ_ID_STEP) = true.
Proof. intros Hz. unfold FUSE_REQ_ID_STEP. by rewrite Z.even_add, Hz. Qed.

Lemma remove_head a l : NoDup (a :: l) -> remove_addr a (a :: l) = l.
Proof.
  intros [Ha _]%NoDup_cons. unfold remove_addr. rewrite filter_cons_False by (intros H; by apply H).
  by apply remove_addr_id.
Qed.

(** A fresh unique is new. *)
Lemma unique_new e fly s b rb u : kinv e fly s -> kreqs s !! b = Some rb ->
  numbered rb = true -> reqctr (iq (fc s)) < u -> k_unique rb <> u.
Proof. intros K Hb Hn Hu. destruct (rk_unique _ _ _ _ _ (ki_req _ _ _ K b rb Hb) Hn). lia. Qed.

Lemma flush_one_kinv e fly s a l : kinv e fly s -> bg_queue (fc s) = a :: l -> exists s',
  flush_one a s = Ok (tt, s') /\ kinv e fly s' /\ flushed s s' [a] /\
  active_background (fc s') = active_background (fc s) + 1.
Proof.
  intros K Hbg.
  assert (Hin : a ∈ linked s OnBg) by (cbn; rewrite Hbg; by left).
  destruct (ki_mem _ _ _ K _ _ Hin) as [r Ha]. pose proof (ki_req _ _ _ K a r Ha) as R.
  assert (Hpl : k_place r = OnBg) by (by destruct (proj1 (rk_lists _ _ _ _ _ R OnBg) Hin)).
  assert (Hon : on_bg r = true) by (unfold on_bg; by apply bool_decide_eq_true).
  assert (Hact : active r = false) by (unfold active; by rewrite Hon, andb_false_r).
  destruct (flush_one_runs s a r Ha (rk_lists _ _ _ _ _ R)) as (s' & len & Hr & Hq & Hl & Hc).
  pose proof (active_lt _ _ _ _ _ K Ha Hact) as Hlt.
  pose proof (ctr_room _ _ _ _ _ K Ha Hon) as Hroom. pose proof (ki_objs _ _ _ K) as Hobj.
  unfold u64, u32, FUSE_REQ_ID_STEP in *. unfold UINT_MAX in Hlt.
  rewrite Z.mod_small in Hq, Hc by lia. rewrite Z.mod_small in Hc by lia.
  kcore Hc.
  exists s'. split; [done|].
  assert (Hoth : forall b, b <> a -> kreqs s' !! b = kreqs s !! b).
  { intros b Hb. rewrite Hq. by rewrite lookup_insert_ne by congruence. }
  assert (Hself : kreqs s' !! a = Some (set_k_place OnPending (set_k_len len (set_k_unique
    (reqctr (iq (fc s)) + 2) (set_k_place Nowhere r))))) by (rewrite Hq; apply lookup_insert_eq).
  assert (Hlst : forall p b, b <> a -> b ∈ linked s' p <-> b ∈ linked s p).
  { intros p b Hb. rewrite Hl. case_decide; rewrite ?elem_of_app, remove_addr_in, ?list_elem_of_singleton; naive_solver. }
  assert (Hlsa : forall p, a ∈ linked s' p <-> p = OnPending).
  { intros p. rewrite Hl. case_decide; rewrite ?elem_of_app, remove_addr_in, ?list_elem_of_singleton; naive_solver. }
  split; [|split; [|done]].
  - apply (kinv_change a e e fly fly s s'); try done.
    + intros b Hb. split; [intros p; by apply Hlst|by rewrite Eintr|by rewrite Eend].
    + split; [lia|intros d; by apply offline_fmap|]. rewrite Ectr. split; [lia|].
      apply even_step, (ki_even _ _ _ K).
    + intros r' Hr'. rewrite Hself in Hr'. injection Hr' as <-. krok R. rewrite Hpl in *.
      split; unfold waits, held, copies, numbered, on_bg in *; kred; rewrite ?Hpl, ?Eintr, ?Eend, ?Eobjs, ?Ectr in *; try done.
      * intros p. rewrite Hlsa. split; [by intros ->|by intros []].
      * intros _. by apply Rlive.
      * intros Hs. by destruct (Rsent Hs) as [(? & ? & ?)|[]].
      * intros d Hd. destruct (Rcop d Hd) as [[]|[]]; done.
      * intros Hs. by specialize (Rpriv Hs).
      * intros Hs. by destruct (Rlock Hs).
      * intros Hn. split; [lia|]. apply even_step, (ki_even _ _ _ K).
    + by rewrite Hself.
    + intros p. rewrite Hl. case_decide; [|apply remove_addr_nodup, (ki_nodup _ _ _ K)].
      apply NoDup_app. split; [apply remove_addr_nodup, (ki_nodup _ _ _ K)|]. split; [|apply NoDup_singleton].
      intros b [Hb _]%remove_addr_in ->%list_elem_of_singleton. done.
    + rewrite Eintr. apply (ki_intr_nodup _ _ _ K).
    + rewrite Eend, Eobjs. apply (ki_ended _ _ _ K).
    + rewrite Eend. apply (ki_once _ _ _ K).
    + rewrite Enum, Hself, Ha. cbn [wt]. kred. lia.
    + rewrite Eact, Hself, Ha. cbn [wt]. rewrite Hact. unfold active, on_bg. kred.
      rewrite (rk_bg _ _ _ _ _ R Hpl), bool_decide_eq_false_2 by done. cbn [andb negb Z.b2z]. lia.
    + rewrite Ewait, Hself, Ha. cbn [wt]. kred. lia.
    + rewrite Hq, map_size_insert_Some by eauto. apply (ki_few _ _ _ K).
    + intros q b rb Hq' Hn Hb Hrb Hnb. rewrite Hself in Hq'. injection Hq' as <-. kred.
      apply (unique_new _ _ _ _ _ _ K Hrb Hnb). lia.
    + rewrite Ectr, Elinks, Eobjs, Hself, Ha. cbn [wt]. rewrite Hon.
      unfold on_bg. kred. rewrite bool_decide_eq_false_2 by done. cbn [Z.b2z]. lia.
  - split.
    + intros b Hb. apply Hoth. by intros ->; apply Hb; left.
    + intros b ->%list_elem_of_singleton. rewrite Hself. eauto.
    + rewrite Hbg. cbn. f_equal. pose proof (Hl OnBg) as H. cbn in H. rewrite H, Hbg.
      symmetry. apply remove_head. rewrite <- Hbg. apply (ki_nodup _ _ _ K OnBg).
    + pose proof (Hl OnPending) as H. cbn in H. rewrite H. f_equal. apply remove_addr_id.
      intros Hi. apply (rk_lists _ _ _ _ _ R OnPending) in Hi as [Hi _]. congruence.
    + intros p H1 H2. rewrite Hl, decide_False by done. apply remove_addr_id.
      intros Hi. apply (rk_lists _ _ _ _ _ R p) in Hi as [Hi _]. congruence.
    + pose proof (core_mod (fun c => set_active_background 0 (set_iq (set_reqctr 0 (iq c)) c)) _ _ ltac:(done) Hc) as H.
      rewrite H. done.
Qed.

Record flush_post e fly s s' (l : list Z) : Prop := mk_flush_post {
  fp_kinv : kinv e fly s';
  fp_flushed : flushed s s' l;
  fp_active : active_background (fc s') = active_background (fc s) + Z.of_nat (length l);
  fp_limit : l <> [] -> active_background (fc s') <= max_background (fc s);
  fp_full : max_background (fc s) <= active_background (fc s') \/ bg_queue (fc s') = [];
}.

Lemma flushed_max s s' l : flushed s s' l -> max_background (fc s') = max_background (fc s).
Proof. intros []. by kcore fl_core0. Qed.

Lemma flush_loop_runs e fly fuel : forall s, kinv e fly s -> (length (bg_queue (fc s)) < fuel)%nat ->
  runs (flush_loop fuel) s (fun _ s' => exists l, flush_post e fly s s' l).
Proof.
  induction fuel as [|fuel IH]; intros s K Hf; [lia|]. cbn [flush_loop].
  eapply runs_Ok_bind; [apply get_fc_Ok|].
  assert (Hstop : max_background (fc s) <= active_background (fc s) \/ bg_queue (fc s) = [] ->
    flush_post e fly s s []).
  { intros Hs. split; [done|apply flushed_nil|cbn; lia|done|done]. }
  case (Z.ltb_spec (active_background (fc s)) (max_background (fc s))) as [Hlt|Hge];
    [|apply runs_ret; eauto].
  destruct (bg_queue (fc s)) as [|a l] eqn:Hbg; [apply runs_ret; eauto|].
  destruct (flush_one_kinv e fly s a l K Hbg) as (s1 & Hr & K1 & Hfl & Ha).
  eapply runs_Ok_bind; [exact Hr|].
  assert (Hbg1 : bg_queue (fc s1) = l) by (pose proof (fl_bg _ _ _ Hfl) as H; rewrite Hbg in H; by injection H).
  eapply runs_mono; [apply (IH s1 K1); rewrite Hbg1; cbn in Hf; lia|].
  intros _ s2 [l2 [K2 Hfl2 Ha2 Hli2 Hfu2]]. pose proof (flushed_max _ _ _ Hfl) as Hmax.
  exists (a :: l2). split; [done| | | |].
  - apply (flushed_trans _ _ _ [a] l2 Hfl Hfl2). intros b ->%list_elem_of_singleton Hi.
    pose proof (ki_nodup _ _ _ K OnBg) as Hnd. cbn in Hnd. rewrite Hbg in Hnd.
    apply NoDup_cons in Hnd as [Hn _]. apply Hn. rewrite <- Hbg1, (fl_bg _ _ _ Hfl2).
    apply elem_of_app. by left.
  - rewrite Ha2, Ha. cbn [length]. lia.
  - intros _. destruct l2 as [|b l2]; [|rewrite <- Hmax; by apply Hli2]. rewrite Ha2, Ha. cbn. lia.
  - by rewrite <- Hmax.
Qed.

Lemma flush_bg_queue_runs e fly s : kinv e fly s ->
  runs flush_bg_queue s (fun _ s' => exists l, flush_post e fly s s' l).
Proof.
  intros K. unfold flush_bg_queue. eapply runs_Ok_bind; [apply get_fc_Ok|].
  apply flush_loop_runs; [done|lia].
Qed.

(** ** Giving up a reference *)
Lemma count_cons a fly b : count_occ Z.eq_dec (a :: fly) b =
  (if decide (b = a) then S (count_occ Z.eq_dec fly b) else count_occ Z.eq_dec fly b).
Proof.
  cbn. destruct (Z.eq_dec a b) as [->|Hne]; case_decide; congruence.
Qed.

Lemma count_not_in a fly : count_occ Z.eq_dec fly a = 0%nat <-> a ∉ fly.
Proof. rewrite list_elem_of_In. symmetry. apply count_occ_not_In. Qed.

Lemma count_perm a fly fly' : fly ≡ₚ fly' -> count_occ Z.eq_dec fly a = count_occ Z.eq_dec fly' a.
Proof. intros H. by apply Permutation_count_occ. Qed.

(** The lists are the same, and all other requests. *)
Record put_post s s' a : Prop := mk_put_post {
  pp_other : forall b, b <> a -> kreqs s' !! b = kreqs s !! b;
  pp_lists : forall p, linked s' p = linked s p;
  pp_core : core (set_fc (set_num_waiting 0 (fc s')) s') = core (set_fc (set_num_waiting 0 (fc s)) s);
}.

Lemma waits_held r : 0 <= waits r /\ 0 <= held r.
Proof. unfold waits, held. repeat case_decide; lia. Qed.

Lemma put_keeps e fly s a r : kinv e (a :: fly) s -> kreqs s !! a = Some r ->
  k_count r <> 1 -> (k_place r = Nowhere -> a ∉ fly -> k_finished r = true /\ k_sent r = false) ->
  kinv e fly (put_req a (set_k_count (k_count r - 1) r) s).
Proof.
  intros K Ha Hc Hd. pose proof (ki_req _ _ _ K a r Ha) as R.
  apply (kinv_turned e (a :: fly) fly s _ a r (set_k_count (k_count r - 1) r) (linked s)); try done.
  - apply (ki_nodup _ _ _ K).
  - intros b Hb. rewrite count_cons, decide_False by done. done.
  - apply (rok_core s); [done|by apply linked_put| |apply (ki_objs _ _ _ K)|apply (ki_even _ _ _ K)].
    krok R. rewrite count_cons, decide_True in Rcount by done.
    split; unfold waits, held, copies, numbered, on_bg in *; kred; try done; [lia| |].
    + intros Hp Hf. by apply Hd.
    + intros Hs. destruct (Rsent Hs) as [|[Hp _]]; [by left|]. right. split; [done|].
      destruct (decide (a ∈ fly)) as [|Hn]; [done|]. destruct (Hd Hp Hn) as [_ He]. congruence.
Qed.

Lemma put_frees e fly s a r : kinv e (a :: fly) s -> kreqs s !! a = Some r ->
  k_count r = 1 -> (k_place r = Nowhere -> a ∉ fly -> k_finished r = true /\ k_sent r = false) ->
  let n := num_waiting (fc s) - Z.b2z (k_waiting r) in
  kinv e fly (set_kreqs (delete a (kreqs s)) (set_fc (set_num_waiting n (fc s)) s)).
Proof.
  intros K Ha Hc Hd n. pose proof (ki_req _ _ _ K a r Ha) as R.
  set (s' := set_kreqs _ _).
  pose proof (rk_count _ _ _ _ _ R) as Rc. rewrite count_cons, decide_True in Rc by done.
  pose proof (waits_held r) as [Hw Hh].
  assert (Hnf : a ∉ fly) by (apply count_not_in; lia).
  assert (Hp : k_place r = Nowhere /\ k_copier r = NoCopier).
  { unfold held in *. case_decide; [done|lia]. }
  destruct Hp as [Hp Hcp]. destruct (Hd Hp Hnf) as [Hfin Hsent].
  assert (Hl : forall p, linked s' p = linked s p) by by intros [].
  assert (Hnone : kreqs s' !! a = None) by (unfold s'; kred; apply lookup_delete_eq).
  apply (kinv_change a e e (a :: fly) fly s s'); try done.
  - intros b Hb. unfold s'. kred. by rewrite lookup_delete_ne by congruence.
  - split; [|done|split; [done|apply (ki_even _ _ _ K)]]. pose proof (ki_objs _ _ _ K). unfold s'. kred. lia.
  - intros b Hb. by rewrite count_cons, decide_False.
  - by rewrite Hnone.
  - intros _. split; [done|]. split.
    + intros Hi. destruct (rk_intr _ _ _ _ _ R Hi) as (_ & ? & _). congruence.
    + intros p. rewrite Hl, (rk_lists _ _ _ _ _ R), Hp. by intros [].
  - intros p. rewrite Hl. apply (ki_nodup _ _ _ K).
  - apply (ki_intr_nodup _ _ _ K).
  - apply (ki_ended _ _ _ K).
  - apply (ki_once _ _ _ K).
  - rewrite Hnone, Ha. cbn [wt]. rewrite (rk_ended_bg _ _ _ _ _ R Hfin). unfold s'. kred. cbn [Z.b2z]. lia.
  - rewrite Hnone, Ha. cbn [wt]. unfold active. rewrite (rk_ended_bg _ _ _ _ _ R Hfin). unfold s'. kred. cbn [andb Z.b2z]. lia.
  - rewrite Hnone, Ha. cbn [wt]. unfold s', n. kred. lia.
  - unfold s'. kred. rewrite map_size_delete_Some by eauto. pose proof (ki_few _ _ _ K). lia.
  - by rewrite Hnone.
  - rewrite Hnone, Ha. cbn [wt]. unfold on_bg. rewrite Hp, bool_decide_eq_false_2 by done.
    unfold s'. kred. cbn [Z.b2z]. lia.
Qed.

Lemma put_runs e fly s a r : kinv e (a :: fly) s -> kreqs s !! a = Some r ->
  (k_place r = Nowhere -> a ∉ fly -> k_finished r = true /\ k_sent r = false) ->
  exists s', fuse_put_request a s = Ok (tt, s') /\ kinv e fly s' /\ put_post s s' a /\
    kreqs s' !! a = (if k_count r =? 1 then None else Some (set_k_count (k_count r - 1) r)).
Proof.
  intros K Ha Hd. pose proof (ki_req _ _ _ K a r Ha) as R. pose proof (rk_count _ _ _ _ _ R) as Rc.
  rewrite count_cons, decide_True in Rc by done. pose proof (waits_held r) as [Hw Hh].
  set (r1 := set_k_count (k_count r - 1) r).
  unfold fuse_put_request. rewrite (bind_Ok _ _ _ _ _ (kload_req_Ok _ _ _ Ha)).
  unfold assertM. rewrite (proj2 (Z.ltb_lt _ _)) by lia.
  rewrite (bind_Ok (mret tt) _ s tt s) by done.
  rewrite (bind_Ok _ _ _ _ _ (kupdate_req_Ok _ _ _ _ Ha)).
  case (Z.eqb_spec (k_count r) 1) as [H1|Hne].
  - rewrite (proj2 (Z.eqb_eq (k_count r - 1) 0)) by lia.
    set (n := num_waiting (fc s) - Z.b2z (k_waiting r)).
    exists (set_kreqs (delete a (kreqs s)) (set_fc (set_num_waiting n (fc s)) s)).
    split; [|split; [by apply (put_frees e fly s a r)|split]].
    + unfold fuse_request_free, fuse_drop_waiting, n. destruct (k_waiting r).
      * rewrite (bind_Ok _ _ _ tt (set_fc (set_num_waiting (num_waiting (fc s) - 1) (fc s))
          (put_req a (set_k_waiting false r1) (put_req a r1 s)))).
        { unfold modifyM. kred. rewrite insert_insert_eq, delete_insert_eq. done. }
        by rewrite (bind_Ok _ _ _ _ _ (kupdate_req_Ok _ r1 _ _ (lookup_insert_eq _ _ _))).
      * rewrite (bind_Ok _ _ _ tt (put_req a r1 s)) by done. unfold modifyM. kred.
        rewrite delete_insert_eq. cbn [Z.b2z]. rewrite Z.sub_0_r. by destruct s as [[] ? ? ? ? ? ?].
    + split; [|by intros []|done]. intros b Hb. kred. by rewrite lookup_delete_ne by congruence.
    + kred. apply lookup_delete_eq.
  - rewrite (proj2 (Z.eqb_neq (k_count r - 1) 0)) by lia.
    exists (put_req a r1 s). split; [done|]. split; [by apply put_keeps|]. split.
    + split; [|intros p; apply linked_put|done]. intros b Hb. kred. by rewrite lookup_insert_ne by congruence.
    + apply lookup_insert_eq.
Qed.

(** ** The end of a request *)
Definition end_fc (c : fuse_conn) r a : fuse_conn :=
  let c1 := if k_interrupted r
            then set_iq (set_interrupts (remove_addr a (interrupts (iq c))) (iq c)) c else c in
  if k_background r then
    set_active_background (u32 (active_background c - 1))
      (set_num_background (u32 (num_background c - 1))
        (if num_background c =? max_background c then set_blocked false c1 else c1))
  else c1.

(** The state when request [a] is marked as finished, before others are flushed. *)
Definition end_state s a r : kernel :=
  set_fc (end_fc (fc s) r a) (put_req a (set_k_background false (set_k_finished true r)) s).

Lemma set_background_id r : k_background r = false -> set_k_background false r = r.
Proof. destruct r. cbn. by intros ->. Qed.

Lemma set_fc_id s : set_fc (fc s) s = s.
Proof. by destruct s. Qed.

Lemma end_head s a r : kreqs s !! a = Some r -> k_finished r = false -> k_pending r = false ->
  k_sent r = false ->
  fuse_request_end a s =
    ((if k_background r then flush_bg_queue else mret tt);;
     (if k_async r then call_end a else mret tt);;
     fuse_put_request a) (end_state s a r).
Proof.
  intros Ha Hf Hp Hs. unfold fuse_request_end. rewrite (bind_Ok _ _ _ _ _ (kload_req_Ok _ _ _ Ha)), Hf.
  rewrite bind_assoc_eq, (bind_Ok _ _ _ _ _ (kupdate_req_Ok _ _ _ _ Ha)).
  set (r1 := set_k_finished true r). set (s1 := put_req a r1 s).
  set (c1 := if k_interrupted r
    then set_iq (set_interrupts (remove_addr a (interrupts (iq (fc s)))) (iq (fc s))) (fc s) else fc s).
  rewrite bind_assoc_eq, (bind_Ok _ _ _ tt (set_fc c1 s1)).
  2:{ unfold c1, intr_del. destruct (k_interrupted r); [done|]. by destruct s. }
  rewrite Hp, Hs. rewrite bind_assoc_eq, (bind_Ok (assertM _) _ _ tt (set_fc c1 s1)) by done.
  rewrite bind_assoc_eq, (bind_Ok (assertM _) _ _ tt (set_fc c1 s1)) by done.
  rewrite bind_assoc_eq. unfold end_state, end_fc. fold c1. fold r1. destruct (k_background r) eqn:Hb.
  - unfold end_background. rewrite bind_assoc_eq.
    rewrite (bind_Ok _ _ _ tt (put_req a (set_k_background false r1) (set_fc c1 s1)))
      by (apply kupdate_req_Ok; apply lookup_insert_eq).
    rewrite bind_assoc_eq, (bind_Ok _ _ _ _ _ (modify_fc_Ok _ _)).
    rewrite bind_assoc_eq, (bind_Ok _ _ _ _ _ (modify_fc_Ok _ _)).
    rewrite bind_assoc_eq, (bind_Ok _ _ _ _ _ (modify_fc_Ok _ _)).
    unfold put_req, s1. kred. rewrite insert_insert_eq.
    assert (Hn : num_background c1 = num_background (fc s)) by (unfold c1; by destruct (k_interrupted r)).
    assert (Hm : max_background c1 = max_background (fc s)) by (unfold c1; by destruct (k_interrupted r)).
    assert (Hc : active_background c1 = active_background (fc s)) by (unfold c1; by destruct (k_interrupted r)).
    rewrite Hn, Hm. destruct (num_background (fc s) =? max_background (fc s)); kred; by rewrite Hn, Hc.
  - rewrite set_background_id by done. done.
Qed.

Lemma intr_end_fc c r a b : b ∈ interrupts (iq (end_fc c r a)) <->
  b ∈ interrupts (iq c) /\ (k_interrupted r = true -> b <> a).
Proof.
  unfold end_fc. destruct (k_interrupted r), (k_background r), (num_background c =? max_background c);
    kred; rewrite ?remove_addr_in; naive_solver.
Qed.

Lemma end_fc_same c r a : let c' := end_fc c r a in
  pending (iq c') = pending (iq c) /\ bg_queue c' = bg_queue c /\ reqctr (iq c') = reqctr (iq c) /\
  num_waiting c' = num_waiting c /\ max_background c' = max_background c.
Proof.
  cbv zeta. unfold end_fc. by destruct (k_interrupted r), (k_background r), (num_background c =? max_background c).
Qed.

Lemma kinv_end_state fly s a r : kinv 0 (a :: fly) s -> kreqs s !! a = Some r ->
  k_place r = Nowhere -> k_finished r = false -> kinv a (a :: fly) (end_state s a r).
Proof.
  intros K Ha Hp Hf. pose proof (ki_req _ _ _ K a r Ha) as R.
  set (r' := set_k_background false (set_k_finished true r)).
  pose proof (end_fc_same (fc s) r a) as (Hpe & Hbq & Hct & Hnw & Hmx).
  assert (Hself : kreqs (end_state s a r) !! a = Some r') by apply lookup_insert_eq.
  assert (Hl : forall p, linked (end_state s a r) p = linked s p).
  { intros []; cbn; [done|by rewrite Hpe|by rewrite Hbq|done|done]. }
  assert (Hmem : forall b, b ∈ interrupts (iq (fc (end_state s a r))) <->
    b ∈ interrupts (iq (fc s)) /\ (k_interrupted r = true -> b <> a)) by apply intr_end_fc.
  assert (Hne : a ∉ (ended s).*1).
  { intros Hi. destruct (rk_not_end _ _ _ _ _ R Hi). congruence. }
  assert (Hn : 0 <= num_background (fc s) - Z.b2z (k_background r) < 2 ^ 32).
  { rewrite (ki_num _ _ _ K). pose proof (cnt_delete k_background (kreqs s) a) as Hd. rewrite Ha in Hd.
    cbn [wt] in Hd. pose proof (cnt_nonneg k_background (delete a (kreqs s))).
    pose proof (cnt_size k_background (kreqs s)). pose proof (ki_few _ _ _ K). unfold UINT_MAX in *.
    destruct (k_background r); cbn [Z.b2z] in *; lia. }
  assert (Hac : active r = k_background r).
  { unfold active, on_bg. rewrite Hp, bool_decide_eq_false_2 by done. apply andb_true_r. }
  assert (Hn2 : 0 <= active_background (fc s) - Z.b2z (k_background r) < 2 ^ 32).
  { rewrite <- Hac. rewrite (ki_active _ _ _ K). pose proof (cnt_delete active (kreqs s) a) as Hd. rewrite Ha in Hd.
    cbn [wt] in Hd. pose proof (cnt_nonneg active (delete a (kreqs s))).
    pose proof (cnt_size active (kreqs s)). pose proof (ki_few _ _ _ K). unfold UINT_MAX in *.
    destruct (active r); cbn [Z.b2z] in *; lia. }
  apply (kinv_change a 0 a (a :: fly) (a :: fly) s); try done.
  - intros b Hb. kred. unfold end_state. kred. by rewrite lookup_insert_ne by congruence.
  - intros b Hb. split; [intros p; by rewrite Hl|by intros [? _]%Hmem|done].
  - split; [pose proof (ki_objs _ _ _ K); unfold end_state; kred; lia|done|].
    unfold end_state. kred. rewrite Hct. split; [lia|apply (ki_even _ _ _ K)].
  - intros b Hb Hpos. split; [lia|by intros ->].
  - intros r1 Hr1. rewrite Hself in Hr1. injection Hr1 as <-. krok R. unfold r'.
    split; unfold waits, held, copies, numbered, on_bg in *; kred; rewrite ?Hp in *; try done.
    + intros p. rewrite Hl, Rlists. done.
    + rewrite Hmem. intros [Hi Hn']. destruct (Rintr Hi) as [? _]. by destruct (Hn' ltac:(done)).
    + rewrite bool_decide_eq_false_2 in * by done. unfold end_state. kred. by rewrite Hct.
  - by rewrite Hself.
  - intros p. rewrite Hl. apply (ki_nodup _ _ _ K).
  - unfold end_state, end_fc. pose proof (ki_intr_nodup _ _ _ K).
    destruct (k_interrupted r), (k_background r), (num_background (fc s) =? max_background (fc s));
      kred; try done; by apply remove_addr_nodup.
  - apply (ki_once _ _ _ K).
  - rewrite Hself, Ha. cbn [wt]. unfold r'. kred. unfold end_state, end_fc, u32. kred.
    destruct (k_background r), (k_interrupted r), (num_background (fc s) =? max_background (fc s)); kred;
      cbn [Z.b2z] in *; rewrite ?Z.mod_small by lia; lia.
  - rewrite Hself, Ha. cbn [wt]. rewrite Hac. unfold active, r'. kred. unfold end_state, end_fc, u32. kred.
    destruct (k_background r), (k_interrupted r), (num_background (fc s) =? max_background (fc s)); kred;
      cbn [andb Z.b2z] in *; rewrite ?Z.mod_small by lia; lia.
  - rewrite Hself, Ha. cbn [wt]. unfold end_state. kred. rewrite Hnw. unfold r'. kred. lia.
  - unfold end_state. kred. rewrite map_size_insert_Some by eauto. apply (ki_few _ _ _ K).
  - intros r1 b rb Hr1 Hn1 Hb Hrb Hnb Hu. rewrite Hself in Hr1. injection Hr1 as <-.
    apply Hb. apply (ki_unique _ _ _ K b a rb r Hrb Ha Hnb); [|exact Hu].
    unfold numbered, on_bg, r' in *. by kred.
  - unfold end_state. kred. rewrite Hct. rewrite lookup_insert_eq, Ha. cbn [wt]. unfold on_bg. kred. lia.
Qed.

(** What the end of a request, and a flush, leave alone. *)
Definition zero (c : fuse_conn) : fuse_conn :=
  set_no_interrupt false (set_num_background 0 (set_active_background 0 (set_num_waiting 0 (set_blocked false
    (set_iq (set_reqctr 0 (set_interrupts [] (iq c))) c))))).
Definition frozen s := core (set_ended [] (set_fc (zero (fc s)) s)).

Lemma core_ended s s' : core s' = core s -> core (set_ended [] s') = core (set_ended [] s).
Proof.
  unfold core. cbn. rewrite !pair_equal_spec. intros (((((H1 & H2) & H3) & H4) & H5) & H6). done.
Qed.

Lemma frozen_mod f s s' : (forall c, zero (f c) = zero c) ->
  core (set_fc (f (fc s')) s') = core (set_fc (f (fc s)) s) -> frozen s' = frozen s.
Proof.
  intros Hf H. pose proof (core_mod zero _ _ ltac:(done) H) as Hz.
  kred. unfold frozen. rewrite !Hf in Hz. by apply (core_ended _ _ Hz).
Qed.

Lemma frozen_core s s' : core s' = core s -> frozen s' = frozen s.
Proof. intros H. apply (frozen_mod (fun c => c)); [done|]. by rewrite !set_fc_id. Qed.

Record froze s s' : Prop := mk_froze {
  fz_conn : connected (iq (fc s')) = connected (iq (fc s));
  fz_head : forget_head (iq (fc s')) = forget_head (iq (fc s));
  fz_tail : forget_tail (iq (fc s')) = forget_tail (iq (fc s));
  fz_batch : forget_batch (iq (fc s')) = forget_batch (iq (fc s));
  fz_max : max_background (fc s') = max_background (fc s);
  fz_fcc : fc_connected (fc s') = fc_connected (fc s);
  fz_devices : devices (fc s') = devices (fc s);
  fz_count : dev_count (fc s') = dev_count (fc s);
  fz_devs : pq_connected <$> devs s' = pq_connected <$> devs s;
  fz_links : links s' = links s;
  fz_objs : kobjs s' = kobjs s;
  fz_oks : koks s' = koks s;
}.

Lemma frozen_froze s s' : frozen s' = frozen s -> froze s s'.
Proof.
  unfold frozen, core. rewrite !pair_equal_spec. intros (((((H1 & H2) & H3) & H4) & H5) & H6). kred.
  unfold zero in *. kred. injection H1 as ?????????????.
  by split.
Qed.

(** What the end of request [a] does to the others. *)
Record end_post s s' a : Prop := mk_end_post {
  ep_other : forall b rb, b <> a -> kreqs s !! b = Some rb -> k_place rb <> OnBg ->
    kreqs s' !! b = Some rb;
  ep_none : forall b, kreqs s !! b = None -> kreqs s' !! b = None;
  ep_bg : forall b, b <> a -> is_Some (kreqs s !! b) -> is_Some (kreqs s' !! b);
  ep_lists : forall p, p <> OnBg -> p <> OnPending -> linked s' p = linked s p;
  ep_queue : exists l, bg_queue (fc s) = l ++ bg_queue (fc s') /\
    pending (iq (fc s')) = pending (iq (fc s)) ++ l;
  ep_frozen : frozen s' = frozen s;
}.

Lemma end_post_refl s a : end_post s s a.
Proof. split; try done. exists []. by rewrite app_nil_r. Qed.

Lemma end_post_trans s s1 s2 a : end_post s s1 a -> end_post s1 s2 a -> end_post s s2 a.
Proof.
  intros [] []. split; [..|congruence].
  - intros b rb Hb Hrb Hp. apply ep_other1; [done| |done]. by apply ep_other0.
  - eauto.
  - eauto.
  - intros p H1 H2. by rewrite ep_lists1, ep_lists0.
  - destruct ep_queue0 as (l & H1 & H2), ep_queue1 as (l' & H3 & H4). exists (l ++ l').
    rewrite H1, H3, H4, H2. by rewrite !app_assoc.
Qed.

Lemma put_end_post s s' a : put_post s s' a -> (is_Some (kreqs s !! a)) -> end_post s s' a.
Proof.
  intros [] Ha. split.
  - intros b rb Hb Hrb _. by rewrite pp_other0.
  - intros b Hb. destruct (decide (b = a)) as [->|Hne]; [|by rewrite pp_other0].
    rewrite Hb in Ha. by destruct Ha.
  - intros b Hb. by rewrite pp_other0.
  - intros p _ _. apply pp_lists0.
  - exists []. rewrite app_nil_r. pose proof (pp_lists0 OnBg) as H1. pose proof (pp_lists0 OnPending) as H2.
    cbn in H1, H2. by rewrite H1, H2.
  - by apply (frozen_mod (set_num_waiting 0)).
Qed.

Lemma flushed_end_post e fly s s' l a : kinv e fly s -> flushed s s' l -> end_post s s' a.
Proof.
  intros K F.
  assert (Hin : forall b, b ∈ l -> exists rb, kreqs s !! b = Some rb /\ k_place rb = OnBg).
  { intros b Hb. assert (Hi : b ∈ linked s OnBg).
    { cbn. rewrite (fl_bg _ _ _ F). apply elem_of_app. by left. }
    destruct (ki_mem _ _ _ K _ _ Hi) as [rb Hrb]. exists rb. split; [done|].
    by destruct (proj1 (rk_lists _ _ _ _ _ (ki_req _ _ _ K b rb Hrb) OnBg) Hi). }
  destruct F. split.
  - intros b rb _ Hb Hp. rewrite fl_reqs0; [done|]. intros Hi. destruct (Hin b Hi) as (q & Hq & Hqp). congruence.
  - intros b Hb. rewrite fl_reqs0; [done|]. intros Hi. destruct (Hin b Hi) as (q & Hq & Hqp). congruence.
  - intros b _ Hb. destruct (decide (b ∈ l)) as [Hi|Hi]; [|by rewrite fl_reqs0].
    destruct (fl_moved0 b Hi) as (q & Hq & _). eauto.
  - done.
  - eauto.
  - by apply (frozen_mod (fun c => set_active_background 0 (set_iq (set_reqctr 0 (iq c)) c))).
Qed.

Definition ended_req r : kreq := set_k_background false (set_k_finished true r).
Definition blocked_ok s : Prop :=
  blocked (fc s) = (max_background (fc s) <=? num_background (fc s)).

Lemma ended_req_id r : k_finished r = true -> k_background r = false -> ended_req r = r.
Proof. destruct r. cbn. by intros -> ->. Qed.

Lemma kinv_end e fly s a r : kinv a (a :: fly) s -> kreqs s !! a = Some r -> k_finished r = true ->
  (k_async r = false -> e = ended s) -> (k_async r = true -> exists x, e = ended s ++ [(a, x)]) ->
  kinv 0 (a :: fly) (set_ended e s).
Proof.
  intros K Ha Hf Hno Hyes. pose proof (ki_req _ _ _ K a r Ha) as R.
  assert (Hne : a ∉ (ended s).*1) by (intros Hi; by destruct (rk_not_end _ _ _ _ _ R Hi)).
  assert (He : forall b, b ∈ e.*1 <-> b ∈ (ended s).*1 \/ b = a /\ k_async r = true).
  { intros b. destruct (k_async r).
    - destruct (Hyes eq_refl) as [x ->]. rewrite fmap_app, elem_of_app. cbn. rewrite list_elem_of_singleton. naive_solver.
    - rewrite (Hno eq_refl). naive_solver. }
  assert (Hl : forall p, linked (set_ended e s) p = linked s p) by by intros [].
  apply (kinv_change a a 0 (a :: fly) (a :: fly) s); try done.
  - intros b Hb. split; [intros p; by rewrite Hl|done|]. kred. rewrite He. naive_solver.
  - split; [kred; pose proof (ki_objs _ _ _ K); lia|done|]. kred. split; [lia|apply (ki_even _ _ _ K)].
  - intros b Hb Hpos. split; [by intros ->|lia].
  - intros r1 Hr1. kred. rewrite Ha in Hr1. injection Hr1 as <-. krok R.
    split; unfold waits, held, copies, numbered, on_bg in *; kred; try done.
    + intros _ Hs _. rewrite He. by right.
    + intros _. split; [done|lia].
  - kred. by rewrite Ha.
  - intros p. rewrite Hl. apply (ki_nodup _ _ _ K).
  - apply (ki_intr_nodup _ _ _ K).
  - intros _. kred. apply R.
  - kred. destruct (k_async r).
    + destruct (Hyes eq_refl) as [x ->]. rewrite fmap_app. apply NoDup_app. split; [apply (ki_once _ _ _ K)|].
      split; [|apply NoDup_singleton]. cbn. intros b Hb ->%list_elem_of_singleton. done.
    + rewrite (Hno eq_refl). apply (ki_once _ _ _ K).
  - kred. lia.
  - kred. lia.
  - kred. lia.
  - apply (ki_few _ _ _ K).
  - intros r1 b rb Hr1 Hn1 Hb Hrb Hnb Hu. kred. apply Hb. by apply (ki_unique _ _ _ K b a rb r1).
  - kred. lia.
Qed.

Record ends fly s s' a r : Prop := mk_ends {
  en_kinv : kinv 0 fly s';
  en_post : end_post s s' a;
  en_self : kreqs s' !! a =
    if k_count r =? 1 then None else Some (set_k_count (k_count r - 1) (ended_req r));
  en_ended : ended s' = ended s ++ (if negb (k_finished r) && k_async r then [(a, k_error r)] else []);
  en_blocked : blocked_ok s -> blocked_ok s';
}.

Lemma end_state_post s a r : kreqs s !! a = Some r -> end_post s (end_state s a r) a.
Proof.
  intros Ha. pose proof (end_fc_same (fc s) r a) as (Hpe & Hbq & _).
  split.
  - intros b rb Hb Hrb _. unfold end_state. kred. by rewrite lookup_insert_ne by congruence.
  - intros b Hb. unfold end_state. kred. rewrite lookup_insert_ne; [done|congruence].
  - intros b Hb. unfold end_state. kred. by rewrite lookup_insert_ne by congruence.
  - intros [] ? ?; cbn; done.
  - exists []. unfold end_state. kred. by rewrite Hpe, Hbq, app_nil_r.
  - assert (Hz : zero (end_fc (fc s) r a) = zero (fc s)).
    { unfold end_fc. by destruct (k_interrupted r), (k_background r), (num_background (fc s) =? max_background (fc s)). }
    unfold frozen, end_state, core. kred. by rewrite Hz.
Qed.

Lemma end_state_blocked fly s a r : kinv 0 (a :: fly) s -> kreqs s !! a = Some r ->
  blocked_ok s -> blocked_ok (end_state s a r).
Proof.
  intros K Ha. unfold blocked_ok, end_state, end_fc. kred.
  destruct (k_background r) eqn:Hb; [|by destruct (k_interrupted r)].
  assert (Hn : 1 <= num_background (fc s) < 2 ^ 32).
  { rewrite (ki_num _ _ _ K). pose proof (cnt_pos k_background _ _ _ Ha Hb).
    pose proof (cnt_size k_background (kreqs s)). pose proof (ki_few _ _ _ K). unfold UINT_MAX in *. lia. }
  unfold u32. rewrite (Z.mod_small (num_background (fc s) - 1)) by lia.
  intros Hbl. case (Z.eqb_spec (num_background (fc s)) (max_background (fc s))) as [He|Hne];
    destruct (k_interrupted r); kred; rewrite ?Hbl; zcases; try done; lia.
Qed.

Lemma call_end_Ok s a r : kreqs s !! a = Some r ->
  call_end a s = Ok (tt, set_ended (ended s ++ [(a, k_error r)]) s).
Proof. intros Ha. unfold call_end. by rewrite (bind_Ok _ _ _ _ _ (kload_req_Ok _ _ _ Ha)). Qed.

Lemma ended_post s e a : end_post s (set_ended e s) a.
Proof. split; try done. exists []. by rewrite app_nil_r. Qed.

(** A flush, or nothing, in the course of [fuse_request_end]. *)
Lemma flush_if fly s a (b : bool) : kinv a (a :: fly) s ->
  runs (if b then flush_bg_queue else mret tt) s (fun _ s' =>
    kinv a (a :: fly) s' /\ end_post s s' a /\ ended s' = ended s /\
    (blocked_ok s -> blocked_ok s') /\
    (forall r, kreqs s !! a = Some r -> k_place r <> OnBg -> kreqs s' !! a = Some r)).
Proof.
  intros K. destruct b; [|apply runs_ret; split; [done|split; [apply end_post_refl|done]]].
  eapply runs_mono; [by apply flush_bg_queue_runs|]. intros _ s' [l [K' F _ _ _]].
  split; [done|]. split; [by apply (flushed_end_post a (a :: fly) _ _ l)|]. pose proof (fl_core _ _ _ F) as Hc. kcore Hc.
  split; [done|]. split; [unfold blocked_ok; congruence|].
  intros r Ha Hp. rewrite (fl_reqs _ _ _ F); [done|]. intros Hi.
  assert (Hb : a ∈ linked s OnBg) by (cbn; rewrite (fl_bg _ _ _ F); apply elem_of_app; by left).
  apply (rk_lists _ _ _ _ _ (ki_req _ _ _ K a r Ha)) in Hb as [Hb _]. congruence.
Qed.

Lemma request_end_runs fly s a r : kinv 0 (a :: fly) s -> kreqs s !! a = Some r ->
  k_place r = Nowhere -> k_sent r = false ->
  runs (fuse_request_end a) s (fun _ s' => ends fly s s' a r).
Proof.
  intros K Ha Hp Hs. pose proof (ki_req _ _ _ K a r Ha) as R.
  destruct (k_finished r) eqn:Hf.
  - assert (Hid : ended_req r = r) by (apply ended_req_id; [done|by apply R]).
    unfold fuse_request_end. eapply runs_Ok_bind; [by apply kload_req_Ok|]. rewrite Hf.
    apply runs_ret_bind. destruct (put_runs 0 fly s a r K Ha) as (s' & Hr & K' & Hpp & Hself); [done|].
    exists tt, s'. split; [done|]. pose proof (pp_core _ _ _ Hpp) as Hc. kcore Hc. split; [done| | | |].
    + apply put_end_post; [done|by eauto].
    + by rewrite Hid.
    + by rewrite Hf, app_nil_r.
    + unfold blocked_ok. congruence.
  - assert (Hpe : k_pending r = false).
    { destruct (k_pending r) eqn:E; [|done]. pose proof (rk_pending _ _ _ _ _ R E) as H. by rewrite Hp in H. }
    unfold runs. rewrite (end_head s a r Ha Hf Hpe Hs). fold (ended_req r).
    pose proof (kinv_end_state fly s a r K Ha Hp Hf) as K1.
    pose proof (end_state_post s a r Ha) as P1. pose proof (end_state_blocked fly s a r K Ha) as B1.
    assert (Ha1 : kreqs (end_state s a r) !! a = Some (ended_req r)) by apply lookup_insert_eq.
    assert (He1 : ended (end_state s a r) = ended s) by done.
    set (s1 := end_state s a r) in *. clearbody s1.
    change (runs ((if k_background r then flush_bg_queue else mret tt);;
      (if k_async r then call_end a else mret tt);; fuse_put_request a) s1
      (fun _ s' => ends fly s s' a r)).
    eapply runs_bind; [apply (flush_if fly s1 a _ K1)|]. intros _ s2 (K2 & P2 & He2 & B2 & Ha2).
    specialize (Ha2 _ Ha1 ltac:(cbn; congruence)).
    set (e3 := ended s ++ (if k_async r then [(a, k_error r)] else [])).
    apply (runs_bind _ _ _ (fun _ s3 => s3 = set_ended e3 s2)).
    { exists tt. unfold e3. destruct (k_async r) eqn:Has.
      - rewrite (call_end_Ok _ _ _ Ha2). eexists. split; [done|]. rewrite He2, He1. done.
      - exists s2. split; [done|]. rewrite app_nil_r, <- He1, <- He2. by destruct s2. }
    intros _ s3 ->.
    assert (K3 : kinv 0 (a :: fly) (set_ended e3 s2)).
    { apply (kinv_end _ _ _ _ (ended_req r)); [done..| |]; cbn; unfold e3; intros ->.
      - rewrite app_nil_r. congruence.
      - exists (k_error r). congruence. }
    destruct (put_runs 0 fly (set_ended e3 s2) a (ended_req r) K3) as (s' & Hr & K' & Hpp & Hself); [done|done|].
    exists tt, s'. split; [done|]. pose proof (pp_core _ _ _ Hpp) as Hc. kcore Hc. split; [done| | | |].
    + apply (end_post_trans _ _ _ _ P1), (end_post_trans _ _ _ _ P2), (end_post_trans _ _ _ _ (ended_post s2 e3 a)).
      apply put_end_post; [done|by eauto].
    + done.
    + rewrite Eend, Hf. by unfold e3; destruct (k_async r).
    + unfold blocked_ok in *. rewrite Emax, Enum, Eblk. kred. auto.
Qed.
