(* ===== verification/KMoves.v ===== *)
(** * Reads, writes and the end of the connection keep the invariant *)
From S2P Require Import Prelude KTypes KForget KForgetFacts KQueue KInv KSteps.
#[local] Open Scope Z_scope.

#[local] Abbreviation L := (M kernel).
Implicit Types (s : kernel) (m : gmap Z kreq) (a b d : Z) (r : kreq) (fly : list Z).

Lemma kinv_perm e fly fly' s : fly ≡ₚ fly' -> kinv e fly s -> kinv e fly' s.
Proof.
  intros Hp K. split; try apply K.
  - intros a r Ha. apply (rok_agree s s e e fly fly'); [by apply K|done| |by rewrite (count_perm a fly fly')|done].
    split; [pose proof (ki_objs _ _ _ K); lia|done|]. split; [lia|apply (ki_even _ _ _ K)].
  - intros a Ha. apply (ki_fly _ _ _ K). by rewrite Hp.
Qed.

(** What the end of the requests [l] does to the others. *)
Record quiet s s' (l : list Z) : Prop := mk_quiet {
  qt_other : forall b rb, b ∉ l -> kreqs s !! b = Some rb -> k_place rb <> OnBg ->
    kreqs s' !! b = Some rb;
  qt_none : forall b, kreqs s !! b = None -> kreqs s' !! b = None;
  qt_some : forall b, b ∉ l -> is_Some (kreqs s !! b) -> is_Some (kreqs s' !! b);
  qt_lists : forall p, p <> OnBg -> p <> OnPending -> linked s' p = linked s p;
  qt_queue : exists q, bg_queue (fc s) = q ++ bg_queue (fc s') /\
    pending (iq (fc s')) = pending (iq (fc s)) ++ q;
  qt_frozen : frozen s' = frozen s;
}.

Lemma quiet_refl s l : quiet s s l.
Proof. split; try done. exists []. by rewrite app_nil_r. Qed.

Lemma end_quiet s s' a l : end_post s s' a -> a ∈ l -> quiet s s' l.
Proof.
  intros [] Ha. split; try done.
  - intros b rb Hb. apply ep_other. by intros ->.
  - intros b Hb. apply ep_bg. by intros ->.
Qed.

Lemma quiet_trans s s1 s2 l : quiet s s1 l -> quiet s1 s2 l -> quiet s s2 l.
Proof.
  intros [] []. split; [..|congruence].
  - intros b rb Hb Hrb Hp. apply qt_other1; [done| |done]. by apply qt_other0.
  - eauto.
  - eauto.
  - intros p H1 H2. by rewrite qt_lists1, qt_lists0.
  - destruct qt_queue0 as (l0 & H1 & H2), qt_queue1 as (l' & H3 & H4). exists (l0 ++ l').
    rewrite H1, H3, H4, H2. by rewrite !app_assoc.
Qed.

Lemma quiet_mono s s' l l' : quiet s s' l -> (forall b, b ∈ l -> b ∈ l') -> quiet s s' l'.
Proof. intros [] H. split; eauto. Qed.

(** The lists and everything but request [a] are the same. *)
Lemma turned_quiet s s' a r r' g : turned s s' a r' g -> kreqs s !! a = Some r ->
  (forall p, g p = linked s p) -> quiet s s' [a].
Proof.
  intros T Ha Hg. split.
  - intros b rb Hb Hrb _. rewrite (turned_other _ _ _ _ _ _ T); [done|]. intros ->. apply Hb. by left.
  - intros b Hb. rewrite (turned_other _ _ _ _ _ _ T); [done|]. congruence.
  - intros b Hb. rewrite (turned_other _ _ _ _ _ _ T); [done|]. intros ->. apply Hb. by left.
  - intros p _ _. rewrite (tn_lists _ _ _ _ _ T). apply Hg.
  - exists []. rewrite app_nil_r. pose proof (tn_lists _ _ _ _ _ T OnBg) as H1.
    pose proof (tn_lists _ _ _ _ _ T OnPending) as H2. rewrite Hg in H1, H2. by split; symmetry.
  - apply frozen_core, T.
Qed.

Lemma frozen_blocked s s' : core s' = core s -> blocked_ok s -> blocked_ok s'.
Proof. intros H. kcore H. unfold blocked_ok. congruence. Qed.

Lemma abort_request_runs fly s a r : kinv 0 (a :: fly) s -> kreqs s !! a = Some r ->
  k_place r = Nowhere ->
  runs (abort_request a) s (fun _ s' => kinv 0 fly s' /\ quiet s s' [a] /\ (blocked_ok s -> blocked_ok s')).
Proof.
  intros K Ha Hp. set (r1 := set_k_error (- ECONNABORTED) r). set (r2 := set_k_sent false r1).
  set (r' := set_k_place Nowhere r2). unfold abort_request.
  eapply runs_Ok_bind; [by apply kupdate_req_Ok|]. fold r1.
  eapply runs_Ok_bind; [apply kupdate_req_Ok, lookup_insert_eq|]. fold r2.
  assert (Hno : forall p, a ∉ linked s p).
  { intros p Hi. apply (rk_lists _ _ _ _ _ (ki_req _ _ _ K a r Ha)) in Hi as [-> Hi]. congruence. }
  destruct (klist_del_runs (put_req a r2 (put_req a r1 s)) a r2) as (s1 & Hr & T); [apply lookup_insert_eq| |].
  { intros p. rewrite !linked_put. split; [by intros ?%Hno|]. unfold r2, r1. kred. rewrite Hp. by intros [-> ?]. }
  eapply runs_Ok_bind; [exact Hr|]. fold r' in T.
  assert (T' : turned s s1 a r' (linked s)).
  { apply (turned_trans _ _ _ _ _ _ _ _ (put_turned s a r1)).
    apply (turned_trans _ _ _ _ _ _ _ _ (put_turned _ a r2)).
    destruct T as [H1 H2 H3]. split; [done..|]. intros p. rewrite H3, !linked_put. by apply remove_addr_id. }
  assert (K1 : kinv 0 (a :: fly) s1).
  { apply (kinv_turned 0 (a :: fly) (a :: fly) s _ a r r' (linked s)); try done.
    - apply (ki_nodup _ _ _ K).
    - apply (rok_core s); [apply T'|apply T'| |apply (ki_objs _ _ _ K)|apply (ki_even _ _ _ K)].
      apply (calm_rok _ _ _ _ r); [|by apply (ki_req _ _ _ K)]. unfold r', r2, r1. by split.
    - unfold on_bg, r'. kred. by rewrite Hp.
    - unfold numbered, on_bg, r', r2, r1. kred. by rewrite Hp. }
  eapply runs_mono; [by apply (request_end_runs fly s1 a r' K1 (turned_self _ _ _ _ _ T'))|].
  intros _ s2 [K2 P2 _ _ B2]. split; [done|]. split.
  - apply (quiet_trans _ s1); [by apply (turned_quiet _ _ _ r r' _ T')|].
    apply (end_quiet _ _ a); [done|by left].
  - intros B. by apply B2, (frozen_blocked s); [apply T'|].
Qed.

Lemma end_requests_runs l : forall fly s, kinv 0 (l ++ fly) s -> NoDup l ->
  (forall a, a ∈ l -> exists r, kreqs s !! a = Some r /\ k_place r = Nowhere) ->
  runs (end_requests l) s (fun _ s' => kinv 0 fly s' /\ quiet s s' l /\ (blocked_ok s -> blocked_ok s')).
Proof.
  induction l as [|a l IH]; intros fly s K Hnd Hl; cbn [end_requests].
  { apply runs_ret. split; [done|]. split; [apply quiet_refl|done]. }
  apply NoDup_cons in Hnd as [Hal Hnd]. destruct (Hl a) as (r & Ha & Hp); [by left|].
  eapply runs_bind; [by apply (abort_request_runs (l ++ fly) s a r)|]. intros _ s1 (K1 & Q1 & B1).
  eapply runs_mono; [apply (IH fly s1 K1 Hnd)|].
  - intros b Hb. destruct (Hl b) as (rb & Hrb & Hpb); [by right|]. exists rb. split; [|done].
    apply (qt_other _ _ _ Q1); [|done|congruence]. intros ->%list_elem_of_singleton. done.
  - intros _ s2 (K2 & Q2 & B2). split; [done|]. split; [|auto].
    apply (quiet_trans _ s1); [apply (quiet_mono _ _ [a])|apply (quiet_mono _ _ l)]; try done.
    + intros b ->%list_elem_of_singleton. by left.
    + intros b Hb. by right.
Qed.

(** ** Moving a request *)
(** The lists [g] are those of [s] but for request [a], which is at [p]. *)
Record relisted s a (p : place) (g : place -> list Z) : Prop := mk_relisted {
  rl_other : forall p' b, b <> a -> b ∈ g p' <-> b ∈ linked s p';
  rl_self : forall p', a ∈ g p' <-> p' = p /\ p' <> Nowhere;
  rl_nodup : forall p', NoDup (g p');
}.

Lemma same_relisted s a p : (forall p, NoDup (linked s p)) ->
  (forall p', a ∈ linked s p' <-> p' = p /\ p' <> Nowhere) -> relisted s a p (linked s).
Proof. by split. Qed.

Lemma del_relisted s a : (forall p, NoDup (linked s p)) ->
  relisted s a Nowhere (fun p => remove_addr a (linked s p)).
Proof.
  intros Hnd. split.
  - intros p b Hb. rewrite remove_addr_in. naive_solver.
  - intros p. rewrite remove_addr_in. naive_solver.
  - intros p. by apply remove_addr_nodup.
Qed.

Lemma add_relisted s a p g : p <> Nowhere -> relisted s a Nowhere g ->
  relisted s a p (fun p' => if decide (p' = p) then a :: g p else g p').
Proof.
  intros Hp [Ho Hs Hn]. assert (Hno : forall p', a ∉ g p') by (intros p' Hi; apply Hs in Hi; naive_solver).
  split.
  - intros p' b Hb. case_decide as E; [subst; rewrite elem_of_cons|]; rewrite Ho by done; naive_solver.
  - intros p'. case_decide as E; [subst; rewrite elem_of_cons; naive_solver|].
    split; [by intros ?%Hno|naive_solver].
  - intros p'. case_decide; [|done]. by apply NoDup_cons.
Qed.

Lemma add_tail_relisted s a p g : p <> Nowhere -> relisted s a Nowhere g ->
  relisted s a p (fun p' => if decide (p' = p) then g p ++ [a] else g p').
Proof.
  intros Hp [Ho Hs Hn]. assert (Hno : forall p', a ∉ g p') by (intros p' Hi; apply Hs in Hi; naive_solver).
  split.
  - intros p' b Hb. case_decide as E; [subst; rewrite elem_of_app, list_elem_of_singleton|]; rewrite Ho by done; naive_solver.
  - intros p'. case_decide as E; [subst; rewrite elem_of_app, list_elem_of_singleton; naive_solver|].
    split; [by intros ?%Hno|naive_solver].
  - intros p'. case_decide; [|done]. apply NoDup_app. split; [done|]. split; [|apply NoDup_singleton].
    intros b Hb ->%list_elem_of_singleton. by destruct (Hno p).
Qed.

Lemma turned_ext s s' a r g g' : turned s s' a r g -> (forall p, g p = g' p) -> turned s s' a r g'.
Proof. intros [] Hg. split; try done. intros p. rewrite <- Hg. done. Qed.

Lemma relisted_ext s a p g g' : relisted s a p g -> (forall p, g p = g' p) -> relisted s a p g'.
Proof. intros [H1 H2 H3] Hg. split; intros p'; rewrite <- Hg; auto. Qed.

Lemma kinv_relisted e fly fly' s s' a r r' g : kinv e fly s -> kreqs s !! a = Some r ->
  turned s s' a r' g -> relisted s a (k_place r') g ->
  (forall b, b <> a -> count_occ Z.eq_dec fly' b = count_occ Z.eq_dec fly b) ->
  (rok s e fly a r -> rok s' e fly' a r') ->
  k_background r' = k_background r -> k_waiting r' = k_waiting r ->
  on_bg r' = on_bg r ->
  (numbered r' = true -> numbered r = true /\ k_unique r' = k_unique r) ->
  kinv e fly' s'.
Proof.
  intros K Ha T [Ho Hs Hn] Hocc Hr. intros.
  eapply (kinv_turned e fly fly' s s' a r r' g); try done. by apply Hr, K.
Qed.

(** The parts of [rok] that follow from a move as such. *)
Lemma rok_lists_turned s s' a r g : turned s s' a r g -> relisted s a (k_place r) g ->
  forall p, a ∈ linked s' p <-> p = k_place r /\ p <> Nowhere.
Proof. intros T R p. rewrite (tn_lists _ _ _ _ _ T). apply R. Qed.

Lemma on_bg_false r : k_place r <> OnBg -> on_bg r = false.
Proof. intros. unfold on_bg. by apply bool_decide_eq_false_2. Qed.

(** Request [a], which nobody copies, is taken off its list: its reference is the
    running thread's. *)
Lemma kinv_taken e fly s s' a r r' g : kinv e fly s -> kreqs s !! a = Some r ->
  k_place r <> Nowhere -> k_place r <> OnBg -> k_copier r = NoCopier ->
  k_pending r' = false -> calm (set_k_place Nowhere r) r' ->
  turned s s' a r' g -> relisted s a Nowhere g -> kinv e (a :: fly) s'.
Proof.
  intros K Ha Hp Hb Hc Hpe [] T Hl. kred. pose proof (tn_core _ _ _ _ _ T) as Hcore. kcore Hcore.
  assert (Hpl : k_place r' = Nowhere) by done.
  assert (Hon : on_bg r' = on_bg r) by (rewrite !on_bg_false by congruence; done).
  apply (kinv_relisted e fly (a :: fly) s s' a r r' g); try done.
  - by rewrite Hpl.
  - intros b Hne. by rewrite count_cons, decide_False.
  - intros R. pose proof (rok_lists_turned s s' a r' g T) as HL. rewrite Hpl in HL. specialize (HL Hl).
    krok R. split; unfold waits, held, copies, numbered in *; rewrite ?Hon, ?Hpl, ?Eobjs, ?Eintr, ?Eend, ?Ectr, ?ca_waiter, ?ca_copier, ?ca_count, ?ca_finished, ?ca_private, ?ca_background, ?ca_unique, ?ca_isreply, ?ca_async in *; try done.
    + rewrite count_cons, (decide_True (P := a = a)) by done. rewrite Hc in *.
      rewrite (decide_True (P := Nowhere = Nowhere /\ _)) by done.
      rewrite (decide_False (P := k_place r = Nowhere /\ _)) in Rcount by (by intros []). lia.
    + intros _ Hn. destruct Hn. by left.
    + congruence.
    + intros _. right. split; [done|by left].
    + intros d [Hd|Hd]; congruence.
    + auto.
    + intros Hk. destruct (Rlock (ca_locked Hk)) as [d Hd]. destruct (Rio d Hd); congruence.
    + auto.
    + intros Hi. destruct (Rintr Hi) as (? & ? & ?). auto.
  - unfold numbered. by rewrite Hon, ca_isreply, ca_unique.
Qed.

Definition copier_on (c : copier) d : Prop := c = Reader d \/ c = Writer d.

(** The running thread puts request [a] on the list [io] of [d] and copies it. *)
Lemma kinv_copying e fly s s' a r r' d g : kinv e (a :: fly) s -> kreqs s !! a = Some r ->
  k_place r = Nowhere -> k_copier r = NoCopier -> k_finished r = false -> a ∉ fly ->
  k_private r = false -> k_sent r' = false -> k_pending r = false -> copier_on (k_copier r') d ->
  calm (set_k_copier (k_copier r') (set_k_place (OnIo d) r)) (set_k_locked false r') ->
  turned s s' a r' g -> relisted s a (OnIo d) g -> kinv e fly s'.
Proof.
  intros K Ha Hp Hc Hf Hn Hpr Hs Hpe Hcd [] T Hl. kred. pose proof (tn_core _ _ _ _ _ T) as Hcore. kcore Hcore.
  assert (Hon : on_bg r' = on_bg r) by (rewrite !on_bg_false by congruence; done).
  apply (kinv_relisted e (a :: fly) fly s s' a r r' g); try done.
  - by rewrite ca_place.
  - intros b Hne. by rewrite count_cons, decide_False.
  - intros R. pose proof (rok_lists_turned s s' a r' g T) as HL. rewrite ca_place in HL. specialize (HL Hl).
    krok R. split; unfold waits, held, copies, numbered in *; rewrite ?Hon, ?ca_place, ?Hp, ?Eobjs, ?Eintr, ?Eend, ?Ectr, ?ca_waiter, ?ca_count, ?ca_finished, ?ca_private, ?ca_background, ?ca_unique, ?ca_isreply, ?ca_async in *; try done.
    + rewrite count_cons, (decide_True (P := a = a)) in Rcount by done. rewrite Hc in *.
      rewrite (decide_True (P := Nowhere = Nowhere /\ _)) in Rcount by done.
      rewrite (decide_False (P := OnIo d = Nowhere /\ _)) by (by intros []). lia.
    + intros Hx. rewrite ca_pending in Hpe by done. done.
    + intros Hx. congruence.
    + intros d' [= ->]. exact Hcd.
    + intros d' Hd'. left. split; [|done]. destruct Hcd, Hd'; congruence.
    + intros Hx. congruence.
    + intros Hx. congruence.
    + intros _. by exists d.
    + auto.
    + intros Hi. destruct (Rintr Hi) as (? & ? & ?). auto.
  - unfold numbered. by rewrite Hon, ca_isreply, ca_unique.
Qed.

(** The copy of request [a] is over, and its reference is the running thread's. *)
Lemma kinv_copied e fly s s' a r r' d g : kinv e fly s -> kreqs s !! a = Some r ->
  copies r d -> a ∉ fly -> calm (set_k_copier NoCopier (set_k_place Nowhere r)) r' ->
  k_locked r' = false ->
  turned s s' a r' g -> relisted s a Nowhere g -> kinv e (a :: fly) s'.
Proof.
  intros K Ha Hcd Hn [] Hlk T Hl. kred. pose proof (tn_core _ _ _ _ _ T) as Hcore. kcore Hcore.
  pose proof (ki_req _ _ _ K a r Ha) as R.
  assert (Hpl : k_place r <> OnBg).
  { destruct (rk_copier _ _ _ _ _ R d Hcd) as [[]|[]]; congruence. }
  assert (Hon : on_bg r' = on_bg r) by (rewrite !on_bg_false by congruence; done).
  apply (kinv_relisted e fly (a :: fly) s s' a r r' g); try done.
  - by rewrite ca_place.
  - intros b Hne. by rewrite count_cons, decide_False.
  - intros _. pose proof (rok_lists_turned s s' a r' g T) as HL. rewrite ca_place in HL. specialize (HL Hl).
    assert (Hcn : k_copier r <> NoCopier) by (destruct Hcd; congruence).
    krok R. split; unfold waits, held, copies, numbered in *; rewrite ?Hon, ?ca_place, ?ca_copier, ?Eobjs, ?Eintr, ?Eend, ?Ectr, ?ca_waiter, ?ca_count, ?ca_finished, ?ca_private, ?ca_background, ?ca_unique, ?ca_isreply, ?ca_async in *; try done.
    + rewrite count_cons, (decide_True (P := a = a)) by done.
      rewrite (decide_True (P := Nowhere = Nowhere /\ _)) by done.
      rewrite (decide_False (P := k_place r = Nowhere /\ _)) in Rcount by naive_solver. lia.
    + intros _ Hx. destruct Hx. by left.
    + intros Hx. exfalso. apply ca_pending in Hx. apply Rpend in Hx.
      destruct (Rcop d Hcd) as [[Hq _]|[Hq _]]; by rewrite Hq in Hx.
    + intros _. right. split; [done|by left].
    + intros d' [Hx|Hx]; done.
    + auto.
    + intros Hx. congruence.
    + auto.
    + intros Hi. destruct (Rintr Hi) as (? & ? & ?). auto.
  - unfold numbered. by rewrite Hon, ca_isreply, ca_unique.
Qed.

(** ** Changes that no request sees *)
Record inert s s' : Prop := mk_inert {
  in_reqs : kreqs s' = kreqs s;
  in_lists : forall p, linked s' p = linked s p;
  in_intr : interrupts (iq (fc s')) = interrupts (iq (fc s)) \/
    exists a, interrupts (iq (fc s')) = remove_addr a (interrupts (iq (fc s)));
  in_ended : ended s' = ended s;
  in_num : num_background (fc s') = num_background (fc s);
  in_active : active_background (fc s') = active_background (fc s);
  in_wait : num_waiting (fc s') = num_waiting (fc s);
  in_offline : forall d, offline s d -> offline s' d;
  in_objs : kobjs s <= kobjs s' < 2 ^ 62;
  in_even : reqctr (iq (fc s)) <= reqctr (iq (fc s')) /\ Z.even (reqctr (iq (fc s'))) = true;
  in_ctr : reqctr (iq (fc s')) - reqctr (iq (fc s)) +
    2 * (Z.of_nat (size (links s')) - Z.of_nat (size (links s))) <= 2 * (kobjs s' - kobjs s);
}.

Lemma kinv_inert e fly s s' : kinv e fly s -> inert s s' -> kinv e fly s'.
Proof.
  intros K [].
  assert (Hi : NoDup (interrupts (iq (fc s'))) /\
    forall a, a ∈ interrupts (iq (fc s')) -> a ∈ interrupts (iq (fc s))).
  { pose proof (ki_intr_nodup _ _ _ K). destruct in_intr0 as [->|[b ->]]; [done|].
    split; [by apply remove_addr_nodup|]. by intros a [_ ?]%remove_addr_in. }
  assert (Hag : forall a, agree s s' a).
  { intros a. split; [intros p; by rewrite in_lists0|apply Hi|by rewrite in_ended0]. }
  split; rewrite ?in_reqs0, ?in_ended0, ?in_num0, ?in_active0, ?in_wait0; try apply K.
  - intros a r Ha. apply (rok_agree s s' e e fly fly); [by apply K|done|by split|done|done].
  - intros p a. rewrite in_lists0. apply (ki_mem _ _ _ K).
  - intros p. rewrite in_lists0. apply (ki_nodup _ _ _ K).
  - intros a Ha. by apply (ki_intr _ _ _ K), Hi.
  - apply Hi.
  - intros a Ha. pose proof (ki_ended _ _ _ K a Ha). lia.
  - pose proof (ki_even _ _ _ K). split; [lia|tauto].
  - pose proof (ki_ctr _ _ _ K). lia.
  - pose proof (ki_objs _ _ _ K). lia.
Qed.

Lemma queue_interrupt_runs e fly s a r : kinv e fly s -> kreqs s !! a = Some r ->
  queued (k_place r) = false -> exists n s',
  queue_interrupt a s = Ok (n, s') /\ kinv e fly s' /\ kreqs s' = kreqs s /\
  (forall p, linked s' p = linked s p) /\ frozen s' = frozen s /\ (blocked_ok s -> blocked_ok s') /\
  ended s' = ended s /\ reqctr (iq (fc s')) = reqctr (iq (fc s)).
Proof.
  intros K Ha Hpl. unfold queue_interrupt. rewrite (bind_Ok _ _ _ _ _ (kload_req_Ok _ _ _ Ha)).
  destruct (k_interrupted r) eqn:Hi; cbn [negb]; [|by eauto 10].
  rewrite (bind_Ok _ _ _ _ _ (get_iq_Ok _)). case_bool_decide as Hin; [by eauto 10|].
  rewrite (bind_Ok _ _ _ _ _ (modify_iq_Ok _ _)).
  destruct (k_finished r) eqn:Hf.
  - unfold intr_del. rewrite (bind_Ok _ _ _ _ _ (modify_iq_Ok _ _)). kred.
    assert (Hrm : remove_addr a (interrupts (iq (fc s)) ++ [a]) = interrupts (iq (fc s))).
    { unfold remove_addr. rewrite filter_app. fold (remove_addr a (interrupts (iq (fc s)))).
      rewrite remove_addr_id by done. rewrite filter_cons_False by (intros H; by apply H).
      by rewrite filter_nil, app_nil_r. }
    rewrite Hrm. exists 0, s. replace (set_fc _ _) with s; [by auto 10|].
    destruct s as [[[] ] ]. done.
  - rewrite (bind_Ok (mret tt) _ _ tt _ eq_refl). eexists 0, _. split; [done|].
    set (s' := set_fc _ _). split; [|split; [done|split; [by intros []|done]]].
    apply (kinv_change a e e fly fly s s'); try done.
    + intros b Hb. split; [by intros []|unfold s'; kred|done].
      rewrite elem_of_app, list_elem_of_singleton. naive_solver.
    + split; [pose proof (ki_objs _ _ _ K); unfold s'; kred; lia|done|].
      unfold s'. kred. split; [lia|apply (ki_even _ _ _ K)].
    + intros r1 Hr1. unfold s' in Hr1. kred. rewrite Ha in Hr1. injection Hr1 as <-.
      destruct (ki_req _ _ _ K a r Ha). by split.
    + unfold s'. kred. by rewrite Ha.
    + intros p. replace (linked s' p) with (linked s p) by (by destruct p). apply (ki_nodup _ _ _ K).
    + unfold s'. kred. apply NoDup_app. split; [apply (ki_intr_nodup _ _ _ K)|].
      split; [|apply NoDup_singleton]. by intros b Hb ->%list_elem_of_singleton.
    + apply (ki_ended _ _ _ K).
    + apply (ki_once _ _ _ K).
    + unfold s'. kred. lia.
    + unfold s'. kred. lia.
    + unfold s'. kred. lia.
    + apply (ki_few _ _ _ K).
    + intros r1 b rb Hr1 Hn1 Hb Hrb Hnb Hu. apply Hb. by apply (ki_unique _ _ _ K b a rb r1).
    + unfold s'. kred. lia.
Qed.

(** ** Reading *)
Lemma links_read s s' l k x : forgets s l -> forgets_read s s' l k x -> (k <= length l)%nat ->
  (size (links s') + k <= size (links s))%nat.
Proof.
  intros [Hc Hnd _] [[Hc' _ _] Hfr Hkept _ _ _] Hk.
  set (t := list_to_set (C := gset Z) (take k l).*1).
  assert (Hnt : NoDup (take k l).*1).
  { rewrite fmap_take. rewrite <- (take_drop k l.*1) in Hnd. by apply NoDup_app in Hnd as (? & _). }
  assert (Hst : size t = k).
  { unfold t. rewrite size_list_to_set by done. rewrite length_fmap, length_take. by apply Nat.min_l. }
  rewrite <- !size_dom. rewrite <- Hst. rewrite <- size_union.
  - apply subseteq_size. intros a [Ha|Ha]%elem_of_union.
    + apply elem_of_dom in Ha as [y Hy]. apply elem_of_dom.
      destruct (decide (a ∈ l.*1)) as [Hal|Hal]; [by apply (chain_mem _ _ _ _ Hc)|].
      assert (Hat : a ∉ (take k l).*1).
      { rewrite fmap_take. intros Hi. apply Hal. rewrite <- (take_drop k l.*1). apply elem_of_app. by left. }
      rewrite <- Hkept by done. eauto.
    + apply elem_of_list_to_set in Ha. rewrite fmap_take in Ha. apply elem_of_dom.
      apply (chain_mem _ _ _ _ Hc). rewrite <- (take_drop k l.*1). apply elem_of_app. by left.
  - intros a Ha Hat%elem_of_list_to_set. apply elem_of_dom in Ha as [y Hy]. by rewrite Hfr in Hy.
Qed.

(** Only the forgets and the counter of unique ids have changed. *)
Lemma inert_forgets s s' : kinv 0 [] s -> same_but_forgets s s' ->
  reqctr (iq (fc s')) = next_unique s -> (size (links s') < size (links s))%nat -> inert s s'.
Proof.
  intros K (H1 & H2 & H3 & H4 & H5 & hd & tl & ctr & Hf) Hc Hs.
  pose proof (ki_ctr _ _ _ K). pose proof (cnt_nonneg on_bg (kreqs s)). pose proof (ki_objs _ _ _ K).
  pose proof (ki_even _ _ _ K) as [Hpos Hev].
  assert (Hn : next_unique s = reqctr (iq (fc s)) + 2).
  { unfold next_unique, u64, FUSE_REQ_ID_STEP. apply Z.mod_small. lia. }
  rewrite Hn in Hc. split; try (by rewrite Hf); try (left; by rewrite Hf); try done.
  - intros p. destruct p; cbn; unfold dev_list; by rewrite ?Hf, ?H2.
  - intros d. unfold offline. by rewrite H2.
  - lia.
  - rewrite Hc. split; [lia|]. by apply even_step.
  - lia.
Qed.

(** The forgets in the queue belong to the device. *)
Definition has_forgets s : Prop := exists l, forgets s l.

Lemma forgets_frozen s s' l : frozen s' = frozen s -> forgets s l -> forgets s' l.
Proof. intros F [H1 H2 H3]. apply frozen_froze in F as []. split; congruence. Qed.

(** ** The invariant of the whole device *)
Record good s : Prop := mk_good {
  gd_inv : kinv 0 [] s;
  gd_conn : connected (iq (fc s)) = fc_connected (fc s);
  gd_off : fc_connected (fc s) = false ->
    bg_queue (fc s) = [] /\ pending (iq (fc s)) = [] /\ forgets s [];
  gd_forgets : exists l, forgets s l;
  gd_links : forall f, is_Some (links s !! f) -> 0 < f <= kobjs s;
  gd_blocked : blocked_ok s;
  gd_max : max_ok s;
  gd_batch : -8 < forget_batch (iq (fc s)) <= 16;
  gd_devices : forall d, d ∈ devices (fc s) <-> is_Some (devs s !! d);
  gd_devices_nodup : NoDup (devices (fc s));
  gd_dev_addr : forall d, is_Some (devs s !! d) -> 0 < d <= kobjs s;
}.

(** A step that leaves the connection, the devices and the forgets alone. *)
Record steady s s' : Prop := mk_steady {
  sd_frozen : frozen s' = frozen s;
  sd_queue : exists q, bg_queue (fc s) = q ++ bg_queue (fc s') /\
    forall b, b ∈ pending (iq (fc s')) -> b ∈ pending (iq (fc s)) ++ q;
  sd_blocked : blocked_ok s -> blocked_ok s';
}.

Lemma steady_refl s : steady s s.
Proof. split; try done. exists []. by rewrite app_nil_r. Qed.

Lemma steady_trans s s1 s2 : steady s s1 -> steady s1 s2 -> steady s s2.
Proof.
  intros [F1 (q1 & Hb1 & Hp1) B1] [F2 (q2 & Hb2 & Hp2) B2]. split; [congruence| |auto].
  exists (q1 ++ q2). split; [rewrite Hb1, Hb2; by rewrite app_assoc|].
  intros b Hb. apply Hp2, elem_of_app in Hb as [Hb|Hb].
  - apply Hp1 in Hb. rewrite !elem_of_app in *. tauto.
  - rewrite !elem_of_app. tauto.
Qed.

Lemma quiet_steady s s' l : quiet s s' l -> (blocked_ok s -> blocked_ok s') -> steady s s'.
Proof.
  intros Q B. destruct (qt_queue _ _ _ Q) as (q & H1 & H2). split; [apply Q| |done]. exists q. by rewrite H2.
Qed.

Lemma turned_steady s s' a r g : turned s s' a r g -> g OnBg = linked s OnBg ->
  (forall b, b ∈ g OnPending -> b ∈ linked s OnPending) -> steady s s'.
Proof.
  intros T Hb Hp. split; [apply frozen_core, T| |by apply frozen_blocked, T].
  exists []. rewrite app_nil_r. pose proof (tn_lists _ _ _ _ _ T OnBg) as H1.
  pose proof (tn_lists _ _ _ _ _ T OnPending) as H2. cbn in *. split; [by rewrite H1, Hb|].
  intros b. rewrite H2. apply Hp.
Qed.

Lemma is_Some_fmap s s' d : pq_connected <$> devs s' = pq_connected <$> devs s ->
  is_Some (devs s' !! d) <-> is_Some (devs s !! d).
Proof.
  intros H. pose proof (f_equal (fun x => x !! d) H) as He. cbn in He. rewrite !lookup_fmap in He.
  destruct (devs s' !! d), (devs s !! d); try done; split; by intros [].
Qed.

Lemma good_steady s s' : good s -> kinv 0 [] s' -> steady s s' -> good s'.
Proof.
  intros G K' [F (q & Hb & Hp) B]. pose proof (frozen_froze _ _ F) as Z. destruct G, Z. split; try done; try congruence.
  - rewrite fz_fcc. intros Hoff. destruct (gd_off0 Hoff) as (H1 & H2 & H3).
    rewrite H1 in Hb. symmetry in Hb. apply app_eq_nil in Hb as [-> Hb]. split; [done|].
    split; [|by apply (forgets_frozen s s' [] F)]. rewrite H2 in Hp.
    destruct (pending (iq (fc s'))) as [|b l]; [done|]. by destruct (proj1 (elem_of_nil b) (Hp b ltac:(by left))).
  - destruct gd_forgets0 as [l Hl]. exists l. by apply (forgets_frozen s s' l F).
  - rewrite fz_links, fz_objs. done.
  - auto.
  - unfold max_ok. by rewrite fz_max.
  - intros d. rewrite fz_devices, (is_Some_fmap s s' d fz_devs). done.
  - intros d. rewrite (is_Some_fmap s s' d fz_devs), fz_objs. apply gd_dev_addr0.
Qed.
