(* ===== verification/KRead.v ===== *)
(** * Reading and writing keep the invariant *)
From S2P Require Import Prelude KTypes KForget KForgetFacts KQueue KInv KSteps KMoves.
#[local] Open Scope Z_scope.

#[local] Abbreviation L := (M kernel).
Implicit Types (s : kernel) (m : gmap Z kreq) (a b d : Z) (r : kreq) (fly : list Z).

(** The first pending request is taken: [s1] is the state after, [r1] the request. *)
Definition taken r : kreq := set_k_place Nowhere (set_k_pending false r).

Lemma take_pending s a l : kinv 0 [] s -> pending (iq (fc s)) = a :: l -> exists r s1,
  kreqs s !! a = Some r /\ k_place r = OnPending /\ k_copier r = NoCopier /\
  (update_req a (set_k_pending false);; list_del a) s = Ok (tt, s1) /\
  kreqs s1 !! a = Some (taken r) /\ kinv 0 [a] s1 /\ steady s s1 /\
  pending (iq (fc s1)) = l /\ bg_queue (fc s1) = bg_queue (fc s) /\
  (forall p, p <> OnPending -> linked s1 p = linked s p) /\
  (forall b, b <> a -> kreqs s1 !! b = kreqs s !! b) /\ ended s1 = ended s /\
  reqctr (iq (fc s1)) = reqctr (iq (fc s)).
Proof.
  intros K Hpe. assert (Hin : a ∈ linked s OnPending) by (cbn; rewrite Hpe; by left).
  destruct (ki_mem _ _ _ K _ _ Hin) as [r Ha]. pose proof (ki_req _ _ _ K a r Ha) as R.
  assert (Hp : k_place r = OnPending) by (by destruct (proj1 (rk_lists _ _ _ _ _ R OnPending) Hin)).
  assert (Hc : k_copier r = NoCopier).
  { destruct (k_copier r) as [|d|d] eqn:E; [done|..];
      destruct (rk_copier _ _ _ _ _ R d) as [[]|[]]; rewrite ?Hp in *; try done; unfold copies; rewrite E; tauto. }
  set (r1 := set_k_pending false r).
  destruct (klist_del_runs (put_req a r1 s) a r1) as (s1 & Hr & T); [apply lookup_insert_eq| |].
  { intros p. rewrite linked_put. apply R. }
  exists r, s1. do 3 (split; [done|]).
  split; [by rewrite (bind_Ok _ _ _ _ _ (kupdate_req_Ok _ _ _ _ Ha))|].
  assert (T' : turned s s1 a (taken r) (fun p => remove_addr a (linked s p))).
  { apply (turned_trans _ _ _ _ _ _ _ _ (put_turned s a r1)).
    apply (turned_ext _ _ _ _ _ _ T). intros p. by rewrite linked_put. }
  split; [by apply (turned_self _ _ _ _ _ T')|].
  assert (Hbg : remove_addr a (linked s OnBg) = linked s OnBg).
  { apply remove_addr_id. intros Hi. apply (rk_lists _ _ _ _ _ R) in Hi as [Hi _]. congruence. }
  assert (Hpn : remove_addr a (linked s OnPending) = l).
  { cbn. rewrite Hpe. apply remove_head. rewrite <- Hpe. apply (ki_nodup _ _ _ K OnPending). }
  split; [|split; [|split; [|split; [|split; [|split]]]]].
  - apply (kinv_taken 0 [] s s1 a r (taken r) (fun p => remove_addr a (linked s p))); try done.
    + congruence.
    + congruence.
    + apply del_relisted, (ki_nodup _ _ _ K).
  - apply (turned_steady _ _ _ _ _ T'); [done|]. intros b. rewrite Hpn. cbn. rewrite Hpe. by right.
  - pose proof (tn_lists _ _ _ _ _ T' OnPending) as H. cbn in H. by rewrite H, <- Hpn.
  - pose proof (tn_lists _ _ _ _ _ T' OnBg) as H. cbn in H, Hbg. by rewrite H, Hbg.
  - intros p Hne. rewrite (tn_lists _ _ _ _ _ T'). apply remove_addr_id. intros Hi.
    apply (rk_lists _ _ _ _ _ R) in Hi as [Hi _]. congruence.
  - intros b Hb. by apply (turned_other _ _ _ _ _ _ T').
  - destruct T' as [_ Hcore _]. by kcore Hcore.
Qed.

(** [fuse_request_end] of a request that was taken, after a change of its error. *)
Lemma end_taken fly s a r g : kinv 0 (a :: fly) s -> kreqs s !! a = Some r -> k_place r = Nowhere ->
  k_sent r = false -> calm r (g r) -> k_sent (g r) = false ->
  runs (update_req a g;; fuse_request_end a) s (fun _ s' => ends fly (put_req a (g r) s) s' a (g r)).
Proof.
  intros K Ha Hp Hs Hc Hs'. eapply runs_Ok_bind; [by apply kupdate_req_Ok|].
  apply request_end_runs; [by apply (kinv_calm _ _ _ _ r)|apply lookup_insert_eq| |done].
  by rewrite (ca_place _ _ Hc).
Qed.

Lemma put_steady s a r r' : kreqs s !! a = Some r -> steady s (put_req a r' s).
Proof. intros Ha. apply (turned_steady _ _ _ _ _ (put_turned s a r')); done. Qed.

Lemma ends_steady fly s s' a r : ends fly s s' a r -> kreqs s !! a = Some r -> steady s s'.
Proof.
  intros E Ha. apply (quiet_steady _ _ [a]); [|apply E]. apply (end_quiet _ _ a); [apply E|by left].
Qed.

Lemma set_place_id r : k_place r = Nowhere -> set_k_place Nowhere r = r.
Proof. destruct r. cbn. by intros ->. Qed.

Lemma list_del_nowhere s a r : kreqs s !! a = Some r -> k_place r = Nowhere ->
  list_del a s = Ok (tt, s).
Proof.
  intros Ha Hp. unfold list_del. rewrite (bind_Ok _ _ _ _ _ (kload_req_Ok _ _ _ Ha)), Hp.
  cbn [on_list]. rewrite (bind_Ok _ _ _ tt s) by done. rewrite (kupdate_req_Ok _ _ _ _ Ha).
  rewrite set_place_id by done.
  unfold put_req. rewrite insert_id by done. by destruct s.
Qed.

Lemma read_out_end_eq s a r : kreqs s !! a = Some r -> k_place r = Nowhere ->
  read_out_end a s = fuse_request_end a s.
Proof.
  intros Ha Hp. unfold read_out_end. rewrite (bind_Ok _ _ _ _ _ (kload_req_Ok _ _ _ Ha)).
  rewrite (bind_Ok _ _ _ tt s); [done|]. destruct (k_private r); [done|]. by apply (list_del_nowhere s a r).
Qed.

(** What reading the request [a], before [l] in the queue, comes to. *)
Record read_post s s' d a (l : list Z) (o : option read_result) : Prop := mk_read_post {
  rp_kinv : kinv 0 [] s';
  rp_steady : steady s s';
  rp_queue : exists q, bg_queue (fc s) = q ++ bg_queue (fc s') /\ pending (iq (fc s')) = l ++ q;
  rp_copies : forall b, o = Some (Copies b) -> b = a /\
    exists r, kreqs s' !! a = Some r /\ k_place r = OnIo d /\ k_copier r = Reader d;
  rp_gone : forall r, kreqs s' !! a = Some r -> k_place r <> OnPending;
}.

Lemma read_request_runs s d nbytes a l : kinv 0 [] s -> is_Some (devs s !! d) ->
  pending (iq (fc s)) = a :: l ->
  runs (read_request d nbytes) s (fun o s' => read_post s s' d a l o).
Proof.
  intros K [q Hq] Hpe. unfold read_request. eapply runs_Ok_bind; [apply get_iq_Ok|].
  rewrite Hpe. eapply runs_deref_bind; [done|].
  destruct (take_pending s a l K Hpe) as (r & s1 & Ha & Hp & Hc & Hr & Ha1 & K1 & S1 & Hpe1 & Hbg1 & Hl1 & _ & _ & _).
  apply runs_bind_unassoc. eapply runs_Ok_bind; [exact Hr|].
  eapply runs_Ok_bind; [by apply kload_req_Ok|].
  assert (Hs1 : k_sent (taken r) = false).
  { destruct (k_sent r) eqn:E; [|done]. destruct (rk_sent _ _ _ _ _ (ki_req _ _ _ K a r Ha) E) as [(? & ? & ?)|[]]; congruence. }
  assert (Hend : forall g : kreq -> kreq, (forall r, calm r (g r)) -> (forall r, k_sent (g r) = k_sent r) ->
    runs (update_req a g;; fuse_request_end a) s1 (fun _ s' => forall o,
      (forall b, o <> Some (Copies b)) -> read_post s s' d a l o)).
  { intros g Hg Hgs. pose proof (end_taken [] s1 a (taken r) g K1 Ha1 ltac:(done) Hs1 (Hg _) ltac:(by rewrite Hgs)) as He.
    eapply runs_mono; [exact He|]. intros [] s2 E2 o Ho. cbv beta in E2.
    assert (S2 : steady s1 s2).
    { eapply steady_trans; [by apply (put_steady s1 a (taken r) (g (taken r)))|].
      apply (ends_steady [] _ _ a (g (taken r)) E2). apply lookup_insert_eq. }
    split; [apply E2|by eapply steady_trans| |intros b Hb; by destruct (Ho b)|].
    - destruct (ep_queue _ _ _ (en_post _ _ _ _ _ E2)) as (q' & H1 & H2). kred. rewrite Hbg1 in H1. rewrite Hpe1 in H2. eauto.
    - intros r' Hr'. rewrite (en_self _ _ _ _ _ E2) in Hr'. destruct (k_count (g (taken r)) =? 1); [done|].
      injection Hr' as <-. cbn. rewrite (ca_place _ _ (Hg _)). done. }
  destruct (nbytes <? k_len (taken r)).
  - apply runs_bind_unassoc. eapply runs_bind.
    + apply (Hend (set_k_error _)); [by intros []; split|by intros []].
    + intros [] s2 H2. apply runs_ret. by apply H2.
  - assert (Hd1 : exists q1, devs s1 !! d = Some q1).
    { apply (is_Some_fmap s s1 d); [|by exists q]. apply (frozen_froze _ _ (sd_frozen _ _ S1)). }
    destruct Hd1 as [q1 Hq1]. eapply runs_Ok_bind; [by apply load_dev_Ok|].
    destruct (pq_connected q1); cbn [negb].
    + destruct (klist_add_runs s1 a (taken r) (OnIo d)) as (s2 & Hr2 & T2); [done|by exists q1|done|].
      eapply runs_Ok_bind; [exact Hr2|].
      pose proof (turned_put s1 s2 a _ (set_k_copier (Reader d) (set_k_place (OnIo d) (taken r))) _ T2) as T3.
      eapply runs_Ok_bind; [apply kupdate_req_Ok, (turned_self _ _ _ _ _ T2)|]. apply runs_ret.
      assert (S3 : steady s1 (put_req a (set_k_copier (Reader d) (set_k_place (OnIo d) (taken r))) s2)).
      { by apply (turned_steady _ _ _ _ _ T3). }
      split; [|by eapply steady_trans| | |].
      * eapply (kinv_copying 0 [] s1 _ a (taken r)
          (set_k_copier (Reader d) (set_k_place (OnIo d) (taken r))) d); [exact K1|done|done|done| |by apply not_elem_of_nil| |
          | | |by split|exact T3|]; try done.
        -- cbn. apply (rk_live _ _ _ _ _ (ki_req _ _ _ K a r Ha)). congruence.
        -- cbn. destruct (k_private r) eqn:E; [|done].
           pose proof (rk_private _ _ _ _ _ (ki_req _ _ _ K a r Ha) E). congruence.
        -- by left.
        -- apply add_relisted; [done|]. apply same_relisted; [apply (ki_nodup _ _ _ K1)|].
           apply (rk_lists _ _ _ _ _ (ki_req _ _ _ K1 a _ Ha1)).
      * exists []. rewrite app_nil_r, <- Hbg1, <- Hpe1. split; [symmetry|].
        { apply (tn_lists _ _ _ _ _ T3 OnBg). }
        apply (tn_lists _ _ _ _ _ T3 OnPending).
      * intros b [= <-]. split; [done|]. eexists. split; [apply lookup_insert_eq|done].
      * intros r' Hr'. unfold put_req in Hr'. kred. rewrite lookup_insert_eq in Hr'. by injection Hr' as <-.
    + set (g := set_k_error (- ECONNABORTED)).
      assert (Ho : runs (update_req a g;; fuse_request_end a) s1 (fun _ s' => forall o,
        (forall b, o <> Some (Copies b)) -> read_post s s' d a l o)).
      { apply Hend; [by intros []; split|by intros []]. }
      eapply runs_Ok_bind; [by apply kupdate_req_Ok|].
      destruct Ho as ([] & s2 & Hr2 & H2). rewrite (bind_Ok _ _ _ _ _ (kupdate_req_Ok _ _ _ _ Ha1)) in Hr2.
      eapply runs_Ok_bind; [|apply runs_ret; by apply H2].
      rewrite (read_out_end_eq _ _ (g (taken r))); [done|apply lookup_insert_eq|done].
Qed.

(** ** Interrupts and forgets *)
Lemma good_fc s f : good s -> (forall c, iq (f c) = iq c \/ exists a,
    iq (f c) = set_interrupts (remove_addr a (interrupts (iq c))) (iq c)) ->
  (forall c, zero (f c) = zero c) -> (forall c, bg_queue (f c) = bg_queue c) ->
  num_background (f (fc s)) = num_background (fc s) ->
  active_background (f (fc s)) = active_background (fc s) ->
  num_waiting (f (fc s)) = num_waiting (fc s) -> blocked (f (fc s)) = blocked (fc s) ->
  good (set_fc (f (fc s)) s).
Proof.
  intros G Hi Hz Hb Hn Ha Hw Hbl. pose proof (gd_inv _ G) as K.
  assert (Hp : pending (iq (f (fc s))) = pending (iq (fc s))) by (by destruct (Hi (fc s)) as [->|[a ->]]).
  assert (Hc : reqctr (iq (f (fc s))) = reqctr (iq (fc s))) by (by destruct (Hi (fc s)) as [->|[a ->]]).
  apply (good_steady s); [done| |].
  - apply (kinv_inert _ _ s); [done|]. split; kred; try done; try lia.
    + intros []; cbn; try done.
    + destruct (Hi (fc s)) as [->|[a ->]]; [by left|right; by exists a].
    + pose proof (ki_objs _ _ _ K). lia.
    + rewrite Hc. split; [lia|apply (ki_even _ _ _ K)].
  - split.
    + unfold frozen, core. kred. by rewrite Hz.
    + exists []. kred. rewrite app_nil_r, Hb, Hp. done.
    + unfold blocked_ok. kred. rewrite Hbl, Hn.
      assert (Hm : max_background (f (fc s)) = max_background (fc s)) by (pose proof (f_equal max_background (Hz (fc s))); done).
      by rewrite Hm.
Qed.

Lemma good_intr_del s a : good s -> runs (intr_del a) s (fun _ s' => good s').
Proof.
  intros G. eexists _, _. split; [done|].
  apply (good_fc s (fun c => set_iq (set_interrupts (remove_addr a (interrupts (iq c))) (iq c)) c)); try done.
  intros c. right. by exists a.
Qed.

(** The choice of [forgets_turn], and the counter after it. *)
Definition turn (q : fuse_iqueue) : bool * Z :=
  let n := forget_batch q in
  if negb (forget_pending q) then (false, n)
  else if bool_decide (pending q = []) then (true, n)
  else if 0 <? n then (true, n - 1)
  else (false, if n - 1 <=? -8 then 16 else n - 1).

Definition after_turn s : kernel :=
  set_fc (set_iq (set_forget_batch (turn (iq (fc s))).2 (iq (fc s))) (fc s)) s.

Lemma forgets_turn_Ok s : forgets_turn s = Ok ((turn (iq (fc s))).1, after_turn s).
Proof.
  unfold forgets_turn, after_turn, turn. rewrite (bind_Ok _ _ _ _ _ (get_iq_Ok _)).
  assert (Hid : forall n, n = forget_batch (iq (fc s)) ->
    set_fc (set_iq (set_forget_batch n (iq (fc s))) (fc s)) s = s) by (intros n ->; by destruct s as [[[] ] ]).
  destruct (forget_pending (iq (fc s))); cbn [negb]; [|by rewrite Hid].
  case_bool_decide; [by rewrite Hid|]. rewrite (bind_Ok _ _ _ _ _ (modify_iq_Ok _ _)).
  destruct (0 <? forget_batch (iq (fc s))); [done|]. rewrite (bind_Ok _ _ _ _ _ (modify_iq_Ok _ _)). kred.
  by destruct (forget_batch (iq (fc s)) - 1 <=? -8).
Qed.

Lemma turn_range q : -8 < forget_batch q <= 16 -> -8 < (turn q).2 <= 16.
Proof.
  intros H. unfold turn. destruct (negb (forget_pending q)); [done|].
  case_bool_decide; [done|]. zcases; cbn [snd]; lia.
Qed.

Lemma good_after_turn s : good s -> good (after_turn s).
Proof.
  intros []. unfold after_turn. split; kred; try done.
  - apply (kinv_inert _ _ s); [done|]. split; kred; try done; try lia.
    + by left.
    + pose proof (ki_objs _ _ _ gd_inv). lia.
    + split; [lia|apply (ki_even _ _ _ gd_inv)].
  - intros Hoff. destruct (gd_off Hoff) as (H1 & H2 & [H3 H4 H5]). by split_and!.
  - destruct gd_forgets as [l [H3 H4 H5]]. by exists l.
  - by apply turn_range.
Qed.

Lemma good_forgets_read s s' l k x : good s -> forgets s l -> forgets_read s s' l k x ->
  (1 <= k <= length l)%nat -> good s'.
Proof.
  intros G Hf Hr Hk. pose proof (links_read _ _ _ _ _ Hf Hr ltac:(lia)) as Hs.
  assert (K' : kinv 0 [] s').
  { apply (kinv_inert _ _ s); [apply G|]. apply inert_forgets; [apply G|apply Hr|apply Hr|lia]. }
  assert (Hl : forall f, is_Some (links s' !! f) -> is_Some (links s !! f)).
  { intros f [y Hy]. destruct (decide (f ∈ l.*1)) as [Hi|Hi]; [by apply (chain_mem _ _ _ _ (fg_chain _ _ Hf))|].
    destruct (decide (f ∈ (take k l).*1)) as [Ht|Ht]; [by rewrite (fr_freed _ _ _ _ _ Hr) in Hy|].
    rewrite <- (fr_kept _ _ _ _ _ Hr) by done. eauto. }
  pose proof (fr_same _ _ _ _ _ Hr) as (H1 & H2 & H3 & H4 & H5 & hd & tl & ctr & Hfc).
  destruct G. split; try done; rewrite ?Hfc; kred; try done.
  - intros Hoff. destruct (gd_off Hoff) as (_ & _ & Hn).
    destruct Hn as [Hn _ _], Hf as [Hc _ _]. cbn in Hn. rewrite Hn in Hc.
    destruct l as [|[a [n y]] l]; [cbn in Hk; lia|]. destruct Hc as (Hz & Hx & _). congruence.
  - exists (drop k l). apply Hr.
  - rewrite H3. intros f Hfl. by apply gd_links, Hl.
  - unfold blocked_ok in *. rewrite Hfc. done.
  - unfold max_ok in *. rewrite Hfc. done.
  - intros d. rewrite H2. done.
  - intros d. rewrite H2, H3. apply gd_dev_addr.
Qed.

(** ** The whole read *)
Definition read_safe s' d (o : read_result) : Prop :=
  good s' /\ forall a, o = Copies a ->
    exists r, kreqs s' !! a = Some r /\ k_place r = OnIo d /\ k_copier r = Reader d.

Lemma forgets_pending s l : forgets s l -> forget_pending (iq (fc s)) = negb (bool_decide (l = [])).
Proof.
  intros [Hc _ _]. unfold forget_pending. destruct l as [|[a [n k]] l]; cbn in Hc.
  - rewrite Hc. done.
  - destruct Hc as (-> & Ha & _). by rewrite (proj2 (Z.eqb_neq a 0)).
Qed.

Lemma good_read_forget s nbytes : good s -> forget_pending (iq (fc s)) = true ->
  64 <= nbytes < 2 ^ 32 -> runs (fuse_read_forget nbytes) s (fun _ s' => good s').
Proof.
  intros G Hp Hn. destruct (gd_forgets _ G) as [l Hl].
  rewrite (forgets_pending s l Hl) in Hp. case_bool_decide; [done|].
  destruct (read_forget_runs s l nbytes Hl) as [Hk Hr]; [done..|].
  eapply runs_mono; [exact Hr|]. intros x s' Hx. exact (good_forgets_read s s' l _ x G Hl Hx Hk).
Qed.

Lemma turn_false q : (turn q).1 = false -> request_pending q = true -> interrupts q = [] ->
  pending q <> [].
Proof.
  unfold turn, request_pending. intros Ht Hr Hi Hp. rewrite Hi, Hp in Hr. cbn in Hr.
  rewrite Hr, Hp in Ht. done.
Qed.

Lemma turn_true q : (turn q).1 = true -> forget_pending q = true.
Proof. unfold turn. by destruct (forget_pending q). Qed.

Lemma kread_loop_runs d nbytes nonblock fuel : forall s, good s -> is_Some (devs s !! d) ->
  64 <= nbytes < 2 ^ 32 ->
  (length (pending (iq (fc s))) + length (bg_queue (fc s)) < fuel)%nat ->
  runs (read_loop fuel d nbytes nonblock) s (fun o s' => read_safe s' d o).
Proof.
  induction fuel as [|fuel IH]; intros s G Hd Hn Hf; [lia|]. cbn [read_loop].
  assert (Hsafe : forall o, (forall a, o <> Copies a) -> read_safe s d o) by (intros o Ho; split; [done|]; intros a Ha; by destruct (Ho a)).
  eapply runs_Ok_bind; [apply get_iq_Ok|].
  destruct (connected (iq (fc s)) && negb (request_pending (iq (fc s)))) eqn:E1.
  { apply runs_ret. apply Hsafe. by destruct nonblock. }
  destruct (connected (iq (fc s))) eqn:E2; cbn [negb].
  2:{ eapply runs_Ok_bind; [apply get_fc_Ok|]. apply runs_ret. by apply Hsafe. }
  cbn [andb] in E1. apply negb_false_iff in E1.
  destruct (interrupts (iq (fc s))) as [|a l] eqn:Hi.
  - eapply runs_Ok_bind; [apply forgets_turn_Ok|]. pose proof (good_after_turn s G) as G1.
    destruct (turn (iq (fc s))).1 eqn:Ht.
    + eapply runs_bind; [apply (good_read_forget (after_turn s) nbytes G1); [by apply turn_true in Ht|done]|].
      intros x s' G'. apply runs_ret. split; [done|]. intros a. by destruct x.
    + pose proof (turn_false _ Ht E1 Hi) as Hp. destruct (pending (iq (fc s))) as [|a l] eqn:Hpe; [done|].
      eapply runs_bind; [by apply (read_request_runs (after_turn s) d nbytes a l (gd_inv _ G1))|].
      intros o s' [K' S' (q & Hb & Hq) Hc _]. pose proof (good_steady _ _ G1 K' S') as G'.
      destruct o as [o|].
      * apply runs_ret. split; [done|]. intros b ->. destruct (Hc b eq_refl) as [-> H]. done.
      * apply IH; [done| |done|].
        -- apply (is_Some_fmap (after_turn s) s' d); [|done]. apply (frozen_froze _ _ (sd_frozen _ _ S')).
        -- rewrite Hq. unfold after_turn in Hb. kred. rewrite Hb in Hf. cbn [length] in Hf.
           rewrite !length_app in *. lia.
  - assert (Ha : is_Some (kreqs s !! a)).
    { apply (ki_intr _ _ _ (gd_inv _ G)). rewrite Hi. by left. }
    destruct Ha as [r Ha]. unfold fuse_read_interrupt. apply runs_bind_assoc.
    eapply runs_Ok_bind; [by apply kload_req_Ok|]. apply runs_bind_assoc.
    eapply runs_bind; [by apply good_intr_del|]. intros [] s' G'.
    destruct (nbytes <? _); apply runs_ret_bind, runs_ret; by split.
Qed.

Lemma good_do_read s d nbytes nonblock : good s -> is_Some (devs s !! d) -> nbytes < 2 ^ 31 ->
  runs (fuse_dev_do_read d nbytes nonblock) s (fun o s' => read_safe s' d o).
Proof.
  intros G Hd Hn. unfold fuse_dev_do_read. eapply runs_Ok_bind; [apply get_fc_Ok|].
  destruct (Z.ltb_spec nbytes (Z.max FUSE_MIN_READ_BUFFER (SIZEOF_IN_HEADER + SIZEOF_WRITE_IN + max_write (fc s)))) as [|Hge].
  - apply runs_ret. by split.
  - apply kread_loop_runs; [done..| |lia]. unfold FUSE_MIN_READ_BUFFER in Hge. lia.
Qed.
