(* ===== verification/KWrite.v ===== *)
(** * The ends of copies, and writing, keep the invariant *)
From S2P Require Import Prelude KTypes KForget KForgetFacts KQueue KInv KSteps KMoves KRead.
#[local] Open Scope Z_scope.

#[local] Abbreviation L := (M kernel).
Implicit Types (s : kernel) (m : gmap Z kreq) (a b d : Z) (r : kreq) (fly : list Z).

Lemma copies_dev e fly s a r d : kinv e fly s -> kreqs s !! a = Some r -> copies r d ->
  is_Some (devs s !! d).
Proof.
  intros K Ha Hc. pose proof (ki_req _ _ _ K a r Ha) as R.
  destruct (rk_copier _ _ _ _ _ R d Hc) as [[Hp _]|(_ & _ & q & Hq & _)]; [|by exists q].
  apply (linked_place_ok s (OnIo d) a). by apply R.
Qed.

(** The end of a copy: the request is taken off [io], unless an abort has done so, and
    ended. *)
Lemma copy_over s s2 a r r2 d : kinv 0 [] s -> kreqs s !! a = Some r -> copies r d ->
  calm (set_k_copier NoCopier r) r2 -> k_locked r2 = false -> turned s s2 a r2 (linked s) ->
  runs ((if k_private r2 then mret tt else list_del a);; fuse_request_end a) s2
    (fun _ s' => exists s3, ends [] s3 s' a (set_k_place Nowhere r2) /\ steady s s' /\
       kreqs s3 !! a = Some (set_k_place Nowhere r2) /\ (forall b, b <> a -> kreqs s3 !! b = kreqs s !! b) /\
       ended s3 = ended s).
Proof.
  intros K Ha Hc Hcm Hlk T. pose proof (ki_req _ _ _ K a r Ha) as R.
  pose proof (turned_self _ _ _ _ _ T) as Ha2.
  pose proof (ca_place _ _ Hcm) as Hpl. pose proof (ca_private _ _ Hcm) as Hpr. kred.
  assert (Hsent : k_sent r2 = false).
  { destruct (k_sent r2) eqn:E; [|done]. apply (ca_sent _ _ Hcm) in E. kred.
    destruct (rk_sent _ _ _ _ _ R E) as [(d' & h & Hp)|[_ Hi]]; [|by apply elem_of_nil in Hi].
    destruct (rk_copier _ _ _ _ _ R d Hc) as [[]|[]]; congruence. }
  assert (Hdel : exists s3, (if k_private r2 then mret tt else list_del a) s2 = Ok (tt, s3) /\
    turned s s3 a (set_k_place Nowhere r2) (fun p => remove_addr a (linked s p))).
  { destruct (rk_copier _ _ _ _ _ R d Hc) as [[Hp Hpv]|(Hp & Hpv & _)]; rewrite Hpr, Hpv.
    - destruct (klist_del_runs s2 a r2 Ha2) as (s3 & Hr & T3).
      { intros p. rewrite (tn_lists _ _ _ _ _ T), Hpl. apply R. }
      exists s3. split; [done|]. apply (turned_trans _ _ _ _ _ _ _ _ T).
      apply (turned_ext _ _ _ _ _ _ T3). intros p. by rewrite (tn_lists _ _ _ _ _ T).
    - exists s2. split; [done|]. rewrite set_place_id by congruence.
      apply (turned_ext _ _ _ _ _ _ T). intros p. symmetry. apply remove_addr_id.
      intros Hi. apply (rk_lists _ _ _ _ _ R) in Hi as [-> Hi]. congruence. }
  destruct Hdel as (s3 & Hr & T3). eapply runs_Ok_bind; [exact Hr|].
  pose proof (turned_self _ _ _ _ _ T3) as Ha3.
  assert (K3 : kinv 0 [a] s3).
  { apply (kinv_copied 0 [] s s3 a r (set_k_place Nowhere r2) d
      (fun p => remove_addr a (linked s p)) K Ha Hc); [by apply not_elem_of_nil| |done|exact T3|].
    - destruct Hcm. by split.
    - apply del_relisted, (ki_nodup _ _ _ K). }
  eapply runs_mono; [by apply (request_end_runs [] s3 a (set_k_place Nowhere r2))|].
  intros [] s' E. exists s3. split; [done|]. split; [|split; [done|]].
  - eapply steady_trans; [|by apply (ends_steady _ _ _ _ _ E)].
    apply (turned_steady _ _ _ _ _ T3).
    + apply remove_addr_id. intros Hi. apply (rk_lists _ _ _ _ _ R) in Hi as [Hi _].
      destruct (rk_copier _ _ _ _ _ R d Hc) as [[]|[]]; congruence.
    + by intros b [_ Hb]%remove_addr_in.
  - split; [intros b Hb; by apply (turned_other _ _ _ _ _ _ T3)|].
    destruct T3 as [_ Hcore _]. by kcore Hcore.
Qed.

Lemma read_out_end_runs s s2 a r r2 d : kinv 0 [] s -> kreqs s !! a = Some r -> copies r d ->
  calm (set_k_copier NoCopier r) r2 -> k_locked r2 = false -> turned s s2 a r2 (linked s) ->
  runs (read_out_end a) s2 (fun _ s' => kinv 0 [] s' /\ steady s s').
Proof.
  intros K Ha Hc Hcm Hlk T. unfold read_out_end.
  eapply runs_Ok_bind; [apply kload_req_Ok, (turned_self _ _ _ _ _ T)|].
  eapply runs_mono; [by apply (copy_over s s2 a r r2 d)|].
  intros _ s' (s3 & E & S & _). split; [apply E|done].
Qed.

Section Hash.
Context (hash_long : Z -> Z -> Z).

(** [hash_long(val, bits)] has [bits] bits. *)
Definition hashes : Prop := forall x bits, 0 <= bits -> 0 <= hash_long x bits < 2 ^ bits.

Lemma req_hash_range unique : hashes ->
  0 <= fuse_req_hash hash_long unique < Z.of_nat FUSE_PQ_HASH_SIZE.
Proof. intros H. apply (H _ FUSE_PQ_HASH_BITS). done. Qed.

Lemma steady_blocked s s' : frozen s' = frozen s -> kreqs s' = kreqs s ->
  (forall p, linked s' p = linked s p) -> (blocked_ok s -> blocked_ok s') -> steady s s'.
Proof.
  intros F _ Hl B. split; try done. exists []. rewrite app_nil_r.
  pose proof (Hl OnBg) as H1. pose proof (Hl OnPending) as H2. cbn in *. by rewrite H1, H2.
Qed.

Lemma bind4 {A B C D E} (m : L A) (k1 : L B) (k2 : L C) (k3 : L D) (k : L E) s x s' :
  (m;; k1;; k2;; k3) s = Ok (x, s') -> (m;; k1;; k2;; k3;; k) s = k s'.
Proof.
  unfold mbind, M_bind. destruct (m s) as [[? s1]|]; [|done]. destruct (k1 s1) as [[? s2]|]; [|done].
  destruct (k2 s2) as [[? s3]|]; [|done]. intros H. by rewrite H.
Qed.

(** A read request now waits for its answer. *)
Lemma read_sent s s2 a r d h : kinv 0 [] s -> kreqs s !! a = Some r -> k_copier r = Reader d ->
  k_private r = false -> k_isreply r = true -> 0 <= h < Z.of_nat FUSE_PQ_HASH_SIZE ->
  turned s s2 a (set_k_copier NoCopier (set_k_locked false r)) (linked s) ->
  runs (list_del a;; list_add_tail a (OnProcessing d h);; get_request a;; update_req a (set_k_sent true))
    s2 (fun _ s' => let r' := set_k_sent true (set_k_count (k_count r + 1)
          (set_k_place (OnProcessing d h) (set_k_copier NoCopier (set_k_locked false r)))) in
        kreqs s' !! a = Some r' /\ kinv 0 [a] s' /\ steady s s' /\ ended s' = ended s /\
        (forall b, b <> a -> kreqs s' !! b = kreqs s !! b) /\
        (forall p, linked s' p = if decide (p = OnProcessing d h) then linked s p ++ [a]
                                 else remove_addr a (linked s p))).
Proof.
  intros K Ha Hc Hpv Hre Hh T. pose proof (ki_req _ _ _ K a r Ha) as R.
  assert (Hcp : copies r d) by by left.
  assert (Hp : k_place r = OnIo d) by (destruct (rk_copier _ _ _ _ _ R d Hcp) as [[]|(_ & ? & _)]; congruence).
  set (r2 := set_k_copier NoCopier (set_k_locked false r)) in *.
  pose proof (copies_dev _ _ _ _ _ _ K Ha Hcp) as Hd.
  destruct (klist_del_runs s2 a r2 (turned_self _ _ _ _ _ T)) as (s3 & Hr3 & T3).
  { intros p. rewrite (tn_lists _ _ _ _ _ T). apply R. }
  eapply runs_Ok_bind; [exact Hr3|].
  pose proof (turned_trans _ _ _ _ _ _ _ _ T T3) as T3'. pose proof (tn_core _ _ _ _ _ T3') as Hcore.
  destruct (klist_add_tail_runs s3 a (set_k_place Nowhere r2) (OnProcessing d h)) as (s4 & Hr4 & T4);
    [by apply (turned_self _ _ _ _ _ T3)| |done|].
  { apply (place_ok_fmap s); [|done]. by apply core_rests in Hcore as []. }
  eapply runs_Ok_bind; [exact Hr4|].
  set (r4 := set_k_place (OnProcessing d h) r2).
  set (r6 := set_k_sent true (set_k_count (k_count r4 + 1) r4)).
  eapply runs_Ok_bind; [apply kupdate_req_Ok, (turned_self _ _ _ _ _ T4)|].
  set (g := fun p => if decide (p = OnProcessing d h) then remove_addr a (linked s p) ++ [a]
                     else remove_addr a (linked s p)).
  assert (T4' : turned s s4 a r4 g).
  { apply (turned_trans _ _ _ _ _ _ _ _ T3'). apply (turned_ext _ _ _ _ _ _ T4). intros p. unfold g.
    rewrite !(tn_lists _ _ _ _ _ T3), !(tn_lists _ _ _ _ _ T). by case_decide; subst. }
  assert (L4 : relisted s a (OnProcessing d h) g).
  { eapply relisted_ext; [apply (add_tail_relisted s a (OnProcessing d h) (fun p => remove_addr a (linked s p)))|].
    - done.
    - apply del_relisted, (ki_nodup _ _ _ K).
    - intros p. unfold g. by case_decide; subst. }
  set (r5 := set_k_count (k_count r4 + 1) r4).
  pose proof (turned_put s s4 a r4 r5 _ T4') as T5. pose proof (turned_put s _ a _ r6 _ T5) as T6.
  exists tt, (put_req a r6 (put_req a r5 s4)).
  split; [apply (kupdate_req_Ok a r5), (turned_self _ _ _ _ _ T5)|].
  set (s6 := put_req a r6 _) in *. clearbody s6.
  split; [by apply (turned_self _ _ _ _ _ T6)|]. split; [|split; [|split; [|split]]].
  - pose proof (tn_core _ _ _ _ _ T6) as Hcore6. kcore Hcore6.
    pose proof (rok_lists_turned s s6 a r6 g T6 L4) as HL.
    assert (Hon : on_bg r6 = on_bg r) by (rewrite !on_bg_false; [done|congruence|done]).
    apply (kinv_relisted 0 [] [a] s s6 a r r6 g); try done.
    + intros b Hb. by rewrite count_cons, decide_False.
    + intros _. krok R.
      split; unfold waits, held, copies, numbered in *; rewrite ?Hon, ?Eobjs, ?Eintr, ?Eend, ?Ectr in *;
        unfold r6, r4, r2; kred; rewrite ?Hp, ?Hc in *; try done.
      * rewrite count_cons, (decide_True (P := a = a)) by done.
        rewrite (decide_False (P := OnProcessing d h = Nowhere /\ _)) by (by intros []).
        rewrite (decide_False (P := OnIo d = Nowhere /\ _)) in Rcount by (by intros []). cbn in Rcount |- *. lia.
      * intros _. by apply Rlive.
      * intros _. left. eauto.
      * intros dd [Hx|Hx]; done.
      * congruence.
      * intros dd hh [= -> ->]. done.
    + unfold numbered. rewrite Hon. done.
  - apply (turned_steady _ _ _ _ _ T6).
    + unfold g. rewrite decide_False by done. apply remove_addr_id. intros Hi.
      apply (rk_lists _ _ _ _ _ R) in Hi as [Hi _]. congruence.
    + unfold g. rewrite decide_False by done. by intros b [_ Hb]%remove_addr_in.
  - destruct T6 as [_ Hcore6 _]. by kcore Hcore6.
  - intros b Hb. by apply (turned_other _ _ _ _ _ _ T6).
  - intros p. rewrite (tn_lists _ _ _ _ _ T6). unfold g. case_decide as E; [|done]. f_equal.
    apply remove_addr_id. intros Hi. apply (rk_lists _ _ _ _ _ R) in Hi as [Hi _]. congruence.
Qed.

(** The first updates of [read_done] and [write_done]. *)
Definition uncopied r : kreq := set_k_copier NoCopier (set_k_locked false r).

Lemma runs_uncopy {B} s a r (k : unit -> L B) Q : kreqs s !! a = Some r ->
  runs (k tt) (put_req a (uncopied r) s) Q ->
  runs (update_req a (set_k_locked false);; update_req a (set_k_copier NoCopier) ≫= k) s Q.
Proof.
  intros Ha Hk. eapply runs_Ok_bind; [by apply kupdate_req_Ok|].
  eapply runs_Ok_bind; [apply (kupdate_req_Ok a (set_k_locked false r)), lookup_insert_eq|].
  unfold put_req in *. kred. by rewrite insert_insert_eq.
Qed.

Lemma calm_uncopied r : calm (set_k_copier NoCopier r) (uncopied r).
Proof. by split. Qed.

Lemma interrupt_if s a r (b : bool) : kinv 0 [a] s -> kreqs s !! a = Some r ->
  queued (k_place r) = false -> exists s',
  (if b then queue_interrupt a;; mret tt else mret tt) s = Ok (tt, s') /\ kinv 0 [a] s' /\
  kreqs s' = kreqs s /\ (forall p, linked s' p = linked s p) /\ steady s s' /\ ended s' = ended s.
Proof.
  intros K Ha Hpl. destruct b; [|exists s; split; [done|]; split_and!; [done..|apply steady_refl|done]].
  destruct (queue_interrupt_runs 0 [a] s a r K Ha Hpl) as (n & s' & Hr & K' & Hq & Hl & F & B & He & _).
  exists s'. rewrite (bind_Ok _ _ _ _ _ Hr). split; [done|]. split_and!; [done..| |done]. by apply steady_blocked.
Qed.

Lemma put_post_steady s s' a : put_post s s' a -> is_Some (kreqs s !! a) -> steady s s'.
Proof.
  intros P Ha. apply (quiet_steady _ _ [a]).
  - apply (end_quiet _ _ a); [by apply put_end_post|by left].
  - pose proof (pp_core _ _ _ P) as Hc. kcore Hc. unfold blocked_ok. congruence.
Qed.

Lemma good_read_done s d a r err : hashes -> good s -> kreqs s !! a = Some r -> k_copier r = Reader d ->
  runs (read_done hash_long d a err) s (fun _ s' => good s').
Proof.
  intros HH G Ha Hc. pose proof (gd_inv _ G) as K. assert (Hcp : copies r d) by by left.
  destruct (copies_dev _ _ _ _ _ _ K Ha Hcp) as [q Hq]. unfold read_done.
  eapply runs_Ok_bind; [by apply kload_req_Ok|]. eapply runs_Ok_bind; [by apply load_dev_Ok|].
  eapply runs_Ok_bind; [apply get_fc_Ok|].
  apply (runs_uncopy s a r); [done|]. cbv beta.
  pose proof (put_turned s a (uncopied r)) as T. set (s1 := put_req a (uncopied r) s) in *.
  assert (Hout : forall g : kreq -> kreq, (forall r, calm r (g r)) -> (forall r, k_locked (g r) = k_locked r) ->
    forall x : Z, runs (update_req a g;; read_out_end a;; mret x) s1 (fun _ s' => good s')).
  { intros g Hg Hgl x. eapply runs_Ok_bind; [apply kupdate_req_Ok, (turned_self _ _ _ _ _ T)|].
    eapply runs_bind.
    - apply (read_out_end_runs s _ a r (g (uncopied r)) d K Ha Hcp).
      + exact (calm_trans _ _ _ (calm_uncopied r) (Hg _)).
      + by rewrite Hgl.
      + apply (turned_put _ _ _ _ _ _ T).
    - intros [] s' [K' S']. apply runs_ret. by apply (good_steady s). }
  assert (Hid : update_req a (fun r => r) s1 = Ok (tt, s1)).
  { rewrite (kupdate_req_Ok a (uncopied r)) by apply (turned_self _ _ _ _ _ T).
    unfold put_req. rewrite insert_id by apply (turned_self _ _ _ _ _ T). by destruct s1. }
  assert (Hout0 : forall x : Z, runs (read_out_end a;; mret x) s1 (fun _ s' => good s')).
  { intros x. pose proof (Hout (fun r => r) ltac:(by split) ltac:(done) x) as H. unfold runs in *.
    by rewrite (bind_Ok _ _ _ _ _ Hid) in H. }
  destruct (pq_connected q) eqn:Hon; cbn [negb]; [|by apply Hout0].
  destruct (err =? 0); cbn [negb]; [|apply (Hout (set_k_error (- EIO))); by intros []].
  destruct (k_isreply r) eqn:Hre; cbn [negb]; [|by apply Hout0].
  assert (Hpv : k_private r = false).
  { destruct (k_private r) eqn:E; [|done].
    destruct (rk_copier _ _ _ _ _ (ki_req _ _ _ K a r Ha) d Hcp) as [[]|(_ & _ & q' & Hq' & Hf)]; congruence. }
  set (h := fuse_req_hash hash_long (k_unique r)).
  destruct (read_sent s s1 a r d h K Ha Hc Hpv Hre (req_hash_range _ HH) T) as ([] & s2 & Hr2 & H2). cbv zeta in H2.
  destruct H2 as (Ha2 & K2 & S2 & _). set (r' := set_k_sent _ _) in *.
  destruct (interrupt_if s2 a _ (k_interrupted r) K2 Ha2 eq_refl) as (s3 & Hr3 & K3 & Hq3 & Hl3 & S3 & _).
  rewrite <- Hq3 in Ha2.
  destruct (put_runs 0 [] s3 a _ K3 Ha2) as (s4 & Hr4 & K4 & P4 & _); [done|].
  exists (k_len r), s4. split; [|apply (good_steady s); [done..|]].
  - rewrite (bind4 _ _ _ _ _ _ _ _ Hr2), (bind_Ok _ _ _ _ _ Hr3), (bind_Ok _ _ _ _ _ Hr4). done.
  - eapply steady_trans; [exact S2|]. eapply steady_trans; [exact S3|].
    by apply (put_post_steady _ _ a); [done|exists r'].
Qed.

(** ** Writing *)
Lemma good_write_done s d a r err nbytes : good s -> kreqs s !! a = Some r -> copies r d ->
  runs (write_done d a err nbytes) s (fun _ s' => good s').
Proof.
  intros G Ha Hcp. pose proof (gd_inv _ G) as K.
  destruct (copies_dev _ _ _ _ _ _ K Ha Hcp) as [q Hq]. unfold write_done.
  eapply runs_Ok_bind; [by apply load_dev_Ok|]. apply (runs_uncopy s a r); [done|]. cbv beta.
  pose proof (put_turned s a (uncopied r)) as T. set (s1 := put_req a (uncopied r) s) in *.
  set (m := if negb (pq_connected q) then _ else _).
  assert (Hm : exists n s2 r2, m s1 = Ok (n, s2) /\ turned s s2 a r2 (linked s) /\
    calm (set_k_copier NoCopier r) r2 /\ k_locked r2 = false).
  { unfold m. destruct (negb (pq_connected q)); [by exists (- ENOENT), s1, (uncopied r)|].
    destruct (err =? 0); [by exists err, s1, (uncopied r)|]. cbn [negb].
    eexists err, _, (set_k_error (- EIO) (uncopied r)).
    split; [|split; [exact (turned_put _ _ _ _ _ _ T)|by split]].
    by rewrite (bind_Ok _ _ _ _ _ (kupdate_req_Ok _ _ _ _ (turned_self _ _ _ _ _ T))). }
  destruct Hm as (n & s2 & r2 & Hr2 & T2 & Hcm & Hlk). eapply runs_Ok_bind; [exact Hr2|].
  eapply runs_Ok_bind; [apply kload_req_Ok, (turned_self _ _ _ _ _ T2)|].
  apply runs_bind_unassoc. eapply runs_bind; [by apply (copy_over s s2 a r r2 d)|].
  intros [] s' (s3 & E & S & _). apply runs_ret. by apply (good_steady s); [|apply E|].
Qed.

Lemma find_unique_runs unique l : forall s, (forall a, a ∈ l -> is_Some (kreqs s !! a)) ->
  exists o, find_unique unique l s = Ok (o, s) /\
    match o with
    | Some a => a ∈ l /\ exists r, kreqs s !! a = Some r /\ k_unique r = unique
    | None => forall a r, a ∈ l -> kreqs s !! a = Some r -> k_unique r <> unique
    end.
Proof.
  induction l as [|a l IH]; intros s Hl; cbn [find_unique].
  { exists None. split; [done|]. by intros a r ?%elem_of_nil. }
  destruct (Hl a) as [r Ha]; [by left|]. rewrite (bind_Ok _ _ _ _ _ (kload_req_Ok _ _ _ Ha)).
  case (Z.eqb_spec (k_unique r) unique) as [He|Hne].
  { exists (Some a). split; [done|]. split; [by left|by exists r]. }
  destruct (IH s) as ([b|] & Hr & Ho); [intros b Hb; apply Hl; by right| |].
  - exists (Some b). split; [done|]. destruct Ho as [Hb Ho]. split; [by right|done].
  - exists None. split; [done|]. intros b rb [->|Hb]%elem_of_cons Hrb; [congruence|by eapply Ho].
Qed.

Lemma request_find_runs s d q unique : kinv 0 [] s -> devs s !! d = Some q ->
  let h := fuse_req_hash hash_long unique in
  exists o, request_find hash_long d unique s = Ok (o, s) /\
    match o with
    | Some a => exists r, kreqs s !! a = Some r /\ k_place r = OnProcessing d h /\ k_unique r = unique
    | None => forall a r, kreqs s !! a = Some r -> k_place r = OnProcessing d h -> k_unique r <> unique
    end.
Proof.
  intros K Hq h. unfold request_find. rewrite (bind_Ok _ _ _ _ _ (load_dev_Ok _ _ _ Hq)). fold h.
  assert (Hl : linked s (OnProcessing d h) = bucket h q) by (cbn; unfold dev_list; by rewrite Hq).
  destruct (find_unique_runs unique (bucket h q) s) as (o & Hr & Ho).
  { intros a Ha. apply (ki_mem _ _ _ K (OnProcessing d h)). by rewrite Hl. }
  exists o. split; [done|]. destruct o as [a|].
  - destruct Ho as (Hi & r & Ha & Hu). exists r. split; [done|]. split; [|done].
    rewrite <- Hl in Hi. by destruct (proj1 (rk_lists _ _ _ _ _ (ki_req _ _ _ K a r Ha) _) Hi).
  - intros a r Ha Hp. apply (Ho a r); [|done]. rewrite <- Hl.
    apply (rk_lists _ _ _ _ _ (ki_req _ _ _ K a r Ha)). by rewrite Hp.
Qed.

Lemma kinv_get e fly s a r : kinv e fly s -> kreqs s !! a = Some r -> k_place r <> Nowhere ->
  kinv e (a :: fly) (put_req a (set_k_count (k_count r + 1) r) s).
Proof.
  intros K Ha Hp. pose proof (put_turned s a (set_k_count (k_count r + 1) r)) as T.
  apply (kinv_relisted e fly (a :: fly) s _ a r (set_k_count (k_count r + 1) r) (linked s) K Ha T); try done.
  - apply same_relisted; [apply (ki_nodup _ _ _ K)|]. apply (rk_lists _ _ _ _ _ (ki_req _ _ _ K a r Ha)).
  - intros b Hb. by rewrite count_cons, decide_False.
  - intros R. apply (rok_core s); [done|by apply linked_put| |apply (ki_objs _ _ _ K)|apply (ki_even _ _ _ K)].
    krok R. split; unfold waits, held, copies, numbered, on_bg in *; kred; try done.
    + rewrite count_cons, (decide_True (P := a = a)) by done. lia.
    + intros Hs. destruct (Rsent Hs) as [|[]]; [by left|]. right. split; [done|by right].
Qed.

Lemma no_interrupt_step e fly s : kinv e fly s ->
  let s' := set_fc (set_no_interrupt true (fc s)) s in kinv e fly s' /\ steady s s'.
Proof.
  intros K s'. split.
  - apply (kinv_inert _ _ s); [done|]. split; unfold s'; kred; try done; try lia.
    + by left.
    + pose proof (ki_objs _ _ _ K). lia.
    + split; [lia|apply (ki_even _ _ _ K)].
  - split; [done| |done]. exists []. by rewrite app_nil_r.
Qed.

Lemma write_interrupt_runs s a r nbytes error : kinv 0 [] s -> kreqs s !! a = Some r ->
  k_place r <> Nowhere -> queued (k_place r) = false ->
  runs (write_interrupt a nbytes error) s (fun _ s' => kinv 0 [] s' /\ steady s s').
Proof.
  intros K Ha Hp Hpl. unfold write_interrupt. eapply runs_Ok_bind; [by apply kupdate_req_Ok|].
  set (r1 := set_k_count (k_count r + 1) r). set (s1 := put_req a r1 s).
  pose proof (kinv_get 0 [] s a r K Ha Hp : kinv 0 [a] s1) as K1.
  pose proof (put_steady s a r r1 Ha : steady s s1) as S1.
  assert (Ha1 : kreqs s1 !! a = Some r1) by apply lookup_insert_eq.
  set (m := if negb (nbytes =? SIZEOF_OUT_HEADER) then _ else _).
  assert (Hm : exists n s2, m s1 = Ok (n, s2) /\ kinv 0 [a] s2 /\ kreqs s2 = kreqs s1 /\ steady s1 s2).
  { unfold m. destruct (negb (nbytes =? SIZEOF_OUT_HEADER)); [by exists (- EINVAL), s1; split_and!; auto using steady_refl|].
    destruct (error =? - ENOSYS).
    - destruct (no_interrupt_step 0 [a] s1 K1) as [K2 S2]. eexists 0, _. by split.
    - destruct (error =? - EAGAIN); [|by exists 0, s1; split_and!; auto using steady_refl].
      destruct (queue_interrupt_runs 0 [a] s1 a r1 K1 Ha1 Hpl) as (n & s2 & Hr & K2 & Hq & Hl & F & B & _).
      exists n, s2. split_and!; try done. by apply steady_blocked. }
  destruct Hm as (n & s2 & Hr2 & K2 & Hq2 & S2). eapply runs_Ok_bind; [exact Hr2|].
  rewrite <- Hq2 in Ha1. destruct (put_runs 0 [] s2 a r1 K2 Ha1) as (s3 & Hr3 & K3 & P3 & _); [done|].
  eapply runs_Ok_bind; [exact Hr3|]. apply runs_ret. split; [done|].
  eapply steady_trans; [exact S1|]. eapply steady_trans; [exact S2|].
  by apply (put_post_steady _ _ a); [|exists r1].
Qed.

(** The request to which an answer came: it moves to [io] and is locked. *)
Definition answered d (oh : out_header) r : kreq :=
  set_k_copier (Writer d) (set_k_locked true (set_k_error (oh_error oh)
    (set_k_place (OnIo d) (set_k_sent false r)))).

Lemma answer_runs s d h a r oh : kinv 0 [] s -> kreqs s !! a = Some r ->
  k_place r = OnProcessing d h -> exists s',
  (forall B (k : L B), (update_req a (set_k_sent false);; list_del a;; list_add a (OnIo d);;
    update_req a (set_k_error (oh_error oh));; update_req a (set_k_locked true);;
    update_req a (set_k_copier (Writer d));; k) s = k s') /\
  kreqs s' !! a = Some (answered d oh r) /\ kinv 0 [] s' /\ steady s s' /\
  turned s s' a (answered d oh r) (fun p => if decide (p = OnIo d)
    then a :: remove_addr a (linked s (OnIo d)) else remove_addr a (linked s p)).
Proof.
  intros K Ha Hp. pose proof (ki_req _ _ _ K a r Ha) as R.
  assert (Hc : k_copier r = NoCopier).
  { destruct (k_copier r) as [|d'|d'] eqn:E; [done|..];
      destruct (rk_copier _ _ _ _ _ R d') as [[]|[]]; try congruence; unfold copies; rewrite E; tauto. }
  assert (Hin : a ∈ linked s (OnProcessing d h)) by by apply R.
  set (r1 := set_k_sent false r).
  destruct (klist_del_runs (put_req a r1 s) a r1) as (s2 & Hr2 & T2); [apply lookup_insert_eq| |].
  { intros p. rewrite linked_put. apply R. }
  assert (T2' : turned s s2 a (set_k_place Nowhere r1) (fun p => remove_addr a (linked s p))).
  { apply (turned_trans _ _ _ _ _ _ _ _ (put_turned s a r1)), (turned_ext _ _ _ _ _ _ T2).
    intros p. by rewrite linked_put. }
  destruct (klist_add_runs s2 a (set_k_place Nowhere r1) (OnIo d)) as (s3 & Hr3 & T3);
    [by apply (turned_self _ _ _ _ _ T2')| |done|].
  { apply (place_ok_fmap s); [|apply (linked_place_ok s (OnProcessing d h) a Hin)].
    pose proof (tn_core _ _ _ _ _ T2') as Hcore. by apply core_rests in Hcore as []. }
  set (g := fun p => if decide (p = OnIo d) then a :: remove_addr a (linked s (OnIo d))
                     else remove_addr a (linked s p)).
  assert (T3' : turned s s3 a (set_k_place (OnIo d) r1) g).
  { apply (turned_trans _ _ _ _ _ _ _ _ T2'), (turned_ext _ _ _ _ _ _ T3). intros p. unfold g.
    by rewrite !(tn_lists _ _ _ _ _ T2'). }
  set (r3 := set_k_place (OnIo d) r1) in *. set (r4 := set_k_error (oh_error oh) r3).
  set (r5 := set_k_locked true r4). set (r6 := set_k_copier (Writer d) r5).
  pose proof (turned_put _ _ _ _ r4 _ T3') as T4. pose proof (turned_put _ _ _ _ r5 _ T4) as T5.
  pose proof (turned_put _ _ _ _ r6 _ T5) as T6.
  exists (put_req a r6 (put_req a r5 (put_req a r4 s3))).
  assert (L6 : relisted s a (OnIo d) g).
  { apply (add_relisted s a (OnIo d) (fun p => remove_addr a (linked s p))); [done|].
    apply del_relisted, (ki_nodup _ _ _ K). }
  split; [|split; [by apply (turned_self _ _ _ _ _ T6)|split; [|split; [|exact T6]]]].
  - intros B k. rewrite (bind_Ok _ _ _ _ _ (kupdate_req_Ok _ _ _ _ Ha)). fold r1.
    rewrite (bind_Ok _ _ _ _ _ Hr2), (bind_Ok _ _ _ _ _ Hr3).
    rewrite (bind_Ok _ _ _ _ _ (kupdate_req_Ok _ r3 _ _ (turned_self _ _ _ _ _ T3'))).
    rewrite (bind_Ok _ _ _ _ _ (kupdate_req_Ok _ r4 _ _ (turned_self _ _ _ _ _ T4))).
    by rewrite (bind_Ok _ _ _ _ _ (kupdate_req_Ok _ r5 _ _ (turned_self _ _ _ _ _ T5))).
  - assert (Hpe : k_pending r = false).
    { destruct (k_pending r) eqn:E; [|done]. pose proof (rk_pending _ _ _ _ _ R E) as H. by rewrite Hp in H. }
    assert (Hpv : k_private r = false).
    { destruct (k_private r) eqn:E; [|done]. pose proof (rk_private _ _ _ _ _ R E). congruence. }
    assert (Hfin : k_finished r = false) by (apply (rk_live _ _ _ _ _ R); congruence).
    assert (K2 : kinv 0 [a] s2).
    { apply (kinv_taken 0 [] s s2 a r (set_k_place Nowhere r1) (fun p => remove_addr a (linked s p))); try done;
        [congruence|congruence|]. apply del_relisted, (ki_nodup _ _ _ K). }
    assert (T6' : turned s2 (put_req a r6 (put_req a r5 (put_req a r4 s3))) a r6 g).
    { destruct T2' as [H1 H2 H3], T6 as [H4 H5 H6]. split; [|congruence|done].
      rewrite H4, H1. by rewrite insert_insert_eq. }
    apply (kinv_copying 0 [] s2 _ a (set_k_place Nowhere r1) r6 d g K2); try done.
    + by apply (turned_self _ _ _ _ _ T2').
    + by apply not_elem_of_nil.
    + by right.
    + destruct L6 as [H1 H2 H3]. split; [|done|done]. intros p b Hb. rewrite H1 by done.
      rewrite (tn_lists _ _ _ _ _ T2'), remove_addr_in. naive_solver.
  - apply (turned_steady _ _ _ _ _ T6).
    + unfold g. rewrite decide_False by done. apply remove_addr_id. intros Hi.
      apply (rk_lists _ _ _ _ _ R) in Hi as [Hi _]. congruence.
    + unfold g. rewrite decide_False by done. by intros b [_ Hb]%remove_addr_in.
Qed.

Lemma calm_args r args : (args_ok (k_args r) -> args_ok args) -> calm r (set_k_args args r).
Proof. by split. Qed.

Lemma copy_out_args args nbytes args' : copy_out_sizes args nbytes = Some args' ->
  args_ok args -> args_ok args'.
Proof.
  unfold copy_out_sizes, args_ok. intros H Hok. destruct ((_ <? nbytes) || _); [done|].
  destruct (nbytes <? _); [|by injection H as <-].
  destruct (last (out_args args)) as [[size v]|] eqn:Hl; [|done].
  destruct (size <? _); [done|]. injection H as <-. cbn. intros Hv Hn. apply (Hok Hv).
  unfold set_last_size in Hn. apply (f_equal length) in Hn. rewrite length_alter in Hn.
  by apply nil_length_inv in Hn.
Qed.

Definition write_safe s' d (o : write_result) : Prop :=
  good s' /\ forall a, o = CopiesOut a ->
    exists r, kreqs s' !! a = Some r /\ k_place r = OnIo d /\ k_copier r = Writer d /\ k_locked r = true.

Lemma write_reply_runs s d h a r oh nbytes : good s -> kreqs s !! a = Some r ->
  k_place r = OnProcessing d h ->
  runs (write_reply d a oh nbytes) s (fun o s' => write_safe s' d o).
Proof.
  intros G Ha Hp. destruct (answer_runs s d h a r oh (gd_inv _ G) Ha Hp) as (s1 & Hr & Ha1 & K1 & S1 & _).
  pose proof (good_steady _ _ G K1 S1) as G1. unfold write_reply, runs. rewrite Hr.
  assert (Hcp : copies (answered d oh r) d) by by right.
  assert (Hdone : forall err, runs (ret ← write_done d a err nbytes; mret (Written ret)) s1
    (fun o s' => write_safe s' d o)).
  { intros err. eapply runs_bind; [by apply (good_write_done s1 d a (answered d oh r) err nbytes)|].
    intros x s' G'. apply runs_ret. by split. }
  destruct (oh_error oh =? 0); cbn [negb]; [|apply Hdone].
  eapply runs_Ok_bind; [by apply kload_req_Ok|].
  destruct (copy_out_sizes (k_args (answered d oh r)) nbytes) as [args|] eqn:Hs; [|apply Hdone].
  eapply runs_Ok_bind; [by apply kupdate_req_Ok|]. apply runs_ret. split.
  - apply (good_steady s1); [done| |by apply (put_steady _ _ _ _ Ha1)].
    apply (kinv_calm _ _ _ _ _ _ K1 Ha1), calm_args. by apply (copy_out_args _ _ _ Hs).
  - intros b [= <-]. eexists. split; [apply lookup_insert_eq|done].
Qed.

Lemma good_do_write s d copied nbytes : good s -> is_Some (devs s !! d) ->
  runs (fuse_dev_do_write hash_long d copied nbytes) s (fun o s' => write_safe s' d o).
Proof.
  intros G [q Hq]. unfold fuse_dev_do_write.
  assert (Hret : forall o, (forall a, o <> CopiesOut a) -> runs (mret o) s (fun o s' => write_safe s' d o)).
  { intros o Ho. apply runs_ret. split; [done|]. intros a Ha. by destruct (Ho a). }
  destruct (nbytes <? SIZEOF_OUT_HEADER); [by apply Hret|].
  destruct copied as [e|oh]; [by apply Hret|].
  destruct (negb (oh_len oh =? nbytes)); [by apply Hret|].
  destruct (oh_unique oh =? 0); [by apply Hret|].
  destruct ((oh_error oh <=? -512) || (0 <? oh_error oh)); [by apply Hret|].
  eapply runs_Ok_bind; [by apply load_dev_Ok|].
  destruct (pq_connected q); [|apply runs_ret_bind; by apply Hret].
  destruct (request_find_runs s d q (Z.land (oh_unique oh) (Z.lnot FUSE_INT_REQ_BIT)) (gd_inv _ G) Hq)
    as (o & Hr & Ho). eapply runs_Ok_bind; [exact Hr|].
  destruct o as [a|]; [|by apply Hret]. destruct Ho as (r & Ha & Hp & _).
  destruct (Z.land (oh_unique oh) FUSE_INT_REQ_BIT =? 0); cbn [negb].
  - by eapply write_reply_runs.
  - eapply runs_bind; [apply (write_interrupt_runs s a r); [apply G|done|congruence|by rewrite Hp]|].
    intros x s' [K' S']. apply runs_ret. split; [by apply (good_steady s)|done].
Qed.
End Hash.
