(* ===== verification/KAbort.v ===== *)
(** * Locks of requests, and the end of the connection *)
From S2P Require Import Prelude KTypes KForget KForgetFacts KQueue KInv KSteps KMoves KRead KWrite.
#[local] Open Scope Z_scope.

#[local] Abbreviation L := (M kernel).
Implicit Types (s : kernel) (m : gmap Z kreq) (a b d : Z) (r : kreq) (fly : list Z).

(** ** Locking *)
Lemma good_calm s a r r' : good s -> kreqs s !! a = Some r -> calm r r' -> good (put_req a r' s).
Proof.
  intros G Ha Hc. apply (good_steady s); [done| |by apply (put_steady _ _ r)].
  by apply (kinv_calm _ _ _ _ r); [apply G|..].
Qed.

Lemma good_lock s a r d : good s -> kreqs s !! a = Some r -> copies r d ->
  runs (lock_request a) s (fun _ s' => good s').
Proof.
  intros G Ha Hc. unfold lock_request. eapply runs_Ok_bind; [by apply kload_req_Ok|].
  destruct (k_aborted r) eqn:Hab; [by apply runs_ret|].
  eapply runs_Ok_bind; [by apply kupdate_req_Ok|]. apply runs_ret.
  pose proof (gd_inv _ G) as K. pose proof (ki_req _ _ _ K a r Ha) as R.
  assert (Hp : k_place r = OnIo d).
  { destruct (rk_copier _ _ _ _ _ R d Hc) as [[]|(_ & Hpv & _)]; [done|].
    pose proof (rk_aborted _ _ _ _ _ R Hpv). congruence. }
  apply (good_steady s); [done| |by apply (put_steady _ _ r)].
  apply (kinv_relisted 0 [] [] s _ a r (set_k_locked true r) (linked s) K Ha (put_turned _ _ _)); try done.
  - apply same_relisted; [apply (ki_nodup _ _ _ K)|apply R].
  - intros R'. apply (rok_core s); [done|by apply linked_put| |apply (ki_objs _ _ _ K)|apply (ki_even _ _ _ K)].
    krok R'. split; unfold waits, held, copies, numbered, on_bg in *; kred; try done. intros _. by exists d.
Qed.

Lemma good_unlock s a r : good s -> kreqs s !! a = Some r ->
  runs (unlock_request a) s (fun _ s' => good s').
Proof.
  intros G Ha. unfold unlock_request. eapply runs_Ok_bind; [by apply kload_req_Ok|].
  destruct (k_aborted r); [by apply runs_ret|].
  eapply runs_Ok_bind; [by apply kupdate_req_Ok|]. apply runs_ret.
  apply (good_calm _ _ r); [done..|]. by split.
Qed.

(** ** Taking requests off their lists *)
(** What stays the same: everything but requests, lists, and the [connected] flags of
    devices. *)
Definition shell s := (blank (fc s), dom (devs s), links s, kobjs s, koks s, ended s).

(** The requests [X] have left the lists. *)
Record parks s s' (X : list Z) : Prop := mk_parks {
  pk_lists : forall p, linked s' p = filter (fun b => b ∉ X) (linked s p);
  pk_shell : shell s' = shell s;
  pk_offline : forall d, offline s d -> offline s' d;
  pk_connected : forall d q', devs s' !! d = Some q' -> pq_connected q' = true ->
    exists q, devs s !! d = Some q /\ pq_connected q = true;
}.

Lemma filter_all (P : Z -> Prop) `{!forall x, Decision (P x)} (l : list Z) : (forall b, b ∈ l -> P b) -> filter P l = l.
Proof.
  induction l as [|b l IH]; intros Hall; [done|]. rewrite filter_cons_True by (apply Hall; by left).
  rewrite IH; [done|]. intros c Hc. apply Hall. by right.
Qed.

Lemma core_shell s s' : core s' = core s -> shell s' = shell s.
Proof.
  unfold core, shell. fold (blank (fc s')) (blank (fc s)). rewrite !pair_equal_spec.
  intros (((((H1 & H2) & H3) & H4) & H5) & H6). split_and!; try done.
  apply (f_equal dom) in H2. by rewrite !dom_fmap_L in H2.
Qed.

Lemma core_connected s s' d q' : core s' = core s -> devs s' !! d = Some q' -> pq_connected q' = true ->
  exists q, devs s !! d = Some q /\ pq_connected q = true.
Proof.
  intros Hc Hq Ht. kcore Hc. pose proof (f_equal (fun x => x !! d) Epq) as He. cbn in He.
  rewrite !lookup_fmap, Hq in He. destruct (devs s !! d) as [q|]; [|done]. exists q.
  cbn in He. injection He as He. by split; [|rewrite <- He].
Qed.

Lemma core_parks s s' X : core s' = core s ->
  (forall p, linked s' p = filter (fun b => b ∉ X) (linked s p)) -> parks s s' X.
Proof.
  intros Hc Hl. split; [done|by apply core_shell| |].
  - intros d. apply offline_fmap. by kcore Hc.
  - intros d q' Hq. by apply (core_connected s s' d q').
Qed.

Lemma parks_refl s : parks s s [].
Proof.
  apply core_parks; [done|]. intros p. symmetry. apply filter_all. intros b _. apply not_elem_of_nil.
Qed.

Lemma parks_trans s s1 s2 X Y : parks s s1 X -> parks s1 s2 Y -> parks s s2 (Y ++ X).
Proof.
  intros [L1 S1 O1 C1] [L2 S2 O2 C2]. split; [|congruence|auto|].
  - intros p. rewrite L2, L1. rewrite list_filter_filter. apply list_filter_iff. intros b.
    rewrite not_elem_of_app. tauto.
  - intros d q' Hq Ht. destruct (C2 d q' Hq Ht) as (q & Hq2 & Ht2). by apply (C1 d q).
Qed.

Lemma parks_mem s s' X X' : parks s s' X -> (forall b, b ∈ X <-> b ∈ X') -> parks s s' X'.
Proof.
  intros [L1 S1 O1 C1] H. split; [|done..]. intros p. rewrite L1. apply list_filter_iff. intros b. by rewrite H.
Qed.

(** A request that is on no list. *)
Lemma parked_place e fly s a r : kinv e fly s -> kreqs s !! a = Some r -> (forall p, a ∉ linked s p) ->
  k_place r = Nowhere.
Proof.
  intros K Ha Hn. destruct (decide (k_place r = Nowhere)) as [|Hp]; [done|].
  destruct (Hn (k_place r)). by apply (rk_lists _ _ _ _ _ (ki_req _ _ _ K a r Ha)).
Qed.

Lemma remove_addr_filter a (l : list Z) : remove_addr a l = filter (fun b => b ∉ [a]) l.
Proof. apply list_filter_iff. intros b. by rewrite not_elem_of_cons; split; [intros; split; [|apply not_elem_of_nil]|intros []]. Qed.

(** A request that may be taken: nobody copies it, and it is not marked as pending. *)
Definition takeable r : Prop :=
  k_pending r = false /\ (k_place r = OnPending \/ exists d h, k_place r = OnProcessing d h).

Lemma list_del_all_runs l : forall s fly, kinv 0 fly s -> NoDup l ->
  (forall a, a ∈ l -> exists r, kreqs s !! a = Some r /\ takeable r) ->
  runs (list_del_all l) s (fun _ s' => kinv 0 (l ++ fly) s' /\ parks s s' l /\ core s' = core s /\
    forall b, b ∉ l -> kreqs s' !! b = kreqs s !! b).
Proof.
  induction l as [|a l IH]; intros s fly K Hnd Hl; cbn [list_del_all].
  { apply runs_ret. split; [done|]. by split; [apply parks_refl|]. }
  apply NoDup_cons in Hnd as [Hal Hnd]. destruct (Hl a) as (r & Ha & Hpe & Hp); [by left|].
  pose proof (ki_req _ _ _ K a r Ha) as R.
  assert (Hne : k_place r <> Nowhere /\ k_place r <> OnBg /\ k_copier r = NoCopier).
  { destruct (k_copier r) as [|d|d] eqn:E; [split_and!; [destruct Hp as [->|(? & ? & ->)]; done..|done]|..];
      destruct (rk_copier _ _ _ _ _ R d) as [[]|[]]; try (unfold copies; rewrite E; tauto);
      destruct Hp as [?|(? & ? & ?)]; congruence. }
  destruct Hne as (Hn1 & Hn2 & Hc).
  destruct (klist_del_runs s a r Ha (rk_lists _ _ _ _ _ R)) as (s1 & Hr & T).
  eapply runs_Ok_bind; [exact Hr|].
  assert (K1 : kinv 0 (a :: fly) s1).
  { apply (kinv_taken 0 fly s s1 a r (set_k_place Nowhere r) (fun p => remove_addr a (linked s p))); try done.
    apply del_relisted, (ki_nodup _ _ _ K). }
  assert (P1 : parks s s1 [a]).
  { apply core_parks; [apply T|]. intros p. rewrite (tn_lists _ _ _ _ _ T). apply remove_addr_filter. }
  eapply runs_mono; [apply (IH s1 (a :: fly) K1 Hnd)|].
  - intros b Hb. destruct (Hl b) as (rb & Hrb & Ht); [by right|]. exists rb. split; [|done].
    rewrite (turned_other _ _ _ _ _ _ T); [done|]. by intros ->.
  - intros [] s' (K' & P' & C' & F'). split; [|split; [|split; [by rewrite C'; apply T|]]].
    + apply (kinv_perm _ (l ++ a :: fly)); [|done]. by rewrite <- Permutation_middle.
    + apply (parks_mem _ _ (l ++ [a])); [by apply (parks_trans _ s1)|].
      intros b. rewrite elem_of_app, list_elem_of_singleton, elem_of_cons. tauto.
    + intros b [Hb1 Hb2]%not_elem_of_cons. rewrite F' by done. by apply (turned_other _ _ _ _ _ _ T).
Qed.

(** ** Aborting *)
Definition doomed r : kreq := set_k_aborted true (set_k_error (- ECONNABORTED) r).
Lemma calm_doomed r : calm r (doomed r).
Proof. by split. Qed.

(** A request that is not locked becomes the aborting thread's own. *)
Lemma abort_one s a r d fly : kinv 0 fly s -> kreqs s !! a = Some r -> k_place r = OnIo d ->
  k_locked r = false -> k_aborted r = true -> offline s d -> a ∉ fly -> exists s1,
  (update_req a (set_k_private true);; get_request a;; list_del a) s = Ok (tt, s1) /\
  kinv 0 (a :: fly) s1 /\ parks s s1 [a] /\ (forall b, b <> a -> kreqs s1 !! b = kreqs s !! b).
Proof.
  intros K Ha Hp Hlk Hab Hoff Hnf. pose proof (ki_req _ _ _ K a r Ha) as R.
  set (r1 := set_k_private true r). set (r2 := set_k_count (k_count r1 + 1) r1). set (r3 := set_k_place Nowhere r2).
  rewrite (bind_Ok _ _ _ _ _ (kupdate_req_Ok _ _ _ _ Ha)). fold r1.
  unfold get_request. rewrite (bind_Ok _ _ _ _ _ (kupdate_req_Ok a r1 _ _ (lookup_insert_eq _ _ _))). fold r2.
  destruct (klist_del_runs (put_req a r2 (put_req a r1 s)) a r2) as (s1 & Hr & T); [apply lookup_insert_eq| |].
  { intros p. rewrite !linked_put. apply R. }
  exists s1. split; [exact Hr|]. fold r3 in T.
  assert (T' : turned s s1 a r3 (fun p => remove_addr a (linked s p))).
  { apply (turned_trans _ _ _ _ _ _ _ _ (put_turned s a r1)).
    apply (turned_trans _ _ _ _ _ _ _ _ (put_turned _ a r2)), (turned_ext _ _ _ _ _ _ T).
    intros p. by rewrite !linked_put. }
  pose proof (del_relisted s a (ki_nodup _ _ _ K)) as L.
  pose proof (tn_core _ _ _ _ _ T') as Hcore. split; [|split].
  - kcore Hcore. pose proof (rok_lists_turned s s1 a r3 _ T' L) as HL.
    assert (Hon : on_bg r3 = on_bg r) by (rewrite !on_bg_false; [done|congruence|done]).
    apply (kinv_relisted 0 fly (a :: fly) s s1 a r r3 (fun p => remove_addr a (linked s p)) K Ha T' L); try done.
    + intros b Hb. by rewrite count_cons, decide_False.
    + intros _. assert (Hcp : copies r d) by (by apply (rk_io _ _ _ _ _ R)).
      assert (Hcn : k_copier r <> NoCopier) by (destruct Hcp; congruence).
      assert (Hof' : offline s1 d) by (by apply (offline_fmap s)).
      krok R. split; unfold waits, held, copies, numbered in *; rewrite ?Hon, ?Eobjs, ?Eintr, ?Eend, ?Ectr in *;
        unfold r3, r2, r1; kred; rewrite ?Hp in *; try done.
      * rewrite count_cons, (decide_True (P := a = a)) by done.
        rewrite (decide_False (P := Nowhere = Nowhere /\ _)) by (by intros []).
        rewrite (decide_False (P := OnIo d = Nowhere /\ _)) in Rcount by (by intros []). lia.
      * intros _ Hx. destruct Hx. by left.
      * intros _. right. split; [done|by left].
      * intros d' Hd'. right. split; [done|]. split; [done|].
        replace d' with d; [done|]. destruct Hcp, Hd'; congruence.
      * congruence.
    + unfold numbered. rewrite Hon. done.
  - apply core_parks; [done|]. intros p. rewrite (tn_lists _ _ _ _ _ T'). apply remove_addr_filter.
  - intros b Hb. by apply (turned_other _ _ _ _ _ _ T').
Qed.

Lemma bind3 {A B C E} (m : L A) (k1 : L B) (k2 : L C) (k : L E) s x s' :
  (m;; k1;; k2) s = Ok (x, s') -> (m;; k1;; k2;; k) s = k s'.
Proof.
  unfold mbind, M_bind. destruct (m s) as [[? s1]|]; [|done]. destruct (k1 s1) as [[? s2]|]; [|done].
  intros H. by rewrite H.
Qed.

(** The requests of [l] on the list [io] of [d], an offline device. *)
Definition on_io s d (l : list Z) : Prop :=
  NoDup l /\ offline s d /\ forall a, a ∈ l -> a ∈ linked s (OnIo d).

Lemma put_parks s a r : parks s (put_req a r s) [].
Proof.
  apply core_parks; [done|]. intros p. rewrite linked_put. symmetry. apply filter_all.
  intros b _. apply not_elem_of_nil.
Qed.

Record io_parked s s' d (l te te' X fly : list Z) : Prop := mk_io_parked {
  ip_end : te' = X ++ te;
  ip_kinv : kinv 0 (te' ++ fly) s';
  ip_parks : parks s s' X;
  ip_nodup : NoDup X;
  ip_sub : forall a, a ∈ X -> a ∈ l;
  ip_locked : forall a, a ∈ l -> a ∉ X -> exists r, kreqs s' !! a = Some r /\ k_locked r = true;
  ip_other : forall b, b ∉ l -> kreqs s' !! b = kreqs s !! b;
}.

Lemma abort_io_runs d l : forall s te fly, kinv 0 (te ++ fly) s -> on_io s d l ->
  (forall a, a ∈ l -> a ∉ te ++ fly) ->
  runs (abort_io l te) s (fun te' s' => exists X, io_parked s s' d l te te' X fly).
Proof.
  induction l as [|a l IH]; intros s te fly K (Hnd & Hoff & Hin) Hnf; cbn [abort_io].
  { apply runs_ret. exists []. split; first [done | apply parks_refl | apply NoDup_nil_2 | by intros a ?%elem_of_nil]. }
  apply NoDup_cons in Hnd as [Hal Hnd]. assert (Hi : a ∈ linked s (OnIo d)) by (apply Hin; by left).
  destruct (ki_mem _ _ _ K _ _ Hi) as [r Ha]. pose proof (ki_req _ _ _ K a r Ha) as R.
  assert (Hp : k_place r = OnIo d) by (by destruct (proj1 (rk_lists _ _ _ _ _ R (OnIo d)) Hi)).
  set (r1 := set_k_error (- ECONNABORTED) r).
  eapply runs_Ok_bind; [by apply kupdate_req_Ok|]. fold r1.
  eapply runs_Ok_bind; [apply (kupdate_req_Ok a r1), lookup_insert_eq|].
  assert (Heq : put_req a (set_k_aborted true r1) (put_req a r1 s) = put_req a (doomed r) s).
  { unfold put_req. kred. by rewrite insert_insert_eq. }
  rewrite Heq. set (s1 := put_req a (doomed r) s).
  assert (Ha1 : kreqs s1 !! a = Some (doomed r)) by apply lookup_insert_eq.
  assert (Hoth1 : forall b, b <> a -> kreqs s1 !! b = kreqs s !! b).
  { intros b Hb. unfold s1. kred. by rewrite lookup_insert_ne by congruence. }
  pose proof (kinv_calm _ _ _ _ _ _ K Ha (calm_doomed r) : kinv 0 (te ++ fly) s1) as K1.
  pose proof (put_parks s a (doomed r) : parks s s1 []) as P1.
  assert (Hon1 : forall s2 X, parks s1 s2 X -> (forall b, b ∈ l -> b ∉ X) -> on_io s2 d l).
  { intros s2 X P2 Hx. split; [done|]. split; [by apply (pk_offline _ _ _ P2), (pk_offline _ _ _ P1)|].
    intros b Hb. rewrite (pk_lists _ _ _ P2). apply list_elem_of_filter. split; [by apply Hx|].
    unfold s1. rewrite linked_put. apply Hin. by right. }
  eapply runs_Ok_bind; [by apply kload_req_Ok|].
  destruct (k_locked (doomed r)) eqn:Hlk; cbn [negb].
  - eapply runs_mono; [apply (IH s1 te fly K1)|].
    + apply (Hon1 s1 []); [apply parks_refl|]. intros b _. apply not_elem_of_nil.
    + intros b Hb. apply Hnf. by right.
    + intros te' s' (X & [-> K' P' HX Hsub Hrest Hoth]). exists X. split; try done.
      * apply (parks_mem _ _ (X ++ [])); [by apply (parks_trans _ s1)|]. intros b. by rewrite app_nil_r.
      * intros b Hb. right. by apply Hsub.
      * intros b [->|Hb]%elem_of_cons HbX; [|by apply Hrest]. exists (doomed r).
        by rewrite Hoth by done.
      * intros b [Hb1 Hb2]%not_elem_of_cons. rewrite Hoth by done. by apply Hoth1.
  - destruct (abort_one s1 a (doomed r) d (te ++ fly) K1 Ha1 Hp Hlk) as (s2 & Hr2 & K2 & P2 & Hoth2);
      [done|by apply (pk_offline _ _ _ P1)|apply Hnf; by left|].
    unfold runs. rewrite (bind3 _ _ _ _ _ _ _ Hr2).
    change (runs (abort_io l (a :: te)) s2 (fun te' s' => exists X, io_parked s s' d (a :: l) te te' X fly)).
    assert (Hla : forall b, b ∈ l -> b <> a) by (by intros b Hb ->).
    eapply runs_mono; [apply (IH s2 (a :: te) fly K2)|].
    + apply (Hon1 s2 [a] P2). intros b Hb ->%list_elem_of_singleton. done.
    + intros b Hb [->|Hx]%elem_of_cons; [done|]. apply (Hnf b); [by right|done].
    + intros te' s' (X & [-> K' P' HX Hsub Hrest Hoth]). exists (X ++ [a]). split.
      * by rewrite <- app_assoc.
      * done.
      * apply (parks_mem _ _ ((X ++ [a]) ++ [])); [apply (parks_trans _ s1); [done|]; by apply (parks_trans _ s2)|].
        intros b. rewrite app_nil_r. done.
      * apply NoDup_app. split; [done|]. split; [|apply NoDup_singleton].
        intros b Hb ->%list_elem_of_singleton. by apply Hal, Hsub.
      * intros b [Hb| ->%list_elem_of_singleton]%elem_of_app; [right; by apply Hsub|by left].
      * intros b [->|Hb]%elem_of_cons HbX; apply not_elem_of_app in HbX as [HbX HbY].
        -- destruct HbY. by left.
        -- by apply Hrest.
      * intros b [Hb1 Hb2]%not_elem_of_cons. rewrite Hoth by done. rewrite Hoth2 by done. by apply Hoth1.
Qed.

(** ** All devices *)
Lemma disconnect_runs s d q fly : kinv 0 fly s -> devs s !! d = Some q -> exists s1,
  update_dev d (set_pq_connected false) s = Ok (tt, s1) /\ kinv 0 fly s1 /\ parks s s1 [] /\
  offline s1 d /\ kreqs s1 = kreqs s /\ devs s1 !! d = Some (set_pq_connected false q).
Proof.
  intros K Hq. eexists. split; [by apply update_dev_Ok|]. set (s1 := set_devs _ s).
  assert (Hself : devs s1 !! d = Some (set_pq_connected false q)) by apply lookup_insert_eq.
  assert (Hother : forall d', d' <> d -> devs s1 !! d' = devs s !! d').
  { intros d' Hd. unfold s1. kred. by rewrite lookup_insert_ne by congruence. }
  assert (Hl : forall p, linked s1 p = linked s p).
  { intros [| | |d'|d' h]; try done; cbn; unfold dev_list;
      (destruct (decide (d' = d)) as [->|Hne]; [by rewrite Hself, Hq|by rewrite Hother]). }
  assert (Hoff : forall d', offline s d' -> offline s1 d').
  { intros d' (q' & Hq' & Hf). destruct (decide (d' = d)) as [->|Hne]; [by eexists|].
    exists q'. by rewrite Hother. }
  split_and!; try done.
  - apply (kinv_inert _ _ s); [done|]. pose proof (ki_objs _ _ _ K).
    split; unfold s1; kred; try done; try lia; [by left|]. split; [lia|apply (ki_even _ _ _ K)].
  - split; [| |done|].
    + intros p. rewrite Hl. symmetry. apply filter_all. intros b _. apply not_elem_of_nil.
    + unfold shell. do 4 f_equal. f_equal. unfold s1. kred. rewrite dom_insert_L.
      apply subseteq_union_1_L, singleton_subseteq_l, elem_of_dom. by exists q.
    + intros d' q' Hq' Ht. destruct (decide (d' = d)) as [->|Hne]; [|rewrite Hother in Hq' by done; eauto].
      rewrite Hself in Hq'. injection Hq' as <-. done.
  - by eexists.
Qed.

Lemma elem_concat_map {A} (f : A -> list Z) l a :
  a ∈ concat (map f l) <-> exists x, x ∈ l /\ a ∈ f x.
Proof.
  induction l as [|x l IH]; cbn.
  - split; [by intros ?%elem_of_nil|by intros (x & Hx%elem_of_nil & _)].
  - rewrite elem_of_app, IH. split.
    + intros [Ha|(y & Hy & Ha)]; [exists x|exists y]; (split; [|done]); [by left|by right].
    + intros (y & [->|Hy]%elem_of_cons & Ha); [by left|right; by exists y].
Qed.

Lemma NoDup_concat_map {A} (f : A -> list Z) l : NoDup l -> (forall x, x ∈ l -> NoDup (f x)) ->
  (forall x y a, x ∈ l -> y ∈ l -> a ∈ f x -> a ∈ f y -> x = y) -> NoDup (concat (map f l)).
Proof.
  induction l as [|x l IH]; intros Hnd Hf Hd; cbn; [apply NoDup_nil_2|].
  apply NoDup_cons in Hnd as [Hx Hnd]. apply NoDup_app. split; [apply Hf; by left|]. split.
  - intros a Ha (y & Hy & Hay)%elem_concat_map. apply Hx.
    replace x with y; [done|]. apply (Hd y x a); [by right|by left|done|done].
  - apply IH; [done|intros y Hy; apply Hf; by right|].
    intros y z a Hy Hz. apply Hd; by right.
Qed.

(** The requests in the buckets of a device. *)
Lemma buckets_linked s d q a : devs s !! d = Some q ->
  a ∈ concat (buckets q) <-> exists h, (h < FUSE_PQ_HASH_SIZE)%nat /\ a ∈ linked s (OnProcessing d (Z.of_nat h)).
Proof.
  intros Hq. unfold buckets. rewrite elem_concat_map. cbn [linked]. unfold dev_list. rewrite Hq.
  split; intros (h & Hh & Ha); exists h; (split; [|done]).
  - apply elem_of_seq in Hh. lia.
  - apply elem_of_seq. lia.
Qed.

Lemma buckets_nodup s d q fly e : kinv e fly s -> devs s !! d = Some q -> NoDup (concat (buckets q)).
Proof.
  intros K Hq.
  assert (Hb : forall h, bucket h q = linked s (OnProcessing d h)) by (intros h; cbn; unfold dev_list; by rewrite Hq).
  apply NoDup_concat_map; [apply NoDup_seq|intros h _; rewrite Hb; apply (ki_nodup _ _ _ K)|].
  intros h h' a _ _ Ha Ha'. rewrite Hb in Ha, Ha'. destruct (ki_mem _ _ _ K _ _ Ha) as [r Hr].
  pose proof (ki_req _ _ _ K a r Hr) as R. apply (rk_lists _ _ _ _ _ R) in Ha as [Ha _], Ha' as [Ha' _].
  rewrite <- Ha in Ha'. injection Ha'. lia.
Qed.

Lemma buckets_takeable s d q fly e a : kinv e fly s -> devs s !! d = Some q -> a ∈ concat (buckets q) ->
  exists r, kreqs s !! a = Some r /\ takeable r.
Proof.
  intros K Hq Ha. apply (buckets_linked s d q a Hq) in Ha as (h & _ & Ha).
  destruct (ki_mem _ _ _ K _ _ Ha) as [r Hr]. pose proof (ki_req _ _ _ K a r Hr) as R. exists r.
  pose proof (proj1 (proj1 (rk_lists _ _ _ _ _ R _) Ha)) as Hpl. split; [done|]. split; [|right; eauto].
  destruct (k_pending r) eqn:E; [|done]. pose proof (rk_pending _ _ _ _ _ R E) as Hp. by rewrite <- Hpl in Hp.
Qed.

(** The running thread has taken the requests [te] off their lists. *)
Record hands s (te : list Z) : Prop := mk_hands {
  ha_kinv : kinv 0 te s;
  ha_nodup : NoDup te;
  ha_off : forall a p, a ∈ te -> a ∉ linked s p;
}.

Lemma hands_more s s' te X te' : hands s te -> kinv 0 te' s' -> parks s s' X -> NoDup X ->
  te' ≡ₚ X ++ te -> (forall a, a ∈ X -> exists p, a ∈ linked s p) -> hands s' te'.
Proof.
  intros [_ Hnd Hoff] K P HX Hp HXl. split; [done| |].
  - rewrite Hp. apply NoDup_app. split; [done|]. split; [|done].
    intros a Ha Hte. destruct (HXl a Ha) as [p Hi]. by apply (Hoff a p).
  - intros a p. rewrite Hp, (pk_lists _ _ _ P), list_elem_of_filter. intros Ha [HaX Hi].
    apply elem_of_app in Ha as [Ha|Ha]; [done|]. by apply (Hoff a p).
Qed.

(** The devices [ds] are offline, with nothing left on them but what is locked. *)
Record dead s s' (ds te te' : list Z) : Prop := mk_dead {
  de_hands : hands s' te';
  de_parks : exists X, parks s s' X;
  de_more : forall a, a ∈ te -> a ∈ te';
  de_off : forall d, d ∈ ds -> offline s' d /\
    forall h, (h < FUSE_PQ_HASH_SIZE)%nat -> linked s' (OnProcessing d (Z.of_nat h)) = [];
  de_locked : forall d a, d ∈ ds -> a ∈ linked s' (OnIo d) ->
    exists r, kreqs s' !! a = Some r /\ k_locked r = true;
  de_keep : forall b r, b ∉ te' -> kreqs s !! b = Some r ->
    exists r', kreqs s' !! b = Some r' /\ (k_locked r = true -> k_locked r' = true);
}.

Lemma dead_refl s te : hands s te -> dead s s [] te te.
Proof.
  intros H. split; try done; try (by intros d ?%elem_of_nil); try (by intros d a ?%elem_of_nil).
  - exists []. apply parks_refl.
  - intros b r _ Hr. by exists r.
Qed.

Lemma dead_trans s s1 s2 ds1 ds2 te te1 te2 : dead s s1 ds1 te te1 -> dead s1 s2 ds2 te1 te2 ->
  dead s s2 (ds1 ++ ds2) te te2.
Proof.
  intros [H1 [X1 P1] M1 O1 L1 E1] [H2 [X2 P2] M2 O2 L2 E2]. split; [done| |auto|..].
  - exists (X2 ++ X1). by apply (parks_trans _ s1).
  - intros d [Hd|Hd]%elem_of_app; [|by apply O2]. destruct (O1 d Hd) as [Hof Hb].
    split; [by apply (pk_offline _ _ _ P2)|]. intros h Hh. rewrite (pk_lists _ _ _ P2), Hb by done. done.
  - intros d a [Hd|Hd]%elem_of_app Ha; [|by apply (L2 d)].
    assert (Ha1 : a ∈ linked s1 (OnIo d)).
    { rewrite (pk_lists _ _ _ P2) in Ha. by apply list_elem_of_filter in Ha as [_ Ha]. }
    destruct (L1 d a Hd Ha1) as (r & Hr & Hlk). destruct (E2 a r) as (r' & Hr' & Hlk'); [|done|eauto].
    intros Hi. by apply (ha_off _ _ H2 a (OnIo d) Hi).
  - intros b r Hb Hr. destruct (E1 b r) as (r1 & Hr1 & Hl1); [by intros Hi; apply Hb, M2|done|].
    destruct (E2 b r1 Hb Hr1) as (r2 & Hr2 & Hl2). eauto.
Qed.

Lemma filter_none (P : Z -> Prop) `{!forall x, Decision (P x)} (l : list Z) :
  (forall b, b ∈ l -> ~ P b) -> filter P l = [].
Proof.
  induction l as [|b l IH]; intros Hall; [done|]. rewrite filter_cons_False by (apply Hall; by left).
  apply IH. intros c Hc. apply Hall. by right.
Qed.

Lemma abort_device_runs {B} s d te (k : list Z -> L B) Q : hands s te -> is_Some (devs s !! d) ->
  (forall te' s', dead s s' [d] te te' -> runs (k te') s' Q) ->
  runs (update_dev d (set_pq_connected false);; p ← load_dev d; to_end ← abort_io (pq_io p) te;
        p ← load_dev d; list_del_all (concat (buckets p));; k (to_end ++ concat (buckets p))) s Q.
Proof.
  intros H [q Hq] Hk. pose proof (ha_kinv _ _ H) as K.
  destruct (disconnect_runs s d q te K Hq) as (s1 & Hr1 & K1 & P1 & O1 & Hreq & Hq1).
  eapply runs_Ok_bind; [exact Hr1|]. eapply runs_Ok_bind; [by apply load_dev_Ok|].
  assert (H1 : hands s1 te).
  { apply (hands_more s s1 te [] te); try done; [apply NoDup_nil_2|by intros a ?%elem_of_nil]. }
  assert (Hio : linked s1 (OnIo d) = pq_io q) by (cbn; unfold dev_list; by rewrite Hq1).
  cbn [pq_io set_pq_connected]. rewrite <- Hio.
  eapply runs_bind; [apply (abort_io_runs d _ s1 te []); [by rewrite app_nil_r| |]|].
  { split; [apply (ki_nodup _ _ _ K1)|done]. }
  { intros a Ha. rewrite app_nil_r. intros Hi. by apply (ha_off _ _ H1 a (OnIo d)). }
  intros te2 s2 (X & [-> K2 P2 HX Hsub Hlk Hoth]). rewrite app_nil_r in K2.
  assert (H2 : hands s2 (X ++ te)).
  { apply (hands_more s1 s2 te X); try done. intros a Ha. exists (OnIo d). by apply Hsub. }
  destruct (pk_offline _ _ _ P2 d O1) as (q2 & Hq2 & Hf2). eapply runs_Ok_bind; [by apply load_dev_Ok|].
  set (B2 := concat (buckets q2)).
  eapply runs_bind; [apply (list_del_all_runs B2 s2 _ K2)|].
  { by apply (buckets_nodup s2 d q2 (X ++ te) 0). }
  { intros a Ha. by apply (buckets_takeable s2 d q2 (X ++ te) 0). }
  intros [] s3 (K3 & P3 & _ & F3). apply Hk.
  assert (Hperm : (X ++ te) ++ B2 ≡ₚ B2 ++ X ++ te) by apply Permutation_app_comm.
  split.
  - apply (hands_more s2 s3 (X ++ te) B2); try done.
    + by apply (kinv_perm _ (B2 ++ X ++ te)).
    + by apply (buckets_nodup s2 d q2 (X ++ te) 0).
    + intros a Ha. apply (buckets_linked s2 d q2 a Hq2) in Ha as (h & _ & Ha). eauto.
  - exists (B2 ++ X ++ []). apply (parks_trans _ s2); [by apply (parks_trans _ s1)|done].
  - intros a Ha. rewrite Hperm. apply elem_of_app. right. apply elem_of_app. by right.
  - intros d' ->%list_elem_of_singleton. split; [apply (pk_offline _ _ _ P3); by exists q2|].
    intros h Hh. rewrite (pk_lists _ _ _ P3). apply filter_none. intros b Hb Hn. apply Hn.
    apply (buckets_linked s2 d q2 b Hq2). by exists h.
  - intros d' a ->%list_elem_of_singleton. rewrite (pk_lists _ _ _ P3), (pk_lists _ _ _ P2).
    rewrite !list_elem_of_filter. intros (HB & HaX & Hi). rewrite F3 by done. by apply Hlk.
  - intros b r Hb Hr. rewrite Hperm, !elem_of_app in Hb. rewrite F3 by tauto.
    rewrite <- Hreq in Hr. destruct (decide (b ∈ linked s1 (OnIo d))) as [Hi|Hi].
    + destruct (Hlk b Hi) as (r' & Hr' & Hl'); [tauto|eauto].
    + rewrite Hoth by done. eauto.
Qed.

Lemma abort_devices_runs ds : forall s te, hands s te -> (forall d, d ∈ ds -> is_Some (devs s !! d)) ->
  runs (abort_devices ds te) s (fun te' s' => dead s s' ds te te').
Proof.
  induction ds as [|d ds IH]; intros s te H Hds; cbn [abort_devices].
  { apply runs_ret. by apply dead_refl. }
  apply abort_device_runs; [done|apply Hds; by left|]. intros te1 s1 D1. destruct (de_parks _ _ _ _ _ D1) as [X P1].
  eapply runs_mono; [apply (IH s1 te1); [apply D1|]|].
  - intros d' Hd'. pose proof (pk_shell _ _ _ P1) as E. unfold shell in E.
    rewrite !pair_equal_spec in E. destruct E as (((((_ & E) & _) & _) & _) & _).
    apply elem_of_dom. rewrite E. apply elem_of_dom, Hds. by right.
  - intros te2 s2 D2. by apply (dead_trans _ _ _ [d] ds _ _ _ D1 D2).
Qed.

(** ** The forgets *)
Lemma drop_forgets_runs fuel : forall s l, forgets s l -> (length l < fuel)%nat ->
  runs (drop_forgets fuel) s (fun _ s' => forgets s' [] /\ same_but_forgets s s' /\
    reqctr (iq (fc s')) = reqctr (iq (fc s)) /\ dom (links s') ⊆ dom (links s)).
Proof.
  induction fuel as [|fuel IH]; intros s l Hf Hlen; [lia|]. cbn [drop_forgets].
  eapply runs_Ok_bind; [apply get_iq_Ok|].
  destruct l as [|[a [n k]] l].
  - pose proof (fg_chain _ _ Hf) as Hc. cbn in Hc. unfold forget_pending. rewrite Hc. apply runs_ret.
    split; [done|]. split; [|done]. repeat (split; [done|]). 
    exists (forget_head (iq (fc s))), (forget_tail (iq (fc s))), (reqctr (iq (fc s))).
    by destruct s as [[[] ] ].
  - destruct (fg_chain _ _ Hf) as (Hh & Ha & _). unfold forget_pending. rewrite Hh.
    rewrite (proj2 (Z.eqb_neq _ _) Ha). cbn [negb].
    eapply runs_bind; [by apply (dequeue_runs s _ 1 Hf)|].
    intros [f cnt] s1 (_ & Hc1 & Hf1 & Hs1 & Hu1 & Hd1 & _). change (Z.to_nat 1) with 1%nat in *.
    cbn [take drop fst] in Hc1, Hf1. destruct Hc1 as (-> & _ & next & Hl & _).
    eapply runs_Ok_bind; [by eapply kfree_link_Ok|].
    pose proof (fg_nodup _ _ Hf) as Hnd. apply NoDup_cons in Hnd as [Hal Hnd].
    eapply runs_mono; [apply (IH _ l); [by apply forgets_delete|cbn in Hlen; lia]|].
    intros _ s2 (Hf2 & Hs2 & Hu2 & Hd2). split; [done|]. split; [|split].
    + eapply same_trans; [exact Hs1|]. done.
    + cbn in Hu2. congruence.
    + cbn in Hd2. rewrite dom_delete_L, Hd1 in Hd2. set_solver.
Qed.
