(* ===== verification/KThreads.v ===== *)
(** * What ending requests leaves of the threads

    The threads that wait for a request or copy it are where they were after any of the
    calls that end requests, and no request is made. *)
From S2P Require Import Prelude KTypes KForget KForgetFacts KQueue.
#[local] Open Scope Z_scope.

#[local] Abbreviation L := (M kernel).
Implicit Types (s : kernel) (a b d : Z) (r : kreq).

Definition threads r : waiter * copier := (k_waiter r, k_copier r).
Definition same_threads s s' : Prop :=
  forall b r', kreqs s' !! b = Some r' -> exists r, kreqs s !! b = Some r /\ threads r' = threads r.

(** However the call ends, it has left the threads alone. *)
Definition spares {A} (m : L A) : Prop := forall s x s', m s = Ok (x, s') -> same_threads s s'.

Create HintDb spares.

Section Spares.
Context {A B : Type}.

Lemma spares_ret (x : A) : spares (mret x).
Proof. intros s y s' [= <- <-] b r Hr. eauto. Qed.
Lemma spares_crash c : spares (crashM (A := A) c).
Proof. by intros s y s'. Qed.

Lemma spares_bind (m : L A) (k : A -> L B) : spares m -> (forall x, spares (k x)) -> spares (m ≫= k).
Proof.
  intros Hm Hk s y s2 (x & s1 & H1 & H2)%bind_inv b r2 Hr2.
  destruct (Hk x s1 y s2 H2 b r2 Hr2) as (r1 & Hr1 & E1). destruct (Hm s x s1 H1 b r1 Hr1) as (r & Hr & E).
  exists r. split; [done|congruence].
Qed.

Lemma spares_gets (f : kernel -> A) : spares (getsM f).
Proof. intros s y s' [= <- <-] b r Hr. eauto. Qed.
Lemma spares_deref (o : option A) : spares (derefM o).
Proof. destruct o; [apply spares_ret|apply spares_crash]. Qed.
End Spares.

Lemma spares_get : spares getM.
Proof. intros s y s' [= <- <-] b r Hr. eauto. Qed.
Lemma spares_assert (x : bool) : spares (assertM x).
Proof. destruct x; [apply spares_ret|apply spares_crash]. Qed.
Lemma spares_modify g : (forall s, kreqs (g s) = kreqs s) -> spares (modifyM g).
Proof. intros Hg s y s' [= <- <-] b r Hr. rewrite Hg in Hr. eauto. Qed.

Lemma spares_update_req a g : (forall r, threads (g r) = threads r) -> spares (update_req a g).
Proof.
  intros Hg s y s' H b r' Hr'. unfold update_req, load_req in H.
  apply bind_inv in H as (r & s1 & H1 & H2). apply bind_inv in H1 as (s2 & s3 & [= <- <-] & H1).
  destruct (kreqs s !! a) as [r0|] eqn:Ha; [|done]. injection H1 as -> <-. injection H2 as _ <-.
  cbn in Hr'. destruct (decide (b = a)) as [->|Hne].
  - rewrite lookup_insert_eq in Hr'. injection Hr' as <-. eauto.
  - rewrite lookup_insert_ne in Hr' by congruence. eauto.
Qed.

Lemma spares_free a : spares (fuse_request_free a).
Proof.
  intros s y s' [= <- <-] b r Hr. cbn in Hr. apply lookup_delete_Some in Hr as [_ Hr]. eauto.
Qed.

#[export] Hint Resolve spares_ret spares_crash spares_gets spares_deref spares_get spares_assert
  spares_free : spares.
#[export] Hint Extern 5 (spares (modifyM _)) => (apply spares_modify; by intros []) : spares.
#[export] Hint Extern 5 (spares (update_req _ _)) => (apply spares_update_req; by intros []) : spares.

Ltac spare1 := first
  [ solve [eauto 1 with spares]
  | apply spares_bind; [|intros ?]
  | match goal with |- spares (match ?x with _ => _ end) => destruct x end
  | match goal with |- spares (let '_ := ?x in _) => destruct x end ].
Ltac spare := repeat spare1.

Lemma spares_load_req a : spares (load_req a).
Proof. unfold load_req. spare. Qed.
Lemma spares_load_dev d : spares (load_dev d).
Proof. unfold load_dev. spare. Qed.
Lemma spares_modify_fc g : spares (modify_fc g).
Proof. unfold modify_fc. spare. Qed.
Lemma spares_modify_iq g : spares (modify_iq g).
Proof. apply spares_modify_fc. Qed.
#[export] Hint Resolve spares_load_req spares_load_dev spares_modify_fc spares_modify_iq : spares.

Lemma spares_update_dev d g : spares (update_dev d g).
Proof. unfold update_dev. spare. Qed.
#[export] Hint Resolve spares_update_dev : spares.
Lemma spares_on_list p g : spares (on_list p g).
Proof. destruct p; cbn; spare. Qed.
#[export] Hint Resolve spares_on_list : spares.
Lemma spares_list_del a : spares (list_del a).
Proof. unfold list_del. spare. Qed.
Lemma spares_list_add_tail a p : spares (list_add_tail a p).
Proof. unfold list_add_tail. spare. Qed.
#[export] Hint Resolve spares_list_del spares_list_add_tail : spares.

Lemma spares_put a : spares (fuse_put_request a).
Proof. unfold fuse_put_request, fuse_drop_waiting. spare. Qed.
Lemma spares_get_unique : spares fuse_get_unique.
Proof. unfold fuse_get_unique, get_iq. spare. Qed.
#[export] Hint Resolve spares_put spares_get_unique : spares.

Lemma spares_flush_loop fuel : spares (flush_loop fuel).
Proof. induction fuel as [|fuel IH]; cbn; unfold get_fc, flush_one, queue_request; spare. Qed.
Lemma spares_flush : spares flush_bg_queue.
Proof. unfold flush_bg_queue, get_fc. apply spares_bind; [spare|intros c]. apply spares_flush_loop. Qed.
#[export] Hint Resolve spares_flush : spares.

Lemma spares_end a : spares (fuse_request_end a).
Proof. unfold fuse_request_end, intr_del, end_background, call_end. spare. Qed.
#[export] Hint Resolve spares_end : spares.

Lemma spares_end_requests l : spares (end_requests l).
Proof. induction l as [|a l IH]; cbn; unfold abort_request; spare. Qed.
Lemma spares_list_del_all l : spares (list_del_all l).
Proof. induction l as [|a l IH]; cbn; spare. Qed.
Lemma spares_clear_pending l : spares (clear_pending l).
Proof. induction l as [|a l IH]; cbn; spare. Qed.
Lemma spares_abort_io l : forall te, spares (abort_io l te).
Proof. induction l as [|a l IH]; intros te; cbn; unfold get_request; spare. Qed.
#[export] Hint Resolve spares_end_requests spares_list_del_all spares_clear_pending spares_abort_io : spares.
Lemma spares_abort_devices l : forall te, spares (abort_devices l te).
Proof. induction l as [|d l IH]; intros te; cbn; spare. Qed.

Lemma spares_link a : spares (load_link a).
Proof. unfold load_link. spare. Qed.
#[export] Hint Resolve spares_abort_devices spares_link : spares.
Lemma spares_walk fuel : forall h c n max, spares (dequeue_walk fuel h c n max).
Proof. induction fuel as [|fuel IH]; intros h c n max; cbn; spare. Qed.
#[export] Hint Resolve spares_walk : spares.
Lemma spares_dequeue max : spares (fuse_dequeue_forget max).
Proof. unfold fuse_dequeue_forget, update_link, get_iq. spare. Qed.
#[export] Hint Resolve spares_dequeue : spares.
Lemma spares_drop fuel : spares (drop_forgets fuel).
Proof. induction fuel as [|fuel IH]; cbn; unfold get_iq, kfree_link; spare. Qed.
#[export] Hint Resolve spares_drop : spares.

Lemma spares_abort : spares fuse_abort_conn.
Proof. unfold fuse_abort_conn, get_fc, get_iq. spare. Qed.
