(* ===== verification/KEnd.v ===== *)
(** * The end of the connection, and of a device *)
From S2P Require Import Prelude KTypes KForget KForgetFacts KQueue KInv KSteps KMoves KRead KWrite KAbort KThreads.
#[local] Open Scope Z_scope.

#[local] Abbreviation L := (M kernel).
Implicit Types (s : kernel) (m : gmap Z kreq) (a b d : Z) (r : kreq) (fly : list Z).

Lemma clear_pending_runs e fly l : forall s, kinv e fly s -> NoDup l ->
  (forall a, a ∈ l -> is_Some (kreqs s !! a)) ->
  runs (clear_pending l) s (fun _ s' => kinv e fly s' /\ core s' = core s /\
    (forall p, linked s' p = linked s p) /\
    (forall a, a ∈ l -> exists r, kreqs s' !! a = Some r /\ k_pending r = false) /\
    forall b, b ∉ l -> kreqs s' !! b = kreqs s !! b).
Proof.
  induction l as [|a l IH]; intros s K Hnd Hl; cbn [clear_pending].
  { apply runs_ret. do 3 (split; [done|]). split; [by intros a ?%elem_of_nil|done]. }
  apply NoDup_cons in Hnd as [Hal Hnd]. destruct (Hl a) as [r Ha]; [by left|].
  eapply runs_Ok_bind; [by apply kupdate_req_Ok|]. set (s1 := put_req a (set_k_pending false r) s).
  assert (K1 : kinv e fly s1) by (apply (kinv_calm _ _ _ _ r); [done..|by split]).
  assert (Hoth : forall b, b <> a -> kreqs s1 !! b = kreqs s !! b).
  { intros b Hb. unfold s1. kred. by rewrite lookup_insert_ne by congruence. }
  eapply runs_mono; [apply (IH s1 K1 Hnd)|].
  - intros b Hb. rewrite Hoth by (by intros ->). apply Hl. by right.
  - intros _ s2 (K2 & C2 & L2 & H2 & O2). split; [done|]. split; [done|]. split; [|split].
    + intros p. rewrite L2. apply linked_put.
    + intros b [->|Hb]%elem_of_cons; [|by apply H2]. rewrite O2 by done.
      exists (set_k_pending false r). split; [apply lookup_insert_eq|done].
    + intros b [Hb1 Hb2]%not_elem_of_cons. rewrite O2 by done. by apply Hoth.
Qed.

(** Nothing is left on the devices [ds] but requests that are being copied and locked. *)
Record emptied s (ds : list Z) : Prop := mk_emptied {
  em_off : forall d, d ∈ ds -> offline s d;
  em_buckets : forall d h, d ∈ ds -> 0 <= h < Z.of_nat FUSE_PQ_HASH_SIZE ->
    linked s (OnProcessing d h) = [];
  em_locked : forall d a, d ∈ ds -> a ∈ linked s (OnIo d) ->
    exists r, kreqs s !! a = Some r /\ k_locked r = true;
}.

Lemma dead_emptied s s' ds te te' : dead s s' ds te te' -> emptied s' ds.
Proof.
  intros D. split.
  - intros d Hd. by apply (de_off _ _ _ _ _ D).
  - intros d h Hd Hh. rewrite <- (Z2Nat.id h) by lia. apply (de_off _ _ _ _ _ D); [done|lia].
  - apply (de_locked _ _ _ _ _ D).
Qed.

Lemma emptied_step s s' ds : emptied s ds -> (forall d, offline s d -> offline s' d) ->
  (forall p b, p <> OnBg -> p <> OnPending -> b ∈ linked s' p -> b ∈ linked s p) ->
  (forall d b r, b ∈ linked s' (OnIo d) -> kreqs s !! b = Some r -> k_locked r = true ->
    exists r', kreqs s' !! b = Some r' /\ k_locked r' = true) -> emptied s' ds.
Proof.
  intros [Ho Hb Hl] H1 H2 H3. split; [auto|..].
  - intros d h Hd Hh. specialize (Hb d h Hd Hh). destruct (linked s' (OnProcessing d h)) as [|b l] eqn:E; [done|].
    assert (Hi : b ∈ linked s (OnProcessing d h)) by (apply H2; [done..|rewrite E; by left]).
    rewrite Hb in Hi. by apply elem_of_nil in Hi.
  - intros d a Hd Ha. destruct (Hl d a Hd) as (r & Hr & Hk); [by apply H2|]. by apply (H3 d a r).
Qed.

(** What the end of the connection leaves alone. *)
Record keeps s s' : Prop := mk_keeps {
  kp_objs : kobjs s' = kobjs s;
  kp_dom : dom (devs s') = dom (devs s);
  kp_devices : devices (fc s') = devices (fc s);
  kp_count : dev_count (fc s') = dev_count (fc s);
  kp_batch : forget_batch (iq (fc s')) = forget_batch (iq (fc s));
  kp_links : dom (links s') ⊆ dom (links s);
}.

Lemma keeps_refl s : keeps s s.
Proof. by split. Qed.
Lemma keeps_trans s s1 s2 : keeps s s1 -> keeps s1 s2 -> keeps s s2.
Proof. intros [] []. split; try congruence. set_solver. Qed.

Lemma fmap_dom s s' : pq_connected <$> devs s' = pq_connected <$> devs s -> dom (devs s') = dom (devs s).
Proof. intros H%(f_equal dom). by rewrite !dom_fmap_L in H. Qed.

Lemma shell_keeps s s' : shell s' = shell s -> keeps s s'.
Proof.
  unfold shell, blank. rewrite !pair_equal_spec. intros (((((H1 & H2) & H3) & H4) & H5) & H6).
  injection H1 as H11 H12 H13 H14 H15 H16 H17 H18 H19 H20 H21 H22 H23 H24 H25 H26 H27 H28 H29.
  split; congruence.
Qed.

Lemma frozen_keeps s s' : frozen s' = frozen s -> keeps s s'.
Proof. intros []%frozen_froze. split; try done; [by apply fmap_dom|by rewrite fz_links]. Qed.

(** ** The parts of the abort *)
Lemma hands_same s s' te : hands s te -> kinv 0 te s' ->
  (forall a p, a ∈ te -> a ∈ linked s' p -> exists p', a ∈ linked s p') -> hands s' te.
Proof.
  intros [_ Hnd Hoff] K Hl. split; [done..|]. intros a p Ha Hi.
  destruct (Hl a p Ha Hi) as [p' Hp']. by apply (Hoff a p').
Qed.

Lemma flushed_lists s s' l p a : flushed s s' l -> a ∈ linked s' p -> exists p', a ∈ linked s p'.
Proof.
  intros F Ha. destruct (decide (p = OnBg)) as [->|H1]; [|destruct (decide (p = OnPending)) as [->|H2]].
  - exists OnBg. cbn in *. rewrite (fl_bg _ _ _ F). apply elem_of_app. by right.
  - cbn in Ha. rewrite (fl_pending _ _ _ F) in Ha. apply elem_of_app in Ha as [Ha|Ha]; [by exists OnPending|].
    exists OnBg. cbn. rewrite (fl_bg _ _ _ F). apply elem_of_app. by left.
  - exists p. by rewrite <- (fl_lists _ _ _ F).
Qed.

Lemma fewer s e fly f : kinv e fly s -> 0 <= cnt f (kreqs s) < UINT_MAX.
Proof.
  intros K. pose proof (cnt_size f (kreqs s)). pose proof (cnt_nonneg f (kreqs s)).
  pose proof (ki_few _ _ _ K). lia.
Qed.

Definition freed s : Prop := blocked (fc s) = false /\ max_background (fc s) = UINT_MAX.
Lemma freed_ok s e fly : kinv e fly s -> freed s -> blocked_ok s.
Proof.
  intros K [H1 H2]. unfold blocked_ok. rewrite H1, H2, (ki_num _ _ _ K). symmetry. apply Z.leb_gt.
  apply (fewer s e fly _ K).
Qed.

Lemma abort_flush s te : hands s te -> freed s ->
  runs flush_bg_queue s (fun _ s' => hands s' te /\ freed s' /\ bg_queue (fc s') = [] /\
    frozen s' = frozen s /\ forall ds, emptied s ds -> emptied s' ds).
Proof.
  intros H [Hb Hm]. pose proof (ha_kinv _ _ H) as K.
  eapply runs_mono; [by apply (flush_bg_queue_runs 0 te)|]. intros _ s' (l & [K' F Ha Hlim Hfull]).
  pose proof (ep_frozen _ _ _ (flushed_end_post 0 te s s' l 0 K F)) as Hfz.
  split; [|split; [|split; [|split; [done|]]]].
  - apply (hands_same s); [done..|]. intros a p _. by apply flushed_lists with l.
  - pose proof (fl_core _ _ _ F) as Hc. kcore Hc. split; congruence.
  - destruct Hfull as [Hf|Hf]; [|done]. exfalso. rewrite Hm, (ki_active _ _ _ K') in Hf.
    pose proof (fewer s' 0 te active K'). lia.
  - intros ds Hem. apply (emptied_step s); [done|..].
    + intros d. apply offline_fmap. by destruct (frozen_froze _ _ Hfz).
    + intros p b H1 H2. by rewrite (fl_lists _ _ _ F).
    + intros d b r Hi Hr Hk. exists r. split; [|done]. rewrite (fl_reqs _ _ _ F); [done|].
      rewrite (fl_lists _ _ _ F) in Hi by done. intros Hbl.
      assert (Hbg : b ∈ linked s OnBg) by (cbn; rewrite (fl_bg _ _ _ F); apply elem_of_app; by left).
      apply (rk_lists _ _ _ _ _ (ki_req _ _ _ K b r Hr)) in Hi as [Hi _], Hbg as [Hbg _]. congruence.
Qed.

Lemma abort_pending s te : hands s te -> bg_queue (fc s) = [] ->
  runs (clear_pending (pending (iq (fc s)));; list_del_all (pending (iq (fc s)))) s (fun _ s' =>
    hands s' (te ++ pending (iq (fc s))) /\ (freed s -> freed s') /\ bg_queue (fc s') = [] /\
    pending (iq (fc s')) = [] /\ shell s' = shell s /\ forall ds, emptied s ds -> emptied s' ds).
Proof.
  intros H Hbg. pose proof (ha_kinv _ _ H) as K. set (l := pending (iq (fc s))).
  pose proof (ki_nodup _ _ _ K OnPending : NoDup l) as Hnd.
  eapply runs_bind; [apply (clear_pending_runs 0 te l s K Hnd); intros a; apply (ki_mem _ _ _ K OnPending)|].
  intros _ s1 (K1 & C1 & L1 & H1 & O1).
  eapply runs_mono; [apply (list_del_all_runs l s1 te K1 Hnd)|].
  { intros a Ha. destruct (H1 a Ha) as (r & Hr & Hpe). exists r. split; [done|]. split; [done|]. left.
    assert (Hi : a ∈ linked s1 OnPending) by by rewrite L1.
    by destruct (proj1 (rk_lists _ _ _ _ _ (ki_req _ _ _ K1 a r Hr) _) Hi). }
  intros _ s2 (K2 & P2 & _ & F2).
  assert (Hsh : shell s2 = shell s) by by rewrite (pk_shell _ _ _ P2), (core_shell _ _ C1).
  assert (Hl2 : forall p, linked s2 p = filter (fun b => b ∉ l) (linked s p)) by (intros p; by rewrite (pk_lists _ _ _ P2), L1).
  split; [|split; [|split; [|split; [|split; [done|]]]]].
  - assert (Hp : te ++ l ≡ₚ l ++ te) by apply Permutation_app_comm. split.
    + by apply (kinv_perm _ (l ++ te)).
    + rewrite Hp. apply NoDup_app. split; [done|]. split; [|apply H].
      intros a Ha Hte. by apply (ha_off _ _ H a OnPending).
    + intros a p. rewrite Hp, Hl2, list_elem_of_filter. intros [Ha|Ha]%elem_of_app [Hn Hi]; [done|].
      by apply (ha_off _ _ H a p).
  - unfold shell, blank in Hsh. rewrite !pair_equal_spec in Hsh. destruct Hsh as (((((Hsh & _) & _) & _) & _) & _).
    intros [E1 E2]. split; [pose proof (f_equal blocked Hsh)|pose proof (f_equal max_background Hsh)]; cbn in *; congruence.
  - pose proof (Hl2 OnBg) as E. cbn in E. by rewrite E, Hbg.
  - pose proof (Hl2 OnPending) as E. cbn in E. rewrite E. apply filter_none. intros b Hb Hn. by apply Hn.
  - intros ds Hem. apply (emptied_step s); [done|..].
    + intros d Hd. apply (pk_offline _ _ _ P2). apply (offline_fmap s); [|done]. by kcore C1.
    + intros p b _ _. rewrite Hl2. by intros [_ ?]%list_elem_of_filter.
    + intros d b r Hi Hr Hk. exists r. split; [|done]. rewrite Hl2 in Hi.
      apply list_elem_of_filter in Hi as [Hn _]. by rewrite F2, O1.
Qed.

Lemma abort_forgets s te l : hands s te -> forgets s l ->
  runs (drop_forgets (S (size (links s)))) s (fun _ s' => hands s' te /\ (freed s -> freed s') /\
    kreqs s' = kreqs s /\ (forall p, linked s' p = linked s p) /\ forgets s' [] /\ keeps s s' /\ fc_connected (fc s') = fc_connected (fc s) /\
    connected (iq (fc s')) = connected (iq (fc s)) /\ forall ds, emptied s ds -> emptied s' ds).
Proof.
  intros H Hf. pose proof (ha_kinv _ _ H) as K.
  eapply runs_mono; [apply (drop_forgets_runs _ s l Hf)|].
  { pose proof (chain_size _ _ _ (fg_chain _ _ Hf) (fg_nodup _ _ Hf)). lia. }
  intros _ s' (Hf' & (H1 & H2 & H3 & H4 & H5 & hd & tl & ctr & Hfc) & Hc & Hd).
  assert (Hl : forall p, linked s' p = linked s p).
  { intros p. destruct p; cbn; unfold dev_list; by rewrite ?Hfc, ?H2. }
  assert (Hof : forall d, offline s d -> offline s' d) by (intros d; unfold offline; by rewrite H2).
  assert (K' : kinv 0 te s').
  { apply (kinv_inert _ _ s); [done|]. pose proof (ki_objs _ _ _ K). pose proof (ki_even _ _ _ K) as [_ He].
    apply subseteq_size in Hd. rewrite !size_dom in Hd.
    split; try (by rewrite Hfc); try (left; by rewrite Hfc); try done; rewrite ?H3, ?Hc; try lia. split; [lia|done]. }
  split; [|split; [|split; [done|split; [done|split; [done|split; [|split; [by rewrite Hfc|split; [by rewrite Hfc|]]]]]]]].
  - apply (hands_same s); [done..|]. intros a p _. rewrite Hl. eauto.
  - unfold freed. by rewrite Hfc.
  - split; try (by rewrite Hfc); try done. by rewrite H2.
  - intros ds Hem. apply (emptied_step s); [done..| |].
    + intros p b _ _. by rewrite Hl.
    + intros d b r _ Hr Hk. exists r. by rewrite H1.
Qed.

(** The connection changes in what the requests do not see. *)
Record flags (c c' : fuse_conn) : Prop := mk_flags {
  fg_bg : bg_queue c' = bg_queue c;
  fg_pending : pending (iq c') = pending (iq c);
  fg_intr : interrupts (iq c') = interrupts (iq c);
  fg_ctr : reqctr (iq c') = reqctr (iq c);
  fg_num : num_background c' = num_background c;
  fg_active : active_background c' = active_background c;
  fg_waiting : num_waiting c' = num_waiting c;
}.

Lemma flags_linked s c' p : flags (fc s) c' -> linked (set_fc c' s) p = linked s p.
Proof. intros []. by destruct p. Qed.

Lemma kinv_flags e fly s c' : kinv e fly s -> flags (fc s) c' -> kinv e fly (set_fc c' s).
Proof.
  intros K F. pose proof (ki_objs _ _ _ K). pose proof (ki_even _ _ _ K) as [_ He].
  apply (kinv_inert _ _ s); [done|]. destruct F.
  split; kred; try done; [by intros []|by left|lia|rewrite fg_ctr0; split; [lia|done]|lia].
Qed.

Lemma hands_flags s te c' : hands s te -> flags (fc s) c' -> hands (set_fc c' s) te.
Proof.
  intros H F. apply (hands_same s); [done|by apply kinv_flags; [apply H|]|].
  intros a p _. rewrite flags_linked by done. eauto.
Qed.

Lemma emptied_flags s ds c' : emptied s ds -> flags (fc s) c' -> emptied (set_fc c' s) ds.
Proof.
  intros E F. apply (emptied_step s); [done..| |].
  - intros p b _ _. by rewrite flags_linked.
  - intros d b r _ Hr Hk. by exists r.
Qed.

Record abort_post s s' : Prop := mk_abort_post {
  ap_good : good s';
  ap_fcc : fc_connected (fc s') = false;
  ap_emptied : emptied s' (devices (fc s));
  ap_keeps : keeps s s';
}.

Lemma abort_end s te : hands s te ->
  runs (end_requests te) s (fun _ s' => kinv 0 [] s' /\ quiet s s' te /\ (blocked_ok s -> blocked_ok s')).
Proof.
  intros H. apply end_requests_runs; [rewrite app_nil_r; apply H|apply H|].
  intros a Ha. destruct (ki_fly _ _ _ (ha_kinv _ _ H) a Ha) as [r Hr]. exists r. split; [done|].
  apply (parked_place 0 te s a r (ha_kinv _ _ H) Hr). intros p. by apply (ha_off _ _ H a p).
Qed.

Lemma quiet_emptied s s' e fly te ds : kinv e fly s -> quiet s s' te ->
  (forall a p, a ∈ te -> a ∉ linked s p) -> emptied s ds -> emptied s' ds.
Proof.
  intros K Q Hoff Hem. apply (emptied_step s); [done|..].
  - intros d. apply offline_fmap. by destruct (frozen_froze _ _ (qt_frozen _ _ _ Q)).
  - intros p b H1 H2. by rewrite (qt_lists _ _ _ Q).
  - intros d b r Hi Hr Hk. exists r. split; [|done]. rewrite (qt_lists _ _ _ Q) in Hi by done.
    apply (qt_other _ _ _ Q); [|done|].
    + intros Hb. by apply (Hoff b (OnIo d)).
    + apply (rk_lists _ _ _ _ _ (ki_req _ _ _ K b r Hr)) in Hi as [Hi _]. congruence.
Qed.

Lemma good_ended s s' : good s -> kinv 0 [] s' -> keeps s s' -> blocked_ok s' -> max_ok s' ->
  connected (iq (fc s')) = false -> fc_connected (fc s') = false ->
  bg_queue (fc s') = [] -> pending (iq (fc s')) = [] -> forgets s' [] -> good s'.
Proof.
  intros G K' [] HB HM Hc Hf Hbg Hpe Hfg. split; try done.
  - by rewrite Hc, Hf.
  - by exists [].
  - intros f Hl. rewrite kp_objs0. apply (gd_links _ G), elem_of_dom, kp_links0. by apply elem_of_dom.
  - rewrite kp_batch0. apply (gd_batch _ G).
  - intros d. rewrite kp_devices0, (gd_devices _ G). rewrite <- !elem_of_dom. by rewrite kp_dom0.
  - rewrite kp_devices0. apply (gd_devices_nodup _ G).
  - intros d. rewrite <- elem_of_dom, kp_dom0, elem_of_dom, kp_objs0. apply (gd_dev_addr _ G).
Qed.

Lemma good_abort s : good s -> fc_connected (fc s) = true ->
  runs fuse_abort_conn s (fun _ s' => abort_post s s').
Proof.
  intros G Hon. destruct (gd_forgets _ G) as [fl Hfl]. unfold fuse_abort_conn.
  eapply runs_Ok_bind; [apply get_fc_Ok|]. rewrite Hon.
  eapply runs_Ok_bind; [apply modify_fc_Ok|]. eapply runs_Ok_bind; [apply modify_fc_Ok|]. kred.
  set (s1 := set_fc _ _).
  assert (H0 : hands s []).
  { split; [apply G|apply NoDup_nil_2|]. by intros a p ?%elem_of_nil. }
  assert (H1 : hands s1 []) by (exact (hands_flags s [] (fc s1) H0 ltac:(by split))).
  assert (Y1 : keeps s s1) by by split.
  eapply runs_bind; [apply (abort_devices_runs _ s1 [] H1)|].
  { intros d Hd. by apply (gd_devices _ G). }
  intros te s2 D2. pose proof (de_hands _ _ _ _ _ D2) as H2. pose proof (dead_emptied _ _ _ _ _ D2) as M2.
  destruct (de_parks _ _ _ _ _ D2) as [X P2].
  pose proof (shell_keeps _ _ (pk_shell _ _ _ P2)) as Y2.
  assert (Hsh2 : links s2 = links s /\ forget_head (iq (fc s2)) = forget_head (iq (fc s)) /\
    forget_tail (iq (fc s2)) = forget_tail (iq (fc s)) /\ fc_connected (fc s2) = false).
  { pose proof (pk_shell _ _ _ P2) as E. unfold shell in E. rewrite !pair_equal_spec in E.
    destruct E as (((((E & _) & El) & _) & _) & _). split; [done|].
    pose proof (f_equal (fun c => forget_head (iq c)) E). pose proof (f_equal (fun c => forget_tail (iq c)) E).
    pose proof (f_equal fc_connected E). done. }
  destruct Hsh2 as (El & Eh & Et & Ef).
  eapply runs_Ok_bind; [apply modify_fc_Ok|]. eapply runs_Ok_bind; [apply modify_fc_Ok|]. kred.
  set (s3 := set_fc _ _).
  assert (H3 : hands s3 te) by (exact (hands_flags s2 te (fc s3) H2 ltac:(by split))).
  assert (M3 : emptied s3 (devices (fc s))) by (exact (emptied_flags s2 _ (fc s3) M2 ltac:(by split))).
  assert (Y3 : keeps s2 s3) by by split.
  eapply runs_bind; [apply (abort_flush s3 te H3); by split|].
  intros _ s4 (H4 & R4 & B4 & F4 & M4). specialize (M4 _ M3).
  pose proof (frozen_keeps _ _ F4) as Y4. pose proof (frozen_froze _ _ F4) as Z4.
  eapply runs_Ok_bind; [apply modify_iq_Ok|]. eapply runs_Ok_bind; [apply get_iq_Ok|]. kred.
  set (s5 := set_fc _ _).
  assert (H5 : hands s5 te) by (exact (hands_flags s4 te (fc s5) H4 ltac:(by split))).
  assert (M5 : emptied s5 (devices (fc s))) by (exact (emptied_flags s4 _ (fc s5) M4 ltac:(by split))).
  assert (Y5 : keeps s4 s5) by by split.
  change (pending (iq (fc s4))) with (pending (iq (fc s5))). apply runs_bind_unassoc.
  eapply runs_bind; [apply (abort_pending s5 te H5); exact B4|].
  intros [] s6 (H6 & R6 & B6 & P6 & S6 & M6). specialize (R6 R4). specialize (M6 _ M5).
  pose proof (shell_keeps _ _ S6) as Y6.
  assert (Hf6 : forgets s6 fl /\ fc_connected (fc s6) = false /\ connected (iq (fc s6)) = false).
  { unfold shell in S6. rewrite !pair_equal_spec in S6.
    destruct S6 as (((((E & _) & E6) & _) & _) & _).
    pose proof (f_equal (fun c => forget_head (iq c)) E) as E1. pose proof (f_equal (fun c => forget_tail (iq c)) E) as E2.
    pose proof (f_equal fc_connected E) as E3. pose proof (f_equal (fun c => connected (iq c)) E) as E7.
    destruct Z4, Hfl as [G1 G2 G3]. cbn in E1, E2, E3, E6, E7.
    cbn in fz_fcc. split; [|split; [congruence|done]]. split; [|done|].
    - rewrite E6, E1, fz_links, fz_head. cbn. by rewrite El, Eh.
    - rewrite E2, fz_tail. cbn. by rewrite Et. }
  destruct Hf6 as (Hf6 & Ef6 & Ec6). apply runs_get_bind.
  eapply runs_bind; [apply (abort_forgets s6 _ fl H6 Hf6)|].
  intros _ s7 (H7 & R7 & Q7 & L7 & Hf7 & Y7 & Ef7 & Ec7 & M7). specialize (R7 R6). specialize (M7 _ M6).
  eapply runs_mono; [apply (abort_end s7 _ H7)|]. intros _ s8 (K8 & Q8 & B8).
  pose proof (frozen_froze _ _ (qt_frozen _ _ _ Q8)) as Z8.
  pose proof (frozen_keeps _ _ (qt_frozen _ _ _ Q8)) as Y8.
  assert (Y : keeps s s8) by (repeat (eapply keeps_trans; [eassumption|]); apply keeps_refl).
  assert (Hbp : bg_queue (fc s8) = [] /\ pending (iq (fc s8)) = []).
  { destruct (qt_queue _ _ _ Q8) as (q & E1 & E2). pose proof (L7 OnBg) as E3. pose proof (L7 OnPending) as E4.
    cbn in E3, E4. rewrite E3, B6 in E1. symmetry in E1. apply app_eq_nil in E1 as [-> E1].
    by rewrite E2, E4, P6. }
  destruct Hbp as [Hb8 Hp8]. destruct Z8.
  split; [|by rewrite fz_fcc, Ef7| |done].
  - apply (good_ended s); try done.
    + apply B8. apply (freed_ok _ 0 _ (ha_kinv _ _ H7) R7).
    + unfold max_ok. rewrite fz_max, (proj2 R7). done.
    + by rewrite fz_conn, Ec7.
    + by rewrite fz_fcc, Ef7.
    + by apply (forgets_frozen s7 s8 []); [apply Q8|].
  - apply (quiet_emptied s7 s8 0 _ _ _ (ha_kinv _ _ H7) Q8); [|done]. intros a p. apply (ha_off _ _ H7).
Qed.

(** ** A device is closed *)
Definition idle_dev s d : Prop := forall a r, kreqs s !! a = Some r -> ~ copies r d.

Lemma idle_threads s s' d : same_threads s s' -> idle_dev s d -> idle_dev s' d.
Proof.
  intros Ht Hi a r' Hr' Hc. destruct (Ht a r' Hr') as (r & Hr & E).
  injection E as _ E. apply (Hi a r Hr). unfold copies in *. by rewrite <- E.
Qed.

(** Nothing refers to device [d]. *)
Definition unused s d : Prop :=
  idle_dev s d /\ linked s (OnIo d) = [] /\ forall h, linked s (OnProcessing d h) = [].

Lemma drop_linked s d p : unused s d -> linked (set_devs (delete d (devs s)) s) p = linked s p.
Proof.
  intros (_ & Hio & Hpr). destruct p as [| | |d'|d' h]; try done; cbn; unfold dev_list; kred;
    (destruct (decide (d' = d)) as [->|Hne];
     [rewrite lookup_delete_eq; symmetry|by rewrite lookup_delete_ne by congruence]);
    [apply Hio|apply Hpr].
Qed.

Lemma kinv_drop_dev e fly s d : kinv e fly s -> unused s d ->
  kinv e fly (set_devs (delete d (devs s)) s).
Proof.
  intros K U. pose proof (drop_linked s d) as Hl. set (s' := set_devs _ s) in *.
  split; try apply K.
  - intros a r Ha. pose proof (ki_req _ _ _ K a r Ha) as R. krok R. split; try done.
    + intros p. by rewrite Hl.
    + intros d' Hc. destruct (Rcop d' Hc) as [|(H1 & H2 & q & Hq & Hf)]; [by left|]. right.
      split; [done|]. split; [done|]. exists q. split; [|done]. unfold s'. kred.
      rewrite lookup_delete_ne; [done|]. intros <-. by apply (proj1 U a r Ha).
  - intros p a. rewrite Hl by done. apply (ki_mem _ _ _ K).
  - intros p. rewrite Hl by done. apply (ki_nodup _ _ _ K).
Qed.

(** [fuse_dev_release] but for the last two lines. *)
Lemma elem_of_rev_concat (l : list (list Z)) a : a ∈ concat (rev l) <-> a ∈ concat l.
Proof.
  rewrite !list_elem_of_In, !in_concat. setoid_rewrite <- in_rev. done.
Qed.

Lemma NoDup_rev_concat (l : list (list Z)) : NoDup (concat l) -> NoDup (concat (rev l)).
Proof.
  induction l as [|x l IH]; intros H; [done|]. cbn in *. rewrite concat_app. cbn. rewrite app_nil_r.
  apply NoDup_app in H as (H1 & H2 & H3). apply NoDup_app. split; [by apply IH|]. split; [|done].
  intros a Ha Hx. apply (H2 a Hx). by apply elem_of_rev_concat.
Qed.

Lemma good_flags s c' : good s -> flags (fc s) c' -> connected (iq c') = connected (iq (fc s)) ->
  fc_connected c' = fc_connected (fc s) -> forget_head (iq c') = forget_head (iq (fc s)) ->
  forget_tail (iq c') = forget_tail (iq (fc s)) -> forget_batch (iq c') = forget_batch (iq (fc s)) ->
  blocked c' = (max_background c' <=? num_background (fc s)) -> 0 <= max_background c' <= UINT_MAX ->
  devices c' = devices (fc s) -> good (set_fc c' s).
Proof.
  intros G F E1 E2 E3 E4 E5 E6 E7 E8. pose proof (kinv_flags _ _ _ _ (gd_inv _ G) F) as K.
  assert (Hf : forall l, forgets s l -> forgets (set_fc c' s) l).
  { intros l [H1 H2 H3]. split; [|done|]; cbn; by rewrite ?E3, ?E4. }
  split; [done|cbn..].
  - rewrite E1, E2. apply (gd_conn _ G).
  - rewrite E2. intros Hoff. destruct (gd_off _ G Hoff) as (H1 & H2 & H3).
    rewrite (fg_bg _ _ F), (fg_pending _ _ F). auto.
  - destruct (gd_forgets _ G) as [l Hl]. eauto.
  - apply (gd_links _ G).
  - unfold blocked_ok. cbn. by rewrite (fg_num _ _ F).
  - done.
  - rewrite E5. apply (gd_batch _ G).
  - rewrite E8. apply (gd_devices _ G).
  - rewrite E8. apply (gd_devices_nodup _ G).
  - apply (gd_dev_addr _ G).
Qed.

(** The requests that wait for an answer on a device end with it. *)
Lemma drain_device s d q : good s -> devs s !! d = Some q -> idle_dev s d ->
  let l := concat (rev (buckets q)) in
  runs (list_del_all l;; end_requests l) s (fun _ s' => good s' /\ unused s' d /\ is_Some (devs s' !! d)).
Proof.
  intros G Hq Hi l. pose proof (gd_inv _ G) as K.
  assert (Hl : forall a, a ∈ l <-> exists h, a ∈ linked s (OnProcessing d h)).
  { intros a. unfold l. rewrite elem_of_rev_concat, (buckets_linked s d q a Hq). split.
    - intros (h & _ & Ha). eauto.
    - intros (h & Ha). exists (Z.to_nat h). destruct (ki_mem _ _ _ K _ _ Ha) as [r Hr].
      pose proof (ki_req _ _ _ K a r Hr) as R. destruct (proj1 (rk_lists _ _ _ _ _ R _) Ha) as [Hp _].
      destruct (rk_reply _ _ _ _ _ R d h (eq_sym Hp)) as [_ Hh]. rewrite Z2Nat.id by lia. split; [lia|done]. }
  assert (Hio : linked s (OnIo d) = []).
  { destruct (linked s (OnIo d)) as [|a l0] eqn:E; [done|]. exfalso.
    assert (Ha : a ∈ linked s (OnIo d)) by (rewrite E; by left). destruct (ki_mem _ _ _ K _ _ Ha) as [r Hr].
    pose proof (ki_req _ _ _ K a r Hr) as R. destruct (proj1 (rk_lists _ _ _ _ _ R _) Ha) as [Hp _].
    by apply (Hi a r Hr), (rk_io _ _ _ _ _ R). }
  assert (Hnd : NoDup l) by (by apply NoDup_rev_concat, (buckets_nodup s d q [] 0)).
  pose proof (spares_bind (list_del_all l) (fun _ => end_requests l) (spares_list_del_all l)
    (fun _ => spares_end_requests l)) as Hsp.
  assert (Hrun : runs (list_del_all l;; end_requests l) s (fun _ s' => kinv 0 [] s' /\ steady s s' /\
    (forall p b, p <> OnBg -> p <> OnPending -> b ∈ linked s' p -> b ∈ linked s p /\ b ∉ l))).
  { eapply runs_bind; [apply (list_del_all_runs l s [] K Hnd)|].
    { intros a Ha. apply (buckets_takeable s d q [] 0); [done..|]. unfold l in Ha. by rewrite elem_of_rev_concat in Ha. }
    intros _ s1 (K1 & P1 & C1 & _).
    assert (Hp1 : forall a p, a ∈ l -> a ∉ linked s1 p).
    { intros a p Ha. rewrite (pk_lists _ _ _ P1), list_elem_of_filter. by intros []. }
    assert (S1 : steady s s1).
    { split; [by apply frozen_core| |by apply frozen_blocked].
      exists []. rewrite app_nil_r. pose proof (pk_lists _ _ _ P1 OnBg) as E1. pose proof (pk_lists _ _ _ P1 OnPending) as E2.
      cbn in E1, E2. rewrite E1, E2. split; [|by intros b [_ ?]%list_elem_of_filter].
      symmetry. apply (filter_all (fun b => b ∉ l)). intros b Hb Hbl. apply Hl in Hbl as [h Hbl].
      destruct (ki_mem _ _ _ K _ _ Hbl) as [r Hr].
      pose proof (rk_lists _ _ _ _ _ (ki_req _ _ _ K b r Hr)) as R.
      pose proof (proj1 (R OnBg) Hb) as [? _]. pose proof (proj1 (R _) Hbl) as [? _]. congruence. }
    eapply runs_mono; [apply (end_requests_runs l [] s1 K1 Hnd)|].
    - intros a Ha. destruct (ki_fly _ _ _ K1 a) as [r Hr]; [apply elem_of_app; by left|]. exists r. split; [done|].
      apply (parked_place 0 _ s1 a r K1 Hr). intros p. by apply Hp1.
    - intros _ s2 (K2 & Q2 & B2). split; [done|]. split.
      + apply (steady_trans _ s1); [done|]. by apply (quiet_steady _ _ l).
      + intros p b H1 H2. rewrite (qt_lists _ _ _ Q2) by done. intros Hb. split; [|by intros ?%(Hp1 b p)].
        rewrite (pk_lists _ _ _ P1) in Hb. by apply list_elem_of_filter in Hb as [_ Hb]. }
  destruct Hrun as ([] & s' & Hr & K' & S' & L'). exists tt, s'. split; [done|].
  split; [by apply (good_steady s)|]. split.
  - split; [apply (idle_threads s); [by apply (Hsp s tt)|done]|].
    assert (Hnil : forall l0 : list Z, (forall b, b ∉ l0) -> l0 = []).
    { intros [|b l0] Hb; [done|]. destruct (Hb b). by left. }
    split; [|intros h]; apply Hnil; intros b Hb; apply L' in Hb as [Hb Hbl]; try done.
    + rewrite Hio in Hb. by apply elem_of_nil in Hb.
    + apply Hbl, Hl. by exists h.
  - apply (is_Some_fmap s s'); [|by exists q]. by destruct (frozen_froze _ _ (sd_frozen _ _ S')).
Qed.

Lemma idle_unused e s d : kinv e [] s -> idle_dev s d ->
  (forall h, 0 <= h < Z.of_nat FUSE_PQ_HASH_SIZE -> linked s (OnProcessing d h) = []) -> unused s d.
Proof.
  intros K Hi Hb. split; [done|].
  assert (Hplace : forall a p, a ∈ linked s p -> exists r, kreqs s !! a = Some r /\ k_place r = p).
  { intros a p Ha. destruct (ki_mem _ _ _ K _ _ Ha) as [r Hr]. exists r. split; [done|].
    by destruct (proj1 (rk_lists _ _ _ _ _ (ki_req _ _ _ K a r Hr) _) Ha). }
  split.
  - destruct (linked s (OnIo d)) as [|a l] eqn:E; [done|]. exfalso.
    destruct (Hplace a (OnIo d)) as (r & Hr & Hp); [rewrite E; by left|].
    apply (Hi a r Hr). by apply (rk_io _ _ _ _ _ (ki_req _ _ _ K a r Hr)).
  - intros h. destruct (linked s (OnProcessing d h)) as [|a l] eqn:E; [done|]. exfalso.
    destruct (Hplace a (OnProcessing d h)) as (r & Hr & Hp); [rewrite E; by left|].
    destruct (rk_reply _ _ _ _ _ (ki_req _ _ _ K a r Hr) d h Hp) as [_ Hh].
    rewrite (Hb h Hh) in E. done.
Qed.

Lemma good_drop s d : good s -> unused s d ->
  good (set_devs (delete d (devs s)) (set_fc (set_devices (remove_addr d (devices (fc s))) (fc s)) s)).
Proof.
  intros G U. pose proof (kinv_flags 0 [] s (set_devices (remove_addr d (devices (fc s))) (fc s)) (gd_inv _ G) ltac:(by split)) as K1.
  set (s1 := set_fc _ s) in *. assert (U1 : unused s1 d) by exact U.
  pose proof (kinv_drop_dev _ _ _ _ K1 U1) as K2. split; try done; try apply G; cbn.
  - intros Hoff. destruct (gd_off _ G Hoff) as (H1 & H2 & [H3 H4 H5]). by split_and!.
  - destruct (gd_forgets _ G) as [l [H1 H2 H3]]. by exists l.
  - intros d'. rewrite remove_addr_in, lookup_delete_is_Some, (gd_devices _ G). naive_solver.
  - apply remove_addr_nodup, (gd_devices_nodup _ G).
  - intros d' [_ Hd]%lookup_delete_is_Some. by apply (gd_dev_addr _ G).
Qed.

Lemma good_dev_release s d : good s -> is_Some (devs s !! d) -> idle_dev s d ->
  runs (fuse_dev_release d) s (fun _ s' => good s' /\ devs s' !! d = None).
Proof.
  intros G [q Hq] Hi. pose proof (gd_inv _ G) as K. unfold fuse_dev_release.
  eapply runs_Ok_bind; [by apply load_dev_Ok|].
  apply runs_assert_bind.
  { apply bool_decide_eq_true. destruct (pq_io q) as [|a l] eqn:E; [done|]. exfalso.
    assert (Ha : a ∈ linked s (OnIo d)) by (cbn; unfold dev_list; rewrite Hq, E; by left).
    destruct (ki_mem _ _ _ K _ _ Ha) as [r Hr]. pose proof (ki_req _ _ _ K a r Hr) as R.
    apply (Hi a r Hr), (rk_io _ _ _ _ _ R). by destruct (proj1 (rk_lists _ _ _ _ _ R _) Ha). }
  cbv zeta. apply runs_bind_unassoc. eapply runs_bind; [by apply (drain_device s d q)|].
  intros [] s1 (G1 & U1 & Hd1). eapply runs_Ok_bind; [apply modify_fc_Ok|].
  eapply runs_Ok_bind; [apply get_fc_Ok|]. kred.
  set (c2 := set_dev_count (dev_count (fc s1) - 1) (fc s1)). set (s2 := set_fc c2 s1).
  assert (G2 : good s2).
  { apply good_flags; try done; [apply (gd_blocked _ G1)|apply (gd_max _ G1)]. }
  assert (U2 : unused s2 d) by exact U1.
  eapply (runs_bind _ _ _ (fun _ s3 => good s3 /\ unused s3 d)).
  - case_match; [|by apply runs_ret]. destruct (fc_connected (fc s2)) eqn:Hon.
    + destruct (good_abort s2 G2 Hon) as ([] & s3 & Hr & A). exists tt, s3. split; [done|].
      split; [apply A|]. apply (idle_unused 0); [apply A| |].
      * apply (idle_threads s2); [|apply U2]. by apply (spares_abort s2 tt).
      * intros h Hh. apply (em_buckets _ _ (ap_emptied _ _ A) d h); [|done].
        apply (gd_devices _ G2). by destruct Hd1 as [q1 Hq1]; exists q1.
    + unfold fuse_abort_conn. eapply runs_Ok_bind; [apply get_fc_Ok|]. rewrite Hon. by apply runs_ret.
  - intros [] s3 [G3 U3]. eapply runs_Ok_bind; [apply modify_fc_Ok|]. eexists tt, _. split; [done|].
    split; [exact (good_drop s3 d G3 U3)|]. cbn. apply lookup_delete_eq.
Qed.

Lemma abort_runs s : good s -> runs fuse_abort_conn s (fun _ s' => good s' /\ fc_connected (fc s') = false).
Proof.
  intros G. destruct (fc_connected (fc s)) eqn:Hon.
  - eapply runs_mono; [by apply good_abort|]. intros [] s' A. split; [apply (ap_good _ _ A)|apply (ap_fcc _ _ A)].
  - unfold fuse_abort_conn. eapply runs_Ok_bind; [apply get_fc_Ok|]. rewrite Hon. by apply runs_ret.
Qed.

(** ** A device is made *)
Lemma new_dev_linked s d q p : devs s !! d = None -> q = fuse_pqueue_init ->
  linked (set_devs (<[d := q]> (devs s)) s) p = linked s p.
Proof.
  intros Hd ->. destruct p as [| | |d'|d' h]; try done; cbn; unfold dev_list; kred;
    (destruct (decide (d' = d)) as [->|Hne];
     [by rewrite lookup_insert_eq, Hd|by rewrite lookup_insert_ne by congruence]).
Qed.

Lemma good_oks s oks : good s -> good (set_koks oks s).
Proof.
  intros G. split; try apply G.
  - apply (kinv_inert 0 [] s); [apply G|]. pose proof (ki_objs _ _ _ (gd_inv _ G)).
    pose proof (ki_even _ _ _ (gd_inv _ G)) as [_ He].
    split; kred; try done; try (by left); lia.
  - intros Hoff. destruct (gd_off _ G Hoff) as (H1 & H2 & [H3 H4 H5]). by split_and!.
  - destruct (gd_forgets _ G) as [l [H1 H2 H3]]. by exists l.
Qed.

Lemma good_new_dev s oks : good s -> kobjs s + 1 < 2 ^ 62 ->
  let d := kobjs s + 1 in
  good (set_koks oks (set_kobjs d (set_devs (<[d := fuse_pqueue_init]> (devs s))
    (set_fc (set_devices (devices (fc s) ++ [d]) (fc s)) s)))).
Proof.
  intros G Hroom d. assert (Hnew : devs s !! d = None).
  { destruct (devs s !! d) eqn:E; [|done]. pose proof (gd_dev_addr _ G d ltac:(eauto)). lia. }
  assert (K : kinv 0 [] (set_koks oks (set_kobjs d (set_devs (<[d := fuse_pqueue_init]> (devs s)) s)))).
  { apply (kinv_inert 0 [] s); [apply G|]. pose proof (ki_objs _ _ _ (gd_inv _ G)).
    pose proof (ki_even _ _ _ (gd_inv _ G)) as [_ He].
    split; kred; try done; try (by left); try lia.
    - intros p. rewrite <- (new_dev_linked s d _ p Hnew eq_refl). by destruct p.
    - intros d' (q & Hq & Hf). exists q. split; [|done]. kred. by rewrite lookup_insert_ne by congruence. }
  pose proof (kinv_flags _ _ _ (set_devices (devices (fc s) ++ [d]) (fc s)) K ltac:(by split)) as K'.
  split; try exact K'; try apply G; cbn.
  - intros Hoff. destruct (gd_off _ G Hoff) as (H1 & H2 & [H3 H4 H5]). by split_and!.
  - destruct (gd_forgets _ G) as [l [H1 H2 H3]]. by exists l.
  - intros f Hf. pose proof (gd_links _ G f Hf). unfold d. lia.
  - intros d'. rewrite elem_of_app, list_elem_of_singleton, (gd_devices _ G), lookup_insert_is_Some.
    destruct (decide (d' = d)) as [->|Hne]; naive_solver.
  - apply NoDup_app. split; [apply G|]. split; [|apply NoDup_singleton].
    intros d' Hd' ->%list_elem_of_singleton. apply (gd_devices _ G) in Hd' as [q Hq]. congruence.
  - intros d' Hd'. apply lookup_insert_is_Some in Hd' as [<-|[_ Hd']]; [|pose proof (gd_dev_addr _ G d' Hd')];
      pose proof (ki_objs _ _ _ (gd_inv _ G)); unfold d; lia.
Qed.

Lemma good_dev_alloc s : good s -> kobjs s + 1 < 2 ^ 62 ->
  runs fuse_dev_alloc_install s (fun d s' => good s' /\ (d = 0 \/ d = kobjs s + 1 /\ is_Some (devs s' !! d))).
Proof.
  intros G Hroom. pose proof (ki_objs _ _ _ (gd_inv _ G)) as Ho.
  assert (Hfail : forall oks, fuse_dev_alloc s = Ok (0, set_koks oks s) ->
    runs fuse_dev_alloc_install s (fun d s' => good s' /\ (d = 0 \/ d = kobjs s + 1 /\ is_Some (devs s' !! d)))).
  { intros oks H. unfold fuse_dev_alloc_install. eapply runs_Ok_bind; [exact H|]. apply runs_ret.
    split; [by apply good_oks|by left]. }
  assert (Hok : fuse_dev_alloc s = Ok (kobjs s + 1, set_koks (drop 2 (koks s))
      (set_kobjs (kobjs s + 1) (set_devs (<[kobjs s + 1 := fuse_pqueue_init]> (devs s)) s))) ->
    runs fuse_dev_alloc_install s (fun d s' => good s' /\ (d = 0 \/ d = kobjs s + 1 /\ is_Some (devs s' !! d)))).
  { intros H. unfold fuse_dev_alloc_install. eapply runs_Ok_bind; [exact H|].
    rewrite (proj2 (Z.eqb_neq _ _)) by lia. eexists _, _. split; [done|].
    split; [exact (good_new_dev s (drop 2 (koks s)) G Hroom)|]. right. split; [done|]. cbn.
    rewrite lookup_insert_eq. by eexists. }
  unfold fuse_dev_alloc, mbind, M_bind, getM in *. destruct (koks s) as [|[] [|[] oks]] eqn:E;
    by eauto.
Qed.

Lemma good_dev_clone s : good s -> kobjs s + 1 < 2 ^ 62 -> runs fuse_device_clone s (fun _ s' => good s').
Proof.
  intros G Hroom. unfold fuse_device_clone. eapply runs_bind; [by apply good_dev_alloc|].
  intros d s1 [G1 _]. case_match; [by apply runs_ret|]. eapply runs_Ok_bind; [apply modify_fc_Ok|].
  apply runs_ret. apply good_flags; try done; [apply (gd_blocked _ G1)|apply (gd_max _ G1)].
Qed.
