(* ===== verification/KSend.v ===== *)
(** * Requests that enter the queues *)
From S2P Require Import Prelude KTypes KForget KForgetFacts KQueue KInv KSteps KMoves KRead KWrite KAbort KThreads KEnd.
#[local] Open Scope Z_scope.

#[local] Abbreviation L := (M kernel).
Implicit Types (s : kernel) (m : gmap Z kreq) (a b d : Z) (r : kreq) (fly : list Z).

(** There is room for one more object and one more request. *)
Definition room s : Prop := kobjs s + 1 < 2 ^ 62 /\ Z.of_nat (size (kreqs s)) + 1 < UINT_MAX.

(** ** A request that is being made *)
Definition new_addr s : Z := kobjs s + 1.
Definition making s (w : Z) (oks : list bool) r : kernel :=
  set_koks oks (set_kobjs (new_addr s) (set_kreqs (<[new_addr s := r]> (kreqs s))
    (set_fc (set_num_waiting (num_waiting (fc s) + w) (fc s)) s))).

Lemma making_load s w oks r : load_req (new_addr s) (making s w oks r) = Ok (r, making s w oks r).
Proof. apply kload_req_Ok, lookup_insert_eq. Qed.

Lemma making_update s w oks r g :
  update_req (new_addr s) g (making s w oks r) = Ok (tt, making s w oks (g r)).
Proof.
  rewrite (kupdate_req_Ok _ r) by apply lookup_insert_eq. unfold put_req, making. kred.
  by rewrite insert_insert_eq.
Qed.

Lemma addr_new s e fly : kinv e fly s -> kreqs s !! new_addr s = None.
Proof.
  intros K. destruct (kreqs s !! new_addr s) as [r|] eqn:E; [|done].
  pose proof (rk_addr _ _ _ _ _ (ki_req _ _ _ K _ _ E)). unfold new_addr in *. lia.
Qed.

(** An address is used up. *)
Lemma good_spent s oks : good s -> kobjs s + 1 < 2 ^ 62 -> good (set_koks oks (set_kobjs (new_addr s) s)).
Proof.
  intros G Hroom. unfold new_addr. pose proof (ki_objs _ _ _ (gd_inv _ G)) as Ho.
  split; try apply G.
  - apply (kinv_inert 0 [] s); [apply G|]. pose proof (ki_even _ _ _ (gd_inv _ G)) as [_ He].
    split; kred; try done; try (by left); lia.
  - intros Hoff. destruct (gd_off _ G Hoff) as (H1 & H2 & [H3 H4 H5]). by split_and!.
  - destruct (gd_forgets _ G) as [l [H1 H2 H3]]. by exists l.
  - intros f Hf. pose proof (gd_links _ G f Hf). cbn. lia.
  - intros d Hd. pose proof (gd_dev_addr _ G d Hd). cbn. lia.
Qed.

(** The request is dropped. *)
Lemma making_undo s w oks r : kreqs s !! new_addr s = None ->
  set_kreqs (delete (new_addr s) (kreqs (making s w oks r)))
    (set_fc (set_num_waiting (num_waiting (fc (making s w oks r)) - w) (fc (making s w oks r)))
      (making s w oks r)) = set_koks oks (set_kobjs (new_addr s) s).
Proof.
  intros Hn. unfold making. kred. rewrite delete_insert_eq, delete_id, Z.add_simpl_r by done.
  by destruct s as [[] ].
Qed.

Lemma making_put s w oks r : good s -> room s -> k_count r = 1 -> w = Z.b2z (k_waiting r) ->
  runs (fuse_put_request (new_addr s)) (making s w oks r) (fun _ s' => good s').
Proof.
  intros G [Hroom _] Hc ->. unfold fuse_put_request.
  eapply runs_Ok_bind; [apply making_load|]. apply runs_assert_bind; [by rewrite Hc|].
  eapply runs_Ok_bind; [apply making_update|]. rewrite Hc. change (1 - 1 =? 0) with true. cbv iota.
  pose proof (good_spent s oks G Hroom) as G1.
  pose proof (fun r' => making_undo s (Z.b2z (k_waiting r)) oks r' (addr_new _ _ _ (gd_inv _ G))) as Hu.
  destruct (k_waiting r); cbn [Z.b2z] in *.
  - apply runs_bind_assoc. eapply runs_Ok_bind; [apply making_update|].
    eexists tt, _. split; [|exact G1]. by rewrite <- (Hu (set_k_waiting false (set_k_count (k_count r - 1) r))).
  - apply runs_ret_bind. eexists tt, _. split; [|exact G1].
    rewrite <- (Hu (set_k_count (k_count r - 1) r)). by rewrite Z.sub_0_r.
Qed.

(** ** The request enters a queue *)
Record fresh r (p : place) : Prop := mk_fresh {
  fr_place : k_place r = p;
  fr_queued : queued p = true;
  fr_count : k_count r = waits r + 1;
  fr_finished : k_finished r = false;
  fr_sent : k_sent r = false;
  fr_private : k_private r = false;
  fr_copier : k_copier r = NoCopier;
  fr_locked : k_locked r = false;
  fr_waiter : k_waiter r <> NoWaiter -> k_background r = false;
  fr_bg : p = OnBg -> k_background r = true;
  fr_args : args_ok (k_args r);
}.

(** State [s'] is [s] with the new request [r] at the end of the queue [p]. *)
Record enters s s' r (p : place) : Prop := mk_enters {
  es_reqs : kreqs s' = <[new_addr s := r]> (kreqs s);
  es_lists : forall p', linked s' p' = if decide (p' = p) then linked s p ++ [new_addr s] else linked s p';
  es_objs : kobjs s' = new_addr s;
  es_frozen : frozen s' = frozen (set_koks (koks s') (set_kobjs (kobjs s') s));
  es_intr : interrupts (iq (fc s')) = interrupts (iq (fc s));
  es_ended : ended s' = ended s;
  es_ctr : reqctr (iq (fc s')) = reqctr (iq (fc s)) \/
    p = OnPending /\ reqctr (iq (fc s')) = reqctr (iq (fc s)) + 2;
  es_unique : numbered r = true ->
    k_unique r = reqctr (iq (fc s')) /\ reqctr (iq (fc s')) = reqctr (iq (fc s)) + 2;
  es_num : num_background (fc s') = num_background (fc s) + Z.b2z (k_background r);
  es_active : active_background (fc s') = active_background (fc s) + Z.b2z (active r);
  es_waiting : num_waiting (fc s') = num_waiting (fc s) + Z.b2z (k_waiting r);
}.

Lemma enters_froze s s' r p : enters s s' r p ->
  froze (set_koks (koks s') (set_kobjs (kobjs s') s)) s'.
Proof. intros E. by apply frozen_froze, E. Qed.

Lemma enters_rok s s' r p : kinv 0 [] s -> room s -> fresh r p -> enters s s' r p ->
  rok s' 0 [] (new_addr s) r.
Proof.
  intros K [Hroom _] F E. pose proof (ki_objs _ _ _ K) as Ho. pose proof (addr_new _ _ _ K) as Hn.
  assert (Hno : forall p', new_addr s ∉ linked s p').
  { intros p' Hi. destruct (ki_mem _ _ _ K _ _ Hi). congruence. }
  assert (Hnw : p <> Nowhere) by (intros ->; by destruct F).
  destruct F, E. split; rewrite ?fr_place0, ?es_objs0; try congruence; try (unfold new_addr; lia).
  - rewrite fr_count0. unfold held. rewrite fr_place0, decide_False by naive_solver. cbn. lia.
  - intros p'. rewrite es_lists0. case_decide as Hp.
    + subst p'. rewrite elem_of_app, list_elem_of_singleton. split; [done|by right].
    + split; [by intros ?%Hno|by intros []].
  - done.
  - intros d Hd. by destruct p.
  - intros d [Hd|Hd]; congruence.
  - intros d h ->. done.
  - done.
  - done.
  - rewrite es_intr0. intros Hi. destruct (ki_intr _ _ _ K _ Hi). congruence.
  - rewrite es_ended0. intros Hi. pose proof (ki_ended _ _ _ K _ Hi). unfold new_addr in *. lia.
  - intros Hnum. destruct (es_unique0 Hnum) as [Hu Hc]. pose proof (ki_even _ _ _ K) as [Hpos He].
    rewrite Hu, Hc. split; [lia|]. by apply even_step.
Qed.

Lemma kinv_enters s s' r p : kinv 0 [] s -> room s -> fresh r p -> enters s s' r p -> kinv 0 [] s'.
Proof.
  intros K Hroom F E. pose proof (enters_rok s s' r p K Hroom F E) as R. destruct Hroom as [Hr1 Hr2].
  pose proof (ki_objs _ _ _ K) as Ho. pose proof (addr_new _ _ _ K) as Hn. pose proof (ki_even _ _ _ K) as [Hpos He].
  pose proof (enters_froze _ _ _ _ E) as Z. destruct Z. cbn in *.
  assert (Hself : kreqs s' !! new_addr s = Some r) by (rewrite (es_reqs _ _ _ _ E); apply lookup_insert_eq).
  assert (Hoth : forall b, b <> new_addr s -> kreqs s' !! b = kreqs s !! b).
  { intros b Hb. rewrite (es_reqs _ _ _ _ E). by rewrite lookup_insert_ne by congruence. }
  assert (Hno : forall p', new_addr s ∉ linked s p').
  { intros p' Hi. destruct (ki_mem _ _ _ K _ _ Hi). congruence. }
  assert (Hctr : reqctr (iq (fc s)) <= reqctr (iq (fc s')) /\ Z.even (reqctr (iq (fc s'))) = true).
  { destruct (es_ctr _ _ _ _ E) as [->|[_ ->]]; [split; [lia|done]|]. split; [lia|by apply even_step]. }
  apply (kinv_change (new_addr s) 0 0 [] [] s s'); try done; rewrite ?Hself, ?Hn; cbn [wt].
  - intros b Hb. split.
    + intros p'. rewrite (es_lists _ _ _ _ E). case_decide as Hp; [|done]. subst.
      rewrite elem_of_app, list_elem_of_singleton. naive_solver.
    + by rewrite (es_intr _ _ _ _ E).
    + by rewrite (es_ended _ _ _ _ E).
  - split; [rewrite (es_objs _ _ _ _ E); unfold new_addr; lia|intros d; by apply offline_fmap|done].
  - intros r' [= <-]. done.
  - done.
  - intros p'. rewrite (es_lists _ _ _ _ E). case_decide; [|apply (ki_nodup _ _ _ K)].
    apply NoDup_app. split; [apply (ki_nodup _ _ _ K)|]. split; [|apply NoDup_singleton].
    intros b Hb ->%list_elem_of_singleton. by apply (Hno p).
  - rewrite (es_intr _ _ _ _ E). apply (ki_intr_nodup _ _ _ K).
  - rewrite (es_ended _ _ _ _ E). intros Hi. pose proof (ki_ended _ _ _ K _ Hi). unfold new_addr in *. lia.
  - rewrite (es_ended _ _ _ _ E). apply (ki_once _ _ _ K).
  - rewrite (es_num _ _ _ _ E). lia.
  - rewrite (es_active _ _ _ _ E). lia.
  - rewrite (es_waiting _ _ _ _ E). lia.
  - rewrite (es_reqs _ _ _ _ E), map_size_insert_None by done. lia.
  - intros r' b rb [= <-] Hnum Hb Hrb Hnb. destruct (es_unique _ _ _ _ E Hnum) as [-> ->].
    eapply unique_new; [done..|lia].
  - rewrite fz_links, (es_objs _ _ _ _ E). unfold new_addr.
    assert (Hon : on_bg r = true -> p = OnBg).
    { unfold on_bg. rewrite (fr_place _ _ F). by intros ?%bool_decide_eq_true. }
    destruct (es_ctr _ _ _ _ E) as [->|[-> ->]]; destruct (on_bg r); cbn [Z.b2z]; try lia. discriminate (Hon eq_refl).
Qed.

(** Only objects are made, and requests and counters change. *)
Lemma good_frozen s s' : good s -> fc_connected (fc s) = true -> kinv 0 [] s' ->
  frozen s' = frozen (set_koks (koks s') (set_kobjs (kobjs s') s)) -> kobjs s <= kobjs s' ->
  blocked_ok s' -> good s'.
Proof.
  intros G Hon K F Ho B. apply frozen_froze in F as []. cbn in *.
  split; try done.
  - rewrite fz_conn, fz_fcc. apply G.
  - rewrite fz_fcc, Hon. done.
  - destruct (gd_forgets _ G) as [l [H1 H2 H3]]. exists l. split; [by rewrite fz_links, fz_head|done|congruence].
  - rewrite fz_links. intros f Hf. pose proof (gd_links _ G f Hf). lia.
  - unfold max_ok. rewrite fz_max. apply G.
  - rewrite fz_batch. apply G.
  - intros d. rewrite fz_devices, (is_Some_fmap s s' d fz_devs). apply G.
  - rewrite fz_devices. apply G.
  - intros d. rewrite (is_Some_fmap s s' d fz_devs). intros Hd. pose proof (gd_dev_addr _ G d Hd). lia.
Qed.

(** ** Getting a request *)
Definition got_req (bg : bool) (who : creds) : kreq :=
  let r := set_k_waiting true (set_creds who (set_k_pending true (set_k_count 1 kreq0))) in
  if bg then set_k_background true r else r.

(** The caller is not blocked, or is killed. *)
Definition may_go s (bg killed : bool) : Prop := fuse_block_alloc (fc s) bg = true -> killed = true.

Lemma undo_waiting s : set_fc (set_num_waiting (num_waiting (fc s) + 1 - 1)
  (set_num_waiting (num_waiting (fc s) + 1) (fc s))) (set_fc (set_num_waiting (num_waiting (fc s) + 1) (fc s)) s) = s.
Proof. rewrite Z.add_simpl_r. by destruct s as [[] ]. Qed.

Lemma get_req_runs s bg who killed : good s -> room s -> may_go s bg killed ->
  runs (fuse_get_req bg who killed) s (fun o s' => match o with
    | inl _ => good s'
    | inr a => a = new_addr s /\ fc_connected (fc s) = true /\ exists oks, s' = making s 1 oks (got_req bg who)
    end).
Proof.
  intros G Hroom Hgo. unfold fuse_get_req. eapply runs_Ok_bind; [apply modify_fc_Ok|].
  eapply runs_Ok_bind; [apply get_fc_Ok|]. set (s1 := set_fc _ s).
  assert (Hdrop : forall err : Z, runs (fuse_drop_waiting;; mret (inl err)) s1 (fun (o : Z + Z) s' => match o with
    | inl _ => good s'
    | inr a => a = new_addr s /\ fc_connected (fc s) = true /\ exists oks, s' = making s 1 oks (got_req bg who)
    end)).
  { intros err. eapply runs_Ok_bind; [apply modify_fc_Ok|]. apply runs_ret.
    assert (E : set_fc (set_num_waiting (num_waiting (fc s1) - 1) (fc s1)) s1 = s) by apply undo_waiting.
    by rewrite E. }
  change (fuse_block_alloc (fc s1) bg) with (fuse_block_alloc (fc s) bg).
  change (fc_connected (fc s1)) with (fc_connected (fc s)). change (conn_error (fc s1)) with (conn_error (fc s)).
  destruct (fuse_block_alloc (fc s) bg) eqn:Hb; [rewrite (Hgo Hb); apply Hdrop|]. cbn [andb].
  destruct (fc_connected (fc s)) eqn:Hon; cbn [negb]; [|apply Hdrop].
  destruct (conn_error (fc s)) eqn:Her; [apply Hdrop|].
  set (a := new_addr s). destruct Hroom as [Hr1 Hr2]. pose proof (ki_objs _ _ _ (gd_inv _ G)) as Ho.
  assert (Ha : a <> 0) by (unfold a, new_addr; lia).
  assert (Halloc : fuse_request_alloc false s1 = Ok (0, set_koks (tail (koks s)) s1) \/
    fuse_request_alloc false s1 = Ok (a, making s 1 (tail (koks s)) (set_k_pending true (set_k_count 1 kreq0)))).
  { unfold fuse_request_alloc, mbind, M_bind, getM. change (koks s1) with (koks s).
    destruct (koks s) as [|[] oks] eqn:E; [right|right|left; done]; done. }
  destruct Halloc as [Hf|Hok].
  { eapply runs_Ok_bind; [exact Hf|]. cbn [Z.eqb]. eapply runs_Ok_bind; [apply modify_fc_Ok|]. apply runs_ret.
    pose proof (good_oks s (tail (koks s)) G) as G2. rewrite <- (undo_waiting s) in G2 at 2. exact G2. }
  eapply runs_Ok_bind; [exact Hok|]. rewrite (proj2 (Z.eqb_neq _ _) Ha).
  eapply runs_Ok_bind; [apply making_update|]. eapply runs_Ok_bind; [apply making_update|].
  set (r1 := set_k_waiting true _).
  apply (runs_Ok_bind _ _ _ tt (making s 1 (tail (koks s)) (got_req bg who))).
  { unfold got_req. fold r1. destruct bg; [apply making_update|done]. }
  destruct who as [[uid gid] pid].
  assert (Hd : runs (fuse_put_request a;; mret (inl (- EOVERFLOW))) (making s 1 (tail (koks s)) (got_req bg (uid, gid, pid)))
    (fun (o : Z + Z) s' => match o with
    | inl _ => good s'
    | inr a' => a' = a /\ true = true /\ exists oks, s' = making s 1 oks (got_req bg (uid, gid, pid))
    end)).
  { eapply runs_bind; [apply making_put; [done|by split|by destruct bg..]|].
    intros [] s' G'. by apply runs_ret. }
  destruct (_ || _); [exact Hd|]. apply runs_ret. split; [done|]. split; [done|]. by exists (tail (koks s)).
Qed.

(** A request that its maker still fills in. *)
Record built r (bg w : bool) : Prop := mk_built {
  bt_place : k_place r = Nowhere;
  bt_count : k_count r = 1;
  bt_waiter : k_waiter r = NoWaiter;
  bt_copier : k_copier r = NoCopier;
  bt_finished : k_finished r = false;
  bt_sent : k_sent r = false;
  bt_private : k_private r = false;
  bt_locked : k_locked r = false;
  bt_background : k_background r = bg;
  bt_waiting : k_waiting r = w;
}.

Lemma got_built bg who : built (got_req bg who) bg true.
Proof. destruct who as [[? ?] ?], bg; by split. Qed.

Lemma args_to_req_runs s w oks r bg wt args : built r bg wt -> args_ok args ->
  exists r', fuse_args_to_req (new_addr s) args (making s w oks r) = Ok (tt, making s w oks r') /\
    built r' bg wt /\ k_args r' = args /\ k_isreply r' = k_isreply r /\ k_unique r' = k_unique r.
Proof.
  intros [] Ha. unfold fuse_args_to_req. rewrite (bind_Ok _ _ _ _ _ (making_update _ _ _ _ _)).
  destruct (a_end args).
  - rewrite making_update. eexists. split; [done|]. by split; [split|].
  - eexists. split; [done|]. by split; [split|].
Qed.

Lemma adjust_ok minor args : args_ok args -> args_ok (fuse_adjust_compat minor args).
Proof.
  intros H. assert (Hset : forall f g, (forall l, l <> [] -> f l <> []) -> forall args, args_ok args ->
    args_ok (set_out_args (f (out_args args)) args) /\ args_ok (set_in_args (g (in_args args)) args)).
  { intros f g Hf args0 H0. split; intros Hv; cbn in *; [apply Hf|]; by apply H0. }
  assert (Hs : forall n l, l <> [] -> size0 n l <> []) by (by intros n [|x l]).
  unfold fuse_adjust_compat.
  assert (H1 : args_ok (if (minor <? 4) && (a_opcode args =? FUSE_STATFS)
    then set_out_args (size0 FUSE_COMPAT_STATFS_SIZE (out_args args)) args else args)).
  { case_match; [|done]. exact (proj1 (Hset (size0 FUSE_COMPAT_STATFS_SIZE) (fun l => l) (Hs _) args H)). }
  revert H1. generalize (if (minor <? 4) && (a_opcode args =? FUSE_STATFS)
    then set_out_args (size0 FUSE_COMPAT_STATFS_SIZE (out_args args)) args else args). intros args1 H1.
  set (args2 := if minor <? 9 then _ else args1).
  assert (H2 : args_ok args2).
  { unfold args2. repeat case_match; try done; apply (proj1 (Hset (size0 _) (fun l => l) (Hs _) args1 H1)). }
  clearbody args2. repeat case_match; try done; apply (proj2 (Hset (fun l => l) (size0 _) ltac:(done) args2 H2)).
Qed.

Lemma knext_ctr s e fly : kinv e fly s -> u64 (reqctr (iq (fc s)) + FUSE_REQ_ID_STEP) = reqctr (iq (fc s)) + 2.
Proof.
  intros K. pose proof (ki_ctr _ _ _ K). pose proof (cnt_nonneg on_bg (kreqs s)).
  pose proof (ki_objs _ _ _ K). pose proof (ki_even _ _ _ K). unfold u64, FUSE_REQ_ID_STEP.
  apply Z.mod_small. lia.
Qed.

(** ** Sending *)
Lemma send_connected s oks r : good s -> built r false true -> args_ok (k_args r) ->
  connected (iq (fc s)) = true ->
  exists r' s', fuse_request_send (new_addr s) (making s 1 oks r) = Ok (true, s') /\
    fresh r' OnPending /\ enters s s' r' OnPending /\ k_waiter r' <> NoWaiter /\ blocked (fc s') = blocked (fc s) /\
    max_background (fc s') = max_background (fc s).
Proof.
  intros G [] Ha Hon. pose proof (knext_ctr _ _ _ (gd_inv _ G)) as Hu.
  unfold fuse_request_send. rewrite (bind_Ok _ _ _ _ _ (making_load _ _ _ _)). set (a := new_addr s).
  rewrite bt_background0. cbn [negb]. unfold assertM. rewrite (bind_Ok (mret tt) _ _ tt _ eq_refl).
  rewrite (bind_Ok _ _ _ _ _ (get_iq_Ok _)). change (connected (iq (fc (making s 1 oks r)))) with (connected (iq (fc s))).
  rewrite Hon. cbn [negb].
  rewrite (bind_Ok _ _ _ _ _ (fuse_get_unique_Ok _)).
  change (reqctr (iq (fc (making s 1 oks r)))) with (reqctr (iq (fc s))). rewrite Hu.
  set (u := reqctr (iq (fc s)) + 2). set (t0 := set_fc _ (making s 1 oks r)).
  assert (H0 : kreqs t0 !! a = Some r) by apply lookup_insert_eq.
  rewrite (bind_Ok _ _ _ _ _ (kupdate_req_Ok _ _ _ _ H0)). set (r1 := set_k_unique u r).
  unfold get_request. rewrite (bind_Ok _ _ _ _ _ (kupdate_req_Ok a r1 _ _ (lookup_insert_eq _ _ _))).
  set (r2 := set_k_count (k_count r1 + 1) r1). set (t2 := put_req a r2 (put_req a r1 t0)).
  unfold queue_request. rewrite !bind_assoc_eq. rewrite (bind_Ok _ _ _ _ _ (kupdate_req_Ok a r2 _ t2 (lookup_insert_eq _ _ _))).
  set (r3 := set_k_len _ r2). unfold list_add_tail. cbn [on_list]. rewrite !bind_assoc_eq.
  rewrite (bind_Ok _ _ _ _ _ (modify_iq_Ok _ _)).
  set (t3 := set_fc _ (put_req a r3 t2)).
  rewrite (bind_Ok _ _ _ _ _ (kupdate_req_Ok a r3 _ t3 (lookup_insert_eq _ _ _))).
  set (r4 := set_k_place OnPending r3). unfold request_wait_answer. rewrite !bind_assoc_eq.
  rewrite (bind_Ok _ _ _ _ _ (get_fc_Ok _)).
  rewrite (bind_Ok _ _ _ _ _ (kupdate_req_Ok a r4 _ (put_req a r4 t3) (lookup_insert_eq _ _ _))).
  set (r5 := set_k_waiter _ r4).
  eexists r5, _. split; [done|]. set (s' := put_req a r5 _).
  assert (Hw : k_waiter r5 <> NoWaiter) by (unfold r5; kred; by repeat case_match).
  assert (Hwt : waits r5 = 1) by (unfold waits; by rewrite decide_False).
  split; [|split; [|done]].
  - split; try done. rewrite Hwt. unfold r5, r4, r3, r2, r1. kred. by rewrite bt_count0.
  - split; try done.
    + unfold s', t3, t2, t0. unfold put_req, making. kred. fold a. by rewrite !insert_insert_eq.
    + by intros [].
    + by right.
    + unfold s'. kred. unfold t3, t2, t0. unfold r5, r4, r3, r2, r1. cbn. rewrite bt_background0. cbn. lia.
    + unfold active, r5, r4, r3, r2, r1. cbn. rewrite bt_background0. cbn. lia.
    + unfold r5, r4, r3, r2, r1. cbn. by rewrite bt_waiting0.
Qed.

Lemma making_return s oks r : good s -> room s -> built r false true -> k_error r <> 0 ->
  runs (request_return (new_addr s)) (making s 1 oks r) (fun ret s' => good s' /\ ret = k_error r).
Proof.
  intros G Hroom [] He. unfold request_return. eapply runs_Ok_bind; [apply making_update|].
  eapply runs_Ok_bind; [apply making_load|]. kred. rewrite (proj2 (Z.eqb_neq _ _) He). cbn [andb].
  eapply runs_Ok_bind; [done|]. eapply runs_bind; [apply making_put; [done|done|done|]|].
  - cbn. by rewrite bt_waiting0.
  - intros [] s' G'. by apply runs_ret.
Qed.

(** What a call comes to: the thread sleeps for a request, or it has an answer. *)
Definition call_safe s (o : sent) : Prop :=
  match o with
  | Asleep a => exists r, kreqs s !! a = Some r /\ k_waiter r <> NoWaiter
  | Returned _ => True
  end.

Definition simple_ok (args : fuse_args) : Prop :=
  args_ok args /\ (a_force args = false -> a_nocreds args = false).

Lemma forced_request_runs s args who : good s ->
  exists oks r, (modify_fc (fun c => set_num_waiting (num_waiting c + 1) c);;
    a ← fuse_request_alloc true;
    (if a_nocreds args then mret tt else update_req a (set_creds who));;
    update_req a (set_k_waiting true);;
    update_req a (set_k_force true);;
    mret (inr a : Z + Z)) s = Ok (inr (new_addr s), making s 1 oks r) /\ built r false true.
Proof.
  intros G. rewrite (bind_Ok _ _ _ _ _ (modify_fc_Ok _ _)).
  set (r0 := set_k_pending true (set_k_count 1 kreq0)).
  assert (Ha : fuse_request_alloc true (set_fc (set_num_waiting (num_waiting (fc s) + 1) (fc s)) s) =
    Ok (new_addr s, making s 1 (koks s) r0)) by done.
  rewrite (bind_Ok _ _ _ _ _ Ha). exists (koks s).
  destruct (a_nocreds args).
  - rewrite (bind_Ok (mret tt) _ _ tt _ eq_refl). rewrite !(bind_Ok _ _ _ _ _ (making_update _ _ _ _ _)).
    eexists. split; [done|]. by split.
  - rewrite !(bind_Ok _ _ _ _ _ (making_update _ _ _ _ _)). eexists. split; [done|].
    destruct who as [[? ?] ?]. by split.
Qed.

Lemma good_simple_request s args who killed : good s -> room s -> simple_ok args ->
  (a_force args = false -> may_go s false killed) ->
  runs (fuse_simple_request args who killed) s (fun o s' => good s' /\ call_safe s' o).
Proof.
  intros G Hroom [Hargs Hcr] Hgo. unfold fuse_simple_request.
  assert (Hget : runs (if a_force args then
           modify_fc (fun c => set_num_waiting (num_waiting c + 1) c);;
           a ← fuse_request_alloc true;
           (if a_nocreds args then mret tt else update_req a (set_creds who));;
           update_req a (set_k_waiting true);;
           update_req a (set_k_force true);;
           mret (inr a)
         else assertM (negb (a_nocreds args));; fuse_get_req false who killed) s
    (fun o s' => match o with
     | inl _ => good s'
     | inr a => a = new_addr s /\ exists oks r, s' = making s 1 oks r /\ built r false true
     end)).
  { destruct (a_force args).
    - destruct (forced_request_runs s args who G) as (oks & r & Hr & B). eexists _, _. split; [exact Hr|].
      split; [done|]. by exists oks, r.
    - apply runs_assert_bind; [by rewrite Hcr|].
      eapply runs_mono; [apply (get_req_runs s false who killed G Hroom (Hgo eq_refl))|].
      intros [e|a] s'; [done|]. intros (-> & _ & oks & ->). split; [done|]. eexists oks, _. split; [done|].
      apply got_built. }
  eapply runs_bind; [exact Hget|]. intros [e|a] s1; [intros G1; by apply runs_ret|].
  intros (-> & oks & r & -> & B). eapply runs_Ok_bind; [apply get_fc_Ok|].
  destruct (args_to_req_runs s 1 oks r false true (fuse_adjust_compat (minor (fc s)) args) B (adjust_ok _ _ Hargs))
    as (r1 & Hr1 & B1 & A1 & _).
  eapply runs_Ok_bind; [exact Hr1|].
  assert (Hrep : exists r2, (if a_noreply args then mret tt else update_req (new_addr s) (set_k_isreply true))
    (making s 1 oks r1) = Ok (tt, making s 1 oks r2) /\ built r2 false true /\ k_args r2 = k_args r1).
  { destruct (a_noreply args); [by exists r1|]. rewrite making_update. eexists. split; [done|].
    destruct B1. by split; [split|]. }
  destruct Hrep as (r2 & Hr2 & B2 & A2). eapply runs_Ok_bind; [exact Hr2|].
  assert (Hok2 : args_ok (k_args r2)) by (rewrite A2, A1; by apply adjust_ok).
  destruct (connected (iq (fc s))) eqn:Hon.
  - destruct (send_connected s oks r2 G B2 Hok2 Hon) as (r3 & s3 & Hr3 & F3 & E3 & Hw & Hbl & Hmx).
    eapply runs_Ok_bind; [exact Hr3|]. apply runs_ret.
    pose proof (kinv_enters s s3 r3 _ (gd_inv _ G) Hroom F3 E3) as K3. split.
    + apply (good_frozen s); [done|by rewrite <- (gd_conn _ G)|done|apply E3| |].
      * rewrite (es_objs _ _ _ _ E3). unfold new_addr. lia.
      * unfold blocked_ok. rewrite Hbl, Hmx, (es_num _ _ _ _ E3).
        assert (Hbg : k_background r3 = false) by by apply (fr_waiter _ _ F3).
        rewrite Hbg, Z.add_0_r. apply (gd_blocked _ G).
    + exists r3. split; [|done]. rewrite (es_reqs _ _ _ _ E3). apply lookup_insert_eq.
  - unfold fuse_request_send. destruct B2.
    eapply (runs_Ok_bind _ _ _ false (making s 1 oks (set_k_error (- ENOTCONN) r2))).
    { rewrite (bind_Ok _ _ _ _ _ (making_load _ _ _ _)). rewrite bt_background0. cbn [negb].
      rewrite (bind_Ok (assertM true) _ _ tt _ eq_refl). rewrite (bind_Ok _ _ _ _ _ (get_iq_Ok _)).
      change (connected (iq (fc (making s 1 oks r2)))) with (connected (iq (fc s))). rewrite Hon. cbn [negb].
      by rewrite (bind_Ok _ _ _ _ _ (making_update _ _ _ _ _)). }
    eapply runs_bind; [apply making_return; [done|done|by split|done]|].
    intros x s' [G' _]. by apply runs_ret.
Qed.

(** ** Background requests *)
Definition background_ok (args : fuse_args) : Prop :=
  args_ok args /\ a_nocreds args = a_force args.

Lemma making_waits s w oks r : modify_fc (fun c => set_num_waiting (num_waiting c + 1) c) (making s w oks r) =
  Ok (tt, making s (w + 1) oks r).
Proof. rewrite modify_fc_Ok. unfold making. kred. by rewrite Z.add_assoc. Qed.

Lemma background_enters s oks r c1 c2 : good s -> room s -> built r true true -> args_ok (k_args r) ->
  k_isreply r = true -> fc_connected (fc s) = true ->
  c1 = set_num_background (u32 (num_background (fc s) + 1)) (set_num_waiting (num_waiting (fc s) + 1) (fc s)) ->
  c2 = (if num_background c1 =? max_background c1 then set_blocked true c1 else c1) ->
  exists s1, list_add_tail (new_addr s) OnBg (set_fc c2 (making s 1 oks r)) = Ok (tt, s1) /\
    kinv 0 [] s1 /\ blocked_ok s1 /\ kobjs s1 = new_addr s /\
    frozen s1 = frozen (set_koks (koks s1) (set_kobjs (kobjs s1) s)).
Proof.
  intros G Hroom [] Ha Hre Hon E1 E2. pose proof (gd_inv _ G) as K. set (a := new_addr s).
  assert (Hn : num_background c1 = num_background (fc s) + 1).
  { subst c1. kred. rewrite (ki_num _ _ _ K). pose proof (fewer s 0 [] k_background K).
    unfold u32, UINT_MAX in *. apply Z.mod_small. lia. }
  unfold list_add_tail. cbn [on_list]. rewrite (bind_Ok _ _ _ _ _ (modify_fc_Ok _ _)). kred.
  set (t := set_fc _ (set_fc c2 _)).
  rewrite (kupdate_req_Ok a r _ t (lookup_insert_eq _ _ _)). eexists. split; [done|].
  set (r1 := set_k_place OnBg r). set (s1 := put_req a r1 t).
  assert (Hc2 : bg_queue c2 = bg_queue (fc s) /\ iq c2 = iq (fc s) /\ num_background c2 = num_background c1 /\
    active_background c2 = active_background (fc s) /\ num_waiting c2 = num_waiting (fc s) + 1 /\
    max_background c2 = max_background (fc s) /\ zero c2 = zero (fc s) /\
    blocked c2 = if num_background c1 =? max_background (fc s) then true else blocked (fc s)).
  { assert (Hm : max_background c1 = max_background (fc s)) by by subst c1.
    subst c2. rewrite Hm. destruct (num_background c1 =? max_background (fc s)); by subst c1. }
  destruct Hc2 as (Hb & Hiq & Hnum & Hact & Hwait & Hmax & Hzero & Hbl).
  assert (Hon1 : on_bg r1 = true) by (unfold on_bg; by apply bool_decide_eq_true).
  assert (E : enters s s1 r1 OnBg).
  { split; unfold s1, t, put_req, making; kred; try done.
    - fold a. by rewrite !insert_insert_eq.
    - intros p'. destruct p' as [| | |d|d h]; cbn; rewrite ?decide_False by done; rewrite ?Hb, ?Hiq; done.
    - apply (f_equal (fun c => core (set_ended [] (set_fc (set_bg_queue (bg_queue c2 ++ [a]) c) (set_koks oks (set_kobjs a s)))))) in Hzero.
      exact Hzero.
    - by rewrite Hiq.
    - left. by rewrite Hiq.
    - unfold numbered. by rewrite Hon1, andb_false_r.
    - rewrite Hnum, Hn. unfold r1. kred. by rewrite bt_background0.
    - rewrite Hact. unfold active. rewrite Hon1, andb_false_r. cbn. lia.
    - rewrite Hwait. unfold r1. kred. by rewrite bt_waiting0. }
  assert (F : fresh r1 OnBg).
  { split; try done; unfold waits, r1; kred; by rewrite bt_waiter0, bt_count0. }
  split; [by apply (kinv_enters s s1 r1 OnBg)|]. split; [|split; [done|apply E]].
  unfold blocked_ok, s1, t. kred. rewrite Hbl, Hnum, Hmax, Hn.
  rewrite (gd_blocked _ G). clear. zcases; done || lia.
Qed.

Lemma queue_background_runs s w oks r : good s -> room s -> built r true (0 <? w) -> w = Z.b2z (0 <? w) ->
  args_ok (k_args r) ->
  runs (queued ← fuse_request_queue_background (new_addr s);
        if (queued : bool) then mret 0 else fuse_put_request (new_addr s);; mret (- ENOTCONN))
    (making s w oks r) (fun _ s' => good s').
Proof.
  intros G Hroom B Hw Ha. destruct B. unfold fuse_request_queue_background.
  apply runs_bind_assoc. eapply runs_Ok_bind; [apply making_load|].
  apply runs_bind_assoc. apply runs_assert_bind; [done|]. apply runs_bind_assoc.
  eapply (runs_Ok_bind _ _ _ tt (making s 1 oks (set_k_waiting true r))).
  { rewrite bt_waiting0. destruct (Z.ltb_spec 0 w) as [H0|H0]; cbn in Hw.
    - subst w. by replace (set_k_waiting true r) with r by (destruct r; cbn in *; by subst).
    - subst w. rewrite (bind_Ok _ _ _ _ _ (making_update _ _ _ _ _)). by rewrite making_waits. }
  apply runs_bind_assoc. eapply runs_Ok_bind; [apply making_update|].
  set (r2 := set_k_isreply true (set_k_waiting true r)).
  apply runs_bind_assoc. eapply runs_Ok_bind; [apply get_fc_Ok|].
  change (fc_connected (fc (making s 1 oks r2))) with (fc_connected (fc s)).
  destruct (fc_connected (fc s)) eqn:Hon.
  - apply runs_bind_assoc. eapply runs_Ok_bind; [apply modify_fc_Ok|].
    apply runs_bind_assoc. eapply runs_Ok_bind; [apply modify_fc_Ok|].
    destruct (background_enters s oks r2 _ _ G Hroom ltac:(by split) Ha eq_refl Hon eq_refl eq_refl)
      as (s1 & Hr1 & K1 & B1 & O1 & F1).
    apply runs_bind_assoc. eapply runs_Ok_bind; [exact Hr1|].
    apply runs_bind_assoc. eapply runs_bind; [by apply (flush_bg_queue_runs 0 [])|].
    intros [] s2 (l & [K2 F2 Ha2 _ _]). apply runs_ret_bind, runs_ret.
    pose proof (ep_frozen _ _ _ (flushed_end_post 0 [] s1 s2 l 0 K1 F2)) as Hfz.
    pose proof (fl_core _ _ _ F2) as Hc. kcore Hc.
    apply (good_frozen s); [done..| | |].
    + rewrite Hfz, F1. by rewrite Eobjs, Eoks.
    + rewrite Eobjs, O1. unfold new_addr. lia.
    + unfold blocked_ok in *. congruence.
  - apply runs_ret_bind. eapply runs_bind; [by apply making_put|]. intros [] s' G'. by apply runs_ret.
Qed.

Lemma good_simple_background s args who killed : good s -> room s -> background_ok args ->
  (a_force args = false -> may_go s true killed) ->
  runs (fuse_simple_background args who killed) s (fun _ s' => good s').
Proof.
  intros G Hroom [Hargs Hcr] Hgo. unfold fuse_simple_background.
  destruct (a_force args) eqn:Hf.
  - apply runs_bind_assoc. apply runs_assert_bind; [by rewrite Hcr|].
    pose proof (ki_objs _ _ _ (gd_inv _ G)) as Ho.
    assert (Halloc : fuse_request_alloc false s = Ok (0, set_koks (tail (koks s)) s) \/
      fuse_request_alloc false s = Ok (new_addr s, making s 0 (tail (koks s)) (set_k_pending true (set_k_count 1 kreq0)))).
    { unfold fuse_request_alloc, mbind, M_bind, getM, making. rewrite Z.add_0_r.
      destruct s as [[] ? ? ? ? oks ?]. cbn. destruct oks as [|[] oks]; [right|right|left]; reflexivity. }
    apply runs_bind_assoc. destruct Halloc as [H|H].
    + eapply runs_Ok_bind; [exact H|]. apply runs_ret_bind, runs_ret. by apply good_oks.
    + eapply runs_Ok_bind; [exact H|]. rewrite (proj2 (Z.eqb_neq _ _)) by (unfold new_addr; lia).
      apply runs_bind_assoc. eapply runs_Ok_bind; [apply making_update|]. apply runs_ret_bind.
      set (r0 := set_k_background true _).
      destruct (args_to_req_runs s 0 (tail (koks s)) r0 true false args ltac:(by split) Hargs) as (r1 & Hr1 & B1 & A1 & _).
      eapply runs_Ok_bind; [exact Hr1|]. apply (queue_background_runs s 0); [done..|by rewrite A1].
  - apply runs_bind_assoc. apply runs_assert_bind; [by rewrite Hcr|].
    eapply runs_bind; [apply (get_req_runs s true who killed G Hroom (Hgo eq_refl))|].
    intros [e|a] s1; [intros G1; by apply runs_ret|]. intros (-> & _ & oks & ->).
    destruct (args_to_req_runs s 1 oks _ true true args (got_built true who) Hargs) as (r1 & Hr1 & B1 & A1 & _).
    eapply runs_Ok_bind; [exact Hr1|]. apply (queue_background_runs s 1); [done..|by rewrite A1].
Qed.

Lemma good_notify_reply s args unique who killed : good s -> room s -> args_ok args ->
  may_go s false killed ->
  runs (fuse_simple_notify_reply args unique who killed) s (fun _ s' => good s').
Proof.
  intros G Hroom Hargs Hgo. unfold fuse_simple_notify_reply.
  eapply runs_bind; [apply (get_req_runs s false who killed G Hroom Hgo)|].
  intros [e|a] s1; [intros G1; by apply runs_ret|]. intros (-> & Hon & oks & ->).
  eapply runs_Ok_bind; [apply making_update|]. eapply runs_Ok_bind; [apply making_update|].
  set (r0 := set_k_unique _ _).
  destruct (args_to_req_runs s 1 oks r0 false true args) as (r1 & Hr1 & B1 & A1 & I1 & _); [|done|].
  { destruct who as [[? ?] ?]. by split. }
  eapply runs_Ok_bind; [exact Hr1|]. eapply runs_Ok_bind; [apply get_iq_Ok|].
  change (connected (iq (fc (making s 1 oks r1)))) with (connected (iq (fc s))). rewrite (gd_conn _ G), Hon.
  set (a := new_addr s). set (t := making s 1 oks r1). destruct B1.
  destruct (queue_request_runs t a r1) as (s2 & Hr2 & T); [apply lookup_insert_eq|].
  eapply runs_Ok_bind; [exact Hr2|]. apply runs_ret. set (r2 := set_k_place OnPending _) in T.
  pose proof (tn_core _ _ _ _ _ T) as Hc. pose proof (frozen_core _ _ Hc) as Hfz. kcore Hc.
  assert (Hon2 : k_isreply r2 = false) by (unfold r2; kred; by rewrite I1).
  assert (E : enters s s2 r2 OnPending).
  { split; unfold t, making in *; kred; try done.
    - rewrite (tn_reqs _ _ _ _ _ T). kred. fold a. by rewrite insert_insert_eq.
    - intros p'. rewrite (tn_lists _ _ _ _ _ T). case_decide; [by subst|by destruct p'].
    - rewrite Hfz, Eobjs, Eoks. done.
    - by left.
    - unfold numbered. by rewrite Hon2.
    - rewrite Enum. unfold r2. kred. rewrite bt_background0. cbn. lia.
    - rewrite Eact. unfold active, r2. kred. rewrite bt_background0. cbn. lia.
    - rewrite Ewait. unfold r2. kred. by rewrite bt_waiting0. }
  assert (F : fresh r2 OnPending).
  { split; try done; unfold waits, r2; kred; [by rewrite bt_waiter0, bt_count0|by rewrite A1]. }
  apply (good_frozen s); [done..|by apply (kinv_enters s s2 r2 OnPending (gd_inv _ G) Hroom)|apply E| |].
  - rewrite (es_objs _ _ _ _ E). unfold new_addr. lia.
  - unfold blocked_ok. rewrite Eblk, Emax, Enum. apply (gd_blocked _ G).
Qed.
