(* ===== verification/KWait.v ===== *)
(** * The thread that waits for an answer, and the other calls *)
From S2P Require Import Prelude KTypes KForget KForgetFacts KQueue KInv KSteps KMoves KRead KWrite KAbort KThreads KEnd KSend.
#[local] Open Scope Z_scope.

#[local] Abbreviation L := (M kernel).
Implicit Types (s : kernel) (m : gmap Z kreq) (a b d : Z) (r : kreq) (fly : list Z).

(** A request that nobody works on any more was ended, and is not marked as sent. *)
Lemma idle_place s e a r : kinv e [] s -> kreqs s !! a = Some r -> k_place r = Nowhere ->
  k_finished r = true /\ k_sent r = false.
Proof.
  intros K Ha Hp. pose proof (ki_req _ _ _ K a r Ha) as R.
  split; [apply (rk_done _ _ _ _ _ R Hp), not_elem_of_nil|].
  destruct (k_sent r) eqn:E; [|done].
  destruct (rk_sent _ _ _ _ _ R E) as [(d & h & Hd)|[_ Hn]]; [congruence|by apply elem_of_nil in Hn].
Qed.

(** The waiter moves on. *)
Lemma kinv_waiter s a r w : kinv 0 [] s -> kreqs s !! a = Some r -> k_waiter r <> NoWaiter ->
  kinv 0 (if decide (w = NoWaiter) then [a] else []) (put_req a (set_k_waiter w r) s).
Proof.
  intros K Ha Hw. pose proof (put_turned s a (set_k_waiter w r)) as T.
  apply (kinv_relisted 0 [] _ s _ a r (set_k_waiter w r) (linked s) K Ha T); try done.
  - apply same_relisted; [apply (ki_nodup _ _ _ K)|]. apply (rk_lists _ _ _ _ _ (ki_req _ _ _ K a r Ha)).
  - intros b Hb. case_decide; [by rewrite count_cons, decide_False|done].
  - intros R. apply (rok_core s); [done|by apply linked_put| |apply (ki_objs _ _ _ K)|apply (ki_even _ _ _ K)].
    pose proof (idle_place s 0 a r K Ha) as Hidle.
    krok R. split; unfold waits, held, copies, numbered, on_bg in *; kred; try done.
    + rewrite (decide_False (P := k_waiter r = NoWaiter)) in Rcount by done. cbn in Rcount.
      destruct (decide (w = NoWaiter)); [rewrite count_cons, (decide_True (P := a = a)) by done|]; cbn; lia.
    + intros Hp _. by apply Hidle.
    + intros Hs. destruct (Rsent Hs) as [|[Hp _]]; [by left|]. destruct (Hidle Hp). congruence.
    + intros _. by apply Rwait.
Qed.

Lemma good_waiter s a r w : good s -> kreqs s !! a = Some r -> k_waiter r <> NoWaiter -> w <> NoWaiter ->
  good (put_req a (set_k_waiter w r) s).
Proof.
  intros G Ha Hw Hw'. apply (good_steady s); [done| |by apply (put_steady _ _ r)].
  pose proof (kinv_waiter s a r w (gd_inv _ G) Ha Hw) as K. by rewrite decide_False in K.
Qed.

(** The answer is there, and the request is given back. *)
Lemma good_return s a r : good s -> kreqs s !! a = Some r -> k_waiter r <> NoWaiter ->
  k_finished r = true ->
  runs (request_return a) s (fun ret s' => good s' /\
    ret = (if (k_error r =? 0) && out_argvar (k_args r)
           then default 0 (fst <$> last (out_args (k_args r))) else k_error r)).
Proof.
  intros G Ha Hw Hf. unfold request_return. pose proof (gd_inv _ G) as K.
  eapply runs_Ok_bind; [by apply kupdate_req_Ok|]. set (r1 := set_k_waiter NoWaiter r).
  pose proof (kinv_waiter s a r NoWaiter K Ha Hw) as K1. rewrite decide_True in K1 by done. fold r1 in K1.
  set (s1 := put_req a r1 s) in *. assert (Ha1 : kreqs s1 !! a = Some r1) by apply lookup_insert_eq.
  eapply runs_Ok_bind; [by apply kload_req_Ok|].
  eapply (runs_Ok_bind _ _ _ (if (k_error r =? 0) && out_argvar (k_args r)
    then default 0 (fst <$> last (out_args (k_args r))) else k_error r) s1).
  { change (k_error r1) with (k_error r). change (k_args r1) with (k_args r).
    destruct ((k_error r =? 0) && out_argvar (k_args r)) eqn:E; [|done].
    apply andb_true_iff in E as [_ E]. pose proof (rk_args _ _ _ _ _ (ki_req _ _ _ K a r Ha) E) as Hne.
    destruct (last (out_args (k_args r))) as [x|] eqn:El; [done|]. by apply last_None in El. }
  destruct (put_runs 0 [] s1 a r1 K1 Ha1) as (s2 & Hr2 & K2 & P2 & _).
  { intros Hp _. by apply (idle_place s 0 a r K Ha). }
  eapply runs_Ok_bind; [exact Hr2|]. apply runs_ret. split; [|done].
  apply (good_steady s); [done..|]. apply (steady_trans _ s1); [by apply (put_steady _ _ r)|].
  by apply (put_post_steady _ _ a); [|exists r1].
Qed.

Lemma good_wait_interrupted s a r : good s -> kreqs s !! a = Some r -> k_waiter r = Interruptible ->
  runs (wait_interrupted a) s (fun _ s' => good s').
Proof.
  intros G Ha Hw. unfold wait_interrupted. eapply runs_Ok_bind; [by apply kupdate_req_Ok|].
  set (r1 := set_k_interrupted true r). set (s1 := put_req a r1 s).
  assert (G1 : good s1) by (apply (good_calm s a r); [done..|by split]).
  assert (Ha1 : kreqs s1 !! a = Some r1) by apply lookup_insert_eq.
  eapply runs_Ok_bind; [by apply kload_req_Ok|].
  assert (Hm : exists s2, (if k_sent r1 then queue_interrupt a;; mret tt else mret tt) s1 = Ok (tt, s2) /\
    good s2 /\ kreqs s2 = kreqs s1).
  { destruct (k_sent r1) eqn:Hs; [|by exists s1].
    destruct (rk_sent _ _ _ _ _ (ki_req _ _ _ (gd_inv _ G1) a r1 Ha1) Hs) as [(d & h & Hp)|[_ Hn]];
      [|by apply elem_of_nil in Hn].
    destruct (queue_interrupt_runs 0 [] s1 a r1 (gd_inv _ G1) Ha1) as (n & s2 & Hr & K2 & Hq & Hl & F & B & _);
      [by rewrite Hp|].
    exists s2. rewrite (bind_Ok _ _ _ _ _ Hr). split; [done|]. split; [|done].
    apply (good_steady s1); [done..|]. by apply steady_blocked. }
  destruct Hm as (s2 & Hr2 & G2 & Hq2). eapply runs_Ok_bind; [exact Hr2|].
  rewrite <- Hq2 in Ha1. eexists tt, _. split; [by apply kupdate_req_Ok|].
  apply good_waiter; [done..| |by destruct (k_force r1)]. unfold r1. kred. by rewrite Hw.
Qed.

(** A pending request is taken back and freed. *)
Record removed s s' a r : Prop := mk_removed {
  rm_reqs : kreqs s' = delete a (kreqs s);
  rm_lists : forall p, linked s' p = remove_addr a (linked s p);
  rm_frozen : frozen s' = frozen s;
  rm_objs : kobjs s' = kobjs s;
  rm_intr : interrupts (iq (fc s')) = interrupts (iq (fc s));
  rm_ended : ended s' = ended s;
  rm_ctr : reqctr (iq (fc s')) = reqctr (iq (fc s));
  rm_num : num_background (fc s') = num_background (fc s);
  rm_active : active_background (fc s') = active_background (fc s);
  rm_waiting : num_waiting (fc s') = num_waiting (fc s) - Z.b2z (k_waiting r);
}.

Lemma kinv_removed s s' a r : kinv 0 [] s -> kreqs s !! a = Some r -> k_place r = OnPending ->
  k_background r = false -> removed s s' a r -> kinv 0 [] s'.
Proof.
  intros K Ha Hp Hbg M. pose proof (ki_req _ _ _ K a r Ha) as R. pose proof (ki_objs _ _ _ K) as Ho.
  pose proof (frozen_froze _ _ (rm_frozen _ _ _ _ M)) as []. pose proof (ki_even _ _ _ K) as [Hpos He].
  assert (Hni : a ∉ interrupts (iq (fc s))).
  { intros Hi. destruct (rk_intr _ _ _ _ _ R Hi) as (_ & _ & Hq). by rewrite Hp in Hq. }
  assert (Hoth : forall b, b <> a -> kreqs s' !! b = kreqs s !! b).
  { intros b Hb. rewrite (rm_reqs _ _ _ _ M). by rewrite lookup_delete_ne by congruence. }
  assert (Hself : kreqs s' !! a = None) by (rewrite (rm_reqs _ _ _ _ M); apply lookup_delete_eq).
  apply (kinv_change a 0 0 [] [] s s'); try done; rewrite ?Hself, ?Ha; cbn [wt].
  - intros b Hb. split.
    + intros p. rewrite (rm_lists _ _ _ _ M), remove_addr_in. naive_solver.
    + by rewrite (rm_intr _ _ _ _ M).
    + by rewrite (rm_ended _ _ _ _ M).
  - split; [rewrite (rm_objs _ _ _ _ M); lia|intros d; by apply offline_fmap|].
    rewrite (rm_ctr _ _ _ _ M). split; [lia|done].
  - by intros r' [=].
  - intros _. split; [apply not_elem_of_nil|]. rewrite (rm_intr _ _ _ _ M). split; [done|].
    intros p. rewrite (rm_lists _ _ _ _ M), remove_addr_in. by intros [].
  - intros p. rewrite (rm_lists _ _ _ _ M). apply remove_addr_nodup, (ki_nodup _ _ _ K).
  - rewrite (rm_intr _ _ _ _ M). apply (ki_intr_nodup _ _ _ K).
  - rewrite (rm_ended _ _ _ _ M), (rm_objs _ _ _ _ M). apply (ki_ended _ _ _ K).
  - rewrite (rm_ended _ _ _ _ M). apply (ki_once _ _ _ K).
  - rewrite (rm_num _ _ _ _ M), Hbg. cbn. lia.
  - rewrite (rm_active _ _ _ _ M). unfold active. rewrite Hbg. cbn. lia.
  - rewrite (rm_waiting _ _ _ _ M). lia.
  - rewrite (rm_reqs _ _ _ _ M), map_size_delete_Some by eauto. pose proof (ki_few _ _ _ K). lia.
  - by intros r' b rb [=].
  - rewrite fz_links, (rm_objs _ _ _ _ M), (rm_ctr _ _ _ _ M), on_bg_false by by rewrite Hp. cbn. lia.
Qed.

Lemma put_request_Ok s a r : kreqs s !! a = Some r -> 1 < k_count r ->
  put_request a s = Ok (tt, put_req a (set_k_count (k_count r - 1) r) s).
Proof.
  intros Ha Hc. unfold put_request. rewrite (bind_Ok _ _ _ _ _ (kload_req_Ok _ _ _ Ha)).
  rewrite (bind_Ok (assertM _) _ _ tt s); [exact (kupdate_req_Ok a r (fun r => set_k_count (k_count r - 1) r) s Ha)|].
  unfold assertM. by rewrite (proj2 (Z.ltb_lt _ _) Hc).
Qed.

Lemma put_last s a r : kreqs s !! a = Some r -> k_count r = 1 -> exists s', fuse_put_request a s = Ok (tt, s') /\
  kreqs s' = delete a (kreqs s) /\
  fc s' = set_num_waiting (num_waiting (fc s) - Z.b2z (k_waiting r)) (fc s) /\
  devs s' = devs s /\ links s' = links s /\ kobjs s' = kobjs s /\ koks s' = koks s /\ ended s' = ended s.
Proof.
  intros Ha Hc. unfold fuse_put_request. rewrite (bind_Ok _ _ _ _ _ (kload_req_Ok _ _ _ Ha)), Hc.
  rewrite (bind_Ok (assertM (0 <? 1)) _ _ tt s eq_refl).
  rewrite (bind_Ok _ _ _ _ _ (kupdate_req_Ok _ _ _ _ Ha)). change (1 - 1 =? 0) with true. cbv iota.
  destruct (k_waiting r); cbn [Z.b2z].
  - rewrite bind_assoc_eq. rewrite (bind_Ok _ _ _ _ _ (kupdate_req_Ok a _ _ _ (lookup_insert_eq _ _ _))).
    unfold fuse_drop_waiting. rewrite (bind_Ok _ _ _ _ _ (modify_fc_Ok _ _)). eexists. split; [done|]. cbn.
    by rewrite !delete_insert_eq.
  - rewrite (bind_Ok (mret tt) _ _ tt _ eq_refl). eexists. split; [done|]. cbn.
    rewrite delete_insert_eq, Z.sub_0_r. split; [done|]. split; [by destruct s as [[]]|done].
Qed.

Lemma good_wait_killed s a r : good s -> kreqs s !! a = Some r -> k_waiter r = Killable ->
  runs (wait_killed a) s (fun o s' => good s' /\ call_safe s' o).
Proof.
  intros G Ha Hw. pose proof (gd_inv _ G) as K. pose proof (ki_req _ _ _ K a r Ha) as R.
  unfold wait_killed. eapply runs_Ok_bind; [by apply kload_req_Ok|].
  assert (Hnw : k_waiter r <> NoWaiter) by by rewrite Hw.
  pose proof (rk_waiter _ _ _ _ _ R Hnw) as Hbg.
  destruct (k_pending r) eqn:Hpe.
  - assert (Hp : k_place r = OnPending).
    { pose proof (rk_pending _ _ _ _ _ R Hpe) as Hq. pose proof (rk_bg _ _ _ _ _ R).
      destruct (k_place r); try done. by rewrite H in Hbg. }
    assert (Hc : k_count r = 2).
    { rewrite (rk_count _ _ _ _ _ R). unfold waits, held. rewrite Hp, !decide_False; [done|by intros []|done]. }
    destruct (klist_del_runs s a r Ha (rk_lists _ _ _ _ _ R)) as (s1 & Hr1 & T).
    eapply runs_Ok_bind; [exact Hr1|]. set (r1 := set_k_place Nowhere r) in *.
    pose proof (turned_self _ _ _ _ _ T) as Ha1.
    eapply runs_Ok_bind; [apply (put_request_Ok s1 a r1 Ha1); unfold r1; kred; lia|].
    set (r2 := set_k_count (k_count r1 - 1) r1).
    eapply runs_Ok_bind; [apply (kupdate_req_Ok a r2), lookup_insert_eq|].
    set (r3 := set_k_error (- EINTR) r2). apply runs_bind_assoc.
    eapply runs_Ok_bind; [apply (kupdate_req_Ok a r3), lookup_insert_eq|]. apply runs_bind_assoc.
    set (r4 := set_k_waiter NoWaiter r3).
    eapply runs_Ok_bind; [apply (kload_req_Ok a r4), lookup_insert_eq|]. apply runs_bind_assoc.
    eapply runs_Ok_bind; [done|]. apply runs_bind_assoc.
    set (s4 := put_req a r4 _).
    destruct (put_last s4 a r4) as (s5 & Hr5 & Hq & Hf & Hd & Hl & Ho & Hk & He).
    { apply lookup_insert_eq. }
    { unfold r4, r3, r2, r1. kred. by rewrite Hc. }
    eapply runs_Ok_bind; [exact Hr5|]. apply runs_ret_bind, runs_ret. split; [|done].
    assert (Hl5 : forall p, linked s5 p = linked s1 p).
    { intros p. destruct p; cbn; unfold dev_list; by rewrite ?Hf, ?Hd. }
    pose proof (tn_core _ _ _ _ _ T) as Hcore. pose proof (frozen_core _ _ Hcore) as Hfz. kcore Hcore.
    assert (M : removed s s5 a r).
    { split; rewrite ?Hf, ?Ho, ?He; try done.
      - rewrite Hq. unfold s4, put_req. kred. rewrite (tn_reqs _ _ _ _ _ T). by rewrite !delete_insert_eq.
      - intros p. rewrite Hl5. apply T.
      - rewrite <- Hfz. unfold frozen, core. kred. by rewrite Hf, Hd, Hl, Ho, Hk.
      - unfold s4, put_req. kred. rewrite Ewait. unfold r4, r3, r2, r1. done. }
    pose proof (kinv_removed s s5 a r K Ha Hp Hbg M) as K5.
    apply (good_steady s); [done..|]. split; [apply M| |].
    + exists []. rewrite app_nil_r. pose proof (rm_lists _ _ _ _ M OnBg) as E1. pose proof (rm_lists _ _ _ _ M OnPending) as E2.
      cbn in E1, E2. rewrite E1, E2. split; [|by intros b [_ ?]%remove_addr_in].
      symmetry. apply remove_addr_id. intros Hi. apply (rk_lists _ _ _ _ _ R OnBg) in Hi as [Hi _]. congruence.
    + unfold blocked_ok. rewrite Hf. unfold s4, put_req. kred. congruence.
  - eapply runs_Ok_bind; [by apply kupdate_req_Ok|]. apply runs_ret. split; [by apply good_waiter|].
    exists (set_k_waiter Unkillable r). split; [apply lookup_insert_eq|done].
Qed.

(** ** Forgets *)
Lemma good_new_link s oks : good s -> kobjs s + 1 < 2 ^ 62 ->
  good (set_koks oks (set_kobjs (new_addr s) (set_links (<[new_addr s := mk_forget 0 0 0]> (links s)) s))).
Proof.
  intros G Hroom. unfold new_addr. pose proof (ki_objs _ _ _ (gd_inv _ G)) as Ho.
  assert (Hnew : links s !! (kobjs s + 1) = None).
  { destruct (links s !! (kobjs s + 1)) eqn:E; [|done]. pose proof (gd_links _ G _ ltac:(eauto)). lia. }
  assert (Hf : forall l, forgets s l -> forgets (set_koks oks (set_kobjs (kobjs s + 1)
    (set_links (<[kobjs s + 1 := mk_forget 0 0 0]> (links s)) s))) l).
  { intros l [H1 H2 H3]. split; [|done..]. apply (chain_frame (links s)); [done|]. intros a Ha. cbn.
    rewrite lookup_insert_ne; [done|]. intros <-. destruct (chain_mem _ _ _ _ H1 Ha) as [_ [x Hx]]. congruence. }
  split; try apply G.
  - apply (kinv_inert 0 [] s); [apply G|]. pose proof (ki_even _ _ _ (gd_inv _ G)) as [_ He].
    split; kred; try done; try (by left); try lia. rewrite map_size_insert_None by done. lia.
  - intros Hoff. destruct (gd_off _ G Hoff) as (H1 & H2 & H3). split_and!; auto.
  - destruct (gd_forgets _ G) as [l Hl]. eauto.
  - intros f Hs. cbn in *. apply lookup_insert_is_Some in Hs as [<-|[_ Hs]]; [lia|]. pose proof (gd_links _ G f Hs). lia.
  - intros d Hd. pose proof (gd_dev_addr _ G d Hd). cbn. lia.
Qed.

Lemma good_alloc_forget s : good s -> kobjs s + 1 < 2 ^ 62 ->
  runs fuse_alloc_forget s (fun f s' => good s' /\
    (f = 0 \/ f = new_addr s /\ links s' !! f = Some (mk_forget 0 0 0))).
Proof.
  intros G Hroom. unfold fuse_alloc_forget. apply runs_get_bind.
  assert (Hok : forall oks, good (set_koks oks (set_kobjs (kobjs s + 1)
      (set_links (<[kobjs s + 1 := mk_forget 0 0 0]> (links s)) s))) /\
    (kobjs s + 1 = 0 \/ kobjs s + 1 = new_addr s /\ (<[kobjs s + 1 := mk_forget 0 0 0]> (links s)) !! (kobjs s + 1) = Some (mk_forget 0 0 0))).
  { intros oks. split; [by apply good_new_link|]. right. split; [done|apply lookup_insert_eq]. }
  destruct (koks s) as [|[] oks] eqn:E.
  - eexists _, _. split; [done|]. apply Hok.
  - eexists _, _. split; [done|]. apply Hok.
  - eexists _, _. split; [done|]. split; [by apply good_oks|by left].
Qed.

(** A link that is not in the queue. *)
Definition loose s (f : Z) : Prop :=
  (exists l0, links s !! f = Some l0 /\ f_next l0 = 0) /\ forall l, forgets s l -> f ∉ l.*1.

Lemma good_same_forgets s s' l : good s -> same_but_forgets s s' -> forgets s' l ->
  (fc_connected (fc s) = false -> l = []) ->
  reqctr (iq (fc s')) = reqctr (iq (fc s)) -> dom (links s') ⊆ dom (links s) -> good s'.
Proof.
  intros G (H1 & H2 & H3 & H4 & H5 & hd & tl & ctr & Hfc) Hf Hoff Hc Hd.
  pose proof (gd_inv _ G) as K. pose proof (ki_objs _ _ _ K) as Ho. pose proof (ki_even _ _ _ K) as [_ He].
  split.
  - apply (kinv_inert 0 [] s); [done|]. apply subseteq_size in Hd. rewrite !size_dom in Hd.
    split; try (by rewrite Hfc); try (left; by rewrite Hfc); try done; rewrite ?H3, ?Hc; try lia; [| |by split].
    + intros p. destruct p; cbn; unfold dev_list; by rewrite ?Hfc, ?H2.
    + intros d. unfold offline. by rewrite H2.
  - rewrite Hfc. apply G.
  - rewrite Hfc. cbn. intros E. destruct (gd_off _ G E) as (E1 & E2 & _). by rewrite <- (Hoff E).
  - by exists l.
  - intros f Hs. rewrite H3. apply (gd_links _ G), elem_of_dom, Hd. by apply elem_of_dom.
  - unfold blocked_ok. rewrite Hfc. apply G.
  - unfold max_ok. rewrite Hfc. apply G.
  - rewrite Hfc. apply G.
  - rewrite Hfc, H2. apply G.
  - rewrite Hfc. apply G.
  - rewrite H2, H3. apply G.
Qed.

Lemma good_queue_forget s f nodeid nlookup : good s -> loose s f ->
  runs (fuse_queue_forget f nodeid nlookup) s (fun _ s' => good s').
Proof.
  intros G [(l0 & Hl0 & Hn) Hnf]. destruct (gd_forgets _ G) as [l Hl].
  destruct (connected (iq (fc s))) eqn:Hon.
  - eapply runs_mono; [apply (queue_forget_runs s l f l0 nodeid nlookup Hl Hl0 Hn); [|by apply Hnf|done]|].
    + pose proof (gd_links _ G f ltac:(eauto)). lia.
    + intros [] s' (Hf' & Hs & Hc & Hd). apply (good_same_forgets s s' _ G Hs Hf'); [|done|by rewrite Hd].
      rewrite <- (gd_conn _ G). congruence.
  - unfold fuse_queue_forget. eapply runs_Ok_bind; [by apply update_link_Ok|].
    set (s1 := set_links _ s). eapply runs_Ok_bind; [apply get_iq_Ok|].
    change (connected (iq (fc s1))) with (connected (iq (fc s))). rewrite Hon.
    eexists tt, _. split; [eapply kfree_link_Ok, lookup_insert_eq|]. cbv beta.
    apply (good_same_forgets s _ [] G).
    + do 5 (split; [done|]). exists (forget_head (iq (fc s))), (forget_tail (iq (fc s))), (reqctr (iq (fc s))).
      by destruct s as [[[] ] ].
    + rewrite (gd_conn _ G) in Hon. destruct (gd_off _ G Hon) as (_ & _ & [H1 H2 H3]). by split.
    + done.
    + done.
    + cbn. rewrite dom_delete_L, dom_insert_L. set_solver.
Qed.

(** ** Settings *)
Lemma good_set_flags s c' : good s -> flags (fc s) c' -> iq c' = iq (fc s) ->
  fc_connected c' = fc_connected (fc s) -> devices c' = devices (fc s) ->
  blocked c' = (max_background c' <=? num_background (fc s)) -> 0 <= max_background c' <= UINT_MAX ->
  good (set_fc c' s).
Proof. intros G F E. intros. by apply good_flags; rewrite ?E. Qed.

Lemma good_initialized s : good s -> runs fuse_set_initialized s (fun _ s' => good s').
Proof.
  intros G. eexists tt, _. split; [apply modify_fc_Ok|].
  apply good_set_flags; try done; [apply (gd_blocked _ G)|apply (gd_max _ G)].
Qed.

Lemma good_init_limits s minor_ max limit superuser : good s -> num_background (fc s) = 0 ->
  blocked (fc s) = false -> 0 <= max <= 0xffff -> 0 < limit <= 0xffff ->
  runs (process_init_limits minor_ max limit superuser) s (fun _ s' => good s').
Proof.
  intros G Hn Hb Hm Hl. unfold process_init_limits. case_match; [by apply runs_ret|].
  destruct (Z.eqb_spec max 0); [by apply runs_ret|].
  set (v := if _ && _ then _ else _). assert (Hv : 0 < v <= 0xffff) by (unfold v; case_match; lia).
  eexists tt, _. split; [apply modify_fc_Ok|]. fold v.
  apply good_set_flags; try done; cbn; [|unfold UINT_MAX; lia].
  rewrite Hb, Hn. symmetry. apply Z.leb_gt. lia.
Qed.

Lemma good_max_background s val : good s -> 0 <= val <= UINT_MAX ->
  runs (max_background_write val) s (fun _ s' => good s').
Proof.
  intros G Hv. unfold max_background_write. eapply runs_Ok_bind; [apply modify_fc_Ok|].
  eexists tt, _. split; [apply modify_fc_Ok|].
  exact (good_set_flags s (set_blocked (val <=? num_background (fc s)) (set_max_background val (fc s))) G
    ltac:(by split) eq_refl eq_refl eq_refl eq_refl Hv).
Qed.
