(* ===== verification/KDevice.v ===== *)
(** * The device as a transition system

    The events are what threads do between the points at which they sleep, take a page
    fault or return.  A state is reached from a fresh connection with one device by
    events each of which some thread could perform. *)
From S2P Require Import Prelude KTypes KForget KForgetFacts KQueue KInv KSteps KMoves KRead KWrite KAbort KThreads KEnd KSend KWait.
#[local] Open Scope Z_scope.

#[local] Abbreviation L := (M kernel).
Implicit Types (s : kernel) (a b d : Z) (r : kreq).

Inductive event : Type :=
| Request (args : fuse_args) (who : creds) (killed : bool)
| Background (args : fuse_args) (who : creds) (killed : bool)
| NotifyReply (args : fuse_args) (unique : Z) (who : creds) (killed : bool)
| Interrupted (a : Z)
| Killed (a : Z)
| Answered (a : Z)
| Lock (a : Z)
| Unlock (a : Z)
| Read (d nbytes : Z) (nonblock : bool)
| ReadDone (d a err : Z)
| Write (d : Z) (copied : Z + out_header) (nbytes : Z)
| WriteDone (d a err nbytes : Z)
| AllocForget
| QueueForget (f nodeid nlookup : Z)
| Initialized
| InitLimits (minor max limit : Z) (superuser : bool)
| MaxBackground (val : Z)
| AbortConn
| Clone
| Release (d : Z).

Section Device.
Context (hash_long : Z -> Z -> Z).

Definition handle (ev : event) : L unit :=
  match ev with
  | Request args who killed => fuse_simple_request args who killed;; mret tt
  | Background args who killed => fuse_simple_background args who killed;; mret tt
  | NotifyReply args unique who killed => fuse_simple_notify_reply args unique who killed;; mret tt
  | Interrupted a => wait_interrupted a
  | Killed a => wait_killed a;; mret tt
  | Answered a => request_return a;; mret tt
  | Lock a => lock_request a;; mret tt
  | Unlock a => unlock_request a;; mret tt
  | Read d nbytes nonblock => fuse_dev_do_read d nbytes nonblock;; mret tt
  | ReadDone d a err => read_done hash_long d a err;; mret tt
  | Write d copied nbytes => fuse_dev_do_write hash_long d copied nbytes;; mret tt
  | WriteDone d a err nbytes => write_done d a err nbytes;; mret tt
  | AllocForget => fuse_alloc_forget;; mret tt
  | QueueForget f nodeid nlookup => fuse_queue_forget f nodeid nlookup
  | Initialized => fuse_set_initialized
  | InitLimits minor max limit superuser => process_init_limits minor max limit superuser
  | MaxBackground val => max_background_write val
  | AbortConn => fuse_abort_conn
  | Clone => fuse_device_clone;; mret tt
  | Release d => fuse_dev_release d
  end.

(** Request [a] is in memory, and [P] holds of it. *)
Definition req_at s a (P : kreq -> Prop) : Prop := exists r, kreqs s !! a = Some r /\ P r.

(** A thread is where it performs the event, and its arguments are those the rest of the
    file system passes. *)
Definition enabled s (ev : event) : Prop :=
  match ev with
  | Request args who killed => room s /\ simple_ok args /\ (a_force args = false -> may_go s false killed)
  | Background args who killed => room s /\ background_ok args /\ (a_force args = false -> may_go s true killed)
  | NotifyReply args unique who killed => room s /\ args_ok args /\ may_go s false killed
  | Interrupted a => req_at s a (fun r => k_waiter r = Interruptible)
  | Killed a => req_at s a (fun r => k_waiter r = Killable)
  | Answered a => req_at s a (fun r => k_waiter r <> NoWaiter /\ k_finished r = true)
  | Lock a | Unlock a => req_at s a (fun r => exists d, copies r d)
  | Read d nbytes _ => is_Some (devs s !! d) /\ nbytes < 2 ^ 31
  | ReadDone d a _ => req_at s a (fun r => k_copier r = Reader d)
  | Write d _ _ => is_Some (devs s !! d)
  | WriteDone d a _ _ => req_at s a (fun r => k_copier r = Writer d)
  | AllocForget | Clone => kobjs s + 1 < 2 ^ 62
  | QueueForget f _ _ => loose s f
  | Initialized | AbortConn => True
  | InitLimits _ max limit _ => num_background (fc s) = 0 /\ blocked (fc s) = false /\
      0 <= max <= 0xffff /\ 0 < limit <= 0xffff
  | MaxBackground val => 0 <= val <= UINT_MAX
  | Release d => is_Some (devs s !! d) /\ idle_dev s d
  end.

(** A fresh connection; [oks] are the outcomes of the allocations that follow. *)
Definition kernel0 (oks : list bool) : kernel := mk_kernel fuse_conn_init ∅ ∅ ∅ 0 oks [].

Inductive reach : kernel -> Prop :=
| reach_start oks d s : fuse_dev_alloc_install (kernel0 oks) = Ok (d, s) -> d <> 0 -> reach s
| reach_step s ev s' : reach s -> enabled s ev -> handle ev s = Ok (tt, s') -> reach s'.

Lemma good_kernel0 oks : good (kernel0 oks).
Proof.
  assert (Hl : forall p, linked (kernel0 oks) p = []) by (by intros []).
  split; try done.
  - split; try done; try (by intros a r); try (apply NoDup_nil_2).
    + intros p a. rewrite Hl. by intros ?%elem_of_nil.
    + intros p. rewrite Hl. apply NoDup_nil_2.
    + by intros a ?%elem_of_nil.
    + by intros a ?%elem_of_nil.
    + by intros a ?%elem_of_nil.
  - exists []. by split; [|apply NoDup_nil_2|].
  - by intros f [x Hx].
  - intros d. split; [by intros ?%elem_of_nil|by intros [x Hx]].
  - apply NoDup_nil_2.
  - by intros d [x Hx].
Qed.

Lemma runs_drop {A} (m : L A) s (Q : A -> kernel -> Prop) (P : kernel -> Prop) : runs m s Q ->
  (forall x s', Q x s' -> P s') -> runs (m;; mret tt) s (fun _ s' => P s').
Proof. intros H HQ. eapply runs_bind; [exact H|]. intros x s' Hx. apply runs_ret. eauto. Qed.

Lemma handle_good s ev : hashes hash_long -> good s -> enabled s ev ->
  runs (handle ev) s (fun _ s' => good s').
Proof.
  intros HH G E. destruct ev; cbn in E |- *.
  - destruct E as (? & ? & ?). by eapply runs_drop; [apply good_simple_request|intros x s' []].
  - destruct E as (? & ? & ?). by eapply runs_drop; [apply good_simple_background|].
  - destruct E as (? & ? & ?). by eapply runs_drop; [apply good_notify_reply|].
  - destruct E as (r & ? & ?). by apply (good_wait_interrupted s a r).
  - destruct E as (r & ? & ?). by eapply runs_drop; [apply (good_wait_killed s a r)|intros x s' []].
  - destruct E as (r & ? & ? & ?). by eapply runs_drop; [apply (good_return s a r)|intros x s' []].
  - destruct E as (r & ? & d & ?). by eapply runs_drop; [apply (good_lock s a r d)|].
  - destruct E as (r & ? & d & ?). by eapply runs_drop; [apply (good_unlock s a r)|].
  - destruct E. by eapply runs_drop; [apply good_do_read|intros x s' []].
  - destruct E as (r & ? & ?). by eapply runs_drop; [apply (good_read_done hash_long s d a r)|].
  - by eapply runs_drop; [apply good_do_write|intros x s' []].
  - destruct E as (r & ? & ?). by eapply runs_drop; [apply (good_write_done s d a r); [..|by right]|].
  - by eapply runs_drop; [apply good_alloc_forget|intros x s' []].
  - by apply good_queue_forget.
  - by apply good_initialized.
  - destruct E as (? & ? & ? & ?). by apply good_init_limits.
  - by apply good_max_background.
  - eapply runs_mono; [by apply abort_runs|]. by intros [] s' [].
  - by eapply runs_drop; [apply good_dev_clone|].
  - destruct E. eapply runs_mono; [by apply good_dev_release|]. by intros [] s' [].
Qed.

Lemma reach_good s : hashes hash_long -> reach s -> good s.
Proof.
  intros HH. induction 1 as [oks d s Hs Hd|s ev s' _ IH E Hr].
  - pose proof (good_dev_alloc _ (good_kernel0 oks) ltac:(done)) as H.
    by destruct (runs_det _ _ _ _ _ H Hs).
  - by apply (runs_det _ _ _ _ _ (handle_good s ev HH IH E) Hr).
Qed.
End Device.
