(* ===== verification/KOrder.v ===== *)
(** * The queue of pending requests keeps its order

    Whatever a call does to the queue, it takes requests out of it and appends others,
    which come from the queue of background requests or are new.  So a request that is
    pending never moves back, and one that has left never returns. *)
From S2P Require Import Prelude KTypes KForget KForgetFacts KQueue KInv KSteps KMoves KThreads KDevice.
#[local] Open Scope Z_scope.

#[local] Abbreviation L := (M kernel).
Implicit Types (s : kernel) (a b d k : Z) (r : kreq) (l q : list Z).

(** [k] is the last address in use when the call starts; [same] says whether the call
    leaves [forget_batch] alone. *)
Record lines k (same : bool) s s' : Prop := mk_lines {
  ln_queue : exists l q, pending (iq (fc s')) = l ++ q /\ l `sublist_of` pending (iq (fc s)) /\
    forall b, b ∈ q -> b ∈ bg_queue (fc s) \/ k < b;
  ln_bg : forall b, b ∈ bg_queue (fc s') -> b ∈ bg_queue (fc s) \/ k < b;
  ln_objs : kobjs s <= kobjs s';
  ln_batch : same = true -> forget_batch (iq (fc s')) = forget_batch (iq (fc s));
}.

(** The queues are the same. *)
Definition same_line s s' : Prop :=
  pending (iq (fc s')) = pending (iq (fc s)) /\ bg_queue (fc s') = bg_queue (fc s) /\
  kobjs s <= kobjs s' /\ forget_batch (iq (fc s')) = forget_batch (iq (fc s)).

Lemma same_lines k same s s' : same_line s s' -> lines k same s s'.
Proof.
  intros (H1 & H2 & H3 & H4). split; [|by rewrite H2; auto|done|done].
  exists (pending (iq (fc s))), []. rewrite app_nil_r. split; [done|]. split; [done|].
  by intros b ?%elem_of_nil.
Qed.

Lemma lines_refl k same s : lines k same s s.
Proof. apply same_lines. by split_and!. Qed.

Lemma lines_trans k same s s1 s2 : lines k same s s1 -> lines k same s1 s2 -> lines k same s s2.
Proof.
  intros [(l1 & q1 & E1 & S1 & Q1) B1 O1 F1] [(l2 & q2 & E2 & S2 & Q2) B2 O2 F2].
  split; [| |lia|intros Hs; by rewrite F2, F1].
  - rewrite E1 in S2. apply sublist_app_r in S2 as (u & v & -> & Hu & Hv).
    exists u, (v ++ q2). split; [by rewrite E2, app_assoc|]. split; [by etrans|].
    intros b [Hb|Hb]%elem_of_app.
    + apply Q1. by eapply elem_of_sublist.
    + apply Q2 in Hb as [Hb|]; [by apply B1|by right].
  - intros b Hb. apply B2 in Hb as [Hb|]; [by apply B1|by right].
Qed.

Lemma lines_less k same s s' : lines k true s s' -> lines k same s s'.
Proof. intros []. split; auto. Qed.

Definition orderly {A} k same (m : L A) : Prop :=
  forall s x s', m s = Ok (x, s') -> lines k same s s'.

Create HintDb orderly.

Section Orderly.
Context {A B : Type} (k : Z) (same : bool).

Lemma orderly_ret (x : A) : orderly k same (mret x).
Proof. intros s y s' [= <- <-]. apply lines_refl. Qed.
Lemma orderly_crash c : orderly k same (crashM (A := A) c).
Proof. by intros s y s'. Qed.
Lemma orderly_bind (m : L A) (f : A -> L B) : orderly k same m -> (forall x, orderly k same (f x)) ->
  orderly k same (m ≫= f).
Proof.
  intros Hm Hf s y s2 (x & s1 & H1 & H2)%bind_inv.
  apply (lines_trans _ _ _ s1); [by apply (Hm s x)|by apply (Hf x s1 y)].
Qed.
Lemma orderly_gets (f : kernel -> A) : orderly k same (getsM f).
Proof. intros s y s' [= <- <-]. apply lines_refl. Qed.
Lemma orderly_deref (o : option A) : orderly k same (derefM o).
Proof. destruct o; [apply orderly_ret|apply orderly_crash]. Qed.
End Orderly.

Section Orderly.
Context (k : Z) (same : bool).
Lemma orderly_get : orderly k same getM.
Proof. intros s y s' [= <- <-]. apply lines_refl. Qed.
Lemma orderly_assert (x : bool) : orderly k same (assertM x).
Proof. destruct x; [apply orderly_ret|apply orderly_crash]. Qed.
Lemma orderly_modify g : (forall s, same_line s (g s)) -> orderly k same (modifyM g).
Proof. intros Hg s y s' [= <- <-]. apply same_lines, Hg. Qed.
Lemma orderly_modify_fc g : (forall s, same_line s (set_fc (g (fc s)) s)) -> orderly k same (modify_fc g).
Proof. apply orderly_modify. Qed.
Lemma orderly_modify_iq g : (forall q : fuse_iqueue, pending (g q) = pending q /\ forget_batch (g q) = forget_batch q) ->
  orderly k same (modify_iq g).
Proof.
  intros Hg. apply orderly_modify_fc. intros s. destruct (Hg (iq (fc s))) as [H1 H2].
  unfold same_line. cbn. by rewrite H1, H2.
Qed.
Lemma orderly_free a : orderly k same (fuse_request_free a).
Proof. apply orderly_modify. by intros s. Qed.
End Orderly.

#[export] Hint Resolve orderly_ret orderly_crash orderly_gets orderly_deref orderly_get orderly_assert
  orderly_free : orderly.

(** [same_line] of a change that does not touch the queues. *)
Ltac line := intros [[[] ] ]; repeat (match goal with |- context [if ?x then _ else _] => destruct x end);
  unfold same_line; cbn; split_and!; done || lia.
#[export] Hint Extern 6 (orderly _ _ (modifyM _)) => (apply orderly_modify; line) : orderly.
#[export] Hint Extern 5 (orderly _ _ (modify_fc _)) => (apply orderly_modify_fc; line) : orderly.
#[export] Hint Extern 5 (orderly _ _ (modify_iq _)) => (apply orderly_modify_iq; by intros []) : orderly.

Ltac order1 := first
  [ solve [eauto 1 with orderly]
  | apply orderly_bind; [|intros ?]
  | match goal with |- orderly _ _ (match ?x with _ => _ end) => destruct x end
  | match goal with |- orderly _ _ (let '_ := ?x in _) => destruct x end ].
Ltac order := repeat order1.

Section Calls.
Context (k : Z) (same : bool).

Lemma orderly_load_req a : orderly k same (load_req a).
Proof. unfold load_req. order. Qed.
Lemma orderly_load_dev d : orderly k same (load_dev d).
Proof. unfold load_dev. order. Qed.
Lemma orderly_load_link a : orderly k same (load_link a).
Proof. unfold load_link. order. Qed.
End Calls.
#[export] Hint Resolve orderly_load_req orderly_load_dev orderly_load_link : orderly.

Section Calls.
Context (k : Z) (same : bool).
Lemma orderly_update_req a g : orderly k same (update_req a g).
Proof. unfold update_req. order. Qed.
Lemma orderly_update_dev d g : orderly k same (update_dev d g).
Proof. unfold update_dev. order. Qed.
Lemma orderly_update_link a g : orderly k same (update_link a g).
Proof. unfold update_link. order. Qed.
Lemma orderly_kfree a : orderly k same (kfree_link a).
Proof. unfold kfree_link. order. Qed.

(** A request is taken off its list. *)
Lemma orderly_unlink p a : orderly k same (on_list p (remove_addr a)).
Proof.
  destruct p as [| | |d|d h]; cbn [on_list]; [apply orderly_ret| | |apply orderly_update_dev..];
    intros s x s' [= <- <-]; split; cbn; try done.
  - exists (remove_addr a (pending (iq (fc s)))), []. rewrite app_nil_r. split; [done|].
    split; [apply sublist_filter|]. by intros b ?%elem_of_nil.
  - auto.
  - exists (pending (iq (fc s))), []. rewrite app_nil_r. split; [done|]. split; [done|]. by intros b ?%elem_of_nil.
  - intros b [_ Hb]%remove_addr_in. by left.
Qed.
End Calls.
#[export] Hint Resolve orderly_update_req orderly_update_dev orderly_update_link orderly_kfree
  orderly_unlink : orderly.

Section Calls.
Context (k : Z) (same : bool).
Lemma orderly_list_del a : orderly k same (list_del a).
Proof. unfold list_del. order. Qed.
Lemma orderly_list_add a p : match p with OnPending | OnBg => False | _ => True end ->
  orderly k same (list_add a p).
Proof. intros Hp. unfold list_add. destruct p; try done; cbn [on_list]; order. Qed.
Lemma orderly_list_add_tail a p : match p with OnPending | OnBg => False | _ => True end ->
  orderly k same (list_add_tail a p).
Proof. intros Hp. unfold list_add_tail. destruct p; try done; cbn [on_list]; order. Qed.
Lemma orderly_put_request a : orderly k same (fuse_put_request a).
Proof. unfold fuse_put_request, fuse_drop_waiting. order. Qed.
Lemma orderly_unique : orderly k same fuse_get_unique.
Proof. unfold fuse_get_unique, get_iq. order. Qed.
Lemma orderly_intr_del a : orderly k same (intr_del a).
Proof. unfold intr_del. order. Qed.
End Calls.
#[export] Hint Resolve orderly_list_del orderly_put_request orderly_unique orderly_intr_del : orderly.
#[export] Hint Extern 5 (orderly _ _ (list_add _ _)) => (by apply orderly_list_add) : orderly.
#[export] Hint Extern 5 (orderly _ _ (list_add_tail _ (OnProcessing _ _))) => (by apply orderly_list_add_tail) : orderly.

(** ** Requests enter *)
Section Calls.
Context (k : Z) (same : bool).

Lemma lines_append s s1 s2 a : lines k same s s1 -> a ∈ bg_queue (fc s) \/ k < a ->
  pending (iq (fc s2)) = pending (iq (fc s1)) ++ [a] -> bg_queue (fc s2) = bg_queue (fc s1) ->
  kobjs s2 = kobjs s1 -> forget_batch (iq (fc s2)) = forget_batch (iq (fc s1)) -> lines k same s s2.
Proof.
  intros [(l & q & E & S & Q) B O F] Ha H1 H2 H3 H4. split; [|by rewrite H2|lia|by rewrite H4].
  exists l, (q ++ [a]). rewrite H1, E, app_assoc. split; [done|]. split; [done|].
  intros b [Hb| ->%list_elem_of_singleton]%elem_of_app; auto.
Qed.

Lemma lines_queue s s1 s2 x a : lines k same s s1 -> a ∈ bg_queue (fc s) \/ k < a ->
  queue_request a s1 = Ok (x, s2) -> lines k same s s2.
Proof.
  intros Hl Ha H. unfold queue_request in H. apply bind_inv in H as (u & s3 & H1 & H2).
  pose proof (lines_trans _ _ _ _ _ Hl (orderly_update_req k same _ _ _ _ _ H1)) as Hl3.
  unfold list_add_tail in H2. apply bind_inv in H2 as (v & s4 & [= <- <-] & H2).
  set (s4 := set_fc _ s3) in H2.
  assert (Hl4 : lines k same s s4) by (by apply (lines_append s s3 s4 a)).
  apply (lines_trans _ _ _ _ _ Hl4). by apply (orderly_update_req k same _ _ _ _ _ H2).
Qed.

Lemma orderly_queue a : k < a -> orderly k same (queue_request a).
Proof. intros Ha s x s' H. apply (lines_queue s s s' x a); [apply lines_refl|by right|done]. Qed.

Lemma orderly_list_add_bg a : k < a -> orderly k same (list_add_tail a OnBg).
Proof.
  intros Ha s x s' H. unfold list_add_tail in H. apply bind_inv in H as (v & s1 & [= <- <-] & H).
  set (s1 := set_fc _ s) in H. assert (Hl : lines k same s s1).
  { split; cbn; try done.
    - exists (pending (iq (fc s))), []. rewrite app_nil_r. split; [done|]. split; [done|]. by intros b ?%elem_of_nil.
    - intros b [Hb| ->%list_elem_of_singleton]%elem_of_app; [by left|by right]. }
  apply (lines_trans _ _ _ _ _ Hl). by apply (orderly_update_req k same _ _ _ _ _ H).
Qed.

Lemma flush_one_lines s x s' a : a ∈ bg_queue (fc s) -> flush_one a s = Ok (x, s') -> lines k same s s'.
Proof.
  intros Ha H. unfold flush_one in H.
  apply bind_inv in H as (u1 & s1 & H1 & H). apply bind_inv in H as (u2 & s2 & H2 & H).
  apply bind_inv in H as (u3 & s3 & H3 & H). apply bind_inv in H as (u4 & s4 & H4 & H).
  refine (lines_queue s s4 s' x a _ (or_introl Ha) H).
  apply (lines_trans _ _ _ s3); [|by apply (orderly_update_req k same _ _ _ _ _ H4)].
  apply (lines_trans _ _ _ s2); [|by apply (orderly_unique k same _ _ _ H3)].
  apply (lines_trans _ _ _ s1); [by apply (orderly_list_del k same _ _ _ _ H1)|].
  assert (Ho : orderly k same (modify_fc (fun c => set_active_background (u32 (active_background c + 1)) c))) by order.
  by apply (Ho _ _ _ H2).
Qed.

Lemma orderly_flush_loop fuel : orderly k same (flush_loop fuel).
Proof.
  induction fuel as [|fuel IH]; cbn; [apply orderly_crash|]. intros s x s' H.
  apply bind_inv in H as (c & s1 & [= <- <-] & H).
  destruct (_ <? _); [|injection H as _ <-; apply lines_refl].
  destruct (bg_queue (fc s)) as [|a l] eqn:E; [injection H as _ <-; apply lines_refl|].
  apply bind_inv in H as (u & s1 & H1 & H).
  apply (lines_trans _ _ _ s1); [|by apply (IH _ _ _ H)].
  apply (flush_one_lines s u s1 a); [rewrite E; by left|done].
Qed.

Lemma orderly_flush : orderly k same flush_bg_queue.
Proof. unfold flush_bg_queue, get_fc. apply orderly_bind; [order|intros c]. apply orderly_flush_loop. Qed.
End Calls.
#[export] Hint Resolve orderly_flush : orderly.

Section Calls.
Context (k : Z) (same : bool).
Lemma orderly_end a : orderly k same (fuse_request_end a).
Proof. unfold fuse_request_end, end_background, call_end. order. Qed.
End Calls.
#[export] Hint Resolve orderly_end : orderly.

Section Calls.
Context (k : Z) (same : bool).
Lemma orderly_end_requests l : orderly k same (end_requests l).
Proof. induction l as [|a l IH]; cbn; unfold abort_request; order. Qed.
Lemma orderly_list_del_all l : orderly k same (list_del_all l).
Proof. induction l as [|a l IH]; cbn; order. Qed.
Lemma orderly_clear_pending l : orderly k same (clear_pending l).
Proof. induction l as [|a l IH]; cbn; order. Qed.
Lemma orderly_abort_io l : forall te, orderly k same (abort_io l te).
Proof. induction l as [|a l IH]; intros te; cbn; unfold get_request; order. Qed.
Lemma orderly_walk fuel : forall h c n max, orderly k same (dequeue_walk fuel h c n max).
Proof. induction fuel as [|fuel IH]; intros h c n max; cbn; order. Qed.
End Calls.
#[export] Hint Resolve orderly_end_requests orderly_list_del_all orderly_clear_pending
  orderly_abort_io orderly_walk : orderly.

Section Calls.
Context (k : Z) (same : bool).
Lemma orderly_abort_devices l : forall te, orderly k same (abort_devices l te).
Proof. induction l as [|d l IH]; intros te; cbn; order. Qed.
Lemma orderly_dequeue max : orderly k same (fuse_dequeue_forget max).
Proof. unfold fuse_dequeue_forget, get_iq. order. Qed.
End Calls.
#[export] Hint Resolve orderly_abort_devices orderly_dequeue : orderly.

Section Calls.
Context (k : Z) (same : bool).
Lemma orderly_drop fuel : orderly k same (drop_forgets fuel).
Proof. induction fuel as [|fuel IH]; cbn; unfold get_iq; order. Qed.
Lemma orderly_copy_forgets fuel : forall h, orderly k same (copy_forgets fuel h).
Proof. induction fuel as [|fuel IH]; intros h; cbn; order. Qed.
End Calls.
#[export] Hint Resolve orderly_drop orderly_copy_forgets : orderly.

Section Calls.
Context (k : Z) (same : bool).
Lemma orderly_abort : orderly k same fuse_abort_conn.
Proof. unfold fuse_abort_conn, get_fc, get_iq. order. Qed.
Lemma orderly_read_forget nbytes : orderly k same (fuse_read_forget nbytes).
Proof. unfold fuse_read_forget, fuse_read_single_forget, fuse_read_batch_forget, get_iq. order. Qed.
Lemma orderly_queue_interrupt a : orderly k same (queue_interrupt a).
Proof. unfold queue_interrupt, get_iq. order. Qed.
End Calls.
#[export] Hint Resolve orderly_abort orderly_read_forget orderly_queue_interrupt : orderly.

(** ** The events *)
Section Events.
Context (k : Z) (same : bool) (hash_long : Z -> Z -> Z).

Lemma orderly_return a : orderly k same (request_return a).
Proof. unfold request_return. order. Qed.
Lemma orderly_interrupted a : orderly k same (wait_interrupted a).
Proof. unfold wait_interrupted. order. Qed.
Lemma orderly_lock a : orderly k same (lock_request a).
Proof. unfold lock_request. order. Qed.
Lemma orderly_unlock a : orderly k same (unlock_request a).
Proof. unfold unlock_request. order. Qed.
Lemma orderly_out_end a : orderly k same (read_out_end a).
Proof. unfold read_out_end. order. Qed.
Lemma orderly_write_done d a err nbytes : orderly k same (write_done d a err nbytes).
Proof. unfold write_done. order. Qed.
Lemma orderly_write_interrupt a nbytes error : orderly k same (write_interrupt a nbytes error).
Proof. unfold write_interrupt, get_request. order. Qed.
Lemma orderly_find u l : orderly k same (find_unique u l).
Proof. induction l as [|a l IH]; cbn; order. Qed.
End Events.
#[export] Hint Resolve orderly_return orderly_out_end orderly_write_done orderly_write_interrupt orderly_find : orderly.

Section Events.
Context (k : Z) (same : bool) (hash_long : Z -> Z -> Z).
Lemma orderly_killed a : orderly k same (wait_killed a).
Proof. unfold wait_killed, put_request. order. Qed.
Lemma orderly_read_done d a err : orderly k same (read_done hash_long d a err).
Proof. unfold read_done, get_fc, get_request. order. Qed.
Lemma orderly_write_reply d a oh nbytes : orderly k same (write_reply d a oh nbytes).
Proof. unfold write_reply. order. Qed.
Lemma orderly_release d : orderly k same (fuse_dev_release d).
Proof. unfold fuse_dev_release, get_fc. order. Qed.
Lemma orderly_queue_forget f n c : orderly k same (fuse_queue_forget f n c).
Proof. unfold fuse_queue_forget, store_tail_next, get_iq. order. Qed.
Lemma orderly_initialized : orderly k same fuse_set_initialized.
Proof. unfold fuse_set_initialized. order. Qed.
Lemma orderly_limits m x (limit : Z) su : orderly k same (process_init_limits m x limit su).
Proof. unfold process_init_limits. order. Qed.
Lemma orderly_max v : orderly k same (max_background_write v).
Proof. unfold max_background_write. order. Qed.
End Events.
#[export] Hint Resolve orderly_write_reply orderly_killed orderly_read_done orderly_release orderly_queue_forget
  orderly_initialized orderly_limits orderly_max orderly_interrupted orderly_lock orderly_unlock : orderly.

Section Events.
Context (k : Z) (same : bool) (hash_long : Z -> Z -> Z).
Lemma orderly_write d copied nbytes : orderly k same (fuse_dev_do_write hash_long d copied nbytes).
Proof. unfold fuse_dev_do_write, request_find. order. Qed.
Lemma orderly_dev_alloc : orderly k same fuse_dev_alloc.
Proof.
  intros s x s' H. unfold fuse_dev_alloc, mbind, M_bind, getM in H.
  destruct (koks s) as [|[] [|[] oks]]; injection H as _ <-; apply same_lines; unfold same_line; cbn; split_and!; done || lia.
Qed.
Lemma orderly_alloc_forget : orderly k same fuse_alloc_forget.
Proof.
  intros s x s' H. unfold fuse_alloc_forget, mbind, M_bind, getM in H.
  destruct (koks s) as [|[] oks]; injection H as _ <-; apply same_lines; unfold same_line; cbn; split_and!; done || lia.
Qed.
End Events.
#[export] Hint Resolve orderly_write orderly_dev_alloc orderly_alloc_forget : orderly.

Section Events.
Context (k : Z) (same : bool).
Lemma orderly_clone : orderly k same fuse_device_clone.
Proof. unfold fuse_device_clone, fuse_dev_alloc_install, fuse_dev_install. order. Qed.

(** New requests. *)
Lemma request_alloc_lines nofail s a s' : k <= kobjs s -> fuse_request_alloc nofail s = Ok (a, s') ->
  lines k same s s' /\ (a = 0 \/ k < a).
Proof.
  intros Hk H. unfold fuse_request_alloc, mbind, M_bind, getM in H.
  destruct (if nofail then true :: koks s else koks s) as [|[] oks]; injection H as <- <-;
    (split; [apply same_lines; unfold same_line; cbn; split_and!; done || lia|]); lia.
Qed.

Lemma orderly_send a : k < a -> orderly k same (fuse_request_send a).
Proof.
  intros Ha. pose proof (orderly_queue k same a Ha). unfold fuse_request_send, get_iq, request_wait_answer, get_fc, get_request.
  order.
Qed.

Lemma orderly_queue_background a : k < a -> orderly k same (fuse_request_queue_background a).
Proof.
  intros Ha. pose proof (orderly_list_add_bg k same a Ha). unfold fuse_request_queue_background, get_fc. order.
Qed.

Lemma orderly_then {A B} (m : L A) (f : A -> L B) (P : A -> Prop) s y s2 :
  (forall x s1, m s = Ok (x, s1) -> lines k same s s1 /\ P x) -> (forall x, P x -> orderly k same (f x)) ->
  (m ≫= f) s = Ok (y, s2) -> lines k same s s2.
Proof.
  intros Hm Hf (x & s1 & H1 & H2)%bind_inv. destruct (Hm x s1 H1) as [Hl HP].
  apply (lines_trans _ _ _ s1 _ Hl). by apply (Hf x HP _ _ _ H2).
Qed.

Lemma get_req_lines bg who killed s o s' : 0 <= k <= kobjs s -> fuse_get_req bg who killed s = Ok (o, s') ->
  lines k same s s' /\ match o with inl _ => True | inr a => k < a end.
Proof.
  intros Hk H. unfold fuse_get_req in H. apply bind_inv in H as (u & s1 & [= <- <-] & H).
  set (s1 := set_fc _ s) in H. assert (Hl : lines k same s s1) by (by apply same_lines; split_and!).
  apply bind_inv in H as (c & s2 & [= <- <-] & H). cbv zeta in H.
  assert (Hdrop : forall e : Z, (fuse_drop_waiting;; mret (inl e)) s1 = Ok (o, s') ->
    lines k same s s' /\ match o with inl _ => True | inr a => k < a end).
  { intros e Hd. apply bind_inv in Hd as (v & s3 & [= <- <-] & [= <- <-]). split; [|done].
    by apply same_lines; split_and!. }
  destruct (_ && killed); [by eapply Hdrop|]. destruct (fuse_block_alloc _ _); [done|].
  destruct (negb _); [by eapply Hdrop|]. destruct (conn_error _); [by eapply Hdrop|].
  apply bind_inv in H as (a & s3 & H1 & H).
  destruct (request_alloc_lines false s1 a s3) as [Hl3 Ha]; [cbn; lia|done|].
  pose proof (lines_trans _ _ _ _ _ Hl Hl3) as Hl3'.
  destruct (Z.eqb_spec a 0) as [->|Hne].
  { apply bind_inv in H as (v & s4 & H2 & [= <- <-]). split; [|done]. apply (lines_trans _ _ _ _ _ Hl3').
    assert (Ho : orderly k same fuse_drop_waiting) by (unfold fuse_drop_waiting; order). by apply (Ho _ _ _ H2). }
  assert (Ha' : k < a) by lia.
  apply bind_inv in H as (v1 & s4 & H4 & H). apply bind_inv in H as (v2 & s5 & H5 & H).
  apply bind_inv in H as (v3 & s6 & H6 & H).
  assert (Hl6 : lines k same s s6).
  { apply (lines_trans _ _ _ s5); [apply (lines_trans _ _ _ s4)|].
    - apply (lines_trans _ _ _ _ _ Hl3'). by apply (orderly_update_req k same _ _ _ _ _ H4).
    - by apply (orderly_update_req k same _ _ _ _ _ H5).
    - destruct bg; [by apply (orderly_update_req k same _ _ _ _ _ H6)|injection H6 as _ <-; apply lines_refl]. }
  destruct who as [[uid gid] pid]. destruct (_ || _).
  - apply bind_inv in H as (v4 & s7 & H7 & [= <- <-]). split; [|done].
    apply (lines_trans _ _ _ _ _ Hl6). by apply (orderly_put_request k same _ _ _ _ H7).
  - injection H as <- <-. by split.
Qed.
End Events.

Section Events.
Context (k : Z) (same : bool).

Lemma request_lines args who killed s o s' : 0 <= k <= kobjs s ->
  fuse_simple_request args who killed s = Ok (o, s') -> lines k same s s'.
Proof.
  intros Hk H. unfold fuse_simple_request in H. revert H.
  apply (orderly_then k same _ _ (fun got => match got with inl _ => True | inr a => k < a end)).
  - intros got s1 Hg. destruct (a_force args).
    + apply bind_inv in Hg as (u & s2 & [= <- <-] & Hg). set (s2 := set_fc _ s) in Hg.
      assert (Hl2 : lines k same s s2) by (by apply same_lines; split_and!).
      apply bind_inv in Hg as (a & s3 & H3 & Hg).
      destruct (request_alloc_lines k same true s2 a s3) as [Hl3 Ha]; [cbn; lia|done|].
      assert (Hne : a <> 0).
      { unfold fuse_request_alloc, mbind, M_bind, getM in H3. injection H3 as <- _. cbn. lia. }
      assert (Ho : orderly k same ((if a_nocreds args then mret tt else update_req a (set_creds who));;
        update_req a (set_k_waiting true);; update_req a (set_k_force true);; mret (inr a : Z + Z))) by order.
      split.
      * apply (lines_trans _ _ _ s3); [by apply (lines_trans _ _ _ s2)|]. by apply (Ho _ _ _ Hg).
      * apply bind_inv in Hg as (? & ? & _ & Hg). apply bind_inv in Hg as (? & ? & _ & Hg).
        apply bind_inv in Hg as (? & ? & _ & Hg). injection Hg as <- _. lia.
    + apply bind_inv in Hg as (u & s2 & H2 & Hg). destruct (negb _); [|done]. injection H2 as <- <-.
      by apply (get_req_lines k same false who killed s).
  - intros [e|a] Ha; [order|]. pose proof (orderly_send k same a Ha).
    unfold get_fc, fuse_args_to_req. order.
Qed.

Lemma background_lines args who killed s o s' : 0 <= k <= kobjs s ->
  fuse_simple_background args who killed s = Ok (o, s') -> lines k same s s'.
Proof.
  intros Hk H. unfold fuse_simple_background in H. revert H.
  apply (orderly_then k same _ _ (fun got => match got with inl _ => True | inr a => k < a end)).
  - intros got s1 Hg. destruct (a_force args).
    + apply bind_inv in Hg as (u & s2 & H2 & Hg). destruct (a_nocreds args); [|done]. injection H2 as <- <-.
      apply bind_inv in Hg as (a & s3 & H3 & Hg).
      destruct (request_alloc_lines k same false s a s3) as [Hl3 Ha]; [lia|done|].
      destruct (Z.eqb_spec a 0) as [->|Hne]; [by injection Hg as <- <-|].
      apply bind_inv in Hg as (v & s4 & H4 & [= <- <-]). split; [|lia].
      apply (lines_trans _ _ _ s3); [done|]. by apply (orderly_update_req k same _ _ _ _ _ H4).
    + apply bind_inv in Hg as (u & s2 & H2 & Hg). destruct (negb _); [|done]. injection H2 as <- <-.
      by apply (get_req_lines k same true who killed s).
  - intros [e|a] Ha; [order|]. pose proof (orderly_queue_background k same a Ha).
    unfold fuse_args_to_req. order.
Qed.

Lemma notify_lines args unique who killed s o s' : 0 <= k <= kobjs s ->
  fuse_simple_notify_reply args unique who killed s = Ok (o, s') -> lines k same s s'.
Proof.
  intros Hk H. unfold fuse_simple_notify_reply in H. revert H.
  apply (orderly_then k same _ _ (fun got => match got with inl _ => True | inr a => k < a end)).
  - intros got s1 Hg. by apply (get_req_lines k same false who killed s).
  - intros [e|a] Ha; [order|]. pose proof (orderly_queue k same a Ha).
    unfold fuse_args_to_req, get_iq. order.
Qed.

(** ** Reading *)
Lemma orderly_read_request d nbytes : orderly k same (read_request d nbytes).
Proof. unfold read_request, get_iq. order. Qed.
Lemma orderly_read_interrupt nbytes a : orderly k same (fuse_read_interrupt nbytes a).
Proof. unfold fuse_read_interrupt. order. Qed.

End Events.

Lemma orderly_turn k : orderly k false forgets_turn.
Proof.
  assert (Hm : forall g, (forall q : fuse_iqueue, pending (g q) = pending q) -> orderly k false (modify_iq g)).
  { intros g Hg s x s' [= <- <-]. split; cbn; try done; [|auto].
    exists (pending (iq (fc s))), []. rewrite app_nil_r, Hg. split; [done|]. split; [done|]. by intros b ?%elem_of_nil. }
  unfold forgets_turn, get_iq. apply orderly_bind; [order|]. intros q.
  destruct (negb _); [order|]. case_bool_decide; [order|].
  apply orderly_bind; [by apply Hm|]. intros _. destruct (0 <? _); [order|].
  apply orderly_bind; [|order]. apply Hm. intros q0. by case_match.
Qed.

Lemma orderly_read_loop k fuel d nbytes nonblock : orderly k false (read_loop fuel d nbytes nonblock).
Proof.
  pose proof (orderly_turn k). pose proof (fun n a => orderly_read_interrupt k false n a).
  pose proof (orderly_read_request k false d nbytes).
  induction fuel as [|fuel IH]; cbn; unfold get_iq, get_fc; order.
Qed.

Definition reads (ev : event) : bool := match ev with Read _ _ _ => true | _ => false end.

Lemma handle_lines hash_long ev s s' : 0 <= kobjs s -> handle hash_long ev s = Ok (tt, s') ->
  lines (kobjs s) (negb (reads ev)) s s'.
Proof.
  intros Hk H. destruct ev; cbn in H |- *;
    try match type of H with (_ ≫= fun _ => mret tt) _ = _ => apply bind_inv in H as (x & s1 & H & [= <-]) end.
  - by apply (request_lines _ _ args who killed s x s1).
  - by apply (background_lines _ _ args who killed s x s1).
  - by apply (notify_lines _ _ args unique who killed s x s1).
  - by apply (orderly_interrupted _ _ _ _ _ _ H).
  - by apply (orderly_killed _ _ _ _ _ _ H).
  - by apply (orderly_return _ _ _ _ _ _ H).
  - by apply (orderly_lock _ _ _ _ _ _ H).
  - by apply (orderly_unlock _ _ _ _ _ _ H).
  - unfold fuse_dev_do_read in H. apply bind_inv in H as (c & s2 & [= <- <-] & H).
    destruct (_ <? _); [injection H as <- <-; apply lines_refl|]. by apply (orderly_read_loop _ _ _ _ _ _ _ _ H).
  - by apply (orderly_read_done _ _ _ _ _ _ _ _ _ H).
  - by apply (orderly_write _ _ _ _ _ _ _ _ _ H).
  - by apply (orderly_write_done _ _ _ _ _ _ _ _ _ H).
  - by apply (orderly_alloc_forget _ _ _ _ _ H).
  - by apply (orderly_queue_forget _ _ _ _ _ _ _ _ H).
  - by apply (orderly_initialized _ _ _ _ _ H).
  - by apply (orderly_limits _ _ _ _ _ _ _ _ _ H).
  - by apply (orderly_max _ _ _ _ _ _ H).
  - by apply (orderly_abort _ _ _ _ _ H).
  - by apply (orderly_clone _ _ _ _ _ H).
  - by apply (orderly_release _ _ _ _ _ _ H).
Qed.
