(* ===== verification/KLive.v ===== *)
(** * A pending request is served

    Reads serve the queue of requests in order; a request waits for those before it,
    and for at most sixteen forgets before each. *)
From S2P Require Import Prelude KTypes KForget KForgetFacts KQueue KInv KSteps KMoves KRead KWrite KDevice KOrder.
#[local] Open Scope Z_scope.

#[local] Abbreviation L := (M kernel).
Implicit Types (s : kernel) (a b d k : Z) (r : kreq) (l q : list Z).

(** How many are before [a]. *)
Fixpoint ahead a l : nat :=
  match l with
  | [] => 0
  | b :: l => if decide (b = a) then 0 else S (ahead a l)
  end.

Lemma ahead_app a l q : a ∈ l -> ahead a (l ++ q) = ahead a l.
Proof.
  induction l as [|b l IH]; intros Ha; [by apply elem_of_nil in Ha|]. cbn. case_decide; [done|].
  apply elem_of_cons in Ha as [->|Ha]; [done|]. by rewrite IH.
Qed.

Lemma ahead_sublist a l l0 : l `sublist_of` l0 -> NoDup l0 -> a ∈ l -> (ahead a l <= ahead a l0)%nat.
Proof.
  induction 1 as [|b l l0 Hs IH|b l l0 Hs IH]; intros Hnd Ha; [done| |]; apply NoDup_cons in Hnd as [Hb Hnd]; cbn.
  - case_decide; [done|]. apply elem_of_cons in Ha as [->|Ha]; [done|]. specialize (IH Hnd Ha). lia.
  - assert (Hne : b <> a) by (intros ->; by apply Hb, (elem_of_sublist l)).
    rewrite decide_False by done. specialize (IH Hnd Ha). lia.
Qed.

(** The number of reads after which [a] is served at the latest. *)
Definition patience s a : Z :=
  17 * Z.of_nat (ahead a (pending (iq (fc s)))) + Z.max 0 (forget_batch (iq (fc s))).

(** A request that has left the queues does not come back. *)
Lemma gone_lines k same s s' a : lines k same s s' -> a <= k -> a ∉ pending (iq (fc s)) ->
  a ∉ bg_queue (fc s) -> a ∉ pending (iq (fc s')) /\ a ∉ bg_queue (fc s').
Proof.
  intros [(l & q & E & S & Q) B _ _] Hk Hp Hb. split.
  - rewrite E. intros [Ha|Ha]%elem_of_app; [by apply Hp, (elem_of_sublist l)|].
    apply Q in Ha as [Ha|]; [done|lia].
  - intros Ha. apply B in Ha as [Ha|]; [done|lia].
Qed.

(** Where a pending request is not. *)
Lemma pending_only s e fly a : kinv e fly s -> a ∈ pending (iq (fc s)) -> a ∉ bg_queue (fc s) /\ a <= kobjs s.
Proof.
  intros K Ha. destruct (ki_mem _ _ _ K OnPending a Ha) as [r Hr]. pose proof (ki_req _ _ _ K a r Hr) as R.
  split; [|by destruct (rk_addr _ _ _ _ _ R)]. intros Hb.
  pose proof (proj1 (rk_lists _ _ _ _ _ R OnPending) Ha) as [E1 _].
  pose proof (proj1 (rk_lists _ _ _ _ _ R OnBg) Hb) as [E2 _]. congruence.
Qed.

Lemma lines_patience k same s s' e fly a : kinv e fly s -> lines k same s s' -> a <= k ->
  forget_batch (iq (fc s')) = forget_batch (iq (fc s)) ->
  a ∈ pending (iq (fc s)) -> a ∈ pending (iq (fc s')) -> patience s' a <= patience s a.
Proof.
  intros K [(l & q & E & S & Q) B _ _] Hk Hb Ha Ha'. destruct (pending_only _ _ _ _ K Ha) as [Hnb _].
  unfold patience. rewrite Hb, E in *.
  assert (Hal : a ∈ l).
  { apply elem_of_app in Ha' as [|Hq]; [done|]. apply Q in Hq as [|]; [done|lia]. }
  rewrite ahead_app by done. pose proof (ahead_sublist a l _ S (ki_nodup _ _ _ K OnPending) Hal). cbn in *. lia.
Qed.

(** One turn of the loop in which a request is read. *)
Lemma read_request_patience s d nbytes o s1 a : good s -> is_Some (devs s !! d) ->
  (turn (iq (fc s))).1 = false -> read_request d nbytes (after_turn s) = Ok (o, s1) ->
  a ∈ pending (iq (fc s)) ->
  a ∉ pending (iq (fc s1)) /\ a ∉ bg_queue (fc s1) \/ a ∈ pending (iq (fc s1)) /\ patience s1 a < patience s a.
Proof.
  intros G Hd Ht Hr Ha. pose proof (good_after_turn s G) as G1. pose proof (gd_inv _ G) as K.
  destruct (pending_only _ _ _ _ K Ha) as [Hnb Ho].
  destruct (pending (iq (fc s))) as [|a0 l] eqn:Hpe; [by apply elem_of_nil in Ha|].
  pose proof (runs_det _ _ _ _ _ (read_request_runs (after_turn s) d nbytes a0 l (gd_inv _ G1) Hd Hpe) Hr)
    as [_ _ (q & Hb & Hq) _ _].
  pose proof (orderly_read_request (kobjs s) true d nbytes _ _ _ Hr) as Hl.
  pose proof (ln_batch _ _ _ _ Hl eq_refl) as Hbt. unfold after_turn in Hbt, Hb. cbn in Hbt, Hb.
  pose proof (ki_nodup _ _ _ K OnPending) as Hnd. cbn in Hnd. rewrite Hpe in Hnd. apply NoDup_cons in Hnd as [Ha0 Hnd].
  assert (Hnq : a ∉ q) by (intros Hi; apply Hnb; rewrite Hb; apply elem_of_app; by left).
  destruct (decide (a0 = a)) as [->|Hne].
  - left. rewrite Hq. split.
    + rewrite elem_of_app. by intros [|].
    + intros Hi. apply Hnb. rewrite Hb. apply elem_of_app. by right.
  - right. apply elem_of_cons in Ha as [->|Ha]; [done|]. split; [rewrite Hq; apply elem_of_app; by left|].
    unfold patience. rewrite Hq, Hbt, Hpe, ahead_app by done. cbn [ahead]. rewrite decide_False by done.
    assert (Hbatch : Z.max 0 (turn (iq (fc s))).2 < 17 + Z.max 0 (forget_batch (iq (fc s)))).
    { revert Ht. unfold turn. rewrite Hpe. pose proof (gd_batch _ G). destruct (negb _); cbn; [lia|].
      destruct (Z.ltb_spec 0 (forget_batch (iq (fc s)))); cbn; [done|]. intros _. destruct (_ <=? -8); lia. }
    lia.
Qed.

Lemma loop_patience d nbytes nonblock a fuel : forall s o s', good s -> is_Some (devs s !! d) ->
  64 <= nbytes < 2 ^ 32 -> read_loop fuel d nbytes nonblock s = Ok (o, s') ->
  a ∈ pending (iq (fc s)) -> a ∈ pending (iq (fc s')) ->
  patience s' a <= patience s a /\ (interrupts (iq (fc s)) = [] -> patience s' a < patience s a).
Proof.
  induction fuel as [|fuel IH]; intros s o s' G Hd Hn H Ha Ha'; [done|]. cbn [read_loop] in H.
  pose proof (gd_inv _ G) as K. destruct (pending_only _ _ _ _ K Ha) as [Hnb Ho].
  rewrite (bind_Ok _ _ _ _ _ (get_iq_Ok s)) in H.
  assert (Hne : pending (iq (fc s)) <> []) by (intros E; rewrite E in Ha; by apply elem_of_nil in Ha).
  assert (Hon : connected (iq (fc s)) = true).
  { rewrite (gd_conn _ G). destruct (fc_connected (fc s)) eqn:E; [done|].
    by destruct (gd_off _ G E) as (_ & E2 & _). }
  assert (Hrp : request_pending (iq (fc s)) = true).
  { unfold request_pending. by rewrite (bool_decide_eq_false_2 (pending (iq (fc s)) = [])). }
  rewrite Hon, Hrp in H. cbn [negb andb] in H.
  destruct (interrupts (iq (fc s))) as [|b li] eqn:Hi.
  - rewrite (bind_Ok _ _ _ _ _ (forgets_turn_Ok s)) in H. pose proof (good_after_turn s G) as G1.
    destruct (turn (iq (fc s))).1 eqn:Ht.
    + apply bind_inv in H as (x & s2 & H & [= _ <-]).
      pose proof (orderly_read_forget (kobjs s) true nbytes _ _ _ H) as Hl.
      pose proof (lines_patience _ _ _ _ _ _ a (gd_inv _ G1) Hl Ho (ln_batch _ _ _ _ Hl eq_refl) Ha Ha') as Hp.
      enough (patience (after_turn s) a < patience s a) by (split; [lia|intros _; lia]).
      unfold patience, after_turn. cbn. revert Ht. unfold turn.
      destruct (negb _); [done|]. rewrite (bool_decide_eq_false_2 (pending (iq (fc s)) = [])) by done.
      destruct (Z.ltb_spec 0 (forget_batch (iq (fc s)))); cbn; [lia|done].
    + apply bind_inv in H as (o1 & s1 & H1 & H).
      assert (Hgone : forall same, a ∉ pending (iq (fc s1)) /\ a ∉ bg_queue (fc s1) ->
        lines (kobjs s) same s1 s' -> False).
      { intros same [G2 G3] Hl. by destruct (gone_lines _ _ _ _ a Hl Ho G2 G3). }
      assert (Hrest : lines (kobjs s) false s1 s').
      { destruct o1 as [r1|]; [injection H as _ <-; apply lines_refl|]. by apply (orderly_read_loop _ _ _ _ _ _ _ _ H). }
      destruct (read_request_patience s d nbytes o1 s1 a G Hd Ht H1 Ha) as [Hg|[Ha1 Hlt]]; [by destruct (Hgone _ Hg Hrest)|].
      enough (patience s' a <= patience s1 a) by (split; [lia|intros _; lia]).
      destruct o1 as [r1|]; [by injection H as _ <-|].
      destruct (pending (iq (fc s))) as [|a0 l] eqn:Hpe; [done|].
      pose proof (runs_det _ _ _ _ _ (read_request_runs (after_turn s) d nbytes a0 l (gd_inv _ G1) Hd Hpe) H1)
        as [K1 S1 _ _ _].
      apply (IH s1 o s'); try done; [by apply (good_steady (after_turn s))|].
      apply (is_Some_fmap (after_turn s) s1 d); [|done]. apply (frozen_froze _ _ (sd_frozen _ _ S1)).
  - apply bind_inv in H as (x & s2 & H & [= _ <-]).
    pose proof (orderly_read_interrupt (kobjs s) true nbytes b _ _ _ H) as Hl. split; [|done].
    by apply (lines_patience _ _ _ _ _ _ a K Hl Ho (ln_batch _ _ _ _ Hl eq_refl)).
Qed.

(** ** Executions *)
Section Exec.
Context (hash_long : Z -> Z -> Z).

(** A read that finds no interrupt, with a buffer that is large enough. *)
Definition serves s (ev : event) : nat :=
  match ev with
  | Read _ nbytes _ =>
    if bool_decide (interrupts (iq (fc s)) = []) &&
       (Z.max FUSE_MIN_READ_BUFFER (SIZEOF_IN_HEADER + SIZEOF_WRITE_IN + max_write (fc s)) <=? nbytes)
    then 1 else 0
  | _ => 0
  end.

(** From [s] to [s'] by any events, among them [n] such reads. *)
Inductive exec : kernel -> nat -> kernel -> Prop :=
| exec_nil s : exec s 0 s
| exec_cons s ev s1 n s2 : enabled s ev -> handle hash_long ev s = Ok (tt, s1) -> exec s1 n s2 ->
    exec s (serves s ev + n) s2.

Lemma read_step_patience s d nbytes nonblock s1 a : good s -> enabled s (Read d nbytes nonblock) ->
  handle hash_long (Read d nbytes nonblock) s = Ok (tt, s1) ->
  a ∈ pending (iq (fc s)) -> a ∈ pending (iq (fc s1)) ->
  patience s1 a + Z.of_nat (serves s (Read d nbytes nonblock)) <= patience s a.
Proof.
  intros G [Hd Hn] H Ha Ha1. cbn in H. apply bind_inv in H as (o & s2 & H & [= <-]).
  unfold fuse_dev_do_read in H. rewrite (bind_Ok _ _ _ _ _ (get_fc_Ok s)) in H. cbn [serves].
  destruct (Z.ltb_spec nbytes (Z.max FUSE_MIN_READ_BUFFER (SIZEOF_IN_HEADER + SIZEOF_WRITE_IN + max_write (fc s)))) as [Hs|Hs].
  - injection H as _ <-. rewrite (proj2 (Z.leb_gt _ _) Hs), andb_false_r. cbn. lia.
  - rewrite (proj2 (Z.leb_le _ _) Hs), andb_true_r.
    destruct (loop_patience d nbytes nonblock a (S (length (pending (iq (fc s))) + length (bg_queue (fc s)))) s o s2 G Hd) as [H1 H2]; [unfold FUSE_MIN_READ_BUFFER in Hs; lia|done..|].
    case_bool_decide as Hi; [specialize (H2 Hi)|]; lia.
Qed.

Lemma step_patience s ev s1 a : good s -> enabled s ev -> handle hash_long ev s = Ok (tt, s1) ->
  a ∈ pending (iq (fc s)) -> a ∈ pending (iq (fc s1)) ->
  patience s1 a + Z.of_nat (serves s ev) <= patience s a.
Proof.
  intros G E H Ha Ha1. destruct (reads ev) eqn:Hev; [destruct ev; try done; by apply read_step_patience|].
  pose proof (gd_inv _ G) as K. destruct (pending_only _ _ _ _ K Ha) as [_ Ho].
  pose proof (handle_lines hash_long ev s s1 (proj1 (ki_objs _ _ _ K)) H) as Hl. rewrite Hev in Hl.
  pose proof (lines_patience _ _ _ _ _ _ a K Hl Ho (ln_batch _ _ _ _ Hl eq_refl) Ha Ha1).
  assert (serves s ev = 0%nat) as -> by by destruct ev. lia.
Qed.

Lemma exec_gone s n s' a : hashes hash_long -> exec s n s' -> good s -> a <= kobjs s ->
  a ∉ pending (iq (fc s)) -> a ∉ bg_queue (fc s) -> a ∉ pending (iq (fc s')).
Proof.
  intros HH. induction 1 as [|s ev s1 n s2 E H _ IH]; intros G Ho Hp Hb; [done|].
  pose proof (handle_lines hash_long ev s s1 (proj1 (ki_objs _ _ _ (gd_inv _ G))) H) as Hl.
  destruct (gone_lines _ _ _ _ a Hl Ho Hp Hb). pose proof (ln_objs _ _ _ _ Hl).
  apply IH; [|lia|done..]. by apply (runs_det _ _ _ _ _ (handle_good hash_long s ev HH G E) H).
Qed.

Lemma exec_patience s n s' a : hashes hash_long -> exec s n s' -> good s ->
  a ∈ pending (iq (fc s)) -> a ∈ pending (iq (fc s')) -> Z.of_nat n <= patience s a.
Proof.
  intros HH. induction 1 as [s|s ev s1 n s2 E H He IH]; intros G Ha Ha'.
  - unfold patience. lia.
  - pose proof (runs_det _ _ _ _ _ (handle_good hash_long s ev HH G E) H) as G1. cbv beta in G1.
    destruct (decide (a ∈ pending (iq (fc s1)))) as [Ha1|Ha1].
    + pose proof (step_patience s ev s1 a G E H Ha Ha1). specialize (IH G1 Ha1 Ha'). lia.
    + exfalso. destruct (pending_only _ _ _ _ (gd_inv _ G) Ha) as [Hnb Ho].
      pose proof (handle_lines hash_long ev s s1 (proj1 (ki_objs _ _ _ (gd_inv _ G))) H) as Hl.
      assert (Hb1 : a ∉ bg_queue (fc s1)).
      { intros Hb. apply (ln_bg _ _ _ _ Hl) in Hb as [|]; [done|lia]. }
      pose proof (ln_objs _ _ _ _ Hl). by apply (exec_gone s1 n s2 a HH He G1 ltac:(lia)).
Qed.
End Exec.
