(* ===== verification/KTrace.v ===== *)
(** * What holds of the device in every state that can be reached *)
From S2P Require Import Prelude KTypes KForget KForgetFacts KQueue KInv KSteps KMoves KRead KWrite KAbort KThreads KEnd KSend KWait KDevice KOrder KLive.
#[local] Open Scope Z_scope.

Implicit Types (s : kernel) (a b d : Z) (r : kreq).

(** ** A connection to try it on *)
Definition ex_hash (x bits : Z) : Z := x mod 2 ^ bits.
Lemma ex_hashes : hashes ex_hash.
Proof. intros x bits Hb. apply Z.mod_pos_bound. lia. Qed.

Definition ex_args : fuse_args :=
  mk_args 1 FUSE_GETATTR false false false false false false false false false
    [(16, 0)] [(104, 0)] false [] [].
Definition ex_who : creds := (1000, 1000, 77).

(** Events one after another. *)
Fixpoint perform (evs : list event) (s : kernel) : res (unit * kernel) :=
  match evs with
  | [] => Ok (tt, s)
  | ev :: evs => '(_, s) ← handle ex_hash ev s; perform evs s
  end.

Definition ex_start : kernel :=
  match fuse_dev_alloc_install (kernel0 []) with Ok (_, s) => s | Crash _ => kernel0 [] end.
Definition after (evs : list event) : kernel :=
  match perform evs ex_start with Ok (_, s) => s | Crash _ => ex_start end.

Fixpoint allowed (evs : list event) s : Prop :=
  match evs with
  | [] => True
  | ev :: evs => enabled s ev /\ exists s1, handle ex_hash ev s = Ok (tt, s1) /\ allowed evs s1
  end.

Lemma reach_start_ex : reach ex_hash ex_start.
Proof. by apply (reach_start ex_hash [] 1). Qed.

Lemma reach_allowed evs : forall s, reach ex_hash s -> allowed evs s ->
  exists s', perform evs s = Ok (tt, s') /\ reach ex_hash s'.
Proof.
  induction evs as [|ev evs IH]; intros s Hs; cbn [allowed perform]; [by exists s|].
  intros (E & s1 & H & Ha). rewrite H. apply IH; [|done]. by apply (reach_step ex_hash s ev).
Qed.

Lemma reach_after evs : allowed evs ex_start -> reach ex_hash (after evs).
Proof.
  intros Ha. destruct (reach_allowed evs ex_start reach_start_ex Ha) as (s' & H & Hr).
  unfold after. by rewrite H.
Qed.

(** The request of [ex_who] is sent, and its answer awaited. *)
Definition ex_sent : list event :=
  [Initialized; Request ex_args ex_who false; Read 1 135168 false; ReadDone 1 2 0].

Ltac ran := eexists; split; [vm_compute; reflexivity|].
Lemma ex_sent_allowed : allowed ex_sent ex_start.
Proof.
  unfold ex_sent. cbn [allowed].
  split; [done|]. ran.
  split; [|ran]. { split; [by split|]. split; [by split|]. by intros _. }
  split; [|ran]. { split; [by eexists|done]. }
  split; [|by ran]. eexists. by split.
Qed.

(** C29: the device is well formed in every state that can be reached, and stays so.  In
    any order of the calls of threads that wait, of daemons that read and write through
    any number of devices, of notifications, forgets, settings, clones, releases and the
    abort, no event that some thread can perform frees what is in use, fails one of the
    assertions [BUG_ON] and [WARN_ON], or runs out of the bound given to its loops: it
    ends in a state where every request is on the list it says it is on and on no other,
    its reference count is the number of its users, the counters of the connection are
    the numbers of requests they count, the unique ids of requests that are numbered
    differ and are even, and every [end] function was called at most once. *)
Theorem device_well_formed hash_long s ev : hashes hash_long -> reach hash_long s ->
  enabled s ev ->
  good s /\ runs (handle hash_long ev) s (fun _ s' => good s' /\ reach hash_long s').
Proof.
  intros HH Hs E. pose proof (reach_good hash_long s HH Hs) as G. split; [done|].
  destruct (handle_good hash_long s ev HH G E) as ([] & s' & Hr & G'). exists tt, s'.
  split; [done|]. split; [done|]. by apply (reach_step hash_long s ev).
Qed.

Lemma device_well_formed_witness :
  let s := after ex_sent in
  linked s (OnProcessing 1 2) = [2] /\
  runs (handle ex_hash (Write 1 (inr (mk_oh 32 (-2) 2)) 32)) s (fun _ s' => good s').
Proof.
  split; [vm_compute; reflexivity|].
  destruct (device_well_formed ex_hash (after ex_sent) (Write 1 (inr (mk_oh 32 (-2) 2)) 32) ex_hashes
    (reach_after _ ex_sent_allowed)) as [_ H].
  { apply (bool_decide_unpack (is_Some (devs (after ex_sent) !! 1))). vm_compute. exact I. }
  eapply runs_mono; [exact H|]. by intros [] s' [].
Defined.

(** C32: a request that is pending is served.  Whatever else happens, a request with [n]
    others before it in the queue has left the queue after [17 * n + 17] reads that found
    no interrupt to deliver: sixteen forgets at most are read before each request, no
    event lets a request overtake another, and none comes back to the queue. *)
Theorem pending_is_served hash_long s n s' a : hashes hash_long -> reach hash_long s ->
  exec hash_long s n s' -> a ∈ pending (iq (fc s)) ->
  (17 * ahead a (pending (iq (fc s))) + 16 < n)%nat -> a ∉ pending (iq (fc s')).
Proof.
  intros HH Hs He Ha Hn Ha'. pose proof (reach_good hash_long s HH Hs) as G.
  pose proof (exec_patience hash_long s n s' a HH He G Ha Ha') as Hp. pose proof (gd_batch _ G).
  unfold patience in Hp. lia.
Qed.

(** A daemon that only reads. *)
Definition ex_pending : list event := [Initialized; Request ex_args ex_who false].
Lemma ex_pending_allowed : allowed ex_pending ex_start.
Proof.
  unfold ex_pending. cbn [allowed]. split; [done|]. ran. split; [|by ran].
  split; [by split|]. split; [by split|]. by intros _.
Qed.

Definition ex_read : event := Read 1 135168 true.
Fixpoint read_all (n : nat) (s : kernel) : option kernel :=
  match n with
  | O => Some s
  | S n =>
    if bool_decide (is_Some (devs s !! 1)) && bool_decide (serves s ex_read = 1%nat) then
      match handle ex_hash ex_read s with Ok (_, s1) => read_all n s1 | Crash _ => None end
    else None
  end.

Lemma exec_reads n : forall s s', read_all n s = Some s' -> exec ex_hash s n s'.
Proof.
  induction n as [|n IH]; intros s s' H; cbn [read_all] in H; [injection H as <-; constructor|].
  case_bool_decide as Hd; [|done]. case_bool_decide as Hs; [|done]. cbn [andb] in H.
  destruct (handle ex_hash ex_read s) as [[[] s1]|] eqn:E; [|done].
  change (S n) with (1 + n)%nat. rewrite <- Hs. apply (exec_cons _ s ex_read s1); [done|done|]. by apply IH.
Qed.

Lemma pending_is_served_witness :
  let s := after ex_pending in
  pending (iq (fc s)) = [2] /\ exists s', exec ex_hash s 17 s' /\ 2 ∉ pending (iq (fc s')).
Proof.
  set (s := after ex_pending). assert (Hp : pending (iq (fc s)) = [2]) by (vm_compute; reflexivity).
  split; [exact Hp|]. destruct (read_all 17 s) as [s'|] eqn:E; [|vm_compute in E; discriminate E].
  exists s'. split; [by apply exec_reads|].
  apply (pending_is_served ex_hash s 17 s' 2 ex_hashes (reach_after _ ex_pending_allowed) (exec_reads 17 s s' E));
    rewrite Hp; [by left|vm_compute; lia].
Defined.

(** ** The end of the connection *)
(** C31: the abort of a connection ends everything.  Afterwards both connected flags are
    off, nothing is queued, no forget is left, every device is offline, and every request
    that is still in memory was finished, but for the ones whose contents a thread copies
    at that moment with the request locked: that thread ends them. *)
Theorem abort_ends_everything hash_long s : hashes hash_long -> reach hash_long s ->
  fc_connected (fc s) = true ->
  runs fuse_abort_conn s (fun _ s' => good s' /\ fc_connected (fc s') = false /\
    connected (iq (fc s')) = false /\ pending (iq (fc s')) = [] /\ bg_queue (fc s') = [] /\
    forgets s' [] /\ (forall d, is_Some (devs s' !! d) -> offline s' d) /\
    forall a r, kreqs s' !! a = Some r ->
      k_finished r = true \/ exists d, k_place r = OnIo d /\ k_locked r = true /\ copies r d).
Proof.
  intros HH Hs Hon. pose proof (reach_good hash_long s HH Hs) as G.
  eapply runs_mono; [by apply good_abort|]. intros [] s' [G' Hf [Eo Eb El] Y].
  pose proof (gd_inv _ G') as K. destruct (gd_off _ G' Hf) as (Hb & Hp & Hfg).
  assert (Hd : forall d, is_Some (devs s' !! d) -> d ∈ devices (fc s)).
  { intros d Hd. apply (gd_devices _ G') in Hd. by rewrite (kp_devices _ _ Y) in Hd. }
  split; [done|]. split; [done|]. split; [by rewrite (gd_conn _ G')|]. do 3 (split; [done|]).
  split; [intros d Hx; by apply Eo, Hd|]. intros a r Ha. pose proof (ki_req _ _ _ K a r Ha) as R.
  assert (Hin : forall p, k_place r = p -> p <> Nowhere -> a ∈ linked s' p).
  { intros p <- Hne. by apply (rk_lists _ _ _ _ _ R). }
  destruct (k_place r) as [| | |d|d h] eqn:Epl.
  - left. by apply (rk_done _ _ _ _ _ R Epl), not_elem_of_nil.
  - specialize (Hin _ eq_refl ltac:(done)). cbn in Hin. rewrite Hp in Hin. by apply elem_of_nil in Hin.
  - specialize (Hin _ eq_refl ltac:(done)). cbn in Hin. rewrite Hb in Hin. by apply elem_of_nil in Hin.
  - right. exists d. specialize (Hin _ eq_refl ltac:(done)).
    destruct (El d a (Hd d (linked_place_ok _ _ _ Hin)) Hin) as (r' & Hr' & Hk). rewrite Ha in Hr'. injection Hr' as <-.
    split; [done|]. split; [done|]. by apply (rk_io _ _ _ _ _ R).
  - specialize (Hin _ eq_refl ltac:(done)). destruct (rk_reply _ _ _ _ _ R d h Epl) as [_ Hh].
    rewrite (Eb d h (Hd d (linked_place_ok _ _ _ Hin)) Hh) in Hin. by apply elem_of_nil in Hin.
Qed.

Lemma abort_ends_everything_witness :
  let s := after ex_sent in fc_connected (fc s) = true /\
  exists s', fuse_abort_conn s = Ok (tt, s') /\ (forall d, is_Some (devs s' !! d) -> offline s' d).
Proof.
  assert (Hon : fc_connected (fc (after ex_sent)) = true) by (vm_compute; reflexivity). split; [exact Hon|].
  destruct (abort_ends_everything ex_hash (after ex_sent) ex_hashes (reach_after _ ex_sent_allowed) Hon)
    as ([] & s' & H & _ & _ & _ & _ & _ & _ & Ho & _). exists s'. split; [exact H|exact Ho].
Defined.
