(* ===== verification/KAnswer.v ===== *)
(** * Answers, background requests and their ends *)
From S2P Require Import Prelude KTypes KForget KForgetFacts KQueue KInv KSteps KMoves KRead KWrite KDevice KTrace.
#[local] Open Scope Z_scope.

#[local] Abbreviation L := (M kernel).
Implicit Types (s : kernel) (a b d : Z) (r : kreq).

(** Request [a] is over, with error [e]: its [end] function was called if it has one,
    and it stays in memory only for a thread that waits for it. *)
Record over s s' a r (e : Z) : Prop := mk_over {
  ov_self : kreqs s' !! a = None /\ k_count r = 1 \/
    exists r', kreqs s' !! a = Some r' /\ k_finished r' = true /\ k_error r' = e /\ k_waiter r' = k_waiter r /\ k_count r' = k_count r - 1;
  ov_ended : ended s' = ended s ++ (if negb (k_finished r) && k_async r then [(a, e)] else []);
  ov_others : forall b rb, b <> a -> kreqs s !! b = Some rb -> k_place rb <> OnBg -> kreqs s' !! b = Some rb;
}.

(** The error a request gets when the copy of its answer ended with [err]. *)
Definition final_error (on : bool) (err : Z) r : Z :=
  if on && negb (err =? 0) then - EIO else k_error r.

Lemma write_done_over s d q a r err nbytes : good s -> kreqs s !! a = Some r -> copies r d ->
  devs s !! d = Some q ->
  runs (write_done d a err nbytes) s (fun ret s' => good s' /\
    over s s' a r (final_error (pq_connected q) err r) /\
    ret = (let e := if pq_connected q then err else - ENOENT in if negb (e =? 0) then e else nbytes)).
Proof.
  intros G Ha Hcp Hq. pose proof (gd_inv _ G) as K. unfold write_done, final_error.
  eapply runs_Ok_bind; [by apply load_dev_Ok|]. apply (runs_uncopy s a r); [done|]. cbv beta.
  pose proof (put_turned s a (uncopied r)) as T. set (s1 := put_req a (uncopied r) s) in *.
  set (m := if negb (pq_connected q) then _ else _).
  set (e := if pq_connected q && negb (err =? 0) then - EIO else k_error r).
  assert (Hm : exists s2 r2, m s1 = Ok (if pq_connected q then err else - ENOENT, s2) /\ turned s s2 a r2 (linked s) /\
    calm (set_k_copier NoCopier r) r2 /\ k_locked r2 = false /\ k_error r2 = e).
  { unfold m, e. destruct (pq_connected q); cbn [negb andb]; [|by exists s1, (uncopied r)].
    destruct (err =? 0); cbn [negb]; [by exists s1, (uncopied r)|].
    eexists _, (set_k_error (- EIO) (uncopied r)).
    split; [|split; [exact (turned_put _ _ _ _ _ _ T)|by split; [split|]]].
    by rewrite (bind_Ok _ _ _ _ _ (kupdate_req_Ok _ _ _ _ (turned_self _ _ _ _ _ T))). }
  destruct Hm as (s2 & r2 & Hr2 & T2 & Hcm & Hlk & He). eapply runs_Ok_bind; [exact Hr2|].
  eapply runs_Ok_bind; [apply kload_req_Ok, (turned_self _ _ _ _ _ T2)|].
  apply runs_bind_unassoc. eapply runs_bind; [by apply (copy_over s s2 a r r2 d)|].
  intros [] s' (s3 & E & S & H3 & O3 & N3). apply runs_ret. split; [by apply (good_steady s); [|apply E|]|].
  split; [|done]. pose proof (ca_count _ _ Hcm) as Hc. pose proof (ca_finished _ _ Hcm) as Hf.
  pose proof (ca_async _ _ Hcm) as Has. pose proof (ca_waiter _ _ Hcm) as Hw. cbn in Hc, Hf, Has, Hw. split.
  - rewrite (en_self _ _ _ _ _ E). cbn. rewrite Hc. destruct (Z.eqb_spec (k_count r) 1); [by left|]. right.
    eexists. split; [done|]. cbn. by rewrite He, Hw.
  - rewrite (en_ended _ _ _ _ _ E), N3. kred. by rewrite Hf, Has, He.
  - intros b rb Hb Hrb Hp. apply (ep_other _ _ _ (en_post _ _ _ _ _ E)); [done| |done]. by rewrite O3.
Qed.

(** ** Which request an answer is for *)
Section Hash.
Context (hash_long : Z -> Z -> Z).

(** Request [a] waits on device [d] for the answer with its unique id. *)
Definition awaits s d a r : Prop :=
  kreqs s !! a = Some r /\ k_place r = OnProcessing d (fuse_req_hash hash_long (k_unique r)).

Lemma awaited_unique s d a r : good s -> awaits s d a r ->
  Z.land (k_unique r) (Z.lnot FUSE_INT_REQ_BIT) = k_unique r /\ Z.land (k_unique r) FUSE_INT_REQ_BIT = 0 /\
  0 < k_unique r /\ numbered r = true.
Proof.
  intros G [Ha Hp]. pose proof (ki_req _ _ _ (gd_inv _ G) a r Ha) as R.
  destruct (rk_reply _ _ _ _ _ R _ _ Hp) as [Hre _].
  assert (Hn : numbered r = true).
  { unfold numbered. rewrite Hre, on_bg_false by by rewrite Hp. done. }
  destruct (rk_unique _ _ _ _ _ R Hn) as [Hpos He].
  assert (Hbit : Z.testbit (k_unique r) 0 = false) by (rewrite Z.bit0_odd, <- Z.negb_even, He; done).
  split; [|split; [|split; [lia|done]]]; apply Z.bits_inj'; intros i Hi; rewrite Z.land_spec;
    change FUSE_INT_REQ_BIT with (Z.ones 1).
  - rewrite Z.lnot_spec by lia. destruct (Z.eq_dec i 0) as [->|Hne]; [by rewrite Hbit|].
    rewrite Z.ones_spec_high by lia. by rewrite andb_true_r.
  - rewrite Z.bits_0. destruct (Z.eq_dec i 0) as [->|Hne]; [by rewrite Hbit|].
    rewrite Z.ones_spec_high by lia. by rewrite andb_false_r.
Qed.

Lemma request_find_awaited s d q a r : good s -> devs s !! d = Some q -> awaits s d a r ->
  request_find hash_long d (k_unique r) s = Ok (Some a, s).
Proof.
  intros G Hq W. destruct (awaited_unique s d a r G W) as (_ & _ & _ & Hn). destruct W as [Ha Hp].
  destruct (request_find_runs hash_long s d q (k_unique r) (gd_inv _ G) Hq) as (o & Hr & Ho). rewrite Hr.
  destruct o as [b|]; [|by destruct (Ho a r)]. destruct Ho as (rb & Hb & Hpb & Hu).
  replace b with a; [done|]. symmetry. apply (ki_unique _ _ _ (gd_inv _ G) b a rb r Hb Ha); [|done..].
  assert (Wb : awaits s d b rb) by (split; [done|by rewrite Hu]).
  by destruct (awaited_unique s d b rb G Wb) as (_ & _ & _ & ?).
Qed.

(** An answer that the device takes. *)
Definition answer_ok (oh : out_header) (nbytes : Z) : Prop :=
  oh_len oh = nbytes /\ SIZEOF_OUT_HEADER <= nbytes /\ -512 < oh_error oh <= 0.

(** C30: an answer reaches its request.  When request [a] waits on an online device, an
    answer with its unique id is for [a] and for no other request.  An answer with an
    error that is only a header, and an answer whose size does not fit, end the request
    at once, with that error or with [EIO]; otherwise the thread goes on to copy the
    contents, the request locked and with the size of its last argument as the answer
    has it.  No other request in memory changes, but for background requests that leave
    their queue. *)
Theorem answer_reaches_its_request s d q a r oh nbytes : good s ->
  devs s !! d = Some q -> pq_connected q = true -> awaits s d a r ->
  oh_unique oh = k_unique r -> answer_ok oh nbytes ->
  runs (fuse_dev_do_write hash_long d (inr oh) nbytes) s (fun o s' => good s' /\
    (forall b rb, b <> a -> kreqs s !! b = Some rb -> k_place rb <> OnBg -> kreqs s' !! b = Some rb) /\
    match (if oh_error oh =? 0 then copy_out_sizes (k_args r) nbytes else None) with
    | Some args => o = CopiesOut a /\ kreqs s' !! a = Some (set_k_args args (answered d oh r)) /\ ended s' = ended s
    | None =>
      let fits := negb (oh_error oh =? 0) && (nbytes =? SIZEOF_OUT_HEADER) in
      o = Written (if fits then nbytes else - EINVAL) /\
      over s s' a r (if fits then oh_error oh else - EIO)
    end).
Proof.
  intros G Hq Hon W Hu (Hlen & Hsz & Herr). destruct (awaited_unique s d a r G W) as (Hl1 & Hl0 & Hpos & _).
  unfold fuse_dev_do_write. rewrite (proj2 (Z.ltb_ge _ _) Hsz), (proj2 (Z.eqb_eq _ _) Hlen). cbn [negb].
  rewrite Hu, (proj2 (Z.eqb_neq (k_unique r) 0)) by lia.
  rewrite (proj2 (Z.leb_gt (oh_error oh) (-512))), (proj2 (Z.ltb_ge 0 (oh_error oh))) by lia. cbn [orb].
  eapply runs_Ok_bind; [by apply load_dev_Ok|]. rewrite Hon, Hl1.
  eapply runs_Ok_bind; [by apply (request_find_awaited s d q)|]. rewrite Hl0. cbn [Z.eqb negb].
  destruct W as [Ha Hp]. unfold write_reply, runs.
  destruct (answer_runs hash_long s d _ a r oh (gd_inv _ G) Ha Hp) as (s1 & Hr & Ha1 & K1 & S1 & T1). rewrite Hr.
  pose proof (good_steady _ _ G K1 S1) as G1. pose proof (tn_core _ _ _ _ _ T1) as Hcore. kcore Hcore.
  assert (Hoth : forall b rb, b <> a -> kreqs s !! b = Some rb -> kreqs s1 !! b = Some rb).
  { intros b rb Hb Hrb. by rewrite (turned_other _ _ _ _ _ _ T1). }
  assert (Hq1 : exists q1, devs s1 !! d = Some q1 /\ pq_connected q1 = true).
  { pose proof (f_equal (fun x => x !! d) Epq) as E. cbn in E. rewrite !lookup_fmap, Hq in E. cbn in E.
    destruct (devs s1 !! d) as [q1|]; [|done]. exists q1. split; [done|]. injection E. congruence. }
  destruct Hq1 as (q1 & Hq1 & Hon1).
  assert (Hend : forall err, runs (ret ← write_done d a err nbytes; mret (Written ret)) s1 (fun o s' => good s' /\
    (forall b rb, b <> a -> kreqs s !! b = Some rb -> k_place rb <> OnBg -> kreqs s' !! b = Some rb) /\
    o = Written (if err =? 0 then nbytes else err) /\ over s s' a r (if err =? 0 then oh_error oh else - EIO))).
  { intros err. eapply runs_bind; [apply (write_done_over s1 d q1 a (answered d oh r) err nbytes G1 Ha1); [by right|done]|].
    intros ret s' (G' & [V1 V2 V3] & ->). apply runs_ret. rewrite Hon1 in *. unfold final_error in *. cbn [andb] in *.
    split; [done|]. assert (Hoth' : forall b rb, b <> a -> kreqs s !! b = Some rb -> k_place rb <> OnBg -> kreqs s' !! b = Some rb).
    { intros b rb Hb Hrb Hpl. apply V3; [done|by apply Hoth|done]. }
    split; [done|]. cbv zeta. split; [by destruct (err =? 0)|].
    split; [|by rewrite V2, Eend; destruct (err =? 0)|done].
    destruct V1 as [V1|(r' & V1 & V4 & V5 & V6)]; [by left|]. right. exists r'. split; [done|]. split; [done|].
    split; [by destruct (err =? 0)|done]. }
  destruct (Z.eqb_spec (oh_error oh) 0) as [He|He]; cbn [negb].
  - eapply runs_Ok_bind; [by apply kload_req_Ok|]. change (k_args (answered d oh r)) with (k_args r).
    destruct (copy_out_sizes (k_args r) nbytes) as [args|] eqn:Hs.
    + eapply runs_Ok_bind; [by apply kupdate_req_Ok|]. apply runs_ret. split; [|split; [|split; [done|]]].
      * apply (good_steady s1); [done| |by apply (put_steady _ _ _ _ Ha1)].
        apply (kinv_calm _ _ _ _ _ _ K1 Ha1), calm_args. by apply (copy_out_args _ _ _ Hs).
      * intros b rb Hb Hrb _. kred. rewrite lookup_insert_ne by congruence. by apply Hoth.
      * split; [apply lookup_insert_eq|done].
    + eapply runs_mono; [apply (Hend (- EINVAL))|]. done.
  - eapply runs_mono; [apply (Hend (if negb (nbytes =? SIZEOF_OUT_HEADER) then - EINVAL else 0))|].
    intros o s' (H1 & H2 & H3 & H4). split; [done|]. split; [done|]. cbn [andb].
    by destruct (nbytes =? SIZEOF_OUT_HEADER).
Qed.
End Hash.

Definition ex_q : fuse_pqueue := default fuse_pqueue_init (devs (after ex_sent) !! 1).
Definition ex_r : kreq := default kreq0 (kreqs (after ex_sent) !! 2).

Lemma answer_reaches_its_request_witness :
  k_unique ex_r = 2 /\
  runs (fuse_dev_do_write ex_hash 1 (inr (mk_oh 128 0 2)) 128) (after ex_sent)
    (fun o s' => good s' /\ o = CopiesOut 2).
Proof.
  split; [vm_compute; reflexivity|].
  assert (Hq : devs (after ex_sent) !! 1 = Some ex_q) by (vm_compute; reflexivity).
  assert (Hon : pq_connected ex_q = true) by (vm_compute; reflexivity).
  assert (W : awaits ex_hash (after ex_sent) 1 2 ex_r) by (split; vm_compute; reflexivity).
  assert (Hu : oh_unique (mk_oh 128 0 2) = k_unique ex_r) by (vm_compute; reflexivity).
  assert (Hc : exists args, (if oh_error (mk_oh 128 0 2) =? 0 then copy_out_sizes (k_args ex_r) 128 else None) = Some args)
    by (eexists; vm_compute; reflexivity).
  destruct Hc as [args Hc].
  assert (Hok : answer_ok (mk_oh 128 0 2) 128) by (unfold answer_ok, SIZEOF_OUT_HEADER; cbn; lia).
  pose proof (reach_good ex_hash _ ex_hashes (reach_after _ ex_sent_allowed)) as G0.
  pose proof (answer_reaches_its_request ex_hash (after ex_sent) 1 ex_q 2 ex_r (mk_oh 128 0 2) 128 G0 Hq Hon W Hu Hok) as H.
  rewrite Hc in H. eapply runs_mono; [exact H|].
  intros o s' (G & _ & H1 & _). split; [exact G|exact H1].
Defined.

(** ** Background requests *)
(** C33: background requests are passed on in order and within the limit.  Flushing their
    queue moves its first requests to the end of the pending queue, each counted as
    active; it never makes more active than [max_background] allows, and it stops only
    when the limit is reached or the queue is empty. *)
Theorem background_within_limit s : good s ->
  runs flush_bg_queue s (fun _ s' => good s' /\ exists l,
    bg_queue (fc s) = l ++ bg_queue (fc s') /\
    pending (iq (fc s')) = pending (iq (fc s)) ++ l /\
    active_background (fc s') = active_background (fc s) + Z.of_nat (length l) /\
    (l <> [] -> active_background (fc s') <= max_background (fc s)) /\
    (max_background (fc s) <= active_background (fc s') \/ bg_queue (fc s') = [])).
Proof.
  intros G. eapply runs_mono; [apply (flush_bg_queue_runs 0 [] s (gd_inv _ G))|].
  intros [] s' (l & [K F Ha Hlim Hfull]). split; [|exists l; by destruct F].
  apply (good_steady s s' G K). pose proof (flushed_end_post 0 [] s s' l 0 (gd_inv _ G) F) as P.
  pose proof (fl_core _ _ _ F) as Hc. kcore Hc. split; [apply P| |unfold blocked_ok; congruence].
  exists l. rewrite (fl_bg _ _ _ F), (fl_pending _ _ _ F). done.
Qed.

(** A request that may not wait is sent when the limit is 0, and the limit is raised. *)
Definition ex_forced : fuse_args :=
  mk_args 1 FUSE_GETATTR true false true false false false false false false
    [(16, 0)] [(104, 0)] true [] [].
Definition ex_stuck : list event :=
  [Initialized; MaxBackground 0; Background ex_forced ex_who false; MaxBackground 5].

Lemma ex_stuck_allowed : allowed ex_stuck ex_start.
Proof.
  unfold ex_stuck. cbn [allowed].
  split; [done|]. ran. split; [done|]. ran.
  split; [|ran]. { split; [by split|]. split; [by split|]. done. }
  split; [done|]. by ran.
Qed.

Lemma background_within_limit_witness :
  let s := after ex_stuck in
  bg_queue (fc s) = [2] /\ runs flush_bg_queue s (fun _ s' => active_background (fc s') <= 5).
Proof.
  split; [vm_compute; reflexivity|].
  eapply runs_mono; [apply (background_within_limit (after ex_stuck)
    (reach_good ex_hash _ ex_hashes (reach_after _ ex_stuck_allowed)))|].
  intros [] s' (_ & l & Hb & _ & Ha & Hl & _).
  assert (Hm : max_background (fc (after ex_stuck)) = 5) by (vm_compute; reflexivity). rewrite Hm in Hl.
  destruct l as [|a l]; [|by apply Hl].
  assert (H0 : active_background (fc (after ex_stuck)) = 0) by (vm_compute; reflexivity).
  rewrite H0 in Ha. cbn in Ha. lia.
Defined.

(** Raising the limit does not pass on the requests that wait in the queue: the request
    stays there, with no active request whose end would flush the queue. *)
Example raised_limit_does_not_flush : let s := after ex_stuck in reach ex_hash s /\
  bg_queue (fc s) = [2] /\ pending (iq (fc s)) = [] /\ active_background (fc s) = 0 /\ max_background (fc s) = 5.
Proof. split; [apply reach_after, ex_stuck_allowed|vm_compute; by split_and!]. Qed.
