(* ===== verification/KCopy.v ===== *)
(** * Copying between a request and user space (fuse_module/dev.c, 642-1094)

    The daemon's buffer is user memory that is pinned page by page, or a pipe.  The
    answer to a read may carry a section: the header and footer of its payload are
    copied to an address of the daemon ([fuse_split_payload]).  Pages and other objects
    are lists of bytes, a pointer is an object and an offset in it, and an access outside
    an object is a [BadAccess].  What the kernel does with a page (pinning it, stealing
    it from a pipe, mapping it) has an outcome given in the state.  Cache flushes, dirty
    marks and the flags of pages are left out. *)
From S2P Require Import Prelude KTypes KForget KQueue.
#[local] Open Scope Z_scope.

Definition PAGE_SIZE : Z := 4096.

(** The bytes of a page a user buffer or a pipe buffer stands for. *)
Record seg : Type := mk_seg { sg_page : Z; sg_off : Z; sg_len : Z }.

(** How [pipe_buf_try_steal], the checks of [fuse_check_page] and the four [WARN_ON]s of
    [fuse_try_move_page] come out: not stolen, stolen but not fit, or fit. *)
Inductive theft : Type := Kept | Weird | Stolen.

(** [header], [footer] and [mem] of [struct fuse_out_header]. *)
Record section : Type := mk_section { sc_header : Z; sc_footer : Z; sc_mem : Z }.

(** [struct fuse_copy_state].  [cs_req] says whether [req] is set; [cs_iter] holds the
    outcomes of the calls of [iov_iter_get_pages2] to come: an error, or the part of a
    page that is next in the user's buffer; [pipebufs] is the place in the array [bufs],
    [None] for NULL; [max_usage] is the one of [pipe]. *)
Record fuse_copy_state : Type := mk_cs {
  cs_write : bool;
  cs_req : bool;
  cs_iter : list (Z + seg);
  pipebufs : option nat;
  currbuf : option nat;
  max_usage : Z;
  nr_segs : Z;
  cs_pg : Z;
  cs_len : Z;
  cs_offset : Z;
  move_pages : bool;
}.

Definition set_cs_req (v : bool) (r : fuse_copy_state) : fuse_copy_state :=
  mk_cs (cs_write r) v (cs_iter r) (pipebufs r) (currbuf r) (max_usage r)
    (nr_segs r) (cs_pg r) (cs_len r) (cs_offset r) (move_pages r).
Definition set_cs_iter (v : list (Z + seg)) (r : fuse_copy_state) : fuse_copy_state :=
  mk_cs (cs_write r) (cs_req r) v (pipebufs r) (currbuf r) (max_usage r)
    (nr_segs r) (cs_pg r) (cs_len r) (cs_offset r) (move_pages r).
Definition set_pipebufs (v : option nat) (r : fuse_copy_state) : fuse_copy_state :=
  mk_cs (cs_write r) (cs_req r) (cs_iter r) v (currbuf r) (max_usage r)
    (nr_segs r) (cs_pg r) (cs_len r) (cs_offset r) (move_pages r).
Definition set_currbuf (v : option nat) (r : fuse_copy_state) : fuse_copy_state :=
  mk_cs (cs_write r) (cs_req r) (cs_iter r) (pipebufs r) v (max_usage r)
    (nr_segs r) (cs_pg r) (cs_len r) (cs_offset r) (move_pages r).
Definition set_nr_segs (v : Z) (r : fuse_copy_state) : fuse_copy_state :=
  mk_cs (cs_write r) (cs_req r) (cs_iter r) (pipebufs r) (currbuf r)
    (max_usage r) v (cs_pg r) (cs_len r) (cs_offset r) (move_pages r).
Definition set_cs_pg (v : Z) (r : fuse_copy_state) : fuse_copy_state :=
  mk_cs (cs_write r) (cs_req r) (cs_iter r) (pipebufs r) (currbuf r)
    (max_usage r) (nr_segs r) v (cs_len r) (cs_offset r)
    (move_pages r).
Definition set_cs_len (v : Z) (r : fuse_copy_state) : fuse_copy_state :=
  mk_cs (cs_write r) (cs_req r) (cs_iter r) (pipebufs r) (currbuf r)
    (max_usage r) (nr_segs r) (cs_pg r) v (cs_offset r)
    (move_pages r).
Definition set_cs_offset (v : Z) (r : fuse_copy_state) : fuse_copy_state :=
  mk_cs (cs_write r) (cs_req r) (cs_iter r) (pipebufs r) (currbuf r)
    (max_usage r) (nr_segs r) (cs_pg r) (cs_len r) v (move_pages r).
Definition set_move_pages (v : bool) (r : fuse_copy_state) : fuse_copy_state :=
  mk_cs (cs_write r) (cs_req r) (cs_iter r) (pipebufs r) (currbuf r)
    (max_usage r) (nr_segs r) (cs_pg r) (cs_len r) (cs_offset r) v.


(** What a copy works on: the objects in memory, by address (a page has [PAGE_SIZE] bytes),
    and the references to pages; the arguments of the request with their pages, the
    section of its answer, and its flags [FR_LOCKED] and [FR_ABORTED]; the state of the
    copy and the array of pipe buffers.  Then the outcomes to come: whether the connection
    is aborted before the flags are looked at next, the results of [pipe_buf_confirm], how
    attempts to steal a page end, and whether an allocation succeeds; the address of the
    next allocation; and what was copied to which address of the daemon. *)
Record world : Type := mk_world {
  mem : gmap Z (list Z);
  refs : gmap Z Z;
  ap : fuse_args;
  out_h : section;
  cs : fuse_copy_state;
  bufs : list seg;
  flocked : bool;
  faborted : bool;
  aborts : list bool;
  confirms : list Z;
  thefts : list theft;
  allocs : list bool;
  fresh : Z;
  sections : list (Z * list Z);
}.

Definition set_mem (v : gmap Z (list Z)) (r : world) : world :=
  mk_world v (refs r) (ap r) (out_h r) (cs r) (bufs r) (flocked r)
    (faborted r) (aborts r) (confirms r) (thefts r) (allocs r)
    (fresh r) (sections r).
Definition set_refs (v : gmap Z Z) (r : world) : world :=
  mk_world (mem r) v (ap r) (out_h r) (cs r) (bufs r) (flocked r)
    (faborted r) (aborts r) (confirms r) (thefts r) (allocs r)
    (fresh r) (sections r).
Definition set_ap (v : fuse_args) (r : world) : world :=
  mk_world (mem r) (refs r) v (out_h r) (cs r) (bufs r) (flocked r)
    (faborted r) (aborts r) (confirms r) (thefts r) (allocs r)
    (fresh r) (sections r).
Definition set_cs (v : fuse_copy_state) (r : world) : world :=
  mk_world (mem r) (refs r) (ap r) (out_h r) v (bufs r) (flocked r)
    (faborted r) (aborts r) (confirms r) (thefts r) (allocs r)
    (fresh r) (sections r).
Definition set_bufs (v : list seg) (r : world) : world :=
  mk_world (mem r) (refs r) (ap r) (out_h r) (cs r) v (flocked r)
    (faborted r) (aborts r) (confirms r) (thefts r) (allocs r)
    (fresh r) (sections r).
Definition set_flocked (v : bool) (r : world) : world :=
  mk_world (mem r) (refs r) (ap r) (out_h r) (cs r) (bufs r) v (faborted r)
    (aborts r) (confirms r) (thefts r) (allocs r) (fresh r)
    (sections r).
Definition set_faborted (v : bool) (r : world) : world :=
  mk_world (mem r) (refs r) (ap r) (out_h r) (cs r) (bufs r) (flocked r) v
    (aborts r) (confirms r) (thefts r) (allocs r) (fresh r)
    (sections r).
Definition set_aborts (v : list bool) (r : world) : world :=
  mk_world (mem r) (refs r) (ap r) (out_h r) (cs r) (bufs r) (flocked r)
    (faborted r) v (confirms r) (thefts r) (allocs r) (fresh r)
    (sections r).
Definition set_confirms (v : list Z) (r : world) : world :=
  mk_world (mem r) (refs r) (ap r) (out_h r) (cs r) (bufs r) (flocked r)
    (faborted r) (aborts r) v (thefts r) (allocs r) (fresh r)
    (sections r).
Definition set_thefts (v : list theft) (r : world) : world :=
  mk_world (mem r) (refs r) (ap r) (out_h r) (cs r) (bufs r) (flocked r)
    (faborted r) (aborts r) (confirms r) v (allocs r) (fresh r)
    (sections r).
Definition set_allocs (v : list bool) (r : world) : world :=
  mk_world (mem r) (refs r) (ap r) (out_h r) (cs r) (bufs r) (flocked r)
    (faborted r) (aborts r) (confirms r) (thefts r) v (fresh r)
    (sections r).
Definition set_fresh (v : Z) (r : world) : world :=
  mk_world (mem r) (refs r) (ap r) (out_h r) (cs r) (bufs r) (flocked r)
    (faborted r) (aborts r) (confirms r) (thefts r) (allocs r) v
    (sections r).
Definition set_sections (v : list (Z * list Z)) (r : world) : world :=
  mk_world (mem r) (refs r) (ap r) (out_h r) (cs r) (bufs r) (flocked r)
    (faborted r) (aborts r) (confirms r) (thefts r) (allocs r)
    (fresh r) v.


#[local] Abbreviation L := (M world).

Definition modify_cs (g : fuse_copy_state -> fuse_copy_state) : L unit :=
  modifyM (fun w => set_cs (g (cs w)) w).
Definition get_cs : L fuse_copy_state := getsM cs.

(** ** Memory *)
Definition slice (off n : Z) (b : list Z) : option (list Z) :=
  if (0 <=? off) && (0 <=? n) && (off + n <=? Z.of_nat (length b))
  then Some (take (Z.to_nat n) (drop (Z.to_nat off) b)) else None.
Definition splice (off : Z) (l b : list Z) : option (list Z) :=
  if (0 <=? off) && (off + Z.of_nat (length l) <=? Z.of_nat (length b))
  then Some (take (Z.to_nat off) b ++ l ++ drop (Z.to_nat off + length l) b) else None.

(** [memcpy] of no bytes touches no memory. *)
Definition load_mem (p : Z * Z) (n : Z) : L (list Z) :=
  if n =? 0 then mret []
  else w ← getM; b ← derefM (mem w !! p.1); derefM (slice p.2 n b).
Definition store_mem (p : Z * Z) (l : list Z) : L unit :=
  if bool_decide (l = []) then mret tt
  else
    w ← getM;
    b ← derefM (mem w !! p.1); b ← derefM (splice p.2 l b);
    modifyM (fun w => set_mem (<[p.1 := b]> (mem w)) w).
Definition memcpy (dst src : Z * Z) (n : Z) : L unit := l ← load_mem src n; store_mem dst l.

(** An object of [n] zero bytes, or 0. *)
Definition kzalloc (n : Z) : L Z :=
  w ← getM;
  match allocs w with
  | false :: l => putM (set_allocs l w);; mret 0
  | l =>
    let p := fresh w in
    putM (set_allocs (tail l) (set_fresh (p + 1)
      (set_mem (<[p := replicate (Z.to_nat n) 0]> (mem w)) w)));; mret p
  end.
(** [kfree(NULL)] does nothing. *)
Definition kfree (p : Z) : L unit :=
  if p =? 0 then mret tt
  else w ← getM; derefM (mem w !! p);; modifyM (fun w => set_mem (delete p (mem w)) w).

Definition count_ref (p d : Z) : L unit :=
  modifyM (fun w => set_refs (<[p := default 0 (refs w !! p) + d]> (refs w)) w).
Definition get_page (p : Z) : L unit := count_ref p 1.
Definition put_page (p : Z) : L unit := count_ref p (-1).

(** [alloc_page] with the reference of the caller; what the page holds is not known to
    the code. *)
Definition alloc_page : L Z :=
  p ← kzalloc PAGE_SIZE; if p =? 0 then mret 0 else get_page p;; mret p.

(** ** Locking *)
(** The connection may be aborted before the flags of the request are looked at. *)
Definition others_run : L bool :=
  w ← getM;
  putM (set_aborts (tail (aborts w)) (set_faborted (faborted w || default false (head (aborts w))) w));;
  getsM faborted.

(** [lock_request] and [unlock_request] of [cs->req]. *)
Definition set_lock (v : bool) : L Z :=
  c ← get_cs;
  if cs_req c then
    dead ← others_run;
    if (dead : bool) then mret (- ENOENT) else modifyM (set_flocked v);; mret 0
  else mret 0.

(** ** The state of the copy *)
Definition fuse_copy_init (write : bool) (iter : list (Z + seg)) : fuse_copy_state :=
  mk_cs write false iter None None 0 0 0 0 0 false.

Definition load_buf (i : nat) : L seg := w ← getM; derefM (bufs w !! i).
Definition store_buf (i : nat) (b : seg) : L unit :=
  load_buf i;; modifyM (fun w => set_bufs (<[i := b]> (bufs w)) w).

Definition fuse_copy_finish : L unit :=
  c ← get_cs;
  (match currbuf c with
   | Some i =>
     (if cs_write c then
        b ← load_buf i; store_buf i (mk_seg (sg_page b) (sg_off b) (PAGE_SIZE - cs_len c))
      else mret tt);;
     modify_cs (set_currbuf None)
   | None => if cs_pg c =? 0 then mret tt else put_page (cs_pg c)
   end);;
  modify_cs (set_cs_pg 0).

(** The next outcome of [pipe_buf_confirm]. *)
Definition pipe_buf_confirm (i : nat) : L Z :=
  load_buf i;; w ← getM;
  putM (set_confirms (tail (confirms w)) w);; mret (default 0 (head (confirms w))).

(** [cs->currbuf], [pg], [offset] and [len] are set to a part of a page. *)
Definition set_window (cur : option nat) (b : seg) : L unit :=
  modify_cs (fun c => set_currbuf cur (set_cs_pg (sg_page b) (set_cs_offset (sg_off b)
    (set_cs_len (sg_len b) c)))).

(** The next buffer of the pipe, from which the daemon's answer is read. *)
Definition fill_from_pipe (i : nat) : L Z :=
  err ← pipe_buf_confirm i;
  if negb (err =? 0) then mret err
  else
    c ← get_cs;
    assertM (negb (nr_segs c =? 0));;
    b ← load_buf i;
    set_window (Some i) b;;
    modify_cs (fun c => set_nr_segs (nr_segs c - 1) (set_pipebufs (Some (S i)) c));;
    mret 0.

(** A new page for the pipe, to which a request is written. *)
Definition fill_to_pipe (i : nat) : L Z :=
  c ← get_cs;
  if max_usage c <=? nr_segs c then mret (- EIO)
  else
    page ← alloc_page;
    if page =? 0 then mret (- ENOMEM)
    else
      store_buf i (mk_seg page 0 0);;
      set_window (Some i) (mk_seg page 0 PAGE_SIZE);;
      modify_cs (fun c => set_nr_segs (nr_segs c + 1) (set_pipebufs (Some (S i)) c));;
      mret 0.

(** The next page of user memory; [iov_iter_get_pages2] returns 0 at its end. *)
Definition fill_from_iter : L Z :=
  c ← get_cs;
  match cs_iter c with
  | [] => crashM AssertFail
  | inl err :: l => modify_cs (set_cs_iter l);; mret err
  | inr b :: l =>
    modify_cs (set_cs_iter l);;
    get_page (sg_page b);;
    assertM (negb (sg_len b =? 0));;
    set_window None b;;
    mret 0
  end.

Definition fuse_copy_fill : L Z :=
  err ← set_lock false;
  if negb (err =? 0) then mret err
  else
    fuse_copy_finish;;
    c ← get_cs;
    err ← (match pipebufs c with
           | Some i => if cs_write c then fill_to_pipe i else fill_from_pipe i
           | None => fill_from_iter
           end);
    if negb (err =? 0) then mret err else set_lock true.

(** Returns how much was copied, and [*val] and [*size] afterwards. *)
Definition fuse_copy_do (val : option (Z * Z)) (size : Z) : L (Z * option (Z * Z) * Z) :=
  c ← get_cs;
  let ncpy := Z.min size (cs_len c) in
  val ← (match val with
         | None => mret None
         | Some p =>
           let buf := (cs_pg c, cs_offset c) in
           (if cs_write c then memcpy buf p ncpy else memcpy p buf ncpy);;
           mret (Some (p.1, p.2 + ncpy))
         end);
  modify_cs (fun c => set_cs_len (cs_len c - ncpy) (set_cs_offset (cs_offset c + ncpy) c));;
  mret (ncpy, val, size - ncpy).

(** ** Pages *)
Definition load_page (i : nat) : L Z := w ← getM; derefM (pages (ap w) !! i).
Definition store_page (i : nat) (p : Z) : L unit :=
  load_page i;; modifyM (fun w => set_ap (set_pages (<[i := p]> (pages (ap w))) (ap w)) w).

Definition try_steal : L theft :=
  w ← getM; putM (set_thefts (tail (thefts w)) w);; mret (default Kept (head (thefts w))).

(** [out_fallback]: the bytes are copied after all. *)
Definition move_fallback (b : seg) : L Z :=
  modify_cs (fun c => set_cs_offset (sg_off b) (set_cs_pg (sg_page b) c));;
  err ← set_lock true;
  mret (if err =? 0 then 1 else err).

(** A page that was stolen takes the place of page [i] of the request. *)
Definition move_page (i : nat) (oldpage newpage : Z) : L Z :=
  get_page newpage;;
  put_page newpage;; (* pipe_buf_release *)
  dead ← others_run;
  if (dead : bool) then put_page newpage;; mret (- ENOENT)
  else
    store_page i newpage;;
    put_page oldpage;;
    modify_cs (set_cs_len 0);;
    mret 0.

(** 0: page [i] was replaced; 1: it is to be copied. *)
Definition fuse_try_move_page (i : nat) : L Z :=
  oldpage ← load_page i;
  get_page oldpage;;
  err ← set_lock false;
  err ← (if negb (err =? 0) then mret err
         else
           fuse_copy_finish;;
           c ← get_cs;
           j ← derefM (pipebufs c);
           err ← pipe_buf_confirm j;
           if negb (err =? 0) then mret err
           else
             assertM (negb (nr_segs c =? 0));;
             b ← load_buf j;
             modify_cs (fun c => set_nr_segs (nr_segs c - 1) (set_pipebufs (Some (S j))
               (set_cs_len (sg_len b) (set_currbuf (Some j) c))));;
             if negb (sg_len b =? PAGE_SIZE) then move_fallback b
             else
               t ← try_steal;
               match t with
               | Stolen => move_page i oldpage (sg_page b)
               | _ => move_fallback b
               end);
  put_page oldpage;;
  mret err.

(** A page of the request becomes a buffer of the pipe. *)
Definition fuse_ref_page (page offset count : Z) : L Z :=
  c ← get_cs;
  if max_usage c <=? nr_segs c then mret (- EIO)
  else
    get_page page;;
    err ← set_lock false;
    if negb (err =? 0) then put_page page;; mret err
    else
      fuse_copy_finish;;
      i ← derefM (pipebufs c);
      store_buf i (mk_seg page offset count);;
      modify_cs (fun c => set_nr_segs (nr_segs c + 1) (set_pipebufs (Some (S i)) (set_cs_len 0 c)));;
      mret 0.

(** What comes before the bytes of a turn of the loop are copied: [Some err] returns. *)
Definition copy_page_fill (i : nat) (page offset count : Z) : L (option Z) :=
  c ← get_cs;
  w ← getM;
  if cs_write c && bool_decide (is_Some (pipebufs c)) && negb (page =? 0) then
    if user_pages (ap w) then
      err ← fuse_copy_fill; mret (if err =? 0 then None else Some err)
    else err ← fuse_ref_page page offset count; mret (Some err)
  else if cs_len c =? 0 then
    if move_pages c && negb (page =? 0) && (offset =? 0) && (count =? PAGE_SIZE) then
      err ← fuse_try_move_page i; mret (if err <=? 0 then Some err else None)
    else err ← fuse_copy_fill; mret (if err =? 0 then None else Some err)
  else mret None.

Fixpoint copy_page_loop (fuel : nat) (i : nat) (page offset count : Z) : L Z :=
  match fuel with
  | O => crashM OutOfFuel
  | S fuel =>
    if count =? 0 then mret 0
    else
      done ← copy_page_fill i page offset count;
      match done with
      | Some err => mret err
      | None =>
        '(ncpy, _, count) ← fuse_copy_do (if page =? 0 then None else Some (page, offset)) count;
        copy_page_loop fuel i page (offset + ncpy) count
      end
  end.

(** A turn copies something, or takes a part of the daemon's buffer. *)
Definition copy_fuel (size : Z) (w : world) : nat :=
  S (Z.to_nat size + length (bufs w) + length (cs_iter (cs w))).

(** [pagep] is the place [i] of [ap->pages]. *)
Definition fuse_copy_page (i : nat) (offset count : Z) (zeroing : bool) : L Z :=
  page ← load_page i;
  (if negb (page =? 0) && zeroing && (count <? PAGE_SIZE)
   then store_mem (page, 0) (replicate (Z.to_nat PAGE_SIZE) 0) else mret tt);;
  w ← getM;
  copy_page_loop (copy_fuel count w) i page offset count.

(** ** The section of a payload *)
Definition load_desc (i : Z) : L (Z * Z) :=
  w ← getM; assertM (0 <=? i);; derefM (descs (ap w) !! Z.to_nat i).

(** The loop over the pages; [i + 1] is not beyond [num_pages - 1].  It copies the
    header when it meets the first page, and the footer when it meets the last. *)
Fixpoint split_loop (fuel : nat) (i kernel_buf nbytes : Z) : L unit :=
  match fuel with
  | O => crashM OutOfFuel
  | S fuel =>
    w ← getM;
    let num_pages := Z.of_nat (length (pages (ap w))) in
    let header := sc_header (out_h w) in
    let footer := sc_footer (out_h w) in
    if i <? u32 (num_pages - 1) then
      d1 ← load_desc i;
      d2 ← load_desc (i + 1);
      page1 ← load_page (Z.to_nat i);
      page2 ← load_page (Z.to_nat (i + 1));
      (if i =? 0 then memcpy (kernel_buf, 0) (page1, d1.2) header else mret tt);;
      (if i =? u32 (num_pages - 2)
       then memcpy (kernel_buf, header) (page2, d2.2 + nbytes - footer) footer else mret tt);;
      split_loop fuel (i + 1) kernel_buf nbytes
    else mret tt
  end.

(** [copy_to_user], of which the result is only printed. *)
Definition copy_to_user (user_buf : Z) (l : list Z) : L unit :=
  modifyM (fun w => set_sections (sections w ++ [(user_buf, l)]) w).

Definition fuse_split_payload (nbytes : Z) : L Z :=
  w ← getM;
  let header := sc_header (out_h w) in
  let footer := sc_footer (out_h w) in
  if (0 <? header) || (0 <? footer) then
    temp_page ← alloc_page;
    assertM (negb (temp_page =? 0));; (* kmap_local_page, __free_page *)
    kernel_buf ← kzalloc (u32 (header + footer));
    split_loop (S (length (pages (ap w)))) 0 kernel_buf nbytes;;
    (if sc_mem (out_h w) =? 0 then mret tt
     else l ← load_mem (kernel_buf, 0) (u32 (header + footer)); copy_to_user (sc_mem (out_h w)) l);;
    put_page temp_page;;
    kfree temp_page;;
    kfree kernel_buf;;
    mret 0
  else mret 0.

(** ** Arguments *)
(** Returns the result and [last_bytes]. *)
Fixpoint copy_pages_loop (n i : nat) (nbytes : Z) (zeroing : bool) (last_bytes : Z) : L (Z * Z) :=
  match n with
  | O => mret (0, last_bytes)
  | S n =>
    if negb (nbytes =? 0) || zeroing then
      d ← load_desc (Z.of_nat i);
      let count := Z.min nbytes d.1 in
      err ← fuse_copy_page i d.2 count zeroing;
      if negb (err =? 0) then mret (err, last_bytes)
      else
        w ← getM;
        copy_pages_loop n (S i) (nbytes - count) zeroing
          (if (i =? length (pages (ap w)) - 1)%nat then nbytes else last_bytes)
    else mret (0, last_bytes)
  end.

Definition fuse_copy_pages (nbytes : Z) (zeroing : bool) : L Z :=
  w ← getM;
  '(err, last_bytes) ← copy_pages_loop (length (pages (ap w))) 0 nbytes zeroing 0;
  if negb (err =? 0) then mret err else fuse_split_payload last_bytes.

Fixpoint copy_one_loop (fuel : nat) (val : Z * Z) (size : Z) : L Z :=
  match fuel with
  | O => crashM OutOfFuel
  | S fuel =>
    if size =? 0 then mret 0
    else
      c ← get_cs;
      err ← (if cs_len c =? 0 then fuse_copy_fill else mret 0);
      if negb (err =? 0) then mret err
      else
        '(_, val', size') ← fuse_copy_do (Some val) size;
        copy_one_loop fuel (default val val') size'
  end.
Definition fuse_copy_one (val : Z * Z) (size : Z) : L Z :=
  w ← getM; copy_one_loop (copy_fuel size w) val size.

Fixpoint fuse_copy_args (argpages : bool) (args : list (Z * Z)) (zeroing : bool) : L Z :=
  match args with
  | [] => mret 0
  | (size, value) :: l =>
    err ← (if bool_decide (l = []) && argpages then fuse_copy_pages size zeroing
           else fuse_copy_one (value, 0) size);
    if negb (err =? 0) then mret err else fuse_copy_args argpages l zeroing
  end.

(** ** The copies of a request and of an answer *)
(** [fuse_dev_do_read], 1359-1364: the header, which is the object [in_h], and the
    arguments of the request. *)
Definition copy_request (in_h : Z) : L Z :=
  modify_cs (set_cs_req true);;
  err ← fuse_copy_one (in_h, 0) SIZEOF_IN_HEADER;
  w ← getM;
  err ← (if negb (err =? 0) then mret err
         else fuse_copy_args (in_pages (ap w)) (in_args (ap w)) false);
  fuse_copy_finish;;
  mret err.

(** [fuse_dev_do_write], 1925 and 1981-1996: the header, into the object [oh]. *)
Definition copy_out_header (oh : Z) : L Z := fuse_copy_one (oh, 0) SIZEOF_OUT_HEADER.

(** The arguments of the answer, when the header is good and names no error; their sizes
    have been adjusted to the answer. *)
Definition copy_answer : L Z :=
  modify_cs (set_cs_req true);;
  w ← getM;
  (if page_replace (ap w) then mret tt else modify_cs (set_move_pages false));;
  err ← fuse_copy_args (out_pages (ap w)) (out_args (ap w)) (page_zeroing (ap w));
  fuse_copy_finish;;
  mret err.
