(* ===== verification/KStream.v ===== *)
(** * The daemon's buffer as a stream (proofs about KCopy)

    When an answer is copied, the bytes the daemon wrote come from its buffer in order:
    the rest of the current part of a page, and then the parts to come. *)
From S2P Require Import Prelude KTypes KForget KQueue KCopy.
#[local] Open Scope Z_scope.

#[local] Abbreviation L := (M world).
Implicit Types (w : world) (p q : Z) (b : seg) (l m : list Z).

(** ** Parts of an object *)
Definition put_at (off : Z) l m : list Z := take (Z.to_nat off) m ++ l ++ drop (Z.to_nat off + length l) m.
Definition within (off n : Z) m : Prop := 0 <= off /\ 0 <= n /\ off + n <= Z.of_nat (length m).

Lemma slice_within off n m : within off n m ->
  slice off n m = Some (take (Z.to_nat n) (drop (Z.to_nat off) m)).
Proof. intros (? & ? & ?). unfold slice. by zcases; try lia. Qed.

Lemma slice_Some off n m l : slice off n m = Some l ->
  within off n m /\ l = take (Z.to_nat n) (drop (Z.to_nat off) m) /\ Z.of_nat (length l) = n.
Proof.
  unfold slice. zcases; cbn [andb]; try done. intros [= <-]. unfold within.
  rewrite length_take, length_drop. split; [done|split; [done|lia] ].
Qed.

Lemma splice_within off l m : within off (Z.of_nat (length l)) m -> splice off l m = Some (put_at off l m).
Proof. intros (? & ? & ?). unfold splice. by zcases; try lia. Qed.

Lemma put_at_length off l m : within off (Z.of_nat (length l)) m -> length (put_at off l m) = length m.
Proof.
  intros (? & ? & ?). unfold put_at. rewrite !length_app, length_take, length_drop. lia.
Qed.

Lemma put_at_nil off m : 0 <= off -> put_at off [] m = m.
Proof. intros H. unfold put_at. cbn. rewrite Nat.add_0_r. apply take_drop. Qed.

Lemma put_at_app off l1 l2 m : within off (Z.of_nat (length l1 + length l2)) m ->
  put_at (off + Z.of_nat (length l1)) l2 (put_at off l1 m) = put_at off (l1 ++ l2) m.
Proof.
  intros (? & ? & ?). unfold put_at.
  assert (Ht : length (take (Z.to_nat off) m) = Z.to_nat off) by (rewrite length_take; lia).
  rewrite Z2Nat.inj_add, Nat2Z.id by lia.
  rewrite (app_assoc (take _ m)), take_app_le by (rewrite length_app; lia).
  rewrite (take_ge (_ ++ l1)) by (rewrite length_app; lia). rewrite length_app, <- !app_assoc. f_equal. f_equal. f_equal.
  rewrite drop_app_ge by lia. rewrite drop_app_ge by lia. rewrite drop_drop. f_equal. lia.
Qed.

Lemma slice_put_at off l m : within off (Z.of_nat (length l)) m ->
  slice off (Z.of_nat (length l)) (put_at off l m) = Some l.
Proof.
  intros Hw. rewrite slice_within by (destruct Hw as (? & ? & ?); unfold within; by rewrite put_at_length).
  destruct Hw as (? & ? & ?). unfold put_at. f_equal.
  assert (Ht : length (take (Z.to_nat off) m) = Z.to_nat off) by (rewrite length_take; lia).
  rewrite drop_app_ge by lia. rewrite Ht, Nat.sub_diag, drop_0, Nat2Z.id, take_app_le by lia. by apply take_ge.
Qed.

Lemma slice_split off n k m l : 0 <= k <= n -> slice off n m = Some l ->
  slice off k m = Some (take (Z.to_nat k) l) /\ slice (off + k) (n - k) m = Some (drop (Z.to_nat k) l).
Proof.
  intros Hk (Hw & -> & _)%slice_Some. destruct Hw as (? & ? & ?).
  rewrite !slice_within by (unfold within; lia). split; f_equal.
  - rewrite take_take. f_equal. lia.
  - replace (Z.to_nat n) with (Z.to_nat k + Z.to_nat (n - k))%nat by lia.
    rewrite <- take_drop_commute, drop_drop. f_equal. f_equal. lia.
Qed.

(** ** The stream *)
Definition window w : seg := mk_seg (cs_pg (cs w)) (cs_offset (cs w)) (cs_len (cs w)).
(** What the next fills meet. *)
Definition coming w : list (Z + seg) :=
  match pipebufs (cs w) with
  | Some i => inr <$> drop i (bufs w)
  | None => cs_iter (cs w)
  end.
Definition seg_bytes w b : list Z := default [] (mem w !! sg_page b ≫= slice (sg_off b) (sg_len b)).
Definition next_bytes w (x : Z + seg) : list Z := match x with inl _ => [] | inr b => seg_bytes w b end.
Definition window_bytes w : list Z := if cs_len (cs w) =? 0 then [] else seg_bytes w (window w).
Definition stream w : list Z := window_bytes w ++ concat (next_bytes w <$> coming w).

(** A page pinned for the copy, and the references that are not its. *)
Definition pin w p : Z :=
  match currbuf (cs w) with
  | Some _ => 0
  | None => if (cs_pg (cs w) =? p) && negb (p =? 0) then 1 else 0
  end.
Definition owned w p : Z := default 0 (refs w !! p) - pin w p.

(** No abort and no error comes. *)
Record clean w : Prop := mk_clean {
  cl_alive : faborted w = false;
  cl_aborts : Forall (fun x => x = false) (aborts w);
  cl_confirms : Forall (fun e => e = 0) (confirms w);
  cl_iter : Forall (fun x => exists b, x = inr b) (cs_iter (cs w));
}.

(** What a copy leaves alone: objects outside [D], pages of the request outside [I], and
    what only other threads use. *)
Record spares (D : Z -> Prop) (I : nat -> Prop) w w' : Prop := mk_spares {
  sp_write : cs_write (cs w') = cs_write (cs w);
  sp_req : cs_req (cs w') = cs_req (cs w);
  sp_move : move_pages (cs w') = move_pages (cs w);
  sp_args : set_pages [] (ap w') = set_pages [] (ap w);
  sp_pages : forall i, ~ I i -> pages (ap w') !! i = pages (ap w) !! i;
  sp_count : length (pages (ap w')) = length (pages (ap w));
  sp_out : out_h w' = out_h w;
  sp_bufs : bufs w' = bufs w;
  sp_allocs : allocs w' = allocs w;
  sp_fresh : fresh w' = fresh w;
  sp_sections : sections w' = sections w;
  sp_pipe : pipebufs (cs w') = None <-> pipebufs (cs w) = None;
  sp_coming : (length (coming w') <= length (coming w))%nat;
  sp_mem : forall p, ~ D p -> mem w' !! p = mem w !! p;
  sp_sizes : forall p, length <$> mem w' !! p = length <$> mem w !! p;
  sp_refs : pipebufs (cs w) = None -> forall p, owned w' p = owned w p;
  sp_cur : pipebufs (cs w) = None -> currbuf (cs w) = None -> currbuf (cs w') = None;
  sp_clean : clean w -> clean w';
}.

Lemma spares_refl D I w : spares D I w w.
Proof. by split. Qed.

Lemma spares_trans D I w1 w2 w3 : spares D I w1 w2 -> spares D I w2 w3 -> spares D I w1 w3.
Proof.
  intros H1 H2. destruct H1, H2. split; try congruence; try lia; try tauto.
  - intros i Hi. rewrite sp_pages1 by done. by apply sp_pages0.
  - intros p Hp. rewrite sp_mem1 by done. by apply sp_mem0.
  - intros Hi p. rewrite sp_refs1 by tauto. by apply sp_refs0.
Qed.

Lemma spares_mono (D D' : Z -> Prop) (I I' : nat -> Prop) w w' : (forall p, D p -> D' p) -> (forall i, I i -> I' i) ->
  spares D I w w' -> spares D' I' w w'.
Proof. intros HD HI H. destruct H. split; try done; intros; [apply sp_pages0|apply sp_mem0]; auto. Qed.

Definition nothing {A} (_ : A) : Prop := False.

(** ** Locking and moving on *)
Lemma others_run_runs w : runs others_run w (fun dead w' => dead = faborted w' /\
  spares nothing nothing w w' /\ (clean w -> dead = false) /\
  cs w' = cs w /\ bufs w' = bufs w /\ confirms w' = confirms w /\ mem w' = mem w /\ ap w' = ap w).
Proof.
  exists (faborted w || default false (head (aborts w))),
    (set_aborts (tail (aborts w)) (set_faborted (faborted w || default false (head (aborts w))) w)).
  split; [done|]. cbn. split; [done|].
  assert (Hc : clean w -> faborted w || default false (head (aborts w)) = false).
  { intros []. rewrite cl_alive0. destruct (aborts w) as [|x l]; [done|]. by inversion cl_aborts0. }
  split; [|done]. split; try done. intros C. pose proof (Hc C). destruct C. split; try done.
  cbn. by apply Forall_tail.
Qed.

(** The flags change, and nothing else that a copy looks at. *)
Lemma set_lock_same v w : runs (set_lock v) w (fun err w' => err <= 0 /\
  spares nothing nothing w w' /\ (clean w -> err = 0) /\
  cs w' = cs w /\ bufs w' = bufs w /\ confirms w' = confirms w /\ mem w' = mem w /\ ap w' = ap w).
Proof.
  unfold set_lock. eapply runs_Ok_bind; [done|].
  destruct (cs_req (cs w)); [|apply runs_ret; split; [lia|]; split; [apply spares_refl|done] ].
  eapply runs_bind; [apply others_run_runs|]. intros dead w1 (_ & Hs & Hc & Hcs & Hb & Hf & Hm & Ha).
  destruct dead.
  - apply runs_ret. split; [unfold ENOENT; lia|]. split; [done|]. split; [|done]. intros C. by specialize (Hc C).
  - eapply runs_Ok_bind; [done|]. apply runs_ret. split; [lia|]. split; [|done].
    eapply spares_trans; [exact Hs|]. split; try done. intros []; by split.
Qed.

(** The state after [fuse_copy_finish]: nothing is pinned. *)
Definition finished w : world :=
  set_refs (match currbuf (cs w) with
            | Some _ => refs w
            | None => if cs_pg (cs w) =? 0 then refs w
                      else <[cs_pg (cs w) := default 0 (refs w !! cs_pg (cs w)) + -1]> (refs w)
            end) (set_cs (set_cs_pg 0 (set_currbuf None (cs w))) w).

Lemma finish_Ok w : cs_write (cs w) = false \/ currbuf (cs w) = None -> fuse_copy_finish w = Ok (tt, finished w).
Proof.
  intros Hw. unfold fuse_copy_finish, finished. rewrite (bind_Ok _ _ w (cs w) w) by done.
  destruct w as [m r a o [wr rq it pb cb mx ns pg ln oo mv] bs fl fa ab cf th al fr sc]. cbn in Hw. cbn [cs currbuf cs_pg cs_write].
  destruct cb as [i|]; [by destruct Hw as [->|?]|]. by destruct (pg =? 0).
Qed.

Lemma finished_owned w p : owned (finished w) p = owned w p.
Proof.
  unfold owned, finished, pin. cbn [cs set_cs set_refs set_cs_pg set_currbuf currbuf cs_pg refs].
  destruct (currbuf (cs w)) as [i|].
  - zcases; cbn [negb andb]; lia.
  - destruct (Z.eqb_spec (cs_pg (cs w)) 0) as [E|E].
    + rewrite E. zcases; cbn [negb andb]; try lia.
    + destruct (Z.eqb_spec (cs_pg (cs w)) p) as [<-|Hp].
      * rewrite lookup_insert_eq. cbn [from_option]. unfold id. zcases; cbn [negb andb]; lia.
      * rewrite lookup_insert_ne by done. zcases; cbn [negb andb]; lia.
Qed.

Lemma finished_unpinned w p : owned (finished w) p = default 0 (refs (finished w) !! p).
Proof.
  unfold owned. replace (pin (finished w) p) with 0; [lia|].
  unfold pin. cbn [finished cs set_refs set_cs set_cs_pg set_currbuf currbuf cs_pg]. zcases; cbn [negb andb]; lia.
Qed.

Lemma finished_spares w : spares nothing nothing w (finished w).
Proof. split; try done; [intros _; apply finished_owned|]. intros []. by split. Qed.

(** A page is pinned and becomes the window. *)
Lemma pinned_owned w b (x : list (Z + seg)) p : currbuf (cs w) = None -> cs_pg (cs w) = 0 -> sg_page b <> 0 ->
  owned (set_cs (set_currbuf None (set_cs_pg (sg_page b) (set_cs_offset (sg_off b) (set_cs_len (sg_len b) (set_cs_iter x (cs w))))))
    (set_refs (<[sg_page b := default 0 (refs w !! sg_page b) + 1]> (refs w)) (set_cs (set_cs_iter x (cs w)) w))) p = owned w p.
Proof.
  intros Hcur Hpg Hb0. unfold owned, pin. rewrite Hcur, Hpg.
  change (default 0 (<[sg_page b := default 0 (refs w !! sg_page b) + 1]> (refs w) !! p) -
    (if (sg_page b =? p) && negb (p =? 0) then 1 else 0) =
    default 0 (refs w !! p) - (if (0 =? p) && negb (p =? 0) then 1 else 0)).
  destruct (Z.eqb_spec (sg_page b) p) as [<-|Hp].
  - rewrite lookup_insert_eq. cbn [from_option]. unfold id. zcases; cbn [negb andb]; lia.
  - rewrite lookup_insert_ne by done. zcases; cbn [negb andb]; lia.
Qed.

(** ** A buffer that feeds the copy *)
Section Stream.
(** The pages of the daemon's buffer. *)
Context (S : Z -> Prop).

(** A part of a whole page of the buffer. *)
Definition part w b : Prop :=
  S (sg_page b) /\ sg_page b <> 0 /\
  exists m, mem w !! sg_page b = Some m /\ Z.of_nat (length m) = PAGE_SIZE /\ within (sg_off b) (sg_len b) m.

(** What the library calls of the kernel promise of the outcomes to come. *)
Definition outcome_ok w (x : Z + seg) : Prop :=
  match x with inl err => err < 0 | inr b => part w b /\ (pipebufs (cs w) = None -> 0 < sg_len b) end.

Record feeds w : Prop := mk_feeds {
  fd_write : cs_write (cs w) = false;
  fd_len : 0 <= cs_len (cs w);
  fd_window : 0 < cs_len (cs w) -> part w (window w);
  fd_coming : Forall (outcome_ok w) (coming w);
  fd_segs : forall i, pipebufs (cs w) = Some i -> nr_segs (cs w) = Z.of_nat (length (drop i (bufs w)));
  fd_confirms : Forall (fun e => e <= 0) (confirms w);
  fd_iter : pipebufs (cs w) = None -> currbuf (cs w) = None;
  fd_move : pipebufs (cs w) = None -> move_pages (cs w) = false;
}.

(** From [w] on, [n] bytes were taken from the stream, or an error came up. *)
Definition took D I (n : nat) w (Q : world -> Prop) (err : Z) w' : Prop :=
  err <= 0 /\ spares D I w w' /\ (clean w -> err = 0) /\
  (err = 0 -> feeds w' /\ stream w' = drop n (stream w) /\ Q w').
Definition takes D I (n : nat) (m : L Z) w (Q : world -> Prop) : Prop := runs m w (took D I n w Q).

Lemma feeds_ext w w' : cs w' = cs w -> bufs w' = bufs w -> confirms w' = confirms w ->
  (forall p, S p -> mem w' !! p = mem w !! p) -> feeds w -> feeds w' /\ stream w' = stream w.
Proof.
  intros Hc Hb Hf Hm F. destruct F.
  assert (Hw : coming w' = coming w) by (unfold coming; by rewrite Hc, Hb).
  assert (Hpart : forall b, part w b -> part w' b).
  { intros b (H1 & H2 & m & H3 & H4). split; [done|]. split; [done|]. exists m. by rewrite Hm. }
  assert (Hbytes : forall b, part w b -> seg_bytes w' b = seg_bytes w b).
  { intros b (H1 & _). unfold seg_bytes. by rewrite Hm. }
  assert (Hwin : window w' = window w) by (unfold window; by rewrite Hc).
  split.
  - split; rewrite ?Hc, ?Hb, ?Hf, ?Hw, ?Hwin; try done; [auto|].
    eapply Forall_impl; [exact fd_coming0|]. intros [err|b]; [done|]. cbn. rewrite Hc. intros [? ?]. auto.
  - unfold stream, window_bytes. rewrite Hc, Hw, Hwin. f_equal.
    + destruct (Z.eqb_spec (cs_len (cs w)) 0); [done|]. apply Hbytes, fd_window0. lia.
    + f_equal. apply list_fmap_ext. intros i x Hx.
      eapply Forall_lookup in fd_coming0; [|exact Hx]. destruct x as [err|b]; [done|]. by apply Hbytes, fd_coming0.
Qed.

Lemma set_lock_runs v w : feeds w -> runs (set_lock v) w (fun err w' => err <= 0 /\
  spares nothing nothing w w' /\ (clean w -> err = 0) /\
  feeds w' /\ stream w' = stream w /\ cs w' = cs w /\ mem w' = mem w /\ ap w' = ap w).
Proof.
  intros F. eapply runs_mono; [apply set_lock_same|]. intros err w' (He & Hs & Hc & Xc & Xb & Xf & Xm & Xa).
  destruct (feeds_ext w w') as [F' E']; [done..|by intros p _; rewrite Xm|done|]. by split_and!.
Qed.

Lemma finished_feeds w : feeds w -> cs_len (cs w) = 0 -> feeds (finished w) /\ stream (finished w) = stream w.
Proof.
  intros F Hl. destruct F. split.
  - split; try done. cbn. lia.
  - unfold stream, window_bytes. change (cs_len (cs (finished w))) with (cs_len (cs w)). by rewrite Hl.
Qed.

(** ** Filling *)
Lemma part_bytes w b : part w b -> exists l, mem w !! sg_page b ≫= slice (sg_off b) (sg_len b) = Some l /\
  seg_bytes w b = l /\ Z.of_nat (length l) = sg_len b.
Proof.
  intros (_ & _ & m & Hm & _ & Hw). unfold seg_bytes. rewrite Hm. cbn [mbind option_bind].
  rewrite (slice_within _ _ _ Hw). eexists. split; [done|]. split; [done|].
  destruct Hw as (? & ? & ?). rewrite length_take, length_drop. lia.
Qed.

Lemma part_empty w b : part w b -> sg_len b = 0 -> seg_bytes w b = [].
Proof. intros Hp Hl. destruct (part_bytes w b Hp) as (l & _ & -> & Hn). apply nil_length_inv. lia. Qed.

(** The part [b] is taken off what is to come. *)
Record advances w w' b : Prop := mk_advances {
  av_write : cs_write (cs w') = cs_write (cs w);
  av_len : cs_len (cs w') = sg_len b;
  av_window : window w' = b;
  av_coming : coming w = inr b :: coming w';
  av_pipe : pipebufs (cs w') = None <-> pipebufs (cs w) = None;
  av_segs : forall i, pipebufs (cs w') = Some i -> nr_segs (cs w') = Z.of_nat (length (drop i (bufs w')));
  av_mem : mem w' = mem w;
  av_confirms : Forall (fun e => e <= 0) (confirms w');
  av_iter : pipebufs (cs w') = None -> currbuf (cs w') = None;
  av_move : move_pages (cs w') = move_pages (cs w);
}.

Lemma advances_feeds w w' b : feeds w -> cs_len (cs w) = 0 -> advances w w' b ->
  feeds w' /\ stream w' = stream w /\ (length (coming w') < length (coming w))%nat.
Proof.
  intros F Hl A. destruct F, A. rewrite av_coming0 in fd_coming0. apply Forall_cons in fd_coming0 as [Ho Hrest].
  destruct Ho as [Hb Hpos].
  assert (Hpart : forall c, part w c -> part w' c) by (intros c; unfold part; by rewrite av_mem0).
  assert (Hbytes : forall c, seg_bytes w' c = seg_bytes w c) by (intros c; unfold seg_bytes; by rewrite av_mem0).
  split; [|split].
  - split; try done.
    + congruence.
    + rewrite av_len0. destruct Hb as (_ & _ & m & _ & _ & ? & ? & ?). lia.
    + intros _. rewrite av_window0. auto.
    + eapply Forall_impl; [exact Hrest|]. intros [err|c]; [done|]. cbn. rewrite av_pipe0. intros [? ?]. auto.
    + rewrite av_pipe0, av_move0. done.
  - unfold stream, window_bytes. rewrite av_len0, av_window0, av_coming0, Hl. cbn [Z.eqb fmap list_fmap concat app next_bytes].
    f_equal.
    + destruct (Z.eqb_spec (sg_len b) 0) as [E|E]; [by rewrite part_empty|done].
    + f_equal. apply list_fmap_ext. intros j x _. destruct x; [done|]. apply Hbytes.
  - rewrite av_coming0. cbn. lia.
Qed.

(** What a fill has to do once the flags of the request are clear. *)
Definition fills (m : L Z) w : Prop :=
  runs m w (fun err w' => err <= 0 /\ spares nothing nothing w w' /\ ap w' = ap w /\ (clean w -> err = 0) /\
    (err = 0 -> feeds w' /\ stream w' = stream w /\ (length (coming w') < length (coming w))%nat)).

Lemma confirm_Ok w i b : feeds w -> bufs w !! i = Some b ->
  exists e w1, pipe_buf_confirm i w = Ok (e, w1) /\ w1 = set_confirms (tail (confirms w)) w /\
    e <= 0 /\ (clean w -> e = 0) /\ Forall (fun e => e <= 0) (confirms w1) /\ spares nothing nothing w w1.
Proof.
  intros F Hb. exists (default 0 (head (confirms w))), (set_confirms (tail (confirms w)) w).
  split; [|split; [done|] ].
  { unfold pipe_buf_confirm, load_buf. rewrite (bind_Ok _ _ w b w); [done|]. rewrite (bind_Ok _ _ w w w) by done. by rewrite Hb. }
  pose proof (fd_confirms _ F) as Hf. split; [|split; [|split] ].
  - destruct (confirms w); [done|]. by apply Forall_cons in Hf as [? _].
  - intros C. pose proof (cl_confirms _ C) as Hc. destruct (confirms w); [done|]. by apply Forall_cons in Hc as [? _].
  - cbn. by apply Forall_tail.
  - split; try done. intros []. split; try done. by apply Forall_tail.
Qed.

Lemma feeds_confirmed w : feeds w ->
  feeds (set_confirms (tail (confirms w)) w) /\ stream (set_confirms (tail (confirms w)) w) = stream w.
Proof. intros F. split; [|done]. destruct F. split; try done. by apply Forall_tail. Qed.

(** The next buffer of the pipe. *)
Lemma next_buf w i : feeds w -> pipebufs (cs w) = Some i -> coming w <> [] ->
  exists b, bufs w !! i = Some b /\ coming w = inr b :: (inr <$> drop (Datatypes.S i) (bufs w)) /\
    nr_segs (cs w) = 1 + Z.of_nat (length (drop (Datatypes.S i) (bufs w))).
Proof.
  intros F Hi Hne. pose proof (fd_segs _ F i Hi) as Hn. unfold coming in *. rewrite Hi in *.
  destruct (drop i (bufs w)) as [|b bs] eqn:Hd; [done|]. exists b.
  assert (Hbs : drop (Datatypes.S i) (bufs w) = bs).
  { replace (Datatypes.S i) with (i + 1)%nat by lia. rewrite <- drop_drop, Hd. done. }
  rewrite Hbs. cbn [length] in Hn. split; [|split; [done|lia] ].
  pose proof (lookup_drop (bufs w) i 0) as H. rewrite Hd, Nat.add_0_r in H. by symmetry.
Qed.

Lemma fill_from_pipe_runs w i : feeds w -> cs_len (cs w) = 0 -> pipebufs (cs w) = Some i -> currbuf (cs w) = None ->
  coming w <> [] -> fills (fill_from_pipe i) w.
Proof.
  intros F Hl Hi Hcur Hne. destruct (next_buf w i F Hi Hne) as (b & Hb & Hco & Hn).
  destruct (confirm_Ok w i b F Hb) as (e & w1 & Hconf & -> & He & Hc & Hf & Hs). set (w1 := set_confirms _ w) in *.
  unfold fills, fill_from_pipe. eapply runs_Ok_bind; [exact Hconf|].
  destruct (Z.eqb_spec e 0) as [E|E]; cbn [negb]; [|by apply runs_ret].
  eapply runs_Ok_bind; [done|]. change (nr_segs (cs w1)) with (nr_segs (cs w)).
  apply runs_assert_bind; [zcases; [lia|done]|].
  eapply (runs_Ok_bind _ _ _ b w1).
  { unfold load_buf. rewrite (bind_Ok _ _ w1 w1 w1) by done. by change (bufs w1) with (bufs w); rewrite Hb. }
  eapply runs_Ok_bind; [done|]. eapply runs_Ok_bind; [done|]. cbv beta. apply runs_ret.
  set (w2 := set_cs _ _).
  assert (A : advances w w2 b).
  { split; try done.
    - by destruct b.
    - cbn. by rewrite Hi.
    - intros j [= <-]. cbn. lia. }
  destruct (advances_feeds w w2 b F Hl A) as (F2 & E2 & L2).
  split; [lia|]. split; [|by split; [|split; [done|intros _]] ].
  eapply spares_trans; [exact Hs|]. split; try done.
  - cbn. by rewrite Hi.
  - apply Nat.lt_le_incl. exact L2.
  - intros Hno. change (pipebufs (cs w1)) with (pipebufs (cs w)) in Hno. by rewrite Hi in Hno.
  - intros Hno. change (pipebufs (cs w1)) with (pipebufs (cs w)) in Hno. by rewrite Hi in Hno.
  - intros []. by split.
Qed.

Lemma fill_from_iter_runs w : feeds w -> cs_len (cs w) = 0 -> pipebufs (cs w) = None -> currbuf (cs w) = None ->
  cs_pg (cs w) = 0 -> coming w <> [] -> fills fill_from_iter w.
Proof.
  intros F Hl Hi Hcur Hpg Hne. unfold fills, fill_from_iter. eapply runs_Ok_bind; [done|].
  assert (Hco : coming w = cs_iter (cs w)) by (unfold coming; by rewrite Hi).
  pose proof (fd_coming _ F) as Hf. rewrite Hco in Hf, Hne.
  destruct (cs_iter (cs w)) as [|[err|b] l] eqn:Hit; [done| |];
    apply Forall_cons in Hf as [Ho Hrest]; cbn in Ho.
  - eapply runs_Ok_bind; [done|]. apply runs_ret. split; [lia|].
    split; [|split; [done|split; [|by intros ->] ] ].
    + split; try done.
      * unfold coming. cbn. rewrite Hi, Hit. cbn. lia.
      * intros []. rewrite Hit in cl_iter0. by apply Forall_cons in cl_iter0 as [[b Hb] _].
    + intros []. rewrite Hit in cl_iter0. by apply Forall_cons in cl_iter0 as [[b Hb] _].
  - destruct Ho as [Hb Hpos]. specialize (Hpos Hi).
    eapply runs_Ok_bind; [done|]. eapply runs_Ok_bind; [done|]. apply runs_assert_bind; [by zcases; [lia|]|].
    eapply runs_Ok_bind; [done|]. apply runs_ret. cbv beta. set (w2 := set_cs _ _).
    assert (A : advances w w2 b).
    { split; try done.
      - by destruct b.
      - unfold coming. cbn. by rewrite Hi, Hit.
      - cbn. by rewrite Hi.
      - apply F. }
    destruct (advances_feeds w w2 b F Hl A) as (F2 & E2 & L2).
    split; [lia|]. split; [|by split; [|split; [|intros _] ] ].
    split; try done.
    + apply Nat.lt_le_incl. exact L2.
    + intros _ p. destruct Hb as (_ & Hb0 & _). exact (pinned_owned w b _ p Hcur Hpg Hb0).
    + intros []. split; try done. cbn. rewrite Hit in cl_iter0. by apply Forall_cons in cl_iter0 as [_ ?].
Qed.

Lemma fuse_copy_fill_runs w : feeds w -> cs_len (cs w) = 0 -> coming w <> [] -> fills fuse_copy_fill w.
Proof.
  intros F Hl Hne. unfold fills, fuse_copy_fill.
  eapply runs_bind; [by apply set_lock_runs|]. intros err w1 (He & S1 & C1 & F1 & E1 & Hcs & Hm & Ha).
  destruct (Z.eqb_spec err 0) as [->|Hne0]; cbn [negb]; [|by apply runs_ret].
  assert (Hl1 : cs_len (cs w1) = 0) by congruence.
  eapply runs_Ok_bind; [apply finish_Ok; left; apply F1|].
  destruct (finished_feeds w1 F1 Hl1) as [F2 E2]. pose proof (finished_spares w1) as S2.
  pose proof (spares_trans _ _ _ _ _ S1 S2) as S12.
  assert (Hne2 : coming (finished w1) <> []).
  { change (coming (finished w1)) with (coming w1). unfold coming in *. by rewrite Hcs, (sp_bufs _ _ _ _ S1). }
  set (w2 := finished w1) in *. eapply runs_Ok_bind; [done|].
  apply (runs_bind _ _ _ (fun err w' => err <= 0 /\ spares nothing nothing w2 w' /\ ap w' = ap w2 /\ (clean w2 -> err = 0) /\
    (err = 0 -> feeds w' /\ stream w' = stream w2 /\ (length (coming w') < length (coming w2))%nat))).
  { assert (Hw : cs_write (cs w2) = false) by apply F2. rewrite Hw.
    destruct (pipebufs (cs w2)) as [i|] eqn:Hi; [by apply fill_from_pipe_runs|by apply fill_from_iter_runs]. }
  intros err w3 (He3 & S3 & A3 & C3 & F3). pose proof (spares_trans _ _ _ _ _ S12 S3) as S13.
  assert (Hap : ap w3 = ap w) by (rewrite A3; exact Ha).
  destruct (Z.eqb_spec err 0) as [->|Hne0]; cbn [negb].
  - destruct (F3 eq_refl) as (F3' & E3 & L3). eapply runs_mono; [by apply set_lock_runs|].
    intros err w4 (He4 & S4 & C4 & F4 & E4 & Hcs4 & Hm4 & Ha4). split; [done|].
    split; [by eapply spares_trans|]. split; [congruence|]. split; [intros C; apply C4, S13, C|].
    intros _. split; [done|]. split; [congruence|].
    pose proof (sp_coming _ _ _ _ S12). unfold coming at 1. rewrite Hcs4, (sp_bufs _ _ _ _ S4).
    change (length (coming w3) < length (coming w))%nat. lia.
  - apply runs_ret. split; [done|]. split; [done|]. split; [done|]. split; [|by intros ->].
    intros C. apply C3, S12, C.
Qed.

(** ** Copying out of the window *)
Lemma window_take w n : feeds w -> 0 <= n <= cs_len (cs w) -> 0 < cs_len (cs w) ->
  exists m, mem w !! cs_pg (cs w) = Some m /\
    slice (cs_offset (cs w)) n m = Some (take (Z.to_nat n) (stream w)) /\
    (Z.to_nat n <= length (stream w))%nat /\
    slice (cs_offset (cs w) + n) (cs_len (cs w) - n) m = Some (drop (Z.to_nat n) (window_bytes w)).
Proof.
  intros F Hn Hl. pose proof (fd_window _ F Hl) as Hp.
  destruct (part_bytes _ _ Hp) as (l & Hsl & Hb & Hlen). destruct Hp as (_ & _ & m & Hm & _ & _).
  cbn in Hm, Hsl, Hlen. rewrite Hm in Hsl. cbn in Hsl. exists m. split; [done|].
  destruct (slice_split _ _ n _ _ Hn Hsl) as [H1 H2].
  assert (Hw : window_bytes w = l) by (unfold window_bytes; zcases; [lia|done]).
  unfold stream. rewrite Hw, take_app_le by lia. rewrite length_app. split; [done|]. split; [lia|done].
Qed.

Definition copied_to w v o n : world :=
  let l := take (Z.to_nat n) (stream w) in
  set_cs (set_cs_len (cs_len (cs w) - n) (set_cs_offset (cs_offset (cs w) + n) (cs w)))
    (if bool_decide (l = []) then w
     else set_mem (<[v := put_at o l (default [] (mem w !! v))]> (mem w)) w).

Lemma copy_do_Ok w v o m size : feeds w -> mem w !! v = Some m -> within o size m ->
  let n := Z.min size (cs_len (cs w)) in
  fuse_copy_do (Some (v, o)) size w = Ok (n, Some (v, o + n), size - n, copied_to w v o n).
Proof.
  intros F Hm (Ho & Hs & Hb) n. unfold fuse_copy_do. rewrite (bind_Ok _ _ w (cs w) w) by done.
  rewrite (fd_write _ F). fold n.
  set (w1 := if bool_decide (take (Z.to_nat n) (stream w) = []) then w
     else set_mem (<[v := put_at o (take (Z.to_nat n) (stream w)) (default [] (mem w !! v))]> (mem w)) w).
  rewrite (bind_Ok _ _ w (Some (v, o + n)) w1); [unfold copied_to; fold w1; unfold w1; by case_bool_decide|].
  pose proof (fd_len _ F) as Hl. rewrite (bind_Ok _ _ w tt w1); [done|].
  unfold memcpy, load_mem. destruct (Z.eqb_spec n 0) as [E|E].
  - rewrite (bind_Ok _ _ w [] w) by done. unfold w1. by rewrite E.
  - destruct (window_take w n F ltac:(lia) ltac:(lia)) as (m' & Hm' & Ht & Hlen & _).
    rewrite (bind_Ok _ _ w (take (Z.to_nat n) (stream w)) w).
    2: { rewrite (bind_Ok _ _ w w w) by done. cbn [fst snd]. rewrite Hm'. rewrite (bind_Ok _ _ w m' w) by done. by rewrite Ht. }
    unfold store_mem, w1. case_bool_decide as Hnil; [done|].
    rewrite (bind_Ok _ _ w w w) by done. cbn [fst snd]. rewrite Hm. rewrite (bind_Ok _ _ w m w) by done.
    rewrite splice_within; [by rewrite (bind_Ok _ _ w (put_at o (take (Z.to_nat n) (stream w)) m) w)|].
    unfold within. rewrite length_take. lia.
Qed.

Lemma copied_to_mem w v o n m : mem w !! v = Some m -> 0 <= o -> 
  mem (copied_to w v o n) !! v = Some (put_at o (take (Z.to_nat n) (stream w)) m) /\
  forall p, p <> v -> mem (copied_to w v o n) !! p = mem w !! p.
Proof.
  intros Hm Ho. unfold copied_to. case_bool_decide as E; cbn [mem set_cs set_mem].
  - rewrite E, put_at_nil by done. done.
  - rewrite Hm. cbn [from_option]. unfold id. split; [apply lookup_insert_eq|].
    intros p Hp. by apply lookup_insert_ne.
Qed.

Lemma copied_to_runs w v o m size : feeds w -> ~ S v -> mem w !! v = Some m -> within o size m ->
  let n := Z.min size (cs_len (cs w)) in let w' := copied_to w v o n in
  feeds w' /\ stream w' = drop (Z.to_nat n) (stream w) /\ spares (eq v) nothing w w' /\ ap w' = ap w /\ coming w' = coming w.
Proof.
  intros F Hv Hm (Ho & Hs & Hb) n w'. pose proof (fd_len _ F) as Hl.
  destruct (copied_to_mem w v o n m Hm Ho) as [Hm1 Hm2]. fold w' in Hm1, Hm2.
  assert (HS : forall p, S p -> mem w' !! p = mem w !! p) by (intros p Hp; apply Hm2; by intros ->).
  assert (Hfix : ap w' = ap w /\ bufs w' = bufs w /\ confirms w' = confirms w /\ out_h w' = out_h w /\
    allocs w' = allocs w /\ fresh w' = fresh w /\ sections w' = sections w /\ refs w' = refs w /\
    faborted w' = faborted w /\ aborts w' = aborts w).
  { unfold w', copied_to. by case_bool_decide. }
  destruct Hfix as (Xa & Xb & Xc & Xo & Xl & Xf & Xs & Xr & Xd & Xe).
  assert (Hcs : cs w' = set_cs_len (cs_len (cs w) - n) (set_cs_offset (cs_offset (cs w) + n) (cs w))) by done.
  assert (Hco : coming w' = coming w) by (unfold coming; by rewrite Hcs, Xb). clearbody w'.
  assert (Hn : 0 <= n <= cs_len (cs w) /\ n <= size) by lia. clearbody n.
  assert (Hpart : forall b, part w b -> part w' b).
  { intros b (H1 & H2 & x & H3). split; [done|]. split; [done|]. exists x. by rewrite HS. }
  assert (Hwl : window_bytes w' = drop (Z.to_nat n) (window_bytes w)).
  { unfold window_bytes at 1. rewrite Hcs. cbn [cs_len set_cs_len].
    destruct (Z.eqb_spec (cs_len (cs w) - n) 0) as [E|E].
    - unfold window_bytes. destruct (Z.eqb_spec (cs_len (cs w)) 0) as [E0|E0]; [by rewrite drop_nil|].
      destruct (part_bytes _ _ (fd_window _ F ltac:(lia))) as (l & _ & -> & Hlen). cbn in Hlen.
      symmetry. apply drop_ge. lia.
    - destruct (window_take w n F ltac:(lia) ltac:(lia)) as (x & Hx & _ & _ & Hd).
      destruct (fd_window _ F ltac:(lia)) as (HSp & _). cbn in HSp.
      unfold seg_bytes, window. rewrite Hcs. cbn [sg_page sg_off sg_len cs_pg cs_offset cs_len set_cs_len set_cs_offset].
      rewrite HS, Hx by done. cbn [mbind option_bind]. by rewrite Hd. }
  split; [|split; [|split; [|done] ] ].
  - destruct F. split; rewrite ?Hco, ?Xb, ?Xc; try done.
    + by rewrite Hcs.
    + rewrite Hcs. cbn. lia.
    + intros Hpos. rewrite Hcs in Hpos. cbn in Hpos. destruct (fd_window0 ltac:(lia)) as (H1 & H2 & x & H3 & H4 & ? & ? & ?).
      assert (Hww : window w' = mk_seg (cs_pg (cs w)) (cs_offset (cs w) + n) (cs_len (cs w) - n)) by (unfold window; by rewrite Hcs).
      rewrite Hww. split; [done|]. split; [done|]. exists x. cbn in H1, H3 |- *. rewrite HS by done. split; [done|]. split; [done|].
      unfold within. cbn in *. lia.
    + eapply Forall_impl; [exact fd_coming0|]. intros [err|b]; [done|]. cbn. rewrite Hcs. intros [? ?]. auto.
    + intros i. rewrite Hcs. apply fd_segs0.
    + rewrite Hcs. apply fd_iter0.
    + rewrite Hcs. apply fd_move0.
  - unfold stream. rewrite Hwl, Hco.
    assert (Hrest : next_bytes w' <$> coming w = next_bytes w <$> coming w).
    { apply list_fmap_ext. intros i x Hx. pose proof (fd_coming _ F) as Hf.
      eapply Forall_lookup in Hf; [|exact Hx]. destruct x as [err|b]; [done|]. destruct Hf as [(HSp & _) _].
      cbn. unfold seg_bytes. by rewrite HS. }
    rewrite Hrest. destruct (Z.eqb_spec (cs_len (cs w)) 0) as [E|E].
    + replace n with 0 by lia. done.
    + rewrite drop_app_le; [done|]. unfold window_bytes. zcases; [done|].
      destruct (part_bytes _ _ (fd_window _ F ltac:(lia))) as (l & _ & -> & Hlen). cbn in Hlen. lia.
  - split; rewrite ?Hco, ?Xa, ?Xb; try done; try (by rewrite Hcs).
    + intros p Hp. apply Hm2. by intros ->.
    + intros p. destruct (decide (p = v)) as [->|Hp]; [|by rewrite Hm2].
      rewrite Hm1, Hm. cbn. f_equal. apply put_at_length. unfold within. rewrite length_take. lia.
    + intros _ p. unfold owned, pin. by rewrite Xr, Hcs.
    + intros []. split; rewrite ?Xc, ?Xd, ?Xe, ?Hcs; done.
Qed.
End Stream.
