(* ===== verification/KCopyFacts.v ===== *)
(** * Copying an answer (proofs about KCopy)

    Objects and pages of a request get the bytes of the stream in order. *)
From S2P Require Import Prelude KTypes KForget KQueue KCopy KStream.
#[local] Open Scope Z_scope.

#[local] Abbreviation L := (M world).
Implicit Types (w : world) (p q : Z) (b : seg) (l m : list Z).

Section Answer.
Context (S : Z -> Prop).
#[local] Abbreviation feeds := (feeds S).
#[local] Abbreviation takes := (takes S).
#[local] Abbreviation took := (took S).

Lemma stream_coming w : cs_len (cs w) = 0 -> (0 < length (stream w))%nat -> coming w <> [].
Proof. intros Hl H Hc. unfold stream, window_bytes in H. rewrite Hl, Hc in H. cbn in H. lia. Qed.

(** The window is filled when it is empty. *)
Lemma refill_runs w : feeds w -> (0 < length (stream w))%nat ->
  runs (if cs_len (cs w) =? 0 then fuse_copy_fill else mret 0) w (fun err w' => err <= 0 /\
    spares nothing nothing w w' /\ ap w' = ap w /\ (clean w -> err = 0) /\
    (err = 0 -> feeds w' /\ stream w' = stream w /\
      ((length (coming w') < length (coming w))%nat \/ (0 < cs_len (cs w') /\ (length (coming w') <= length (coming w))%nat)))).
Proof.
  intros F H. destruct (Z.eqb_spec (cs_len (cs w)) 0) as [E|E].
  - eapply runs_mono; [apply (fuse_copy_fill_runs S w F E (stream_coming _ E H))|]. intros err w' (? & ? & ? & ? & Hok). split_and!; try done.
    intros Hz. destruct (Hok Hz) as (? & ? & ?). split_and!; try done. by left.
  - apply runs_ret. split; [lia|]. split; [apply spares_refl|]. split_and!; try done. intros _. split_and!; try done.
    right. split; [|lia]. pose proof (fd_len _ _ F). lia.
Qed.

Lemma put_more o k l m : 0 <= o -> 0 <= k <= Z.of_nat (length l) -> o + Z.of_nat (length l) <= Z.of_nat (length m) ->
  put_at (o + k) (drop (Z.to_nat k) l) (put_at o (take (Z.to_nat k) l) m) = put_at o l m.
Proof.
  intros Ho Hk Hb. rewrite <- (take_drop (Z.to_nat k) l) at 3.
  rewrite <- put_at_app by (unfold within; rewrite length_take, length_drop; lia).
  rewrite length_take. repeat f_equal. lia.
Qed.

Lemma took_error D I n w Q err w' : err <> 0 -> err <= 0 -> spares D I w w' -> (clean w -> err = 0) -> took D I n w Q err w'.
Proof. intros. by split_and!. Qed.

Lemma takes_after D I a (k n : nat) (c : L Z) w w' Q : spares D I w w' -> stream w' = drop a (stream w) -> n = (a + k)%nat ->
  takes D I k c w' Q -> runs c w' (took D I n w Q).
Proof.
  intros S1 E1 -> H. eapply runs_mono; [exact H|]. intros err w2 (He & S2 & C2 & Q2).
  split; [done|]. split; [by eapply spares_trans|]. split; [intros C; apply C2, S1, C|].
  intros Hz. destruct (Q2 Hz) as (F2 & E2 & HQ). split_and!; try done. by rewrite E2, E1, drop_drop.
Qed.

Lemma takes_mono D D' I I' n (c : L Z) w (Q Q' : world -> Prop) : (forall p, D p -> D' p) -> (forall i, I i -> I' i) ->
  (forall w', spares D I w w' -> Q w' -> Q' w') -> takes D I n c w Q -> takes D' I' n c w Q'.
Proof.
  intros HD HI HQ H. eapply runs_mono; [exact H|]. intros err w' (He & S1 & C1 & Q1).
  split; [done|]. split; [by eapply spares_mono|]. split; [done|]. intros Hz. destruct (Q1 Hz) as (? & ? & ?). auto.
Qed.

(** What is left to copy after a turn that copied [n] bytes to [v]. *)
Lemma turn_left w v o m size : feeds w -> ~ S v -> mem w !! v = Some m -> within o size m ->
  size <= Z.of_nat (length (stream w)) ->
  let n := Z.min size (cs_len (cs w)) in
  exists w', fuse_copy_do (Some (v, o)) size w = Ok (n, Some (v, o + n), size - n, w') /\
    0 <= n <= size /\ feeds w' /\ stream w' = drop (Z.to_nat n) (stream w) /\ spares (eq v) nothing w w' /\ ap w' = ap w /\
    coming w' = coming w /\ exists m', mem w' !! v = Some m' /\ within (o + n) (size - n) m' /\
    put_at (o + n) (take (Z.to_nat (size - n)) (stream w')) m' = put_at o (take (Z.to_nat size) (stream w)) m.
Proof.
  intros F Hv Hm Hw Hs n. exists (copied_to w v o n). pose proof (fd_len _ _ F) as Hl.
  destruct (copied_to_runs S w v o m size F Hv Hm Hw) as (F1 & E1 & S1 & A1 & C1). fold n in F1, E1, S1, A1, C1.
  destruct Hw as (Ho & Hsz & Hb).
  assert (Hn : 0 <= n <= size) by lia.
  assert (Ht : Z.of_nat (length (take (Z.to_nat n) (stream w))) = n) by (rewrite length_take; lia).
  split; [by apply (copy_do_Ok S w v o m size F Hm)|]. do 6 (split; [done|]).
  exists (put_at o (take (Z.to_nat n) (stream w)) m). split; [by apply copied_to_mem|].
  split.
  - unfold within. rewrite put_at_length by (unfold within; lia). lia.
  - rewrite E1. rewrite <- (put_more o n (take (Z.to_nat size) (stream w)) m); [|rewrite ?length_take; lia..].
    rewrite take_take, Nat.min_l by lia. f_equal.
    replace (Z.to_nat size) with (Z.to_nat n + Z.to_nat (size - n))%nat by lia.
    by rewrite take_drop_commute.
Qed.

Lemma copy_one_loop_runs fuel : forall w v o m size, feeds w -> ~ S v -> mem w !! v = Some m -> within o size m ->
  size <= Z.of_nat (length (stream w)) -> (Z.to_nat size + length (coming w) < fuel)%nat ->
  takes (eq v) nothing (Z.to_nat size) (copy_one_loop fuel (v, o) size) w (fun w' =>
    mem w' !! v = Some (put_at o (take (Z.to_nat size) (stream w)) m) /\ ap w' = ap w).
Proof.
  induction fuel as [|fuel IH]; intros w v o m size F Hv Hm Hw Hs Hf; [lia|]. cbn [copy_one_loop].
  destruct Hw as (Ho & Hsz & Hb).
  destruct (Z.eqb_spec size 0) as [->|Hne].
  { apply runs_ret. split; [lia|]. split; [apply spares_refl|]. split; [done|]. intros _. split_and!; try done.
    cbn. by rewrite put_at_nil. }
  eapply runs_Ok_bind; [done|].
  eapply runs_bind; [apply (refill_runs w F); lia|]. intros err w1 (He & S1 & A1 & C1 & Hok).
  assert (S1' : spares (eq v) nothing w w1) by (by eapply spares_mono; [..|exact S1]).
  destruct (Z.eqb_spec err 0) as [->|Hn]; cbn [negb]; [|apply runs_ret, took_error; done].
  destruct (Hok eq_refl) as (F1 & E1 & L1). rewrite <- E1 in Hs.
  assert (Hm1 : mem w1 !! v = Some m) by (rewrite (sp_mem _ _ _ _ S1); [done|intros [] ]).
  destruct (turn_left w1 v o m size F1 Hv Hm1 ltac:(done) Hs) as (w2 & Hdo & Hn & F2 & E2 & S2 & A2 & L2 & m2 & Hm2 & Hw2 & P2).
  set (n := Z.min size (cs_len (cs w1))) in *. eapply runs_Ok_bind; [exact Hdo|]. cbn [default from_option id].
  assert (T : takes (eq v) nothing (Z.to_nat (size - n)) (copy_one_loop fuel (v, o + n) (size - n)) w2 (fun w' =>
    mem w' !! v = Some (put_at o (take (Z.to_nat size) (stream w)) m) /\ ap w' = ap w)).
  { rewrite <- E1, <- P2, <- A1, <- A2. apply (IH w2 v (o + n) m2); try done; [rewrite E2, length_drop; lia|].
    rewrite L2. lia. }
  apply (takes_after _ _ (Z.to_nat n) (Z.to_nat (size - n)) _ _ w w2 _); [|by rewrite E2, E1|lia|exact T].
  by eapply spares_trans.
Qed.

(** ** Moving a page *)
(** Page [i] of the request is now a page of the daemon, with the next bytes. *)
Definition replaced i w w' : Prop :=
  feeds w' /\ stream w' = drop (Z.to_nat PAGE_SIZE) (stream w) /\
  exists q m, pages (ap w') = <[i := q]> (pages (ap w)) /\ S q /\ mem w' !! q = Some m /\
    m = take (Z.to_nat PAGE_SIZE) (stream w) /\ Z.of_nat (length m) = PAGE_SIZE.

Lemma part_whole w b : part S w b -> sg_len b = PAGE_SIZE ->
  mem w !! sg_page b = Some (seg_bytes w b) /\ Z.of_nat (length (seg_bytes w b)) = PAGE_SIZE.
Proof.
  intros (_ & _ & m & Hm & Hlen & Hw) Hl. unfold seg_bytes. rewrite Hm. cbn [mbind option_bind].
  rewrite (slice_within _ _ _ Hw). destruct Hw as (? & ? & ?). rewrite Hl. cbn [from_option id].
  replace (sg_off b) with 0 by lia. rewrite drop_0, take_ge by lia. by rewrite Hlen.
Qed.

(** The state in which the next buffer of the pipe was taken, but not looked into. *)
Definition peeked j b w : world :=
  set_cs (set_nr_segs (nr_segs (cs w) - 1) (set_pipebufs (Some (Datatypes.S j))
    (set_cs_len (sg_len b) (set_currbuf (Some j) (cs w))))) w.

Lemma move_fallback_runs w j b : feeds w -> cs_len (cs w) = 0 -> pipebufs (cs w) = Some j ->
  coming w = inr b :: (inr <$> drop (Datatypes.S j) (bufs w)) ->
  runs (move_fallback b) (peeked j b w) (fun err w' => err <= 1 /\ err <> 0 /\ spares nothing nothing w w' /\ ap w' = ap w /\
    (clean w -> err = 1) /\
    (err = 1 -> feeds w' /\ stream w' = stream w /\ (length (coming w') < length (coming w))%nat)).
Proof.
  intros F Hl Hj Hc. unfold move_fallback. eapply runs_Ok_bind; [done|]. cbv beta.
  set (w1 := set_cs _ _).
  assert (A : advances w w1 b).
  { split; try done.
    - by destruct b.
    - cbn. by rewrite Hj.
    - intros i [= <-]. cbn [bufs w1 set_cs peeked]. pose proof (fd_segs _ _ F _ Hj) as Hn.
      assert (Hd : length (coming w) = length (drop j (bufs w))) by (unfold coming; by rewrite Hj, length_fmap).
      rewrite Hc in Hd. cbn [length] in Hd. rewrite length_fmap in Hd. cbn. lia.
    - apply F. }
  destruct (advances_feeds S w w1 b F Hl A) as (F1 & E1 & L1).
  assert (S1 : spares nothing nothing w w1).
  { split; try done.
    - cbn. by rewrite Hj.
    - apply Nat.lt_le_incl. exact L1.
    - intros Hno. by rewrite Hj in Hno.
    - intros Hno. by rewrite Hj in Hno.
    - intros []. by split. }
  eapply runs_bind; [by apply set_lock_runs|]. intros err w2 (He & S2 & C2 & F2 & E2 & Hcs & Hm & Ha).
  apply runs_ret. split; [zcases; lia|]. split; [zcases; lia|]. split; [by eapply spares_trans|]. split; [by rewrite Ha|].
  split; [intros C; by rewrite (C2 (sp_clean _ _ _ _ S1 C))|]. intros _. split; [done|]. split; [congruence|].
  pose proof (sp_coming _ _ _ _ S2). lia.
Qed.

Lemma spares_refs D I w r : pipebufs (cs w) <> None -> spares D I w (set_refs r w).
Proof. intros H. split; try done. intros []. by split. Qed.

(** Page [i] is replaced, and nothing of the buffer is left in the window. *)
Definition swapped i q w : world :=
  set_cs (set_cs_len 0 (cs w)) (set_ap (set_pages (<[i := q]> (pages (ap w))) (ap w)) w).

Lemma swapped_spares D i q w : spares D (eq i) w (swapped i q w).
Proof.
  split; try done.
  - intros k Hk. cbn. by rewrite list_lookup_insert_ne.
  - cbn. by rewrite length_insert.
  - intros []. by split.
Qed.

Lemma swapped_replaced w w2 i j b : feeds w -> cs_len (cs w) = 0 -> pipebufs (cs w) = Some j ->
  coming w = inr b :: (inr <$> drop (Datatypes.S j) (bufs w)) -> sg_len b = PAGE_SIZE ->
  cs w2 = cs (peeked j b w) -> bufs w2 = bufs w -> confirms w2 = confirms w -> mem w2 = mem w -> ap w2 = ap w ->
  forall r, replaced i w (set_refs r (swapped i (sg_page b) w2)).
Proof.
  intros F Hl Hj Hc Hlen Xc Xb Xf Xm Xa r. set (w3 := set_refs r _).
  assert (Hc3 : cs w3 = set_cs_len 0 (cs (peeked j b w))) by (cbn; by rewrite Xc).
  assert (Hco : coming w3 = inr <$> drop (Datatypes.S j) (bufs w)) by (unfold coming; rewrite Hc3; cbn; by rewrite Xb).
  assert (Hm3 : mem w3 = mem w) by done. assert (Hb3 : bufs w3 = bufs w) by done. assert (Hf3 : confirms w3 = confirms w) by done.
  assert (Ha3 : pages (ap w3) = <[i := sg_page b]> (pages (ap w))) by (cbn; by rewrite Xa). clearbody w3.
  pose proof (fd_coming _ _ F) as Hall. rewrite Hc in Hall. apply Forall_cons in Hall as [ [Hb _] Hrest].
  destruct (part_whole w b Hb Hlen) as [Hq Hql].
  assert (Hst : stream w = seg_bytes w b ++ concat (next_bytes w <$> (inr <$> drop (Datatypes.S j) (bufs w)))).
  { unfold stream, window_bytes. by rewrite Hl, Hc. }
  assert (Hnb : forall x, next_bytes w3 x = next_bytes w x) by (intros []; [done|]; cbn; unfold seg_bytes; by rewrite Hm3).
  pose proof (fd_segs _ _ F j Hj) as Hn.
  split; [|split].
  - destruct F. split; rewrite ?Hco, ?Hc3, ?Hb3, ?Hf3; try done.
    + eapply Forall_impl; [exact Hrest|]. intros [err|c]; [done|]. cbn. unfold part. rewrite Hm3, Hc3. intros [? ?]. by split.
    + intros k [= <-]. cbn.
      assert (Hd : length (coming w) = length (drop j (bufs w))) by (unfold coming; by rewrite Hj, length_fmap).
      rewrite Hc in Hd. cbn [length] in Hd. rewrite length_fmap in Hd. lia.
  - rewrite Hst, drop_app_length' by lia. unfold stream, window_bytes. rewrite Hc3, Hco. cbn [cs_len set_cs_len Z.eqb app].
    f_equal. apply list_fmap_ext. intros. apply Hnb.
  - exists (sg_page b), (seg_bytes w b). split; [done|]. split; [apply Hb|]. split; [by rewrite Hm3|].
    split; [by rewrite Hst, take_app_length' by lia|done].
Qed.

Lemma move_page_runs w i j b p : feeds w -> cs_len (cs w) = 0 -> pipebufs (cs w) = Some j ->
  coming w = inr b :: (inr <$> drop (Datatypes.S j) (bufs w)) -> sg_len b = PAGE_SIZE -> pages (ap w) !! i = Some p ->
  runs (move_page i p (sg_page b)) (peeked j b w) (fun err w' => err <= 0 /\ spares nothing (eq i) w w' /\
    (clean w -> err = 0) /\ (err = 0 -> replaced i w w')).
Proof.
  intros F Hl Hj Hc Hlen Hp. unfold move_page.
  eapply runs_Ok_bind; [done|]. eapply runs_Ok_bind; [done|]. set (w1 := set_refs _ _).
  assert (Hb : part S w b) by (pose proof (fd_coming _ _ F) as Hf; rewrite Hc in Hf; by apply Forall_cons in Hf as [ [? _] _]).
  assert (Hl1 : coming w1 = inr <$> drop (Datatypes.S j) (bufs w)) by done.
  assert (S1 : spares nothing (eq i) w w1).
  { split; try done.
    - cbn. by rewrite Hj.
    - rewrite Hl1, Hc. cbn. lia.
    - intros Hno. by rewrite Hj in Hno.
    - intros Hno. by rewrite Hj in Hno.
    - intros []. by split. }
  eapply runs_bind; [apply others_run_runs|]. intros dead w2 (_ & S2 & C2 & Hcs & Hb2 & Hf & Hm & Ha).
  assert (S2' : spares nothing (eq i) w w2).
  { eapply spares_trans; [exact S1|]. by eapply spares_mono; [..|exact S2]. }
  assert (Hp2 : pipebufs (cs w2) <> None) by (rewrite Hcs; done).
  destruct dead.
  - eapply runs_Ok_bind; [done|]. apply runs_ret. split; [unfold ENOENT; lia|].
    split; [eapply spares_trans; [exact S2'|by apply spares_refs]|].
    split; [|done]. intros C. specialize (C2 (sp_clean _ _ _ _ S1 C)). done.
  - assert (Hp3 : pages (ap w2) !! i = Some p) by (by rewrite Ha).
    eapply runs_Ok_bind.
    { unfold store_page, load_page. rewrite (bind_Ok _ _ w2 p w2); [done|].
      rewrite (bind_Ok _ _ w2 w2 w2) by done. by rewrite Hp3. }
    eapply runs_Ok_bind; [done|]. eapply runs_Ok_bind; [done|]. cbv beta. apply runs_ret. split; [lia|].
    set (r := <[_ := _]> _).
    pose proof (swapped_spares nothing i (sg_page b) w2) as S3.
    split; [eapply spares_trans; [exact S2'|] |split; [done|] ].
    + eapply spares_trans; [exact S3|]. exact (spares_refs _ _ (swapped i (sg_page b) w2) r Hp2).
    + intros _. exact (swapped_replaced w w2 i j b F Hl Hj Hc Hlen Hcs Hb2 Hf Hm Ha r).
Qed.

Lemma theft_cases j b w : feeds w -> exists t w', try_steal (peeked j b w) = Ok (t, peeked j b w') /\ cs w' = cs w /\
  bufs w' = bufs w /\ ap w' = ap w /\ spares nothing nothing w w' /\ feeds w' /\ stream w' = stream w.
Proof.
  intros F. exists (default Kept (head (thefts w))), (set_thefts (tail (thefts w)) w).
  do 4 (split; [done|]). split; [|by apply feeds_ext]. split; try done. intros []. by split.
Qed.

(** A page is moved, or is to be copied after all. *)
Definition moved i w err w' : Prop := err <= 1 /\ spares nothing (eq i) w w' /\ (clean w -> 0 <= err) /\
  (err = 0 -> replaced i w w') /\
  (err = 1 -> ap w' = ap w /\ feeds w' /\ stream w' = stream w /\ (length (coming w') < length (coming w))%nat).

Lemma moved_from i w w1 err w' : spares nothing nothing w w1 -> ap w1 = ap w -> stream w1 = stream w ->
  moved i w1 err w' -> moved i w err w'.
Proof.
  intros S1 A1 E1 (He & S2 & C2 & R & K). split; [done|].
  split; [eapply spares_trans; [|exact S2]; by eapply spares_mono; [..|exact S1]|].
  split; [intros C; by apply C2, S1|]. split.
  - intros Hz. destruct (R Hz) as (F' & E' & q & m & H1 & H2 & H3 & H4 & H5). split; [done|]. split; [by rewrite E', E1|].
    exists q, m. rewrite <- A1, <- E1. done.
  - intros Ho. destruct (K Ho) as (H1 & H2 & H3 & H4). split_and!; try done; [congruence..|].
    pose proof (sp_coming _ _ _ _ S1). lia.
Qed.

(** The part of [fuse_try_move_page] after the flags of the request are clear. *)
Definition try_move (p : Z) (i : nat) : L Z :=
  fuse_copy_finish;;
  c ← get_cs;
  j ← derefM (pipebufs c);
  err ← pipe_buf_confirm j;
  if negb (err =? 0) then mret err
  else
    assertM (negb (nr_segs c =? 0));;
    b ← load_buf j;
    modify_cs (fun c => set_nr_segs (nr_segs c - 1) (set_pipebufs (Some (Datatypes.S j))
      (set_cs_len (sg_len b) (set_currbuf (Some j) c))));;
    if negb (sg_len b =? PAGE_SIZE) then move_fallback b
    else
      t ← try_steal;
      match t with
      | Stolen => move_page i p (sg_page b)
      | _ => move_fallback b
      end.

Lemma moved_fallback i w err w' : err <= 1 /\ err <> 0 /\ spares nothing nothing w w' /\ ap w' = ap w /\
    (clean w -> err = 1) /\
    (err = 1 -> feeds w' /\ stream w' = stream w /\ (length (coming w') < length (coming w))%nat) -> moved i w err w'.
Proof.
  intros (He & Hne & S1 & A1 & C1 & K). split; [done|]. split; [by eapply spares_mono; [..|exact S1]|].
  split; [intros C; rewrite (C1 C); lia|]. split; [done|]. intros Ho. by destruct (K Ho) as (? & ? & ?).
Qed.

Lemma try_move_runs w p i : feeds w -> cs_len (cs w) = 0 -> coming w <> [] -> move_pages (cs w) = true ->
  pages (ap w) !! i = Some p -> runs (try_move p i) w (moved i w).
Proof.
  intros F Hl Hne Hmv Hp. unfold try_move. eapply runs_Ok_bind; [apply finish_Ok; left; apply F|].
  destruct (finished_feeds S w F Hl) as [F1 E1]. pose proof (finished_spares w) as S1. set (w1 := finished w) in *.
  assert (A1 : ap w1 = ap w) by done. assert (Hne1 : coming w1 <> []) by exact Hne.
  assert (Hl1 : cs_len (cs w1) = 0) by exact Hl. assert (Hmv1 : move_pages (cs w1) = true) by exact Hmv. clearbody w1.
  eapply runs_mono; [|intros err w'; apply (moved_from i w w1 err w' S1 A1 E1)]. eapply runs_Ok_bind; [done|].
  destruct (pipebufs (cs w1)) as [j|] eqn:Hj; [|pose proof (fd_move _ _ F1 Hj) as H; by rewrite Hmv1 in H].
  eapply runs_Ok_bind; [done|].
  destruct (next_buf S w1 j F1 Hj Hne1) as (b & Hb & Hco & Hn).
  destruct (confirm_Ok S w1 j b F1 Hb) as (e & w2 & Hconf & Hw2 & He & Hc & Hf & S2).
  destruct (feeds_confirmed S w1 F1) as [F2 E2]. rewrite <- Hw2 in F2, E2.
  eapply runs_Ok_bind; [exact Hconf|]. assert (A2 : ap w2 = ap w1) by (by subst w2).
  assert (Hb2 : bufs w2 !! j = Some b) by (by subst w2). assert (Hj2 : pipebufs (cs w2) = Some j) by (by subst w2).
  assert (Hco2 : coming w2 = inr b :: (inr <$> drop (Datatypes.S j) (bufs w2))) by (by subst w2).
  assert (Hl2 : cs_len (cs w2) = 0) by (by subst w2). assert (Hn2 : nr_segs (cs w2) = nr_segs (cs w1)) by (by subst w2).
  assert (Hp2 : pages (ap w2) !! i = Some p) by (by rewrite A2, A1). clear Hw2.
  destruct (Z.eqb_spec e 0) as [->|Hne0]; cbn [negb].
  2: { apply runs_ret. split; [lia|]. split; [by eapply spares_mono; [..|exact S2]|].
    split; [intros C; by rewrite (Hc C)|]. split; [done|]. intros ->. lia. }
  eapply runs_mono; [|intros err w'; apply (moved_from i w1 w2 err w' S2 A2 E2)].
  apply runs_assert_bind; [zcases; [lia|done]|].
  eapply (runs_Ok_bind _ _ _ b w2).
  { unfold load_buf. rewrite (bind_Ok _ _ w2 w2 w2) by done. by rewrite Hb2. }
  eapply runs_Ok_bind; [done|]. cbv beta. change (set_cs _ w2) with (peeked j b w2).
  assert (Hfall : runs (move_fallback b) (peeked j b w2) (moved i w2)).
  { eapply runs_mono; [by apply (move_fallback_runs w2 j b)|]. intros err w'. apply moved_fallback. }
  destruct (Z.eqb_spec (sg_len b) PAGE_SIZE) as [Hlen|]; cbn [negb]; [|exact Hfall].
  destruct (theft_cases j b w2 F2) as (t & w3 & Ht & X1 & X2 & X3 & S3 & F3 & E3).
  eapply runs_Ok_bind; [exact Ht|]. eapply runs_mono; [|intros err w'; apply (moved_from i w2 w3 err w' S3 X3 E3)].
  assert (Hco3 : coming w3 = inr b :: (inr <$> drop (Datatypes.S j) (bufs w3))).
  { rewrite X2, <- Hco2. unfold coming. by rewrite X1, X2. }
  rewrite <- X1 in Hj2, Hl2. rewrite <- X3 in Hp2. clear Hfall.
  assert (Hfall : runs (move_fallback b) (peeked j b w3) (moved i w3)).
  { eapply runs_mono; [by apply (move_fallback_runs w3 j b)|]. intros err w'. apply moved_fallback. }
  destruct t; [exact Hfall..|].
  eapply runs_mono; [by apply (move_page_runs w3 i j b p)|]. intros err w' (He' & S' & C' & R').
  split; [lia|]. split; [done|]. split; [intros C; by rewrite (C' C)|]. split; [done|]. intros ->. lia.
Qed.

Lemma moved_refs i w err w' r : pipebufs (cs w') <> None -> moved i w err w' -> moved i w err (set_refs r w').
Proof.
  intros Hp (He & S1 & C1 & R & K). split; [done|].
  split; [eapply spares_trans; [exact S1|by apply spares_refs]|]. split; [done|]. split; intros Hz.
  - destruct (R Hz) as (F' & E' & q & m & H). destruct (feeds_ext S w' (set_refs r w')) as [F2 E2]; [done..|].
    split; [done|]. split; [by rewrite E2|]. by exists q, m.
  - destruct (K Hz) as (H1 & F' & H2 & H3). destruct (feeds_ext S w' (set_refs r w')) as [F2 E2]; [done..|].
    split; [done|]. split; [done|]. by split; [rewrite E2|].
Qed.

Lemma fuse_try_move_page_runs w p i : feeds w -> cs_len (cs w) = 0 -> coming w <> [] -> move_pages (cs w) = true ->
  pages (ap w) !! i = Some p -> runs (fuse_try_move_page i) w (moved i w).
Proof.
  intros F Hl Hne Hmv Hp. unfold fuse_try_move_page.
  assert (Hpipe : pipebufs (cs w) <> None) by (intros H; pose proof (fd_move _ _ F H) as Hm; by rewrite Hmv in Hm).
  eapply (runs_Ok_bind _ _ _ p w).
  { unfold load_page. rewrite (bind_Ok _ _ w w w) by done. by rewrite Hp. }
  eapply runs_Ok_bind; [done|]. set (r := <[_ := _]> _). set (w1 := set_refs r w).
  destruct (feeds_ext S w w1) as [F1 E1]; [done..|].
  pose proof (spares_refs nothing nothing w r Hpipe) as S1. fold w1 in S1.
  eapply runs_mono; [|intros err w'; by apply (moved_from i w w1 err w' S1)].
  eapply runs_bind; [by apply set_lock_runs|]. intros err w2 (He & S2 & C2 & F2 & E2 & X2 & M2 & A2).
  eapply (runs_bind _ _ _ (moved i w1)).
  - destruct (Z.eqb_spec err 0) as [->|Hn]; cbn [negb].
    + fold (try_move p i). eapply runs_mono; [|intros e w'; by apply (moved_from i w1 w2 e w' S2)].
      apply try_move_runs; [done|by rewrite X2| |by rewrite X2|by rewrite A2].
      unfold coming. rewrite X2, (sp_bufs _ _ _ _ S2). exact Hne.
    + apply runs_ret. split; [lia|]. split; [by eapply spares_mono; [..|exact S2]|].
      split; [intros C; by rewrite (C2 C)|]. split; [done|]. intros ->. lia.
  - intros e w3 H3. eapply runs_Ok_bind; [done|]. apply runs_ret, moved_refs; [|done].
    destruct H3 as (_ & S3 & _). rewrite (sp_pipe _ _ _ _ S3). exact Hpipe.
Qed.

(** ** Copying a page *)
(** Page [i] has the content [m], in the object that was there or in one of the daemon. *)
Definition page_holds i p m w w' : Prop :=
  exists q, pages (ap w') = <[i := q]> (pages (ap w)) /\ (q = p \/ S q) /\ mem w' !! q = Some m.

Lemma spares_ap D I w w' : spares D I w w' -> ap w' = ap w -> spares D nothing w w'.
Proof. intros H A. destruct H. split; try done. intros k _. by rewrite A. Qed.

Definition filled i count w o w' : Prop :=
  match o with
  | Some err => err <= 0 /\ spares nothing (eq i) w w' /\ (clean w -> err = 0) /\
      (err = 0 -> count = PAGE_SIZE /\ replaced i w w')
  | None => spares nothing nothing w w' /\ ap w' = ap w /\ feeds w' /\ stream w' = stream w /\
      ((length (coming w') < length (coming w))%nat \/ (0 < cs_len (cs w') /\ (length (coming w') <= length (coming w))%nat))
  end.

Lemma copy_page_fill_runs i p offset count w : feeds w -> p <> 0 -> pages (ap w) !! i = Some p -> (0 < length (stream w))%nat ->
  runs (copy_page_fill i p offset count) w (fun o w' => filled i count w o w' /\ (forall err, o = Some err -> err = 0 -> offset = 0)).
Proof.
  intros F Hp Hi Hs. unfold copy_page_fill. eapply runs_Ok_bind; [done|]. apply runs_get_bind.
  rewrite (fd_write _ _ F). cbn [andb].
  destruct (Z.eqb_spec (cs_len (cs w)) 0) as [Hl|Hl].
  2: { apply runs_ret. split; [|done]. split; [apply spares_refl|]. split_and!; try done. right. pose proof (fd_len _ _ F). lia. }
  pose proof (stream_coming w Hl Hs) as Hne.
  destruct (move_pages (cs w) && _ && _ && _) eqn:Hmv.
  - apply andb_true_iff in Hmv as [ [ [Hmv _]%andb_true_iff Ho]%andb_true_iff Hc]. apply Z.eqb_eq in Ho, Hc.
    eapply runs_bind; [by apply (fuse_try_move_page_runs w p i)|]. intros err w' (He & S1 & C1 & R1 & K1). apply runs_ret.
    split; [|by intros]. destruct (Z.leb_spec err 0) as [Hle|Hgt].
    + split; [done|]. split; [done|]. split; [intros C; specialize (C1 C); lia|]. auto.
    + assert (Hone : err = 1) by lia. destruct (K1 Hone) as (A' & F' & E' & L').
      split; [by eapply spares_ap|]. split_and!; try done. by left.
  - eapply runs_bind; [by apply (fuse_copy_fill_runs S w F Hl)|]. intros err w' (He & S1 & A1 & C1 & Hok). apply runs_ret.
    destruct (Z.eqb_spec err 0) as [->|Hn].
    + split; [|done]. destruct (Hok eq_refl) as (F' & E' & L'). split; [done|]. split_and!; try done. by left.
    + split; [|by intros ? [= <-] ->]. split; [done|]. split; [by eapply spares_mono; [..|exact S1]|]. by split.
Qed.

Lemma page_holds_put i p m w : pages (ap w) !! i = Some p -> mem w !! p = Some m -> page_holds i p m w w.
Proof. intros Hi Hm. exists p. rewrite list_insert_id by done. split; [done|]. split; [by left|done]. Qed.

Lemma copy_page_loop_runs fuel : forall w i p offset count m, feeds w -> p <> 0 -> ~ S p -> pages (ap w) !! i = Some p ->
  mem w !! p = Some m -> Z.of_nat (length m) = PAGE_SIZE -> within offset count m -> count <= Z.of_nat (length (stream w)) ->
  (Z.to_nat count + length (coming w) < fuel)%nat ->
  takes (eq p) (eq i) (Z.to_nat count) (copy_page_loop fuel i p offset count) w
    (page_holds i p (put_at offset (take (Z.to_nat count) (stream w)) m) w).
Proof.
  induction fuel as [|fuel IH]; intros w i p offset count m F Hp HS Hi Hm Hlen Hw Hs Hf; [lia|]. cbn [copy_page_loop].
  pose proof Hw as (Ho & Hsz & Hb).
  destruct (Z.eqb_spec count 0) as [->|Hne].
  { apply runs_ret. split; [lia|]. split; [apply spares_refl|]. split; [done|]. intros _. split_and!; try done.
    cbn. rewrite put_at_nil by done. by apply page_holds_put. }
  eapply runs_bind; [apply (copy_page_fill_runs i p offset count w F Hp Hi); lia|]. intros o w1 [Hfill Hoff].
  destruct o as [err|]; cbn [filled] in Hfill.
  - destruct Hfill as (He & S1 & C1 & R1). apply runs_ret. split; [done|].
    split; [by eapply spares_mono; [..|exact S1]|]. split; [done|]. intros Hz.
    destruct (R1 Hz) as (-> & F1 & E1 & q & mq & H1 & H2 & H3 & H4 & H5). split; [done|]. split; [done|].
    exists q. split; [done|]. split; [by right|]. rewrite H3, <- H4. f_equal.
    rewrite (Hoff err eq_refl Hz). unfold put_at. rewrite drop_ge by lia. cbn. by rewrite app_nil_r.
  - destruct Hfill as (S1 & A1 & F1 & E1 & L1). rewrite <- E1 in Hs.
    assert (Hm1 : mem w1 !! p = Some m) by (rewrite (sp_mem _ _ _ _ S1); [done|intros []]).
    assert (S1' : spares (eq p) (eq i) w w1) by (by eapply spares_mono; [..|exact S1]).
    destruct (turn_left w1 p offset m count F1 HS Hm1 Hw Hs) as (w2 & Hdo & Hn & F2 & E2 & S2 & A2 & L2 & m2 & Hm2 & Hw2 & P2).
    set (n := Z.min count (cs_len (cs w1))) in *. rewrite (proj2 (Z.eqb_neq p 0) Hp). eapply runs_Ok_bind; [exact Hdo|].
    assert (S2' : spares (eq p) (eq i) w1 w2) by (by eapply spares_mono; [..|exact S2]).
    assert (Hlen2 : Z.of_nat (length m2) = PAGE_SIZE).
    { pose proof (sp_sizes _ _ _ _ S2 p) as Hz. rewrite Hm2, Hm1 in Hz. injection Hz as Hz. by rewrite Hz. }
    assert (T : takes (eq p) (eq i) (Z.to_nat (count - n)) (copy_page_loop fuel i p (offset + n) (count - n)) w2
      (page_holds i p (put_at offset (take (Z.to_nat count) (stream w)) m) w)).
    { unfold page_holds. rewrite <- E1, <- P2, <- A1, <- A2. apply (IH w2 i p (offset + n) (count - n) m2); try done;
        [by rewrite A2, A1|rewrite E2, length_drop; lia|rewrite L2; lia]. }
    apply (takes_after _ _ (Z.to_nat n) (Z.to_nat (count - n)) _ _ w w2 _); [|by rewrite E2, E1|lia|exact T].
    by eapply spares_trans.
Qed.

(** [fuse_copy_page] takes [count] bytes for page [i]; a page that gets fewer bytes than
    it has is cleared first when [zeroing] is asked for. *)
Definition cleared (zeroing : bool) count m : list Z :=
  if zeroing && (count <? PAGE_SIZE) then replicate (Z.to_nat PAGE_SIZE) 0 else m.

Lemma copy_fuel_enough size w : (Z.to_nat size + length (coming w) < copy_fuel size w)%nat.
Proof.
  unfold copy_fuel, coming. destruct (pipebufs (cs w)); [rewrite length_fmap, length_drop|]; lia.
Qed.

Lemma put_whole l m : length l = length m -> put_at 0 l m = l.
Proof. intros H. unfold put_at. cbn. rewrite drop_ge by lia. apply app_nil_r. Qed.

(** The page is cleared. *)
Lemma clear_runs w p m zeroing count : feeds w -> ~ S p -> p <> 0 -> mem w !! p = Some m -> Z.of_nat (length m) = PAGE_SIZE ->
  runs (if negb (p =? 0) && zeroing && (count <? PAGE_SIZE)
        then store_mem (p, 0) (replicate (Z.to_nat PAGE_SIZE) 0) else mret tt) w (fun _ w' =>
    feeds w' /\ stream w' = stream w /\ spares (eq p) nothing w w' /\ ap w' = ap w /\
    mem w' !! p = Some (cleared zeroing count m) /\ Z.of_nat (length (cleared zeroing count m)) = PAGE_SIZE).
Proof.
  intros F HS Hp Hm Hlen. rewrite (proj2 (Z.eqb_neq p 0) Hp). cbn [negb andb]. unfold cleared.
  destruct (zeroing && (count <? PAGE_SIZE)).
  2: { apply runs_ret. do 2 (split; [done|]). split; [apply spares_refl|done]. }
  set (z := replicate (Z.to_nat PAGE_SIZE) 0).
  assert (Hz : length z = length m) by (unfold z; rewrite length_replicate; lia).
  unfold store_mem. rewrite bool_decide_eq_false_2 by (intros E; rewrite E in Hz; cbn in Hz; unfold PAGE_SIZE in Hlen; lia).
  apply runs_get_bind. cbn [fst snd]. eapply runs_deref_bind; [exact Hm|].
  eapply runs_deref_bind; [apply splice_within; unfold within; lia|]. rewrite put_whole by done.
  exists tt. eexists. split; [done|]. cbv beta. set (w1 := set_mem _ w).
  assert (Hm1 : forall q, q <> p -> mem w1 !! q = mem w !! q) by (intros q Hq; by apply lookup_insert_ne).
  destruct (feeds_ext S w w1) as [F1 E1]; [done..|intros q Hq; apply Hm1; by intros ->|done|].
  split; [done|]. split; [done|]. split; [|split; [done|split; [apply lookup_insert_eq|lia] ] ].
  split; try done; [intros q Hq; apply Hm1; by intros ->|intros q|intros []; by split].
  destruct (decide (q = p)) as [->|Hq]; [|by rewrite Hm1]. unfold w1. cbn. rewrite lookup_insert_eq, Hm. cbn. by rewrite Hz.
Qed.

Lemma fuse_copy_page_runs w i p offset count zeroing m : feeds w -> p <> 0 -> ~ S p -> pages (ap w) !! i = Some p ->
  mem w !! p = Some m -> Z.of_nat (length m) = PAGE_SIZE -> within offset count m -> count <= Z.of_nat (length (stream w)) ->
  takes (eq p) (eq i) (Z.to_nat count) (fuse_copy_page i offset count zeroing) w
    (page_holds i p (put_at offset (take (Z.to_nat count) (stream w)) (cleared zeroing count m)) w).
Proof.
  intros F Hp HS Hi Hm Hlen Hw Hs. unfold fuse_copy_page.
  eapply (runs_Ok_bind _ _ _ p w).
  { unfold load_page. rewrite (bind_Ok _ _ w w w) by done. by rewrite Hi. }
  eapply runs_bind; [by apply clear_runs|]. intros [] w1 (F1 & E1 & S1 & A1 & Hm1 & Hlen1). cbn beta. apply runs_get_bind.
  apply (takes_after _ _ 0 (Z.to_nat count) _ _ w w1 _); [by eapply spares_mono; [..|exact S1]|by rewrite E1|done|].
  unfold page_holds. rewrite <- E1, <- A1. destruct Hw as (? & ? & ?).
  apply copy_page_loop_runs; try done; [by rewrite A1|unfold within; lia|by rewrite E1|apply copy_fuel_enough].
Qed.
End Answer.
