(* ===== verification/KPages.v ===== *)
(** * The pages and arguments of an answer (proofs about KCopy) *)
From S2P Require Import Prelude KTypes KForget KQueue KCopy KStream KCopyFacts.
#[local] Open Scope Z_scope.

#[local] Abbreviation L := (M world).
Implicit Types (w : world) (p q : Z) (b : seg) (l m : list Z).

(** What pages hold after [data] was copied to them: each gets as much as it has room
    for, at its offset. *)
Fixpoint layout (zeroing : bool) (data : list Z) (ds : list (Z * Z)) (ms : list (list Z)) : list (list Z) :=
  match ds, ms with
  | (len, off) :: ds, m :: ms =>
    let l := take (Z.to_nat len) data in
    put_at off l (cleared zeroing (Z.of_nat (length l)) m) :: layout zeroing (drop (Z.to_nat len) data) ds ms
  | _, _ => []
  end.
Definition room_of (ds : list (Z * Z)) : Z := foldr (fun d n => d.1 + n) 0 ds.

(** [last_bytes] of [fuse_copy_pages]. *)
Fixpoint bytes_for_last (zeroing : bool) (nbytes : Z) (ds : list (Z * Z)) (last_bytes : Z) : Z :=
  match ds with
  | [] => last_bytes
  | (len, _) :: ds =>
    if negb (nbytes =? 0) || zeroing then
      bytes_for_last zeroing (nbytes - Z.min nbytes len) ds (if bool_decide (ds = []) then nbytes else last_bytes)
    else last_bytes
  end.

Definition holds w (ps : list Z) (ms : list (list Z)) : Prop := Forall2 (fun p m => mem w !! p = Some m) ps ms.

Section Pages.
Context (S : Z -> Prop).
#[local] Abbreviation feeds := (feeds S).
#[local] Abbreviation takes := (takes S).
#[local] Abbreviation took := (took S).

(** A page of the request, with its part and its content. *)
Definition page_ok w p (d : Z * Z) m : Prop :=
  p <> 0 /\ ~ S p /\ mem w !! p = Some m /\ Z.of_nat (length m) = PAGE_SIZE /\ within d.2 d.1 m.

Record pages_ok w ps (ds : list (Z * Z)) ms : Prop := mk_pages_ok {
  po_pages : Forall3 (page_ok w) ps ds ms;
  po_nodup : NoDup ps;
}.

Lemma page_ok_spares D I w w' p d m : spares D I w w' -> ~ D p -> page_ok w p d m -> page_ok w' p d m.
Proof. intros H HD (? & ? & ? & ?). split; [done|]. split; [done|]. split; [by rewrite (sp_mem _ _ _ _ H)|done]. Qed.

(** Where pages may end up: the page itself, or one of the daemon. *)
Definition home p q : Prop := q = p \/ S q.

Definition copied_pages w zeroing (data : list Z) qs0 ps ds ms w' : Prop :=
  exists qs, pages (ap w') = qs0 ++ qs /\ Forall2 home ps qs /\ holds w' qs (layout zeroing data ds ms).

Lemma load_desc_Ok w i d : descs (ap w) !! i = Some d -> load_desc (Z.of_nat i) w = Ok (d, w).
Proof.
  intros H. unfold load_desc. rewrite (bind_Ok _ _ w w w) by done.
  rewrite (proj2 (Z.leb_le 0 (Z.of_nat i))) by lia. rewrite (bind_Ok _ _ w tt w) by done. by rewrite Nat2Z.id, H.
Qed.

Lemma room_pos w ps ds ms : Forall3 (page_ok w) ps ds ms -> 0 <= room_of ds.
Proof.
  intros H. induction H as [|p d m ps ds ms (_ & _ & _ & _ & _ & ? & _) _ IH]; [done|]. unfold room_of in *. cbn [foldr]. lia.
Qed.

Lemma layout_none w ps ds ms : Forall3 (page_ok w) ps ds ms -> layout false [] ds ms = ms.
Proof.
  intros H. induction H as [|p [len off] m ps ds ms (_ & _ & _ & _ & ? & _) _ IH]; [done|]. cbn [layout].
  rewrite take_nil, drop_nil, IH. unfold cleared. cbn [andb]. by rewrite put_at_nil.
Qed.

Lemma pages_hold w ps ds ms : Forall3 (page_ok w) ps ds ms -> holds w ps ms.
Proof. intros H. induction H as [|p d m ps ds ms (_ & _ & ? & _) _ IH]; by constructor. Qed.

Lemma pages_ok_spares D I w w' ps ds ms : spares D I w w' -> (forall p, p ∈ ps -> ~ D p) ->
  Forall3 (page_ok w) ps ds ms -> Forall3 (page_ok w') ps ds ms.
Proof.
  intros S1 HD H. induction H as [|p d m ps ds ms Hp _ IH]; constructor.
  - eapply page_ok_spares; [exact S1|apply HD; by left|done].
  - apply IH. intros q Hq. apply HD. by right.
Qed.

Lemma not_source w ps ds ms p : Forall3 (page_ok w) ps ds ms -> p ∈ ps -> ~ S p.
Proof.
  intros H. induction H as [|p' d m ps ds ms (_ & ? & _) _ IH]; [by intros ?%elem_of_nil|].
  intros [->|Hin]%elem_of_cons; auto.
Qed.

Lemma home_refl ps : Forall2 home ps ps.
Proof. induction ps; constructor; [by left|done]. Qed.

Lemma pages_loop_runs zeroing : forall ps ds ms w qs0 ds0 nbytes lb, feeds w ->
  pages (ap w) = qs0 ++ ps -> descs (ap w) = ds0 ++ ds -> length ds0 = length qs0 ->
  pages_ok w ps ds ms -> 0 <= nbytes <= Z.of_nat (length (stream w)) ->
  runs (copy_pages_loop (length ps) (length qs0) nbytes zeroing lb) w (fun r w' =>
    took (.∈ ps) (fun i => length qs0 <= i)%nat (Z.to_nat (Z.min nbytes (room_of ds))) w
      (copied_pages w zeroing (take (Z.to_nat nbytes) (stream w)) qs0 ps ds ms) r.1 w' /\
    (r.1 = 0 -> r.2 = bytes_for_last zeroing nbytes ds lb)).
Proof.
  intros ps. induction ps as [|p ps IH]; intros ds ms w qs0 ds0 nbytes lb F Hp Hd Hl [Hok Hnd] Hn; inversion Hok as [|p' d m ps' ds1 ms1 Hpage Hrest]; subst.
  - apply runs_ret. split; [|done]. split; [done|]. split; [apply spares_refl|]. split; [done|]. intros _.
    split; [done|]. split; [by rewrite Z.min_r by (cbn; lia)|]. exists []. split; [done|]. split; constructor.
  - destruct d as [len off]. pose proof Hpage as (Hp0 & HS & Hm & Hlen & Hw). cbn [fst snd] in Hw. pose proof Hw as (Ho & Hl0 & Hb).
    pose proof (room_pos w ps ds1 ms1 Hrest) as Hr. cbn [length copy_pages_loop room_of foldr bytes_for_last fst].
    fold (room_of ds1). destruct (negb (nbytes =? 0) || zeroing) eqn:Hgo.
    2: { apply orb_false_iff in Hgo as [Hz ->]. apply negb_false_iff, Z.eqb_eq in Hz as ->.
      apply runs_ret. split; [|done]. split; [done|]. split; [apply spares_refl|]. split; [done|]. intros _.
      split; [done|]. split; [rewrite Z.min_l by lia; done|]. exists (p :: ps). split; [done|].
      split; [apply home_refl|]. cbn [Z.to_nat take]. rewrite (layout_none w (p :: ps)); [|done]. by apply (pages_hold w _ ((len, off) :: ds1)). }
    eapply runs_Ok_bind.
    { replace (length qs0) with (length ds0) by done. apply load_desc_Ok. rewrite Hd, lookup_app_r, Nat.sub_diag by lia. done. }
    cbn [fst snd]. set (count := Z.min nbytes len).
    eapply runs_bind.
    { apply (fuse_copy_page_runs S w (length qs0) p off count zeroing m); try done.
      - rewrite Hp, lookup_app_r, Nat.sub_diag by lia. done.
      - unfold within. lia.
      - lia. }
    intros err w1 (He & S1 & C1 & H1).
    assert (S1' : spares (.∈ p :: ps) (fun i => length qs0 <= i)%nat w w1).
    { eapply spares_mono; [| |exact S1]; [intros x <-; by left|intros x <-; lia]. }
    destruct (Z.eqb_spec err 0) as [->|Hne]; cbn [negb].
    2: { apply runs_ret. split; [by apply took_error|done]. }
    destruct (H1 eq_refl) as (F1 & E1 & q & Hq1 & Hq2 & Hq3). apply runs_get_bind.
    assert (Hp1 : pages (ap w1) = (qs0 ++ [q]) ++ ps).
    { rewrite Hq1, Hp, insert_app_r_alt, Nat.sub_diag by lia. by rewrite <- app_assoc. }
    assert (Hd1 : descs (ap w1) = (ds0 ++ [(len, off)]) ++ ds1).
    { rewrite <- app_assoc. cbn [app]. rewrite <- Hd. exact (f_equal descs (sp_args _ _ _ _ S1)). }
    apply NoDup_cons in Hnd as [Hnotin Hnd].
    assert (Hok1 : pages_ok w1 ps ds1 ms1).
    { split; [|done]. eapply pages_ok_spares; [exact S1| |done]. by intros x Hx ->. }
    assert (Hlast : (length qs0 =? length (pages (ap w1)) - 1)%nat = bool_decide (ds1 = [])).
    { rewrite Hp1, !length_app. cbn [length]. rewrite (Forall3_length_lm _ _ _ _ Hrest).
      destruct ds1; cbn [length]; [rewrite bool_decide_eq_true_2 by done; apply Nat.eqb_eq; lia|].
      rewrite bool_decide_eq_false_2 by done. apply Nat.eqb_neq. lia. }
    rewrite Hlast.
    assert (Hst : length (stream w1) = (length (stream w) - Z.to_nat count)%nat) by (by rewrite E1, length_drop).
    replace (Datatypes.S (length qs0)) with (length (qs0 ++ [q])) by (rewrite length_app; cbn; lia).
    eapply runs_mono; [apply (IH ds1 ms1 w1 (qs0 ++ [q]) (ds0 ++ [(len, off)])); try done; [rewrite !length_app; cbn; lia|lia]|].
    intros [err lb'] w2 (T2 & Hlb). cbn [fst snd] in *. split; [|exact Hlb].
    destruct T2 as (He2 & S2 & C2 & H2).
    assert (S2' : spares (.∈ p :: ps) (fun i => length qs0 <= i)%nat w1 w2).
    { eapply spares_mono; [| |exact S2]; [intros x Hx; by right|intros x; rewrite length_app; cbn; lia]. }
    split; [done|]. split; [by eapply spares_trans|]. split; [intros C; apply C2, S1, C|].
    intros Hz. destruct (H2 Hz) as (F2 & E2 & qs & Hqs & Hh & Hc). split; [done|].
    split; [rewrite E2, E1, drop_drop; f_equal; lia|].
    exists (q :: qs). rewrite <- app_assoc in Hqs. split; [done|]. split; [by constructor|].
    cbn [layout]. rewrite take_take.
    replace (Z.to_nat len `min` Z.to_nat nbytes)%nat with (Z.to_nat count) by lia.
    replace (Z.of_nat (length (take (Z.to_nat count) (stream w)))) with count by (rewrite length_take; lia).
    constructor.
    + rewrite (sp_mem _ _ _ _ S2); [done|]. destruct Hq2 as [->|HSq]; [done|].
      intros Hin. destruct (not_source w1 ps ds1 ms1 q (po_pages _ _ _ _ Hok1) Hin HSq).
    + rewrite E1 in Hc. assert (Ht : take (Z.to_nat (nbytes - count)) (drop (Z.to_nat count) (stream w)) =
        drop (Z.to_nat len) (take (Z.to_nat nbytes) (stream w))).
      { destruct (decide (nbytes <= len)).
        - replace (nbytes - count) with 0 by lia. cbn [Z.to_nat take]. symmetry. apply drop_ge. rewrite length_take. lia.
        - rewrite take_drop_commute. f_equal; [lia|]. f_equal. lia. }
      by rewrite <- Ht.
Qed.
End Pages.
