(* ===== verification/KSection.v ===== *)
(** * The section of a payload (proofs about KCopy) *)
From S2P Require Import Prelude KTypes KForget KQueue KCopy KStream KCopyFacts KPages.
#[local] Open Scope Z_scope.

#[local] Abbreviation L := (M world).
Implicit Types (w : world) (p q : Z) (b : seg) (l m : list Z).

Lemma set_mem_id w : set_mem (mem w) w = w.
Proof. by destruct w. Qed.

Lemma put_nil off l m : l = [] -> 0 <= off -> put_at off l m = m.
Proof. intros -> H. by apply put_at_nil. Qed.

Lemma memcpy_Ok w dst o_dst src o_src n ms md l : mem w !! src = Some ms -> slice o_src n ms = Some l ->
  mem w !! dst = Some md -> within o_dst n md ->
  memcpy (dst, o_dst) (src, o_src) n w = Ok (tt, set_mem (<[dst := put_at o_dst l md]> (mem w)) w).
Proof.
  intros Hs Hl Hd Hw. apply slice_Some in Hl as Hl'. destruct Hl' as (_ & _ & Hlen). destruct Hw as (Ho & Hn & Hb).
  unfold memcpy. rewrite (bind_Ok _ _ w l w).
  2: { unfold load_mem. destruct (Z.eqb_spec n 0) as [->|Hne].
    - by rewrite (nil_length_inv l) by lia.
    - rewrite (bind_Ok _ _ w w w) by done. cbn [fst snd]. rewrite Hs. rewrite (bind_Ok _ _ w ms w) by done. by rewrite Hl. }
  unfold store_mem. case_bool_decide as Hnil.
  - rewrite put_nil, insert_id by done. by rewrite set_mem_id.
  - rewrite (bind_Ok _ _ w w w) by done. cbn [fst snd]. rewrite Hd. rewrite (bind_Ok _ _ w md w) by done.
    rewrite splice_within by (unfold within; lia). by rewrite (bind_Ok _ _ w (put_at o_dst l md) w).
Qed.

(** What the loop over [n] pages does to the buffer, from page [i] on. *)
Definition gathered (n i header : Z) (head foot m : list Z) : list Z :=
  let m := if i =? 0 then put_at 0 head m else m in
  if i <=? n - 2 then put_at header foot m else m.

Record sectioned w kb (n nbytes : Z) (head foot : list Z) : Prop := mk_sectioned {
  se_pages : n = Z.of_nat (length (pages (ap w))) /\ n = Z.of_nat (length (descs (ap w))) /\ 2 <= n < 2 ^ 32;
  se_objects : forall p, p ∈ pages (ap w) -> p <> kb /\ is_Some (mem w !! p);
  se_head : exists p d m, pages (ap w) !! 0%nat = Some p /\ descs (ap w) !! 0%nat = Some d /\
    mem w !! p = Some m /\ slice d.2 (sc_header (out_h w)) m = Some head;
  se_foot : exists p d m, pages (ap w) !! Z.to_nat (n - 1) = Some p /\ descs (ap w) !! Z.to_nat (n - 1) = Some d /\
    mem w !! p = Some m /\ slice (d.2 + nbytes - sc_footer (out_h w)) (sc_footer (out_h w)) m = Some foot;
}.

Lemma sectioned_mem w kb n nbytes head foot m : sectioned w kb n nbytes head foot ->
  sectioned (set_mem (<[kb := m]> (mem w)) w) kb n nbytes head foot.
Proof.
  intros [H1 H2 (p & d & x & H3 & H4 & H5) (q & e & y & H6 & H7 & H8)].
  assert (Hne : forall p, p ∈ pages (ap w) -> <[kb := m]> (mem w) !! p = mem w !! p).
  { intros r Hr. apply lookup_insert_ne. intros ->. by destruct (H2 r Hr). }
  split; [done|..]; cbn.
  - intros r Hr. rewrite Hne by done. by apply H2.
  - exists p, d, x. rewrite Hne; [done|by eapply list_elem_of_lookup_2].
  - exists q, e, y. rewrite Hne; [done|by eapply list_elem_of_lookup_2].
Qed.

Lemma load_page_Ok w i p : pages (ap w) !! i = Some p -> load_page i w = Ok (p, w).
Proof. intros H. unfold load_page. rewrite (bind_Ok _ _ w w w) by done. by rewrite H. Qed.

Lemma load_desc_Z w i d : 0 <= i -> descs (ap w) !! Z.to_nat i = Some d -> load_desc i w = Ok (d, w).
Proof. intros Hi H. rewrite <- (Z2Nat.id i) by done. by apply load_desc_Ok. Qed.

(** The body of the loop. *)
Lemma split_step_Ok w kb n i nbytes head foot m (k : L unit) : sectioned w kb n nbytes head foot -> 0 <= i < n - 1 ->
  mem w !! kb = Some m -> Z.of_nat (length m) = sc_header (out_h w) + sc_footer (out_h w) ->
  let m1 := if i =? 0 then put_at 0 head m else m in
  let m2 := if i =? n - 2 then put_at (sc_header (out_h w)) foot m1 else m1 in
  (d1 ← load_desc i; d2 ← load_desc (i + 1);
   page1 ← load_page (Z.to_nat i); page2 ← load_page (Z.to_nat (i + 1));
   (if i =? 0 then memcpy (kb, 0) (page1, d1.2) (sc_header (out_h w)) else mret tt);;
   (if i =? n - 2
    then memcpy (kb, sc_header (out_h w)) (page2, d2.2 + nbytes - sc_footer (out_h w)) (sc_footer (out_h w)) else mret tt);;
   k) w = k (set_mem (<[kb := m2]> (mem w)) w).
Proof.
  intros Hs Hi Hm Hlen m1 m2. pose proof Hs as [ (Hn1 & Hn2 & Hn) Hobj (p & d & x & P1 & P2 & P3 & P4) (q & e & y & Q1 & Q2 & Q3 & Q4)].
  assert (Hpage : forall j, 0 <= j < n -> is_Some (pages (ap w) !! Z.to_nat j)) by (intros j Hj; apply lookup_lt_is_Some; lia).
  assert (Hdesc : forall j, 0 <= j < n -> is_Some (descs (ap w) !! Z.to_nat j)) by (intros j Hj; apply lookup_lt_is_Some; lia).
  destruct (Hdesc i ltac:(lia)) as [d1 Hd1]. destruct (Hdesc (i + 1) ltac:(lia)) as [d2 Hd2].
  destruct (Hpage i ltac:(lia)) as [p1 Hp1]. destruct (Hpage (i + 1) ltac:(lia)) as [p2 Hp2].
  rewrite (bind_Ok _ _ w d1 w) by (apply load_desc_Z; [lia|done]). rewrite (bind_Ok _ _ w d2 w) by (apply load_desc_Z; [lia|done]).
  rewrite (bind_Ok _ _ w p1 w) by (by apply load_page_Ok). rewrite (bind_Ok _ _ w p2 w) by (by apply load_page_Ok).
  pose proof (slice_Some _ _ _ _ P4) as ((_ & Hh & _) & _ & Hhl). pose proof (slice_Some _ _ _ _ Q4) as ((_ & Hf & _) & _ & Hfl).
  assert (Hm1len : length m1 = length m).
  { unfold m1. destruct (i =? 0); [|done]. apply put_at_length. unfold within. lia. }
  rewrite (bind_Ok _ _ w tt (set_mem (<[kb := m1]> (mem w)) w)).
  2: { unfold m1. destruct (Z.eqb_spec i 0) as [->|Hne]; [|by rewrite insert_id, set_mem_id].
    change (Z.to_nat 0) with 0%nat in Hp1, Hd1. rewrite P1 in Hp1. rewrite P2 in Hd1. injection Hp1 as <-. injection Hd1 as <-.
    apply (memcpy_Ok w kb 0 p _ _ x); try done. unfold within. lia. }
  set (w1 := set_mem (<[kb := m1]> (mem w)) w).
  assert (Hkb : mem w1 !! kb = Some m1) by apply lookup_insert_eq.
  unfold m2. destruct (Z.eqb_spec i (n - 2)) as [E|Hne]; [|by rewrite (bind_Ok _ _ w1 tt w1)].
  replace (i + 1) with (n - 1) in Hp2, Hd2 by lia. rewrite Q1 in Hp2. rewrite Q2 in Hd2. injection Hp2 as <-. injection Hd2 as <-.
  rewrite (bind_Ok _ _ w1 tt (set_mem (<[kb := put_at (sc_header (out_h w)) foot m1]> (mem w1)) w1)).
  2: { apply (memcpy_Ok w1 kb _ q _ _ y); try done; [|unfold within; lia].
    unfold w1. cbn. rewrite lookup_insert_ne; [done|]. intros ->.
    destruct (Hobj q (list_elem_of_lookup_2 _ _ _ Q1)) as [H _]. done. }
  f_equal. unfold w1. cbn [mem set_mem]. unfold set_mem at 1. cbn. by rewrite insert_insert_eq.
Qed.

Lemma u32_small n : 0 <= n < 2 ^ 32 -> u32 n = n.
Proof. intros H. by apply Z.mod_small. Qed.

Lemma split_loop_Ok fuel : forall w kb n i nbytes head foot m, sectioned w kb n nbytes head foot -> 0 <= i <= n - 1 ->
  mem w !! kb = Some m -> Z.of_nat (length m) = sc_header (out_h w) + sc_footer (out_h w) -> (Z.to_nat (n - 1 - i) < fuel)%nat ->
  split_loop fuel i kb nbytes w = Ok (tt, set_mem (<[kb := gathered n i (sc_header (out_h w)) head foot m]> (mem w)) w).
Proof.
  induction fuel as [|fuel IH]; intros w kb n i nbytes head foot m Hs Hi Hm Hlen Hf; [lia|]. cbn [split_loop].
  rewrite (bind_Ok _ _ w w w) by done. pose proof Hs as [ (Hn1 & Hn2 & Hn) _ _ _]. rewrite <- Hn1.
  rewrite !u32_small by lia. unfold gathered.
  destruct (Z.ltb_spec i (n - 1)) as [Hlt|Hge].
  2: { zcases; try lia. by rewrite insert_id, set_mem_id. }
  pose proof (split_step_Ok w kb n i nbytes head foot m (split_loop fuel (i + 1) kb nbytes) Hs ltac:(lia) Hm Hlen) as Hstep.
  cbv zeta in Hstep. rewrite Hstep. clear Hstep.
  set (m1 := if i =? 0 then _ else m). set (m2 := if i =? n - 2 then _ else m1). set (w1 := set_mem _ w).
  assert (Hlen2 : length m2 = length m).
  { destruct Hs as [_ _ (p & d & x & _ & _ & _ & P4) (q & e & y & _ & _ & _ & Q4)].
    apply slice_Some in P4 as ((_ & Hh & _) & _ & Hhl). apply slice_Some in Q4 as ((_ & Hft & _) & _ & Hfl).
    assert (Hlen1 : length m1 = length m) by (unfold m1; destruct (i =? 0); [apply put_at_length; unfold within; lia|done]).
    unfold m2. destruct (i =? n - 2); [|done]. rewrite put_at_length; [done|unfold within; lia]. }
  rewrite (IH w1 kb n (i + 1) nbytes head foot m2); [|by apply sectioned_mem|lia|apply lookup_insert_eq|by rewrite Hlen2|lia].
  f_equal. f_equal. unfold w1. unfold set_mem at 1. cbn [mem set_mem]. rewrite insert_insert_eq.
  change (out_h (set_mem _ w)) with (out_h w). unfold set_mem. cbn. do 2 f_equal. unfold gathered, m2, m1. zcases; try lia; done.
Qed.

(** ** The whole of [fuse_split_payload] *)
(** The next allocations succeed, at addresses that nothing has. *)
Definition can_alloc w : Prop :=
  (forall x, x ∈ take 2 (allocs w) -> x = true) /\ 0 < fresh w /\ forall p, fresh w <= p -> mem w !! p = None.

Definition section_of w (head foot : list Z) : list (Z * list Z) :=
  if sc_mem (out_h w) =? 0 then [] else [(sc_mem (out_h w), head ++ foot)].

(** What may change but the log of copies to the daemon. *)
Record split w w' (log : list (Z * list Z)) : Prop := mk_split {
  sl_cs : cs w' = cs w;
  sl_mem : mem w' = mem w;
  sl_refs : forall p, default 0 (refs w' !! p) = default 0 (refs w !! p);
  sl_ap : ap w' = ap w;
  sl_sections : sections w' = sections w ++ log;
}.

Lemma kzalloc_Ok w n : (forall x, x ∈ take 1 (allocs w) -> x = true) ->
  kzalloc n w = Ok (fresh w, set_allocs (tail (allocs w)) (set_fresh (fresh w + 1)
      (set_mem (<[fresh w := replicate (Z.to_nat n) 0]> (mem w)) w))).
Proof.
  intros H. unfold kzalloc. rewrite (bind_Ok _ _ w w w) by done.
  destruct (allocs w) as [|x l]; [done|]. rewrite (H x) by (cbn; by left). done.
Qed.

Lemma gathered_all header head foot n : 0 <= header -> 0 <= Z.of_nat (length foot) -> 2 <= n -> Z.of_nat (length head) = header ->
  gathered n 0 header head foot (replicate (Z.to_nat (header + Z.of_nat (length foot))) 0) = head ++ foot.
Proof.
  intros H1 H2 Hn Hl. unfold gathered. rewrite Z.eqb_refl. rewrite (proj2 (Z.leb_le _ _)) by lia.
  set (z := replicate _ _). assert (Hz : Z.of_nat (length z) = header + Z.of_nat (length foot)) by (unfold z; rewrite length_replicate; lia).
  rewrite <- Hl. change (Z.of_nat (length head)) with (0 + Z.of_nat (length head)). rewrite put_at_app by (unfold within; lia).
  apply put_whole. rewrite length_app. lia.
Qed.

Lemma split_payload_runs w n nbytes head foot : can_alloc w -> sectioned w (fresh w + 1) n nbytes head foot ->
  0 <= sc_header (out_h w) -> 0 <= sc_footer (out_h w) -> 0 < sc_header (out_h w) + sc_footer (out_h w) < 2 ^ 32 ->
  runs (fuse_split_payload nbytes) w (fun err w' => err = 0 /\ split w w' (section_of w head foot)).
Proof.
  intros (Hal & Hf & Hno) Hs Hh Hft Hsum. unfold fuse_split_payload. apply runs_get_bind.
  replace ((0 <? sc_header (out_h w)) || (0 <? sc_footer (out_h w))) with true.
  2: { destruct (Z.ltb_spec 0 (sc_header (out_h w))), (Z.ltb_spec 0 (sc_footer (out_h w))); try done. lia. }
  rewrite u32_small by lia.
  set (t := fresh w) in *. set (N := sc_header (out_h w) + sc_footer (out_h w)) in *.
  set (w1 := set_allocs (tail (allocs w)) (set_fresh (t + 1) (set_mem (<[t := replicate (Z.to_nat PAGE_SIZE) 0]> (mem w)) w))).
  set (r1 := <[t := default 0 (refs w !! t) + 1]> (refs w)).
  eapply (runs_Ok_bind _ _ _ t (set_refs r1 w1)).
  { unfold alloc_page. rewrite (bind_Ok _ _ w t w1).
    2: { apply kzalloc_Ok. intros x Hx. apply Hal. destruct (allocs w); [by apply elem_of_nil in Hx|]. cbn in Hx.
      apply list_elem_of_singleton in Hx as ->. by left. }
    by rewrite (proj2 (Z.eqb_neq t 0)) by lia. }
  apply runs_assert_bind; [by rewrite (proj2 (Z.eqb_neq t 0)) by lia|].
  set (zs := replicate (Z.to_nat N) 0).
  set (w2 := set_allocs (tail (tail (allocs w))) (set_fresh (t + 1 + 1) (set_mem (<[t + 1 := zs]> (mem w1)) (set_refs r1 w1)))).
  eapply (runs_Ok_bind _ _ _ (t + 1) w2).
  { apply (kzalloc_Ok (set_refs r1 w1)). intros x Hx. apply Hal. cbn in Hx. destruct (allocs w) as [|a [|c l] ]; try by apply elem_of_nil in Hx.
    cbn in Hx. apply list_elem_of_singleton in Hx as ->. cbn. by right; left. }
  assert (Hm2 : forall p, is_Some (mem w !! p) -> mem w2 !! p = mem w !! p).
  { intros p [x Hx]. cbn. rewrite !lookup_insert_ne; [done|..]; intros <-.
    - by rewrite (Hno t) in Hx by lia.
    - by rewrite (Hno (t + 1)) in Hx by lia. }
  assert (Hs2 : sectioned w2 (t + 1) n nbytes head foot).
  { destruct Hs as [H1 H2 (p & d & x & P1 & P2 & P3 & P4) (q & e & y & Q1 & Q2 & Q3 & Q4)]. split; [done|..].
    - intros p' Hp'. rewrite Hm2; by apply H2.
    - exists p, d, x. rewrite Hm2 by (by eexists). done.
    - exists q, e, y. rewrite Hm2 by (by eexists). done. }
  pose proof Hs as [ (Hn1 & _ & Hn) _ (px & dx & mx & _ & _ & _ & P4) (py & dy & my & _ & _ & _ & Q4)].
  apply slice_Some in P4 as (_ & _ & Hhl). apply slice_Some in Q4 as (_ & _ & Hfl).
  assert (Hkb : mem w2 !! (t + 1) = Some zs) by apply lookup_insert_eq.
  eapply runs_Ok_bind.
  { apply (split_loop_Ok _ w2 (t + 1) n 0 nbytes head foot zs); try done; [lia|unfold zs; rewrite length_replicate; cbn; lia|].
    change (pages (ap w2)) with (pages (ap w)). lia. }
  set (w3 := set_mem _ w2).
  assert (Hall : gathered n 0 (sc_header (out_h w2)) head foot zs = head ++ foot).
  { unfold zs, N. rewrite <- Hfl. apply gathered_all; lia. }
  assert (Hkb3 : mem w3 !! (t + 1) = Some (head ++ foot)) by (unfold w3; cbn [mem set_mem]; by rewrite lookup_insert_eq, Hall).
  set (w4 := set_sections (sections w ++ section_of w head foot) w3).
  eapply (runs_Ok_bind _ _ _ tt w4).
  { unfold section_of in w4. destruct (sc_mem (out_h w) =? 0).
    - unfold w4. rewrite app_nil_r. done.
    - rewrite (bind_Ok _ _ w3 (head ++ foot) w3); [done|]. unfold load_mem.
      rewrite (proj2 (Z.eqb_neq N 0)) by lia. rewrite (bind_Ok _ _ w3 w3 w3) by done. cbn [fst snd]. rewrite Hkb3.
      rewrite (bind_Ok _ _ w3 (head ++ foot) w3) by done. rewrite slice_within by (unfold within; rewrite length_app; lia).
      cbn [Z.to_nat]. rewrite drop_0, take_ge by (rewrite length_app; lia). done. }
  eapply runs_Ok_bind; [done|]. set (r2 := <[_ := _]> _). set (w5 := set_refs r2 w4).
  set (m5 := mem w5).
  eapply (runs_Ok_bind _ _ _ tt (set_mem (delete t m5) w5)).
  { unfold kfree. rewrite (proj2 (Z.eqb_neq t 0)) by lia. rewrite (bind_Ok _ _ w5 w5 w5) by done.
    assert (Ht : is_Some (mem w5 !! t)).
    { unfold w5, w4, w3, w2, w1. cbn. rewrite !lookup_insert_ne by lia. rewrite lookup_insert_eq. by eexists. }
    destruct Ht as [x Hx]. rewrite Hx. by rewrite (bind_Ok _ _ w5 x w5). }
  set (w6 := set_mem _ w5).
  eapply (runs_Ok_bind _ _ _ tt (set_mem (delete (t + 1) (delete t m5)) w6)).
  { unfold kfree. rewrite (proj2 (Z.eqb_neq (t + 1) 0)) by lia. rewrite (bind_Ok _ _ w6 w6 w6) by done.
    assert (Ht : mem w6 !! (t + 1) = Some (head ++ foot)) by (unfold w6; cbn [mem set_mem]; rewrite lookup_delete_ne by lia; exact Hkb3).
    rewrite Ht. by rewrite (bind_Ok _ _ w6 (head ++ foot) w6). }
  apply runs_ret. split; [done|]. split; try done.
  - apply map_eq. intros p. cbn [mem set_mem]. destruct (decide (p = t + 1)) as [->|H1].
    { rewrite lookup_delete_eq. symmetry. apply Hno. lia. }
    rewrite lookup_delete_ne by done. destruct (decide (p = t)) as [->|H2].
    { rewrite lookup_delete_eq. symmetry. apply Hno. lia. }
    rewrite lookup_delete_ne by done. unfold m5, w5, w4, w3, w2, w1. cbn. by rewrite !lookup_insert_ne by done.
  - intros p. cbn [refs set_mem]. unfold w6, w5. cbn [refs set_mem set_refs]. unfold r2. change (refs w4) with r1.
    destruct (decide (p = t)) as [->|Hp].
    + rewrite lookup_insert_eq. unfold r1. rewrite lookup_insert_eq. cbn [from_option]. unfold id. lia.
    + rewrite lookup_insert_ne by done. unfold r1. by rewrite lookup_insert_ne.
Qed.
