(* ===== verification/KReply.v ===== *)
(** * What a request gets from an answer, and the daemon from its section *)
From S2P Require Import Prelude KTypes KForget KQueue KCopy KStream KCopyFacts KPages KSection.
#[local] Open Scope Z_scope.

#[local] Abbreviation L := (M world).
Implicit Types (w : world) (p q : Z) (b : seg) (l m : list Z).

(** The room in the pages but the last. *)
Definition room_before_last (ds : list (Z * Z)) : Z := room_of (take (length ds - 1) ds).

Lemma room_nonneg ds : Forall (fun d => 0 <= d.1) ds -> 0 <= room_of ds.
Proof. intros H. induction H as [|d ds Hd _ IH]; [done|]. unfold room_of in *. cbn [foldr]. lia. Qed.

Lemma room_cons d ds : room_of (d :: ds) = d.1 + room_of ds.
Proof. done. Qed.

Lemma room_last ds len off : ds !! (length ds - 1)%nat = Some (len, off) -> room_of ds = room_before_last ds + len.
Proof.
  unfold room_before_last. induction ds as [|[l o] ds IH]; [done|]. cbn [length Nat.sub]. rewrite Nat.sub_0_r.
  destruct ds as [|d ds]; [cbn; by intros [= -> _]; lia|].
  intros H. rewrite (room_cons (l, o)). change (length (d :: ds)) with (Datatypes.S (length ds)) in *. cbn [take].
  rewrite (room_cons (l, o)), IH; [cbn [Nat.sub fst]; rewrite Nat.sub_0_r; lia|]. cbn [Nat.sub]. by rewrite Nat.sub_0_r.
Qed.

Lemma room_first ds len off : (2 <= length ds)%nat -> Forall (fun d => 0 <= d.1) ds -> ds !! 0%nat = Some (len, off) ->
  len <= room_before_last ds.
Proof.
  intros H Hpos [= H0]. destruct ds as [|d [|d' ds] ]; cbn in H; [lia..|]. injection H0 as ->.
  unfold room_before_last. replace (length ((len, off) :: d' :: ds) - 1)%nat with (Datatypes.S (length (d' :: ds) - 1)) by (cbn; lia).
  apply Forall_cons in Hpos as [_ Hpos]. pose proof (room_nonneg _ (Forall_take _ (length (d' :: ds) - 1) _ Hpos)) as Hr.
  cbn [take]. unfold room_of in *. cbn [foldr fst]. lia.
Qed.

Lemma bytes_for_last_full zeroing : forall ds nbytes lb, ds <> [] -> Forall (fun d => 0 <= d.1) ds ->
  room_before_last ds < nbytes -> bytes_for_last zeroing nbytes ds lb = nbytes - room_before_last ds.
Proof.
  unfold room_before_last. induction ds as [|[len off] ds IH]; intros nbytes lb Hne Hpos Hlt; [done|].
  apply Forall_cons in Hpos as [Hl Hpos]. cbn [fst] in Hl. cbn [bytes_for_last].
  destruct ds as [|d ds].
  - change (0 < nbytes) in Hlt. rewrite (proj2 (Z.eqb_neq nbytes 0)) by lia. cbn [negb orb].
    rewrite bool_decide_eq_true_2 by done. cbn. lia.
  - assert (Hr : 0 <= room_of (take (length (d :: ds) - 1) (d :: ds))).
    { by apply room_nonneg, Forall_take. }
    assert (E : room_of (take (length ((len, off) :: d :: ds) - 1) ((len, off) :: d :: ds)) =
      len + room_of (take (length (d :: ds) - 1) (d :: ds))) by (cbn [length Nat.sub]; by rewrite Nat.sub_0_r).
    rewrite E in Hlt |- *. rewrite (proj2 (Z.eqb_neq nbytes 0)) by lia. cbn [negb orb].
    rewrite (bool_decide_eq_false_2) by done. rewrite IH by (try done; lia). lia.
Qed.

Lemma layout_lookup zeroing : forall k data ds ms len off m, Forall (fun d => 0 <= d.1) ds ->
  ds !! k = Some (len, off) -> ms !! k = Some m ->
  let l := take (Z.to_nat len) (drop (Z.to_nat (room_of (take k ds))) data) in
  layout zeroing data ds ms !! k = Some (put_at off l (cleared zeroing (Z.of_nat (length l)) m)).
Proof.
  induction k as [|k IH]; intros data [|[len0 off0] ds] [|m0 ms] len off m Hpos Hd Hm; try done; cbn in Hd, Hm.
  - injection Hd as -> ->. injection Hm as ->. done.
  - apply Forall_cons in Hpos as [Hl Hpos]. cbn [fst] in Hl. cbn [layout lookup list_lookup].
    fold (layout zeroing (drop (Z.to_nat len0) data) ds ms !! k).
    pose proof (IH (drop (Z.to_nat len0) data) ds ms len off m Hpos Hd Hm) as H. cbv zeta in H |- *.
    assert (Hr : 0 <= room_of (take k ds)).
    { by apply room_nonneg, Forall_take. }
    rewrite drop_drop in H. cbn [take room_of foldr fst]. fold (room_of (take k ds)).
    replace (Z.to_nat (len0 + room_of (take k ds))) with (Z.to_nat len0 + Z.to_nat (room_of (take k ds)))%nat by lia.
    exact H.
Qed.

(** A section is asked for, and the payload has it: the header is in the first page, the
    footer in the last, there are at least two pages, and the payload reaches the last. *)
Record has_section w (ds : list (Z * Z)) (nbytes : Z) : Prop := mk_has_section {
  hs_header : 0 <= sc_header (out_h w);
  hs_footer : 0 <= sc_footer (out_h w);
  hs_some : 0 < sc_header (out_h w) + sc_footer (out_h w) < 2 ^ 32;
  hs_pages : 2 <= Z.of_nat (length ds) < 2 ^ 32;
  hs_first : forall d, ds !! 0%nat = Some d -> sc_header (out_h w) <= d.1;
  hs_last : room_before_last ds < nbytes <= room_of ds;
  hs_fits : sc_footer (out_h w) <= nbytes - room_before_last ds;
  hs_alloc : can_alloc w;
}.
Definition no_section w : Prop := sc_header (out_h w) = 0 /\ sc_footer (out_h w) = 0.

(** The header and the footer of a payload. *)
Definition split_log w (data : list Z) : list (Z * list Z) :=
  if (0 <? sc_header (out_h w)) || (0 <? sc_footer (out_h w)) then
    section_of w (take (Z.to_nat (sc_header (out_h w))) data)
      (drop (length data - Z.to_nat (sc_footer (out_h w))) data)
  else [].

Lemma runs_as {A} (c c' : L A) w Q : c w = c' w -> runs c' w Q -> runs c w Q.
Proof. unfold runs. by intros ->. Qed.

Section Reply.
Context (S : Z -> Prop).
#[local] Abbreviation feeds := (feeds S).

Lemma page_lens w ps ds ms : Forall3 (page_ok S w) ps ds ms -> Forall (fun d => 0 <= d.1) ds.
Proof. intros H. induction H as [|p d m ps ds ms (_ & _ & _ & _ & _ & ? & _) _ IH]; by constructor. Qed.

(** After the pages were filled, the loop of [fuse_split_payload] finds the header and the
    footer where it looks for them. *)
Lemma filled_sectioned w w1 zeroing data ps ds ms qs : pages_ok S w ps ds ms -> descs (ap w1) = ds ->
  pages (ap w1) = qs -> length qs = length ps -> holds w1 qs (layout zeroing data ds ms) ->
  has_section w1 ds (Z.of_nat (length data)) ->
  sectioned w1 (fresh w1 + 1) (Z.of_nat (length ds)) (Z.of_nat (length data) - room_before_last ds)
    (take (Z.to_nat (sc_header (out_h w1))) data) (drop (length data - Z.to_nat (sc_footer (out_h w1))) data).
Proof.
  intros [Hok Hnd] Hd Hp Hlq Hh [H1 H2 H3 H4 H5 H6 H7 (_ & Hf & Hno)]. set (hd := sc_header (out_h w1)) in *. set (ft := sc_footer (out_h w1)) in *.
  pose proof (page_lens _ _ _ _ Hok) as Hpos.
  pose proof (Forall3_length_lm _ _ _ _ Hok) as Hl1. pose proof (Forall3_length_lr _ _ _ _ Hok) as Hl2.
  assert (Hat : forall k, (k < length ds)%nat -> exists q len off m, qs !! k = Some q /\ ds !! k = Some (len, off) /\
    (let l := take (Z.to_nat len) (drop (Z.to_nat (room_of (take k ds))) data) in
     mem w1 !! q = Some (put_at off l (cleared zeroing (Z.of_nat (length l)) m)) /\
     within off (Z.of_nat (length l)) (cleared zeroing (Z.of_nat (length l)) m) /\ 0 <= len)).
  { intros k Hk. destruct (lookup_lt_is_Some_2 qs k) as [q Hq]; [lia|].
    destruct (lookup_lt_is_Some_2 ds k) as [ [len off] Hdk]; [lia|]. destruct (lookup_lt_is_Some_2 ms k) as [m Hm]; [lia|].
    destruct (lookup_lt_is_Some_2 ps k) as [p Hpk]; [lia|].
    exists q, len, off, m. split; [done|]. split; [done|].
    pose proof (layout_lookup zeroing k data ds ms len off m Hpos Hdk Hm) as Hlay. cbv zeta in Hlay |- *.
    pose proof (Forall2_lookup_lr _ _ _ _ _ _ Hh Hq Hlay) as Hmem. split; [exact Hmem|].
    pose proof (Forall3_lookup_lmr _ _ _ _ _ _ _ _ Hok Hpk Hdk Hm) as (_ & _ & _ & Hpage & Ho & Hl0 & Hb). cbn [fst snd] in Ho, Hl0, Hb.
    split; [|done]. unfold within, cleared. destruct (zeroing && _); rewrite ?length_replicate, length_take; lia. }
  destruct (Hat 0%nat ltac:(lia)) as (q0 & len0 & off0 & m0 & Q0 & D0 & M0 & W0 & L0).
  destruct (Hat (length ds - 1)%nat ltac:(lia)) as (q1 & len1 & off1 & m1 & Q1 & D1 & M1 & W1 & L1).
  set (R := room_before_last ds) in *. fold R in M1, W1.
  change (room_of (take (length ds - 1) ds)) with R in M1, W1. change (room_of (take 0 ds)) with 0 in M0, W0. cbn [Z.to_nat] in M0, W0. rewrite drop_0 in M0, W0.
  pose proof (H5 _ D0) as Hlen0. cbn [fst] in Hlen0.
  assert (Hall : room_of ds = R + len1) by (by apply (room_last ds len1 off1)).
  assert (HR0 : len0 <= R) by (apply (room_first ds len0 off0); try done; lia).
  split.
  - rewrite Hp, Hd, Hlq. split; [lia|done].
  - intros p Hin. rewrite Hp in Hin. apply list_elem_of_lookup_1 in Hin as [k Hk].
    assert (Hkl : (k < length ds)%nat) by (apply lookup_lt_Some in Hk; lia).
    destruct (Hat k Hkl) as (q & ? & ? & ? & Hq & _ & Hm & _). rewrite Hk in Hq. injection Hq as <-.
    split; [|by eexists]. intros ->. rewrite Hno in Hm by lia. done.
  - exists q0, (len0, off0). eexists. rewrite Hp, Hd. split; [done|]. split; [done|]. split; [exact M0|]. cbn [snd].
    pose proof (slice_put_at _ _ _ W0) as Hsl. apply (slice_split _ _ hd) in Hsl as [Hsl _]; [|rewrite length_take; lia].
    fold hd. rewrite Hsl. f_equal. rewrite take_take. f_equal. lia.
  - exists q1, (len1, off1). eexists. rewrite Hp, Hd.
    replace (Z.to_nat (Z.of_nat (length ds) - 1)) with (length ds - 1)%nat by lia.
    split; [done|]. split; [done|]. split; [exact M1|]. cbn [snd].
    pose proof (slice_put_at _ _ _ W1) as Hsl. revert Hsl.
    set (l1 := take (Z.to_nat len1) (drop (Z.to_nat R) data)). intros Hsl.
    assert (Hl1' : l1 = drop (Z.to_nat R) data) by (apply take_ge; rewrite length_drop; lia).
    assert (Hn1 : Z.of_nat (length l1) = Z.of_nat (length data) - R) by (rewrite Hl1', length_drop; lia).
    apply (slice_split _ _ (Z.of_nat (length l1) - ft)) in Hsl as [_ Hsl]; [|lia].
    fold ft. replace (off1 + (Z.of_nat (length data) - R) - ft) with (off1 + (Z.of_nat (length l1) - ft)) by lia.
    replace (Z.of_nat (length l1) - (Z.of_nat (length l1) - ft)) with ft in Hsl by lia. rewrite Hsl.
    f_equal. rewrite Hl1', drop_drop. f_equal. rewrite Hl1' in Hn1. lia.
Qed.

Lemma split_refl w : split w w [].
Proof. split; try done. by rewrite app_nil_r. Qed.

Lemma can_alloc_spares D I w w' : spares D I w w' -> can_alloc w -> can_alloc w'.
Proof.
  intros H (H1 & H2 & H3). unfold can_alloc. rewrite (sp_allocs _ _ _ _ H), (sp_fresh _ _ _ _ H). split; [done|]. split; [done|].
  intros p Hp. pose proof (sp_sizes _ _ _ _ H p) as Hs. rewrite (H3 p Hp) in Hs. by destruct (mem w' !! p).
Qed.

Lemma has_section_spares D I w w' ds n : spares D I w w' -> has_section w ds n -> has_section w' ds n.
Proof.
  intros H []. pose proof (sp_out _ _ _ _ H) as Ho. split; rewrite ?Ho; try done. by eapply can_alloc_spares.
Qed.

Definition section_asked w (ds : list (Z * Z)) (nbytes : Z) : Prop := no_section w \/ has_section w ds nbytes.

Definition pages_copied w zeroing (data : list Z) ms w1 w' : Prop :=
  copied_pages S w zeroing data [] (pages (ap w)) (descs (ap w)) ms w1 /\ split w1 w' (split_log w data).

Lemma split_payload_filled w w1 zeroing data ms : pages_ok S w (pages (ap w)) (descs (ap w)) ms ->
  spares (.∈ pages (ap w)) (fun i => 0 <= i)%nat w w1 -> copied_pages S w zeroing data [] (pages (ap w)) (descs (ap w)) ms w1 ->
  section_asked w (descs (ap w)) (Z.of_nat (length data)) ->
  runs (fuse_split_payload (bytes_for_last zeroing (Z.of_nat (length data)) (descs (ap w)) 0)) w1
    (fun err w' => err = 0 /\ split w1 w' (split_log w data)).
Proof.
  intros Hok S1 (qs & Hqs & Hhome & Hh) Hsec. pose proof (sp_out _ _ _ _ S1) as Ho. unfold split_log.
  destruct Hsec as [ [Hz1 Hz2]|Hs].
  - rewrite Hz1, Hz2. cbn [Z.ltb Z.compare orb]. unfold fuse_split_payload. apply runs_get_bind. rewrite Ho, Hz1, Hz2. cbn [Z.ltb Z.compare orb].
    apply runs_ret. split; [done|apply split_refl].
  - pose proof (has_section_spares _ _ _ _ _ _ S1 Hs) as Hs1. pose proof Hs as [H1 H2 H3 H4 _ [H5 _] _ _].
    assert (Hpos : Forall (fun d => 0 <= d.1) (descs (ap w))) by (eapply page_lens, po_pages, Hok).
    rewrite bytes_for_last_full; [|by intros E; rewrite E in H4; cbn in H4; lia|done|done].
    assert (Hd : descs (ap w1) = descs (ap w)) by exact (f_equal descs (sp_args _ _ _ _ S1)).
    pose proof (filled_sectioned w w1 zeroing data (pages (ap w)) (descs (ap w)) ms qs Hok Hd Hqs
      (eq_sym (Forall2_length _ _ _ Hhome)) Hh Hs1) as Hsd.
    replace ((0 <? sc_header (out_h w)) || (0 <? sc_footer (out_h w))) with true by (zcases; try done; lia).
    unfold section_of. rewrite <- Ho. rewrite <- Ho in H1, H2, H3.
    exact (split_payload_runs w1 _ _ _ _ (hs_alloc _ _ _ Hs1) Hsd H1 H2 H3).
Qed.

Lemma fuse_copy_pages_runs w nbytes zeroing ms : feeds w -> pages_ok S w (pages (ap w)) (descs (ap w)) ms ->
  0 <= nbytes <= Z.of_nat (length (stream w)) -> section_asked w (descs (ap w)) nbytes ->
  runs (fuse_copy_pages nbytes zeroing) w (fun err w' => err <= 0 /\ (clean w -> err = 0) /\
    exists w1, spares (.∈ pages (ap w)) (fun i => 0 <= i)%nat w w1 /\ (err <> 0 -> w' = w1) /\
      (err = 0 -> pages_copied w zeroing (take (Z.to_nat nbytes) (stream w)) ms w1 w')).
Proof.
  intros F Hok Hn Hsec. unfold fuse_copy_pages. apply runs_get_bind.
  pose proof (pages_loop_runs S zeroing (pages (ap w)) (descs (ap w)) ms w [] [] nbytes 0 F eq_refl eq_refl eq_refl Hok Hn) as Hl.
  eapply runs_bind; [exact Hl|]. intros [err lb] w1 ((He & S1 & C1 & H1) & Hlb). cbn [fst snd length] in *.
  destruct (Z.eqb_spec err 0) as [->|Hne]; cbn [negb].
  - destruct (H1 eq_refl) as (_ & _ & Hc). rewrite (Hlb eq_refl).
    set (data := take (Z.to_nat nbytes) (stream w)) in *.
    assert (Hlen : nbytes = Z.of_nat (length data)) by (unfold data; rewrite length_take; lia).
    rewrite Hlen in Hsec |- *.
    eapply runs_mono; [by apply (split_payload_filled w w1 zeroing data ms)|]. intros err w' [-> Hs].
    split; [done|]. split; [done|]. exists w1. split; [done|]. split; [done|]. done.
  - apply runs_ret. split; [done|]. split; [done|]. by exists w1.
Qed.

(** ** Arguments that are not pages *)
(** Objects of the arguments [args], with the contents [ms], that [data] can be copied to. *)
Record values_ok w (args : list (Z * Z)) ms : Prop := mk_values_ok {
  vo_each : Forall2 (fun a m => ~ S a.2 /\ mem w !! a.2 = Some m /\ within 0 a.1 m) args ms;
  vo_nodup : NoDup args.*2;
}.

Lemma values_spares D I w w' args ms : spares D I w w' -> (forall a, a ∈ args -> ~ D a.2) ->
  Forall2 (fun a m => ~ S a.2 /\ mem w !! a.2 = Some m /\ within 0 a.1 m) args ms ->
  Forall2 (fun a m => ~ S a.2 /\ mem w' !! a.2 = Some m /\ within 0 a.1 m) args ms.
Proof.
  intros S1 HD H. induction H as [|a m args ms (? & ? & ?) _ IH]; constructor.
  - split; [done|]. split; [|done]. rewrite (sp_mem _ _ _ _ S1); [done|]. apply HD. by left.
  - apply IH. intros b Hb. apply HD. by right.
Qed.

Fixpoint values_got w (data : list Z) (args : list (Z * Z)) ms : Prop :=
  match args, ms with
  | (size, v) :: args, m :: ms =>
    mem w !! v = Some (put_at 0 (take (Z.to_nat size) data) m) /\ values_got w (drop (Z.to_nat size) data) args ms
  | _, _ => True
  end.

Lemma values_got_spares w w' : forall args ms data, (forall a, a ∈ args -> mem w' !! a.2 = mem w !! a.2) ->
  values_got w data args ms -> values_got w' data args ms.
Proof.
  induction args as [|[size v] args IH]; intros [|m ms] data H; [done..|]. cbn [values_got]. intros [H1 H2].
  split; [|by apply IH; [intros a Ha; apply H; right|] ]. rewrite <- H1. apply (H (size, v)). by left.
Qed.

Fixpoint copy_values (args : list (Z * Z)) : L Z :=
  match args with
  | [] => mret 0
  | (size, value) :: l =>
    err ← fuse_copy_one (value, 0) size; if negb (err =? 0) then mret err else copy_values l
  end.

(** The values come first. *)
Lemma copy_args_split argpages rest zeroing w : (rest = [] -> argpages = false) -> forall pre,
  fuse_copy_args argpages (pre ++ rest) zeroing w =
  (err ← copy_values pre; if negb (err =? 0) then mret err else fuse_copy_args argpages rest zeroing) w.
Proof.
  intros Hr pre. revert w. induction pre as [|[size v] pre IH]; intros w; [done|]. cbn [app fuse_copy_args copy_values].
  assert (Hv : bool_decide (pre ++ rest = []) && argpages = false).
  { destruct pre, rest; cbn [app]; rewrite ?(Hr eq_refl), ?andb_false_r; try done; by rewrite bool_decide_eq_false_2. }
  rewrite Hv, bind_assoc_eq. unfold mbind at 1 2, M_bind at 1 2. destruct (fuse_copy_one (v, 0) size w) as [ [err w1]|]; [|done].
  destruct (Z.eqb_spec err 0) as [->|Hne]; cbn [negb]; [apply IH|]. rewrite (bind_Ok _ _ w1 err w1) by done.
  by rewrite (proj2 (Z.eqb_neq err 0)) by done.
Qed.

Lemma copy_values_runs args : forall w ms, feeds w -> values_ok w args ms -> room_of args <= Z.of_nat (length (stream w)) ->
  takes S (.∈ args.*2) nothing (Z.to_nat (room_of args)) (copy_values args) w (fun w' =>
    values_got w' (stream w) args ms /\ ap w' = ap w).
Proof.
  induction args as [|[size v] args IH]; intros w ms F [Hv Hnd] Hs.
  { apply runs_ret. split; [done|]. split; [apply spares_refl|]. done. }
  inversion Hv as [|a m args' ms' (HS & Hm & Hw) Hrest]; subst. cbn [fst snd] in *. cbn [fmap list_fmap snd] in Hnd.
  apply NoDup_cons in Hnd as [Hnotin Hnd]. rewrite room_cons in *. cbn [fst] in *. cbn [copy_values].
  assert (Hpos : 0 <= room_of args).
  { apply room_nonneg. clear -Hrest. induction Hrest as [|a m args ms (_ & _ & _ & ? & _) _ IH]; by constructor. }
  pose proof Hw as (_ & Hsz & _).
  eapply runs_bind.
  { unfold fuse_copy_one. apply runs_get_bind.
    apply (copy_one_loop_runs S _ w v 0 m size F HS Hm Hw); [lia|apply copy_fuel_enough]. }
  intros err w1 (He & S1 & C1 & H1).
  assert (S1' : spares (.∈ v :: args.*2) nothing w w1) by (eapply spares_mono; [| |exact S1]; [intros x <-; by left|done]).
  destruct (Z.eqb_spec err 0) as [->|Hne]; cbn [negb]; [|by apply runs_ret, took_error].
  destruct (H1 eq_refl) as (F1 & E1 & M1 & A1).
  assert (Hv1 : values_ok w1 args ms').
  { split; [|done]. eapply values_spares; [exact S1| |exact Hrest]. intros a Ha E. apply Hnotin, list_elem_of_fmap. by exists a. }
  eapply runs_mono; [apply (IH w1 ms' F1 Hv1); rewrite E1, length_drop; lia|].
  intros e w2 (He2 & S2 & C2 & H2). split; [done|].
  split; [eapply spares_trans; [exact S1'|]; eapply spares_mono; [| |exact S2]; [intros x Hx; by right|done]|].
  split; [intros C; apply C2, S1, C|]. intros Hz. destruct (H2 Hz) as (F2 & E2 & G2 & A2). split; [done|].
  split; [rewrite E2, E1, drop_drop; f_equal; lia|]. split; [|by rewrite A2]. cbn [values_got].
  split; [rewrite (sp_mem _ _ _ _ S2); done|]. by rewrite <- E1.
Qed.

(** ** The whole answer *)
(** What there is to copy to: the values [pre], and pages for [nbytes] when there are
    some. *)
Record answer_fits w pre ms (nbytes : Z) pms : Prop := mk_answer_fits {
  af_values : values_ok w pre ms;
  af_pages : out_pages (ap w) = true -> pages_ok S w (pages (ap w)) (descs (ap w)) pms /\
    (forall a, a ∈ pre -> a.2 ∉ pages (ap w)) /\ 0 <= nbytes /\ section_asked w (descs (ap w)) nbytes;
  af_enough : room_of pre + (if out_pages (ap w) then nbytes else 0) <= Z.of_nat (length (stream w));
}.

Definition with_pages w pre (nbytes v : Z) : list (Z * Z) := pre ++ (if out_pages (ap w) then [(nbytes, v)] else []).

(** The pages got [data], and the daemon the section. *)
Definition pages_got w (data : list Z) pms w' : Prop :=
  Forall2 (home S) (pages (ap w)) (pages (ap w')) /\
  holds w' (pages (ap w')) (layout (page_zeroing (ap w)) data (descs (ap w)) pms) /\
  sections w' = sections w ++ split_log w data.

Definition answer_got w pre ms nbytes pms w' : Prop :=
  values_got w' (stream w) pre ms /\
  if out_pages (ap w) then pages_got w (take (Z.to_nat nbytes) (drop (Z.to_nat (room_of pre)) (stream w))) pms w'
  else sections w' = sections w.

Lemma section_asked_spares D I w w' ds n : spares D I w w' -> section_asked w ds n -> section_asked w' ds n.
Proof.
  intros H [Hno|Hs]; [left|right; by eapply has_section_spares].
  unfold no_section in *. by rewrite (sp_out _ _ _ _ H).
Qed.

Definition unpinned w w' : Prop := pipebufs (cs w) = None -> forall p, owned w' p = owned w p.

Lemma room_values w args ms : Forall2 (fun a m => ~ S a.2 /\ mem w !! a.2 = Some m /\ within 0 a.1 m) args ms -> 0 <= room_of args.
Proof. intros H. apply room_nonneg. induction H as [|a m args ms (_ & _ & _ & ? & _) _ IH]; by constructor. Qed.

Lemma copy_args_runs w pre ms nbytes v pms : feeds w -> answer_fits w pre ms nbytes pms ->
  runs (fuse_copy_args (out_pages (ap w)) (with_pages w pre nbytes v) (page_zeroing (ap w))) w (fun err w' =>
    err <= 0 /\ (clean w -> err = 0) /\ unpinned w w' /\ cs_write (cs w') = false /\
    (err = 0 -> answer_got w pre ms nbytes pms w')).
Proof.
  intros F [Hv Hp Hs]. set (rest := if out_pages (ap w) then [(nbytes, v)] else []).
  assert (Hrest : rest = [] -> out_pages (ap w) = false) by (unfold rest; by destruct (out_pages (ap w))).
  eapply runs_as; [by apply copy_args_split|].
  assert (Hpre : 0 <= room_of pre) by (eapply room_values, vo_each, Hv).
  assert (Hn : 0 <= (if out_pages (ap w) then nbytes else 0)) by (destruct (out_pages (ap w)); [by apply Hp|done]).
  eapply runs_bind; [apply (copy_values_runs pre w ms F Hv); lia|]. intros err w1 (He & S1 & C1 & H1).
  assert (W1 : cs_write (cs w1) = false) by (rewrite (sp_write _ _ _ _ S1); apply F).
  assert (R1 : unpinned w w1) by exact (sp_refs _ _ _ _ S1).
  destruct (Z.eqb_spec err 0) as [->|Hne]; cbn [negb].
  2: { apply runs_ret. split; [done|]. split; [done|]. split; [done|]. split; [done|]. done. }
  destruct (H1 eq_refl) as (F1 & E1 & G1 & A1). unfold answer_got, rest. destruct (out_pages (ap w)) eqn:Hout.
  2: { cbn [fuse_copy_args]. apply runs_ret. split; [done|]. split; [done|]. split; [done|]. split; [done|]. intros _.
    split; [done|]. exact (sp_sections _ _ _ _ S1). }
  destruct (Hp eq_refl) as ([Hok Hnd] & Hdis & _ & Hsec). cbn [fuse_copy_args]. rewrite bool_decide_eq_true_2 by done. cbn [andb].
  assert (Hok1 : pages_ok S w1 (pages (ap w1)) (descs (ap w1)) pms).
  { rewrite A1. split; [|done]. eapply pages_ok_spares; [exact S1| |done].
    intros p Hpp Hin. apply list_elem_of_fmap in Hin as (a & -> & Ha). by apply (Hdis a). }
  eapply runs_bind.
  { apply (fuse_copy_pages_runs w1 nbytes (page_zeroing (ap w)) pms F1 Hok1); [rewrite E1, length_drop; lia|].
    rewrite A1. by eapply section_asked_spares. }
  intros err w2 (He2 & C2 & w1' & S2 & Hbad & H2).
  assert (R2 : unpinned w w1').
  { intros Hno p. rewrite (sp_refs _ _ _ _ S2); [by apply R1|]. by apply (sp_pipe _ _ _ _ S1). }
  assert (W2 : cs_write (cs w1') = false) by (by rewrite (sp_write _ _ _ _ S2)).
  eapply (runs_mono _ _ (fun e w' => e = err /\ w' = w2)).
  { destruct (Z.eqb_spec err 0) as [->|]; cbn [negb]; by apply runs_ret. }
  intros e w' [-> ->]. split; [done|]. split; [intros C; apply C2, S1, C|].
  destruct (Z.eqb_spec err 0) as [->|Hne].
  2: { rewrite (Hbad Hne). split; [done|]. by split. }
  destruct (H2 eq_refl) as [(qs & Hqs & Hhome & Hh) Hsp]. cbn [app] in Hqs. destruct Hsp as [Xc Xm Xr Xa Xs].
  split; [intros Hno p; unfold owned; rewrite Xr; unfold pin; rewrite Xc; by apply R2|].
  split; [by rewrite Xc|]. intros _. split.
  - eapply values_got_spares; [|exact G1]. intros a Ha. rewrite Xm. apply (sp_mem _ _ _ _ S2).
    intros Hin. rewrite A1 in Hin. by apply (Hdis a).
  - unfold pages_got. rewrite Xa, Hqs, <- A1. split; [done|]. split.
    + unfold holds. rewrite Xm. unfold pages_copied in *. rewrite <- E1. rewrite <- A1 in Hh. exact Hh.
    + rewrite Xs, (sp_sections _ _ _ _ S2), (sp_sections _ _ _ _ S1). f_equal. rewrite E1.
      unfold split_log, section_of. by rewrite (sp_out _ _ _ _ S1).
Qed.

(** The state in which the arguments are copied. *)
Definition prepared w : world :=
  let c := set_cs_req true (cs w) in
  set_cs (if page_replace (ap w) then c else set_move_pages false c) w.

Lemma prepared_feeds w : feeds w -> feeds (prepared w) /\ stream (prepared w) = stream w.
Proof.
  intros F. unfold prepared. destruct (page_replace (ap w)); (split; [|done]); destruct F; by split.
Qed.

Lemma prepared_clean w : clean w -> clean (prepared w).
Proof. intros []. unfold prepared. by destruct (page_replace (ap w)). Qed.

Lemma prepared_fits w pre ms nbytes pms : answer_fits w pre ms nbytes pms -> answer_fits (prepared w) pre ms nbytes pms.
Proof.
  intros [ [Hv Hnd] Hp Hs]. split; [by split| |unfold prepared; by destruct (page_replace (ap w))].
  intros Ho. destruct (Hp Ho) as ([Hok Hnd'] & Hd & Hn & Hsec). split; [by split|]. split; [done|]. split; [done|].
  destruct Hsec as [Hno|[]]; [by left|right; by split].
Qed.

(** The copy of an answer, with the section when the payload has one: the daemon gets the
    header from the start of the payload and the footer from its end.  What the loop of
    [fuse_split_payload] does with any other payload is in the examples of KSectionEx. *)
Lemma copy_answer_runs w pre ms nbytes v pms : feeds w -> answer_fits w pre ms nbytes pms ->
  out_args (ap w) = with_pages w pre nbytes v ->
  runs copy_answer w (fun err w' => err <= 0 /\ (clean w -> err = 0) /\
    (pipebufs (cs w) = None -> forall p, default 0 (refs w' !! p) = owned w p) /\
    (err = 0 -> answer_got w pre ms nbytes pms w')).
Proof.
  intros F A Ho. unfold copy_answer. eapply runs_Ok_bind; [done|]. apply runs_get_bind.
  set (w1 := prepared w). eapply (runs_Ok_bind _ _ _ tt w1).
  { unfold w1, prepared. cbn [ap set_cs]. destruct (page_replace (ap w)); reflexivity. }
  destruct (prepared_feeds w F) as [F1 E1]. pose proof (prepared_fits _ _ _ _ _ A) as A1. pose proof (prepared_clean w) as C1.
  assert (Hap : ap w1 = ap w) by done.
  eapply runs_bind.
  { change (ap (set_cs _ w)) with (ap w). rewrite Ho. change (with_pages w pre nbytes v) with (with_pages w1 pre nbytes v).
    rewrite <- Hap. apply (copy_args_runs w1 pre ms nbytes v pms F1 A1). }
  intros err w2 (He & C2 & R2 & W2 & G2). eapply runs_Ok_bind; [by apply finish_Ok; left|]. apply runs_ret.
  split; [done|]. split; [by intros C; apply C2, C1|]. split.
  - intros Hno p. rewrite <- finished_unpinned.
    rewrite finished_owned, R2; unfold w1, prepared; by destruct (page_replace (ap w)).
  - intros Hz. specialize (G2 Hz). unfold answer_got in *. fold w1 in E1. rewrite E1, Hap in G2. destruct G2 as [G3 G4].
    split; [by eapply values_got_spares; [|exact G3]|]. destruct (out_pages (ap w)); exact G4.
Qed.

Lemma split_log_nothing w data : no_section w -> split_log w data = [].
Proof. intros [H1 H2]. unfold split_log. by rewrite H1, H2. Qed.

(** C34: an answer for which no section is asked is copied to its request byte by byte.
    Whether the daemon wrote it from memory or through a pipe, and whatever pages of the
    pipe are moved instead of copied, the arguments of the request get the bytes of the
    daemon's buffer in order: each value its size, each page its length at its offset (a
    page that is not full is cleared first when the arguments ask for that).  No section
    is sent to the daemon.  An abort of the connection or a fault ends the copy with an
    error, without either nothing fails, and no page of the daemon stays pinned. *)
Theorem answer_is_copied w pre ms nbytes v pms : feeds w -> no_section w -> answer_fits w pre ms nbytes pms ->
  out_args (ap w) = with_pages w pre nbytes v ->
  runs copy_answer w (fun err w' => err <= 0 /\ (clean w -> err = 0) /\
    (pipebufs (cs w) = None -> forall p, default 0 (refs w' !! p) = owned w p) /\
    (err = 0 -> values_got w' (stream w) pre ms /\ sections w' = sections w /\
      (out_pages (ap w) = true ->
        Forall2 (home S) (pages (ap w)) (pages (ap w')) /\
        holds w' (pages (ap w')) (layout (page_zeroing (ap w))
          (take (Z.to_nat nbytes) (drop (Z.to_nat (room_of pre)) (stream w))) (descs (ap w)) pms)))).
Proof.
  intros F Hno A Ho. eapply runs_mono; [by apply (copy_answer_runs w pre ms nbytes v pms)|].
  intros err w' (He & C & R & G). split; [done|]. split; [done|]. split; [done|]. intros Hz.
  destruct (G Hz) as [G1 G2]. split; [done|]. destruct (out_pages (ap w)).
  - destruct G2 as (H1 & H2 & H3). rewrite H3, split_log_nothing by done. by rewrite app_nil_r.
  - by split.
Qed.
End Reply.
