(* ===== verification/KSectionEx.v ===== *)
(** * Answers with a section, on examples *)
From S2P Require Import Prelude KTypes KForget KQueue KCopy KStream KCopyFacts KPages KSection KReply.
#[local] Open Scope Z_scope.

(** A page whose bytes count up from [k]. *)
Definition ramp (k : Z) : list Z := (fun i => (k + Z.of_nat i) mod 256) <$> seq 0 (Z.to_nat PAGE_SIZE).

(** The answer to a READ of 20 bytes into the parts [descs] of two pages, which the
    daemon spliced from a pipe with two buffers. *)
Definition ex_read_args (ps : list Z) (ds : list (Z * Z)) (n : Z) : fuse_args :=
  mk_args 1 15 false false false false true false true false true [(40, 0)] [(n, 0)] false ps ds.
Definition ex_answer (ps : list Z) (ds : list (Z * Z)) (n header footer : Z) (segs : list seg) : world :=
  mk_world (list_to_map [(10, replicate (Z.to_nat PAGE_SIZE) 0); (11, replicate (Z.to_nat PAGE_SIZE) 0);
                         (20, ramp 0); (21, ramp 100)]) ∅
    (ex_read_args ps ds n) (mk_section header footer 4096)
    (mk_cs false false [] (Some 0%nat) None 16 (Z.of_nat (length segs)) 0 0 0 true)
    segs true false [] [] [Stolen] [] 30 [].

Definition ex_two : world :=
  ex_answer [10; 11] [(12, 5); (8, 0)] 20 3 4 [mk_seg 20 7 9; mk_seg 21 0 11].
Definition ex_daemon (p : Z) : Prop := p = 20 \/ p = 21.

Lemma ramp_length k : Z.of_nat (length (ramp k)) = PAGE_SIZE.
Proof. unfold ramp. rewrite length_fmap, length_seq. done. Qed.

Lemma ex_part w k p o n : p = 20 \/ p = 21 -> mem w !! p = Some (ramp k) -> 0 <= o -> 0 <= n -> o + n <= PAGE_SIZE ->
  part ex_daemon w (mk_seg p o n).
Proof.
  intros Hp Hm Ho Hn Hb. split; [done|]. split; [cbn; lia|]. exists (ramp k). split; [done|]. rewrite ramp_length.
  split; [done|]. unfold within. cbn [sg_off sg_len]. rewrite ramp_length. lia.
Qed.

Lemma ex_two_feeds : feeds ex_daemon ex_two.
Proof.
  split; try done.
  - change (coming ex_two) with [@inr Z seg (mk_seg 20 7 9); inr (mk_seg 21 0 11)].
    apply Forall_cons. split; [split; [by apply (ex_part _ 0); [left|..]|done]|].
    apply Forall_cons. split; [split; [by apply (ex_part _ 100); [right|..]|done]|constructor].
  - by intros i [= <-].
Qed.

Lemma ex_two_fits : answer_fits ex_daemon ex_two [] [] 20 [replicate (Z.to_nat PAGE_SIZE) 0; replicate (Z.to_nat PAGE_SIZE) 0].
Proof.
  split.
  - split; [constructor|apply NoDup_nil_2].
  - intros _. split; [|split; [by intros a ?%elem_of_nil|split; [done|right] ] ].
    + assert (Hp : forall p, p = 10 \/ p = 11 -> p <> 0 /\ ~ ex_daemon p) by (unfold ex_daemon; lia).
      split; [|apply (bool_decide_unpack (NoDup [10; 11])); vm_compute; exact I].
      constructor; [|constructor; [|constructor] ].
      * split; [lia|]. split; [by apply Hp; left|]. split; [done|]. split; [done|]. unfold within. rewrite length_replicate, Z2Nat.id by done. cbn [fst snd]. unfold PAGE_SIZE. lia.
      * split; [lia|]. split; [by apply Hp; right|]. split; [done|]. split; [done|]. unfold within. rewrite length_replicate, Z2Nat.id by done. cbn [fst snd]. unfold PAGE_SIZE. lia.
    + split; try done; try (vm_compute; intuition discriminate).
      * by intros d [= <-].
      * split; [by intros x ?%elem_of_nil|]. split; [done|]. intros p Hp. cbn in Hp.
        apply not_elem_of_list_to_map_1. cbn [fmap list_fmap fst]. intros Hin.
        repeat (apply elem_of_cons in Hin as [->|Hin]; [lia|]). by apply elem_of_nil in Hin.
  - vm_compute. discriminate.
Qed.

(** The header and the footer of a payload that has them. *)
Example section_is_sent :
  stream ex_two = take 9 (drop 7 (ramp 0)) ++ take 11 (ramp 100) /\
  runs copy_answer ex_two (fun err w' => err = 0 /\
    sections w' = [(4096, [7; 8; 9; 107; 108; 109; 110])]).
Proof.
  split; [vm_compute; reflexivity|].
  assert (Ho : out_args (ap ex_two) = with_pages ex_two [] 20 0) by reflexivity.
  assert (Hc : clean ex_two) by (split; constructor).
  eapply runs_mono; [apply (copy_answer_runs ex_daemon ex_two [] [] 20 0 _ ex_two_feeds ex_two_fits Ho)|].
  intros err w' (_ & C & _ & G). specialize (C Hc). split; [exact C|]. destruct (G C) as (_ & _ & _ & Hs).
  rewrite Hs. vm_compute. reflexivity.
Qed.

(** The same answer when no section is asked for. *)
Definition ex_plain : world :=
  ex_answer [10; 11] [(12, 5); (8, 0)] 20 0 0 [mk_seg 20 7 9; mk_seg 21 0 11].

Lemma ex_plain_fits : answer_fits ex_daemon ex_plain [] [] 20 [replicate (Z.to_nat PAGE_SIZE) 0; replicate (Z.to_nat PAGE_SIZE) 0].
Proof.
  destruct ex_two_fits as [ [Hv Hnd] Hp Hs]. split; [by split| |exact Hs]. intros Ho.
  destruct (Hp Ho) as ([Hok Hnd'] & Hd & Hn & _). split; [by split|]. split; [done|]. split; [done|]. by left.
Qed.

Lemma answer_is_copied_witness :
  runs copy_answer ex_plain (fun err w' => err = 0 /\ sections w' = [] /\
    holds w' (pages (ap w')) (layout false (take 9 (drop 7 (ramp 0)) ++ take 11 (ramp 100)) [(12, 5); (8, 0)]
      [replicate (Z.to_nat PAGE_SIZE) 0; replicate (Z.to_nat PAGE_SIZE) 0])).
Proof.
  assert (F : feeds ex_daemon ex_plain) by (destruct ex_two_feeds; by split).
  assert (Hno : no_section ex_plain) by done.
  assert (Ho : out_args (ap ex_plain) = with_pages ex_plain [] 20 0) by reflexivity.
  assert (Hc : clean ex_plain) by (split; constructor).
  eapply runs_mono; [apply (answer_is_copied ex_daemon ex_plain [] [] 20 0 _ F Hno ex_plain_fits Ho)|].
  intros err w' (_ & C & _ & G). specialize (C Hc). split; [exact C|]. destruct (G C) as (_ & Hs & Hg).
  split; [exact Hs|]. destruct (Hg eq_refl) as [_ Hh]. exact Hh.
Defined.

(** With one page the loop of [fuse_split_payload] does not run: the daemon gets zeros. *)
Example one_page_no_section :
  let w := ex_answer [10] [(12, 0)] 12 3 4 [mk_seg 20 7 12] in
  exists w', copy_answer w = Ok (0, w') /\ sections w' = [(4096, replicate 7 0)].
Proof. eexists. split; [vm_compute; reflexivity|vm_compute; reflexivity]. Qed.

(** A payload that ends before the last page: the footer is looked for before the start
    of that page. *)
Example short_payload_bad_access :
  copy_answer (ex_answer [10; 11] [(12, 0); (12, 0)] 12 3 4 [mk_seg 20 7 12]) = Crash BadAccess.
Proof. vm_compute. reflexivity. Qed.

(** The sizes come from the daemon and are not compared with the pages. *)
Example long_header_bad_access :
  copy_answer (ex_answer [10; 11] [(12, 0); (12, 0)] 24 4097 4 [mk_seg 20 7 24]) = Crash BadAccess.
Proof. vm_compute. reflexivity. Qed.

(** The pages keep the header and the footer. *)
Example section_stays_in_pages :
  exists w', copy_answer ex_two = Ok (0, w') /\ (take 3 ∘ drop 5 <$> (pages (ap w') !! 0%nat ≫= (fun p => mem w' !! p))) = Some [7; 8; 9].
Proof. eexists. split; [vm_compute; reflexivity|vm_compute; reflexivity]. Qed.
