(* ===== verification/KSink.v ===== *)
(** * The daemon's buffer in memory as places to write to (proofs about KCopy)

    When a request is copied to memory of the daemon, its bytes go to the places of the
    buffer in order: what is left of the window, and then the parts to come. *)
From S2P Require Import Prelude KTypes KForget KQueue KCopy KStream KCopyFacts.
#[local] Open Scope Z_scope.

#[local] Abbreviation L := (M world).
Implicit Types (w : world) (p q : Z) (b : seg) (l m : list Z).

(** ** Places *)
Definition places p (o n : Z) : list (Z * Z) := (fun i => (p, o + Z.of_nat i)) <$> seq 0 (Z.to_nat n).
Definition seg_places b : list (Z * Z) := places (sg_page b) (sg_off b) (sg_len b).
Definition next_places (x : Z + seg) : list (Z * Z) := match x with inl _ => [] | inr b => seg_places b end.
Definition targets w : list (Z * Z) := seg_places (window w) ++ concat (next_places <$> coming w).
Definition byte_at w (x : Z * Z) : option Z := mem w !! x.1 ≫= (.!! Z.to_nat x.2).

Lemma places_lookup p o n i x : places p o n !! i = Some x <-> x = (p, o + Z.of_nat i) /\ (i < Z.to_nat n)%nat.
Proof.
  unfold places. rewrite list_lookup_fmap, fmap_Some. split.
  - intros (j & Hj & ->). by apply lookup_seq in Hj as [-> ?].
  - intros [-> Hi]. exists i. split; [by apply lookup_seq|done].
Qed.

Lemma places_app p o n k : 0 <= k <= n -> places p o n = places p o k ++ places p (o + k) (n - k).
Proof.
  intros Hk. unfold places. replace (Z.to_nat n) with (Z.to_nat k + Z.to_nat (n - k))%nat by lia.
  rewrite seq_app, fmap_app. f_equal. rewrite <- (Nat.add_0_r (0 + Z.to_nat k)), <- fmap_add_seq, <- list_fmap_compose.
  apply list_fmap_ext. intros i x _. cbn. f_equal. lia.
Qed.

Lemma places_length p o n : length (places p o n) = Z.to_nat n.
Proof. unfold places. by rewrite length_fmap, length_seq. Qed.

Lemma places_in p o n x : x ∈ places p o n <-> x.1 = p /\ o <= x.2 < o + n.
Proof.
  rewrite list_elem_of_lookup. split.
  - intros [i Hi]. apply places_lookup in Hi as [-> Hi]. cbn. lia.
  - destruct x as [q j]. cbn. intros [-> Hj]. exists (Z.to_nat (j - o)). apply places_lookup. split; [f_equal; lia|lia].
Qed.

Lemma put_at_lookup off l m i : within off (Z.of_nat (length l)) m ->
  put_at off l m !! i = if decide (Z.to_nat off <= i < Z.to_nat off + length l)%nat then l !! (i - Z.to_nat off)%nat else m !! i.
Proof.
  intros (Ho & _ & Hb). unfold put_at.
  assert (Ht : length (take (Z.to_nat off) m) = Z.to_nat off) by (rewrite length_take; lia).
  destruct (decide (i < Z.to_nat off)%nat) as [Hlt|Hge].
  { rewrite decide_False by lia. rewrite lookup_app_l by lia. by apply lookup_take_lt. }
  rewrite lookup_app_r, Ht by lia. case_decide as Hd.
  - by apply lookup_app_l; lia.
  - rewrite lookup_app_r by lia. rewrite lookup_drop. f_equal. lia.
Qed.

(** [l] was written to the places [T], and no other byte changed. *)
Definition wrote w (T : list (Z * Z)) l w' : Prop :=
  length T = length l /\
  (forall i x c, T !! i = Some x -> l !! i = Some c -> byte_at w' x = Some c) /\
  (forall x, 0 <= x.2 -> x ∉ T -> byte_at w' x = byte_at w x).

Lemma wrote_nil w w' : mem w' = mem w -> wrote w [] [] w'.
Proof. intros H. split; [done|]. split; [done|]. intros x _ _. unfold byte_at. by rewrite H. Qed.

Lemma wrote_from w0 w w' T l : mem w = mem w0 -> wrote w T l w' -> wrote w0 T l w'.
Proof. intros H (H1 & H2 & H3). split; [done|]. split; [done|]. intros x Hx Hn. rewrite H3 by done. unfold byte_at. by rewrite H. Qed.

Lemma wrote_app w w1 w2 T1 T2 l1 l2 : (forall x, x ∈ T1 -> x ∉ T2) -> (forall x, x ∈ T1 -> 0 <= x.2) ->
  wrote w T1 l1 w1 -> wrote w1 T2 l2 w2 -> wrote w (T1 ++ T2) (l1 ++ l2) w2.
Proof.
  intros Hd Hpos (N1 & H1 & O1) (N2 & H2 & O2). split; [rewrite !length_app; lia|]. split.
  - intros i x c HT Hl. destruct (decide (i < length T1)%nat) as [Hi|Hi].
    + rewrite lookup_app_l in HT by done. rewrite lookup_app_l in Hl by lia.
      assert (Hx : x ∈ T1) by (by eapply list_elem_of_lookup_2). rewrite O2; [by eapply H1|auto|auto].
    + rewrite lookup_app_r in HT by lia. rewrite lookup_app_r in Hl by lia. rewrite N1 in HT. by eapply H2.
  - intros x Hx Hn. rewrite not_elem_of_app in Hn. destruct Hn. rewrite O2, O1 by done. done.
Qed.

Lemma wrote_put w p o l m : mem w !! p = Some m -> within o (Z.of_nat (length l)) m ->
  forall w', mem w' = <[p := put_at o l m]> (mem w) -> wrote w (places p o (Z.of_nat (length l))) l w'.
Proof.
  intros Hm Hw w' Hw'. pose proof Hw as (Ho & _ & Hb). split; [rewrite places_length; lia|]. split.
  - intros i x c Hx Hc. apply places_lookup in Hx as [-> Hi]. unfold byte_at. cbn [fst snd].
    rewrite Hw', lookup_insert_eq. cbn [mbind option_bind]. rewrite put_at_lookup by done.
    rewrite decide_True by lia. rewrite <- Hc. f_equal. lia.
  - intros [q j] Hj Hx. cbn [snd] in Hj. unfold byte_at. cbn [fst snd]. rewrite Hw'.
    destruct (decide (q = p)) as [->|Hq]; [|by rewrite lookup_insert_ne].
    rewrite lookup_insert_eq, Hm. cbn [mbind option_bind]. rewrite put_at_lookup by done.
    rewrite decide_False; [done|]. intros Hin. apply Hx, places_in. cbn. lia.
Qed.

Section Sink.
(** The pages of the daemon's buffer. *)
Context (S : Z -> Prop).

Definition place_ok w (x : Z + seg) : Prop :=
  match x with inl err => err < 0 | inr b => part S w b /\ 0 < sg_len b end.

Record sinks w : Prop := mk_sinks {
  sk_write : cs_write (cs w) = true;
  sk_pipe : pipebufs (cs w) = None;
  sk_cur : currbuf (cs w) = None;
  sk_len : 0 <= cs_len (cs w);
  sk_window : 0 < cs_len (cs w) -> part S w (window w);
  sk_coming : Forall (place_ok w) (coming w);
  sk_nodup : NoDup (targets w);
  sk_move : move_pages (cs w) = false;
}.

(** From [w] on, [l] was written to the daemon, or an error came up. *)
Definition gave w l (err : Z) w' : Prop :=
  err <= 0 /\ spares S nothing w w' /\ (clean w -> err = 0) /\
  (err = 0 -> sinks w' /\ targets w' = drop (length l) (targets w) /\ wrote w (take (length l) (targets w)) l w').
Definition gives l (c : L Z) w : Prop := runs c w (gave w l).

Lemma part_sizes w w' b : (forall p, length <$> mem w' !! p = length <$> mem w !! p) -> part S w b -> part S w' b.
Proof.
  intros H (H1 & H2 & m & Hm & Hl & Hw). split; [done|]. split; [done|]. pose proof (H (sg_page b)) as Hs. rewrite Hm in Hs.
  destruct (mem w' !! sg_page b) as [m'|]; [|done]. injection Hs as Hs. exists m'. unfold within in *. rewrite Hs. done.
Qed.

Lemma targets_pos w x : sinks w -> x ∈ targets w -> 0 <= x.2.
Proof.
  intros K Hx. unfold targets in Hx. apply elem_of_app in Hx as [Hx|Hx].
  - destruct (Z.eqb_spec (cs_len (cs w)) 0) as [E|E]; unfold seg_places in Hx; cbn in Hx; [rewrite E in Hx; by apply elem_of_nil in Hx|].
    apply places_in in Hx. pose proof (sk_len _ K). destruct (sk_window _ K ltac:(lia)) as (_ & _ & m & _ & _ & Ho & _). cbn in Ho. lia.
  - apply list_elem_of_In, in_concat in Hx as (l & Hl & Hx). apply list_elem_of_In, list_elem_of_fmap in Hl as (y & -> & Hy).
    apply list_elem_of_In in Hx. pose proof (sk_coming _ K) as Hf. rewrite Forall_forall in Hf. specialize (Hf y Hy).
    destruct y as [err|b]; [by apply elem_of_nil in Hx|]. destruct Hf as [ (_ & _ & m & _ & _ & Ho & _) _]. apply places_in in Hx. lia.
Qed.

Lemma gave_error w l err w' : err <> 0 -> err <= 0 -> spares S nothing w w' -> (clean w -> err = 0) -> gave w l err w'.
Proof. intros. by split_and!. Qed.

Lemma gave_join w w1 l1 l2 err w2 : sinks w -> spares S nothing w w1 -> targets w1 = drop (length l1) (targets w) ->
  wrote w (take (length l1) (targets w)) l1 w1 -> gave w1 l2 err w2 -> gave w (l1 ++ l2) err w2.
Proof.
  intros K S1 E1 W1 (He & S2 & C2 & Q2).
  split; [done|]. split; [by eapply spares_trans|]. split; [intros C; apply C2, S1, C|]. intros Hz.
  destruct (Q2 Hz) as (K2 & E2 & W2). split; [done|]. rewrite length_app. split; [by rewrite E2, E1, drop_drop|].
  assert (Ht : take (length l1 + length l2) (targets w) = take (length l1) (targets w) ++ take (length l2) (targets w1)).
  { rewrite E1. rewrite <- (take_drop (length l1) (take (length l1 + length l2) (targets w))), take_take, take_drop_commute. f_equal. f_equal. lia. }
  rewrite Ht. eapply wrote_app; [| |exact W1|exact W2].
  - intros x H1 H2. rewrite E1 in H2. pose proof (sk_nodup _ K) as Hn. rewrite <- (take_drop (length l1) (targets w)) in Hn.
    apply NoDup_app in Hn as (_ & Hn & _). apply (Hn x H1). by eapply elem_of_take in H2 as (i & Hi & _); eapply list_elem_of_lookup_2.
  - intros x Hx. apply (targets_pos w); [done|]. eapply elem_of_take in Hx as (i & Hi & _). by eapply list_elem_of_lookup_2.
Qed.

Lemma gave_after w w1 l1 l2 l (c : L Z) : sinks w -> spares S nothing w w1 -> targets w1 = drop (length l1) (targets w) ->
  wrote w (take (length l1) (targets w)) l1 w1 -> l = l1 ++ l2 -> gives l2 c w1 -> runs c w1 (gave w l).
Proof. intros K S1 E1 W1 -> H. eapply runs_mono; [exact H|]. intros err w2. by apply gave_join. Qed.

(** ** Filling *)
Lemma sinks_ext w w' : cs w' = cs w -> (forall p, length <$> mem w' !! p = length <$> mem w !! p) -> sinks w ->
  sinks w' /\ targets w' = targets w.
Proof.
  intros Hc Hm K. pose proof (sk_pipe _ K) as Hp.
  assert (Hco : coming w' = coming w) by (unfold coming; by rewrite Hc, Hp).
  assert (Hw : window w' = window w) by (unfold window; by rewrite Hc).
  assert (Ht : targets w' = targets w) by (unfold targets; by rewrite Hw, Hco).
  split; [|done]. destruct K. split; rewrite ?Hc, ?Hco, ?Hw, ?Ht; try done.
  - intros H. apply (part_sizes w); auto.
  - eapply Forall_impl; [exact sk_coming0|]. intros [err|b]; [done|]. cbn. intros [? ?]. split; [by apply (part_sizes w)|done].
Qed.

Lemma targets_empty w : sinks w -> cs_len (cs w) = 0 -> targets w = concat (next_places <$> coming w).
Proof. intros K Hl. unfold targets, seg_places. cbn. by rewrite Hl. Qed.

(** The window is filled when it is empty. *)
Definition filled_out w err w' : Prop := err <= 0 /\ spares S nothing w w' /\ ap w' = ap w /\ mem w' = mem w /\ (clean w -> err = 0) /\
  (err = 0 -> sinks w' /\ targets w' = targets w /\ 0 < cs_len (cs w')).

Lemma fill_iter_out w : sinks w -> cs_len (cs w) = 0 -> cs_pg (cs w) = 0 -> (0 < length (targets w))%nat ->
  runs fill_from_iter w (filled_out w).
Proof.
  intros K Hl Hpg Ht. unfold fill_from_iter. eapply runs_Ok_bind; [done|].
  pose proof (sk_pipe _ K) as Hp. pose proof (sk_cur _ K) as Hcur.
  assert (Hco : coming w = cs_iter (cs w)) by (unfold coming; by rewrite Hp).
  pose proof (targets_empty w K Hl) as Hte. pose proof (sk_coming _ K) as Hf. rewrite Hco in Hf, Hte. rewrite Hte in Ht.
  destruct (cs_iter (cs w)) as [|[err|b] l] eqn:Hit; [cbn in Ht; lia| |];
    apply Forall_cons in Hf as [Ho Hrest]; cbn in Ho.
  - eapply runs_Ok_bind; [done|]. apply runs_ret.
    assert (Hno : clean w -> False) by (intros C; pose proof (cl_iter _ C) as Hi; rewrite Hit in Hi; by apply Forall_cons in Hi as [ [b Hb] _]).
    split; [lia|]. split; [|split; [done|split; [done|split; [by intros C; destruct (Hno C)|by intros ->] ] ] ].
    split; try done; [unfold coming; cbn; rewrite Hp, Hit; cbn; lia].
  - destruct Ho as [Hb Hpos].
    eapply runs_Ok_bind; [done|]. eapply runs_Ok_bind; [done|]. apply runs_assert_bind; [by zcases; [lia|]|].
    eapply runs_Ok_bind; [done|]. apply runs_ret. cbv beta. set (w2 := set_cs _ _).
    assert (Hw2 : window w2 = b) by (by destruct b).
    assert (Hco2 : coming w2 = l) by (unfold coming; cbn; by rewrite Hp).
    assert (Ht2 : targets w2 = targets w) by (unfold targets at 1; by rewrite Hw2, Hco2, Hte).
    split; [lia|]. split; [|split; [done|split; [done|split; [done|intros _; split; [|split; [exact Ht2|cbn; lia] ] ] ] ] ].
    + split; try done; [rewrite Hco2, Hco; cbn; lia| |].
      * intros _ p. destruct Hb as (_ & Hb0 & _). exact (pinned_owned w b _ p Hcur Hpg Hb0).
      * intros C. pose proof (cl_iter _ C) as Hi. rewrite Hit in Hi. apply Forall_cons in Hi as [_ Hi]. destruct C. by split.
    + destruct K. split; rewrite ?Hw2, ?Hco2, ?Ht2; try done. cbn. lia.
Qed.

Lemma refill_out w : sinks w -> (0 < length (targets w))%nat ->
  runs (if cs_len (cs w) =? 0 then fuse_copy_fill else mret 0) w (filled_out w).
Proof.
  intros K Ht. destruct (Z.eqb_spec (cs_len (cs w)) 0) as [Hl|Hl].
  2: { apply runs_ret. split; [lia|]. split; [apply spares_refl|]. do 3 (split; [done|]). intros _. pose proof (sk_len _ K). split; [done|]. split; [done|lia]. }
  unfold fuse_copy_fill. eapply runs_bind; [apply set_lock_same|]. intros err w1 (He & S1 & C1 & Xc & _ & _ & Xm & Xa).
  assert (S1' : spares S nothing w w1) by (by eapply spares_mono; [..|exact S1]).
  destruct (Z.eqb_spec err 0) as [->|Hne]; cbn [negb].
  2: { apply runs_ret. split; [done|]. split; [done|]. do 3 (split; [done|]). done. }
  destruct (sinks_ext w w1 Xc (sp_sizes _ _ _ _ S1) K) as [K1 E1].
  eapply runs_Ok_bind; [apply finish_Ok; right; apply K1|].
  pose proof (finished_spares w1) as Sf. set (w2 := finished w1) in *.
  assert (K2 : sinks w2 /\ targets w2 = targets w1).
  { assert (Hl1 : cs_len (cs w1) = 0) by congruence.
    assert (Ht2 : targets w2 = targets w1) by (unfold targets, seg_places; cbn; by rewrite Hl1).
    split; [|done]. destruct K1. split; rewrite ?Ht2; try done. cbn. lia. }
  destruct K2 as [K2 E2]. eapply runs_Ok_bind; [done|].
  rewrite (sk_pipe _ K2). eapply runs_bind.
  { apply (fill_iter_out w2 K2); [change (cs_len (cs w1) = 0); congruence|done|rewrite E2, E1; done]. }
  intros err w3 (He3 & S3 & A3 & M3 & C3 & R3).
  assert (S13 : spares S nothing w w3).
  { eapply spares_trans; [exact S1'|]. eapply spares_trans; [by eapply spares_mono; [..|exact Sf]|done]. }
  assert (A13 : ap w3 = ap w) by (rewrite A3; exact Xa). assert (M13 : mem w3 = mem w) by (rewrite M3; exact Xm).
  assert (C13 : clean w -> err = 0) by (intros C; apply C3, Sf, S1, C).
  destruct (Z.eqb_spec err 0) as [->|Hne]; cbn [negb].
  2: { apply runs_ret. split; [done|]. split; [done|]. do 3 (split; [done|]). done. }
  destruct (R3 eq_refl) as (K3 & E3 & L3).
  eapply runs_mono; [apply set_lock_same|]. intros err w4 (He4 & S4 & C4 & Yc & _ & _ & Ym & Ya).
  split; [done|]. split; [eapply spares_trans; [exact S13|]; by eapply spares_mono; [..|exact S4]|].
  split; [congruence|]. split; [congruence|]. split; [intros C; apply C4, S13, C|]. intros _.
  destruct (sinks_ext w3 w4 Yc (sp_sizes _ _ _ _ S4) K3) as [K4 E4]. split; [done|]. split; [congruence|]. by rewrite Yc.
Qed.

(** ** Copying into the window *)
Definition moved_on w n mem' : world :=
  set_cs (set_cs_len (cs_len (cs w) - n) (set_cs_offset (cs_offset (cs w) + n) (cs w))) (set_mem mem' w).

Lemma window_split w n : 0 <= n <= cs_len (cs w) ->
  targets w = places (cs_pg (cs w)) (cs_offset (cs w)) n ++ places (cs_pg (cs w)) (cs_offset (cs w) + n) (cs_len (cs w) - n) ++
    concat (next_places <$> coming w).
Proof. intros Hn. unfold targets, seg_places. cbn. rewrite (places_app _ _ (cs_len (cs w)) n) by done. by rewrite <- app_assoc. Qed.

Lemma copy_do_out w v o m size l : sinks w -> 0 < cs_len (cs w) -> 0 < size -> ~ S v -> mem w !! v = Some m ->
  slice o size m = Some l ->
  let n := Z.min size (cs_len (cs w)) in
  exists w', fuse_copy_do (Some (v, o)) size w = Ok (n, Some (v, o + n), size - n, w') /\
    sinks w' /\ spares S nothing w w' /\ ap w' = ap w /\ targets w' = drop (Z.to_nat n) (targets w) /\
    wrote w (take (Z.to_nat n) (targets w)) (take (Z.to_nat n) l) w' /\
    slice (o + n) (size - n) m = Some (drop (Z.to_nat n) l).
Proof.
  intros K Hlen Hsize HS Hm Hl n. assert (Hn : 0 < n <= size /\ n <= cs_len (cs w)) by lia.
  pose proof (sk_window _ K Hlen) as Hpart. destruct Hpart as (HSp & Hp0 & mp & Hmp & Hmpl & Ho & _ & Hb). cbn in HSp, Hp0, Hmp, Ho, Hb.
  pose proof (slice_Some _ _ _ _ Hl) as (Hw & _ & Hll).
  destruct (slice_split o size n m l ltac:(lia) Hl) as [Hl1 Hl2]. set (l1 := take (Z.to_nat n) l) in *.
  assert (Hn1 : Z.of_nat (length l1) = n) by (unfold l1; rewrite length_take; lia).
  set (mem' := <[cs_pg (cs w) := put_at (cs_offset (cs w)) l1 mp]> (mem w)).
  assert (Hput : within (cs_offset (cs w)) (Z.of_nat (length l1)) mp) by (unfold within; lia).
  exists (moved_on w n mem'). split.
  { unfold fuse_copy_do. rewrite (bind_Ok _ _ w (cs w) w) by done. rewrite (sk_write _ K). fold n.
    rewrite (bind_Ok _ _ w (Some (v, o + n)) (set_mem mem' w)); [done|].
    rewrite (bind_Ok _ _ w tt (set_mem mem' w)); [done|]. unfold memcpy, load_mem, store_mem.
    rewrite (proj2 (Z.eqb_neq n 0)) by lia. rewrite (bind_Ok _ _ w l1 w).
    2: { rewrite (bind_Ok _ _ w w w) by done. cbn [fst snd]. rewrite Hm. rewrite (bind_Ok _ _ w m w) by done. by rewrite Hl1. }
    rewrite bool_decide_eq_false_2 by (intros E; rewrite E in Hn1; cbn in Hn1; lia).
    rewrite (bind_Ok _ _ w w w) by done. cbn [fst snd]. rewrite Hmp. rewrite (bind_Ok _ _ w mp w) by done.
    rewrite splice_within by done. by rewrite (bind_Ok _ _ w (put_at (cs_offset (cs w)) l1 mp) w). }
  set (w' := moved_on w n mem').
  assert (Hsizes : forall p, length <$> mem w' !! p = length <$> mem w !! p).
  { intros p. cbn. unfold mem'. destruct (decide (p = cs_pg (cs w))) as [->|Hp]; [|by rewrite lookup_insert_ne].
    rewrite lookup_insert_eq, Hmp. cbn. by rewrite put_at_length. }
  assert (Hco : coming w' = coming w) by done.
  pose proof (window_split w n ltac:(lia)) as Hsplit.
  assert (Hpl : length (places (cs_pg (cs w)) (cs_offset (cs w)) n) = Z.to_nat n) by apply places_length.
  assert (Htk : take (Z.to_nat n) (targets w) = places (cs_pg (cs w)) (cs_offset (cs w)) n) by (rewrite Hsplit; by rewrite take_app_length').
  assert (Hdr : targets w' = drop (Z.to_nat n) (targets w)) by (rewrite Hsplit, drop_app_length' by done; done).
  split; [|split; [|split; [done|split; [done|split; [|done] ] ] ] ].
  - pose proof (sk_nodup _ K) as Hnd. rewrite <- (take_drop (Z.to_nat n) (targets w)), <- Hdr in Hnd. apply NoDup_app in Hnd as (_ & _ & Hnd).
    destruct K. split; try done; [cbn; lia| |].
    + intros Hpos. apply (part_sizes w); [done|]. split; [done|]. split; [done|]. exists mp. split; [done|]. split; [done|].
      unfold within. cbn in Hpos |- *. lia.
    + rewrite Hco. eapply Forall_impl; [exact sk_coming0|]. intros [err|b]; [done|]. cbn. intros [? ?]. split; [by apply (part_sizes w)|done].
  - split; try done.
    + intros p Hp. cbn. unfold mem'. apply lookup_insert_ne. by intros <-.
    + intros []. by split.
  - rewrite Htk, <- Hn1. by apply (wrote_put w _ _ _ mp).
Qed.

Lemma copy_one_out fuel : forall w v o m size l, sinks w -> ~ S v -> mem w !! v = Some m -> slice o size m = Some l ->
  size <= Z.of_nat (length (targets w)) -> (Z.to_nat size < fuel)%nat ->
  gives l (copy_one_loop fuel (v, o) size) w.
Proof.
  induction fuel as [|fuel IH]; intros w v o m size l K HS Hm Hl Ht Hf; [lia|]. cbn [copy_one_loop].
  pose proof (slice_Some _ _ _ _ Hl) as ((_ & Hsz & _) & _ & Hll).
  destruct (Z.eqb_spec size 0) as [E|Hne].
  { rewrite (nil_length_inv l) by lia. apply runs_ret. split; [done|]. split; [apply spares_refl|]. split; [done|]. intros _.
    split; [done|]. split; [done|]. by apply wrote_nil. }
  eapply runs_Ok_bind; [done|]. eapply runs_bind; [apply refill_out; [done|lia]|].
  intros err w1 (He & S1 & A1 & M1 & C1 & R1).
  destruct (Z.eqb_spec err 0) as [->|Hn]; cbn [negb]; [|by apply runs_ret, gave_error].
  destruct (R1 eq_refl) as (K1 & E1 & L1). rewrite <- M1 in Hm.
  destruct (copy_do_out w1 v o m size l K1 L1 ltac:(lia) HS Hm Hl) as (w2 & Hdo & K2 & S2 & A2 & T2 & W2 & Hl2).
  set (n := Z.min size (cs_len (cs w1))) in *. eapply runs_Ok_bind; [exact Hdo|]. cbn [default from_option id].
  assert (Hn1 : length (take (Z.to_nat n) l) = Z.to_nat n) by (rewrite length_take; lia).
  apply (gave_after w w2 (take (Z.to_nat n) l) (drop (Z.to_nat n) l)); rewrite ?Hn1; try done.
  - by eapply spares_trans.
  - by rewrite T2, E1.
  - rewrite <- E1. eapply wrote_from; [|exact W2]. done.
  - by rewrite take_drop.
  - apply (IH w2 v (o + n) m); try done; [rewrite (sp_mem _ _ _ _ S2); done|rewrite T2, E1, length_drop; lia|lia].
Qed.
End Sink.
