(* ===== verification/KRequest.v ===== *)
(** * What the daemon gets when it reads a request *)
From S2P Require Import Prelude KTypes KForget KQueue KCopy KStream KCopyFacts KPages KSection KReply KSectionEx KSink.
#[local] Open Scope Z_scope.

#[local] Abbreviation L := (M world).
Implicit Types (w : world) (p q : Z) (b : seg) (l m : list Z).

(** The bytes of the parts [ds] of pages with the contents [ms]. *)
Fixpoint parts_bytes (ds : list (Z * Z)) (ms : list (list Z)) : list Z :=
  match ds, ms with
  | (len, off) :: ds, m :: ms => take (Z.to_nat len) (drop (Z.to_nat off) m) ++ parts_bytes ds ms
  | _, _ => []
  end.

Section Request.
(** The pages of the daemon's buffer. *)
Context (S : Z -> Prop).
#[local] Abbreviation sinks := (sinks S).
#[local] Abbreviation gives := (gives S).
#[local] Abbreviation gave := (gave S).

(** A page of the request and its part. *)
Definition page_out w p (d : Z * Z) m : Prop := p <> 0 /\ ~ S p /\ mem w !! p = Some m /\ within d.2 d.1 m.
(** An argument and its bytes. *)
Definition value_is w (a : Z * Z) l : Prop := ~ S a.2 /\ exists m, mem w !! a.2 = Some m /\ slice 0 a.1 m = Some l.

Lemma page_out_spares w w' p d m : spares S nothing w w' -> page_out w p d m -> page_out w' p d m.
Proof. intros H (? & ? & ? & ?). split; [done|]. split; [done|]. by rewrite (sp_mem _ _ _ _ H). Qed.
Lemma value_is_spares w w' a l : spares S nothing w w' -> value_is w a l -> value_is w' a l.
Proof. intros H (? & m & ? & ?). split; [done|]. exists m. by rewrite (sp_mem _ _ _ _ H). Qed.

Lemma page_fill_out i p offset count w : sinks w -> p <> 0 -> (0 < length (targets w))%nat ->
  runs (copy_page_fill i p offset count) w (fun o w' => match o with
    | Some err => err <> 0 /\ gave w [] err w'
    | None => filled_out S w 0 w'
    end).
Proof.
  intros K Hp Ht. unfold copy_page_fill. eapply runs_Ok_bind; [done|]. apply runs_get_bind.
  rewrite (sk_pipe _ _ K), (sk_move _ _ K), andb_false_r. cbn [andb bool_decide is_Some_dec].
  pose proof (refill_out S w K Ht) as Hr. destruct (cs_len (cs w) =? 0).
  - eapply runs_bind; [exact Hr|]. intros err w' (He & S1 & A1 & M1 & C1 & R1). apply runs_ret.
    destruct (Z.eqb_spec err 0) as [->|Hn]; [by split_and!|]. split; [done|]. by apply gave_error.
  - destruct Hr as (e & w' & [= <- <-] & H). apply runs_ret. exact H.
Qed.

Lemma copy_page_out fuel : forall w i p offset count m l, sinks w -> p <> 0 -> ~ S p -> mem w !! p = Some m ->
  slice offset count m = Some l -> count <= Z.of_nat (length (targets w)) -> (Z.to_nat count < fuel)%nat ->
  gives l (copy_page_loop fuel i p offset count) w.
Proof.
  induction fuel as [|fuel IH]; intros w i p offset count m l K Hp HS Hm Hl Ht Hf; [lia|]. cbn [copy_page_loop].
  pose proof (slice_Some _ _ _ _ Hl) as ((_ & Hsz & _) & _ & Hll).
  destruct (Z.eqb_spec count 0) as [E|Hne].
  { rewrite (nil_length_inv l) by lia. apply runs_ret. split; [done|]. split; [apply spares_refl|]. split; [done|]. intros _.
    split; [done|]. split; [done|]. by apply wrote_nil. }
  eapply runs_bind; [apply (page_fill_out i p offset count w K Hp); lia|].
  intros [err|] w1 H1.
  { destruct H1 as (Hn & He & S1 & C1 & _). by apply runs_ret, gave_error. }
  destruct H1 as (_ & S1 & A1 & M1 & C1 & R1). destruct (R1 eq_refl) as (K1 & E1 & L1). rewrite <- M1 in Hm.
  destruct (copy_do_out S w1 p offset m count l K1 L1 ltac:(lia) HS Hm Hl) as (w2 & Hdo & K2 & S2 & A2 & T2 & W2 & Hl2).
  set (n := Z.min count (cs_len (cs w1))) in *. rewrite (proj2 (Z.eqb_neq p 0) Hp). eapply runs_Ok_bind; [exact Hdo|].
  assert (Hn1 : length (take (Z.to_nat n) l) = Z.to_nat n) by (rewrite length_take; lia).
  apply (gave_after S w w2 (take (Z.to_nat n) l) (drop (Z.to_nat n) l)); rewrite ?Hn1; try done.
  - by eapply spares_trans.
  - by rewrite T2, E1.
  - rewrite <- E1. eapply wrote_from; [|exact W2]. done.
  - by rewrite take_drop.
  - apply (IH w2 i p (offset + n) _ m); try done; [rewrite (sp_mem _ _ _ _ S2); done|rewrite T2, E1, length_drop; lia|lia].
Qed.

Lemma fuse_copy_page_out w i p offset count m l : sinks w -> p <> 0 -> ~ S p -> pages (ap w) !! i = Some p ->
  mem w !! p = Some m -> slice offset count m = Some l -> count <= Z.of_nat (length (targets w)) ->
  gives l (fuse_copy_page i offset count false) w.
Proof.
  intros K Hp HS Hi Hm Hl Ht. unfold fuse_copy_page. eapply runs_Ok_bind; [by apply load_page_Ok|].
  rewrite andb_false_r. cbn [andb]. eapply runs_Ok_bind; [done|]. apply runs_get_bind.
  apply (copy_page_out _ w i p offset count m l); try done. unfold copy_fuel. lia.
Qed.

(** The parts of the pages [ps], as far as [nbytes] go. *)
Lemma pages_loop_out ps : forall ds ms w qs0 ds0 nbytes lb, sinks w -> Forall3 (page_out w) ps ds ms ->
  pages (ap w) = qs0 ++ ps -> descs (ap w) = ds0 ++ ds -> length ds0 = length qs0 ->
  0 <= nbytes <= Z.of_nat (length (targets w)) ->
  runs (copy_pages_loop (length ps) (length qs0) nbytes false lb) w (fun r w' =>
    gave w (take (Z.to_nat nbytes) (parts_bytes ds ms)) r.1 w').
Proof.
  induction ps as [|p ps IH]; intros ds ms w qs0 ds0 nbytes lb K H Hp Hd Hl Hn; inversion H as [|p' d m ps' ds1 ms1 Hpage Hrest]; subst.
  - cbn [parts_bytes]. rewrite take_nil. apply runs_ret. split; [done|]. split; [apply spares_refl|]. split; [done|]. intros _.
    split; [done|]. split; [done|]. by apply wrote_nil.
  - destruct d as [len off]. pose proof Hpage as (Hp0 & HS & Hm & Hw). cbn [fst snd] in Hw. pose proof Hw as (Ho & Hl0 & Hb).
    cbn [length copy_pages_loop]. rewrite orb_false_r. destruct (Z.eqb_spec nbytes 0) as [->|Hnz]; cbn [negb].
    { cbn [Z.to_nat take]. apply runs_ret. split; [done|]. split; [apply spares_refl|]. split; [done|]. intros _.
      split; [done|]. split; [done|]. by apply wrote_nil. }
    eapply runs_Ok_bind.
    { replace (length qs0) with (length ds0) by done. apply load_desc_Ok. rewrite Hd, lookup_app_r, Nat.sub_diag by lia. done. }
    cbn [fst snd parts_bytes]. set (count := Z.min nbytes len).
    assert (Hi : pages (ap w) !! length qs0 = Some p) by (rewrite Hp, lookup_app_r, Nat.sub_diag by lia; done).
    set (l1 := take (Z.to_nat len) (drop (Z.to_nat off) m)).
    assert (Hl1 : Z.of_nat (length l1) = len) by (unfold l1; rewrite length_take, length_drop; lia).
    assert (Hsl : slice off count m = Some (take (Z.to_nat count) l1)).
    { apply (slice_split off len count m l1 ltac:(lia) (slice_within _ _ _ Hw)). }
    assert (Hcl : length (take (Z.to_nat count) l1) = Z.to_nat count) by (rewrite length_take; lia).
    eapply runs_bind; [apply (fuse_copy_page_out w _ p off count m _ K Hp0 HS Hi Hm Hsl); lia|].
    intros err w1 (He & S1 & C1 & R1).
    destruct (Z.eqb_spec err 0) as [->|Hne]; cbn [negb]; [|by apply runs_ret, gave_error].
    destruct (R1 eq_refl) as (K1 & E1 & W1). apply runs_get_bind.
    pose proof (f_equal descs (sp_args _ _ _ _ S1)) as Hd1. cbn in Hd1.
    assert (Hp1 : pages (ap w1) = pages (ap w)) by (apply list_eq; intros j; apply (sp_pages _ _ _ _ S1); intros []).
    assert (Hdata : take (Z.to_nat nbytes) (l1 ++ parts_bytes ds1 ms1) =
      take (Z.to_nat count) l1 ++ take (Z.to_nat (nbytes - count)) (parts_bytes ds1 ms1)).
    { rewrite take_app. destruct (decide (nbytes <= len)).
      - replace (nbytes - count) with 0 by lia. replace (Z.to_nat nbytes - length l1)%nat with 0%nat by lia. f_equal. f_equal. lia.
      - rewrite !take_ge with (l := l1) by lia. f_equal. f_equal. lia. }
    rewrite Hdata. replace (Datatypes.S (length qs0)) with (length (qs0 ++ [p])) by (rewrite length_app; cbn; lia).
    eapply runs_mono.
    { apply (IH ds1 ms1 w1 (qs0 ++ [p]) (ds0 ++ [(len, off)])); try done.
      - eapply Forall3_impl; [exact Hrest|]. intros. by eapply page_out_spares.
      - by rewrite Hp1, Hp, <- app_assoc.
      - by rewrite Hd1, Hd, <- app_assoc.
      - rewrite !length_app; cbn; lia.
      - rewrite E1, length_drop. lia. }
    intros [e lb'] w2. cbn [fst]. by apply gave_join.
Qed.

Lemma split_nothing n w : no_section w -> fuse_split_payload n w = Ok (0, w).
Proof. intros [H1 H2]. unfold fuse_split_payload. rewrite (bind_Ok _ _ w w w) by done. by rewrite H1, H2. Qed.

Lemma fuse_copy_pages_out w nbytes ms : sinks w -> Forall3 (page_out w) (pages (ap w)) (descs (ap w)) ms -> no_section w ->
  0 <= nbytes <= Z.of_nat (length (targets w)) ->
  gives (take (Z.to_nat nbytes) (parts_bytes (descs (ap w)) ms)) (fuse_copy_pages nbytes false) w.
Proof.
  intros K H Hno Hn. unfold fuse_copy_pages. apply runs_get_bind.
  eapply runs_bind; [exact (pages_loop_out (pages (ap w)) (descs (ap w)) ms w [] [] nbytes 0 K H eq_refl eq_refl eq_refl Hn)|].
  intros [err lb] w1 G. cbn [fst] in G. destruct (Z.eqb_spec err 0) as [->|Hne]; cbn [negb]; [|by apply runs_ret].
  exists 0, w1. split; [|done]. apply split_nothing. destruct G as (_ & S1 & _). unfold no_section in *. by rewrite (sp_out _ _ _ _ S1).
Qed.

Lemma copy_one_gives w v size l : sinks w -> value_is w (size, v) l -> Z.of_nat (length l) <= Z.of_nat (length (targets w)) ->
  gives l (fuse_copy_one (v, 0) size) w.
Proof.
  intros K (HS & m & Hm & Hl) Ht. cbn [fst snd] in *. unfold fuse_copy_one. apply runs_get_bind.
  pose proof (slice_Some _ _ _ _ Hl) as (_ & _ & Hll).
  apply (copy_one_out S _ w v 0 m size l); try done; [lia|]. unfold copy_fuel. lia.
Qed.

Lemma copy_values_out args : forall w ls, sinks w -> Forall2 (value_is w) args ls ->
  Z.of_nat (length (concat ls)) <= Z.of_nat (length (targets w)) -> gives (concat ls) (copy_values args) w.
Proof.
  induction args as [|[size v] args IH]; intros w ls K H Ht; inversion H as [|a l args' ls' Hv Hrest]; subst.
  { apply runs_ret. split; [done|]. split; [apply spares_refl|]. split; [done|]. intros _.
    split; [done|]. split; [done|]. by apply wrote_nil. }
  cbn [concat] in *. rewrite length_app in Ht. cbn [copy_values].
  eapply runs_bind; [by apply (copy_one_gives w v size l); [..|lia]|]. intros err w1 (He & S1 & C1 & R1).
  destruct (Z.eqb_spec err 0) as [->|Hne]; cbn [negb]; [|by apply runs_ret, gave_error].
  destruct (R1 eq_refl) as (K1 & E1 & W1). eapply gave_after; try done.
  apply IH; [done| |rewrite E1, length_drop; lia]. eapply Forall2_impl; [exact Hrest|]. intros. by eapply value_is_spares.
Qed.

(** A request: its header, the values of its arguments, and pages for [nbytes] when its
    last argument is pages.  It has no answer yet, and so no section. *)
Record request_is w in_h hd pre ls (nbytes : Z) pms : Prop := mk_request_is {
  ri_header : value_is w (SIZEOF_IN_HEADER, in_h) hd;
  ri_values : Forall2 (value_is w) pre ls;
  ri_pages : in_pages (ap w) = true -> Forall3 (page_out w) (pages (ap w)) (descs (ap w)) pms /\ 0 <= nbytes /\ no_section w;
}.

Definition args_of w pre (nbytes v : Z) : list (Z * Z) := pre ++ (if in_pages (ap w) then [(nbytes, v)] else []).
Definition pages_data w (nbytes : Z) pms : list Z :=
  if in_pages (ap w) then take (Z.to_nat nbytes) (parts_bytes (descs (ap w)) pms) else [].
Definition message_of w hd ls nbytes pms : list Z := hd ++ concat ls ++ pages_data w nbytes pms.

Lemma copy_args_out w pre ls nbytes v pms : sinks w -> Forall2 (value_is w) pre ls ->
  (in_pages (ap w) = true -> Forall3 (page_out w) (pages (ap w)) (descs (ap w)) pms /\
    0 <= nbytes <= Z.of_nat (length (targets w)) - Z.of_nat (length (concat ls)) /\ no_section w) ->
  Z.of_nat (length (concat ls)) <= Z.of_nat (length (targets w)) ->
  gives (concat ls ++ pages_data w nbytes pms) (fuse_copy_args (in_pages (ap w)) (args_of w pre nbytes v) false) w.
Proof.
  intros K Hv Hp Ht. set (rest := if in_pages (ap w) then [(nbytes, v)] else []).
  eapply runs_as; [apply copy_args_split; by destruct (in_pages (ap w))|].
  eapply runs_bind; [by apply (copy_values_out pre w ls)|]. intros err w1 (He & S1 & C1 & R1).
  destruct (Z.eqb_spec err 0) as [->|Hne]; cbn [negb]; [|by apply runs_ret, gave_error].
  destruct (R1 eq_refl) as (K1 & E1 & W1).
  eapply gave_after; [done|done|exact E1|exact W1|done|]. unfold pages_data. destruct (in_pages (ap w)) eqn:Hin.
  - destruct (Hp eq_refl) as (Hpages & Hn & Hno). cbn [fuse_copy_args]. rewrite bool_decide_eq_true_2 by done. cbn [andb].
    pose proof (f_equal descs (sp_args _ _ _ _ S1)) as Hd1. cbn in Hd1.
    assert (Hp1 : pages (ap w1) = pages (ap w)) by (apply list_eq; intros j; apply (sp_pages _ _ _ _ S1); intros []).
    rewrite <- Hd1. eapply runs_bind.
    { apply (fuse_copy_pages_out w1 nbytes pms); [done| | |rewrite E1, length_drop; lia].
      - rewrite Hp1, Hd1. eapply Forall3_impl; [exact Hpages|]. intros. by eapply page_out_spares.
      - unfold no_section in *. by rewrite (sp_out _ _ _ _ S1). }
    intros err w2 G. destruct (Z.eqb_spec err 0) as [->|Hne]; cbn [negb]; by apply runs_ret.
  - cbn [fuse_copy_args]. apply runs_ret. split; [done|]. split; [apply spares_refl|]. split; [done|]. intros _.
    split; [done|]. split; [done|]. by apply wrote_nil.
Qed.

(** C35: a request reaches the daemon byte by byte.  The places of the daemon's buffer get,
    in order, the header of the request, the values of its arguments and the parts of its
    pages, as many bytes as there are, and no other byte of any object changes.  An abort
    or a fault ends the copy with an error, without either nothing fails, and no page of
    the daemon stays pinned. *)
Theorem request_is_copied w in_h hd pre ls nbytes v pms : sinks w -> request_is w in_h hd pre ls nbytes pms ->
  in_args (ap w) = args_of w pre nbytes v ->
  let msg := message_of w hd ls nbytes pms in
  Z.of_nat (length (hd ++ concat ls)) + (if in_pages (ap w) then nbytes else 0) <= Z.of_nat (length (targets w)) ->
  runs (copy_request in_h) w (fun err w' => err <= 0 /\ (clean w -> err = 0) /\
    (forall p, default 0 (refs w' !! p) = owned w p) /\
    (err = 0 -> wrote w (take (length msg) (targets w)) msg w')).
Proof.
  intros K [Hh Hv Hp] Ha msg Ht. unfold copy_request. eapply runs_Ok_bind; [done|].
  set (w1 := set_cs _ w). assert (K1 : sinks w1) by (destruct K; by split).
  assert (Hn : 0 <= (if in_pages (ap w) then nbytes else 0)) by (destruct (in_pages (ap w)); [by apply Hp|done]).
  rewrite length_app in Ht. change (targets w) with (targets w1) in Ht.
  eapply runs_bind; [apply (copy_one_gives w1 in_h _ hd K1 Hh); lia|]. intros err w2 (He & S2 & C2 & R2).
  apply runs_get_bind. apply (runs_bind _ _ _ (gave w1 msg)).
  - destruct (Z.eqb_spec err 0) as [->|Hne]; cbn [negb]; [|by apply runs_ret, gave_error].
    destruct (R2 eq_refl) as (K2 & E2 & W2).
    pose proof (sp_args _ _ _ _ S2) as Ea. pose proof (f_equal in_pages Ea) as Xi. pose proof (f_equal in_args Ea) as Xa.
    pose proof (f_equal descs Ea) as Xd. cbn in Xi, Xa, Xd.
    assert (Xp : pages (ap w2) = pages (ap w)) by (apply list_eq; intros j; apply (sp_pages _ _ _ _ S2); intros []).
    assert (Hmsg : msg = hd ++ concat ls ++ pages_data w2 nbytes pms) by (unfold pages_data; by rewrite Xi, Xd).
    eapply gave_after; [done|done|exact E2|exact W2|exact Hmsg|].
    rewrite Xa, Ha. replace (args_of w pre nbytes v) with (args_of w2 pre nbytes v) by (unfold args_of; by rewrite Xi).
    assert (Ht2 : Z.of_nat (length (targets w2)) = Z.of_nat (length (targets w1)) - Z.of_nat (length hd)) by (rewrite E2, length_drop; lia).
    apply copy_args_out; [done|eapply Forall2_impl; [exact Hv|]; intros; by eapply value_is_spares| |lia].
    rewrite Xi, Xp, Xd. intros Hin. destruct (Hp Hin) as (H1 & H2 & H3). rewrite Hin in Ht.
    split; [eapply Forall3_impl; [exact H1|]; intros; by eapply page_out_spares|].
    split; [lia|]. unfold no_section in *. by rewrite (sp_out _ _ _ _ S2).
  - intros e w3 (He3 & S3 & C3 & R3).
    pose proof (sp_cur _ _ _ _ S3 (sk_pipe _ _ K1) (sk_cur _ _ K1)) as Hcur.
    eapply runs_Ok_bind; [by apply finish_Ok; right|]. apply runs_ret. split; [done|].
    split; [intros C; apply C3; by destruct C|]. split.
    + intros p. rewrite <- finished_unpinned, finished_owned. exact (sp_refs _ _ _ _ S3 (sk_pipe _ _ K1) p).
    + intros Hz. destruct (R3 Hz) as (_ & _ & W3). exact W3.
Qed.
End Request.

(** A WRITE of six bytes of a page, read into a buffer that lies in two pages. *)
Definition ex_write_args : fuse_args :=
  mk_args 1 16 false false false true false false false false false [(16, 11); (6, 0)] [(8, 0)] false [12] [(6, 3)].
Definition ex_write : world :=
  mk_world (list_to_map [(10, replicate 40 1); (11, replicate 16 2); (12, ramp 0);
                         (20, replicate (Z.to_nat PAGE_SIZE) 0); (21, replicate (Z.to_nat PAGE_SIZE) 0)]) ∅
    ex_write_args (mk_section 0 0 0)
    (mk_cs true false [inr (mk_seg 20 4090 6); inr (mk_seg 21 0 100)] None None 0 0 0 0 0 false)
    [] false false [] [] [] [] 30 [].

Lemma ex_write_part p o n : p = 20 \/ p = 21 -> 0 <= o -> 0 <= n -> o + n <= PAGE_SIZE -> part ex_daemon ex_write (mk_seg p o n).
Proof.
  intros Hp Ho Hn Hb. split; [done|]. split; [cbn; lia|]. exists (replicate (Z.to_nat PAGE_SIZE) 0).
  rewrite length_replicate, Z2Nat.id by done. split; [destruct Hp as [->|Hp]; [done|by subst]|].
  split; [done|]. unfold within. rewrite length_replicate, Z2Nat.id by done. cbn [sg_off sg_len]. lia.
Qed.

Lemma ex_write_sinks : sinks ex_daemon ex_write.
Proof.
  split; try done.
  - apply Forall_cons. split; [split; [by apply ex_write_part; [left|..]|done]|].
    apply Forall_cons. split; [split; [by apply ex_write_part; [right|..]|done]|constructor].
  - apply (bool_decide_unpack _). vm_compute. exact I.
Qed.

Lemma ex_write_request : request_is ex_daemon ex_write 10 (replicate 40 1) [(16, 11)] [replicate 16 2] 6 [ramp 0].
Proof.
  assert (Hp : forall p, p < 20 -> ~ ex_daemon p) by (unfold ex_daemon; lia).
  split.
  - split; [by apply Hp|]. by exists (replicate 40 1).
  - constructor; [|constructor]. split; [by apply Hp|]. by exists (replicate 16 2).
  - intros _. split; [|done]. constructor; [|constructor]. split; [done|]. split; [by apply Hp|]. split; [done|].
    unfold within. rewrite ramp_length. done.
Qed.

Lemma request_is_copied_witness :
  message_of ex_write (replicate 40 1) [replicate 16 2] 6 [ramp 0] = replicate 40 1 ++ replicate 16 2 ++ [3; 4; 5; 6; 7; 8] /\
  runs (copy_request 10) ex_write (fun err w' => err = 0 /\ byte_at w' (20, 4090) = Some 1 /\ byte_at w' (21, 55) = Some 8).
Proof.
  split; [vm_compute; reflexivity|].
  assert (Ha : in_args (ap ex_write) = args_of ex_write [(16, 11)] 6 0) by reflexivity.
  assert (Hc : clean ex_write) by (split; try constructor; eauto).
  eapply runs_mono; [apply (request_is_copied ex_daemon ex_write 10 _ _ _ 6 0 _ ex_write_sinks ex_write_request Ha)|].
  { vm_compute. discriminate. }
  intros err w' (_ & C & _ & W). specialize (C Hc). split; [exact C|]. destruct (W C) as (_ & H & _).
  split; [apply (H 0%nat)|apply (H 61%nat)]; vm_compute; reflexivity.
Defined.
