(* ===== verification/KDir.v ===== *)
(** * Reading directories in the kernel (fuse_module/readdir.c)

    A call of [fuse_readdir] parses the entries the daemon sends and passes them on to
    the virtual file system; with FOPEN_CACHE_DIR it also keeps them in the page cache
    of the directory, and later calls read them there.  Many threads read one directory
    at a time: wherever a thread holds no spin lock, the others may change the cache
    ([others]).  The fields of the cache are read and written under its spin lock, a page
    under its page lock.  Times and attributes of inodes, the mutex for file systems that
    want no parallel lookups, and the hint for READDIRPLUS left on a child are left out. *)
From S2P Require Import Prelude.
#[local] Open Scope Z_scope.

Definition EIO : Z := 5.
Definition ENOMEM : Z := 12.
Definition PAGE_SHIFT : Z := 12.
Definition PAGE_SIZE : Z := 4096.
Definition FUSE_NAME_MAX : Z := 1024.
Definition FUSE_ROOT_ID : Z := 1.
Definition FUSE_NAME_OFFSET : Z := 24.
Definition FUSE_NAME_OFFSET_DIRENTPLUS : Z := 152.
Definition UNCACHED : Z := 1.
Definition SLASH : Z := 47.
Definition DOT : Z := 46.

(** ** Entries *)

Definition FUSE_DIRENT_ALIGN (x : Z) : Z := Z.land (x + 7) (Z.lnot 7).
Definition FUSE_DIRENT_SIZE (namelen : Z) : Z := FUSE_DIRENT_ALIGN (FUSE_NAME_OFFSET + namelen).
Definition FUSE_DIRENTPLUS_SIZE (namelen : Z) : Z :=
  FUSE_DIRENT_ALIGN (FUSE_NAME_OFFSET_DIRENTPLUS + namelen).

(** The unsigned number in the [n] bytes at [i]. *)
Definition field (b : list Z) (i n : nat) : Z :=
  le_num (take n (drop i b)) mod 256 ^ Z.of_nat n.

(** An unsigned number stored in a [loff_t]. *)
Definition loff (z : Z) : Z := if z <? 2 ^ 63 then z else z - 2 ^ 64.

(** [struct fuse_dirent] at the start of [b]. *)
Definition d_ino (b : list Z) : Z := field b 0 8.
Definition d_off (b : list Z) : Z := loff (field b 8 8).
Definition d_namelen (b : list Z) : Z := field b 16 4.
Definition d_type (b : list Z) : Z := field b 20 4.
Definition d_name (b : list Z) : list Z := take (Z.to_nat (d_namelen b)) (drop 24 b).

(** [memchr(dirent->name, '/', dirent->namelen) != NULL]. *)
Definition has_slash (name : list Z) : bool := existsb (Z.eqb SLASH) name.

Definition bad_namelen (b : list Z) : bool :=
  (d_namelen b =? 0) || (FUSE_NAME_MAX <? d_namelen b).

(** [struct fuse_entry_out] at the start of [b]: node, generation, and the size and mode
    of its attributes. *)
Definition o_nodeid (b : list Z) : Z := field b 0 8.
Definition o_generation (b : list Z) : Z := field b 8 8.
Definition o_size (b : list Z) : Z := field b 48 8.
Definition o_mode (b : list Z) : Z := field b 100 4.

Definition S_IFMT : Z := 0xf000.
Definition fuse_valid_type (m : Z) : bool :=
  let f := Z.land m S_IFMT in
  (f =? 0x8000) || (f =? 0x4000) || (f =? 0xa000) || (f =? 0x2000) ||
  (f =? 0x6000) || (f =? 0x1000) || (f =? 0xc000).
Definition fuse_invalid_attr (size mode : Z) : bool :=
  negb (fuse_valid_type mode) || (2 ^ 63 - 1 <? size).
Definition invalid_nodeid (nodeid : Z) : bool := (nodeid =? 0) || (nodeid =? FUSE_ROOT_ID).

(** ** State *)

(** [rdc] of [struct fuse_inode]. *)
Record rdcache : Type := mk_rdc {
  cached : bool;
  rc_size : Z;
  rc_pos : Z;
  rc_version : Z;
  rc_mtime : Z * Z;
  rc_iversion : Z;
}.

(** A directory: its cache, its pages in the page cache, and what the checks read of
    its inode; [advise] is the bit FUSE_I_ADVISE_RDPLUS. *)
Record dirst : Type := mk_dir {
  rdc : rdcache;
  pages : gmap Z (list Z);
  i_mtime : Z * Z;
  i_iversion : Z;
  advise : bool;
}.

(** [readdir] of [struct fuse_file]. *)
Record rdstream : Type := mk_stream { rs_pos : Z; cache_off : Z; rs_version : Z }.

(** What [dir_emit] passes on: name, inode number, type, and the position before. *)
Record emitted : Type := mk_emitted {
  em_name : list Z; em_ino : Z; em_type : Z; em_pos : Z;
}.

(** The thread that reads: its open file and its [struct dir_context] (position and
    entries passed on), the locks it holds, whether a WARN_ON has fired, the nodes whose
    [nlookup] it has counted up and those it has sent a FORGET for; [clock] counts the
    points at which others run. *)
Record rstate : Type := mk_rstate {
  dir : dirst;
  stream : rdstream;
  ctx_pos : Z;
  ctx_out : list emitted;
  rdc_lock : bool;
  page_lock : option Z;
  warned : bool;
  counted : list Z;
  forgotten : list Z;
  clock : nat;
}.

Definition set_dir (d : dirst) (s : rstate) : rstate :=
  mk_rstate d (stream s) (ctx_pos s) (ctx_out s) (rdc_lock s) (page_lock s)
    (warned s) (counted s) (forgotten s) (clock s).
Definition set_stream (r : rdstream) (s : rstate) : rstate :=
  mk_rstate (dir s) r (ctx_pos s) (ctx_out s) (rdc_lock s) (page_lock s)
    (warned s) (counted s) (forgotten s) (clock s).
Definition set_ctx_pos (p : Z) (s : rstate) : rstate :=
  mk_rstate (dir s) (stream s) p (ctx_out s) (rdc_lock s) (page_lock s)
    (warned s) (counted s) (forgotten s) (clock s).
Definition set_ctx_out (l : list emitted) (s : rstate) : rstate :=
  mk_rstate (dir s) (stream s) (ctx_pos s) l (rdc_lock s) (page_lock s)
    (warned s) (counted s) (forgotten s) (clock s).
Definition set_rdc_lock (b : bool) (s : rstate) : rstate :=
  mk_rstate (dir s) (stream s) (ctx_pos s) (ctx_out s) b (page_lock s)
    (warned s) (counted s) (forgotten s) (clock s).
Definition set_page_lock (o : option Z) (s : rstate) : rstate :=
  mk_rstate (dir s) (stream s) (ctx_pos s) (ctx_out s) (rdc_lock s) o
    (warned s) (counted s) (forgotten s) (clock s).
Definition set_warned (b : bool) (s : rstate) : rstate :=
  mk_rstate (dir s) (stream s) (ctx_pos s) (ctx_out s) (rdc_lock s) (page_lock s)
    b (counted s) (forgotten s) (clock s).
Definition set_counted (l : list Z) (s : rstate) : rstate :=
  mk_rstate (dir s) (stream s) (ctx_pos s) (ctx_out s) (rdc_lock s) (page_lock s)
    (warned s) l (forgotten s) (clock s).
Definition set_forgotten (l : list Z) (s : rstate) : rstate :=
  mk_rstate (dir s) (stream s) (ctx_pos s) (ctx_out s) (rdc_lock s) (page_lock s)
    (warned s) (counted s) l (clock s).
Definition set_clock (t : nat) (s : rstate) : rstate :=
  mk_rstate (dir s) (stream s) (ctx_pos s) (ctx_out s) (rdc_lock s) (page_lock s)
    (warned s) (counted s) (forgotten s) t.

Definition set_rdc (c : rdcache) (d : dirst) : dirst :=
  mk_dir c (pages d) (i_mtime d) (i_iversion d) (advise d).
Definition set_pages (g : gmap Z (list Z)) (d : dirst) : dirst :=
  mk_dir (rdc d) g (i_mtime d) (i_iversion d) (advise d).
Definition set_advise (b : bool) (d : dirst) : dirst :=
  mk_dir (rdc d) (pages d) (i_mtime d) (i_iversion d) b.

Definition fuse_init_dir (c : rdcache) : rdcache :=
  mk_rdc false 0 0 0 (rc_mtime c) (rc_iversion c).

(** What the dentry cache holds for a name: a dentry that is being looked up, or one
    with or without an inode (its node, generation and mode, and whether it is bad). *)
Record kinode : Type := mk_kinode {
  k_nodeid : Z; k_generation : Z; k_mode : Z; k_bad : bool;
}.
Inductive dentry : Type := InLookup | Known (i : option kinode).

(** Where a thread is while others run: anywhere, about to create a page, or holding the
    lock of one. *)
Inductive window : Type := Anywhere | Creating (index : Z) | Holding (index : Z).

(** What the rest of the kernel does, at the time of the clock: the other threads, the
    allocation of a page and what the new page holds, whether the reader's buffer takes
    an entry, the answer of the daemon to a request at a position (with READDIRPLUS or
    not), the error of refreshing the attributes, the dentry [d_lookup] finds, the
    results of the calls of [d_alloc_parallel] that follow (the last one fails), and the
    results of [fuse_iget] and [d_splice_alias]. *)
Record world : Type := mk_world {
  others : nat -> window -> dirst -> dirst;
  page_ok : nat -> bool;
  garbage : nat -> list Z;
  room : list emitted -> emitted -> bool;
  reply : nat -> bool -> Z -> Z + list Z;
  update_err : nat -> Z;
  d_lookup : nat -> option dentry;
  d_alloc_parallel : nat -> list dentry * Z;
  iget_ok : nat -> bool;
  splice_err : nat -> Z;
}.

(** Settings of the connection and the file. *)
Record rdconf : Type := mk_rdconf {
  do_readdirplus : bool;
  readdirplus_auto : bool;
  auto_inval_data : bool;
  cache_dir : bool;
  is_bad : bool;
}.

Section Readdir.
Context (e : world) (c : rdconf).

#[local] Abbreviation R := (M rstate).

(** The others run; they leave the locks of this thread alone. *)
Definition yield (w : window) : R unit :=
  modifyM (fun s => set_clock (S (clock s)) (set_dir (others e (clock s) w (dir s)) s)).

Definition here : R window :=
  s ← getM; mret (match page_lock s with Some i => Holding i | None => Anywhere end).

Definition spin_lock : R unit :=
  w ← here; yield w;; s ← getM; assertM (negb (rdc_lock s));; modifyM (set_rdc_lock true).
Definition spin_unlock : R unit :=
  s ← getM; assertM (rdc_lock s);; modifyM (set_rdc_lock false).

(** The fields of the cache, under its lock. *)
Definition load_rdc : R rdcache := s ← getM; assertM (rdc_lock s);; mret (rdc (dir s)).
Definition store_rdc (r : rdcache) : R unit :=
  s ← getM; assertM (rdc_lock s);; modifyM (set_dir (set_rdc r (dir s))).

Definition WARN_ON (b : bool) : R bool :=
  (if b then modifyM (set_warned true) else mret tt);; mret b.

(** Whether the page is there; then it is locked. *)
Definition lock_page (index : Z) : R bool :=
  s ← getM;
  match pages (dir s) !! index with
  | Some _ => assertM (bool_decide (page_lock s = None));;
              modifyM (set_page_lock (Some index));; mret true
  | None => mret false
  end.

Definition find_lock_page (index : Z) : R bool := yield Anywhere;; lock_page index.

Definition find_or_create_page (index : Z) : R bool :=
  yield (Creating index);;
  found ← lock_page index;
  s ← getM;
  if found : bool then mret true
  else if page_ok e (clock s) then
    modifyM (fun s => set_page_lock (Some index)
      (set_dir (set_pages (<[index := garbage e (clock s)]> (pages (dir s))) (dir s)) s));;
    mret true
  else mret false.

Definition unlock_page : R unit :=
  s ← getM; assertM (bool_decide (page_lock s <> None));; modifyM (set_page_lock None).

(** A page that is locked, read and written. *)
Definition load_page (index : Z) : R (list Z) :=
  s ← getM; assertM (bool_decide (page_lock s = Some index));;
  derefM (pages (dir s) !! index).
Definition store_page (index : Z) (b : list Z) : R unit :=
  s ← getM; assertM (bool_decide (page_lock s = Some index));;
  modifyM (set_dir (set_pages (<[index := b]> (pages (dir s))) (dir s))).

(** [memcpy(addr + offset, l, length l)] in a page. *)
Definition copy_at (offset : Z) (l b : list Z) : option (list Z) :=
  if Z.of_nat (length b) <? offset + Z.of_nat (length l) then None
  else Some (take (Z.to_nat offset) b ++ l ++ drop (Z.to_nat offset + length l) b).

Definition zero_page : list Z := replicate (Z.to_nat PAGE_SIZE) 0.
Definition page_offset (x : Z) : Z := x mod PAGE_SIZE.
Definition page_index (x : Z) : Z := Z.shiftr x PAGE_SHIFT.
Definition page_align (x : Z) : Z := (x + PAGE_SIZE - 1) / PAGE_SIZE * PAGE_SIZE.

(** [rec] is the record of the entry: [FUSE_DIRENT_SIZE] bytes. *)
Definition fuse_add_dirent_to_cache (rec : list Z) (pos : Z) : R unit :=
  let reclen := FUSE_DIRENT_SIZE (d_namelen rec) in
  spin_lock;;
  r ← load_rdc;
  if cached r || negb (pos =? rc_pos r) then spin_unlock
  else
    let version := rc_version r in
    let size := rc_size r in
    let fits := page_offset size + reclen <=? PAGE_SIZE in
    let index := if fits then page_index size else page_index size + 1 in
    let offset := if fits then page_offset size else 0 in
    spin_unlock;;
    got ← (if negb (offset =? 0) then find_lock_page index else find_or_create_page index);
    if negb got then mret tt
    else
      spin_lock;;
      r ← load_rdc;
      raced ← (if negb (rc_version r =? version) || negb (rc_size r =? size) then mret true
               else WARN_ON (negb (rc_pos r =? pos)));
      (if raced : bool then mret tt
       else
         (if offset =? 0 then store_page index zero_page else mret tt);;
         b ← load_page index;
         b' ← derefM (copy_at offset (take (Z.to_nat reclen) rec) b);
         store_page index b';;
         store_rdc (mk_rdc (cached r) (Z.shiftl index PAGE_SHIFT + offset + reclen)
           (d_off rec) (rc_version r) (rc_mtime r) (rc_iversion r)));;
      spin_unlock;; unlock_page.

(** [truncate_inode_pages]: the pages from [end_] on are gone. *)
Definition truncate_inode_pages (end_ : Z) : R unit :=
  yield Anywhere;;
  modifyM (fun s => set_dir (set_pages
    (filter (fun p => p.1 * PAGE_SIZE < end_) (pages (dir s))) (dir s)) s).

Definition fuse_readdir_cache_end (pos : Z) : R unit :=
  spin_lock;;
  r ← load_rdc;
  if negb (rc_pos r =? pos) then spin_unlock
  else
    store_rdc (mk_rdc true (rc_size r) (rc_pos r) (rc_version r) (rc_mtime r)
      (rc_iversion r));;
    spin_unlock;;
    truncate_inode_pages (page_align (rc_size r)).

Definition dir_emit (rec : list Z) : R bool :=
  s ← getM;
  let em := mk_emitted (d_name rec) (d_ino rec) (d_type rec) (ctx_pos s) in
  if room e (ctx_out s) em then modifyM (set_ctx_out (ctx_out s ++ [em]));; mret true
  else mret false.

Definition fuse_emit (rec : list Z) : R bool :=
  s ← getM;
  (if cache_dir c then fuse_add_dirent_to_cache rec (ctx_pos s) else mret tt);;
  dir_emit rec.

(** The loop of [parse_dirfile]; [buf] holds the bytes not parsed yet. *)
Fixpoint parse_dirfile (fuel : nat) (buf : list Z) : R Z :=
  match fuel with
  | O => crashM OutOfFuel
  | S fuel =>
    let nbytes := Z.of_nat (length buf) in
    if nbytes <? FUSE_NAME_OFFSET then mret 0
    else
      let reclen := FUSE_DIRENT_SIZE (d_namelen buf) in
      if bad_namelen buf then mret (- EIO)
      else if nbytes <? reclen then mret 0
      else if has_slash (d_name buf) then mret (- EIO)
      else
        ok ← fuse_emit buf;
        if negb ok then mret 0
        else
          modifyM (set_ctx_pos (d_off buf));;
          parse_dirfile fuel (drop (Z.to_nat reclen) buf)
  end.

(** A reply has at most a page, and a record at least 32 bytes. *)
Definition parse_fuel : nat := 129.

(** ** READDIRPLUS *)

Definition is_dot (name : list Z) : bool :=
  match name with
  | [a] => a =? DOT
  | [a; b] => (a =? DOT) && (b =? DOT)
  | _ => false
  end.

Definition fuse_stale_inode (i : kinode) (generation mode : Z) : bool :=
  negb (k_generation i =? u32 generation) ||
  negb (Z.land (Z.lxor (k_mode i) mode) S_IFMT =? 0).

Definition count_nlookup (nodeid : Z) : R unit :=
  modifyM (fun s => set_counted (counted s ++ [nodeid]) s).

(** The dentry is being looked up: [fuse_iget] counts the lookup. *)
Definition link_new (nodeid : Z) : R Z :=
  s ← getM;
  if negb (iget_ok e (clock s)) then mret (- ENOMEM)
  else count_nlookup nodeid;; mret (splice_err e (clock s)).

(** From the test of [d_in_lookup] on; [more] are the results of [d_alloc_parallel] to
    come before it fails with [err]. *)
Fixpoint link_dentry (nodeid generation mode : Z) (err : Z) (de : dentry)
    (more : list dentry) : R Z :=
  match de with
  | InLookup => link_new nodeid
  | Known i =>
    let i := match i with
             | Some i => if negb (k_nodeid i =? nodeid) then None else Some i
             | None => None
             end in
    match i with
    | Some i =>
      if fuse_stale_inode i generation mode then
        match more with
        | [] => mret err
        | de :: more => link_dentry nodeid generation mode err de more
        end
      else if k_bad i then mret (- EIO)
      else count_nlookup nodeid;; mret 0
    | None =>
      match more with
      | [] => mret err
      | de :: more => link_dentry nodeid generation mode err de more
      end
    end
  end.

Definition fuse_direntplus_link (buf : list Z) : R Z :=
  let rec := drop 128 buf in
  if o_nodeid buf =? 0 then mret 0
  else if is_dot (d_name rec) then mret 0
  else if invalid_nodeid (o_nodeid buf) then mret (- EIO)
  else if fuse_invalid_attr (o_size buf) (o_mode buf) then mret (- EIO)
  else
    yield Anywhere;; s ← getM;
    let '(more, err) := d_alloc_parallel e (clock s) in
    match d_lookup e (clock s), more with
    | Some de, _ => link_dentry (o_nodeid buf) (o_generation buf) (o_mode buf) err de more
    | None, de :: more => link_dentry (o_nodeid buf) (o_generation buf) (o_mode buf) err de more
    | None, [] => mret err
    end.

Definition fuse_force_forget (nodeid : Z) : R unit :=
  modifyM (fun s => set_forgotten (forgotten s ++ [nodeid]) s).

Fixpoint parse_dirplusfile (fuel : nat) (over : bool) (buf : list Z) : R Z :=
  match fuel with
  | O => crashM OutOfFuel
  | S fuel =>
    let nbytes := Z.of_nat (length buf) in
    if nbytes <? FUSE_NAME_OFFSET_DIRENTPLUS then mret 0
    else
      let rec := drop 128 buf in
      let reclen := FUSE_DIRENTPLUS_SIZE (d_namelen rec) in
      if bad_namelen rec then mret (- EIO)
      else if nbytes <? reclen then mret 0
      else if has_slash (d_name rec) then mret (- EIO)
      else
        over ← (if over : bool then mret true
                else
                  ok ← fuse_emit rec;
                  (if ok : bool then modifyM (set_ctx_pos (d_off rec)) else mret tt);;
                  mret (negb ok));
        ret ← fuse_direntplus_link buf;
        (if negb (ret =? 0) then fuse_force_forget (o_nodeid buf) else mret tt);;
        parse_dirplusfile fuel over (drop (Z.to_nat reclen) buf)
  end.

(** ** Without the cache *)

Definition fuse_use_readdirplus : R bool :=
  s ← getM;
  if negb (do_readdirplus c) then mret false
  else if negb (readdirplus_auto c) then mret true
  else if advise (dir s) then modifyM (set_dir (set_advise false (dir s)));; mret true
  else mret (ctx_pos s =? 0).

Definition fuse_readdir_uncached : R Z :=
  yield Anywhere;; s ← getM;
  if negb (page_ok e (clock s)) then mret (- ENOMEM)
  else
    plus ← fuse_use_readdirplus;
    yield Anywhere;; s ← getM;
    match reply e (clock s) plus (ctx_pos s) with
    | inl err => mret err
    | inr [] => (if cache_dir c then fuse_readdir_cache_end (ctx_pos s) else mret tt);; mret 0
    | inr buf => if plus then parse_dirplusfile parse_fuel false buf
                 else parse_dirfile parse_fuel buf
    end.

(** ** From the cache *)

Inductive parse_result : Type := FOUND_ERR | FOUND_NONE | FOUND_SOME | FOUND_ALL.

(** The loop of [fuse_parse_cache] over the page [b], from [offset]. *)
Fixpoint parse_loop (fuel : nat) (b : list Z) (size offset : Z) (res : parse_result)
    : R parse_result :=
  match fuel with
  | O => crashM OutOfFuel
  | S fuel =>
    let rec := drop (Z.to_nat offset) b in
    let nbytes := u32 (size - offset) in
    if (nbytes <? FUSE_NAME_OFFSET) || (d_namelen rec =? 0) then mret res
    else
      let reclen := FUSE_DIRENT_SIZE (d_namelen rec) in
      w1 ← WARN_ON (FUSE_NAME_MAX <? d_namelen rec);
      if w1 : bool then mret FOUND_ERR
      else
        w2 ← WARN_ON (nbytes <? reclen);
        if w2 : bool then mret FOUND_ERR
        else
          w3 ← WARN_ON (has_slash (d_name rec));
          if w3 : bool then mret FOUND_ERR
          else
            let next res :=
              modifyM (fun s => set_stream (mk_stream (d_off rec)
                (cache_off (stream s) + reclen) (rs_version (stream s))) s);;
              parse_loop fuel b size (offset + reclen) res in
            s ← getM;
            if rs_pos (stream s) =? ctx_pos s then
              ok ← dir_emit rec;
              if negb ok then mret FOUND_ALL
              else modifyM (set_ctx_pos (d_off rec));; next FOUND_SOME
            else next res
  end.

Definition fuse_parse_cache (b : list Z) (size : Z) : R parse_result :=
  s ← getM;
  let offset := page_offset (cache_off (stream s)) in
  WARN_ON (size <=? offset);;
  parse_loop parse_fuel b size offset FOUND_NONE.

Definition fuse_rdc_reset : R unit :=
  r ← load_rdc;
  store_rdc (mk_rdc false 0 0 (u64 (rc_version r + 1)) (rc_mtime r) (rc_iversion r)).

Definition reset_stream (s : rstate) : rstate :=
  set_stream (mk_stream 0 0 (rs_version (stream s))) s.

(** From [retry_locked] to the lookup of the page, with the cache locked: the result, or
    the page to read and how much of it is in use. *)
Definition choose_page : R (Z + Z * Z) :=
  r ← load_rdc;
  s ← getM;
  (if negb (rc_version r =? rs_version (stream s)) then modifyM reset_stream else mret tt);;
  modifyM (fun s =>
    if rs_pos (stream s) =? 0
    then set_stream (mk_stream (rs_pos (stream s)) (cache_off (stream s)) (rc_version r)) s
    else s);;
  s ← getM;
  WARN_ON (rc_size r <? cache_off (stream s));;
  let index := page_index (cache_off (stream s)) in
  let size := if index =? page_index (rc_size r) then page_offset (rc_size r)
              else PAGE_SIZE in
  spin_unlock;;
  mret (if page_offset (cache_off (stream s)) =? size then inl 0 else inr (index, size)).

(** From [retry] ([locked] false) or [retry_locked] (true) to a return or to the next jump
    to one of them. *)
Definition cached_step (locked : bool) : R (Z + bool) :=
  (if locked then mret tt else spin_lock);;
  r ← load_rdc;
  s ← getM;
  if negb (cached r) then
    (if (ctx_pos s =? 0) && (rc_size r =? 0)
     then store_rdc (mk_rdc (cached r) (rc_size r) (rc_pos r) (rc_version r)
            (i_mtime (dir s)) (i_iversion (dir s)))
     else mret tt);;
    spin_unlock;; mret (inl UNCACHED)
  else if (ctx_pos s =? 0) &&
          (negb (i_iversion (dir s) =? rc_iversion r) ||
           negb (bool_decide (rc_mtime r = i_mtime (dir s))))
  then fuse_rdc_reset;; mret (inr true)
  else
    choice ← choose_page;
    match choice with
    | inl res => mret (inl res)
    | inr (index, size) =>
      got ← find_lock_page index;
      spin_lock;;
      r ← load_rdc;
      s ← getM;
      if negb got then
        (if rc_version r =? rs_version (stream s) then fuse_rdc_reset else mret tt);;
        mret (inr true)
      else if negb (rs_version (stream s) =? rc_version r) then
        spin_unlock;; unlock_page;; mret (inr false)
      else
        spin_unlock;;
        b ← load_page index;
        res ← fuse_parse_cache b size;
        unlock_page;;
        match res with
        | FOUND_ERR => mret (inl (- EIO))
        | FOUND_ALL => mret (inl 0)
        | _ =>
          if size =? PAGE_SIZE then
            modifyM (fun s => set_stream (mk_stream (rs_pos (stream s))
              (page_align (cache_off (stream s))) (rs_version (stream s))) s);;
            mret (inr false)
          else mret (inl (match res with FOUND_SOME => 0 | _ => UNCACHED end))
        end
    end.

Fixpoint cached_loop (fuel : nat) (locked : bool) : R Z :=
  match fuel with
  | O => crashM OutOfFuel
  | S fuel =>
    r ← cached_step locked;
    match r with inl res => mret res | inr locked => cached_loop fuel locked end
  end.

Definition fuse_readdir_cached (fuel : nat) : R Z :=
  s ← getM;
  (if negb (rs_pos (stream s) =? ctx_pos s) then modifyM reset_stream else mret tt);;
  err ← (if (ctx_pos s =? 0) && auto_inval_data c
         then yield Anywhere;; s ← getM; mret (update_err e (clock s)) else mret 0);
  if negb (err =? 0) then mret err else cached_loop fuel false.

Definition fuse_readdir (fuel : nat) : R Z :=
  if is_bad c then mret (- EIO)
  else
    err ← (if cache_dir c then fuse_readdir_cached fuel else mret UNCACHED);
    if err =? UNCACHED then fuse_readdir_uncached else mret err.

End Readdir.
