(* ===== verification/KDirFacts.v ===== *)
(** * Records, pages and the layout of the directory cache

    The cache is described by a list of pages, each a list of records: [page_bytes] is
    what a page holds, [size_of] the size of the cache, [grow1] what adding a record
    does, and [at_pos] a place in it.  [listing] states what is known about the entries of the
    directory and the replies of the daemon. *)
From S2P Require Import Prelude KDir.
#[local] Open Scope Z_scope.

Notation len l := (Z.of_nat (length l)).

(** ** Numbers in buffers *)

Lemma align8 x : FUSE_DIRENT_ALIGN x = (x + 7) / 8 * 8.
Proof.
  unfold FUSE_DIRENT_ALIGN. change (Z.land (x + 7) (Z.lnot 7)) with (Z.ldiff (x + 7) (Z.ones 3)).
  rewrite Z.ldiff_ones_r by lia. by rewrite Z.shiftl_mul_pow2, Z.shiftr_div_pow2 by lia.
Qed.

Lemma align8_bounds x : x <= FUSE_DIRENT_ALIGN x < x + 8.
Proof. rewrite align8. Z.to_euclidean_division_equations. lia. Qed.

Lemma align8_plus x : FUSE_DIRENT_ALIGN (128 + x) = 128 + FUSE_DIRENT_ALIGN x.
Proof.
  rewrite !align8. replace (128 + x + 7) with (x + 7 + 16 * 8) by lia.
  rewrite Z.div_add by lia. lia.
Qed.

Lemma dirent_size_bounds n : 24 + n <= FUSE_DIRENT_SIZE n < 32 + n.
Proof. pose proof (align8_bounds (24 + n)). unfold FUSE_DIRENT_SIZE, FUSE_NAME_OFFSET. lia. Qed.

Lemma dirent_size_min n : 1 <= n -> 32 <= FUSE_DIRENT_SIZE n.
Proof. intros H. unfold FUSE_DIRENT_SIZE, FUSE_NAME_OFFSET. rewrite align8.
  Z.to_euclidean_division_equations. lia. Qed.

Lemma direntplus_size n : FUSE_DIRENTPLUS_SIZE n = 128 + FUSE_DIRENT_SIZE n.
Proof. unfold FUSE_DIRENTPLUS_SIZE, FUSE_DIRENT_SIZE. rewrite <- align8_plus.
  unfold FUSE_NAME_OFFSET_DIRENTPLUS, FUSE_NAME_OFFSET. f_equal. lia. Qed.

Lemma field_app b r i n : (i + n <= length b)%nat -> field (b ++ r) i n = field b i n.
Proof.
  intros H. unfold field. rewrite drop_app_le, take_app_le by (rewrite ?length_drop; lia). done.
Qed.

Lemma field_mid a b r i n : length a = i -> length b = n -> field (a ++ b ++ r) i n = le_num b mod 256 ^ Z.of_nat n.
Proof.
  intros <- <-. unfold field. by rewrite drop_app_length, take_app_length.
Qed.

Lemma field_zeros k i n : field (replicate k 0) i n = 0.
Proof.
  unfold field. rewrite drop_replicate, take_replicate.
  replace (le_num _) with 0; [apply Z.mod_0_l; lia|].
  generalize (n `min` (k - i))%nat. intros m. induction m as [|m IH]; simpl; lia.
Qed.

(** ** Records *)

Definition reclen (r : list Z) : Z := FUSE_DIRENT_SIZE (d_namelen r).

Lemma d_namelen_pos r : 0 <= d_namelen r.
Proof. unfold d_namelen, field. apply Z.mod_pos_bound. lia. Qed.

(** A record the kernel accepts. *)
Definition valid (r : list Z) : Prop :=
  1 <= d_namelen r <= FUSE_NAME_MAX /\ len r = reclen r /\ has_slash (d_name r) = false.

#[global] Instance valid_dec r : Decision (valid r).
Proof. unfold valid. apply _. Defined.

Lemma valid_length r : valid r -> 32 <= len r <= 1056 /\ 24 + d_namelen r <= len r.
Proof.
  intros (Hn & Hl & _). unfold reclen in Hl. unfold FUSE_NAME_MAX in Hn.
  pose proof (dirent_size_bounds (d_namelen r)). pose proof (dirent_size_min (d_namelen r)).
  lia.
Qed.

(** The fields of a record do not depend on what follows it. *)
Lemma fields_app r t : 24 <= len r -> 24 + d_namelen r <= len r ->
  d_namelen (r ++ t) = d_namelen r /\ d_off (r ++ t) = d_off r /\
  d_ino (r ++ t) = d_ino r /\ d_type (r ++ t) = d_type r /\ d_name (r ++ t) = d_name r.
Proof.
  intros H1 H2. unfold d_namelen, d_off, d_ino, d_type.
  rewrite !field_app by lia. repeat split. unfold d_name.
  assert (Hn : d_namelen (r ++ t) = d_namelen r) by (unfold d_namelen; rewrite field_app; [done|lia]).
  rewrite Hn, drop_app_le, take_app_le; [done| |lia]. rewrite length_drop.
  assert (0 <= d_namelen r \/ d_namelen r < 0) as [?|?] by lia; lia.
Qed.

(** The record at the start of a buffer. *)
Definition head_rec (b : list Z) : list Z := take (Z.to_nat (reclen b)) b.

(** What the two parsers find at the start of a buffer: nothing more, something that is
    refused, or a record. *)
Lemma head_rec_ok b : bad_namelen b = false -> 24 <= len b -> reclen b <= len b ->
  has_slash (d_name b) = false ->
  valid (head_rec b) /\ len (head_rec b) = reclen b /\
  b = head_rec b ++ drop (Z.to_nat (reclen b)) b /\
  d_off b = d_off (head_rec b) /\ d_name b = d_name (head_rec b) /\
  d_ino b = d_ino (head_rec b) /\ d_type b = d_type (head_rec b) /\
  d_namelen b = d_namelen (head_rec b).
Proof.
  unfold bad_namelen. intros [Hb1%Z.eqb_neq Hb2%Z.ltb_ge]%orb_false_iff H24 Hl Hs.
  assert (Hn : 1 <= d_namelen b <= FUSE_NAME_MAX) by (pose proof (d_namelen_pos b); lia).
  assert (Hlen : len (head_rec b) = reclen b).
  { unfold head_rec. rewrite length_take. pose proof (dirent_size_min (d_namelen b)).
    unfold reclen in *. lia. }
  assert (Hsplit : b = head_rec b ++ drop (Z.to_nat (reclen b)) b)
    by (symmetry; apply take_drop).
  pose proof (dirent_size_bounds (d_namelen b)). pose proof (dirent_size_min (d_namelen b)).
  assert (Hnl : d_namelen b = d_namelen (head_rec b)).
  { rewrite Hsplit at 1. unfold d_namelen at 1. rewrite field_app; [done|].
    unfold reclen in Hlen. lia. }
  destruct (fields_app (head_rec b) (drop (Z.to_nat (reclen b)) b)) as (_ & Ho & Hi & Ht & Hm);
    [unfold reclen in *; lia..|].
  rewrite <- Hsplit in Ho, Hi, Ht, Hm.
  split_and!; [|done..]. unfold valid. rewrite <- Hnl, <- Hm. split_and!; [lia..| |done].
  rewrite Hlen. unfold reclen. by rewrite Hnl.
Qed.

(** The records of a reply, each with the [o] bytes before it ([o] is 0, or 128 for
    READDIRPLUS), and whether the reply is refused after them. *)
Fixpoint split (fuel o : nat) (buf : list Z) : list (list Z * list Z) * bool :=
  match fuel with
  | O => ([], false)
  | S fuel =>
    let r := drop o buf in
    if len buf <? Z.of_nat o + 24 then ([], false)
    else if bad_namelen r then ([], true)
    else if len buf <? Z.of_nat o + reclen r then ([], false)
    else if has_slash (d_name r) then ([], true)
    else
      let (l, bad) := split fuel o (drop (Z.to_nat (Z.of_nat o + reclen r)) buf) in
      ((take o buf, head_rec r) :: l, bad)
  end.

Definition records (plus : bool) (buf : list Z) : list (list Z) :=
  (split parse_fuel (if plus then 128 else 0) buf).1.*2.
Definition refused (plus : bool) (buf : list Z) : bool :=
  (split parse_fuel (if plus then 128 else 0) buf).2.

Lemma split_valid fuel o : forall buf, Forall valid (split fuel o buf).1.*2.
Proof.
  induction fuel as [|fuel IH]; intros buf; cbn [split]; [constructor|].
  destruct (Z.ltb_spec (len buf) (Z.of_nat o + 24)); [constructor|].
  destruct (bad_namelen (drop o buf)) eqn:Hb; [constructor|].
  destruct (Z.ltb_spec (len buf) (Z.of_nat o + reclen (drop o buf))); [constructor|].
  destruct (has_slash (d_name (drop o buf))) eqn:Hs; [constructor|].
  specialize (IH (drop (Z.to_nat (Z.of_nat o + reclen (drop o buf))) buf)).
  destruct (split fuel o _) as [l bad]. simpl. constructor; [|done].
  apply head_rec_ok; try done; rewrite length_drop; lia.
Qed.

Lemma parse_fuel_val : Z.of_nat parse_fuel = 129.
Proof. reflexivity. Qed.
#[global] Opaque parse_fuel.

(** ** Positions *)

(** The position after the records [l] that start at [p]. *)
Fixpoint ends (p : Z) (l : list (list Z)) : Z :=
  match l with [] => p | r :: l => ends (d_off r) l end.

Lemma ends_app p l k : ends p (l ++ k) = ends (ends p l) k.
Proof. revert p. induction l as [|r l IH]; intros p; simpl; auto. Qed.

(** What the reader's buffer gets for them. *)
Definition emits (p : Z) (r : list Z) : emitted := mk_emitted (d_name r) (d_ino r) (d_type r) p.
Fixpoint emitted_from (p : Z) (l : list (list Z)) : list emitted :=
  match l with [] => [] | r :: l => emits p r :: emitted_from (d_off r) l end.

Lemma emitted_app p l k : emitted_from p (l ++ k) = emitted_from p l ++ emitted_from (ends p l) k.
Proof. revert p. induction l as [|r l IH]; intros p; simpl; [done|]. by rewrite IH. Qed.

Fixpoint chain (next : Z -> list Z -> Prop) (p : Z) (l : list (list Z)) : Prop :=
  match l with [] => True | r :: l => next p r /\ chain next (d_off r) l end.

Lemma chain_app next p l k : chain next p (l ++ k) <-> chain next p l /\ chain next (ends p l) k.
Proof. revert p. induction l as [|r l IH]; intros p; simpl; [tauto|]. rewrite IH. tauto. Qed.

Lemma Forall_last {A} (P : A -> Prop) l x : Forall P (l ++ [x]) -> P x.
Proof. intros H. rewrite Forall_app, Forall_singleton in H. tauto. Qed.

(** ** Pages *)

Definition bytes (l : list (list Z)) : Z := len (concat l).
Definition page_bytes (l : list (list Z)) : list Z :=
  concat l ++ replicate (Z.to_nat (PAGE_SIZE - bytes l)) 0.
Definition good_page (l : list (list Z)) : Prop :=
  l <> [] /\ Forall valid l /\ bytes l <= PAGE_SIZE.

Definition size_of (g : list (list (list Z))) : Z :=
  match last g with
  | None => 0
  | Some l => PAGE_SIZE * (Z.of_nat (length g) - 1) + bytes l
  end.

Lemma bytes_app l k : bytes (l ++ k) = bytes l + bytes k.
Proof. unfold bytes. rewrite concat_app, length_app. lia. Qed.
Lemma bytes_one r : bytes [r] = len r.
Proof. unfold bytes. simpl. by rewrite app_nil_r. Qed.
Lemma bytes_cons r l : bytes (r :: l) = len r + bytes l.
Proof. change (r :: l) with ([r] ++ l). by rewrite bytes_app, bytes_one. Qed.

Lemma bytes_count l : Forall valid l -> 32 * len l <= bytes l.
Proof.
  induction 1 as [|r l Hr _ IH]; [done|]. rewrite bytes_cons. simpl.
  pose proof (valid_length r Hr). lia.
Qed.

Lemma good_page_bytes l : good_page l -> 32 <= bytes l <= PAGE_SIZE.
Proof.
  intros (Hne & Hv & Hb). split; [|done]. pose proof (bytes_count l Hv).
  destruct l; simpl in *; [done|lia].
Qed.

Lemma page_bytes_length l : bytes l <= PAGE_SIZE -> len (page_bytes l) = PAGE_SIZE.
Proof.
  intros H. unfold page_bytes, bytes in *. rewrite length_app, length_replicate. lia.
Qed.

Lemma size_snoc g l : size_of (g ++ [l]) = PAGE_SIZE * len g + bytes l.
Proof. unfold size_of. rewrite last_snoc, length_app. simpl. lia. Qed.

Lemma size_cases g : Forall good_page g ->
  (g = [] /\ size_of g = 0) \/
  exists h l, g = h ++ [l] /\ good_page l /\ size_of g = PAGE_SIZE * len h + bytes l.
Proof.
  intros Hg. destruct g as [|l h _] using rev_ind; [by left|]. right.
  apply Forall_last in Hg.
  exists h, l. split_and!; [done|done|apply size_snoc].
Qed.

(** The page of the cache's end: the last one, or the next when that is full. *)
Lemma size_index g : Forall good_page g ->
  (exists h l, g = h ++ [l] /\ good_page l /\ bytes l < PAGE_SIZE /\
     page_index (size_of g) = len h /\ page_offset (size_of g) = bytes l) \/
  (size_of g = PAGE_SIZE * len g /\ page_index (size_of g) = len g /\
     page_offset (size_of g) = 0).
Proof.
  unfold page_index, page_offset, PAGE_SHIFT. rewrite Z.shiftr_div_pow2 by lia.
  change (2 ^ 12) with PAGE_SIZE.
  intros [[-> ->]|(h & l & -> & Hl & ->)]%size_cases; [by right|].
  pose proof (good_page_bytes l Hl) as Hb. unfold PAGE_SIZE in *.
  destruct (decide (bytes l < 4096)) as [Hlt|Hge].
  - left. exists h, l. split_and!; try done; Z.to_euclidean_division_equations; lia.
  - right. rewrite length_app. simpl. split_and!; Z.to_euclidean_division_equations; lia.
Qed.

(** ** Adding a record *)

(** Adding [r] at the end of the last page or on a new page. *)
Definition grow1 (r : list Z) (g g' : list (list (list Z))) : Prop :=
  Forall good_page g' /\
  ((exists h l, g = h ++ [l] /\ g' = h ++ [l ++ [r]]) \/ g' = g ++ [[r]]).

Definition grown : relation (list (list (list Z))) := rtc (fun g g' => exists r, grow1 r g g').

Lemma grow1_concat r g g' : grow1 r g g' -> concat g' = concat g ++ [r].
Proof.
  intros (_ & [(h & l & -> & ->)| ->]); rewrite !concat_app; simpl; rewrite ?app_nil_r; [|done].
  by rewrite app_assoc.
Qed.

Lemma grow1_good r g g' : grow1 r g g' -> Forall good_page g'.
Proof. by intros []. Qed.

Lemma grow1_valid r g g' : grow1 r g g' -> valid r.
Proof.
  intros (Hg & [(h & l & -> & ->)| ->]).
  - apply Forall_last in Hg as (_ & Hv & _). by apply Forall_last in Hv.
  - apply Forall_last in Hg as (_ & Hv & _). by apply (Forall_last _ []) in Hv.
Qed.

Lemma grow1_size r g g' : Forall good_page g -> grow1 r g g' -> size_of g + 32 <= size_of g'.
Proof.
  intros Hg Hgr. pose proof (valid_length r (grow1_valid _ _ _ Hgr)) as [Hr _].
  destruct Hgr as (_ & [(h & l & -> & ->)| ->]); rewrite ?size_snoc.
  - rewrite bytes_app, bytes_one. lia.
  - rewrite bytes_one. destruct (size_cases g Hg) as [[-> ->]|(h & l & -> & Hl & ->)].
    + simpl. lia.
    + pose proof (good_page_bytes l Hl). rewrite length_app. simpl. lia.
Qed.

Lemma grown_good g g' : grown g g' -> Forall good_page g -> Forall good_page g'.
Proof. induction 1 as [|g h g' [r Hr] _ IH]; eauto using grow1_good. Qed.

Lemma grown_size g g' : grown g g' -> Forall good_page g ->
  g' = g \/ size_of g + 32 <= size_of g'.
Proof.
  induction 1 as [|g h g' [r Hr] _ IH]; intros Hg; [by left|]. right.
  pose proof (grow1_size _ _ _ Hg Hr). destruct IH as [->|]; eauto using grow1_good; lia.
Qed.

(** ** Places in the cache *)

Definition nth_page (g : list (list (list Z))) (p : nat) : list (list Z) := default [] (g !! p).

(** The offset [off] stands for [k] records into page [p], before the record after
    position [pos]. *)
Record at_place (g : list (list (list Z))) (off pos : Z) (p k : nat) : Prop := {
  place_page : (p <= length g)%nat;
  place_rec : (k <= length (nth_page g p))%nat;
  place_in : bytes (take k (nth_page g p)) < PAGE_SIZE;
  place_off : off = PAGE_SIZE * Z.of_nat p + bytes (take k (nth_page g p));
  place_pos : pos = ends 0 (concat (take p g) ++ take k (nth_page g p));
  place_size : off <= size_of g;
}.
Definition at_pos (g : list (list (list Z))) (off pos : Z) : Prop :=
  exists p k, at_place g off pos p k.

Lemma nth_page_app_l g h p : (p < length g)%nat -> nth_page (g ++ h) p = nth_page g p.
Proof. intros H. unfold nth_page. by rewrite lookup_app_l. Qed.
Lemma nth_page_snoc g l : nth_page (g ++ [l]) (length g) = l.
Proof. unfold nth_page. by rewrite lookup_app_r, Nat.sub_diag. Qed.
Lemma nth_page_beyond g p : (length g <= p)%nat -> nth_page g p = [].
Proof. intros H. unfold nth_page. by rewrite lookup_ge_None_2. Qed.

Lemma at_pos_start g : Forall good_page g -> at_pos g 0 0.
Proof.
  intros Hg. exists 0%nat, 0%nat. constructor; simpl; try done; [lia..|].
  destruct (size_cases g Hg) as [[-> ->]|(h & l & -> & Hl & ->)]; [done|].
  pose proof (good_page_bytes l Hl). unfold PAGE_SIZE in *. lia.
Qed.

Lemma at_pos_grow1 r g g' off pos : Forall good_page g -> grow1 r g g' ->
  at_pos g off pos -> at_pos g' off pos.
Proof.
  intros Hg Hgr (p & k & [Hp Hk Hin Hoff Hpos Hsz]).
  pose proof (grow1_size r g g' Hg Hgr) as Hs.
  pose proof (valid_length r (grow1_valid r g g' Hgr)) as [Hr32 _].
  assert (Hsame : nth_page g' p = nth_page g p \/
    exists t, nth_page g' p = nth_page g p ++ t).
  { destruct Hgr as (Hg' & [(h & l & -> & ->)| ->]).
    - rewrite length_app in Hp. simpl in Hp.
      destruct (decide (p < length h)%nat); [left; by rewrite !nth_page_app_l by lia|].
      destruct (decide (p = length h)) as [->|]; [right; exists [r]; by rewrite !nth_page_snoc|].
      left. rewrite !nth_page_beyond; [done|rewrite length_app; simpl; lia..].
    - destruct (decide (p < length g)%nat); [left; by rewrite nth_page_app_l by lia|].
      right. assert (p = length g) as -> by lia. exists [r].
      by rewrite nth_page_snoc, nth_page_beyond by lia. }
  assert (Hlt : (length (nth_page g p) <= length (nth_page g' p))%nat)
    by (destruct Hsame as [->|[t ->]]; rewrite ?length_app; lia).
  assert (Htk : take k (nth_page g' p) = take k (nth_page g p)).
  { destruct Hsame as [->|[t ->]]; [done|]. by rewrite take_app_le by lia. }
  assert (Hpre : take p g' = take p g).
  { destruct Hgr as (Hg' & [(h & l & -> & ->)| ->]); [|by rewrite take_app_le by lia].
    rewrite length_app in Hp. simpl in Hp.
    destruct (decide (p <= length h)%nat); [by rewrite !take_app_le by lia|]. exfalso.
    assert (p = S (length h)) as -> by lia.
    apply Forall_last in Hg' as (_ & _ & Hb).
    rewrite bytes_app in Hb. rewrite size_snoc in Hsz.
    assert (Hz : bytes (take k (nth_page (h ++ [l]) (S (length h)))) = 0).
    { rewrite nth_page_beyond by (rewrite length_app; simpl; lia). by rewrite take_nil. }
    rewrite Hz in Hoff. rewrite bytes_one in Hb. unfold PAGE_SIZE in *. lia. }
  exists p, k. constructor; rewrite ?Htk, ?Hpre; try done; [|lia..].
  destruct Hgr as (_ & [(h & l & -> & ->)| ->]); rewrite length_app in *; simpl in *; lia.
Qed.

Lemma at_pos_grown g g' off pos : grown g g' -> Forall good_page g ->
  at_pos g off pos -> at_pos g' off pos.
Proof. induction 1 as [|g h g' [r Hr] _ IH]; eauto using at_pos_grow1, grow1_good. Qed.

(** ** Reading a page *)

Lemma page_rest l k : (k <= length l)%nat -> bytes l <= PAGE_SIZE ->
  drop (Z.to_nat (bytes (take k l))) (page_bytes l) =
  concat (drop k l) ++ replicate (Z.to_nat (PAGE_SIZE - bytes l)) 0.
Proof.
  intros Hk _. unfold page_bytes.
  rewrite <- (take_drop k l) at 2. rewrite concat_app, <- app_assoc.
  unfold bytes at 1. by rewrite Nat2Z.id, drop_app_length.
Qed.

Lemma page_zeros_namelen n : d_namelen (replicate n 0) = 0.
Proof. apply field_zeros. Qed.

(** [off] in page [p], by its parts. *)
Lemma offset_parts p b : 0 <= b < PAGE_SIZE ->
  page_index (PAGE_SIZE * Z.of_nat p + b) = Z.of_nat p /\
  page_offset (PAGE_SIZE * Z.of_nat p + b) = b.
Proof.
  unfold page_index, page_offset, PAGE_SHIFT. rewrite Z.shiftr_div_pow2 by lia.
  change (2 ^ 12) with PAGE_SIZE. unfold PAGE_SIZE.
  intros H. split; Z.to_euclidean_division_equations; lia.
Qed.

Lemma page_align_up p b : 0 < b <= PAGE_SIZE ->
  page_align (PAGE_SIZE * Z.of_nat p + b) = PAGE_SIZE * Z.of_nat (S p).
Proof. unfold page_align, PAGE_SIZE. intros H. Z.to_euclidean_division_equations. lia. Qed.

Lemma page_align_same p : page_align (PAGE_SIZE * Z.of_nat p) = PAGE_SIZE * Z.of_nat p.
Proof. unfold page_align, PAGE_SIZE. Z.to_euclidean_division_equations. lia. Qed.

(** Places of the cache. *)
Lemma size_of_page g p : Forall good_page g -> (p < length g)%nat ->
  PAGE_SIZE * Z.of_nat p + bytes (nth_page g p) <= size_of g.
Proof.
  intros Hg Hp. destruct (size_cases g Hg) as [[-> _]|(h & l & -> & Hl & ->)]; [simpl in Hp; lia|].
  pose proof (good_page_bytes l Hl). rewrite length_app in Hp. simpl in Hp.
  destruct (decide (p = length h)) as [->|]; [by rewrite nth_page_snoc|].
  rewrite nth_page_app_l by lia.
  assert (Hq : good_page (nth_page h p)).
  { apply Forall_app in Hg as [Hg _]. rewrite Forall_lookup in Hg. unfold nth_page.
    destruct (lookup_lt_is_Some_2 h p) as [q Hq]; [lia|]. rewrite Hq. by apply (Hg p). }
  pose proof (good_page_bytes _ Hq). unfold PAGE_SIZE in *. nia.
Qed.

Lemma nth_page_good g p : Forall good_page g -> (p < length g)%nat -> good_page (nth_page g p).
Proof.
  rewrite Forall_lookup. intros Hg Hp. unfold nth_page.
  destruct (lookup_lt_is_Some_2 g p) as [q Hq]; [done|]. rewrite Hq. by apply (Hg p).
Qed.

Lemma concat_take_S g p : (p < length g)%nat ->
  concat (take (S p) g) = concat (take p g) ++ nth_page g p.
Proof.
  intros Hp. destruct (lookup_lt_is_Some_2 g p) as [q Hq]; [done|].
  rewrite (take_S_r _ _ q Hq), concat_app. unfold nth_page. rewrite Hq. simpl.
  by rewrite app_nil_r.
Qed.

Lemma bytes_take_le l k : bytes (take k l) <= bytes l.
Proof. rewrite <- (take_drop k l) at 2. rewrite bytes_app. unfold bytes. lia. Qed.

Lemma take_all_bytes l k : Forall valid l -> bytes l <= bytes (take k l) -> take k l = l.
Proof.
  intros Hv Hb. assert (Hsum : bytes l = bytes (take k l) + bytes (drop k l))
    by by rewrite <- bytes_app, take_drop.
  apply take_ge. destruct (decide (length l <= k)%nat) as [|Hkl]; [done|]. exfalso.
  pose proof (Forall_drop _ k _ Hv) as Hd. apply bytes_count in Hd.
  rewrite length_drop in Hd. lia.
Qed.

(** The page to read for a place, how much of it is in use, and when it is the end. *)
Lemma choose_place g off pos p k : Forall good_page g -> at_place g off pos p k ->
  let size := if page_index off =? page_index (size_of g) then page_offset (size_of g)
              else PAGE_SIZE in
  page_index off = Z.of_nat p /\ page_offset off = bytes (take k (nth_page g p)) /\
  (page_offset off = size -> pos = ends 0 (concat g)) /\
  (page_offset off <> size -> page_offset off < size /\ (p < length g)%nat /\
     ((size = bytes (nth_page g p) /\ size < PAGE_SIZE) \/
      (size = PAGE_SIZE /\ PAGE_SIZE * Z.of_nat (S p) <= size_of g))).
Proof.
  intros Hg [Hp Hk Hin Hoff Hpos Hsz] size. subst size.
  assert (0 <= bytes (take k (nth_page g p))) by (unfold bytes; lia).
  destruct (offset_parts p (bytes (take k (nth_page g p)))) as [Hi Ho]; [lia|].
  rewrite <- Hoff in Hi, Ho. rewrite Hi, Ho. split; [done|]. split; [done|].
  destruct (size_index g Hg) as [(h & l & -> & Hgl & Hb & -> & ->)|(Hs & -> & ->)].
  - rewrite size_snoc in Hsz |- *. rewrite length_app in *. simpl in Hp.
    destruct (Z.eqb_spec (Z.of_nat p) (len h)) as [Hph%Nat2Z.inj|Hne].
    + subst p. rewrite nth_page_snoc in *. pose proof (bytes_take_le l k). split.
      * intros Heq. rewrite take_all_bytes in Hpos by (lia || apply Hgl).
        by rewrite Hpos, take_app_length, concat_app; simpl; rewrite app_nil_r.
      * intros Hne. split_and!; [lia|simpl; lia|by left].
    + split; [lia|]. intros _. split; [lia|].
      assert (p < length h)%nat.
      { destruct (decide (p = S (length h))) as [->|]; [|lia]. unfold PAGE_SIZE in *. lia. }
      split; [simpl; lia|]. right. split; [done|]. pose proof (good_page_bytes l Hgl).
      unfold PAGE_SIZE. lia.
  - destruct (Z.eqb_spec (Z.of_nat p) (len g)) as [Hpg%Nat2Z.inj|Hne].
    + subst p. rewrite nth_page_beyond, take_nil in * by lia. split; [|done].
      intros _. by rewrite Hpos, firstn_all, app_nil_r.
    + split; [lia|]. intros _. split; [lia|]. split; [lia|]. right. split; [done|].
      unfold PAGE_SIZE in *. lia.
Qed.

(** After [j] records of page [p], also when that is its end. *)
Lemma at_pos_in g p j : Forall good_page g -> (p < length g)%nat ->
  (j <= length (nth_page g p))%nat ->
  at_pos g (PAGE_SIZE * Z.of_nat p + bytes (take j (nth_page g p)))
    (ends 0 (concat (take p g) ++ take j (nth_page g p))).
Proof.
  intros Hg Hp Hj. pose proof (size_of_page g p Hg Hp) as Hs.
  pose proof (good_page_bytes _ (nth_page_good g p Hg Hp)) as [_ Hb].
  pose proof (bytes_take_le (nth_page g p) j) as Hle.
  destruct (decide (bytes (take j (nth_page g p)) < PAGE_SIZE)) as [Hlt|Hge].
  - exists p, j. constructor; try done; lia.
  - exists (S p), 0%nat.
    assert (Hfull : take j (nth_page g p) = nth_page g p).
    { apply take_all_bytes; [by destruct (nth_page_good g p Hg Hp) as (_ & ? & _)|lia]. }
    rewrite Hfull in *. constructor; rewrite ?take_0; change (bytes []) with 0;
      unfold PAGE_SIZE in *; try lia.
    by rewrite app_nil_r, concat_take_S.
Qed.

(** The start of the page after [p]. *)
Lemma at_pos_next g p : (p < length g)%nat -> PAGE_SIZE * Z.of_nat (S p) <= size_of g ->
  at_pos g (PAGE_SIZE * Z.of_nat (S p)) (ends 0 (concat (take p g) ++ nth_page g p)).
Proof.
  intros Hp Hs. exists (S p), 0%nat. constructor; rewrite ?take_0; change (bytes []) with 0;
    unfold PAGE_SIZE in *; try lia.
  by rewrite app_nil_r, concat_take_S.
Qed.

Lemma grown_page g g' p : grown g g' -> (p < length g)%nat ->
  (p < length g')%nat /\ take p g' = take p g /\ exists t, nth_page g' p = nth_page g p ++ t.
Proof.
  induction 1 as [|g h g' [r Hr] _ IH]; intros Hp; [split_and!; [done..|exists []; by rewrite app_nil_r]|].
  assert (H1 : (p < length h)%nat /\ take p h = take p g /\
    exists t, nth_page h p = nth_page g p ++ t).
  { destruct Hr as (_ & [(q & l & -> & ->)| ->]); rewrite length_app in *; simpl in *.
    - split; [lia|]. rewrite !take_app_le by lia. split; [done|].
      destruct (decide (p = length q)) as [->|]; [exists [r]; by rewrite !nth_page_snoc|].
      exists []. by rewrite !nth_page_app_l, app_nil_r by lia.
    - split; [lia|]. rewrite take_app_le by lia. split; [done|].
      exists []. by rewrite nth_page_app_l, app_nil_r by lia. }
  destruct H1 as (Hp1 & Ht1 & t1 & Hn1). destruct (IH Hp1) as (Hp2 & Ht2 & t2 & Hn2).
  split_and!; [done|congruence|]. exists (t1 ++ t2). by rewrite Hn2, Hn1, app_assoc.
Qed.

(** ** Writing a page *)

(** The record added at the end of a page. *)
Lemma copy_record l r : good_page (l ++ [r]) ->
  copy_at (bytes l) r (page_bytes l) = Some (page_bytes (l ++ [r])).
Proof.
  intros (_ & _ & Hb). rewrite bytes_app, bytes_one in Hb.
  unfold copy_at. pose proof (page_bytes_length l) as Hl. unfold PAGE_SIZE in *.
  destruct (Z.ltb_spec (len (page_bytes l)) (bytes l + len r)) as [Hlt|_]; [lia|]. f_equal.
  unfold page_bytes. rewrite concat_app. simpl. rewrite app_nil_r, <- app_assoc.
  assert (Hn : Z.to_nat (bytes l) = length (concat l)) by (unfold bytes; lia).
  rewrite Hn, take_app_length, drop_app_ge by lia.
  replace (length (concat l) + length r - length (concat l))%nat with (length r) by lia.
  rewrite drop_replicate. repeat f_equal. rewrite bytes_app, bytes_one.
  unfold PAGE_SIZE. lia.
Qed.

Lemma page_bytes_nil : page_bytes [] = zero_page.
Proof. reflexivity. Qed.

(** ** What is known about the directory and the daemon *)

(** [l_next p r]: [r] may come after position [p]; [l_fin p]: nothing comes after it;
    [l_le q p]: a reader at [q] that goes on reaches [p]; [l_whole]: the daemon sends
    well-formed replies of whole records.  For a daemon about which nothing is known all
    the relations hold always and [l_whole] does not. *)
Record listing : Type := mk_listing {
  l_next : Z -> list Z -> Prop;
  l_fin : Z -> Prop;
  l_le : Z -> Z -> Prop;
  l_whole : Prop;
}.

(** The replies agree with it. *)
Record agrees (e : world) (d : listing) : Prop := {
  agree_fin p r : l_fin d p -> l_next d p r -> l_fin d (d_off r);
  agree_refl p : l_le d 0 p -> l_le d p p;
  agree_le q p r : l_le d q p -> q <> p -> l_next d q r -> l_le d (d_off r) p;
  agree_step p r : l_le d 0 p -> l_next d p r -> l_le d 0 (d_off r);
  agree_end t plus p : l_le d 0 p -> reply e t plus p = inr [] -> l_fin d p;
  agree_reply t plus p buf : l_le d 0 p -> reply e t plus p = inr buf ->
    len buf <= PAGE_SIZE /\ chain (l_next d) p (records plus buf);
  agree_whole t plus p buf : l_whole d -> l_le d 0 p -> reply e t plus p = inr buf ->
    buf <> [] -> records plus buf <> [] /\ refused plus buf = false;
}.
