(* ===== verification/KDirCache.v ===== *)
(** * The cache of a directory and the threads that share it

    [wf] is the invariant of the cache, [rely] what the other threads may do to it in
    each kind of window, and the sections of this thread keep the one and do the other. *)
From S2P Require Import Prelude KDir KDirFacts.
#[local] Open Scope Z_scope.

(** The counters stay below this between the steps of a call: a [u64] that is counted up
    does not get there. *)
Definition LIMIT : Z := 2 ^ 62.

Section Cache.
Context (d : listing).

(** The cache of [s] holds the pages [g].  A page in use that is in the page cache has the bytes of
    its records; it may be missing; other pages are anything. *)
Record wf (g : list (list (list Z))) (s : dirst) : Prop := {
  wf_good : Forall good_page g;
  wf_size : rc_size (rdc s) = size_of g;
  wf_pos : rc_pos (rdc s) = ends 0 (concat g);
  wf_page p b : pages s !! Z.of_nat p = Some b -> (p < length g)%nat ->
    b = page_bytes (nth_page g p);
  wf_chain : chain (l_next d) 0 (concat g);
  wf_fin : cached (rdc s) = true -> l_fin d (rc_pos (rdc s));
  wf_version : 0 <= rc_version (rdc s) < 2 ^ 64;
}.

(** How the cache goes on: the version does not go back, and while it stays the cache
    grows and does not become incomplete. *)
Definition goes_on (s : dirst) (g : list (list (list Z))) (s' : dirst)
    (g' : list (list (list Z))) : Prop :=
  rc_version (rdc s) <= rc_version (rdc s') /\
  (rc_version (rdc s) = rc_version (rdc s') ->
   grown g g' /\ (cached (rdc s) = true -> cached (rdc s') = true)).

(** Page [i] is in use and not in the page cache. *)
Definition lost (i : Z) (s : dirst) (g : list (list (list Z))) : Prop :=
  0 <= i < len g /\ pages s !! i = None.

(** What the others do in a window.  They may take pages away at any time, but not the
    page this thread has locked, and they do not both use and lose the page it is about to
    create. *)
Definition rely (w : window) (s : dirst) g (s' : dirst) g' : Prop :=
  wf g' s' /\ goes_on s g s' g' /\
  rc_version (rdc s') <= Z.max (rc_version (rdc s)) LIMIT /\
  rc_size (rdc s') <= Z.max (rc_size (rdc s)) LIMIT /\
  match w with
  | Anywhere => True
  | Creating i => lost i s' g' -> lost i s g
  | Holding i => pages s' !! i = pages s !! i
  end.

Definition relies (o : nat -> window -> dirst -> dirst) : Prop :=
  forall t w s g, wf g s -> exists g', rely w s g (o t w s) g'.

#[global] Instance grown_preorder : PreOrder grown.
Proof. unfold grown. apply _. Qed.

Lemma goes_on_refl s g : goes_on s g s g.
Proof. split; [done|]. intros _. by split. Qed.

Lemma goes_on_trans s1 g1 s2 g2 s3 g3 :
  goes_on s1 g1 s2 g2 -> goes_on s2 g2 s3 g3 -> goes_on s1 g1 s3 g3.
Proof.
  intros [H1 H2] [H3 H4]. split; [lia|]. intros H.
  destruct H2 as [Ha Hb]; [lia|]. destruct H4 as [Hc Hd]; [lia|].
  split; [by etrans|auto].
Qed.

Lemma rely_refl w s g : wf g s -> rely w s g s g.
Proof.
  intros H. split; [done|]. split; [apply goes_on_refl|]. split_and!; [lia..|].
  by destruct w.
Qed.

Lemma wf_size_eq g g' s s' : wf g s -> wf g' s' -> goes_on s g s' g' ->
  rc_version (rdc s') = rc_version (rdc s) -> rc_size (rdc s') = rc_size (rdc s) -> g' = g.
Proof.
  intros Hw Hw' [_ Hg] Hv Hs. destruct Hg as [Hg _]; [done|].
  destruct (grown_size g g' Hg (wf_good _ _ Hw)) as [->|H]; [done|].
  rewrite <- (wf_size _ _ Hw), <- (wf_size _ _ Hw') in H. lia.
Qed.

(** ** The sections *)

(** Taking pages away: reclaim, invalidation, truncation. *)
Lemma wf_lose g s m : wf g s -> m ⊆ pages s -> wf g (set_pages m s).
Proof.
  intros [] Hm. constructor; try done. intros p b Hb. apply wf_page0.
  by eapply lookup_weaken.
Qed.

(** [fuse_rdc_reset]. *)
Definition reset_rdc (r : rdcache) : rdcache :=
  mk_rdc false 0 0 (u64 (rc_version r + 1)) (rc_mtime r) (rc_iversion r).

Lemma wf_reset g s : wf g s -> rc_version (rdc s) < 2 ^ 64 - 1 ->
  wf [] (set_rdc (reset_rdc (rdc s)) s) /\
  rc_version (reset_rdc (rdc s)) = rc_version (rdc s) + 1.
Proof.
  intros [] Hv. unfold reset_rdc, u64. simpl. rewrite Z.mod_small by lia.
  split; [|done]. constructor; simpl; try done; lia.
Qed.

(** The completion of the cache by [fuse_readdir_cache_end]. *)
Definition end_rdc (r : rdcache) : rdcache :=
  mk_rdc true (rc_size r) (rc_pos r) (rc_version r) (rc_mtime r) (rc_iversion r).

Lemma wf_end g s : wf g s -> l_fin d (rc_pos (rdc s)) ->
  wf g (set_rdc (end_rdc (rdc s)) s) /\ goes_on s g (set_rdc (end_rdc (rdc s)) s) g.
Proof.
  intros [] Hf. split; [by constructor|]. split; [done|]. intros _. by split.
Qed.

(** Where [fuse_add_dirent_to_cache] puts a record. *)
Definition fits (size n : Z) : bool := page_offset size + n <=? PAGE_SIZE.
Definition add_index (size n : Z) : Z :=
  if fits size n then page_index size else page_index size + 1.
Definition add_offset (size n : Z) : Z := if fits size n then page_offset size else 0.

Definition add_rdc (r : rdcache) (rec : list Z) : rdcache :=
  mk_rdc (cached r)
    (Z.shiftl (add_index (rc_size r) (reclen rec)) PAGE_SHIFT +
     add_offset (rc_size r) (reclen rec) + reclen rec)
    (d_off rec) (rc_version r) (rc_mtime r) (rc_iversion r).

(** The place is the end of the last page, or the start of a new one. *)
Lemma add_place g r : Forall good_page g -> valid r ->
  (exists h l, g = h ++ [l] /\ good_page l /\ bytes l < PAGE_SIZE /\ good_page (l ++ [r]) /\
     add_index (size_of g) (reclen r) = len h /\
     add_offset (size_of g) (reclen r) = bytes l /\ bytes l <> 0) \/
  (add_index (size_of g) (reclen r) = len g /\ add_offset (size_of g) (reclen r) = 0).
Proof.
  intros Hg Hr. pose proof (valid_length r Hr) as [Hl _].
  assert (Hrl : len r = reclen r) by apply Hr.
  unfold add_index, add_offset, fits.
  destruct (size_index g Hg) as [(h & l & -> & Hgl & Hb & -> & ->)|(_ & -> & ->)].
  - pose proof (good_page_bytes l Hgl). destruct (Z.leb_spec (bytes l + reclen r) PAGE_SIZE).
    + left. exists h, l. split_and!; try done; [|lia].
      destruct Hgl as (_ & Hv & _). split_and!; [by destruct l|by apply Forall_app; split; [|constructor]|].
      rewrite bytes_app, bytes_one. lia.
    + right. rewrite length_app. simpl. lia.
  - right. destruct (Z.leb_spec (0 + reclen r) PAGE_SIZE); [done|]. unfold PAGE_SIZE in *. lia.
Qed.

Lemma good_one r : valid r -> good_page [r].
Proof.
  intros Hr. split; [done|]. split; [by constructor|]. rewrite bytes_one.
  pose proof (valid_length r Hr). unfold PAGE_SIZE. lia.
Qed.

(** Adding a record: the page as it is after the copy, and the cache grown by one. *)
Lemma wf_add g s r b : wf g s -> valid r -> l_next d (rc_pos (rdc s)) r ->
  (forall p r, l_fin d p -> l_next d p r -> l_fin d (d_off r)) ->
  let i := add_index (rc_size (rdc s)) (reclen r) in
  let o := add_offset (rc_size (rdc s)) (reclen r) in
  (if o =? 0 then b = zero_page else pages s !! i = Some b) ->
  exists g' b', copy_at o r b = Some b' /\ grow1 r g g' /\
    wf g' (set_rdc (add_rdc (rdc s) r) (set_pages (<[i := b']> (pages s)) s)).
Proof.
  intros [Hg Hsz Hpos Hpg Hch Hfin Hv] Hr Hn Hfn i o Hb.
  assert (Hrl : len r = reclen r) by apply Hr.
  assert (Hgrow : exists g' b' l, copy_at o r b = Some b' /\ grow1 r g g' /\
    i = len g' - 1 /\ size_of g' = PAGE_SIZE * i + o + reclen r /\ g' <> [] /\
    nth_page g' (Z.to_nat i) = l ++ [r] /\ b' = page_bytes (l ++ [r]) /\
    (forall p, (p < length g')%nat -> Z.of_nat p <> i ->
       (p < length g)%nat /\ nth_page g' p = nth_page g p)).
  { subst i o. rewrite Hsz in *.
    destruct (add_place g r Hg Hr) as [(h & l & -> & Hgl & Hlt & Hgl' & Hi & Ho & Hne)|[Hi Ho]].
    - rewrite Hi, Ho in *. destruct (Z.eqb_spec (bytes l) 0) as [|_]; [done|].
      rewrite Nat2Z.id.
      assert (b = page_bytes l) as ->.
      { rewrite <- (nth_page_snoc h l). apply (Hpg (length h) b); [done|].
        rewrite length_app. simpl. lia. }
      exists (h ++ [l ++ [r]]), (page_bytes (l ++ [r])), l.
      rewrite copy_record, nth_page_snoc, size_snoc, bytes_app, bytes_one, length_app by done.
      split_and!; try done; [|simpl; lia|lia|by destruct h|].
      + split; [|left; eauto]. apply Forall_app in Hg as [Hh _].
        apply Forall_app. split; [done|by constructor].
      + simpl. intros p Hp Hne'. rewrite length_app, !nth_page_app_l by lia. simpl. split; [lia|done].
    - rewrite Hi, Ho in *. simpl in Hb. subst b. rewrite Nat2Z.id.
      exists (g ++ [[r]]), (page_bytes [r]), [].
      rewrite nth_page_snoc, size_snoc, bytes_one, length_app.
      split_and!; try done; [exact (copy_record [] r (good_one r Hr))| |simpl; lia|lia|by destruct g|].
      + split; [|by right]. apply Forall_app. split; [done|]. constructor; [by apply good_one|done].
      + simpl. intros p Hp Hne'. rewrite nth_page_app_l by lia. split; [lia|done]. }
  destruct Hgrow as (g' & b' & l & Hc & Hgr & Hi & Hs & Hne & Hnth & -> & Hold).
  exists g', (page_bytes (l ++ [r])). split; [done|]. split; [done|].
  pose proof (grow1_concat _ _ _ Hgr) as Hcc.
  constructor; simpl.
  - by eapply grow1_good.
  - fold i o. rewrite Z.shiftl_mul_pow2 by (unfold PAGE_SHIFT; lia).
    rewrite Hs. unfold PAGE_SIZE, PAGE_SHIFT. lia.
  - by rewrite Hcc, ends_app.
  - intros p b' Hb' Hp. destruct (decide (Z.of_nat p = i)) as [Hpi|Hpi].
    + rewrite Hpi, lookup_insert_eq in Hb'. simplify_eq. rewrite <- Hnth. f_equal.
      f_equal. lia.
    + rewrite lookup_insert_ne in Hb' by done. destruct (Hold p Hp Hpi) as [Hp' ->]. eauto.
  - rewrite Hcc. apply chain_app. split; [done|]. simpl. by rewrite <- Hpos.
  - intros Hcd. eapply Hfn; eauto.
  - done.
Qed.
End Cache.
