(* ===== verification/KDirRun.v ===== *)
(** * Running the sections of a reader; adding to the cache and parsing replies *)
From S2P Require Import Prelude KDir KDirFacts KDirCache.
#[local] Open Scope Z_scope.

(** ** The state of a thread *)

Section Run.
Context (e : world) (c : rdconf) (d : listing).
Hypothesis Hag : agrees e d.
Hypothesis Hrely : relies d (others e).

(** A thread with the spin lock ([l]) and page lock ([o]): the cache is well formed, no
    WARN_ON has fired, and the place of its stream is one of the cache, unless the cache was
    reset since. *)
Record tinv (l : bool) (o : option Z) (g : list (list (list Z))) (s : rstate) : Prop := {
  t_wf : wf d g (dir s);
  t_spin : rdc_lock s = l;
  t_page : page_lock s = o;
  t_warned : warned s = false;
  t_version : rs_version (stream s) <= rc_version (rdc (dir s));
  t_place : rs_version (stream s) = rc_version (rdc (dir s)) ->
    at_pos g (cache_off (stream s)) (rs_pos (stream s));
}.

(** What no section changes but the one that is meant to. *)
Definition frame (s s' : rstate) : Prop :=
  stream s' = stream s /\ ctx_pos s' = ctx_pos s /\ ctx_out s' = ctx_out s /\
  counted s' = counted s /\ forgotten s' = forgotten s.

#[global] Instance frame_preorder : PreOrder frame.
Proof.
  split; [by intros s|]. intros s1 s2 s3 (?&?&?&?&?) (?&?&?&?&?).
  unfold frame. split_and!; congruence.
Qed.

Definition goes (s : rstate) g (s' : rstate) g' : Prop := goes_on (dir s) g (dir s') g'.

(** The place of a stream stays one while the cache goes on. *)
Lemma tinv_goes l o g s l' o' g' s' : tinv l o g s -> wf d g' (dir s') -> goes s g s' g' ->
  stream s' = stream s -> warned s' = false -> rdc_lock s' = l' -> page_lock s' = o' ->
  tinv l' o' g' s'.
Proof.
  intros [Hwf _ _ _ Hv Hp] Hwf' [Hle Hg] Hst Hw Hl Ho.
  constructor; try done; rewrite Hst; [lia|]. intros Heq.
  destruct Hg as [Hg _]; [lia|]. eapply at_pos_grown; [done|apply Hwf|]. apply Hp. lia.
Qed.

Lemma runs_yield w l o g s : tinv l o g s ->
  runs (yield e w) s (fun _ s' => exists g', tinv l o g' s' /\ frame s s' /\
    rely d w (dir s) g (dir s') g').
Proof.
  intros Ht. destruct (Hrely (clock s) w (dir s) g (t_wf _ _ _ _ Ht)) as [g' Hr].
  eexists _, _. split; [reflexivity|]. exists g'. split; [|done].
  destruct Hr as (Hwf & Hgo & _). destruct Ht as [? ? ? ? ? ?] eqn:E.
  eapply tinv_goes; [exact Ht|..]; by rewrite ?E.
Qed.

Definition window_of (o : option Z) : window :=
  match o with Some i => Holding i | None => Anywhere end.

Lemma runs_spin_lock o g s : tinv false o g s ->
  runs (spin_lock e) s (fun _ s' => exists g', tinv true o g' s' /\ frame s s' /\
    rely d (window_of o) (dir s) g (dir s') g').
Proof.
  intros Ht. unfold spin_lock, here. msteps. rewrite (t_page _ _ _ _ Ht).
  eapply runs_bind; [apply (runs_yield (window_of o) false o g s Ht)|].
  intros [] s' (g' & Ht' & Hf & Hr). msteps. rewrite (t_spin _ _ _ _ Ht'). simpl. msteps.
  eexists _, _. split; [reflexivity|]. exists g'. split; [|done].
  destruct Ht'. by constructor.
Qed.

Lemma runs_spin_unlock o g s : tinv true o g s ->
  runs spin_unlock s (fun _ s' => tinv false o g s' /\ frame s s' /\ dir s' = dir s).
Proof.
  intros Ht. unfold spin_unlock. msteps. rewrite (t_spin _ _ _ _ Ht). simpl. msteps.
  eexists _, _. split; [reflexivity|]. split; [|done]. destruct Ht. by constructor.
Qed.

Lemma runs_load_rdc o g s : tinv true o g s ->
  runs load_rdc s (fun r s' => r = rdc (dir s) /\ s' = s).
Proof.
  intros Ht. unfold load_rdc. msteps. rewrite (t_spin _ _ _ _ Ht). simpl. msteps.
  by apply runs_ret.
Qed.

Lemma load_rdc_bind {B} o g s (k : rdcache -> M rstate B) Q : tinv true o g s ->
  runs (k (rdc (dir s))) s Q -> runs (load_rdc ≫= k) s Q.
Proof.
  intros Ht Hk. eapply runs_bind; [by eapply runs_load_rdc|]. by intros r s' [-> ->].
Qed.

Lemma store_rdc_bind {B} r o g s (k : unit -> M rstate B) Q : tinv true o g s ->
  runs (k tt) (set_dir (set_rdc r (dir s)) s) Q -> runs (store_rdc r ≫= k) s Q.
Proof.
  intros Ht Hk. unfold store_rdc. msteps. rewrite (t_spin _ _ _ _ Ht). simpl. by msteps.
Qed.

Lemma runs_unlock_page i l g s : tinv l (Some i) g s ->
  runs unlock_page s (fun _ s' => tinv l None g s' /\ frame s s' /\ dir s' = dir s).
Proof.
  intros Ht. unfold unlock_page. msteps. rewrite (t_page _ _ _ _ Ht). simpl. msteps.
  eexists _, _. split; [reflexivity|]. split; [|done]. destruct Ht. by constructor.
Qed.

Lemma load_page_bind {B} i b l g s (k : list Z -> M rstate B) Q : tinv l (Some i) g s ->
  pages (dir s) !! i = Some b -> runs (k b) s Q -> runs (load_page i ≫= k) s Q.
Proof.
  intros Ht Hb Hk. unfold load_page. msteps. rewrite (t_page _ _ _ _ Ht).
  rewrite bool_decide_true by done. simpl. rewrite Hb. simpl. by msteps.
Qed.

Lemma store_page_bind {B} i b l g s (k : unit -> M rstate B) Q : tinv l (Some i) g s ->
  runs (k tt) (set_dir (set_pages (<[i := b]> (pages (dir s))) (dir s)) s) Q ->
  runs (store_page i b ≫= k) s Q.
Proof.
  intros Ht Hk. unfold store_page. msteps. rewrite (t_page _ _ _ _ Ht).
  rewrite bool_decide_true by done. simpl. by msteps.
Qed.

(** A page that is not in use is anything. *)
Lemma wf_garbage g s i b : wf d g s -> ~ (0 <= i < len g) ->
  wf d g (set_pages (<[i := b]> (pages s)) s).
Proof.
  intros [] Hi. constructor; try done. simpl. intros p b' Hb' Hp.
  rewrite lookup_insert_ne in Hb' by lia. eauto.
Qed.

(** Finding the page to write, or creating it.  The page is not in use when it is created. *)
Lemma runs_get_page new i g s : tinv false None g s -> (new = true -> ~ (0 <= i < len g)) ->
  runs (if new then find_or_create_page e i else find_lock_page e i) s
    (fun got s' => exists g', tinv false (if got then Some i else None) g' s' /\
       frame s s' /\ rely d (if new then Creating i else Anywhere) (dir s) g (dir s') g' /\
       (got = true -> is_Some (pages (dir s') !! i))).
Proof.
  intros Ht Hnew. destruct new.
  - unfold find_or_create_page, lock_page.
    eapply runs_bind; [by apply runs_yield|]. intros [] s1 (g1 & Ht1 & Hf1 & Hr1). msteps.
    destruct (pages (dir s1) !! i) as [b|] eqn:Hb.
    + rewrite (t_page _ _ _ _ Ht1). simpl. msteps. eexists _, _. split; [reflexivity|].
      exists g1. split_and!; [by destruct Ht1|done|done|]. intros _. by exists b.
    + msteps. destruct (page_ok e (clock s1)); msteps.
      * eexists _, _. split; [reflexivity|]. exists g1.
        assert (Hi : ~ (0 <= i < len g1)).
        { intros Hi. destruct Hr1 as (_ & _ & _ & _ & Hlost).
          destruct Hlost as [Hi0 _]; [by split|]. by apply Hnew. }
        assert (Hw : wf d g1 (set_pages (<[i := garbage e (clock s1)]> (pages (dir s1)))
                               (dir s1))) by (apply wf_garbage; [apply Ht1|done]).
        split_and!; [by destruct Ht1|done| |intros _; simpl; rewrite lookup_insert_eq; by eexists].
        destruct Hr1 as (_ & Hg & Hv & Hs & _). split_and!; try done.
        intros [H _]. done.
      * eexists _, _. split; [reflexivity|]. exists g1. by split_and!.
  - unfold find_lock_page, lock_page.
    eapply runs_bind; [by apply runs_yield|]. intros [] s1 (g1 & Ht1 & Hf1 & Hr1). msteps.
    destruct (pages (dir s1) !! i) as [b|] eqn:Hb.
    + rewrite (t_page _ _ _ _ Ht1). simpl. msteps. eexists _, _. split; [reflexivity|].
      exists g1. split_and!; [by destruct Ht1|done|done|]. intros _. by exists b.
    + eexists _, _. split; [reflexivity|]. exists g1. by split_and!.
Qed.

Lemma runs_warn b s : runs (WARN_ON b) s
  (fun r s' => r = b /\ s' = if b then set_warned true s else s).
Proof. unfold WARN_ON. destruct b; msteps; eexists _, _; (split; [reflexivity|done]). Qed.

Lemma warn_ok_bind {B} b (k : bool -> M rstate B) s Q : b = false ->
  runs (k false) s Q -> runs (WARN_ON b ≫= k) s Q.
Proof. by intros ->. Qed.

(** The copy into the locked page, when nothing has changed since the place was chosen. *)
Lemma runs_commit r buf g s :
  let i := add_index (rc_size (rdc (dir s))) (reclen r) in
  let o := add_offset (rc_size (rdc (dir s))) (reclen r) in
  let x := rdc (dir s) in
  tinv true (Some i) g s -> valid r -> l_next d (rc_pos x) r ->
  head_rec buf = r -> reclen buf = reclen r -> d_off buf = d_off r ->
  is_Some (pages (dir s) !! i) ->
  runs ((if o =? 0 then store_page i zero_page else mret tt);;
        b ← load_page i;
        b' ← derefM (copy_at o (take (Z.to_nat (reclen r)) buf) b);
        store_page i b';;
        store_rdc (mk_rdc (cached x) (Z.shiftl i PAGE_SHIFT + o + reclen r)
          (d_off buf) (rc_version x) (rc_mtime x) (rc_iversion x))) s
    (fun _ s' => exists g', tinv true (Some i) g' s' /\ frame s s' /\ goes s g s' g').
Proof.
  intros i o x Ht Hr Hn Hhead Hrl Hoff [b0 Hb0].
  set (b := if o =? 0 then zero_page else b0).
  set (m := if o =? 0 then <[i := zero_page]> (pages (dir s)) else pages (dir s)).
  destruct (wf_add d g (dir s) r b (t_wf _ _ _ _ Ht) Hr Hn (agree_fin e d Hag))
    as (g' & b' & Hc & Hgr & Hwf).
  { fold i o. unfold b. by destruct (o =? 0). }
  fold i o in Hc, Hwf.
  assert (Hm : <[i := b']> m = <[i := b']> (pages (dir s)))
    by (unfold m; destruct (o =? 0); [apply insert_insert_eq|done]).
  set (s1 := set_dir (set_pages m (dir s)) s).
  apply (runs_bind _ _ _ (fun _ s' => s' = s1)).
  { subst s1 m. destruct (o =? 0).
    - unfold store_page. msteps. rewrite (t_page _ _ _ _ Ht), bool_decide_true by done. simpl.
      msteps. by eexists _, _.
    - eexists _, _. split; [reflexivity|]. by destruct s as [[]]. }
  intros [] ? ->.
  pose proof (t_page _ _ _ _ Ht) as Hlp. pose proof (t_spin _ _ _ _ Ht) as Hls.
  unfold load_page, store_page, store_rdc. msteps. rewrite Hlp, bool_decide_true by done. simpl.
  msteps. assert (m !! i = Some b) as ->
    by (unfold m, b; destruct (o =? 0); [apply lookup_insert_eq|done]).
  unfold head_rec in Hhead. rewrite Hrl in Hhead. msteps. rewrite Hhead, Hc. msteps.
  rewrite Hlp, bool_decide_true by done. simpl. msteps. rewrite Hls. simpl. msteps.
  eexists _, _. split; [reflexivity|]. exists g'. rewrite Hm, Hoff.
  assert (Hgo : goes_on (dir s) g (set_rdc (add_rdc x r) (set_pages (<[i:=b']> (pages (dir s))) (dir s))) g').
  { split; [done|]. intros _. split; [|done]. apply rtc_once. by exists r. }
  split; [|split; [done|exact Hgo]].
  eapply tinv_goes; [exact Ht|exact Hwf|exact Hgo|..]; simpl; try done; apply Ht.
Qed.

(** The place is chosen in [s1]; the page is there or made. *)
Lemma runs_get_place r g1 s1 s2 : tinv false None g1 s2 -> valid r -> dir s2 = dir s1 ->
  let x := rdc (dir s1) in
  let i := add_index (rc_size x) (reclen r) in
  runs (if negb (add_offset (rc_size x) (reclen r) =? 0) then find_lock_page e i
        else find_or_create_page e i) s2
    (fun got s' => exists g', frame s2 s' /\ goes s1 g1 s' g' /\
       tinv false (if got : bool then Some i else None) g' s' /\
       (got = true -> is_Some (pages (dir s') !! i))).
Proof.
  intros Ht2 Hr Hd2 x i. set (o := add_offset (rc_size x) (reclen r)).
  assert (Hnew : o = 0 -> ~ 0 <= i < len g1).
  { pose proof (wf_size _ _ _ (t_wf _ _ _ _ Ht2)) as Hs. rewrite Hd2 in Hs. fold x in Hs.
    subst i o. rewrite Hs. intros Ho.
    destruct (add_place g1 r (wf_good _ _ _ (t_wf _ _ _ _ Ht2)) Hr)
      as [(h & l & _ & _ & _ & _ & _ & Ho' & Hne)|[-> _]]; lia. }
  pose proof (runs_get_page (o =? 0) i g1 s2 Ht2) as Hget. unfold goes. rewrite <- Hd2.
  destruct (Z.eqb_spec o 0); simpl; (eapply runs_mono; [apply Hget; by auto|]);
    intros got s' (g' & ? & ? & (_ & ? & _) & ?); exists g'; by split_and!.
Qed.

(** Nothing has changed when version and size are the same. *)
Lemma runs_race_check l o g1 s1 g4 s4 pos : wf d g1 (dir s1) -> tinv l o g4 s4 ->
  goes s1 g1 s4 g4 -> pos = rc_pos (rdc (dir s1)) ->
  runs (if negb (rc_version (rdc (dir s4)) =? rc_version (rdc (dir s1)))
           || negb (rc_size (rdc (dir s4)) =? rc_size (rdc (dir s1)))
        then mret true else WARN_ON (negb (rc_pos (rdc (dir s4)) =? pos))) s4
    (fun raced s' => s' = s4 /\ (raced = false ->
       rc_size (rdc (dir s4)) = rc_size (rdc (dir s1)) /\ rc_pos (rdc (dir s4)) = pos)).
Proof.
  intros Hw1 Ht4 Hgo Hpos.
  destruct (Z.eqb_spec (rc_version (rdc (dir s4))) (rc_version (rdc (dir s1)))) as [Hv|];
    simpl; [|eexists _, _; by split].
  destruct (Z.eqb_spec (rc_size (rdc (dir s4))) (rc_size (rdc (dir s1)))) as [Hs|];
    simpl; [|eexists _, _; by split].
  assert (g4 = g1) as -> by (eapply wf_size_eq; [exact Hw1|apply Ht4|done..]).
  assert (Hpe : rc_pos (rdc (dir s4)) = pos).
  { rewrite Hpos, (wf_pos _ _ _ (t_wf _ _ _ _ Ht4)). symmetry. apply Hw1. }
  rewrite Hpe, Z.eqb_refl. eexists _, _. by split.
Qed.

(** [fuse_add_dirent_to_cache]. *)
Lemma runs_add r buf g s : tinv false None g s -> valid r -> l_next d (ctx_pos s) r ->
  head_rec buf = r -> d_namelen buf = d_namelen r -> d_off buf = d_off r ->
  runs (fuse_add_dirent_to_cache e buf (ctx_pos s)) s
    (fun _ s' => exists g', tinv false None g' s' /\ frame s s' /\ goes s g s' g').
Proof.
  intros Ht Hr Hn Hhead Hnl Hoff. unfold fuse_add_dirent_to_cache.
  rewrite Hnl. change (FUSE_DIRENT_SIZE (d_namelen r)) with (reclen r).
  eapply runs_bind; [by apply runs_spin_lock|]. intros [] s1 (g1 & Ht1 & Hf1 & Hr1).
  eapply load_rdc_bind; [done|].
  destruct (cached (rdc (dir s1)) || negb (ctx_pos s =? rc_pos (rdc (dir s1)))) eqn:Hgo.
  { eapply runs_mono; [by apply runs_spin_unlock|]. intros [] s2 (Ht2 & Hf2 & Hd).
    exists g1. split; [done|]. split; [by etrans|]. unfold goes. rewrite Hd. apply Hr1. }
  apply orb_false_iff in Hgo as [_ Hpos%negb_false_iff%Z.eqb_eq].
  set (x := rdc (dir s1)). set (i := add_index (rc_size x) (reclen r)).
  set (o := add_offset (rc_size x) (reclen r)).
  change (if page_offset (rc_size x) + reclen r <=? PAGE_SIZE then page_offset (rc_size x) else 0)
    with o.
  change (if page_offset (rc_size x) + reclen r <=? PAGE_SIZE then page_index (rc_size x)
          else page_index (rc_size x) + 1) with i.
  cbv zeta.
  eapply runs_bind; [by apply runs_spin_unlock|]. intros [] s2 (Ht2 & Hf2 & Hd2).
  eapply runs_bind; [by apply (runs_get_place r g1 s1)|].
  intros got s3 (g3 & Hf3 & Hg3 & Ht3 & Hpg).
  assert (Hf13 : frame s s3) by (by do 2 etrans).
  assert (Hg13 : goes s g s3 g3).
  { eapply goes_on_trans; [apply Hr1|exact Hg3]. }
  destruct got; simpl.
  2:{ eexists _, _. split; [reflexivity|]. by exists g3. }
  eapply runs_bind; [by apply runs_spin_lock|]. intros [] s4 (g4 & Ht4 & Hf4 & Hr4).
  assert (Hf14 : frame s s4) by (by etrans).
  assert (Hg14 : goes s g s4 g4) by (eapply goes_on_trans; [exact Hg13|apply Hr4]).
  eapply load_rdc_bind; [done|].
  eapply runs_bind.
  { eapply (runs_race_check _ _ g1 s1 g4 s4); [apply Ht1|done| |done].
    eapply goes_on_trans; [exact Hg3|apply Hr4]. }
  intros raced ? [-> Hsame].
  apply (runs_bind _ _ _ (fun _ s' => exists g', tinv true (Some i) g' s' /\ frame s s' /\
    goes s g s' g')).
  { destruct raced; [eexists _, _; split; [reflexivity|]; by exists g4|].
    destruct Hsame as [Hs4 Hp4]; [done|].
    assert (Hpg4 : is_Some (pages (dir s4) !! i)).
    { destruct Hr4 as (_ & _ & _ & _ & Hp).
      change (pages (dir s4) !! i = pages (dir s3) !! i) in Hp. rewrite Hp. auto. }
    pose proof (runs_commit r buf g4 s4) as Hcm. cbv zeta in Hcm. rewrite Hs4 in Hcm.
    fold i o in Hcm. eapply runs_mono; [apply Hcm|]; try done.
    - by rewrite Hp4.
    - unfold reclen. by rewrite Hnl.
    - intros [] s5 (g5 & Ht5 & Hf5 & Hg5). exists g5. split; [done|]. split; [by etrans|].
      by eapply goes_on_trans. }
  intros [] s5 (g5 & Ht5 & Hf5 & Hg5).
  eapply runs_bind; [by apply runs_spin_unlock|]. intros [] s6 (Ht6 & Hf6 & Hd6).
  eapply runs_mono; [by eapply runs_unlock_page|]. intros [] s7 (Ht7 & Hf7 & Hd7).
  exists g5. split; [done|]. split; [by do 2 etrans|]. unfold goes. by rewrite Hd7, Hd6.
Qed.
End Run.
