(* ===== verification/KDirParse.v ===== *)
(** * Parsing the replies of the daemon, and scanning a page of the cache *)
From S2P Require Import Prelude KDir KDirFacts KDirCache KDirRun.
#[local] Open Scope Z_scope.

(** The records [l] were passed on, one after the other, from the position of [s]. *)
Definition passed (d : listing) (l : list (list Z)) (s s' : rstate) : Prop :=
  chain (l_next d) (ctx_pos s) l /\ ctx_pos s' = ends (ctx_pos s) l /\
  ctx_out s' = ctx_out s ++ emitted_from (ctx_pos s) l.

(** The reader's buffer has no room for the next record. *)
Definition turned_away (e : world) (d : listing) (s : rstate) : Prop :=
  exists r, valid r /\ l_next d (ctx_pos s) r /\
    room e (ctx_out s) (emits (ctx_pos s) r) = false.

(** A lookup is due for an entry of READDIRPLUS. *)
Definition wants_lookup (en : list Z * list Z) : bool :=
  negb (o_nodeid en.1 =? 0) && negb (is_dot (d_name en.2)).
Definition lookups_due (l : list (list Z * list Z)) : list Z :=
  (fun en => o_nodeid en.1) <$> filter (fun en => wants_lookup en = true) l.

(** The entries that are counted as looked up or given back with a FORGET. *)
Definition accounted (l : list (list Z * list Z)) (s s' : rstate) : Prop :=
  exists l1 l2, counted s' = counted s ++ l1 /\ forgotten s' = forgotten s ++ l2 /\
    l1 ++ l2 ≡ₚ lookups_due l.

Section Parse.
Context (e : world) (c : rdconf) (d : listing).
Hypothesis Hag : agrees e d.
Hypothesis Hrely : relies d (others e).

Lemma passed_nil s s' : ctx_pos s' = ctx_pos s -> ctx_out s' = ctx_out s -> passed d [] s s'.
Proof. intros H1 H2. unfold passed. simpl. by rewrite app_nil_r. Qed.

Lemma passed_trans l k s1 s2 s3 : passed d l s1 s2 -> passed d k s2 s3 -> passed d (l ++ k) s1 s3.
Proof.
  intros (H1 & H2 & H3) (H4 & H5 & H6). unfold passed.
  rewrite chain_app, ends_app, emitted_app, H5, H6, H3, <- H2. by rewrite app_assoc.
Qed.

Lemma passed_le l s s' : l_le d 0 (ctx_pos s) -> passed d l s s' -> l_le d 0 (ctx_pos s').
Proof.
  intros Hle (Hc & -> & _). revert Hle Hc. generalize (ctx_pos s). intros p.
  revert p. induction l as [|r l IH]; intros p Hle; simpl; [done|]. intros [Hn Hc].
  apply IH; [|done]. by eapply agree_step.
Qed.

Lemma passed_from l s1 s2 s' : ctx_pos s1 = ctx_pos s2 -> ctx_out s1 = ctx_out s2 ->
  passed d l s1 s' -> passed d l s2 s'.
Proof. unfold passed. by intros -> ->. Qed.

(** [fuse_readdir_cache_end]. *)
Lemma runs_cache_end g s : tinv d false None g s -> l_fin d (ctx_pos s) ->
  runs (fuse_readdir_cache_end e (ctx_pos s)) s
    (fun _ s' => exists g', tinv d false None g' s' /\ frame s s' /\ goes s g s' g').
Proof.
  intros Ht Hfin. unfold fuse_readdir_cache_end.
  eapply runs_bind; [by apply runs_spin_lock|]. intros [] s1 (g1 & Ht1 & Hf1 & Hr1).
  eapply load_rdc_bind; [done|].
  destruct (Z.eqb_spec (rc_pos (rdc (dir s1))) (ctx_pos s)) as [Hp|]; simpl.
  2:{ eapply runs_mono; [by apply runs_spin_unlock|]. intros [] s2 (Ht2 & Hf2 & Hd).
      exists g1. split; [done|]. split; [by etrans|]. unfold goes. rewrite Hd. apply Hr1. }
  eapply store_rdc_bind; [done|].
  fold (end_rdc (rdc (dir s1))).
  destruct (wf_end d g1 (dir s1) (t_wf _ _ _ _ _ Ht1)) as [Hw Hg]; [by rewrite Hp|].
  set (s2 := set_dir _ s1).
  assert (Ht2 : tinv d true None g1 s2)
    by (eapply tinv_goes; [exact Ht1|exact Hw|exact Hg|..]; try done; apply Ht1).
  eapply runs_bind; [by apply runs_spin_unlock|]. intros [] s3 (Ht3 & Hf3 & Hd3).
  unfold truncate_inode_pages.
  eapply runs_bind; [by apply (runs_yield _ _ Hrely)|]. intros [] s4 (g4 & Ht4 & Hf4 & Hr4).
  eexists _, _. split; [reflexivity|]. exists g4.
  assert (Hgo : goes s g s4 g4).
  { eapply goes_on_trans; [apply Hr1|]. eapply goes_on_trans; [exact Hg|].
    replace (set_rdc _ _) with (dir s3) by by rewrite Hd3. apply Hr4. }
  split; [|split; [by do 3 etrans|exact Hgo]].
  eapply tinv_goes; [exact Ht4|apply wf_lose; [apply Ht4|apply map_filter_subseteq]|..]; try done;
    try apply Ht4.
Qed.

(** [dir_emit] and [fuse_emit]. *)
Lemma runs_dir_emit buf r s : d_name buf = d_name r -> d_ino buf = d_ino r ->
  d_type buf = d_type r ->
  runs (dir_emit e buf) s (fun ok s' =>
    ok = room e (ctx_out s) (emits (ctx_pos s) r) /\
    s' = if ok : bool then set_ctx_out (ctx_out s ++ [emits (ctx_pos s) r]) s else s).
Proof.
  intros Hn Hi Ht. unfold dir_emit. msteps. rewrite Hn, Hi, Ht.
  change (mk_emitted _ _ _ _) with (emits (ctx_pos s) r).
  destruct (room e _ _); msteps; eexists _, _; (split; [reflexivity|done]).
Qed.

Lemma tinv_out l o g s k : tinv d l o g s -> tinv d l o g (set_ctx_out k s).
Proof. intros []. by constructor. Qed.
Lemma tinv_ctx l o g s k : tinv d l o g s -> tinv d l o g (set_ctx_pos k s).
Proof. intros []. by constructor. Qed.
Lemma tinv_counted l o g s k : tinv d l o g s -> tinv d l o g (set_counted k s).
Proof. intros []. by constructor. Qed.
Lemma tinv_forgotten l o g s k : tinv d l o g s -> tinv d l o g (set_forgotten k s).
Proof. intros []. by constructor. Qed.

(** What a record at the start of [buf] is like. *)
Definition starts_with (buf r : list Z) : Prop :=
  valid r /\ head_rec buf = r /\ d_namelen buf = d_namelen r /\ d_off buf = d_off r /\
  d_name buf = d_name r /\ d_ino buf = d_ino r /\ d_type buf = d_type r.

(** A record is passed on, once the position is set, or there is no room. *)
Definition emit_done (r : list Z) (s : rstate) g (ok : bool) (s' : rstate) g' : Prop :=
  tinv d false None g' s' /\ goes s g s' g' /\ stream s' = stream s /\
  counted s' = counted s /\ forgotten s' = forgotten s /\
  (if ok then passed d [r] s (set_ctx_pos (d_off r) s')
   else passed d [] s s' /\ turned_away e d s').

Lemma runs_emit buf r g s : tinv d false None g s -> starts_with buf r ->
  l_next d (ctx_pos s) r ->
  runs (fuse_emit e c buf) s (fun ok s' => exists g', emit_done r s g ok s' g').
Proof.
  intros Ht (Hr & Hh & Hnl & Hoff & Hnm & Hi & Hty) Hn. unfold fuse_emit. msteps.
  apply (runs_bind _ _ _ (fun _ s' => exists g', tinv d false None g' s' /\ frame s s' /\
    goes s g s' g')).
  { destruct (cache_dir c); [by eapply runs_add|].
    eexists _, _. split; [reflexivity|]. exists g. split; [done|]. split; [done|apply goes_on_refl]. }
  intros [] s1 (g1 & Ht1 & (Hf1 & Hf2 & Hf3 & Hf4 & Hf5) & Hg1).
  eapply runs_mono; [by apply (runs_dir_emit buf r)|]. intros ok s2 [Hok Hs2].
  rewrite Hf2, Hf3 in *. exists g1. destruct ok; subst s2.
  - split_and!; try done. by apply tinv_out.
  - split_and!; try done; [by apply passed_nil|]. exists r. by rewrite Hf2, Hf3.
Qed.

(** The tests at the head of the two parsers. *)
Lemma split_cases fuel o buf :
  let r := drop o buf in
  let rest := drop (Z.to_nat (Z.of_nat o + reclen r)) buf in
  (len buf < Z.of_nat o + 24 /\ split (S fuel) o buf = ([], false)) \/
  Z.of_nat o + 24 <= len buf /\
  ((bad_namelen r = true /\ split (S fuel) o buf = ([], true)) \/
   bad_namelen r = false /\
   ((len buf < Z.of_nat o + reclen r /\ split (S fuel) o buf = ([], false)) \/
    Z.of_nat o + reclen r <= len buf /\
    ((has_slash (d_name r) = true /\ split (S fuel) o buf = ([], true)) \/
     (has_slash (d_name r) = false /\ starts_with r (head_rec r) /\ 32 <= reclen r /\
      len rest = len buf - Z.of_nat o - reclen r /\
      split (S fuel) o buf =
        ((take o buf, head_rec r) :: (split fuel o rest).1, (split fuel o rest).2))))).
Proof.
  intros r rest. cbn [split]. fold r. fold rest.
  destruct (Z.ltb_spec (len buf) (Z.of_nat o + 24)) as [H1|H1]; [by left|]. right. split; [done|].
  destruct (bad_namelen r) eqn:Hb; [by left|]. right. split; [done|].
  destruct (Z.ltb_spec (len buf) (Z.of_nat o + reclen r)) as [H2|H2]; [by left|].
  right. split; [done|]. destruct (has_slash (d_name r)) eqn:Hs; [by left|]. right.
  assert (Hlr : len r = len buf - Z.of_nat o) by (subst r; rewrite length_drop; lia).
  destruct (head_rec_ok r) as (Hv & Hl & _ & Ho & Hn & Hi & Ht & Hnl); try done; [lia..|].
  pose proof (valid_length _ Hv) as [Hl32 _]. split; [done|].
  split; [by unfold starts_with; split_and!|]. split; [lia|].
  split; [subst rest; rewrite length_drop; lia|]. by destruct (split fuel o rest).
Qed.

(** The result of a parser that was given the records [rs], refused after them or not. *)
Definition parsed (rs : list (list Z)) (bad : bool) (ret : Z) (l : list (list Z))
    (s' : rstate) : Prop :=
  (ret = 0 /\ (l = rs \/ turned_away e d s')) \/ (ret = - EIO /\ bad = true).

Lemma runs_parse_dirfile fuel : forall buf g s, len buf < 32 * Z.of_nat fuel ->
  tinv d false None g s -> chain (l_next d) (ctx_pos s) (split fuel 0 buf).1.*2 ->
  runs (parse_dirfile e c fuel buf) s (fun ret s' => exists g' l,
    tinv d false None g' s' /\ goes s g s' g' /\ passed d l s s' /\ stream s' = stream s /\
    counted s' = counted s /\ forgotten s' = forgotten s /\
    parsed (split fuel 0 buf).1.*2 (split fuel 0 buf).2 ret l s').
Proof.
  induction fuel as [|fuel IH]; intros buf g s Hlen Ht Hch; [lia|].
  assert (Hstop : forall ret, parsed (split (S fuel) 0 buf).1.*2 (split (S fuel) 0 buf).2 ret [] s ->
    runs (mret ret) s (fun ret s' => exists g' l,
      tinv d false None g' s' /\ goes s g s' g' /\ passed d l s s' /\ stream s' = stream s /\
      counted s' = counted s /\ forgotten s' = forgotten s /\
      parsed (split (S fuel) 0 buf).1.*2 (split (S fuel) 0 buf).2 ret l s')).
  { intros ret Hp. apply runs_ret. exists g, []. split_and!; try done;
      first [apply goes_on_refl|by apply passed_nil]. }
  cbn [parse_dirfile]. unfold FUSE_NAME_OFFSET. fold (reclen buf).
  destruct (split_cases fuel 0 buf) as [[H1 Hs]|(H1 & [[Hb Hs]|(Hb & [[H2 Hs]|(H2 & [[Hsl Hs]|
    (Hsl & Hst & H32 & Hrest & Hs)])])])]; change (drop 0 buf) with buf in *.
  - destruct (Z.ltb_spec (len buf) 24); [|lia]. apply Hstop. left. by rewrite Hs; auto.
  - destruct (Z.ltb_spec (len buf) 24); [lia|]. rewrite Hb. apply Hstop. right. by rewrite Hs.
  - destruct (Z.ltb_spec (len buf) 24); [lia|]. rewrite Hb.
    destruct (Z.ltb_spec (len buf) (reclen buf)); [|lia]. apply Hstop. left. by rewrite Hs; auto.
  - destruct (Z.ltb_spec (len buf) 24); [lia|]. rewrite Hb.
    destruct (Z.ltb_spec (len buf) (reclen buf)); [lia|]. rewrite Hsl. apply Hstop. right. by rewrite Hs.
  - destruct (Z.ltb_spec (len buf) 24); [lia|]. rewrite Hb.
    destruct (Z.ltb_spec (len buf) (reclen buf)); [lia|]. rewrite Hsl.
    clear Hstop. rewrite Hs in *. cbn [fst snd fmap list_fmap chain] in Hch |- *.
    destruct Hch as [Hn Hch]. rewrite Z.add_0_l in *.
    eapply runs_bind; [by apply (runs_emit buf (head_rec buf) g)|].
    intros ok s1 (g1 & Ht1 & Hg1 & Hst1 & Hc1 & Hfo1 & Hok). destruct ok; simpl.
    2:{ destruct Hok as [Hp Hta]. apply runs_ret. exists g1, []. split_and!; try done.
        left. by auto. }
    assert (Hoff : d_off buf = d_off (head_rec buf)) by apply Hst. rewrite Hoff. msteps.
    eapply runs_mono.
    { apply (IH _ g1); [unfold reclen in *; lia|by apply tinv_ctx|exact Hch]. }
    intros ret s2 (g2 & l & Ht2 & Hg2 & Hp2 & Hst2 & Hc2 & Hfo2 & Hpar).
    exists g2, (head_rec buf :: l).
    split_and!; [done|by eapply goes_on_trans| |by rewrite Hst2|by rewrite Hc2|by rewrite Hfo2|].
    + by apply (passed_trans [_] l _ _ _ Hok).
    + destruct Hpar as [[-> [->|Hta]]|[-> ->]]; [left; auto|left; auto|by right].
Qed.

(** ** READDIRPLUS *)

(** How the link of an entry comes out: the lookup is counted, or an error is returned;
    both when [d_splice_alias] fails. *)
Definition linked (id : Z) (s : rstate) (ret : Z) (s' : rstate) : Prop :=
  (ret = 0 /\ counted s' = counted s ++ [id]) \/
  (counted s' = counted s /\
     (ret <> 0 \/ exists t, (d_alloc_parallel e t).2 = 0)) \/
  (counted s' = counted s ++ [id] /\ exists t, splice_err e t <> 0).

Definition only_counted (s s' : rstate) : Prop := exists k, s' = set_counted k s.

Lemma only_counted_refl s : only_counted s s.
Proof. exists (counted s). by destruct s. Qed.

Lemma runs_link_dentry id gen mode t more s : forall de,
  runs (link_dentry e id gen mode (d_alloc_parallel e t).2 de more) s
    (fun ret s' => only_counted s s' /\ linked id s ret s').
Proof.
  induction more as [|de' more IH]; intros de.
  all: assert (Hnew : runs (link_new e id) s (fun ret s' => only_counted s s' /\ linked id s ret s')).
  1,3: unfold link_new; msteps; destruct (iget_ok e (clock s)); simpl;
    [unfold count_nlookup; msteps; apply runs_ret; split; [by eexists|];
     destruct (decide (splice_err e (clock s) = 0)); [by left|right; right; eauto]
    |apply runs_ret; split; [apply only_counted_refl|right; left; split; [done|by left]]].
  all: destruct de as [|[i|]]; simpl; [done|..].
  all: repeat match goal with |- context [if negb ?b then None else _] => destruct b; simpl end.
  all: try match goal with |- context [fuse_stale_inode ?i ?g ?m] => destruct (fuse_stale_inode i g m) end.
  all: try apply IH.
  all: try match goal with |- context [k_bad ?i] => destruct (k_bad i) end.
  all: try (unfold count_nlookup; msteps; apply runs_ret; split; [by eexists|by left]).
  all: apply runs_ret; split; [apply only_counted_refl|right; left; split; [done|]].
  all: try (by left).
  all: destruct (decide ((d_alloc_parallel e t).2 = 0)); [right; by exists t|by left].
Qed.

Lemma only_counted_state s s' : only_counted s s' ->
  dir s' = dir s /\ stream s' = stream s /\ ctx_pos s' = ctx_pos s /\ ctx_out s' = ctx_out s /\
  forgotten s' = forgotten s /\ forall l o g, tinv d l o g s -> tinv d l o g s'.
Proof. intros [k ->]. split_and!; try done. intros. by apply tinv_counted. Qed.

(** An entry of READDIRPLUS is linked or not. *)
Definition link_done (en : list Z * list Z) (s : rstate) g (ret : Z) (s' : rstate) : Prop :=
  exists g', tinv d false None g' s' /\ goes s g s' g' /\ stream s' = stream s /\
    ctx_pos s' = ctx_pos s /\ ctx_out s' = ctx_out s /\ forgotten s' = forgotten s /\
    if wants_lookup en then linked (o_nodeid en.1) s ret s'
    else ret = 0 /\ counted s' = counted s.

Lemma link_stop en s g ret : tinv d false None g s ->
  (if wants_lookup en then linked (o_nodeid en.1) s ret s else ret = 0) ->
  runs (mret ret) s (link_done en s g).
Proof.
  intros Ht H. apply runs_ret. exists g. split_and!; try done; try apply goes_on_refl.
  by destruct (wants_lookup en).
Qed.

Lemma runs_link buf g s : 152 <= len buf -> starts_with (drop 128 buf) (head_rec (drop 128 buf)) ->
  tinv d false None g s ->
  runs (fuse_direntplus_link e buf) s (link_done (take 128 buf, head_rec (drop 128 buf)) s g).
Proof.
  intros Hlen Hst Ht. unfold fuse_direntplus_link.
  assert (Hid : o_nodeid (take 128 buf) = o_nodeid buf).
  { unfold o_nodeid. rewrite <- (take_drop 128 buf) at 2. rewrite field_app; [done|].
    rewrite length_take. lia. }
  assert (Hnm : d_name (drop 128 buf) = d_name (head_rec (drop 128 buf))) by apply Hst.
  set (en := (take 128 buf, head_rec (drop 128 buf))).
  assert (Hw : wants_lookup en = negb (o_nodeid buf =? 0) && negb (is_dot (d_name (drop 128 buf))))
    by (unfold wants_lookup, en; simpl; by rewrite Hid, Hnm).
  destruct (o_nodeid buf =? 0); [apply link_stop; by rewrite ?Hw|].
  destruct (is_dot _); [apply link_stop; by rewrite ?Hw|].
  assert (Hno : forall ret, ret <> 0 \/ (exists t, (d_alloc_parallel e t).2 = 0) ->
    forall s1 g1, tinv d false None g1 s1 -> goes s g s1 g1 -> frame s s1 ->
    runs (mret ret) s1 (link_done en s g)).
  { intros ret Hret s1 g1 Ht1 Hg1 (? & ? & ? & Hc & ?). apply runs_ret. exists g1.
    split_and!; try done. rewrite Hw. right. left. by rewrite Hc. }
  destruct (invalid_nodeid _); [eapply Hno; [by left|done|apply goes_on_refl|done]|].
  destruct (fuse_invalid_attr _ _); [eapply Hno; [by left|done|apply goes_on_refl|done]|].
  eapply runs_bind; [by eapply (runs_yield _ _ Hrely)|]. intros [] s1 (g1 & Ht1 & Hf1 & _ & Hg1 & _).
  assert (Hde : forall de more, runs (link_dentry e (o_nodeid buf) (o_generation buf) (o_mode buf)
    (d_alloc_parallel e (clock s1)).2 de more) s1 (link_done en s g)).
  { intros de more. eapply runs_mono; [apply runs_link_dentry|].
    intros ret s2 [(? & ? & ? & ? & ? & Hti)%only_counted_state Hl].
    destruct Hf1 as (? & ? & ? & Hc & ?). exists g1.
    split_and!; [by apply Hti|unfold goes; congruence|congruence..|].
    rewrite Hw. simpl. rewrite Hid. unfold linked in *. by rewrite <- Hc. }
  msteps. destruct (d_alloc_parallel e (clock s1)) as [more err] eqn:He.
  destruct (d_lookup e (clock s1)) as [de|]; [apply Hde|]. destruct more as [|de more]; [|apply Hde].
  eapply Hno; [|done|done|done]. destruct (decide (err = 0)) as [->|]; [|by left].
  right. exists (clock s1). by rewrite He.
Qed.

(** Nothing goes wrong between counting a lookup and returning. *)
Definition no_late_error : Prop :=
  forall t, splice_err e t = 0 /\ (d_alloc_parallel e t).2 <> 0.

Lemma accounted_nil s s' : counted s' = counted s -> forgotten s' = forgotten s ->
  accounted [] s s'.
Proof. intros H1 H2. exists [], []. by rewrite !app_nil_r. Qed.

Lemma accounted_cons en l s1 s2 s3 :
  accounted [en] s1 s2 -> accounted l s2 s3 -> accounted (en :: l) s1 s3.
Proof.
  intros (a1 & a2 & Hc1 & Hf1 & Hp1) (b1 & b2 & Hc2 & Hf2 & Hp2).
  exists (a1 ++ b1), (a2 ++ b2). rewrite Hc2, Hc1, Hf2, Hf1, !app_assoc. split_and!; [done..|].
  change (en :: l) with ([en] ++ l). unfold lookups_due in *.
  rewrite filter_app, fmap_app, <- Hp1, <- Hp2. solve_Permutation.
Qed.

(** The link, and the FORGET when it fails. *)
Lemma runs_link_or_forget buf g s : 152 <= len buf ->
  starts_with (drop 128 buf) (head_rec (drop 128 buf)) -> tinv d false None g s ->
  runs (ret ← fuse_direntplus_link e buf;
        if negb (ret =? 0) then fuse_force_forget (o_nodeid buf) else mret tt) s
    (fun _ s' => exists g', tinv d false None g' s' /\ goes s g s' g' /\ stream s' = stream s /\
       ctx_pos s' = ctx_pos s /\ ctx_out s' = ctx_out s /\
       (no_late_error -> accounted [(take 128 buf, head_rec (drop 128 buf))] s s')).
Proof.
  intros Hlen Hst Ht. eapply runs_bind; [by apply runs_link|].
  intros ret s1 (g1 & Ht1 & Hg1 & Hs1 & Hp1 & Ho1 & Hf1 & Hl).
  set (en := (take 128 buf, head_rec (drop 128 buf))) in *.
  assert (Hid : o_nodeid en.1 = o_nodeid buf).
  { unfold o_nodeid, en; simpl. rewrite <- (take_drop 128 buf) at 2. rewrite field_app; [done|].
    rewrite length_take. lia. }
  assert (Hdue : lookups_due [en] = if wants_lookup en then [o_nodeid buf] else []).
  { unfold lookups_due. rewrite filter_cons. rewrite <- Hid. by destruct (wants_lookup en). }
  rewrite Hid in Hl. unfold accounted. rewrite Hdue.
  destruct (Z.eqb_spec ret 0) as [->|Hne]; simpl.
  - apply runs_ret. exists g1. split_and!; try done. intros Hno.
    destruct (wants_lookup en); [|exists [], []; by rewrite !app_nil_r; destruct Hl].
    destruct Hl as [[_ Hc]|[(_ & [|[t Ht0]])|(_ & t & Ht0)]];
      [|done|by destruct (Hno t)|by destruct (Hno t)].
    exists [o_nodeid buf], []. by rewrite app_nil_r.
  - unfold fuse_force_forget. eexists _, _. split; [reflexivity|]. exists g1.
    split_and!; try done; [by apply tinv_forgotten|]. intros Hno. simpl.
    destruct (wants_lookup en); [|by destruct Hl].
    destruct Hl as [[? _]|[(Hc & _)|(_ & t & Ht0)]]; [done| |by destruct (Hno t)].
    exists [], [o_nodeid buf]. by rewrite app_nil_r, Hf1.
Qed.

(** Passing on an entry of READDIRPLUS, unless there was no room before. *)
Lemma runs_over over buf r g s : tinv d false None g s -> starts_with buf r ->
  (if over : bool then turned_away e d s else l_next d (ctx_pos s) r) ->
  runs (if over then mret true
        else ok ← fuse_emit e c buf;
             (if ok : bool then modifyM (set_ctx_pos (d_off buf)) else mret tt);;
             mret (negb ok)) s
    (fun over' s' => exists g' l, tinv d false None g' s' /\ goes s g s' g' /\
       passed d l s s' /\ stream s' = stream s /\ counted s' = counted s /\
       forgotten s' = forgotten s /\
       if over' : bool then l = [] /\ turned_away e d s' else over = false /\ l = [r]).
Proof.
  intros Ht Hst Hover. destruct over.
  { apply runs_ret. exists g, []. split_and!; try done; first [apply goes_on_refl|by apply passed_nil]. }
  eapply runs_bind; [by apply (runs_emit buf r g)|].
  intros ok s1 (g1 & Ht1 & Hg1 & Hst1 & Hc1 & Hf1 & Hok).
  assert (Hoff : d_off buf = d_off r) by apply Hst.
  destruct ok; simpl; msteps; apply runs_ret.
  - exists g1, [r]. rewrite Hoff. split_and!; try done. by apply tinv_ctx.
  - exists g1, []. destruct Hok. by split_and!.
Qed.

Lemma turned_away_same s s' : ctx_pos s' = ctx_pos s -> ctx_out s' = ctx_out s ->
  turned_away e d s -> turned_away e d s'.
Proof. unfold turned_away. by intros -> ->. Qed.

Definition plus_done (over : bool) (l : list (list Z * list Z)) (bad : bool) (s : rstate) g
    (ret : Z) (s' : rstate) : Prop :=
  exists g' k, tinv d false None g' s' /\ goes s g s' g' /\ passed d k s s' /\
    stream s' = stream s /\ (no_late_error -> accounted l s s') /\ parsed l.*2 bad ret k s' /\
    (over = true -> turned_away e d s').

Lemma plus_stop over l bad s g ret : tinv d false None g s -> l = [] ->
  (over = true -> turned_away e d s) -> parsed [] bad ret [] s ->
  runs (mret ret) s (plus_done over l bad s g).
Proof.
  intros Ht -> Ho Hp. apply runs_ret. exists g, []. split_and!; try done;
    try apply goes_on_refl; [by apply passed_nil|]. intros _. by apply accounted_nil.
Qed.

Lemma runs_parse_dirplusfile fuel : forall over buf g s, len buf < 32 * Z.of_nat fuel ->
  tinv d false None g s ->
  (if over : bool then turned_away e d s
   else chain (l_next d) (ctx_pos s) (split fuel 128 buf).1.*2) ->
  runs (parse_dirplusfile e c fuel over buf) s
    (plus_done over (split fuel 128 buf).1 (split fuel 128 buf).2 s g).
Proof.
  induction fuel as [|fuel IH]; intros over buf g s Hlen Ht Hch; [lia|].
  cbn [parse_dirplusfile]. unfold FUSE_NAME_OFFSET_DIRENTPLUS.
  rewrite direntplus_size. change (FUSE_DIRENT_SIZE (d_namelen (drop 128 buf)))
    with (reclen (drop 128 buf)).
  destruct (split_cases fuel 128 buf) as [[H1 Hs]|(H1 & [[Hb Hs]|(Hb & [[H2 Hs]|(H2 & [[Hsl Hs]|
    (Hsl & Hst & H32 & Hrest & Hs)])])])]; rewrite Hs in *;
    change (Z.of_nat 128 + 24) with 152 in *; change (Z.of_nat 128) with 128 in *;
    (destruct (Z.ltb_spec (len buf) 152); [|try lia]); try lia.
  - apply plus_stop; [done|done|by intros ->|]. left. auto.
  - rewrite Hb. apply plus_stop; [done|done|by intros ->|]. by right.
  - rewrite Hb. destruct (Z.ltb_spec (len buf) (128 + reclen (drop 128 buf))); [|lia].
    apply plus_stop; [done|done|by intros ->|]. left. auto.
  - rewrite Hb, Hsl. destruct (Z.ltb_spec (len buf) (128 + reclen (drop 128 buf))); [lia|].
    apply plus_stop; [done|done|by intros ->|]. by right.
  - rewrite Hb, Hsl. destruct (Z.ltb_spec (len buf) (128 + reclen (drop 128 buf))); [lia|].
    clear Hs. set (rest := drop (Z.to_nat (128 + reclen (drop 128 buf))) buf) in *. set (r := head_rec (drop 128 buf)) in *.
    cbn [fst snd fmap list_fmap chain] in *.
    eapply runs_bind.
    { apply (runs_over over (drop 128 buf) r g s Ht Hst). by destruct over; [|apply Hch]. }
    intros over1 s1 (g1 & l1 & Ht1 & Hg1 & Hp1 & Hst1 & Hc1 & Hf1 & Ho1).
    apply (runs_bind_unassoc (fuse_direntplus_link e buf)
      (fun ret => if negb (ret =? 0) then fuse_force_forget (o_nodeid buf) else mret tt)
      (fun _ => parse_dirplusfile e c fuel over1 rest)).
    eapply runs_bind; [by apply (runs_link_or_forget buf g1)|].
    intros [] s2 (g2 & Ht2 & Hg2 & Hst2 & Hp2 & Ho2 & Hac).
    eapply runs_mono.
    { apply (IH over1 rest g2 s2); [lia|done|]. destruct over1.
      - eapply turned_away_same; [done|done|apply Ho1].
      - destruct Ho1 as [-> ->], Hp1 as (_ & Hc & _). rewrite Hp2, Hc. apply Hch. }
    intros ret s3 (g3 & k & Ht3 & Hg3 & Hp3 & Hst3 & Hac3 & Hpar & Hta).
    exists g3, (l1 ++ k). split_and!; [done| | |congruence| | |].
    + eapply goes_on_trans; [exact Hg1|]. by eapply goes_on_trans.
    + eapply passed_trans; [exact Hp1|]. by eapply passed_from.
    + intros Hno. eapply accounted_cons; [|by apply Hac3].
      destruct (Hac Hno) as (a1 & a2 & Hx & Hy & Hz). exists a1, a2.
      by rewrite Hx, Hy, Hc1, Hf1.
    + destruct Hpar as [[-> Hk]|[-> ->]]; [left; split; [done|]|by right].
      destruct over1; [by right; apply Hta|].
      destruct Hk as [->|]; [|by right]. left. by destruct Ho1 as [_ ->].
    + intros ->. apply Hta. destruct over1; [done|]. by destruct Ho1.
Qed.
End Parse.

(** ** Scanning a page of the cache *)
Lemma bytes_take_S l k r : l !! k = Some r -> bytes (take (S k) l) = bytes (take k l) + len r.
Proof. intros H. by rewrite (take_S_r _ _ r H), bytes_app, bytes_one. Qed.

Lemma bytes_take_mono l k m : (k <= m)%nat -> bytes (take k l) <= bytes (take m l).
Proof.
  intros H. replace (take k l) with (take k (take m l)); [apply bytes_take_le|].
  rewrite take_take. f_equal. lia.
Qed.

Section Scan.
Context (e : world) (c : rdconf) (d : listing).
Hypothesis Hag : agrees e d.

(** The loop of [fuse_parse_cache] over the records [l] of a page, of which [m] are in the
    part in use; [P] is the position before them and [C] the offset of the page. *)
Section Loop.
Context (l : list (list Z)) (P C : Z) (m : nat) (size : Z).
Hypothesis Hv : Forall valid l.
Hypothesis Hb : bytes l <= PAGE_SIZE.
Hypothesis Hm : (m <= length l)%nat.
Hypothesis Hsz : size = bytes (take m l) \/ (size = PAGE_SIZE /\ m = length l).
Hypothesis Hch : chain (l_next d) P l.

(** The stream of [s] is [k] records into the page. *)
Record scanning (k : nat) (s : rstate) : Prop := {
  scan_k : (k <= m)%nat;
  scan_warned : warned s = false;
  scan_pos : rs_pos (stream s) = ends P (take k l);
  scan_off : cache_off (stream s) = C + bytes (take k l);
  scan_legit : l_le d 0 (ctx_pos s);
  scan_le : l_le d (rs_pos (stream s)) (ctx_pos s);
}.

(** What the loop leaves alone. *)
Definition same_cache (s s' : rstate) : Prop :=
  dir s' = dir s /\ rdc_lock s' = rdc_lock s /\ page_lock s' = page_lock s /\
  rs_version (stream s') = rs_version (stream s) /\ counted s' = counted s /\
  forgotten s' = forgotten s.

Lemma size_bounds k : (k <= m)%nat -> bytes (take k l) <= size <= PAGE_SIZE.
Proof.
  intros Hk. pose proof (bytes_take_mono l k m Hk). pose proof (bytes_take_le l k).
  pose proof (bytes_take_le l m). destruct Hsz as [->|[-> _]]; lia.
Qed.

(** At the end of the part in use nothing more is found. *)
Lemma scan_end k : (k <= m)%nat ->
  let rec := drop (Z.to_nat (bytes (take k l))) (page_bytes l) in
  (u32 (size - bytes (take k l)) <? FUSE_NAME_OFFSET) || (d_namelen rec =? 0) =
  bool_decide (k = m).
Proof.
  intros Hk rec. pose proof (size_bounds k Hk) as Hs.
  assert (0 <= bytes (take k l)) by (unfold bytes; lia).
  assert (Hu : u32 (size - bytes (take k l)) = size - bytes (take k l)).
  { unfold u32, PAGE_SIZE in *. rewrite Z.mod_small; lia. }
  rewrite Hu. unfold FUSE_NAME_OFFSET. case_bool_decide as Hkm.
  - subst k. destruct Hsz as [Hz|[Hz Hml]].
    + destruct (Z.ltb_spec (size - bytes (take m l)) 24); [done|lia].
    + subst rec. rewrite (page_rest l m), Hml, drop_ge by (try done; lia). simpl.
      rewrite page_zeros_namelen. apply orb_true_r.
  - destruct (lookup_lt_is_Some_2 l k) as [r Hr]; [lia|].
    assert (Hvr : valid r) by (rewrite Forall_lookup in Hv; eauto).
    pose proof (valid_length r Hvr) as [Hl1 Hl2].
    assert (Hsk : bytes (take k l) + len r <= size).
    { rewrite <- (bytes_take_S l k r Hr). apply size_bounds. lia. }
    destruct (Z.ltb_spec (size - bytes (take k l)) 24); [lia|]. simpl.
    apply Z.eqb_neq. subst rec. rewrite page_rest by lia. rewrite (drop_S l r k Hr). simpl.
    rewrite <- app_assoc. destruct (fields_app r (concat (drop (S k) l) ++
      replicate (Z.to_nat (PAGE_SIZE - bytes l)) 0)) as (-> & _); [lia..|].
    destruct Hvr as [? _]. lia.
Qed.

(** The record at the place of the stream. *)
Lemma scan_record k r : (k < m)%nat -> l !! k = Some r ->
  let rec := drop (Z.to_nat (bytes (take k l))) (page_bytes l) in
  valid r /\ l_next d (ends P (take k l)) r /\ d_namelen rec = d_namelen r /\
  d_off rec = d_off r /\ d_name rec = d_name r /\ d_ino rec = d_ino r /\ d_type rec = d_type r /\
  bytes (take k l) + reclen r = bytes (take (S k) l) /\
  bytes (take (S k) l) <= size /\ ends P (take (S k) l) = d_off r.
Proof.
  intros Hk Hr rec. assert (Hvr : valid r) by (rewrite Forall_lookup in Hv; eauto).
  pose proof (valid_length r Hvr) as [Hl1 Hl2]. split; [done|]. split.
  { rewrite <- (take_drop k l), (drop_S l r k Hr) in Hch. apply chain_app in Hch as [_ [? _]]. done. }
  subst rec. rewrite page_rest by lia. rewrite (drop_S l r k Hr). simpl.
  rewrite <- app_assoc. destruct (fields_app r (concat (drop (S k) l) ++
    replicate (Z.to_nat (PAGE_SIZE - bytes l)) 0)) as (-> & -> & -> & -> & ->); [lia..|].
  split_and!; try done.
  - rewrite (bytes_take_S l k r Hr). by destruct Hvr as (_ & -> & _).
  - apply size_bounds. lia.
  - by rewrite (take_S_r _ _ r Hr), ends_app.
Qed.

(** The outcome of the loop: the records passed on follow each other; without an error
    or a full buffer the whole part in use has been read. *)
Definition scanned (res : parse_result) (s : rstate) (res' : parse_result) (s' : rstate) : Prop :=
  exists j k, scanning j s' /\ same_cache s s' /\ passed d k s s' /\
    match res' with
    | FOUND_ERR => False
    | FOUND_ALL => turned_away e d s'
    | FOUND_SOME => j = m /\ (res = FOUND_SOME \/ k <> [])
    | FOUND_NONE => j = m /\ res = FOUND_NONE /\ k = []
    end.

(** The stream moves on to the next record. *)
Lemma scanning_next k r s pos out : scanning k s -> (k < m)%nat -> l !! k = Some r ->
  l_le d 0 pos -> l_le d (d_off r) pos ->
  scanning (S k) (set_stream (mk_stream (d_off r) (cache_off (stream s) + reclen r)
    (rs_version (stream s))) (set_ctx_pos pos (set_ctx_out out s))).
Proof.
  intros [? ? ? Ho ? ?] Hk Hr Hle Hle'. destruct (scan_record k r Hk Hr)
    as (_ & _ & _ & _ & _ & _ & _ & Hby & _ & He).
  constructor; simpl; try done. rewrite Ho. lia.
Qed.

Lemma runs_parse_loop fuel : forall k res s, (m - k < fuel)%nat -> scanning k s ->
  res = FOUND_NONE \/ res = FOUND_SOME ->
  runs (parse_loop e fuel (page_bytes l) size (bytes (take k l)) res) s
    (fun res' s' => scanned res s res' s').
Proof.
  induction fuel as [|fuel IH]; intros k res s Hf Hs Hres; [lia|]. cbn [parse_loop].
  rewrite (scan_end k (scan_k _ _ Hs)). case_bool_decide as Hkm.
  { apply runs_ret. exists k, []. split_and!; try done; [by apply passed_nil|].
    destruct Hres as [->| ->]; auto. }
  assert (Hk : (k < m)%nat) by (pose proof (scan_k _ _ Hs); lia).
  destruct (lookup_lt_is_Some_2 l k) as [r Hr]; [lia|].
  destruct (scan_record k r Hk Hr) as (Hvr & Hn & -> & Hoff & Hnm & Hi & Hty & Hby & Hle & He).
  pose proof (size_bounds k (scan_k _ _ Hs)) as Hsb.
  assert (Hnb : 0 <= bytes (take k l)) by (unfold bytes; lia).
  fold (reclen r). rewrite Hnm. destruct Hvr as (Hn1 & Hrl & Hsl).
  apply warn_ok_bind; [apply Z.ltb_ge; lia|]. apply warn_ok_bind.
  { apply Z.ltb_ge. unfold u32, PAGE_SIZE in *. rewrite Z.mod_small; lia. }
  apply warn_ok_bind; [done|]. msteps. rewrite Hby, (scan_pos _ _ Hs).
  destruct (Z.eqb_spec (ends P (take k l)) (ctx_pos s)) as [Heq|Hne].
  - eapply runs_bind; [apply (runs_dir_emit e _ r s Hnm Hi Hty)|].
    intros ok s1 [Hok ->].
    destruct ok; simpl.
    2:{ apply runs_ret. exists k, []. split_and!; try done; [by apply passed_nil|].
        exists r. rewrite <- Heq at 1. by split_and!. }
    msteps. rewrite Hoff.
    assert (Hleg : l_le d 0 (d_off r)).
    { eapply agree_step; [done|apply (scan_legit _ _ Hs)|]. by rewrite <- Heq. }
    eapply runs_mono.
    { apply (IH (S k)); [lia| |by right]. eapply scanning_next; try done. by eapply agree_refl. }
    intros res' s' (j & q & Hj & Hsc & Hp & Ho). exists j, (r :: q). split_and!; [done|done| |].
    + apply (passed_trans d [r] q s (set_ctx_pos (d_off r)
        (set_ctx_out (ctx_out s ++ [emits (ctx_pos s) r]) s))); [|done].
      split_and!; try done. simpl. by rewrite <- Heq.
    + destruct res'; naive_solver.
  - msteps. rewrite Hoff. eapply runs_mono.
    { apply (IH (S k)); [lia| |done].
      apply (scanning_next k r s (ctx_pos s) (ctx_out s)); try done; [apply Hs|].
      pose proof (scan_le _ _ Hs) as Hl. rewrite (scan_pos _ _ Hs) in Hl. by eapply agree_le. }
    intros res' s' (j & q & Hj & Hsc & Hp & Ho). by exists j, q.
Qed.
End Loop.
End Scan.
