(* ===== verification/KDirRead.v ===== *)
(** * Reading a directory from its cache, and the call as a whole *)
From S2P Require Import Prelude KDir KDirFacts KDirCache KDirRun KDirParse.
#[local] Open Scope Z_scope.

Section Read.
Context (e : world) (c : rdconf) (d : listing).
Hypothesis Hag : agrees e d.
Hypothesis Hrely : relies d (others e).

(** The reader's stream has not passed its position. *)
Definition tracks (s : rstate) : Prop :=
  rs_version (stream s) = rc_version (rdc (dir s)) -> l_le d (rs_pos (stream s)) (ctx_pos s).

(** The stream after [choose_page]. *)
Definition chosen_stream (s : rstate) : rdstream :=
  if rc_version (rdc (dir s)) =? rs_version (stream s) then stream s
  else mk_stream 0 0 (rc_version (rdc (dir s))).

Definition chosen (s : rstate) g (ch : Z + Z * Z) : Prop :=
  match ch with
  | inl ret => ret = 0 /\ rs_pos (stream s) = rc_pos (rdc (dir s))
  | inr (i, sz) => exists p k, at_place g (cache_off (stream s)) (rs_pos (stream s)) p k /\
      i = Z.of_nat p /\ (p < length g)%nat /\ page_offset (cache_off (stream s)) < sz /\
      ((sz = bytes (nth_page g p) /\ sz < PAGE_SIZE) \/
       (sz = PAGE_SIZE /\ PAGE_SIZE * Z.of_nat (S p) <= size_of g))
  end.

Lemma runs_choose g s : tinv d true None g s -> l_le d 0 (ctx_pos s) -> tracks s ->
  runs choose_page s (fun ch s' => tinv d false None g s' /\
    s' = set_rdc_lock false (set_stream (chosen_stream s) s) /\
    rs_version (stream s') = rc_version (rdc (dir s)) /\
    l_le d (rs_pos (stream s')) (ctx_pos s) /\ chosen s' g ch).
Proof.
  intros Ht Hleg Htr. unfold choose_page. eapply load_rdc_bind; [done|]. msteps.
  set (v := rc_version (rdc (dir s))).
  set (s2 := set_stream (chosen_stream s) s).
  assert (Hst2 : rs_version (stream s2) = v /\ l_le d (rs_pos (stream s2)) (ctx_pos s) /\
    at_pos g (cache_off (stream s2)) (rs_pos (stream s2))).
  { unfold s2, chosen_stream. fold v. destruct (Z.eqb_spec v (rs_version (stream s))) as [Hv|]; simpl.
    - split_and!; [done|by apply Htr|]. by apply (t_place _ _ _ _ _ Ht).
    - split_and!; [done|done|]. apply at_pos_start, (t_wf _ _ _ _ _ Ht). }
  destruct Hst2 as (Hv2 & Hle2 & Hp2).
  assert (Ht2 : tinv d true None g s2).
  { constructor; try apply Ht; [rewrite Hv2; unfold s2; simpl; fold v; lia|done]. }
  apply (runs_bind _ _ _ (fun _ s' => s' = if v =? rs_version (stream s) then s else reset_stream s)).
  { destruct (v =? rs_version (stream s)); simpl; msteps; eexists _, _; by split. }
  intros [] ? ->. msteps.
  assert (Heq : (let s1 := if v =? rs_version (stream s) then s else reset_stream s in
    if rs_pos (stream s1) =? 0
    then set_stream (mk_stream (rs_pos (stream s1)) (cache_off (stream s1)) v) s1 else s1) = s2).
  { unfold s2, chosen_stream. fold v. destruct (Z.eqb_spec v (rs_version (stream s))) as [Hv|]; simpl;
      [|done]. rewrite Hv. destruct s as [? [? ? ?]]; simpl. by destruct (_ =? 0). }
  cbv zeta in Heq. rewrite Heq. clear Heq.
  assert (Hsz : rc_size (rdc (dir s)) = size_of g) by apply (t_wf _ _ _ _ _ Ht).
  destruct Hp2 as (p & k & Hpl).
  apply warn_ok_bind; [apply Z.ltb_ge; rewrite Hsz; apply Hpl|].
  apply (runs_bind _ _ _ (fun _ s' => s' = set_rdc_lock false s2)).
  { unfold spin_unlock. msteps. rewrite (t_spin _ _ _ _ _ Ht). simpl. msteps.
    eexists _, _. by split. }
  intros [] ? ->. apply runs_ret.
  destruct (choose_place g _ _ p k (wf_good _ _ _ (t_wf _ _ _ _ _ Ht)) Hpl)
    as (Hpi & Hpo & Hend & Hmore). rewrite Hsz.
  split; [by destruct Ht2; constructor|]. split; [done|]. split; [done|]. split; [done|].
  destruct (Z.eqb_spec (page_offset (cache_off (stream s2)))
    (if page_index (cache_off (stream s2)) =? page_index (size_of g)
     then page_offset (size_of g) else PAGE_SIZE)) as [He|He]; unfold chosen.
  - split; [done|]. etrans; [by apply Hend|]. symmetry. apply (t_wf _ _ _ _ _ Ht).
  - destruct (Hmore He) as (Hlt & Hpl' & Hs). exists p, k.
    by split_and!.
Qed.

(** The part of page [p] in use when [sz] of it was chosen. *)
Definition in_use g (p : nat) (sz : Z) : Prop :=
  exists m, (m <= length (nth_page g p))%nat /\
    (sz = bytes (take m (nth_page g p)) \/ (sz = PAGE_SIZE /\ m = length (nth_page g p))).

Lemma chain_page g p : (p < length g)%nat -> chain (l_next d) 0 (concat g) ->
  chain (l_next d) (ends 0 (concat (take p g))) (nth_page g p).
Proof.
  intros Hp Hc. rewrite <- (take_drop (S p) g), concat_app, concat_take_S in Hc by done.
  apply chain_app in Hc as [Hc _]. by apply chain_app in Hc as [_ Hc].
Qed.

(** What reading a page does: nothing is wrong, records are passed on, and the page is
    read to the end of the part in use or until the buffer is full. *)
Definition page_read g (p : nat) (sz : Z) (s : rstate) (res : parse_result) (s' : rstate) : Prop :=
  exists k, tinv d false (Some (Z.of_nat p)) g s' /\ same_cache s s' /\ passed d k s s' /\
    l_le d (rs_pos (stream s')) (ctx_pos s') /\
    match res with
    | FOUND_ERR => False
    | FOUND_ALL => turned_away e d s'
    | FOUND_SOME => k <> []
    | FOUND_NONE => True
    end /\
    (res <> FOUND_ALL -> sz = PAGE_SIZE ->
     cache_off (stream s') = PAGE_SIZE * Z.of_nat p + bytes (nth_page g p) /\
     rs_pos (stream s') = ends 0 (concat (take p g) ++ nth_page g p)).

Lemma runs_read_page g p k sz s : tinv d false (Some (Z.of_nat p)) g s ->
  l_le d 0 (ctx_pos s) -> l_le d (rs_pos (stream s)) (ctx_pos s) ->
  at_place g (cache_off (stream s)) (rs_pos (stream s)) p k -> (p < length g)%nat ->
  in_use g p sz -> page_offset (cache_off (stream s)) < sz ->
  is_Some (pages (dir s) !! Z.of_nat p) ->
  runs (b ← load_page (Z.of_nat p); fuse_parse_cache e b sz) s (page_read g p sz s).
Proof.
  intros Ht Hleg Hle Hpl Hp (m & Hm & Hsz) Hlt [b Hb].
  pose proof (t_wf _ _ _ _ _ Ht) as Hwf. set (l := nth_page g p) in *.
  eapply load_page_bind; [done|done|].
  assert (b = page_bytes l) as -> by (by eapply wf_page).
  pose proof (wf_good _ _ _ Hwf) as Hg. pose proof (nth_page_good g p Hg Hp) as Hgp.
  fold l in Hgp. destruct Hgp as (_ & Hv & Hbl).
  destruct (choose_place g _ _ p k Hg Hpl) as (Hpi & Hpo & _). fold l in Hpo.
  unfold fuse_parse_cache. apply runs_get_bind. cbv beta zeta. rewrite Hpo in Hlt |- *.
  apply warn_ok_bind; [by apply Z.leb_gt|].
  assert (Hkm : (k <= m)%nat).
  { destruct Hsz as [->|[_ ->]]; [|apply (place_rec _ _ _ _ _ Hpl)].
    destruct (decide (k <= m)%nat) as [|Hkm]; [done|].
    pose proof (bytes_take_mono l m k). lia. }
  set (P := ends 0 (concat (take p g))). set (C := PAGE_SIZE * Z.of_nat p).
  assert (Hsc : scanning d l P C m k s).
  { constructor; try done; [apply Ht| |].
    - by rewrite (place_pos _ _ _ _ _ Hpl), ends_app.
    - apply (place_off _ _ _ _ _ Hpl). }
  eapply runs_mono.
  { eapply (runs_parse_loop e d Hag l P C m sz); try done; [by apply chain_page, Hwf| |by left].
    pose proof (bytes_count l Hv). pose proof parse_fuel_val. unfold PAGE_SIZE in *. lia. }
  intros res s' (j & q & Hj & Hsame & Hps & Hres).
  assert (Hrs : rs_pos (stream s') = ends 0 (concat (take p g) ++ take j l))
    by by rewrite (scan_pos _ _ _ _ _ _ _ Hj), ends_app.
  pose proof (scan_off _ _ _ _ _ _ _ Hj) as Hco. pose proof (scan_k _ _ _ _ _ _ _ Hj) as Hjm.
  exists q. destruct Hsame as (Hd & Hl & Hpg & Hrv & Hc1 & Hc2). split_and!; try done.
  - constructor; rewrite ?Hd, ?Hl, ?Hpg, ?Hrv; try apply Ht; [apply Hj|].
    intros _. rewrite Hrs, Hco. apply at_pos_in; [done|done|]. fold l. lia.
  - apply Hj.
  - destruct res; try done. by destruct Hres as [_ [?|?]].
  - intros Hall Hpsz. assert (j = m) as -> by (destruct res; naive_solver).
    assert (take m l = l) as Htl.
    { destruct Hsz as [Hz|[_ ->]]; [|apply firstn_all].
      apply take_all_bytes; [done|]. lia. }
    rewrite Htl in *. by split.
Qed.

(** ** One round *)

Section Round.
Context (B : Z).
Hypothesis HB : LIMIT <= B.

(** How far the stream is in the current version of the cache. *)
Definition progress_of (s : rstate) : Z :=
  if rs_version (stream s) =? rc_version (rdc (dir s)) then cache_off (stream s) else 0.

(** It decreases with every round: versions are counted up, or the next page is read. *)
Definition measure (s : rstate) : Z :=
  (2 ^ 64 - rc_version (rdc (dir s))) * (B + 1) + (B - progress_of s).

(** The state at the two labels; after a reset of the cache no other thread has run. *)
Record round (locked : bool) g (s : rstate) : Prop := {
  r_inv : tinv d locked None g s;
  r_legit : l_le d 0 (ctx_pos s);
  r_tracks : tracks s;
  r_calm : rc_version (rdc (dir s)) <= LIMIT \/
    (locked = true /\ cached (rdc (dir s)) = false);
  r_size : rc_size (rdc (dir s)) <= B;
}.

Lemma progress_bounds l o g s : tinv d l o g s -> rc_size (rdc (dir s)) <= B ->
  0 <= progress_of s <= B.
Proof.
  intros Ht Hs. unfold progress_of. destruct (Z.eqb_spec (rs_version (stream s)) (rc_version (rdc (dir s)))).
  - destruct (t_place _ _ _ _ _ Ht) as (p & k & []); [done|].
    rewrite (wf_size _ _ _ (t_wf _ _ _ _ _ Ht)) in Hs. unfold bytes, PAGE_SIZE in *. lia.
  - unfold LIMIT in *. lia.
Qed.

(** A new version, or the same one with the stream not moved back. *)
Lemma measure_version s s' : rc_version (rdc (dir s)) < rc_version (rdc (dir s')) ->
  0 <= progress_of s <= B -> 0 <= progress_of s' <= B -> measure s' < measure s.
Proof. unfold measure. intros. nia. Qed.

Lemma measure_goes s g s' g' : goes s g s' g' -> stream s' = stream s ->
  0 <= progress_of s <= B -> 0 <= progress_of s' <= B -> measure s' <= measure s.
Proof.
  intros [Hv _] Hst Hp Hp'.
  destruct (decide (rc_version (rdc (dir s)) = rc_version (rdc (dir s')))) as [He|].
  - unfold measure, progress_of. rewrite Hst, He. lia.
  - apply Z.lt_le_incl, measure_version; [lia|done|done].
Qed.

Lemma tracks_goes l o g s s' g' : tinv d l o g s -> tracks s -> goes s g s' g' ->
  stream s' = stream s -> ctx_pos s' = ctx_pos s -> tracks s'.
Proof.
  intros Ht Htr [Hv _] Hst Hp. unfold tracks. rewrite Hst, Hp. intros He. apply Htr.
  pose proof (t_version _ _ _ _ _ Ht). lia.
Qed.

Lemma runs_enter locked g s : round locked g s ->
  runs (if locked then mret tt else spin_lock e) s (fun _ s' => exists g',
    round true g' s' /\ frame s s' /\ goes s g s' g' /\ measure s' <= measure s).
Proof.
  intros [Ht Hl Htr Hc Hs]. destruct locked.
  { apply runs_ret. exists g. split_and!; [by constructor|done|apply goes_on_refl|lia]. }
  eapply runs_mono; [by apply (runs_spin_lock _ _ Hrely)|].
  intros [] s' (g' & Ht' & Hf & Hwf & Hgo & Hv & Hsz & _). exists g'.
  destruct Hc as [Hc|[? _]]; [|done]. destruct Hf as (Hst & Hp & Hrest).
  assert (Hs' : rc_size (rdc (dir s')) <= B) by lia.
  split_and!; [|by unfold frame|done|].
  - constructor; [done|by rewrite Hp|eapply tracks_goes; [exact Ht|exact Htr|exact Hgo|done|done]|left; lia|done].
  - eapply measure_goes; [done|done|by eapply progress_bounds..].
Qed.

(** A reset of the cache. *)
Lemma runs_reset g s : tinv d true None g s -> rc_version (rdc (dir s)) <= LIMIT ->
  l_le d 0 (ctx_pos s) -> rc_size (rdc (dir s)) <= B ->
  runs fuse_rdc_reset s (fun _ s' => round true [] s' /\ frame s s' /\ goes s g s' [] /\
    measure s' < measure s).
Proof.
  intros Ht Hv Hl Hs. unfold fuse_rdc_reset. eapply load_rdc_bind; [done|].
  destruct (wf_reset d g (dir s) (t_wf _ _ _ _ _ Ht)) as [Hwf Hver]; [unfold LIMIT in *; lia|].
  unfold store_rdc. msteps. rewrite (t_spin _ _ _ _ _ Ht). simpl. msteps.
  eexists _, _. split; [reflexivity|]. fold (reset_rdc (rdc (dir s))).
  set (s' := set_dir (set_rdc (reset_rdc (rdc (dir s))) (dir s)) s).
  assert (Hver' : rc_version (rdc (dir s')) = rc_version (rdc (dir s)) + 1) by exact Hver.
  assert (Hgo : goes s g s' []) by (split; [lia|]; intros Heq; exfalso; lia).
  assert (Ht' : tinv d true None [] s') by (eapply tinv_goes; [done|done|exact Hgo|..]; done || apply Ht).
  split_and!; [|done|exact Hgo|].
  - constructor; [done|done| |by right|simpl; unfold LIMIT in *; lia].
    intros Heq. exfalso. pose proof (t_version _ _ _ _ _ Ht) as Hle.
    change (stream s') with (stream s) in Heq. lia.
  - apply measure_version; [lia|by eapply progress_bounds|].
    eapply progress_bounds; [exact Ht'|simpl; unfold LIMIT in *; lia].
Qed.

(** The end of a call from the cache. *)
Definition ended (s : rstate) : Prop := exists q, l_le d q (ctx_pos s) /\ l_fin d q.

Definition round_done (s : rstate) g (r : Z + bool) (s' : rstate) : Prop :=
  exists g' l, goes s g s' g' /\ passed d l s s' /\ counted s' = counted s /\
    forgotten s' = forgotten s /\
    match r with
    | inl ret => tinv d false None g' s' /\
        ((ret = 0 /\ (l = [] -> ended s' \/ turned_away e d s')) \/ ret = UNCACHED)
    | inr locked => round locked g' s' /\ measure s' < measure s
    end.

(** What follows [choose_page]. *)
Definition after_choice (i sz : Z) : M rstate (Z + bool) :=
  got ← find_lock_page e i;
  spin_lock e;;
  r ← load_rdc;
  s ← getM;
  if negb got then
    (if rc_version r =? rs_version (stream s) then fuse_rdc_reset else mret tt);;
    mret (inr true)
  else if negb (rs_version (stream s) =? rc_version r) then
    spin_unlock;; unlock_page;; mret (inr false)
  else
    spin_unlock;;
    b ← load_page i;
    res ← fuse_parse_cache e b sz;
    unlock_page;;
    match res with
    | FOUND_ERR => mret (inl (- EIO))
    | FOUND_ALL => mret (inl 0)
    | _ =>
      if sz =? PAGE_SIZE then
        modifyM (fun s => set_stream (mk_stream (rs_pos (stream s))
          (page_align (cache_off (stream s))) (rs_version (stream s))) s);;
        mret (inr false)
      else mret (inl (match res with FOUND_SOME => 0 | _ => UNCACHED end))
    end.

(** The chosen page, when the same version has gone on. *)
Lemma chosen_goes g g' s s' i sz : chosen s g (inr (i, sz)) -> grown g g' ->
  Forall good_page g -> Forall good_page g' -> stream s' = stream s ->
  at_pos g' (cache_off (stream s')) (rs_pos (stream s')) ->
  exists p k, i = Z.of_nat p /\ (p < length g')%nat /\
    at_place g' (cache_off (stream s')) (rs_pos (stream s')) p k /\ in_use g' p sz /\
    page_offset (cache_off (stream s')) < sz /\
    cache_off (stream s') < PAGE_SIZE * Z.of_nat (S p) /\
    (sz = PAGE_SIZE -> PAGE_SIZE * Z.of_nat (S p) <= size_of g').
Proof.
  intros (p & k & Hpl & -> & Hp & Hlt & Hsz) Hgr Hg Hg' Hst (p' & k' & Hpl').
  rewrite Hst in *.
  assert (p' = p) as ->.
  { destruct (choose_place g _ _ p k Hg Hpl) as [H1 _].
    destruct (choose_place g' _ _ p' k' Hg' Hpl') as [H2 _]. lia. }
  destruct (grown_page g g' p Hgr Hp) as (Hp' & _ & t & Hn).
  assert (Hsize : size_of g <= size_of g') by (destruct (grown_size g g' Hgr Hg) as [->|]; lia).
  exists p, k'. split_and!; try done.
  - destruct Hsz as [[-> _]|[-> _]]; [|by eexists; split; [|right]].
    exists (length (nth_page g p)). rewrite Hn, length_app, take_app_length. split; [lia|by left].
  - destruct Hpl'. unfold PAGE_SIZE in *. lia.
  - destruct Hsz as [[-> ?]|[-> ?]]; lia.
Qed.

(** Where the others have run since the choice. *)
Definition chosen_at g s i sz : Prop :=
  tinv d false None g s /\ chosen s g (inr (i, sz)) /\
  rs_version (stream s) = rc_version (rdc (dir s)) /\ l_le d 0 (ctx_pos s) /\
  l_le d (rs_pos (stream s)) (ctx_pos s) /\ rc_version (rdc (dir s)) <= LIMIT /\
  rc_size (rdc (dir s)) <= B.

(** The page was read to its end: on to the next one. *)
Lemma next_page g p s s1 off : PAGE_SIZE * Z.of_nat (S p) <= size_of g ->
  (p < length g)%nat -> tinv d false None g s1 -> dir s1 = dir s ->
  rs_version (stream s) = rc_version (rdc (dir s)) ->
  rs_version (stream s1) = rs_version (stream s) ->
  l_le d 0 (ctx_pos s1) -> l_le d (rs_pos (stream s1)) (ctx_pos s1) ->
  rc_version (rdc (dir s)) <= LIMIT -> rc_size (rdc (dir s)) <= B ->
  rs_pos (stream s1) = ends 0 (concat (take p g) ++ nth_page g p) ->
  cache_off (stream s) < PAGE_SIZE * Z.of_nat (S p) -> off = PAGE_SIZE * Z.of_nat (S p) ->
  let s2 := set_stream (mk_stream (rs_pos (stream s1)) off (rs_version (stream s1))) s1 in
  round false g s2 /\ measure s2 < measure s.
Proof.
  intros Hsz Hp Ht Hd Hv Hv1 Hl Hle Hlim HsB Hrs Hoff -> s2. split.
  - constructor; [|done|by intros _|left; simpl; by rewrite Hd|simpl; by rewrite Hd].
    constructor; try apply Ht. intros _. simpl. rewrite Hrs. by apply at_pos_next.
  - unfold measure, progress_of. simpl. rewrite Hd, Hv1, Hv, Z.eqb_refl. lia.
Qed.

Lemma runs_found g p k sz s : tinv d false (Some (Z.of_nat p)) g s ->
  rs_version (stream s) = rc_version (rdc (dir s)) ->
  l_le d 0 (ctx_pos s) -> l_le d (rs_pos (stream s)) (ctx_pos s) ->
  rc_version (rdc (dir s)) <= LIMIT -> rc_size (rdc (dir s)) <= B ->
  at_place g (cache_off (stream s)) (rs_pos (stream s)) p k -> (p < length g)%nat ->
  in_use g p sz -> page_offset (cache_off (stream s)) < sz ->
  cache_off (stream s) < PAGE_SIZE * Z.of_nat (S p) ->
  (sz = PAGE_SIZE -> PAGE_SIZE * Z.of_nat (S p) <= size_of g) ->
  is_Some (pages (dir s) !! Z.of_nat p) ->
  runs (b ← load_page (Z.of_nat p);
        res ← fuse_parse_cache e b sz;
        unlock_page;;
        match res with
        | FOUND_ERR => mret (inl (- EIO))
        | FOUND_ALL => mret (inl 0)
        | _ =>
          if sz =? PAGE_SIZE then
            modifyM (fun s => set_stream (mk_stream (rs_pos (stream s))
              (page_align (cache_off (stream s))) (rs_version (stream s))) s);;
            mret (inr false)
          else mret (inl (match res with FOUND_SOME => 0 | _ => UNCACHED end))
        end) s (round_done s g).
Proof.
  intros Ht Hv Hl Hle Hlim HsB Hpl Hp Hin Hoff Hco Hfull Hpg.
  apply (runs_bind_unassoc (load_page (Z.of_nat p)) (fun b => fuse_parse_cache e b sz) (fun res =>
    unlock_page;; match res with
      | FOUND_ERR => mret (inl (- EIO))
      | FOUND_ALL => mret (inl 0)
      | _ => if sz =? PAGE_SIZE then
            modifyM (fun s => set_stream (mk_stream (rs_pos (stream s))
              (page_align (cache_off (stream s))) (rs_version (stream s))) s);;
            mret (inr false)
          else mret (inl (match res with FOUND_SOME => 0 | _ => UNCACHED end))
      end)).
  eapply runs_bind; [by eapply runs_read_page|].
  intros res s1 (q & Ht1 & (Hd1 & _ & _ & Hv1 & Hc1 & Hf1) & Hps & Hle1 & Hres & Hend).
  eapply runs_bind; [by eapply runs_unlock_page|].
  intros [] s2 (Ht2 & (Hs2 & Hp2 & Ho2 & Hc2 & Hf2) & Hd2).
  assert (Hd : dir s2 = dir s) by congruence.
  assert (Hps2 : passed d q s s2) by (unfold passed in *; by rewrite Hp2, Ho2).
  assert (Hgo : goes s g s2 g) by (unfold goes; rewrite Hd; apply goes_on_refl).
  assert (Hinl : forall ret, (ret = 0 /\ (q = [] -> ended s2 \/ turned_away e d s2)) \/ ret = UNCACHED ->
    runs (mret (inl ret)) s2 (round_done s g)).
  { intros ret Hr. apply runs_ret. exists g, q. split_and!; try done; congruence. }
  assert (Hnext : sz = PAGE_SIZE -> res <> FOUND_ALL ->
    runs (modifyM (fun s => set_stream (mk_stream (rs_pos (stream s))
            (page_align (cache_off (stream s))) (rs_version (stream s))) s);;
          mret (inr false)) s2 (round_done s g)).
  { intros Hpsz Hall. destruct (Hend Hall Hpsz) as [Hco2 Hrs2]. rewrite <- Hs2 in Hco2, Hrs2.
    pose proof (good_page_bytes _ (nth_page_good g p (wf_good _ _ _ (t_wf _ _ _ _ _ Ht)) Hp)).
    eexists _, _. split; [reflexivity|]. exists g, q.
    split; [done|]. split; [done|]. split; [simpl; congruence|]. split; [simpl; congruence|].
    apply (next_page g p s s2); auto; try congruence.
    - by eapply passed_le.
    - rewrite Hco2. apply page_align_up. lia. }
  destruct res; [done|..].
  - destruct (Z.eqb_spec sz PAGE_SIZE); [by apply Hnext|]. apply Hinl. by right.
  - destruct (Z.eqb_spec sz PAGE_SIZE); [by apply Hnext|]. apply Hinl. by left.
  - apply Hinl. left. split; [done|]. intros _. right. by eapply turned_away_same.
Qed.

(** A round that starts with the steps of the others. *)
Lemma round_done_from s g s1 g1 r s' : goes s g s1 g1 -> frame s s1 -> measure s1 <= measure s ->
  round_done s1 g1 r s' -> round_done s g r s'.
Proof.
  intros Hg (_ & Hp & Ho & Hc & Hf) Hm (g' & l & Hg' & Hps & Hc' & Hf' & Hr).
  exists g', l. split; [by eapply goes_on_trans|]. split; [by eapply passed_from|].
  split; [congruence|]. split; [congruence|]. destruct r; [done|]. destruct Hr. split; [done|lia].
Qed.

(** Nothing was passed on. *)
Lemma round_done_none s g locked g' s' : goes s g s' g' -> ctx_pos s' = ctx_pos s ->
  ctx_out s' = ctx_out s -> counted s' = counted s -> forgotten s' = forgotten s ->
  round locked g' s' -> measure s' < measure s -> round_done s g (inr locked) s'.
Proof. intros. exists g', []. by split_and!; [|apply passed_nil|..]. Qed.

Lemma runs_after_choice g i sz s : chosen_at g s i sz ->
  runs (after_choice i sz) s (round_done s g).
Proof.
  intros (Ht & Hch & Hv & Hleg & Hle & Hlim & HsB). unfold after_choice.
  eapply runs_bind; [by apply (runs_get_page e d Hrely false)|].
  intros got s1 (g1 & Ht1 & Hf1 & Hr1 & Hpg1).
  eapply runs_bind; [by apply (runs_spin_lock _ _ Hrely)|]. intros [] s2 (g2 & Ht2 & Hf2 & Hr2).
  assert (Hf : frame s s2) by by etrans. destruct Hf as (Hst & Hp & Ho & Hc & Hfo).
  destruct Hr1 as (Hw1 & Hg1 & Hl1 & Hz1 & _). destruct Hr2 as (Hw2 & Hg2 & Hl2 & Hz2 & Hpage).
  assert (Hgo : goes s g s2 g2) by (by eapply goes_on_trans).
  assert (Hlim2 : rc_version (rdc (dir s2)) <= LIMIT) by lia.
  assert (HsB2 : rc_size (rdc (dir s2)) <= B) by lia.
  assert (Hps : forall s', ctx_pos s' = ctx_pos s2 -> ctx_out s' = ctx_out s2 -> passed d [] s s')
    by (intros s' H1 H2; apply passed_nil; congruence).
  assert (Hms : measure s2 <= measure s)
    by (eapply measure_goes; [exact Hgo|done|by eapply progress_bounds..]).
  assert (Hnew : rs_version (stream s2) <> rc_version (rdc (dir s2)) -> measure s2 < measure s).
  { intros Hne. apply measure_version; [|by eapply progress_bounds..].
    destruct Hgo as [Hle' _]. rewrite Hst in Hne. lia. }
  assert (Hround : forall l s', tinv d l None g2 s' -> dir s' = dir s2 -> stream s' = stream s2 ->
    ctx_pos s' = ctx_pos s2 -> rs_version (stream s2) <> rc_version (rdc (dir s2)) ->
    round l g2 s' /\ measure s' < measure s).
  { intros l s' Hti Hd Hs' Hp' Hne. split.
    - constructor; rewrite ?Hd, ?Hp', ?Hp; try done; [|by left].
      intros He. exfalso. congruence.
    - unfold measure, progress_of in *. rewrite Hd, Hs'. by apply Hnew. }
  eapply load_rdc_bind; [done|]. msteps. destruct got; simpl.
  - rewrite Hst. destruct (Z.eqb_spec (rs_version (stream s)) (rc_version (rdc (dir s2)))) as [He|Hne]; simpl.
    + assert (Hgr : grown g g2) by (apply Hgo; congruence).
      destruct (chosen_goes g g2 s s2 i sz Hch Hgr) as (p & k & -> & Hp2 & Hpl & Hin & Hoff & Hco & Hfull);
        [apply Ht|apply Ht2|done|apply Ht2; congruence|].
      eapply runs_bind; [by apply runs_spin_unlock|]. intros [] s3 (Ht3 & Hf3 & Hd3).
      assert (Hf03 : frame s s3) by (etrans; [|exact Hf3]; by unfold frame).
      assert (Hf03' := Hf03). destruct Hf03' as (Hst3 & Hp3 & _).
      eapply runs_mono.
      { eapply (runs_found g2 p k sz s3); rewrite ?Hst3, ?Hp3, ?Hd3, <- ?Hst; try done; [congruence|..].
        - by rewrite Hst.
        - simpl in Hpage. rewrite Hpage. by apply Hpg1. }
      intros r s' Hr. apply (round_done_from s g s3 g2 r s'); [|exact Hf03| |exact Hr].
      * unfold goes. by rewrite Hd3.
      * unfold measure, progress_of in *. rewrite Hd3, Hst3. by rewrite Hst in Hms.
    + eapply runs_bind; [by apply runs_spin_unlock|]. intros [] s3 (Ht3 & Hf3 & Hd3).
      eapply runs_bind; [by eapply runs_unlock_page|]. intros [] s4 (Ht4 & Hf4 & Hd4).
      apply runs_ret. assert (Hf24 : frame s2 s4) by by etrans.
      destruct Hf24 as (H1 & H2 & H3 & H4 & H5).
      destruct (Hround false s4 Ht4) as [Hr4 Hm4]; [congruence..|].
      eapply round_done_none; try done; try congruence. unfold goes. by rewrite Hd4, Hd3.
  - destruct (Z.eqb_spec (rc_version (rdc (dir s2))) (rs_version (stream s2))) as [He|Hne].
    + eapply runs_bind; [apply (runs_reset g2 s2); [done|done|by rewrite Hp|done]|].
      intros [] s3 (Hr3 & (? & ? & ? & ? & ?) & Hg3 & Hm3). apply runs_ret.
      eapply round_done_none; [by eapply goes_on_trans|congruence..|done|lia].
    + msteps. apply runs_ret. destruct (Hround true s2 Ht2) as [Hr2 Hm2]; [done..|by auto|].
      by eapply round_done_none.
Qed.

(** The cache is not complete: its times are noted, and the daemon is asked. *)
Lemma runs_not_cached g s : round true g s ->
  runs ((if (ctx_pos s =? 0) && (rc_size (rdc (dir s)) =? 0)
         then store_rdc (mk_rdc (cached (rdc (dir s))) (rc_size (rdc (dir s)))
                (rc_pos (rdc (dir s))) (rc_version (rdc (dir s))) (i_mtime (dir s))
                (i_iversion (dir s)))
         else mret tt);;
        spin_unlock;; mret (inl UNCACHED)) s (round_done s g).
Proof.
  intros [Ht _ _ _ _].
  apply (runs_bind _ _ _ (fun _ s' => tinv d true None g s' /\ frame s s' /\ goes s g s' g)).
  { destruct (_ && _).
    - unfold store_rdc. msteps. rewrite (t_spin _ _ _ _ _ Ht). simpl. msteps.
      eexists _, _. split; [reflexivity|].
      assert (Hgo : forall r, rc_version r = rc_version (rdc (dir s)) ->
        cached r = cached (rdc (dir s)) -> goes s g (set_dir (set_rdc r (dir s)) s) g).
      { intros r H1 H2. split; simpl; [lia|]. intros _. by rewrite H2. }
      split; [|split; [done|by apply Hgo]].
      eapply tinv_goes; [exact Ht| |by apply Hgo|..]; try done; try apply Ht.
      destruct (t_wf _ _ _ _ _ Ht). by constructor.
    - apply runs_ret. split; [done|]. split; [done|]. apply goes_on_refl. }
  intros [] s1 (Ht1 & Hf1 & Hg1).
  eapply runs_bind; [by apply runs_spin_unlock|]. intros [] s2 (Ht2 & Hf2 & Hd2).
  apply runs_ret. assert (Hf : frame s s2) by by etrans. destruct Hf as (? & ? & ? & ? & ?).
  exists g, []. split; [unfold goes; by rewrite Hd2|]. split; [by apply passed_nil|].
  split; [done|]. split; [done|]. split; [done|]. by right.
Qed.

Lemma runs_cached_step locked g s : round locked g s ->
  runs (cached_step e locked) s (round_done s g).
Proof.
  intros Hr. unfold cached_step.
  eapply runs_bind; [by apply runs_enter|]. intros [] s1 (g1 & Hr1 & Hf1 & Hg1 & Hm1).
  destruct (Hr1) as [Ht1 Hl1 Htr1 Hc1 Hs1].
  eapply runs_mono; [|intros r s' Hd; eapply round_done_from; [exact Hg1|exact Hf1|exact Hm1|exact Hd]].
  eapply load_rdc_bind; [done|]. apply runs_get_bind. cbv beta.
  destruct (cached (rdc (dir s1))) eqn:Hca; simpl negb; cbv iota.
  2:{ rewrite <- Hca. by apply runs_not_cached. }
  assert (Hlim : rc_version (rdc (dir s1)) <= LIMIT) by (destruct Hc1 as [|[_ ?]]; [done|congruence]).
  destruct ((ctx_pos s1 =? 0) && _).
  { eapply runs_bind; [by apply (runs_reset g1 s1)|].
    intros [] s2 (Hr2 & (? & ? & ? & ? & ?) & Hg2 & Hm2). apply runs_ret.
    by eapply round_done_none. }
  eapply runs_bind; [by apply runs_choose|].
  intros ch s2 (Ht2 & Hs2 & Hv2 & Hle2 & Hch).
  assert (Hd2 : dir s2 = dir s1) by by rewrite Hs2.
  assert (Hp2 : ctx_pos s2 = ctx_pos s1) by by rewrite Hs2.
  assert (Hm2 : measure s2 <= measure s1).
  { unfold measure, progress_of. rewrite Hd2, Hv2, Z.eqb_refl, Hs2. simpl.
    unfold chosen_stream. rewrite Z.eqb_sym. destruct (_ =? _); simpl; lia. }
  assert (Hg2 : goes s1 g1 s2 g1) by (unfold goes; rewrite Hd2; apply goes_on_refl).
  destruct ch as [ret|[i sz]].
  - apply runs_ret. destruct Hch as [-> Hpos]. exists g1, [].
    split; [done|]. split; [apply passed_nil; by rewrite Hs2|]. rewrite Hs2 at 1 2.
    split; [done|]. split; [done|]. split; [done|]. left. split; [done|]. intros _. left.
    exists (rs_pos (stream s2)). rewrite Hp2. split; [done|]. rewrite Hpos, Hd2.
    by apply (wf_fin _ _ _ (t_wf _ _ _ _ _ Ht1)).
  - assert (Hat : chosen_at g1 s2 i sz).
    { unfold chosen_at. rewrite Hd2, Hp2. by split_and!. }
    eapply runs_mono; [by apply (runs_after_choice g1)|].
    intros r s' (g' & l & Hg' & Hps & Hc & Hfo & Hres). rewrite Hs2 in Hc, Hfo.
    exists g', l. split; [by eapply goes_on_trans|].
    split; [eapply passed_from; [..|exact Hps]; by rewrite Hs2|]. split; [done|]. split; [done|].
    destruct r; [done|]. destruct Hres. split; [done|lia].
Qed.

(** ** The call *)

Definition call_done (s : rstate) g (ret : Z) (s' : rstate) : Prop :=
  exists g' l, tinv d false None g' s' /\ goes s g s' g' /\ passed d l s s' /\
    counted s' = counted s /\ forgotten s' = forgotten s /\
    ((ret = 0 /\ (l = [] -> ended s' \/ turned_away e d s')) \/ ret = UNCACHED).

(** From every state at a label the loop comes to its end. *)
Lemma runs_cached_loop locked g s : round locked g s ->
  exists fuel, forall n, (fuel <= n)%nat -> runs (cached_loop e n locked) s (call_done s g).
Proof.
  intros Hr. assert (Hpos : 0 <= measure s).
  { destruct Hr as [Ht _ _ _ Hs]. pose proof (progress_bounds _ _ _ _ Ht Hs).
    pose proof (wf_version _ _ _ (t_wf _ _ _ _ _ Ht)). unfold measure. nia. }
  revert locked g Hr. remember (measure s) as z eqn:Hz. revert s Hz.
  induction (Z.lt_wf 0 z) as [z _ IH]. intros s -> locked g Hr.
  destruct (runs_cached_step locked g s Hr) as (r & s1 & Hrun & g1 & l & Hg & Hps & Hc & Hf & Hres).
  destruct r as [ret|locked1].
  - exists 1%nat. intros [|n] Hn; [lia|]. cbn [cached_loop]. eapply runs_Ok_bind; [exact Hrun|].
    apply runs_ret. exists g1, l. destruct Hres. by split_and!.
  - destruct Hres as [Hr1 Hm].
    assert (Hpos1 : 0 <= measure s1).
    { destruct Hr1 as [Ht1 _ _ _ Hs1]. pose proof (progress_bounds _ _ _ _ Ht1 Hs1).
      pose proof (wf_version _ _ _ (t_wf _ _ _ _ _ Ht1)). unfold measure. nia. }
    destruct (IH (measure s1)) with (s := s1) (locked := locked1) (g := g1) as [fuel Hfuel];
      [lia|done|done|done|].
    exists (S fuel). intros [|n] Hn; [lia|]. cbn [cached_loop]. eapply runs_Ok_bind; [exact Hrun|].
    eapply runs_mono; [apply Hfuel; lia|].
    intros ret s2 (g2 & k & Ht2 & Hg2 & Hp2 & Hc2 & Hf2 & Hret).
    exists g2, (l ++ k). split; [done|]. split; [by eapply goes_on_trans|].
    split; [by eapply passed_trans|]. split; [congruence|]. split; [congruence|].
    destruct Hret as [[-> Hk]| ->]; [left; split; [done|]|by right].
    intros [-> ->]%app_nil. by apply Hk.
Qed.
End Round.
End Read.
