(* ===== verification/KDirPack.v ===== *)
(** * The kernel reads what the library packs

    The replies [fuse_add_direntry] and [fuse_add_direntry_plus] put together (Dir),
    taken apart by the parsers of the kernel (KDir). *)
From S2P Require Import Prelude Types NodeTable FsOps Dir KDir KDirFacts KDirCache KDirRun KDirParse.
#[local] Open Scope Z_scope.

(** A buffer of records, each with [o] bytes before it, is split into them. *)
Lemma split_concat o es : forall fuel,
  Forall (fun en => length en.1 = o /\ valid en.2) es ->
  len (concat ((fun en => en.1 ++ en.2) <$> es)) < 32 * Z.of_nat fuel ->
  split fuel o (concat ((fun en => en.1 ++ en.2) <$> es)) = (es, false).
Proof.
  induction es as [|[a b] es IH]; intros [|fuel] Hes Hlen; cbn [fmap list_fmap concat fst snd] in *;
    rewrite ?length_app in Hlen; cbn [length] in Hlen; try lia.
  { cbn [split length]. by rewrite (proj2 (Z.ltb_lt _ _)) by lia. }
  apply Forall_cons in Hes as [[Ha Hb] Hes]. cbn [fst snd] in Ha, Hb.
  pose proof (valid_length _ Hb) as [Hb1 Hb2]. pose proof Hb as (Hn & Hl & Hs).
  set (rest := concat _) in *. cbn [split].
  rewrite <- app_assoc, (drop_app_length' a _ o) by done.
  destruct (fields_app b rest) as (Hn' & _ & _ & _ & Hm); [lia..|]. unfold reclen in Hl.
  assert (Hbad : bad_namelen (b ++ rest) = false).
  { unfold bad_namelen. rewrite Hn'. apply orb_false_iff. split; [apply Z.eqb_neq|apply Z.ltb_ge]; lia. }
  unfold reclen. rewrite Hbad, Hn', Hm, Hs, <- Hl, !length_app, Ha.
  rewrite (proj2 (Z.ltb_ge _ _)) by lia. rewrite (proj2 (Z.ltb_ge _ _)) by lia.
  replace (Z.to_nat (Z.of_nat o + len b)) with (length a + length b)%nat by lia.
  rewrite <- drop_drop, drop_app_length, drop_app_length. rewrite IH; [|done|unfold rest in *; lia].
  f_equal. f_equal. rewrite take_app_length' by done. f_equal. unfold head_rec, reclen.
  rewrite Hn', <- Hl, Nat2Z.id. by rewrite take_app_length.
Qed.

(** ** One entry *)
(** A name that can be sent: not empty, not too long, no slash. *)
Definition sendable (name : string) : Prop :=
  1 <= strlen name <= FUSE_NAME_MAX /\ has_slash (string_bytes name) = false.

Lemma string_bytes_length s : len (string_bytes s) = strlen s.
Proof. unfold strlen. induction s as [|c s IH]; [done|]. cbn [string_bytes length String.length]. lia. Qed.

Lemma le_field a n z r : field (a ++ le_bytes n z ++ r) (length a) n = z mod 256 ^ Z.of_nat n.
Proof.
  rewrite (field_mid a (le_bytes n z) r (length a) n) by (done || apply le_bytes_length).
  by rewrite le_num_bytes, Z.mod_mod by lia.
Qed.

Definition type_of (mode : Z) : Z := Z.shiftr (Z.land mode 61440) 12.

Lemma type_of_bounds mode : 0 <= type_of mode < 16.
Proof.
  unfold type_of. rewrite Z.shiftr_land. change (Z.shiftr 61440 12) with (Z.ones 4).
  rewrite Z.land_ones by lia. apply Z.mod_pos_bound. lia.
Qed.

Section Record.
Context (ino off mode : Z) (name : string) (pad : Z).
#[local] Abbreviation rec := (dirent_bytes ino off mode name pad).

Lemma dirent_ino : d_ino rec = ino mod 2 ^ 64.
Proof. exact (le_field [] 8 ino _). Qed.

Lemma dirent_off : 0 <= off < 2 ^ 63 -> d_off rec = off.
Proof.
  intros H. unfold d_off. assert (E : field rec 8 8 = off mod 2 ^ 64).
  { rewrite <- (le_bytes_length 8 ino). exact (le_field (le_bytes 8 ino) 8 off _). }
  rewrite E, Z.mod_small by lia. unfold loff. by rewrite (proj2 (Z.ltb_lt _ _)) by lia.
Qed.

Lemma dirent_namelen : strlen name < 2 ^ 32 -> d_namelen rec = strlen name.
Proof.
  intros H. assert (E : d_namelen rec = strlen name mod 2 ^ 32).
  { unfold d_namelen, dirent_bytes. rewrite app_assoc.
    pose proof (le_field (le_bytes 8 ino ++ le_bytes 8 off) 4 (strlen name)) as E.
    rewrite length_app, !le_bytes_length in E. apply E. }
  rewrite E. apply Z.mod_small. unfold strlen in *. lia.
Qed.

Lemma dirent_type : d_type rec = type_of mode.
Proof.
  unfold d_type, dirent_bytes.
  pose proof (le_field ((le_bytes 8 ino ++ le_bytes 8 off) ++ le_bytes 4 (strlen name)) 4
    (Z.shiftr (Z.land mode S_IFMT) 12) (string_bytes name ++ replicate (Z.to_nat pad) 0)) as E.
  rewrite !length_app, !le_bytes_length, <- !app_assoc in E. etrans; [exact E|]. apply Z.mod_small.
  pose proof (type_of_bounds mode). unfold type_of, S_IFMT in *. lia.
Qed.

Lemma dirent_name : strlen name < 2 ^ 32 -> d_name rec = string_bytes name.
Proof.
  intros H. unfold d_name. rewrite dirent_namelen by done. unfold dirent_bytes.
  rewrite !app_assoc. rewrite <- (app_assoc _ (string_bytes name)).
  rewrite drop_app_length' by (by rewrite !length_app, !le_bytes_length).
  rewrite take_app_length'; [done|]. pose proof (string_bytes_length name). lia.
Qed.

Lemma dirent_length : 0 <= pad -> len rec = 24 + strlen name + pad.
Proof.
  intros H. unfold dirent_bytes. rewrite !length_app, !le_bytes_length, length_replicate.
  pose proof (string_bytes_length name). lia.
Qed.
End Record.

Lemma dirent_valid ino off mode name : sendable name ->
  valid (dirent_bytes ino off mode name (FUSE_DIRENT_SIZE (strlen name) - (24 + strlen name))).
Proof.
  intros [Hn Hs]. assert (Hlt : strlen name < 2 ^ 32) by (unfold FUSE_NAME_MAX in Hn; lia).
  pose proof (dirent_size_bounds (strlen name)).
  unfold valid. rewrite dirent_namelen, dirent_name by done. split; [done|]. split; [|done].
  unfold reclen. rewrite dirent_namelen, dirent_length by lia. lia.
Qed.

(** ** Replies *)
(** An entry as the file system gives it to the library: name, attributes, and the
    position after it. *)
Record dir_entry : Type := mk_dir_entry { en_name : string; en_stat : stat; en_off : Z }.

Definition entry_ok (en : dir_entry) : Prop := sendable (en_name en) /\ 0 <= en_off en < 2 ^ 63.

(** The record the library writes when there is room. *)
Definition packed (en : dir_entry) : list Z :=
  (fuse_add_direntry false (FUSE_DIRENT_SIZE (strlen (en_name en))) (en_name en) (en_stat en) (en_off en)).2.

(** The same with what a lookup of it returns. *)
Definition packed_plus (en : dir_entry * fuse_entry_param) : list Z :=
  (fuse_add_direntry_plus false (FUSE_DIRENTPLUS_SIZE (strlen (en_name en.1))) (en_name en.1) en.2 (en_off en.1)).2.

(** What the reader of the directory gets, from position [pos] on. *)
Fixpoint read_back (pos : Z) (l : list dir_entry) : list emitted :=
  match l with
  | [] => []
  | en :: l =>
    mk_emitted (string_bytes (en_name en)) (st_ino (en_stat en) mod 2 ^ 64)
      (type_of (st_mode (en_stat en))) pos :: read_back (en_off en) l
  end.

Definition record_of (en : dir_entry) : list Z :=
  dirent_bytes (st_ino (en_stat en)) (en_off en) (st_mode (en_stat en)) (en_name en)
    (FUSE_DIRENT_SIZE (strlen (en_name en)) - (24 + strlen (en_name en))).

Lemma packed_record en : packed en = record_of en.
Proof.
  unfold packed, fuse_add_direntry. change (Dir.FUSE_DIRENT_ALIGN (Dir.FUSE_NAME_OFFSET + strlen (en_name en)))
    with (FUSE_DIRENT_SIZE (strlen (en_name en))). cbn [orb]. by rewrite Z.ltb_irrefl.
Qed.

Lemma record_valid en : entry_ok en -> valid (record_of en).
Proof. intros [H _]. by apply dirent_valid. Qed.

Lemma record_read en l pos : entry_ok en ->
  emitted_from pos (record_of en :: l) =
  mk_emitted (string_bytes (en_name en)) (st_ino (en_stat en) mod 2 ^ 64) (type_of (st_mode (en_stat en))) pos
    :: emitted_from (en_off en) l.
Proof.
  intros [[Hn _] Ho]. assert (Hlt : strlen (en_name en) < 2 ^ 32) by (unfold FUSE_NAME_MAX in Hn; lia).
  cbn [emitted_from]. unfold emits, record_of. by rewrite dirent_name, dirent_ino, dirent_type, dirent_off.
Qed.

Lemma records_read l : forall pos, Forall entry_ok l -> emitted_from pos (record_of <$> l) = read_back pos l.
Proof.
  induction l as [|en l IH]; intros pos Hl; [done|]. apply Forall_cons in Hl as [He Hl].
  cbn [fmap list_fmap]. rewrite record_read by done. cbn [read_back]. by rewrite IH.
Qed.

(** ** A daemon about which nothing is known *)
(** Its replies fit the page they are copied to; what the kernel passes on and caches are
    records it accepts. *)
Definition anything : listing :=
  mk_listing (fun _ r => valid r) (fun _ => True) (fun _ _ => True) False.

Lemma chain_valid l : forall p, Forall valid l -> chain (l_next anything) p l.
Proof. induction l as [|r l IH]; intros p H; [done|]. apply Forall_cons in H as [Hr Hl]. split; [done|by apply IH]. Qed.

Definition replies_fit (e : world) : Prop :=
  forall t plus p buf, reply e t plus p = inr buf -> len buf <= PAGE_SIZE.

Lemma agrees_anything e : replies_fit e -> agrees e anything.
Proof.
  intros Hf. split; try done. intros t plus p buf _ H. split; [by eapply Hf|].
  apply chain_valid. unfold records. apply split_valid.
Qed.

(** ** Entries with the nodes they were looked up to *)
Lemma fill_entry_length ep : length (fill_entry ep) = 128%nat.
Proof. unfold fill_entry, convert_stat. by rewrite !length_app, !le_bytes_length. Qed.

Lemma fill_entry_nodeid ep : o_nodeid (fill_entry ep) = e_ino ep mod 2 ^ 64.
Proof. exact (le_field [] 8 (e_ino ep) _). Qed.

Definition with_attr (en : dir_entry * fuse_entry_param) : dir_entry :=
  mk_dir_entry (en_name en.1) (e_attr en.2) (en_off en.1).

(** An entry of READDIRPLUS as the kernel splits it. *)
Definition plus_record (en : dir_entry * fuse_entry_param) : list Z * list Z :=
  (fill_entry en.2, record_of (with_attr en)).

Lemma packed_plus_record en : packed_plus en = (plus_record en).1 ++ (plus_record en).2.
Proof.
  unfold packed_plus, fuse_add_direntry_plus.
  change (Dir.FUSE_DIRENT_ALIGN (Dir.FUSE_NAME_OFFSET_DIRENTPLUS + strlen (en_name en.1)))
    with (FUSE_DIRENTPLUS_SIZE (strlen (en_name en.1))). cbn [orb]. rewrite Z.ltb_irrefl. cbn [snd plus_record fst].
  rewrite direntplus_size. unfold record_of, with_attr. cbn [en_name en_stat en_off].
  change Dir.FUSE_NAME_OFFSET_DIRENTPLUS with 152. do 2 f_equal. lia.
Qed.

Lemma plus_records l : (plus_record <$> l).*2 = record_of <$> (with_attr <$> l).
Proof. induction l as [|en l IH]; [done|]. cbn. by f_equal. Qed.

(** The nodes of the entries the kernel looks up: those that have one, but not "." and
    "..". *)
Definition named (en : dir_entry * fuse_entry_param) : Prop :=
  e_ino en.2 mod 2 ^ 64 <> 0 /\ is_dot (string_bytes (en_name en.1)) = false.
#[global] Instance named_dec en : Decision (named en).
Proof. unfold named. apply _. Defined.

Definition nodes (l : list (dir_entry * fuse_entry_param)) : list Z :=
  (fun en => e_ino en.2 mod 2 ^ 64) <$> filter named l.

Lemma lookups_of_packed l : Forall (entry_ok ∘ fst) l -> lookups_due (plus_record <$> l) = nodes l.
Proof.
  unfold lookups_due, nodes. induction l as [|en l IH]; intros Hl; [done|]. apply Forall_cons in Hl as [[ [Hn _] _] Hl].
  cbn [fmap list_fmap]. rewrite !filter_cons. specialize (IH Hl).
  assert (E : wants_lookup (plus_record en) = true <-> named en).
  { unfold wants_lookup, named, plus_record. cbn [fst snd]. rewrite fill_entry_nodeid. unfold record_of.
    rewrite dirent_name by (unfold FUSE_NAME_MAX in Hn; cbn; lia). cbn [with_attr en_name].
    rewrite andb_true_iff, !negb_true_iff, Z.eqb_neq. done. }
  destruct (decide (named en)) as [H|H]; [rewrite decide_True by (by apply E)|rewrite decide_False by (by rewrite E)]; [|exact IH].
  cbn [fmap list_fmap]. rewrite IH. f_equal. apply fill_entry_nodeid.
Qed.

(** ** The whole replies *)
Section Replies.
Context (e : world) (c : rdconf) (g : list (list (list Z))) (s : rstate).
Hypothesis Hfit : replies_fit e.
Hypothesis Hothers : relies anything (others e).
Hypothesis Hinv : tinv anything false None g s.
Hypothesis Hroom : forall l em, room e l em = true.

Lemma not_turned_away s' : ~ turned_away e anything s'.
Proof. intros (r & _ & _ & H). by rewrite Hroom in H. Qed.

Lemma records_passed l ret k s' : Forall entry_ok l -> passed anything k s s' ->
  parsed e anything (record_of <$> l) false ret k s' -> ret = 0 /\ ctx_out s' = ctx_out s ++ read_back (ctx_pos s) l.
Proof.
  intros Hl (_ & _ & Hout) [ [-> [->|H]]|[_ ?]]; [|by apply not_turned_away in H|done].
  split; [done|]. by rewrite Hout, records_read.
Qed.

Lemma fits_fuel (buf : list Z) : len buf <= PAGE_SIZE -> len buf < 32 * Z.of_nat parse_fuel.
Proof. rewrite parse_fuel_val. unfold PAGE_SIZE. lia. Qed.

Lemma split_packed l : Forall entry_ok l -> len (concat (packed <$> l)) <= PAGE_SIZE ->
  split parse_fuel 0 (concat (packed <$> l)) = ((fun en => ([], record_of en)) <$> l, false).
Proof.
  intros Hl Hlen. rewrite <- (split_concat 0 ((fun en => ([], record_of en)) <$> l) parse_fuel).
  - f_equal. f_equal. rewrite <- list_fmap_compose. apply list_fmap_ext. intros i en _. apply packed_record.
  - apply Forall_fmap. eapply Forall_impl; [exact Hl|]. intros en He. split; [done|by apply record_valid].
  - apply fits_fuel in Hlen. rewrite <- list_fmap_compose. erewrite list_fmap_ext; [exact Hlen|].
    intros i en _. cbn. by rewrite packed_record.
Qed.

Lemma split_packed_plus l : Forall (entry_ok ∘ fst) l -> len (concat (packed_plus <$> l)) <= PAGE_SIZE ->
  split parse_fuel 128 (concat (packed_plus <$> l)) = (plus_record <$> l, false).
Proof.
  intros Hl Hlen. rewrite <- (split_concat 128 (plus_record <$> l) parse_fuel).
  - f_equal. f_equal. rewrite <- list_fmap_compose. apply list_fmap_ext. intros i en _. apply packed_plus_record.
  - apply Forall_fmap. eapply Forall_impl; [exact Hl|]. intros en He. split; [apply fill_entry_length|by apply record_valid].
  - apply fits_fuel in Hlen. rewrite <- list_fmap_compose. erewrite list_fmap_ext; [exact Hlen|].
    intros i en _. cbn. by rewrite packed_plus_record.
Qed.

End Replies.
