(* ===== verification/KDirList.v ===== *)
(** * A directory is listed

    What the calls of [fuse_readdir] come to for the reader: of a directory that does not
    change, exactly its entries; of a daemon about which nothing is known, entries the
    kernel accepts. *)
From S2P Require Import Prelude KDir KDirFacts KDirCache KDirRun KDirParse KDirRead KDirPack.
#[local] Open Scope Z_scope.

(** ** The call of readdir *)
Section Call.
Context (e : world) (c : rdconf) (d : listing).
Hypothesis Hag : agrees e d.
Hypothesis Hrely : relies d (others e).

(** The ways a call fails; [-EIO] only on a bad inode or a malformed reply. *)
Definition failed (ret : Z) : Prop :=
  ret = - ENOMEM \/ (ret = - EIO /\ (is_bad c = true \/ ~ l_whole d)) \/
  (exists t plus p, reply e t plus p = inl ret) \/ (exists t, update_err e t = ret).

(** How a call comes out: the records [l] were passed on, one after the other.  When none
    was, there are no more, or there is no room for the next one. *)
Definition outcome (s : rstate) (ret : Z) (l : list (list Z)) (s' : rstate) : Prop :=
  passed d l s s' /\
  ((ret = 0 /\ (l = [] -> ended d s' \/ turned_away e d s' \/ ~ l_whole d)) \/ failed ret).

Lemma passed_refl s : passed d [] s s.
Proof. by apply passed_nil. Qed.

Lemma tinv_advise l o g s b : tinv d l o g s -> tinv d l o g (set_dir (set_advise b (dir s)) s).
Proof.
  intros [H ? ? ? ? ?]. constructor; simpl; try done. destruct H. by constructor.
Qed.

(** Only the hint is used up. *)
Lemma runs_use_plus g s : tinv d false None g s ->
  runs (fuse_use_readdirplus c) s (fun _ s' => tinv d false None g s' /\ frame s s').
Proof.
  intros Ht. unfold fuse_use_readdirplus. msteps.
  destruct (do_readdirplus c); simpl; [|apply runs_ret; by split].
  destruct (readdirplus_auto c); simpl; [|apply runs_ret; by split].
  destruct (advise (dir s)); [|apply runs_ret; by split].
  msteps. eexists _, _. split; [reflexivity|]. split; [by apply tinv_advise|done].
Qed.

(** The result of parsing a reply to a request at the position of [s]. *)
Lemma parsed_outcome plus t s1 buf ret l s' : l_le d 0 (ctx_pos s1) ->
  reply e t plus (ctx_pos s1) = inr buf -> buf <> [] -> passed d l s1 s' ->
  parsed e d (records plus buf) (refused plus buf) ret l s' -> outcome s1 ret l s'.
Proof.
  intros Hl Hrep Hne Hp Hpar. split; [done|].
  assert (Hw : l_whole d -> records plus buf <> [] /\ refused plus buf = false)
    by (intros; by eapply agree_whole).
  destruct Hpar as [[-> Hlr]|[-> Hbad]].
  - left. split; [done|]. intros ->. right. destruct Hlr as [Hr|]; [right|by left].
    intros Hwh. by destruct (Hw Hwh).
  - right. right. left. split; [done|]. right. intros Hwh. destruct (Hw Hwh). congruence.
Qed.

Lemma runs_uncached g s : tinv d false None g s -> l_le d 0 (ctx_pos s) ->
  runs (fuse_readdir_uncached e c) s (fun ret s' => exists g' l,
    tinv d false None g' s' /\ outcome s ret l s').
Proof.
  intros Ht Hl. unfold fuse_readdir_uncached.
  eapply runs_bind; [by apply (runs_yield _ _ Hrely)|]. intros [] s1 (g1 & Ht1 & Hf1 & _).
  apply runs_get_bind. cbv beta. destruct (page_ok e (clock s1)); simpl negb; cbv iota.
  2:{ apply runs_ret. exists g1, []. destruct Hf1 as (? & ? & ? & _). split; [done|].
      split; [by apply passed_nil|]. right. by left. }
  eapply runs_bind; [by apply runs_use_plus|]. intros plus s2 [Ht2 Hf2].
  eapply runs_bind; [by apply (runs_yield _ _ Hrely)|]. intros [] s3 (g3 & Ht3 & Hf3 & _).
  assert (Hf : frame s s3) by (by do 2 etrans). destruct Hf as (_ & Hp & Ho & _).
  apply (runs_mono _ _ (fun ret s' => exists g' l, tinv d false None g' s' /\ outcome s3 ret l s'));
    [|intros ret s' (g' & l & Ht' & Hps & Hout); exists g', l; split; [exact Ht'|];
      split; [eapply passed_from; [exact Hp|exact Ho|exact Hps]|exact Hout]].
  rewrite <- Hp in Hl. clear Ht Ht1 Hf1 Ht2 Hf2 Hf3 Hp Ho. apply runs_get_bind. cbv beta.
  destruct (reply e (clock s3) plus (ctx_pos s3)) as [err|buf] eqn:Hrep.
  { apply runs_ret. exists g3, []. split; [done|]. split; [apply passed_refl|].
    right. right. right. left. eauto. }
  destruct (agree_reply e d Hag _ _ _ _ Hl Hrep) as [Hlen Hch].
  destruct buf as [|b0 buf0] eqn:Hbuf.
  { pose proof (agree_end e d Hag _ _ _ Hl Hrep) as Hfin.
    apply (runs_bind _ _ _ (fun _ s' => exists g', tinv d false None g' s' /\ frame s3 s')).
    { destruct (cache_dir c); [|apply runs_ret; by exists g3].
      eapply runs_mono; [by apply runs_cache_end|]. intros [] s' (g' & ? & ? & _). by exists g'. }
    intros [] s4 (g4 & Ht4 & _ & Hp4 & Ho4 & _). apply runs_ret. exists g4, [].
    split; [done|]. split; [by apply passed_nil|]. left. split; [done|]. intros _. left.
    exists (ctx_pos s3). rewrite Hp4. split; [by eapply agree_refl|done]. }
  rewrite <- Hbuf in *. assert (Hne : buf <> []) by by rewrite Hbuf.
  assert (Hfuel : len buf < 32 * Z.of_nat parse_fuel) by (rewrite parse_fuel_val; unfold PAGE_SIZE in *; lia).
  pose proof (fun ret l s' => parsed_outcome plus (clock s3) s3 buf ret l s' Hl Hrep Hne) as Hout.
  unfold records, refused in Hch, Hout. clear Hrep. revert Hfuel Hch Hout.
  generalize parse_fuel. intros fuel Hfuel Hch Hout.
  destruct plus; cbv beta iota in Hch, Hout.
  - eapply runs_mono; [apply (runs_parse_dirplusfile e c d Hag Hrely fuel false buf g3);
      [exact Hfuel|exact Ht3|exact Hch]|].
    intros ret s' (g' & l & Ht' & _ & Hps & _ & _ & Hpar & _). exists g', l. split; [done|].
    by apply Hout.
  - eapply runs_mono; [apply (runs_parse_dirfile e c d Hag Hrely fuel buf g3);
      [exact Hfuel|exact Ht3|exact Hch]|].
    intros ret s' (g' & l & Ht' & _ & Hps & _ & _ & _ & Hpar). exists g', l. split; [done|].
    by apply Hout.
Qed.

(** The stream as the call finds it. *)
Lemma runs_seek g s : tinv d false None g s -> l_le d 0 (ctx_pos s) ->
  runs (if negb (rs_pos (stream s) =? ctx_pos s) then modifyM reset_stream else mret tt) s
    (fun _ s' => tinv d false None g s' /\ tracks d s' /\ dir s' = dir s /\
       ctx_pos s' = ctx_pos s /\ ctx_out s' = ctx_out s).
Proof.
  intros Ht Hl. destruct (Z.eqb_spec (rs_pos (stream s)) (ctx_pos s)) as [He|]; simpl.
  - apply runs_ret. split_and!; try done. intros _. rewrite He. by eapply agree_refl.
  - eexists _, _. split; [reflexivity|]. split; [|split; [by intros _|done]].
    constructor; try apply Ht. intros _. apply at_pos_start, (t_wf _ _ _ _ _ Ht).
Qed.

(** From the cache: the loop ends, and what was passed on is what comes next. *)
Lemma runs_cached g s : tinv d false None g s -> l_le d 0 (ctx_pos s) ->
  rc_version (rdc (dir s)) <= LIMIT ->
  exists fuel, forall n, (fuel <= n)%nat -> runs (fuse_readdir_cached e c n) s
    (fun ret s' => exists g' l, tinv d false None g' s' /\ passed d l s s' /\
       ((ret = 0 /\ (l = [] -> ended d s' \/ turned_away e d s')) \/ ret = UNCACHED \/
        exists t, update_err e t = ret)).
Proof.
  intros Ht Hl Hv.
  destruct (runs_seek g s Ht Hl) as ([] & s1 & Hr1 & Ht1 & Htr1 & Hd1 & Hp1 & Ho1).
  assert (Hupd : runs (if (ctx_pos s =? 0) && auto_inval_data c
      then yield e Anywhere;; s ← getM; mret (update_err e (clock s)) else mret 0) s1
    (fun err s' => exists g', tinv d false None g' s' /\ frame s1 s' /\ tracks d s' /\
       rc_version (rdc (dir s')) <= LIMIT /\ (err = 0 \/ exists t, update_err e t = err))).
  { destruct (_ && _).
    - eapply runs_bind; [by apply (runs_yield _ _ Hrely)|].
      intros [] s2 (g2 & Ht2 & Hf2 & _ & Hg2 & Hv2 & _). apply runs_get_bind. apply runs_ret.
      exists g2. assert (Hf2' := Hf2). destruct Hf2' as (? & ? & _).
      split_and!; [done|done| |rewrite Hd1 in Hv2; lia|right; eauto].
      eapply tracks_goes; [exact Ht1|exact Htr1|exact Hg2|done|done].
    - apply runs_ret. exists g. rewrite Hd1. split_and!; try done. by left. }
  destruct Hupd as (err & s2 & Hr2 & g2 & Ht2 & (Hst2 & Hp2 & Ho2 & _) & Htr2 & Hv2 & Herr).
  assert (Hps : forall l s', passed d l s2 s' -> passed d l s s')
    by (intros l s'; apply passed_from; congruence).
  destruct (Z.eqb_spec err 0) as [->|Hne].
  - assert (Hround : round d (Z.max LIMIT (rc_size (rdc (dir s2)))) false g2 s2).
    { constructor; [done|by rewrite Hp2, Hp1|done|by left|lia]. }
    destruct (runs_cached_loop e d Hag Hrely _ (Z.le_max_l _ _) false g2 s2 Hround) as [fuel Hfuel].
    exists fuel. intros n Hn. unfold fuse_readdir_cached. apply runs_get_bind.
    eapply runs_Ok_bind; [exact Hr1|]. eapply runs_Ok_bind; [exact Hr2|]. simpl.
    eapply runs_mono; [by apply Hfuel|].
    intros ret s' (g' & l & Ht' & _ & Hp' & _ & _ & Hret). exists g', l.
    split; [done|]. split; [by apply Hps|]. destruct Hret; auto.
  - destruct Herr as [|Herr]; [done|].
    exists 0%nat. intros n _. unfold fuse_readdir_cached. apply runs_get_bind.
    eapply runs_Ok_bind; [exact Hr1|]. eapply runs_Ok_bind; [exact Hr2|].
    rewrite (proj2 (Z.eqb_neq _ _) Hne). apply runs_ret. exists g2, [].
    split; [done|]. split; [apply Hps, passed_refl|]. by right; right.
Qed.

Lemma runs_readdir g s : tinv d false None g s -> l_le d 0 (ctx_pos s) ->
  rc_version (rdc (dir s)) <= LIMIT ->
  exists fuel, forall n, (fuel <= n)%nat -> runs (fuse_readdir e c n) s
    (fun ret s' => exists g' l, tinv d false None g' s' /\ outcome s ret l s').
Proof.
  intros Ht Hl Hv. unfold fuse_readdir. destruct (is_bad c) eqn:Hbad.
  { exists 0%nat. intros n _. apply runs_ret. exists g, []. split; [done|].
    split; [apply passed_refl|]. right. right. left. by auto. }
  destruct (cache_dir c) eqn:Hcd.
  2:{ exists 0%nat. intros n _. apply runs_ret_bind. by apply (runs_uncached g s). }
  destruct (runs_cached g s Ht Hl Hv) as [fuel Hfuel]. exists fuel. intros n Hn.
  eapply runs_bind; [by apply Hfuel|]. intros ret s1 (g1 & l1 & Ht1 & Hp1 & Hret).
  destruct (Z.eqb_spec ret UNCACHED) as [->|Hne].
  - eapply runs_mono; [apply (runs_uncached g1 s1 Ht1); by apply (passed_le e d Hag l1 s)|].
    intros ret s2 (g2 & l2 & Ht2 & Hp2 & Hout). exists g2, (l1 ++ l2). split; [done|].
    split; [by eapply passed_trans|]. destruct Hout as [[-> Hl2]|]; [left|by right].
    split; [done|]. intros [_ ->]%app_nil. by apply Hl2.
  - apply runs_ret. exists g1, l1. split; [done|]. split; [done|].
    destruct Hret as [[-> Hl1]|[|Hu]]; [left; split; [done|]|done|].
    + intros Hnil. destruct (Hl1 Hnil); auto.
    + right. do 3 right. done.
Qed.
End Call.

(** ** A directory that does not change *)
(** The position after [k] of the entries. *)
Definition posn (D : list (list Z)) (k : nat) : Z := ends 0 (take k D).

(** The entries: records the kernel accepts, whose positions tell them apart; 0 is the
    position before the first. *)
Definition proper (D : list (list Z)) : Prop := Forall valid D /\ NoDup (0 :: (d_off <$> D)).

(** A reply to a request at a position has some of the entries from there on, at least
    one unless there are none; it fits a page. *)
Definition serves (e : world) (D : list (list Z)) : Prop :=
  forall t plus k buf, (k <= length D)%nat -> reply e t plus (posn D k) = inr buf ->
    len buf <= PAGE_SIZE /\ refused plus buf = false /\
    (exists n, records plus buf = take n (drop k D)) /\
    (buf = [] -> k = length D) /\ (buf <> [] -> records plus buf <> []).

(** What is cached is a beginning of the entries. *)
Definition listing_of (D : list (list Z)) : listing :=
  mk_listing (fun p r => exists k, D !! k = Some r /\ p = posn D k)
    (fun p => p = posn D (length D))
    (fun q p => exists j k, (j <= k <= length D)%nat /\ q = posn D j /\ p = posn D k) True.

Section Fixed.
Context (D : list (list Z)).
Hypothesis HD : proper D.

Lemma posn_0 : posn D 0 = 0.
Proof. done. Qed.

Lemma ends_last p l r : ends p (l ++ [r]) = d_off r.
Proof. by rewrite ends_app. Qed.

Lemma posn_S k r : D !! k = Some r -> posn D (S k) = d_off r.
Proof. intros H. unfold posn. by rewrite (take_S_r _ _ _ H), ends_last. Qed.

Lemma posn_offs k : (k <= length D)%nat -> (0 :: (d_off <$> D)) !! k = Some (posn D k).
Proof.
  destruct k as [|k]; intros Hk; [done|]. destruct (lookup_lt_is_Some_2 D k) as [r Hr]; [lia|].
  rewrite (posn_S _ _ Hr). change ((d_off <$> D) !! k = Some (d_off r)). by rewrite list_lookup_fmap, Hr.
Qed.

Lemma posn_inj j k : (j <= length D)%nat -> (k <= length D)%nat -> posn D j = posn D k -> j = k.
Proof.
  intros Hj Hk E. eapply (NoDup_lookup _ _ _ (posn D j)); [exact (proj2 HD)|by apply posn_offs|].
  rewrite E. by apply posn_offs.
Qed.

Lemma next_posn k r : (k <= length D)%nat -> l_next (listing_of D) (posn D k) r -> D !! k = Some r.
Proof.
  intros Hk (j & Hj & E). pose proof (lookup_lt_Some _ _ _ Hj). apply posn_inj in E; [by subst|done|lia].
Qed.

Lemma chain_entries n : forall k, chain (l_next (listing_of D)) (posn D k) (take n (drop k D)).
Proof.
  induction n as [|n IH]; intros k; [done|]. destruct (D !! k) as [r|] eqn:Hr.
  - rewrite (drop_S _ _ _ Hr). cbn [take chain]. split; [by exists k|]. rewrite <- (posn_S _ _ Hr). apply IH.
  - rewrite drop_ge by (by apply lookup_ge_None). done.
Qed.

Lemma ends_entries n : forall k, (k + n <= length D)%nat -> ends (posn D k) (take n (drop k D)) = posn D (k + n).
Proof.
  intros k Hk. unfold posn. rewrite <- ends_app. f_equal. by rewrite take_take_drop.
Qed.

(** Records that come one after the other from a position are the entries there. *)
Lemma chain_is_entries l : forall k, (k <= length D)%nat -> chain (l_next (listing_of D)) (posn D k) l ->
  l = take (length l) (drop k D) /\ (k + length l <= length D)%nat.
Proof.
  induction l as [|r l IH]; intros k Hk; cbn [chain length]; [by split; [|lia]|].
  intros [Hn Hc]. apply next_posn in Hn; [|done]. pose proof (lookup_lt_Some _ _ _ Hn).
  rewrite <- (posn_S _ _ Hn) in Hc. destruct (IH (S k)) as [Hl Hk']; [lia|done|].
  rewrite (drop_S _ _ _ Hn). cbn [take]. split; [by f_equal|lia].
Qed.

Lemma agrees_listing e : serves e D -> agrees e (listing_of D).
Proof.
  intros Hs. split.
  - intros p r -> Hn. apply next_posn in Hn; [|done]. apply lookup_lt_Some in Hn. lia.
  - intros p (j & k & Hjk & _ & Hp). exists k, k. by split; [lia|].
  - intros q p r (j & k & Hjk & -> & ->) Hne Hn. apply next_posn in Hn; [|lia].
    assert (j <> k) by (intros ->; done). exists (S j), k. rewrite (posn_S _ _ Hn). by split; [lia|].
  - intros p r (j & k & Hjk & _ & ->) Hn. apply next_posn in Hn; [|lia].
    pose proof (lookup_lt_Some _ _ _ Hn). exists O, (S k). rewrite (posn_S _ _ Hn). by split; [lia|].
  - intros t plus p (j & k & Hjk & _ & ->) Hrep. destruct (Hs t plus k [] ltac:(lia) Hrep) as (_ & _ & _ & He & _).
    cbn. by rewrite (He eq_refl).
  - intros t plus p buf (j & k & Hjk & _ & ->) Hrep.
    destruct (Hs t plus k buf ltac:(lia) Hrep) as (Hl & _ & (n & ->) & _). split; [done|apply chain_entries].
  - intros t plus p buf _ (j & k & Hjk & _ & ->) Hrep Hne.
    destruct (Hs t plus k buf ltac:(lia) Hrep) as (_ & Hr & _ & _ & Hn). by split; [apply Hn|].
Qed.
End Fixed.

(** ** The calls *)
(** A thread between two calls: it holds no lock, no WARN_ON has fired, its stream is at a
    place of the cache, and the cache is well formed. *)
Definition idle (d : listing) (s : rstate) : Prop := exists g, tinv d false None g s.

(** An error that has a cause outside the code. *)
Definition excused (e : world) (c : rdconf) (ret : Z) : Prop :=
  ret = - ENOMEM \/ (ret = - EIO /\ is_bad c = true) \/
  (exists t plus p, reply e t plus p = inl ret) \/ (exists t, update_err e t = ret).

(** C36: a directory that does not change is listed exactly.  From the position after [j] of
    its entries a call of [fuse_readdir] ends and has passed on the entries [j] to [m],
    each once, in order, with its own position, and left the reader after them, whether
    they came from the daemon, with or without READDIRPLUS, or from the cache, and
    whatever other readers add to the cache, end, reset or reclaim in between; none is
    passed on only at the end, when the reader has no room for the next one, or with an
    error of memory, of the daemon or of a bad inode.  No WARN_ON fires, no lock stays
    taken, and the cache holds a beginning of the entries again.  One race is excluded
    ([rely]): that a page a thread is about to create is used by others and reclaimed
    before it does. *)
Theorem readdir_lists e c D s j : proper D -> serves e D -> relies (listing_of D) (others e) ->
  idle (listing_of D) s -> rc_version (rdc (dir s)) <= LIMIT ->
  (j <= length D)%nat -> ctx_pos s = posn D j ->
  exists fuel, forall n, (fuel <= n)%nat -> runs (fuse_readdir e c n) s (fun ret s' =>
    idle (listing_of D) s' /\
    exists m, (j <= m <= length D)%nat /\ ctx_pos s' = posn D m /\
      ctx_out s' = ctx_out s ++ emitted_from (posn D j) (take (m - j) (drop j D)) /\
      ((ret = 0 /\ (m = j -> j = length D \/
          exists r, D !! j = Some r /\ room e (ctx_out s') (emits (posn D j) r) = false)) \/
       excused e c ret)).
Proof.
  intros HD Hs Hrely [g Ht] Hv Hj Hp. pose proof (agrees_listing D HD e Hs) as Hag.
  destruct (runs_readdir e c (listing_of D) Hag Hrely g s Ht) as [fuel Hfuel]; [|done|].
  { exists O, j. by split; [lia|]. }
  exists fuel. intros n Hn. eapply runs_mono; [by apply Hfuel|].
  intros ret s' (g' & l & Ht' & (Hc & Hp' & Ho) & Hret). split; [by exists g'|]. rewrite Hp in Hc, Hp', Ho.
  destruct (chain_is_entries D HD l j Hj Hc) as [Hl Hm]. exists (j + length l)%nat.
  replace (j + length l - j)%nat with (length l) by lia. rewrite <- Hl.
  split; [lia|]. split; [by rewrite Hp', Hl at 1; apply ends_entries; lia|]. split; [done|].
  destruct Hret as [ [-> Hnil]|[->|[ [-> [Hb|Hw]]|H]]]; [left|right..].
  - split; [done|]. intros Hlj. assert (l = []) as -> by (apply length_zero_iff_nil; lia). cbn in Hp'.
    destruct (Hnil eq_refl) as [(q & (j' & k & Hjk & -> & Hk) & Hfin)|[(r & _ & Hr & Hroom)|H]]; [left|right|by destruct H].
    + cbn in Hfin. apply (posn_inj D HD) in Hfin; [|lia|done]. rewrite Hp' in Hk. apply (posn_inj D HD) in Hk; lia.
    + rewrite Hp' in Hr, Hroom. exists r. by split; [apply (next_posn D HD)|].
  - by left.
  - right. by left.
  - by destruct Hw.
  - by right; right.
Qed.

(** C37: nothing the daemon sends brings a reader of a directory down.  Whatever the replies
    hold, as long as they fit the page, and whatever other readers do to the cache, a call
    of [fuse_readdir] ends, no WARN_ON fires, no lock stays taken, the cache still holds
    whole records that were checked, and what was passed on are records with a name of 1
    to 1024 bytes without a slash, one after the other; it returns 0 or an error of
    memory, of the daemon, or -EIO.  The race of [rely] is excluded here too. *)
Theorem readdir_any_daemon e c s : replies_fit e -> relies anything (others e) -> idle anything s ->
  rc_version (rdc (dir s)) <= LIMIT ->
  exists fuel, forall n, (fuel <= n)%nat -> runs (fuse_readdir e c n) s (fun ret s' =>
    idle anything s' /\
    (exists l, Forall valid l /\ ctx_out s' = ctx_out s ++ emitted_from (ctx_pos s) l /\
       ctx_pos s' = ends (ctx_pos s) l) /\
    (ret = 0 \/ ret = - EIO \/ excused e c ret)).
Proof.
  intros Hfit Hrely [g Ht] Hv. pose proof (agrees_anything e Hfit) as Hag.
  destruct (runs_readdir e c anything Hag Hrely g s Ht I Hv) as [fuel Hfuel]. exists fuel. intros n Hn.
  eapply runs_mono; [by apply Hfuel|]. intros ret s' (g' & l & Ht' & (Hc & Hp & Ho) & Hret).
  split; [by exists g'|]. split.
  - exists l. split; [|done]. clear -Hc. revert Hc. generalize (ctx_pos s).
    induction l as [|r l IH]; intros p; [done|]. intros [Hr Hl]. constructor; [done|by eapply IH].
  - destruct Hret as [ [-> _]|[->|[ [-> _]|H]]]; [by left|by right; right; left|by right; left|right; right].
    by right; right.
Qed.
