(* ===== verification/KDirEx.v ===== *)
(** * Reading directories, on examples *)
From S2P Require Import Prelude Types FsOps Dir KDir KDirFacts KDirCache KDirRun KDirParse KDirRead KDirPack KDirList.
#[local] Open Scope Z_scope.

(** A directory with the entries "a" and "bc". *)
Definition ex_a : dir_entry := mk_dir_entry "a" (set_st_mode 0x81a4 (set_st_ino 11 stat0)) 1.
Definition ex_bc : dir_entry := mk_dir_entry "bc" (set_st_mode 0x41ed (set_st_ino 12 stat0)) 2.
Definition ex_entries : list (list Z) := [record_of ex_a; record_of ex_bc].

(** The daemon sends one entry at a time; with READDIRPLUS without a node. *)
Definition ex_one (plus : bool) (en : dir_entry) : list Z :=
  (if plus then replicate 128 0 else []) ++ record_of en.
Definition ex_reply (plus : bool) (p : Z) : Z + list Z :=
  if p =? 0 then inr (ex_one plus ex_a) else if p =? 1 then inr (ex_one plus ex_bc) else inr [].

(** Every other time somebody runs, all pages of the cache are reclaimed. *)
Definition reclaim (t : nat) (w : window) (d : dirst) : dirst :=
  match w with
  | Anywhere => if Nat.even t then set_pages ∅ d else d
  | _ => d
  end.

Definition ex_world (rep : bool -> Z -> Z + list Z) (splice : Z) : world :=
  mk_world reclaim (fun _ => true) (fun _ => []) (fun _ _ => true) (fun _ => rep) (fun _ => 0)
    (fun _ => None) (fun _ => ([InLookup], - ENOMEM)) (fun _ => true) (fun _ => splice).
Definition ex_conf : rdconf := mk_rdconf true true true true false.
Definition ex_start : rstate :=
  mk_rstate (mk_dir (mk_rdc false 0 0 0 (0, 0) 0) ∅ (0, 0) 0 false) (mk_stream 0 0 0) 0 []
    false None false [] [] 0.

Lemma reclaim_relies d : relies d reclaim.
Proof.
  intros t w s g Hwf. exists g. assert (Hid : rely d w s g s g) by (by apply rely_refl).
  destruct w; [|exact Hid|exact Hid]. unfold reclaim. destruct (Nat.even t); [|exact Hid].
  split; [by apply wf_lose; [|apply map_empty_subseteq]|]. split; [split; [cbn; lia|by intros _]|].
  cbn. split; [lia|]. split; [lia|done].
Qed.

Lemma ex_idle d : idle d ex_start.
Proof.
  exists []. assert (Hwf : wf d [] (dir ex_start)).
  { split; try done; try (by constructor). }
  split; try done. intros _. by apply at_pos_start.
Qed.

Lemma ex_proper : proper ex_entries.
Proof. apply (bool_decide_unpack _). vm_compute. exact I. Qed.

Lemma ex_serves splice : serves (ex_world ex_reply splice) ex_entries.
Proof.
  intros t plus k buf Hk Hrep. change (ex_reply plus (posn ex_entries k) = inr buf) in Hrep.
  assert (Hcase : k = 0%nat \/ k = 1%nat \/ k = 2%nat) by (cbn in Hk; lia).
  destruct Hcase as [-> | [-> | ->]]; destruct plus; vm_compute in Hrep; injection Hrep as <-;
    (split; [by vm_compute|]); (split; [by vm_compute|]);
    (split; [first [by exists 1%nat; vm_compute|by exists 0%nat; vm_compute]|]); by split.
Qed.

Lemma readdir_lists_witness :
  exists fuel, forall n, (fuel <= n)%nat ->
    runs (fuse_readdir (ex_world ex_reply 0) ex_conf n) ex_start (fun ret s' =>
      idle (listing_of ex_entries) s' /\
      exists m, (0 <= m <= 2)%nat /\ ctx_pos s' = posn ex_entries m /\
        ctx_out s' = [] ++ emitted_from 0 (take (m - 0) ex_entries) /\
        ((ret = 0 /\ (m = 0%nat -> 0%nat = 2%nat \/
            exists r, ex_entries !! 0%nat = Some r /\ true = false)) \/
         excused (ex_world ex_reply 0) ex_conf ret)).
Proof.
  exact (readdir_lists (ex_world ex_reply 0) ex_conf ex_entries ex_start 0 ex_proper (ex_serves 0)
    (reclaim_relies _) (ex_idle _) ltac:(vm_compute; discriminate) (Nat.le_0_l 2) eq_refl).
Defined.

(** Replies without sense. *)
Definition ex_junk (plus : bool) (p : Z) : Z + list Z := inr (replicate 200 255).

Lemma readdir_any_daemon_witness :
  exists fuel, forall n, (fuel <= n)%nat ->
    runs (fuse_readdir (ex_world ex_junk 0) ex_conf n) ex_start (fun ret s' =>
      idle anything s' /\
      (exists l, Forall valid l /\ ctx_out s' = [] ++ emitted_from 0 l /\ ctx_pos s' = ends 0 l) /\
      (ret = 0 \/ ret = - EIO \/ excused (ex_world ex_junk 0) ex_conf ret)).
Proof.
  apply (readdir_any_daemon (ex_world ex_junk 0) ex_conf ex_start).
  - intros t plus p buf [= <-]. vm_compute. discriminate.
  - apply reclaim_relies.
  - apply ex_idle.
  - vm_compute. discriminate.
Defined.

(** ** Replies packed by the library *)
Definition ex_node (ino : Z) : fuse_entry_param :=
  Types.mk_entry ino 1 (set_st_mode 0x81a4 (set_st_ino ino stat0)) (e_attr_timeout entry0) (e_entry_timeout entry0).


(** ** What the code does in the cases left out *)
(** Two calls list the directory and end it; then the cache has both entries, and a third
    reader gets them from there. *)
Definition calls (e : world) (s : rstate) (n : nat) : res rstate :=
  Nat.iter n (fun r => match r with
                       | Ok s => match fuse_readdir e ex_conf 20 s with Ok (_, s) => Ok s | Crash x => Crash x end
                       | x => x end) (Ok s).
Definition quiet : world :=
  mk_world (fun _ _ d => d) (fun _ => true) (fun _ => []) (fun _ _ => true) (fun _ => ex_reply) (fun _ => 0)
    (fun _ => None) (fun _ => ([], - ENOMEM)) (fun _ => true) (fun _ => 0).

Example listed_and_cached :
  exists s, calls quiet ex_start 3 = Ok s /\ cached (rdc (dir s)) = true /\ rc_size (rdc (dir s)) = 64 /\
    ctx_out s = [mk_emitted [97] 11 8 0; mk_emitted [98; 99] 12 4 1].
Proof. eexists. vm_compute. done. Qed.

(** When [d_splice_alias] fails, the lookup of the node was counted already, and it is
    also sent back with a FORGET. *)
Example splice_error_counts_and_forgets :
  exists s, parse_dirplusfile (ex_world ex_reply (- ENOMEM)) ex_conf 5 false (packed_plus (ex_a, ex_node 7)) ex_start =
    Ok (0, s) /\ counted s = [7] /\ forgotten s = [7].
Proof. eexists. vm_compute. done. Qed.

(** A page may be reclaimed between its use by another reader and [find_or_create_page],
    when the cache was reset and filled again meanwhile: the page is created a second
    time, and as its version does not fit, left as it is.  The next reader of the cache
    parses whatever it holds. *)
Definition refilled (t : nat) (w : window) (d : dirst) : dirst :=
  match w with
  | Creating 0 => mk_dir (mk_rdc true 32 1 1 (0, 0) 0) ∅ (0, 0) 0 false
  | _ => d
  end.
Definition race : world :=
  mk_world refilled (fun _ => true) (fun _ => replicate (Z.to_nat PAGE_SIZE) 255) (fun _ _ => true)
    (fun _ => ex_reply) (fun _ => 0) (fun _ => None) (fun _ => ([], - ENOMEM)) (fun _ => true) (fun _ => 0).

Definition rewound (s : rstate) : rstate := set_stream (mk_stream 0 0 0) (set_ctx_pos 0 s).

Example race_leaves_garbage :
  match fuse_readdir race ex_conf 20 ex_start with
  | Ok (ret, s) => ret = 0 /\ match fuse_readdir quiet ex_conf 20 (rewound s) with
                              | Ok (ret, s) => ret = - EIO /\ warned s = true
                              | Crash _ => False
                              end
  | Crash _ => False
  end.
Proof. vm_compute. done. Qed.

(** A reader at a position the complete cache does not have is sent to the daemon, but
    gets the end of the directory when the cached records fill whole pages. *)
Definition full (k : nat) : rstate :=
  let recs := (fun i => record_of (mk_dir_entry "x" stat0 (Z.of_nat i + 1))) <$> seq 0 k in
  mk_rstate (mk_dir (mk_rdc true (32 * Z.of_nat k) (Z.of_nat k) 0 (0, 0) 0) {[ 0 := page_bytes recs ]} (0, 0) 0 false)
    (mk_stream 0 0 0) 9999 [] false None false [] [] 0.
Definition more : world :=
  mk_world (fun _ _ d => d) (fun _ => true) (fun _ => []) (fun _ _ => true)
    (fun _ _ p => inr (record_of (mk_dir_entry "y" stat0 (p + 1)))) (fun _ => 0)
    (fun _ => None) (fun _ => ([], - ENOMEM)) (fun _ => true) (fun _ => 0).
Definition found (k : nat) : option (Z * nat) :=
  match fuse_readdir more (mk_rdconf false false false true false) 20 (full k) with
  | Ok (ret, s) => Some (ret, length (ctx_out s))
  | Crash _ => None
  end.

Example full_page_hides_the_rest : found 127 = Some (0, 1%nat) /\ found 128 = Some (0, 0%nat).
Proof. vm_compute. done. Qed.
